(* ===== verification/_CoqProject ===== *)
-Q . S2P
Prelude.v
Quantities.v
MovingTime.v
ElapsedTime.v
PhoneAlarm.v
Parser.v
PhoneDriveInput.v
BegodeFrame.v
VeteranFrame.v
VescValues.v
VescFrame.v
VescStream.v
Commands.v
Telemetry.v
VoltageSag.v
ChargeEstimate.v
Readback.v
BegodeTelemetry.v
VeteranTelemetry.v
BegodeCharging.v
Settings.v
DeviceActions.v
RequestQueue.v
VehicleIdentity.v
SessionIO.v
ConnectionLifecycle.v
CaptureLifecycle.v
PhoneDrive.v
PhoneDriveSafety.v
PhoneDriveTheorems.v
SessionState.v
Sessions.v
BegodeSession.v
VeteranSession.v
ControlWire.v
ControlEncoding.v
DeviceCatalog.v
RideSession.v
Text.v
RideLocation.v
RideRecorder.v
RideRoute.v
RideMotion.v
RideRecovery.v
MusicRequests.v
MusicHistory.v
MusicObservation.v
MusicLifecycle.v
MusicSources.v
RideRecording.v
RideMusic.v
RideConnection.v
RideOwner.v
