(* ===== verification/Prelude.v ===== *)
(** * libcutout: a verified model of the Rust core

    libcutout talks to electric unicycles and VESC boards over Bluetooth LE.
    Bytes arrive in arbitrary notification chunks, are reassembled into frames,
    decoded into physical quantities and merged into the state a rider sees;
    requests, settings and motor commands go the other way, each guarded by an
    owner that decides when it may be written.  Around that core stand the
    owners of the slower life cycles: the Bluetooth connection, a capture
    recording, a recorded ride, a logical ride with its Live Activity, alarms.
    All of them are deterministic reducers: a state, an event with its time,
    the next state and an answer.  This library models those reducers as pure
    functions with the state passed explicitly, under the names of the source,
    and proves what makes each of them correct.

    Paths below are relative to [src/crates/].

    ** Conventions

    A machine integer is a [Z]; saturation, wrapping and checked arithmetic are
    written at each operation with the operators of this file.  A monotonic
    timestamp is its milliseconds.  Bytes are [Z] between 0 and 255.  A Rust
    struct is a [Record] updated with [r <| field := v |>], [Result] is
    [result], a panic is [None].  A component driven by events is given one
    [Inductive] of its calls and a step function, and is run by [run] of the
    section [Machine] below, whose lemmas (cutting a run, [Invariant],
    [reachable]) carry the trace theorems.

    ** The parts

    Byte streams ([cutout-protocols/src]):
    - [Parser]: [parser.rs], bounds-checked cursors, and the class of a byte
      decoder whose outputs do not depend on the chunks it is fed.
    - [BegodeFrame]: [begode_frame.rs]; [VeteranFrame]: [veteran_frame.rs].
      Reassemblers.  A stream of noise-free frames is delivered completely and
      in order, and whatever is delivered was in the stream.  The CRC-32 of a
      package is the parameter of [VeteranFrame].
    - [VescFrame], [VescValues], [VescStream]: [vesc_codec.rs].  Packet
      parsing and the encoders of outgoing packets, the decoder of the values
      telemetry with its mask, and the stream decoder with its compaction,
      resynchronisation and bounded reply batches.  Parameters: the CRC-16, the
      packet decoder of the third-party package, and the two decoders that
      read floating point.  [feed_loop] runs on fuel; the number of unread
      bytes is enough ([vesc_loop_terminates]).

    Quantities and decisions ([cutout-core/src]):
    - [Quantities]: the integer newtypes of [lib.rs] and their conversions.
    - [Commands]: commands, capabilities, and the arming that lets a motor
      current or a stationary setting through ([lib.rs]).
    - [RequestQueue]: the request tracker, the urgency queue, the scheduler
      with its ageing, polling plans ([lib.rs]); the scheduler refines a list.
    - [Settings]: [settings.rs] and [device_settings.rs], the reducer that
      confirms a write only by a later trusted readback.  [DeviceActions]:
      [device_actions.rs], horn, trip reset, two-step calibration.
    - [PhoneAlarm]: [phone_alarm.rs], evaluator, hysteresis, rate limits and
      the manager that accounts for every request it made.
    - [ConnectionLifecycle], [CaptureLifecycle]: the files of those names;
      attempt tokens, retries and detection; stages, receipts and flushes.
    - [RideSession]: [ride_lifecycle.rs], the logical ride.  [Projection] and
      [contract] are the abstract specification of the Live Activity, and
      [ride_refines_activity] the refinement.  JSON and UUID are parameters.

    Estimates of the pack ([cutout-core/src/energy_estimate.rs]):
    - [VoltageSag]: the resistance learned from load steps and the sag it
      projects, with [controller_battery.rs].  A shown sag stays within what
      was learned, an ideal pack is learned exactly, and a stored model is
      restored to the same projections.
    - [ChargeEstimate]: the time to full.  The bounds of an estimate enclose
      it, it is the exact quotient at the mean current, and behind it are
      fresh charging samples of one session, pack and provenance.

    What a session knows ([cutout-core/src]):
    - [Telemetry]: [battery_current.rs] and the updates and snapshot of
      [lib.rs].  The snapshot is what was last said about each field
      ([snapshot_is_latest_known]); charging is shown only on fresh evidence.
    - [Readback]: [battery_page.rs] and the read-only responses of [lib.rs].
      A [BTreeMap] is its sorted association list.  The cell summary equals a
      description by the readings of each cell; the shown voltage survives up
      to three outliers among seven cycles.
    - [SessionState]: [session_state.rs] and [HostSession].  A protocol engine
      is an instance of the class [ProtocolSession], and the host's theorems
      hold of every instance.  Battery pages are retained one per identity
      with seven cycles of history; cell pages are numbered without gaps;
      [next_probe_expiry] is exact; a finished capture releases only its own
      connection.

    The Begode wheel ([cutout-protocols/src]):
    - [BegodeTelemetry]: [begode_telemetry.rs] and [begode_bms.rs], the decoders
      of the three live frames, the battery summary and the cell pages, and
      what each reports; a wheel's fields survive encoding and decoding.
    - [BegodeCharging]: [begode_charging.rs].  Charging is inferred only for a
      wheel that stood still through a sustained rise of its voltage, from
      fresh evidence of one battery source in order, and the wake-up is exact.
    - [BegodeSession]: the context kept across frames and the decoder from
      notifications to events.  However the stream is cut, the events are
      those of its frames, unless a frame begins like a header that starts
      again; suppressed charge modes hide nothing.

    The Veteran wheel ([cutout-protocols/src]):
    - [VeteranTelemetry]: [veteran_telemetry.rs], [veteran_bms.rs] and
      [battery_profile.rs].  What a wheel puts into a header or a battery page
      is what is read, but for the sign of the pack currents, and the sixty
      cells are numbered without repetition.
    - [VeteranSession]: the decoder from notifications to events, with the
      command mode and the retained settings page ([request_encoder.rs],
      [raw_settings.rs]).  However the stream is cut, the events are those of
      its frames.

    Sessions ([cutout-core/src/lib.rs], [cutout-protocols/src/session.rs]):
    - [SessionIO]: inputs, write payloads, notification evidence, events.
    - [Sessions]: the read-only, benign-control, settings and
      dangerous-control shells over the class [NotificationDecoder] and the
      record [ModelSpec] of a model's constants and encoders.  A stationary
      setting is written only under a live arm that nothing has withdrawn
      (what a tick itself reports does not: it is not looked at); a setting of several steps is written in order and, when ticked on
      schedule, whole; the deadline of an authorization is exact.
      [BegodeNotificationDecoder] and [VeteranNotificationDecoder] are instances
      of the class, and every shell an instance of the class [ProtocolSession] of [SessionState].

    Controls and settings of the wheels ([cutout-protocols/src]):
    - [ControlWire]: [control_wire.rs] and its tables.  Two destinations of a
      table that compiles are never confused, and what is sent is what a device
      that checks length and checksum reads back.
    - [ControlEncoding]: [settings_wire.rs], [request_encoder.rs], [probe.rs]
      and the models of [session.rs].  A dialect is an instance of the class
      [Dialect]: what it sends says which command it was.
    - [DeviceCatalog]: [device_settings.rs] for the Aero and the Falcon.  A
      shown control is exactly what is accepted and can be sent, and a setting
      written is read back from the settings page as the value requested.

    The phone as a throttle ([cutout-protocols/src/device_connection.rs],
    [device_connection/phone_drive.rs], [device_session.rs],
    [cutout-core/src/phone_drive.rs], [vehicle.rs]):
    - [PhoneDriveInput]: budgets, their text form, gestures and input
      generations.  [VehicleIdentity]: which vehicles may be driven.
    - [PhoneDrive]: the session itself, one machine [drive_step] with every
      public method as an input.  [PhoneDriveSafety]: its invariant and the
      lemmas of each handler.  [PhoneDriveTheorems]: no setpoint without a
      live contact on a verified vehicle, expiry of a contact releases the
      motor, writes are numbered without a gap, cancellation is final, and the
      exact refusals of activation.

    Recorded rides ([cutout-ride-maps/src]):
    - [MovingTime]: [moving_time.rs] with the durable state of [recording.rs];
      the projection equals a reference that classifies every millisecond.
      The splitting loop runs on fuel 3, proved enough.
    - [ElapsedTime]: [elapsed_time.rs], [lifecycle.rs].
    - [RideLocation]: [coordinate.rs], [location.rs], [summary.rs] and the
      admission policy of [recording.rs].  The great-circle distance, computed
      in floating point, is the parameter of every definition that uses it.
    - [RideRecorder]: the recorder of [recording.rs], each method under its
      name.  [RideRoute]: the recorder as the machine [recorder_step].  Its at
      most 4,096 points and its totals are those of the complete route; its
      duration is the sum of the intervals in which it was active; a restart
      keeps what the ride shows; an admission is recorded at most once.
    - [RideMotion]: [libcutout-persistence/src/recording.rs].  The 64 changes
      of motion it keeps answer as all that was heard since the last
      restoration would, or say that the time was retired; also the fresh speed of wheel and phone, the work asked
      of the location provider and the in-memory session.  The rounding of the
      floating-point phone speed is a parameter.
    - [RideRecovery]: [recovery.rs], the ordered evidence that the app was
      away, and what becomes of a ride found interrupted or paused.
    - [RideRecording]: [cutout-application/src/ride_recording.rs] and its
      [recovery.rs], the owner of the live recording.  The answers of the
      database worker and of the music queue are arguments of the operation
      that awaits them, and a passed fence answers every earlier write.  What
      runs under one lock is one definition, so that the finishes that take the
      lock twice are two ([await_transition] and [publish_transition], [await_stop]
      and [publish_stop], [await_admission] and [publish_admission]).
    - [RideOwner]: that owner as the machine [owner_step], whose state also
      holds the operations begun and not finished; a finish that takes the lock
      twice is two calls, and others may come between.  Leases are exclusive;
      location writes are reported once, and in order unless a call reports
      between those two locks; the admission recorder is the durable one plus the
      pending writes ([same_route], an equivalence
      coarser than equality); a lifecycle is shown only after its commit.
    - [RideConnection]: [cutout-application/src/ride_recording/
      verified_connection.rs].  What an identified vehicle does to the
      recording, planned on a copy and made once it is committed; [RideOwner]
      shows that the recording follows the plan whatever comes in between.
    - [RideMusic]: [cutout-application/src/ride_recording/music.rs].  The
      cached music policy, read and written around queued deletions, follows
      the policies the database stores, whatever the order in which the
      callers poll their answers; only the deletion and redaction of a stored
      ride go past it.  The worker answers in the order of its
      queue, so the answer of a write is known when it is queued.

    Music ([cutout-music/src]; [Text] holds what the source uses of Rust's
    strings):
    - [MusicRequests]: [ids.rs], [callback_epoch.rs], [connection.rs],
      [player_request.rs], [monitor.rs].  Every owner of identities is an
      instance of the class [IdentitySource], and an identity once retired is
      refused for ever; recovery is bounded and on time.
    - [MusicHistory]: [model.rs], [history.rs].  A text is its list of Unicode
      scalars; the search for a character boundary runs on fuel 3, enough for
      characters of at most four bytes.  Redacting an event gives what the
      opaque policy would have recorded.
    - [MusicObservation]: [observation.rs], skip correlation and the history
      waiting for storage, which is acknowledged in order.
    - [MusicLifecycle]: [provider_lifecycle.rs], the owner of one provider,
      one machine [lifecycle_step].  A transport request is reported once, has
      a live owner while it is pending, and history waits only for it; a skip
      is recorded only for an accepted command.
    - [MusicSources]: [soundcloud.rs], [soundcloud_auth.rs],
      [soundcloud_player.rs], [spotify.rs], [spotify/playback.rs].  What JSON
      and URL parsing give, and the retry delay read as floating point, are
      parameters.

    A file requires the files of the components it calls: [VescStream] feeds
    [VescFrame] and [VescValues]; [PhoneDrive] uses the encoder of
    [VescFrame], the gestures of [PhoneDriveInput] and the identity of
    [VehicleIdentity]; [Settings] and [DeviceActions] use the arming and the
    evidence of [Commands]; [BegodeSession] feeds [BegodeFrame] into
    [BegodeTelemetry] and [BegodeCharging], [VeteranSession] feeds
    [VeteranFrame] into [VeteranTelemetry]; [ControlEncoding] selects from the
    tables of [ControlWire] and gives [Sessions] its models, [DeviceCatalog]
    asks it what can be sent; [SessionState] joins [ConnectionLifecycle],
    [CaptureLifecycle], [Telemetry] and [Readback]; [MusicLifecycle] joins
    [MusicRequests] and [MusicObservation].  [RideRecording] joins
    [RideRoute]'s recorder, [RideMotion] and [RideRecovery].  The process-wide counters
    [NEXT_PHONE_ALARM_REQUEST_ID], [NEXT_REQUEST_ID] and
    [NEXT_RECORDING_GENERATION] are passed explicitly.

    ** Not modelled

    The VESC notification decoder, which dispatches to a third-party packet
    parser, the settings images of VESC and Refloat, whose fields are floats,
    and the identification of families by Bluetooth names and services.
    The moving-time evidence that [cutout-application] sends with a write.
    Floating point (VESC statistics and motor configuration, map projection),
    text formats of third parties (camera HTTP and RTSP), capture container
    and database I/O, the asynchronous Bluetooth adapter, the command line,
    the web server, the foreign-function layer and the apps: they are glue
    around the reducers modelled here or live in packages.  The slices of the
    session root that belong to other owners (camera, ride, settings, actions)
    and the texts of the device picker are left out of [SessionState].  Logging,
    formatting and serde derives are left out of every component. *)

From Stdlib Require Export ZArith Lia.
From Stdlib Require Import Sorted.
From stdpp Require Export base tactics decidable option list numbers strings.
From stdpp Require Export gmap.

#[global] Open Scope Z_scope.

(** ** Machine integers

    A Rust [uN] or [iN] is a [Z]; the operation decides what happens at the
    width.  The maxima are literals, so that [lia] sees them as constants. *)

Definition u8_max : Z := 255.
Definition u16_max : Z := 65535.
Definition u32_max : Z := 4294967295.
Definition u64_max : Z := 18446744073709551615.
Definition i8_min : Z := -128.
Definition i8_max : Z := 127.
Definition i16_min : Z := -32768.
Definition i16_max : Z := 32767.
Definition i32_min : Z := -2147483648.
Definition i32_max : Z := 2147483647.
Definition i64_min : Z := -9223372036854775808.
Definition i64_max : Z := 9223372036854775807.
Definition u128_max : Z := 340282366920938463463374607431768211455.

(** [in_u m z]: [z] is a value of the unsigned type whose maximum is [m]. *)
Definition in_u (m z : Z) : Prop := 0 <= z <= m.
Definition in_i (lo hi z : Z) : Prop := lo <= z <= hi.

(** [saturating_add], [saturating_sub], [saturating_mul] of an unsigned type. *)
Definition sat_add (m a b : Z) : Z := Z.min m (a + b).
Definition sat_sub (a b : Z) : Z := Z.max 0 (a - b).
Definition sat_mul (m a b : Z) : Z := Z.min m (a * b).
(** [wrapping_add] of an unsigned type. *)
Definition wrap_add (m a b : Z) : Z := (a + b) mod (m + 1).
Definition wrap_mul (m a b : Z) : Z := (a * b) mod (m + 1).
(** [checked_add], [checked_sub], [checked_mul] of an unsigned type. *)
Definition checked_add (m a b : Z) : option Z :=
  if bool_decide (a + b <= m) then Some (a + b) else None.
Definition checked_sub (a b : Z) : option Z :=
  if bool_decide (b <= a) then Some (a - b) else None.
Definition checked_mul (m a b : Z) : option Z :=
  if bool_decide (a * b <= m) then Some (a * b) else None.
(** [Ord::clamp], and the saturating signed operations built on it. *)
Definition clamp (lo hi z : Z) : Z := Z.max lo (Z.min hi z).
Definition sat_add_i (lo hi a b : Z) : Z := clamp lo hi (a + b).
Definition sat_sub_i (lo hi a b : Z) : Z := clamp lo hi (a - b).
(** An [as] cast to the signed type of [n] values ([n] a power of two). *)
Definition to_signed (n z : Z) : Z :=
  let m := z mod n in if bool_decide (2 * m < n) then m else m - n.

Ltac unfold_ints :=
  unfold in_u, in_i, sat_add, sat_sub, sat_mul, wrap_add, wrap_mul,
    checked_add, checked_sub, checked_mul, sat_add_i, sat_sub_i, clamp,
    u8_max, u16_max, u32_max, u64_max, u128_max,
    i8_min, i8_max, i16_min, i16_max, i32_min, i32_max, i64_min, i64_max in *.

(** Arithmetic over machine integers, without and with divisions. *)
Ltac int_lia := unfold_ints; lia.
Ltac div_lia := unfold_ints; Z.to_euclidean_division_equations; lia.
Ltac div_nia := unfold_ints; Z.to_euclidean_division_equations; nia.

Lemma sat_add_range m a b : 0 <= a -> 0 <= b -> 0 <= m -> in_u m (sat_add m a b).
Proof. int_lia. Qed.
Lemma sat_sub_range m a b : in_u m a -> 0 <= b -> in_u m (sat_sub a b).
Proof. int_lia. Qed.
Lemma wrap_add_range m a b : 0 <= m -> in_u m (wrap_add m a b).
Proof. intros. unfold in_u, wrap_add. pose proof (Z.mod_pos_bound (a + b) (m + 1)). lia. Qed.
Lemma wrap_add_small m a b : 0 <= a + b <= m -> wrap_add m a b = a + b.
Proof. intros. unfold wrap_add. apply Z.mod_small. lia. Qed.
Lemma clamp_range lo hi z : lo <= hi -> lo <= clamp lo hi z <= hi.
Proof. int_lia. Qed.
Lemma clamp_id lo hi z : lo <= z <= hi -> clamp lo hi z = z.
Proof. int_lia. Qed.
Lemma clamp_mono lo hi a b : a <= b -> clamp lo hi a <= clamp lo hi b.
Proof. int_lia. Qed.
Lemma checked_add_Some m a b c : checked_add m a b = Some c <-> a + b <= m /\ c = a + b.
Proof. unfold checked_add. case_bool_decide; split; intros; simplify_eq; intuition congruence. Qed.
Lemma checked_sub_Some a b c : checked_sub a b = Some c <-> b <= a /\ c = a - b.
Proof. unfold checked_sub. case_bool_decide; split; intros; simplify_eq; intuition congruence. Qed.
Lemma checked_mul_Some m a b c : checked_mul m a b = Some c <-> a * b <= m /\ c = a * b.
Proof. unfold checked_mul. case_bool_decide; split; intros; simplify_eq; intuition congruence. Qed.
Lemma checked_add_None m a b : checked_add m a b = None <-> m < a + b.
Proof. unfold checked_add. case_bool_decide; split; intros; [done|lia|lia|done]. Qed.
Lemma checked_sub_None a b : checked_sub a b = None <-> a < b.
Proof. unfold checked_sub. case_bool_decide; split; intros; [done|lia|lia|done]. Qed.

Create HintDb ints discriminated.
#[export] Hint Resolve sat_add_range sat_sub_range wrap_add_range clamp_range : ints.
#[export] Hint Extern 5 (_ <= _ <= _) => lia : ints.

(** ** Fallible code *)

(** Rust's [Result], success first. *)
Inductive result (A E : Type) : Type :=
| Ok (a : A)
| Err (e : E).
Arguments Ok {A E} _.
Arguments Err {A E} _.

#[global] Instance result_eq_dec `{EqDecision A, EqDecision E} : EqDecision (result A E).
Proof. solve_decision. Defined.

Definition result_bind {A B E} (r : result A E) (f : A -> result B E) : result B E :=
  match r with Ok a => f a | Err e => Err e end.
Definition ok_or {A E} (o : option A) (e : E) : result A E :=
  match o with Some a => Ok a | None => Err e end.
Definition is_ok {A E} (r : result A E) : bool :=
  match r with Ok _ => true | Err _ => false end.
Definition result_ok {A E} (r : result A E) : option A :=
  match r with Ok a => Some a | Err _ => None end.

Declare Scope cutout_scope.
Delimit Scope cutout_scope with cutout.
Notation "x <-? e ; k" := (result_bind e (fun x => k))
  (at level 100, e at next level, k at level 200, right associativity) : cutout_scope.
#[global] Open Scope cutout_scope.

Lemma result_bind_Ok {A B E} (r : result A E) (f : A -> result B E) b :
  result_bind r f = Ok b <-> exists a, r = Ok a /\ f a = Ok b.
Proof. destruct r; simpl; split; [eauto|intros (?&?&?)|done|intros (?&?&?)]; congruence. Qed.
Lemma ok_or_Ok {A E} (o : option A) (e : E) a : ok_or o e = Ok a <-> o = Some a.
Proof. destruct o; simpl; split; congruence. Qed.

(** A handler's reply, relabelled: the state is the handler's. *)
Definition relabel {S A B} (f : A -> B) (r : S * A) : S * B := (r.1, f r.2).
Notation "f <$$> r" := (relabel f r) (at level 61, left associativity) : cutout_scope.

(** [Iterator::min] of a finite iterator. *)
Definition min_option (l : list Z) : option Z :=
  match l with [] => None | x :: rest => Some (foldr Z.min x rest) end.
Lemma foldr_min_spec x l : foldr Z.min x l ∈ x :: l /\ forall y, y ∈ x :: l -> foldr Z.min x l <= y.
Proof.
  induction l as [|z l [IH1 IH2]]; simpl.
  - split; [apply list_elem_of_here|]. intros y Hy. apply list_elem_of_singleton in Hy. lia.
  - split.
    + destruct (Z.min_spec z (foldr Z.min x l)) as [[_ ->]|[_ ->]]; [set_solver|].
      apply elem_of_cons in IH1. set_solver.
    + intros y Hy. apply elem_of_cons in Hy as [->|Hy]; [|apply elem_of_cons in Hy as [->|Hy]].
      * specialize (IH2 x ltac:(apply list_elem_of_here)). lia.
      * lia.
      * specialize (IH2 y ltac:(by apply list_elem_of_further)). lia.
Qed.
Lemma min_option_Some l m : min_option l = Some m -> m ∈ l /\ forall x, x ∈ l -> m <= x.
Proof. destruct l as [|x l]; [done|]. intros [= <-]. apply foldr_min_spec. Qed.
Lemma min_option_None l : min_option l = None -> l = [].
Proof. by destruct l. Qed.

(** Strictly increasing lists. *)
Lemma StronglySorted_snoc (l : list Z) x :
  StronglySorted Z.lt l -> Forall (fun y => y < x) l -> StronglySorted Z.lt (l ++ [x]).
Proof.
  induction 1 as [|y l Hl IH Hy]; intros Hx; simpl; [repeat constructor|].
  apply Forall_cons in Hx as [Hyx Hx]. constructor; [auto|].
  apply Forall_app. split; [done|by repeat constructor].
Qed.
Lemma StronglySorted_snoc_last (l : list Z) x :
  StronglySorted Z.lt l -> (forall y, last l = Some y -> y < x) -> StronglySorted Z.lt (l ++ [x]).
Proof.
  intros Hs Hx. apply StronglySorted_snoc; [done|]. destruct l as [|z l _] using rev_ind; [done|].
  specialize (Hx z ltac:(by rewrite last_snoc)). apply Forall_app. split; [|by repeat constructor].
  clear -Hs Hx. induction l as [|y l IH]; [done|].
  apply StronglySorted_inv in Hs as [Hs [Hy Hz]%Forall_app]. apply Forall_cons in Hz as [Hz _].
  constructor; [lia|auto].
Qed.
Lemma StronglySorted_sublist {A} (R : A -> A -> Prop) (l l' : list A) :
  l `sublist_of` l' -> StronglySorted R l' -> StronglySorted R l.
Proof.
  induction 1 as [|x l l' Hl IH|x l l' Hl IH]; intros Hs; [done| |];
    apply StronglySorted_inv in Hs as [Hs Hx]; [|auto].
  constructor; [auto|]. rewrite Forall_forall in *. intros y Hy.
  apply Hx. by apply (elem_of_submseteq l); [|apply sublist_submseteq].
Qed.
Lemma Forall_sublist {A} (P : A -> Prop) (l l' : list A) :
  l `sublist_of` l' -> Forall P l' -> Forall P l.
Proof. induction 1; rewrite ?Forall_cons; intuition. Qed.

(** ** Record update

    [r <| f := v |>] is Rust's [self.f = v].  A record type declares the
    expansion of a value into its constructor once; the setter of a projection
    is then built from it, as one match on the record, so that a chain of
    updates reduces in linear time. *)
Class Eta (R : Type) := eta : R -> R.
Class Setter {R T} (f : R -> T) := set_field : (T -> T) -> R -> R.
Arguments set_field {R T} f {_} _ _ /.

Ltac setter_body f e :=
  let p := (eval pattern f in e) in
  match p with
  | ?k f =>
      let u := fresh "u" in
      let r := fresh "r" in
      let v := fresh "v" in
      intros u r; pose (v := k (fun x => u (f x)) r); destruct r;
      let b := eval cbv delta [v] in v in
      let b := eval cbn in b in
      exact b
  end.
Ltac head_of e := lazymatch e with ?f _ => head_of f | _ => e end.
Ltac build_setter R T f :=
  let e := constr:(_ : Eta R) in
  let e := eval cbv delta [eta] in e in
  let h := head_of e in
  let e := eval unfold h in e in
  let t := constr:(ltac:(setter_body f e) : (T -> T) -> R -> R) in
  let t := eval cbv beta zeta in t in
  exact t.
#[global] Hint Extern 1 (@Setter ?R ?T ?f) => build_setter R T f : typeclass_instances.

Notation "r <| f := v |>" := (set_field f (fun _ => v) r)
  (at level 12, f at level 11, v at level 60, left associativity,
   format "r  <| f  :=  v |>") : cutout_scope.

(** ** Automation *)

(** Destruct an innermost scrutinee of a match that blocks a goal or a
    hypothesis. *)
Ltac atomic_scrutinee x :=
  lazymatch x with
  | context [ match _ with _ => _ end ] => fail
  | _ => idtac
  end.
Ltac case_match_goal :=
  match goal with
  | |- context [ match ?x with _ => _ end ] => atomic_scrutinee x; destruct x eqn:?
  end.
Ltac case_match_in H :=
  match type of H with
  | context [ match ?x with _ => _ end ] => atomic_scrutinee x; destruct x eqn:?
  end.
(** Turn boolean tests of the code into propositions. *)
Ltac prop_bools :=
  repeat match goal with
  | H : bool_decide _ = true |- _ => apply bool_decide_eq_true_1 in H
  | H : bool_decide _ = false |- _ => apply bool_decide_eq_false_1 in H
  | H : _ && _ = true |- _ => apply andb_true_iff in H; destruct H
  | H : _ && _ = false |- _ => apply andb_false_iff in H
  | H : _ || _ = true |- _ => apply orb_true_iff in H
  | H : _ || _ = false |- _ => apply orb_false_iff in H; destruct H
  | H : negb _ = true |- _ => apply negb_true_iff in H
  | H : negb _ = false |- _ => apply negb_false_iff in H
  end.
(** Decide the tests whose outcome the context already fixes. *)
Ltac decide_bools :=
  repeat match goal with
  | |- context [ bool_decide ?P ] =>
      first [ rewrite (bool_decide_eq_true_2 P) by (reflexivity || assumption || lia || eauto)
            | rewrite (bool_decide_eq_false_2 P)
                by (lia || congruence || (intros [? ?]; congruence)) ]; simpl
  end.
(** Split the conjunctions that are written in the goal, and no deeper. *)
Ltac split_ands := repeat match goal with |- _ /\ _ => split end.
(** Run through the branches of a handler. *)
Ltac step_cases :=
  repeat (case_match_goal; simpl in *; prop_bools; simplify_eq).
Ltac step_cases_in H :=
  repeat (case_match_in H; simpl in *; prop_bools; simplify_eq).

(** ** Machines: a state driven by a list of inputs *)

Section Machine.
Context {S I O : Type} (step : S -> I -> S * O).

(** Run a list of inputs and collect the outputs in order. *)
Fixpoint run (s : S) (ins : list I) : S * list O :=
  match ins with
  | [] => (s, [])
  | i :: rest =>
      let '(s', o) := step s i in
      let '(s'', os) := run s' rest in
      (s'', o :: os)
  end.

Definition run_state (s : S) (ins : list I) : S := (run s ins).1.
Definition run_outputs (s : S) (ins : list I) : list O := (run s ins).2.

(** A property of states that every step keeps. *)
Class Invariant (P : S -> Prop) : Prop :=
  invariant_step : forall s i, P s -> P (step s i).1.

Lemma run_cons s i ins :
  run s (i :: ins) =
    ((run_state (step s i).1 ins), (step s i).2 :: run_outputs (step s i).1 ins).
Proof.
  unfold run_state, run_outputs. simpl. destruct (step s i) as [s' o]; simpl.
  destruct (run s' ins); reflexivity.
Qed.

Lemma run_state_cons s i ins : run_state s (i :: ins) = run_state (step s i).1 ins.
Proof. unfold run_state at 1. rewrite run_cons. reflexivity. Qed.

Lemma run_outputs_cons s i ins :
  run_outputs s (i :: ins) = (step s i).2 :: run_outputs (step s i).1 ins.
Proof. unfold run_outputs at 1. rewrite run_cons. reflexivity. Qed.

Lemma run_state_one s i : run_state s [i] = (step s i).1.
Proof. by rewrite run_state_cons. Qed.
Lemma run_outputs_one s i : run_outputs s [i] = [(step s i).2].
Proof. by rewrite run_outputs_cons. Qed.

(** Cutting the input anywhere changes nothing: the basis of the
    independence of the stream decoders from the chunks they are fed. *)
Lemma run_app s xs ys :
  run s (xs ++ ys) =
    (run_state (run_state s xs) ys, run_outputs s xs ++ run_outputs (run_state s xs) ys).
Proof.
  revert s. induction xs as [|x xs IH]; intros s.
  - simpl. unfold run_state, run_outputs. simpl. destruct (run s ys); reflexivity.
  - change ((x :: xs) ++ ys) with (x :: (xs ++ ys)).
    rewrite run_cons, run_state_cons, run_outputs_cons. unfold run_state at 1, run_outputs at 1.
    rewrite !IH. reflexivity.
Qed.

Lemma run_state_app s xs ys : run_state s (xs ++ ys) = run_state (run_state s xs) ys.
Proof. unfold run_state at 1. rewrite run_app. reflexivity. Qed.

Lemma run_state_snoc s xs i : run_state s (xs ++ [i]) = (step (run_state s xs) i).1.
Proof. rewrite run_state_app. apply run_state_one. Qed.

Lemma run_outputs_app s xs ys :
  run_outputs s (xs ++ ys) = run_outputs s xs ++ run_outputs (run_state s xs) ys.
Proof. unfold run_outputs at 1. rewrite run_app. reflexivity. Qed.

Lemma run_outputs_length s ins : length (run_outputs s ins) = length ins.
Proof. revert s. induction ins; intros; [done|]. rewrite run_outputs_cons; simpl. auto. Qed.

(** Rule induction over runs. *)
Lemma run_invariant (P : S -> Prop) `{!Invariant P} s ins :
  P s -> P (run_state s ins).
Proof.
  revert s. induction ins as [|i ins IH]; intros s Hs; [exact Hs|].
  rewrite run_state_cons. apply IH, invariant_step, Hs.
Qed.

(** The same for a property of the state and the number of steps left. *)
Lemma run_invariant_counted (P : nat -> S -> Prop) s ins :
  (forall n s i, P (Datatypes.S n) s -> P n (step s i).1) ->
  P (length ins) s -> P 0%nat (run_state s ins).
Proof.
  intros Hstep. revert s. induction ins as [|i ins IH]; intros s Hs; [exact Hs|].
  rewrite run_state_cons. apply IH, Hstep, Hs.
Qed.

(** The same with some steps left at the end. *)
Lemma run_invariant_counted_from (P : nat -> S -> Prop) s ins n :
  (forall n s i, P (Datatypes.S n) s -> P n (step s i).1) ->
  P (length ins + n)%nat s -> P n (run_state s ins).
Proof.
  intros Hstep. revert s. induction ins as [|i ins IH]; intros s Hs; [exact Hs|].
  rewrite run_state_cons. apply IH, Hstep, Hs.
Qed.

(** Reachability from the initial states. *)
Inductive reachable (init : S -> Prop) : S -> Prop :=
| reachable_init s : init s -> reachable init s
| reachable_step s i : reachable init s -> reachable init (step s i).1.

Lemma reachable_invariant (init P : S -> Prop) `{!Invariant P} s :
  (forall s, init s -> P s) -> reachable init s -> P s.
Proof. intros Hinit H. induction H; [auto|]. apply invariant_step. assumption. Qed.

Lemma reachable_run (init : S -> Prop) s ins :
  reachable init s -> reachable init (run_state s ins).
Proof.
  revert s. induction ins as [|i ins IH]; intros s Hs; [exact Hs|].
  rewrite run_state_cons. apply IH, reachable_step, Hs.
Qed.
End Machine.
