(* ===== verification/Quantities.v ===== *)
(** * Typed quantities and charge/ride classification

    [cutout-core/src/lib.rs]: the integer part of the quantity types (a
    [Quantity<D, U, T>] is a newtype of its machine integer, so a [Z] here),
    the rounding helpers, battery curves, and the rules that combine a reported
    state, a charging flag and wheel speed.  Conversions from and to floating
    point are not modelled.  Rust's [/] on signed integers truncates: it is
    [Z.quot] ([÷]). *)

From S2P Require Import Prelude.

(** ** Saturating conversions and rounding *)

Definition saturating_u64_to_i32 (value : Z) : Z :=
  if bool_decide (i32_max < value) then i32_max else value.

Definition saturating_i64_to_i32 (value : Z) : Z :=
  if bool_decide (i32_max < value) then i32_max
  else if bool_decide (value < i32_min) then i32_min else value.

Definition saturating_i128_to_i32 (value : Z) : Z :=
  if bool_decide (i32_max < value) then i32_max
  else if bool_decide (value < i32_min) then i32_min else value.

Definition saturating_i128_to_i64 (value : Z) : Z :=
  if bool_decide (i64_max < value) then i64_max
  else if bool_decide (value < i64_min) then i64_min else value.

(** [saturating_mul] of [i32] and [i64]. *)
Definition sat_mul_i32 (a b : Z) : Z := clamp i32_min i32_max (a * b).
Definition sat_mul_i64 (a b : Z) : Z := clamp i64_min i64_max (a * b).

Definition round_div_i32 (numerator denominator : Z) : Z :=
  if bool_decide (denominator = 0) then 0 else
  let sign := if xorb (bool_decide (numerator < 0)) (bool_decide (denominator < 0))
              then -1 else 1 in
  let rounded := (Z.abs numerator + Z.abs denominator ÷ 2) ÷ Z.abs denominator in
  saturating_i64_to_i32 (sat_mul_i64 rounded sign).

Definition round_div_i128 (numerator denominator : Z) : Z :=
  if bool_decide (denominator = 0) then 0 else
  let negative := xorb (bool_decide (numerator < 0)) (bool_decide (denominator < 0)) in
  let rounded := (Z.abs numerator + Z.abs denominator ÷ 2) ÷ Z.abs denominator in
  if negative then - rounded else rounded.

Definition round_div_i128_to_i32 (numerator denominator : Z) : Z :=
  saturating_i128_to_i32 (round_div_i128 numerator denominator).

(** ** Battery level *)

(** [BatteryLevel::from_percent] on a [u8]. *)
Definition level_from_percent (value : Z) : Z := if bool_decide (100 < value) then 100 else value.

Definition level_try_from_percent (value : Z) : option Z :=
  if bool_decide (value <= 100) then Some value else None.

(** The clamp puts the value in range, so [u8::try_from] succeeds. *)
Definition level_from_percent_i32 (value : Z) : Z := level_from_percent (clamp 0 100 value).

Definition level_interpolate (low high value low_value high_value : Z) : Z :=
  let value_span := high_value - low_value in
  if bool_decide (value_span <= 0) then low else
  let level_span := high - low in
  let value_offset := value - low_value in
  let numerator := value_offset * level_span in
  let delta := round_div_i128 numerator value_span in
  level_from_percent_i32 (saturating_i128_to_i32 (low + delta)).

(** The [windows(2)] loop: the first window whose upper point is not below. *)
Fixpoint piecewise_windows (value : Z) (points : list (Z * Z)) : option Z :=
  match points with
  | (low_value, low_level) :: (((high_value, high_level) :: _) as rest) =>
      if bool_decide (value <= high_value)
      then Some (level_interpolate low_level high_level value low_value high_value)
      else piecewise_windows value rest
  | _ => None
  end.

Definition level_from_piecewise_linear (value : Z) (points : list (Z * Z)) : Z :=
  match head points with
  | None => level_from_percent 0
  | Some (first_value, first_level) =>
      if bool_decide (value <= first_value) then first_level else
      match piecewise_windows value points with
      | Some level => level
      | None => match last points with
                | Some (_, level) => level
                | None => level_from_percent 0
                end
      end
  end.

(** ** Voltage *)

Definition voltage_from_centivolts (value : Z) : Z := sat_mul_i32 value 10.
Definition voltage_from_deci_volts (value : Z) : Z := sat_mul_i32 value 100.
Definition voltage_from_volts (value : Z) : Z := saturating_u64_to_i32 (sat_mul u64_max value 1000).
Definition voltage_as_whole_volts (mv : Z) : Z := sat_add u64_max (Z.abs mv) 500 ÷ 1000.

(** Microvolts of one cell. *)
Definition voltage_as_cell_voltage (mv series_cells : Z) : Z :=
  if bool_decide (series_cells <= 0) then 0 else
  let numerator := sat_mul_i64 mv 1000 in
  saturating_i64_to_i32 ((numerator + series_cells ÷ 2) ÷ series_cells).

Definition voltage_percent_of_range (mv range_start range_end : Z) : Z :=
  if bool_decide (range_end <= range_start) || bool_decide (mv <= range_start) then
    level_from_percent 0
  else if bool_decide (range_end <= mv) then level_from_percent 100
  else
    let percent := clamp i64_min i64_max
      (sat_mul_i64 (mv - range_start) 100 + (range_end - range_start) ÷ 2)
      ÷ (range_end - range_start) in
    let percent := if bool_decide (0 <= percent) then percent else 0 in
    level_from_percent (if bool_decide (percent <= 255) then percent else 100).

Definition voltage_from_cell_voltage (cell_uv series_cells : Z) : Z :=
  if bool_decide (series_cells <= 0) then 0 else
  saturating_i64_to_i32 ((cell_uv * series_cells + 500) ÷ 1000).

(** Wire centivolts ([u16]). *)
Definition wire_as_millivolts (cv : Z) : Z := cv * 10.

Definition wire_as_scaled_voltage (cv scaler_milli : Z) : Z :=
  if bool_decide (scaler_milli <= 0) then 0 else
  saturating_i64_to_i32 ((wire_as_millivolts cv * scaler_milli + 500) ÷ 1000).

Definition wire_from_scaled_voltage (mv scaler_milli : Z) : Z :=
  if bool_decide (scaler_milli <= 0) then 0 else
  let centivolts := (mv * 100 + scaler_milli ÷ 2) ÷ scaler_milli in
  if bool_decide (0 <= centivolts <= u16_max) then centivolts else u16_max.

(** ** Energy and capacity *)

Definition energy_from_cell_geometry (cell_watt_hours series_cells parallel_packs : Z) : Z :=
  sat_mul u32_max (sat_mul u32_max cell_watt_hours series_cells) parallel_packs.
Definition capacity_from_parallel_packs (cell_mah parallel_packs : Z) : Z :=
  sat_mul u32_max cell_mah parallel_packs.

(** ** Speed *)

Definition CONNECTED_WHEEL_MOVEMENT_THRESHOLD : Z := 500.
Definition CONNECTED_WHEEL_MOTION_FRESHNESS_MS : Z := 5000.

Definition speed_is_moving (mms : Z) : bool :=
  bool_decide (Z.abs CONNECTED_WHEEL_MOVEMENT_THRESHOLD <= Z.abs mms).

Definition speed_fresh_motion (speed observed_at now : option Z) : option Z :=
  match speed, observed_at, now with
  | Some speed, Some observed_at, Some now =>
      if bool_decide (observed_at <= now)
         && bool_decide (sat_sub now observed_at <= CONNECTED_WHEEL_MOTION_FRESHNESS_MS)
      then Some speed else None
  | _, _, _ => None
  end.

Definition speed_from_centimetres_per_second (value : Z) : Z := sat_mul_i32 value 10.
Definition speed_from_milli_kmh (value : Z) : Z := sat_mul_i32 value 5 ÷ 18.
Definition speed_from_kmh (value : Z) : Z :=
  speed_from_milli_kmh (saturating_u64_to_i32 (sat_mul u64_max value 1000)).
Definition speed_from_deci_kmh (value : Z) : Z := speed_from_milli_kmh (sat_mul_i32 value 100).
Definition speed_as_centimetres_per_second (mms : Z) : Z := mms ÷ 10.
Definition speed_as_milli_kmh (mms : Z) : Z := sat_mul_i32 mms 18 ÷ 5.
Definition speed_as_kmh (mms : Z) : Z := speed_as_milli_kmh mms ÷ 1000.
Definition speed_as_deci_kmh (mms : Z) : Z := speed_as_milli_kmh mms ÷ 100.

(** The quotient of an [i32] by these constants is an [i32]: [try_from] succeeds. *)
Definition speed_as_kmh_rounded (mms : Z) : Z :=
  let numerator := mms * 18 in
  if bool_decide (0 <= numerator) then (numerator + 2500) ÷ 5000 else (numerator - 2500) ÷ 5000.
Definition speed_as_deci_kmh_rounded (mms : Z) : Z :=
  let numerator := mms * 36 in
  if bool_decide (0 <= numerator) then (numerator + 500) ÷ 1000 else (numerator - 500) ÷ 1000.

Definition speed_from_mph (value : Z) : Z :=
  let mms := sat_add u64_max (sat_mul u64_max value 447388) 500 ÷ 1000 in
  if bool_decide (mms <= i32_max) then mms else i32_max.
Definition speed_from_mph_floor_kmh (value : Z) : Z :=
  speed_from_kmh (sat_mul u64_max value 1609344 ÷ 1000000).
Definition speed_from_milli_kmh_scaled (value scale_milli : Z) : Z :=
  if bool_decide (scale_milli <= 0) then 0 else
  speed_from_milli_kmh (saturating_i64_to_i32 ((value * scale_milli + 500000) ÷ 1000000)).
Definition speed_as_mph (mms : Z) : Z :=
  sat_add u64_max (sat_mul u64_max (Z.abs mms) 1000) 223694 ÷ 447388.

(** ** Distance, time, temperature, duty cycle *)

Definition distance_from_metres (value : Z) : Z := sat_mul u64_max value 1000.
Definition distance_from_milli_miles (value : Z) : Z := sat_mul u64_max value 1609344 ÷ 1000.
Definition distance_as_whole_metres (mm : Z) : Z := mm ÷ 1000.
Definition distance_as_kilometre_tenths (mm : Z) : Z :=
  sat_add u64_max (sat_mul u64_max (distance_as_whole_metres mm) 10) 500 ÷ 1000.
Definition distance_offset_from_metres (value : Z) : Z := sat_mul_i64 value 1000.

Definition duration_from_deciseconds (value : Z) : Z := sat_mul u64_max value 100.
Definition duration_from_seconds (value : Z) : Z := sat_mul u64_max value 1000.
Definition duration_from_minutes (value : Z) : Z := duration_from_seconds (sat_mul u64_max value 60).
Definition duration_as_seconds (ms : Z) : Z := ms ÷ 1000.
Definition duration_as_minutes (ms : Z) : Z := duration_as_seconds ms ÷ 60.

Definition timestamp_saturating_add_duration (t d : Z) : Z := sat_add u64_max t d.
Definition timestamp_saturating_duration_since (t earlier : Z) : Z := sat_sub t earlier.

Definition temperature_from_deci_celsius (value : Z) : Z := sat_mul_i32 value 100.
Definition temperature_from_centi_celsius (value : Z) : Z := sat_mul_i32 value 10.
Definition temperature_as_whole_celsius (mc : Z) : Z := mc ÷ 1000.
Definition temperature_as_abs_whole_celsius (mc : Z) : Z := sat_add u64_max (Z.abs mc) 500 ÷ 1000.
Definition temperature_from_celsius (value : Z) : Z := saturating_i64_to_i32 (sat_mul_i64 value 1000).
Definition temperature_from_mpu6050_counts (value : Z) : Z := 36530 + (value * 1000) ÷ 340.

Definition duty_from_centipercent (value : Z) : Z :=
  let v := value ÷ 10 in if bool_decide (v <= i16_max) then v else i16_max.
Definition duty_from_decipermille (value : Z) : Z := value ÷ 10.
Definition duty_from_centered_pwm (value : Z) : Z :=
  let permille := ((value - 0x8000) * 1000) ÷ 0x8000 in
  if bool_decide (i16_min <= permille <= i16_max) then permille
  else if bool_decide (permille < 0) then i16_min else i16_max.
Definition duty_as_whole_percent (permille : Z) : Z := permille ÷ 10.

(** ** Charge mode and ride operating state *)

Inductive ChargeMode := ChargeUnknown | NotCharging | Charging.
Inductive RideOperatingState := Unknown | Parked | Standing | Riding | RideCharging.

#[global] Instance charge_mode_eq_dec : EqDecision ChargeMode.
Proof. solve_decision. Defined.
#[global] Instance ride_state_eq_dec : EqDecision RideOperatingState.
Proof. solve_decision. Defined.

Definition charge_from_active (active : bool) : ChargeMode :=
  if active then Charging else NotCharging.
Definition charge_is_active (m : ChargeMode) : bool :=
  match m with Charging => true | NotCharging | ChargeUnknown => false end.

(** [Option::is_some_and]. *)
Definition is_some_and {A} (o : option A) (f : A -> bool) : bool :=
  match o with Some a => f a | None => false end.

Definition charge_for_motion (self : ChargeMode) (reported : option RideOperatingState)
    (speed speed_at : option Z) (now : Z) : ChargeMode :=
  let fresh_speed := speed_fresh_motion speed speed_at (Some now) in
  if bool_decide (reported = Some Riding) || is_some_and fresh_speed speed_is_moving
  then NotCharging
  else if bool_decide (self = Charging) && bool_decide (fresh_speed = None)
  then ChargeUnknown else self.

Definition ride_resolve (reported : option RideOperatingState) (charge_mode : option ChargeMode)
    (speed : option Z) : RideOperatingState :=
  if bool_decide (reported = Some Riding) then Riding else
  if (bool_decide (reported = Some RideCharging) || bool_decide (charge_mode = Some Charging))
     && is_some_and speed speed_is_moving then Riding else
  if bool_decide (charge_mode = Some Charging) then RideCharging else
  match (match reported with Some Unknown => None | r => r end) with
  | Some state => state
  | None => match speed_is_moving <$> speed with
            | Some false => Standing
            | Some true => Riding
            | None => Unknown
            end
  end.

Definition ride_resolve_fresh (reported : option RideOperatingState)
    (charge_mode : option ChargeMode) (speed speed_at now : option Z)
  : RideOperatingState * option ChargeMode :=
  let fresh_speed := speed_fresh_motion speed speed_at now in
  let charge_mode := (fun mode =>
      match now with
      | Some now => charge_for_motion mode reported speed speed_at now
      | None =>
          if bool_decide (reported = Some Riding) || is_some_and fresh_speed speed_is_moving
          then NotCharging
          else if bool_decide (mode = Charging) then ChargeUnknown else mode
      end) <$> charge_mode in
  let effective_reported :=
      if bool_decide (reported = Some RideCharging) && bool_decide (fresh_speed = None) then None
      else if bool_decide (reported = Some RideCharging) && is_some_and fresh_speed speed_is_moving
      then Some Riding else reported in
  (ride_resolve effective_reported (Some (default ChargeUnknown charge_mode)) fresh_speed,
   charge_mode).

Example kmh_examples :
  speed_from_kmh 36 = 10000 /\ speed_as_kmh_rounded 10000 = 36 /\
  speed_as_deci_kmh (-10000) = -360 /\ duty_from_centered_pwm 0 = -1000.
Proof. vm_compute. auto. Qed.

(** ** Rounding *)

(** [round_div_i128] rounds to nearest, halves away from zero. *)
Lemma round_div_i128_nearest n d :
  d <> 0 -> 2 * Z.abs (n - d * round_div_i128 n d) <= Z.abs d.
Proof.
  intros Hd. unfold round_div_i128. rewrite bool_decide_false by done.
  set (q := (Z.abs n + Z.abs d ÷ 2) ÷ Z.abs d).
  assert (Hq : 2 * Z.abs (Z.abs n - Z.abs d * q) <= Z.abs d).
  { subst q. pose proof (Z.abs_nonneg n). assert (0 < Z.abs d) by lia.
    generalize dependent (Z.abs d). generalize dependent (Z.abs n). intros a Ha b Hb.
    rewrite !Z.quot_div_nonneg by (try apply Z.add_nonneg_nonneg; try apply Z.quot_pos; lia).
    pose proof (Z.div_mod (a + b / 2) b ltac:(lia)).
    pose proof (Z.mod_pos_bound (a + b / 2) b ltac:(lia)).
    assert (b = 2 * (b / 2) + b mod 2) by (apply Z.div_mod; lia).
    pose proof (Z.mod_pos_bound b 2 ltac:(lia)). lia. }
  clearbody q. do 2 case_bool_decide; simpl; nia.
Qed.

Lemma sat_mul_i32_id a b : i32_min <= a * b <= i32_max -> sat_mul_i32 a b = a * b.
Proof. intros. unfold sat_mul_i32. int_lia. Qed.
Lemma saturating_i64_to_i32_id z : i32_min <= z <= i32_max -> saturating_i64_to_i32 z = z.
Proof. intros. unfold saturating_i64_to_i32. by rewrite !bool_decide_false by lia. Qed.

(** A non-negative quotient is the usual rounding formula. *)
Lemma round_div_i128_pos n d :
  0 <= n -> 0 < d -> round_div_i128 n d = (n + d / 2) / d.
Proof.
  intros Hn Hd. unfold round_div_i128.
  rewrite !bool_decide_false by lia. cbn [xorb].
  rewrite !Z.abs_eq, !Z.quot_div_nonneg by (try apply Z.add_nonneg_nonneg; try apply Z.quot_pos; lia).
  done.
Qed.

Lemma level_from_percent_i32_id z : 0 <= z <= 100 -> level_from_percent_i32 z = z.
Proof.
  intros H. unfold level_from_percent_i32, level_from_percent. rewrite clamp_id by lia.
  rewrite bool_decide_false by lia. done.
Qed.

(** ** Battery curves *)

(** A curve: reference values strictly increase, levels do not decrease. *)
Inductive curve_ok : list (Z * Z) -> Prop :=
| curve_one v l : 0 <= l <= 100 -> curve_ok [(v, l)]
| curve_cons v l v' l' rest :
    v < v' -> 0 <= l <= l' -> curve_ok ((v', l') :: rest) ->
    curve_ok ((v, l) :: (v', l') :: rest).

Lemma curve_ok_head v l rest : curve_ok ((v, l) :: rest) -> 0 <= l <= 100.
Proof.
  revert v l. induction rest as [|[v' l'] rest IH]; intros v l H; inversion H; subst; [done|].
  match goal with Hc : curve_ok ((v', _) :: _) |- _ => apply IH in Hc end. lia.
Qed.

(** Interpolation inside a window. *)
Lemma interpolate_in_window low high value lv hv :
  0 <= low <= high -> high <= 100 -> lv < hv -> lv <= value <= hv ->
  level_interpolate low high value lv hv
    = low + ((value - lv) * (high - low) + (hv - lv) / 2) / (hv - lv) /\
  low <= level_interpolate low high value lv hv <= high.
Proof.
  intros Hl Hh Hv Hin. unfold level_interpolate. rewrite bool_decide_false by lia.
  rewrite round_div_i128_pos by nia. set (s := hv - lv).
  assert (Hd : 0 <= ((value - lv) * (high - low) + s / 2) / s <= high - low).
  { assert (0 <= (value - lv) * (high - low) <= s * (high - low)) by (subst s; nia).
    assert (Hs : 0 < s) by (subst s; lia).
    split; [apply Z.div_pos; [|lia]; pose proof (Z.div_pos s 2); lia|].
    apply Z.lt_succ_r, Z.div_lt_upper_bound; [lia|].
    assert (s / 2 < s) by (apply Z.div_lt; lia). nia. }
  unfold saturating_i128_to_i32. rewrite !bool_decide_false by int_lia.
  rewrite level_from_percent_i32_id by lia. lia.
Qed.

(** The loop over windows, one window at a time. *)
Lemma piecewise_unfold value v l v' l' rest :
  v < v' ->
  level_from_piecewise_linear value ((v, l) :: (v', l') :: rest) =
    if bool_decide (value <= v) then l
    else if bool_decide (value <= v') then level_interpolate l l' value v v'
    else level_from_piecewise_linear value ((v', l') :: rest).
Proof.
  intros Hv. unfold level_from_piecewise_linear. cbn [head].
  case_bool_decide; [done|]. cbn [piecewise_windows].
  case_bool_decide; [done|]. done.
Qed.

Lemma piecewise_one value v l : level_from_piecewise_linear value [(v, l)] = l.
Proof. unfold level_from_piecewise_linear. simpl. by case_bool_decide. Qed.

Lemma piecewise_low value v l rest :
  value <= v -> level_from_piecewise_linear value ((v, l) :: rest) = l.
Proof. intros H. unfold level_from_piecewise_linear. simpl. by rewrite bool_decide_true. Qed.

Lemma piecewise_range value v l rest :
  curve_ok ((v, l) :: rest) ->
  l <= level_from_piecewise_linear value ((v, l) :: rest) <= 100.
Proof.
  revert v l. induction rest as [|[v' l'] rest IH]; intros v l H.
  - rewrite piecewise_one. apply curve_ok_head in H. lia.
  - inversion H as [|? ? ? ? ? Hv Hl Hr]; subst. pose proof (curve_ok_head _ _ _ Hr).
    rewrite piecewise_unfold by done.
    case_bool_decide; [lia|]. case_bool_decide.
    + pose proof (interpolate_in_window l l' value v v'). lia.
    + specialize (IH _ _ Hr). lia.
Qed.

Lemma interpolate_mono low high x y lv hv :
  0 <= low <= high -> high <= 100 -> lv < hv -> lv <= x -> x <= y -> y <= hv ->
  level_interpolate low high x lv hv <= level_interpolate low high y lv hv.
Proof.
  intros. destruct (interpolate_in_window low high x lv hv) as [-> _]; try lia.
  destruct (interpolate_in_window low high y lv hv) as [-> _]; try lia.
  assert (((x - lv) * (high - low)) <= ((y - lv) * (high - low))) by nia.
  apply Z.add_le_mono_l, Z.div_le_mono; lia.
Qed.

Lemma interpolate_top low high lv hv :
  0 <= low <= high -> high <= 100 -> lv < hv -> level_interpolate low high hv lv hv = high.
Proof.
  intros. destruct (interpolate_in_window low high hv lv hv) as [-> _]; try lia.
  rewrite (Z.mul_comm (hv - lv)), Z.div_add_l by lia.
  rewrite (Z.div_small ((hv - lv) / 2)); [lia|].
  split; [apply Z.div_pos; lia|apply Z.div_lt; lia].
Qed.

Lemma piecewise_mono points x y :
  curve_ok points -> x <= y ->
  level_from_piecewise_linear x points <= level_from_piecewise_linear y points.
Proof.
  intros Hc Hle. induction Hc as [v l Hl|v l v' l' rest Hv Hl Hr IH]; [by rewrite !piecewise_one|].
  pose proof (curve_ok_head _ _ _ Hr). rewrite !piecewise_unfold by done.
  pose proof (piecewise_range y _ _ _ Hr).
  pose proof (interpolate_in_window l l' x v v').
  pose proof (interpolate_in_window l l' y v v').
  pose proof (interpolate_mono l l' x y v v').
  repeat case_bool_decide; lia.
Qed.

Lemma piecewise_exact points :
  curve_ok points -> Forall (fun '(v, l) => level_from_piecewise_linear v points = l) points.
Proof.
  induction 1 as [v l Hl|v l v' l' rest Hv Hl Hr IH].
  - constructor; [apply piecewise_one|constructor].
  - pose proof (curve_ok_head _ _ _ Hr). constructor; [by apply piecewise_low|].
    apply Forall_cons in IH as [_ IH]. constructor.
    + rewrite piecewise_unfold, bool_decide_false, bool_decide_true by lia.
      apply interpolate_top; lia.
    + clear H Hl. assert (Hgt : Forall (fun '(w, _) => v' < w) rest).
      { clear IH Hv. revert v' l' Hr. induction rest as [|[w m] rest IHr]; intros v' l' Hr; [constructor|].
        inversion Hr; subst. constructor; [done|].
        eapply Forall_impl; [by eapply IHr|]. intros [? ?]. lia. }
      rewrite !Forall_forall in *. intros [w m] Hin.
      pose proof (IH _ Hin) as E. pose proof (Hgt _ Hin) as Hw. simpl in E, Hw.
      rewrite piecewise_unfold, !bool_decide_false by lia. done.
Qed.

(** ** Properties *)

(** A battery curve is a battery curve: over reference points whose values
    increase and whose levels do not decrease, the estimated level stays
    between 0 and 100, never falls when the measured value rises, and is exactly
    the reference level at every reference point. *)
Theorem piecewise_curve (points : list (Z * Z)) (value value' : Z) :
  curve_ok points -> value <= value' ->
  0 <= level_from_piecewise_linear value points <= 100 /\
  level_from_piecewise_linear value points <= level_from_piecewise_linear value' points /\
  Forall (fun '(v, l) => level_from_piecewise_linear v points = l) points.
Proof.
  intros Hc Hle. split_ands; auto using piecewise_mono, piecewise_exact;
    (destruct points as [|[v l] rest]; [inversion Hc|];
     pose proof (piecewise_range value _ _ _ Hc); apply curve_ok_head in Hc; lia).
Qed.

(** A pack's percentage of its voltage range is the nearest whole percent
    inside the range, and 0 or 100 outside it. *)
Theorem percent_of_range_nearest (mv lo hi : Z) :
  in_i i32_min i32_max mv -> in_i i32_min i32_max lo -> in_i i32_min i32_max hi -> lo < hi ->
  let p := voltage_percent_of_range mv lo hi in
  0 <= p <= 100 /\ (mv <= lo -> p = 0) /\ (hi <= mv -> p = 100) /\
  (lo <= mv <= hi -> 2 * Z.abs ((mv - lo) * 100 - p * (hi - lo)) <= hi - lo).
Proof.
  intros Hm Hlo Hhi Hlt. cbv zeta. unfold voltage_percent_of_range, level_from_percent.
  rewrite (bool_decide_false (hi <= lo)) by lia. cbn [orb].
  case_bool_decide; [rewrite bool_decide_false by lia; lia|].
  case_bool_decide; [rewrite bool_decide_false by lia; lia|].
  assert (Hmul : sat_mul_i64 (mv - lo) 100 = (mv - lo) * 100) by (unfold sat_mul_i64; int_lia).
  rewrite Hmul, (Z.quot_div_nonneg (hi - lo) 2) by lia.
  rewrite clamp_id by (unfold_ints; pose proof (Z.div_pos (hi - lo) 2);
    pose proof (Z.div_lt (hi - lo) 2); lia).
  set (d := hi - lo) in *. set (o := mv - lo) in *.
  pose proof (Z.div_mod d 2 ltac:(lia)). pose proof (Z.mod_pos_bound d 2 ltac:(lia)).
  rewrite Z.quot_div_nonneg by (subst d o; lia).
  set (p := (o * 100 + d / 2) / d).
  pose proof (Z.div_mod (o * 100 + d / 2) d ltac:(subst d; lia)) as Hp. fold p in Hp.
  pose proof (Z.mod_pos_bound (o * 100 + d / 2) d ltac:(subst d; lia)).
  assert (0 <= p <= 100) by (subst d o; nia).
  rewrite (bool_decide_true (0 <= p)), (bool_decide_true (p <= 255)) by lia.
  rewrite bool_decide_false by lia. lia.
Qed.

(** Wire voltages survive scaling: for every scaler above 100 thousandths
    (and small enough not to saturate), converting a wire voltage to a pack
    voltage and back returns it. *)
Theorem wire_voltage_roundtrip (cv scaler_milli : Z) :
  in_u u16_max cv -> 100 < scaler_milli <= 3000000 ->
  wire_from_scaled_voltage (wire_as_scaled_voltage cv scaler_milli) scaler_milli = cv.
Proof.
  intros Hcv Hs. unfold wire_as_scaled_voltage, wire_from_scaled_voltage, wire_as_millivolts.
  rewrite (bool_decide_false (scaler_milli <= 0)) by lia. unfold in_u, u16_max in *.
  assert (Hn : 0 <= cv * 10 * scaler_milli <= 655350 * 3000000) by nia.
  rewrite (Z.quot_div_nonneg (cv * 10 * scaler_milli + 500) 1000) by lia. set (m := (cv * 10 * scaler_milli + 500) / 1000).
  assert (Hm : 1000 * m <= cv * 10 * scaler_milli + 500 < 1000 * m + 1000) by (subst m; div_lia).
  clearbody m.
  rewrite saturating_i64_to_i32_id by int_lia.
  rewrite (Z.quot_div_nonneg scaler_milli 2) by lia.
  pose proof (Z.div_pos scaler_milli 2 ltac:(lia) ltac:(lia)).
  rewrite Z.quot_div_nonneg by lia.
  assert (E : (m * 100 + scaler_milli / 2) / scaler_milli = cv).
  { symmetry. apply (Z.div_unique _ _ _ (m * 100 + scaler_milli / 2 - scaler_milli * cv)); [left|lia].
    pose proof (Z.div_mod scaler_milli 2 ltac:(lia)).
    pose proof (Z.mod_pos_bound scaler_milli 2 ltac:(lia)). lia. }
  rewrite E. rewrite bool_decide_true by lia. done.
Qed.

(** Charging needs evidence of standing still: the combined classification
    reports a charging ride state, or an active charge mode, only when the wheel
    speed is present, at most five seconds old and below the movement
    threshold, and the device does not report riding. *)
Theorem charging_is_stationary (reported : option RideOperatingState)
    (charge_mode : option ChargeMode) (speed speed_at now : option Z) :
  let '(state, mode) := ride_resolve_fresh reported charge_mode speed speed_at now in
  state = RideCharging \/ mode = Some Charging ->
  exists v, speed_fresh_motion speed speed_at now = Some v /\
            speed_is_moving v = false /\ reported <> Some Riding.
Proof.
  unfold ride_resolve_fresh, charge_for_motion.
  destruct (speed_fresh_motion speed speed_at now) as [v|] eqn:Ef.
  - destruct (speed_is_moving v) eqn:Em.
    + destruct reported as [[]|], charge_mode as [[]|], now; unfold ride_resolve, is_some_and;
        rewrite ?Ef; simpl; rewrite ?Em; simpl; intros [?|?]; done.
    + intros H. exists v. split_ands; auto. intros ->. revert H.
      destruct charge_mode as [[]|], now; unfold ride_resolve, is_some_and;
        rewrite ?Ef; simpl; rewrite ?Em; simpl; intros [?|?]; done.
  - destruct reported as [[]|], charge_mode as [[]|], now; unfold ride_resolve, is_some_and;
      rewrite ?Ef; simpl; intros [?|?]; done.
Qed.

(** ** Witnesses *)

Lemma piecewise_curve_witness :
  level_from_piecewise_linear 3700 [(3000, 0); (3600, 40); (4200, 100)] = 50 /\
  0 <= level_from_piecewise_linear 3700 [(3000, 0); (3600, 40); (4200, 100)] <= 100.
Proof.
  split; [vm_compute; reflexivity|].
  apply (piecewise_curve [(3000, 0); (3600, 40); (4200, 100)] 3700 3800); [|lia].
  repeat constructor; lia.
Defined.

Lemma percent_of_range_nearest_witness : voltage_percent_of_range 50 100 200 = 0.
Proof. apply (percent_of_range_nearest 50 100 200); unfold in_i, i32_min, i32_max; lia. Defined.

Lemma wire_voltage_roundtrip_witness :
  wire_from_scaled_voltage (wire_as_scaled_voltage 6005 1250) 1250 = 6005.
Proof. apply wire_voltage_roundtrip; unfold in_u, u16_max; lia. Defined.

Lemma charging_is_stationary_witness :
  exists v, speed_fresh_motion (Some 100) (Some 1000) (Some 6000) = Some v /\
            speed_is_moving v = false /\ Some Parked <> Some Riding.
Proof.
  apply (charging_is_stationary (Some Parked) (Some Charging) (Some 100) (Some 1000) (Some 6000)).
  right. reflexivity.
Defined.
