(* ===== verification/MovingTime.v ===== *)
(** * Moving time of a recorded ride

    [cutout-ride-maps/src/moving_time.rs]: the continuation that splits the
    active time of a ride into moving, stationary and unknown intervals from
    the speed evidence of the wheel and of the phone.
    [MovingTimeContinuation] wraps [MovingTimeStateParts] in the source; here it
    is that record.  The loop of [advance_to] runs on fuel: each turn reaches
    the target or the expiry of one of the two sources, so three turns are
    enough ([advance_loop_total]). *)

From S2P Require Import Prelude.
From S2P Require Import Quantities.

Definition TELEMETRY_FRESHNESS_MILLISECONDS : Z := 2000.

Inductive MovingTimeSource := Vehicle | PhoneGps.
#[global] Instance source_eq_dec : EqDecision MovingTimeSource.
Proof. solve_decision. Defined.

Record MovingTimeObservation := {
  o_source : MovingTimeSource;
  o_speed : option Z;                (* millimetres per second, i32 *)
  o_source_at : Z;
  o_receipt_at : Z;
}.

Record MovingTimeSourceStateParts := {
  src_speed : Z;
  src_at : Z;
}.
#[global] Instance source_state_eq_dec : EqDecision MovingTimeSourceStateParts.
Proof. solve_decision. Defined.

Inductive MovingTimeAvailability := Unavailable | Partial | Complete.
#[global] Instance availability_eq_dec : EqDecision MovingTimeAvailability.
Proof. solve_decision. Defined.

Record MovingTimeStateParts := {
  moving_ms : Z;
  observed_ms : Z;
  unknown_ms : Z;
  cursor_ms : option Z;
  phone_gps : option MovingTimeSourceStateParts;
  vehicle : option MovingTimeSourceStateParts;
  latest_phone_ms : option Z;
  latest_vehicle_ms : option Z;
  availability : MovingTimeAvailability;
  incomplete_history : bool;
}.
#[global] Instance eta_parts : Eta MovingTimeStateParts := fun r =>
  Build_MovingTimeStateParts (moving_ms r) (observed_ms r) (unknown_ms r) (cursor_ms r)
    (phone_gps r) (vehicle r) (latest_phone_ms r) (latest_vehicle_ms r)
    (availability r) (incomplete_history r).

Record MovingTimeSummary := {
  sum_moving : Z; sum_observed : Z; sum_unknown : Z; sum_availability : MovingTimeAvailability
}.

Inductive MovingTimeError :=
| ReceiptBeforeSource | ReceiptBeforeCursor | StaleAtReceipt | MissingVehicleSpeed
| InvalidPhoneGpsSpeed | SourceTimestampNotNewer | InvalidState | DurationOverflow.

Definition new_live (start_at : Z) : MovingTimeStateParts := {|
  moving_ms := 0; observed_ms := 0; unknown_ms := 0; cursor_ms := Some start_at;
  phone_gps := None; vehicle := None; latest_phone_ms := None; latest_vehicle_ms := None;
  availability := Unavailable; incomplete_history := false |}.

Definition unavailable : MovingTimeStateParts := {|
  moving_ms := 0; observed_ms := 0; unknown_ms := 0; cursor_ms := None;
  phone_gps := None; vehicle := None; latest_phone_ms := None; latest_vehicle_ms := None;
  availability := Unavailable; incomplete_history := true |}.

(** [Option::is_none_or]. *)
Definition is_none_or {A} (o : option A) (f : A -> bool) : bool :=
  match o with Some a => f a | None => true end.
Definition is_some {A} (o : option A) : bool := match o with Some _ => true | None => false end.

(** The sources and watermarks of one cursor. *)
Definition source_after_cursor (source : option MovingTimeSourceStateParts) (latest : option Z)
    (cursor : Z) : bool :=
  is_some_and source (fun s => bool_decide (cursor < src_at s)
                               || is_none_or latest (fun l => bool_decide (l < src_at s))).

Definition from_state_parts (p : MovingTimeStateParts) : result MovingTimeStateParts MovingTimeError :=
  if bool_decide (observed_ms p < moving_ms p)
     || bool_decide (checked_add u64_max (observed_ms p) (unknown_ms p) = None)
     || is_some_and (phone_gps p) (fun s => bool_decide (src_speed s < 0))
     || (bool_decide (availability p = Complete)
         && (bool_decide (0 < unknown_ms p) || incomplete_history p))
     || (bool_decide (availability p = Unavailable)
         && (bool_decide (0 < observed_ms p) || bool_decide (0 < unknown_ms p)
             || is_some (phone_gps p) || is_some (vehicle p)))
     || (bool_decide (availability p = Partial)
         && bool_decide (unknown_ms p = 0) && negb (incomplete_history p))
  then Err InvalidState else
  match cursor_ms p with
  | Some cursor =>
      if source_after_cursor (phone_gps p) (latest_phone_ms p) cursor
         || source_after_cursor (vehicle p) (latest_vehicle_ms p) cursor
         || is_some_and (latest_phone_ms p) (fun l => bool_decide (cursor < l))
         || is_some_and (latest_vehicle_ms p) (fun l => bool_decide (cursor < l))
      then Err InvalidState else Ok p
  | None =>
      if is_some (phone_gps p) || is_some (vehicle p)
         || is_some (latest_phone_ms p) || is_some (latest_vehicle_ms p)
      then Err InvalidState else Ok p
  end.

Definition restored_after_restart (p : MovingTimeStateParts)
  : result MovingTimeStateParts MovingTimeError :=
  restored <-? from_state_parts p;
  let restored := restored <| cursor_ms := None |> <| phone_gps := None |> <| vehicle := None |>
                    <| latest_phone_ms := None |> <| latest_vehicle_ms := None |>
                    <| incomplete_history := true |> in
  let restored := if negb (bool_decide (availability restored = Unavailable))
                  then restored <| availability := Partial |> else restored in
  from_state_parts restored.

Definition latest_source_at (p : MovingTimeStateParts) (source : MovingTimeSource) : option Z :=
  match source with PhoneGps => latest_phone_ms p | Vehicle => latest_vehicle_ms p end.

Definition mark_evidence_available (p : MovingTimeStateParts) : MovingTimeStateParts :=
  if bool_decide (availability p = Unavailable)
  then p <| availability := if incomplete_history p || bool_decide (0 < unknown_ms p)
                            then Partial else Complete |>
  else p.

Definition summary (p : MovingTimeStateParts) : MovingTimeSummary :=
  {| sum_moving := moving_ms p; sum_observed := observed_ms p;
     sum_unknown := unknown_ms p; sum_availability := availability p |}.

Definition fresh (at_ : Z) (s : MovingTimeSourceStateParts) : option MovingTimeSourceStateParts :=
  if bool_decide (src_at s <= at_)
     && bool_decide (at_ - src_at s < TELEMETRY_FRESHNESS_MILLISECONDS)
  then Some s else None.

Definition selected_source_at (p : MovingTimeStateParts) (at_ : Z)
  : option MovingTimeSourceStateParts :=
  match vehicle p ≫= fresh at_ with
  | Some s => Some s
  | None => phone_gps p ≫= fresh at_
  end.

Definition expires_at (s : MovingTimeSourceStateParts) : Z :=
  sat_add u64_max (src_at s) TELEMETRY_FRESHNESS_MILLISECONDS.

(** The fields set before a failed addition stay set: the state comes back with
    the error. *)
Definition add_observed_interval (p : MovingTimeStateParts) (duration : Z) (moving : bool)
  : MovingTimeStateParts * result unit MovingTimeError :=
  match checked_add u64_max (observed_ms p) duration with
  | None => (p, Err DurationOverflow)
  | Some observed =>
      match checked_add u64_max observed (unknown_ms p) with
      | None => (p, Err DurationOverflow)
      | Some _ =>
          if moving then
            match checked_add u64_max (moving_ms p) duration with
            | None => (p, Err DurationOverflow)
            | Some m => (p <| moving_ms := m |> <| observed_ms := observed |>, Ok tt)
            end
          else (p <| observed_ms := observed |>, Ok tt)
      end
  end.

Definition add_unknown_interval (p : MovingTimeStateParts) (duration : Z)
  : MovingTimeStateParts * result unit MovingTimeError :=
  match checked_add u64_max (unknown_ms p) duration with
  | None => (p, Err DurationOverflow)
  | Some unknown =>
      match checked_add u64_max (observed_ms p) unknown with
      | None => (p, Err DurationOverflow)
      | Some _ => (p <| unknown_ms := unknown |> <| availability := Partial |>, Ok tt)
      end
  end.

(** [into_iter().chain(..).map(..).filter(..).min()] over the two sources. *)
Definition next_expiration (p : MovingTimeStateParts) (cursor : Z) : option Z :=
  min_option (filter (fun e => cursor < e)
    (expires_at <$> (option_list (phone_gps p) ++ option_list (vehicle p)))).

(** One turn of the [while cursor < at] loop: the new state and cursor. *)
Definition advance_turn (p : MovingTimeStateParts) (cursor at_ : Z)
  : MovingTimeStateParts * result Z MovingTimeError :=
  match selected_source_at p cursor with
  | Some source =>
      let end_ := Z.min at_ (expires_at source) in
      if bool_decide (cursor < end_) then
        match add_observed_interval p (end_ - cursor) (speed_is_moving (src_speed source)) with
        | (p', Ok _) => (p', Ok end_)
        | (p', Err e) => (p', Err e)
        end
      else
        match add_unknown_interval p (at_ - cursor) with
        | (p', Ok _) => (p', Ok at_)
        | (p', Err e) => (p', Err e)
        end
  | None =>
      let end_ := match next_expiration p cursor with Some e => Z.min at_ e | None => at_ end in
      match add_unknown_interval p (end_ - cursor) with
      | (p', Ok _) => (p', Ok end_)
      | (p', Err e) => (p', Err e)
      end
  end.

Fixpoint advance_loop (fuel : nat) (p : MovingTimeStateParts) (cursor at_ : Z)
  : option (MovingTimeStateParts * result unit MovingTimeError) :=
  if bool_decide (cursor < at_) then
    match fuel with
    | O => None
    | S fuel =>
        match advance_turn p cursor at_ with
        | (p', Err e) => Some (p', Err e)
        | (p', Ok cursor') => advance_loop fuel p' cursor' at_
        end
    end
  else Some (p <| cursor_ms := Some at_ |>, Ok tt).

(** Out of fuel is the state unchanged; [advance_loop_total] excludes it. *)
Definition advance_to (p : MovingTimeStateParts) (at_ : Z)
  : MovingTimeStateParts * result unit MovingTimeError :=
  match cursor_ms p with
  | None => (p <| cursor_ms := Some at_ |> <| incomplete_history := true |>, Ok tt)
  | Some cursor =>
      if bool_decide (at_ < cursor) then (p, Err ReceiptBeforeCursor)
      else match advance_loop 3 p cursor at_ with
           | Some r => r
           | None => (p, Ok tt)
           end
  end.

Definition observe (self : MovingTimeStateParts) (o : MovingTimeObservation)
  : MovingTimeStateParts * result unit MovingTimeError :=
  if bool_decide (o_receipt_at o < o_source_at o) then (self, Err ReceiptBeforeSource) else
  if is_some (o_speed o)
     && bool_decide (TELEMETRY_FRESHNESS_MILLISECONDS < o_receipt_at o - o_source_at o)
  then (self, Err StaleAtReceipt) else
  if bool_decide (o_source o = Vehicle) && negb (is_some (o_speed o))
  then (self, Err MissingVehicleSpeed) else
  if bool_decide (o_source o = PhoneGps) && is_some_and (o_speed o) (fun v => bool_decide (v < 0))
  then (self, Err InvalidPhoneGpsSpeed) else
  if is_some_and (latest_source_at self (o_source o)) (fun l => bool_decide (o_source_at o <= l))
  then (self, Err SourceTimestampNotNewer) else
  let had_cursor := is_some (cursor_ms self) in
  match advance_to self (o_receipt_at o) with
  | (_, Err e) => (self, Err e)
  | (next, Ok _) =>
      let next := if negb had_cursor then next <| incomplete_history := true |> else next in
      match o_source o with
      | PhoneGps =>
          let next := next <| latest_phone_ms := Some (o_source_at o) |> in
          match o_speed o with
          | Some speed =>
              (mark_evidence_available
                 (next <| phone_gps := Some {| src_speed := speed; src_at := o_source_at o |} |>),
               Ok tt)
          | None => (next, Ok tt)
          end
      | Vehicle =>
          let next := next <| latest_vehicle_ms := Some (o_source_at o) |> in
          match o_speed o with
          | None => (self, Err MissingVehicleSpeed)
          | Some speed =>
              (mark_evidence_available
                 (next <| vehicle := Some {| src_speed := speed; src_at := o_source_at o |} |>),
               Ok tt)
          end
      end
  end.

Definition projected_at (self : MovingTimeStateParts) (as_of : Z) : MovingTimeSummary :=
  if is_some_and (cursor_ms self) (fun c => bool_decide (as_of < c)) then summary self else
  match advance_to self as_of with
  | (p, Ok _) => summary p
  | (p, Err _) => summary (p <| availability := Partial |>)
  end.

Definition prefix_before_source_time (self : MovingTimeStateParts) (source_at : Z)
  : option MovingTimeSummary :=
  cursor ← cursor_ms self;
  if bool_decide (cursor <= source_at) then Some (projected_at self source_at) else None.

Definition clear_sources (p : MovingTimeStateParts) : MovingTimeStateParts :=
  p <| phone_gps := None |> <| vehicle := None |>
    <| latest_phone_ms := None |> <| latest_vehicle_ms := None |>.

Definition close_at (self : MovingTimeStateParts) (at_ : Z)
  : MovingTimeStateParts * result unit MovingTimeError :=
  match cursor_ms self with
  | None => (self, Ok tt)
  | Some _ =>
      match advance_to self at_ with
      | (_, Err e) => (self, Err e)
      | (next, Ok _) => (clear_sources next <| cursor_ms := None |>, Ok tt)
      end
  end.

Definition resume_at (self : MovingTimeStateParts) (at_ : Z)
  : MovingTimeStateParts * result unit MovingTimeError :=
  if is_some_and (cursor_ms self) (fun c => bool_decide (at_ < c))
  then (self, Err ReceiptBeforeCursor)
  else
    let next := clear_sources (self <| cursor_ms := Some at_ |>) in
    (if bool_decide (availability next = Unavailable)
     then next <| incomplete_history := true |> else next, Ok tt).

(** A ride of the repository's kind: three seconds of phone speed, of which the
    last second has no fresh evidence. *)
Example moving_then_unknown :
  let s := new_live 0 in
  let '(s, _) := observe s {| o_source := PhoneGps; o_speed := Some 3000;
                              o_source_at := 0; o_receipt_at := 0 |} in
  projected_at s 3000 = {| sum_moving := 2000; sum_observed := 2000; sum_unknown := 1000;
                           sum_availability := Partial |}.
Proof. vm_compute. reflexivity. Qed.

(** ** Counting milliseconds *)

(** The number of milliseconds [t] of [[a, b)] with [f t]. *)
Definition ms_count (f : Z -> bool) (a b : Z) : Z :=
  Z.of_nat (length (filter (fun t => f t = true) (seqZ a (b - a)))).

Lemma ms_count_nil f a b : b <= a -> ms_count f a b = 0.
Proof. intros H. unfold ms_count. rewrite seqZ_nil by lia. done. Qed.

Lemma ms_count_split f a b c : a <= b -> b <= c -> ms_count f a c = ms_count f a b + ms_count f b c.
Proof.
  intros Hab Hbc. unfold ms_count.
  replace (c - a) with ((b - a) + (c - b)) by lia.
  rewrite seqZ_app by lia. rewrite filter_app, length_app.
  replace (a + (b - a)) with b by lia. lia.
Qed.

Lemma ms_count_const f a b v :
  a <= b -> (forall t, a <= t < b -> f t = v) -> ms_count f a b = if v then b - a else 0.
Proof.
  intros Hab Hf. unfold ms_count.
  assert (Hall : Forall (fun t => f t = v) (seqZ a (b - a))).
  { apply Forall_forall. intros t Ht. apply elem_of_seqZ in Ht. apply Hf. lia. }
  assert (Hl : length (filter (fun t => f t = true) (seqZ a (b - a)))
               = if v then length (seqZ a (b - a)) else 0%nat).
  { induction Hall as [|t l Ht _ IH]; [by destruct v|]. rewrite filter_cons, Ht.
    destruct v; simpl; rewrite IH; done. }
  rewrite Hl. destruct v; [rewrite length_seqZ; lia|done].
Qed.

(** ** The advance loop *)

Definition sources (p : MovingTimeStateParts) : list MovingTimeSourceStateParts :=
  option_list (phone_gps p) ++ option_list (vehicle p).

(** The sources that expire after [cursor]. *)
Definition live (p : MovingTimeStateParts) (cursor : Z) : nat :=
  length (filter (fun s => cursor < expires_at s) (sources p)).

Definition same_sources (p p' : MovingTimeStateParts) : Prop :=
  phone_gps p' = phone_gps p /\ vehicle p' = vehicle p /\
  latest_phone_ms p' = latest_phone_ms p /\ latest_vehicle_ms p' = latest_vehicle_ms p /\
  cursor_ms p' = cursor_ms p /\ incomplete_history p' = incomplete_history p.

Lemma same_sources_selected p p' t :
  same_sources p p' -> selected_source_at p' t = selected_source_at p t.
Proof. intros (Hp & Hv & _). unfold selected_source_at. by rewrite Hp, Hv. Qed.

Lemma same_sources_live p p' c : same_sources p p' -> live p' c = live p c.
Proof. intros (Hp & Hv & _). unfold live, sources. by rewrite Hp, Hv. Qed.

Lemma same_sources_trans p q r : same_sources p q -> same_sources q r -> same_sources p r.
Proof. unfold same_sources. intuition congruence. Qed.

Lemma same_sources_refl p : same_sources p p.
Proof. unfold same_sources. auto 10. Qed.

(** Passing an expiry retires its source. *)
Lemma live_decreases p s c :
  s ∈ sources p -> c < expires_at s -> (live p (expires_at s) < live p c)%nat.
Proof.
  unfold live. generalize (sources p) as l. intros l Hs Hc.
  induction l as [|x l IH]; [by apply elem_of_nil in Hs|].
  assert (Hm : (length (filter (fun s0 => (expires_at s < expires_at s0)%Z) l)
                <= length (filter (fun s0 => (c < expires_at s0)%Z) l))%nat).
  { clear IH Hs. induction l as [|y l IH]; [done|]. rewrite !filter_cons.
    repeat case_decide; simpl; lia. }
  rewrite !filter_cons. apply elem_of_cons in Hs as [->|Hs].
  - rewrite decide_False, decide_True by lia. simpl. lia.
  - specialize (IH Hs). repeat case_decide; simpl; lia.
Qed.

Lemma selected_in_sources p t s : selected_source_at p t = Some s -> s ∈ sources p /\ fresh t s = Some s.
Proof.
  unfold selected_source_at, sources, fresh.
  destruct (vehicle p) as [v|]; simpl.
  - destruct (_ && _) eqn:E; simpl.
    + intros [= <-]. rewrite E. split; [|done]. apply elem_of_app. right. by left.
    + destruct (phone_gps p) as [g|]; simpl; [|done]. destruct (bool_decide (src_at g <= t) && _) eqn:E'; [|done].
      intros [= <-]. rewrite E'. split; [|done]. by left.
  - destruct (phone_gps p) as [g|]; simpl; [|done]. destruct (_ && _) eqn:E'; [|done].
    intros [= <-]. rewrite E'. split; [|done]. by left.
Qed.

Lemma next_expiration_spec p c e :
  next_expiration p c = Some e -> c < e /\ exists s, s ∈ sources p /\ e = expires_at s.
Proof.
  unfold next_expiration. fold (sources p). intros [Hin _]%min_option_Some.
  apply list_elem_of_filter in Hin as [Hc Hin].
  apply list_elem_of_fmap in Hin as (s & He & Hs). split; [exact Hc|]. eauto.
Qed.

Lemma add_observed_sources p d m : same_sources p (add_observed_interval p d m).1.
Proof.
  unfold add_observed_interval. destruct p. simpl.
  step_cases; unfold same_sources; simpl; auto 10.
Qed.
Lemma add_unknown_sources p d : same_sources p (add_unknown_interval p d).1.
Proof.
  unfold add_unknown_interval. destruct p. simpl. step_cases; unfold same_sources; simpl; auto 10.
Qed.

(** One turn keeps the evidence and moves the cursor, to the target or past the
    expiry of a source. *)
Lemma advance_turn_progress p c a :
  c < a ->
  same_sources p (advance_turn p c a).1 /\
  forall c', (advance_turn p c a).2 = Ok c' ->
    c < c' <= a /\ (c' = a \/ (live p c' < live p c)%nat).
Proof.
  intros Hc. unfold advance_turn.
  destruct (selected_source_at p c) as [s|] eqn:Es.
  - apply selected_in_sources in Es as [Hs _].
    case_bool_decide as He.
    + pose proof (add_observed_sources p (Z.min a (expires_at s) - c) (speed_is_moving (src_speed s))).
      destruct (add_observed_interval _ _ _) as [p' [u|e]]; simpl in *; split; try done.
      intros c' [= <-]. split; [lia|].
      destruct (Z.min_spec a (expires_at s)) as [[? ->]|[? ->]]; [by left|].
      right. apply live_decreases; [done|lia].
    + pose proof (add_unknown_sources p (a - c)).
      destruct (add_unknown_interval _ _) as [p' [u|e]]; simpl in *; split; try done.
      intros c' [= <-]. split; [lia|by left].
  - pose proof (add_unknown_sources p (match next_expiration p c with Some e => Z.min a e | None => a end - c)).
    destruct (next_expiration p c) as [e|] eqn:En;
      destruct (add_unknown_interval _ _) as [p' [u|er]]; simpl in *; split; try done;
      intros c' [= <-].
    + apply next_expiration_spec in En as (He & s & Hs & ->). split; [lia|].
      destruct (Z.min_spec a (expires_at s)) as [[? ->]|[? ->]]; [by left|].
      right. apply live_decreases; [done|lia].
    + split; [lia|by left].
Qed.

Lemma live_le_2 p c : (live p c <= 2)%nat.
Proof.
  unfold live. etransitivity; [apply length_filter|]. unfold sources. rewrite length_app.
  destruct (phone_gps p), (vehicle p); simpl; lia.
Qed.

(** Enough fuel: one turn more than there are live sources. *)
Lemma advance_loop_enough fuel p c a :
  (live p c < fuel)%nat -> exists r, advance_loop fuel p c a = Some r.
Proof.
  revert p c. induction fuel as [|fuel IH]; intros p c Hf; [lia|]. simpl.
  case_bool_decide as Hc; [|eauto].
  destruct (advance_turn_progress p c a Hc) as [Hs Hp].
  destruct (advance_turn p c a) as [p' [c'|e]]; simpl in *; [|eauto].
  destruct (Hp c' eq_refl) as [_ [->|Hl]].
  - destruct fuel; simpl; rewrite bool_decide_false by lia; eauto.
  - apply IH. rewrite (same_sources_live p p') by done. lia.
Qed.

Lemma advance_loop_total p c a : exists r, advance_loop 3 p c a = Some r.
Proof. apply advance_loop_enough. pose proof (live_le_2 p c). lia. Qed.

(** ** The per-millisecond reference *)

Definition observed_at (p : MovingTimeStateParts) (t : Z) : bool := is_some (selected_source_at p t).
Definition moving_at (p : MovingTimeStateParts) (t : Z) : bool :=
  is_some_and (selected_source_at p t) (fun s => speed_is_moving (src_speed s)).
Definition unknown_at (p : MovingTimeStateParts) (t : Z) : bool := negb (observed_at p t).

(** Evidence never comes from the future of the cursor. *)
Definition causal (p : MovingTimeStateParts) (c : Z) : Prop :=
  Forall (fun s => src_at s <= c) (sources p).

Lemma causal_sources p c :
  causal p c <->
  (forall s, vehicle p = Some s -> src_at s <= c) /\ (forall s, phone_gps p = Some s -> src_at s <= c).
Proof.
  unfold causal, sources. rewrite Forall_app.
  destruct (phone_gps p) as [g|], (vehicle p) as [v|]; simpl; rewrite ?Forall_singleton;
    split; intros [H1 H2]; split; intros; simplify_eq; auto; try done; by constructor.
Qed.

Lemma causal_mono p c c' : causal p c -> c <= c' -> causal p c'.
Proof. intros H Hc. eapply Forall_impl; [exact H|]. simpl. lia. Qed.

Lemma fresh_Some t s s' : fresh t s = Some s' <-> s' = s /\ src_at s <= t < src_at s + 2000.
Proof.
  unfold fresh, TELEMETRY_FRESHNESS_MILLISECONDS.
  destruct (_ && _) eqn:E; prop_bools; split.
  - intros [= <-]. split; [done|lia].
  - by intros [-> _].
  - done.
  - intros [_ H]. destruct E; prop_bools; lia.
Qed.
Lemma fresh_None t s : fresh t s = None <-> ~ (src_at s <= t < src_at s + 2000).
Proof.
  pose proof (fresh_Some t s s) as H. destruct (fresh t s) eqn:E; [|intuition congruence].
  apply fresh_Some in E as [-> ?]. split; [done|tauto].
Qed.

(** Which source is selected does not change before it expires. *)
Lemma selected_stable p c t s :
  causal p c -> selected_source_at p c = Some s -> c <= t < src_at s + 2000 ->
  selected_source_at p t = Some s.
Proof.
  intros [Hv Hg]%causal_sources. unfold selected_source_at.
  destruct (vehicle p) as [v|]; simpl.
  - destruct (fresh c v) as [v'|] eqn:E.
    + apply fresh_Some in E as [-> ?]. intros [= ->] Ht.
      destruct (fresh t s) as [s'|] eqn:E'; [by apply fresh_Some in E' as [-> _]|].
      apply fresh_None in E'. lia.
    + apply fresh_None in E. specialize (Hv v eq_refl). intros Hs Ht.
      destruct (fresh t v) as [v'|] eqn:E'; [apply fresh_Some in E' as [-> ?]; lia|].
      destruct (phone_gps p) as [g|]; simpl in *; [|done].
      apply fresh_Some in Hs as [-> ?]. apply fresh_Some. split; [done|lia].
  - intros Hs Ht. destruct (phone_gps p) as [g|]; simpl in *; [|done].
    apply fresh_Some in Hs as [-> ?]. apply fresh_Some. split; [done|lia].
Qed.

Lemma selected_none_stable p c t :
  causal p c -> selected_source_at p c = None -> c <= t -> selected_source_at p t = None.
Proof.
  intros [Hv Hg]%causal_sources. unfold selected_source_at.
  assert (Hn : forall o : option MovingTimeSourceStateParts,
    (forall s, o = Some s -> src_at s <= c) -> o ≫= fresh c = None -> c <= t -> o ≫= fresh t = None).
  { intros [s|] Hs Hc Ht; [|done]. simpl in *. specialize (Hs s eq_refl).
    apply fresh_None in Hc. apply fresh_None. lia. }
  destruct (vehicle p ≫= fresh c) eqn:E; [done|]. intros Hc Ht.
  rewrite (Hn _ Hv E Ht). by apply Hn.
Qed.

(** The books of a state after accounting for [[c, c')]. *)
Definition accounted (p p' : MovingTimeStateParts) (c c' : Z) : Prop :=
  moving_ms p' = moving_ms p + ms_count (moving_at p) c c' /\
  observed_ms p' = observed_ms p + ms_count (observed_at p) c c' /\
  unknown_ms p' = unknown_ms p + ms_count (unknown_at p) c c' /\
  availability p' = if bool_decide (0 < ms_count (unknown_at p) c c') then Partial
                    else availability p.

Definition counters_ok (p : MovingTimeStateParts) : Prop :=
  0 <= moving_ms p <= observed_ms p /\ 0 <= unknown_ms p /\
  observed_ms p + unknown_ms p <= u64_max.

Lemma add_observed_spec p d m :
  counters_ok p -> 0 <= d ->
  if bool_decide (observed_ms p + unknown_ms p + d <= u64_max) then
    add_observed_interval p d m =
      (p <| moving_ms := moving_ms p + (if m then d else 0) |> <| observed_ms := observed_ms p + d |>, Ok tt)
  else add_observed_interval p d m = (p, Err DurationOverflow).
Proof.
  intros (Hm & Hu & Ho) Hd. unfold add_observed_interval, checked_add.
  case_bool_decide.
  - rewrite !bool_decide_true by int_lia. destruct m; [done|]. destruct p; simpl. by rewrite Z.add_0_r.
  - case_bool_decide; [|done]. rewrite bool_decide_false by lia. done.
Qed.

Lemma add_unknown_spec p d :
  counters_ok p -> 0 <= d ->
  if bool_decide (observed_ms p + unknown_ms p + d <= u64_max) then
    add_unknown_interval p d =
      (p <| unknown_ms := unknown_ms p + d |> <| availability := Partial |>, Ok tt)
  else add_unknown_interval p d = (p, Err DurationOverflow).
Proof.
  intros (Hm & Hu & Ho) Hd. unfold add_unknown_interval, checked_add.
  case_bool_decide.
  - rewrite !bool_decide_true by int_lia. done.
  - case_bool_decide; [|done]. rewrite bool_decide_false by lia. done.
Qed.

(** The interval of one turn is uniform in the reference. *)
Lemma ms_count_turn p c c' s :
  causal p c -> c <= c' -> selected_source_at p c = Some s -> c' <= src_at s + 2000 ->
  ms_count (observed_at p) c c' = c' - c /\ ms_count (unknown_at p) c c' = 0 /\
  ms_count (moving_at p) c c' = if speed_is_moving (src_speed s) then c' - c else 0.
Proof.
  intros Hc Hle Hs He. unfold unknown_at, observed_at, moving_at.
  assert (H : forall t, c <= t < c' -> selected_source_at p t = Some s)
    by (intros; apply (selected_stable p c); auto; lia).
  split; [|split].
  - rewrite (ms_count_const _ _ _ true) by (done || intros; by rewrite H). done.
  - rewrite (ms_count_const _ _ _ false) by (done || intros; by rewrite H). done.
  - apply (ms_count_const _ _ _ (speed_is_moving (src_speed s))); [done|]. intros. by rewrite H.
Qed.

Lemma ms_count_unknown_turn p c c' :
  causal p c -> c <= c' -> selected_source_at p c = None ->
  ms_count (observed_at p) c c' = 0 /\ ms_count (unknown_at p) c c' = c' - c /\
  ms_count (moving_at p) c c' = 0.
Proof.
  intros Hc Hle Hs. unfold unknown_at, observed_at, moving_at.
  assert (H : forall t, c <= t < c' -> selected_source_at p t = None)
    by (intros; apply (selected_none_stable p c); auto; lia).
  split; [|split].
  - rewrite (ms_count_const _ _ _ false) by (done || intros; by rewrite H). done.
  - rewrite (ms_count_const _ _ _ true) by (done || intros; by rewrite H). done.
  - rewrite (ms_count_const _ _ _ false) by (done || intros; by rewrite H). done.
Qed.

(** One turn keeps the books; it fails only when the interval does not fit the
    counters. *)
Lemma advance_turn_accounted p c a :
  counters_ok p -> causal p c -> 0 <= c -> c < a -> a <= u64_max ->
  match (advance_turn p c a).2 with
  | Ok c' => c < c' <= a /\ accounted p (advance_turn p c a).1 c c' /\
             observed_ms p + unknown_ms p + (c' - c) <= u64_max
  | Err e => e = DurationOverflow /\ u64_max < observed_ms p + unknown_ms p + (a - c)
  end.
Proof.
  intros Hk Hc H0 Hca Ha. unfold advance_turn.
  destruct (selected_source_at p c) as [s|] eqn:Es.
  - assert (Hs : src_at s <= c < src_at s + 2000).
    { apply selected_in_sources in Es as [_ E]. by apply fresh_Some in E as [_ E]. }
    assert (He : expires_at s = Z.min u64_max (src_at s + 2000)) by done.
    rewrite bool_decide_true by lia.
    set (c' := Z.min a (expires_at s)). pose proof (add_observed_spec p (c' - c)
      (speed_is_moving (src_speed s)) Hk ltac:(lia)) as E.
    case_bool_decide; rewrite E; simpl; [|split; [done|lia]].
    destruct (ms_count_turn p c c' s Hc ltac:(lia) Es ltac:(lia)) as (E1 & E2 & E3).
    split; [lia|]. split; [|lia]. unfold accounted. rewrite E1, E2, E3.
    destruct p; simpl. split_ands; auto; lia.
  - set (c' := match next_expiration p c with Some e => Z.min a e | None => a end).
    assert (Hc' : c < c' <= a).
    { unfold c'. destruct (next_expiration p c) eqn:En; [|lia].
      apply next_expiration_spec in En as [? _]. lia. }
    pose proof (add_unknown_spec p (c' - c) Hk ltac:(lia)) as E.
    case_bool_decide; rewrite E; simpl; [|split; [done|lia]].
    destruct (ms_count_unknown_turn p c c' Hc ltac:(lia) Es) as (E1 & E2 & E3).
    split; [lia|]. split; [|lia]. unfold accounted. rewrite E1, E2, E3, bool_decide_true by lia.
    destruct p; simpl. split_ands; auto; lia.
Qed.

Lemma ms_count_range f a b : a <= b -> 0 <= ms_count f a b <= b - a.
Proof.
  intros H. unfold ms_count.
  pose proof (length_filter (fun t => f t = true) (seqZ a (b - a))) as Hl.
  rewrite length_seqZ in Hl. lia.
Qed.

Lemma ms_count_le f g a b : (forall t, f t = true -> g t = true) -> ms_count f a b <= ms_count g a b.
Proof.
  intros H. unfold ms_count. generalize (seqZ a (b - a)) as l.
  induction l as [|t l IH]; [done|]. rewrite !filter_cons. specialize (H t).
  destruct (f t), (g t); simpl; lia || discriminate (H eq_refl).
Qed.

Lemma ms_count_negb f a b :
  a <= b -> ms_count f a b + ms_count (fun t => negb (f t)) a b = b - a.
Proof.
  intros H. unfold ms_count. replace (b - a) with (Z.of_nat (length (seqZ a (b - a)))) at 3
    by (rewrite length_seqZ; lia).
  generalize (seqZ a (b - a)) as l. induction l as [|t l IH]; [done|].
  rewrite !filter_cons. destruct (f t); simpl; lia.
Qed.

Lemma ms_count_ext f g a b : (forall t, f t = g t) -> ms_count f a b = ms_count g a b.
Proof. intros H. apply Z.le_antisymm; apply ms_count_le; intros t; by rewrite H. Qed.

(** The books of an interval of the reference stay in range. *)
Lemma accounted_counters p p' c a :
  counters_ok p -> c <= a -> accounted p p' c a ->
  observed_ms p + unknown_ms p + (a - c) <= u64_max ->
  counters_ok p' /\ observed_ms p' + unknown_ms p' = observed_ms p + unknown_ms p + (a - c).
Proof.
  intros (Hm & Hu & Ho) Hca (E1 & E2 & E3 & _) Hfit.
  pose proof (ms_count_range (moving_at p) c a Hca).
  pose proof (ms_count_range (unknown_at p) c a Hca).
  pose proof (ms_count_negb (observed_at p) c a Hca) as Hn. fold (unknown_at p) in Hn.
  assert (ms_count (moving_at p) c a <= ms_count (observed_at p) c a).
  { apply ms_count_le. intros t. unfold moving_at, observed_at. by destruct (selected_source_at p t). }
  unfold unknown_at in *. unfold counters_ok. lia.
Qed.

Lemma accounted_trans p p1 p2 c c1 a :
  c <= c1 -> c1 <= a -> same_sources p p1 ->
  accounted p p1 c c1 -> accounted p1 p2 c1 a -> accounted p p2 c a.
Proof.
  intros H1 H2 Hs (A1 & A2 & A3 & A4) (B1 & B2 & B3 & B4).
  assert (Hsel : forall t, selected_source_at p1 t = selected_source_at p t)
    by (intros; by apply same_sources_selected).
  rewrite (ms_count_ext (moving_at p1) (moving_at p)) in B1
    by (intros; unfold moving_at; by rewrite Hsel).
  rewrite (ms_count_ext (observed_at p1) (observed_at p)) in B2
    by (intros; unfold observed_at; by rewrite Hsel).
  rewrite (ms_count_ext (unknown_at p1) (unknown_at p)) in B3, B4
    by (intros; unfold unknown_at, observed_at; by rewrite Hsel).
  pose proof (ms_count_range (unknown_at p) c c1 H1).
  pose proof (ms_count_range (unknown_at p) c1 a H2).
  unfold accounted. rewrite !(ms_count_split _ c c1 a) by done.
  rewrite B1, B2, B3, B4, A1, A2, A3, A4. split_ands; try lia.
  repeat case_bool_decide; try done; lia.
Qed.

Lemma accounted_refl p c : accounted p p c c.
Proof. unfold accounted. rewrite !ms_count_nil by lia. rewrite bool_decide_false by lia. split_ands; try done; lia. Qed.

(** The loop computes the reference, or the interval does not fit. *)
Lemma advance_loop_accounted fuel p c a r :
  counters_ok p -> causal p c -> 0 <= c <= a -> a <= u64_max ->
  advance_loop fuel p c a = Some r ->
  match r with
  | (p', Ok _) => accounted p p' c a /\ cursor_ms p' = Some a /\
      observed_ms p + unknown_ms p + (a - c) <= u64_max /\
      same_sources p (p' <| cursor_ms := cursor_ms p |>)
  | (_, Err e) => e = DurationOverflow /\ u64_max < observed_ms p + unknown_ms p + (a - c)
  end.
Proof.
  revert p c. induction fuel as [|fuel IH]; intros p c Hk Hc H0 Ha; simpl; case_bool_decide as Hca.
  - done.
  - intros [= <-]. assert (c = a) as -> by lia. destruct Hk as (?&?&?). pose proof (accounted_refl p a) as Hr.
    destruct p; unfold accounted, same_sources in *; simpl in *; destruct_and?; split_ands; try done; lia.
  - pose proof (advance_turn_accounted p c a Hk Hc ltac:(lia) Hca Ha) as Ht.
    destruct (advance_turn_progress p c a Hca) as [Hs _].
    destruct (advance_turn p c a) as [p1 [c1|e]]; simpl in *; [|by intros [= <-]].
    destruct Ht as (Hc1 & Hacc & Hfit). intros Hr.
    destruct (accounted_counters p p1 c c1 Hk ltac:(lia) Hacc Hfit) as [Hk1 Hsum].
    assert (Hcaus : causal p1 c1).
    { apply (causal_mono _ c); [|lia]. unfold causal, sources in *. destruct Hs as (-> & -> & _). done. }
    specialize (IH p1 c1 Hk1 Hcaus ltac:(lia) Ha Hr).
    destruct r as [p' [u|e]]; [|split; [apply IH|lia]].
    destruct IH as (Hacc' & Hcur & Hfit' & Hs').
    split; [eapply accounted_trans; eauto; lia|]. split; [done|]. split; [lia|].
    assert (Hcc : cursor_ms p1 = cursor_ms p) by apply Hs. rewrite Hcc in Hs'.
    eauto using same_sources_trans.
  - intros [= <-]. assert (c = a) as -> by lia. destruct Hk as (?&?&?). pose proof (accounted_refl p a) as Hr.
    destruct p; unfold accounted, same_sources in *; simpl in *; destruct_and?; split_ands; try done; lia.
Qed.

(** ** Valid states *)

(** What [from_state_parts] accepts, as propositions. *)
Definition source_ok (s : option MovingTimeSourceStateParts) (latest : option Z) (c : Z) : Prop :=
  (forall x, s = Some x -> exists l, latest = Some l /\ src_at x <= l) /\
  (forall l, latest = Some l -> l <= c).

Record valid (p : MovingTimeStateParts) : Prop := {
  v_counters : counters_ok p;
  v_phone : forall s, phone_gps p = Some s -> 0 <= src_speed s;
  v_complete : availability p = Complete -> unknown_ms p = 0 /\ incomplete_history p = false;
  v_unavailable : availability p = Unavailable ->
    observed_ms p = 0 /\ unknown_ms p = 0 /\ phone_gps p = None /\ vehicle p = None;
  v_partial : availability p = Partial -> unknown_ms p <> 0 \/ incomplete_history p = true;
  v_cursor : match cursor_ms p with
             | Some c => 0 <= c /\ source_ok (phone_gps p) (latest_phone_ms p) c /\
                         source_ok (vehicle p) (latest_vehicle_ms p) c
             | None => phone_gps p = None /\ vehicle p = None /\
                       latest_phone_ms p = None /\ latest_vehicle_ms p = None
             end
}.

Lemma source_after_cursor_false s latest c :
  source_after_cursor s latest c || is_some_and latest (fun l => bool_decide (c < l)) = false <->
  source_ok s latest c.
Proof.
  unfold source_after_cursor, source_ok, is_some_and, is_none_or.
  rewrite orb_false_iff. split.
  - intros [H1 H2]. split.
    + intros x ->. apply orb_false_iff in H1 as [Ha Hb]. destruct latest as [l|]; [|done].
      prop_bools. exists l. split; [done|lia].
    + intros l ->. prop_bools. lia.
  - intros [H1 H2]. split.
    + destruct s as [x|]; [|done]. destruct (H1 x eq_refl) as (l & -> & Hl). specialize (H2 l eq_refl).
      rewrite !bool_decide_false by lia. done.
    + destruct latest as [l|]; [|done]. specialize (H2 l eq_refl). by rewrite bool_decide_false by lia.
Qed.

Lemma guard_Ok {A E} (g : bool) (e : E) (r : result A E) a :
  (if g then Err e else r) = Ok a <-> g = false /\ r = Ok a.
Proof. destruct g; split; [done|by intros [? _]|auto|by intros [_ ?]]. Qed.

Lemma is_some_false {A} (o : option A) : is_some o = false <-> o = None.
Proof. destruct o; done. Qed.

Lemma bool_decide_or_false (P : Prop) `{Decision P} (b : bool) :
  bool_decide P && b = false <-> (P -> b = false).
Proof. case_bool_decide; destruct b; simpl; intuition congruence. Qed.

(** The validator accepts exactly the valid states of unsigned integers. *)
Lemma from_state_parts_valid p :
  0 <= moving_ms p -> 0 <= observed_ms p -> 0 <= unknown_ms p ->
  (forall c, cursor_ms p = Some c -> 0 <= c) ->
  from_state_parts p = Ok p <-> valid p.
Proof.
  intros Hm Ho Hu Hc. unfold from_state_parts. rewrite guard_Ok, !orb_false_iff.
  rewrite <- !andb_assoc, !bool_decide_or_false, !orb_false_iff, !bool_decide_eq_false.
  rewrite !is_some_false, checked_add_None.
  assert (Hcur : (match cursor_ms p with
     | Some cursor => if source_after_cursor (phone_gps p) (latest_phone_ms p) cursor
         || source_after_cursor (vehicle p) (latest_vehicle_ms p) cursor
         || is_some_and (latest_phone_ms p) (fun l => bool_decide (cursor < l))
         || is_some_and (latest_vehicle_ms p) (fun l => bool_decide (cursor < l))
         then Err InvalidState else Ok p
     | None => if is_some (phone_gps p) || is_some (vehicle p)
         || is_some (latest_phone_ms p) || is_some (latest_vehicle_ms p)
         then Err InvalidState else Ok p
     end = Ok p) <-> match cursor_ms p with
             | Some c => 0 <= c /\ source_ok (phone_gps p) (latest_phone_ms p) c /\
                         source_ok (vehicle p) (latest_vehicle_ms p) c
             | None => phone_gps p = None /\ vehicle p = None /\
                       latest_phone_ms p = None /\ latest_vehicle_ms p = None
             end).
  { destruct (cursor_ms p) as [c|]; rewrite guard_Ok, !orb_false_iff.
    - rewrite <- !source_after_cursor_false, !orb_false_iff. specialize (Hc c eq_refl). tauto.
    - rewrite !is_some_false. tauto. }
  rewrite Hcur. unfold is_some_and at 1.
  split.
  - intros ((((((H1 & H2) & H3) & H4) & H5) & H6) & H7). split; auto.
    + unfold counters_ok. lia.
    + intros s Hs. rewrite Hs in H3. prop_bools. lia.
    + intros Ha. destruct (H4 Ha). split; [lia|done].
    + intros Ha. destruct (H5 Ha) as [[[? ?] ?] ?]. split_ands; auto; lia.
    + intros Ha. specialize (H6 Ha). destruct (incomplete_history p); [by right|left].
      intros E. by specialize (H6 E).
  - intros [(?&?&?) H3 H4 H5 H6 H7]. split_ands; auto; try lia.
    + destruct (phone_gps p) as [s|]; [|done]. specialize (H3 s eq_refl).
      apply bool_decide_eq_false_2. lia.
    + intros Ha. destruct (H4 Ha). split; [lia|done].
    + intros Ha. destruct (H5 Ha) as (? & ? & ? & ?). split_ands; auto; lia.
    + intros Ha Hz. by destruct (H6 Ha) as [Hn| ->].
Qed.

Lemma valid_causal p c : valid p -> cursor_ms p = Some c -> 0 <= c /\ causal p c.
Proof.
  intros [_ _ _ _ _ H] Hc. rewrite Hc in H. destruct H as (H0 & [Hp Hpl] & [Hv Hvl]).
  split; [done|]. apply causal_sources. split; intros s Hs.
  - destruct (Hv s Hs) as (l & El & ?). specialize (Hvl l El). lia.
  - destruct (Hp s Hs) as (l & El & ?). specialize (Hpl l El). lia.
Qed.

(** [advance_to] from a live cursor: the reference, or one of two errors. *)
Lemma advance_to_spec p c a :
  valid p -> cursor_ms p = Some c -> a <= u64_max ->
  match advance_to p a with
  | (p', Ok _) => c <= a /\ accounted p p' c a /\ cursor_ms p' = Some a /\
      observed_ms p + unknown_ms p + (a - c) <= u64_max /\
      same_sources p (p' <| cursor_ms := cursor_ms p |>)
  | (p', Err ReceiptBeforeCursor) => a < c
  | (p', Err DurationOverflow) => c <= a /\ u64_max < observed_ms p + unknown_ms p + (a - c)
  | (_, Err _) => False
  end.
Proof.
  intros Hv Hc Ha. destruct (valid_causal p c Hv Hc) as [H0 Hcaus].
  unfold advance_to. rewrite Hc. case_bool_decide; [done|].
  destruct (advance_loop_total p c a) as [r Hr]. rewrite Hr.
  pose proof (advance_loop_accounted 3 p c a r (v_counters p Hv) Hcaus ltac:(lia) Ha Hr) as H'.
  destruct r as [p' [u|e]].
  - destruct H' as (? & ? & ? & ?). rewrite <- Hc. split_ands; auto. lia.
  - destruct H' as [-> ?]. split; [lia|done].
Qed.

Lemma no_sources_unknown p c a :
  phone_gps p = None -> vehicle p = None -> c <= a ->
  ms_count (unknown_at p) c a = a - c /\ ms_count (observed_at p) c a = 0 /\
  ms_count (moving_at p) c a = 0.
Proof.
  intros Hp Hv Hle.
  assert (Hs : forall t, selected_source_at p t = None)
    by (intros; unfold selected_source_at; by rewrite Hp, Hv).
  unfold unknown_at, observed_at, moving_at. split_ands.
  - rewrite (ms_count_const _ _ _ true) by (done || intros; by rewrite Hs). done.
  - rewrite (ms_count_const _ _ _ false) by (done || intros; by rewrite Hs). done.
  - rewrite (ms_count_const _ _ _ false) by (done || intros; by rewrite Hs). done.
Qed.

(** Advancing keeps a live state valid. *)
Lemma advance_to_valid p c a p' u :
  valid p -> cursor_ms p = Some c -> a <= u64_max -> advance_to p a = (p', Ok u) -> valid p'.
Proof.
  intros Hv Hc Ha E. pose proof (advance_to_spec p c a Hv Hc Ha) as H. rewrite E in H.
  destruct H as (Hca & Hacc & Hcur & Hfit & Hs).
  destruct (accounted_counters p p' c a (v_counters p Hv) Hca Hacc Hfit) as [Hk _].
  destruct Hacc as (A1 & A2 & A3 & A4).
  assert (Hsame : phone_gps p' = phone_gps p /\ vehicle p' = vehicle p /\
    latest_phone_ms p' = latest_phone_ms p /\ latest_vehicle_ms p' = latest_vehicle_ms p /\
    incomplete_history p' = incomplete_history p).
  { destruct Hs as (?&?&?&?&_&?). destruct p'. simpl in *. auto. }
  destruct Hsame as (Ep & Ev & Elp & Elv & Ei).
  pose proof (ms_count_range (unknown_at p) c a Hca) as Hur.
  destruct Hv as [(?&?&?) V2 V3 V4 V5 V6]. rewrite Hc in V6.
  split; rewrite ?Ep, ?Ev, ?Elp, ?Elv, ?Ei, ?Hcur; auto.
  - intros Ea. rewrite A4 in Ea. case_bool_decide; [done|]. destruct (V3 Ea). split; [lia|done].
  - intros Ea. rewrite A4 in Ea. case_bool_decide; [done|].
    destruct (V4 Ea) as (?&?&Hp&Hve). destruct (no_sources_unknown p c a Hp Hve Hca) as (?&?&?).
    split_ands; auto; lia.
  - intros Ea. rewrite A4 in Ea. case_bool_decide; [left; lia|].
    destruct (V5 Ea); [left; lia|by right].
  - destruct V6 as (? & [P1 P2] & [Q1 Q2]). split; [lia|].
    split; split; auto; intros l El; [specialize (P2 l El)|specialize (Q2 l El)]; lia.
Qed.

(** ** The machine of a recorded ride *)

Inductive RideCall :=
| CObserve (o : MovingTimeObservation)
| CClose (at_ : Z)
| CResume (at_ : Z).

Definition ride_step (p : MovingTimeStateParts) (c : RideCall)
  : MovingTimeStateParts * result unit MovingTimeError :=
  match c with
  | CObserve o => observe p o
  | CClose a => close_at p a
  | CResume a => resume_at p a
  end.

(** Timestamps are u64 and speeds i32. *)
Definition call_ok (c : RideCall) : Prop :=
  match c with
  | CObserve o => in_u u64_max (o_source_at o) /\ in_u u64_max (o_receipt_at o)
  | CClose a | CResume a => in_u u64_max a
  end.

(** Evidence while a ride is closed is not a step of a live ride. *)
Definition enabled (p : MovingTimeStateParts) (c : RideCall) : Prop :=
  match c with CObserve _ => cursor_ms p <> None | _ => True end.

Lemma close_valid p a : valid p -> a <= u64_max -> valid (close_at p a).1.
Proof.
  intros Hv Ha. unfold close_at. destruct (cursor_ms p) as [c|] eqn:Hc; [|done].
  destruct (advance_to p a) as [p' [u|e]] eqn:E; [|done].
  apply (advance_to_valid p c) in E; auto. destruct E as [? ? V3 V4 V5 _].
  unfold clear_sources. destruct p'. simpl in *.
  split; simpl; auto; try done. intros Ea. specialize (V4 Ea). tauto.
Qed.

Lemma resume_valid p a : valid p -> 0 <= a -> valid (resume_at p a).1.
Proof.
  intros Hv Ha. unfold resume_at. destruct (is_some_and _ _); [done|].
  destruct Hv as [V1 _ V3 V4 V5 _]. unfold clear_sources. destruct p as [m o u cur g v lg lv av inc].
  cbn [set_field availability fst] in *. simpl in V1, V3, V4, V5.
  assert (Hk : counters_ok {| moving_ms := m; observed_ms := o; unknown_ms := u;
    cursor_ms := Some a; phone_gps := None; vehicle := None; latest_phone_ms := None;
    latest_vehicle_ms := None; availability := av; incomplete_history := inc |}) by exact V1.
  case_bool_decide as Ea; split; simpl; auto; try done; try tauto;
    try (split; [lia|split; split; done]); subst; done.
Qed.

(** Recording an observation at the cursor. *)
Lemma record_phone_valid p c at_ speed :
  valid p -> cursor_ms p = Some c -> 0 <= speed -> at_ <= c ->
  valid (mark_evidence_available
           ((p <| latest_phone_ms := Some at_ |>)
              <| phone_gps := Some {| src_speed := speed; src_at := at_ |} |>)).
Proof.
  intros [V1 V2 V3 V4 V5 V6] Hc Hs Hat. rewrite Hc in V6. destruct V6 as (H0 & P & Q).
  unfold mark_evidence_available. destruct p as [m o u cur g v lg lv av inc].
  cbn [set_field availability]. simpl in *. subst cur.
  assert (Hsrc : source_ok (Some {| src_speed := speed; src_at := at_ |}) (Some at_) c).
  { split; [intros x [= <-]; exists at_; split; [done|simpl; lia]|intros l [= <-]; done]. }
  destruct V1 as (?&?&?). simpl in *.
  case_bool_decide as Ea; split; simpl; auto; try done; try (intros s [= <-]; done).
  - destruct inc; [done|]. destruct (V4 Ea) as (?&->&_). done.
  - destruct inc; [done|]. destruct (V4 Ea) as (?&->&_). done.
  - destruct inc; [by right|]. destruct (V4 Ea) as (?&->&_). done.
Qed.

Lemma record_vehicle_valid p c at_ speed :
  valid p -> cursor_ms p = Some c -> at_ <= c ->
  valid (mark_evidence_available
           ((p <| latest_vehicle_ms := Some at_ |>)
              <| vehicle := Some {| src_speed := speed; src_at := at_ |} |>)).
Proof.
  intros [V1 V2 V3 V4 V5 V6] Hc Hat. rewrite Hc in V6. destruct V6 as (H0 & P & Q).
  unfold mark_evidence_available. destruct p as [m o u cur g v lg lv av inc].
  cbn [set_field availability]. simpl in *. subst cur.
  assert (Hsrc : source_ok (Some {| src_speed := speed; src_at := at_ |}) (Some at_) c).
  { split; [intros x [= <-]; exists at_; split; [done|simpl; lia]|intros l [= <-]; done]. }
  destruct V1 as (?&?&?). simpl in *.
  case_bool_decide as Ea; split; simpl; auto; try done.
  - destruct inc; [done|]. destruct (V4 Ea) as (?&->&_). done.
  - destruct inc; [done|]. destruct (V4 Ea) as (?&->&_). done.
  - destruct inc; [by right|]. destruct (V4 Ea) as (?&->&_). done.
Qed.

Lemma record_watermark_valid p c at_ :
  valid p -> cursor_ms p = Some c -> at_ <= c ->
  (forall l, latest_phone_ms p = Some l -> l < at_) ->
  valid (p <| latest_phone_ms := Some at_ |>).
Proof.
  intros [V1 V2 V3 V4 V5 V6] Hc Hat Hl. rewrite Hc in V6. destruct V6 as (H0 & [P1 P2] & Q).
  destruct p as [m o u cur g v lg lv av inc]. simpl in *. subst cur.
  split; simpl; auto. split; [done|]. split; [|done]. split.
  - intros x Hx. destruct (P1 x Hx) as (l & El & ?). exists at_. split; [done|].
    specialize (Hl l El). lia.
  - intros l [= <-]. done.
Qed.

Lemma observe_valid p o :
  valid p -> cursor_ms p <> None -> in_u u64_max (o_receipt_at o) -> valid (observe p o).1.
Proof.
  intros Hv Hcur Hr. unfold observe.
  destruct (cursor_ms p) as [c|] eqn:Hc; [|done]. clear Hcur.
  case_bool_decide as Hcausal; [done|].
  destruct (is_some (o_speed o) && _); [done|].
  destruct (bool_decide (o_source o = Vehicle) && _); [done|].
  destruct (bool_decide (o_source o = PhoneGps) && _) eqn:Hneg; [done|].
  destruct (is_some_and (latest_source_at p (o_source o)) _) eqn:Hord; [done|].
  destruct (advance_to p (o_receipt_at o)) as [p' [u|e]] eqn:E; [|done].
  pose proof (advance_to_spec p c (o_receipt_at o) Hv Hc ltac:(int_lia)) as Hsp. rewrite E in Hsp.
  destruct Hsp as (_ & _ & Hcur' & _ & Hs).
  apply (advance_to_valid p c) in E; [|done|done|int_lia]. simpl negb. cbn iota.
  destruct (o_source o) eqn:Esrc, (o_speed o) as [speed|] eqn:Esp; cbn [fst]; try done.
  - eapply record_vehicle_valid; eauto; lia.
  - eapply record_phone_valid; eauto; [|lia]. simpl in Hneg. prop_bools. lia.
  - eapply record_watermark_valid; eauto; [lia|]. intros l El.
    assert (El' : latest_phone_ms p = Some l).
    { destruct Hs as (_&_&Hl&_). destruct p'. simpl in *. congruence. }
    simpl in Hord. rewrite El' in Hord. simpl in Hord. prop_bools. lia.
Qed.

Lemma ride_step_valid p c : valid p -> enabled p c -> call_ok c -> valid (ride_step p c).1.
Proof.
  intros Hv He Hk. destruct c as [o|a|a]; simpl in *.
  - apply observe_valid; tauto.
  - apply close_valid; [done|int_lia].
  - apply resume_valid; [done|int_lia].
Qed.

(** A run in which evidence only arrives while the ride is open. *)
Fixpoint live_run (p : MovingTimeStateParts) (calls : list RideCall) : Prop :=
  match calls with
  | [] => True
  | c :: rest => enabled p c /\ call_ok c /\ live_run (ride_step p c).1 rest
  end.

Lemma live_run_valid p calls : valid p -> live_run p calls -> valid (run_state ride_step p calls).
Proof.
  revert p. induction calls as [|c calls IH]; intros p Hv Hr; [done|].
  destruct Hr as (He & Hk & Hr). rewrite run_state_cons. apply IH; [|done].
  by apply ride_step_valid.
Qed.

Lemma new_live_valid start_at : in_u u64_max start_at -> valid (new_live start_at).
Proof.
  intros H. split; simpl; auto; try done.
  split; [int_lia|]. by split; split.
Qed.

(** ** Properties *)

(** C11: moving time is what a millisecond clock would count: projecting a live
    ride to any later instant adds, to the totals so far, exactly the number of
    milliseconds at which the selected fresh source (the wheel first, else the
    phone) was moving, fresh, or absent; no interval is counted twice or lost. *)
Theorem projection_is_reference (p : MovingTimeStateParts) (c a : Z) :
  valid p -> cursor_ms p = Some c -> c <= a <= u64_max ->
  observed_ms p + unknown_ms p + (a - c) <= u64_max ->
  projected_at p a = {|
    sum_moving := moving_ms p + ms_count (moving_at p) c a;
    sum_observed := observed_ms p + ms_count (observed_at p) c a;
    sum_unknown := unknown_ms p + ms_count (unknown_at p) c a;
    sum_availability := if bool_decide (0 < ms_count (unknown_at p) c a) then Partial
                        else availability p |} /\
  ms_count (observed_at p) c a + ms_count (unknown_at p) c a = a - c.
Proof.
  intros Hv Hc Ha Hfit. split; [|apply ms_count_negb; lia].
  unfold projected_at. rewrite Hc. cbn [is_some_and]. rewrite bool_decide_false by lia.
  pose proof (advance_to_spec p c a Hv Hc ltac:(lia)) as H.
  destruct (advance_to p a) as [p' [u|[]]]; try done; try lia.
  destruct H as (_ & (E1 & E2 & E3 & E4) & _). unfold summary. by rewrite E1, E2, E3, E4.
Qed.

(** An accepted observation accounts for exactly the time since the last
    one: observed plus unknown time grows by the interval, moving time grows by
    at most the observed part, and the cursor moves to the receipt; a rejected
    observation changes nothing at all. *)
Theorem observe_accounts (p : MovingTimeStateParts) (c : Z) (o : MovingTimeObservation) :
  valid p -> cursor_ms p = Some c -> in_u u64_max (o_receipt_at o) ->
  match observe p o with
  | (p', Ok _) =>
      c <= o_receipt_at o /\ cursor_ms p' = Some (o_receipt_at o) /\
      observed_ms p' + unknown_ms p' = observed_ms p + unknown_ms p + (o_receipt_at o - c) /\
      0 <= moving_ms p' - moving_ms p <= observed_ms p' - observed_ms p
  | (p', Err _) => p' = p
  end.
Proof.
  intros Hv Hc Hr. unfold observe.
  case_bool_decide; [done|]. destruct (is_some (o_speed o) && _); [done|].
  destruct (bool_decide (o_source o = Vehicle) && _); [done|].
  destruct (bool_decide (o_source o = PhoneGps) && _); [done|].
  destruct (is_some_and (latest_source_at p _) _); [done|].
  pose proof (advance_to_spec p c (o_receipt_at o) Hv Hc ltac:(int_lia)) as Hsp.
  destruct (advance_to p (o_receipt_at o)) as [p' [u|e]]; [|done].
  destruct Hsp as (Hca & Hacc & Hcur & Hfit & _). rewrite Hc. simpl negb. cbn iota.
  destruct (accounted_counters p p' c _ (v_counters p Hv) Hca Hacc Hfit) as [_ Hsum].
  destruct Hacc as (A1 & A2 & _).
  pose proof (ms_count_range (moving_at p) c (o_receipt_at o) Hca).
  assert (ms_count (moving_at p) c (o_receipt_at o) <= ms_count (observed_at p) c (o_receipt_at o)).
  { apply ms_count_le. intros t. unfold moving_at, observed_at. by destruct (selected_source_at p t). }
  assert (Hgoal : forall q, moving_ms q = moving_ms p' -> observed_ms q = observed_ms p' ->
      unknown_ms q = unknown_ms p' -> cursor_ms q = cursor_ms p' ->
      c <= o_receipt_at o /\ cursor_ms q = Some (o_receipt_at o) /\
      observed_ms q + unknown_ms q = observed_ms p + unknown_ms p + (o_receipt_at o - c) /\
      0 <= moving_ms q - moving_ms p <= observed_ms q - observed_ms p).
  { intros q -> -> -> ->. split_ands; auto; lia. }
  destruct (o_source o), (o_speed o); try done; apply Hgoal; unfold mark_evidence_available;
    destruct p'; simpl; by repeat case_bool_decide.
Qed.

(** What a live ride persists can always be restored: in every run of a
    ride whose evidence arrives while it is open, the state after every call is
    one that [from_state_parts] accepts. *)
Theorem live_ride_restorable (start_at : Z) (calls : list RideCall) :
  in_u u64_max start_at -> live_run (new_live start_at) calls ->
  let p := run_state ride_step (new_live start_at) calls in from_state_parts p = Ok p.
Proof.
  intros Hs Hr p.
  assert (Hv : valid p) by (apply live_run_valid; [by apply new_live_valid|done]).
  apply from_state_parts_valid; try (destruct Hv as [(?&?&?) _ _ _ _ _]; lia); [|done].
  intros c Hc. by destruct (valid_causal p c Hv Hc).
Qed.

(** The loop that splits an interval always ends: three turns are enough,
    whatever the sources hold. *)
Theorem advance_terminates (p : MovingTimeStateParts) (cursor a : Z) :
  exists r, forall fuel, (3 <= fuel)%nat -> advance_loop fuel p cursor a = Some r.
Proof.
  destruct (advance_loop_total p cursor a) as [r Hr]. exists r. intros fuel Hf.
  assert (Hmono : forall n m p c r, (n <= m)%nat -> advance_loop n p c a = Some r ->
                                    advance_loop m p c a = Some r).
  { clear. induction n as [|n IH]; intros m p c r Hle; simpl.
    - case_bool_decide; [done|]. intros. destruct m; simpl; by rewrite bool_decide_false.
    - destruct m as [|m]; [lia|]. simpl. case_bool_decide; [|done].
      destruct (advance_turn p c a) as [p' [c'|e]]; [|done]. apply IH. lia. }
  eapply Hmono; [exact Hf|exact Hr].
Qed.

(** Evidence that reaches a closed continuation is accepted but breaks its
    invariant: a complete ride is closed, a later observation succeeds, and the
    state it leaves is one the validator refuses to restore. *)
Theorem observe_after_close_unrestorable :
  exists p o, from_state_parts p = Ok p /\ cursor_ms p = None /\
    (observe p o).2 = Ok tt /\ from_state_parts (observe p o).1 = Err InvalidState.
Proof.
  exists (close_at (observe (new_live 0) {| o_source := Vehicle; o_speed := Some 3000;
                      o_source_at := 0; o_receipt_at := 0 |}).1 1000).1,
    {| o_source := Vehicle; o_speed := Some 3000; o_source_at := 5000; o_receipt_at := 5000 |}.
  vm_compute. auto.
Qed.

(** ** Witnesses *)

Definition sample_live : MovingTimeStateParts :=
  (observe (new_live 0) {| o_source := Vehicle; o_speed := Some 3000;
                           o_source_at := 0; o_receipt_at := 0 |}).1.

Lemma sample_live_valid : valid sample_live.
Proof. apply observe_valid; [apply new_live_valid; unfold in_u, u64_max; simpl; lia|done|unfold in_u, u64_max; simpl; lia]. Qed.

Lemma projection_is_reference_witness :
  projected_at sample_live 3000 = {| sum_moving := 2000; sum_observed := 2000;
                                     sum_unknown := 1000; sum_availability := Partial |}.
Proof.
  rewrite (proj1 (projection_is_reference sample_live 0 3000 sample_live_valid eq_refl
                    ltac:(int_lia) ltac:(vm_compute; discriminate))).
  vm_compute. reflexivity.
Defined.

Lemma observe_accounts_witness :
  let o := {| o_source := PhoneGps; o_speed := None; o_source_at := 2500; o_receipt_at := 2600 |} in
  cursor_ms (observe sample_live o).1 = Some 2600.
Proof.
  pose proof (observe_accounts sample_live 0 {| o_source := PhoneGps; o_speed := None;
    o_source_at := 2500; o_receipt_at := 2600 |} sample_live_valid eq_refl
    ltac:(vm_compute; split; discriminate)) as H.
  vm_compute in H. vm_compute. apply H.
Defined.

Lemma live_ride_restorable_witness :
  let p := run_state ride_step (new_live 0)
    [CObserve {| o_source := Vehicle; o_speed := Some 3000; o_source_at := 10; o_receipt_at := 20 |};
     CClose 1000; CResume 2000] in
  from_state_parts p = Ok p.
Proof.
  apply live_ride_restorable; [int_lia|]. simpl. unfold in_u, u64_max.
  split_ands; try lia; done.
Defined.
