(* ===== verification/ElapsedTime.v ===== *)
(** * Elapsed time and lifecycle of a recorded ride

    [cutout-ride-maps/src/elapsed_time.rs] (module [Elapsed]): wall time of a
    ride, pauses included, as a continuation with a monotonic anchor.
    [cutout-ride-maps/src/lifecycle.rs] (module [Lifecycle]): the durable
    states of a ride and the events that move between them. *)

From S2P Require Import Prelude.

(** ** Elapsed time *)

Module Elapsed.

Inductive ElapsedTimeSummary :=
| Unavailable
| Complete (duration : Z)
| Partial (duration : Z).

Definition summary_duration (s : ElapsedTimeSummary) : option Z :=
  match s with Unavailable => None | Complete d | Partial d => Some d end.

Record ElapsedTimeStateParts := {
  duration_ms : option Z;
  anchor_ms : option Z;
  running : bool;
  partial : bool;
}.
#[global] Instance eta_parts : Eta ElapsedTimeStateParts := fun r =>
  Build_ElapsedTimeStateParts (duration_ms r) (anchor_ms r) (running r) (partial r).

Inductive ElapsedTimeError := InvalidState.

Definition is_none {A} (o : option A) : bool := match o with None => true | _ => false end.

Definition from_state_parts (p : ElapsedTimeStateParts)
  : result ElapsedTimeStateParts ElapsedTimeError :=
  if (is_none (duration_ms p) && (negb (is_none (anchor_ms p)) || running p || partial p))
     || (running p && is_none (anchor_ms p))
  then Err InvalidState else Ok p.

Definition started (at_ : Z) : ElapsedTimeStateParts :=
  {| duration_ms := Some 0; anchor_ms := Some at_; running := true; partial := false |}.

Definition from_summary (s : ElapsedTimeSummary) : ElapsedTimeStateParts :=
  match s with
  | Unavailable => {| duration_ms := None; anchor_ms := None; running := false; partial := false |}
  | Complete d => {| duration_ms := Some d; anchor_ms := None; running := false; partial := false |}
  | Partial d => {| duration_ms := Some d; anchor_ms := None; running := false; partial := true |}
  end.

Definition add_duration (p : ElapsedTimeStateParts) (ms : Z) : ElapsedTimeStateParts :=
  match duration_ms p with
  | Some d => p <| duration_ms := Some (sat_add u64_max d ms) |>
  | None => p
  end.

Definition observe (p : ElapsedTimeStateParts) (at_ : Z) : ElapsedTimeStateParts :=
  if negb (running p) then p else
  match anchor_ms p with
  | None => p
  | Some anchor =>
      if bool_decide (at_ <= anchor) then p
      else (add_duration p (at_ - anchor)) <| anchor_ms := Some at_ |>
  end.

Definition projected_at (p : ElapsedTimeStateParts) (at_ : Z) : ElapsedTimeSummary :=
  match duration_ms p with
  | None => Unavailable
  | Some duration =>
      let projected :=
        if running p then
          let elapsed := match anchor_ms p with Some anchor => sat_sub at_ anchor | None => 0 end in
          sat_add u64_max duration elapsed
        else duration in
      if partial p then Partial projected else Complete projected
  end.

Definition paused (p : ElapsedTimeStateParts) (at_ : Z) : ElapsedTimeStateParts := observe p at_.

Definition interrupted (p : ElapsedTimeStateParts) (at_ : Z) : ElapsedTimeStateParts :=
  (observe p at_) <| running := false |>.

Definition resumed (p : ElapsedTimeStateParts) (at_ : Z) : ElapsedTimeStateParts :=
  if running p then observe p at_ else
  let p1 := if is_none (duration_ms p)
            then p <| duration_ms := Some 0 |> <| partial := true |> else p in
  let p2 := match anchor_ms p1 with
            | Some anchor => if bool_decide (anchor < at_) then add_duration p1 (at_ - anchor) else p1
            | None => p1
            end in
  p2 <| anchor_ms := Some (match anchor_ms p2 with Some anchor => Z.max anchor at_ | None => at_ end) |>
     <| running := true |>.

Definition stopped (p : ElapsedTimeStateParts) (at_ : Z) : ElapsedTimeStateParts :=
  (observe p at_) <| running := false |> <| anchor_ms := None |>.

Definition restored_after_restart (p : ElapsedTimeStateParts) : ElapsedTimeStateParts :=
  let p1 := p <| anchor_ms := None |> <| running := false |> in
  if negb (is_none (duration_ms p1)) then p1 <| partial := true |> else p1.

Definition summary (p : ElapsedTimeStateParts) : ElapsedTimeSummary :=
  match duration_ms p with
  | None => Unavailable
  | Some ms => if partial p then Partial ms else Complete ms
  end.

(** The events of a ride in one process, in the order a recorder sends them. *)
Inductive ElapsedCall :=
| EObserve (at_ : Z) | EPause (at_ : Z) | EInterrupt (at_ : Z) | EResume (at_ : Z).

Definition call_at (c : ElapsedCall) : Z :=
  match c with EObserve a | EPause a | EInterrupt a | EResume a => a end.

Definition elapsed_step (p : ElapsedTimeStateParts) (c : ElapsedCall)
  : ElapsedTimeStateParts * unit :=
  (match c with
   | EObserve a => observe p a
   | EPause a => paused p a
   | EInterrupt a => interrupted p a
   | EResume a => resumed p a
   end, tt).

End Elapsed.

(** ** Lifecycle of one recording *)

Module Lifecycle.

Inductive RideLifecycleState :=
| Draft | Active | Paused | Stopped | Interrupted | Discarded | Saved | Imported.
Inductive RideEvent := Start | Pause | Resume | Stop | Interrupt | Discard | Save | Import.
#[global] Instance state_eq_dec : EqDecision RideLifecycleState.
Proof. solve_decision. Defined.
#[global] Instance event_eq_dec : EqDecision RideEvent.
Proof. solve_decision. Defined.

Inductive TransitionError := Invalid.

Record ValidatedRideTransition := { previous : RideLifecycleState; next : RideLifecycleState }.

Definition is_recording (s : RideLifecycleState) : bool :=
  match s with
  | Active | Paused => true
  | Draft | Stopped | Interrupted | Discarded | Saved | Imported => false
  end.
Definition is_discardable (s : RideLifecycleState) : bool :=
  match s with
  | Stopped | Interrupted => true
  | Draft | Active | Paused | Discarded | Saved | Imported => false
  end.
Definition only_allows_new_recording (s : RideLifecycleState) : bool :=
  match s with
  | Saved | Discarded => true
  | Draft | Active | Paused | Stopped | Interrupted | Imported => false
  end.
Definition has_recorded_bounds (s : RideLifecycleState) : bool :=
  match s with
  | Stopped | Interrupted | Discarded | Saved | Imported => true
  | Draft | Active | Paused => false
  end.
Definition allows_auto_recording_replacement (s : RideLifecycleState) : bool :=
  match s with
  | Interrupted | Saved | Discarded => true
  | Draft | Active | Paused | Stopped | Imported => false
  end.
Definition is_terminal (s : RideLifecycleState) : bool :=
  match s with
  | Stopped | Interrupted | Discarded | Saved => true
  | Draft | Active | Paused | Imported => false
  end.

Definition transition (self : RideLifecycleState) (event : RideEvent)
  : result ValidatedRideTransition TransitionError :=
  match (match self, event with
         | Draft, Start | Paused, Resume | Interrupted, Resume => Some Active
         | Draft, Import => Some Imported
         | Active, Pause => Some Paused
         | Active, Stop | Paused, Stop => Some Stopped
         | Active, Interrupt | Paused, Interrupt => Some Interrupted
         | Draft, Discard | Active, Discard | Paused, Discard
         | Stopped, Discard | Interrupted, Discard => Some Discarded
         | Stopped, Save | Interrupted, Save => Some Saved
         | _, _ => None
         end) with
  | Some n => Ok {| previous := self; next := n |}
  | None => Err Invalid
  end.

Definition apply (self : RideLifecycleState) (event : RideEvent)
  : result RideLifecycleState TransitionError :=
  t <-? transition self event; Ok (next t).

Definition recording_actions (self : RideLifecycleState) : list RideEvent :=
  if only_allows_new_recording self then [Start]
  else filter (fun e => is_ok (apply self e) = true /\
                        (e <> Discard \/ is_discardable self = true))
         [Start; Pause; Resume; Stop; Save; Discard].

(** A recording under a list of events; a refused event changes nothing. *)
Definition lifecycle_step (s : RideLifecycleState) (e : RideEvent)
  : RideLifecycleState * bool :=
  match apply s e with Ok s' => (s', true) | Err _ => (s, false) end.

End Lifecycle.

(** ** Elapsed time: lemmas *)

Import Elapsed.

(** A started ride in one process: the elapsed time is the anchor minus the
    start, for the latest instant seen. *)
Definition elapsed_inv (start : Z) (p : ElapsedTimeStateParts) : Prop :=
  exists a, duration_ms p = Some (a - start) /\ anchor_ms p = Some a /\
            start <= a <= u64_max /\ partial p = false.

Lemma observe_inv start p a :
  0 <= start -> a <= u64_max -> elapsed_inv start p -> elapsed_inv start (observe p a).
Proof.
  intros H0 Ha (x & Hd & Hx & Hr & Hp). unfold observe. destruct (running p); [|by exists x].
  simpl. rewrite Hx. case_bool_decide; [by exists x|].
  exists a. unfold add_duration. rewrite Hd. destruct p. simpl in *.
  split; [f_equal; int_lia|]. split_ands; auto; lia.
Qed.

Lemma elapsed_step_inv start p c :
  0 <= start -> call_at c <= u64_max -> elapsed_inv start p ->
  elapsed_inv start (elapsed_step p c).1 /\
  (forall a, running (elapsed_step p c).1 = true -> anchor_ms (elapsed_step p c).1 = Some a ->
             call_at c <= a).
Proof.
  intros H0 Hc Hi.
  assert (Hobs : forall at_, at_ <= u64_max ->
    forall a, running (observe p at_) = true -> anchor_ms (observe p at_) = Some a -> at_ <= a).
  { intros at_ _ a. destruct Hi as (x & Hd & Hx & _). unfold observe.
    destruct (running p) eqn:Er; simpl; [|congruence]. rewrite Hx.
    case_bool_decide; [intros _; rewrite Hx; intros [= <-]; lia|].
    unfold add_duration. rewrite Hd. destruct p. simpl. intros _ [= <-]. lia. }
  destruct c as [at_|at_|at_|at_]; simpl in *.
  - split; [by apply observe_inv|by apply Hobs].
  - split; [by apply observe_inv|by apply Hobs].
  - pose proof (observe_inv start p at_ H0 Hc Hi) as (x & ? & ? & ? & ?).
    unfold interrupted. destruct (observe p at_). simpl in *. split; [by exists x|done].
  - unfold resumed. destruct (running p) eqn:Er; [split; [by apply observe_inv|by apply Hobs]|].
    destruct Hi as (x & Hd & Hx & Hr & Hp). rewrite Hd. simpl. rewrite Hx.
    case_bool_decide; unfold add_duration; rewrite ?Hd; destruct p; simpl in *; subst; simpl.
    + split; [|intros a _ [= <-]; lia]. exists (Z.max x at_). simpl.
      split; [f_equal; int_lia|]. split_ands; auto; lia.
    + split; [|intros a _ [= <-]; lia]. exists (Z.max x at_). simpl.
      split; [f_equal; lia|]. split_ands; auto; lia.
Qed.

Lemma elapsed_run_inv start p calls :
  0 <= start -> Forall (fun c => call_at c <= u64_max) calls -> elapsed_inv start p ->
  elapsed_inv start (run_state elapsed_step p calls).
Proof.
  intros H0 Hc. revert p. induction Hc as [|c calls Hc _ IH]; intros p Hi; [done|].
  rewrite run_state_cons. apply IH. by apply elapsed_step_inv.
Qed.

Lemma resumed_running start p a : elapsed_inv start p -> running (resumed p a) = true.
Proof.
  intros (x & Hd & Hx & _). destruct p as [d an r pa]. simpl in *. subst. unfold resumed, observe.
  destruct r; simpl; case_bool_decide; done.
Qed.

(** ** Properties *)

(** Elapsed time includes pauses and interruptions and never counts twice:
    after any sequence of observations, pauses, interruptions and resumptions
    in one process, at the next observation (or resumption) a running ride's
    complete duration is exactly the latest instant seen minus the start, in
    whatever order the timestamps arrive. *)
Theorem elapsed_is_wall_time (start : Z) (calls : list ElapsedCall) (now : Z) :
  in_u u64_max start -> Forall (fun c => call_at c <= u64_max) calls -> in_u u64_max now ->
  exists a, start <= a /\ now <= a /\
    summary (resumed (run_state elapsed_step (started start) calls) now) = Complete (a - start) /\
    projected_at (resumed (run_state elapsed_step (started start) calls) now) now = Complete (a - start).
Proof.
  intros Hs Hc Hn.
  assert (Hi : elapsed_inv start (started start)) by (exists start; simpl; split_ands; [f_equal; lia|done|lia|int_lia|done]).
  apply (elapsed_run_inv start _ calls) in Hi; [|int_lia|done].
  destruct (elapsed_step_inv start _ (EResume now) ltac:(int_lia) ltac:(simpl; int_lia) Hi)
    as [(a & Hd & Ha & Hr & Hp) Hle]. simpl in *.
  set (q := resumed _ now) in *. exists a.
  assert (Hrun : running q = true).
  { by apply (resumed_running start). }
  specialize (Hle a Hrun Ha). split; [lia|]. split; [done|].
  unfold summary, projected_at. rewrite Hd, Hp, Hrun, Ha. split; [done|].
  f_equal. int_lia.
Qed.

(** C40: every elapsed-time operation keeps the state restorable, from any state
    the validator accepts. *)
Theorem elapsed_valid (p : ElapsedTimeStateParts) (a : Z) :
  from_state_parts p = Ok p ->
  from_state_parts (observe p a) = Ok (observe p a) /\
  from_state_parts (interrupted p a) = Ok (interrupted p a) /\
  from_state_parts (resumed p a) = Ok (resumed p a) /\
  from_state_parts (stopped p a) = Ok (stopped p a) /\
  from_state_parts (restored_after_restart p) = Ok (restored_after_restart p) /\
  from_state_parts (from_summary (projected_at p a)) = Ok (from_summary (projected_at p a)).
Proof.
  unfold from_state_parts at 1.
  destruct p as [[d|] [x|] [] []]; simpl; try done; intros _;
    unfold observe, interrupted, resumed, stopped, restored_after_restart, projected_at, add_duration;
    simpl; unfold observe, add_duration; simpl; repeat case_bool_decide; simpl; auto 10.
Qed.

(** A ride ends once: a saved, discarded or imported recording accepts no
    event at all, so no sequence of events brings it back; and an accepted
    discard or save is the end of it. *)
Theorem final_states_are_final (s : Lifecycle.RideLifecycleState) (events : list Lifecycle.RideEvent) :
  (s = Lifecycle.Saved \/ s = Lifecycle.Discarded \/ s = Lifecycle.Imported) ->
  run_state Lifecycle.lifecycle_step s events = s /\
  Forall (fun accepted => accepted = false) (run_outputs Lifecycle.lifecycle_step s events).
Proof.
  intros Hs. induction events as [|e events [IH1 IH2]]; [by split|].
  rewrite run_state_cons, run_outputs_cons.
  assert (He : Lifecycle.lifecycle_step s e = (s, false)) by (destruct Hs as [->|[->| ->]], e; done).
  rewrite He. split; [done|by constructor].
Qed.

(** The actions offered to the rider are the events the lifecycle accepts:
    an action other than Start on a finished ride is offered only if applying
    it succeeds, only ended rides can be discarded, and every event accepted in
    a state with known bounds leaves a state with known bounds or resumes. *)
Theorem actions_are_accepted (s : Lifecycle.RideLifecycleState) (e : Lifecycle.RideEvent) :
  e ∈ Lifecycle.recording_actions s ->
  (Lifecycle.only_allows_new_recording s = true /\ e = Lifecycle.Start) \/
  (exists s', Lifecycle.apply s e = Ok s' /\
     (e = Lifecycle.Discard -> Lifecycle.is_discardable s = true) /\
     (Lifecycle.has_recorded_bounds s = true ->
      Lifecycle.has_recorded_bounds s' = true \/ e = Lifecycle.Resume)).
Proof.
  unfold Lifecycle.recording_actions.
  destruct (Lifecycle.only_allows_new_recording s) eqn:Eo.
  - intros H. left. split; [done|]. by apply list_elem_of_singleton in H.
  - intros [[Ha Hd] _]%list_elem_of_filter. right.
    destruct (Lifecycle.apply s e) as [s'|] eqn:E; [|done]. exists s'. split; [done|].
    split; [intros ->; by destruct Hd|].
    destruct s, e; try done; injection E as <-; auto.
Qed.

(** ** Witnesses *)

Lemma elapsed_is_wall_time_witness :
  exists a, 100 <= a /\ 900 <= a /\
    summary (resumed (run_state elapsed_step (started 100) [EObserve 400; EInterrupt 500; EResume 800]) 900)
      = Complete (a - 100) /\
    projected_at (resumed (run_state elapsed_step (started 100) [EObserve 400; EInterrupt 500; EResume 800]) 900) 900
      = Complete (a - 100).
Proof.
  apply (elapsed_is_wall_time 100 [EObserve 400; EInterrupt 500; EResume 800] 900);
    [int_lia|repeat constructor; simpl; int_lia|int_lia].
Defined.

Lemma elapsed_valid_witness :
  from_state_parts (resumed (from_summary (Partial 5)) 9) = Ok (resumed (from_summary (Partial 5)) 9).
Proof. apply (elapsed_valid (from_summary (Partial 5)) 9). reflexivity. Defined.

Lemma final_states_are_final_witness :
  run_state Lifecycle.lifecycle_step Lifecycle.Saved [Lifecycle.Resume; Lifecycle.Discard] = Lifecycle.Saved.
Proof.
  apply (final_states_are_final Lifecycle.Saved [Lifecycle.Resume; Lifecycle.Discard]). by left.
Defined.

Lemma actions_are_accepted_witness :
  exists s', Lifecycle.apply Lifecycle.Active Lifecycle.Pause = Ok s'.
Proof.
  destruct (actions_are_accepted Lifecycle.Active Lifecycle.Pause ltac:(vm_compute; left))
    as [[H _]|(s' & H & _)]; [discriminate H|by exists s'].
Defined.
