(* ===== verification/PhoneAlarm.v ===== *)
(** * Phone alarms

    [cutout-core/src/phone_alarm.rs]: the alarms the phone raises from ride
    evidence.  [PhoneAlarmEvaluator] holds three independent channels;
    [PhoneAlarmManager] adds per-device preferences and the queue of
    cancellations.  The process-wide counter [NEXT_PHONE_ALARM_REQUEST_ID] is
    threaded through the operations that draw from it ([next_id]).  A device
    identity is a Rust string: a list of Unicode scalar values, whose [len] is
    its UTF-8 length and whose [trim] uses the [White_Space] property. *)

From S2P Require Import Prelude.
From S2P Require Import Quantities.

Definition PWM_REARM_HYSTERESIS_PERCENT : Z := 5.
Definition FAILED_DELIVERY_RETRY_AFTER : Z := duration_from_seconds 1.
Definition PHONE_ALARM_REPEAT_AFTER : Z := duration_from_seconds 30.
Definition DEFAULT_PWM_DUTY_PERCENT : Z := 80.
Definition MAX_PHONE_ALARM_DEVICES : nat := 256.
Definition MAX_DEVICE_IDENTITY_BYTES : Z := 1024.

(** ** Thresholds and preferences *)

(** [PwmDutyAlarmThreshold] is a newtype of [u8], 1 through 100. *)
Definition PwmDutyAlarmThreshold : Type := Z.

Inductive PhoneAlarmManagerError :=
| NoActiveDevice
| InvalidDeviceIdentity
| InvalidPwmDutyThreshold (value : Z)
| InvalidPwmHeadroomThreshold (value : Z)
| TooManyDevices
| DeviceIdentityChanged.

Definition threshold_new (duty_percent : Z) : result PwmDutyAlarmThreshold PhoneAlarmManagerError :=
  if bool_decide (1 <= duty_percent) && bool_decide (duty_percent <= 100)
  then Ok duty_percent else Err (InvalidPwmDutyThreshold duty_percent).
Definition threshold_headroom_percent (t : PwmDutyAlarmThreshold) : Z := 100 - t.
Definition threshold_permille (t : PwmDutyAlarmThreshold) : Z := t * 10.
Definition threshold_rearm_permille (t : PwmDutyAlarmThreshold) : Z :=
  sat_sub t PWM_REARM_HYSTERESIS_PERCENT * 10.

Record PhoneAlarmPreferences := {
  p_enabled : bool;
  p_threshold : PwmDutyAlarmThreshold;
}.
#[global] Instance preferences_eq_dec : EqDecision PhoneAlarmPreferences.
Proof. unfold PwmDutyAlarmThreshold. solve_decision. Defined.
#[global] Instance eta_preferences : Eta PhoneAlarmPreferences := fun r =>
  Build_PhoneAlarmPreferences (p_enabled r) (p_threshold r).

Definition default_preferences : PhoneAlarmPreferences :=
  {| p_enabled := false; p_threshold := DEFAULT_PWM_DUTY_PERCENT |}.

Definition preferences_new (enabled : bool) (duty_percent : Z)
  : result PhoneAlarmPreferences PhoneAlarmManagerError :=
  t <-? threshold_new duty_percent; Ok {| p_enabled := enabled; p_threshold := t |}.

(** ** Evidence, events, requests *)

Inductive RideWarning :=
| WarnNone | LowVoltage | HighVoltage | MosfetTemperature | MotorTemperature | WarnCurrent
| DutyPushback | SpeedPushback | TemperaturePushback | Wheelslip | WarnSensors | LowBattery
| WarnError | BmsConnection | WarnUnknown.
Inductive RideStopReason :=
| StopNone | Pitch | Roll | SwitchHalf | SwitchFull | Reverse | QuickStop.
Inductive PhoneAlarmEvidenceFreshness := Fresh | Stale | EvidenceUnavailable.

#[global] Instance warning_eq_dec : EqDecision RideWarning.
Proof. solve_decision. Defined.
#[global] Instance stop_eq_dec : EqDecision RideStopReason.
Proof. solve_decision. Defined.
#[global] Instance freshness_eq_dec : EqDecision PhoneAlarmEvidenceFreshness.
Proof. solve_decision. Defined.

Record PhoneAlarmEvidence := {
  freshness : PhoneAlarmEvidenceFreshness;
  pwm_duty : option Z;                       (* permille, i16 *)
  controller_warning : option RideWarning;
  controller_stop : option RideStopReason;
}.

Definition evidence_fresh (d : option Z) (w : option RideWarning) (s : option RideStopReason)
  : PhoneAlarmEvidence :=
  {| freshness := Fresh; pwm_duty := d; controller_warning := w; controller_stop := s |}.
Definition evidence_stale : PhoneAlarmEvidence :=
  {| freshness := Stale; pwm_duty := None; controller_warning := None; controller_stop := None |}.
Definition evidence_unavailable : PhoneAlarmEvidence :=
  {| freshness := EvidenceUnavailable; pwm_duty := None; controller_warning := None;
     controller_stop := None |}.

Inductive PhoneAlarmEvent :=
| EvPwmDuty (duty_percent headroom_percent : Z)
| EvControllerWarning (w : RideWarning)
| EvControllerStop (s : RideStopReason).
Inductive ActivePhoneAlarmCondition :=
| CondPwmDuty
| CondControllerWarning (w : RideWarning)
| CondControllerStop (s : RideStopReason).
#[global] Instance event_eq_dec : EqDecision PhoneAlarmEvent.
Proof. solve_decision. Defined.
#[global] Instance condition_eq_dec : EqDecision ActivePhoneAlarmCondition.
Proof. solve_decision. Defined.

Definition event_condition (e : PhoneAlarmEvent) : ActivePhoneAlarmCondition :=
  match e with
  | EvPwmDuty _ _ => CondPwmDuty
  | EvControllerWarning w => CondControllerWarning w
  | EvControllerStop s => CondControllerStop s
  end.

Record PhoneAlarmDeliveryRequest := { req_id : Z; req_event : PhoneAlarmEvent }.
Record PhoneAlarmActions := {
  scheduled : list PhoneAlarmDeliveryRequest;
  cancelled : list Z;
}.
Definition no_actions : PhoneAlarmActions := {| scheduled := []; cancelled := [] |}.

Record PhoneAlarmPolicy := {
  pol_enabled : bool;
  pol_threshold : PwmDutyAlarmThreshold;
  repeat_after : Z;
}.
Definition policy_disabled : PhoneAlarmPolicy :=
  {| pol_enabled := false; pol_threshold := 80; repeat_after := duration_from_seconds 10 |}.
Definition policy_enabled (t : PwmDutyAlarmThreshold) (r : Z) : PhoneAlarmPolicy :=
  {| pol_enabled := true; pol_threshold := t; repeat_after := r |}.

(** ** Channels *)

Record PhoneAlarmChannelState := {
  active : option ActivePhoneAlarmCondition;
  delivered_at : option Z;
  failed_at : option Z;
  pending_request_id : option Z;
  waiting_for_rearm : bool;
}.
#[global] Instance eta_channel : Eta PhoneAlarmChannelState := fun r =>
  Build_PhoneAlarmChannelState (active r) (delivered_at r) (failed_at r)
    (pending_request_id r) (waiting_for_rearm r).

Definition channel_clear : PhoneAlarmChannelState :=
  {| active := None; delivered_at := None; failed_at := None;
     pending_request_id := None; waiting_for_rearm := false |}.

(** What a channel operation produces: its state, requests, cancellations and
    the process-wide counter. *)
Record ChannelOut := {
  out_state : PhoneAlarmChannelState;
  out_requests : list PhoneAlarmDeliveryRequest;
  out_cancelled : list Z;
  out_next : Z;
}.

Definition is_due (since : option Z) (interval now : Z) : bool :=
  match since with
  | Some t => bool_decide (interval <= sat_sub now t)
  | None => true
  end.

Definition reserve_if_due (state : PhoneAlarmChannelState) (event : option PhoneAlarmEvent)
    (repeat now next_id : Z) : ChannelOut :=
  match event with
  | None => {| out_state := state; out_requests := []; out_cancelled := []; out_next := next_id |}
  | Some event =>
      let condition := event_condition event in
      let '(state, cancels) :=
        if negb (bool_decide (active state = Some condition)) then
          (state <| active := Some condition |> <| delivered_at := None |>
                 <| failed_at := None |> <| pending_request_id := None |>,
           option_list (pending_request_id state))
        else (state, []) in
      let keep := {| out_state := state; out_requests := []; out_cancelled := cancels;
                     out_next := next_id |} in
      if bool_decide (is_Some (pending_request_id state)) then keep else
      if waiting_for_rearm state then keep else
      if negb (is_due (delivered_at state) repeat now)
         || negb (is_due (failed_at state) FAILED_DELIVERY_RETRY_AFTER now) then keep else
      match checked_add u64_max next_id 1 with
      | None => keep
      | Some next => {| out_state := state <| pending_request_id := Some next_id |>;
                        out_requests := [{| req_id := next_id; req_event := event |}];
                        out_cancelled := cancels; out_next := next |}
      end
  end.

Definition pwm_event (threshold : PwmDutyAlarmThreshold) (duty : Z) : option PhoneAlarmEvent :=
  let duty_permille := Z.min (Z.abs duty) 1000 in
  if bool_decide (threshold_permille threshold <= duty_permille) then
    let duty_percent := duty_permille ÷ 10 in
    Some (EvPwmDuty duty_percent (100 - duty_percent))
  else None.

Definition update_pwm_rearm (state : PhoneAlarmChannelState) (threshold : PwmDutyAlarmThreshold)
    (duty : option Z) (event : option PhoneAlarmEvent) : PhoneAlarmChannelState * list Z :=
  if bool_decide (is_Some event) then (state, []) else
  let cancels := option_list (pending_request_id state) in
  let cancelled_pending := bool_decide (is_Some (pending_request_id state)) in
  let state := state <| pending_request_id := None |> in
  let should_clear := match duty with
                      | Some d => bool_decide (Z.abs d <= threshold_rearm_permille threshold)
                      | None => true
                      end in
  if should_clear then (channel_clear, cancels)
  else if cancelled_pending then (state <| waiting_for_rearm := true |>, cancels)
  else (state, cancels).

Definition clear_if_absent (state : PhoneAlarmChannelState) (event : option PhoneAlarmEvent)
  : PhoneAlarmChannelState * list Z :=
  match event with
  | None => (channel_clear, option_list (pending_request_id state))
  | Some _ => (state, [])
  end.

(** ** The evaluator *)

Record PhoneAlarmEvaluator := {
  pwm : PhoneAlarmChannelState;
  warning : PhoneAlarmChannelState;
  stop : PhoneAlarmChannelState;
}.
#[global] Instance eta_evaluator : Eta PhoneAlarmEvaluator := fun r =>
  Build_PhoneAlarmEvaluator (pwm r) (warning r) (stop r).

Definition default_evaluator : PhoneAlarmEvaluator :=
  {| pwm := channel_clear; warning := channel_clear; stop := channel_clear |}.

(** The requests in flight. *)
Definition evaluator_pending (s : PhoneAlarmEvaluator) : list Z :=
  option_list (pending_request_id (pwm s)) ++ option_list (pending_request_id (warning s))
  ++ option_list (pending_request_id (stop s)).

Definition evaluator_clear (s : PhoneAlarmEvaluator) : PhoneAlarmEvaluator * list Z :=
  (default_evaluator, evaluator_pending s).

Definition warning_event (w : option RideWarning) : option PhoneAlarmEvent :=
  match w with
  | None | Some WarnNone | Some WarnUnknown => None
  | Some w => Some (EvControllerWarning w)
  end.
Definition stop_event (r : option RideStopReason) : option PhoneAlarmEvent :=
  match r with
  | None | Some StopNone => None
  | Some r => Some (EvControllerStop r)
  end.

Definition evaluate (s : PhoneAlarmEvaluator) (policy : PhoneAlarmPolicy)
    (evidence : PhoneAlarmEvidence) (now next_id : Z)
  : PhoneAlarmEvaluator * PhoneAlarmActions * Z :=
  if negb (pol_enabled policy) || negb (bool_decide (freshness evidence = Fresh)) then
    let '(s', ids) := evaluator_clear s in
    (s', {| scheduled := []; cancelled := ids |}, next_id)
  else
    let pe := pwm_duty evidence ≫= pwm_event (pol_threshold policy) in
    let '(pw, c1) := update_pwm_rearm (pwm s) (pol_threshold policy) (pwm_duty evidence) pe in
    let o1 := reserve_if_due pw pe (repeat_after policy) now next_id in
    let we := warning_event (controller_warning evidence) in
    let '(wa, c2) := clear_if_absent (warning s) we in
    let o2 := reserve_if_due wa we (repeat_after policy) now (out_next o1) in
    let se := stop_event (controller_stop evidence) in
    let '(st, c3) := clear_if_absent (stop s) se in
    let o3 := reserve_if_due st se (repeat_after policy) now (out_next o2) in
    ({| pwm := out_state o1; warning := out_state o2; stop := out_state o3 |},
     {| scheduled := out_requests o1 ++ out_requests o2 ++ out_requests o3;
        cancelled := c1 ++ out_cancelled o1 ++ c2 ++ out_cancelled o2 ++ c3 ++ out_cancelled o3 |},
     out_next o3).

Definition channel_complete (c : PhoneAlarmChannelState) (delivered : bool) (now : Z)
  : PhoneAlarmChannelState :=
  let c := c <| pending_request_id := None |> in
  if delivered then c <| delivered_at := Some now |> <| failed_at := None |>
  else c <| failed_at := Some now |>.

(** The loop over the three channels stops at the first match. *)
Definition complete_delivery (s : PhoneAlarmEvaluator) (request_id : Z) (delivered : bool) (now : Z)
  : PhoneAlarmEvaluator * bool :=
  if bool_decide (pending_request_id (pwm s) = Some request_id)
  then (s <| pwm := channel_complete (pwm s) delivered now |>, true)
  else if bool_decide (pending_request_id (warning s) = Some request_id)
  then (s <| warning := channel_complete (warning s) delivered now |>, true)
  else if bool_decide (pending_request_id (stop s) = Some request_id)
  then (s <| stop := channel_complete (stop s) delivered now |>, true)
  else (s, false).

(** ** Device identities: [str::len] and [str::trim] *)

Definition DeviceIdentity : Type := list Z.

Definition char_len_utf8 (c : Z) : Z :=
  if bool_decide (c < 128) then 1 else if bool_decide (c < 2048) then 2
  else if bool_decide (c < 65536) then 3 else 4.
Definition str_len (s : DeviceIdentity) : Z := foldr (fun c n => char_len_utf8 c + n) 0 s.

Definition is_whitespace (c : Z) : bool :=
  (bool_decide (9 <= c) && bool_decide (c <= 13))
  || bool_decide (c ∈ [32; 133; 160; 5760; 8232; 8233; 8239; 8287; 12288])
  || (bool_decide (8192 <= c) && bool_decide (c <= 8202)).
Fixpoint trim_start (s : DeviceIdentity) : DeviceIdentity :=
  match s with
  | [] => []
  | c :: rest => if is_whitespace c then trim_start rest else s
  end.
Definition trim (s : DeviceIdentity) : DeviceIdentity := rev (trim_start (rev (trim_start s))).

Definition validate_identity (identity : DeviceIdentity) : result unit PhoneAlarmManagerError :=
  if bool_decide (trim identity = []) || bool_decide (MAX_DEVICE_IDENTITY_BYTES < str_len identity)
  then Err InvalidDeviceIdentity else Ok tt.

(** ** The manager *)

Record PhoneAlarmManager := {
  active_identity : option DeviceIdentity;
  preferences : gmap DeviceIdentity PhoneAlarmPreferences;
  evaluator : PhoneAlarmEvaluator;
  cancelled_request_ids : list Z;
}.
#[global] Instance eta_manager : Eta PhoneAlarmManager := fun r =>
  Build_PhoneAlarmManager (active_identity r) (preferences r) (evaluator r)
    (cancelled_request_ids r).

Definition default_manager : PhoneAlarmManager :=
  {| active_identity := None; preferences := ∅; evaluator := default_evaluator;
     cancelled_request_ids := [] |}.

Definition invalidate (m : PhoneAlarmManager) : PhoneAlarmManager :=
  let '(e, ids) := evaluator_clear (evaluator m) in
  m <| evaluator := e |> <| cancelled_request_ids := cancelled_request_ids m ++ ids |>.

Definition with_pending_cancellations (m : PhoneAlarmManager) (a : PhoneAlarmActions)
  : PhoneAlarmManager * PhoneAlarmActions :=
  if negb (bool_decide (cancelled_request_ids m = [])) then
    (m <| cancelled_request_ids := [] |>,
     {| scheduled := scheduled a; cancelled := cancelled_request_ids m ++ cancelled a |})
  else (m, a).

Definition store_full (m : PhoneAlarmManager) (identity : DeviceIdentity) : bool :=
  negb (bool_decide (is_Some (preferences m !! identity)))
  && bool_decide (MAX_PHONE_ALARM_DEVICES <= size (preferences m))%nat.

Definition activate_device (m : PhoneAlarmManager) (identity : DeviceIdentity)
  : PhoneAlarmManager * result PhoneAlarmPreferences PhoneAlarmManagerError :=
  match validate_identity identity with
  | Err e => (m, Err e)
  | Ok _ =>
      let identity_changed := negb (bool_decide (active_identity m = Some identity)) in
      if store_full m identity then (m, Err TooManyDevices) else
      let p := default default_preferences (preferences m !! identity) in
      let m := m <| preferences := <[identity := p]> (preferences m) |>
                 <| active_identity := Some identity |> in
      let m := if identity_changed then invalidate m else m in
      (m, Ok p)
  end.

Definition clear_active_device (m : PhoneAlarmManager) : PhoneAlarmManager :=
  invalidate (m <| active_identity := None |>).

Definition active_preferences (m : PhoneAlarmManager) : option PhoneAlarmPreferences :=
  active_identity m ≫= fun identity => preferences m !! identity.

Definition active_preferences_for (m : PhoneAlarmManager) (identity : DeviceIdentity)
  : result PhoneAlarmPreferences PhoneAlarmManagerError :=
  _ <-? validate_identity identity;
  active <-? ok_or (active_identity m) NoActiveDevice;
  if negb (bool_decide (active = identity)) then Err DeviceIdentityChanged
  else ok_or (active_preferences m) NoActiveDevice.

Definition update_active_preferences (m : PhoneAlarmManager)
    (update : PhoneAlarmPreferences -> PhoneAlarmPreferences)
  : PhoneAlarmManager * result unit PhoneAlarmManagerError :=
  match active_identity m with
  | None => (m, Err NoActiveDevice)
  | Some identity =>
      match preferences m !! identity with
      | None => (m, Err NoActiveDevice)
      | Some previous =>
          let p := update previous in
          let m := m <| preferences := <[identity := p]> (preferences m) |> in
          (if bool_decide (p = previous) then m else invalidate m, Ok tt)
      end
  end.

Definition set_enabled (m : PhoneAlarmManager) (enabled : bool)
  : PhoneAlarmManager * result unit PhoneAlarmManagerError :=
  update_active_preferences m (fun p => {| p_enabled := enabled; p_threshold := p_threshold p |}).

Definition set_duty_percent (m : PhoneAlarmManager) (duty_percent : Z)
  : PhoneAlarmManager * result unit PhoneAlarmManagerError :=
  match threshold_new duty_percent with
  | Err e => (m, Err e)
  | Ok t => update_active_preferences m (fun p => {| p_enabled := p_enabled p; p_threshold := t |})
  end.

Definition set_headroom_percent (m : PhoneAlarmManager) (headroom_percent : Z)
  : PhoneAlarmManager * result unit PhoneAlarmManagerError :=
  if bool_decide (100 <= headroom_percent)
  then (m, Err (InvalidPwmHeadroomThreshold headroom_percent))
  else set_duty_percent m (100 - headroom_percent).

Definition manager_evaluate (m : PhoneAlarmManager) (evidence : PhoneAlarmEvidence)
    (now next_id : Z) : PhoneAlarmManager * PhoneAlarmActions * Z :=
  match active_preferences m with
  | None => (with_pending_cancellations (invalidate m) no_actions, next_id)
  | Some p =>
      if negb (p_enabled p) || negb (bool_decide (freshness evidence = Fresh))
      then (with_pending_cancellations (invalidate m) no_actions, next_id)
      else
        let policy := policy_enabled (p_threshold p) PHONE_ALARM_REPEAT_AFTER in
        let '(e, actions, next_id) := evaluate (evaluator m) policy evidence now next_id in
        (with_pending_cancellations (m <| evaluator := e |>) actions, next_id)
  end.

Definition manager_complete_delivery (m : PhoneAlarmManager) (request_id : Z) (delivered : bool)
    (now : Z) : PhoneAlarmManager * bool :=
  if bool_decide (is_Some (active_identity m)) then
    let '(e, found) := complete_delivery (evaluator m) request_id delivered now in
    (m <| evaluator := e |>, found)
  else (m, false).

Definition invalidate_deliveries (m : PhoneAlarmManager) : PhoneAlarmManager * list Z :=
  let '(e, ids) := evaluator_clear (evaluator m) in
  (m <| cancelled_request_ids := [] |> <| evaluator := e |>, cancelled_request_ids m ++ ids).

Definition take_cancelled_request_ids (m : PhoneAlarmManager) : PhoneAlarmManager * list Z :=
  (m <| cancelled_request_ids := [] |>, cancelled_request_ids m).

Definition restore_preferences (m : PhoneAlarmManager) (identity : DeviceIdentity)
    (p : PhoneAlarmPreferences) : PhoneAlarmManager * result unit PhoneAlarmManagerError :=
  match validate_identity identity with
  | Err e => (m, Err e)
  | Ok _ =>
      if store_full m identity then (m, Err TooManyDevices) else
      let active_changed := bool_decide (active_identity m = Some identity)
        && negb (bool_decide (preferences m !! identity = Some p)) in
      let m := m <| preferences := <[identity := p]> (preferences m) |> in
      (if active_changed then invalidate m else m, Ok tt)
  end.

(** ** The manager as a machine

    One call per public operation.  The state pairs the manager with the
    process-wide counter; a step reports the requests it hands to the phone,
    the identities it tells the phone to cancel, and the request it settles. *)

Inductive ManagerCall :=
| MActivate (identity : DeviceIdentity)
| MClearActive
| MSetEnabled (enabled : bool)
| MSetDuty (duty_percent : Z)
| MSetHeadroom (headroom_percent : Z)
| MRestore (identity : DeviceIdentity) (p : PhoneAlarmPreferences)
| MEvaluate (evidence : PhoneAlarmEvidence) (now : Z)
| MComplete (request_id : Z) (delivered : bool) (now : Z)
| MInvalidate
| MTakeCancelled.

Record ManagerOut := {
  handed : list PhoneAlarmDeliveryRequest;
  told_cancelled : list Z;
  settled_ids : list Z;
}.
Definition silent : ManagerOut := {| handed := []; told_cancelled := []; settled_ids := [] |}.

Definition manager_step (s : PhoneAlarmManager * Z) (c : ManagerCall)
  : (PhoneAlarmManager * Z) * ManagerOut :=
  let '(m, next_id) := s in
  match c with
  | MActivate identity => (((activate_device m identity).1, next_id), silent)
  | MClearActive => ((clear_active_device m, next_id), silent)
  | MSetEnabled b => (((set_enabled m b).1, next_id), silent)
  | MSetDuty d => (((set_duty_percent m d).1, next_id), silent)
  | MSetHeadroom h => (((set_headroom_percent m h).1, next_id), silent)
  | MRestore identity p => (((restore_preferences m identity p).1, next_id), silent)
  | MEvaluate e now =>
      let '(m', a, next') := manager_evaluate m e now next_id in
      ((m', next'), {| handed := scheduled a; told_cancelled := cancelled a; settled_ids := [] |})
  | MComplete id d now =>
      let '(m', found) := manager_complete_delivery m id d now in
      ((m', next_id), {| handed := []; told_cancelled := [];
                         settled_ids := if found then [id] else [] |})
  | MInvalidate =>
      let '(m', ids) := invalidate_deliveries m in
      ((m', next_id), {| handed := []; told_cancelled := ids; settled_ids := [] |})
  | MTakeCancelled =>
      let '(m', ids) := take_cancelled_request_ids m in
      ((m', next_id), {| handed := []; told_cancelled := ids; settled_ids := [] |})
  end.

(** ** Bookkeeping of request identities *)

Definition ids (rs : list PhoneAlarmDeliveryRequest) : list Z := map req_id rs.
Definition channel_pending (c : PhoneAlarmChannelState) : list Z :=
  option_list (pending_request_id c).
(** What the manager still owes an answer for. *)
Definition owed (m : PhoneAlarmManager) : list Z :=
  evaluator_pending (evaluator m) ++ cancelled_request_ids m.

Lemma seqZ_split a b c : a <= b <= c -> seqZ a (c - a) = seqZ a (b - a) ++ seqZ b (c - b).
Proof.
  intros H. replace (c - a) with ((b - a) + (c - b)) by lia.
  rewrite seqZ_app by lia. by replace (a + (b - a)) with b by lia.
Qed.

Lemma reserve_balance c ev rep now n :
  let o := reserve_if_due c ev rep now n in
  channel_pending c ++ ids (out_requests o) ≡ₚ channel_pending (out_state o) ++ out_cancelled o /\
  ids (out_requests o) = seqZ n (out_next o - n) /\ n <= out_next o.
Proof.
  destruct c as [ac de fa pe wa]. destruct ev as [ev|]; simpl.
  2:{ unfold channel_pending. simpl. rewrite !app_nil_r, Z.sub_diag. split_ands; [done|done|lia]. }
  assert (Hs : seqZ n (n + 1 - n) = [n]) by (replace (n + 1 - n) with 1 by lia; reflexivity).
  repeat (case_match_goal; simpl in *; simplify_eq); unfold channel_pending, ids; simpl;
    rewrite ?Z.sub_diag, ?app_nil_r; prop_bools;
    try match goal with H : checked_add _ _ _ = Some _ |- _ =>
      apply checked_add_Some in H as [? ->]; rewrite Hs end;
    split_ands; try lia; try reflexivity; try (destruct pe; done).
  all: destruct pe; simpl; try reflexivity; try (apply perm_swap); exfalso; eauto.
Qed.

Lemma rearm_balance c t d ev :
  let o := update_pwm_rearm c t d ev in channel_pending c ≡ₚ channel_pending o.1 ++ o.2.
Proof.
  destruct c as [ac de fa pe wa]. unfold update_pwm_rearm, channel_pending. simpl.
  repeat (case_match_goal; simpl in *); rewrite ?app_nil_r; done.
Qed.

Lemma absent_balance c ev :
  let o := clear_if_absent c ev in channel_pending c ≡ₚ channel_pending o.1 ++ o.2.
Proof. destruct ev; unfold channel_pending; simpl; rewrite ?app_nil_r; done. Qed.

Lemma evaluate_balance s p e now n :
  let '(s', a, n') := evaluate s p e now n in
  evaluator_pending s ++ ids (scheduled a) ≡ₚ evaluator_pending s' ++ cancelled a /\
  ids (scheduled a) = seqZ n (n' - n) /\ n <= n'.
Proof.
  unfold evaluate. destruct (_ || _).
  { simpl. rewrite app_nil_r, Z.sub_diag. split_ands; [done|done|lia]. }
  set (pe := _ ≫= _). set (we := warning_event _). set (se := stop_event _).
  pose proof (rearm_balance (pwm s) (pol_threshold p) (pwm_duty e) pe) as H1.
  destruct (update_pwm_rearm _ _ _ _) as [pw c1]. simpl in H1.
  pose proof (absent_balance (warning s) we) as H2. destruct (clear_if_absent (warning s) we) as [wa c2].
  simpl in H2.
  pose proof (absent_balance (stop s) se) as H3. destruct (clear_if_absent (stop s) se) as [st c3].
  simpl in H3.
  pose proof (reserve_balance pw pe (repeat_after p) now n) as (P1 & Q1 & R1).
  set (o1 := reserve_if_due pw _ _ _ _) in *.
  pose proof (reserve_balance wa we (repeat_after p) now (out_next o1)) as (P2 & Q2 & R2).
  set (o2 := reserve_if_due wa _ _ _ _) in *.
  pose proof (reserve_balance st se (repeat_after p) now (out_next o2)) as (P3 & Q3 & R3).
  set (o3 := reserve_if_due st _ _ _ _) in *.
  simpl. unfold ids in *. rewrite !map_app. split_ands; [|rewrite Q1, Q2, Q3|lia].
  - unfold evaluator_pending. simpl. fold (channel_pending (pwm s)) (channel_pending (warning s))
      (channel_pending (stop s)) (channel_pending (out_state o1)) (channel_pending (out_state o2))
      (channel_pending (out_state o3)).
    rewrite H1, H2, H3. clear H1 H2 H3. revert P1 P2 P3.
    generalize (map req_id (out_requests o1)), (map req_id (out_requests o2)),
      (map req_id (out_requests o3)). intros r1 r2 r3 P1 P2 P3.
    trans ((channel_pending pw ++ r1) ++ (channel_pending wa ++ r2) ++ (channel_pending st ++ r3)
             ++ c1 ++ c2 ++ c3); [solve_Permutation|].
    rewrite P1, P2, P3. solve_Permutation.
  - rewrite (seqZ_split n (out_next o1) (out_next o3)) by lia.
    rewrite (seqZ_split (out_next o1) (out_next o2) (out_next o3)) by lia. done.
Qed.

Lemma complete_balance s id d now :
  let '(s', found) := complete_delivery s id d now in
  evaluator_pending s ≡ₚ evaluator_pending s' ++ (if found then [id] else []).
Proof.
  destruct s as [[a1 d1 f1 p1 w1] [a2 d2 f2 p2 w2] [a3 d3 f3 p3 w3]].
  unfold complete_delivery, channel_complete, evaluator_pending. simpl.
  repeat (case_match_goal; simpl in *; prop_bools; subst; simpl);
    rewrite ?app_nil_r; solve_Permutation.
Qed.

Lemma invalidate_owed m : owed (invalidate m) ≡ₚ owed m.
Proof. destruct m. unfold owed, invalidate. simpl. solve_Permutation. Qed.

Lemma pending_cancellations_owed m a :
  let '(m', a') := with_pending_cancellations m a in
  owed m ++ cancelled a ≡ₚ owed m' ++ cancelled a' /\ scheduled a' = scheduled a.
Proof.
  destruct m as [ai pr ev q], a as [sc ca]. unfold with_pending_cancellations, owed. simpl.
  case_bool_decide; simpl; (split; [|done]); subst; rewrite ?app_nil_r; solve_Permutation.
Qed.

Lemma update_owed m f : owed (update_active_preferences m f).1 ≡ₚ owed m.
Proof.
  unfold update_active_preferences.
  destruct (active_identity m) as [i|]; [|done]. destruct (preferences m !! i) as [p|]; [|done].
  simpl. case_bool_decide; [|rewrite invalidate_owed]; by destruct m.
Qed.
Lemma set_duty_owed m d : owed (set_duty_percent m d).1 ≡ₚ owed m.
Proof. unfold set_duty_percent. destruct (threshold_new d); [apply update_owed|done]. Qed.

(** One step keeps the books balanced and draws consecutive identities. *)
Lemma step_balance s c :
  let '(s', o) := manager_step s c in
  owed s.1 ++ ids (handed o) ≡ₚ owed s'.1 ++ told_cancelled o ++ settled_ids o /\
  ids (handed o) = seqZ s.2 (s'.2 - s.2) /\ s.2 <= s'.2.
Proof.
  destruct s as [m n].
  assert (Hq : forall m', owed m' ≡ₚ owed m ->
    owed m ++ ids (handed silent) ≡ₚ owed m' ++ told_cancelled silent ++ settled_ids silent /\
    ids (handed silent) = seqZ n (n - n) /\ n <= n).
  { intros m' E. simpl. rewrite !app_nil_r, Z.sub_diag. split_ands; [done|done|lia]. }
  destruct c as [i| |b|d|h|i p|e now|id d now| |]; simpl.
  - apply Hq. unfold activate_device. destruct (validate_identity i); [|done].
    destruct (store_full m i); [done|]. simpl.
    destruct (negb _); [rewrite invalidate_owed|]; by destruct m.
  - apply Hq. unfold clear_active_device. rewrite invalidate_owed. by destruct m.
  - apply Hq, update_owed.
  - apply Hq, set_duty_owed.
  - apply Hq. unfold set_headroom_percent. case_bool_decide; [done|apply set_duty_owed].
  - apply Hq. unfold restore_preferences. destruct (validate_identity i); [|done].
    destruct (store_full m i); [done|]. simpl.
    destruct (_ && _); [rewrite invalidate_owed|]; by destruct m.
  - unfold manager_evaluate.
    assert (Hi : let '(m', a) := with_pending_cancellations (invalidate m) no_actions in
      owed m ++ ids (scheduled a) ≡ₚ owed m' ++ cancelled a ++ [] /\
      ids (scheduled a) = seqZ n (n - n) /\ n <= n).
    { pose proof (pending_cancellations_owed (invalidate m) no_actions) as H.
      destruct (with_pending_cancellations _ _) as [m' a]. destruct H as [H ->]. simpl.
      rewrite Z.sub_diag. split_ands; [|done|lia].
      rewrite !app_nil_r, <- H. simpl. by rewrite app_nil_r, invalidate_owed. }
    destruct (active_preferences m) as [p|];
      [|by destruct (with_pending_cancellations (invalidate m) no_actions)].
    destruct (_ || _); [by destruct (with_pending_cancellations (invalidate m) no_actions)|].
    pose proof (evaluate_balance (evaluator m)
      (policy_enabled (p_threshold p) PHONE_ALARM_REPEAT_AFTER) e now n) as H.
    destruct (evaluate _ _ _ _ _) as [[e' a] n']. destruct H as (H1 & H2 & H3).
    pose proof (pending_cancellations_owed (m <| evaluator := e' |>) a) as H.
    destruct (with_pending_cancellations _ a) as [m' a']. destruct H as [H4 H5]. simpl.
    rewrite H5, app_nil_r. split_ands; [|done|lia].
    rewrite <- H4. destruct m as [ai pr ev q]. unfold owed. simpl in *.
    trans ((evaluator_pending ev ++ ids (scheduled a)) ++ q); [solve_Permutation|].
    rewrite H1. solve_Permutation.
  - unfold manager_complete_delivery. case_bool_decide; [|by apply Hq].
    pose proof (complete_balance (evaluator m) id d now) as H1.
    destruct (complete_delivery _ _ _ _) as [e' found]. simpl. rewrite Z.sub_diag.
    split_ands; [|done|lia]. destruct m. unfold owed. simpl in *. rewrite H1. solve_Permutation.
  - rewrite Z.sub_diag. split_ands; [|done|lia]. destruct m. unfold owed. simpl. solve_Permutation.
  - rewrite Z.sub_diag. split_ands; [|done|lia]. destruct m. unfold owed. simpl. solve_Permutation.
Qed.

(** The same for a run of calls. *)
Lemma run_balance s calls :
  let '(s', outs) := run manager_step s calls in
  owed s.1 ++ ids (concat (map handed outs)) ≡ₚ
    owed s'.1 ++ concat (map told_cancelled outs) ++ concat (map settled_ids outs) /\
  ids (concat (map handed outs)) = seqZ s.2 (s'.2 - s.2) /\ s.2 <= s'.2.
Proof.
  revert s. induction calls as [|c calls IH]; intros s.
  { simpl. rewrite Z.sub_diag. split_ands; [by rewrite !app_nil_r|done|lia]. }
  simpl. pose proof (step_balance s c) as H. destruct (manager_step s c) as [s1 o].
  destruct H as (P1 & Q1 & R1). specialize (IH s1).
  destruct (run manager_step s1 calls) as [s' outs]. destruct IH as (P2 & Q2 & R2).
  unfold ids in *. simpl. rewrite map_app. split_ands; [| |lia].
  - rewrite app_assoc, P1. trans ((owed s1.1 ++ map req_id (concat (map handed outs)))
      ++ told_cancelled o ++ settled_ids o); [solve_Permutation|]. rewrite P2. solve_Permutation.
  - rewrite Q1, Q2, <- seqZ_split by lia. done.
Qed.

(** ** The preference store *)

Definition preferences_wf (p : PhoneAlarmPreferences) : Prop := 1 <= p_threshold p <= 100.

Record manager_wf (m : PhoneAlarmManager) : Prop := {
  wf_bounded : (size (preferences m) <= MAX_PHONE_ALARM_DEVICES)%nat;
  wf_thresholds : map_Forall (fun _ p => preferences_wf p) (preferences m);
  wf_identities : map_Forall (fun i _ => validate_identity i = Ok tt) (preferences m);
  wf_active : forall i, active_identity m = Some i -> is_Some (preferences m !! i);
}.

Lemma default_manager_wf : manager_wf default_manager.
Proof. split; simpl; [unfold MAX_PHONE_ALARM_DEVICES; rewrite map_size_empty; lia|apply map_Forall_empty|apply map_Forall_empty|done]. Qed.

(** The invariant reads the identity and the store only. *)
Lemma manager_wf_ext m m' :
  active_identity m' = active_identity m -> preferences m' = preferences m ->
  manager_wf m -> manager_wf m'.
Proof. intros E1 E2 [H1 H2 H3 H4]. split; rewrite ?E1, ?E2; auto. Qed.
Lemma invalidate_wf m : manager_wf m -> manager_wf (invalidate m).
Proof. apply manager_wf_ext; by destruct m. Qed.

Lemma threshold_new_Ok d t : threshold_new d = Ok t <-> 1 <= d <= 100 /\ t = d.
Proof.
  unfold threshold_new. destruct (_ && _) eqn:E; prop_bools.
  - split; [intros [= <-]; lia|intros [_ ->]; done].
  - split; [done|intros [? _]]. destruct E; prop_bools; lia.
Qed.

(** Writing a valid preference under a valid identity keeps the store valid. *)
Lemma insert_wf m i p act :
  manager_wf m -> validate_identity i = Ok tt -> preferences_wf p -> store_full m i = false ->
  (forall j, act = Some j -> j = i \/ is_Some (preferences m !! j)) ->
  manager_wf (m <| preferences := <[i := p]> (preferences m) |> <| active_identity := act |>).
Proof.
  intros [H1 H2 H3 H4] Hi Hp Hf Ha. destruct m as [ai pr ev q]. unfold store_full in Hf. simpl in *.
  split; simpl.
  - destruct (pr !! i) as [p0|] eqn:E.
    + rewrite map_size_insert_Some by eauto. lia.
    + rewrite map_size_insert_None by done. rewrite bool_decide_false in Hf by (intros [? ?]; done).
      simpl in Hf. apply bool_decide_eq_false in Hf. lia.
  - by apply map_Forall_insert_2.
  - by apply map_Forall_insert_2.
  - intros j Hj. destruct (decide (j = i)) as [->|Hn]; [rewrite lookup_insert_eq; eauto|].
    rewrite lookup_insert_ne by done. by destruct (Ha j Hj).
Qed.

Lemma validate_identity_Ok i u : validate_identity i = Ok u -> validate_identity i = Ok tt.
Proof. by destruct u. Qed.
Lemma stored_not_full m i : is_Some (preferences m !! i) -> store_full m i = false.
Proof. intros H. unfold store_full. by rewrite bool_decide_true. Qed.

Lemma update_wf m f :
  (forall p, preferences_wf p -> preferences_wf (f p)) ->
  manager_wf m -> manager_wf (update_active_preferences m f).1.
Proof.
  intros Hf Hw. unfold update_active_preferences.
  destruct (active_identity m) as [i|] eqn:Ei; [|done].
  destruct (preferences m !! i) as [p|] eqn:Ep; [|done]. cbn zeta. simpl.
  pose proof Hw as [H1 H2 H3 H4].
  assert (Hm : manager_wf (m <| preferences := <[i := f p]> (preferences m) |>)).
  { apply manager_wf_ext with (m := m <| preferences := <[i := f p]> (preferences m) |>
      <| active_identity := active_identity m |>); [by destruct m|by destruct m|].
    apply insert_wf; [done|by apply (H3 i p)|by apply Hf, (H2 i p)| |].
    - apply stored_not_full. eauto.
    - intros j Hj. right. apply H4. congruence. }
  destruct (bool_decide (f p = p)); [done|by apply invalidate_wf].
Qed.
Lemma set_duty_wf m d : manager_wf m -> manager_wf (set_duty_percent m d).1.
Proof.
  intros Hw. unfold set_duty_percent. destruct (threshold_new d) as [t|] eqn:E; [|done].
  apply threshold_new_Ok in E as [? ->]. apply update_wf; [|done].
  intros p _. unfold preferences_wf. simpl. lia.
Qed.

(** The values a caller can pass: a preference is built by [preferences_new]. *)
Definition call_ok (c : ManagerCall) : Prop :=
  match c with MRestore _ p => preferences_wf p | _ => True end.

Lemma manager_step_wf s c : call_ok c -> manager_wf s.1 -> manager_wf (manager_step s c).1.1.
Proof.
  destruct s as [m n]. intros Hc Hw. simpl in Hw.
  assert (Hsame : forall m', active_identity m' = active_identity m ->
    preferences m' = preferences m -> manager_wf m').
  { intros. by apply manager_wf_ext with (m := m). }
  assert (Hpend : forall m' a, active_identity m' = active_identity m ->
    preferences m' = preferences m -> manager_wf (with_pending_cancellations m' a).1).
  { intros m' a E1 E2. apply manager_wf_ext with (m := m); [..|done];
      unfold with_pending_cancellations; case_bool_decide; by destruct m'. }
  destruct c as [i| |b|d|h|i p|e now|id d now| |]; simpl.
  - unfold activate_device. destruct (validate_identity i) as [u|] eqn:Ei; [|done].
    destruct (store_full m i) eqn:Ef; [done|]. cbn zeta. simpl.
    assert (manager_wf (m <| preferences := <[i := default default_preferences (preferences m !! i)]>
      (preferences m) |> <| active_identity := Some i |>)).
    { apply insert_wf; [done|by apply validate_identity_Ok with u| |done|intros j [= <-]; by left].
      destruct (preferences m !! i) as [p|] eqn:Ep; simpl; [|done].
      by apply (wf_thresholds m Hw i p). }
    destruct (bool_decide _); simpl; [done|by apply invalidate_wf].
  - apply invalidate_wf. destruct Hw as [H1 H2 H3 H4]. destruct m. split; simpl in *; auto. done.
  - apply update_wf; [|done]. intros p Hp. exact Hp.
  - by apply set_duty_wf.
  - unfold set_headroom_percent. case_bool_decide; [done|by apply set_duty_wf].
  - unfold restore_preferences. destruct (validate_identity i) as [u|] eqn:Ei; [|done].
    destruct (store_full m i) eqn:Ef; [done|]. cbn zeta. simpl.
    assert (manager_wf (m <| preferences := <[i := p]> (preferences m) |>)).
    { apply manager_wf_ext with (m := m <| preferences := <[i := p]> (preferences m) |>
        <| active_identity := active_identity m |>); [by destruct m|by destruct m|].
      apply insert_wf; [done|by apply validate_identity_Ok with u|done|done|].
      intros j Hj. right. by apply wf_active. }
    destruct (bool_decide _ && _); simpl; [by apply invalidate_wf|done].
  - unfold manager_evaluate.
    assert (manager_wf (with_pending_cancellations (invalidate m) no_actions).1)
      by (apply Hpend; by destruct m).
    destruct (active_preferences m) as [p|];
      [|by destruct (with_pending_cancellations (invalidate m) no_actions)].
    destruct (_ || _); [by destruct (with_pending_cancellations (invalidate m) no_actions)|].
    destruct (evaluate _ _ _ _ _) as [[e' a] n'].
    assert (manager_wf (with_pending_cancellations (m <| evaluator := e' |>) a).1)
      by (apply Hpend; by destruct m).
    by destruct (with_pending_cancellations (m <| evaluator := e' |>) a).
  - unfold manager_complete_delivery. case_bool_decide; [|done].
    destruct (complete_delivery _ _ _ _). apply Hsame; by destruct m.
  - apply Hsame; by destruct m.
  - apply Hsame; by destruct m.
Qed.

(** ** Which requests an evaluation makes *)

Definition event_justified (p : PhoneAlarmPreferences) (e : PhoneAlarmEvidence)
    (ev : PhoneAlarmEvent) : Prop :=
  match ev with
  | EvPwmDuty d h => exists duty, pwm_duty e = Some duty /\ 10 * p_threshold p <= Z.abs duty /\
      d = Z.min (Z.abs duty) 1000 / 10 /\ h = 100 - d /\ p_threshold p <= d <= 100
  | EvControllerWarning w => controller_warning e = Some w /\ w <> WarnNone /\ w <> WarnUnknown
  | EvControllerStop r => controller_stop e = Some r /\ r <> StopNone
  end.

(** The events the evidence holds, in the order they are considered. *)
Definition evidence_events (t : PwmDutyAlarmThreshold) (e : PhoneAlarmEvidence)
  : list PhoneAlarmEvent :=
  option_list (pwm_duty e ≫= pwm_event t) ++ option_list (warning_event (controller_warning e))
  ++ option_list (stop_event (controller_stop e)).

Lemma reserve_requests c ev rep now n :
  map req_event (out_requests (reserve_if_due c ev rep now n)) = [] \/
  map req_event (out_requests (reserve_if_due c ev rep now n)) = option_list ev.
Proof.
  destruct c as [ac de fa pe wa]. destruct ev as [ev|]; [|by left]. unfold reserve_if_due.
  repeat (case_match_goal; simpl in *); auto.
Qed.

Lemma reserve_clear ev rep now n :
  n < u64_max ->
  map req_event (out_requests (reserve_if_due channel_clear ev rep now n)) = option_list ev /\
  out_next (reserve_if_due channel_clear ev rep now n) <= n + 1.
Proof.
  intros Hn. destruct ev as [ev|]; [|simpl; split; [done|lia]]. unfold reserve_if_due. simpl.
  destruct (checked_add u64_max n 1) eqn:E.
  - apply checked_add_Some in E as [? ->]. simpl. split; [done|lia].
  - apply checked_add_None in E. lia.
Qed.

Lemma pwm_event_Some t duty d h :
  1 <= t <= 100 -> pwm_event t duty = Some (EvPwmDuty d h) ->
  10 * t <= Z.abs duty /\ d = Z.min (Z.abs duty) 1000 / 10 /\ h = 100 - d /\ t <= d <= 100.
Proof.
  intros Ht. unfold pwm_event, threshold_permille. case_bool_decide; [|done]. intros [= <- <-].
  rewrite Z.quot_div_nonneg by lia. split_ands; try lia; div_lia.
Qed.

Lemma evidence_events_justified p e ev :
  preferences_wf p -> ev ∈ evidence_events (p_threshold p) e -> event_justified p e ev.
Proof.
  intros Hp. unfold evidence_events. rewrite !elem_of_app.
  assert (Hl : forall o : option PhoneAlarmEvent, ev ∈ option_list o -> o = Some ev).
  { intros [x|]; simpl; [rewrite list_elem_of_singleton; by intros ->|by intros ?%not_elem_of_nil]. }
  intros [H%Hl|[H%Hl|H%Hl]].
  - apply bind_Some in H as (duty & Hd & H). pose proof H as H'.
    unfold pwm_event in H'. case_bool_decide; [|done]. injection H' as <-.
    exists duty. split; [done|]. by apply pwm_event_Some in H.
  - unfold warning_event in H. destruct (controller_warning e) as [[]|] eqn:E; try done;
      injection H as <-; simpl; rewrite E; split_ands; done.
  - unfold stop_event in H. destruct (controller_stop e) as [[]|] eqn:E; try done;
      injection H as <-; simpl; rewrite E; split_ands; done.
Qed.

Lemma evaluate_requests s p e now n :
  forall r, r ∈ scheduled (evaluate s p e now n).1.2 -> req_event r ∈ evidence_events (pol_threshold p) e.
Proof.
  unfold evaluate. destruct (_ || _); [intros r Hr; by apply not_elem_of_nil in Hr|].
  destruct (update_pwm_rearm _ _ _ _) as [pw c1]. destruct (clear_if_absent (warning s) _) as [wa c2].
  destruct (clear_if_absent (stop s) _) as [st c3].
  assert (Hone : forall c ev now n r, r ∈ out_requests (reserve_if_due c ev (repeat_after p) now n) ->
    req_event r ∈ option_list ev).
  { intros c ev now' n' r Hr. apply (list_elem_of_fmap_2 req_event) in Hr.
    destruct (reserve_requests c ev (repeat_after p) now' n') as [E|E];
      unfold fmap in Hr; change (list_fmap _ _ ?f ?l) with (map f l) in Hr; rewrite E in Hr; [|done].
    by apply not_elem_of_nil in Hr. }
  intros r. simpl. unfold evidence_events. rewrite !elem_of_app.
  intros [H|[H|H]]; apply Hone in H; auto.
Qed.

Lemma justified_events p e ev :
  event_justified p e ev -> ev ∈ evidence_events (p_threshold p) e.
Proof.
  unfold evidence_events. rewrite !elem_of_app.
  assert (Hl : forall o : option PhoneAlarmEvent, o = Some ev -> ev ∈ option_list o).
  { intros o ->. by apply list_elem_of_singleton. }
  destruct ev as [d h|w|r]; simpl.
  - intros (duty & E & Ht & -> & -> & Hb). left. apply Hl. rewrite E. simpl. unfold pwm_event.
    rewrite bool_decide_true by (unfold threshold_permille; div_lia).
    rewrite Z.quot_div_nonneg by lia. done.
  - intros (E & H1 & H2). right; left. apply Hl. rewrite E. by destruct w.
  - intros (E & H1). right; right. apply Hl. rewrite E. by destruct r.
Qed.

(** From a cleared evaluator, everything the evidence holds is requested. *)
Lemma evaluate_clear_requests p e now n :
  n + 3 <= u64_max -> pol_enabled p = true -> freshness e = Fresh ->
  map req_event (scheduled (evaluate default_evaluator p e now n).1.2)
  = evidence_events (pol_threshold p) e.
Proof.
  intros Hn Hp He. unfold evaluate. rewrite Hp, bool_decide_true by done. simpl.
  set (pe := _ ≫= _).
  assert (E : update_pwm_rearm channel_clear (pol_threshold p) (pwm_duty e) pe = (channel_clear, [])).
  { unfold update_pwm_rearm. destruct (bool_decide (is_Some pe)); [done|]. simpl.
    repeat case_match_goal; done. }
  rewrite E. unfold evidence_events. fold pe.
  assert (Ha : forall ev, clear_if_absent channel_clear ev = (channel_clear, [])) by by intros [].
  rewrite !Ha. simpl. rewrite !map_app.
  destruct (reserve_clear pe (repeat_after p) now n) as [H1 R1]; [lia|].
  rewrite H1. destruct (reserve_clear (warning_event (controller_warning e)) (repeat_after p) now
    (out_next (reserve_if_due channel_clear pe (repeat_after p) now n))) as [H2 R2]; [lia|].
  rewrite H2. edestruct (reserve_clear (stop_event (controller_stop e)) (repeat_after p) now)
    as [H3 R3]; [|rewrite H3; done]. lia.
Qed.

(** A channel whose alarm is in flight, or was answered too recently for its
    retry interval, by every reading of a list of clock values. *)
Definition held (repeat : Z) (nows : list Z) (c : PhoneAlarmChannelState)
    (ev : option PhoneAlarmEvent) : Prop :=
  match ev with
  | None => c = channel_clear
  | Some ev => active c = Some (event_condition ev) /\
      (is_Some (pending_request_id c) \/ waiting_for_rearm c = true \/
       (exists t, delivered_at c = Some t /\ Forall (fun now => sat_sub now t < repeat) nows) \/
       (exists t, failed_at c = Some t /\
          Forall (fun now => sat_sub now t < FAILED_DELIVERY_RETRY_AFTER) nows))
  end.

Lemma held_cons rep now nows c ev : held rep (now :: nows) c ev -> held rep nows c ev.
Proof.
  destruct ev as [ev|]; [|done]. intros (H & [H1|[H1|[(t & H1 & H2)|(t & H1 & H2)]]]);
    (split; [done|]); try apply Forall_cons in H2 as [_ H2]; eauto 8.
Qed.

Lemma reserve_held rep now nows c ev n :
  held rep (now :: nows) c ev ->
  reserve_if_due c ev rep now n
  = {| out_state := c; out_requests := []; out_cancelled := []; out_next := n |}.
Proof.
  destruct ev as [ev|]; [|done]. intros [Ha H]. unfold reserve_if_due.
  rewrite (bool_decide_true (active c = _)) by done. simpl.
  destruct (bool_decide (is_Some (pending_request_id c))) eqn:Ep; [done|].
  destruct (waiting_for_rearm c) eqn:Ew; [done|]. prop_bools.
  destruct H as [?|[?|[(t & E & Ht)|(t & E & Ht)]]]; [done|done|..];
    apply Forall_cons in Ht as [Ht _]; unfold is_due; rewrite E; rewrite bool_decide_false by lia;
    [done|]. simpl. by rewrite orb_true_r.
Qed.

Lemma held_rearm rep nows c t d ev :
  held rep nows c ev -> update_pwm_rearm c t d ev = (c, []).
Proof.
  destruct ev as [ev|]; simpl; [done|]. intros ->. unfold update_pwm_rearm. simpl.
  repeat case_match_goal; done.
Qed.
Lemma held_absent rep nows c ev : held rep nows c ev -> clear_if_absent c ev = (c, []).
Proof. destruct ev as [ev|]; simpl; [done|]. by intros ->. Qed.

(** The evaluator driven by readings, evidence and clock, under one policy. *)
Definition evaluator_step (p : PhoneAlarmPolicy) (s : PhoneAlarmEvaluator * Z)
    (r : PhoneAlarmEvidence * Z) : (PhoneAlarmEvaluator * Z) * PhoneAlarmActions :=
  let '(s', a, n') := evaluate s.1 p r.1 r.2 s.2 in ((s', n'), a).

Definition awaiting_rearm (s : PhoneAlarmEvaluator) : Prop :=
  active (pwm s) = Some CondPwmDuty /\ waiting_for_rearm (pwm s) = true.
Definition no_duty_request (a : PhoneAlarmActions) : Prop :=
  Forall (fun r => event_condition (req_event r) <> CondPwmDuty) (scheduled a).
Definition reads_above_rearm (t : PwmDutyAlarmThreshold) (e : PhoneAlarmEvidence) : Prop :=
  freshness e = Fresh /\
  exists d, pwm_duty e = Some d /\ threshold_rearm_permille t < Z.abs d.

Lemma rearm_waits c t d n rep now :
  let pe := pwm_event t d in
  let o := reserve_if_due (update_pwm_rearm c t (Some d) pe).1 pe rep now n in
  active c = Some CondPwmDuty -> waiting_for_rearm c = true ->
  threshold_rearm_permille t < Z.abs d ->
  out_requests o = [] /\ active (out_state o) = Some CondPwmDuty /\
  waiting_for_rearm (out_state o) = true.
Proof.
  destruct c as [ac de fa pe wa]. simpl. intros -> -> Hd. unfold pwm_event.
  destruct (bool_decide (threshold_permille t <= _)); unfold update_pwm_rearm; simpl.
  - destruct (bool_decide (is_Some pe)); done.
  - rewrite bool_decide_false by lia. destruct (bool_decide (is_Some pe)); done.
Qed.

Lemma waiting_step p s n e now :
  pol_enabled p = true -> awaiting_rearm s -> reads_above_rearm (pol_threshold p) e ->
  let '((s', _), a) := evaluator_step p (s, n) (e, now) in awaiting_rearm s' /\ no_duty_request a.
Proof.
  intros Hp [Ha Hw] (He & d & Ed & Hd). unfold evaluator_step, evaluate. simpl.
  rewrite Hp, bool_decide_true, Ed by done. simpl.
  pose proof (rearm_waits (pwm s) (pol_threshold p) d n (repeat_after p) now Ha Hw Hd) as (R1 & R2 & R3).
  destruct (update_pwm_rearm _ _ _ _) as [pw c1]. simpl in R1, R2, R3.
  destruct (clear_if_absent (warning s) _) as [wa c2]. destruct (clear_if_absent (stop s) _) as [st c3].
  simpl. split; [done|]. unfold no_duty_request. simpl. rewrite R1. simpl.
  assert (Hone : forall c ev rep now n, (forall x, ev = Some x -> event_condition x <> CondPwmDuty) ->
    Forall (fun r => event_condition (req_event r) <> CondPwmDuty)
      (out_requests (reserve_if_due c ev rep now n))).
  { intros c ev rep now' n' Hx. apply (Forall_map req_event (fun x => event_condition x <> CondPwmDuty)).
    destruct (reserve_requests c ev rep now' n') as [-> | ->]; [constructor|].
    destruct ev; simpl; [|constructor]. repeat constructor. by apply Hx. }
  apply Forall_app_2; apply Hone; intros x.
  - destruct (controller_warning e) as [[]|]; simpl; try done; by intros [= <-].
  - destruct (controller_stop e) as [[]|]; simpl; try done; by intros [= <-].
Qed.

Lemma low_clears s t e :
  (forall d, pwm_duty e = Some d -> Z.abs d <= threshold_rearm_permille t) -> 1 <= t <= 100 ->
  pwm_duty e ≫= pwm_event t = None /\
  (update_pwm_rearm (pwm s) t (pwm_duty e) None).1 = channel_clear.
Proof.
  intros Hl Ht. destruct (pwm_duty e) as [d|]; [|done]. specialize (Hl d eq_refl). simpl.
  unfold pwm_event, update_pwm_rearm. simpl. rewrite (bool_decide_true (Z.abs d <= _)) by done.
  rewrite bool_decide_false; [done|]. revert Hl.
  unfold threshold_rearm_permille, threshold_permille, PWM_REARM_HYSTERESIS_PERCENT. int_lia.
Qed.

(** ** Properties *)

(** C22: over any history of the alarm manager every delivery request is
    accounted for exactly once: the requests handed to the phone carry
    consecutive, hence distinct, identities, and each of them is either still in
    flight, queued for cancellation, already reported as cancelled, or settled
    by an accepted completion, and nothing else is ever reported. *)
Theorem every_request_accounted (n : Z) (calls : list ManagerCall) :
  let '((m, n'), outs) := run manager_step (default_manager, n) calls in
  let requested := map req_id (concat (map handed outs)) in
  requested = seqZ n (n' - n) /\ NoDup requested /\
  requested ≡ₚ evaluator_pending (evaluator m) ++ cancelled_request_ids m
    ++ concat (map told_cancelled outs) ++ concat (map settled_ids outs).
Proof.
  pose proof (run_balance (default_manager, n) calls) as H.
  destruct (run manager_step _ calls) as [[m n'] outs]. destruct H as (H1 & H2 & H3). simpl in *.
  fold (ids (concat (map handed outs))). split_ands; [done|rewrite H2; apply NoDup_seqZ|].
  rewrite H1. unfold owed. by rewrite <- app_assoc.
Qed.

(** The phone is only ever alarmed for a reason: a request is made only for
    an active device whose alarms are enabled, on fresh evidence, and it names a
    duty at or above that device's threshold (with the duty capped at 100 and
    its complementary headroom), the controller's real warning, or its real stop
    reason. *)
Theorem alarms_are_justified (m : PhoneAlarmManager) (e : PhoneAlarmEvidence) (now n : Z)
    (r : PhoneAlarmDeliveryRequest) :
  manager_wf m -> r ∈ scheduled (manager_evaluate m e now n).1.2 ->
  exists identity p, active_identity m = Some identity /\ preferences m !! identity = Some p /\
    p_enabled p = true /\ freshness e = Fresh /\ event_justified p e (req_event r).
Proof.
  intros Hw. unfold manager_evaluate.
  assert (Hno : r ∈ scheduled (with_pending_cancellations (invalidate m) no_actions).2 -> False).
  { pose proof (pending_cancellations_owed (invalidate m) no_actions) as H.
    destruct (with_pending_cancellations _ _). destruct H as [_ H]. simpl. rewrite H. apply not_elem_of_nil. }
  destruct (active_preferences m) as [p|] eqn:Ep;
    [|destruct (with_pending_cancellations (invalidate m) no_actions); intros []%Hno].
  destruct (negb (p_enabled p) || _) eqn:Ec;
    [destruct (with_pending_cancellations (invalidate m) no_actions); intros []%Hno|].
  prop_bools. pose proof (evaluate_requests (evaluator m)
    (policy_enabled (p_threshold p) PHONE_ALARM_REPEAT_AFTER) e now n r) as Hr.
  destruct (evaluate _ _ _ _ _) as [[e' a] n']. simpl in Hr.
  pose proof (pending_cancellations_owed (m <| evaluator := e' |>) a) as Hs.
  destruct (with_pending_cancellations _ a) as [m' a']. destruct Hs as [_ Hs]. simpl.
  intros Hin. rewrite Hs in Hin. apply bind_Some in Ep as (i & Ei & Ep).
  exists i, p. split_ands; try done. apply evidence_events_justified; [|by apply Hr].
  by apply (wf_thresholds m Hw i p).
Qed.

(** And never silent when there is one: with no delivery history for the
    active, enabled device, the first fresh evaluation requests exactly the
    alarms the evidence justifies, all independent channels at once. *)
Theorem fresh_evidence_alarms (m : PhoneAlarmManager) (identity : DeviceIdentity)
    (p : PhoneAlarmPreferences) (e : PhoneAlarmEvidence) (now n : Z) :
  active_identity m = Some identity -> preferences m !! identity = Some p -> preferences_wf p ->
  p_enabled p = true -> evaluator m = default_evaluator -> freshness e = Fresh ->
  n + 3 <= u64_max ->
  forall ev, ev ∈ map req_event (scheduled (manager_evaluate m e now n).1.2)
             <-> event_justified p e ev.
Proof.
  intros Hi Hp Hpw Hen Hev He Hn ev. unfold manager_evaluate, active_preferences.
  rewrite Hi. simpl. rewrite Hp, Hen, bool_decide_true, Hev by done. simpl.
  pose proof (evaluate_clear_requests (policy_enabled (p_threshold p) PHONE_ALARM_REPEAT_AFTER)
    e now n Hn eq_refl He) as H.
  destruct (evaluate _ _ _ _ _) as [[e' a] n']. simpl in H.
  pose proof (pending_cancellations_owed (m <| evaluator := e' |>) a) as H'.
  destruct (with_pending_cancellations _ a) as [m' a']. destruct H' as [_ H']. simpl.
  rewrite H', H. split; [by apply evidence_events_justified|apply justified_events].
Qed.

(** A steady condition does not flood the rider: while each reported
    channel has a request in flight, is waiting to re-arm, was delivered less
    than the repeat interval ago or failed less than the one-second retry
    interval ago, any number of evaluations of the same fresh evidence requests
    nothing, cancels nothing and changes nothing. *)
Theorem steady_alarm_rate_limited (s : PhoneAlarmEvaluator) (p : PhoneAlarmPolicy)
    (e : PhoneAlarmEvidence) (n : Z) (nows : list Z) :
  pol_enabled p = true -> freshness e = Fresh ->
  held (repeat_after p) nows (pwm s) (pwm_duty e ≫= pwm_event (pol_threshold p)) ->
  held (repeat_after p) nows (warning s) (warning_event (controller_warning e)) ->
  held (repeat_after p) nows (stop s) (stop_event (controller_stop e)) ->
  run (evaluator_step p) (s, n) (map (pair e) nows) = ((s, n), map (fun _ => no_actions) nows).
Proof.
  intros Hp He. induction nows as [|now nows IH]; intros H1 H2 H3; [done|].
  assert (E : evaluator_step p (s, n) (e, now) = ((s, n), no_actions)).
  { unfold evaluator_step, evaluate. simpl fst. simpl snd. rewrite Hp, bool_decide_true by done. simpl.
    rewrite (held_rearm _ _ _ _ _ _ H1), (held_absent _ _ _ _ H2), (held_absent _ _ _ _ H3).
    rewrite (reserve_held _ _ _ _ _ _ H1). simpl. rewrite (reserve_held _ _ _ _ _ _ H2). simpl.
    rewrite (reserve_held _ _ _ _ _ _ H3). simpl. by destruct s. }
  simpl. simpl in E. rewrite E, IH by eauto using held_cons. done.
Qed.

(** The duty alarm has hysteresis: once a duty request has been withdrawn
    above the re-arm level, no evaluation requests another duty alarm until the
    duty falls to five points under the threshold (or is no longer reported),
    and the evaluation that sees it does re-arm the channel. *)
Theorem duty_alarm_hysteresis (p : PhoneAlarmPolicy) (s : PhoneAlarmEvaluator) (n : Z)
    (readings : list (PhoneAlarmEvidence * Z)) (low : PhoneAlarmEvidence) (now : Z) :
  pol_enabled p = true -> 1 <= pol_threshold p <= 100 -> awaiting_rearm s ->
  Forall (fun r => reads_above_rearm (pol_threshold p) r.1) readings ->
  freshness low = Fresh ->
  (forall d, pwm_duty low = Some d -> Z.abs d <= threshold_rearm_permille (pol_threshold p)) ->
  let '((s', n'), outs) := run (evaluator_step p) (s, n) readings in
  Forall no_duty_request outs /\ awaiting_rearm s' /\
  pwm (evaluate s' p low now n').1.1 = channel_clear.
Proof.
  intros Hp Ht Hs Hr Hl Hlow. revert s n Hs.
  induction Hr as [|[e t] readings He _ IH]; intros s n Hs; simpl.
  - split_ands; [done|done|]. unfold evaluate. rewrite Hp, bool_decide_true by done. simpl.
    destruct (low_clears s (pol_threshold p) low Hlow Ht) as [E1 E2]. rewrite E1.
    destruct (update_pwm_rearm _ _ _ _) as [pw c1]. simpl in E2. subst.
    destruct (clear_if_absent (warning s) _), (clear_if_absent (stop s) _). done.
  - pose proof (waiting_step p s n e t Hp Hs He) as H.
    destruct (evaluator_step p (s, n) (e, t)) as [[s1 n1] a]. destruct H as [H1 H2].
    specialize (IH s1 n1 H1). destruct (run _ (s1, n1) readings) as [[s' n'] outs].
    destruct IH as (I1 & I2 & I3). split_ands; auto.
Qed.

(** The preference store stays valid: from a valid manager every sequence of
    calls keeps at most 256 devices, each under an acceptable identity with a
    threshold of 1 through 100 percent, and the active device always has stored
    preferences, so reading them never fails. *)
Theorem preference_store_valid (m : PhoneAlarmManager) (n : Z) (calls : list ManagerCall) :
  manager_wf m -> Forall call_ok calls ->
  let m' := (run_state manager_step (m, n) calls).1 in
  manager_wf m' /\
  forall i, active_identity m' = Some i ->
    exists p, active_preferences_for m' i = Ok p /\ preferences m' !! i = Some p.
Proof.
  intros Hw Hc. assert (H : manager_wf (run_state manager_step (m, n) calls).1).
  { assert (Hs : manager_wf (m, n).1) by done. revert Hs. generalize (m, n).
    induction Hc as [|c calls Hc _ IH]; intros s Hs; [done|].
    rewrite run_state_cons. by apply IH, manager_step_wf. }
  split; [done|]. intros i Hi. set (m' := (run_state _ _ _).1) in *.
  destruct (wf_active _ H i Hi) as [p Hp]. exists p. split; [|done].
  unfold active_preferences_for. rewrite (wf_identities _ H i p Hp). simpl. rewrite Hi. simpl.
  rewrite bool_decide_true by done. unfold active_preferences. rewrite Hi. simpl. by rewrite Hp.
Qed.

(** ** Witnesses *)

Definition sample_identity : DeviceIdentity := [98; 108; 101; 58; 49].
Definition sample_manager : PhoneAlarmManager :=
  (run_state manager_step (default_manager, 1) [MActivate sample_identity; MSetEnabled true]).1.
Definition sample_preferences : PhoneAlarmPreferences := {| p_enabled := true; p_threshold := 80 |}.

Lemma alarms_are_justified_witness :
  exists identity p, active_identity sample_manager = Some identity /\
    preferences sample_manager !! identity = Some p /\ p_enabled p = true /\ Fresh = Fresh /\
    event_justified p (evidence_fresh (Some 835) None None) (EvPwmDuty 83 17).
Proof.
  apply (alarms_are_justified sample_manager (evidence_fresh (Some 835) None None) 5000 1
           {| req_id := 1; req_event := EvPwmDuty 83 17 |}).
  - refine (_ (manager_step_wf (_, 1) (MSetEnabled true) I
      (manager_step_wf (default_manager, 1) (MActivate sample_identity) I default_manager_wf))).
    exact (fun H => H).
  - vm_compute. left.
Defined.

Lemma fresh_evidence_alarms_witness :
  EvControllerWarning WarnCurrent
    ∈ map req_event (scheduled (manager_evaluate sample_manager
        (evidence_fresh (Some (-900)) (Some WarnCurrent) None) 5000 1).1.2).
Proof.
  apply (fresh_evidence_alarms sample_manager sample_identity sample_preferences);
    [vm_compute; reflexivity | vm_compute; reflexivity | unfold preferences_wf; simpl; lia
    | reflexivity | vm_compute; reflexivity | reflexivity | int_lia
    | simpl; repeat split; discriminate].
Defined.

Definition sample_policy : PhoneAlarmPolicy := policy_enabled 80 PHONE_ALARM_REPEAT_AFTER.
Definition sample_high : PhoneAlarmEvidence := evidence_fresh (Some 900) None None.
(** A duty alarm delivered at 1,000 ms. *)
Definition sample_delivered : PhoneAlarmEvaluator :=
  (complete_delivery (evaluate default_evaluator sample_policy sample_high 500 1).1.1 1 true 1000).1.

Lemma steady_alarm_rate_limited_witness :
  run (evaluator_step sample_policy) (sample_delivered, 2) (map (pair sample_high) [2000; 30999])
  = ((sample_delivered, 2), [no_actions; no_actions]).
Proof.
  apply (steady_alarm_rate_limited sample_delivered sample_policy sample_high 2 [2000; 30999]);
    try reflexivity.
  split; [reflexivity|]. right; right; left. exists 1000. split; [reflexivity|].
  repeat constructor.
Defined.

(** A duty request withdrawn at 77.0 percent, above the re-arm level of 75. *)
Definition sample_withdrawn : PhoneAlarmEvaluator :=
  (evaluate (evaluate default_evaluator sample_policy sample_high 500 1).1.1 sample_policy
     (evidence_fresh (Some 770) None None) 600 2).1.1.

Lemma duty_alarm_hysteresis_witness :
  let '((s', n'), outs) := run (evaluator_step sample_policy) (sample_withdrawn, 2) [(sample_high, 700)] in
  pwm (evaluate s' sample_policy (evidence_fresh (Some 750) None None) 800 n').1.1 = channel_clear.
Proof.
  pose proof (duty_alarm_hysteresis sample_policy sample_withdrawn 2 [(sample_high, 700)]
    (evidence_fresh (Some 750) None None) 800) as H.
  destruct (run _ _ _) as [[s' n'] outs]. apply H.
  - reflexivity.
  - simpl. lia.
  - split; reflexivity.
  - constructor; [|constructor]. split; [reflexivity|]. exists 900. split; [reflexivity|]. reflexivity.
  - reflexivity.
  - intros d [= <-]. vm_compute. discriminate.
Defined.

Lemma preference_store_valid_witness :
  manager_wf (run_state manager_step (default_manager, 1)
    [MActivate sample_identity; MSetHeadroom 0; MSetDuty 101; MClearActive]).1.
Proof.
  apply (preference_store_valid default_manager 1
           [MActivate sample_identity; MSetHeadroom 0; MSetDuty 101; MClearActive]);
    [exact default_manager_wf | repeat constructor].
Defined.
