(* ===== verification/Parser.v ===== *)
(** * Byte cursors and stream decoders

    [cutout-protocols/src/parser.rs]: bounds-checked big-endian reads at typed
    offsets.  A byte is a [Z], an offset a [nat] (offsets are small literals or
    one byte plus a literal, so the [checked_add] on [usize] cannot fail).

    The second part is the interface between the notification streams and the
    frame reassemblers: a [StreamDecoder] consumes one byte at a time and its
    laws say where the bytes of a frame come from. *)

From S2P Require Import Prelude.

(** ** Bytes *)

Definition is_byte (b : Z) : Prop := 0 <= b <= 255.

#[global] Instance is_byte_dec b : Decision (is_byte b).
Proof. unfold is_byte. apply _. Defined.

(** [u16::from_be_bytes] and [u32::from_be_bytes]. *)
Definition be16 (b0 b1 : Z) : Z := Z.lor (Z.shiftl b0 8) b1.
Definition be32 (b0 b1 b2 b3 : Z) : Z :=
  Z.lor (Z.shiftl b0 24) (Z.lor (Z.shiftl b1 16) (Z.lor (Z.shiftl b2 8) b3)).

(** Shifts are the [as]-less [<<] on values that fit, so [|] is addition. *)
Lemma lor_shiftl_add a b k :
  0 <= k -> 0 <= b < 2 ^ k -> Z.lor (Z.shiftl a k) b = a * 2 ^ k + b.
Proof.
  intros Hk Hb.
  assert (Hl : Z.land (Z.shiftl a k) b = 0).
  { apply Z.bits_inj'. intros n Hn. rewrite Z.land_spec, Z.bits_0, Z.shiftl_spec by lia.
    destruct (Z.eq_dec b 0) as [->|]; [rewrite Z.bits_0; apply andb_false_r|].
    destruct (Z.lt_ge_cases n k).
    - rewrite Z.testbit_neg_r by lia. reflexivity.
    - rewrite (Z.bits_above_log2 b n); [apply andb_false_r|lia|].
      apply Z.log2_lt_pow2; [lia|]. assert (2 ^ k <= 2 ^ n) by (apply Z.pow_le_mono_r; lia). lia. }
  pose proof (Z.add_lor_land (Z.shiftl a k) b) as H. rewrite Hl in H.
  rewrite Z.shiftl_mul_pow2 in * by lia. lia.
Qed.

Lemma be16_sum b0 b1 : is_byte b1 -> be16 b0 b1 = b0 * 256 + b1.
Proof. intros. unfold be16, is_byte in *. rewrite lor_shiftl_add; lia. Qed.

Lemma be32_sum b0 b1 b2 b3 :
  is_byte b1 -> is_byte b2 -> is_byte b3 ->
  be32 b0 b1 b2 b3 = b0 * 16777216 + b1 * 65536 + b2 * 256 + b3.
Proof.
  intros. unfold be32, is_byte in *.
  rewrite (lor_shiftl_add b2 b3), (lor_shiftl_add b1), (lor_shiftl_add b0); lia.
Qed.

(** [value.to_be_bytes()] of a [u32], the inverse of [be32]. *)
Definition be32_bytes (v : Z) : list Z :=
  [v / 16777216 mod 256; v / 65536 mod 256; v / 256 mod 256; v mod 256].

(** ** The cursor *)

(** [slice.get(start..end)]. *)
Definition get_range (bytes : list Z) (start len : nat) : option (list Z) :=
  if (start + len <=? length bytes)%nat then Some (take len (drop start bytes)) else None.

Definition byte (bytes : list Z) (offset : nat) : option Z := bytes !! offset.

Definition range (bytes : list Z) (start len : nat) : option (list Z) :=
  get_range bytes start len.

Definition be_u16 (bytes : list Z) (offset : nat) : option Z :=
  bs ← range bytes offset 2;
  b0 ← head bs;
  b1 ← bs !! 1%nat;
  Some (be16 b0 b1).

Definition be_i16 (bytes : list Z) (offset : nat) : option Z :=
  to_signed 65536 <$> be_u16 bytes offset.

Definition be_u32 (bytes : list Z) (offset : nat) : option Z :=
  bs ← range bytes offset 4;
  b0 ← head bs;
  b1 ← bs !! 1%nat;
  b2 ← bs !! 2%nat;
  b3 ← bs !! 3%nat;
  Some (be32 b0 b1 b2 b3).

(** Two big-endian halves, the low half first. *)
Definition veteran_swapped_u32 (bytes : list Z) (offset : nat) : option Z :=
  bs ← range bytes offset 4;
  b0 ← head bs;
  b1 ← bs !! 1%nat;
  b2 ← bs !! 2%nat;
  b3 ← bs !! 3%nat;
  Some (Z.lor (Z.lor (Z.lor (Z.shiftl b2 24) (Z.shiftl b3 16)) (Z.shiftl b0 8)) b1).

Example reads_big_endian :
  let bytes := [0x12; 0x34; 0xfe; 0xdc; 0xba; 0x98] in
  be_u16 bytes 0 = Some 0x1234 /\ be_i16 bytes 2 = Some (-292) /\
  be_u32 bytes 2 = Some 0xfedcba98 /\ be_u32 bytes 3 = None.
Proof. vm_compute. auto. Qed.

(** ** Reads against lookups *)

Lemma get_range_Some bytes start len bs :
  get_range bytes start len = Some bs <->
  (start + len <= length bytes)%nat /\ bs = take len (drop start bytes).
Proof.
  unfold get_range. destruct (Nat.leb_spec (start + len) (length bytes)); split.
  - intros [=]; auto.
  - intros [_ ->]; auto.
  - done.
  - intros [? _]; lia.
Qed.

Lemma range_lookup bytes start len bs i :
  range bytes start len = Some bs -> (i < len)%nat -> bs !! i = bytes !! (start + i)%nat.
Proof.
  intros [? ->]%get_range_Some Hi. rewrite lookup_take_lt by lia. apply lookup_drop.
Qed.

Lemma head_lookup (l : list Z) : head l = l !! 0%nat.
Proof. destruct l; reflexivity. Qed.

(** A successful read is a read of the bytes at that offset, and a read
    succeeds exactly when they are there. *)
Lemma be_u16_Some bytes o v :
  be_u16 bytes o = Some v <->
  exists b0 b1, bytes !! o = Some b0 /\ bytes !! (o + 1)%nat = Some b1 /\ v = be16 b0 b1.
Proof.
  unfold be_u16. destruct (range bytes o 2) as [bs|] eqn:E; simpl.
  - pose proof (range_lookup _ _ _ _ 0 E ltac:(lia)) as H0.
    pose proof (range_lookup _ _ _ _ 1 E ltac:(lia)) as H1.
    rewrite Nat.add_0_r in H0. rewrite head_lookup, H0, H1.
    destruct (bytes !! o); simpl; [|split; [done|intros (?&?&?&_); done]].
    destruct (bytes !! (o + 1)%nat); simpl; [|split; [done|intros (?&?&_&?&_); done]].
    split; [intros [=]; eauto | intros (?&?&[=]&[=]&->); subst; auto].
  - split; [done|]. intros (b0 & b1 & _ & H1 & _).
    apply lookup_lt_Some in H1. unfold range, get_range in E.
    destruct (Nat.leb_spec (o + 2) (length bytes)); [done|lia].
Qed.

Lemma be_u16_is_Some bytes o : is_Some (be_u16 bytes o) <-> (o + 2 <= length bytes)%nat.
Proof.
  split.
  - intros [v Hv]. apply be_u16_Some in Hv as (?&?&_&H&_). apply lookup_lt_Some in H. lia.
  - intros Hl.
    destruct (lookup_lt_is_Some_2 bytes o) as [b0 H0]; [lia|].
    destruct (lookup_lt_is_Some_2 bytes (o + 1)) as [b1 H1]; [lia|].
    exists (be16 b0 b1). apply be_u16_Some. eauto.
Qed.

Lemma lookup_byte bytes i b : Forall is_byte bytes -> bytes !! i = Some b -> is_byte b.
Proof. intros H Hi. apply (Forall_lookup_1 _ _ _ _ H Hi). Qed.

Lemma be_u16_range bytes o v :
  Forall is_byte bytes -> be_u16 bytes o = Some v -> in_u u16_max v.
Proof.
  intros Hb (b0 & b1 & H0 & H1 & ->)%be_u16_Some.
  apply lookup_byte in H0, H1; auto. rewrite be16_sum by auto. unfold is_byte in *. int_lia.
Qed.

Lemma to_signed_range n z : 0 < n -> n mod 2 = 0 -> in_i (- (n / 2)) (n / 2 - 1) (to_signed n z).
Proof.
  intros Hn He. unfold to_signed, in_i. pose proof (Z.mod_pos_bound z n Hn).
  assert (n = 2 * (n / 2)) by div_lia. case_bool_decide; lia.
Qed.

Lemma be_i16_range bytes o v : be_i16 bytes o = Some v -> in_i i16_min i16_max v.
Proof.
  unfold be_i16. destruct (be_u16 bytes o) as [u|]; [|done]. simpl. intros [= <-].
  pose proof (to_signed_range 65536 u ltac:(lia) eq_refl). exact H.
Qed.

Lemma be_u32_Some bytes o v :
  be_u32 bytes o = Some v <->
  exists b0 b1 b2 b3, bytes !! o = Some b0 /\ bytes !! (o + 1)%nat = Some b1 /\
    bytes !! (o + 2)%nat = Some b2 /\ bytes !! (o + 3)%nat = Some b3 /\ v = be32 b0 b1 b2 b3.
Proof.
  unfold be_u32. destruct (range bytes o 4) as [bs|] eqn:E; simpl.
  - pose proof (range_lookup _ _ _ _ 0 E ltac:(lia)) as H0.
    pose proof (range_lookup _ _ _ _ 1 E ltac:(lia)) as H1.
    pose proof (range_lookup _ _ _ _ 2 E ltac:(lia)) as H2.
    pose proof (range_lookup _ _ _ _ 3 E ltac:(lia)) as H3.
    rewrite Nat.add_0_r in H0. rewrite head_lookup, H0, H1, H2, H3.
    destruct (bytes !! o); simpl; [|split; [done|intros (?&?&?&?&?&_); done]].
    destruct (bytes !! (o + 1)%nat); simpl; [|split; [done|intros (?&?&?&?&_&?&_); done]].
    destruct (bytes !! (o + 2)%nat); simpl; [|split; [done|intros (?&?&?&?&_&_&?&_); done]].
    destruct (bytes !! (o + 3)%nat); simpl; [|split; [done|intros (?&?&?&?&_&_&_&?&_); done]].
    split; [intros [=]; eauto 10 | intros (?&?&?&?&[=]&[=]&[=]&[=]&->); subst; auto].
  - split; [done|]. intros (b0 & b1 & b2 & b3 & _ & _ & _ & H3 & _).
    apply lookup_lt_Some in H3. unfold range, get_range in E.
    destruct (Nat.leb_spec (o + 4) (length bytes)); [done|lia].
Qed.

(** Reading back what [to_be_bytes] wrote. *)
Lemma be_u32_write pre v post :
  in_u u32_max v -> be_u32 (pre ++ be32_bytes v ++ post) (length pre) = Some v.
Proof.
  intros Hv. apply be_u32_Some. unfold be32_bytes.
  assert (Hi : forall i, (length pre + i - length pre)%nat = i) by lia.
  eexists _, _, _, _.
  rewrite !(lookup_app_r pre), !Hi, Nat.sub_diag by lia. simpl.
  repeat (split; [reflexivity|]). unfold in_u, u32_max in Hv.
  rewrite be32_sum; unfold is_byte; div_lia.
Qed.

(** [value.to_be_bytes()] of a [u16] or an [i16]. *)
Definition be16_bytes (v : Z) : list Z := [v / 256 mod 256; v mod 256].
Lemma be16_bytes_u v : in_u u16_max v -> be16 (v / 256 mod 256) (v mod 256) = v.
Proof. unfold in_u, u16_max. intros. rewrite be16_sum by (unfold is_byte; div_lia). div_lia. Qed.
Lemma be16_bytes_i v :
  in_i i16_min i16_max v -> to_signed 65536 (be16 (v / 256 mod 256) (v mod 256)) = v.
Proof.
  unfold in_i, i16_min, i16_max. intros. rewrite be16_sum by (unfold is_byte; div_lia).
  unfold to_signed. case_bool_decide; div_lia.
Qed.
Lemma be32_bytes_u v : in_u u32_max v ->
  be32 (v / 16777216 mod 256) (v / 65536 mod 256) (v / 256 mod 256) (v mod 256) = v.
Proof. unfold in_u, u32_max. intros. rewrite be32_sum by (unfold is_byte; div_lia). div_lia. Qed.
Lemma be_u16_write pre v post :
  in_u u16_max v -> be_u16 (pre ++ be16_bytes v ++ post) (length pre) = Some v.
Proof.
  intros Hv. apply be_u16_Some. unfold be16_bytes.
  assert (Hi : forall i, (length pre + i - length pre)%nat = i) by lia.
  eexists _, _. rewrite !(lookup_app_r pre), !Hi, Nat.sub_diag by lia. simpl.
  repeat (split; [reflexivity|]). by rewrite be16_bytes_u.
Qed.
Lemma be_i16_write pre v post :
  in_i i16_min i16_max v -> be_i16 (pre ++ be16_bytes v ++ post) (length pre) = Some v.
Proof.
  intros Hv. unfold be_i16. replace (be_u16 _ _) with (Some (be16 (v / 256 mod 256) (v mod 256))).
  { cbn [fmap option_fmap option_map]. by rewrite be16_bytes_i. }
  symmetry. apply be_u16_Some. unfold be16_bytes.
  assert (Hi : forall i, (length pre + i - length pre)%nat = i) by lia.
  eexists _, _. rewrite !(lookup_app_r pre), !Hi, Nat.sub_diag by lia. simpl. auto.
Qed.

(** ** Stream decoders

    What a frame reassembler promises to the session that feeds it: a state,
    the bytes it still holds, and where the bytes of a frame come from. *)
Class StreamDecoder (St Frame : Type) := {
  sd_feed : St -> Z -> St * option Frame;
  sd_pending : St -> list Z;
  sd_ok : St -> Prop;
  sd_bytes : Frame -> list Z;
  sd_valid : list Z -> Prop;
  (** the inputs the decoder is specified for *)
  sd_input : Z -> Prop;
  sd_feed_ok : forall s b, sd_ok s -> sd_input b -> sd_ok (sd_feed s b).1;
  (** without a frame, what is kept is the end of what was held and the byte *)
  sd_feed_none : forall s b, sd_ok s -> sd_input b -> (sd_feed s b).2 = None ->
    sd_pending (sd_feed s b).1 `suffix_of` (sd_pending s ++ [b]);
  (** a frame is the end of what was held and the byte; nothing else is kept *)
  sd_feed_some : forall s b f, sd_ok s -> sd_input b -> (sd_feed s b).2 = Some f ->
    sd_valid (sd_bytes f) /\ sd_bytes f `suffix_of` (sd_pending s ++ [b]) /\
    sd_pending (sd_feed s b).1 = [];
}.

(** [scattered fs bytes]: the blocks of [fs] occur in [bytes], in this order
    and without overlap. *)
Inductive scattered : list (list Z) -> list Z -> Prop :=
| scattered_nil noise : scattered [] noise
| scattered_cons noise f fs rest :
    scattered fs rest -> scattered (f :: fs) (noise ++ f ++ rest).

Lemma scattered_noise fs noise bytes : scattered fs bytes -> scattered fs (noise ++ bytes).
Proof. inversion 1; subst; [constructor|]. rewrite app_assoc. by constructor. Qed.

Section StreamDecoder.
Context {St Frame : Type} `{StreamDecoder St Frame}.

(** The frames that come out while a byte string goes in. *)
Definition frames_of (s : St) (bytes : list Z) : list Frame :=
  omap id (run_outputs sd_feed s bytes).

Lemma frames_of_cons s b bytes :
  frames_of s (b :: bytes) =
    match (sd_feed s b).2 with Some f => [f] | None => [] end ++ frames_of (sd_feed s b).1 bytes.
Proof.
  unfold frames_of. rewrite run_outputs_cons. simpl. by destruct (sd_feed s b).2.
Qed.

Lemma frames_of_app s xs ys :
  frames_of s (xs ++ ys) = frames_of s xs ++ frames_of (run_state sd_feed s xs) ys.
Proof. unfold frames_of. rewrite run_outputs_app. apply omap_app. Qed.

Lemma frames_of_valid s bytes :
  sd_ok s -> Forall sd_input bytes -> Forall (fun f => sd_valid (sd_bytes f)) (frames_of s bytes).
Proof.
  intros Hs Hi. revert s Hs. induction Hi as [|b bytes Hb Hi IH]; intros s Hs; [constructor|].
  rewrite frames_of_cons. pose proof (sd_feed_ok s b Hs Hb) as Hs'.
  destruct (sd_feed s b).2 eqn:E; simpl; [|auto].
  constructor; [|auto]. apply (sd_feed_some s b) in E as [? _]; auto.
Qed.

(** Every frame is a block of the stream, in order, no byte used twice. *)
Lemma frames_of_scattered s bytes :
  sd_ok s -> Forall sd_input bytes ->
  scattered (sd_bytes <$> frames_of s bytes) (sd_pending s ++ bytes).
Proof.
  intros Hs Hi. revert s Hs. induction Hi as [|b bytes Hb Hi IH]; intros s Hs; [constructor|].
  rewrite frames_of_cons. pose proof (IH _ (sd_feed_ok s b Hs Hb)) as IH'.
  change (b :: bytes) with ([b] ++ bytes). rewrite app_assoc.
  destruct (sd_feed s b).2 as [f|] eqn:E; simpl.
  - apply (sd_feed_some s b) in E as (_ & [noise ->] & Hp); [|done|done].
    rewrite Hp in IH'. rewrite <- app_assoc. by constructor.
  - apply (sd_feed_none s b) in E as [noise ->]; [|done|done].
    rewrite <- app_assoc. by apply scattered_noise.
Qed.

(** Notifications are chunks of the stream; how they are cut is irrelevant. *)
Fixpoint frames_of_chunks (s : St) (chunks : list (list Z)) : list Frame :=
  match chunks with
  | [] => []
  | c :: cs => frames_of s c ++ frames_of_chunks (run_state sd_feed s c) cs
  end.

Lemma frames_of_chunks_concat s chunks :
  frames_of_chunks s chunks = frames_of s (concat chunks).
Proof.
  revert s. induction chunks as [|c cs IH]; intros s; [done|].
  simpl. rewrite frames_of_app, IH. done.
Qed.
End StreamDecoder.
