(* ===== verification/PhoneDriveInput.v ===== *)
(** * Phone input: budgets and gestures

    [cutout-core/src/phone_drive.rs]: the rider's current budgets and their
    text form, the identities of contacts and activations, the gesture of one
    input surface and the input state with its generations.  A text is the
    list of its Unicode scalar values. *)

From S2P Require Import Prelude.

(** ** Budgets *)

Record PhoneDriveLimits := { throttle_milliamps : Z; brake_milliamps : Z }.
Inductive PhoneDriveLimitsError := BadLimits.
#[global] Instance limits_eq_dec : EqDecision PhoneDriveLimits.
Proof. solve_decision. Defined.

Definition default_limits : PhoneDriveLimits :=
  {| throttle_milliamps := 3000; brake_milliamps := 3000 |}.

Definition in_budget_range (milliamps : Z) : bool :=
  bool_decide (1 <= milliamps) && bool_decide (milliamps <= 500000).
Definition limits_new (throttle brake : Z) : result PhoneDriveLimits PhoneDriveLimitsError :=
  if negb (in_budget_range throttle) || negb (in_budget_range brake) then Err BadLimits
  else Ok {| throttle_milliamps := throttle; brake_milliamps := brake |}.

(** [char::is_whitespace] and [str::trim]. *)
Definition is_whitespace (c : Z) : bool :=
  bool_decide (9 <= c <= 13) || bool_decide (c = 32) || bool_decide (c = 133)
  || bool_decide (c = 160) || bool_decide (c = 5760) || bool_decide (8192 <= c <= 8202)
  || bool_decide (c = 8232) || bool_decide (c = 8233) || bool_decide (c = 8239)
  || bool_decide (c = 8287) || bool_decide (c = 12288).
Fixpoint trim_start (text : list Z) : list Z :=
  match text with
  | [] => []
  | c :: rest => if is_whitespace c then trim_start rest else text
  end.
Definition trim (text : list Z) : list Z := rev (trim_start (rev (trim_start text))).

(** [str::split_once]. *)
Fixpoint split_once (separator : Z) (text : list Z) : option (list Z * list Z) :=
  match text with
  | [] => None
  | c :: rest =>
      if bool_decide (c = separator) then Some ([], rest)
      else prod_map (cons c) id <$> split_once separator rest
  end.

(** [str::len] counts the bytes of the UTF-8 form. *)
Definition utf8_len (c : Z) : nat :=
  if bool_decide (c < 128) then 1 else if bool_decide (c < 2048) then 2
  else if bool_decide (c < 65536) then 3 else 4.
Definition str_len (text : list Z) : nat := sum_list (utf8_len <$> text).

Definition is_ascii_digit (c : Z) : bool := bool_decide (48 <= c <= 57).
Definition all_digits (text : list Z) : bool := forallb is_ascii_digit text.
Definition decimal_value (text : list Z) : Z :=
  foldl (fun acc c => 10 * acc + (c - 48)) 0 text.

(** [parse::<u32>] of a text whose characters are all digits. *)
Definition parse_u32 (text : list Z) : option Z :=
  if bool_decide (text = []) || bool_decide (u32_max < decimal_value text) then None
  else Some (decimal_value text).

Definition parse_amp_text (text : list Z) : result Z PhoneDriveLimitsError :=
  let text := trim text in
  let '(whole, fraction) := match split_once 46 text with
                            | Some (whole, fraction) => (whole, Some fraction)
                            | None => (text, None)
                            end in
  if bool_decide (whole = []) || negb (all_digits whole) then Err BadLimits else
  fraction <-? match fraction with
               | Some value =>
                   scale <-? match str_len value with
                             | 1%nat => Ok 100
                             | 2%nat => Ok 10
                             | 3%nat => Ok 1
                             | _ => Err BadLimits
                             end;
                   if negb (all_digits value) then Err BadLimits else
                   parsed <-? ok_or (parse_u32 value) BadLimits;
                   Ok (parsed * scale)
               | None => Ok 0
               end;
  parsed <-? ok_or (parse_u32 whole) BadLimits;
  ok_or (checked_mul u32_max parsed 1000 ≫= fun value => checked_add u32_max value fraction)
    BadLimits.

Definition from_amp_text (throttle brake : list Z)
  : result PhoneDriveLimits PhoneDriveLimitsError :=
  throttle <-? parse_amp_text throttle;
  brake <-? parse_amp_text brake;
  limits_new throttle brake.

(** ** Gestures *)

(** The identities are nonzero [u64]s. *)
Definition PhoneDriveActivationId : Type := Z.
Definition activation_id_new (value : Z) : option PhoneDriveActivationId :=
  if bool_decide (value = 0) then None else Some value.
Definition PhoneDriveContactId : Type := Z.
Definition contact_id_new (value : Z) : option PhoneDriveContactId :=
  if bool_decide (value = 0) then None else Some value.

Inductive PhoneControlMode := ModeDisabled | Buttons | Area.
Inductive PhoneDriveAction := Brake | Throttle.
Inductive PhoneDriveContacts :=
| Invalid
| Released
| Single (contact : PhoneDriveContactId) (region : option PhoneDriveAction)
| Multiple.
Inductive PhoneDriveCancelReason :=
| ConfigurationChanged | ActivationChanged | InputExpired | TransportUnavailable
| ControllerFault | TouchCancelled | InvalidContact | ModeChanged | LayoutChanged
| Navigation | SceneInactive | ConnectionChanged | RegionLeft | MultipleContacts
| ContactReplaced | GenerationExhausted.
Inductive PhoneDriveInputPhase :=
| PhaseIdle
| PhasePressed (action : PhoneDriveAction)
| PhaseCancelled (reason : PhoneDriveCancelReason).
Inductive Gesture :=
| Idle
| Pressed (contact : PhoneDriveContactId) (action : PhoneDriveAction)
| Suppressed (reason : PhoneDriveCancelReason).
Inductive InputEpoch :=
| EpochCurrent (generation : Z) (gesture : Gesture)
| EpochExhausted.
Record PhoneDriveInputState := { mode : PhoneControlMode; epoch : InputEpoch }.
Record PhoneDriveInputSnapshot := {
  snap_mode : PhoneControlMode;
  snap_generation : option Z;
  snap_phase : PhoneDriveInputPhase;
}.

#[global] Instance mode_eq_dec : EqDecision PhoneControlMode.
Proof. solve_decision. Defined.
#[global] Instance action_eq_dec : EqDecision PhoneDriveAction.
Proof. solve_decision. Defined.
#[global] Instance contacts_eq_dec : EqDecision PhoneDriveContacts.
Proof. unfold EqDecision, PhoneDriveContactId. solve_decision. Defined.
#[global] Instance reason_eq_dec : EqDecision PhoneDriveCancelReason.
Proof. solve_decision. Defined.
#[global] Instance phase_eq_dec : EqDecision PhoneDriveInputPhase.
Proof. solve_decision. Defined.
#[global] Instance eta_input : Eta PhoneDriveInputState := fun r =>
  Build_PhoneDriveInputState (mode r) (epoch r).

Definition gesture_phase (self : Gesture) : PhoneDriveInputPhase :=
  match self with
  | Idle => PhaseIdle
  | Pressed _ action => PhasePressed action
  | Suppressed reason => PhaseCancelled reason
  end.

Definition gesture_observe (self : Gesture) (contacts : PhoneDriveContacts) : Gesture :=
  match self, contacts with
  | _, Released => Idle
  | Suppressed reason, _ => Suppressed reason
  | _, Invalid => Suppressed InvalidContact
  | _, Multiple => Suppressed MultipleContacts
  | Idle, Single contact (Some action) => Pressed contact action
  | Idle, Single _ None => Suppressed RegionLeft
  | Pressed contact action, Single observed region =>
      if negb (bool_decide (contact = observed)) then Suppressed ContactReplaced
      else if negb (bool_decide (region = Some action)) then Suppressed RegionLeft
      else self
  end.

Definition default_input : PhoneDriveInputState :=
  {| mode := ModeDisabled; epoch := EpochCurrent 1 Idle |}.

Definition input_snapshot (self : PhoneDriveInputState) : PhoneDriveInputSnapshot :=
  match epoch self with
  | EpochCurrent generation gesture =>
      {| snap_mode := mode self; snap_generation := Some generation;
         snap_phase := gesture_phase gesture |}
  | EpochExhausted =>
      {| snap_mode := mode self; snap_generation := None;
         snap_phase := PhaseCancelled GenerationExhausted |}
  end.

Definition input_cancel (self : PhoneDriveInputState) (reason : PhoneDriveCancelReason)
  : PhoneDriveInputState :=
  self <| epoch := match epoch self with
                   | EpochCurrent generation _ =>
                       match checked_add u64_max generation 1 with
                       | Some generation => EpochCurrent generation (Suppressed reason)
                       | None => EpochExhausted
                       end
                   | EpochExhausted => EpochExhausted
                   end |>.

Definition set_mode (self : PhoneDriveInputState) (m : PhoneControlMode)
  : PhoneDriveInputState :=
  if bool_decide (mode self = m) then self
  else input_cancel (self <| mode := m |>) ModeChanged.

Definition input_observe (self : PhoneDriveInputState) (observed_generation : Z)
    (contacts : PhoneDriveContacts) : PhoneDriveInputState :=
  if bool_decide (mode self = ModeDisabled) then self else
  match epoch self with
  | EpochCurrent generation gesture =>
      if bool_decide (generation = observed_generation)
      then self <| epoch := EpochCurrent generation (gesture_observe gesture contacts) |>
      else self
  | EpochExhausted => self
  end.

(** ** Lemmas on texts *)

Lemma split_once_None c text : split_once c text = None -> c ∉ text.
Proof.
  induction text as [|x rest IH]; simpl; [intros _; apply not_elem_of_nil|].
  case_bool_decide; [done|]. intros E%fmap_None. apply not_elem_of_cons. auto.
Qed.
Lemma split_once_Some c text a b : split_once c text = Some (a, b) <-> text = a ++ c :: b /\ c ∉ a.
Proof.
  split.
  - revert a b. induction text as [|x rest IH]; intros a b; simpl; [done|].
    case_bool_decide; [intros [= <- <-]; subst; split; [done|apply not_elem_of_nil]|].
    intros ([a' b'] & H2 & E)%fmap_Some. injection E as -> ->.
    destruct (IH _ _ H2) as [-> Hn]. split; [done|]. apply not_elem_of_cons. auto.
  - intros [-> Hn]. induction a as [|x a IH]; simpl; [by rewrite bool_decide_true|].
    apply not_elem_of_cons in Hn as [Hx Hn]. rewrite bool_decide_false by congruence.
    by rewrite (IH Hn).
Qed.
Lemma split_once_absent c text : c ∉ text -> split_once c text = None.
Proof.
  intros Hn. destruct (split_once c text) as [[a b]|] eqn:E; [|done].
  apply split_once_Some in E as [-> _]. destruct Hn. set_solver.
Qed.
Lemma all_digits_Forall text : all_digits text = true <-> Forall (fun c => 48 <= c <= 57) text.
Proof.
  unfold all_digits. rewrite forallb_forall, List.Forall_forall. unfold is_ascii_digit.
  split; intros H c Hc; specialize (H c Hc); [by apply bool_decide_eq_true in H|].
  by apply bool_decide_eq_true.
Qed.
Lemma digits_no_dot text : all_digits text = true -> 46 ∉ text.
Proof. rewrite all_digits_Forall, Forall_forall. intros H Hc. apply H in Hc. lia. Qed.
Lemma digits_str_len text : all_digits text = true -> str_len text = length text.
Proof.
  rewrite all_digits_Forall. unfold str_len.
  induction 1 as [|c rest Hc _ IH]; [done|]. rewrite fmap_cons.
  change (utf8_len c + sum_list (utf8_len <$> rest) = S (length rest))%nat. rewrite IH.
  unfold utf8_len. by rewrite bool_decide_true by lia.
Qed.
Lemma decimal_acc text acc :
  all_digits text = true -> 0 <= acc ->
  acc <= foldl (fun acc c => 10 * acc + (c - 48)) acc text.
Proof.
  rewrite all_digits_Forall. intros H. revert acc.
  induction H as [|c rest Hc _ IH]; intros acc Ha; [simpl; lia|].
  simpl. specialize (IH (10 * acc + (c - 48)) ltac:(lia)). lia.
Qed.
Lemma decimal_nonneg text : all_digits text = true -> 0 <= decimal_value text.
Proof. intros H. by apply decimal_acc. Qed.
Lemma decimal_upper text acc :
  all_digits text = true ->
  foldl (fun acc c => 10 * acc + (c - 48)) acc text < (acc + 1) * 10 ^ Z.of_nat (length text).
Proof.
  rewrite all_digits_Forall. intros H. revert acc.
  induction H as [|c rest Hc _ IH]; intros acc; [simpl; lia|]. cbn [foldl length].
  rewrite Nat2Z.inj_succ, Z.pow_succ_r by lia.
  specialize (IH (10 * acc + (c - 48))). nia.
Qed.
Lemma parse_u32_Some text n :
  parse_u32 text = Some n <-> text <> [] /\ n = decimal_value text /\ n <= u32_max.
Proof.
  unfold parse_u32. repeat case_bool_decide; simpl; split; intros; destruct_and?; simplify_eq;
    try done; try lia. split_ands; [done|done|lia].
Qed.

(** The number of thousandths that [decimals] digits after a point stand for. *)
Definition fraction_scale (decimals : nat) : option Z :=
  match decimals with 1%nat => Some 100 | 2%nat => Some 10 | 3%nat => Some 1 | _ => None end.
Lemma fraction_scale_pow k z :
  fraction_scale k = Some z <-> (1 <= k <= 3)%nat /\ z = 10 ^ (3 - Z.of_nat k).
Proof.
  destruct k as [|[|[|[|k]]]]; simpl; split; try done; try lia;
    first [intros [= <-]; split; [lia|reflexivity] | intros [_ ->]; reflexivity].
Qed.

(** The two fields of an amp text, checked and combined. *)
Definition amp_fields (whole : list Z) (fraction : option (list Z)) (n : Z) : Prop :=
  whole <> [] /\ all_digits whole = true /\ n <= u32_max /\
  match fraction with
  | None => n = 1000 * decimal_value whole
  | Some value => all_digits value = true /\ exists scale,
      fraction_scale (length value) = Some scale /\
      n = 1000 * decimal_value whole + decimal_value value * scale
  end.

Lemma milli_sum whole f n :
  all_digits whole = true -> whole <> [] -> 0 <= f ->
  (parsed <-? ok_or (parse_u32 whole) BadLimits;
   ok_or (checked_mul u32_max parsed 1000 ≫= fun v => checked_add u32_max v f) BadLimits) = Ok n
  <-> n = 1000 * decimal_value whole + f /\ n <= u32_max.
Proof.
  intros Hd Hw Hf. pose proof (decimal_nonneg _ Hd). rewrite result_bind_Ok. setoid_rewrite ok_or_Ok.
  setoid_rewrite parse_u32_Some. setoid_rewrite bind_Some. setoid_rewrite checked_mul_Some.
  setoid_rewrite checked_add_Some. split.
  - intros (p & (_ & -> & _) & v & [_ ->] & [Hl ->]). lia.
  - intros [-> Hl]. exists (decimal_value whole). split; [split_ands; [done|done|lia]|].
    exists (decimal_value whole * 1000). lia.
Qed.

Lemma digits_small value k :
  all_digits value = true -> length value = k -> (k <= 3)%nat ->
  value <> [] -> parse_u32 value = Some (decimal_value value).
Proof.
  intros Hd Hl Hk Hn. apply parse_u32_Some. split_ands; [done|done|].
  pose proof (decimal_upper value 0 Hd) as H. fold (decimal_value value) in H. rewrite Hl in H.
  assert (10 ^ Z.of_nat k <= 10 ^ 3) by (apply Z.pow_le_mono_r; lia). unfold u32_max. lia.
Qed.

Lemma parse_amp_fields text n :
  parse_amp_text text = Ok n <->
  match split_once 46 (trim text) with
  | Some (whole, fraction) => amp_fields whole (Some fraction) n
  | None => amp_fields (trim text) None n
  end.
Proof.
  unfold parse_amp_text, amp_fields. cbv zeta.
  assert (Hguard : forall whole, (bool_decide (whole = []) || negb (all_digits whole)) = false
    <-> whole <> [] /\ all_digits whole = true).
  { intros w. rewrite orb_false_iff, bool_decide_eq_false, negb_false_iff. done. }
  destruct (split_once 46 (trim text)) as [[whole fraction]|];
    (destruct (bool_decide _ || _) eqn:G;
     [split; [done|]; intros (Hw & Hd & _);
      rewrite (proj2 (Hguard _) (conj Hw Hd)) in G; done|apply Hguard in G as [Hw Hd]]).
  2:{ cbn [result_bind]. rewrite milli_sum by done. intuition lia. }
  rewrite result_bind_Ok. split.
  - intros (f & E & H). rewrite result_bind_Ok in E. destruct E as (sc & Es & E).
    destruct (all_digits fraction) eqn:Hf; [|done]. cbn [negb] in E.
    rewrite digits_str_len in Es by done.
    assert (Hsc : fraction_scale (length fraction) = Some sc)
      by (destruct (length fraction) as [|[|[|[|]]]]; simpl in *; congruence).
    pose proof (proj1 (fraction_scale_pow _ _) Hsc) as [Hlen ->].
    rewrite (digits_small fraction (length fraction)) in E; [|done|done|lia|by destruct fraction].
    cbn [ok_or result_bind] in E. injection E as <-. pose proof (decimal_nonneg _ Hf).
    apply milli_sum in H as [-> H]; [|done|done|nia]. split_ands; [done|done|done|done|].
    eexists. done.
  - intros (_ & _ & Hn & Hf & sc & Hsc & ->).
    pose proof (proj1 (fraction_scale_pow _ _) Hsc) as [Hlen Esc].
    pose proof (decimal_nonneg _ Hf). assert (0 < sc) by (subst; apply Z.pow_pos_nonneg; lia).
    exists (decimal_value fraction * sc). split; [|apply milli_sum; [done|done|nia|done]].
    rewrite result_bind_Ok. exists sc. rewrite digits_str_len by done. split.
    + destruct (length fraction) as [|[|[|[|]]]]; simpl in *; congruence.
    + rewrite Hf. cbn [negb].
      by rewrite (digits_small fraction (length fraction)); [|done|done|lia|destruct fraction].
Qed.

(** ** Lemmas on gestures *)

Definition gesture_after (g : Gesture) (contacts : list PhoneDriveContacts) : Gesture :=
  foldl gesture_observe g contacts.

Lemma gesture_after_snoc g cs c :
  gesture_after g (cs ++ [c]) = gesture_observe (gesture_after g cs) c.
Proof. unfold gesture_after. by rewrite foldl_app. Qed.

(** A press is held exactly while the contacts since the last complete release
    are observations of one contact in its first region. *)
Definition one_hold (g : Gesture) (contacts : list PhoneDriveContacts)
    (contact : PhoneDriveContactId) (action : PhoneDriveAction) : Prop :=
  exists before n,
    contacts = before ++ replicate (S n) (Single contact (Some action)) /\
    (last before = Some Released \/ before = [] /\ g = Idle).

Lemma gesture_spec g contacts :
  (forall c a, g <> Pressed c a) ->
  (gesture_after g contacts = Idle <->
   last contacts = Some Released \/ contacts = [] /\ g = Idle) /\
  (forall c a, gesture_after g contacts = Pressed c a <-> one_hold g contacts c a).
Proof.
  intros Hg. induction contacts as [|x cs [IHi IHp]] using rev_ind.
  - unfold gesture_after, one_hold. simpl. split; [naive_solver|]. intros c a. split.
    + intros E. by destruct (Hg c a).
    + intros (before & n & E & _). destruct before; done.
  - rewrite gesture_after_snoc, last_snoc. split.
    + split; [|intros [[= ->]|[? ?]]; [by destruct (gesture_after g cs)|by destruct cs]].
      intros H. left. f_equal. revert H.
      destruct (gesture_after g cs), x as [| |? [?|]|]; simpl; repeat case_bool_decide; simpl; done.
    + intros c a. split.
      * intros H. destruct (gesture_after g cs) as [|c' a'|r] eqn:E.
        -- destruct x as [| |c' [a'|]|]; simpl in H; try done. injection H as -> ->.
           exists cs, 0%nat. split; [done|]. by apply IHi.
        -- assert (c' = c /\ a' = a /\ x = Single c (Some a)) as (-> & -> & ->).
           { destruct x as [| |c'' [a''|]|]; simpl in H; try done;
               repeat case_bool_decide; simpl in *; simplify_eq; done. }
           destruct (proj1 (IHp c a) eq_refl) as (before & n & -> & Hb).
           exists before, (S n). split; [|done].
           by rewrite <- app_assoc, <- replicate_S_end.
        -- by destruct x.
      * intros (before & n & E & Hb). rewrite replicate_S_end, app_assoc in E.
        apply app_inj_tail in E as [-> ->]. destruct n as [|n].
        -- rewrite app_nil_r in *. destruct IHi as [_ IHi]. by rewrite (IHi Hb).
        -- replace (gesture_after g (before ++ replicate (S n) (Single c (Some a))))
             with (Pressed c a) by (symmetry; apply IHp; by exists before, n).
           simpl. by rewrite !bool_decide_true.
Qed.

Lemma input_observe_current m g gesture c :
  m <> ModeDisabled ->
  input_observe {| mode := m; epoch := EpochCurrent g gesture |} g c
  = {| mode := m; epoch := EpochCurrent g (gesture_observe gesture c) |}.
Proof.
  intros Hm. unfold input_observe. cbn [mode epoch]. rewrite bool_decide_false by done.
  by rewrite bool_decide_true.
Qed.
Lemma input_observe_stale m g g' gesture c :
  g <> g' ->
  input_observe {| mode := m; epoch := EpochCurrent g gesture |} g' c
  = {| mode := m; epoch := EpochCurrent g gesture |}.
Proof.
  intros Hg. unfold input_observe. cbn [mode epoch]. case_bool_decide; [done|].
  by rewrite bool_decide_false.
Qed.

(** ** Properties *)

(** Amp fields are read exactly: a text is accepted when, without the white
    space around it, it is a whole number of amps, with at most three decimals
    after a point, that is below 2^32 milliamps, and the value is that decimal
    in milliamps, nothing rounded; two fields make budgets exactly when both
    are between 1 mA and 500 A. *)
Theorem amp_text_exact (text other : list Z) (n m : Z) :
  (parse_amp_text text = Ok n <->
   exists whole decimals,
     trim text = whole ++ (if bool_decide (decimals = []) then [] else 46 :: decimals) /\
     whole <> [] /\ all_digits whole = true /\ all_digits decimals = true /\
     (length decimals <= 3)%nat /\
     n = 1000 * decimal_value whole
         + decimal_value decimals * 10 ^ (3 - Z.of_nat (length decimals)) /\
     n <= u32_max) /\
  (from_amp_text text other = Ok {| throttle_milliamps := n; brake_milliamps := m |} <->
   parse_amp_text text = Ok n /\ parse_amp_text other = Ok m /\
   1 <= n <= 500000 /\ 1 <= m <= 500000).
Proof.
  split.
  - rewrite parse_amp_fields. split.
    + destruct (split_once 46 (trim text)) as [[w f]|] eqn:E; intros (Hw & Hd & Hn & Hf).
      * apply split_once_Some in E as [-> _]. destruct Hf as (Hf & sc & Hsc & ->).
        apply fraction_scale_pow in Hsc as [Hl ->]. exists w, f.
        rewrite bool_decide_false by (intros ->; simpl in Hl; lia).
        split_ands; try done. lia.
      * exists (trim text), []. rewrite app_nil_r. subst n. split_ands; try done; [simpl; lia|].
        change (decimal_value []) with 0. lia.
    + intros (w & f & Et & Hw & Hd & Hf & Hl & -> & Hn). rewrite Et.
      pose proof (digits_no_dot _ Hd). case_bool_decide as Ef.
      * subst f. rewrite app_nil_r, split_once_absent by done. unfold amp_fields.
        split_ands; [done|done|done|]. simpl length. change (decimal_value []) with 0. lia.
      * rewrite (proj2 (split_once_Some 46 (w ++ 46 :: f) w f)) by done.
        unfold amp_fields. split_ands; [done|done|done|done|]. eexists. split; [|done].
        apply fraction_scale_pow. split; [|done]. destruct f; simpl in *; [done|lia].
  - unfold from_amp_text. rewrite result_bind_Ok. setoid_rewrite result_bind_Ok.
    assert (Hin : forall z, in_budget_range z = true <-> 1 <= z <= 500000)
      by (intros z; unfold in_budget_range; rewrite andb_true_iff, !bool_decide_eq_true; lia).
    unfold limits_new. split.
    + intros (a & Ea & b & Eb & E). destruct (negb _ || negb _) eqn:G; [done|].
      injection E as -> ->. apply orb_false_iff in G as [G1 G2].
      apply negb_false_iff in G1, G2. apply Hin in G1, G2. done.
    + intros (Ea & Eb & Hn%Hin & Hm%Hin). exists n. split; [done|]. exists m. split; [done|].
      by rewrite Hn, Hm.
Qed.

(** A held press cannot outlive a cancellation and a new one needs a clean
    start: after any cancellation the surface reads as pressed exactly when, in
    the new generation, all contacts lifted and from then on one contact was
    seen, every time in one and the same region; observations made for the
    cancelled generation change nothing. *)
Theorem press_needs_release (s : PhoneDriveInputState) (reason : PhoneDriveCancelReason)
    (generation : Z) (gesture : Gesture) (contacts : list PhoneDriveContacts)
    (action : PhoneDriveAction) :
  mode s <> ModeDisabled -> epoch s = EpochCurrent generation gesture -> generation < u64_max ->
  let cancelled := input_cancel s reason in
  (snap_phase (input_snapshot
     (foldl (fun s c => input_observe s (generation + 1) c) cancelled contacts))
     = PhasePressed action <->
   exists before contact n,
     contacts = before ++ Released :: replicate (S n) (Single contact (Some action))) /\
  foldl (fun s c => input_observe s generation c) cancelled contacts = cancelled.
Proof.
  intros Hm He Hg. cbv zeta.
  assert (Ec : input_cancel s reason
    = {| mode := mode s; epoch := EpochCurrent (generation + 1) (Suppressed reason) |}).
  { destruct s as [md ep]. simpl in *. subst. unfold input_cancel. simpl.
    by rewrite (proj2 (checked_add_Some u64_max generation 1 (generation + 1)) ltac:(lia)). }
  rewrite Ec. split.
  - assert (Ef : forall g, foldl (fun s c => input_observe s (generation + 1) c)
        {| mode := mode s; epoch := EpochCurrent (generation + 1) g |} contacts
      = {| mode := mode s; epoch := EpochCurrent (generation + 1) (gesture_after g contacts) |}).
    { induction contacts as [|c cs IH]; intros g; [done|]. cbn [foldl].
      by rewrite (input_observe_current _ _ _ _ Hm), IH. }
    rewrite Ef. cbn [input_snapshot epoch snap_phase].
    destruct (gesture_spec (Suppressed reason) contacts ltac:(done)) as [_ Hp]. split.
    + intros H. destruct (gesture_after (Suppressed reason) contacts) as [|c a|] eqn:E; try done.
      injection H as ->.
      destruct (proj1 (Hp c action) eq_refl) as (before & n & -> & [Hl|[_ ?]]); [|done].
      apply last_Some in Hl as [pre ->]. exists pre, c, n. by rewrite <- app_assoc.
    + intros (before & c & n & ->).
      enough (H : gesture_after (Suppressed reason)
        (before ++ Released :: replicate (S n) (Single c (Some action))) = Pressed c action)
        by (by rewrite H).
      apply Hp. exists (before ++ [Released]), n. split; [by rewrite <- app_assoc|].
      left. apply last_snoc.
  - induction contacts as [|c cs IH]; [done|]. cbn [foldl].
    by rewrite input_observe_stale by lia.
Qed.

(** ** Executions *)

(** " 3.05 " amps; a fourth decimal and a bare point are refused. *)
Example amp_text_3050 : parse_amp_text [32; 51; 46; 48; 53; 32] = Ok 3050.
Proof. reflexivity. Qed.
Example amp_text_fraction : parse_amp_text [51; 46; 48; 53; 48; 48] = Err BadLimits.
Proof. reflexivity. Qed.
Example amp_text_point : parse_amp_text [51; 46] = Err BadLimits.
Proof. reflexivity. Qed.

Lemma press_needs_release_witness :
  let s := {| mode := Buttons; epoch := EpochCurrent 1 (Pressed 7 Throttle) |} in
  snap_phase (input_snapshot
    (foldl (fun s c => input_observe s 2 c) (input_cancel s Navigation)
       [Single 7 (Some Throttle); Released; Single 8 (Some Brake)])) = PhasePressed Brake.
Proof.
  apply (press_needs_release {| mode := Buttons; epoch := EpochCurrent 1 (Pressed 7 Throttle) |}
           Navigation 1 (Pressed 7 Throttle)); [done|done|unfold u64_max; lia|].
  exists [Single 7 (Some Throttle)], 8, 0%nat. reflexivity.
Defined.
