(* ===== verification/BegodeFrame.v ===== *)
(** * Begode frame reassembly

    [cutout-protocols/src/begode_frame.rs]: the 24-byte frames of a
    Begode/Gotway wheel, recovered one byte at a time from BLE notifications.
    [BegodeFrameReassembler] is the struct; [feed_byte_result],
    [feed_byte_result_at], [expire_idle] and [reset] are its methods.  The
    [ArrayVec] of capacity 24 is a list with its capacity written out. *)

From S2P Require Import Prelude.
From S2P Require Import Parser.

Definition BEGODE_FRAME_LEN : nat := 24.
Definition BEGODE_HEADER : list Z := [0x55; 0xaa].
Definition BEGODE_TERMINATOR : list Z := [0x5a; 0x5a; 0x5a; 0x5a].

Record BegodeFrame := { frame_bytes : list Z }.

Inductive BegodeFrameError := InvalidFrame.

#[global] Instance frame_eq_dec : EqDecision BegodeFrame.
Proof. solve_decision. Defined.

(** [bytes.starts_with(prefix)]. *)
Definition starts_with (bytes pre : list Z) : bool :=
  bool_decide (take (length pre) bytes = pre).

Definition try_from_slice (bytes : list Z) : result BegodeFrame BegodeFrameError :=
  if negb (bool_decide (length bytes = BEGODE_FRAME_LEN))
     || negb (starts_with bytes BEGODE_HEADER)
     || negb (bool_decide (get_range bytes (BEGODE_FRAME_LEN - length BEGODE_TERMINATOR)
                             (length BEGODE_TERMINATOR) = Some BEGODE_TERMINATOR))
  then Err InvalidFrame
  else Ok {| frame_bytes := bytes |}.

Definition tag (f : BegodeFrame) : Z := default 0 (frame_bytes f !! 18%nat).
Definition sub_index (f : BegodeFrame) : Z := default 0 (frame_bytes f !! 19%nat).

Inductive BegodeFrameParseResult :=
| Seeking
| Buffered
| Complete (f : BegodeFrame).

Record BegodeFrameReassembler := {
  buffer : list Z;
  last_byte_ms : option Z;
}.
#[global] Instance eta_reassembler : Eta BegodeFrameReassembler := fun r =>
  Build_BegodeFrameReassembler (buffer r) (last_byte_ms r).

Definition default_reassembler : BegodeFrameReassembler :=
  {| buffer := []; last_byte_ms := None |}.

(** [ArrayVec::try_push]: a full buffer refuses the byte and stays. *)
Definition try_push (cap : nat) (buf : list Z) (b : Z) : result (list Z) unit :=
  if (length buf <? cap)%nat then Ok (buf ++ [b]) else Err tt.

Definition clear_buffer (self : BegodeFrameReassembler) : BegodeFrameReassembler :=
  self <| buffer := [] |> <| last_byte_ms := None |>.

Definition reset (self : BegodeFrameReassembler) : BegodeFrameReassembler := clear_buffer self.

Definition expire_idle (self : BegodeFrameReassembler) (monotonic_ms timeout_ms : Z)
  : BegodeFrameReassembler * bool :=
  match last_byte_ms self with
  | None => (self, false)
  | Some last =>
      if bool_decide (buffer self = [])
         || bool_decide (sat_sub monotonic_ms last <= timeout_ms)
      then (self, false)
      else (clear_buffer self, true)
  end.

Definition single_glitch : list Z := [0x55; 0xaa; 0x5a; 0x55; 0xaa].
Definition double_glitch : list Z := [0x55; 0xaa; 0x5a; 0x5a; 0x55; 0xaa].

Definition keep_trailing_header (self : BegodeFrameReassembler) : BegodeFrameReassembler :=
  self <| buffer := BEGODE_HEADER |>.

Definition apply_embedded_header_resync (self : BegodeFrameReassembler) : BegodeFrameReassembler :=
  if bool_decide (buffer self = single_glitch) || bool_decide (buffer self = double_glitch)
  then keep_trailing_header self else self.

Definition feed_byte_result (self : BegodeFrameReassembler) (byte : Z)
  : BegodeFrameReassembler * result BegodeFrameParseResult BegodeFrameError :=
  if bool_decide (buffer self = []) then
    if bool_decide (byte = 0x55) then
      (self <| buffer := [byte] |> <| last_byte_ms := None |>, Ok Buffered)
    else (self, Ok Seeking)
  else if bool_decide (length (buffer self) = 1%nat) then
    let self1 :=
      if bool_decide (byte = 0xaa) then self <| buffer := buffer self ++ [byte] |>
      else if negb (bool_decide (byte = 0x55)) then clear_buffer self else self in
    (self1, Ok (if bool_decide (buffer self1 = []) then Seeking else Buffered))
  else
    let self1 := match try_push BEGODE_FRAME_LEN (buffer self) byte with
                 | Ok b => self <| buffer := b |>
                 | Err _ => self
                 end in
    let self2 := apply_embedded_header_resync self1 in
    if negb (bool_decide (length (buffer self2) = BEGODE_FRAME_LEN)) then (self2, Ok Buffered)
    else
      let frame := try_from_slice (buffer self2) in
      (clear_buffer self2, match frame with Ok f => Ok (Complete f) | Err e => Err e end).

Definition feed_byte_result_at (self : BegodeFrameReassembler) (byte monotonic_ms : Z)
  : BegodeFrameReassembler * result BegodeFrameParseResult BegodeFrameError :=
  let '(self1, res) := feed_byte_result self byte in
  match res with
  | Err e => (self1, Err e)
  | Ok r => (self1 <| last_byte_ms := if bool_decide (buffer self1 = []) then None
                                      else Some monotonic_ms |>, Ok r)
  end.

(** ** Valid frames *)

(** The specification of a Begode frame. *)
Definition frame_spec (bytes : list Z) : Prop :=
  exists payload, length payload = 18%nat /\
    bytes = BEGODE_HEADER ++ payload ++ BEGODE_TERMINATOR.

Lemma get_range_all bytes start len :
  length bytes = (start + len)%nat -> get_range bytes start len = Some (drop start bytes).
Proof.
  intros Hl. unfold get_range. destruct (Nat.leb_spec (start + len) (length bytes)); [|lia].
  rewrite take_ge; [done|]. rewrite length_drop. lia.
Qed.

Lemma try_from_slice_Ok bytes f :
  try_from_slice bytes = Ok f <-> frame_spec bytes /\ f = {| frame_bytes := bytes |}.
Proof.
  unfold try_from_slice, starts_with, frame_spec. simpl length. split.
  - step_cases; [done|]. intros [= <-].
    destruct_or?; prop_bools. split; [|done].
    rewrite get_range_all in * by (unfold BEGODE_FRAME_LEN in *; simpl in *; lia).
    simplify_eq. exists (take 18 (drop 2 bytes)).
    unfold BEGODE_FRAME_LEN in *. split; [rewrite length_take, length_drop; lia|].
    pose proof (take_drop 2 bytes) as E2. pose proof (take_drop 18 (drop 2 bytes)) as E18.
    rewrite drop_drop in E18. simpl Nat.add in *. simpl Nat.sub in *.
    rewrite H0 in E18. rewrite E18. rewrite H1 in E2. exact (eq_sym E2).
  - intros [(payload & Hl & ->) ->].
    assert (H1 : length (BEGODE_HEADER ++ payload ++ BEGODE_TERMINATOR) = BEGODE_FRAME_LEN)
      by (rewrite !length_app, Hl; done).
    rewrite (bool_decide_eq_true_2 _ H1), get_range_all by (rewrite H1; reflexivity).
    rewrite bool_decide_true by done. simpl. rewrite drop_app_length' by lia.
    rewrite bool_decide_true by done. reflexivity.
Qed.

(** A frame that contains the embedded-header pattern just after its header. *)
Definition has_glitch (bytes : list Z) : bool :=
  bool_decide (take 5 bytes = single_glitch) || bool_decide (take 6 bytes = double_glitch).

(** ** The buffer *)

(** What the reassembler can hold between two bytes: nothing, the first header
    byte, or a header followed by at most 21 bytes that no resync has matched. *)
Definition buffer_ok (b : list Z) : Prop :=
  b = [] \/ b = [0x55] \/
  ((length b < BEGODE_FRAME_LEN)%nat /\ exists rest, b = BEGODE_HEADER ++ rest).

Definition reassembler_ok (s : BegodeFrameReassembler) : Prop := buffer_ok (buffer s).

(** The transition on the buffer alone. *)
Definition feed_buffer (b : list Z) (byte : Z)
  : list Z * result BegodeFrameParseResult BegodeFrameError :=
  let '(s, r) := feed_byte_result {| buffer := b; last_byte_ms := None |} byte in
  (buffer s, r).

Lemma feed_byte_result_buffer s byte :
  buffer (feed_byte_result s byte).1 = (feed_buffer (buffer s) byte).1 /\
  (feed_byte_result s byte).2 = (feed_buffer (buffer s) byte).2.
Proof.
  destruct s as [b t]. unfold feed_buffer, feed_byte_result. cbn [buffer].
  destruct (bool_decide (b = [])); [by destruct (bool_decide _)|].
  destruct (bool_decide (length b = 1%nat)); [by destruct (bool_decide _), (bool_decide _)|].
  unfold apply_embedded_header_resync. destruct (try_push _ b byte); cbn [buffer set_field];
    destruct (_ || _); cbn [buffer set_field keep_trailing_header]; by destruct (negb _).
Qed.

(** Every branch of the collecting state, with the buffer written out. *)
Lemma feed_collecting rest byte :
  (length rest < 22)%nat ->
  feed_buffer (BEGODE_HEADER ++ rest) byte =
    let b := BEGODE_HEADER ++ rest ++ [byte] in
    if bool_decide (b = single_glitch) || bool_decide (b = double_glitch)
    then (BEGODE_HEADER, Ok Buffered)
    else if bool_decide (length rest = 21%nat)
         then ([], match try_from_slice b with Ok f => Ok (Complete f) | Err e => Err e end)
         else (b, Ok Buffered).
Proof.
  intros Hl. unfold feed_buffer, feed_byte_result. cbn [buffer set_field].
  rewrite bool_decide_false by done.
  rewrite bool_decide_false by (simpl; lia).
  unfold try_push. replace (length (BEGODE_HEADER ++ rest) <? BEGODE_FRAME_LEN)%nat with true
    by (symmetry; apply Nat.ltb_lt; unfold BEGODE_FRAME_LEN; simpl; lia).
  unfold apply_embedded_header_resync. cbn [buffer set_field]. rewrite <- app_assoc.
  destruct (bool_decide (_ = single_glitch) || _); [reflexivity|].
  cbn [buffer set_field]. simpl length. rewrite length_app. simpl length.
  destruct (decide (length rest = 21%nat)) as [->|Hn].
  - rewrite !bool_decide_true by reflexivity. reflexivity.
  - rewrite (bool_decide_false (length rest = 21%nat)) by done.
    rewrite bool_decide_false by (unfold BEGODE_FRAME_LEN; lia). reflexivity.
Qed.

(** The states in which the reassembler hunts for a header. *)
Lemma feed_empty byte :
  feed_buffer [] byte = if bool_decide (byte = 0x55) then ([0x55], Ok Buffered) else ([], Ok Seeking).
Proof.
  unfold feed_buffer, feed_byte_result. cbn [buffer]. rewrite bool_decide_true by done.
  case_bool_decide; subst; reflexivity.
Qed.

Lemma feed_one byte :
  feed_buffer [0x55] byte =
    if bool_decide (byte = 0xaa) then (BEGODE_HEADER, Ok Buffered)
    else if bool_decide (byte = 0x55) then ([0x55], Ok Buffered) else ([], Ok Seeking).
Proof.
  unfold feed_buffer, feed_byte_result. cbn [buffer].
  rewrite (bool_decide_false ([85] = [])), (bool_decide_true (length [85] = 1%nat)) by done.
  case_bool_decide; [subst; reflexivity|]. case_bool_decide; subst; reflexivity.
Qed.

(** One step of the buffer, in full: what it keeps and what it answers. *)
Inductive buffer_step (b : list Z) (byte : Z) :
  list Z -> result BegodeFrameParseResult BegodeFrameError -> Prop :=
| bs_keep b' r :
    buffer_ok b' -> b' `suffix_of` (b ++ [byte]) ->
    r = Ok (if bool_decide (b' = []) then Seeking else Buffered) -> buffer_step b byte b' r
| bs_frame f :
    try_from_slice (b ++ [byte]) = Ok f -> buffer_step b byte [] (Ok (Complete f))
| bs_invalid e : buffer_step b byte [] (Err e).

Lemma feed_buffer_step b byte :
  buffer_ok b -> buffer_step b byte (feed_buffer b byte).1 (feed_buffer b byte).2.
Proof.
  assert (Hk : buffer_ok BEGODE_HEADER).
  { right; right. split; [unfold BEGODE_FRAME_LEN; simpl; lia|]. by exists []. }
  assert (H1 : buffer_ok [0x55]) by (by right; left).
  assert (H0 : buffer_ok []) by (by left).
  intros [->|[->|[Hl [rest ->]]]].
  - rewrite feed_empty. case_bool_decide; subst; simpl; apply bs_keep; try done.
    by exists [byte].
  - rewrite feed_one. repeat case_bool_decide; subst; simpl; apply bs_keep; try done.
    + by exists [0x55].
    + by exists [0x55; byte].
  - assert (Hr : (length rest < 22)%nat) by (unfold BEGODE_FRAME_LEN in Hl; simpl in Hl; lia).
    rewrite feed_collecting by done. cbv zeta. rewrite app_assoc.
    destruct (bool_decide (_ = single_glitch) || _) eqn:Hg.
    { apply bs_keep; [done| |done].
      apply orb_true_iff in Hg as [Hg|Hg]; prop_bools; rewrite Hg;
        [by exists [0x55; 0xaa; 0x5a] | by exists [0x55; 0xaa; 0x5a; 0x5a]]. }
    destruct (decide (length rest = 21%nat)) as [E|E].
    + rewrite bool_decide_true by done. simpl snd. simpl fst.
      destruct (try_from_slice _) as [f|e] eqn:Hf; [apply bs_frame; exact Hf|apply bs_invalid].
    + rewrite bool_decide_false by done. apply bs_keep; [|by exists []|done]. right; right.
      rewrite <- app_assoc. split; [|by eexists]. simpl. rewrite length_app. simpl.
      unfold BEGODE_FRAME_LEN. lia.
Qed.

(** ** The decoder interface *)

Definition completed (r : result BegodeFrameParseResult BegodeFrameError) : option BegodeFrame :=
  match r with Ok (Complete f) => Some f | _ => None end.

Lemma feed_step s byte :
  reassembler_ok s ->
  buffer_step (buffer s) byte (buffer (feed_byte_result s byte).1) (feed_byte_result s byte).2.
Proof.
  intros Hs. destruct (feed_byte_result_buffer s byte) as [-> ->]. by apply feed_buffer_step.
Qed.

#[global, program] Instance begode_decoder : StreamDecoder BegodeFrameReassembler BegodeFrame := {|
  sd_feed := fun s b => completed <$$> feed_byte_result s b;
  sd_pending := buffer;
  sd_ok := reassembler_ok;
  sd_bytes := frame_bytes;
  sd_valid := frame_spec;
  sd_input := fun _ => True;
|}.
Next Obligation.
  intros s b Hs _. unfold reassembler_ok. simpl.
  destruct (feed_step s b Hs); [done|by left|by left].
Qed.
Next Obligation.
  intros s b Hs _. simpl. destruct (feed_step s b Hs) as [? ? ? ? ->| |]; simpl; intros;
    [done|done|by exists (buffer s ++ [b]); rewrite app_nil_r].
Qed.
Next Obligation.
  intros s b f Hs _. simpl. destruct (feed_step s b Hs) as [? ? ? ? ->|f' Hf|]; simpl; intros Hc;
    [by case_bool_decide| |done].
  simplify_eq. apply try_from_slice_Ok in Hf as [Hv ->]. simpl. split_ands; [done|reflexivity|done].
Qed.

Lemma default_ok : reassembler_ok default_reassembler.
Proof. by left. Qed.

(** ** Completeness *)

(** A frame without the resync pattern never triggers a resync. *)
Lemma no_resync rest b bytes :
  has_glitch (BEGODE_HEADER ++ rest ++ b :: bytes) = false ->
  bool_decide (BEGODE_HEADER ++ rest ++ [b] = single_glitch)
  || bool_decide (BEGODE_HEADER ++ rest ++ [b] = double_glitch) = false.
Proof.
  unfold has_glitch. intros [G1 G2]%orb_false_iff. apply orb_false_iff. prop_bools.
  split; apply bool_decide_eq_false_2; intros E; [apply G1|apply G2];
    change (b :: bytes) with ([b] ++ bytes);
    rewrite (app_assoc rest), (app_assoc BEGODE_HEADER), E; reflexivity.
Qed.
(** Feeding the payload of a frame without the resync pattern. *)
Lemma feed_payload s rest bytes :
  buffer s = BEGODE_HEADER ++ rest ->
  (length rest + length bytes = 22)%nat -> bytes <> [] ->
  has_glitch (BEGODE_HEADER ++ rest ++ bytes) = false ->
  buffer (run_state sd_feed s bytes) = [] /\
  frames_of s bytes =
    match try_from_slice (BEGODE_HEADER ++ rest ++ bytes) with Ok f => [f] | Err _ => [] end.
Proof.
  revert s rest. induction bytes as [|b bytes IH]; intros s rest Hs Hl Hne Hg; [done|].
  simpl in Hl. rewrite run_state_cons, frames_of_cons. simpl sd_feed.
  destruct (feed_byte_result_buffer s b) as [E1 E2]. rewrite Hs in E1, E2.
  rewrite feed_collecting in E1, E2 by lia. cbn zeta in E1, E2.
  rewrite (no_resync rest b bytes Hg) in E1, E2. unfold relabel. cbn [fst snd].
  destruct bytes as [|b' bytes].
  - rewrite bool_decide_true in E1, E2 by (simpl in Hl; lia). simpl in E1, E2.
    unfold run_state. simpl. split; [exact E1|]. rewrite E2.
    destruct (try_from_slice _); reflexivity.
  - rewrite bool_decide_false in E1, E2 by (simpl in Hl; lia). simpl fst in E1. simpl snd in E2.
    rewrite E2. simpl app.
    destruct (IH (feed_byte_result s b).1 (rest ++ [b])) as [IH1 IH2];
      [exact E1|rewrite length_app; simpl in *; lia|done|rewrite <- app_assoc; exact Hg|].
    rewrite <- app_assoc in IH2. auto.
Qed.

(** Noise without a header byte leaves the hunting reassembler hunting. *)
Lemma feed_noise s noise :
  buffer s = [] -> Forall (fun b => b <> 0x55) noise ->
  buffer (run_state sd_feed s noise) = [] /\ frames_of s noise = [].
Proof.
  revert s. induction noise as [|b noise IH]; intros s Hs Hn; [done|].
  inversion Hn; subst. rewrite run_state_cons, frames_of_cons. simpl sd_feed.
  destruct (feed_byte_result_buffer s b) as [E1 E2]. rewrite Hs, feed_empty in E1, E2.
  rewrite bool_decide_false in E1, E2 by done. unfold relabel. cbn [fst snd].
  rewrite E2. simpl. by apply IH.
Qed.

(** The two header bytes from the hunting state. *)
Lemma feed_header s :
  buffer s = [] ->
  buffer (run_state sd_feed s BEGODE_HEADER) = BEGODE_HEADER /\ frames_of s BEGODE_HEADER = [].
Proof.
  intros Hs. unfold BEGODE_HEADER. rewrite !run_state_cons, !frames_of_cons. simpl sd_feed.
  unfold relabel. cbn [fst snd].
  destruct (feed_byte_result_buffer s 0x55) as [E1 E2]. rewrite Hs in E1, E2.
  destruct (feed_byte_result_buffer (feed_byte_result s 0x55).1 0xaa) as [E3 E4].
  rewrite E1 in E3, E4. rewrite E2. simpl. rewrite E4. unfold run_state. simpl. by rewrite E3.
Qed.

(** One frame from the hunting state. *)
Lemma feed_frame s f :
  buffer s = [] -> frame_spec f -> has_glitch f = false ->
  buffer (run_state sd_feed s f) = [] /\ frames_of s f = [{| frame_bytes := f |}].
Proof.
  intros Hs Hf Hg. pose proof Hf as (payload & Hl & ->).
  destruct (feed_header s Hs) as [H1 H2].
  rewrite run_state_app, frames_of_app, H2.
  destruct (feed_payload (run_state sd_feed s BEGODE_HEADER) [] (payload ++ BEGODE_TERMINATOR))
    as [H3 H4]; [by rewrite H1|rewrite length_app, Hl; reflexivity
                |by destruct payload|exact Hg|].
  split; [exact H3|]. rewrite H4. cbn [app].
  destruct (try_from_slice_Ok (BEGODE_HEADER ++ payload ++ BEGODE_TERMINATOR)
              {| frame_bytes := BEGODE_HEADER ++ payload ++ BEGODE_TERMINATOR |}) as [_ H].
  cbn [app] in H. rewrite H; [done|]. split; [exact Hf|done].
Qed.

(** ** Timed feeding *)

Definition timed_ok (s : BegodeFrameReassembler) : Prop :=
  reassembler_ok s /\ (last_byte_ms s = None <-> buffer s = []).

Inductive TimedCall :=
| TFeed (byte now : Z)
| TExpire (now timeout : Z)
| TReset.

Definition timed_step (s : BegodeFrameReassembler) (c : TimedCall)
  : BegodeFrameReassembler * option BegodeFrame :=
  match c with
  | TFeed b now => completed <$$> feed_byte_result_at s b now
  | TExpire now timeout => ((expire_idle s now timeout).1, None)
  | TReset => (reset s, None)
  end.

Lemma feed_at_buffer s b now :
  buffer (feed_byte_result_at s b now).1 = buffer (feed_byte_result s b).1 /\
  (feed_byte_result_at s b now).2 = (feed_byte_result s b).2.
Proof.
  unfold feed_byte_result_at. destruct (feed_byte_result s b) as [[buf l] [r|e]]; done.
Qed.

(** A rejected frame has already been dropped, with its arrival time. *)
Lemma feed_err s b e :
  (feed_byte_result s b).2 = Err e -> last_byte_ms (feed_byte_result s b).1 = None.
Proof.
  unfold feed_byte_result.
  destruct (bool_decide (buffer s = [])); [by destruct (bool_decide _)|].
  destruct (bool_decide (length (buffer s) = 1%nat)); [done|].
  set (s2 := apply_embedded_header_resync _). cbv zeta. destruct (negb _); [done|].
  intros _. unfold clear_buffer. by destruct s2.
Qed.

#[global] Instance timed_invariant : Invariant timed_step timed_ok.
Proof.
  intros s [b now|now timeout|] [Hs Ht]; cbn [timed_step relabel fst].
  - destruct (feed_at_buffer s b now) as [E1 _].
    split; [unfold reassembler_ok; rewrite E1; destruct (feed_step s b Hs); [done|by left|by left]|].
    rewrite E1. pose proof (feed_step s b Hs) as Hb. pose proof (feed_err s b) as He.
    unfold feed_byte_result_at. destruct (feed_byte_result s b) as [[buf l] r]. simpl in *.
    inversion Hb; subst; simpl; try case_bool_decide; try tauto; try (split; done).
    split; [done|intros _; by apply (He e)].
  - unfold expire_idle, clear_buffer. destruct s as [buf l]. simpl in *.
    destruct l; [destruct (_ || _)|]; split; try assumption; [by left|done].
  - destruct s. split; [by left|done].
Qed.

(** ** Properties *)

(** Whatever bytes the radio delivers and however the notifications cut
    them, every frame the reassembler emits is a well-formed 24-byte frame, and
    the frames are blocks of the byte stream, in order and sharing no byte;
    cutting the stream differently never changes the frames. *)
Theorem begode_stream_sound (chunks : list (list Z)) :
  let fs := frames_of_chunks default_reassembler chunks in
  fs = frames_of default_reassembler (concat chunks) /\
  Forall (fun f => frame_spec (frame_bytes f)) fs /\
  scattered (frame_bytes <$> fs) (concat chunks).
Proof.
  cbv zeta. rewrite frames_of_chunks_concat. split; [done|]. split.
  - exact (frames_of_valid (Frame := BegodeFrame) default_reassembler _ default_ok
           (Forall_true _ _ (fun _ => I))).
  - exact (frames_of_scattered (Frame := BegodeFrame) default_reassembler _ default_ok
           (Forall_true _ _ (fun _ => I))).
Qed.

(** No frame is lost: a stream of valid frames, with any noise that holds
    no header byte before each of them, is decoded to exactly those frames in
    order, provided no frame carries the embedded-header pattern that the
    resync reserves. *)
Theorem begode_stream_complete (s : BegodeFrameReassembler) (items : list (list Z * list Z)) :
  buffer s = [] ->
  Forall (fun '(noise, f) => Forall (fun b => b <> 0x55) noise /\
                             frame_spec f /\ has_glitch f = false) items ->
  frames_of s (concat ((fun '(noise, f) => noise ++ f) <$> items)) =
    (fun '(_, f) => {| frame_bytes := f |}) <$> items.
Proof.
  revert s. induction items as [|[noise f] items IH]; intros s Hs Hi; [done|].
  apply Forall_cons in Hi as [(Hn & Hf & Hg) Hi']. cbn [fmap list_fmap concat].
  rewrite <- app_assoc, !frames_of_app.
  destruct (feed_noise s noise Hs Hn) as [H1 H2].
  destruct (feed_frame _ f H1 Hf Hg) as [H3 H4].
  rewrite H2, H4, (IH _ H3 Hi'). done.
Qed.

(** A truncated frame does not cost the next one: after a header whose
    frame was cut to one or two terminator bytes, a whole frame is decoded. *)
Theorem truncated_frame_resyncs (s : BegodeFrameReassembler) (two : bool) (f : list Z) :
  buffer s = [] -> frame_spec f -> has_glitch f = false ->
  frames_of s (BEGODE_HEADER ++ (if two then [0x5a; 0x5a] else [0x5a]) ++ f)
    = [{| frame_bytes := f |}].
Proof.
  intros Hs Hf Hg. pose proof Hf as (payload & Hl & ->).
  set (t := if two then _ else _).
  assert (Hp : buffer (run_state sd_feed s (BEGODE_HEADER ++ t ++ BEGODE_HEADER)) = BEGODE_HEADER /\
               frames_of s (BEGODE_HEADER ++ t ++ BEGODE_HEADER) = []).
  { destruct s as [b l]. simpl in Hs. subst b t. destruct two; vm_compute; done. }
  destruct Hp as [H1 H2]. rewrite (app_assoc t), (app_assoc BEGODE_HEADER), frames_of_app, H2.
  destruct (feed_payload _ [] (payload ++ BEGODE_TERMINATOR) H1)
    as [_ H4]; [rewrite length_app, Hl; reflexivity|by destruct payload|exact Hg|].
  rewrite H4. cbn [app].
  destruct (try_from_slice_Ok (BEGODE_HEADER ++ payload ++ BEGODE_TERMINATOR)
              {| frame_bytes := BEGODE_HEADER ++ payload ++ BEGODE_TERMINATOR |}) as [_ H].
  cbn [app] in H. rewrite H; [done|]. split; [exact Hf|done].
Qed.

(** Idle expiry: however bytes, expiries and resets are interleaved, a
    partial frame has an arrival time exactly while it exists; it is dropped
    exactly when its last byte is older than the timeout, and then the
    reassembler hunts for a header again. *)
Theorem idle_partial_frame_expires (calls : list TimedCall) (now timeout : Z) :
  let s := run_state timed_step default_reassembler calls in
  let '(s', dropped) := expire_idle s now timeout in
  (dropped = true <-> exists last, last_byte_ms s = Some last /\ buffer s <> [] /\
                                   timeout < sat_sub now last) /\
  (last_byte_ms s = None <-> buffer s = []) /\
  (if dropped then buffer s' = [] /\ last_byte_ms s' = None else s' = s).
Proof.
  cbv zeta. set (s := run_state _ _ _).
  assert (Hs : timed_ok s).
  { apply run_invariant; [exact timed_invariant|]. split; [exact default_ok|done]. }
  destruct Hs as [_ Ht]. unfold expire_idle. destruct (last_byte_ms s) as [last|] eqn:El.
  - destruct (bool_decide (buffer s = []) || _) eqn:Hb; prop_bools.
    + split; [|done]. split; [done|]. intros (l & [= <-] & Hne & Hlt).
      destruct Hb; prop_bools; [done|lia].
    + unfold clear_buffer. destruct s as [b l]. simpl in *.
      split; [|split; [exact Ht|done]]. split; [|done]. intros _. exists last. split_ands; auto; lia.
  - split; [|done]. split; [done|]. intros (l & [=] & _).
Qed.

(** ** Witnesses *)

Definition sample_frame : list Z :=
  BEGODE_HEADER ++ replicate 16 1 ++ [0; 0x18] ++ BEGODE_TERMINATOR.

Lemma sample_frame_spec : frame_spec sample_frame.
Proof. exists (replicate 16 1 ++ [0; 0x18]). split; reflexivity. Defined.

Lemma begode_stream_complete_witness :
  frames_of default_reassembler ([9; 9] ++ sample_frame ++ sample_frame)
    = [{| frame_bytes := sample_frame |}; {| frame_bytes := sample_frame |}].
Proof.
  apply (begode_stream_complete default_reassembler [([9; 9], sample_frame); ([], sample_frame)]);
    [reflexivity|].
  repeat constructor; try lia; apply sample_frame_spec.
Defined.

Lemma truncated_frame_resyncs_witness :
  frames_of default_reassembler ([0x55; 0xaa; 0x5a] ++ sample_frame)
    = [{| frame_bytes := sample_frame |}].
Proof.
  apply (truncated_frame_resyncs default_reassembler false sample_frame);
    [reflexivity | apply sample_frame_spec | reflexivity].
Defined.
