(* ===== verification/VeteranFrame.v ===== *)
(** * Veteran frame reassembly

    [cutout-protocols/src/veteran_frame.rs]: the length-prefixed frames of
    Veteran/LeaperKim/NOSFET wheels ([dc 5a 5c len ...]), with a CRC32 trailer
    on the long ones.  The checksum is the [crc32fast] crate's: it is the
    parameter [crc32] of the section, and nothing is assumed of it.  The
    [ArrayVec] of capacity 259 is a list with its capacity written out; a typed
    size ([Quantity<Information, _, usize>]) is a [nat]. *)

From S2P Require Import Prelude.
From S2P Require Import Parser.

Definition MAX_VETERAN_FRAME_LEN : nat := 259.
Definition VETERAN_MAGIC : list Z := [0xdc; 0x5a; 0x5c].
Definition VETERAN_SHORT_FRAME_MAX_LEN : Z := 38.

Definition veteran_declared_size_from_wire (value : Z) : nat := Z.to_nat value.
Definition veteran_complete_frame_size (declared : nat) : nat := declared + 4.
Definition veteran_crc_offset (declared : nat) : nat := declared.

Record VeteranFrame := { frame_bytes : list Z }.

Inductive VeteranReassemblyError :=
| OversizedFrame (claimed max : nat)
| CrcMismatch
| InvalidFrame.

Inductive VeteranFrameParseResult :=
| Seeking
| Buffered
| Complete (f : VeteranFrame).

Inductive VeteranFrameParseState := SeekingMagic0 | SeekingMagic1 | SeekingMagic2 | Collecting.

Record VeteranFrameReassembler := {
  buffer : list Z;
  state : VeteranFrameParseState;
}.
#[global] Instance eta_reassembler : Eta VeteranFrameReassembler := fun r =>
  Build_VeteranFrameReassembler (buffer r) (state r).

Definition default_reassembler : VeteranFrameReassembler :=
  {| buffer := []; state := SeekingMagic0 |}.

Definition try_from_slice (bytes : list Z) : result VeteranFrame VeteranReassemblyError :=
  if negb (bool_decide (take (length VETERAN_MAGIC) bytes = VETERAN_MAGIC)) then Err InvalidFrame else
  match bytes !! 3%nat with
  | None => Err InvalidFrame
  | Some len =>
      if negb (bool_decide (length bytes =
                 veteran_complete_frame_size (veteran_declared_size_from_wire len)))
      then Err InvalidFrame
      else if (MAX_VETERAN_FRAME_LEN <? length bytes)%nat then Err InvalidFrame
      else Ok {| frame_bytes := bytes |}
  end.

Definition has_pending_bytes (self : VeteranFrameReassembler) : bool :=
  negb (bool_decide (buffer self = [])).

Definition reset (self : VeteranFrameReassembler) : VeteranFrameReassembler :=
  self <| buffer := [] |> <| state := SeekingMagic0 |>.

(** The buffer is passed and returned: a failed push clears it. *)
Definition push_candidate_byte (buf : list Z) (b : Z) : list Z * result unit VeteranReassemblyError :=
  if (length buf <? MAX_VETERAN_FRAME_LEN)%nat then (buf ++ [b], Ok tt)
  else ([], Err (OversizedFrame (length buf + 1) MAX_VETERAN_FRAME_LEN)).

Definition veteran_expected_len (bytes : list Z) : option nat :=
  veteran_complete_frame_size <$> (veteran_declared_size_from_wire <$> byte bytes 3).

Definition veteran_uses_crc (bytes : list Z) : bool :=
  match byte bytes 3 with
  | Some len => bool_decide (VETERAN_SHORT_FRAME_MAX_LEN < len)
  | None => false
  end.

Section Checksum.
(** [crc32fast::hash]. *)
Variable crc32 : list Z -> Z.

Definition veteran_crc_matches (bytes : list Z) : bool :=
  match veteran_declared_size_from_wire <$> byte bytes 3 with
  | None => false
  | Some declared_len =>
      match be_u32 bytes (veteran_crc_offset declared_len) with
      | None => false
      | Some expected_crc =>
          match get_range bytes 0 declared_len with
          | None => false
          | Some crc_bytes => bool_decide (crc32 crc_bytes = expected_crc)
          end
      end
  end.

Definition try_finish (buf : list Z)
  : list Z * result (option VeteranFrame) VeteranReassemblyError :=
  match veteran_expected_len buf with
  | None => (buf, Ok None)
  | Some expected_len =>
      if (length buf <? expected_len)%nat then (buf, Ok None)
      else if veteran_uses_crc buf && negb (veteran_crc_matches buf) then ([], Err CrcMismatch)
      else match try_from_slice buf with
           | Err e => (buf, Err e)
           | Ok frame => ([], Ok (Some frame))
           end
  end.

Definition push_to (buf : list Z) (b : Z) (next : VeteranFrameParseState)
  : list Z * result (VeteranFrameParseState * option VeteranFrame) VeteranReassemblyError :=
  match push_candidate_byte buf b with
  | (buf', Ok _) => (buf', Ok (next, None))
  | (buf', Err e) => (buf', Err e)
  end.

(** The tail shared by [SeekingMagic2] and [Collecting]. *)
Definition push_and_finish (buf : list Z) (b : Z)
  : list Z * result (VeteranFrameParseState * option VeteranFrame) VeteranReassemblyError :=
  match push_candidate_byte buf b with
  | (buf', Err e) => (buf', Err e)
  | (buf', Ok _) =>
      match try_finish buf' with
      | (buf'', Err e) => (buf'', Err e)
      | (buf'', Ok frame) =>
          (buf'', Ok (match frame with Some _ => SeekingMagic0 | None => Collecting end, frame))
      end
  end.

Definition feed_byte (self : VeteranFrameParseState) (b : Z) (buf : list Z)
  : list Z * result (VeteranFrameParseState * option VeteranFrame) VeteranReassemblyError :=
  match self with
  | SeekingMagic0 =>
      if bool_decide (b = 0xdc) then push_to [] b SeekingMagic1
      else (buf, Ok (SeekingMagic0, None))
  | SeekingMagic1 =>
      if bool_decide (b = 0x5a) then push_to buf b SeekingMagic2
      else if bool_decide (b = 0xdc) then push_to [] b SeekingMagic1
      else ([], Ok (SeekingMagic0, None))
  | SeekingMagic2 =>
      if bool_decide (b = 0x5c) then push_and_finish buf b
      else if bool_decide (b = 0xdc) then push_to [] b SeekingMagic1
      else ([], Ok (SeekingMagic0, None))
  | Collecting => push_and_finish buf b
  end.

Definition feed_byte_result (self : VeteranFrameReassembler) (b : Z)
  : VeteranFrameReassembler * result VeteranFrameParseResult VeteranReassemblyError :=
  match feed_byte (state self) b (buffer self) with
  | (buf, Err e) => (reset (self <| buffer := buf |>), Err e)
  | (buf, Ok (st, frame)) =>
      let self1 := self <| buffer := buf |> <| state := st |> in
      (self1, Ok (match frame with
                  | Some f => Complete f
                  | None => if bool_decide (buffer self1 = []) then Seeking else Buffered
                  end))
  end.

(** ** Valid frames *)

(** The specification of a frame: magic, length byte, that many bytes, and
    above the short limit a trailer that is the checksum of what precedes. *)
Definition frame_spec (bytes : list Z) : Prop :=
  exists len body, is_byte len /\ bytes = VETERAN_MAGIC ++ len :: body /\
    length body = Z.to_nat len /\
    (VETERAN_SHORT_FRAME_MAX_LEN < len ->
       be_u32 bytes (Z.to_nat len) = Some (crc32 (take (Z.to_nat len) bytes))).

(** Between two bytes: the part of the magic seen, or a magic whose declared
    length is not reached. *)
Definition reassembler_ok (s : VeteranFrameReassembler) : Prop :=
  match state s with
  | SeekingMagic0 => buffer s = []
  | SeekingMagic1 => buffer s = [0xdc]
  | SeekingMagic2 => buffer s = [0xdc; 0x5a]
  | Collecting =>
      buffer s = VETERAN_MAGIC \/
      exists len body, is_byte len /\ buffer s = VETERAN_MAGIC ++ len :: body /\
                       (length body < Z.to_nat len)%nat
  end.

(** A complete candidate: either its checksum fails or it is a valid frame. *)
Lemma try_finish_full len body :
  is_byte len -> length body = Z.to_nat len ->
  let bytes := VETERAN_MAGIC ++ len :: body in
  try_finish bytes =
    if bool_decide (VETERAN_SHORT_FRAME_MAX_LEN < len) && negb (veteran_crc_matches bytes)
    then ([], Err CrcMismatch) else ([], Ok (Some {| frame_bytes := bytes |})).
Proof.
  intros Hb Hl bytes. unfold try_finish, veteran_expected_len, veteran_uses_crc, byte.
  replace (bytes !! 3%nat) with (Some len) by reflexivity. cbn [fmap option_fmap option_map].
  unfold veteran_complete_frame_size, veteran_declared_size_from_wire.
  assert (Hlen : length bytes = (Z.to_nat len + 4)%nat) by (unfold bytes; simpl; lia).
  rewrite Hlen, Nat.ltb_irrefl. destruct (_ && _); [done|].
  unfold try_from_slice. replace (bytes !! 3%nat) with (Some len) by reflexivity.
  rewrite bool_decide_true by reflexivity.
  unfold veteran_complete_frame_size, veteran_declared_size_from_wire, MAX_VETERAN_FRAME_LEN.
  rewrite bool_decide_true by exact Hlen. rewrite Hlen. unfold is_byte in Hb.
  replace (259 <? Z.to_nat len + 4)%nat with false by (symmetry; apply Nat.ltb_ge; lia). done.
Qed.

Lemma try_finish_partial len body :
  (length body < Z.to_nat len)%nat ->
  let bytes := VETERAN_MAGIC ++ len :: body in try_finish bytes = (bytes, Ok None).
Proof.
  intros Hl bytes. unfold try_finish, veteran_expected_len, byte.
  replace (bytes !! 3%nat) with (Some len) by reflexivity. simpl.
  unfold veteran_complete_frame_size, veteran_declared_size_from_wire.
  replace (_ <? _)%nat with true; [done|]. symmetry. apply Nat.ltb_lt. lia.
Qed.

(** The checksum test is the specification's. *)
Lemma crc_matches_spec len body :
  is_byte len -> length body = Z.to_nat len ->
  let bytes := VETERAN_MAGIC ++ len :: body in
  veteran_crc_matches bytes = true <->
    be_u32 bytes (Z.to_nat len) = Some (crc32 (take (Z.to_nat len) bytes)).
Proof.
  intros Hb Hl bytes. unfold veteran_crc_matches, byte, veteran_crc_offset.
  replace (bytes !! 3%nat) with (Some len) by reflexivity. cbn [fmap option_fmap option_map].
  unfold veteran_declared_size_from_wire.
  destruct (be_u32 bytes (Z.to_nat len)) as [v|]; [|done].
  destruct (get_range bytes 0 (Z.to_nat len)) as [bs|] eqn:E.
  - apply get_range_Some in E as [_ ->]. rewrite drop_0, bool_decide_eq_true.
    split; [intros ->; done|intros [=]; done].
  - unfold get_range in E. destruct (Nat.leb_spec (0 + Z.to_nat len) (length bytes)); [done|].
    unfold bytes in *. simpl in *. lia.
Qed.

(** ** One step *)

(** What a byte can do in a well-formed state.  No branch is the oversized
    buffer or the structurally invalid frame. *)
Inductive feed_outcome (s : VeteranFrameReassembler) (b : Z) :
  VeteranFrameReassembler -> result VeteranFrameParseResult VeteranReassemblyError -> Prop :=
| fo_keep s' r :
    reassembler_ok s' -> buffer s' `suffix_of` (buffer s ++ [b]) ->
    (r = Seeking /\ buffer s' = [] \/ r = Buffered /\ buffer s' <> []) ->
    feed_outcome s b s' (Ok r)
| fo_frame f :
    frame_bytes f = buffer s ++ [b] -> frame_spec (frame_bytes f) ->
    feed_outcome s b default_reassembler (Ok (Complete f))
| fo_crc :
    feed_outcome s b default_reassembler (Err CrcMismatch).

Lemma push_small buf b :
  (length buf < 259)%nat -> push_candidate_byte buf b = (buf ++ [b], Ok tt).
Proof.
  intros H. unfold push_candidate_byte, MAX_VETERAN_FRAME_LEN.
  replace (length buf <? 259)%nat with true by (symmetry; by apply Nat.ltb_lt). done.
Qed.

(** The body grows by one byte: still partial, or complete. *)
Lemma push_and_finish_body len body b :
  is_byte len -> (length body < Z.to_nat len)%nat ->
  let bytes := VETERAN_MAGIC ++ len :: (body ++ [b]) in
  push_and_finish (VETERAN_MAGIC ++ len :: body) b =
    if (length body + 1 <? Z.to_nat len)%nat then (bytes, Ok (Collecting, None))
    else if bool_decide (VETERAN_SHORT_FRAME_MAX_LEN < len) && negb (veteran_crc_matches bytes)
         then ([], Err CrcMismatch)
         else ([], Ok (SeekingMagic0, Some {| frame_bytes := bytes |})).
Proof.
  intros Hb Hl. cbv zeta. unfold push_and_finish. unfold is_byte in Hb.
  rewrite push_small by (simpl; lia). rewrite <- app_assoc. cbn [app].
  destruct (Nat.ltb_spec (length body + 1) (Z.to_nat len)).
  - pose proof (try_finish_partial len (body ++ [b])) as E. cbv zeta in E. cbn [app] in E.
    rewrite E; [done|]. rewrite length_app. simpl. lia.
  - pose proof (try_finish_full len (body ++ [b]) Hb) as E. cbv zeta in E. cbn [app] in E.
    rewrite E; [by destruct (_ && _)|]. rewrite length_app. simpl. lia.
Qed.

(** The length byte itself: it completes the frame only when it is zero. *)
Lemma push_and_finish_len len :
  is_byte len ->
  let bytes := VETERAN_MAGIC ++ [len] in
  push_and_finish VETERAN_MAGIC len =
    if bool_decide (len = 0) then ([], Ok (SeekingMagic0, Some {| frame_bytes := bytes |}))
    else (bytes, Ok (Collecting, None)).
Proof.
  intros Hb. cbv zeta. unfold push_and_finish. rewrite push_small by (simpl; lia).
  case_bool_decide as E.
  - subst. pose proof (try_finish_full 0 [] Hb eq_refl) as H. cbv zeta in H. rewrite H. done.
  - pose proof (try_finish_partial len []) as H. cbv zeta in H. unfold is_byte in Hb.
    rewrite H; [done|simpl; lia].
Qed.

Lemma frame_spec_full len body :
  is_byte len -> length body = Z.to_nat len ->
  bool_decide (VETERAN_SHORT_FRAME_MAX_LEN < len)
    && negb (veteran_crc_matches (VETERAN_MAGIC ++ len :: body)) = false ->
  frame_spec (VETERAN_MAGIC ++ len :: body).
Proof.
  intros Hb Hl Hc. exists len, body. split_ands; auto. intros Hlen.
  apply crc_matches_spec; auto. rewrite bool_decide_true in Hc by done. simpl in Hc.
  by apply negb_false_iff in Hc.
Qed.

Lemma veteran_feed_step s b :
  is_byte b -> reassembler_ok s ->
  feed_outcome s b (feed_byte_result s b).1 (feed_byte_result s b).2.
Proof.
  destruct s as [buf st]. intros Hb Hs. unfold reassembler_ok in Hs. cbn [state buffer] in Hs.
  assert (Hd : feed_outcome {| buffer := buf; state := st |} b {| buffer := [0xdc]; state := SeekingMagic1 |} (Ok Buffered) \/ b <> 0xdc).
  { destruct (Z.eq_dec b 0xdc) as [->|]; [left|by right].
    apply fo_keep; [done|by eexists|]. right; done. }
  assert (H0 : feed_outcome {| buffer := buf; state := st |} b default_reassembler (Ok Seeking)).
  { apply fo_keep; [done|by exists (buf ++ [b]); rewrite app_nil_r|by left]. }
  unfold feed_byte_result, feed_byte, push_to. cbn [state buffer].
  destruct st; subst.
  - case_bool_decide; [destruct Hd; [by subst|done]|exact H0].
  - case_bool_decide; [subst; apply fo_keep; [done|by exists []|by right]|].
    case_bool_decide; [destruct Hd; [by subst|done]|exact H0].
  - case_bool_decide.
    { subst. apply fo_keep; [by left|by exists []|by right]. }
    case_bool_decide; [destruct Hd; [by subst|done]|exact H0].
  - destruct Hs as [->|(len & body & Hlb & -> & Hl)].
    + rewrite push_and_finish_len by done. case_bool_decide.
      * subst. apply fo_frame; [done|]. exists 0, []. split_ands; try done.
      * apply fo_keep; [|by exists []|by right]. right. exists b, []. unfold is_byte in *.
        split_ands; try done; simpl; lia.
    + rewrite push_and_finish_body by done. destruct (Nat.ltb_spec (length body + 1) (Z.to_nat len)).
      * apply fo_keep; [|by exists []|by right]. right. exists len, (body ++ [b]).
        split_ands; auto. rewrite length_app. simpl. lia.
      * destruct (_ && _) eqn:E; [apply fo_crc|]. apply fo_frame; [done|].
        apply frame_spec_full; [done| |done]. rewrite length_app. simpl. lia.
Qed.

Definition completed (r : result VeteranFrameParseResult VeteranReassemblyError) : option VeteranFrame :=
  match r with Ok (Complete f) => Some f | _ => None end.

(** ** The decoder interface *)

#[local, program] Instance veteran_decoder : StreamDecoder VeteranFrameReassembler VeteranFrame := {|
  sd_feed := fun s b => completed <$$> feed_byte_result s b;
  sd_pending := buffer;
  sd_ok := reassembler_ok;
  sd_bytes := frame_bytes;
  sd_valid := frame_spec;
  sd_input := is_byte;
|}.
Next Obligation.
  intros s b Hs Hb. simpl. by destruct (veteran_feed_step s b Hb Hs).
Qed.
Next Obligation.
  intros s b Hs Hb. simpl.
  destruct (veteran_feed_step s b Hb Hs) as [? ? ? ? [[-> ?]|[-> ?]]| |]; simpl; intros;
    [done|done|done|by exists (buffer s ++ [b]); rewrite app_nil_r].
Qed.
Next Obligation.
  intros s b f Hs Hb. simpl.
  destruct (veteran_feed_step s b Hb Hs) as [? ? ? ? [[-> ?]|[-> ?]]|f' Hf Hv|]; simpl; intros; try done.
  simplify_eq. rewrite <- Hf. split_ands; [done|reflexivity|done].
Qed.

Lemma veteran_default_ok : reassembler_ok default_reassembler.
Proof. done. Qed.

Definition collected (s : VeteranFrameReassembler) (bytes : list Z) : Prop :=
  state s = Collecting /\ buffer s = bytes.

(** Feeding one byte, in terms of the byte machine. *)
Lemma feed_result s b buf st o :
  feed_byte (state s) b (buffer s) = (buf, Ok (st, o)) ->
  (sd_feed s b).1 = {| buffer := buf; state := st |} /\ (sd_feed s b).2 = o.
Proof.
  intros E. simpl. unfold feed_byte_result. rewrite E. destruct s, o; simpl; [done|].
  by case_bool_decide.
Qed.

(** Collecting a body that completes a valid frame. *)
Lemma collect_body s len body rest :
  is_byte len -> rest <> [] -> length (body ++ rest) = Z.to_nat len ->
  frame_spec (VETERAN_MAGIC ++ len :: (body ++ rest)) ->
  collected s (VETERAN_MAGIC ++ len :: body) ->
  run_state sd_feed s rest = default_reassembler /\
  frames_of s rest = [{| frame_bytes := VETERAN_MAGIC ++ len :: (body ++ rest) |}].
Proof.
  intros Hb Hne Hl Hf. revert s body Hl Hf Hne.
  induction rest as [|b rest IH]; intros s body Hl Hf Hne [Hst Hbuf]; [done|].
  rewrite length_app in Hl. simpl in Hl. rewrite run_state_cons, frames_of_cons.
  pose proof (push_and_finish_body len body b Hb ltac:(lia)) as E. cbv zeta in E.
  assert (Hfb : feed_byte (state s) b (buffer s) = push_and_finish (VETERAN_MAGIC ++ len :: body) b)
    by (rewrite Hst, Hbuf; done).
  rewrite E in Hfb.
  destruct rest as [|b' rest].
  - replace (length body + 1 <? Z.to_nat len)%nat with false in Hfb
      by (symmetry; apply Nat.ltb_ge; simpl in Hl; lia).
    assert (Hc : bool_decide (VETERAN_SHORT_FRAME_MAX_LEN < len)
                 && negb (veteran_crc_matches (VETERAN_MAGIC ++ len :: body ++ [b])) = false).
    { destruct (bool_decide (_ < len)) eqn:El; [|done]. prop_bools. simpl.
      apply negb_false_iff. apply crc_matches_spec; [done|rewrite length_app; simpl in *; lia|].
      destruct Hf as (len' & body' & _ & [= <- <-] & _ & Hcrc). auto. }
    rewrite Hc in Hfb. apply feed_result in Hfb as [-> ->]. done.
  - replace (length body + 1 <? Z.to_nat len)%nat with true in Hfb
      by (symmetry; apply Nat.ltb_lt; simpl in Hl; lia).
    apply feed_result in Hfb as [-> ->]. cbn [app].
    destruct (IH {| buffer := VETERAN_MAGIC ++ len :: (body ++ [b]); state := Collecting |}
                 (body ++ [b])) as [-> ->]; rewrite <- ?app_assoc; try done.
    rewrite !length_app. simpl in *. lia.
Qed.

(** One valid frame from the hunting state. *)
Lemma veteran_feed_frame f :
  frame_spec f ->
  run_state sd_feed default_reassembler f = default_reassembler /\
  frames_of default_reassembler f = [{| frame_bytes := f |}].
Proof.
  intros Hf. pose proof Hf as (len & body & Hb & -> & Hl & _).
  assert (Hm : run_state sd_feed default_reassembler VETERAN_MAGIC
                 = {| buffer := VETERAN_MAGIC; state := Collecting |} /\
               frames_of default_reassembler VETERAN_MAGIC = []) by (vm_compute; done).
  destruct Hm as [Hm1 Hm2]. rewrite run_state_app, frames_of_app, Hm1, Hm2.
  rewrite run_state_cons, frames_of_cons.
  set (s := {| buffer := VETERAN_MAGIC; state := Collecting |}).
  assert (Hfb : feed_byte (state s) len (buffer s) = push_and_finish VETERAN_MAGIC len) by done.
  rewrite push_and_finish_len in Hfb by done.
  destruct body as [|b body].
  - simpl in Hl. unfold is_byte in Hb. rewrite bool_decide_true in Hfb by lia.
    apply feed_result in Hfb as [-> ->]. done.
  - simpl in Hl. rewrite bool_decide_false in Hfb by lia.
    apply feed_result in Hfb as [-> ->]. cbn [app].
    apply (collect_body _ len [] (b :: body)); done.
Qed.

Lemma veteran_feed_noise noise :
  Forall (fun b => b <> 0xdc) noise ->
  run_state sd_feed default_reassembler noise = default_reassembler /\
  frames_of default_reassembler noise = [].
Proof.
  induction 1 as [|b noise Hb _ [IH1 IH2]]; [done|].
  rewrite run_state_cons, frames_of_cons.
  destruct (feed_result default_reassembler b [] SeekingMagic0 None) as [-> ->];
    [by simpl; rewrite bool_decide_false|]. done.
Qed.

(** ** Properties *)

(** Whatever bytes arrive, in whatever chunks, the Veteran reassembler emits
    only frames with the magic, the declared length and, above 38 declared
    bytes, a matching CRC32 trailer, and they are blocks of the stream in order
    and without overlap; how the stream was cut does not matter. *)
Theorem veteran_stream_sound (chunks : list (list Z)) :
  Forall is_byte (concat chunks) ->
  let fs := frames_of_chunks default_reassembler chunks in
  fs = frames_of default_reassembler (concat chunks) /\
  Forall (fun f => frame_spec (frame_bytes f)) fs /\
  scattered (frame_bytes <$> fs) (concat chunks).
Proof.
  intros Hb. cbv zeta. rewrite frames_of_chunks_concat. split; [done|]. split.
  - exact (frames_of_valid (Frame := VeteranFrame) default_reassembler _ veteran_default_ok Hb).
  - exact (frames_of_scattered (Frame := VeteranFrame) default_reassembler _ veteran_default_ok Hb).
Qed.

(** Every valid Veteran frame is delivered: valid frames, each after noise
    without the first magic byte, are decoded to exactly those frames. *)
Theorem veteran_stream_complete (items : list (list Z * list Z)) :
  Forall (fun '(noise, f) => Forall (fun b => b <> 0xdc) noise /\ frame_spec f) items ->
  frames_of default_reassembler (concat ((fun '(noise, f) => noise ++ f) <$> items)) =
    (fun '(_, f) => {| frame_bytes := f |}) <$> items.
Proof.
  induction items as [|[noise f] items IH]; intros Hi; [done|].
  apply Forall_cons in Hi as [[Hn Hf] Hi]. cbn [fmap list_fmap concat].
  rewrite <- app_assoc, !frames_of_app.
  destruct (veteran_feed_noise noise Hn) as [-> ->]. destruct (veteran_feed_frame f Hf) as [-> ->].
  rewrite (IH Hi). done.
Qed.

Definition step_result (s : VeteranFrameReassembler) (b : Z) := feed_byte_result s b.

(** The only error a byte stream can raise is a CRC mismatch: the bounded
    buffer never overflows and a collected candidate is never structurally
    invalid; and after every error the reassembler hunts afresh. *)
Theorem veteran_errors_are_crc (bytes : list Z) (b : Z) (e : VeteranReassemblyError) :
  Forall is_byte bytes -> is_byte b ->
  let s := run_state step_result default_reassembler bytes in
  (feed_byte_result s b).2 = Err e ->
  e = CrcMismatch /\ (feed_byte_result s b).1 = default_reassembler.
Proof.
  intros Hbs Hb s.
  assert (Hs : reassembler_ok s).
  { unfold s. generalize veteran_default_ok. generalize default_reassembler.
    induction Hbs as [|x bytes Hx _ IH]; intros s0 Hs0; [done|].
    rewrite run_state_cons. apply IH. unfold step_result. by destruct (veteran_feed_step s0 x Hx Hs0). }
  destruct (veteran_feed_step s b Hb Hs); [done|done|]. by intros [= <-].
Qed.
End Checksum.

(** ** Witnesses *)

(** A checksum for the samples; the theorems hold for every one. *)
Definition sample_crc (bytes : list Z) : Z := foldr Z.add 0 bytes mod 256.

Definition sample_short : list Z := VETERAN_MAGIC ++ 2 :: [7; 8].
Definition sample_long : list Z :=
  VETERAN_MAGIC ++ 40 :: replicate 36 0 ++ [0; 0; 0; (220 + 90 + 92 + 40) mod 256].

Lemma sample_short_spec : frame_spec sample_crc sample_short.
Proof.
  exists 2, [7; 8]. split_ands; vm_compute; done.
Defined.
Lemma sample_long_spec : frame_spec sample_crc sample_long.
Proof.
  exists 40, (replicate 36 0 ++ [0; 0; 0; (220 + 90 + 92 + 40) mod 256]).
  split_ands; vm_compute; done.
Defined.

Example long_frame_is_checked :
  (feed_byte_result sample_crc
     (run_state (step_result sample_crc) default_reassembler (take 43 sample_long)) 9).2 = Err CrcMismatch.
Proof. vm_compute. reflexivity. Qed.

Lemma bytes_ok (l : list Z) : forallb (fun b => bool_decide (is_byte b)) l = true -> Forall is_byte l.
Proof.
  rewrite forallb_forall. intros H. apply Forall_forall. intros x Hx.
  apply list_elem_of_In in Hx. by apply H, bool_decide_eq_true_1 in Hx.
Qed.

Lemma veteran_stream_sound_witness :
  Forall (fun f => frame_spec sample_crc (frame_bytes f))
    (@frames_of_chunks _ _ (veteran_decoder sample_crc) default_reassembler
       [take 3 sample_long; drop 3 sample_long ++ sample_short]).
Proof.
  apply (veteran_stream_sound sample_crc [take 3 sample_long; drop 3 sample_long ++ sample_short]).
  apply bytes_ok. vm_compute. reflexivity.
Defined.

Lemma veteran_stream_complete_witness :
  length (@frames_of _ _ (veteran_decoder sample_crc) default_reassembler
            (sample_short ++ sample_long)) = 2%nat.
Proof.
  pose proof (veteran_stream_complete sample_crc [([], sample_short); ([], sample_long)]
    ltac:(repeat constructor; [apply sample_short_spec | apply sample_long_spec])) as H.
  cbn [fmap list_fmap concat app] in H. rewrite app_nil_r in H. by rewrite H.
Defined.

Lemma veteran_errors_are_crc_witness :
  (feed_byte_result sample_crc
     (run_state (step_result sample_crc) default_reassembler (take 43 sample_long)) 9).1
    = default_reassembler.
Proof.
  apply (veteran_errors_are_crc sample_crc (take 43 sample_long) 9 CrcMismatch);
    [apply bytes_ok; vm_compute; reflexivity | unfold is_byte; lia | vm_compute; reflexivity].
Defined.
