(* ===== verification/VescValues.v ===== *)
(** * VESC values telemetry

    [cutout-protocols/src/vesc_codec.rs], lines 66-1461: the bit masks that say
    which fields a [COMM_GET_VALUES] reply carries and the reader that takes
    them off the wire in order.  A typed quantity is the [Z] of its unit; a
    mask is the [Z] of its 32-bit word.  The statistics and motor-configuration
    replies of the same file are floating point and are not modelled. *)

From S2P Require Import Prelude.
From S2P Require Import Parser.

Notation "'let?' p := e 'in' k" := (result_bind e (fun x => match x with p => k end))
  (at level 200, p pattern, e at level 200, k at level 200) : cutout_scope.

Inductive VescCodecError := EncodedFrameTooLong | EncodeFailed | DecodeFailed | UnsupportedReply.
#[global] Instance vesc_error_eq_dec : EqDecision VescCodecError.
Proof. solve_decision. Defined.

(** ** Masks *)

Definition VescValuesMask : Type := Z.
Definition flag (k : Z) : VescValuesMask := Z.shiftl 1 k.
Definition TEMP_MOSFET := flag 0.
Definition TEMP_MOTOR := flag 1.
Definition AVG_CURRENT_MOTOR := flag 2.
Definition AVG_CURRENT_INPUT := flag 3.
Definition AVG_CURRENT_D := flag 4.
Definition AVG_CURRENT_Q := flag 5.
Definition DUTY_CYCLE := flag 6.
Definition RPM := flag 7.
Definition VOLTAGE_IN := flag 8.
Definition AMP_HOURS := flag 9.
Definition AMP_HOURS_CHARGED := flag 10.
Definition WATT_HOURS := flag 11.
Definition WATT_HOURS_CHARGED := flag 12.
Definition TACHOMETER := flag 13.
Definition TACHOMETER_ABS := flag 14.
Definition FAULT_CODE := flag 15.
Definition PID_POS := flag 16.
Definition CONTROLLER_ID := flag 17.
Definition TEMP_MOSFET_ALL := flag 18.
Definition AVG_VOLTAGE_D := flag 19.
Definition AVG_VOLTAGE_Q := flag 20.
Definition STATUS := flag 21.

(** [bitflags]: [contains], [all] and [from_bits], which refuses a word with a
    bit that no flag names. *)
Definition contains (m f : VescValuesMask) : bool := bool_decide (Z.land m f = f).
Definition all_flags : VescValuesMask := Z.shiftl 1 22 - 1.
Definition mask_from_bits (w : Z) : option VescValuesMask :=
  if bool_decide (Z.land w all_flags = w) then Some w else None.

(** ** Values *)

Inductive VescFaultCode := FaultNone | AbsOverCurrent | FaultOther (raw : Z).
Definition fault_from_raw (value : Z) : VescFaultCode :=
  if bool_decide (value = 0) then FaultNone
  else if bool_decide (value = 4) then AbsOverCurrent else FaultOther value.
Definition fault_as_raw (f : VescFaultCode) : Z :=
  match f with FaultNone => 0 | AbsOverCurrent => 4 | FaultOther v => v end.

Record VescValuesTelemetry := {
  consumed_charge : Z; regenerated_charge : Z;
  consumed_energy : Z; regenerated_energy : Z;
  controller_temperature : Z; motor_temperature : Z;
  motor_current : Z; input_current : Z;
  direct_axis_current : Z; quadrature_axis_current : Z;
  rpm : Z; voltage : Z; tachometer : Z; tachometer_absolute : Z; motor_position : Z;
  mosfet_temperature_1 : Z; mosfet_temperature_2 : Z; mosfet_temperature_3 : Z;
  direct_axis_voltage : Z; quadrature_axis_voltage : Z;
  present_fields : VescValuesMask;
  duty_cycle : Z; fault_code : VescFaultCode; controller_id : Z; status : Z;
}.
#[global] Instance eta_values : Eta VescValuesTelemetry := fun r =>
  Build_VescValuesTelemetry (consumed_charge r) (regenerated_charge r) (consumed_energy r)
    (regenerated_energy r) (controller_temperature r) (motor_temperature r) (motor_current r)
    (input_current r) (direct_axis_current r) (quadrature_axis_current r) (rpm r) (voltage r)
    (tachometer r) (tachometer_absolute r) (motor_position r) (mosfet_temperature_1 r)
    (mosfet_temperature_2 r) (mosfet_temperature_3 r) (direct_axis_voltage r)
    (quadrature_axis_voltage r) (present_fields r) (duty_cycle r) (fault_code r)
    (controller_id r) (status r).
Definition default_values : VescValuesTelemetry :=
  {| consumed_charge := 0; regenerated_charge := 0; consumed_energy := 0; regenerated_energy := 0;
     controller_temperature := 0; motor_temperature := 0; motor_current := 0; input_current := 0;
     direct_axis_current := 0; quadrature_axis_current := 0; rpm := 0; voltage := 0;
     tachometer := 0; tachometer_absolute := 0; motor_position := 0; mosfet_temperature_1 := 0;
     mosfet_temperature_2 := 0; mosfet_temperature_3 := 0; direct_axis_voltage := 0;
     quadrature_axis_voltage := 0; present_fields := 0; duty_cycle := 0;
     fault_code := FaultNone; controller_id := 0; status := 0 |}.

(** ** The reader *)

Record VescValuesReader := { rd_bytes : list Z; rd_offset : nat }.
Definition reader_new (bytes : list Z) : VescValuesReader :=
  {| rd_bytes := bytes; rd_offset := 0 |}.

(** [read::<N>]: the next [n] bytes.  Offsets stay below the slice's length, so
    the [checked_add] on [usize] cannot fail. *)
Definition read (n : nat) (r : VescValuesReader)
  : result (list Z * VescValuesReader) VescCodecError :=
  value <-? ok_or (get_range (rd_bytes r) (rd_offset r) n) DecodeFailed;
  Ok (value, {| rd_bytes := rd_bytes r; rd_offset := rd_offset r + n |}).

Definition nth_byte (bs : list Z) (i : nat) : Z := default 0 (bs !! i).
Definition read_u8 (r : VescValuesReader) : result (Z * VescValuesReader) VescCodecError :=
  let? (bs, r) := read 1 r in Ok (nth_byte bs 0, r).
Definition read_i16 (r : VescValuesReader) : result (Z * VescValuesReader) VescCodecError :=
  let? (bs, r) := read 2 r in Ok (to_signed 65536 (be16 (nth_byte bs 0) (nth_byte bs 1)), r).
Definition read_u32 (r : VescValuesReader) : result (Z * VescValuesReader) VescCodecError :=
  let? (bs, r) := read 4 r in
  Ok (be32 (nth_byte bs 0) (nth_byte bs 1) (nth_byte bs 2) (nth_byte bs 3), r).
Definition read_i32 (r : VescValuesReader) : result (Z * VescValuesReader) VescCodecError :=
  let? (w, r) := read_u32 r in Ok (to_signed 4294967296 w, r).
Definition remaining (r : VescValuesReader) : list Z := drop (rd_offset r) (rd_bytes r).

(** ** Units *)

(** [i32::checked_mul(10)]. *)
Definition checked_tenfold (value : Z) : result Z VescCodecError :=
  if bool_decide (i32_min <= value * 10 <= i32_max) then Ok (value * 10) else Err DecodeFailed.
Definition phase_current_from_centi_amps (value : Z) : result Z VescCodecError :=
  checked_tenfold value.
Definition battery_current_from_centi_amps (value : Z) : result Z VescCodecError :=
  checked_tenfold value.
Definition temperature_from_deci_celsius (value : Z) : Z := value * 100.
Definition voltage_from_deci_volts (value : Z) : Z := value * 100.

Definition read_current (convert : Z -> result Z VescCodecError) (r : VescValuesReader)
  : result (Z * VescValuesReader) VescCodecError :=
  let? (raw, r) := read_i32 r in
  current <-? convert raw;
  Ok (current, r).
Definition read_temperature (r : VescValuesReader)
  : result (Z * VescValuesReader) VescCodecError :=
  let? (raw, r) := read_i16 r in Ok (temperature_from_deci_celsius raw, r).

(** ** Decoding *)

(** [if present_fields.contains(flag) { values.field = reader.read()?; }] *)
Definition field {A} (present : VescValuesMask) (f : VescValuesMask)
    (rd : VescValuesReader -> result (A * VescValuesReader) VescCodecError)
    (assign : A -> VescValuesTelemetry -> VescValuesTelemetry)
    (s : VescValuesReader * VescValuesTelemetry)
  : result (VescValuesReader * VescValuesTelemetry) VescCodecError :=
  if contains present f then let? (x, r) := rd s.1 in Ok (r, assign x s.2) else Ok s.

Definition read_temperatures (r : VescValuesReader)
  : result (Z * Z * Z * VescValuesReader) VescCodecError :=
  let? (t1, r) := read_temperature r in
  let? (t2, r) := read_temperature r in
  let? (t3, r) := read_temperature r in
  Ok (t1, t2, t3, r).

Definition decode_values (body : list Z) (present : VescValuesMask)
  : result VescValuesTelemetry VescCodecError :=
  let s := (reader_new body, default_values <| present_fields := present |>) in
  s <-? field present TEMP_MOSFET read_temperature
          (fun x v => v <| controller_temperature := x |>) s;
  s <-? field present TEMP_MOTOR read_temperature
          (fun x v => v <| motor_temperature := x |>) s;
  s <-? field present AVG_CURRENT_MOTOR (read_current phase_current_from_centi_amps)
          (fun x v => v <| motor_current := x |>) s;
  s <-? field present AVG_CURRENT_INPUT (read_current battery_current_from_centi_amps)
          (fun x v => v <| input_current := x |>) s;
  s <-? field present AVG_CURRENT_D (read_current phase_current_from_centi_amps)
          (fun x v => v <| direct_axis_current := x |>) s;
  s <-? field present AVG_CURRENT_Q (read_current phase_current_from_centi_amps)
          (fun x v => v <| quadrature_axis_current := x |>) s;
  s <-? field present DUTY_CYCLE read_i16 (fun x v => v <| duty_cycle := x |>) s;
  s <-? field present RPM read_i32 (fun x v => v <| rpm := x |>) s;
  s <-? field present VOLTAGE_IN read_i16
          (fun x v => v <| voltage := voltage_from_deci_volts x |>) s;
  s <-? field present AMP_HOURS read_i32 (fun x v => v <| consumed_charge := x |>) s;
  s <-? field present AMP_HOURS_CHARGED read_i32 (fun x v => v <| regenerated_charge := x |>) s;
  s <-? field present WATT_HOURS read_i32 (fun x v => v <| consumed_energy := x |>) s;
  s <-? field present WATT_HOURS_CHARGED read_i32 (fun x v => v <| regenerated_energy := x |>) s;
  s <-? field present TACHOMETER read_i32 (fun x v => v <| tachometer := x |>) s;
  s <-? field present TACHOMETER_ABS read_i32 (fun x v => v <| tachometer_absolute := x |>) s;
  s <-? field present FAULT_CODE read_u8 (fun x v => v <| fault_code := fault_from_raw x |>) s;
  s <-? field present PID_POS read_i32 (fun x v => v <| motor_position := x |>) s;
  s <-? field present CONTROLLER_ID read_u8 (fun x v => v <| controller_id := x |>) s;
  s <-? field present TEMP_MOSFET_ALL read_temperatures
          (fun x v => v <| mosfet_temperature_1 := x.1.1 |> <| mosfet_temperature_2 := x.1.2 |>
                        <| mosfet_temperature_3 := x.2 |>) s;
  s <-? field present AVG_VOLTAGE_D read_i32 (fun x v => v <| direct_axis_voltage := x |>) s;
  s <-? field present AVG_VOLTAGE_Q read_i32 (fun x v => v <| quadrature_axis_voltage := x |>) s;
  s <-? field present STATUS read_u8 (fun x v => v <| status := x |>) s;
  if bool_decide (remaining s.1 = []) then Ok s.2 else Err DecodeFailed.

Definition full_values_mask (body_len : nat) : result VescValuesMask VescCodecError :=
  field_count <-? match body_len with
                  | 53%nat => Ok 16
                  | 57%nat => Ok 17
                  | 58%nat => Ok 18
                  | 64%nat => Ok 19
                  | 72%nat => Ok 21
                  | 73%nat => Ok 22
                  | _ => Err DecodeFailed
                  end;
  Ok (Z.shiftl 1 field_count - 1).

Definition decode_selective_values (body : list Z) : result VescValuesTelemetry VescCodecError :=
  let? (w, reader) := read_u32 (reader_new body) in
  present <-? ok_or (mask_from_bits w) DecodeFailed;
  decode_values (remaining reader) present.

(** [COMM_GET_VALUES]: the mask of a full reply is that of the released layout
    of this length. *)
Definition decode_full_values (body : list Z) : result VescValuesTelemetry VescCodecError :=
  present <-? full_values_mask (length body); decode_values body present.

(** ** The wire format

    What a reader promises: it consumes exactly the bytes of the value it
    returns, and it reads back every value in range. *)

Class WireCodec {A} (rd : VescValuesReader -> result (A * VescValuesReader) VescCodecError) := {
  wire_bytes : A -> list Z;
  wire_ok : A -> Prop;
  wire_consumed : forall r x r', Forall is_byte (remaining r) -> rd r = Ok (x, r') ->
    remaining r = wire_bytes x ++ remaining r' /\ wire_ok x;
  wire_reads : forall r x rest, wire_ok x -> remaining r = wire_bytes x ++ rest ->
    exists r', rd r = Ok (x, r') /\ remaining r' = rest;
}.
Arguments wire_bytes {A} rd {_} _.
Arguments wire_ok {A} rd {_} _.

Definition be16_bytes (v : Z) : list Z := [v / 256 mod 256; v mod 256].
Definition tenfold_ok (x : Z) : Prop := x mod 10 = 0 /\ in_i i32_min i32_max x.
Definition hundredfold_ok (x : Z) : Prop := x mod 100 = 0 /\ in_i i16_min i16_max (x / 100).

(** The fields of a reply, in wire order, each present or absent. *)
Definition encode_values (v : VescValuesTelemetry) : list Z :=
  let part (f : VescValuesMask) (bs : list Z) :=
    if contains (present_fields v) f then bs else [] in
  part TEMP_MOSFET (be16_bytes (controller_temperature v / 100)) ++
  part TEMP_MOTOR (be16_bytes (motor_temperature v / 100)) ++
  part AVG_CURRENT_MOTOR (be32_bytes (motor_current v / 10)) ++
  part AVG_CURRENT_INPUT (be32_bytes (input_current v / 10)) ++
  part AVG_CURRENT_D (be32_bytes (direct_axis_current v / 10)) ++
  part AVG_CURRENT_Q (be32_bytes (quadrature_axis_current v / 10)) ++
  part DUTY_CYCLE (be16_bytes (duty_cycle v)) ++
  part RPM (be32_bytes (rpm v)) ++
  part VOLTAGE_IN (be16_bytes (voltage v / 100)) ++
  part AMP_HOURS (be32_bytes (consumed_charge v)) ++
  part AMP_HOURS_CHARGED (be32_bytes (regenerated_charge v)) ++
  part WATT_HOURS (be32_bytes (consumed_energy v)) ++
  part WATT_HOURS_CHARGED (be32_bytes (regenerated_energy v)) ++
  part TACHOMETER (be32_bytes (tachometer v)) ++
  part TACHOMETER_ABS (be32_bytes (tachometer_absolute v)) ++
  part FAULT_CODE [fault_as_raw (fault_code v)] ++
  part PID_POS (be32_bytes (motor_position v)) ++
  part CONTROLLER_ID [controller_id v] ++
  part TEMP_MOSFET_ALL (be16_bytes (mosfet_temperature_1 v / 100) ++
                        be16_bytes (mosfet_temperature_2 v / 100) ++
                        be16_bytes (mosfet_temperature_3 v / 100)) ++
  part AVG_VOLTAGE_D (be32_bytes (direct_axis_voltage v)) ++
  part AVG_VOLTAGE_Q (be32_bytes (quadrature_axis_voltage v)) ++
  part STATUS [status v].

(** The telemetry a reply can mean: a present field is in the range and on the
    grid of its wire unit, an absent one has its default. *)
Definition canonical (v : VescValuesTelemetry) : Prop :=
  let part (f : VescValuesMask) (ok absent : Prop) :=
    if contains (present_fields v) f then ok else absent in
  let signed (f : VescValuesMask) (x : Z) := part f (in_i i32_min i32_max x) (x = 0) in
  part TEMP_MOSFET (hundredfold_ok (controller_temperature v)) (controller_temperature v = 0) /\
  part TEMP_MOTOR (hundredfold_ok (motor_temperature v)) (motor_temperature v = 0) /\
  part AVG_CURRENT_MOTOR (tenfold_ok (motor_current v)) (motor_current v = 0) /\
  part AVG_CURRENT_INPUT (tenfold_ok (input_current v)) (input_current v = 0) /\
  part AVG_CURRENT_D (tenfold_ok (direct_axis_current v)) (direct_axis_current v = 0) /\
  part AVG_CURRENT_Q (tenfold_ok (quadrature_axis_current v)) (quadrature_axis_current v = 0) /\
  part DUTY_CYCLE (in_i i16_min i16_max (duty_cycle v)) (duty_cycle v = 0) /\
  signed RPM (rpm v) /\
  part VOLTAGE_IN (hundredfold_ok (voltage v)) (voltage v = 0) /\
  signed AMP_HOURS (consumed_charge v) /\ signed AMP_HOURS_CHARGED (regenerated_charge v) /\
  signed WATT_HOURS (consumed_energy v) /\ signed WATT_HOURS_CHARGED (regenerated_energy v) /\
  signed TACHOMETER (tachometer v) /\ signed TACHOMETER_ABS (tachometer_absolute v) /\
  part FAULT_CODE (is_byte (fault_as_raw (fault_code v)) /\
                   fault_code v = fault_from_raw (fault_as_raw (fault_code v)))
                  (fault_code v = FaultNone) /\
  signed PID_POS (motor_position v) /\
  part CONTROLLER_ID (is_byte (controller_id v)) (controller_id v = 0) /\
  part TEMP_MOSFET_ALL (hundredfold_ok (mosfet_temperature_1 v) /\
                        hundredfold_ok (mosfet_temperature_2 v) /\
                        hundredfold_ok (mosfet_temperature_3 v))
                       (mosfet_temperature_1 v = 0 /\ mosfet_temperature_2 v = 0 /\
                        mosfet_temperature_3 v = 0) /\
  signed AVG_VOLTAGE_D (direct_axis_voltage v) /\ signed AVG_VOLTAGE_Q (quadrature_axis_voltage v) /\
  part STATUS (is_byte (status v)) (status v = 0).

(** ** The readers *)

Lemma read_Ok n r bs r' :
  read n r = Ok (bs, r') ->
  (0 < n)%nat -> remaining r = bs ++ remaining r' /\ length bs = n.
Proof.
  unfold read. intros H Hn. apply result_bind_Ok in H as (x & H & [= <- <-]).
  apply ok_or_Ok, get_range_Some in H as [Hl ->]. unfold remaining. simpl.
  rewrite length_take, length_drop. split; [|lia].
  rewrite <- drop_drop. symmetry. apply take_drop.
Qed.
Lemma read_app bs r rest :
  remaining r = bs ++ rest -> (0 < length bs)%nat ->
  exists r', read (length bs) r = Ok (bs, r') /\ remaining r' = rest.
Proof.
  unfold remaining, read. intros H Hn.
  assert (Hl : (rd_offset r + length bs <= length (rd_bytes r))%nat).
  { pose proof (f_equal length H) as E. rewrite length_drop, length_app in E. lia. }
  eexists. rewrite (proj2 (get_range_Some _ _ _ bs)).
  - split; [reflexivity|]. simpl. rewrite <- drop_drop, H. apply drop_app_length.
  - split; [done|]. rewrite H. by rewrite take_app_length.
Qed.

Lemma to_signed_mod n z : 0 < n -> n mod 2 = 0 -> in_i (- (n / 2)) (n / 2 - 1) z ->
  to_signed n (z mod n) = z.
Proof.
  intros Hn He Hz. unfold in_i, to_signed in *. rewrite Z.mod_mod by lia.
  assert (Hh : n = 2 * (n / 2)) by (clear -He Hn; Z.to_euclidean_division_equations; lia).
  destruct (Z.lt_ge_cases z 0).
  - replace (z mod n) with (z + n)
      by (rewrite <- (Z.mod_small (z + n) n) by lia; rewrite <- (Z.mod_add z 1) by lia; f_equal; lia).
    rewrite bool_decide_false by lia. lia.
  - rewrite Z.mod_small by lia. rewrite bool_decide_true by lia. done.
Qed.
Lemma be16_to_signed v :
  in_i i16_min i16_max v -> to_signed 65536 (be16 (v / 256 mod 256) (v mod 256)) = v.
Proof.
  intros Hv. rewrite be16_sum by (unfold is_byte; div_lia).
  replace (v / 256 mod 256 * 256 + v mod 256) with (v mod 65536) by div_lia.
  by apply to_signed_mod.
Qed.
Lemma be32_to_signed v : in_i i32_min i32_max v ->
  to_signed 4294967296 (be32 (v / 16777216 mod 256) (v / 65536 mod 256) (v / 256 mod 256) (v mod 256))
  = v.
Proof.
  intros Hv. rewrite be32_sum by (unfold is_byte; div_lia).
  replace (_ + _ + _ + _) with (v mod 4294967296) by div_lia. by apply to_signed_mod.
Qed.
Lemma signed_be16_bytes a b : is_byte a -> is_byte b ->
  be16_bytes (to_signed 65536 (be16 a b)) = [a; b] /\
  in_i i16_min i16_max (to_signed 65536 (be16 a b)).
Proof.
  intros Ha Hb. rewrite be16_sum by done. split.
  - unfold be16_bytes, to_signed, is_byte in *. case_bool_decide; f_equal; [|f_equal| |f_equal]; div_lia.
  - apply (to_signed_range 65536); [lia|done].
Qed.
Lemma signed_be32_bytes a b c d : is_byte a -> is_byte b -> is_byte c -> is_byte d ->
  be32_bytes (to_signed 4294967296 (be32 a b c d)) = [a; b; c; d] /\
  in_i i32_min i32_max (to_signed 4294967296 (be32 a b c d)).
Proof.
  intros Ha Hb Hc Hd. rewrite be32_sum by done. split.
  - unfold be32_bytes, to_signed, is_byte in *.
    case_bool_decide; repeat (f_equal; [div_lia|]); f_equal; div_lia.
  - apply (to_signed_range 4294967296); [lia|done].
Qed.

#[global] Program Instance codec_u8 : WireCodec read_u8 :=
  {| wire_bytes := fun x => [x]; wire_ok := is_byte |}.
Next Obligation.
  intros r x r' Hb H. unfold read_u8 in H. apply result_bind_Ok in H as ([bs r1] & H & [= <- <-]).
  apply read_Ok in H as [E Hl]; [|lia]. destruct bs as [|b [|]]; try done. rewrite E in Hb.
  apply Forall_app in Hb as [Hb _]. rewrite Forall_cons in Hb. by destruct Hb.
Qed.
Next Obligation.
  intros r x rest Hx H. apply (read_app [x]) in H as (r' & E & Hr); [|simpl; lia].
  exists r'. unfold read_u8. simpl in E. rewrite E. by split.
Qed.

#[global] Program Instance codec_i16 : WireCodec read_i16 :=
  {| wire_bytes := be16_bytes; wire_ok := in_i i16_min i16_max |}.
Next Obligation.
  intros r x r' Hb H. unfold read_i16 in H. apply result_bind_Ok in H as ([bs r1] & H & [= <- <-]).
  apply read_Ok in H as [E Hl]; [|lia]. destruct bs as [|a [|b [|]]]; try done. rewrite E in *.
  apply Forall_app in Hb as [Hb _]. rewrite !Forall_cons in Hb. destruct Hb as (Ha & Hb & _).
  destruct (signed_be16_bytes a b Ha Hb) as [E1 E2].
  change (nth_byte [a; b] 0) with a. change (nth_byte [a; b] 1) with b. by rewrite E1.
Qed.
Next Obligation.
  intros r x rest Hx H. apply (read_app (be16_bytes x)) in H as (r' & E & Hr); [|simpl; lia].
  exists r'. unfold read_i16. simpl in E. rewrite E. simpl. unfold nth_byte. simpl.
  rewrite be16_to_signed by done. by split.
Qed.

#[global] Program Instance codec_i32 : WireCodec read_i32 :=
  {| wire_bytes := be32_bytes; wire_ok := in_i i32_min i32_max |}.
Next Obligation.
  intros r x r' Hb H. unfold read_i32, read_u32 in H.
  apply result_bind_Ok in H as ([w r1] & H & [= <- <-]).
  apply result_bind_Ok in H as ([bs r2] & H & [= <- <-]).
  apply read_Ok in H as [E Hl]; [|lia]. destruct bs as [|a [|b [|c [|d [|]]]]]; try done. rewrite E in *.
  apply Forall_app in Hb as [Hb _]. rewrite !Forall_cons in Hb. destruct Hb as (Ha & Hb & Hc & Hd & _).
  destruct (signed_be32_bytes a b c d Ha Hb Hc Hd) as [E1 E2].
  change (nth_byte [a; b; c; d] 0) with a. change (nth_byte [a; b; c; d] 1) with b.
  change (nth_byte [a; b; c; d] 2) with c. change (nth_byte [a; b; c; d] 3) with d. by rewrite E1.
Qed.
Next Obligation.
  intros r x rest Hx H. apply (read_app (be32_bytes x)) in H as (r' & E & Hr); [|simpl; lia].
  exists r'. unfold read_i32, read_u32. simpl in E. rewrite E. simpl. unfold nth_byte. simpl.
  rewrite be32_to_signed by done. by split.
Qed.

#[global] Program Instance codec_temperature : WireCodec read_temperature :=
  {| wire_bytes := fun x => be16_bytes (x / 100); wire_ok := hundredfold_ok |}.
Next Obligation.
  intros r x r' Hb H. unfold read_temperature in H.
  apply result_bind_Ok in H as ([raw r1] & H & [= <- <-]). apply wire_consumed in H as [E H]; [|done].
  unfold temperature_from_deci_celsius, hundredfold_ok. rewrite Z.div_mul, Z.mod_mul by lia. done.
Qed.
Next Obligation.
  intros r x rest [Hm Hr] H. destruct (wire_reads (rd := read_i16) r (x / 100) rest) as (r' & E & Hr'); [done..|].
  exists r'. unfold read_temperature. rewrite E. split; [|done]. simpl.
  unfold temperature_from_deci_celsius. do 2 f_equal. div_lia.
Qed.

#[global] Program Instance codec_current : WireCodec (read_current checked_tenfold) :=
  {| wire_bytes := fun x => be32_bytes (x / 10); wire_ok := tenfold_ok |}.
Next Obligation.
  intros r x r' Hb H. unfold read_current in H.
  apply result_bind_Ok in H as ([raw r1] & H & Hc). apply wire_consumed in H as [E H]; [|done].
  apply result_bind_Ok in Hc as (y & Hc & [= -> ->]). unfold checked_tenfold in Hc.
  case_bool_decide as Hr; [|done]. injection Hc as <-. unfold tenfold_ok.
  rewrite Z.div_mul, Z.mod_mul by lia. done.
Qed.
Next Obligation.
  intros r x rest [Hm Hr] H.
  destruct (wire_reads (rd := read_i32) r (x / 10) rest) as (r' & E & Hr'); [simpl; div_lia|done|].
  exists r'. unfold read_current. rewrite E. split; [|done]. simpl. unfold checked_tenfold.
  replace (x / 10 * 10) with x by div_lia. by rewrite bool_decide_true.
Qed.

#[global] Program Instance codec_temperatures : WireCodec read_temperatures :=
  {| wire_bytes := fun x => be16_bytes (x.1.1 / 100) ++ be16_bytes (x.1.2 / 100) ++ be16_bytes (x.2 / 100);
     wire_ok := fun x => hundredfold_ok x.1.1 /\ hundredfold_ok x.1.2 /\ hundredfold_ok x.2 |}.
Next Obligation.
  intros r x r' Hb H. unfold read_temperatures in H.
  apply result_bind_Ok in H as ([t1 r1] & H1 & H). apply wire_consumed in H1 as [E1 H1]; [|done].
  rewrite E1 in *. apply Forall_app in Hb as [_ Hb].
  apply result_bind_Ok in H as ([t2 r2] & H2 & H). apply wire_consumed in H2 as [E2 H2]; [|done].
  rewrite E2 in *. apply Forall_app in Hb as [_ Hb].
  apply result_bind_Ok in H as ([t3 r3] & H3 & [= <- <-]). apply wire_consumed in H3 as [E3 H3]; [|done].
  rewrite E3, !app_assoc. done.
Qed.
Next Obligation.
  intros r [[t1 t2] t3] rest (H1 & H2 & H3) H. cbn [fst snd] in *. rewrite <- !app_assoc in H.
  edestruct (wire_reads (rd := read_temperature) r t1) as (r1 & E1 & H'); [exact H1|exact H|].
  edestruct (wire_reads (rd := read_temperature) r1 t2) as (r2 & E2 & H''); [exact H2|exact H'|].
  edestruct (wire_reads (rd := read_temperature) r2 t3) as (r3 & E3 & H'''); [exact H3|exact H''|].
  exists r3. unfold read_temperatures. rewrite E1. simpl. rewrite E2. simpl. rewrite E3. by split.
Qed.

(** One field of a reply, backwards and forwards.  [y] is the value whose
    assignment leaves the telemetry as it is. *)
Section Field.
Context {A} (rd : VescValuesReader -> result (A * VescValuesReader) VescCodecError)
  `{!WireCodec rd} (m f : VescValuesMask) (y : A)
  (assign : A -> VescValuesTelemetry -> VescValuesTelemetry).

Definition field_value (x : A) : Prop := if contains m f then wire_ok rd x else x = y.
Definition field_bytes (x : A) : list Z := if contains m f then wire_bytes rd x else [].

Lemma field_Ok r v s' :
  assign y v = v -> Forall is_byte (remaining r) -> field m f rd assign (r, v) = Ok s' ->
  exists x r', s' = (r', assign x v) /\ field_value x /\
    remaining r = field_bytes x ++ remaining r' /\ Forall is_byte (remaining r').
Proof.
  intros Hy Hb Hf. unfold field, field_value, field_bytes in *. destruct (contains m f).
  - simpl in Hf. apply result_bind_Ok in Hf as ([x r'] & E & [= <-]).
    apply wire_consumed in E as [E Hx]; [|done]. exists x, r'. split_ands; auto.
    rewrite E in Hb. by apply Forall_app in Hb as [_ Hb].
  - injection Hf as <-. exists y, r. by rewrite Hy.
Qed.
Lemma field_reads r v x rest :
  assign y v = v -> field_value x -> remaining r = field_bytes x ++ rest ->
  exists r', field m f rd assign (r, v) = Ok (r', assign x v) /\ remaining r' = rest.
Proof.
  intros Hy Hx Hr. unfold field, field_value, field_bytes in *. destruct (contains m f); simpl.
  - apply wire_reads in Hr as (r' & E & Hr'); [|done]. exists r'. by rewrite E.
  - subst x. exists r. by rewrite Hy.
Qed.
End Field.

Ltac no_value rd :=
  lazymatch type of rd with
  | _ -> result (Z * Z * Z * _) _ => constr:((0, 0, 0))
  | _ => constr:(0)
  end.
(** Take one field off a successful decode, and off an encoded reply. *)
Ltac field_back H :=
  let Hf := fresh "Hf" in let s := fresh "s" in
  apply result_bind_Ok in H as (s & Hf & H);
  lazymatch type of Hf with
  | field ?m ?f ?rd ?assign _ = _ =>
      let y := no_value rd in apply (field_Ok rd m f y assign) in Hf
  end; [|reflexivity|assumption];
  let x := fresh "x" in
  destruct Hf as (x & ? & -> & ? & ? & ?);
  cbv beta iota delta [set_field] in H.

Lemma fault_raw_roundtrip x : fault_as_raw (fault_from_raw x) = x.
Proof. unfold fault_from_raw. repeat case_bool_decide; simpl; congruence. Qed.

(** A field of the telemetry is what its reader returned, or its default. *)
Lemma field_value_if {A} (rd : VescValuesReader -> result (A * VescValuesReader) VescCodecError)
    `{!WireCodec rd} m f y x (P Q : Prop) :
  field_value rd m f y x -> (wire_ok rd x -> P) -> (x = y -> Q) ->
  if contains m f then P else Q.
Proof. unfold field_value. destruct (contains m f); auto. Qed.
Lemma field_value_intro {A} (rd : VescValuesReader -> result (A * VescValuesReader) VescCodecError)
    `{!WireCodec rd} (m f : VescValuesMask) y x (P Q : Prop) :
  (if contains m f then P else Q) -> (P -> wire_ok rd x) -> (Q -> x = y) ->
  field_value rd m f y x.
Proof. unfold field_value. destruct (contains m f); auto. Qed.

Lemma result_bind_step {A B E} (r : result A E) (k : A -> result B E) a b :
  r = Ok a -> k a = b -> result_bind r k = b.
Proof. by intros ->. Qed.

Ltac field_canonical :=
  lazymatch goal with
  | H : field_value ?rd ?m ?f ?y ?x |- if contains ?m ?f then _ else _ =>
      apply (field_value_if rd m f y x _ _ H)
  end; try (intros Hx; exact Hx).
Ltac field_forth value :=
  let s := fresh "s" in let Hf := fresh "Hf" in
  lazymatch goal with
  | H : remaining ?r = _ |- result_bind (field ?m ?f ?rd ?assign (?r, ?v)) _ = _ =>
      let y := no_value rd in
      edestruct (field_reads rd m f y assign r v value) as (s & Hf & ?);
      [reflexivity|eapply (field_value_intro rd m f y value); [eassumption|..]|exact H|];
      [try done..|refine (result_bind_step _ _ _ _ Hf _); cbv beta; clear Hf H]
  end.

(** The decoder run backwards: every field it took off the body. *)
Lemma decode_values_sound body m v :
  Forall is_byte body -> decode_values body m = Ok v ->
  body = encode_values v /\ canonical v /\ present_fields v = m.
Proof.
  intros Hb H. unfold decode_values, phase_current_from_centi_amps, battery_current_from_centi_amps in H.
  cbv beta iota zeta delta [set_field default_values] in H.
  assert (Hr : Forall is_byte (remaining (reader_new body))) by done.
  do 22 field_back H.
  case_bool_decide as Hend; [|done]. injection H as <-. simpl in Hend.
  change body with (remaining (reader_new body)).
  split_ands; [|unfold canonical|done].
  - repeat match goal with E : remaining ?r = _ |- context [remaining ?r] => rewrite E; clear E end.
    unfold encode_values, voltage_from_deci_volts.
    cbn beta iota zeta delta -[flag contains be16_bytes be32_bytes].
    rewrite Z.div_mul, fault_raw_roundtrip, app_nil_r by lia. reflexivity.
  - cbn beta iota zeta delta -[flag contains hundredfold_ok tenfold_ok in_i is_byte].
    split_ands; field_canonical; unfold voltage_from_deci_volts.
    + intros Hx. unfold hundredfold_ok. by rewrite Z.div_mul, Z.mod_mul by lia.
    + lia.
    + intros Hx. by rewrite !fault_raw_roundtrip.
    + by intros ->.
    + by intros ->.
Qed.

(** And forwards, a field at a time. *)
Lemma decode_values_complete v :
  canonical v -> decode_values (encode_values v) (present_fields v) = Ok v.
Proof.
  intros Hv.
  assert (Hchain : remaining (reader_new (encode_values v)) = encode_values v) by done.
  unfold decode_values, phase_current_from_centi_amps, battery_current_from_centi_amps.
  generalize dependent (reader_new (encode_values v)). intros r Hchain.
  unfold canonical, encode_values in *.
  cbv beta iota zeta delta [set_field default_values] in *.
  destruct Hv as (C1 & C2 & C3 & C4 & C5 & C6 & C7 & C8 & C9 & C10 & C11 & C12 & C13 & C14 & C15 &
    C16 & C17 & C18 & C19 & C20 & C21 & C22).
  field_forth (controller_temperature v).
  field_forth (motor_temperature v).
  field_forth (motor_current v).
  field_forth (input_current v).
  field_forth (direct_axis_current v).
  field_forth (quadrature_axis_current v).
  field_forth (duty_cycle v).
  field_forth (rpm v).
  field_forth (voltage v / 100).
  { intros Hx. exact (proj2 Hx). }
  { by intros ->. }
  field_forth (consumed_charge v).
  field_forth (regenerated_charge v).
  field_forth (consumed_energy v).
  field_forth (regenerated_energy v).
  field_forth (tachometer v).
  field_forth (tachometer_absolute v).
  field_forth (fault_as_raw (fault_code v)).
  { intros Hx. exact (proj1 Hx). }
  { by intros ->. }
  field_forth (motor_position v).
  field_forth (controller_id v).
  field_forth (mosfet_temperature_1 v, mosfet_temperature_2 v, mosfet_temperature_3 v).
  { by intros (-> & -> & ->). }
  field_forth (direct_axis_voltage v).
  field_forth (quadrature_axis_voltage v).
  match goal with H : remaining _ = ?l |- _ => rewrite <- (app_nil_r l) in H end.
  field_forth (status v).
  cbn [fst snd]. rewrite bool_decide_true by done.
  replace (fault_from_raw _) with (fault_code v)
    by (destruct (contains (present_fields v) FAULT_CODE); [by destruct C16|by rewrite C16]).
  replace (voltage_from_deci_volts _) with (voltage v).
  2:{ unfold voltage_from_deci_volts.
      destruct (contains (present_fields v) VOLTAGE_IN); [destruct C9; div_lia|by rewrite C9]. }
  by destruct v.
Qed.

(** The released layouts: the first 16 to 19, 21 and 22 fields. *)
Definition released_counts : list Z := [16; 17; 18; 19; 21; 22].

Lemma encode_values_be_bytes v :
  length (encode_values v) =
  sum_list (map (fun p => if contains (present_fields v) p.1 then p.2 else 0%nat)
    [(TEMP_MOSFET, 2); (TEMP_MOTOR, 2); (AVG_CURRENT_MOTOR, 4); (AVG_CURRENT_INPUT, 4);
     (AVG_CURRENT_D, 4); (AVG_CURRENT_Q, 4); (DUTY_CYCLE, 2); (RPM, 4); (VOLTAGE_IN, 2);
     (AMP_HOURS, 4); (AMP_HOURS_CHARGED, 4); (WATT_HOURS, 4); (WATT_HOURS_CHARGED, 4);
     (TACHOMETER, 4); (TACHOMETER_ABS, 4); (FAULT_CODE, 1); (PID_POS, 4); (CONTROLLER_ID, 1);
     (TEMP_MOSFET_ALL, 6); (AVG_VOLTAGE_D, 4); (AVG_VOLTAGE_Q, 4); (STATUS, 1)]%nat).
Proof.
  unfold encode_values. cbv zeta. rewrite !length_app. cbn [map sum_list fst snd].
  do 21 (apply f_equal2; [by destruct (contains (present_fields v) _)|]).
  by destruct (contains (present_fields v) _).
Qed.
Lemma full_values_mask_Ok n m :
  full_values_mask n = Ok m ->
  exists k, k ∈ released_counts /\ m = 2 ^ k - 1 /\
    forall v, present_fields v = m -> length (encode_values v) = n.
Proof.
  intros H. unfold full_values_mask in H. apply result_bind_Ok in H as (k & H & [= <-]).
  assert (Hn : (n, k) ∈ [(53%nat, 16); (57%nat, 17); (58%nat, 18); (64%nat, 19);
                         (72%nat, 21); (73%nat, 22)]).
  { do 74 (destruct n as [|n]; [first [discriminate H | injection H as <-; set_solver]|]).
    discriminate H. }
  exists k. rewrite Z.shiftl_1_l.
  repeat (apply elem_of_cons in Hn as [[= -> ->]|Hn];
          [split_ands; [unfold released_counts; set_solver|done|];
           intros v E; rewrite encode_values_be_bytes, E; vm_compute; reflexivity|]).
  by apply elem_of_nil in Hn.
Qed.

Lemma full_values_mask_released v k :
  present_fields v = 2 ^ k - 1 -> k ∈ released_counts ->
  full_values_mask (length (encode_values v)) = Ok (2 ^ k - 1).
Proof.
  intros E Hk. rewrite encode_values_be_bytes, E. unfold released_counts in Hk.
  repeat (apply elem_of_cons in Hk as [->|Hk]; [vm_compute; reflexivity|]).
  by apply elem_of_nil in Hk.
Qed.

Lemma be32_of_bytes a b c d :
  is_byte a -> is_byte b -> is_byte c -> is_byte d ->
  be32_bytes (be32 a b c d) = [a; b; c; d] /\ in_u u32_max (be32 a b c d).
Proof.
  intros Ha Hb Hc Hd. rewrite be32_sum by done. unfold be32_bytes, is_byte in *. split; [|int_lia].
  repeat (f_equal; [div_lia|]). f_equal. div_lia.
Qed.

Lemma decode_values_iff body m v :
  Forall is_byte body ->
  (decode_values body m = Ok v <-> body = encode_values v /\ canonical v /\ present_fields v = m).
Proof.
  intros Hb. split; [by apply decode_values_sound|].
  intros (-> & Hc & <-). by apply decode_values_complete.
Qed.

(** ** Properties *)

(** C5: decoding a values reply loses nothing and invents nothing, for every
    mask: a selective body decodes to some telemetry exactly when it is the
    telemetry's mask of known flags followed by the encoding of its present
    fields, and a full body exactly when it is that encoding for one of the
    released layouts.  A present field is in the range of its wire unit, an
    absent one is at its default; so a body with a byte too few or too many,
    with an unknown flag, or with a current outside its domain is refused. *)
Theorem values_reply_roundtrip (body : list Z) (v : VescValuesTelemetry) :
  Forall is_byte body ->
  (decode_selective_values body = Ok v <->
     body = be32_bytes (present_fields v) ++ encode_values v /\ canonical v /\
     in_u u32_max (present_fields v) /\ Z.land (present_fields v) all_flags = present_fields v) /\
  (decode_full_values body = Ok v <->
     body = encode_values v /\ canonical v /\
     exists k, k ∈ released_counts /\ present_fields v = 2 ^ k - 1).
Proof.
  intros Hb. split.
  - unfold decode_selective_values, read_u32. rewrite result_bind_Ok. split.
    + intros ([w r] & H & Hv). apply result_bind_Ok in H as ([bs r1] & H & [= <- <-]).
      apply read_Ok in H as [E Hl]; [|lia]. change (remaining (reader_new body)) with body in E.
      destruct bs as [|a [|b [|c [|d [|]]]]]; try done. subst body.
      apply Forall_app in Hb as [Hw Hb]. rewrite !Forall_cons in Hw.
      destruct Hw as (Ha & Hb' & Hc & Hd & _).
      destruct (be32_of_bytes a b c d) as [E1 E2]; [done..|].
      apply result_bind_Ok in Hv as (m & Hm & Hv). apply ok_or_Ok in Hm.
      change (mask_from_bits (be32 a b c d) = Some m) in Hm. unfold mask_from_bits in Hm.
      case_bool_decide as Hf; [|done]. injection Hm as <-.
      apply decode_values_iff in Hv as (Hr & Hcan & Hp); [|done]. by rewrite Hr, Hp, E1.
    + intros (-> & Hcan & Hr & Hf). apply Forall_app in Hb as [_ Hb].
      destruct (read_app (be32_bytes (present_fields v)) (reader_new
        (be32_bytes (present_fields v) ++ encode_values v)) (encode_values v)) as (r & E & Hrem);
        [done|simpl; lia|].
      exists (present_fields v, r). split.
      * change (length (be32_bytes _)) with 4%nat in E. rewrite E. cbn [result_bind]. unfold be32_bytes, nth_byte. cbn [lookup list_lookup default from_option id].
        do 2 f_equal. rewrite be32_sum by (unfold is_byte; div_lia). unfold in_u in Hr. div_lia.
      * unfold mask_from_bits. rewrite bool_decide_true by done. simpl. rewrite Hrem.
        by apply decode_values_iff.
  - unfold decode_full_values. rewrite result_bind_Ok. split.
    + intros (m & Hm & Hv). apply decode_values_iff in Hv as (Hr & Hcan & Hp); [|done].
      apply full_values_mask_Ok in Hm as (k & Hk & Em & _). split_ands; [done..|].
      exists k. by rewrite Hp.
    + intros (-> & Hcan & k & Hk & Hp). exists (present_fields v).
      split; [rewrite Hp; by apply full_values_mask_released|]. by apply decode_values_iff.
Qed.

(** ** Witness *)

Definition sample_values : VescValuesTelemetry :=
  default_values <| present_fields := Z.lor TEMP_MOSFET (Z.lor RPM VOLTAGE_IN) |>
    <| controller_temperature := 31400 |> <| rpm := -1234 |> <| voltage := 79900 |>.

Lemma values_reply_roundtrip_witness :
  decode_selective_values ([0; 0; 1; 129] ++ [1; 58] ++ [255; 255; 251; 46] ++ [3; 31])
  = Ok sample_values.
Proof.
  apply values_reply_roundtrip.
  - repeat constructor; unfold is_byte; lia.
  - split; [reflexivity|]. split; [|split; [unfold in_u, u32_max; vm_compute; split; discriminate|reflexivity]].
    unfold canonical. repeat split; vm_compute; (reflexivity || discriminate || (split; discriminate)).
Defined.
