(* ===== verification/VescFrame.v ===== *)
(** * VESC packet frames

    [cutout-protocols/src/vesc_codec.rs], lines 1126-1172 and 1463-1534: the
    packet frame of a VESC UART ([2 len payload crc 3] or
    [3 len len payload crc 3]) and the encoders that build one.  The
    CRC-16/XMODEM of the [crc] crate is the parameter [vesc_crc16]; where a
    theorem needs it, only its width is assumed. *)

From S2P Require Import Prelude.
From S2P Require Import Parser PhoneDriveInput VescValues.

Definition VESC_MAX_FRAME_LEN : nat := 1024.
Definition MAX_TRANSPORT_WRITE_LEN : nat := 512.
Definition VESC_FRAME_START_SHORT : Z := 2.
Definition VESC_FRAME_START_LONG : Z := 3.
Definition VESC_FRAME_END : Z := 3.

(** [slice.get(a..b)] and [to_be_bytes] of a [u16]. *)
Definition get_slice (bytes : list Z) (a b : nat) : option (list Z) :=
  if bool_decide (a <= b /\ b <= length bytes)%nat then Some (take (b - a) (drop a bytes)) else None.
Definition u16_be (v : Z) : list Z := be16_bytes v.
Definition be16_of (bs : list Z) : Z := be16 (nth_byte bs 0) (nth_byte bs 1).


(** *** Frames and prefixes *)

Lemma get_slice_Some bs a b x :
  get_slice bs a b = Some x <-> (a <= b <= length bs)%nat /\ x = take (b - a) (drop a bs).
Proof. unfold get_slice. case_bool_decide; split; intros; simplify_eq; intuition (lia || congruence). Qed.
Lemma get_slice_app bs more a b :
  (b <= length bs)%nat -> get_slice (bs ++ more) a b = get_slice bs a b.
Proof.
  intros Hb. unfold get_slice. rewrite length_app.
  destruct (decide (a <= b)%nat).
  - rewrite !bool_decide_true by lia. f_equal. rewrite drop_app_le by lia.
    rewrite take_app_le; [done|]. rewrite length_drop. lia.
  - rewrite !bool_decide_false by lia. done.
Qed.

Lemma get_slice_take bs n a b :
  (b <= n)%nat -> (b <= length bs)%nat -> get_slice (take n bs) a b = get_slice bs a b.
Proof.
  intros Hn Hb. rewrite <- (take_drop n bs) at 2. rewrite get_slice_app; [done|].
  rewrite length_take. lia.
Qed.
Lemma be16_of_u16 v : in_u u16_max v -> be16_of (u16_be v) = v.
Proof.
  intros Hv. unfold be16_of, u16_be, be16_bytes, nth_byte. simpl.
  rewrite be16_sum by (unfold is_byte; div_lia). div_lia.
Qed.
Lemma get_slice_middle (a b c : list Z) :
  get_slice (a ++ b ++ c) (length a) (length a + length b) = Some b.
Proof.
  apply get_slice_Some. rewrite !length_app. split; [lia|].
  rewrite drop_app_length. replace (length a + length b - length a)%nat with (length b) by lia.
  by rewrite take_app_length.
Qed.

(** The checks of [frame_parts], on a frame given as its parts. *)

Section Frames.
Context (vesc_crc16 : list Z -> Z).

(** ** Frames *)

(** Start and length of the payload, once the length bytes are there. *)
Definition frame_header (bytes : list Z) : result (option (nat * nat)) VescCodecError :=
  match head bytes with
  | None => Ok None
  | Some start =>
      if bool_decide (start = VESC_FRAME_START_SHORT) then
        Ok ((fun len => (2%nat, Z.to_nat len)) <$> bytes !! 1%nat)
      else if bool_decide (start = VESC_FRAME_START_LONG) then
        Ok ((fun len_bytes => (3%nat, Z.to_nat (be16_of len_bytes))) <$> get_slice bytes 1 3)
      else Err DecodeFailed
  end.

(** Payload start, payload length and frame length of a complete frame at the
    start of [bytes]; nothing while the frame may still be incomplete.  The
    [checked_add]s are on lengths below 2^16, so they cannot fail. *)
Definition frame_parts (bytes : list Z) : result (option (nat * nat * nat)) VescCodecError :=
  header <-? frame_header bytes;
  match header with
  | None => Ok None
  | Some (payload_start, payload_len) =>
      let checksum_start := (payload_start + payload_len)%nat in
      let total_len := (checksum_start + 3)%nat in
      if bool_decide (VESC_MAX_FRAME_LEN < total_len)%nat then Err DecodeFailed else
      if bool_decide (length bytes < total_len)%nat then Ok None else
      if negb (bool_decide (bytes !! (total_len - 1)%nat = Some VESC_FRAME_END))
      then Err DecodeFailed else
      expected <-? ok_or (be16_of <$> get_slice bytes checksum_start (checksum_start + 2))
                         DecodeFailed;
      payload <-? ok_or (get_slice bytes payload_start checksum_start) DecodeFailed;
      if negb (bool_decide (expected = vesc_crc16 payload)) then Err DecodeFailed
      else Ok (Some (payload_start, payload_len, total_len))
  end.

Definition frame_len (bytes : list Z) : result (option nat) VescCodecError :=
  parts <-? frame_parts bytes; Ok (snd <$> parts).

Definition recoverable_frame_len (bytes : list Z) : option nat :=
  start ← head bytes;
  '(header_len, payload_len) ←
    (if bool_decide (start = VESC_FRAME_START_SHORT) then
       (fun len => (2%nat, Z.to_nat len)) <$> bytes !! 1%nat
     else if bool_decide (start = VESC_FRAME_START_LONG) then
       (fun len_bytes => (3%nat, Z.to_nat (be16_of len_bytes))) <$> get_slice bytes 1 3
     else None);
  let total_len := (header_len + payload_len + 3)%nat in
  if bool_decide (total_len <= VESC_MAX_FRAME_LEN)%nat
     && bool_decide (total_len <= length bytes)%nat
     && bool_decide (bytes !! (total_len - 1)%nat = Some VESC_FRAME_END)
  then Some total_len else None.

(** ** Encoders *)

Definition encode_raw_command (command_id : Z) : list Z :=
  [VESC_FRAME_START_SHORT; 1; command_id] ++ u16_be (vesc_crc16 [command_id]) ++ [VESC_FRAME_END].

Definition encode_phone_drive_current (action : option PhoneDriveAction) (milliamps : Z)
  : option (list Z) :=
  if bool_decide (i32_max < milliamps) then None else
  let command := match action with Some Brake => 7 | Some Throttle | None => 6 end in
  let payload := command :: be32_bytes milliamps in
  Some ([2; 5] ++ payload ++ u16_be (vesc_crc16 payload) ++ [3]).

Definition encode_settings_payload (payload : list Z) : option (list Z) :=
  if bool_decide (payload = [])
     || bool_decide (MAX_TRANSPORT_WRITE_LEN - 7 < length payload)%nat then None else
  let len := Z.of_nat (length payload) in
  let header := if bool_decide (len <= u8_max) then [2; len] else 3 :: u16_be len in
  let frame := header ++ payload ++ u16_be (vesc_crc16 payload) ++ [3] in
  if bool_decide (length frame <= MAX_TRANSPORT_WRITE_LEN)%nat then Some frame else None.

(** ** Frames that are built here *)

Definition frame_of (payload : list Z) : list Z :=
  (if bool_decide (Z.of_nat (length payload) <= u8_max) then [2; Z.of_nat (length payload)]
   else 3 :: u16_be (Z.of_nat (length payload)))
  ++ payload ++ u16_be (vesc_crc16 payload) ++ [3].

(** [f] is a complete frame that carries [payload], whatever follows it. *)
Definition carries (f payload : list Z) : Prop :=
  forall rest, exists start,
    frame_parts (f ++ rest) = Ok (Some (start, length payload, length f)) /\
    get_slice (f ++ rest) start (start + length payload) = Some payload.

(** The frames of a stream are blocks of it. *)
Definition valid_frame (f : list Z) : Prop :=
  exists start len, frame_parts f = Ok (Some (start, len, length f)).
Lemma frame_header_app bs more h :
  frame_header bs = Ok (Some h) -> frame_header (bs ++ more) = Ok (Some h).
Proof.
  destruct bs as [|b bs]; [done|]. unfold frame_header. cbn [head app].
  repeat case_bool_decide; [..|done].
  - intros [= Hx]. f_equal. apply fmap_Some in Hx as (len & Hx & ->).
    change (b :: bs ++ more) with ((b :: bs) ++ more). by rewrite (lookup_app_l_Some (b :: bs) more 1 len Hx).
  - intros [= Hx]. f_equal. apply fmap_Some in Hx as (l & Hx & ->).
    change (b :: bs ++ more) with ((b :: bs) ++ more).
    rewrite get_slice_app; [by rewrite Hx|]. apply get_slice_Some in Hx. lia.
Qed.
Lemma frame_header_Err bs more e :
  frame_header bs = Err e -> bs <> [] /\ frame_header (bs ++ more) = Err e.
Proof.
  destruct bs as [|b bs]; [done|]. unfold frame_header. cbn [head app].
  repeat case_bool_decide; done.
Qed.
Lemma frame_header_start bs ps pl :
  frame_header bs = Ok (Some (ps, pl)) -> (2 <= ps <= 3 /\ ps <= length bs)%nat.
Proof.
  destruct bs as [|b bs]; [done|]. unfold frame_header. cbn [head].
  repeat case_bool_decide; intros [= Hx]; apply fmap_Some in Hx as (x & Hx & [= -> _]).
  - apply lookup_lt_Some in Hx. simpl in *. lia.
  - apply get_slice_Some in Hx. lia.
Qed.
Lemma frame_header_take bs n ps pl :
  frame_header bs = Ok (Some (ps, pl)) -> (ps <= n)%nat -> frame_header (take n bs) = Ok (Some (ps, pl)).
Proof.
  intros H Hn. pose proof (frame_header_start _ _ _ H) as Hl.
  destruct bs as [|b bs]; [done|]. destruct n as [|n]; [lia|]. revert H. unfold frame_header.
  cbn [head take]. repeat case_bool_decide; intros [= Hx]; f_equal; apply fmap_Some in Hx as (x & Hx & [= -> ->]).
  - change (b :: take n bs) with (take (S n) (b :: bs)). change ((b :: bs) !! 1%nat = Some x) in Hx.
    rewrite lookup_take_lt, Hx by lia. done.
  - change (b :: take n bs) with (take (S n) (b :: bs)). rewrite <- (take_drop (S n) (b :: bs)) in Hx.
    rewrite get_slice_app in Hx; [by rewrite Hx|]. rewrite length_take. simpl in *. lia.
Qed.

(** Every verdict on a frame is final: more bytes do not change it. *)
Lemma frame_parts_app bs more r :
  frame_parts bs = r -> r <> Ok None -> frame_parts (bs ++ more) = r.
Proof.
  unfold frame_parts. intros <- Hr. destruct (frame_header bs) as [[[ps pl]|]|e] eqn:E; [|done|].
  - rewrite (frame_header_app _ more _ E). simpl in *. revert Hr. case_bool_decide; [done|].
    destruct (decide (length bs < ps + pl + 3)%nat) as [Hs|Hs].
    { rewrite (bool_decide_true (length bs < _)%nat) by done. by intros []. }
    intros _. rewrite (bool_decide_false (length bs < _)%nat) by lia.
    rewrite (bool_decide_false (length (bs ++ more) < _)%nat) by (rewrite length_app; lia).
    rewrite lookup_app_l, !get_slice_app by lia. done.
  - by rewrite (proj2 (frame_header_Err _ more _ E)).
Qed.
Lemma frame_parts_Ok bs ps pl tl :
  frame_parts bs = Ok (Some (ps, pl, tl)) ->
  (2 <= ps <= 3 /\ tl = ps + pl + 3 /\ tl <= length bs /\ tl <= VESC_MAX_FRAME_LEN)%nat /\
  frame_parts (take tl bs) = Ok (Some (ps, pl, tl)).
Proof.
  intros H. assert (Ht : (ps + pl + 3 <= length bs)%nat /\ tl = (ps + pl + 3)%nat /\
    (tl <= VESC_MAX_FRAME_LEN)%nat /\ frame_header bs = Ok (Some (ps, pl))).
  { revert H. unfold frame_parts. destruct (frame_header bs) as [[[a b]|]|e]; simpl; try done.
    repeat case_bool_decide; simpl; try done. intros H'.
    apply result_bind_Ok in H' as (? & _ & H'). apply result_bind_Ok in H' as (? & _ & H').
    case_bool_decide; [|done]. injection H' as <- <- <-. split_ands; [lia|done|lia|done]. }
  destruct Ht as (Hl & -> & Hm & Hh). pose proof (frame_header_start _ _ _ Hh).
  split; [lia|]. trans (frame_parts bs); [|exact H]. unfold frame_parts.
  rewrite Hh, (frame_header_take bs _ ps pl) by (done || lia). simpl.
  rewrite (bool_decide_false (VESC_MAX_FRAME_LEN < _)%nat) by lia.
  rewrite (bool_decide_false (length (take _ bs) < _)%nat) by (rewrite length_take; lia).
  rewrite (bool_decide_false (length bs < _)%nat) by lia.
  rewrite lookup_take_lt, !get_slice_take by lia. done.
Qed.

Lemma recoverable_header bs :
  recoverable_frame_len bs =
  match frame_header bs with
  | Ok (Some (ps, pl)) =>
      let total_len := (ps + pl + 3)%nat in
      if bool_decide (total_len <= VESC_MAX_FRAME_LEN)%nat
         && bool_decide (total_len <= length bs)%nat
         && bool_decide (bs !! (total_len - 1)%nat = Some VESC_FRAME_END)
      then Some total_len else None
  | _ => None
  end.
Proof.
  unfold recoverable_frame_len, frame_header. destruct (head bs) as [b|]; [|done]. cbn [mbind option_bind].
  repeat case_bool_decide; by (destruct (bs !! 1%nat), (get_slice bs 1 3)).
Qed.
Lemma recoverable_bounds bs n :
  recoverable_frame_len bs = Some n -> (0 < n <= length bs)%nat.
Proof.
  rewrite recoverable_header. destruct (frame_header bs) as [[[ps pl]|]|]; [|done..]. simpl.
  destruct (_ && _ && _) eqn:E; [|done]. intros [= <-]. prop_bools. lia.
Qed.
Lemma recoverable_app bs more e :
  frame_parts bs = Err e -> recoverable_frame_len (bs ++ more) = recoverable_frame_len bs.
Proof.
  rewrite !recoverable_header. unfold frame_parts.
  destruct (frame_header bs) as [[[ps pl]|]|e'] eqn:E; [|done|].
  - rewrite (frame_header_app _ more _ E). simpl. intros H.
    case_bool_decide as Hm; [rewrite !(bool_decide_false (_ <= VESC_MAX_FRAME_LEN)%nat) by lia; done|].
    destruct (decide (length bs < ps + pl + 3)%nat) as [Hs|Hs];
      [by rewrite bool_decide_true in H|].
    rewrite lookup_app_l by lia. rewrite length_app.
    rewrite (bool_decide_true (_ <= length bs)%nat) by lia.
    by rewrite (bool_decide_true (_ <= length bs + _)%nat) by lia.
  - by rewrite (proj2 (frame_header_Err _ more _ E)).
Qed.

Lemma frame_len_Some bs n :
  frame_len bs = Ok (Some n) ->
  exists ps pl, frame_parts bs = Ok (Some (ps, pl, n)) /\ (5 <= n <= length bs)%nat /\
    (n <= VESC_MAX_FRAME_LEN)%nat.
Proof.
  unfold frame_len. intros H. apply result_bind_Ok in H as ([[[ps pl] tl]|] & H & [=]). subst tl.
  exists ps, pl. split; [done|]. apply frame_parts_Ok in H. lia.
Qed.
(** The checks of [frame_parts], on a frame given as its parts. *)
Lemma frame_parts_built header payload rest :
  (forall p, in_u u16_max (vesc_crc16 p)) ->
  frame_header (header ++ payload ++ u16_be (vesc_crc16 payload) ++ [3] ++ rest)
    = Ok (Some (length header, length payload)) ->
  (length header + length payload + 3 <= VESC_MAX_FRAME_LEN)%nat ->
  frame_parts (header ++ payload ++ u16_be (vesc_crc16 payload) ++ [3] ++ rest)
    = Ok (Some (length header, length payload, (length header + length payload + 3)%nat)).
Proof.
  intros Hcrc Hh Hl. unfold frame_parts. rewrite Hh. cbn [result_bind].
  set (crc := u16_be (vesc_crc16 payload)). assert (Hc : length crc = 2%nat) by done.
  rewrite bool_decide_false by lia.
  rewrite bool_decide_false by (rewrite !length_app, Hc; simpl; lia).
  rewrite (bool_decide_true (_ = Some VESC_FRAME_END)).
  2:{ rewrite (app_assoc header), (app_assoc _ crc).
      rewrite lookup_app_r by (rewrite !length_app, Hc; lia).
      rewrite !length_app, Hc.
      replace (_ - _)%nat with 0%nat by lia. done. }
  replace (get_slice _ (length header + length payload) _) with (Some crc).
  2:{ symmetry. rewrite (app_assoc header). rewrite <- (length_app header payload), <- Hc.
      apply get_slice_middle. }
  rewrite get_slice_middle. cbn [negb fmap option_fmap option_map ok_or result_bind].
  unfold crc. rewrite be16_of_u16 by done. by rewrite bool_decide_true.
Qed.
Lemma frame_of_carries payload :
  (forall p, in_u u16_max (vesc_crc16 p)) -> (length payload <= VESC_MAX_FRAME_LEN - 6)%nat ->
  carries (frame_of payload) payload.
Proof.
  intros Hcrc Hl rest. unfold frame_of, VESC_MAX_FRAME_LEN in *.
  set (header := if bool_decide _ then _ else _).
  exists (length header). rewrite <- !app_assoc. split.
  - rewrite frame_parts_built; [..|unfold header, VESC_MAX_FRAME_LEN; case_bool_decide; simpl; int_lia].
    + do 3 f_equal. rewrite !length_app. simpl. lia.
    + done.
    + unfold header. case_bool_decide as Hs; unfold frame_header; cbn [head app].
      * rewrite bool_decide_true by done. cbn [lookup list_lookup fmap option_fmap option_map length].
        by rewrite Nat2Z.id.
      * rewrite bool_decide_false, bool_decide_true by done.
        replace (get_slice _ 1 3) with (Some (u16_be (Z.of_nat (length payload))))
          by (symmetry; apply (get_slice_middle [3] (u16_be (Z.of_nat (length payload))))).
        cbn [fmap option_fmap option_map]. rewrite be16_of_u16 by int_lia. by rewrite Nat2Z.id.
  - apply get_slice_middle.
Qed.

(** ** Properties *)

(** What this code frames, this code reads back: every encoder builds a
    complete frame that carries its payload, whatever bytes follow, so that the
    header, the length in one or two bytes, the checksum and the end byte are
    where the decoder looks for them. *)
Theorem vesc_encoders_roundtrip :
  (forall p, in_u u16_max (vesc_crc16 p)) ->
  (forall payload f, encode_settings_payload payload = Some f -> carries f payload) /\
  (forall command_id, carries (encode_raw_command command_id) [command_id]) /\
  (forall action milliamps f, encode_phone_drive_current action milliamps = Some f ->
     carries f ((match action with Some Brake => 7 | _ => 6 end) :: be32_bytes milliamps)).
Proof.
  intros Hcrc. split_ands.
  - intros payload f. unfold encode_settings_payload.
    destruct (_ || _) eqn:E; [done|]. prop_bools. case_bool_decide; [|done]. intros [= <-].
    apply frame_of_carries; [done|]. unfold MAX_TRANSPORT_WRITE_LEN, VESC_MAX_FRAME_LEN in *. lia.
  - intros c. apply (frame_of_carries [c]); [done|simpl; unfold VESC_MAX_FRAME_LEN; lia].
  - intros action ma f. unfold encode_phone_drive_current. case_bool_decide; [done|].
    intros [= <-]. destruct action as [[]|]; (apply (frame_of_carries (_ :: be32_bytes ma)); [done|]);
      simpl; unfold VESC_MAX_FRAME_LEN; lia.
Qed.

End Frames.

(** ** Witness *)

(** A checksum of the right width. *)
Definition sum_crc (p : list Z) : Z := foldr Z.add 0 p mod 65536.
Lemma sum_crc_range p : in_u u16_max (sum_crc p).
Proof. unfold sum_crc. pose proof (Z.mod_pos_bound (foldr Z.add 0 p) 65536). int_lia. Qed.
Lemma vesc_encoders_roundtrip_witness : carries sum_crc [2; 2; 93; 1; 0; 94; 3] [93; 1].
Proof.
  apply (proj1 (vesc_encoders_roundtrip sum_crc sum_crc_range) [93; 1]). vm_compute. reflexivity.
Defined.

