(* ===== verification/VescStream.v ===== *)
(** * VESC replies and their stream decoder

    [cutout-protocols/src/vesc_codec.rs], lines 901-1077 and 1174-1221: which
    reply a packet is, and the bounded buffer that recovers packets from
    notifications.

    Parameters of the section: the checksum; [vesc_decode], the [vesc] crate's
    decoder of the replies this file does not decode itself; and the decoders
    of statistics and motor configurations, which are floating point.  The
    buffer [[u8; 1024]] is a list of that length with its two positions; the
    loop of [feed_result] runs on the number of unread bytes as fuel, and each
    turn consumes at least one ([vesc_loop_terminates]). *)

From S2P Require Import Prelude.
From S2P Require Import Parser VescValues VescFrame.

Definition VESC_MAX_HASH_LEN : nat := 47.
Definition VESC_MAX_STREAM_REPLIES : nat := 4.
Definition VESC_COMM_GET_VALUES : Z := 4.
Definition VESC_COMM_GET_STATS : Z := 128.
Definition VESC_COMM_GET_MCCONF : Z := 14.
Definition VESC_COMM_GET_VALUES_SELECTIVE : Z := 50.
Definition VESC_COMM_GET_MCCONF_TEMP : Z := 91.

(** What the [vesc] crate answers, as far as [map_command_reply] looks at it. *)
Record FwInfo := {
  fw_major : Z; fw_minor : Z; fw_test_version : Z;
  fw_commit_hash : option string; fw_user_commit_hash : option string;
}.
Inductive CommandReply (Stats : Type) :=
| CrFwInfo (info : FwInfo)
| CrGetStats (stats : Stats)
| CrFwVersion (major minor test_version_number : Z)
| CrGetValues | CrGetValuesSelective | CrGetValuesSetupSelective | CrResetStats.
Arguments CrFwInfo {Stats} _.
Arguments CrGetStats {Stats} _.
Arguments CrFwVersion {Stats} _ _ _.
Arguments CrGetValues {Stats}.
Arguments CrGetValuesSelective {Stats}.
Arguments CrGetValuesSetupSelective {Stats}.
Arguments CrResetStats {Stats}.

Inductive VescReadOnlyReply (Stats Config Geometry : Type) :=
| CustomConfig (index : Z) (bytes : list Z)
| AppConfig (bytes : list Z)
| ConfigurationStored
| CustomConfigDispatched
| FirmwareInfo (major minor test_version_number : Z) (commit_hash user_commit_hash : string)
| Values (values : VescValuesTelemetry)
| ReplyStats (stats : Stats)
| MotorConfig (config : Config)
| MotorSetupConfig (geometry : Geometry).
Arguments CustomConfig {Stats Config Geometry} _ _.
Arguments AppConfig {Stats Config Geometry} _.
Arguments ConfigurationStored {Stats Config Geometry}.
Arguments CustomConfigDispatched {Stats Config Geometry}.
Arguments FirmwareInfo {Stats Config Geometry} _ _ _ _ _.
Arguments Values {Stats Config Geometry} _.
Arguments ReplyStats {Stats Config Geometry} _.
Arguments MotorConfig {Stats Config Geometry} _.
Arguments MotorSetupConfig {Stats Config Geometry} _.

(** [bounded_string]: a string that does not fit is dropped whole. *)
Definition bounded_string (value : string) : string :=
  if bool_decide (String.length value <= VESC_MAX_HASH_LEN)%nat then value else EmptyString.

Section Vesc.
Context (vesc_crc16 : list Z -> Z).
Context {VescStats Stats Config Geometry : Type}.
Context (vesc_decode : list Z -> option (nat * CommandReply VescStats)).
Context (stats_from : VescStats -> Stats).
Context (decode_stats : list Z -> result Stats VescCodecError).
Context (decode_motor_config : list Z -> result Config VescCodecError).
Context (decode_speed_geometry : list Z -> result Geometry VescCodecError).

Abbreviation Reply := (VescReadOnlyReply Stats Config Geometry).


#[local] Abbreviation frame_parts := (frame_parts vesc_crc16).
#[local] Abbreviation frame_len := (frame_len vesc_crc16).
#[local] Abbreviation frame_of := (frame_of vesc_crc16).
#[local] Abbreviation carries := (carries vesc_crc16).
#[local] Abbreviation valid_frame := (valid_frame vesc_crc16).

(** ** Replies *)

Definition decode_typed_reply (frame : list Z) : result (option Reply) VescCodecError :=
  parts <-? frame_parts frame;
  match parts with
  | None => Ok None
  | Some (payload_start, payload_len, _) =>
      payload <-? ok_or (get_slice frame payload_start (payload_start + payload_len)) DecodeFailed;
      match payload with
      | [] => Err DecodeFailed
      | command_id :: body =>
          if bool_decide (command_id = 93) then
            match body with
            | [] => Err DecodeFailed
            | index :: bytes =>
                if bool_decide (VESC_MAX_FRAME_LEN - 4 < length bytes)%nat then Err DecodeFailed
                else Ok (Some (CustomConfig index bytes))
            end
          else if bool_decide (command_id = 17) then Ok (Some (AppConfig body))
          else if (bool_decide (command_id = 13) || bool_decide (command_id = 16))
                  && bool_decide (body = []) then Ok (Some ConfigurationStored)
          else if bool_decide (command_id = 95) && bool_decide (body = [])
          then Ok (Some CustomConfigDispatched)
          else if bool_decide (command_id = VESC_COMM_GET_VALUES) then
            values <-? decode_full_values body; Ok (Some (Values values))
          else if bool_decide (command_id = VESC_COMM_GET_STATS) then
            stats <-? decode_stats body; Ok (Some (ReplyStats stats))
          else if bool_decide (command_id = VESC_COMM_GET_MCCONF) then
            config <-? decode_motor_config body; Ok (Some (MotorConfig config))
          else if bool_decide (command_id = VESC_COMM_GET_VALUES_SELECTIVE) then
            values <-? decode_selective_values body; Ok (Some (Values values))
          else if bool_decide (command_id = VESC_COMM_GET_MCCONF_TEMP) then
            geometry <-? decode_speed_geometry body; Ok (Some (MotorSetupConfig geometry))
          else Ok None
      end
  end.

Definition map_command_reply (reply : CommandReply VescStats) : result Reply VescCodecError :=
  match reply with
  | CrFwInfo info =>
      Ok (FirmwareInfo (fw_major info) (fw_minor info) (fw_test_version info)
            (bounded_string (default EmptyString (fw_commit_hash info)))
            (bounded_string (default EmptyString (fw_user_commit_hash info))))
  | CrGetStats stats => Ok (ReplyStats (stats_from stats))
  | CrFwVersion major minor test_version_number =>
      Ok (FirmwareInfo major minor test_version_number EmptyString EmptyString)
  | CrGetValues | CrGetValuesSelective | CrGetValuesSetupSelective | CrResetStats =>
      Err UnsupportedReply
  end.

Definition decode_frame (frame : list Z) : result Reply VescCodecError :=
  typed <-? decode_typed_reply frame;
  match typed with
  | Some reply => Ok reply
  | None => decoded <-? ok_or (vesc_decode frame) DecodeFailed; map_command_reply decoded.2
  end.

(** ** The stream decoder *)

Record VescReadOnlyStreamDecoder := {
  buffer : list Z;
  read_position : nat;
  write_position : nat;
}.
#[global] Instance eta_stream : Eta VescReadOnlyStreamDecoder := fun r =>
  Build_VescReadOnlyStreamDecoder (buffer r) (read_position r) (write_position r).
Inductive VescReadOnlyStreamResult :=
| Buffered
| Replies (replies : list Reply) (malformed_frames : bool).

Definition stream_new : VescReadOnlyStreamDecoder :=
  {| buffer := replicate VESC_MAX_FRAME_LEN 0; read_position := 0; write_position := 0 |}.

(** [buffer.copy_within(read..write, 0)]. *)
Definition compact (s : VescReadOnlyStreamDecoder) : VescReadOnlyStreamDecoder :=
  if bool_decide (read_position s = 0%nat) then s else
  let pending := take (write_position s - read_position s) (drop (read_position s) (buffer s)) in
  {| buffer := pending ++ drop (length pending) (buffer s);
     read_position := 0;
     write_position := write_position s - read_position s |}.

(** The [while] loop: the decoder, the replies so far and whether a frame was
    invalid; or the early return of an error. *)
Fixpoint feed_loop (fuel : nat) (s : VescReadOnlyStreamDecoder) (replies : list Reply)
    (saw_invalid_frame : bool)
  : VescReadOnlyStreamDecoder * result (list Reply * bool) VescCodecError :=
  match fuel with
  | O => (s, Ok (replies, saw_invalid_frame))
  | S fuel =>
      if negb (bool_decide (read_position s < write_position s)%nat)
      then (s, Ok (replies, saw_invalid_frame))
      else
        match get_slice (buffer s) (read_position s) (write_position s) with
        | None => (s, Err DecodeFailed)
        | Some frame =>
            match frame_len frame with
            | Ok (Some len) =>
                match get_slice frame 0 len with
                | None => (s, Err DecodeFailed)
                | Some frame =>
                    if bool_decide (length replies = VESC_MAX_STREAM_REPLIES)
                    then (s, Ok (replies, saw_invalid_frame))
                    else
                      let s' := s <| read_position := (read_position s + len)%nat |> in
                      match decode_frame frame with
                      | Ok reply => feed_loop fuel s' (replies ++ [reply]) saw_invalid_frame
                      | Err _ => feed_loop fuel s' replies true
                      end
                end
            | Ok None => (s, Ok (replies, saw_invalid_frame))
            | Err _ =>
                let discarded_len := default 1%nat (recoverable_frame_len frame) in
                feed_loop fuel (s <| read_position := (read_position s + discarded_len)%nat |>)
                  replies true
            end
        end
  end.

Definition feed_result (s : VescReadOnlyStreamDecoder) (bytes : list Z)
  : VescReadOnlyStreamDecoder * result VescReadOnlyStreamResult VescCodecError :=
  let s := compact s in
  if bool_decide (length (buffer s) - write_position s < length bytes)%nat
  then (s, Err DecodeFailed)
  else
    let write_end := (write_position s + length bytes)%nat in
    let s := s <| buffer := take (write_position s) (buffer s) ++ bytes
                            ++ drop write_end (buffer s) |>
               <| write_position := write_end |> in
    let '(s, r) := feed_loop (write_position s - read_position s) s [] false in
    (s, outcome <-? r;
        let '(replies, saw_invalid_frame) := outcome in
        if bool_decide (length replies = 0%nat) && saw_invalid_frame then Err DecodeFailed else
        Ok (if bool_decide (length replies = 0%nat) then Buffered
            else Replies replies saw_invalid_frame)).

(** ** The stream as a list

    What the first bytes of a stream are: a frame, or bytes to discard, and how
    many of them; nothing while more bytes are needed. *)
Definition next_item (bs : list Z) : option (option (list Z) * nat) :=
  if bool_decide (bs = []) then None else
  match frame_len bs with
  | Ok (Some len) => Some (Some (take len bs), len)
  | Ok None => None
  | Err _ => Some (None, default 1%nat (recoverable_frame_len bs))
  end.

(** All items of a byte string, and the bytes that wait for more. *)
Fixpoint parse (fuel : nat) (bs : list Z) : list (option (list Z)) * list Z :=
  match fuel with
  | O => ([], bs)
  | S fuel =>
      match next_item bs with
      | None => ([], bs)
      | Some (item, n) => let '(items, rest) := parse fuel (drop n bs) in (item :: items, rest)
      end
  end.
Definition items (bs : list Z) : list (option (list Z)) := (parse (length bs) bs).1.
Definition waiting (bs : list Z) : list Z := (parse (length bs) bs).2.

(** The reply an item gives, if any. *)
Definition item_reply (item : option (list Z)) : option Reply :=
  frame ← item; result_ok (decode_frame frame).
Definition item_bad (item : option (list Z)) : bool :=
  match item_reply item with Some _ => false | None => true end.
Definition replies_in (bs : list Z) : list Reply := omap item_reply (items bs).

(** One call: items are taken until [room] replies are out and another frame
    is complete. *)
Fixpoint batch (fuel : nat) (room : nat) (bs : list Z) : list (option (list Z)) * list Z :=
  match fuel with
  | O => ([], bs)
  | S fuel =>
      match next_item bs with
      | None => ([], bs)
      | Some (item, n) =>
          if bool_decide (is_Some item /\ room = 0%nat) then ([], bs) else
          let room := if item_bad item then room else (room - 1)%nat in
          let '(items, rest) := batch fuel room (drop n bs) in (item :: items, rest)
      end
  end.

(** The bytes a decoder still holds. *)
Definition pending (s : VescReadOnlyStreamDecoder) : list Z :=
  take (write_position s - read_position s) (drop (read_position s) (buffer s)).
Definition stream_ok (s : VescReadOnlyStreamDecoder) : Prop :=
  length (buffer s) = VESC_MAX_FRAME_LEN /\
  (read_position s <= write_position s <= VESC_MAX_FRAME_LEN)%nat.
(** Whether a notification fits behind the bytes held. *)
Definition fits (s : VescReadOnlyStreamDecoder) (bytes : list Z) : bool :=
  bool_decide (length (pending s) + length bytes <= VESC_MAX_FRAME_LEN)%nat.
(** The notifications of a run that fit, and the replies of its outputs. *)
Fixpoint taken (s : VescReadOnlyStreamDecoder) (chunks : list (list Z)) : list (list Z) :=
  match chunks with
  | [] => []
  | c :: cs => (if fits s c then [c] else []) ++ taken (feed_result s c).1 cs
  end.
Definition replies_of (out : result VescReadOnlyStreamResult VescCodecError) : list Reply :=
  match out with Ok (Replies replies _) => replies | _ => [] end.

(** *** Items *)

Lemma next_item_bounds bs item n :
  next_item bs = Some (item, n) -> (0 < n <= length bs)%nat.
Proof.
  unfold next_item. case_bool_decide as Hb; [done|].
  assert (0 < length bs)%nat by (destruct bs; [done|simpl; lia]).
  destruct (frame_len bs) as [[len|]|e] eqn:E; intros [= <- <-].
  - apply frame_len_Some in E as (? & ? & _ & ? & _). lia.
  - destruct (recoverable_frame_len bs) as [k|] eqn:R; simpl; [|lia].
    apply recoverable_bounds in R. lia.
Qed.
(** What the first item is does not depend on the bytes behind it. *)
Lemma next_item_app bs more it :
  next_item bs = Some it -> next_item (bs ++ more) = Some it.
Proof.
  unfold next_item. case_bool_decide as Hb; [done|].
  rewrite bool_decide_false by (intros [? _]%app_eq_nil; done).
  destruct (frame_len bs) as [[len|]|e] eqn:E; intros [= <-].
  - pose proof (frame_len_Some _ _ _ E) as (ps & pl & Hp & Hl & _). unfold frame_len.
    rewrite (frame_parts_app _ _ more _ Hp) by done. simpl. by rewrite take_app_le by lia.
  - assert (Hp : frame_parts bs = Err e).
    { unfold frame_len in E. destruct (frame_parts bs); simpl in E; congruence. }
    unfold frame_len. rewrite (frame_parts_app _ _ more _ Hp) by done. simpl.
    by rewrite (recoverable_app _ _ more _ Hp).
Qed.

Lemma parse_S fuel bs :
  parse (S fuel) bs =
  match next_item bs with
  | None => ([], bs)
  | Some (item, n) => (item :: (parse fuel (drop n bs)).1, (parse fuel (drop n bs)).2)
  end.
Proof. simpl. destruct (next_item bs) as [[item n]|]; [|done]. by destruct (parse fuel (drop n bs)). Qed.
Lemma parse_fuel fuel bs :
  (length bs <= fuel)%nat -> parse fuel bs = (items bs, waiting bs).
Proof.
  unfold items, waiting. rewrite <- surjective_pairing.
  revert bs. induction fuel as [fuel IH] using lt_wf_ind. intros bs Hl.
  destruct bs as [|b bs]; [by destruct fuel|]. destruct fuel as [|fuel]; [simpl in Hl; lia|].
  change (length (b :: bs)) with (S (length bs)). rewrite !parse_S.
  destruct (next_item (b :: bs)) as [[it n]|] eqn:E; [|done].
  apply next_item_bounds in E.
  assert (Hd : (length (drop n (b :: bs)) <= length bs)%nat) by (rewrite length_drop; simpl; lia).
  assert (Hf : (length bs <= fuel)%nat) by (simpl in Hl; lia).
  rewrite (IH fuel) by lia. destruct (decide (length bs < S fuel)%nat); [|lia].
  rewrite (IH (length bs)) by lia. done.
Qed.
Lemma items_step bs :
  match next_item bs with
  | None => items bs = [] /\ waiting bs = bs
  | Some (item, n) => items bs = item :: items (drop n bs) /\ waiting bs = waiting (drop n bs)
  end.
Proof.
  destruct (next_item bs) as [[item n]|] eqn:E.
  - pose proof (next_item_bounds _ _ _ E) as Hn.
    pose proof (parse_fuel (S (length bs)) bs ltac:(lia)) as H. rewrite parse_S, E in H.
    rewrite (parse_fuel (length bs)) in H by (rewrite length_drop; lia).
    injection H as <- <-. done.
  - pose proof (parse_fuel (S (length bs)) bs ltac:(lia)) as H. rewrite parse_S, E in H.
    injection H as <- <-. done.
Qed.
(** The induction principle of [items]. *)
Lemma stream_ind (P : list Z -> Prop) :
  (forall bs, next_item bs = None -> P bs) ->
  (forall bs item n, next_item bs = Some (item, n) -> P (drop n bs) -> P bs) ->
  forall bs, P bs.
Proof.
  intros H0 H1 bs. remember (length bs) as k eqn:Hk. revert bs Hk.
  induction k as [k IH] using lt_wf_ind. intros bs ->.
  destruct (next_item bs) as [[item n]|] eqn:E; [|auto]. apply (H1 _ _ _ E).
  apply next_item_bounds in E. eapply IH; [|reflexivity]. rewrite length_drop. lia.
Qed.
Lemma items_app bs more :
  items (bs ++ more) = items bs ++ items (waiting bs ++ more).
Proof.
  revert bs. apply stream_ind.
  - intros bs E. pose proof (items_step bs) as H. rewrite E in H. by destruct H as [-> ->].
  - intros bs item n E IH. pose proof (items_step bs) as H. rewrite E in H. destruct H as [-> ->].
    pose proof (items_step (bs ++ more)) as H. rewrite (next_item_app _ _ _ E) in H.
    destruct H as [-> _]. pose proof (next_item_bounds _ _ _ E).
    rewrite drop_app_le by lia. simpl. by rewrite IH.
Qed.
Lemma waiting_stuck bs : next_item (waiting bs) = None.
Proof.
  revert bs. apply stream_ind.
  - intros bs E. pose proof (items_step bs) as H. rewrite E in H. by destruct H as [_ ->].
  - intros bs item n E IH. pose proof (items_step bs) as H. rewrite E in H. by destruct H as [_ ->].
Qed.

(** *** The buffer holds a list *)

Lemma pending_length s :
  stream_ok s -> length (pending s) = (write_position s - read_position s)%nat.
Proof. intros [Hl Hp]. unfold pending. rewrite length_take, length_drop. lia. Qed.
Lemma pending_advance s n :
  stream_ok s -> (n <= length (pending s))%nat ->
  let s' := s <| read_position := (read_position s + n)%nat |> in
  stream_ok s' /\ pending s' = drop n (pending s).
Proof.
  intros Hs Hn. rewrite pending_length in Hn by done. destruct Hs as [Hl Hp].
  destruct s as [b r w]. unfold stream_ok, pending in *. simpl in *. split; [lia|].
  rewrite skipn_firstn_comm, drop_drop. f_equal. lia.
Qed.
Lemma compact_spec s :
  stream_ok s ->
  stream_ok (compact s) /\ pending (compact s) = pending s /\
  read_position (compact s) = 0%nat /\ write_position (compact s) = length (pending s) /\
  buffer (compact s) = pending s ++ drop (length (pending s)) (buffer (compact s)).
Proof.
  intros Hs. pose proof (pending_length s Hs) as Hlen. destruct Hs as [Hl Hp].
  unfold compact. case_bool_decide as Hr.
  - rewrite Hr, Nat.sub_0_r in Hlen. split_ands; [by split|done|done|by rewrite Hlen|].
    unfold pending at 1. rewrite Hr, Nat.sub_0_r, drop_0, Hlen. symmetry. apply take_drop.
  - fold (pending s). rewrite Hlen. unfold stream_ok. simpl.
    assert (Hb : length (pending s ++ drop (write_position s - read_position s) (buffer s))
                 = VESC_MAX_FRAME_LEN) by (rewrite length_app, length_drop, Hlen; lia).
    split_ands; [done|lia|lia| |done|done|].
    + unfold pending at 1. simpl. rewrite ?Nat.sub_0_r, drop_0, take_app_le, take_ge by lia. done.
    + rewrite drop_app_ge, Hlen, Nat.sub_diag by lia. done.
Qed.

Lemma reply_count item its :
  length (omap item_reply (item :: its)) =
  ((if item_bad item then 0 else 1) + length (omap item_reply its))%nat.
Proof. unfold item_bad. cbn [omap list_omap]. by destruct (item_reply item). Qed.
Lemma batch_spec fuel room bs :
  (length bs <= fuel)%nat ->
  let its := (batch fuel room bs).1 in let rest := (batch fuel room bs).2 in
  items bs = its ++ items rest /\ waiting bs = waiting rest /\
  (length (omap item_reply its) <= room)%nat /\
  ((length (omap item_reply its) < room)%nat -> next_item rest = None) /\
  (exists n, rest = drop n bs /\ (n <= length bs)%nat).
Proof.
  revert room bs. induction fuel as [|fuel IH]; intros room bs Hl; simpl.
  { destruct bs; [|simpl in Hl; lia]. split_ands; [done|done|lia|done|by exists 0%nat]. }
  pose proof (items_step bs) as Hi. destruct (next_item bs) as [[item n]|] eqn:E.
  2:{ simpl. split_ands; [done|done|lia|done|exists 0%nat; split; [done|lia]]. }
  case_bool_decide as Hr.
  { simpl. destruct Hr as [_ ->]. split_ands; [done|done|lia|lia|exists 0%nat; split; [done|lia]]. }
  pose proof (next_item_bounds _ _ _ E) as Hn.
  specialize (IH (if item_bad item then room else (room - 1)%nat) (drop n bs)).
  destruct (batch fuel _ (drop n bs)) as [its rest]. cbn [fst snd] in *.
  destruct IH as (I1 & Iw & I2 & I3 & m & -> & Hm); [rewrite length_drop; lia|].
  destruct Hi as [-> ->]. rewrite I1, Iw. rewrite length_drop in Hm.
  split_ands; [done|done|..|exists (n + m)%nat; rewrite drop_drop; split; [done|lia]].
  - rewrite reply_count. destruct (item_bad item) eqn:Eb; [lia|].
    destruct item as [f|]; [|done].
    destruct room as [|room]; [destruct Hr; split; [by eexists|done]|]. lia.
  - rewrite reply_count. intros Hlt. apply I3. destruct (item_bad item); lia.
Qed.

(** One turn of the loop, on the bytes held. *)
Lemma feed_loop_S fuel s replies saw :
  stream_ok s ->
  feed_loop (S fuel) s replies saw =
  let advance n := s <| read_position := (read_position s + n)%nat |> in
  match next_item (pending s) with
  | None => (s, Ok (replies, saw))
  | Some (Some f, n) =>
      if bool_decide (length replies = VESC_MAX_STREAM_REPLIES) then (s, Ok (replies, saw)) else
      match decode_frame f with
      | Ok reply => feed_loop fuel (advance n) (replies ++ [reply]) saw
      | Err _ => feed_loop fuel (advance n) replies true
      end
  | Some (None, n) => feed_loop fuel (advance n) replies true
  end.
Proof.
  intros Hs. pose proof (pending_length s Hs) as Hlen. pose proof Hs as [Hb Hp]. cbn [feed_loop].
  case_bool_decide as Hrw; cbn [negb].
  2:{ assert (E : pending s = []) by (apply nil_length_inv; lia). by rewrite E. }
  replace (get_slice (buffer s) _ _) with (Some (pending s))
    by (symmetry; apply get_slice_Some; split; [lia|done]).
  unfold next_item. rewrite (bool_decide_false (pending s = []))
    by (intros E; rewrite E in Hlen; simpl in Hlen; lia).
  destruct (frame_len (pending s)) as [[len|]|e] eqn:E; [|done..].
  apply frame_len_Some in E as (? & ? & _ & ? & _).
  replace (get_slice (pending s) 0 len) with (Some (take len (pending s)))
    by (symmetry; apply get_slice_Some; split; [lia|by rewrite Nat.sub_0_r, drop_0]).
  done.
Qed.
Lemma batch_S fuel room bs :
  batch (S fuel) room bs =
  match next_item bs with
  | None => ([], bs)
  | Some (item, n) =>
      if bool_decide (is_Some item /\ room = 0%nat) then ([], bs) else
      let b := batch fuel (if item_bad item then room else (room - 1)%nat) (drop n bs) in
      (item :: b.1, b.2)
  end.
Proof.
  cbn [batch]. destruct (next_item bs) as [[item n]|]; [|done]. case_bool_decide; [done|].
  by destruct (batch fuel _ (drop n bs)).
Qed.

Lemma feed_loop_spec fuel s replies saw :
  stream_ok s -> (length (pending s) <= fuel)%nat -> (length replies <= VESC_MAX_STREAM_REPLIES)%nat ->
  let b := batch fuel (VESC_MAX_STREAM_REPLIES - length replies) (pending s) in
  exists s', feed_loop fuel s replies saw
             = (s', Ok (replies ++ omap item_reply b.1, saw || existsb item_bad b.1)) /\
    stream_ok s' /\ pending s' = b.2.
Proof.
  revert s replies saw. induction fuel as [|fuel IH]; intros s replies saw Hs Hf Hr; cbv zeta.
  { exists s. simpl. by rewrite app_nil_r, orb_false_r. }
  rewrite feed_loop_S, batch_S by done. cbv zeta.
  destruct (next_item (pending s)) as [[item n]|] eqn:E.
  2:{ exists s. simpl. by rewrite app_nil_r, orb_false_r. }
  pose proof (next_item_bounds _ _ _ E) as Hn.
  destruct (pending_advance s n Hs) as [Hs' Hp']; [lia|].
  assert (Hf' : (length (pending (s <| read_position := (read_position s + n)%nat |>)) <= fuel)%nat)
    by (rewrite Hp', length_drop; lia).
  assert (Hbad : item_bad item = true ->
    exists s', feed_loop fuel (s <| read_position := (read_position s + n)%nat |>) replies true
             = (s', Ok (replies ++ omap item_reply (item :: (batch fuel
                 (VESC_MAX_STREAM_REPLIES - length replies) (drop n (pending s))).1), true)) /\
    stream_ok s' /\ pending s' = (batch fuel
                 (VESC_MAX_STREAM_REPLIES - length replies) (drop n (pending s))).2).
  { intros Hi. destruct (IH _ replies true Hs' Hf' Hr) as (s' & E' & H1 & H2). rewrite Hp' in *.
    exists s'. split_ands; [|done|done]. rewrite E'. do 3 f_equal. unfold item_bad in Hi.
    cbn [omap list_omap]. by destruct (item_reply item). }
  destruct item as [f|].
  2:{ rewrite bool_decide_false by (intros [[? ?] _]; done). cbn [fst snd].
      destruct (Hbad eq_refl) as (s' & E' & H1 & H2). exists s'. rewrite E', orb_true_r. done. }
  destruct (decide (length replies = VESC_MAX_STREAM_REPLIES)) as [Hfull|Hfull].
  { rewrite !bool_decide_true by (try split; (done || by eexists) || lia).
    exists s. cbn [fst snd omap list_omap existsb]. by rewrite app_nil_r, orb_false_r. }
  rewrite (bool_decide_false (length replies = _)) by done.
  rewrite bool_decide_false by lia. cbn [fst snd].
  destruct (decode_frame f) as [reply|e] eqn:Ed.
  - assert (Eb : item_bad (Some f) = false) by (unfold item_bad; simpl; by rewrite Ed).
    rewrite Eb. destruct (IH _ (replies ++ [reply]) saw Hs' Hf') as (s' & E' & H1 & H2);
      [rewrite length_app; simpl; lia|].
    rewrite Hp', length_app, Nat.sub_add_distr in *. exists s'. split_ands; [|done|done].
    rewrite E'. cbn [existsb]. rewrite Eb. cbn [omap list_omap item_reply mbind option_bind].
    rewrite Ed. cbn [result_ok]. by rewrite <- app_assoc.
  - assert (Eb : item_bad (Some f) = true) by (unfold item_bad; simpl; by rewrite Ed).
    rewrite Eb. destruct (Hbad Eb) as (s' & E' & H1 & H2). exists s'. rewrite E'.
    cbn [existsb]. by rewrite Eb, orb_true_r.
Qed.

(** One notification: refused whole when it does not fit, and otherwise parsed
    together with the bytes held. *)
Lemma feed_spec s bytes :
  stream_ok s ->
  stream_ok (feed_result s bytes).1 /\
  if fits s bytes then
    let b := batch (length (pending s ++ bytes)) VESC_MAX_STREAM_REPLIES (pending s ++ bytes) in
    pending (feed_result s bytes).1 = b.2 /\
    replies_of (feed_result s bytes).2 = omap item_reply b.1
  else pending (feed_result s bytes).1 = pending s /\ (feed_result s bytes).2 = Err DecodeFailed.
Proof.
  intros Hs. destruct (compact_spec s Hs) as (Hc & Hp & Hr & Hw & Hbuf).
  pose proof Hc as [Hl Hpos]. unfold feed_result, fits.
  set (c := compact s) in *. clearbody c. rewrite Hw, Hl.
  destruct (decide (length (pending s) + length bytes <= VESC_MAX_FRAME_LEN)%nat) as [Hf|Hf].
  2:{ rewrite bool_decide_true by lia. rewrite bool_decide_false by lia. done. }
  rewrite bool_decide_false by lia. rewrite bool_decide_true by lia.
  set (c' := c <| buffer := _ |> <| write_position := _ |>).
  assert (Hc' : stream_ok c' /\ pending c' = pending s ++ bytes).
  { unfold c', stream_ok. destruct c as [b r w]. simpl in *. subst r.
    rewrite !length_app, length_take, length_drop. split; [split; lia|].
    unfold pending at 1. cbn [buffer read_position write_position].
    rewrite Nat.sub_0_r, drop_0, app_assoc, take_app_le.
    - rewrite Hbuf, take_app_length. apply take_ge. rewrite length_app. lia.
    - rewrite Hbuf, take_app_length, length_app. lia. }
  destruct Hc' as [Hok Hpend]. cbv zeta.
  pose proof (pending_length c' Hok) as Hlen. rewrite <- Hlen.
  destruct (feed_loop_spec (length (pending c')) c' [] false Hok (Nat.le_refl _) ltac:(simpl; lia))
    as (s' & E & Hs' & Hp').
  change (VESC_MAX_STREAM_REPLIES - length [])%nat with VESC_MAX_STREAM_REPLIES in *.
  rewrite E. cbn [fst snd result_bind app]. rewrite Hpend in *.
  split_ands; [done|done|]. set (its := (batch _ _ _).1) in *.
  case_bool_decide as H0; simpl in H0 |- *.
  - apply nil_length_inv in H0. unfold its in *. simpl. rewrite H0. by destruct (existsb _ _).
  - done.
Qed.

Lemma replies_in_app bs more :
  replies_in (bs ++ more) = replies_in bs ++ replies_in (waiting bs ++ more).
Proof. unfold replies_in. by rewrite items_app, omap_app. Qed.

(** The replies of a run, with those still waiting in the buffer, are the
    replies in the bytes that were taken. *)
Lemma stream_replies chunks s :
  stream_ok s ->
  stream_ok (run_state feed_result s chunks) /\
  exists its, concat (replies_of <$> run_outputs feed_result s chunks) = omap item_reply its /\
    items (pending s ++ concat (taken s chunks))
    = its ++ items (pending (run_state feed_result s chunks)).
Proof.
  revert s. induction chunks as [|c cs IH]; intros s Hs.
  { split; [done|]. exists []. simpl. by rewrite app_nil_r. }
  rewrite run_state_cons, run_outputs_cons. cbn [taken].
  destruct (feed_spec s c Hs) as [Hs1 Hf]. destruct (IH _ Hs1) as (H1 & its & H2 & H3).
  split; [done|]. rewrite fmap_cons. cbn [concat]. rewrite H2.
  destruct (fits s c).
  - destruct Hf as [Hp Hr]. destruct (batch_spec _ VESC_MAX_STREAM_REPLIES (pending s ++ c) (Nat.le_refl _))
      as (B1 & Bw & _). rewrite Hr. exists ((batch (length (pending s ++ c)) VESC_MAX_STREAM_REPLIES
      (pending s ++ c)).1 ++ its). rewrite omap_app. split; [done|].
    cbn [app concat]. rewrite (app_assoc (pending s) c), (items_app (pending s ++ c)), B1, Bw.
    rewrite <- !app_assoc. f_equal. rewrite <- items_app, <- Hp. exact H3.
  - destruct Hf as [Hp Hr]. rewrite Hr, Hp in *. exists its. by split.
Qed.

Lemma stream_new_ok : stream_ok stream_new /\ pending stream_new = [].
Proof. split; [split; [reflexivity|simpl; lia]|reflexivity]. Qed.

Lemma next_item_frame f payload rest :
  carries f payload -> next_item (f ++ rest) = Some (Some f, length f).
Proof.
  intros Hf. destruct (Hf rest) as (start & E & _). pose proof (frame_parts_Ok _ _ _ _ _ E) as [Hb _].
  unfold next_item, frame_len. rewrite E. cbn [result_bind fmap option_fmap option_map snd].
  rewrite take_app_length, bool_decide_false; [done|]. intros Hn. rewrite Hn in Hb. simpl in Hb. lia.
Qed.
Lemma items_frames frames :
  Forall (fun f => exists payload, carries f payload) frames ->
  items (concat frames) = Some <$> frames /\ waiting (concat frames) = [].
Proof.
  induction 1 as [|f frames [payload Hf] _ [IH1 IH2]]; [done|]. cbn [concat].
  pose proof (items_step (f ++ concat frames)) as H. rewrite (next_item_frame _ _ _ Hf) in H.
  rewrite drop_app_length, IH1, IH2 in H. exact H.
Qed.

Lemma items_scattered bs :
  scattered (omap id (items bs)) bs /\ Forall valid_frame (omap id (items bs)).
Proof.
  revert bs. apply stream_ind.
  - intros bs E. pose proof (items_step bs) as H. rewrite E in H. destruct H as [-> _].
    split; constructor.
  - intros bs item n E [IH1 IH2]. pose proof (items_step bs) as H. rewrite E in H.
    destruct H as [-> _]. pose proof (next_item_bounds _ _ _ E) as Hn.
    destruct item as [f|]; cbn [omap list_omap id].
    + assert (Hv : f = take n bs /\ valid_frame f).
      { revert E. unfold next_item. case_bool_decide; [done|].
        destruct (frame_len bs) as [[len|]|] eqn:El; intros [= <- <-]; split; [done|].
        apply frame_len_Some in El as (ps & pl & Hp & Hl & _). exists ps, pl.
        apply frame_parts_Ok in Hp as [_ Hp]. rewrite Hp, length_take. do 3 f_equal. lia. }
      destruct Hv as [-> Hv]. split; [|by constructor].
      pose proof (scattered_cons [] (take n bs) _ _ IH1) as Hc. by rewrite (take_drop n bs) in Hc.
    + split; [|done]. pose proof (scattered_noise _ (take n bs) _ IH1) as Hc.
      by rewrite (take_drop n bs) in Hc.
Qed.
Lemma scattered_take (fs gs : list (list Z)) bs : scattered (fs ++ gs) bs -> scattered fs bs.
Proof.
  revert bs. induction fs as [|f fs IH]; intros bs H; [constructor|]. inversion H; subst.
  constructor. by apply IH.
Qed.
Lemma omap_replies (its : list (option (list Z))) :
  omap item_reply its = omap (fun f => result_ok (decode_frame f)) (omap id its).
Proof. induction its as [|[f|] its IH]; cbn [omap list_omap id]; [done| |done]. by rewrite IH. Qed.

(** A call that does not return a full batch leaves nothing to decode. *)
Lemma feed_exhausts s bytes :
  stream_ok s -> fits s bytes = true ->
  (length (replies_of (feed_result s bytes).2) < VESC_MAX_STREAM_REPLIES)%nat ->
  items (pending (feed_result s bytes).1) = [].
Proof.
  intros Hs Hf Hl. destruct (feed_spec s bytes Hs) as [_ H]. rewrite Hf in H. destruct H as [Hp Hr].
  destruct (batch_spec _ VESC_MAX_STREAM_REPLIES (pending s ++ bytes) (Nat.le_refl _))
    as (_ & _ & _ & Hn & _). rewrite Hr in Hl. rewrite Hp.
  pose proof (items_step (batch (length (pending s ++ bytes)) VESC_MAX_STREAM_REPLIES
    (pending s ++ bytes)).2) as Hi. rewrite (Hn Hl) in Hi. by destruct Hi.
Qed.
Lemma feed_loop_fuel fuel extra s replies saw :
  stream_ok s -> (length (pending s) <= fuel)%nat ->
  feed_loop (fuel + extra) s replies saw = feed_loop fuel s replies saw.
Proof.
  revert s replies saw. induction fuel as [|fuel IH]; intros s replies saw Hs Hf.
  - assert (E : pending s = []) by (destruct (pending s); [done|simpl in Hf; lia]).
    destruct extra as [|extra]; [done|]. simpl (0 + _)%nat. rewrite feed_loop_S, E by done. done.
  - cbn [Nat.add]. rewrite !feed_loop_S by done. cbv zeta.
    destruct (next_item (pending s)) as [[item n]|] eqn:E; [|done].
    apply next_item_bounds in E. destruct (pending_advance s n Hs) as [Hs' Hp]; [lia|].
    assert (Hf' : (length (pending (s <| read_position := (read_position s + n)%nat |>)) <= fuel)%nat)
      by (rewrite Hp, length_drop; lia).
    destruct item as [f|]; [|by apply IH]. case_bool_decide; [done|].
    destruct (decode_frame f); by apply IH.
Qed.

Lemma taken_length s chunks : (length (taken s chunks) <= length chunks)%nat.
Proof.
  revert s. induction chunks as [|c cs IH]; intros s; [done|]. cbn [taken].
  specialize (IH (feed_result s c).1). rewrite length_app. destruct (fits s c); simpl; lia.
Qed.
Lemma taken_last s chunks c :
  taken s (chunks ++ [c]) = chunks ++ [c] -> fits (run_state feed_result s chunks) c = true.
Proof.
  revert s. induction chunks as [|x cs IH]; intros s; cbn [taken app].
  - change (run_state feed_result s []) with s. by destruct (fits s c).
  - rewrite run_state_cons. destruct (fits s x); cbn [app]; intros [= H] || intros H.
    + by apply IH.
    + exfalso. pose proof (taken_length (feed_result s x).1 (cs ++ [c])) as Hl.
      rewrite H in Hl. simpl in Hl. lia.
Qed.

(** ** Properties *)

(** How notifications cut the stream is irrelevant: whatever arrives, in
    whatever pieces, the replies handed out, followed by those of the bytes
    still held, are the replies of the notifications that fitted the buffer
    taken as one byte string; and each reply is the decoding of a block of that
    string with a correct length, checksum and end byte, in order and without
    overlap. *)
Theorem vesc_chunking_irrelevant (chunks : list (list Z)) :
  let s := run_state feed_result stream_new chunks in
  let replies := concat (replies_of <$> run_outputs feed_result stream_new chunks) in
  let stream := concat (taken stream_new chunks) in
  replies ++ replies_in (pending s) = replies_in stream /\
  exists frames, scattered frames stream /\ Forall valid_frame frames /\
    replies = omap (fun f => result_ok (decode_frame f)) frames.
Proof.
  cbv zeta. destruct stream_new_ok as [Hn En].
  destruct (stream_replies chunks stream_new Hn) as (_ & its & E1 & E2).
  rewrite En in E2. cbn [app] in E2. rewrite E1. unfold replies_in. rewrite E2, omap_app.
  split; [done|]. destruct (items_scattered (concat (taken stream_new chunks))) as [Hs Hv].
  rewrite E2, omap_app in Hs, Hv. apply scattered_take in Hs. apply Forall_app in Hv as [Hv _].
  exists (omap id its). split_ands; [done|done|]. apply omap_replies.
Qed.

(** C4: a stream of packets is decoded in full: however the packets of any
    payloads are cut into notifications, if each notification fits behind the
    bytes held then the replies handed out, followed by those still held, are
    the decodings of the packets in order; and when the last call did not
    return a full batch, none is held back. *)
Theorem vesc_stream_complete (payloads chunks : list (list Z)) :
  (forall p, in_u u16_max (vesc_crc16 p)) ->
  Forall (fun p => length p <= VESC_MAX_FRAME_LEN - 6)%nat payloads ->
  taken stream_new chunks = chunks -> concat chunks = concat (frame_of <$> payloads) ->
  let s := run_state feed_result stream_new chunks in
  let outs := run_outputs feed_result stream_new chunks in
  let decoded := omap (fun p => result_ok (decode_frame (frame_of p))) payloads in
  concat (replies_of <$> outs) ++ replies_in (pending s) = decoded /\
  (forall out, last outs = Some out -> (length (replies_of out) < VESC_MAX_STREAM_REPLIES)%nat ->
     concat (replies_of <$> outs) = decoded).
Proof.
  intros Hcrc Hp Ht Hc. cbv zeta. destruct stream_new_ok as [Hn En].
  destruct (stream_replies chunks stream_new Hn) as (_ & its & E1 & E2).
  rewrite En, Ht, Hc in E2. cbn [app] in E2.
  destruct (items_frames (frame_of <$> payloads)) as [Hi _].
  { apply Forall_fmap. eapply Forall_impl; [exact Hp|]. intros p Hl. exists p.
    by apply frame_of_carries. }
  assert (Hall : concat (replies_of <$> run_outputs feed_result stream_new chunks)
    ++ replies_in (pending (run_state feed_result stream_new chunks))
    = omap (fun p => result_ok (decode_frame (frame_of p))) payloads).
  { rewrite E1. unfold replies_in. rewrite <- omap_app, <- E2, Hi, omap_replies.
    clear. induction payloads as [|p ps IH]; [done|]. rewrite !fmap_cons. cbn [omap list_omap id] in *.
    by rewrite IH. }
  split; [done|]. intros out Hl Hlt. rewrite <- Hall.
  destruct chunks as [|c cs _] using rev_ind; [done|].
  rewrite run_state_app, run_outputs_app in *.
  rewrite run_outputs_one, run_state_one in *.
  rewrite last_snoc in Hl. injection Hl as <-.
  destruct (stream_replies cs stream_new Hn) as [Hs _].
  unfold replies_in.
  rewrite (feed_exhausts _ c Hs (taken_last _ _ _ Ht) Hlt). simpl. by rewrite app_nil_r.
Qed.

(** C39: the parsing loop always finishes: every turn consumes at least one of
    the bytes held, so as many turns as there are bytes are enough and more of
    them change nothing; a call that returns fewer replies than a batch holds
    has consumed every item that is complete. *)
Theorem vesc_loop_terminates (chunks : list (list Z)) (bytes : list Z) (extra : nat) :
  let s := run_state feed_result stream_new chunks in
  (forall replies saw, feed_loop (write_position s - read_position s + extra) s replies saw
     = feed_loop (write_position s - read_position s) s replies saw) /\
  (fits s bytes = true ->
   (length (replies_of (feed_result s bytes).2) < VESC_MAX_STREAM_REPLIES)%nat ->
   items (pending (feed_result s bytes).1) = []).
Proof.
  cbv zeta. destruct stream_new_ok as [Hn _].
  destruct (stream_replies chunks stream_new Hn) as [Hs _]. split; [|by apply feed_exhausts].
  intros replies saw. apply feed_loop_fuel; [done|]. rewrite pending_length by done. lia.
Qed.

(** A frame that claims the greatest length wedges the decoder: once it has
    1020 bytes of it, every notification of more than four bytes is refused and
    nothing is given up, so no later packet is ever decoded. *)
Definition claims_most (bs : list Z) : Prop := exists rest, bs = [3; 3; 250] ++ rest.

Lemma claim_waits bs :
  claims_most bs -> (length bs < VESC_MAX_FRAME_LEN)%nat -> next_item bs = None.
Proof.
  intros [rest ->] Hl. unfold next_item. cbn [app] in *. rewrite bool_decide_false by done.
  unfold frame_len, frame_parts, frame_header. cbn [head].
  rewrite bool_decide_false, bool_decide_true by done. unfold get_slice.
  rewrite bool_decide_true by (simpl; lia).
  change (take (3 - 1) (drop 1 (3 :: 3 :: 250 :: rest))) with [3; 250].
  cbn [fmap option_fmap option_map result_bind].
  change (Z.to_nat (be16_of [3; 250])) with 1018%nat.
  rewrite bool_decide_false by (unfold VESC_MAX_FRAME_LEN; lia).
  by rewrite bool_decide_true by (unfold VESC_MAX_FRAME_LEN in *; lia).
Qed.
Lemma claim_grows s c :
  stream_ok s -> claims_most (pending s ++ c) ->
  (length (pending s ++ c) < VESC_MAX_FRAME_LEN)%nat ->
  pending (feed_result s c).1 = pending s ++ c.
Proof.
  intros Hs Hc Hl. destruct (feed_spec s c Hs) as [_ H]. unfold fits in H.
  rewrite bool_decide_true in H by (rewrite length_app in Hl; lia). destruct H as [-> _].
  pose proof (claim_waits _ Hc Hl) as Hn.
  destruct (length (pending s ++ c)) as [|n]; [done|]. by rewrite batch_S, Hn.
Qed.
Lemma long_claim_grows s noise :
  stream_ok s -> claims_most (pending s) ->
  (length (pending s) + length (concat noise) < VESC_MAX_FRAME_LEN)%nat ->
  pending (run_state feed_result s noise) = pending s ++ concat noise.
Proof.
  revert s. induction noise as [|c cs IH]; intros s Hs Hc Hl; [by rewrite app_nil_r|].
  rewrite run_state_cons. cbn [concat] in *. rewrite length_app in Hl.
  assert (Hc' : claims_most (pending s ++ c))
    by (destruct Hc as [x ->]; exists (x ++ c); by rewrite <- app_assoc).
  pose proof (claim_grows s c Hs Hc' ltac:(rewrite length_app; lia)) as Hp.
  rewrite IH, Hp; [by rewrite <- app_assoc|apply feed_spec; done|by rewrite Hp|].
  rewrite Hp, length_app. lia.
Qed.
Lemma long_claim_wedges (s : VescReadOnlyStreamDecoder) (later : list (list Z)) :
  stream_ok s -> length (pending s) = 1020%nat -> Forall (fun c => 4 < length c)%nat later ->
  Forall (fun out => out = Err DecodeFailed) (run_outputs feed_result s later) /\
  pending (run_state feed_result s later) = pending s.
Proof.
  intros Hs Hl Hf. revert s Hs Hl. induction Hf as [|c cs Hc _ IH]; intros s Hs Hl; [done|].
  rewrite run_outputs_cons, run_state_cons. destruct (feed_spec s c Hs) as [Hs' H]. unfold fits in H.
  rewrite bool_decide_false in H by (unfold VESC_MAX_FRAME_LEN; lia). destruct H as [Hp Ho].
  destruct (IH _ Hs') as [I1 I2]; [by rewrite Hp|]. rewrite Ho, I2, Hp. split; [by constructor|done].
Qed.
End Vesc.

(** ** Witnesses *)

(** A checksum of the right width, and no replies of the [vesc] crate. *)
Definition no_stats (_ : list Z) : result unit VescCodecError := Err DecodeFailed.
Definition no_vesc (_ : list Z) : option (nat * CommandReply unit) := None.

(** One byte at a time, noise included. *)
Example stream_resynchronizes :
  let feed := feed_result sum_crc no_vesc (fun x => x) no_stats no_stats no_stats in
  concat (replies_of <$> run_outputs feed stream_new
    (map (fun b => [b]) ([9; 3; 255; 255] ++ frame_of sum_crc [17; 5; 6] ++ [2; 1; 17; 0; 0; 3]
                         ++ frame_of sum_crc [95])))
  = [AppConfig [5; 6]; CustomConfigDispatched].
Proof. vm_compute. reflexivity. Qed.

Lemma vesc_stream_complete_witness :
  let feed := feed_result sum_crc no_vesc (fun x => x) no_stats no_stats no_stats in
  concat (replies_of <$> run_outputs feed stream_new
    [[2; 3; 17; 5]; [6; 0; 28; 3; 2]; [1; 95; 0; 95; 3]])
  = [AppConfig [5; 6]; CustomConfigDispatched].
Proof.
  cbv zeta.
  refine (proj2 (vesc_stream_complete sum_crc no_vesc (fun x => x) no_stats no_stats no_stats
    [[17; 5; 6]; [95]] [[2; 3; 17; 5]; [6; 0; 28; 3; 2]; [1; 95; 0; 95; 3]]
    sum_crc_range _ _ _) (Ok (Replies [CustomConfigDispatched] false)) _ _).
  - repeat constructor; apply Nat.leb_le; vm_compute; reflexivity.
  - vm_compute. reflexivity.
  - vm_compute. reflexivity.
  - vm_compute. reflexivity.
  - apply Nat.ltb_lt. vm_compute. reflexivity.
Defined.

Lemma vesc_loop_terminates_witness :
  let feed := feed_result sum_crc no_vesc (fun x => x) no_stats no_stats no_stats in
  items sum_crc (pending (feed (run_state feed stream_new [[2; 1]]) [95; 0; 95; 3; 7]).1) = [].
Proof.
  cbv zeta.
  apply (proj2 (vesc_loop_terminates sum_crc no_vesc (fun x => x) no_stats no_stats no_stats
    [[2; 1]] [95; 0; 95; 3; 7] 0)).
  - vm_compute. reflexivity.
  - apply Nat.ltb_lt. vm_compute. reflexivity.
Defined.

