(* ===== verification/Commands.v ===== *)
(** * Commands, their safety classes and authorizations

    [cutout-core/src/lib.rs]: evidence ([Measured]), the commands a host can ask
    for, the class each belongs to, the set of kinds a session supports and the
    short-lived arms without which dangerous or stationary-only commands are
    refused.  [SettingId] and [DeviceSettingValue] are those of
    [cutout-core/src/device_settings.rs], the actions those of
    [cutout-core/src/device_actions.rs]. *)

From S2P Require Import Prelude.
From S2P Require Import Quantities.

(** ** Evidence *)

Inductive ValueSource := Reported | Calculated | Estimated.
Inductive ValueQuality := Known | Inferred.
Inductive VerificationStatus :=
| Unverified | VerificationInferred | SourceVerified | HardwareVerified
| SourceAndHardwareVerified.
#[global] Instance source_eq_dec : EqDecision ValueSource.
Proof. solve_decision. Defined.
#[global] Instance quality_eq_dec : EqDecision ValueQuality.
Proof. solve_decision. Defined.
#[global] Instance verification_eq_dec : EqDecision VerificationStatus.
Proof. solve_decision. Defined.

Definition is_trusted (v : VerificationStatus) : bool :=
  match v with
  | Unverified | VerificationInferred => false
  | SourceVerified | HardwareVerified | SourceAndHardwareVerified => true
  end.

Record Measured (T : Type) := {
  m_value : T;
  m_source : ValueSource;
  m_quality : ValueQuality;
  m_verification : VerificationStatus;
}.
Arguments Build_Measured {T} _ _ _ _.
Arguments m_value {T} _.
Arguments m_source {T} _.
Arguments m_quality {T} _.
Arguments m_verification {T} _.

Definition reported {T} (value : T) : Measured T :=
  {| m_value := value; m_source := Reported; m_quality := Known;
     m_verification := HardwareVerified |}.
Definition calculated {T} (value : T) : Measured T :=
  {| m_value := value; m_source := Calculated; m_quality := Known;
     m_verification := VerificationInferred |}.
Definition estimated {T} (value : T) : Measured T :=
  {| m_value := value; m_source := Estimated; m_quality := Inferred;
     m_verification := VerificationInferred |}.
Definition map_value {T U} (f : T -> U) (m : Measured T) : Measured U :=
  {| m_value := f (m_value m); m_source := m_source m; m_quality := m_quality m;
     m_verification := m_verification m |}.

(** ** Settings and actions *)

Module SettingIds.

Inductive SettingId :=
| Headlight | HighBeam | TiltbackSpeed | PwmTiltback | PedalHardness | DisplayBrightness
| DisplayUnits | BeeperVolumePercent | DynamicAssist | PedalDipCompensation | LateralTiltLimit
| VoltageCorrection | ChargeLimitDiagnostic | HighSpeedMode | LowBatteryMode | TransportMode
| SpeedAlarmThreshold | PedalAngle | RidingPreset | BrakeOverpressureAlarm | PedalMode
| RollAngleMode | SpeedAlarmMode | MaximumSpeed | BeeperVolumeLevel | LightingPattern
| AccelerationAssist | Taillight | AutoShutdownRemaining | PowerOffDelay | PushbackDutyAngle
| PushbackDutySpeed | PushbackReturnSpeed | PushbackDutyBeepEnabled | PushbackPersistentFatalError
| PushbackHighVoltageAngle | PushbackHighVoltageSpeed | PushbackLowVoltageAngle
| PushbackLowVoltageSpeed | HapticsDutyFrequency | HapticsDutyStrength | HapticsErrorFrequency
| HapticsErrorStrength | HapticsVibrateFrequency | HapticsVibrateStrength | HapticsDutySolidOffset
| HapticsCurrentThreshold | HapticsMinStrength | HapticsMaxStrengthSpeed
| HapticsStrengthCurvature | RemoteReceiverType | RemoteInputDeadband | LightingOn
| LightingHeadlightsOn | LightingHeadlightsTransition | LightingDirectionTransition
| LightingLightsOffWhenLifted | LightingStatusOnFrontWhenLifted | LightingFrontMode
| LightingFrontBrightness | LightingFrontColor1 | LightingFrontColor2 | LightingFrontSpeed
| LightingRearMode | LightingRearBrightness | LightingRearColor1 | LightingRearColor2
| LightingRearSpeed | LightingHeadlightsMode | LightingHeadlightsBrightness
| LightingHeadlightsColor1 | LightingHeadlightsColor2 | LightingHeadlightsSpeed
| LightingTaillightsMode | LightingTaillightsBrightness | LightingTaillightsColor1
| LightingTaillightsColor2 | LightingTaillightsSpeed | LightingStatusBrightnessHeadlightsOff
| LightingStatusBrightnessHeadlightsOn | LightingStatusShowSensorsWhileRunning
| LightingStatusMotorUtilizationThreshold | LightingStatusRedBarPercentage
| LightingStatusIdleTimeout | LightingStatusIdleMode | LightingStatusIdleBrightness
| LightingStatusIdleColor1 | LightingStatusIdleColor2 | LightingStatusIdleSpeed | PackageDisabled
| PushbackHv | PushbackLv | SensorsAdcchannel1 | SensorsAdcchannel2 | SensorsSwapFootpadAdcs
| SensorsFootFaultBeepEnabled | HardwareBeeperEnabled | LightingHardwareMode | LightingHardwarePin
| LightingHardwarePinConfig | LightingHardwareStatusOrder | LightingHardwareStatusCount
| LightingHardwareStatusColorOrder | LightingHardwareStatusReverse | LightingHardwareFrontOrder
| LightingHardwareFrontCount | LightingHardwareFrontColorOrder | LightingHardwareFrontReverse
| LightingHardwareRearOrder | LightingHardwareRearCount | LightingHardwareRearColorOrder
| LightingHardwareRearReverse | BmsEnabled | BmsCellLvThreshold | BmsCellHvThreshold
| BmsCellBalanceThreshold | BmsCellHtThreshold | BmsCellLtThreshold | BmsBmsHtThreshold
| MotorDriveCurrentLimit | MotorBrakingCurrentLimit | BatteryCurrentOutLimit
| BatteryCurrentInLimit | AbsoluteMotorCurrentLimit | InputVoltageMinimum | InputVoltageMaximum
| BatteryCutbackStart | BatteryCutbackEnd | RegenerativeBatteryCutbackStart
| RegenerativeBatteryCutbackEnd | FetTemperatureCutbackStart | FetTemperatureCutbackEnd
| MotorTemperatureCutbackStart | MotorTemperatureCutbackEnd | MotorPowerOutLimit
| RegenerativeMotorPowerLimit | MotorDriveCurrentLimitScale | MotorBrakingCurrentLimitScale
| MotorPoleCount | MotorGearRatio | WheelDiameter | BatteryChemistry | BatterySeriesCellCount
| BatteryCapacity | BmsType | BmsLimitMode | BmsTemperatureLimitingEnabled | BmsSocLimitingEnabled
| BmsMinimumCellVoltageLimitingEnabled | BmsMaximumCellVoltageLimitingEnabled
| BmsTemperatureLimitStart | BmsTemperatureLimitEnd | BmsSocLimitStart | BmsSocLimitEnd
| BmsCellMinimumVoltageLimitStart | BmsCellMinimumVoltageLimitEnd
| BmsCellMaximumVoltageLimitStart | BmsCellMaximumVoltageLimitEnd | BmsCanForwardMode
| ControllerId | CommandTimeout | CommandTimeoutBrakeCurrent | CanStatusRate1 | CanStatusRate2
| CanBaudRate | CanMode | ApplicationToUse | KillSwitchMode | PpmControlMode | PpmHysteresis
| PpmPulseStart | PpmPulseEnd | PpmPulseCenter | PpmSafeStart | PpmRampTimePositive
| PpmRampTimeNegative | AdcControlMode | AdcHysteresis | AdcVoltageStart | AdcVoltageEnd
| AdcVoltageMinimum | AdcVoltageMaximum | AdcSafeStart | AdcRampTimePositive | AdcRampTimeNegative
| NunchukControlMode | NunchukHysteresis | NunchukRampTimePositive | NunchukRampTimeNegative
| ImuType | ImuMode | ImuFilter | ImuSampleRate | ImuUseMagnetometer | ChargeMode.

(** The discriminant, [id as u16]. *)
Definition setting_code (s : SettingId) : nat :=
  match s with
  | Headlight => 0 | HighBeam => 1 | TiltbackSpeed => 2 | PwmTiltback => 3 | PedalHardness => 4
  | DisplayBrightness => 5 | DisplayUnits => 6 | BeeperVolumePercent => 7 | DynamicAssist => 8
  | PedalDipCompensation => 9 | LateralTiltLimit => 10 | VoltageCorrection => 11
  | ChargeLimitDiagnostic => 12 | HighSpeedMode => 13 | LowBatteryMode => 14
  | TransportMode => 15 | SpeedAlarmThreshold => 16 | PedalAngle => 17 | RidingPreset => 18
  | BrakeOverpressureAlarm => 19 | PedalMode => 20 | RollAngleMode => 21 | SpeedAlarmMode => 22
  | MaximumSpeed => 23 | BeeperVolumeLevel => 24 | LightingPattern => 25
  | AccelerationAssist => 26 | Taillight => 27 | AutoShutdownRemaining => 28
  | PowerOffDelay => 29 | PushbackDutyAngle => 30 | PushbackDutySpeed => 31
  | PushbackReturnSpeed => 32 | PushbackDutyBeepEnabled => 33
  | PushbackPersistentFatalError => 34 | PushbackHighVoltageAngle => 35
  | PushbackHighVoltageSpeed => 36 | PushbackLowVoltageAngle => 37
  | PushbackLowVoltageSpeed => 38 | HapticsDutyFrequency => 39 | HapticsDutyStrength => 40
  | HapticsErrorFrequency => 41 | HapticsErrorStrength => 42 | HapticsVibrateFrequency => 43
  | HapticsVibrateStrength => 44 | HapticsDutySolidOffset => 45 | HapticsCurrentThreshold => 46
  | HapticsMinStrength => 47 | HapticsMaxStrengthSpeed => 48 | HapticsStrengthCurvature => 49
  | RemoteReceiverType => 50 | RemoteInputDeadband => 51 | LightingOn => 52
  | LightingHeadlightsOn => 53 | LightingHeadlightsTransition => 54
  | LightingDirectionTransition => 55 | LightingLightsOffWhenLifted => 56
  | LightingStatusOnFrontWhenLifted => 57 | LightingFrontMode => 58
  | LightingFrontBrightness => 59 | LightingFrontColor1 => 60 | LightingFrontColor2 => 61
  | LightingFrontSpeed => 62 | LightingRearMode => 63 | LightingRearBrightness => 64
  | LightingRearColor1 => 65 | LightingRearColor2 => 66 | LightingRearSpeed => 67
  | LightingHeadlightsMode => 68 | LightingHeadlightsBrightness => 69
  | LightingHeadlightsColor1 => 70 | LightingHeadlightsColor2 => 71
  | LightingHeadlightsSpeed => 72 | LightingTaillightsMode => 73
  | LightingTaillightsBrightness => 74 | LightingTaillightsColor1 => 75
  | LightingTaillightsColor2 => 76 | LightingTaillightsSpeed => 77
  | LightingStatusBrightnessHeadlightsOff => 78 | LightingStatusBrightnessHeadlightsOn => 79
  | LightingStatusShowSensorsWhileRunning => 80 | LightingStatusMotorUtilizationThreshold => 81
  | LightingStatusRedBarPercentage => 82 | LightingStatusIdleTimeout => 83
  | LightingStatusIdleMode => 84 | LightingStatusIdleBrightness => 85
  | LightingStatusIdleColor1 => 86 | LightingStatusIdleColor2 => 87
  | LightingStatusIdleSpeed => 88 | PackageDisabled => 89 | PushbackHv => 90 | PushbackLv => 91
  | SensorsAdcchannel1 => 92 | SensorsAdcchannel2 => 93 | SensorsSwapFootpadAdcs => 94
  | SensorsFootFaultBeepEnabled => 95 | HardwareBeeperEnabled => 96 | LightingHardwareMode => 97
  | LightingHardwarePin => 98 | LightingHardwarePinConfig => 99
  | LightingHardwareStatusOrder => 100 | LightingHardwareStatusCount => 101
  | LightingHardwareStatusColorOrder => 102 | LightingHardwareStatusReverse => 103
  | LightingHardwareFrontOrder => 104 | LightingHardwareFrontCount => 105
  | LightingHardwareFrontColorOrder => 106 | LightingHardwareFrontReverse => 107
  | LightingHardwareRearOrder => 108 | LightingHardwareRearCount => 109
  | LightingHardwareRearColorOrder => 110 | LightingHardwareRearReverse => 111
  | BmsEnabled => 112 | BmsCellLvThreshold => 113 | BmsCellHvThreshold => 114
  | BmsCellBalanceThreshold => 115 | BmsCellHtThreshold => 116 | BmsCellLtThreshold => 117
  | BmsBmsHtThreshold => 118 | MotorDriveCurrentLimit => 119 | MotorBrakingCurrentLimit => 120
  | BatteryCurrentOutLimit => 121 | BatteryCurrentInLimit => 122
  | AbsoluteMotorCurrentLimit => 123 | InputVoltageMinimum => 124 | InputVoltageMaximum => 125
  | BatteryCutbackStart => 126 | BatteryCutbackEnd => 127
  | RegenerativeBatteryCutbackStart => 128 | RegenerativeBatteryCutbackEnd => 129
  | FetTemperatureCutbackStart => 130 | FetTemperatureCutbackEnd => 131
  | MotorTemperatureCutbackStart => 132 | MotorTemperatureCutbackEnd => 133
  | MotorPowerOutLimit => 134 | RegenerativeMotorPowerLimit => 135
  | MotorDriveCurrentLimitScale => 136 | MotorBrakingCurrentLimitScale => 137
  | MotorPoleCount => 138 | MotorGearRatio => 139 | WheelDiameter => 140
  | BatteryChemistry => 141 | BatterySeriesCellCount => 142 | BatteryCapacity => 143
  | BmsType => 144 | BmsLimitMode => 145 | BmsTemperatureLimitingEnabled => 146
  | BmsSocLimitingEnabled => 147 | BmsMinimumCellVoltageLimitingEnabled => 148
  | BmsMaximumCellVoltageLimitingEnabled => 149 | BmsTemperatureLimitStart => 150
  | BmsTemperatureLimitEnd => 151 | BmsSocLimitStart => 152 | BmsSocLimitEnd => 153
  | BmsCellMinimumVoltageLimitStart => 154 | BmsCellMinimumVoltageLimitEnd => 155
  | BmsCellMaximumVoltageLimitStart => 156 | BmsCellMaximumVoltageLimitEnd => 157
  | BmsCanForwardMode => 158 | ControllerId => 159 | CommandTimeout => 160
  | CommandTimeoutBrakeCurrent => 161 | CanStatusRate1 => 162 | CanStatusRate2 => 163
  | CanBaudRate => 164 | CanMode => 165 | ApplicationToUse => 166 | KillSwitchMode => 167
  | PpmControlMode => 168 | PpmHysteresis => 169 | PpmPulseStart => 170 | PpmPulseEnd => 171
  | PpmPulseCenter => 172 | PpmSafeStart => 173 | PpmRampTimePositive => 174
  | PpmRampTimeNegative => 175 | AdcControlMode => 176 | AdcHysteresis => 177
  | AdcVoltageStart => 178 | AdcVoltageEnd => 179 | AdcVoltageMinimum => 180
  | AdcVoltageMaximum => 181 | AdcSafeStart => 182 | AdcRampTimePositive => 183
  | AdcRampTimeNegative => 184 | NunchukControlMode => 185 | NunchukHysteresis => 186
  | NunchukRampTimePositive => 187 | NunchukRampTimeNegative => 188 | ImuType => 189
  | ImuMode => 190 | ImuFilter => 191 | ImuSampleRate => 192 | ImuUseMagnetometer => 193
  | ChargeMode => 194
  end%nat.
Definition all_settings : list SettingId :=
  [Headlight; HighBeam; TiltbackSpeed; PwmTiltback; PedalHardness; DisplayBrightness;
   DisplayUnits; BeeperVolumePercent; DynamicAssist; PedalDipCompensation; LateralTiltLimit;
   VoltageCorrection; ChargeLimitDiagnostic; HighSpeedMode; LowBatteryMode; TransportMode;
   SpeedAlarmThreshold; PedalAngle; RidingPreset; BrakeOverpressureAlarm; PedalMode;
   RollAngleMode; SpeedAlarmMode; MaximumSpeed; BeeperVolumeLevel; LightingPattern;
   AccelerationAssist; Taillight; AutoShutdownRemaining; PowerOffDelay; PushbackDutyAngle;
   PushbackDutySpeed; PushbackReturnSpeed; PushbackDutyBeepEnabled;
   PushbackPersistentFatalError; PushbackHighVoltageAngle; PushbackHighVoltageSpeed;
   PushbackLowVoltageAngle; PushbackLowVoltageSpeed; HapticsDutyFrequency;
   HapticsDutyStrength; HapticsErrorFrequency; HapticsErrorStrength; HapticsVibrateFrequency;
   HapticsVibrateStrength; HapticsDutySolidOffset; HapticsCurrentThreshold;
   HapticsMinStrength; HapticsMaxStrengthSpeed; HapticsStrengthCurvature; RemoteReceiverType;
   RemoteInputDeadband; LightingOn; LightingHeadlightsOn; LightingHeadlightsTransition;
   LightingDirectionTransition; LightingLightsOffWhenLifted; LightingStatusOnFrontWhenLifted;
   LightingFrontMode; LightingFrontBrightness; LightingFrontColor1; LightingFrontColor2;
   LightingFrontSpeed; LightingRearMode; LightingRearBrightness; LightingRearColor1;
   LightingRearColor2; LightingRearSpeed; LightingHeadlightsMode;
   LightingHeadlightsBrightness; LightingHeadlightsColor1; LightingHeadlightsColor2;
   LightingHeadlightsSpeed; LightingTaillightsMode; LightingTaillightsBrightness;
   LightingTaillightsColor1; LightingTaillightsColor2; LightingTaillightsSpeed;
   LightingStatusBrightnessHeadlightsOff; LightingStatusBrightnessHeadlightsOn;
   LightingStatusShowSensorsWhileRunning; LightingStatusMotorUtilizationThreshold;
   LightingStatusRedBarPercentage; LightingStatusIdleTimeout; LightingStatusIdleMode;
   LightingStatusIdleBrightness; LightingStatusIdleColor1; LightingStatusIdleColor2;
   LightingStatusIdleSpeed; PackageDisabled; PushbackHv; PushbackLv; SensorsAdcchannel1;
   SensorsAdcchannel2; SensorsSwapFootpadAdcs; SensorsFootFaultBeepEnabled;
   HardwareBeeperEnabled; LightingHardwareMode; LightingHardwarePin;
   LightingHardwarePinConfig; LightingHardwareStatusOrder; LightingHardwareStatusCount;
   LightingHardwareStatusColorOrder; LightingHardwareStatusReverse;
   LightingHardwareFrontOrder; LightingHardwareFrontCount; LightingHardwareFrontColorOrder;
   LightingHardwareFrontReverse; LightingHardwareRearOrder; LightingHardwareRearCount;
   LightingHardwareRearColorOrder; LightingHardwareRearReverse; BmsEnabled;
   BmsCellLvThreshold; BmsCellHvThreshold; BmsCellBalanceThreshold; BmsCellHtThreshold;
   BmsCellLtThreshold; BmsBmsHtThreshold; MotorDriveCurrentLimit; MotorBrakingCurrentLimit;
   BatteryCurrentOutLimit; BatteryCurrentInLimit; AbsoluteMotorCurrentLimit;
   InputVoltageMinimum; InputVoltageMaximum; BatteryCutbackStart; BatteryCutbackEnd;
   RegenerativeBatteryCutbackStart; RegenerativeBatteryCutbackEnd; FetTemperatureCutbackStart;
   FetTemperatureCutbackEnd; MotorTemperatureCutbackStart; MotorTemperatureCutbackEnd;
   MotorPowerOutLimit; RegenerativeMotorPowerLimit; MotorDriveCurrentLimitScale;
   MotorBrakingCurrentLimitScale; MotorPoleCount; MotorGearRatio; WheelDiameter;
   BatteryChemistry; BatterySeriesCellCount; BatteryCapacity; BmsType; BmsLimitMode;
   BmsTemperatureLimitingEnabled; BmsSocLimitingEnabled; BmsMinimumCellVoltageLimitingEnabled;
   BmsMaximumCellVoltageLimitingEnabled; BmsTemperatureLimitStart; BmsTemperatureLimitEnd;
   BmsSocLimitStart; BmsSocLimitEnd; BmsCellMinimumVoltageLimitStart;
   BmsCellMinimumVoltageLimitEnd; BmsCellMaximumVoltageLimitStart;
   BmsCellMaximumVoltageLimitEnd; BmsCanForwardMode; ControllerId; CommandTimeout;
   CommandTimeoutBrakeCurrent; CanStatusRate1; CanStatusRate2; CanBaudRate; CanMode;
   ApplicationToUse; KillSwitchMode; PpmControlMode; PpmHysteresis; PpmPulseStart;
   PpmPulseEnd; PpmPulseCenter; PpmSafeStart; PpmRampTimePositive; PpmRampTimeNegative;
   AdcControlMode; AdcHysteresis; AdcVoltageStart; AdcVoltageEnd; AdcVoltageMinimum;
   AdcVoltageMaximum; AdcSafeStart; AdcRampTimePositive; AdcRampTimeNegative;
   NunchukControlMode; NunchukHysteresis; NunchukRampTimePositive; NunchukRampTimeNegative;
   ImuType; ImuMode; ImuFilter; ImuSampleRate; ImuUseMagnetometer; ChargeMode].

Lemma all_settings_lookup s : all_settings !! setting_code s = Some s.
Proof. destruct s; reflexivity. Qed.
#[global] Instance setting_code_inj : Inj (=) (=) setting_code.
Proof.
  intros a b E. pose proof (all_settings_lookup a) as Ha. rewrite E, all_settings_lookup in Ha. congruence.
Qed.
#[global] Instance setting_id_eq_dec : EqDecision SettingId.
Proof.
  intros a b. destruct (decide (setting_code a = setting_code b)) as [E|E].
  - left. by apply setting_code_inj.
  - right. intros ->. done.
Defined.
#[global] Program Instance setting_id_countable : Countable SettingId :=
  inj_countable setting_code (fun n => all_settings !! n) _.
Next Obligation. intros s. apply all_settings_lookup. Qed.

(** The list is data for evaluation, not for conversion. *)
#[global] Opaque all_settings.

End SettingIds.
Import SettingIds (SettingId).

Inductive DeviceSettingValue :=
| ValueBoolean (b : bool)
| ValueNumber (n : Z)      (* i32 *)
| ValueChoice (c : Z)      (* u16 *)
| ValueDisabled.
#[global] Instance setting_value_eq_dec : EqDecision DeviceSettingValue.
Proof. solve_decision. Defined.

Inductive DeviceActionId := Horn | ActionResetTripMeter | ActionGyroCalibration.
Inductive DeviceActionStep := Invoke | PrepareGyroCalibration | StartGyroCalibration.
#[global] Instance action_id_eq_dec : EqDecision DeviceActionId.
Proof. solve_decision. Defined.
#[global] Instance action_step_eq_dec : EqDecision DeviceActionStep.
Proof. solve_decision. Defined.
Record DeviceActionRequest := { action_id : DeviceActionId; action_step : DeviceActionStep }.

(** ** Commands *)

Inductive LightState := LightOff | LightOn | Strobe.

Inductive CommandKind :=
| RequestIdentity | RequestTelemetry | RequestFirmwareInfo | RequestBatteryInfo
| RequestDiagnostics | RequestFaultHistory | RequestSettings | ResetTripMeter
| GyroCalibration | SetSetting | SetLights | SetTaillight | SoundHorn | SetRawMotorCurrent.

Inductive DeviceCommand :=
| CmdRequestIdentity | CmdRequestTelemetry | CmdRequestFirmwareInfo | CmdRequestBatteryInfo
| CmdRequestDiagnostics | CmdRequestFaultHistory | CmdRequestSettings
| CmdSetSetting (id : SettingId) (value : DeviceSettingValue)
| CmdInvokeAction (r : DeviceActionRequest)
| CmdSetLights (l : LightState)
| CmdSetTaillight (l : LightState)
| CmdSoundHorn
| CmdSetRawMotorCurrent (current : Z).    (* milliamps, i32 *)

Inductive SafetyClass := ReadOnly | BenignControl | StationaryOnly | Actuation | Firmware.

#[global] Instance kind_eq_dec : EqDecision CommandKind.
Proof. solve_decision. Defined.
#[global] Instance class_eq_dec : EqDecision SafetyClass.
Proof. solve_decision. Defined.

Definition command_kind (c : DeviceCommand) : CommandKind :=
  match c with
  | CmdRequestIdentity => RequestIdentity
  | CmdRequestTelemetry => RequestTelemetry
  | CmdRequestFirmwareInfo => RequestFirmwareInfo
  | CmdRequestBatteryInfo => RequestBatteryInfo
  | CmdRequestDiagnostics => RequestDiagnostics
  | CmdRequestFaultHistory => RequestFaultHistory
  | CmdRequestSettings => RequestSettings
  | CmdSetSetting _ _ => SetSetting
  | CmdInvokeAction r =>
      match action_id r with
      | Horn => SoundHorn
      | ActionResetTripMeter => ResetTripMeter
      | ActionGyroCalibration => GyroCalibration
      end
  | CmdSetLights _ => SetLights
  | CmdSetTaillight _ => SetTaillight
  | CmdSoundHorn => SoundHorn
  | CmdSetRawMotorCurrent _ => SetRawMotorCurrent
  end.

Definition kind_safety_class (k : CommandKind) : SafetyClass :=
  match k with
  | RequestIdentity | RequestTelemetry | RequestFirmwareInfo | RequestBatteryInfo
  | RequestDiagnostics | RequestFaultHistory | RequestSettings => ReadOnly
  | SetLights | SetTaillight | SoundHorn | ResetTripMeter => BenignControl
  | GyroCalibration | SetSetting => StationaryOnly
  | SetRawMotorCurrent => Actuation
  end.

Definition command_safety_class (c : DeviceCommand) : SafetyClass :=
  match c with
  | CmdSetSetting SettingIds.Headlight _ | CmdSetSetting SettingIds.HighBeam _
  | CmdSetSetting SettingIds.DisplayBrightness _ | CmdSetSetting SettingIds.DisplayUnits _ =>
      BenignControl
  | _ => kind_safety_class (command_kind c)
  end.

Record CommandMetadata := { md_kind : CommandKind; md_safety_class : SafetyClass }.
Definition metadata (c : DeviceCommand) : CommandMetadata :=
  {| md_kind := command_kind c; md_safety_class := command_safety_class c |}.

(** ** Capabilities: a set of kinds in the bits of a [u64] *)

Definition kind_code (k : CommandKind) : Z :=
  match k with
  | RequestIdentity => 0 | RequestTelemetry => 1 | RequestFirmwareInfo => 2
  | RequestBatteryInfo => 3 | RequestDiagnostics => 4 | RequestFaultHistory => 5
  | RequestSettings => 6 | ResetTripMeter => 7 | GyroCalibration => 8 | SetSetting => 9
  | SetLights => 10 | SetTaillight => 11 | SoundHorn => 12 | SetRawMotorCurrent => 13
  end.
Definition bit (k : CommandKind) : Z := Z.shiftl 1 (kind_code k) mod (u64_max + 1).

Definition CommandSet : Type := Z.
Definition set_insert (s : CommandSet) (k : CommandKind) : CommandSet := Z.lor s (bit k).
Definition set_contains (s : CommandSet) (k : CommandKind) : bool :=
  negb (bool_decide (Z.land s (bit k) = 0)).
Definition from_commands (ks : list CommandKind) : CommandSet := fold_left set_insert ks 0.

Record Capabilities := { supported_commands : CommandSet }.
Definition from_supported_commands (ks : list CommandKind) : Capabilities :=
  {| supported_commands := from_commands ks |}.
Definition supports_command_kind (c : Capabilities) (k : CommandKind) : bool :=
  set_contains (supported_commands c) k.
Definition capabilities_union (a b : Capabilities) : Capabilities :=
  {| supported_commands := Z.lor (supported_commands a) (supported_commands b) |}.

Inductive UnsupportedReason := CommandNotSupported (k : CommandKind).
Definition check_command (c : Capabilities) (cmd : DeviceCommand)
  : result CommandMetadata UnsupportedReason :=
  let kind := command_kind cmd in
  if supports_command_kind c kind then Ok (metadata cmd) else Err (CommandNotSupported kind).

(** ** Dangerous actuation *)

(** [str_eq], the byte comparison usable in a [const fn]: the loop compares the
    bytes at [index] and has [turns] indices left. *)
Fixpoint str_eq_loop (left right : list Ascii.ascii) (turns index : nat) : bool :=
  match turns with
  | O => true
  | S turns => if negb (bool_decide (left !! index = right !! index)) then false
               else str_eq_loop left right turns (S index)
  end.
Definition str_eq (left right : string) : bool :=
  let left := String.list_ascii_of_string left in
  let right := String.list_ascii_of_string right in
  if negb (bool_decide (length left = length right)) then false
  else str_eq_loop left right (length left) 0.

Record DangerousActuationArm := { arm_model : string; arm_expires_at_ms : Z }.
Definition is_for_model (a : DangerousActuationArm) (model : string) : bool :=
  str_eq (arm_model a) model.
Definition is_expired_at (a : DangerousActuationArm) (now : Z) : bool :=
  bool_decide (arm_expires_at_ms a < now).

Record DangerousActuationPolicy := {
  pol_model : string;
  max_current : Z;
  pol_arm_duration : Z;
}.
Inductive DangerousActuationRefusal :=
| RefWrongSafetyClass | RefMissingArm | RefWrongModel | RefExpiredArm | RefCurrentLimitExceeded.
#[global] Instance refusal_eq_dec : EqDecision DangerousActuationRefusal.
Proof. solve_decision. Defined.

Definition arm (p : DangerousActuationPolicy) (now : Z) : DangerousActuationArm :=
  {| arm_model := pol_model p;
     arm_expires_at_ms := timestamp_saturating_add_duration now (pol_arm_duration p) |}.

(** [i32::saturating_abs]. *)
Definition saturating_abs_i32 (z : Z) : Z := Z.min i32_max (Z.abs z).

Definition authorize (p : DangerousActuationPolicy) (cmd : DeviceCommand) (now : Z)
    (a : option DangerousActuationArm) : result CommandMetadata DangerousActuationRefusal :=
  if negb (bool_decide (command_safety_class cmd = Actuation)) then Err RefWrongSafetyClass else
  match a with
  | None => Err RefMissingArm
  | Some a =>
      if negb (is_for_model a (pol_model p)) then Err RefWrongModel else
      if is_expired_at a now then Err RefExpiredArm else
      if (match cmd with
          | CmdSetRawMotorCurrent current =>
              bool_decide (max_current p < saturating_abs_i32 current)
          | _ => false
          end)
      then Err RefCurrentLimitExceeded else Ok (metadata cmd)
  end.

(** ** Settings while stationary *)

Record StationarySettingsArm := { sa_model : string; sa_issued_at : Z; sa_expires_at : Z }.
Definition sa_is_valid_for (a : StationarySettingsArm) (model : string) (now : Z) : bool :=
  str_eq (sa_model a) model && bool_decide (now <= sa_expires_at a).

Record StationarySettingsPolicy := { sp_model : string; sp_arm_duration : Z }.
Definition sp_issue (p : StationarySettingsPolicy) (now : Z) : StationarySettingsArm :=
  {| sa_model := sp_model p; sa_issued_at := now;
     sa_expires_at := timestamp_saturating_add_duration now (sp_arm_duration p) |}.
Definition sp_arm (p : StationarySettingsPolicy) (state : RideOperatingState) (now : Z)
  : option StationarySettingsArm :=
  match state with
  | Parked | Standing | RideCharging => Some (sp_issue p now)
  | Unknown | Riding => None
  end.

(** Speeds are millimetres per second; [unsigned_abs] of each is compared. *)
Definition sp_arm_with_speed (p : StationarySettingsPolicy) (state : RideOperatingState)
    (speed max_speed : option Z) (now : Z) : option StationarySettingsArm :=
  let speed_limit := match max_speed with Some s => Z.abs s | None => 0 end in
  if is_some_and speed (fun s => bool_decide (speed_limit < Z.abs s)) then None else
  match sp_arm p state now with
  | Some a => Some a
  | None =>
      if negb (bool_decide (state = Riding)) then None else
      s ← speed; m ← max_speed;
      if bool_decide (Z.abs s <= Z.abs m) then Some (sp_issue p now) else None
  end.

(** ** Control refusals *)

Inductive ControlRefusalReason :=
| CtlWrongSafetyClass | CtlMissingArm | CtlWrongModel | CtlExpiredArm
| CtlCurrentLimitExceeded | CtlUnsupportedCommand | CtlBusy.
#[global] Instance control_refusal_eq_dec : EqDecision ControlRefusalReason.
Proof. solve_decision. Defined.

Definition control_refusal_from (r : DangerousActuationRefusal) : ControlRefusalReason :=
  match r with
  | RefWrongSafetyClass => CtlWrongSafetyClass
  | RefMissingArm => CtlMissingArm
  | RefWrongModel => CtlWrongModel
  | RefExpiredArm => CtlExpiredArm
  | RefCurrentLimitExceeded => CtlCurrentLimitExceeded
  end.

(** ** The bits of a capability set *)

Lemma kind_code_inj a b : kind_code a = kind_code b -> a = b.
Proof. by destruct a, b. Qed.
Lemma kind_code_range k : 0 <= kind_code k < 14.
Proof. destruct k; simpl; lia. Qed.
Lemma bit_pow2 k : bit k = 2 ^ kind_code k.
Proof. by destruct k. Qed.

(** Membership is one bit test. *)
Lemma set_contains_testbit s k : 0 <= s -> set_contains s k = Z.testbit s (kind_code k).
Proof.
  intros Hs. unfold set_contains. rewrite bit_pow2. pose proof (kind_code_range k) as Hk.
  destruct (Z.testbit s (kind_code k)) eqn:E.
  - apply negb_true_iff, bool_decide_eq_false. intros H.
    assert (Z.testbit (Z.land s (2 ^ kind_code k)) (kind_code k) = false) as Hf
      by (rewrite H; apply Z.bits_0).
    by rewrite Z.land_spec, E, Z.pow2_bits_true in Hf by lia.
  - apply negb_false_iff, bool_decide_eq_true. apply Z.bits_inj'. intros i Hi.
    rewrite Z.land_spec, Z.bits_0. destruct (decide (i = kind_code k)) as [->|Hn]; [by rewrite E|].
    by rewrite Z.pow2_bits_false, andb_false_r by lia.
Qed.

Lemma from_commands_from s ks k :
  0 <= s -> 0 <= fold_left set_insert ks s /\
  (Z.testbit (fold_left set_insert ks s) (kind_code k) = true
   <-> Z.testbit s (kind_code k) = true \/ k ∈ ks).
Proof.
  revert s. induction ks as [|x ks IH]; intros s Hs; simpl.
  { split; [done|]. rewrite elem_of_nil. tauto. }
  pose proof (kind_code_range k). pose proof (kind_code_range x).
  assert (Hs' : 0 <= set_insert s x).
  { unfold set_insert. rewrite bit_pow2. apply Z.lor_nonneg. split; [done|apply Z.pow_nonneg; lia]. }
  destruct (IH _ Hs') as [H1 H2]. split; [done|]. rewrite H2. unfold set_insert. rewrite bit_pow2.
  rewrite Z.lor_spec, orb_true_iff, elem_of_cons. destruct (decide (k = x)) as [->|Hn].
  - rewrite Z.pow2_bits_true by lia. tauto.
  - rewrite Z.pow2_bits_false by (intros E; by apply Hn, kind_code_inj). intuition congruence.
Qed.

(** The byte loop decides equality. *)
Lemma str_eq_loop_spec l r turns index :
  str_eq_loop l r turns index = true <->
  (forall k, (index <= k < index + turns)%nat -> l !! k = r !! k).
Proof.
  revert index. induction turns as [|turns IH]; intros index; simpl; [split; [lia|done]|].
  case_bool_decide as E; simpl.
  - rewrite IH. split; intros H k Hk; [|apply H; lia].
    destruct (decide (k = index)) as [->|]; [done|apply H; lia].
  - split; [done|]. intros H. destruct E. apply H. lia.
Qed.
Lemma str_eq_spec left right : str_eq left right = bool_decide (left = right).
Proof.
  apply eq_bool_prop_intro. rewrite !Is_true_true, bool_decide_eq_true. unfold str_eq.
  case_bool_decide as Hl; simpl.
  - rewrite str_eq_loop_spec. split; [|by intros ->]. intros H.
    rewrite <- (String.string_of_list_ascii_of_string left),
      <- (String.string_of_list_ascii_of_string right). f_equal.
    apply list_eq. intros k. destruct (decide (k < length (String.list_ascii_of_string left))%nat).
    + apply H. lia.
    + rewrite !lookup_ge_None_2 by lia. done.
  - split; [done|]. by intros ->.
Qed.

(** ** Properties *)

(** A session accepts exactly the commands whose kind it declares: the set
    held in the bits of one 64-bit word, and the union of two such sets, decide
    as membership in the declared lists does, and a refusal names the kind. *)
Theorem capabilities_exact (a b : list CommandKind) (cmd : DeviceCommand) :
  check_command (capabilities_union (from_supported_commands a) (from_supported_commands b)) cmd
  = if bool_decide (command_kind cmd ∈ a ++ b) then Ok (metadata cmd)
    else Err (CommandNotSupported (command_kind cmd)).
Proof.
  unfold check_command, supports_command_kind. simpl. unfold from_commands.
  destruct (from_commands_from 0 a (command_kind cmd)) as [Ha1 Ha2]; [lia|].
  destruct (from_commands_from 0 b (command_kind cmd)) as [Hb1 Hb2]; [lia|].
  rewrite set_contains_testbit by (by apply Z.lor_nonneg). rewrite Z.lor_spec.
  rewrite Z.bits_0 in Ha2, Hb2.
  destruct (decide (command_kind cmd ∈ a ++ b)) as [H|H].
  - rewrite bool_decide_true by done. apply elem_of_app in H. f_equal.
    destruct (_ || _) eqn:E; [done|]. apply orb_false_iff in E as [E1 E2]. exfalso.
    destruct H as [H|H]; [rewrite E1 in Ha2|rewrite E2 in Hb2]; intuition congruence.
  - rewrite bool_decide_false by done. rewrite elem_of_app in H.
    destruct (_ || _) eqn:E; [|done]. apply orb_true_iff in E. exfalso. apply H. intuition congruence.
Qed.

(** The motor is driven only under a live arm: a command is authorized as
    dangerous actuation exactly when it is a raw motor current within the
    policy's limit and an arm was issued for the same model no longer ago than
    its duration; without an arm, or for any other command, authorization is
    refused. *)
Theorem motor_current_needs_live_arm (p : DangerousActuationPolicy) (cmd : DeviceCommand)
    (now : Z) (source : option (DangerousActuationPolicy * Z)) (m : CommandMetadata) :
  authorize p cmd now ((fun i => arm i.1 i.2) <$> source) = Ok m <->
  exists q issued current, source = Some (q, issued) /\ cmd = CmdSetRawMotorCurrent current /\
    pol_model q = pol_model p /\ now <= sat_add u64_max issued (pol_arm_duration q) /\
    saturating_abs_i32 current <= max_current p /\
    m = {| md_kind := SetRawMotorCurrent; md_safety_class := Actuation |}.
Proof.
  unfold authorize, is_for_model, is_expired_at.
  destruct (decide (command_safety_class cmd = Actuation)) as [Ha|Ha].
  2:{ rewrite bool_decide_false by done. simpl. split; [done|].
      intros (q & i & c & _ & -> & _). by destruct Ha. }
  assert (Hc : exists c, cmd = CmdSetRawMotorCurrent c).
  { destruct cmd as [| | | | | | |id v|[[] st]| | | |c]; try discriminate Ha; [|eauto].
    destruct id; discriminate Ha. }
  destruct Hc as [c ->]. rewrite bool_decide_true by done. simpl.
  destruct source as [[q i]|]; simpl.
  2:{ split; [done|]. by intros (q & i & c' & [=] & _). }
  change (timestamp_saturating_add_duration i (pol_arm_duration q))
    with (sat_add u64_max i (pol_arm_duration q)).
  rewrite str_eq_spec. split.
  - step_cases; [done..|]. intros [= <-]. exists q, i, c. split_ands; try done; lia.
  - intros (q' & i' & c' & [= <- <-] & [= <-] & Hm & Ht & Hl & ->).
    rewrite (bool_decide_true (pol_model q = _)) by done. simpl.
    rewrite !bool_decide_false by lia. done.
Qed.

(** The stationary-only settings window is bounded: an authorization is
    issued exactly when the device is parked, standing or charging and no speed
    above the model's limit is reported, or when it rides with a reported speed
    within the model's declared limit; and the authorization is valid exactly
    for its own model until its duration has passed. *)
Theorem settings_window_bounded (p : StationarySettingsPolicy) (state : RideOperatingState)
    (speed max_speed : option Z) (now : Z) (a : StationarySettingsArm) (model : string) (t : Z) :
  (sp_arm_with_speed p state speed max_speed now = Some a <->
     a = sp_issue p now /\
     ((state = Parked \/ state = Standing \/ state = RideCharging) /\
        (forall s, speed = Some s -> Z.abs s <= default 0 (Z.abs <$> max_speed))
      \/ state = Riding /\
         exists s limit, speed = Some s /\ max_speed = Some limit /\ Z.abs s <= Z.abs limit)) /\
  (sa_is_valid_for (sp_issue p now) model t = true <->
     sp_model p = model /\ t <= sat_add u64_max now (sp_arm_duration p)).
Proof.
  split.
  - unfold sp_arm_with_speed.
    replace (match max_speed with Some s => Z.abs s | None => 0 end)
      with (default 0 (Z.abs <$> max_speed)) by (by destruct max_speed).
    set (limit := default 0 _).
    destruct (is_some_and speed _) eqn:E.
    + split; [done|]. intros (_ & H). destruct speed as [s|]; [|done]. simpl in E. prop_bools.
      destruct H as [[_ H]|(_ & s' & l & [= <-] & -> & H)]; [specialize (H s eq_refl); lia|].
      unfold limit in E. simpl in E. lia.
    + assert (Hs : forall s, speed = Some s -> Z.abs s <= limit).
      { intros s ->. simpl in E. prop_bools. lia. }
      assert (Hp : Some (sp_issue p now) = Some a <-> a = sp_issue p now) by (split; congruence).
      destruct state; simpl; rewrite ?Hp; try (intuition congruence).
      split.
      * intros H. apply bind_Some in H as (s & -> & H). apply bind_Some in H as (l & -> & H).
        case_bool_decide; [|done]. injection H as <-. split; [done|]. right. eauto 6.
      * intros (-> & [[? _]|(_ & s & l & -> & -> & Hl)]); [intuition congruence|]. simpl.
        by rewrite bool_decide_true.
  - unfold sa_is_valid_for, sp_issue. rewrite str_eq_spec. simpl.
    rewrite andb_true_iff, !bool_decide_eq_true. done.
Qed.
