(* ===== verification/Telemetry.v ===== *)
(** * Telemetry updates and the latest-known snapshot

    [cutout-core/src/battery_current.rs]: battery current with a physical
    direction, its normalisation from wire signs and its reading as a power
    flow.  [cutout-core/src/lib.rs]: the partial updates decoders emit
    ([TelemetryDelta]) and the snapshot they are merged into
    ([TelemetrySnapshot]).  A quantity is the integer it is stored as. *)

From S2P Require Import Prelude.
From S2P Require Import Quantities.
From S2P Require Import PhoneAlarm.
From S2P Require Import Commands.

(** ** Battery current *)

(** [CurrentMagnitude] is a [NonZeroU32], in milliamps. *)
Definition CurrentMagnitude : Type := Z.
Definition magnitude_new (milliamps : Z) : option CurrentMagnitude :=
  if bool_decide (milliamps = 0) then None else Some milliamps.

Inductive BatteryCurrentDirection := DirectionIn | DirectionOut | DirectionZero | DirectionUnknown.
Inductive BatteryCurrent :=
| CurrentZero
| CurrentIn (m : CurrentMagnitude)
| CurrentOut (m : CurrentMagnitude)
| CurrentUnknown (m : CurrentMagnitude).
Inductive BatteryCurrentPolarity := PositiveIsOut | PositiveIsIn | PolarityUnknown.
Inductive PowerFlowDirection := Discharge | FlowZero | FlowCharging | Regeneration | FlowUnknown.
#[global] Instance direction_eq_dec : EqDecision BatteryCurrentDirection.
Proof. solve_decision. Defined.
#[global] Instance battery_current_eq_dec : EqDecision BatteryCurrent.
Proof. unfold CurrentMagnitude. solve_decision. Defined.
#[global] Instance power_flow_eq_dec : EqDecision PowerFlowDirection.
Proof. solve_decision. Defined.

Definition current_in (milliamps : Z) : BatteryCurrent :=
  match magnitude_new milliamps with Some value => CurrentIn value | None => CurrentZero end.
Definition current_out (milliamps : Z) : BatteryCurrent :=
  match magnitude_new milliamps with Some value => CurrentOut value | None => CurrentZero end.
Definition current_unknown (milliamps : Z) : BatteryCurrent :=
  match magnitude_new milliamps with Some value => CurrentUnknown value | None => CurrentZero end.
Definition direction (self : BatteryCurrent) : BatteryCurrentDirection :=
  match self with
  | CurrentZero => DirectionZero
  | CurrentIn _ => DirectionIn
  | CurrentOut _ => DirectionOut
  | CurrentUnknown _ => DirectionUnknown
  end.
Definition magnitude_milliamps (self : BatteryCurrent) : Z :=
  match self with
  | CurrentZero => 0
  | CurrentIn value | CurrentOut value | CurrentUnknown value => value
  end.

Definition power_flow (self : BatteryCurrent) (operating_state : RideOperatingState)
  : PowerFlowDirection :=
  match self with
  | CurrentZero => FlowZero
  | CurrentOut _ => Discharge
  | CurrentUnknown _ => FlowUnknown
  | CurrentIn _ =>
      match operating_state with
      | Riding => Regeneration
      | RideCharging => FlowCharging
      | Parked | Standing | Unknown => FlowUnknown
      end
  end.
Definition power_flow_fresh (self : BatteryCurrent) (operating_state : RideOperatingState)
    (observed_at now : option Z) : PowerFlowDirection :=
  match observed_at, now with
  | Some observed_at, Some now =>
      if bool_decide (observed_at <= now)
         && bool_decide (sat_sub now observed_at <= CONNECTED_WHEEL_MOTION_FRESHNESS_MS)
      then power_flow self operating_state else FlowUnknown
  | _, _ => FlowUnknown
  end.

(** [ReportedBatteryCurrent] is a wire value in milliamps. *)
Definition normalize (self : Z) (polarity : BatteryCurrentPolarity) : BatteryCurrent :=
  let value := self in
  let magnitude := Z.abs value in
  match polarity with
  | PolarityUnknown => current_unknown magnitude
  | PositiveIsOut => if bool_decide (0 <= value) then current_out magnitude else current_in magnitude
  | PositiveIsIn => if bool_decide (value < 0) then current_out magnitude else current_in magnitude
  end.

(** ** Updates *)

Inductive TelemetryFieldUpdate (T : Type) :=
| FieldUnchanged
| FieldSet (value : T)
| FieldInvalid.
Arguments FieldUnchanged {T}.
Arguments FieldSet {T} _.
Arguments FieldInvalid {T}.
#[global] Instance field_update_eq_dec `{EqDecision T} : EqDecision (TelemetryFieldUpdate T).
Proof. solve_decision. Defined.
#[global] Instance measured_eq_dec `{EqDecision T} : EqDecision (Measured T).
Proof. solve_decision. Defined.

Definition update_map {T U} (convert : T -> U) (u : TelemetryFieldUpdate T)
  : TelemetryFieldUpdate U :=
  match u with
  | FieldUnchanged => FieldUnchanged
  | FieldSet value => FieldSet (convert value)
  | FieldInvalid => FieldInvalid
  end.
Definition update_from_option {T} (value : option T) : TelemetryFieldUpdate T :=
  match value with Some v => FieldSet v | None => FieldUnchanged end.

Inductive RideOperatingMode := ModeUnknown | ModeNormal | Darkride | Handtest | Flywheel.
Inductive FootpadContactState := FootpadNone | FootpadLeft | FootpadRight | FootpadBoth.
Record FootpadTelemetry := {
  footpad_state : Z;
  contact_state : option FootpadContactState;
  adc1_milliunits : option Z;
  adc2_milliunits : option Z;
}.
#[global] Instance ride_mode_eq_dec : EqDecision RideOperatingMode.
Proof. solve_decision. Defined.
#[global] Instance contact_state_eq_dec : EqDecision FootpadContactState.
Proof. solve_decision. Defined.
#[global] Instance footpad_eq_dec : EqDecision FootpadTelemetry.
Proof. solve_decision. Defined.

Record TelemetryDelta := {
  d_at_ms : Z;
  d_speed : option (Measured Z);
  d_voltage : option (Measured Z);
  d_battery_current : option (Measured BatteryCurrent);
  d_charge_mode : option (Measured Quantities.ChargeMode);
  d_operating_state : option RideOperatingState;
  d_operating_mode : option RideOperatingMode;
  d_ride_warning : option RideWarning;
  d_ride_stop_reason : option RideStopReason;
  d_motor_current : option (Measured Z);
  d_power : option (Measured Z);
  d_controller_temperature : option (Measured Z);
  d_motor_temperature : option (Measured Z);
  d_battery_temperature : option (Measured Z);
  d_pwm : TelemetryFieldUpdate (Measured Z);
  d_distance : option (Measured Z);
  d_trip_distance : option (Measured Z);
  d_pitch : option (Measured Z);
  d_balance_angle : option (Measured Z);
  d_roll : option (Measured Z);
  d_footpad : option FootpadTelemetry;
  d_battery_level_reported : option (Measured Z);
  d_battery_level_estimated : TelemetryFieldUpdate (Measured Z);
}.
#[global] Instance eta_delta : Eta TelemetryDelta := fun r =>
  Build_TelemetryDelta (d_at_ms r) (d_speed r) (d_voltage r) (d_battery_current r)
    (d_charge_mode r) (d_operating_state r) (d_operating_mode r) (d_ride_warning r)
    (d_ride_stop_reason r) (d_motor_current r) (d_power r) (d_controller_temperature r)
    (d_motor_temperature r) (d_battery_temperature r) (d_pwm r) (d_distance r)
    (d_trip_distance r) (d_pitch r) (d_balance_angle r) (d_roll r) (d_footpad r)
    (d_battery_level_reported r) (d_battery_level_estimated r).

Definition delta_empty (at_ms : Z) : TelemetryDelta :=
  {| d_at_ms := at_ms; d_speed := None; d_voltage := None; d_battery_current := None;
     d_charge_mode := None; d_operating_state := None; d_operating_mode := None;
     d_ride_warning := None; d_ride_stop_reason := None; d_motor_current := None;
     d_power := None; d_controller_temperature := None; d_motor_temperature := None;
     d_battery_temperature := None; d_pwm := FieldUnchanged; d_distance := None;
     d_trip_distance := None; d_pitch := None; d_balance_angle := None; d_roll := None;
     d_footpad := None; d_battery_level_reported := None;
     d_battery_level_estimated := FieldUnchanged |}.

Record TelemetrySnapshot := {
  t_at_ms : option Z;
  t_speed_observed_at_ms : option Z;
  t_voltage_observed_at_ms : option Z;
  t_battery_current_observed_at_ms : option Z;
  t_speed : option (Measured Z);
  t_voltage : option (Measured Z);
  t_battery_current : option (Measured BatteryCurrent);
  t_charge_mode : option (Measured Quantities.ChargeMode);
  t_operating_state : option RideOperatingState;
  t_operating_mode : option RideOperatingMode;
  t_ride_warning : option RideWarning;
  t_ride_stop_reason : option RideStopReason;
  t_motor_current : option (Measured Z);
  t_power : option (Measured Z);
  t_controller_temperature : option (Measured Z);
  t_motor_temperature : option (Measured Z);
  t_battery_temperature : option (Measured Z);
  t_pwm : option (Measured Z);
  t_distance : option (Measured Z);
  t_trip_distance : option (Measured Z);
  t_pitch : option (Measured Z);
  t_balance_angle : option (Measured Z);
  t_roll : option (Measured Z);
  t_footpad : option FootpadTelemetry;
  t_battery_level_reported : option (Measured Z);
  t_battery_level_estimated : option (Measured Z);
}.
#[global] Instance eta_snapshot : Eta TelemetrySnapshot := fun r =>
  Build_TelemetrySnapshot (t_at_ms r) (t_speed_observed_at_ms r) (t_voltage_observed_at_ms r)
    (t_battery_current_observed_at_ms r) (t_speed r) (t_voltage r) (t_battery_current r)
    (t_charge_mode r) (t_operating_state r) (t_operating_mode r) (t_ride_warning r)
    (t_ride_stop_reason r) (t_motor_current r) (t_power r) (t_controller_temperature r)
    (t_motor_temperature r) (t_battery_temperature r) (t_pwm r) (t_distance r)
    (t_trip_distance r) (t_pitch r) (t_balance_angle r) (t_roll r) (t_footpad r)
    (t_battery_level_reported r) (t_battery_level_estimated r).

Definition default_snapshot : TelemetrySnapshot :=
  {| t_at_ms := None; t_speed_observed_at_ms := None; t_voltage_observed_at_ms := None;
     t_battery_current_observed_at_ms := None; t_speed := None; t_voltage := None;
     t_battery_current := None; t_charge_mode := None; t_operating_state := None;
     t_operating_mode := None; t_ride_warning := None; t_ride_stop_reason := None;
     t_motor_current := None; t_power := None; t_controller_temperature := None;
     t_motor_temperature := None; t_battery_temperature := None; t_pwm := None;
     t_distance := None; t_trip_distance := None; t_pitch := None; t_balance_angle := None;
     t_roll := None; t_footpad := None; t_battery_level_reported := None;
     t_battery_level_estimated := None |}.

(** ** The snapshot *)

Definition invalidate_calculated_speed (self : TelemetrySnapshot) : TelemetrySnapshot :=
  if is_some_and (t_speed self) (fun speed => bool_decide (m_source speed = Calculated))
  then self <| t_speed := None |> <| t_speed_observed_at_ms := None |> else self.

(** [if delta.field.is_some() { self.field = delta.field }]. *)
Definition keep_unless {T} (new old : option T) : option T :=
  match new with Some _ => new | None => old end.
(** The same for the time of the delta that supplied the field. *)
Definition stamp {T} (new : option T) (at_ms : Z) (old : option Z) : option Z :=
  match new with Some _ => Some at_ms | None => old end.
(** The match on an update that can also discard. *)
Definition apply_field {T} (u : TelemetryFieldUpdate T) (old : option T) : option T :=
  match u with FieldUnchanged => old | FieldSet value => Some value | FieldInvalid => None end.

Definition apply_delta (self : TelemetrySnapshot) (delta : TelemetryDelta) : TelemetrySnapshot :=
  {| t_at_ms := Some (d_at_ms delta);
     t_speed_observed_at_ms := stamp (d_speed delta) (d_at_ms delta) (t_speed_observed_at_ms self);
     t_voltage_observed_at_ms :=
       stamp (d_voltage delta) (d_at_ms delta) (t_voltage_observed_at_ms self);
     t_battery_current_observed_at_ms :=
       stamp (d_battery_current delta) (d_at_ms delta) (t_battery_current_observed_at_ms self);
     t_speed := keep_unless (d_speed delta) (t_speed self);
     t_voltage := keep_unless (d_voltage delta) (t_voltage self);
     t_battery_current := keep_unless (d_battery_current delta) (t_battery_current self);
     t_charge_mode := keep_unless (d_charge_mode delta) (t_charge_mode self);
     t_operating_state := keep_unless (d_operating_state delta) (t_operating_state self);
     t_operating_mode := keep_unless (d_operating_mode delta) (t_operating_mode self);
     t_ride_warning := keep_unless (d_ride_warning delta) (t_ride_warning self);
     t_ride_stop_reason := keep_unless (d_ride_stop_reason delta) (t_ride_stop_reason self);
     t_motor_current := keep_unless (d_motor_current delta) (t_motor_current self);
     t_power := keep_unless (d_power delta) (t_power self);
     t_controller_temperature :=
       keep_unless (d_controller_temperature delta) (t_controller_temperature self);
     t_motor_temperature := keep_unless (d_motor_temperature delta) (t_motor_temperature self);
     t_battery_temperature := keep_unless (d_battery_temperature delta) (t_battery_temperature self);
     t_pwm := apply_field (d_pwm delta) (t_pwm self);
     t_distance := keep_unless (d_distance delta) (t_distance self);
     t_trip_distance := keep_unless (d_trip_distance delta) (t_trip_distance self);
     t_pitch := keep_unless (d_pitch delta) (t_pitch self);
     t_balance_angle := keep_unless (d_balance_angle delta) (t_balance_angle self);
     t_roll := keep_unless (d_roll delta) (t_roll self);
     t_footpad := keep_unless (d_footpad delta) (t_footpad self);
     t_battery_level_reported :=
       keep_unless (d_battery_level_reported delta) (t_battery_level_reported self);
     t_battery_level_estimated :=
       apply_field (d_battery_level_estimated delta) (t_battery_level_estimated self) |}.

(** What happens to the snapshot of a session: an update, or the loss of the
    configuration that speeds were calculated from. *)
Inductive SnapshotInput :=
| Merge (delta : TelemetryDelta)
| ForgetCalculatedSpeed.
Definition snapshot_step (s : TelemetrySnapshot) (i : SnapshotInput) : TelemetrySnapshot * unit :=
  (match i with
   | Merge delta => apply_delta s delta
   | ForgetCalculatedSpeed => invalidate_calculated_speed s
   end, ()).

(** ** The reference: what was last said about each field *)

Definition merged (i : SnapshotInput) : option TelemetryDelta :=
  match i with Merge d => Some d | ForgetCalculatedSpeed => None end.
(** The last value supplied for a field, and the time of the update that
    supplied it. *)
Definition last_supplied {T} (f : TelemetryDelta -> option T) (ds : list TelemetryDelta) : option T :=
  last (omap f ds).
Definition last_supplied_at {T} (f : TelemetryDelta -> option T) (ds : list TelemetryDelta)
  : option Z :=
  last (omap (fun d => (fun _ => d_at_ms d) <$> f d) ds).
(** The last thing said about a field that can be declared invalid. *)
Definition said {T} (u : TelemetryFieldUpdate T) : option (option T) :=
  match u with FieldUnchanged => None | FieldSet v => Some (Some v) | FieldInvalid => Some None end.
Definition last_said {T} (f : TelemetryDelta -> TelemetryFieldUpdate T) (ds : list TelemetryDelta)
  : option T :=
  mjoin (last (omap (fun d => said (f d)) ds)).
(** The last speed, looking back from the newest input: a calculated one does
    not count if its configuration was lost since. *)
Fixpoint speed_looking_back (newest_first : list SnapshotInput) (forgotten : bool)
  : option (Measured Z * Z) :=
  match newest_first with
  | [] => None
  | ForgetCalculatedSpeed :: older => speed_looking_back older true
  | Merge d :: older =>
      match d_speed d with
      | Some speed =>
          if forgotten && bool_decide (m_source speed = Calculated) then None
          else Some (speed, d_at_ms d)
      | None => speed_looking_back older forgotten
      end
  end.

Lemma omap_snoc {A B} (f : A -> option B) l x :
  omap f (l ++ [x]) = omap f l ++ option_list (f x).
Proof. rewrite omap_app. simpl. by destruct (f x). Qed.
Lemma last_supplied_snoc {T} (f : TelemetryDelta -> option T) ds d :
  last_supplied f (ds ++ [d]) = keep_unless (f d) (last_supplied f ds).
Proof.
  unfold last_supplied. rewrite omap_snoc. destruct (f d); simpl; [by rewrite last_snoc|].
  by rewrite app_nil_r.
Qed.
Lemma last_supplied_at_snoc {T} (f : TelemetryDelta -> option T) ds d :
  last_supplied_at f (ds ++ [d]) = stamp (f d) (d_at_ms d) (last_supplied_at f ds).
Proof.
  unfold last_supplied_at. rewrite omap_snoc. destruct (f d); simpl; [by rewrite last_snoc|].
  by rewrite app_nil_r.
Qed.
Lemma last_said_snoc {T} (f : TelemetryDelta -> TelemetryFieldUpdate T) ds d :
  last_said f (ds ++ [d]) = apply_field (f d) (last_said f ds).
Proof.
  unfold last_said. rewrite omap_snoc. destruct (f d); simpl; rewrite ?last_snoc; try done.
  by rewrite app_nil_r.
Qed.

Lemma merged_snoc ops d : omap merged (ops ++ [Merge d]) = omap merged ops ++ [d].
Proof. by rewrite omap_snoc. Qed.
Lemma merged_forget ops : omap merged (ops ++ [ForgetCalculatedSpeed]) = omap merged ops.
Proof. rewrite omap_snoc. apply app_nil_r. Qed.

(** An input that is forgotten twice is forgotten once: the flag only matters
    for the speed found. *)
Lemma speed_forgotten l :
  speed_looking_back l true =
  match speed_looking_back l false with
  | Some (speed, at_) => if bool_decide (m_source speed = Calculated) then None else Some (speed, at_)
  | None => None
  end.
Proof.
  induction l as [|[d|] l IH]; simpl; [done| |].
  - destruct (d_speed d); simpl; [by case_bool_decide|done].
  - rewrite IH. destruct (speed_looking_back l false) as [[s t]|]; [|done].
    destruct (bool_decide (m_source s = Calculated)) eqn:E; [done|]. by rewrite E.
Qed.

(** The snapshot is the latest-known value of every field.  Whatever
    updates and speed invalidations a session sees, in whatever order, each
    field of the snapshot is the last value an update supplied for it, however
    many updates since said nothing; a duty cycle or estimated battery level
    last declared invalid is absent; a speed calculated from a configuration
    lost since is absent while a reported one stays; and the observation times
    of speed, voltage and battery current are those of the very updates that
    supplied the retained values. *)
Theorem snapshot_is_latest_known ops :
  let ds := omap merged ops in
  let speed := speed_looking_back (rev ops) false in
  run_state snapshot_step default_snapshot ops =
  {| t_at_ms := last (d_at_ms <$> ds);
     t_speed_observed_at_ms := snd <$> speed;
     t_voltage_observed_at_ms := last_supplied_at d_voltage ds;
     t_battery_current_observed_at_ms := last_supplied_at d_battery_current ds;
     t_speed := fst <$> speed;
     t_voltage := last_supplied d_voltage ds;
     t_battery_current := last_supplied d_battery_current ds;
     t_charge_mode := last_supplied d_charge_mode ds;
     t_operating_state := last_supplied d_operating_state ds;
     t_operating_mode := last_supplied d_operating_mode ds;
     t_ride_warning := last_supplied d_ride_warning ds;
     t_ride_stop_reason := last_supplied d_ride_stop_reason ds;
     t_motor_current := last_supplied d_motor_current ds;
     t_power := last_supplied d_power ds;
     t_controller_temperature := last_supplied d_controller_temperature ds;
     t_motor_temperature := last_supplied d_motor_temperature ds;
     t_battery_temperature := last_supplied d_battery_temperature ds;
     t_pwm := last_said d_pwm ds;
     t_distance := last_supplied d_distance ds;
     t_trip_distance := last_supplied d_trip_distance ds;
     t_pitch := last_supplied d_pitch ds;
     t_balance_angle := last_supplied d_balance_angle ds;
     t_roll := last_supplied d_roll ds;
     t_footpad := last_supplied d_footpad ds;
     t_battery_level_reported := last_supplied d_battery_level_reported ds;
     t_battery_level_estimated := last_said d_battery_level_estimated ds |}.
Proof.
  cbv zeta. induction ops as [|i ops IH] using rev_ind; [done|].
  rewrite run_state_app, IH, run_state_one, rev_unit. destruct i as [d|]; cbn [snapshot_step fst].
  - rewrite merged_snoc. unfold apply_delta. cbn [t_at_ms t_speed t_voltage
      t_speed_observed_at_ms t_voltage_observed_at_ms t_battery_current_observed_at_ms
      t_battery_current t_charge_mode t_operating_state t_operating_mode t_ride_warning
      t_ride_stop_reason t_motor_current t_power t_controller_temperature t_motor_temperature
      t_battery_temperature t_pwm t_distance t_trip_distance t_pitch t_balance_angle t_roll
      t_footpad t_battery_level_reported t_battery_level_estimated].
    rewrite fmap_app. change (d_at_ms <$> [d]) with [d_at_ms d]. rewrite last_snoc.
    rewrite !last_supplied_snoc, !last_supplied_at_snoc, !last_said_snoc.
    f_equal; simpl; by destruct (d_speed d).
  - rewrite merged_forget.
    unfold invalidate_calculated_speed. cbn [t_speed]. simpl. rewrite speed_forgotten.
    destruct (speed_looking_back (rev ops) false) as [[s t]|]; simpl; [|done].
    by case_bool_decide.
Qed.

(** ** What the rider is shown

    [cutout-mobile-ffi/src/lib.rs]: the snapshot as the apps present it, as
    far as operating state, charge mode and power flow go. *)

Definition presented_charge_mode (adjusted : option Quantities.ChargeMode)
    (reading : Measured Quantities.ChargeMode) : Measured Quantities.ChargeMode :=
  let adjusted := default ChargeUnknown adjusted in
  if bool_decide (adjusted = m_value reading) then reading
  else {| m_value := adjusted; m_source := Calculated; m_quality := Inferred;
          m_verification := VerificationInferred |}.
Definition presented (s : TelemetrySnapshot)
  : RideOperatingState * option (Measured Quantities.ChargeMode) * option PowerFlowDirection :=
  let now := t_at_ms s in
  let '(operating_state, charge_mode_value) :=
    ride_resolve_fresh (t_operating_state s) (m_value <$> t_charge_mode s)
      (m_value <$> t_speed s) (t_speed_observed_at_ms s) now in
  (operating_state,
   presented_charge_mode charge_mode_value <$> t_charge_mode s,
   (fun current => power_flow_fresh (m_value current) operating_state
                     (t_battery_current_observed_at_ms s) now) <$> t_battery_current s).

Definition fresh_at (observed_at now : Z) : Prop :=
  observed_at <= now <= observed_at + CONNECTED_WHEEL_MOTION_FRESHNESS_MS.

Lemma power_flow_fresh_charging c st at_ now :
  power_flow_fresh c st at_ now = FlowCharging ->
  exists m t n, c = CurrentIn m /\ st = RideCharging /\ at_ = Some t /\ now = Some n /\ fresh_at t n.
Proof.
  unfold power_flow_fresh, fresh_at. destruct at_ as [t|], now as [n|]; try done.
  destruct (bool_decide_reflect (t <= n)), (bool_decide_reflect (sat_sub n t <= CONNECTED_WHEEL_MOTION_FRESHNESS_MS));
    try done. simpl. destruct c as [|m|m|m], st; try done. intros _. exists m, t, n.
  split_ands; try done; int_lia.
Qed.

(** A vehicle is resolved as charging only at rest, by fresh evidence. *)
Lemma ride_resolve_fresh_charging r c v t n st mode :
  ride_resolve_fresh r c v t (Some n) = (st, mode) -> st = RideCharging ->
  exists speed at_, v = Some speed /\ t = Some at_ /\ fresh_at at_ n /\ speed_is_moving speed = false /\
    (r = Some RideCharging \/ c = Some Charging).
Proof.
  unfold ride_resolve_fresh. intros [= Hst _] ->.
  assert (Hf : exists speed, speed_fresh_motion v t (Some n) = Some speed /\
                speed_is_moving speed = false /\ (r = Some RideCharging \/ c = Some Charging)).
  { unfold ride_resolve, charge_for_motion in Hst.
    destruct (speed_fresh_motion v t (Some n)) as [speed|] eqn:Ef.
    - exists speed. split; [done|]. simpl in Hst.
      destruct (speed_is_moving speed) eqn:Em; simpl in Hst;
        destruct r as [[]|], c as [[]|]; simpl in Hst; try discriminate Hst; auto.
    - destruct r as [[]|], c as [[]|]; simpl in Hst; discriminate Hst. }
  destruct Hf as (speed & Hf & Hm & Hc). unfold speed_fresh_motion in Hf.
  destruct v as [v|], t as [t|]; try discriminate Hf. simpl in Hf.
  exists v, t. case_match eqn:E; [|done]. simplify_eq. prop_bools.
  unfold fresh_at. split_ands; try done; int_lia.
Qed.

Lemma speed_looking_back_supplied ops v t :
  speed_looking_back (rev ops) false = Some (v, t) ->
  exists d, Merge d ∈ ops /\ d_speed d = Some v /\ d_at_ms d = t.
Proof.
  assert (H : forall l b, speed_looking_back l b = Some (v, t) ->
            exists d, Merge d ∈ l /\ d_speed d = Some v /\ d_at_ms d = t).
  { induction l as [|[d|] l IH]; intros b; simpl; [done| |].
    - destruct (d_speed d) as [s|] eqn:E.
      + destruct (_ && _); [done|]. intros [= -> <-]. exists d. split_ands; [set_solver|done|done].
      + intros (d' & H1 & H2)%IH. exists d'. split; [set_solver|done].
    - intros (d' & H1 & H2)%IH. exists d'. split; [set_solver|done]. }
  intros (d & H1 & H2)%H. exists d. split; [|done].
  by apply list_elem_of_In, in_rev, list_elem_of_In.
Qed.
Lemma last_supplied_elem {T} (f : TelemetryDelta -> option T) ds v t :
  last_supplied f ds = Some v -> last_supplied_at f ds = Some t ->
  exists d, d ∈ ds /\ f d = Some v /\ d_at_ms d = t.
Proof.
  induction ds as [|d ds IH] using rev_ind; [done|].
  rewrite last_supplied_snoc, last_supplied_at_snoc. destruct (f d) eqn:E; simpl.
  - intros [= <-] [= <-]. exists d. split_ands; [set_solver|done|done].
  - intros H1 H2. destruct (IH H1 H2) as (d' & ? & ?). exists d'. split; [set_solver|done].
Qed.

(** The vehicle is shown as charging only by fresh evidence of its own.
    If, after any history of updates, the apps show the power flow as
    charging, then one update supplied a current into the pack and another (or
    the same) a speed below the movement threshold, both no more than 5 seconds
    before the newest update and neither from its future, that current and that
    speed are the last known, and the last charge mode or operating state
    supplied says that the vehicle charges; the state shown is charging. *)
Theorem charging_shown_by_fresh_evidence ops state mode :
  let s := run_state snapshot_step default_snapshot ops in
  presented s = (state, mode, Some FlowCharging) ->
  state = RideCharging /\
  exists now dc dv c m v,
    t_at_ms s = Some now /\
    Merge dc ∈ ops /\ d_battery_current dc = Some c /\ t_battery_current s = Some c /\
    m_value c = CurrentIn m /\ fresh_at (d_at_ms dc) now /\
    Merge dv ∈ ops /\ d_speed dv = Some v /\ t_speed s = Some v /\
    speed_is_moving (m_value v) = false /\ fresh_at (d_at_ms dv) now /\
    (t_operating_state s = Some RideCharging \/ m_value <$> t_charge_mode s = Some Charging).
Proof.
  intros s. subst s. pose proof (snapshot_is_latest_known ops) as E. cbv zeta in E.
  rewrite E. clear E. set (ds := omap merged ops). unfold presented.
  cbn [t_operating_state t_charge_mode t_speed t_speed_observed_at_ms t_at_ms t_battery_current
       t_battery_current_observed_at_ms].
  destruct (ride_resolve_fresh _ _ _ _ _) as [st md] eqn:Er. intros [= <- _ Hflow].
  destruct (last_supplied d_battery_current ds) as [c|] eqn:Ec; [|done]. simpl in Hflow.
  injection Hflow as Hflow.
  apply power_flow_fresh_charging in Hflow as (m & tc & n & Hm & -> & Htc & Hn & Hfc).
  split; [done|]. rewrite Hn in Er.
  destruct (ride_resolve_fresh_charging _ _ _ _ _ _ _ Er eq_refl)
    as (v & tv & Hv & Htv & Hfv & Hmv & Hcm).
  destruct (speed_looking_back (rev ops) false) as [[v' tv']|] eqn:Es; simplify_eq/=.
  destruct (speed_looking_back_supplied _ _ _ Es) as (dv & Hdv & Hdv1 & <-).
  destruct (last_supplied_elem _ _ _ _ Ec Htc) as (dc & Hdc & Hdc1 & <-).
  exists n, dc, dv, c, m, v'. split_ands; try done.
  unfold ds in Hdc. apply list_elem_of_omap in Hdc as ([d'|] & ? & [= ->]). done.
Qed.

Definition charging_ops : list SnapshotInput :=
  [ Merge (delta_empty 1000 <| d_speed := Some (reported 0) |>
                            <| d_charge_mode := Some (estimated Charging) |>);
    Merge (delta_empty 1500 <| d_battery_current := Some (reported (CurrentIn 2000)) |>);
    Merge (delta_empty 2500) ].

Lemma charging_shown_by_fresh_evidence_witness :
  presented (run_state snapshot_step default_snapshot charging_ops)
    = (RideCharging, Some (estimated Charging), Some FlowCharging) /\
  exists now dc, t_at_ms (run_state snapshot_step default_snapshot charging_ops) = Some now /\
    Merge dc ∈ charging_ops /\ fresh_at (d_at_ms dc) now.
Proof.
  assert (E : presented (run_state snapshot_step default_snapshot charging_ops)
    = (RideCharging, Some (estimated Charging), Some FlowCharging)) by (vm_compute; reflexivity).
  split; [exact E|].
  destruct (charging_shown_by_fresh_evidence charging_ops _ _ E)
    as (_ & now & dc & _ & _ & _ & _ & Hn & Hd & _ & _ & _ & Hf & _).
  exact (ex_intro _ now (ex_intro _ dc (conj Hn (conj Hd Hf)))).
Defined.

(** ** Wire signs and physical direction *)

(** Normalisation keeps the magnitude, [i32::MIN] included, and reads the sign
    as the polarity says; opposite polarities see opposite directions. *)
Definition signed_out (c : BatteryCurrent) : option Z :=
  match c with
  | CurrentZero => Some 0 | CurrentOut m => Some m | CurrentIn m => Some (- m)
  | CurrentUnknown _ => None
  end.
Lemma normalize_magnitude wire p :
  in_i i32_min i32_max wire -> magnitude_milliamps (normalize wire p) = Z.abs wire /\
  in_u u32_max (magnitude_milliamps (normalize wire p)).
Proof.
  intros H. assert (E : magnitude_milliamps (normalize wire p) = Z.abs wire).
  { unfold normalize, current_unknown, current_out, current_in, magnitude_new.
    destruct p; simpl; repeat case_bool_decide; simpl; lia. }
  rewrite E. split; [done|]. int_lia.
Qed.
Lemma normalize_signed wire :
  signed_out (normalize wire PositiveIsOut) = Some wire /\
  signed_out (normalize wire PositiveIsIn) = Some (- wire).
Proof.
  unfold normalize, current_out, current_in, magnitude_new.
  split; repeat case_bool_decide; simpl; f_equal; lia.
Qed.
Lemma normalize_unknown wire st :
  power_flow (normalize wire PolarityUnknown) st = (if bool_decide (wire = 0) then FlowZero else FlowUnknown).
Proof. unfold normalize, current_unknown, magnitude_new. repeat case_bool_decide; try done; lia. Qed.
