(* ===== verification/VoltageSag.v ===== *)
(** * Voltage sag

    [cutout-core/src/energy_estimate.rs], first part: the effective resistance
    of a battery pack learned from consecutive load steps, and the sag it
    projects at the present current.  [cutout-core/src/controller_battery.rs]:
    the battery readings shown when there is no cell-level data.  A resistance
    is kept in 256ths of a milliohm ([resistance_q8], a [u64]). *)

From S2P Require Import Prelude.
From S2P Require Import Quantities.
From S2P Require Import Commands.
From S2P Require Import Telemetry.

Definition MIN_SAG_CURRENT_STEP_MILLIAMPS : Z := 500.
Definition MIN_SAG_VOLTAGE_STEP_MILLIVOLTS : Z := 50.
Definition MAX_SAG_LOAD_STEP_MILLISECONDS : Z := 5000.
Definition MAX_EFFECTIVE_RESISTANCE_MILLIOHMS : Z := 2000.

(** ** Evidence *)

Inductive ChargeFlow :=
| ChargeFlowCharging | ChargeFlowDischarging | ChargeFlowRegeneration | ChargeFlowZero
| ChargeFlowUnknown.
#[global] Instance charge_flow_eq_dec : EqDecision ChargeFlow.
Proof. solve_decision. Defined.
Inductive EstimateConfidence := ConfidenceLow | ConfidenceMedium | ConfidenceHigh.
#[global] Instance confidence_eq_dec : EqDecision EstimateConfidence.
Proof. solve_decision. Defined.
(** [VerificationStatus::is_hardware_verified]. *)
Definition is_hardware_verified (v : VerificationStatus) : bool :=
  match v with
  | HardwareVerified | SourceAndHardwareVerified => true
  | Unverified | VerificationInferred | SourceVerified => false
  end.

Record VoltageSagEstimate := {
  sag_delta : Z;
  load_current : Measured BatteryCurrent;
  effective_resistance : Z;
  sag_observations : Z;
  sag_confidence : EstimateConfidence;
  sag_calculated_at : Z;
  sag_valid_until : Z;
}.
Record VoltageSagInput := {
  sag_at : Z;
  sag_flow : ChargeFlow;
  sag_voltage : Measured Z;
  sag_battery_current : Measured BatteryCurrent;
  sag_max_age : Z;
}.
Record VoltageSagModel := {
  model_resistance : Z;
  model_observations : Z;
  hardware_verified : bool;
}.
Record VoltageSagSample := {
  sample_at : Z;
  sample_voltage : Measured Z;
  sample_current : Measured BatteryCurrent;
}.
Record VoltageSagEstimator := {
  last : option VoltageSagSample;
  resistance_q8 : Z;
  observations : Z;
  all_hardware_verified : bool;
}.
#[global] Instance eta_sag : Eta VoltageSagEstimator := fun r =>
  Build_VoltageSagEstimator (last r) (resistance_q8 r) (observations r) (all_hardware_verified r).

(** ** The estimator *)

Definition sag_new : VoltageSagEstimator :=
  {| last := None; resistance_q8 := 0; observations := 0; all_hardware_verified := false |}.
Definition sag_reset (self : VoltageSagEstimator) : VoltageSagEstimator := sag_new.
Definition reset_observations (self : VoltageSagEstimator) : VoltageSagEstimator :=
  self <| last := None |>.
(** [resistance_q8], rounded to whole milliohms. *)
Definition resistance_milliohms (self : VoltageSagEstimator) : Z :=
  sat_add u64_max (resistance_q8 self) 128 / 256.
Definition model (self : VoltageSagEstimator) : option VoltageSagModel :=
  if bool_decide (0 < observations self)
  then Some {| model_resistance := Z.min u32_max (resistance_milliohms self);
               model_observations := observations self;
               hardware_verified := all_hardware_verified self |}
  else None.
Definition restore_model (self : VoltageSagEstimator) (m : VoltageSagModel)
  : VoltageSagEstimator * bool :=
  let resistance := model_resistance m in
  if bool_decide (model_observations m = 0)
     || negb (bool_decide (1 <= resistance <= MAX_EFFECTIVE_RESISTANCE_MILLIOHMS))
  then (sag_reset self, false)
  else (reset_observations
          (self <| resistance_q8 := sat_mul u64_max resistance 256 |>
                <| observations := model_observations m |>
                <| all_hardware_verified := hardware_verified m |>), true).

Definition load_step_resistance (current_step voltage_step : Z) : option Z :=
  if bool_decide (current_step = 0) then None
  else Some (sat_add u64_max (sat_mul u64_max voltage_step 1000) (current_step / 2) / current_step).
Definition pair_hardware_verified (previous sample : VoltageSagSample) : bool :=
  is_hardware_verified (m_verification (sample_voltage previous)) &&
  is_hardware_verified (m_verification (sample_current previous)) &&
  is_hardware_verified (m_verification (sample_voltage sample)) &&
  is_hardware_verified (m_verification (sample_current sample)).
(** A quarter of the way from the old value to the new. *)
Definition quarter_step (old new : Z) : Z :=
  if bool_decide (old <= new)
  then sat_add u64_max old ((new - old) / 4)
  else sat_sub old ((old - new) / 4).
Definition learn (self : VoltageSagEstimator) (previous sample : VoltageSagSample)
    (current_step voltage_step : Z) : VoltageSagEstimator :=
  match load_step_resistance current_step voltage_step with
  | None => self
  | Some resistance =>
      if negb (bool_decide (1 <= resistance <= MAX_EFFECTIVE_RESISTANCE_MILLIOHMS)) then self
      else
        let q8 := sat_mul u64_max resistance 256 in
        let first := bool_decide (observations self = 0) in
        let pair := pair_hardware_verified previous sample in
        self <| resistance_q8 := if first then q8 else quarter_step (resistance_q8 self) q8 |>
             <| all_hardware_verified := if first then pair else all_hardware_verified self && pair |>
             <| observations := sat_add u16_max (observations self) 1 |>
  end.
Definition project (self : VoltageSagEstimator) (input : VoltageSagInput) (current : Z)
  : option VoltageSagEstimate :=
  let resistance := resistance_milliohms self in
  let delta := sat_add u64_max (sat_mul u64_max current resistance) 500 / 1000 in
  if bool_decide (i32_max < delta) then None
  else
    let confidence :=
      if bool_decide (observations self <= 1) then ConfidenceLow
      else if bool_decide (observations self = 2) then ConfidenceMedium
      else if all_hardware_verified self then ConfidenceHigh else ConfidenceMedium in
    Some {| sag_delta := - delta; load_current := sag_battery_current input;
            effective_resistance := Z.min u32_max resistance;
            sag_observations := observations self; sag_confidence := confidence;
            sag_calculated_at := sag_at input;
            sag_valid_until := timestamp_saturating_add_duration (sag_at input) (sag_max_age input) |}.

Definition unusable (input : VoltageSagInput) : bool :=
  let current_is_load :=
    match direction (m_value (sag_battery_current input)) with
    | DirectionOut | DirectionZero => true
    | DirectionIn | DirectionUnknown => false
    end in
  negb (bool_decide (sag_flow input = ChargeFlowDischarging)) || negb current_is_load
  || negb (is_trusted (m_verification (sag_voltage input)))
  || negb (is_trusted (m_verification (sag_battery_current input)))
  || bool_decide (m_quality (sag_voltage input) = Inferred)
  || bool_decide (m_quality (sag_battery_current input) = Inferred).
Definition sample_of (input : VoltageSagInput) : VoltageSagSample :=
  {| sample_at := sag_at input; sample_voltage := sag_voltage input;
     sample_current := sag_battery_current input |}.
(** The samples do not make a pair: too far apart, or of other evidence. *)
Definition unpaired (previous sample : VoltageSagSample) (input : VoltageSagInput) : bool :=
  let elapsed := sat_sub (sag_at input) (sample_at previous) in
  bool_decide (sag_at input < sample_at previous)
  || bool_decide (sag_max_age input < elapsed)
  || bool_decide (MAX_SAG_LOAD_STEP_MILLISECONDS < elapsed)
  || negb (bool_decide (m_source (sample_voltage previous) = m_source (sample_voltage sample)))
  || negb (bool_decide (m_verification (sample_voltage previous) = m_verification (sample_voltage sample)))
  || negb (bool_decide (m_source (sample_current previous) = m_source (sample_current sample)))
  || negb (bool_decide (m_verification (sample_current previous) = m_verification (sample_current sample))).
Definition seed (self : VoltageSagEstimator) (sample : VoltageSagSample) : VoltageSagEstimator :=
  self <| last := Some sample |>.
Definition sag_update (self : VoltageSagEstimator) (input : VoltageSagInput)
  : VoltageSagEstimator * option VoltageSagEstimate :=
  if unusable input then (reset_observations self, None)
  else
    let sample := sample_of input in
    let current := magnitude_milliamps (m_value (sample_current sample)) in
    match last self with
    | None =>
        let self := seed self sample in
        (self, if bool_decide (0 < observations self) &&
                  bool_decide (MIN_SAG_CURRENT_STEP_MILLIAMPS <= current)
               then project self input current else None)
    | Some previous =>
        if unpaired previous sample input then (seed (reset_observations self) sample, None)
        else
          let previous_current := magnitude_milliamps (m_value (sample_current previous)) in
          let current_delta := current - previous_current in
          let voltage_delta := m_value (sample_voltage sample) - m_value (sample_voltage previous) in
          let material := bool_decide (MIN_SAG_CURRENT_STEP_MILLIAMPS <= Z.abs current_delta) &&
                          bool_decide (MIN_SAG_VOLTAGE_STEP_MILLIVOLTS <= Z.abs voltage_delta) in
          let opposing := (bool_decide (0 < current_delta) && bool_decide (voltage_delta < 0)) ||
                          (bool_decide (current_delta < 0) && bool_decide (0 < voltage_delta)) in
          if material && negb opposing then (seed (reset_observations self) sample, None)
          else
            let self := if material
                        then learn self previous sample (Z.abs current_delta) (Z.abs voltage_delta)
                        else self in
            let self := self <| last := Some sample |> in
            (self, if bool_decide (observations self = 0) ||
                      bool_decide (current < MIN_SAG_CURRENT_STEP_MILLIAMPS)
                   then None else project self input current)
    end.

(** ** The readings of a controller *)

Record ControllerBatteryReadings := {
  reported_level : option Z;
  estimated_level : option Z;
  cb_voltage : option Z;
  cb_current : option BatteryCurrent;
  cb_voltage_sag : option Z;
}.
Inductive ControllerBatteryInput :=
| FromSnapshot (snapshot : ControllerBatteryReadings)
| FromLive (telemetry snapshot : ControllerBatteryReadings).
Inductive ControllerBatteryEstimateDetail := RecentSag | VoltageCurve | DetailUnavailable.
Inductive ControllerBatteryConfidence := ControllerMedium | ControllerLow | ControllerUnknown.
Record ControllerBatteryProjection := {
  cp_level : option Z;
  cp_voltage : option Z;
  cp_current : option BatteryCurrent;
  cp_voltage_sag : option Z;
  detail : ControllerBatteryEstimateDetail;
  cp_confidence : ControllerBatteryConfidence;
}.
Definition or_else {A} (a b : option A) : option A := match a with Some _ => a | None => b end.
Definition preferred_level (readings : ControllerBatteryReadings) : option Z :=
  or_else (reported_level readings) (estimated_level readings).
Definition some {A} (o : option A) : bool := bool_decide (is_Some o).
Definition from_snapshot (snapshot : ControllerBatteryReadings) : ControllerBatteryProjection :=
  let level := preferred_level snapshot in
  let '(detail, confidence) :=
    if some (cb_voltage snapshot) && some (cb_current snapshot) then (RecentSag, ControllerMedium)
    else if some (cb_voltage snapshot) then (VoltageCurve, ControllerLow)
    else (DetailUnavailable, if some level then ControllerLow else ControllerUnknown) in
  {| cp_level := level; cp_voltage := cb_voltage snapshot; cp_current := cb_current snapshot;
     cp_voltage_sag := None; detail := detail; cp_confidence := confidence |}.
Definition from_live (telemetry snapshot : ControllerBatteryReadings) : ControllerBatteryProjection :=
  let telemetry_level := preferred_level telemetry in
  {| cp_level := or_else telemetry_level (preferred_level snapshot);
     cp_voltage := or_else (cb_voltage telemetry) (cb_voltage snapshot);
     cp_current := or_else (cb_current telemetry) (cb_current snapshot);
     cp_voltage_sag := cb_voltage_sag telemetry;
     detail := if some (cb_voltage telemetry) && some (cb_voltage_sag telemetry) then RecentSag
               else if some (cb_voltage telemetry) then VoltageCurve else DetailUnavailable;
     cp_confidence :=
       if some telemetry_level && some (cb_voltage_sag telemetry) then ControllerMedium
       else if some telemetry_level || some (cb_voltage telemetry) then ControllerLow
       else ControllerUnknown |}.
Definition from_input (input : ControllerBatteryInput) : ControllerBatteryProjection :=
  match input with
  | FromSnapshot snapshot => from_snapshot snapshot
  | FromLive telemetry snapshot => from_live telemetry snapshot
  end.

(** ** The machine *)

Inductive SagCall :=
| SagUpdate (input : VoltageSagInput)
| SagRestore (m : VoltageSagModel)
| SagReset
| SagResetObservations.
Definition sag_step (s : VoltageSagEstimator) (c : SagCall)
  : VoltageSagEstimator * option VoltageSagEstimate :=
  match c with
  | SagUpdate input => sag_update s input
  | SagRestore m => ((restore_model s m).1, None)
  | SagReset => (sag_reset s, None)
  | SagResetObservations => (reset_observations s, None)
  end.

(** The resistance a call contributes: that of a restored model, or of the load
    step between two samples of the same trusted evidence at most five seconds
    apart, the voltage moving against the current. *)
Definition contributes (s : VoltageSagEstimator) (c : SagCall) (r : Z) : Prop :=
  1 <= r <= MAX_EFFECTIVE_RESISTANCE_MILLIOHMS /\
  match c with
  | SagRestore m => r = model_resistance m
  | SagUpdate input =>
      unusable input = false /\
      exists previous, last s = Some previous /\ unpaired previous (sample_of input) input = false /\
        let di := magnitude_milliamps (m_value (sag_battery_current input)) -
                  magnitude_milliamps (m_value (sample_current previous)) in
        let dv := m_value (sag_voltage input) - m_value (sample_voltage previous) in
        MIN_SAG_CURRENT_STEP_MILLIAMPS <= Z.abs di /\ MIN_SAG_VOLTAGE_STEP_MILLIVOLTS <= Z.abs dv /\
        di * dv < 0 /\ load_step_resistance (Z.abs di) (Z.abs dv) = Some r
  | _ => False
  end.
(** An estimate projects a resistance at the input's current. *)
Definition projects (s : VoltageSagEstimator) (input : VoltageSagInput) (e : VoltageSagEstimate)
    (r : Z) : Prop :=
  effective_resistance e = r /\
  sag_delta e = - ((magnitude_milliamps (m_value (sag_battery_current input)) * r + 500) / 1000) /\
  sag_calculated_at e = sag_at input /\ sag_observations e = observations s.

(** *** The hull of what was learned *)

Section Hull.
Context (lo hi : Z) (Hlo : 1 <= lo) (Hhi : hi <= MAX_EFFECTIVE_RESISTANCE_MILLIOHMS).

Definition in_hull (s : VoltageSagEstimator) : Prop :=
  0 <= observations s /\ (0 < observations s -> 256 * lo <= resistance_q8 s <= 256 * hi).
Lemma in_hull_same (s s' : VoltageSagEstimator) :
  observations s' = observations s -> resistance_q8 s' = resistance_q8 s -> in_hull s -> in_hull s'.
Proof. unfold in_hull. by intros -> ->. Qed.
Lemma quarter_step_hull old new :
  256 * lo <= old <= 256 * hi -> 256 * lo <= new <= 256 * hi ->
  256 * lo <= quarter_step old new <= 256 * hi.
Proof.
  unfold quarter_step, MAX_EFFECTIVE_RESISTANCE_MILLIOHMS in *. intros.
  case_bool_decide; div_lia.
Qed.
Lemma learn_hull s previous sample di dv r :
  in_hull s -> load_step_resistance di dv = Some r -> (1 <= r <= 2000 -> lo <= r <= hi) ->
  in_hull (learn s previous sample di dv).
Proof.
  intros [Ho Hq] Hr Hc. unfold learn. rewrite Hr.
  destruct (negb _) eqn:E; [done|]. prop_bools. specialize (Hc E).
  unfold MAX_EFFECTIVE_RESISTANCE_MILLIOHMS in *.
  assert (Hs : sat_mul u64_max r 256 = 256 * r) by int_lia.
  destruct s as [la q o h]. unfold in_hull. simpl in *. rewrite Hs. split; [int_lia|]. intros _.
  case_bool_decide as Hz; [lia|]. apply quarter_step_hull; lia.
Qed.
Lemma resistance_hull s :
  in_hull s -> 0 < observations s -> lo <= resistance_milliohms s <= hi.
Proof.
  intros [_ H] Ho. specialize (H Ho). unfold resistance_milliohms, MAX_EFFECTIVE_RESISTANCE_MILLIOHMS in *.
  div_lia.
Qed.
Lemma project_hull s input e :
  in_hull s -> 0 < observations s ->
  0 <= magnitude_milliamps (m_value (sag_battery_current input)) <= u32_max ->
  project s input (magnitude_milliamps (m_value (sag_battery_current input))) = Some e ->
  exists r, lo <= r <= hi /\ projects s input e r.
Proof.
  intros Hs Ho Hm. pose proof (resistance_hull s Hs Ho) as Hr. unfold project.
  set (i := magnitude_milliamps _) in *. case_bool_decide; [done|]. intros [= <-].
  exists (resistance_milliohms s). split; [done|]. unfold projects. simpl.
  unfold MAX_EFFECTIVE_RESISTANCE_MILLIOHMS in *. fold i.
  assert (0 <= i * resistance_milliohms s <= u32_max * 2000) by (unfold u32_max in *; nia).
  unfold sat_add, sat_mul. rewrite !Z.min_r by (unfold u64_max, u32_max in *; lia).
  split_ands; [unfold u32_max; lia|done..].
Qed.

Lemma sag_update_hull s input :
  in_hull s -> (forall r, contributes s (SagUpdate input) r -> lo <= r <= hi) ->
  0 <= magnitude_milliamps (m_value (sag_battery_current input)) <= u32_max ->
  in_hull (sag_update s input).1 /\
  forall e, (sag_update s input).2 = Some e ->
    exists r, lo <= r <= hi /\ projects (sag_update s input).1 input e r.
Proof.
  intros Hs Hc Hm. unfold sag_update.
  destruct (unusable input) eqn:Eu; [split; [apply (in_hull_same s); [by destruct s..|done]|done]|].
  cbn [sample_of sample_current]. set (i := magnitude_milliamps _) in *.
  destruct (last s) as [previous|] eqn:El.
  2:{ assert (Hs' : in_hull (seed s (sample_of input))) by (apply (in_hull_same s); [by destruct s..|done]).
      cbn [fst snd]. split; [done|]. intros e.
      destruct (bool_decide (0 < observations _)) eqn:Eo; [|done]. prop_bools.
      destruct (bool_decide _); [|done]. by apply project_hull. }
  destruct (unpaired previous (sample_of input) input) eqn:Ep.
  { split; [apply (in_hull_same s); [by destruct s..|done]|done]. }
  cbv zeta. set (di := i - _). cbn [sample_of sample_voltage]. set (dv := m_value _ - m_value _).
  destruct (bool_decide (_ <= Z.abs di) && _) eqn:Em; cbn [andb].
  - destruct (negb (_ || _)) eqn:Eo; [split; [apply (in_hull_same s); [by destruct s..|done]|done]|].
    assert (Hl : in_hull (learn s previous (sample_of input) (Z.abs di) (Z.abs dv))).
    { destruct (load_step_resistance (Z.abs di) (Z.abs dv)) as [r|] eqn:Er.
      2:{ unfold learn. by rewrite Er. }
      apply (learn_hull s previous (sample_of input) (Z.abs di) (Z.abs dv) r); [done|done|].
      intros Hr. apply Hc. split; [done|]. split; [done|]. exists previous.
      cbv zeta. fold i di dv. prop_bools. split_ands; try done.
      destruct Eo as [Eo|Eo]; prop_bools; [apply Z.mul_pos_neg|apply Z.mul_neg_pos]; lia. }
    set (s1 := learn _ _ _ _ _) in *. clearbody s1.
    assert (Hs1 : in_hull (s1 <| last := Some (sample_of input) |>)) by (apply (in_hull_same s1); [by destruct s1..|done]).
    cbn [fst snd]. split; [done|]. intros e.
    destruct (bool_decide (observations _ = 0)) eqn:E0; [done|]. cbn [orb]. prop_bools.
    destruct (bool_decide (i < _)); [done|]. apply project_hull; [done|destruct Hs1; lia|done].
  - assert (Hs1 : in_hull (s <| last := Some (sample_of input) |>)) by (apply (in_hull_same s); [by destruct s..|done]).
    cbn [fst snd]. split; [done|]. intros e.
    destruct (bool_decide (observations _ = 0)) eqn:E0; [done|]. cbn [orb]. prop_bools.
    destruct (bool_decide (i < _)); [done|]. apply project_hull; [done|destruct Hs1; lia|done].
Qed.

Lemma sag_step_hull s c :
  in_hull s -> (forall r, contributes s c r -> lo <= r <= hi) ->
  match c with
  | SagUpdate input => 0 <= magnitude_milliamps (m_value (sag_battery_current input)) <= u32_max
  | SagRestore m => 0 <= model_observations m
  | _ => True
  end ->
  in_hull (sag_step s c).1.
Proof.
  intros Hs Hc Hw. destruct c as [input|m| |]; cbn [sag_step fst].
  - by apply sag_update_hull.
  - unfold restore_model. destruct (_ || _) eqn:E; [by split|]. prop_bools.
    assert (Hr : lo <= model_resistance m <= hi) by (apply Hc; by split).
    destruct s. split; simpl; [done|]. unfold MAX_EFFECTIVE_RESISTANCE_MILLIOHMS in *. int_lia.
  - by split.
  - apply (in_hull_same s); [by destruct s..|done].
Qed.
Lemma sag_run_hull calls s :
  in_hull s ->
  (forall pre c post, calls = pre ++ c :: post ->
     (forall r, contributes (run_state sag_step s pre) c r -> lo <= r <= hi) /\
     match c with
     | SagUpdate input => 0 <= magnitude_milliamps (m_value (sag_battery_current input)) <= u32_max
     | SagRestore m => 0 <= model_observations m
     | _ => True
     end) ->
  in_hull (run_state sag_step s calls).
Proof.
  induction calls as [|c calls IH] using rev_ind; intros Hs Hall; [done|].
  rewrite run_state_snoc. destruct (Hall calls c []) as [Hc Hw]; [done|].
  apply sag_step_hull; [|done|done]. apply IH; [done|].
  intros pre c' post ->. apply (Hall pre c' (post ++ [c])). by rewrite <- app_assoc.
Qed.
End Hull.

Definition sag_width (c : SagCall) : Prop :=
  match c with
  | SagUpdate input => 0 <= magnitude_milliamps (m_value (sag_battery_current input)) <= u32_max
  | SagRestore m => 0 <= model_observations m <= u16_max
  | _ => True
  end.

(** The sag that is shown stays within what was learned: after any updates,
    resets and restored models, an estimate projects a resistance that lies
    between any bounds that hold of every load step and restored model that
    contributed, rounded to the nearest millivolt at the present current, and
    it is an estimate of a voltage drop under a discharging load. *)
Theorem sag_within_learned (lo hi : Z) (calls : list SagCall) (input : VoltageSagInput)
    (e : VoltageSagEstimate) :
  1 <= lo -> hi <= MAX_EFFECTIVE_RESISTANCE_MILLIOHMS ->
  Forall sag_width calls -> sag_width (SagUpdate input) ->
  (forall pre c post, calls ++ [SagUpdate input] = pre ++ c :: post ->
     forall r, contributes (run_state sag_step sag_new pre) c r -> lo <= r <= hi) ->
  let s := run_state sag_step sag_new calls in
  (sag_update s input).2 = Some e ->
  sag_flow input = ChargeFlowDischarging /\
  exists r, lo <= r <= hi /\ projects (sag_update s input).1 input e r.
Proof.
  intros Hlo Hhi Hw Hi Hall s He. split.
  { unfold sag_update in He. destruct (unusable input) eqn:Eu; [done|]. unfold unusable in Eu.
    prop_bools. by destruct (decide (sag_flow input = ChargeFlowDischarging)). }
  assert (Hs : in_hull lo hi s).
  { apply sag_run_hull; [done|done|by split|]. intros pre c post ->. split.
    - apply (Hall pre c (post ++ [SagUpdate input])). by rewrite <- app_assoc.
    - apply Forall_app in Hw as [_ Hw]. apply Forall_cons in Hw as [Hw _].
      destruct c; simpl in *; [lia|lia|done|done]. }
  apply (sag_update_hull lo hi Hlo Hhi s input Hs); [|done|done].
  apply (Hall calls (SagUpdate input) []). done.
Qed.

(** A pack of one resistance: its voltage falls below [v0] by current times
    resistance, without rounding. *)
Definition ideal (v0 r : Z) (input : VoltageSagInput) : Prop :=
  0 <= magnitude_milliamps (m_value (sag_battery_current input)) <= u32_max /\
  1000 * (v0 - m_value (sag_voltage input)) =
    magnitude_milliamps (m_value (sag_battery_current input)) * r.
(** The sample an estimator keeps is one of the inputs. *)
Definition keeps_ideal (v0 r : Z) (s : VoltageSagEstimator) : Prop :=
  forall p, last s = Some p -> exists input, ideal v0 r input /\ p = sample_of input.
Lemma sag_update_last s input :
  last (sag_update s input).1 = None \/ last (sag_update s input).1 = Some (sample_of input).
Proof.
  unfold sag_update. destruct (unusable input); [by left; destruct s|].
  destruct (last s) as [p|]; [|by right; destruct s].
  destruct (unpaired _ _ _); [by right; destruct s|]. cbv zeta.
  destruct (_ && negb _); [by right; destruct s|]. right.
  destruct (_ && _); [|by destruct s]. cbn [fst]. by destruct (learn _ _ _ _ _).
Qed.
Lemma ideal_contributes v0 r s input r' :
  1 <= r <= MAX_EFFECTIVE_RESISTANCE_MILLIOHMS -> keeps_ideal v0 r s -> ideal v0 r input -> contributes s (SagUpdate input) r' -> r' = r.
Proof.
  intros Hr Hk [Hi1 Hi2] (_ & _ & p & Hp & _ & Hdi & _ & _ & Hl).
  destruct (Hk p Hp) as (input' & [Hj1 Hj2] & ->). cbn [sample_of sample_current sample_voltage] in *.
  set (i := magnitude_milliamps _) in *. set (j := magnitude_milliamps (m_value (sag_battery_current input'))) in *.
  set (v := m_value (sag_voltage input)) in *. set (w := m_value (sag_voltage input')) in *.
  assert (E : 1000 * Z.abs (v - w) = Z.abs (i - j) * r).
  { rewrite <- (Z.abs_eq r) by lia. rewrite <- Z.abs_mul.
    replace ((i - j) * r) with (- (1000 * (v - w))) by lia. rewrite Z.abs_opp, Z.abs_mul. done. }
  clearbody i j v w.
  unfold load_step_resistance, MIN_SAG_CURRENT_STEP_MILLIAMPS, MAX_EFFECTIVE_RESISTANCE_MILLIOHMS in *.
  rewrite bool_decide_false in Hl by lia. injection Hl as <-.
  unfold sat_add, sat_mul. replace (Z.abs (v - w) * 1000) with (Z.abs (i - j) * r) by lia.
  assert (Z.abs (i - j) * r <= u32_max * 2000) by (unfold u32_max in *; nia).
  rewrite !Z.min_r by (unfold u64_max, u32_max in *; div_lia).
  rewrite Z.mul_comm, Z.div_add_l by lia. rewrite (Z.div_small (Z.abs (i - j) / 2)); [lia|div_lia].
Qed.
Lemma ideal_run v0 r inputs s :
  keeps_ideal v0 r s -> Forall (ideal v0 r) inputs ->
  keeps_ideal v0 r (run_state sag_step s (SagUpdate <$> inputs)).
Proof.
  intros Hk Hi. revert s Hk. induction Hi as [|input inputs Hi _ IH]; intros s Hk; [done|].
  cbn [fmap list_fmap]. rewrite run_state_cons. apply IH. intros p.
  cbn [sag_step]. destruct (sag_update_last s input) as [-> | ->]; [done|]. intros [= <-]. eauto.
Qed.

(** C33: an ideal pack is learned exactly: when every sample comes from a pack
    whose voltage falls by its current times one resistance, an estimate shows
    that resistance, and its sag is exactly the loaded minus the no-load
    voltage, however many samples came before and whichever were used. *)
Theorem sag_exact_for_ideal_pack (v0 r : Z) (inputs : list VoltageSagInput) (input : VoltageSagInput)
    (e : VoltageSagEstimate) :
  1 <= r <= MAX_EFFECTIVE_RESISTANCE_MILLIOHMS ->
  Forall (ideal v0 r) inputs -> ideal v0 r input ->
  (sag_update (run_state sag_step sag_new (SagUpdate <$> inputs)) input).2 = Some e ->
  effective_resistance e = r /\ sag_delta e = m_value (sag_voltage input) - v0.
Proof.
  intros Hr Hall Hi He. set (s := run_state _ _ _) in *.
  assert (Hs : in_hull r r s).
  { apply sag_run_hull; [lia..|by split|]. intros pre c post Hpre.
    apply fmap_app_inv in Hpre as (ins & rest & -> & Hrest & ->). symmetry in Hrest.
    apply fmap_cons_inv in Hrest as (x & xs & -> & _ & ->).
    apply Forall_app in Hall as [H1 H2]. apply Forall_cons in H2 as [Hx _].
    split; [|by destruct Hx]. intros r' Hc.
    apply (ideal_contributes v0 r) in Hc as ->; [lia|done| |done].
    apply ideal_run; [by intros p|done]. }
  destruct (sag_update_hull r r ltac:(lia) ltac:(lia) s input Hs) as [_ Hu]; [|by destruct Hi|].
  { intros r' Hc. apply (ideal_contributes v0 r) in Hc as ->; [lia|done| |done].
    apply ideal_run; [by intros p|done]. }
  destruct (Hu e He) as (r' & Hr' & E1 & E2 & _). replace r' with r in * by lia.
  split; [done|]. rewrite E2. destruct Hi as [_ Hv]. rewrite <- Hv. div_lia.
Qed.

(** A learned model survives being stored: whatever an estimator has
    learned, restoring its model into any estimator succeeds, and the restored
    estimator has the same model and projects the same sag as the one that
    learned it. *)
Theorem sag_model_roundtrip (calls : list SagCall) (m : VoltageSagModel) (s' : VoltageSagEstimator) :
  Forall sag_width calls ->
  model (run_state sag_step sag_new calls) = Some m ->
  let '(r, ok) := restore_model s' m in
  ok = true /\ model r = Some m /\ last r = None /\
  (forall input current, project r input current = project (run_state sag_step sag_new calls) input current).
Proof.
  set (s := run_state _ _ _). intros Hw.
  assert (Hs : in_hull 1 2000 s).
  { apply sag_run_hull; [done|done|by split|]. intros pre c post ->.
    apply Forall_app in Hw as [_ Hw]. apply Forall_cons in Hw as [Hw _]. split.
    - intros r [Hr _]. exact Hr.
    - destruct c; simpl in *; [lia|lia|done|done]. }
  unfold model. case_bool_decide as Ho; [|done]. intros [= <-].
  pose proof (resistance_hull 1 2000 ltac:(done) s Hs Ho) as Hr.
  unfold restore_model. cbn [model_resistance model_observations hardware_verified]. cbv zeta.
  rewrite Z.min_r by (unfold u32_max; lia).
  rewrite (bool_decide_false (observations s = 0)), bool_decide_true by (unfold MAX_EFFECTIVE_RESISTANCE_MILLIOHMS; lia).
  cbn [orb negb]. split; [done|].
  set (s1 := reset_observations _).
  assert (E : resistance_milliohms s1 = resistance_milliohms s /\ observations s1 = observations s /\
              all_hardware_verified s1 = all_hardware_verified s /\ last s1 = None).
  { unfold s1. destruct s' as [l q o h]. simpl. split_ands; try done.
    unfold resistance_milliohms at 1. simpl. unfold sat_mul. rewrite Z.min_r by (unfold u64_max; lia). div_lia. }
  clearbody s1. destruct E as (E1 & E2 & E3 & E4). split_ands; [|done|].
  - unfold model. rewrite E1, E2, E3, bool_decide_true by done. do 2 f_equal. unfold u32_max. lia.
  - intros input current. unfold project. by rewrite E1, E2, E3.
Qed.

(** ** Witnesses *)

Definition ideal_input (at_ current : Z) : VoltageSagInput :=
  {| sag_at := at_; sag_flow := ChargeFlowDischarging;
     sag_voltage := {| m_value := 100000 - current * 50 / 1000; m_source := Reported; m_quality := Known;
                       m_verification := HardwareVerified |};
     sag_battery_current := {| m_value := current_out current; m_source := Reported; m_quality := Known;
                               m_verification := HardwareVerified |};
     sag_max_age := 2000 |}.
Lemma sag_within_learned_witness :
  exists r, 50 <= r <= 50 /\ projects
    (sag_update (run_state sag_step sag_new [SagUpdate (ideal_input 1000 2000)]) (ideal_input 2000 6000)).1
    (ideal_input 2000 6000) {|
      sag_delta := -300; load_current := sag_battery_current (ideal_input 2000 6000);
      effective_resistance := 50; sag_observations := 1; sag_confidence := ConfidenceLow;
      sag_calculated_at := 2000; sag_valid_until := 4000 |} r.
Proof.
  apply (sag_within_learned 50 50 [SagUpdate (ideal_input 1000 2000)] (ideal_input 2000 6000)).
  - lia.
  - vm_compute. discriminate.
  - repeat constructor; vm_compute; discriminate.
  - split; vm_compute; discriminate.
  - intros [|c0 [|c1 [|c2 pre]]] c post E r Hc; injection E as <-; simplify_eq.
    + destruct Hc as [_ (_ & p & Hp & _)]. done.
    + destruct Hc as [_ (_ & p & Hp & _ & _ & _ & _ & Hr)]. vm_compute in Hp. injection Hp as <-.
      vm_compute in Hr. injection Hr as <-. lia.
  - vm_compute. reflexivity.
Defined.
Lemma sag_exact_for_ideal_pack_witness :
  exists e, (sag_update (run_state sag_step sag_new (SagUpdate <$> [ideal_input 1000 2000]))
               (ideal_input 2000 6000)).2 = Some e /\
    effective_resistance e = 50 /\ sag_delta e = m_value (sag_voltage (ideal_input 2000 6000)) - 100000.
Proof.
  eexists. split; [vm_compute; reflexivity|].
  apply (sag_exact_for_ideal_pack 100000 50 [ideal_input 1000 2000] (ideal_input 2000 6000)).
  - unfold MAX_EFFECTIVE_RESISTANCE_MILLIOHMS. lia.
  - repeat constructor; vm_compute; discriminate.
  - split; [split; vm_compute; discriminate|reflexivity].
  - vm_compute. reflexivity.
Defined.
Lemma sag_model_roundtrip_witness :
  let m := {| model_resistance := 50; model_observations := 1; hardware_verified := true |} in
  let '(r, ok) := restore_model sag_new m in
  ok = true /\ model r = Some m /\ last r = None /\
  forall input current, project r input current =
    project (run_state sag_step sag_new [SagUpdate (ideal_input 1000 2000); SagUpdate (ideal_input 2000 6000)])
      input current.
Proof.
  apply (sag_model_roundtrip [SagUpdate (ideal_input 1000 2000); SagUpdate (ideal_input 2000 6000)]).
  - repeat constructor; vm_compute; discriminate.
  - vm_compute. reflexivity.
Defined.
