(* ===== verification/ChargeEstimate.v ===== *)
(** * Time to full

    [cutout-core/src/energy_estimate.rs], second part: [ChargeEstimator], which
    admits samples of a charging pack one at a time and answers whether it can
    say how long the charge still takes.  [CurrentRateWindow] is the bounded
    summary of the admitted current, in 256ths of a milliamp.  A [Result] whose
    error is the answer to return early is [result _ ChargeEstimateState]. *)

From S2P Require Import Prelude.
From S2P Require Import Quantities.
From S2P Require Import Commands.
From S2P Require Import Telemetry.
From S2P Require Import VoltageSag.

Definition MIN_SAMPLES : Z := 3.
Definition MIN_OBSERVATION_MILLISECONDS : Z := 30000.
Definition MIN_CHARGE_CURRENT_MILLIAMPS : Z := 100.
Definition STABLE_VARIABILITY_PERMILLE : Z := 100.
Definition EWMA_SHIFT : Z := 2.
Definition MILLISECONDS_PER_MILLIAMP_HOUR : Z := 3600000.

(** ** Evidence *)

Inductive CapacitySource := ProtocolProfile | HardwareMeasured | CapacityEstimated.
#[global] Instance capacity_source_eq_dec : EqDecision CapacitySource.
Proof. solve_decision. Defined.
Record UsablePackCapacity := {
  uc_value : Z;
  uc_source : CapacitySource;
  uc_verification : VerificationStatus;
}.
#[global] Instance capacity_eq_dec : EqDecision UsablePackCapacity.
Proof. solve_decision. Defined.
Definition ChargeProfileIdentity : Type := Z.
Definition ChargeSessionIdentity : Type := Z.
Inductive BatteryLevelBasis :=
| BasisReported (level : Measured Z)
| BasisProfileEstimated (level : Measured Z) (profile : ChargeProfileIdentity)
    (confidence : EstimateConfidence)
| BasisUnavailable.
Definition basis_level (self : BatteryLevelBasis) : option Z :=
  match self with
  | BasisReported level | BasisProfileEstimated level _ _ => Some (m_value level)
  | BasisUnavailable => None
  end.
Record ChargeEstimateInput := {
  in_session : ChargeSessionIdentity;
  in_profile : ChargeProfileIdentity;
  in_at : Z;
  in_observed_at : Z;
  in_battery_current : option (Measured BatteryCurrent);
  in_charge_mode : Measured Quantities.ChargeMode;
  in_flow : Measured ChargeFlow;
  in_battery_level : BatteryLevelBasis;
  in_usable_capacity : UsablePackCapacity;
  in_battery_temperature : option (Measured Z);
  in_voltage_sag : option VoltageSagEstimate;
  in_max_age : Z;
}.

(** ** Answers *)

Inductive ChargeEstimateUnavailableReason :=
| ReasonNotCharging | CurrentMissing | CurrentDirectionUnverified | CurrentTooSmall
| BatteryLevelMissing | CapacityMissing | UnsupportedProfile | UnstableCurrent | StaleInput
| TemperatureOutOfModel | ContradictoryInputs.
Inductive ChargeEstimateResetReason :=
| SessionChanged | ChargingStopped | StaleGap | ResetTimestampOrder | CurrentEvidenceChanged
| CapacityChanged | ProfileChanged | Manual.
Inductive ChargeEstimateError := TimestampOrder | ArithmeticOverflow.
Record CurrentRateSummary := {
  rate_mean : CurrentMagnitude;
  rate_minimum : CurrentMagnitude;
  rate_maximum : CurrentMagnitude;
  variability_permille : Z;
}.
Definition is_stable (self : CurrentRateSummary) : bool :=
  bool_decide (variability_permille self <= STABLE_VARIABILITY_PERMILLE).
Inductive EstimateKind :=
| AtPresentCurrent | ProfileBackedTimeToFull | ObservedTaperTimeToFull | ObservedProgressTimeToFull.
Record ChargeTimeEstimate := {
  lower : Z;
  expected : Z;
  upper : Z;
  kind : EstimateKind;
  confidence : EstimateConfidence;
  current_rate : CurrentRateSummary;
  battery_level_basis : BatteryLevelBasis;
  capacity_source : CapacitySource;
  estimate_sag : option VoltageSagEstimate;
  calculated_at : Z;
  valid_until : Z;
}.
#[global] Instance eta_estimate : Eta ChargeTimeEstimate := fun r =>
  Build_ChargeTimeEstimate (lower r) (expected r) (upper r) (kind r) (confidence r) (current_rate r)
    (battery_level_basis r) (capacity_source r) (estimate_sag r) (calculated_at r) (valid_until r).
Inductive ChargeEstimateState :=
| Full
| Balancing
| CollectingSamples (samples observed_for : Z)
| Available (estimate : ChargeTimeEstimate)
| EstimateUnavailable (reason : ChargeEstimateUnavailableReason)
| Stale
| Failed (error : ChargeEstimateError).
Definition unavailable (reason : ChargeEstimateUnavailableReason) : ChargeEstimateState :=
  EstimateUnavailable reason.

(** ** The window of admitted current *)

Record CurrentRateWindow := {
  w_start : option Z;
  w_last : option Z;
  w_count : Z;
  mean_q8 : Z;
  minimum : Z;
  maximum : Z;
  last_current : Z;
  variability_q8 : Z;
}.
#[global] Instance eta_window : Eta CurrentRateWindow := fun r =>
  Build_CurrentRateWindow (w_start r) (w_last r) (w_count r) (mean_q8 r) (minimum r) (maximum r)
    (last_current r) (variability_q8 r).
#[global] Instance window_eq_dec : EqDecision CurrentRateWindow.
Proof. solve_decision. Defined.
Definition default_window : CurrentRateWindow :=
  {| w_start := None; w_last := None; w_count := 0; mean_q8 := 0; minimum := 0; maximum := 0;
     last_current := 0; variability_q8 := 0 |}.
(** A step of a quarter of the way, the division truncated towards zero. *)
Definition ewma (old new : Z) : Z :=
  sat_add_i i64_min i64_max old (Z.quot (sat_sub_i i64_min i64_max new old) (2 ^ EWMA_SHIFT)).
Definition window_observe (self : CurrentRateWindow) (at_ current : Z) : CurrentRateWindow :=
  if bool_decide (w_last self = Some at_) && bool_decide (last_current self = current) then self
  else
    let current_q8 := clamp i64_min i64_max (current * 256) in
    let self :=
      if bool_decide (w_count self = 0)
      then self <| w_start := Some at_ |> <| mean_q8 := current_q8 |>
                <| minimum := current |> <| maximum := current |>
      else
        let difference := Z.abs (sat_sub_i i64_min i64_max current (last_current self)) in
        let difference_q8 := clamp i64_min i64_max (Z.min i64_max difference * 256) in
        self <| mean_q8 := ewma (mean_q8 self) current_q8 |>
             <| variability_q8 := ewma (variability_q8 self) difference_q8 |>
             <| minimum := Z.min (minimum self) current |>
             <| maximum := Z.max (maximum self) current |> in
    self <| last_current := current |> <| w_last := Some at_ |>
         <| w_count := sat_add u16_max (w_count self) 1 |>.
Definition u32_try_from (z : Z) : option Z := if bool_decide (in_u u32_max z) then Some z else None.
Definition summary (self : CurrentRateWindow) : option CurrentRateSummary :=
  if bool_decide (w_count self = 0) || bool_decide (mean_q8 self <= 0) then None
  else
    let mean := Z.quot (sat_add_i i64_min i64_max (mean_q8 self) 128) 256 in
    let variability :=
      clamp 0 u16_max (Z.quot (clamp i64_min i64_max (variability_q8 self * 1000)) (mean_q8 self)) in
    mean ← u32_try_from mean ≫= magnitude_new;
    minimum ← u32_try_from (minimum self) ≫= magnitude_new;
    maximum ← u32_try_from (maximum self) ≫= magnitude_new;
    Some {| rate_mean := mean; rate_minimum := minimum; rate_maximum := maximum;
            variability_permille := variability |}.

(** ** The arithmetic of an estimate, in [u128] *)

Definition checked_div (a b : Z) : option Z := if bool_decide (b = 0) then None else Some (a / b).
Definition duration_at_current (remaining_milliamp_hours : Z) (current : CurrentMagnitude)
  : result Z ChargeEstimateError :=
  ok_or (value ← checked_mul u128_max remaining_milliamp_hours MILLISECONDS_PER_MILLIAMP_HOUR;
         value ← checked_add u128_max value (sat_sub current 1);
         checked_div value current) ArithmeticOverflow.
Definition u64_try_from (z : Z) : result Z ChargeEstimateError :=
  if bool_decide (in_u u64_max z) then Ok z else Err ArithmeticOverflow.
Definition scaled_duration (value factor_permille : Z) : result Z ChargeEstimateError :=
  scaled <-? ok_or (value ← checked_mul u128_max value factor_permille;
                    value ← checked_add u128_max value 999;
                    checked_div value 1000) ArithmeticOverflow;
  u64_try_from scaled.
Definition remaining_charge (input : ChargeEstimateInput) : result Z ChargeEstimateError :=
  let missing_percent := sat_sub 100 (default 100 (basis_level (in_battery_level input))) in
  ok_or (value ← checked_mul u128_max (uc_value (in_usable_capacity input)) missing_percent;
         value ← checked_add u128_max value 99;
         checked_div value 100) ArithmeticOverflow.
Definition sag_widening (input : ChargeEstimateInput) : Z :=
  match in_voltage_sag input with
  | Some sag =>
      if bool_decide (sag_valid_until sag < in_at input) || bool_decide (sag_confidence sag = ConfidenceLow)
      then 200
      else if bool_decide (1000 < Z.abs (sag_delta sag)) then 100 else 0
  | None => 0
  end.
Definition widen_permille (input : ChargeEstimateInput) (rate : CurrentRateSummary) : Z :=
  let widen := 50 in
  let widen := match in_battery_level input with
               | BasisProfileEstimated _ _ _ => sat_add u64_max widen 200 | _ => widen end in
  let widen := if bool_decide (uc_source (in_usable_capacity input) = CapacityEstimated)
               then sat_add u64_max widen 150 else widen in
  let widen := sat_add u64_max widen (sag_widening input) in
  sat_add u64_max widen (Z.min (variability_permille rate / 2) 200).
Definition estimate_confidence (input : ChargeEstimateInput) (level_confidence : EstimateConfidence)
  : EstimateConfidence :=
  if bool_decide (level_confidence = ConfidenceHigh)
     && negb (bool_decide (uc_source (in_usable_capacity input) = CapacityEstimated))
     && is_hardware_verified (uc_verification (in_usable_capacity input))
     && match in_voltage_sag input with
        | Some sag => negb (bool_decide (sag_confidence sag = ConfidenceLow)) | None => true end
  then ConfidenceHigh
  else if bool_decide (level_confidence = ConfidenceLow)
          || bool_decide (uc_source (in_usable_capacity input) = CapacityEstimated)
  then ConfidenceLow else ConfidenceMedium.
Definition calculate_estimate (input : ChargeEstimateInput) (rate : CurrentRateSummary)
    (level_confidence : EstimateConfidence) : result ChargeTimeEstimate ChargeEstimateError :=
  remaining <-? remaining_charge input;
  expected_milliseconds <-? duration_at_current remaining (rate_mean rate);
  expected <-? u64_try_from expected_milliseconds;
  let widen := widen_permille input rate in
  fastest <-? duration_at_current remaining (rate_maximum rate);
  slowest <-? duration_at_current remaining (rate_minimum rate);
  lower <-? scaled_duration fastest (sat_sub 1000 (Z.min widen 900));
  upper <-? scaled_duration slowest (sat_add u64_max 1000 widen);
  Ok {| lower := lower; expected := expected; upper := upper; kind := AtPresentCurrent;
        confidence := estimate_confidence input level_confidence; current_rate := rate;
        battery_level_basis := in_battery_level input;
        capacity_source := uc_source (in_usable_capacity input);
        estimate_sag := in_voltage_sag input; calculated_at := in_at input;
        valid_until := timestamp_saturating_add_duration (in_at input) (in_max_age input) |}.

(** ** Validation *)

Definition validate_battery_level (basis : BatteryLevelBasis) (selected_profile : ChargeProfileIdentity)
  : result EstimateConfidence ChargeEstimateState :=
  match basis with
  | BasisReported level =>
      if negb (is_trusted (m_verification level)) || negb (bool_decide (m_quality level = Known))
      then Err (unavailable BatteryLevelMissing) else Ok ConfidenceHigh
  | BasisProfileEstimated level profile confidence =>
      let profile_derived :=
        bool_decide (m_source level = Estimated) && bool_decide (m_quality level = Inferred) &&
        bool_decide (m_verification level = VerificationInferred) in
      if bool_decide (profile = 0) || negb (bool_decide (profile = selected_profile))
         || (negb (is_trusted (m_verification level)) && negb profile_derived)
      then Err (unavailable UnsupportedProfile) else Ok confidence
  | BasisUnavailable => Err (unavailable BatteryLevelMissing)
  end.
Definition validate_battery_temperature (temperature : option (Measured Z))
  : result unit ChargeEstimateState :=
  if is_some_and temperature (fun t => negb (bool_decide (-10000 <= m_value t <= 50000)))
  then Err (unavailable TemperatureOutOfModel) else Ok tt.

(** ** The estimator *)

Record ChargeEstimator := {
  e_session : option ChargeSessionIdentity;
  window : CurrentRateWindow;
  last_current_source : option ValueSource;
  last_current_verification : option VerificationStatus;
  last_charge_mode_source : option ValueSource;
  last_charge_mode_verification : option VerificationStatus;
  e_profile : option ChargeProfileIdentity;
  capacity : option UsablePackCapacity;
  last_reset_reason : option ChargeEstimateResetReason;
  progress_start : option (Z * Z);
  progress_last : option Z;
  progress_samples : Z;
}.
#[global] Instance eta_estimator : Eta ChargeEstimator := fun r =>
  Build_ChargeEstimator (e_session r) (window r) (last_current_source r) (last_current_verification r)
    (last_charge_mode_source r) (last_charge_mode_verification r) (e_profile r) (capacity r)
    (last_reset_reason r) (progress_start r) (progress_last r) (progress_samples r).
Definition estimator_new : ChargeEstimator :=
  {| e_session := None; window := default_window; last_current_source := None;
     last_current_verification := None; last_charge_mode_source := None;
     last_charge_mode_verification := None; e_profile := None; capacity := None;
     last_reset_reason := None; progress_start := None; progress_last := None; progress_samples := 0 |}.
Record ValidatedChargeSample := {
  sample_current_ma : Z;
  sample_battery_current : Measured BatteryCurrent;
  level_confidence : EstimateConfidence;
}.
Definition reset_with_reason (self : ChargeEstimator) (reason : ChargeEstimateResetReason)
  : ChargeEstimator :=
  {| e_session := e_session self; window := default_window; last_current_source := None;
     last_current_verification := None; last_charge_mode_source := None;
     last_charge_mode_verification := None; e_profile := None; capacity := None;
     last_reset_reason := Some reason; progress_start := None; progress_last := None;
     progress_samples := 0 |}.
Definition estimator_reset (self : ChargeEstimator) : ChargeEstimator := reset_with_reason self Manual.
Definition clear_progress (self : ChargeEstimator) : ChargeEstimator :=
  self <| progress_start := None |> <| progress_last := None |> <| progress_samples := 0 |>.
Definition differs {A} `{EqDecision A} (known : option A) (now : A) : bool :=
  is_some_and known (fun k => negb (bool_decide (k = now))).

Definition prepare_identity (self : ChargeEstimator) (input : ChargeEstimateInput)
  : ChargeEstimator * result unit ChargeEstimateState :=
  if bool_decide (in_at input < in_observed_at input)
  then (reset_with_reason self ResetTimestampOrder, Err (Failed TimestampOrder))
  else if bool_decide (in_max_age input < sat_sub (in_at input) (in_observed_at input))
  then (reset_with_reason self StaleGap, Err Stale)
  else
    let self :=
      if bool_decide (e_session self = Some (in_session input)) then self
      else (if bool_decide (is_Some (e_session self)) then reset_with_reason self SessionChanged else self)
             <| e_session := Some (in_session input) |> in
    let self := if differs (e_profile self) (in_profile input)
                then reset_with_reason self ProfileChanged else self in
    (self <| e_profile := Some (in_profile input) |>, Ok tt).
Definition validate_charging_evidence (self : ChargeEstimator) (input : ChargeEstimateInput)
  : ChargeEstimator * result bool ChargeEstimateState :=
  let mode := in_charge_mode input in
  let inferred_charging :=
    bool_decide (m_value mode = Charging) && bool_decide (m_source mode = Estimated) &&
    bool_decide (m_quality mode = Inferred) && bool_decide (m_verification mode = VerificationInferred) in
  if negb (inferred_charging || is_trusted (m_verification mode) && charge_is_active (m_value mode))
  then (reset_with_reason self ChargingStopped, Err (unavailable ReasonNotCharging))
  else
    match m_value (in_flow input) with
    | ChargeFlowDischarging | ChargeFlowRegeneration =>
        (reset_with_reason self ChargingStopped, Err (unavailable ContradictoryInputs))
    | ChargeFlowCharging | ChargeFlowUnknown | ChargeFlowZero =>
        if is_some_and (in_battery_current input) (fun r => negb (is_trusted (m_verification r)))
        then (self, Err (unavailable CurrentDirectionUnverified))
        else if is_some_and (in_battery_current input)
                  (fun r => bool_decide (direction (m_value r) = DirectionOut))
        then (reset_with_reason self ChargingStopped, Err (unavailable ContradictoryInputs))
        else (self, Ok inferred_charging)
    end.

(** [progress_state]: without a measured charge current, the rate is taken from
    how far the level has risen.  The second half, from [let (start, ...)]. *)
Definition progress_rate (self : ChargeEstimator) (input : ChargeEstimateInput)
    (delta observed_for : Z) : ChargeEstimateState :=
  let collecting := CollectingSamples (progress_samples self) observed_for in
  if bool_decide (delta = 0) || bool_decide (observed_for < MIN_OBSERVATION_MILLISECONDS) then collecting
  else
    let rate := sat_mul u64_max (sat_mul u64_max (uc_value (in_usable_capacity input)) delta) 36000
                / observed_for in
    if bool_decide (i32_max < rate) then Failed ArithmeticOverflow
    else if bool_decide (rate < 100) then collecting
    else
      match u32_try_from rate ≫= magnitude_new with
      | None => Failed ArithmeticOverflow
      | Some rate =>
          let summary := {| rate_mean := rate; rate_minimum := rate; rate_maximum := rate;
                            variability_permille := 0 |} in
          match calculate_estimate input summary ConfidenceLow with
          | Ok estimate =>
              Available (estimate <| kind := ObservedProgressTimeToFull |>
                                  <| lower := expected estimate / 2 |>
                                  <| upper := sat_mul u64_max (expected estimate) 2 |>)
          | Err error => Failed error
          end
      end.
Definition level_percent (input : ChargeEstimateInput) : Z :=
  default 0 (basis_level (in_battery_level input)).
Definition progress_state (self : ChargeEstimator) (input : ChargeEstimateInput)
  : ChargeEstimator * ChargeEstimateState :=
  let self := self <| window := default_window |> <| last_current_source := None |>
                   <| last_current_verification := None |> in
  let out_of_order := is_some_and (progress_last self) (fun l => bool_decide (in_observed_at input < l)) in
  let gap := is_some_and (progress_last self)
               (fun l => bool_decide (in_max_age input < sat_sub (in_observed_at input) l)) in
  if out_of_order then (reset_with_reason self ResetTimestampOrder, Failed TimestampOrder)
  else if gap then (reset_with_reason self StaleGap, Stale)
  else
    let level := level_percent input in
    let self :=
      if differs (capacity self) (in_usable_capacity input)
         || is_some_and (progress_start self) (fun p => bool_decide (level < p.2))
      then self <| progress_start := None |> <| progress_samples := 0 |> else self in
    let self := self <| capacity := Some (in_usable_capacity input) |> in
    let '(start, start_level) := default (in_observed_at input, level) (progress_start self) in
    let self := self <| progress_start := Some (start, start_level) |> in
    let self := if bool_decide (progress_last self = Some (in_observed_at input)) then self
                else self <| progress_samples := sat_add u16_max (progress_samples self) 1 |> in
    let self := self <| progress_last := Some (in_observed_at input) |> in
    (self, progress_rate self input (sat_sub level start_level) (sat_sub (in_observed_at input) start)).

(** The answer at the end of a charge, when the level is nearly full. *)
Definition nearly_full (inferred_charging : bool) (level : Z) (magnitude : option Z)
  : option ChargeEstimateState :=
  if bool_decide (99 <= level) || (bool_decide (95 <= level) && bool_decide (magnitude = Some 0)) then
    if inferred_charging then Some (CollectingSamples 0 0)
    else if bool_decide (level = 100) && is_some_and magnitude (fun m => bool_decide (m < 100))
    then Some Full else Some Balancing
  else None.
Definition validate_evidence (self : ChargeEstimator) (input : ChargeEstimateInput)
  : ChargeEstimator * result ValidatedChargeSample ChargeEstimateState :=
  let '(self, charging) := validate_charging_evidence self input in
  match charging with
  | Err state => (self, Err state)
  | Ok inferred_charging =>
      if negb (is_trusted (uc_verification (in_usable_capacity input)))
         || bool_decide (uc_value (in_usable_capacity input) = 0)
      then (self, Err (unavailable CapacityMissing))
      else
        match validate_battery_level (in_battery_level input) (in_profile input) with
        | Err state => (self, Err state)
        | Ok confidence =>
            let confidence := if inferred_charging : bool then ConfidenceLow else confidence in
            match validate_battery_temperature (in_battery_temperature input) with
            | Err state => (self, Err state)
            | Ok _ =>
                let level := level_percent input in
                let magnitude := (fun r => magnitude_milliamps (m_value r)) <$> in_battery_current input in
                match nearly_full inferred_charging level magnitude with
                | Some state => (clear_progress (self <| window := default_window |>), Err state)
                | None =>
                    match in_battery_current input with
                    | None => let '(self, state) := progress_state self input in (self, Err state)
                    | Some battery_current =>
                        let current := magnitude_milliamps (m_value battery_current) in
                        if bool_decide (current = 0)
                        then let '(self, state) := progress_state self input in (self, Err state)
                        else if bool_decide (current < MIN_CHARGE_CURRENT_MILLIAMPS)
                        then (reset_with_reason self ChargingStopped, Err (unavailable CurrentTooSmall))
                        else (clear_progress self,
                              Ok {| sample_current_ma := current; sample_battery_current := battery_current;
                                    level_confidence := confidence |})
                    end
                end
            end
        end
  end.
Definition prepare_sample (self : ChargeEstimator) (input : ChargeEstimateInput)
    (sample : ValidatedChargeSample) : ChargeEstimator * result unit ChargeEstimateState :=
  if is_some_and (w_last (window self)) (fun p => bool_decide (in_observed_at input < p))
  then (reset_with_reason self ResetTimestampOrder, Err (Failed TimestampOrder))
  else if is_some_and (w_last (window self))
            (fun p => bool_decide (in_max_age input < sat_sub (in_observed_at input) p))
  then (reset_with_reason self StaleGap, Err Stale)
  else
    let self :=
      if differs (last_current_source self) (m_source (sample_battery_current sample))
         || differs (last_current_verification self) (m_verification (sample_battery_current sample))
         || differs (last_charge_mode_source self) (m_source (in_charge_mode input))
         || differs (last_charge_mode_verification self) (m_verification (in_charge_mode input))
      then reset_with_reason self CurrentEvidenceChanged else self in
    let self := if differs (capacity self) (in_usable_capacity input)
                then reset_with_reason self CapacityChanged else self in
    (self, Ok tt).
Definition current_state (self : ChargeEstimator) (input : ChargeEstimateInput)
    (level_confidence : EstimateConfidence) : ChargeEstimateState :=
  let observed_for :=
    sat_sub (in_observed_at input) (default (in_observed_at input) (w_start (window self))) in
  if bool_decide (w_count (window self) < MIN_SAMPLES)
     || bool_decide (observed_for < MIN_OBSERVATION_MILLISECONDS)
  then CollectingSamples (w_count (window self)) observed_for
  else
    match summary (window self) with
    | None => Failed ArithmeticOverflow
    | Some rate =>
        if negb (is_stable rate) then unavailable UnstableCurrent
        else match calculate_estimate input rate level_confidence with
             | Ok estimate => Available estimate
             | Err error => Failed error
             end
    end.
(** The sample is admitted. *)
Definition admit_sample (self : ChargeEstimator) (input : ChargeEstimateInput)
    (sample : ValidatedChargeSample) : ChargeEstimator :=
  self <| window := window_observe (window self) (in_observed_at input) (sample_current_ma sample) |>
       <| last_current_source := Some (m_source (sample_battery_current sample)) |>
       <| last_current_verification := Some (m_verification (sample_battery_current sample)) |>
       <| last_charge_mode_source := Some (m_source (in_charge_mode input)) |>
       <| last_charge_mode_verification := Some (m_verification (in_charge_mode input)) |>
       <| capacity := Some (in_usable_capacity input) |>.
Definition estimator_update (self : ChargeEstimator) (input : ChargeEstimateInput)
  : ChargeEstimator * ChargeEstimateState :=
  let '(self, identity) := prepare_identity self input in
  match identity with
  | Err state => (self, state)
  | Ok _ =>
      let '(self, evidence) := validate_evidence self input in
      match evidence with
      | Err state => (self, state)
      | Ok sample =>
          let '(self, prepared) := prepare_sample self input sample in
          match prepared with
          | Err state => (self, state)
          | Ok _ =>
              let self := admit_sample self input sample in
              (self, current_state self input (level_confidence sample))
          end
      end
  end.

(** ** The machine *)

Inductive EstimatorCall :=
| EstimatorUpdate (input : ChargeEstimateInput)
| EstimatorReset.
Definition estimator_step (s : ChargeEstimator) (c : EstimatorCall)
  : ChargeEstimator * option ChargeEstimateState :=
  match c with
  | EstimatorUpdate input => let '(s, state) := estimator_update s input in (s, Some state)
  | EstimatorReset => (estimator_reset s, None)
  end.
(** The widths of an input. *)
Record input_ok (input : ChargeEstimateInput) : Prop := {
  ok_capacity : 0 <= uc_value (in_usable_capacity input) <= u32_max;
  ok_level : forall l, basis_level (in_battery_level input) = Some l -> 0 <= l <= 100;
  ok_current : forall r, in_battery_current input = Some r -> 0 <= magnitude_milliamps (m_value r) <= u32_max;
}.
Definition call_ok (c : EstimatorCall) : Prop :=
  match c with EstimatorUpdate input => input_ok input | EstimatorReset => True end.

(** *** Ceilings *)

Lemma ceil_div_antitone x c1 c2 :
  0 <= x -> 0 < c1 <= c2 -> (x + (c2 - 1)) / c2 <= (x + (c1 - 1)) / c1.
Proof.
  intros Hx Hc. set (q := (x + (c1 - 1)) / c1).
  assert (x <= q * c1) by (unfold q; div_nia).
  apply Z.lt_succ_r, Z.div_lt_upper_bound; [lia|]. nia.
Qed.
Lemma duration_at_current_Ok r c d :
  0 <= r -> 0 < c -> duration_at_current r c = Ok d ->
  d = (r * MILLISECONDS_PER_MILLIAMP_HOUR + (c - 1)) / c /\ 0 <= d.
Proof.
  intros Hr Hc. unfold duration_at_current. rewrite ok_or_Ok.
  destruct (checked_mul _ _ _) as [m|] eqn:E1; [|done]. apply checked_mul_Some in E1 as [_ ->]. simpl.
  destruct (checked_add _ _ _) as [a|] eqn:E2; [|done]. apply checked_add_Some in E2 as [_ ->]. simpl.
  unfold checked_div, sat_sub. rewrite bool_decide_false by lia. intros [= <-].
  rewrite Z.max_r by lia. split; [done|]. apply Z.div_pos; [|lia].
  unfold MILLISECONDS_PER_MILLIAMP_HOUR. lia.
Qed.
Lemma u64_try_from_Ok z v : u64_try_from z = Ok v -> v = z /\ in_u u64_max z.
Proof. unfold u64_try_from. case_bool_decide; [|done]. by intros [= <-]. Qed.
Lemma scaled_duration_Ok v f s :
  scaled_duration v f = Ok s -> s = (v * f + 999) / 1000 /\ in_u u64_max s.
Proof.
  unfold scaled_duration. rewrite result_bind_Ok. intros (x & E & H).
  apply ok_or_Ok in E.
  destruct (checked_mul _ _ _) as [m|] eqn:E1; [|done]. apply checked_mul_Some in E1 as [_ ->]. simpl in E.
  destruct (checked_add _ _ _) as [a|] eqn:E2; [|done]. apply checked_add_Some in E2 as [_ ->]. simpl in E.
  unfold checked_div in E. simpl in E. injection E as <-. apply u64_try_from_Ok in H as [-> H]. done.
Qed.
Lemma remaining_charge_Ok input r :
  input_ok input -> remaining_charge input = Ok r ->
  r = (uc_value (in_usable_capacity input) *
         (100 - default 100 (basis_level (in_battery_level input))) + 99) / 100 /\ 0 <= r.
Proof.
  intros [Hc Hl _]. unfold remaining_charge. rewrite ok_or_Ok.
  assert (Hm : 0 <= default 100 (basis_level (in_battery_level input)) <= 100).
  { destruct (basis_level _) as [l|] eqn:E; simpl; [by apply Hl|lia]. }
  unfold sat_sub. rewrite Z.max_r by lia. set (missing := 100 - _) in *.
  destruct (checked_mul _ _ _) as [m|] eqn:E1; [|done]. apply checked_mul_Some in E1 as [_ ->]. simpl.
  destruct (checked_add _ _ _) as [a|] eqn:E2; [|done]. apply checked_add_Some in E2 as [_ ->]. simpl.
  unfold checked_div. simpl. intros [= <-]. split; [done|]. apply Z.div_pos; [nia|lia].
Qed.

(** *** The window *)

Definition window_ok (w : CurrentRateWindow) : Prop :=
  0 <= w_count w /\
  (0 < w_count w -> 100 <= minimum w <= maximum w /\ maximum w <= u32_max /\
     256 * minimum w <= mean_q8 w <= 256 * maximum w).
Lemma ewma_between old new lo hi :
  i64_min <= lo -> hi <= i64_max -> hi - lo <= i64_max -> lo <= old <= hi -> lo <= new <= hi ->
  lo <= ewma old new <= hi.
Proof.
  intros. unfold ewma, sat_sub_i, sat_add_i, EWMA_SHIFT. change (2 ^ 2) with 4.
  rewrite (clamp_id _ _ (new - old)) by (unfold i64_min, i64_max in *; lia).
  assert (Hq : Z.min 0 (new - old) <= Z.quot (new - old) 4 <= Z.max 0 (new - old))
    by (Z.to_euclidean_division_equations; lia).
  rewrite clamp_id; lia.
Qed.
Lemma window_observe_ok w at_ current :
  window_ok w -> 100 <= current <= u32_max -> window_ok (window_observe w at_ current).
Proof.
  intros [Hn Hw] Hc. unfold window_observe. destruct (_ && _); [done|].
  assert (Hq : clamp i64_min i64_max (current * 256) = 256 * current)
    by (rewrite clamp_id; unfold_ints; lia).
  rewrite Hq. destruct w as [st la n mean mi ma lc va]. simpl in *.
  case_bool_decide as Hz; split; simpl; intros; try (unfold_ints; lia).
  destruct Hw as (H1 & H2 & H3); [lia|].
  assert (256 * Z.min mi current <= ewma mean (256 * current) <= 256 * Z.max ma current)
    by (apply ewma_between; unfold_ints; lia).
  split_ands; lia.
Qed.
Lemma summary_ok w rate :
  window_ok w -> summary w = Some rate ->
  100 <= rate_minimum rate <= rate_mean rate /\ rate_mean rate <= rate_maximum rate <= u32_max /\
  0 <= variability_permille rate <= u16_max.
Proof.
  intros [Hn Hw]. unfold summary. destruct (_ || _) eqn:E; [done|]. prop_bools.
  destruct Hw as (H1 & H2 & H3); [lia|].
  assert (Hm : minimum w <= Z.quot (sat_add_i i64_min i64_max (mean_q8 w) 128) 256 <= maximum w).
  { unfold sat_add_i. rewrite clamp_id by (unfold_ints; lia). Z.to_euclidean_division_equations. lia. }
  set (mean := Z.quot _ 256) in *. clearbody mean.
  unfold u32_try_from, magnitude_new. rewrite !bool_decide_true by (unfold_ints; lia). simpl.
  rewrite !bool_decide_false by lia. simpl. intros [= <-]. simpl.
  pose proof (clamp_range 0 u16_max (Z.quot (clamp i64_min i64_max (variability_q8 w * 1000)) (mean_q8 w))).
  unfold u16_max in *. lia.
Qed.

(** *** One estimate *)

Lemma calculate_estimate_ordered input rate lc e :
  input_ok input ->
  100 <= rate_minimum rate <= rate_mean rate -> rate_mean rate <= rate_maximum rate <= u32_max ->
  0 <= variability_permille rate ->
  calculate_estimate input rate lc = Ok e ->
  0 <= lower e <= expected e /\ expected e <= upper e <= u64_max /\
  kind e = AtPresentCurrent /\ current_rate e = rate /\ calculated_at e = in_at input /\
  remaining_charge input = Ok ((uc_value (in_usable_capacity input) *
         (100 - default 100 (basis_level (in_battery_level input))) + 99) / 100) /\
  expected e = ((uc_value (in_usable_capacity input) *
         (100 - default 100 (basis_level (in_battery_level input))) + 99) / 100
                * MILLISECONDS_PER_MILLIAMP_HOUR + (rate_mean rate - 1)) / rate_mean rate.
Proof.
  intros Hi Hmin Hmax Hv. unfold calculate_estimate.
  rewrite result_bind_Ok. intros (r & Hr & H). pose proof Hr as [-> Hr0]%remaining_charge_Ok; [|done].
  set (r := _ / 100) in *. clearbody r.
  rewrite result_bind_Ok in H. destruct H as (x & Hx & H). apply duration_at_current_Ok in Hx as [-> Hx0]; [|lia..].
  rewrite result_bind_Ok in H. destruct H as (y & [-> Hy]%u64_try_from_Ok & H).
  rewrite result_bind_Ok in H. destruct H as (f & Hf & H). apply duration_at_current_Ok in Hf as [-> Hf0]; [|lia..].
  rewrite result_bind_Ok in H. destruct H as (s & Hs & H). apply duration_at_current_Ok in Hs as [-> Hs0]; [|lia..].
  rewrite result_bind_Ok in H. destruct H as (l & [-> Hl]%scaled_duration_Ok & H).
  rewrite result_bind_Ok in H. destruct H as (u & [-> Hu]%scaled_duration_Ok & H).
  injection H as <-. simpl.
  set (total := r * MILLISECONDS_PER_MILLIAMP_HOUR) in *.
  assert (Ht : 0 <= total) by (unfold total, MILLISECONDS_PER_MILLIAMP_HOUR; lia).
  pose proof (ceil_div_antitone total (rate_mean rate) (rate_maximum rate) Ht ltac:(lia)) as Hfast.
  pose proof (ceil_div_antitone total (rate_minimum rate) (rate_mean rate) Ht ltac:(lia)) as Hslow.
  set (fast := (total + (rate_maximum rate - 1)) / rate_maximum rate) in *.
  set (mid := (total + (rate_mean rate - 1)) / rate_mean rate) in *.
  set (slow := (total + (rate_minimum rate - 1)) / rate_minimum rate) in *.
  assert (Hw : 50 <= widen_permille input rate <= 5000).
  { unfold widen_permille, sag_widening. clear -Hv.
    assert (0 <= Z.min (variability_permille rate / 2) 200 <= 200) by div_lia.
    destruct (in_battery_level input), (bool_decide _), (in_voltage_sag input) as [sag|];
      try destruct (_ || _); try destruct (bool_decide (1000 < _)); unfold_ints; lia. }
  set (widen := widen_permille input rate) in *. clearbody widen fast mid slow total.
  unfold in_u, sat_sub, sat_add in *. rewrite (Z.max_r 0) in * by lia. rewrite (Z.min_r u64_max) in * by (unfold_ints; lia).
  split_ands; try done; try lia; [div_nia|].
  apply Z.div_le_lower_bound; [lia|]. nia.
Qed.

(** *** What a step does to the window *)

Lemma default_window_ok : window_ok default_window.
Proof. split; simpl; [done|lia]. Qed.
Lemma prepare_identity_window s input :
  window (prepare_identity s input).1 = window s \/ window (prepare_identity s input).1 = default_window.
Proof. unfold prepare_identity. destruct s. simpl. step_cases; auto. Qed.
Lemma progress_state_window s input : window (progress_state s input).1 = default_window.
Proof. unfold progress_state. destruct s. simpl. step_cases; auto. Qed.
Lemma validate_evidence_window s input :
  window (validate_evidence s input).1 = window s \/ window (validate_evidence s input).1 = default_window.
Proof.
  unfold validate_evidence. destruct (validate_charging_evidence s input) as [s1 r] eqn:E1.
  assert (Hw : window s1 = window s \/ window s1 = default_window)
    by (unfold validate_charging_evidence in E1; destruct r; step_cases_in E1; auto).
  pose proof (progress_state_window s1 input) as Hp.
  destruct r as [inferred|st]; [|done]. destruct (_ || _); [done|].
  destruct (validate_battery_level _ _); [|done]. destruct (validate_battery_temperature _); [|done].
  destruct (nearly_full _ _ _); [right; by destruct s1|].
  destruct (in_battery_current input); [|destruct (progress_state s1 input); auto].
  destruct (bool_decide (_ = 0)); [destruct (progress_state s1 input); auto|].
  destruct (bool_decide _); [by right|]. by destruct s1.
Qed.
Lemma validate_evidence_Ok s input s' sample :
  validate_evidence s input = (s', Ok sample) ->
  s' = clear_progress s /\ 100 <= sample_current_ma sample /\
  in_battery_current input = Some (sample_battery_current sample) /\
  sample_current_ma sample = magnitude_milliamps (m_value (sample_battery_current sample)) /\
  is_trusted (m_verification (sample_battery_current sample)) = true /\
  direction (m_value (sample_battery_current sample)) <> DirectionOut /\
  m_value (in_charge_mode input) = Charging /\
  m_value (in_flow input) <> ChargeFlowDischarging /\ m_value (in_flow input) <> ChargeFlowRegeneration.
Proof.
  unfold validate_evidence. destruct (validate_charging_evidence s input) as [s1 [inferred|st]] eqn:E1; [|done].
  assert (s1 = s /\ m_value (in_charge_mode input) = Charging /\
    is_some_and (in_battery_current input) (fun r => negb (is_trusted (m_verification r))) = false /\
    is_some_and (in_battery_current input) (fun r => bool_decide (direction (m_value r) = DirectionOut)) = false /\
    m_value (in_flow input) <> ChargeFlowDischarging /\ m_value (in_flow input) <> ChargeFlowRegeneration)
    as (-> & Hm & Ht & Hd & Hf1 & Hf2).
  { unfold validate_charging_evidence in E1. destruct (negb (_ || _)) eqn:Ec; [done|]. prop_bools.
    assert (m_value (in_charge_mode input) = Charging).
    { destruct Ec as [Ec|Ec]; prop_bools; [tauto|]. by destruct (m_value (in_charge_mode input)). }
    step_cases_in E1; done. }
  destruct (_ || bool_decide (uc_value _ = 0)); [done|].
  destruct (validate_battery_level _ _) as [c|]; [|done].
  destruct (validate_battery_temperature _); [|done].
  destruct (nearly_full _ _ _); [done|].
  destruct (in_battery_current input) as [bc|] eqn:Eb; [|by destruct (progress_state s input)].
  destruct (bool_decide (_ = 0)); [by destruct (progress_state s input)|].
  case_bool_decide as Hmin; [done|]. intros [= <- <-]. simpl in *. prop_bools.
  unfold MIN_CHARGE_CURRENT_MILLIAMPS in Hmin. split_ands; try done; lia.
Qed.
Lemma prepare_sample_window s input sample :
  window (prepare_sample s input sample).1 = window s \/
  window (prepare_sample s input sample).1 = default_window.
Proof. unfold prepare_sample. destruct s. simpl. step_cases; auto. Qed.
Lemma window_kept (s s' : ChargeEstimator) :
  window s' = window s \/ window s' = default_window -> window_ok (window s) -> window_ok (window s').
Proof. intros [-> | ->]; [done|intros _; apply default_window_ok]. Qed.

(** *** What an update does *)

(** An estimate of the measured progress: half to twice the time expected. *)
Definition progress_estimate (input : ChargeEstimateInput) (e : ChargeTimeEstimate) : Prop :=
  kind e = ObservedProgressTimeToFull /\ calculated_at e = in_at input /\
  0 <= expected e <= u64_max /\ lower e = expected e / 2 /\ upper e = Z.min u64_max (expected e * 2).
Lemma progress_rate_Available s input d t e :
  input_ok input -> progress_rate s input d t = Available e -> progress_estimate input e.
Proof.
  intros Hi. unfold progress_rate. destruct (_ || _); [done|].
  set (rate := sat_mul _ _ _ / _). case_bool_decide as H1; [done|]. case_bool_decide as H2; [done|].
  unfold u32_try_from, magnitude_new. rewrite bool_decide_true by (unfold_ints; lia). simpl.
  rewrite bool_decide_false by (unfold_ints; lia).
  destruct (calculate_estimate _ _ _) as [c|] eqn:Ec; [|done].
  apply calculate_estimate_ordered in Ec; [|done|simpl; unfold_ints; lia..].
  destruct Ec as (Ha & Hb & _ & _ & Hc & _). intros [= <-]. destruct c. unfold progress_estimate. simpl in *.
  split_ands; try done; lia.
Qed.
Lemma progress_state_Available s input e :
  input_ok input -> (progress_state s input).2 = Available e -> progress_estimate input e.
Proof.
  intros Hi. unfold progress_state. destruct (is_some_and _ _); [done|]. destruct (is_some_and _ _); [done|].
  destruct (default _ _) as [start start_level]. by apply progress_rate_Available.
Qed.
Lemma validate_evidence_Err s input s' st e :
  input_ok input -> validate_evidence s input = (s', Err st) -> st = Available e -> progress_estimate input e.
Proof.
  intros Hi. unfold validate_evidence. destruct (validate_charging_evidence s input) as [s1 r] eqn:E1.
  assert (Hr : forall st, r = Err st -> forall e, st <> Available e).
  { unfold validate_charging_evidence, unavailable in E1. intros ? -> ?. step_cases_in E1; done. }
  destruct r as [inferred|st0]; [|by intros [= <- <-] ->; exfalso; eapply Hr].
  destruct (_ || _); [by intros [= <- <-]|].
  destruct (validate_battery_level _ _) as [|st0] eqn:E2.
  2:{ intros [= <- <-] ->. unfold validate_battery_level, unavailable in E2. step_cases_in E2; done. }
  destruct (validate_battery_temperature _) as [|st0] eqn:E3.
  2:{ intros [= <- <-] ->. unfold validate_battery_temperature, unavailable in E3. step_cases_in E3; done. }
  destruct (nearly_full _ _ _) as [st0|] eqn:E4.
  { intros [= <- <-] ->. unfold nearly_full in E4. step_cases_in E4; done. }
  pose proof (progress_state_Available s1 input e Hi) as Hp. destruct (progress_state s1 input) as [s2 st2].
  destruct (in_battery_current input); [|by intros [= <- <-]].
  destruct (bool_decide (_ = 0)); [by intros [= <- <-]|]. destruct (bool_decide _); by intros [= <- <-].
Qed.
Lemma prepare_Err_not_available s input s' st e :
  prepare_identity s input = (s', Err st) -> st <> Available e.
Proof. unfold prepare_identity. intros H ->. step_cases_in H; done. Qed.
Lemma prepare_sample_Err s input sample s' st e :
  prepare_sample s input sample = (s', Err st) -> st <> Available e.
Proof. unfold prepare_sample. intros H ->. step_cases_in H; done. Qed.

(** An update either admits its sample or answers early. *)
Inductive update_case (s : ChargeEstimator) (input : ChargeEstimateInput)
  : ChargeEstimator * ChargeEstimateState -> Prop :=
| RefusedIdentity s' st :
    prepare_identity s input = (s', Err st) -> update_case s input (s', st)
| RefusedEvidence s1 s' st :
    prepare_identity s input = (s1, Ok tt) -> validate_evidence s1 input = (s', Err st) ->
    update_case s input (s', st)
| RefusedSample s1 s2 s' st sample :
    prepare_identity s input = (s1, Ok tt) -> validate_evidence s1 input = (s2, Ok sample) ->
    prepare_sample s2 input sample = (s', Err st) -> update_case s input (s', st)
| Admitted_ s1 s2 s3 sample :
    prepare_identity s input = (s1, Ok tt) -> validate_evidence s1 input = (s2, Ok sample) ->
    prepare_sample s2 input sample = (s3, Ok tt) ->
    update_case s input (admit_sample s3 input sample,
                         current_state (admit_sample s3 input sample) input (level_confidence sample)).
Lemma update_cases s input : update_case s input (estimator_update s input).
Proof.
  unfold estimator_update. destruct (prepare_identity s input) as [s1 [[]|st]] eqn:E1; [|by eapply RefusedIdentity].
  destruct (validate_evidence s1 input) as [s2 [sample|st]] eqn:E2; [|by eapply RefusedEvidence].
  destruct (prepare_sample s2 input sample) as [s3 [[]|st]] eqn:E3; [|by eapply RefusedSample].
  by eapply Admitted_.
Qed.
Lemma admit_sample_window s input sample :
  window (admit_sample s input sample) = window_observe (window s) (in_observed_at input) (sample_current_ma sample).
Proof. by destruct s. Qed.

(** *** The window is well formed *)

Lemma estimator_step_ok s c :
  call_ok c -> window_ok (window s) -> window_ok (window (estimator_step s c).1).
Proof.
  intros Hc Hs. destruct c as [input|]; cbn [estimator_step]; [|apply default_window_ok].
  pose proof (update_cases s input) as H. destruct (estimator_update s input) as [s' st]. cbn [fst].
  inversion_clear H as [? ? E1|s1 ? ? E1 E2|s1 s2 ? ? sample E1 E2 E3|s1 s2 s3 sample E1 E2 E3].
  1: { pose proof (prepare_identity_window s input) as Hw. rewrite E1 in Hw. by eapply window_kept. }
  all: assert (H1 : window_ok (window s1))
    by (pose proof (prepare_identity_window s input) as Hw; rewrite E1 in Hw; by eapply window_kept).
  1: { pose proof (validate_evidence_window s1 input) as Hw. rewrite E2 in Hw. by eapply window_kept. }
  all: assert (H2 : window_ok (window s2))
    by (pose proof (validate_evidence_window s1 input) as Hw; rewrite E2 in Hw; by eapply window_kept).
  all: pose proof (prepare_sample_window s2 input sample) as Hw; rewrite E3 in Hw.
  - by eapply window_kept.
  - rewrite admit_sample_window. apply window_observe_ok; [by eapply window_kept|].
    apply validate_evidence_Ok in E2 as (_ & Hm & Hb & E & _). split; [done|]. rewrite E. by apply Hc.
Qed.
Lemma estimator_run_ok calls :
  Forall call_ok calls -> window_ok (window (run_state estimator_step estimator_new calls)).
Proof.
  induction calls as [|c calls IH] using rev_ind; intros Hc; [apply default_window_ok|].
  apply Forall_app in Hc as [Hc Hl]. apply Forall_cons in Hl as [Hl _].
  rewrite run_state_snoc. apply estimator_step_ok; auto.
Qed.

(** A shown time to full is ordered: after any calls, an available estimate
    carries the instant of its input, its lower bound is at most the expected
    time and that at most the upper bound, all within [u64]; at the present
    current the expected time is exactly the missing charge over the mean
    admitted current, rounded up to the millisecond, and from the observed
    progress the bounds are half and twice it. *)
Theorem estimates_ordered (calls : list EstimatorCall) (input : ChargeEstimateInput)
    (e : ChargeTimeEstimate) :
  Forall call_ok calls -> input_ok input ->
  (estimator_update (run_state estimator_step estimator_new calls) input).2 = Available e ->
  0 <= lower e <= expected e /\ expected e <= upper e <= u64_max /\ calculated_at e = in_at input /\
  match kind e with
  | AtPresentCurrent =>
      100 <= rate_minimum (current_rate e) <= rate_mean (current_rate e) /\
      rate_mean (current_rate e) <= rate_maximum (current_rate e) /\
      variability_permille (current_rate e) <= STABLE_VARIABILITY_PERMILLE /\
      expected e = ((uc_value (in_usable_capacity input) *
                       (100 - default 100 (basis_level (in_battery_level input))) + 99) / 100
                      * MILLISECONDS_PER_MILLIAMP_HOUR + (rate_mean (current_rate e) - 1))
                   / rate_mean (current_rate e)
  | ObservedProgressTimeToFull => lower e = expected e / 2 /\ upper e = Z.min u64_max (expected e * 2)
  | ProfileBackedTimeToFull | ObservedTaperTimeToFull => False
  end.
Proof.
  intros Hc Hi. set (s := run_state _ _ _).
  assert (Hp : progress_estimate input e -> 0 <= lower e <= expected e /\ expected e <= upper e <= u64_max /\
    calculated_at e = in_at input /\ kind e = ObservedProgressTimeToFull /\
    lower e = expected e / 2 /\ upper e = Z.min u64_max (expected e * 2)).
  { intros (-> & -> & H1 & -> & ->). assert (0 <= expected e / 2 <= expected e) by div_lia.
    split_ands; try done; lia. }
  assert (Hw : window_ok (window (estimator_step s (EstimatorUpdate input)).1))
    by (apply estimator_step_ok; [done|by apply estimator_run_ok]).
  cbn [estimator_step] in Hw. pose proof (update_cases s input) as H.
  destruct (estimator_update s input) as [s' st]. cbn [fst snd] in *. intros ->.
  inversion H as [? ? E1|s1 ? ? E1 E2|s1 s2 ? ? sample E1 E2 E3|s1 s2 s3 sample E1 E2 E3]; subst.
  - exfalso. by eapply prepare_Err_not_available.
  - destruct Hp as (? & ? & ? & -> & ?); [|done]. by eapply validate_evidence_Err.
  - exfalso. by eapply prepare_sample_Err.
  - match goal with H : current_state _ _ _ = _ |- _ => rename H into Est end.
    unfold current_state in Est. destruct (_ || _); [done|].
    destruct (summary _) as [rate|] eqn:Er; [|done]. apply summary_ok in Er as (H1 & H2 & H3); [|done].
    destruct (is_stable rate) eqn:Es; [|done]. unfold is_stable in Es. prop_bools. cbn [negb] in Est.
    destruct (calculate_estimate _ _ _) as [e'|] eqn:Ec; [|done]. injection Est as ->.
    apply calculate_estimate_ordered in Ec as (? & ? & -> & -> & ? & _ & ?); try done; try lia.
Qed.

(** *** The samples behind a window *)

(** The window is dropped, or kept with the evidence it was collected under. *)
Definition kept (s s' : ChargeEstimator) : Prop :=
  window s' = default_window \/
  (window s' = window s /\ (e_session s' = e_session s \/ e_session s = None) /\
   capacity s' = capacity s /\ last_current_source s' = last_current_source s /\
   last_current_verification s' = last_current_verification s /\
   last_charge_mode_source s' = last_charge_mode_source s /\
   last_charge_mode_verification s' = last_charge_mode_verification s).
(** A sample that is fresh and shows a charging pack: the current [r] is
    trusted, not outgoing, and at least a tenth of an ampere. *)
Definition charging_sample (x : ChargeEstimateInput) (r : Measured BatteryCurrent) : Prop :=
  in_observed_at x <= in_at x /\ in_at x - in_observed_at x <= in_max_age x /\
  in_battery_current x = Some r /\ 100 <= magnitude_milliamps (m_value r) /\
  is_trusted (m_verification r) = true /\ direction (m_value r) <> DirectionOut /\
  m_value (in_charge_mode x) = Charging /\
  m_value (in_flow x) <> ChargeFlowDischarging /\ m_value (in_flow x) <> ChargeFlowRegeneration.
(** Two samples of one session, pack and provenance. *)
Definition same_evidence (x y : ChargeEstimateInput) : Prop :=
  in_session x = in_session y /\ in_usable_capacity x = in_usable_capacity y /\
  m_source (in_charge_mode x) = m_source (in_charge_mode y) /\
  m_verification (in_charge_mode x) = m_verification (in_charge_mode y) /\
  exists r r', charging_sample x r /\ charging_sample y r' /\
    m_source r = m_source r' /\ m_verification r = m_verification r'.
Definition sample_matches (s : ChargeEstimator) (x : ChargeEstimateInput) : Prop :=
  e_session s = Some (in_session x) /\ capacity s = Some (in_usable_capacity x) /\
  exists r, charging_sample x r /\
    last_current_source s = Some (m_source r) /\ last_current_verification s = Some (m_verification r) /\
    last_charge_mode_source s = Some (m_source (in_charge_mode x)) /\
    last_charge_mode_verification s = Some (m_verification (in_charge_mode x)).
(** Each sample is as late as the one before it, and at most its own maximum age later. *)
Definition unbroken (samples : list ChargeEstimateInput) : Prop :=
  forall i x y, samples !! i = Some x -> samples !! S i = Some y ->
    in_observed_at x <= in_observed_at y /\ in_observed_at y - in_observed_at x <= in_max_age y.
Definition collected (s : ChargeEstimator) (samples : list ChargeEstimateInput) : Prop :=
  match head samples, list.last samples with
  | Some first, Some latest =>
      1 <= w_count (window s) <= Z.of_nat (length samples) /\ w_start (window s) = Some (in_observed_at first) /\
      w_last (window s) = Some (in_observed_at latest) /\ Forall (sample_matches s) samples /\ unbroken samples
  | _, _ => window s = default_window
  end.

Lemma matches_same_evidence s x y : sample_matches s x -> sample_matches s y -> same_evidence x y.
Proof.
  intros (H1 & H2 & r & Hr & H3 & H4 & H5 & H6) (K1 & K2 & r' & Hr' & K3 & K4 & K5 & K6).
  unfold same_evidence. split_ands; try congruence. exists r, r'. split_ands; try done; congruence.
Qed.
Lemma prepare_identity_Ok s input s' :
  prepare_identity s input = (s', Ok tt) ->
  kept s s' /\ e_session s' = Some (in_session input) /\
  in_observed_at input <= in_at input /\ in_at input - in_observed_at input <= in_max_age input.
Proof.
  unfold prepare_identity, sat_sub. destruct s as [se w a b c d p cap rr ps pl pn]. simpl.
  case_bool_decide as H1; [done|]. case_bool_decide as H2; [done|].
  assert (Hf : in_observed_at input <= in_at input /\ in_at input - in_observed_at input <= in_max_age input) by lia.
  destruct (bool_decide (se = _)) eqn:E; [|destruct (bool_decide (is_Some se)) eqn:Es];
    simpl; step_cases; intros [= <-]; unfold kept; simpl; prop_bools;
    split_ands; auto; try (right; split_ands); try done; try lia.
  - by left.
  - right. by destruct se; [destruct Es|].
Qed.
Lemma progress_state_kept s input : kept s (progress_state s input).1.
Proof. left. apply progress_state_window. Qed.
Lemma kept_refl s : kept s s.
Proof. right. split_ands; auto. Qed.
Lemma kept_clear_progress s : kept s (clear_progress s).
Proof. right. destruct s. split_ands; auto. Qed.
Lemma charging_evidence_kept s input s' r :
  validate_charging_evidence s input = (s', r) -> kept s s' /\ e_session s' = e_session s.
Proof.
  unfold validate_charging_evidence. intros H.
  step_cases_in H; (split; [first [apply kept_refl|by left]|done]).
Qed.
Lemma validate_evidence_kept s input : kept s (validate_evidence s input).1.
Proof.
  unfold validate_evidence. destruct (validate_charging_evidence s input) as [s1 r] eqn:E1.
  apply charging_evidence_kept in E1 as [Hk _].
  destruct r as [inferred|st]; [|done]. destruct (_ || _); [done|].
  destruct (validate_battery_level _ _); [|done]. destruct (validate_battery_temperature _); [|done].
  destruct (nearly_full _ _ _); [left; by destruct s1|].
  pose proof (progress_state_window s1 input) as Hp.
  destruct (in_battery_current input); [|by left; destruct (progress_state s1 input)].
  destruct (bool_decide (_ = 0)); [by left; destruct (progress_state s1 input)|].
  destruct (bool_decide _); [by left|]. by destruct s1.
Qed.
Lemma prepare_sample_kept s input sample s' r :
  prepare_sample s input sample = (s', r) -> kept s s' /\ e_session s' = e_session s.
Proof.
  unfold prepare_sample. intros H.
  destruct (is_some_and _ _); [injection H as <- <-; split; [by left|by destruct s]|].
  destruct (is_some_and _ _); [injection H as <- <-; split; [by left|by destruct s]|].
  injection H as <- <-. destruct (_ || _); destruct (differs _ _);
    (split; [try by left|by destruct s]); apply kept_refl.
Qed.
(** A sample that is admitted to a window follows the evidence of that window. *)
Lemma prepare_sample_Ok s input sample s' :
  prepare_sample s input sample = (s', Ok tt) ->
  window s' = default_window \/
  (s' = s /\
   (forall p, w_last (window s) = Some p -> p <= in_observed_at input /\ in_observed_at input - p <= in_max_age input) /\
   differs (last_current_source s) (m_source (sample_battery_current sample)) = false /\
   differs (last_current_verification s) (m_verification (sample_battery_current sample)) = false /\
   differs (last_charge_mode_source s) (m_source (in_charge_mode input)) = false /\
   differs (last_charge_mode_verification s) (m_verification (in_charge_mode input)) = false /\
   differs (capacity s) (in_usable_capacity input) = false).
Proof.
  unfold prepare_sample.
  destruct (is_some_and _ _) eqn:E1; [done|]. destruct (is_some_and _ (fun p => bool_decide (in_max_age _ < _))) eqn:E2; [done|].
  intros [= <-]. destruct (_ || _ || _ || _) eqn:E; [left; by destruct (differs _ _)|].
  destruct (differs (capacity s) _) eqn:Ec; [by left|]. right.
  apply orb_false_iff in E as [E Ed]. apply orb_false_iff in E as [E Eg]. apply orb_false_iff in E as [Eh Ei].
  split_ands; try done. intros p Hp. rewrite Hp in E1, E2. unfold is_some_and, sat_sub in *. prop_bools. lia.
Qed.
Lemma differs_false {A} `{EqDecision A} (known : option A) now k :
  differs known now = false -> known = Some k -> k = now.
Proof. intros H ->. unfold differs, is_some_and in H. by prop_bools. Qed.
Lemma collected_default s : window s = default_window -> collected s [].
Proof. done. Qed.
Lemma collected_nil_or s samples :
  collected s samples ->
  (window s = default_window) \/
  exists first latest, head samples = Some first /\ list.last samples = Some latest /\
    1 <= w_count (window s) <= Z.of_nat (length samples) /\ w_start (window s) = Some (in_observed_at first) /\
    w_last (window s) = Some (in_observed_at latest) /\ Forall (sample_matches s) samples /\ unbroken samples.
Proof.
  unfold collected. destruct (head samples) as [f|]; [|by left].
  destruct (list.last samples) as [l|]; [|by left]. intros H. right. by exists f, l.
Qed.
Lemma collected_kept s s' samples :
  collected s samples -> kept s s' -> collected s' samples \/ window s' = default_window.
Proof.
  intros Hc [Hk|(Hw & He & H1 & H2 & H3 & H4 & H5)]; [by right|].
  apply collected_nil_or in Hc as [Hc|(f & l & Hf & Hl & Hn & Ha & Hb & Hm & Hu)]; [right; congruence|].
  left. unfold collected. rewrite Hf, Hl, Hw. split_ands; try done; try lia.
  apply Forall_impl with (sample_matches s); [done|]. intros x (Hx & Hx' & r & Hr).
  unfold sample_matches. rewrite H1, H2, H3, H4, H5. split_ands; [|done|by exists r].
  destruct He as [-> | He]; congruence.
Qed.
Lemma unbroken_snoc samples latest x :
  unbroken samples -> list.last samples = Some latest ->
  in_observed_at latest <= in_observed_at x -> in_observed_at x - in_observed_at latest <= in_max_age x ->
  unbroken (samples ++ [x]).
Proof.
  intros Hu Hl H1 H2 i a b Ha Hb. rewrite last_lookup in Hl.
  apply lookup_snoc_Some in Hb as [[Hi Hb]|[Hi ->]].
  - apply (Hu i); [|done]. rewrite lookup_app_l in Ha by lia. done.
  - rewrite lookup_app_l in Ha by lia. replace (pred (length samples)) with i in Hl by lia. simplify_eq. lia.
Qed.
Lemma admit_matches s input sample r :
  e_session s = Some (in_session input) -> charging_sample input r -> sample_battery_current sample = r ->
  sample_matches (admit_sample s input sample) input.
Proof. intros He Hr <-. destruct s. unfold sample_matches. split_ands; [done|done|]. exists (sample_battery_current sample). done. Qed.
Lemma admit_first s input sample r :
  window s = default_window -> e_session s = Some (in_session input) -> charging_sample input r ->
  sample_battery_current sample = r -> collected (admit_sample s input sample) [input].
Proof.
  intros Hw He Hr Hs. unfold collected. cbn [hd_error list.last].
  rewrite admit_sample_window, Hw. split_ands; [done..| |].
  - constructor; [|done]. by apply (admit_matches s input sample r).
  - intros [|[|i]] ? ? _ Hb; done.
Qed.
Lemma window_observe_nonempty w at_ c :
  1 <= w_count w ->
  window_observe w at_ c = w /\ w_last w = Some at_ \/
  (w_start (window_observe w at_ c) = w_start w /\ w_last (window_observe w at_ c) = Some at_ /\
   1 <= w_count (window_observe w at_ c) <= w_count w + 1).
Proof.
  intros Hn. unfold window_observe. destruct (bool_decide (w_last w = _) && _) eqn:E.
  - prop_bools. by left.
  - right. destruct w. simpl in *. rewrite bool_decide_false by lia. simpl. split_ands; try done; int_lia.
Qed.
Lemma admit_next s input sample r samples latest :
  collected s samples -> list.last samples = Some latest -> window s <> default_window ->
  e_session s = Some (in_session input) -> charging_sample input r -> sample_battery_current sample = r ->
  (in_observed_at latest <= in_observed_at input /\ in_observed_at input - in_observed_at latest <= in_max_age input) ->
  Forall (sample_matches (admit_sample s input sample)) samples ->
  exists latest', list.last samples = Some latest' /\ 
    (in_observed_at latest' = in_observed_at input /\ collected (admit_sample s input sample) samples \/
     collected (admit_sample s input sample) (samples ++ [input])).
Proof.
  intros Hc Hl Hd He Hr Hs [Ho Hg] Hm. exists latest. split; [done|].
  apply collected_nil_or in Hc as [Hc|(f & l & Hf & Hl' & Hn & Ha & Hb & _ & Hu)]; [done|]. simplify_eq.
  destruct (window_observe_nonempty (window s) (in_observed_at input) (sample_current_ma sample)) as [[E El]|(E1 & E2 & E3)];
    [lia|left|right].
  - split; [congruence|]. unfold collected. rewrite Hf, Hl', admit_sample_window, E. done.
  - unfold collected. rewrite last_snoc, admit_sample_window, E1, E2.
    replace (head (samples ++ [input])) with (Some f) by (by destruct samples).
    rewrite length_app. split_ands; try done; simpl; try lia.
    + apply Forall_app. split; [done|]. constructor; [|done]. by eapply admit_matches.
    + by eapply unbroken_snoc.
Qed.
Lemma admit_keeps s input sample x :
  e_session s = Some (in_session input) -> sample_matches s x ->
  differs (last_current_source s) (m_source (sample_battery_current sample)) = false ->
  differs (last_current_verification s) (m_verification (sample_battery_current sample)) = false ->
  differs (last_charge_mode_source s) (m_source (in_charge_mode input)) = false ->
  differs (last_charge_mode_verification s) (m_verification (in_charge_mode input)) = false ->
  differs (capacity s) (in_usable_capacity input) = false ->
  sample_matches (admit_sample s input sample) x.
Proof.
  intros He (Hx & Hc & r & Hr & H1 & H2 & H3 & H4) D1 D2 D3 D4 D5.
  pose proof (differs_false _ _ _ D1 H1). pose proof (differs_false _ _ _ D2 H2).
  pose proof (differs_false _ _ _ D3 H3). pose proof (differs_false _ _ _ D4 H4).
  pose proof (differs_false _ _ _ D5 Hc).
  unfold sample_matches. destruct s. simpl in *. split_ands; [done|congruence|].
  exists r. split_ands; try done; congruence.
Qed.
(** The samples behind the window an admitted sample leaves. *)
Lemma admit_collected s1 s2 s3 input sample samples :
  validate_evidence s1 input = (s2, Ok sample) -> prepare_sample s2 input sample = (s3, Ok tt) ->
  e_session s1 = Some (in_session input) ->
  in_observed_at input <= in_at input -> in_at input - in_observed_at input <= in_max_age input ->
  collected s1 samples \/ window s1 = default_window ->
  exists samples' latest, samples' `sublist_of` samples ++ [input] /\
    collected (admit_sample s3 input sample) samples' /\ list.last samples' = Some latest /\
    in_observed_at latest = in_observed_at input /\ sample_matches (admit_sample s3 input sample) input.
Proof.
  intros E2 E3 He Ho Hg Hc. apply validate_evidence_Ok in E2 as (-> & Hm & Hb & Hi & Ht & Hd & Hch & Hf1 & Hf2).
  assert (Hr : charging_sample input (sample_battery_current sample))
    by (unfold charging_sample; split_ands; try done; lia).
  assert (He2 : e_session (clear_progress s1) = Some (in_session input)) by (by destruct s1).
  assert (He3 : e_session s3 = Some (in_session input))
    by (apply prepare_sample_kept in E3 as [_ ->]; done).
  assert (Hin : sample_matches (admit_sample s3 input sample) input) by (by eapply admit_matches).
  assert (Hfirst : window s3 = default_window -> collected (admit_sample s3 input sample) [input])
    by (intros; by eapply admit_first).
  assert (Hone : window s3 = default_window -> exists samples' latest, samples' `sublist_of` samples ++ [input] /\
    collected (admit_sample s3 input sample) samples' /\ list.last samples' = Some latest /\
    in_observed_at latest = in_observed_at input /\ sample_matches (admit_sample s3 input sample) input).
  { intros H0. exists [input], input. split_ands; auto. apply sublist_inserts_l. done. }
  apply prepare_sample_Ok in E3 as [Hw|(-> & Hgap & D1 & D2 & D3 & D4 & D5)]; [by apply Hone|].
  destruct (decide (window s1 = default_window)) as [Hw|Hw]; [apply Hone; by destruct s1|].
  destruct Hc as [Hc|]; [|done].
  destruct (collected_kept s1 (clear_progress s1) samples) as [Hc2|Hc2];
    [done|apply kept_clear_progress| |by destruct s1]. clear Hc.
  assert (Hw2 : window (clear_progress s1) <> default_window) by (by destruct s1).
  set (s2 := clear_progress s1) in *. clearbody s2.
  pose proof Hc2 as [|(f & l & Hf & Hl & _ & _ & Hb2 & Hall & _)]%collected_nil_or; [done|].
  destruct (admit_next s2 input sample (sample_battery_current sample) samples l) as (l' & Hl' & [[Hl2 H]|H]);
    try done; [by apply Hgap|..].
  - apply Forall_impl with (sample_matches s2); [done|]. intros x Hx. by apply admit_keeps.
  - exists samples, l'. split_ands; try done. by apply sublist_inserts_r.
  - exists (samples ++ [input]), input. rewrite last_snoc. done.
Qed.
Lemma kept_or s s' samples :
  collected s samples \/ window s = default_window -> kept s s' ->
  collected s' samples \/ window s' = default_window.
Proof.
  intros [Hc|Hw] Hk; [by eapply collected_kept|]. right. destruct Hk as [Hk|[Hk _]]; congruence.
Qed.
Lemma drop_or s samples (inputs : list ChargeEstimateInput) :
  collected s samples \/ window s = default_window -> samples `sublist_of` inputs ->
  exists samples', samples' `sublist_of` inputs /\ collected s samples'.
Proof.
  intros [H|H] Hs; [by exists samples|]. exists []. split; [apply sublist_nil_l|by apply collected_default].
Qed.
(** What an answer says of the samples behind it. *)
Definition answer_earned (s' : ChargeEstimator) (input : ChargeEstimateInput) (st : ChargeEstimateState)
    (samples : list ChargeEstimateInput) : Prop :=
  forall e, st = Available e -> kind e = AtPresentCurrent ->
  exists latest lc, list.last samples = Some latest /\ in_observed_at latest = in_observed_at input /\
    sample_matches s' input /\ st = current_state s' input lc.
Lemma update_collected s input samples :
  input_ok input -> collected s samples ->
  exists samples', samples' `sublist_of` samples ++ [input] /\
    collected (estimator_update s input).1 samples' /\
    answer_earned (estimator_update s input).1 input (estimator_update s input).2 samples'.
Proof.
  intros Hi Hc.
  assert (Hdone : forall s' st, collected s' samples \/ window s' = default_window ->
    (forall e, st = Available e -> kind e <> AtPresentCurrent) ->
    exists samples', samples' `sublist_of` samples ++ [input] /\ collected s' samples' /\ answer_earned s' input st samples').
  { intros s' st [H|H] Hk; [exists samples|exists []]; (split; [by (apply sublist_inserts_r + apply sublist_nil_l)|]);
      (split; [done|]); intros e He ?; exfalso; by eapply Hk. }
  pose proof (update_cases s input) as H. destruct (estimator_update s input) as [s' st]. cbn [fst snd].
  inversion_clear H as [? ? E1|s1 ? ? E1 E2|s1 s2 ? ? sample E1 E2 E3|s1 s2 s3 sample E1 E2 E3].
  - apply Hdone; [|intros e He; by eapply prepare_Err_not_available in E1].
    pose proof (prepare_identity_window s input) as [Hw|Hw]; rewrite E1 in Hw; [|by right].
    unfold prepare_identity in E1. step_cases_in E1; auto.
  - apply prepare_identity_Ok in E1 as (K1 & _). apply Hdone.
    + pose proof (validate_evidence_kept s1 input) as K2. rewrite E2 in K2.
      apply (kept_or s1); [|done]. by eapply collected_kept.
    + intros e He. eapply validate_evidence_Err in E2 as [-> _]; done.
  - apply prepare_identity_Ok in E1 as (K1 & _). apply Hdone.
    + pose proof (validate_evidence_kept s1 input) as K2. rewrite E2 in K2.
      apply prepare_sample_kept in E3 as [K3 _].
      apply (kept_or s2); [|done]. apply (kept_or s1); [|done]. by eapply collected_kept.
    + intros e He. by eapply prepare_sample_Err in E3.
  - apply prepare_identity_Ok in E1 as (K1 & He & Ho & Hg).
    destruct (admit_collected s1 s2 s3 input sample samples) as (samples' & l & Hs & Hc' & Hl & Hol & Hm);
      [done..|by eapply collected_kept|].
    exists samples'. split_ands; [done|done|]. intros e Hst Hk. exists l, (level_confidence sample). done.
Qed.

Definition update_inputs (calls : list EstimatorCall) : list ChargeEstimateInput :=
  omap (fun c => match c with EstimatorUpdate input => Some input | EstimatorReset => None end) calls.
Lemma run_collected calls :
  Forall call_ok calls ->
  exists samples, samples `sublist_of` update_inputs calls /\
    collected (run_state estimator_step estimator_new calls) samples.
Proof.
  induction calls as [|c calls IH] using rev_ind; intros Hc; [by exists []|].
  apply Forall_app in Hc as [Hc Hl]. apply Forall_cons in Hl as [Hl _].
  destruct (IH Hc) as (samples & Hs & Hcol). rewrite run_state_snoc. unfold update_inputs. rewrite omap_app.
  destruct c as [input|]; cbn [estimator_step omap list_omap].
  - destruct (update_collected _ input samples Hl Hcol) as (samples' & Hs' & Hcol' & _).
    destruct (estimator_update _ input) as [s' st]. exists samples'. split; [|done].
    etrans; [done|]. by apply sublist_app.
  - exists []. split; [apply sublist_nil_l|by apply collected_default].
Qed.

(** C32: a time to full at the present current is earned: behind it are at least
    three of the inputs that were given, in order, over at least thirty
    seconds, the latest observed when this input was, each at most its maximum
    age after the one before.  Every one of them was fresh when it was given,
    came from the session, capacity and charge-mode evidence of this input, and
    showed a pack charging with a trusted current of at least a tenth of an
    ampere of the same provenance. *)
Theorem estimate_is_earned (calls : list EstimatorCall) (input : ChargeEstimateInput)
    (e : ChargeTimeEstimate) :
  Forall call_ok calls -> input_ok input ->
  (estimator_update (run_state estimator_step estimator_new calls) input).2 = Available e ->
  kind e = AtPresentCurrent ->
  exists samples first latest,
    samples `sublist_of` update_inputs calls ++ [input] /\
    head samples = Some first /\ list.last samples = Some latest /\
    MIN_SAMPLES <= Z.of_nat (length samples) /\ unbroken samples /\
    in_observed_at latest = in_observed_at input /\
    MIN_OBSERVATION_MILLISECONDS <= in_observed_at input - in_observed_at first /\
    Forall (fun x => same_evidence x input) samples.
Proof.
  intros Hc Hi Hst Hk. destruct (run_collected calls Hc) as (samples & Hs & Hcol).
  destruct (update_collected _ input samples Hi Hcol) as (samples' & Hs' & Hcol' & Hans).
  destruct (Hans e Hst Hk) as (l & lc & Hl & Hol & Hm & Est). rewrite Hst in Est.
  set (s' := (estimator_update _ input).1) in *. clearbody s'.
  unfold current_state in Est. destruct (_ || _) eqn:E; [done|]. prop_bools.
  apply collected_nil_or in Hcol' as [Hw|(f & l' & Hf & Hl' & Hn & Ha & Hb & Hall & Hu)].
  { rewrite Hw in *. simpl in *. unfold MIN_SAMPLES in *. lia. }
  exists samples', f, l. rewrite Ha in *. unfold sat_sub, MIN_OBSERVATION_MILLISECONDS in *. simpl in *.
  split_ands; try done; try lia.
  - etrans; [done|]. by apply sublist_app.
  - apply Forall_impl with (sample_matches s'); [done|]. intros x Hx. by eapply matches_same_evidence.
Qed.

(** ** Witnesses *)

Definition charging_input (at_ profile : Z) (source : ValueSource) : ChargeEstimateInput :=
  {| in_session := 1; in_profile := profile; in_at := at_; in_observed_at := at_;
     in_battery_current :=
       Some {| m_value := current_in 2000; m_source := source; m_quality := Known; m_verification := HardwareVerified |};
     in_charge_mode :=
       {| m_value := Charging; m_source := Reported; m_quality := Known; m_verification := HardwareVerified |};
     in_flow :=
       {| m_value := ChargeFlowCharging; m_source := Reported; m_quality := Known; m_verification := HardwareVerified |};
     in_battery_level :=
       BasisReported {| m_value := 50; m_source := Reported; m_quality := Known; m_verification := HardwareVerified |};
     in_usable_capacity := {| uc_value := 10000; uc_source := HardwareMeasured; uc_verification := HardwareVerified |};
     in_battery_temperature := None; in_voltage_sag := None; in_max_age := 20000 |}.
Definition charging_calls : list EstimatorCall :=
  [EstimatorUpdate (charging_input 0 1 Reported); EstimatorUpdate (charging_input 15000 1 Reported)].
Lemma charging_input_ok at_ profile source : input_ok (charging_input at_ profile source).
Proof.
  split; simpl; intros; simplify_eq; vm_compute; (split; discriminate).
Qed.
Lemma charging_calls_ok : Forall call_ok charging_calls.
Proof. unfold charging_calls. rewrite !Forall_cons. split_ands; [apply charging_input_ok..|constructor]. Qed.
(** 5,000 mAh missing at 2 A: two and a half hours. *)
Definition charging_estimate : ChargeTimeEstimate :=
  {| lower := 8550000; expected := 9000000; upper := 9450000; kind := AtPresentCurrent;
     confidence := ConfidenceHigh;
     current_rate := {| rate_mean := 2000; rate_minimum := 2000; rate_maximum := 2000; variability_permille := 0 |};
     battery_level_basis := in_battery_level (charging_input 30000 1 Reported);
     capacity_source := HardwareMeasured; estimate_sag := None; calculated_at := 30000; valid_until := 50000 |}.
Lemma estimates_ordered_witness :
  0 <= lower charging_estimate <= expected charging_estimate /\ expected charging_estimate <= u64_max.
Proof.
  destruct (estimates_ordered charging_calls (charging_input 30000 1 Reported) charging_estimate
              charging_calls_ok (charging_input_ok _ _ _) ltac:(vm_compute; reflexivity)) as (H1 & H2 & _).
  split; [exact H1|]. etrans; apply H2.
Defined.
Lemma estimate_is_earned_witness :
  exists samples first latest,
    samples `sublist_of` update_inputs charging_calls ++ [charging_input 30000 1 Reported] /\
    head samples = Some first /\ list.last samples = Some latest /\
    MIN_SAMPLES <= Z.of_nat (length samples) /\ unbroken samples /\
    in_observed_at latest = 30000 /\ MIN_OBSERVATION_MILLISECONDS <= 30000 - in_observed_at first /\
    Forall (fun x => same_evidence x (charging_input 30000 1 Reported)) samples.
Proof.
  apply (estimate_is_earned charging_calls (charging_input 30000 1 Reported) charging_estimate
           charging_calls_ok (charging_input_ok _ _ _)); [vm_compute; reflexivity|reflexivity].
Defined.

(** The charge profile is not among what the samples share: a reset in
    [prepare_sample] forgets the profile of the sample it then admits, so a
    change of profile at the next sample is not noticed. *)
Example profile_change_missed :
  (estimator_update
     (run_state estimator_step estimator_new
        (EstimatorUpdate <$> [charging_input 0 1 Calculated; charging_input 15000 1 Reported;
                              charging_input 30000 2 Reported]))
     (charging_input 45000 2 Reported)).2
  = Available (charging_estimate <| calculated_at := 45000 |> <| valid_until := 65000 |>)
  /\
  (estimator_update
     (run_state estimator_step estimator_new
        (EstimatorUpdate <$> [charging_input 15000 1 Reported; charging_input 30000 2 Reported]))
     (charging_input 45000 2 Reported)).2
  = CollectingSamples 2 15000.
Proof. split; vm_compute; reflexivity. Qed.
