(* ===== verification/Readback.v ===== *)
(** * Read-only responses and battery pages

    [cutout-core/src/battery_page.rs] and the response types of
    [cutout-core/src/lib.rs]: the pages a battery-management system reports,
    and the summaries of their cell voltages, temperatures and currents that
    are made from the retained ones.  A [BTreeMap] is a list of entries in
    increasing order of keys, an [ArrayVec] a list, an out-of-range index or
    slice [None]. *)

From stdpp Require Import sorting.
From S2P Require Import Prelude.
From S2P Require Import Commands.
From S2P Require Import Telemetry.

(** ** Responses *)

Record RawFieldValue := { rf_id : Z; rf_value : Z }.
Record RawFloatFieldValue := { rff_id : Z; value_bits : Z }.
Record FirmwareInfo := {
  protocol_version : option (Measured Z);
  firmware_major : option (Measured Z);
  firmware_minor : option (Measured Z);
  firmware_patch : option (Measured Z);
  build_id : option RawFieldValue;
}.
Record BmsPackCurrents := {
  current_0 : BatteryCurrent;
  current_1 : BatteryCurrent;
  bpc_source : ValueSource;
  bpc_quality : ValueQuality;
  bpc_verification : VerificationStatus;
}.
Definition pack_currents_reported (current_0 current_1 : BatteryCurrent) : BmsPackCurrents :=
  {| current_0 := current_0; current_1 := current_1; bpc_source := Reported; bpc_quality := Known;
     bpc_verification := HardwareVerified |}.

Record BatteryInfo := {
  bi_voltage : option (Measured Z);
  bi_current : option (Measured BatteryCurrent);
  level_reported : option (Measured Z);
  level_estimated : option (Measured Z);
  bi_temperature : option (Measured Z);
  raw_state : option RawFieldValue;
}.
Definition default_battery_info : BatteryInfo :=
  {| bi_voltage := None; bi_current := None; level_reported := None; level_estimated := None;
     bi_temperature := None; raw_state := None |}.

Inductive DiagnosticSeverity := DiagInfo | DiagWarning | DiagError.
Record DiagnosticDetail := {
  dd_field : RawFieldValue;
  dd_severity : DiagnosticSeverity;
  dd_quality : ValueQuality;
  dd_verification : VerificationStatus;
}.
(** Four slots. *)
Definition DiagnosticReadback : Type := list (option DiagnosticDetail).
Record RawTelemetryReadback := {
  raw_fields : list RawFieldValue;
  raw_float_fields : list RawFloatFieldValue;
}.
Definition default_raw_telemetry : RawTelemetryReadback :=
  {| raw_fields := []; raw_float_fields := [] |}.

Record SettingsEntry := {
  se_field : RawFieldValue;
  se_source : ValueSource;
  se_quality : ValueQuality;
  se_verification : VerificationStatus;
}.
Inductive ReadbackAvailability := Available | Unavailable | Unsupported.
Definition SETTINGS_READBACK_CAPACITY : nat := 18.
Record SettingsReadback := {
  sr_availability : ReadbackAvailability;
  sr_entries : list (option SettingsEntry);
}.
Definition settings_available (entries : list (option SettingsEntry)) : SettingsReadback :=
  {| sr_availability := Available;
     sr_entries := take SETTINGS_READBACK_CAPACITY entries ++
       replicate (SETTINGS_READBACK_CAPACITY - length entries) None |}.

Record FaultHistoryEntry := {
  fault_code : RawFieldValue;
  fh_source : ValueSource;
  fh_quality : ValueQuality;
  fh_verification : VerificationStatus;
}.
Record FaultHistoryReadback := {
  fh_availability : ReadbackAvailability;
  last_fault : option FaultHistoryEntry;
  since_distance : option (Measured Z);
}.

(** ** Battery pages *)

Definition BMS_OBSERVATION_HISTORY_CYCLES : nat := 7.
Definition BATTERY_CELL_VOLTAGE_VALUES_MAX : nat := 15.
Definition BATTERY_TEMPERATURE_VALUES_PER_PAGE : nat := 6.

Inductive BatteryPageKind := KindMetadata | KindCellVoltage | KindTemperature | KindRaw.
Record BatteryPageMetadata := {
  selector : Z;
  page_tag : option Z;
  page_kind : BatteryPageKind;
  page_verification : VerificationStatus;
}.
#[global] Instance eta_metadata : Eta BatteryPageMetadata := fun r =>
  Build_BatteryPageMetadata (selector r) (page_tag r) (page_kind r) (page_verification r).

Definition metadata_new (sel : Z) (kind : BatteryPageKind) (v : VerificationStatus)
  : BatteryPageMetadata :=
  {| selector := sel; page_tag := None; page_kind := kind; page_verification := v |}.
Definition with_tag (self : BatteryPageMetadata) (tag : Z) : BatteryPageMetadata :=
  self <| page_tag := Some tag |>.
Definition metadata_metadata (sel : Z) (v : VerificationStatus) := metadata_new sel KindMetadata v.
Definition metadata_cell_voltage (sel : Z) (v : VerificationStatus) :=
  metadata_new sel KindCellVoltage v.
Definition metadata_temperature (sel : Z) (v : VerificationStatus) :=
  metadata_new sel KindTemperature v.
Definition metadata_raw (sel : Z) (v : VerificationStatus) := metadata_new sel KindRaw v.

Record BatteryCellVoltagePage := {
  cvp_page : BatteryPageMetadata;
  cvp_battery : BatteryInfo;
  cell_voltages : list Z;
}.
Record BatteryTemperaturePage := {
  tp_page : BatteryPageMetadata;
  tp_battery : BatteryInfo;
  temperatures : list Z;
  temperature_count : nat;
}.
Record BatteryRawPage := {
  rp_page : BatteryPageMetadata;
  rp_battery : BatteryInfo;
  rp_pack_currents : option BmsPackCurrents;
}.
Inductive BatteryPagePayload :=
| PageCellVoltage (p : BatteryCellVoltagePage)
| PageTemperature (p : BatteryTemperaturePage)
| PageRaw (p : BatteryRawPage).

Definition temperature_page_new (page : BatteryPageMetadata) (battery : BatteryInfo)
  : BatteryTemperaturePage :=
  {| tp_page := page; tp_battery := battery;
     temperatures := replicate BATTERY_TEMPERATURE_VALUES_PER_PAGE 0; temperature_count := 0 |}.
(** The loop of [with_temperatures]: values up to the first absent one. *)
Fixpoint leading_values (l : list (option (Measured Z))) : list Z :=
  match l with Some m :: rest => m_value m :: leading_values rest | _ => [] end.
(** [slots] is the array argument, of [BATTERY_TEMPERATURE_VALUES_PER_PAGE] slots. *)
Definition with_temperatures (page : BatteryPageMetadata) (battery : BatteryInfo)
    (slots : list (option (Measured Z))) : BatteryTemperaturePage :=
  let values := leading_values slots in
  {| tp_page := page; tp_battery := battery;
     temperatures := values ++ replicate (BATTERY_TEMPERATURE_VALUES_PER_PAGE - length values) 0;
     temperature_count := length values |}.
Definition raw_page_new (page : BatteryPageMetadata) (battery : BatteryInfo) : BatteryRawPage :=
  {| rp_page := page; rp_battery := battery; rp_pack_currents := None |}.

Definition payload_from_page (page : BatteryPageMetadata) (battery : BatteryInfo)
  : BatteryPagePayload :=
  match page_kind page with
  | KindCellVoltage =>
      PageRaw (raw_page_new (metadata_raw (selector page) (page_verification page)) battery)
  | KindTemperature => PageTemperature (temperature_page_new page battery)
  | KindMetadata | KindRaw => PageRaw (raw_page_new page battery)
  end.
Definition payload_cell_voltage (page : BatteryPageMetadata) (battery : BatteryInfo)
    (cells : list Z) : BatteryPagePayload :=
  PageCellVoltage {| cvp_page := page; cvp_battery := battery; cell_voltages := cells |}.
Definition payload_temperature_values (page : BatteryPageMetadata) (battery : BatteryInfo)
    (slots : list (option (Measured Z))) : BatteryPagePayload :=
  PageTemperature (with_temperatures page battery slots).
Definition payload_raw (page : BatteryPageMetadata) (battery : BatteryInfo) : BatteryPagePayload :=
  PageRaw (raw_page_new page battery).
Definition with_bms_pack_currents (self : BatteryPagePayload) (currents : BmsPackCurrents)
  : BatteryPagePayload :=
  match self with
  | PageRaw p => PageRaw {| rp_page := rp_page p; rp_battery := rp_battery p;
                            rp_pack_currents := Some currents |}
  | PageCellVoltage p => PageCellVoltage p
  | PageTemperature p => PageTemperature p
  end.
Definition payload_page (self : BatteryPagePayload) : BatteryPageMetadata :=
  match self with
  | PageCellVoltage p => cvp_page p | PageTemperature p => tp_page p | PageRaw p => rp_page p
  end.
Definition payload_battery (self : BatteryPagePayload) : BatteryInfo :=
  match self with
  | PageCellVoltage p => cvp_battery p
  | PageTemperature p => tp_battery p
  | PageRaw p => rp_battery p
  end.
Definition bms_pack_currents (self : BatteryPagePayload) : option BmsPackCurrents :=
  match self with PageRaw p => rp_pack_currents p | _ => None end.
Definition is_cell_voltage (self : BatteryPagePayload) : bool :=
  match self with PageCellVoltage _ => true | _ => false end.

Record BatteryReadback := {
  availability : ReadbackAvailability;
  br_page : option BatteryPagePayload;
  first_observation_index : option Z;
  observation_pack_index : option Z;
  first_pack_observation_index : option Z;
  br_observed_at : option Z;
  observation_event_sequence : option Z;
}.
#[global] Instance eta_readback : Eta BatteryReadback := fun r =>
  Build_BatteryReadback (availability r) (br_page r) (first_observation_index r)
    (observation_pack_index r) (first_pack_observation_index r) (br_observed_at r)
    (observation_event_sequence r).
Definition readback_of (a : ReadbackAvailability) (page : option BatteryPagePayload)
  : BatteryReadback :=
  {| availability := a; br_page := page; first_observation_index := None;
     observation_pack_index := None; first_pack_observation_index := None;
     br_observed_at := None; observation_event_sequence := None |}.
Definition readback_available (page : BatteryPagePayload) := readback_of Available (Some page).
Definition readback_unavailable := readback_of Unavailable None.
Definition readback_unsupported := readback_of Unsupported None.
Definition with_first_observation_index (self : BatteryReadback) (index : Z) : BatteryReadback :=
  self <| first_observation_index := Some index |>.
Definition with_observation_pack (self : BatteryReadback) (pack_index first : Z)
  : BatteryReadback :=
  self <| observation_pack_index := Some pack_index |>
       <| first_pack_observation_index := Some first |>.
Definition with_observed_at (self : BatteryReadback) (at_ : Z) : BatteryReadback :=
  self <| br_observed_at := Some at_ |>.
Definition with_observation_event_sequence (self : BatteryReadback) (sequence : Z)
  : BatteryReadback :=
  self <| observation_event_sequence := Some sequence |>.

Inductive ReadOnlyResponse :=
| RespFirmware (info : FirmwareInfo)
| RespBattery (readback : BatteryReadback)
| RespDiagnostics (readback : DiagnosticReadback)
| RespRawTelemetry (readback : RawTelemetryReadback)
| RespSettings (readback : SettingsReadback)
| RespFaultHistory (readback : FaultHistoryReadback).

(** ** Summaries *)

Record BmsVoltageSample := { sample_voltage : Z; sample_at : Z }.
Record BmsVoltageObservation := {
  obs_index : Z;
  obs_pack_index : option Z;
  obs_pack_observation_index : option Z;
  obs_voltage : Z;
  latest_voltage : Z;
  samples : list BmsVoltageSample;
}.
#[global] Instance eta_observation : Eta BmsVoltageObservation := fun r =>
  Build_BmsVoltageObservation (obs_index r) (obs_pack_index r) (obs_pack_observation_index r)
    (obs_voltage r) (latest_voltage r) (samples r).
Record BmsObservationSummary := {
  observed_count : Z;
  lowest_index : option Z;
  highest_index : option Z;
  voltage_spread : option Z;
  observations : list BmsVoltageObservation;
}.
Record BmsTemperatureSummary := { readings : list Z; highest_temperature : option Z }.
Record BmsCurrentSummary := {
  bcs_current : option (Measured BatteryCurrent);
  bcs_pack_currents : option BmsPackCurrents;
}.

(** [Vec::resize]. *)
Definition resize_vec {A} (n : nat) (x : A) (l : list A) : list A := take n l ++ replicate (n - length l) x.

Definition stabilized_voltage (samples : list BmsVoltageSample) : option Z :=
  let seed := match samples with sample :: _ => sample_voltage sample | [] => 0 end in
  let values := resize_vec BMS_OBSERVATION_HISTORY_CYCLES seed (sample_voltage <$> samples) in
  let values := merge_sort Z.le values in
  values !! ((length values - 1) / 2)%nat.

(** [BTreeMap::entry(key).and_modify(f).or_insert(new)]. *)
Fixpoint entry_upsert {V} (key : Z) (f : V -> V) (new : V) (m : list (Z * V)) : list (Z * V) :=
  match m with
  | [] => [(key, new)]
  | (k, v) :: rest =>
      if bool_decide (k = key) then (k, f v) :: rest
      else if bool_decide (key < k) then (key, new) :: m
      else (k, v) :: entry_upsert key f new rest
  end.

Definition observe_slot (readback : BatteryReadback) (observed_at first : Z)
    (m : list (Z * BmsVoltageObservation)) (slot_voltage : Z * Z)
  : list (Z * BmsVoltageObservation) :=
  let '(slot, voltage) := slot_voltage in
  match checked_add u16_max first slot with
  | None => m
  | Some index =>
      let pack_observation_index :=
        first ← first_pack_observation_index readback; checked_add u16_max first slot in
      let sample := {| sample_voltage := voltage; sample_at := observed_at |} in
      entry_upsert index
        (fun o => o <| obs_pack_index := observation_pack_index readback |>
                    <| obs_pack_observation_index := pack_observation_index |>
                    <| latest_voltage := voltage |> <| samples := samples o ++ [sample] |>)
        {| obs_index := index; obs_pack_index := observation_pack_index readback;
           obs_pack_observation_index := pack_observation_index; obs_voltage := voltage;
           latest_voltage := voltage; samples := [sample] |} m
  end.
(** [enumerate], over the slots of a page. *)
Definition enumerate (l : list Z) : list (Z * Z) := zip (Z.of_nat <$> seq 0 (length l)) l.
Definition observe_readback_cells (m : list (Z * BmsVoltageObservation)) (readback : BatteryReadback)
  : list (Z * BmsVoltageObservation) :=
  match br_observed_at readback, br_page readback with
  | Some observed_at, Some (PageCellVoltage page) =>
      foldl (observe_slot readback observed_at (default 0 (first_observation_index readback))) m
        (enumerate (cell_voltages page))
  | _, _ => m
  end.

(** [Iterator::min_by_key] with the comparison written out: the first least. *)
Definition min_by {A} (less : A -> A -> bool) (l : list A) : option A :=
  match l with
  | [] => None
  | x :: rest => Some (foldl (fun best y => if less y best then y else best) x rest)
  end.
Definition lower (a b : Z * BmsVoltageObservation) : bool :=
  bool_decide (obs_voltage a.2 < obs_voltage b.2)
  || (bool_decide (obs_voltage a.2 = obs_voltage b.2) && bool_decide (a.1 < b.1)).
Definition higher (a b : Z * BmsVoltageObservation) : bool :=
  bool_decide (obs_voltage b.2 < obs_voltage a.2)
  || (bool_decide (obs_voltage a.2 = obs_voltage b.2) && bool_decide (a.1 < b.1)).

Definition stabilize (o : BmsVoltageObservation) : BmsVoltageObservation :=
  match stabilized_voltage (samples o) with Some v => o <| obs_voltage := v |> | None => o end.
Definition observation_summary_of (readbacks : list BatteryReadback) : BmsObservationSummary :=
  let observations := foldl observe_readback_cells [] readbacks in
  let observations := (fun e => (e.1, stabilize e.2)) <$> observations in
  let lowest := min_by lower observations in
  let highest := min_by higher observations in
  {| observed_count := Z.min u32_max (Z.of_nat (length observations));
     lowest_index := fst <$> lowest;
     highest_index := fst <$> highest;
     voltage_spread :=
       match lowest, highest with
       | Some (_, low), Some (_, high) =>
           Some (sat_sub_i i32_min i32_max (obs_voltage high) (obs_voltage low))
       | _, _ => None
       end;
     observations := snd <$> observations |}.

(** [rev().filter_map(page).find_map(f)]. *)
Definition find_newest {T} (f : BatteryPagePayload -> option T) (readbacks : list BatteryReadback)
  : option T :=
  head (omap (fun r => br_page r ≫= f) (rev readbacks)).
Definition current_summary_of (readbacks : list BatteryReadback) : BmsCurrentSummary :=
  {| bcs_current := find_newest (fun p => bi_current (payload_battery p)) readbacks;
     bcs_pack_currents := find_newest bms_pack_currents readbacks |}.

(** [temperatures[..count]]: [None] where the slice is out of range. *)
Definition slice_to {A} (n : nat) (l : list A) : option (list A) :=
  if bool_decide (n <= length l)%nat then Some (take n l) else None.
(** The readings of one retained page: [None] stands for a panic. *)
Definition page_readings (r : BatteryReadback) : option (list (BatteryPageMetadata * list Z)) :=
  match br_page r with
  | Some (PageTemperature page) =>
      values ← slice_to (temperature_count page) (temperatures page); Some [(tp_page page, values)]
  | Some (PageRaw page) =>
      match bi_temperature (rp_battery page) with
      | Some t => Some [(rp_page page, [m_value t])]
      | None => Some []
      end
  | Some (PageCellVoltage _) | None => Some []
  end.
(** The sort key of a page, an absent tag before every tag. *)
Definition page_key (m : BatteryPageMetadata) : Z * Z := (default (-1) (page_tag m), selector m).
Definition key_le (a b : BatteryPageMetadata * list Z) : Prop :=
  (page_key a.1).1 < (page_key b.1).1 \/
  ((page_key a.1).1 = (page_key b.1).1 /\ (page_key a.1).2 <= (page_key b.1).2).
#[global] Instance key_le_dec : RelDecision key_le.
Proof. intros a b. unfold key_le. apply _. Defined.
Definition max_option (l : list Z) : option Z :=
  match l with [] => None | x :: rest => Some (foldr Z.max x rest) end.
(** The unstable sort of the source leaves the order of pages with one key
    open; the pages a session retains have different keys. *)
Definition temperature_summary_of (readbacks : list BatteryReadback)
  : option BmsTemperatureSummary :=
  pages ← mapM page_readings readbacks;
  let pages := merge_sort key_le (concat pages) in
  let readings := pages ≫= snd in
  Some {| readings := readings; highest_temperature := max_option readings |}.

(** ** The median of the retained samples *)

(** The seven values the median is taken of: the samples, and the first one
    again for each cycle not seen yet. *)
Definition padded (samples : list BmsVoltageSample) : list Z :=
  let voltages := sample_voltage <$> samples in
  voltages ++ replicate (BMS_OBSERVATION_HISTORY_CYCLES - length samples) (default 0 (head voltages)).
Definition in_band (lo hi v : Z) : Prop := lo <= v <= hi.
#[global] Instance in_band_dec lo hi v : Decision (in_band lo hi v).
Proof. unfold in_band. apply _. Defined.

Lemma le_transitive : Transitive Z.le.
Proof. intros x y z. lia. Qed.
Lemma le_total : Total Z.le.
Proof. intros x y. lia. Qed.

Lemma sorted_seven_band (l : list Z) lo hi :
  Sorted Z.le l -> length l = 7%nat -> (4 <= length (filter (in_band lo hi) l))%nat ->
  exists v, l !! 3%nat = Some v /\ in_band lo hi v.
Proof.
  intros Hs%Sorted_StronglySorted Hl Hc; [|exact le_transitive].
  destruct l as [|a [|b [|c [|d [|e [|f [|g [|]]]]]]]]; try discriminate Hl.
  exists d. split; [done|]. unfold in_band.
  repeat match goal with
  | H : StronglySorted _ (_ :: _) |- _ => apply StronglySorted_inv in H as [H ?]
  | H : Forall _ (_ :: _) |- _ => apply Forall_cons in H as [? H]
  end.
  destruct (decide (lo <= d)) as [|Hlo]; [destruct (decide (d <= hi)) as [|Hhi]; [lia|]|]; exfalso.
  - rewrite !filter_cons in Hc.
    rewrite (decide_False (P := in_band lo hi d)), (decide_False (P := in_band lo hi e)),
      (decide_False (P := in_band lo hi f)), (decide_False (P := in_band lo hi g)) in Hc
      by (unfold in_band; lia).
    repeat case_decide; simpl in Hc; lia.
  - rewrite !filter_cons in Hc.
    rewrite (decide_False (P := in_band lo hi a)), (decide_False (P := in_band lo hi b)),
      (decide_False (P := in_band lo hi c)), (decide_False (P := in_band lo hi d)) in Hc
      by (unfold in_band; lia).
    repeat case_decide; simpl in Hc; lia.
Qed.

Lemma stabilized_values samples :
  (length samples <= BMS_OBSERVATION_HISTORY_CYCLES)%nat ->
  stabilized_voltage samples = merge_sort Z.le (padded samples) !! 3%nat /\
  length (padded samples) = 7%nat.
Proof.
  intros H. unfold stabilized_voltage, padded, resize_vec.
  rewrite length_fmap, firstn_all2 by (rewrite length_fmap; done).
  assert (E : match samples with sample :: _ => sample_voltage sample | [] => 0 end =
              default 0 (head (sample_voltage <$> samples))) by (by destruct samples).
  rewrite E. set (l := _ ++ _).
  assert (Hl : length l = 7%nat).
  { subst l. rewrite length_app, length_replicate, length_fmap.
    unfold BMS_OBSERVATION_HISTORY_CYCLES in *. lia. }
  split; [|done].
  assert (length (merge_sort Z.le l) = 7%nat) as ->; [|done].
  by rewrite (Permutation_length (merge_sort_Permutation Z.le l)).
Qed.

(** A cell's displayed voltage is robust against misread pages.  Of at
    most seven retained samples, completed to seven by repeating the first,
    the value shown is one in the middle: in any band of voltages that holds
    four of the seven it lies in that band too, so up to three arbitrary
    readings cannot move it outside the others; and with four samples or fewer
    it is exactly the first one. *)
Theorem stabilized_voltage_robust samples lo hi :
  (0 < length samples <= BMS_OBSERVATION_HISTORY_CYCLES)%nat ->
  (exists v, stabilized_voltage samples = Some v /\
     ((4 <= length (filter (in_band lo hi) (padded samples)))%nat -> in_band lo hi v)) /\
  ((length samples <= 4)%nat -> stabilized_voltage samples = sample_voltage <$> head samples).
Proof.
  intros [H0 H7]. destruct (stabilized_values samples H7) as [-> Hlen].
  pose proof (merge_sort_Permutation Z.le (padded samples)) as Hp.
  pose proof (Sorted_merge_sort Z.le (padded samples)) as Hs.
  assert (Hl : length (merge_sort Z.le (padded samples)) = 7%nat)
    by (by rewrite (Permutation_length Hp)).
  assert (Hband : forall lo hi, (4 <= length (filter (in_band lo hi) (padded samples)))%nat ->
    exists v, merge_sort Z.le (padded samples) !! 3%nat = Some v /\ in_band lo hi v).
  { intros lo' hi' Hc. apply sorted_seven_band; [exact Hs|exact Hl|].
    by rewrite Hp. }
  split.
  - destruct (lookup_lt_is_Some_2 (merge_sort Z.le (padded samples)) 3) as [v Hv]; [lia|].
    exists v. split; [done|]. intros Hc. destruct (Hband _ _ Hc) as (v' & Hv' & Hin). by simplify_eq.
  - intros H4. destruct samples as [|s rest]; [simpl in H0; lia|]. simpl.
    destruct (Hband (sample_voltage s) (sample_voltage s)) as (v & -> & Hv).
    + unfold padded. simpl. rewrite filter_cons, decide_True by (unfold in_band; lia).
      rewrite filter_app, length_cons, length_app.
      assert (E : forall n, filter (in_band (sample_voltage s) (sample_voltage s))
                    (replicate n (sample_voltage s)) = replicate n (sample_voltage s)).
      { induction n as [|n IH]; [done|]. simpl. rewrite filter_cons, decide_True, IH; [done|].
        unfold in_band. lia. }
      rewrite E, length_replicate. simpl in H4. destruct rest as [|? [|? [|? [|]]]]; simpl in *; lia.
    + f_equal. unfold in_band in Hv. lia.
Qed.

Definition voltage_samples (l : list Z) : list BmsVoltageSample :=
  (fun v => {| sample_voltage := v; sample_at := 0 |}) <$> l.
Lemma stabilized_voltage_robust_witness :
  stabilized_voltage (voltage_samples [4012; 0; 65535; 4010; 4011; 9; 4013]) = Some 4011 /\
  (exists v, stabilized_voltage (voltage_samples [4012; 0; 65535; 4010; 4011; 9; 4013]) = Some v /\
             in_band 4000 4100 v).
Proof.
  split; [reflexivity|].
  destruct (stabilized_voltage_robust (voltage_samples [4012; 0; 65535; 4010; 4011; 9; 4013]) 4000 4100
    ltac:(vm_compute; lia)) as [(v & Hv & Hin) _].
  exists v. exact (conj Hv (Hin ltac:(vm_compute; lia))).
Defined.

(** ** The observation summary *)

(** The reference: the readings of all retained pages, with the observation
    each belongs to, oldest first. *)
Definition cell_readings (r : BatteryReadback) : list (Z * BmsVoltageSample) :=
  match br_observed_at r, br_page r with
  | Some at_, Some (PageCellVoltage page) =>
      omap (fun sv => (fun i => (i, {| sample_voltage := sv.2; sample_at := at_ |})) <$>
              checked_add u16_max (default 0 (first_observation_index r)) sv.1)
        (enumerate (cell_voltages page))
  | _, _ => []
  end.
Definition samples_of (k : Z) (flat : list (Z * BmsVoltageSample)) : list BmsVoltageSample :=
  snd <$> filter (fun e => e.1 = k) flat.

(** An entry of the map built from the readings [flat]. *)
Definition entry_ok (flat : list (Z * BmsVoltageSample)) (e : Z * BmsVoltageObservation) : Prop :=
  obs_index e.2 = e.1 /\ samples e.2 = samples_of e.1 flat /\
  last (sample_voltage <$> samples e.2) = Some (latest_voltage e.2).
Record map_ok (flat : list (Z * BmsVoltageSample)) (m : list (Z * BmsVoltageObservation)) : Prop := {
  mok_sorted : StronglySorted Z.lt (fst <$> m);
  mok_keys : forall k, k ∈ fst <$> m <-> k ∈ fst <$> flat;
  mok_entries : Forall (entry_ok flat) m;
}.

Lemma samples_of_snoc k flat i s :
  samples_of k (flat ++ [(i, s)]) = samples_of k flat ++ (if bool_decide (i = k) then [s] else []).
Proof.
  unfold samples_of. rewrite filter_app, fmap_app. f_equal. rewrite filter_cons. simpl.
  case_bool_decide; [by rewrite decide_True|by rewrite decide_False].
Qed.
Lemma samples_of_nil k flat : k ∉ fst <$> flat -> samples_of k flat = [].
Proof.
  unfold samples_of. intros H. replace (filter _ flat) with (@nil (Z * BmsVoltageSample)); [done|].
  symmetry. induction flat as [|[i s] flat IH]; [done|].
  rewrite filter_cons, decide_False; [apply IH; set_solver|]. simpl. set_solver.
Qed.

Lemma upsert_keys {V} k (f : V -> V) new m x :
  x ∈ fst <$> entry_upsert k f new m <-> x = k \/ x ∈ fst <$> m.
Proof.
  induction m as [|[k' v] m IH]; simpl; [set_solver|].
  case_bool_decide; [subst; simpl; set_solver|]. case_bool_decide; simpl; set_solver.
Qed.
Lemma upsert_sorted {V} k (f : V -> V) new m :
  StronglySorted Z.lt (fst <$> m) -> StronglySorted Z.lt (fst <$> entry_upsert k f new m).
Proof.
  induction m as [|[k' v] m IH]; simpl; intros H; [by repeat constructor|].
  apply StronglySorted_inv in H as [Hs Hf].
  case_bool_decide; [simpl; by constructor|]. case_bool_decide; simpl.
  - constructor; [by constructor|]. constructor; [done|].
    eapply Forall_impl; [exact Hf|]. simpl. intros; lia.
  - constructor; [by apply IH|]. apply Forall_forall. intros x Hx%upsert_keys.
    destruct Hx as [->|Hx]; [lia|]. by apply (Forall_forall (Z.lt k') (fst <$> m)).
Qed.
Lemma upsert_elem {V} k (f : V -> V) new m e :
  StronglySorted Z.lt (fst <$> m) -> e ∈ entry_upsert k f new m ->
  (e.1 <> k /\ e ∈ m) \/ (exists v, (k, v) ∈ m /\ e = (k, f v)) \/ (k ∉ fst <$> m /\ e = (k, new)).
Proof.
  induction m as [|[k' v] m IH]; simpl; intros H He.
  - right; right. split; [set_solver|]. by apply list_elem_of_singleton in He.
  - apply StronglySorted_inv in H as [Hs Hf].
    assert (Hgt : forall x, x ∈ m -> k' < x.1)
      by (intros x Hx; eapply Forall_forall in Hf; [exact Hf|]; apply list_elem_of_fmap; by eexists).
    case_bool_decide as Hk; [subst k'|case_bool_decide as Hlt].
    + apply elem_of_cons in He as [->|He]; [right; left; exists v; split; [set_solver|done]|].
      left. split; [specialize (Hgt _ He); lia|set_solver].
    + apply elem_of_cons in He as [->|He].
      * right; right. split; [|done]. intros [->|Hx]%elem_of_cons; [lia|].
        eapply Forall_forall in Hf; [|exact Hx]. lia.
      * left. split; [|done]. apply elem_of_cons in He as [->|He]; [simpl; lia|].
        specialize (Hgt _ He). lia.
    + apply elem_of_cons in He as [->|He]; [left; split; [done|set_solver]|].
      destruct (IH Hs He) as [[? ?]|[(v' & ? & ->)|[? ->]]].
      * left. split; [done|set_solver].
      * right; left. exists v'. split; [set_solver|done].
      * right; right. split; [|done]. simpl. set_solver.
Qed.

Lemma observe_slot_ok r at_ first flat m slot v :
  map_ok flat m ->
  map_ok (flat ++ option_list ((fun i => (i, {| sample_voltage := v; sample_at := at_ |})) <$>
                                 checked_add u16_max first slot))
         (observe_slot r at_ first m (slot, v)).
Proof.
  intros [Hs Hk He]. simpl. destruct (checked_add u16_max first slot) as [i|]; simpl;
    [|by rewrite app_nil_r]. split.
  - by apply upsert_sorted.
  - intros k. rewrite upsert_keys, fmap_app, elem_of_app, Hk. set_solver.
  - apply Forall_forall. intros e Hel. apply upsert_elem in Hel; [|done].
    rewrite Forall_forall in He. unfold entry_ok. destruct Hel as [[Hne Hin]|[(o & Hin & ->)|[Hnk ->]]].
    + rewrite samples_of_snoc, bool_decide_eq_false_2, app_nil_r by congruence. by apply He.
    + destruct (He _ Hin) as (H1 & H2 & H3). destruct o as [? ? ? ? ? ss]. simpl in *.
      rewrite samples_of_snoc, bool_decide_eq_true_2, <- H2 by done.
      split_ands; [done|done|]. rewrite fmap_app. apply last_snoc.
    + rewrite samples_of_snoc, bool_decide_eq_true_2, samples_of_nil by (rewrite <- ?Hk; done). done.
Qed.
Lemma observe_slots_ok r at_ first slots flat m :
  map_ok flat m ->
  map_ok (flat ++ omap (fun sv => (fun i => (i, {| sample_voltage := sv.2; sample_at := at_ |})) <$>
              checked_add u16_max first sv.1) slots)
         (foldl (observe_slot r at_ first) m slots).
Proof.
  revert flat m. induction slots as [|[slot v] slots IH]; intros flat m H; simpl.
  - by rewrite app_nil_r.
  - pose proof (observe_slot_ok r at_ first flat m slot v H) as H1. apply IH in H1.
    rewrite <- app_assoc in H1. simpl in H1. destruct (checked_add u16_max first slot); exact H1.
Qed.
Lemma observe_readbacks_ok rbs flat m :
  map_ok flat m -> map_ok (flat ++ (rbs ≫= cell_readings)) (foldl observe_readback_cells m rbs).
Proof.
  revert flat m. induction rbs as [|r rbs IH]; intros flat m H; simpl; [by rewrite app_nil_r|].
  rewrite app_assoc. apply IH. unfold observe_readback_cells, cell_readings.
  destruct (br_observed_at r); [|by rewrite app_nil_r].
  destruct (br_page r) as [[]|]; rewrite ?app_nil_r; try done. by apply observe_slots_ok.
Qed.
Lemma map_ok_nil : map_ok [] [].
Proof. split; simpl; [constructor|set_solver|constructor]. Qed.

(** The first least entry is least, for a test that orders entries weakly. *)
Section MinBy.
Context {A} (less : A -> A -> bool).
Context (less_irrefl : forall x, less x x = false).
Context (less_trans : forall x y z, less y x = false -> less z y = false -> less z x = false).
Context (less_asym : forall x y, less x y = true -> less y x = false).

Lemma foldl_min_spec l best :
  let r := foldl (fun best y => if less y best then y else best) best l in
  r ∈ best :: l /\ forall y, y ∈ best :: l -> less y r = false.
Proof.
  revert best. induction l as [|x l IH]; intros best; simpl.
  - split; [set_solver|]. intros y ->%list_elem_of_singleton. apply less_irrefl.
  - destruct (less x best) eqn:E.
    + destruct (IH x) as [H1 H2]. split; [set_solver|]. intros y Hy.
      apply elem_of_cons in Hy as [->|Hy]; [|by apply H2].
      apply (less_trans _ x); [apply H2; set_solver|by apply less_asym].
    + destruct (IH best) as [H1 H2]. split; [set_solver|]. intros y Hy.
      apply elem_of_cons in Hy as [->|Hy]; [apply H2; set_solver|].
      apply elem_of_cons in Hy as [->|Hy]; [|apply H2; set_solver].
      apply (less_trans _ best); [apply H2; set_solver|done].
Qed.
Lemma min_by_spec l x : min_by less l = Some x -> x ∈ l /\ forall y, y ∈ l -> less y x = false.
Proof. destruct l as [|y l]; [done|]. intros [= <-]. apply foldl_min_spec. Qed.
End MinBy.

Ltac weak_order := unfold lower, higher; intros; prop_bools; repeat match goal with
  | H : _ \/ _ |- _ => destruct H | |- context [bool_decide ?P] => destruct (bool_decide_reflect P)
  | H : context [bool_decide ?P] |- _ => destruct (bool_decide_reflect P) end; simpl in *; try done; lia.
Lemma lowest_spec l x :
  min_by lower l = Some x -> x ∈ l /\ forall y, y ∈ l -> lower y x = false.
Proof. apply min_by_spec; weak_order. Qed.
Lemma highest_spec l x :
  min_by higher l = Some x -> x ∈ l /\ forall y, y ∈ l -> higher y x = false.
Proof. apply min_by_spec; weak_order. Qed.

Lemma stabilized_some ss : is_Some (stabilized_voltage ss).
Proof.
  unfold stabilized_voltage, resize_vec. apply lookup_lt_is_Some_2.
  rewrite (Permutation_length (merge_sort_Permutation Z.le _)), length_app, length_take,
    length_replicate, length_fmap.
  unfold BMS_OBSERVATION_HISTORY_CYCLES.
  assert (E : (7 `min` length ss + (7 - length ss) = 7)%nat) by lia. rewrite E. simpl. lia.
Qed.
Lemma stabilize_spec o :
  obs_index (stabilize o) = obs_index o /\ samples (stabilize o) = samples o /\
  latest_voltage (stabilize o) = latest_voltage o /\
  stabilized_voltage (samples o) = Some (obs_voltage (stabilize o)).
Proof.
  unfold stabilize. destruct (stabilized_some (samples o)) as [v Hv]. rewrite Hv.
  by destruct o.
Qed.

Lemma summary_observation rbs o :
  o ∈ observations (observation_summary_of rbs) ->
  samples o = samples_of (obs_index o) (rbs ≫= cell_readings) /\
  obs_index o ∈ fst <$> (rbs ≫= cell_readings).
Proof.
  pose proof (observe_readbacks_ok rbs [] [] map_ok_nil) as [_ Hk He]. simpl in Hk, He.
  unfold observation_summary_of. cbn [observations]. rewrite <- list_fmap_compose.
  intros ([k o'] & -> & Hin)%list_elem_of_fmap. rewrite Forall_forall in He.
  destruct (He _ Hin) as (H1 & H2 & _). simpl in *. destruct (stabilize_spec o') as (-> & -> & _).
  rewrite H1. split; [done|]. apply Hk. by apply (list_elem_of_fmap_2 fst) in Hin.
Qed.

(** The displayed cell summary is exactly what the retained pages say.
    Its observations are those of the timestamped cell pages, one per
    observation index, in increasing order; each carries all readings of its
    index in the order received, the newest as its latest voltage, and their
    stabilised median; the lowest and highest indices are those of the least
    and greatest stabilised voltages, the smallest index among equals, and the
    spread is their difference, saturated to its width; without readings there
    are none of these. *)
Theorem observation_summary_correct rbs :
  let flat := rbs ≫= cell_readings in
  let s := observation_summary_of rbs in
  StronglySorted Z.lt (obs_index <$> observations s) /\
  (forall k, k ∈ obs_index <$> observations s <-> k ∈ fst <$> flat) /\
  (forall o, o ∈ observations s ->
     samples o = samples_of (obs_index o) flat /\
     last (sample_voltage <$> samples o) = Some (latest_voltage o) /\
     stabilized_voltage (samples o) = Some (obs_voltage o)) /\
  observed_count s = Z.min u32_max (Z.of_nat (length (observations s))) /\
  (observations s = [] -> lowest_index s = None /\ highest_index s = None /\ voltage_spread s = None) /\
  (observations s <> [] ->
     exists lo hi, lo ∈ observations s /\ hi ∈ observations s /\
       lowest_index s = Some (obs_index lo) /\ highest_index s = Some (obs_index hi) /\
       voltage_spread s = Some (clamp i32_min i32_max (obs_voltage hi - obs_voltage lo)) /\
       forall o, o ∈ observations s ->
         obs_voltage lo <= obs_voltage o <= obs_voltage hi /\
         (obs_voltage o = obs_voltage lo -> obs_index lo <= obs_index o) /\
         (obs_voltage o = obs_voltage hi -> obs_index hi <= obs_index o)).
Proof.
  intros flat s. pose proof (observe_readbacks_ok rbs [] [] map_ok_nil) as [Hs Hk He].
  unfold s, observation_summary_of. fold flat in Hk, He. simpl in Hk, He.
  set (m := foldl observe_readback_cells [] rbs) in *.
  set (obs := (fun e => (e.1, stabilize e.2)) <$> m). cbn [observations observed_count lowest_index
    highest_index voltage_spread]. rewrite Forall_forall in He.
  assert (Hobs : forall e, e ∈ obs -> obs_index e.2 = e.1 /\
      samples e.2 = samples_of e.1 flat /\ last (sample_voltage <$> samples e.2) = Some (latest_voltage e.2) /\
      stabilized_voltage (samples e.2) = Some (obs_voltage e.2)).
  { intros e He'. apply list_elem_of_fmap in He' as ([k o] & -> & Hin). apply He in Hin as (H1 & H2 & H3).
    simpl in *. destruct (stabilize_spec o) as (-> & -> & -> & H4). auto. }
  assert (Hidx : obs_index <$> (snd <$> obs) = fst <$> m).
  { unfold obs. rewrite <- !list_fmap_compose. apply list_fmap_ext. intros i e Hi. simpl.
    rewrite (proj1 (stabilize_spec e.2)). by apply He, list_elem_of_lookup_2 with i. }
  split_ands.
  - by rewrite Hidx.
  - intros k. by rewrite Hidx.
  - intros o Ho. apply list_elem_of_fmap in Ho as (e & -> & Hin). destruct (Hobs e Hin) as (-> & H). exact H.
  - by rewrite length_fmap.
  - intros E. by destruct obs.
  - intros Hne. destruct (min_by lower obs) as [[kl l]|] eqn:El; [|by destruct obs].
    destruct (min_by higher obs) as [[kh h]|] eqn:Eh; [|by destruct obs].
    apply lowest_spec in El as [Hl1 Hl2]. apply highest_spec in Eh as [Hh1 Hh2].
    pose proof (Hobs _ Hl1) as [Hli _]. pose proof (Hobs _ Hh1) as [Hhi _]. simpl in *. subst kl kh.
    exists l, h. split_ands; try done.
    1: by apply (list_elem_of_fmap_2 snd) in Hl1. 1: by apply (list_elem_of_fmap_2 snd) in Hh1.
    intros o Ho. apply list_elem_of_fmap in Ho as ([k o'] & -> & Hin). simpl.
    specialize (Hl2 _ Hin). specialize (Hh2 _ Hin). destruct (Hobs _ Hin) as [Ho _]. simpl in Ho. subst k.
    unfold lower in Hl2. unfold higher in Hh2. simpl in *. prop_bools.
    repeat match goal with H : _ \/ _ |- _ => destruct H; prop_bools end; lia.
Qed.

(** ** Temperatures and currents *)

(** The slice of a temperature page is in range for every page the
    constructors build, so the summary never panics on decoded pages. *)
Definition page_in_range (r : BatteryReadback) : Prop :=
  match br_page r with
  | Some (PageTemperature p) => (temperature_count p <= length (temperatures p))%nat
  | _ => True
  end.
Lemma with_temperatures_in_range page battery slots a :
  page_in_range (readback_of a (Some (payload_temperature_values page battery slots))).
Proof. unfold page_in_range. simpl. rewrite length_app. lia. Qed.
Lemma payload_from_page_in_range page battery a :
  page_in_range (readback_of a (Some (payload_from_page page battery))).
Proof. unfold page_in_range, payload_from_page. simpl. destruct (page_kind page); simpl; lia || done. Qed.

Lemma foldr_max_spec x l : foldr Z.max x l ∈ x :: l /\ forall y, y ∈ x :: l -> y <= foldr Z.max x l.
Proof.
  induction l as [|z l [IH1 IH2]]; simpl.
  - split; [set_solver|]. intros y ->%list_elem_of_singleton. lia.
  - split.
    + destruct (Z.max_spec z (foldr Z.max x l)) as [[_ ->]|[_ ->]]; set_solver.
    + intros y Hy. assert (y = z \/ y ∈ x :: l) as [->|H] by set_solver; [lia|].
      specialize (IH2 _ H). lia.
Qed.

Lemma temperature_summary_total rbs :
  Forall page_in_range rbs -> exists s, temperature_summary_of rbs = Some s /\
    match highest_temperature s with
    | Some t => t ∈ readings s /\ forall u, u ∈ readings s -> u <= t
    | None => readings s = []
    end.
Proof.
  intros H. unfold temperature_summary_of.
  assert (exists pages, mapM page_readings rbs = Some pages) as [pages ->].
  { apply mapM_is_Some_2. apply Forall_forall. intros r Hr. rewrite Forall_forall in H.
    specialize (H r Hr). simpl. unfold page_readings, page_in_range in *.
    destruct (br_page r) as [[p|p|p]|]; try by eexists.
    - unfold slice_to. rewrite bool_decide_true by done. by eexists.
    - destruct (bi_temperature _); by eexists. }
  simpl. eexists. split; [reflexivity|]. simpl. set (l := _ ≫= _). clearbody l.
  destruct l as [|x l]; [done|]. apply foldr_max_spec.
Qed.

(** A page without a current does not hide an older one. *)
Lemma current_summary_skips f rbs r :
  (br_page r ≫= f : option (Measured BatteryCurrent)) = None ->
  find_newest f (rbs ++ [r]) = find_newest f rbs.
Proof. intros H. unfold find_newest. rewrite rev_unit. simpl. by rewrite H. Qed.

(** Three cycles of one page whose first reading is a glitch: it is shown
    until the fifth. *)
Example glitch_first :
  let page v := readback_available
    (payload_cell_voltage (metadata_cell_voltage 1 SourceVerified) default_battery_info [v]) in
  let shown vs := obs_voltage <$>
    observations (observation_summary_of ((fun v => with_observed_at (page v) 5) <$> vs)) in
  shown [0; 4000; 4001; 4002] = [0] /\ shown [0; 4000; 4001; 4002; 4003] = [4000].
Proof. vm_compute. auto. Qed.
