(* ===== verification/BegodeTelemetry.v ===== *)
(** * Begode telemetry and battery frames

    [cutout-protocols/src/begode_telemetry.rs] (the frames with tags 0x00,
    0x04 and 0x07, the unit mode, the voltage profiles and the battery-level
    estimate) and [begode_bms.rs] (tags 0x01 to 0x03).  A frame that reaches
    these decoders has passed [BegodeFrame.try_from_slice]; a read outside of
    it yields 0, as in the source. *)

From S2P Require Import Prelude.
From S2P Require Import Parser.
From S2P Require Import Quantities.
From S2P Require Import BegodeFrame.
From S2P Require Import Commands.
From S2P Require Import Telemetry.
From S2P Require Import Readback.

(** ** Reads *)

Definition frame_byte (f : BegodeFrame) (offset : nat) : Z :=
  default 0 (Parser.byte (frame_bytes f) offset).
Definition frame_u16 (f : BegodeFrame) (offset : nat) : Z :=
  default 0 (be_u16 (frame_bytes f) offset).
Definition frame_i16 (f : BegodeFrame) (offset : nat) : Z :=
  default 0 (be_i16 (frame_bytes f) offset).
Definition frame_u32 (f : BegodeFrame) (offset : nat) : Z :=
  default 0 (be_u32 (frame_bytes f) offset).

Record UnexpectedFrameTag := { expected : Z; actual : Z }.
Definition tag_byte (tag : Z) : Z := if bool_decide (0 <= tag <= u8_max) then tag else u8_max.
Definition require_tag (frame : BegodeFrame) (expected : Z) : result unit UnexpectedFrameTag :=
  let actual := BegodeFrame.tag frame in
  if bool_decide (actual = expected) then Ok tt
  else Err {| expected := expected; actual := tag_byte actual |}.

Definition source_reported {T} (value : T) : Measured T :=
  {| m_value := value; m_source := Reported; m_quality := Known; m_verification := SourceVerified |}.
Definition source_estimated {T} (value : T) : Measured T :=
  {| m_value := value; m_source := Estimated; m_quality := Inferred;
     m_verification := SourceVerified |}.
Definition settings_entry (id value : Z) : SettingsEntry :=
  {| se_field := {| rf_id := id; rf_value := value |}; se_source := Reported; se_quality := Known;
     se_verification := SourceVerified |}.

(** [PhaseCurrent::from_centiamps] and [ReportedBatteryCurrent::from_centiamps]. *)
Definition current_from_centiamps (value : Z) : Z := sat_mul_i32 value 10.
Definition current_from_deciamps (value : Z) : Z := sat_mul_i32 value 100.

(** ** Unit mode *)

Inductive BegodeUnitMode := Metric | Imperial.
#[global] Instance unit_mode_eq_dec : EqDecision BegodeUnitMode.
Proof. solve_decision. Defined.

Definition from_settings_bits (settings_bits : Z) : BegodeUnitMode :=
  if bool_decide (Z.land settings_bits 1 = 0) then Metric else Imperial.
Definition distance_from_wire (self : BegodeUnitMode) (distance_m : Z) : Z :=
  match self with
  | Metric => distance_from_metres distance_m
  | Imperial => distance_from_milli_miles distance_m
  end.
Definition unit_speed (self : BegodeUnitMode) (metric_speed : Z) : Z :=
  match self with
  | Metric => metric_speed
  | Imperial => speed_from_milli_kmh_scaled (speed_as_milli_kmh metric_speed) 1609344
  end.
Definition speed_limit (self : BegodeUnitMode) (raw_speed : Z) : Z :=
  match self with
  | Metric => speed_from_kmh raw_speed
  | Imperial => speed_from_mph_floor_kmh raw_speed
  end.
Definition unit_distance (self : BegodeUnitMode) (metric_distance : Z) : Z :=
  distance_from_wire self (Z.min u32_max (distance_as_whole_metres metric_distance)).

(** ** Voltage profiles *)

Inductive BegodePackVoltageProfile := Begode84VFullCharge | Begode100VFullCharge.
#[global] Instance profile_eq_dec : EqDecision BegodePackVoltageProfile.
Proof. solve_decision. Defined.
Definition scaler_milli (self : BegodePackVoltageProfile) : Z :=
  match self with Begode84VFullCharge => 1250 | Begode100VFullCharge => 1500 end.
Definition series_cells (self : BegodePackVoltageProfile) : Z :=
  match self with Begode84VFullCharge => 20 | Begode100VFullCharge => 24 end.
Definition voltage_range (self : BegodePackVoltageProfile) : Z * Z :=
  match self with Begode84VFullCharge => (60000, 84000) | Begode100VFullCharge => (72000, 100800) end.

Definition begode_curve : list (Z * Z) :=
  [(5120, level_from_percent 0); (5440, level_from_percent 9); (6680, level_from_percent 100)].
Definition estimate_begode_battery_level (voltage : Z) (profile : BegodePackVoltageProfile) : Z :=
  level_from_piecewise_linear (wire_from_scaled_voltage voltage (scaler_milli profile)) begode_curve.

(** ** Live A *)

Record BegodeLiveATelemetry := {
  la_wire_voltage : Z;
  la_voltage : Z;
  la_speed : Z;
  la_trip_distance : Z;
  trip_distance_low : Z;
  phase_current : Z;
  imu_temperature : Z;
  firmware_word : Z;
  beeper_volume : Z;
  la_battery_level : Z;
}.
Definition live_a_decode (frame : BegodeFrame) (profile : BegodePackVoltageProfile)
  : result BegodeLiveATelemetry UnexpectedFrameTag :=
  _ <-? require_tag frame 0x00;
  let wire_voltage := frame_u16 frame 2 in
  Ok {| la_wire_voltage := wire_voltage;
        la_voltage := wire_as_scaled_voltage wire_voltage (scaler_milli profile);
        la_speed := speed_from_centimetres_per_second (frame_i16 frame 4);
        la_trip_distance := distance_from_metres (frame_u32 frame 6);
        trip_distance_low := distance_from_metres (frame_u16 frame 8);
        phase_current := current_from_centiamps (frame_i16 frame 10);
        imu_temperature := temperature_from_mpu6050_counts (frame_i16 frame 12);
        firmware_word := frame_u16 frame 14;
        beeper_volume := frame_byte frame 17;
        la_battery_level :=
          estimate_begode_battery_level
            (wire_as_scaled_voltage wire_voltage (scaler_milli profile)) profile |}.
Definition live_a_to_delta_with_units (self : BegodeLiveATelemetry) (at_ms : Z)
    (unit_mode : BegodeUnitMode) : TelemetryDelta :=
  delta_empty at_ms
    <| d_speed := Some (source_reported (unit_speed unit_mode (la_speed self))) |>
    <| d_voltage := Some (source_reported (la_voltage self)) |>
    <| d_motor_current := Some (source_reported (phase_current self)) |>
    <| d_controller_temperature := Some (source_reported (imu_temperature self)) |>
    <| d_distance := Some (source_reported (unit_distance unit_mode (trip_distance_low self))) |>
    <| d_battery_level_estimated := FieldSet (source_estimated (la_battery_level self)) |>.
Definition live_a_to_delta (self : BegodeLiveATelemetry) (at_ms : Z) : TelemetryDelta :=
  live_a_to_delta_with_units self at_ms Metric.

Definition BEGODE_FIELD_FIRMWARE_WORD : Z := 0x000e.
Definition BEGODE_FIELD_BEEPER_VOLUME : Z := 0x0011.
Definition BEGODE_FIELD_SETTINGS_BITS : Z := 0x0406.
Definition BEGODE_FIELD_POWER_OFF_TIMER_MINUTES : Z := 0x0408.
Definition BEGODE_FIELD_TILTBACK_SPEED_KMH : Z := 0x040a.
Definition BEGODE_FIELD_LED_AND_LIGHT_MODE : Z := 0x040d.
Definition BEGODE_FIELD_ALERT_FLAGS : Z := 0x040e.

Definition live_a_to_settings_response (self : BegodeLiveATelemetry) : ReadOnlyResponse :=
  RespSettings (settings_available
    [Some (settings_entry BEGODE_FIELD_FIRMWARE_WORD (firmware_word self));
     Some (settings_entry BEGODE_FIELD_BEEPER_VOLUME (beeper_volume self))]).

(** ** Live B *)

Definition light_mode_new (value : Z) : Z := Z.land value 3.
Definition light_state (self : Z) : option LightState :=
  if bool_decide (self = 0) then Some LightOff
  else if bool_decide (self = 1) then Some LightOn
  else if bool_decide (self = 2) then Some Strobe
  else None.

Record BegodeLiveBTelemetry := {
  total_distance : Z;
  settings_bits : Z;
  power_off_timer : Z;
  tiltback_speed : Z;
  led_mode : Z;
  alert_flags : Z;
  light_mode : Z;
}.
Definition live_b_decode (frame : BegodeFrame) : result BegodeLiveBTelemetry UnexpectedFrameTag :=
  _ <-? require_tag frame 0x04;
  let settings_bits := frame_u16 frame 6 in
  let unit_mode := from_settings_bits settings_bits in
  Ok {| total_distance := distance_from_wire unit_mode (frame_u32 frame 2);
        settings_bits := settings_bits;
        power_off_timer := duration_from_minutes (frame_u16 frame 8);
        tiltback_speed := speed_limit unit_mode (frame_u16 frame 10);
        led_mode := frame_byte frame 13;
        alert_flags := frame_byte frame 14;
        light_mode := light_mode_new (frame_byte frame 15) |}.
Definition live_b_to_delta_with_units (self : BegodeLiveBTelemetry) (at_ms : Z) : TelemetryDelta :=
  delta_empty at_ms <| d_distance := Some (source_reported (total_distance self)) |>.
Definition live_b_to_settings_response (self : BegodeLiveBTelemetry) : ReadOnlyResponse :=
  RespSettings (settings_available
    [Some (settings_entry BEGODE_FIELD_SETTINGS_BITS (settings_bits self));
     Some (settings_entry BEGODE_FIELD_POWER_OFF_TIMER_MINUTES
             (Z.min i64_max (duration_as_minutes (power_off_timer self))));
     Some (settings_entry BEGODE_FIELD_TILTBACK_SPEED_KMH
             (clamp 0 u16_max (speed_as_kmh_rounded (tiltback_speed self))));
     Some (settings_entry BEGODE_FIELD_LED_AND_LIGHT_MODE
             (Z.lor (Z.shiftl (led_mode self) 8) (light_mode self)))]).
Definition unit_mode (self : BegodeLiveBTelemetry) : BegodeUnitMode :=
  from_settings_bits (settings_bits self).
Definition live_b_to_diagnostics_response (self : BegodeLiveBTelemetry) : ReadOnlyResponse :=
  RespDiagnostics
    [Some {| dd_field := {| rf_id := BEGODE_FIELD_ALERT_FLAGS; rf_value := alert_flags self |};
             dd_severity := if bool_decide (alert_flags self = 0) then DiagInfo else DiagWarning;
             dd_quality := Known; dd_verification := SourceVerified |};
     None; None; None].

(** ** Extra telemetry *)

Record BegodeExtraTelemetry := {
  extra_battery_current : Z;
  extra_motor_temperature : Z;
  true_pwm : option Z;
}.
(** [i16::checked_mul]. *)
Definition checked_mul_i16 (a b : Z) : option Z :=
  if bool_decide (i16_min <= a * b <= i16_max) then Some (a * b) else None.
Definition extra_decode (frame : BegodeFrame) : result BegodeExtraTelemetry UnexpectedFrameTag :=
  _ <-? require_tag frame 0x07;
  Ok {| extra_battery_current := current_from_centiamps (frame_i16 frame 2);
        extra_motor_temperature := temperature_from_celsius (frame_i16 frame 6);
        true_pwm := checked_mul_i16 (frame_i16 frame 8) 10 |}.
Definition extra_to_delta (self : BegodeExtraTelemetry) (at_ms : Z) : TelemetryDelta :=
  delta_empty at_ms
    <| d_battery_current :=
         Some (source_reported (normalize (extra_battery_current self) PolarityUnknown)) |>
    <| d_motor_temperature := Some (source_reported (extra_motor_temperature self)) |>
    <| d_pwm := match true_pwm self with
                | Some value => FieldSet (source_reported value)
                | None => FieldInvalid
                end |>.

(** ** Battery-management summary *)

Record BegodeBmsSummary := {
  bms_sub_index : Z;
  bms_index : Z;
  half_index : Z;
  pwm_limit : Z;
  pack_voltage : Z;
  bms_current : Z;
  temperature_0 : Z;
  temperature_1 : Z;
  half_pack_voltage : Z;
}.
Definition bms_summary_decode (frame : BegodeFrame) : result BegodeBmsSummary UnexpectedFrameTag :=
  _ <-? require_tag frame 0x01;
  let sub_index := BegodeFrame.sub_index frame in
  Ok {| bms_sub_index := sub_index;
        bms_index := if bool_decide (2 <= sub_index) then 1 else 0;
        half_index := Z.land sub_index 1;
        pwm_limit := duty_from_centipercent (frame_u16 frame 2);
        pack_voltage := voltage_from_deci_volts (frame_u16 frame 6);
        bms_current := current_from_deciamps (frame_i16 frame 8);
        temperature_0 := temperature_from_celsius (frame_i16 frame 10);
        temperature_1 := temperature_from_celsius (frame_i16 frame 12);
        half_pack_voltage := voltage_from_deci_volts (frame_i16 frame 14) |}.
Definition bms_summary_to_delta (self : BegodeBmsSummary) (at_ms : Z) : TelemetryDelta :=
  delta_empty at_ms
    <| d_voltage := Some (source_reported (pack_voltage self)) |>
    <| d_battery_current := Some (source_reported (normalize (bms_current self) PolarityUnknown)) |>
    <| d_battery_temperature := Some (source_reported (temperature_0 self)) |>.
Definition bms_summary_to_battery_response (self : BegodeBmsSummary) : ReadOnlyResponse :=
  RespBattery (readback_available (payload_raw
    (with_tag (metadata_metadata (bms_sub_index self) SourceVerified) 0x01)
    {| bi_voltage := Some (source_reported (pack_voltage self));
       bi_current := Some (source_reported (normalize (bms_current self) PolarityUnknown));
       level_reported := None; level_estimated := None;
       bi_temperature := Some (source_reported (temperature_0 self)); raw_state := None |})).

(** ** Cell pages *)

Definition BEGODE_BMS_CELL_VALUES_PER_PAGE : Z := 8.
Definition BEGODE_BMS_OBSERVATIONS_PER_BANK : Z := 32.
Record BegodeBmsCellPage := {
  cell_tag : Z;
  cell_bms_index : Z;
  page_index : Z;
  first_cell_index : Z;
  cell_voltage : list Z;
}.
Definition bms_index_from_tag (tag : Z) : Z :=
  let index := sat_sub tag 0x02 in if bool_decide (index <= u8_max) then index else u8_max.
Definition cell_page_decode (frame : BegodeFrame) : result BegodeBmsCellPage UnexpectedFrameTag :=
  let tag := BegodeFrame.tag frame in
  if negb (bool_decide (tag = 0x02) || bool_decide (tag = 0x03))
  then Err {| expected := 0x02; actual := tag_byte tag |}
  else
    let page_index := BegodeFrame.sub_index frame in
    Ok {| cell_tag := tag;
          cell_bms_index := bms_index_from_tag tag;
          page_index := page_index;
          first_cell_index := page_index * BEGODE_BMS_CELL_VALUES_PER_PAGE;
          cell_voltage := frame_u16 frame <$> [2; 4; 6; 8; 10; 12; 14; 16]%nat |}.
Definition cell_page_to_battery_response (self : BegodeBmsCellPage) : ReadOnlyResponse :=
  RespBattery
    (with_observation_pack
       (with_first_observation_index
          (readback_available (payload_cell_voltage
             (with_tag (metadata_cell_voltage (page_index self) SourceVerified) (cell_tag self))
             default_battery_info (cell_voltage self)))
          (cell_bms_index self * BEGODE_BMS_OBSERVATIONS_PER_BANK + first_cell_index self))
       (cell_bms_index self) (first_cell_index self)).

(** ** What the wheel sends

    The reference encoder: a payload of 16 bytes, the tag and the sub-index
    between header and terminator. *)

Definition wheel_frame (payload : list Z) (tag sub : Z) : BegodeFrame :=
  {| frame_bytes := BEGODE_HEADER ++ payload ++ [tag; sub] ++ BEGODE_TERMINATOR |}.
Definition live_a_frame (cv speed trip current imu word spare beeper : Z) : BegodeFrame :=
  wheel_frame (be16_bytes cv ++ be16_bytes speed ++ be32_bytes trip ++ be16_bytes current ++
               be16_bytes imu ++ be16_bytes word ++ [spare; beeper]) 0x00 0x18.
Definition live_b_frame (total bits timer limit spare led alert light spare' : Z) : BegodeFrame :=
  wheel_frame (be32_bytes total ++ be16_bytes bits ++ be16_bytes timer ++ be16_bytes limit ++
               [spare; led; alert; light] ++ be16_bytes spare') 0x04 0x18.
Definition extra_frame (current spare temperature pwm : Z) (rest : list Z) : BegodeFrame :=
  wheel_frame (be16_bytes current ++ be16_bytes spare ++ be16_bytes temperature ++
               be16_bytes pwm ++ rest) 0x07 0x18.
Definition summary_frame (sub limit spare voltage current t0 t1 half spare' : Z) : BegodeFrame :=
  wheel_frame (be16_bytes limit ++ be16_bytes spare ++ be16_bytes voltage ++ be16_bytes current ++
               be16_bytes t0 ++ be16_bytes t1 ++ be16_bytes half ++ be16_bytes spare') 0x01 sub.
Definition cells_frame (bank page : Z) (cells : list Z) : BegodeFrame :=
  wheel_frame (cells ≫= be16_bytes) (2 + bank) page.

(** The low word of a 32-bit field. *)
Lemma be32_low_word v : be16 (v / 256 mod 256) (v mod 256) = v mod 65536.
Proof. rewrite be16_sum by (unfold is_byte; div_lia). div_lia. Qed.

Ltac wheel_read :=
  unfold frame_u16, frame_i16, frame_u32, frame_byte, live_a_frame, live_b_frame, extra_frame,
    summary_frame, wheel_frame, be16_bytes, be32_bytes;
  cbn -[estimate_begode_battery_level wire_as_scaled_voltage level_from_piecewise_linear
        to_signed be16 be32 Z.modulo Z.div Z.mul Z.quot Z.add].
Ltac wheel_words :=
  rewrite ?be32_bytes_u, ?be16_bytes_i by assumption; rewrite ?be16_bytes_u by assumption.

Lemma temperature_from_celsius_i16 v :
  in_i i16_min i16_max v -> temperature_from_celsius v = v * 1000.
Proof.
  intros. unfold temperature_from_celsius, sat_mul_i64. rewrite saturating_i64_to_i32_id; int_lia.
Qed.
Lemma speed_kmh_rounds_back v : in_u u16_max v -> speed_as_kmh_rounded (speed_from_kmh v) = v.
Proof.
  intros Hv. unfold in_u, u16_max in Hv.
  assert (E : speed_from_kmh v = v * 5000 / 18).
  { unfold speed_from_kmh, speed_from_milli_kmh, saturating_u64_to_i32.
    rewrite bool_decide_false by int_lia. rewrite sat_mul_i32_id by int_lia.
    rewrite Z.quot_div_nonneg by int_lia. f_equal. int_lia. }
  rewrite E. unfold speed_as_kmh_rounded.
  rewrite bool_decide_true by div_lia. rewrite Z.quot_div_nonneg by div_lia. div_lia.
Qed.

Lemma live_a_roundtrip p cv speed trip current imu word spare beeper :
  in_u u16_max cv -> in_i i16_min i16_max speed -> in_u u32_max trip ->
  in_i i16_min i16_max current -> in_i i16_min i16_max imu -> in_u u16_max word ->
  live_a_decode (live_a_frame cv speed trip current imu word spare beeper) p =
  Ok {| la_wire_voltage := cv; la_voltage := (cv * 10 * scaler_milli p + 500) / 1000;
        la_speed := speed * 10; la_trip_distance := trip * 1000;
        trip_distance_low := trip mod 65536 * 1000; phase_current := current * 10;
        imu_temperature := 36530 + (imu * 1000) ÷ 340; firmware_word := word;
        beeper_volume := beeper; la_battery_level := level_from_piecewise_linear cv begode_curve |}.
Proof.
  intros Hcv Hs Ht Hc Hi Hw. unfold live_a_decode.
  change (require_tag _ 0x00) with (@Ok unit UnexpectedFrameTag tt). cbn [result_bind].
  assert (Hv : wire_as_scaled_voltage cv (scaler_milli p) = (cv * 10 * scaler_milli p + 500) / 1000).
  { unfold wire_as_scaled_voltage, wire_as_millivolts.
    rewrite bool_decide_false by (destruct p; simpl; lia).
    rewrite Z.quot_div_nonneg by (destruct p; simpl; int_lia).
    apply saturating_i64_to_i32_id. unfold in_u, u16_max in Hcv. destruct p; simpl; div_lia. }
  assert (Hl : estimate_begode_battery_level (wire_as_scaled_voltage cv (scaler_milli p)) p =
               level_from_piecewise_linear cv begode_curve).
  { unfold estimate_begode_battery_level. rewrite wire_voltage_roundtrip; [done|done|].
    destruct p; simpl; lia. }
  wheel_read. rewrite (be32_low_word trip). wheel_words. f_equal. f_equal; [done|..|done].
  - unfold speed_from_centimetres_per_second. apply sat_mul_i32_id. int_lia.
  - unfold distance_from_metres. int_lia.
  - unfold distance_from_metres. div_lia.
  - unfold current_from_centiamps. apply sat_mul_i32_id. int_lia.
Qed.

Lemma live_b_roundtrip total bits timer limit spare led alert light spare' :
  in_u u32_max total -> in_u u16_max bits -> in_u u16_max timer -> in_u u16_max limit ->
  live_b_decode (live_b_frame total bits timer limit spare led alert light spare') =
  Ok {| total_distance := if Z.even bits then total * 1000 else total * 1609344 / 1000;
        settings_bits := bits; power_off_timer := timer * 60000;
        tiltback_speed := speed_limit (from_settings_bits bits) limit;
        led_mode := led; alert_flags := alert; light_mode := Z.land light 3 |}.
Proof.
  intros Ht Hb Hm Hl. unfold live_b_decode.
  change (require_tag _ 0x04) with (@Ok unit UnexpectedFrameTag tt). cbn [result_bind].
  wheel_read. wheel_words. f_equal. f_equal.
  - unfold from_settings_bits. change 1 with (Z.ones 1). rewrite Z.land_ones by done.
    change (2 ^ 1) with 2. rewrite Zmod_even. destruct (Z.even bits); simpl.
    + unfold distance_from_metres. int_lia.
    + unfold distance_from_milli_miles. rewrite Z.quot_div_nonneg by int_lia. f_equal. int_lia.
  - unfold duration_from_minutes, duration_from_seconds. int_lia.
Qed.
Lemma extra_roundtrip current spare temperature pwm rest :
  in_i i16_min i16_max current -> in_i i16_min i16_max temperature ->
  in_i i16_min i16_max pwm -> length rest = 8%nat ->
  extra_decode (extra_frame current spare temperature pwm rest) =
  Ok {| extra_battery_current := current * 10; extra_motor_temperature := temperature * 1000;
        true_pwm := if bool_decide (-3276 <= pwm <= 3276) then Some (pwm * 10) else None |}.
Proof.
  intros Hc Ht Hp Hl.
  destruct rest as [|r0 [|r1 [|r2 [|r3 [|r4 [|r5 [|r6 [|r7 [|]]]]]]]]]; try done.
  unfold extra_decode. change (require_tag _ 0x07) with (@Ok unit UnexpectedFrameTag tt).
  cbn [result_bind]. wheel_read. wheel_words. f_equal. f_equal.
  - unfold current_from_centiamps. apply sat_mul_i32_id. int_lia.
  - by apply temperature_from_celsius_i16.
  - unfold checked_mul_i16. do 2 case_bool_decide; try done; int_lia.
Qed.
Lemma summary_roundtrip sub limit spare voltage current t0 t1 half spare' :
  in_u u16_max limit -> in_u u16_max voltage -> in_i i16_min i16_max current ->
  in_i i16_min i16_max t0 -> in_i i16_min i16_max t1 -> in_i i16_min i16_max half ->
  bms_summary_decode (summary_frame sub limit spare voltage current t0 t1 half spare') =
  Ok {| bms_sub_index := sub; bms_index := if bool_decide (2 <= sub) then 1 else 0;
        half_index := Z.land sub 1; pwm_limit := limit / 10; pack_voltage := voltage * 100;
        bms_current := current * 100; temperature_0 := t0 * 1000; temperature_1 := t1 * 1000;
        half_pack_voltage := half * 100 |}.
Proof.
  intros Hl Hv Hc H0 H1 Hh. unfold bms_summary_decode.
  change (require_tag _ 0x01) with (@Ok unit UnexpectedFrameTag tt). cbn [result_bind].
  wheel_read. wheel_words. f_equal. f_equal; try by apply temperature_from_celsius_i16.
  - unfold duty_from_centipercent. rewrite Z.quot_div_nonneg by int_lia.
    rewrite bool_decide_true; [done|div_lia].
  - unfold voltage_from_deci_volts. apply sat_mul_i32_id. int_lia.
  - unfold current_from_deciamps. apply sat_mul_i32_id. int_lia.
  - unfold voltage_from_deci_volts. apply sat_mul_i32_id. int_lia.
Qed.
Lemma cells_roundtrip bank page cells :
  (bank = 0 \/ bank = 1) -> length cells = 8%nat -> Forall (in_u u16_max) cells ->
  cell_page_decode (cells_frame bank page cells) =
  Ok {| cell_tag := 2 + bank; cell_bms_index := bank; page_index := page;
        first_cell_index := page * 8; cell_voltage := cells |}.
Proof.
  intros Hb Hl Hc.
  destruct cells as [|c0 [|c1 [|c2 [|c3 [|c4 [|c5 [|c6 [|c7 [|]]]]]]]]]; try done.
  repeat (apply Forall_cons in Hc as [? Hc]).
  assert (Hd : cell_page_decode (cells_frame bank page [c0; c1; c2; c3; c4; c5; c6; c7]) =
    Ok {| cell_tag := 2 + bank; cell_bms_index := bank; page_index := page;
          first_cell_index := page * 8;
          cell_voltage := frame_u16 (cells_frame bank page [c0; c1; c2; c3; c4; c5; c6; c7]) <$>
                            [2; 4; 6; 8; 10; 12; 14; 16]%nat |}) by (destruct Hb as [-> | ->]; done).
  rewrite Hd. f_equal. f_equal. unfold cells_frame. wheel_read. by wheel_words.
Qed.

(** What a wheel reports, in the units of the wire. *)
Inductive WheelReport :=
| WheelLiveA (cv speed trip current imu word spare beeper : Z)
| WheelLiveB (total bits timer limit spare led alert light spare' : Z)
| WheelExtra (current spare temperature pwm : Z) (rest : list Z)
| WheelSummary (sub limit spare voltage current t0 t1 half spare' : Z)
| WheelCells (bank page : Z) (cells : list Z).
Definition report_ok (r : WheelReport) : Prop :=
  match r with
  | WheelLiveA cv speed trip current imu word _ _ =>
      in_u u16_max cv /\ in_i i16_min i16_max speed /\ in_u u32_max trip /\
      in_i i16_min i16_max current /\ in_i i16_min i16_max imu /\ in_u u16_max word
  | WheelLiveB total bits timer limit _ _ _ _ _ =>
      in_u u32_max total /\ in_u u16_max bits /\ in_u u16_max timer /\ in_u u16_max limit
  | WheelExtra current _ temperature pwm rest =>
      in_i i16_min i16_max current /\ in_i i16_min i16_max temperature /\
      in_i i16_min i16_max pwm /\ length rest = 8%nat
  | WheelSummary _ limit _ voltage current t0 t1 half _ =>
      in_u u16_max limit /\ in_u u16_max voltage /\ in_i i16_min i16_max current /\
      in_i i16_min i16_max t0 /\ in_i i16_min i16_max t1 /\ in_i i16_min i16_max half
  | WheelCells bank _ cells =>
      (bank = 0 \/ bank = 1) /\ length cells = 8%nat /\ Forall (in_u u16_max) cells
  end.
Definition report_frame (r : WheelReport) : BegodeFrame :=
  match r with
  | WheelLiveA cv speed trip current imu word spare beeper =>
      live_a_frame cv speed trip current imu word spare beeper
  | WheelLiveB total bits timer limit spare led alert light spare' =>
      live_b_frame total bits timer limit spare led alert light spare'
  | WheelExtra current spare temperature pwm rest => extra_frame current spare temperature pwm rest
  | WheelSummary sub limit spare voltage current t0 t1 half spare' =>
      summary_frame sub limit spare voltage current t0 t1 half spare'
  | WheelCells bank page cells => cells_frame bank page cells
  end.
(** The report in milliunits, decoded by the decoder of its tag. *)
Definition report_decoded (p : BegodePackVoltageProfile) (r : WheelReport) : Prop :=
  let f := report_frame r in
  match r with
  | WheelLiveA cv speed trip current imu word _ beeper =>
      live_a_decode f p = Ok
        {| la_wire_voltage := cv; la_voltage := (cv * 10 * scaler_milli p + 500) / 1000;
           la_speed := speed * 10; la_trip_distance := trip * 1000;
           trip_distance_low := trip mod 65536 * 1000; phase_current := current * 10;
           imu_temperature := 36530 + (imu * 1000) ÷ 340; firmware_word := word;
           beeper_volume := beeper; la_battery_level := level_from_piecewise_linear cv begode_curve |}
  | WheelLiveB total bits timer limit _ led alert light _ =>
      live_b_decode f = Ok
        {| total_distance := if Z.even bits then total * 1000 else total * 1609344 / 1000;
           settings_bits := bits; power_off_timer := timer * 60000;
           tiltback_speed := speed_limit (from_settings_bits bits) limit;
           led_mode := led; alert_flags := alert; light_mode := Z.land light 3 |} /\
      (Z.even bits = true -> speed_as_kmh_rounded (speed_limit (from_settings_bits bits) limit) = limit)
  | WheelExtra current _ temperature pwm _ =>
      extra_decode f = Ok
        {| extra_battery_current := current * 10; extra_motor_temperature := temperature * 1000;
           true_pwm := if bool_decide (-3276 <= pwm <= 3276) then Some (pwm * 10) else None |}
  | WheelSummary sub limit _ voltage current t0 t1 half _ =>
      bms_summary_decode f = Ok
        {| bms_sub_index := sub; bms_index := if bool_decide (2 <= sub) then 1 else 0;
           half_index := Z.land sub 1; pwm_limit := limit / 10; pack_voltage := voltage * 100;
           bms_current := current * 100; temperature_0 := t0 * 1000; temperature_1 := t1 * 1000;
           half_pack_voltage := half * 100 |}
  | WheelCells bank page cells =>
      cell_page_decode f = Ok
        {| cell_tag := 2 + bank; cell_bms_index := bank; page_index := page;
           first_cell_index := page * 8; cell_voltage := cells |}
  end.

(** Whatever a wheel reports is decoded to what it reported: the decoder of
    a frame's tag returns every field of the report converted exactly to
    milliunits (voltage by the pack profile, distance by the unit bit, the
    motor duty only where it fits), a metric speed limit reads back as the same
    number of kilometres per hour, and no saturation occurs. *)
Theorem wheel_reports_decoded (p : BegodePackVoltageProfile) (r : WheelReport) :
  report_ok r -> report_decoded p r.
Proof.
  destruct r; simpl; intros H; destruct_and?.
  - by apply live_a_roundtrip.
  - split; [by apply live_b_roundtrip|]. intros He. unfold from_settings_bits.
    change 1 with (Z.ones 1). rewrite Z.land_ones by done. change (2 ^ 1) with 2.
    rewrite Zmod_even, He. simpl. by apply speed_kmh_rounds_back.
  - by apply extra_roundtrip.
  - by apply summary_roundtrip.
  - by apply cells_roundtrip.
Qed.
Lemma wheel_reports_decoded_witness :
  report_ok (WheelLiveA 6005 (-138) 190318 (-4229) (-2820) 5249 0 9) /\
  report_decoded Begode100VFullCharge (WheelLiveA 6005 (-138) 190318 (-4229) (-2820) 5249 0 9).
Proof.
  assert (H : report_ok (WheelLiveA 6005 (-138) 190318 (-4229) (-2820) 5249 0 9))
    by (simpl; int_lia).
  split; [exact H|]. exact (wheel_reports_decoded Begode100VFullCharge _ H).
Defined.

(** A report frame is accepted by the frame check when its bytes are bytes. *)
Lemma report_frame_valid r :
  report_ok r -> frame_spec (frame_bytes (report_frame r)).
Proof.
  assert (Hf : forall payload tag sub, length payload = 16%nat ->
            frame_spec (frame_bytes (wheel_frame payload tag sub))).
  { intros payload tag sub Hl. exists (payload ++ [tag; sub]). rewrite length_app, Hl.
    split; [done|]. simpl. by rewrite <- app_assoc. }
  destruct r as [| |? ? ? ? rest| |bank page cells]; unfold report_frame; intros H; simpl in H;
    destruct_and?; apply Hf; try done.
  - rewrite !length_app. by replace (length rest) with 8%nat.
  - match goal with Hl : length cells = _ |- _ => rename Hl into Hc end. clear -Hc.
    by destruct cells as [|c0 [|c1 [|c2 [|c3 [|c4 [|c5 [|c6 [|c7 [|]]]]]]]]].
Qed.

(** ** The battery level *)

Lemma begode_curve_ok : curve_ok begode_curve.
Proof. unfold begode_curve, level_from_percent. repeat (constructor; simpl; try lia). Qed.
Lemma wire_from_scaled_mono v v' s :
  0 < s -> 0 <= v <= v' -> wire_from_scaled_voltage v s <= wire_from_scaled_voltage v' s.
Proof.
  intros Hs Hv. unfold wire_from_scaled_voltage. rewrite !(bool_decide_false (s <= 0)) by lia.
  pose proof (Z.quot_pos s 2 ltac:(lia) ltac:(lia)).
  assert (Hm : (v * 100 + s ÷ 2) ÷ s <= (v' * 100 + s ÷ 2) ÷ s) by (apply Z.quot_le_mono; lia).
  assert (Hp : 0 <= (v * 100 + s ÷ 2) ÷ s) by (apply Z.quot_pos; lia).
  do 2 case_bool_decide; lia.
Qed.

(** The estimated charge of a pack is a percentage that never falls when
    the voltage rises, is 0 up to 51.2 V and 100 from 66.8 V on the 67.2 V
    scale of the wire that the profile's scaler stretches, for every voltage
    that is not negative. *)
Theorem battery_level_monotone (v v' : Z) (p : BegodePackVoltageProfile) :
  0 <= v <= v' ->
  0 <= estimate_begode_battery_level v p <= estimate_begode_battery_level v' p /\
  estimate_begode_battery_level v' p <= 100 /\
  (v' <= 51200 * scaler_milli p / 1000 -> estimate_begode_battery_level v' p = 0) /\
  (66800 * scaler_milli p / 1000 <= v -> estimate_begode_battery_level v p = 100).
Proof.
  intros Hv. assert (Hs : 0 < scaler_milli p) by (destruct p; simpl; lia).
  unfold estimate_begode_battery_level.
  pose proof (wire_from_scaled_mono v v' _ Hs Hv) as Hw.
  set (w := wire_from_scaled_voltage v _) in *. set (w' := wire_from_scaled_voltage v' _) in *.
  pose proof (piecewise_mono _ _ _ begode_curve_ok Hw).
  pose proof (piecewise_range w _ _ _ begode_curve_ok).
  pose proof (piecewise_range w' _ _ _ begode_curve_ok).
  fold begode_curve in *. change (level_from_percent 0) with 0 in *.
  split_ands; try lia; intros Hb.
  - apply piecewise_low. subst w'. destruct p; simpl in Hb |- *;
      unfold wire_from_scaled_voltage; simpl;
      case_bool_decide; div_lia.
  - assert (Hl : 6680 <= w).
    { subst w. destruct p; simpl in Hb |- *; unfold wire_from_scaled_voltage; simpl;
        case_bool_decide; div_lia. }
    pose proof (piecewise_mono _ _ _ begode_curve_ok Hl) as Hm.
    change (level_from_piecewise_linear 6680 begode_curve) with 100 in Hm. lia.
Qed.
Lemma battery_level_monotone_witness :
  estimate_begode_battery_level 90000 Begode100VFullCharge = 50 /\
  estimate_begode_battery_level 90000 Begode100VFullCharge <= 100.
Proof.
  destruct (battery_level_monotone 90000 100200 Begode100VFullCharge ltac:(lia)) as (H1 & H2 & _).
  split; [vm_compute; reflexivity|]. exact (Z.le_trans _ _ _ (proj2 H1) H2).
Defined.
(** A negative voltage, which no frame can produce, is shown as a full pack. *)
Example negative_voltage_reads_full : estimate_begode_battery_level (-1000) Begode84VFullCharge = 100.
Proof. reflexivity. Qed.

(** ** Numbers of the cells *)

Definition cell_number (bank page slot : Z) : Z :=
  bank * BEGODE_BMS_OBSERVATIONS_PER_BANK + page * BEGODE_BMS_CELL_VALUES_PER_PAGE + slot.
Lemma cell_numbers_distinct bank page slot bank' page' slot' :
  0 <= slot < 8 -> 0 <= slot' < 8 -> 0 <= page < 4 -> 0 <= page' < 4 ->
  cell_number bank page slot = cell_number bank' page' slot' ->
  bank = bank' /\ page = page' /\ slot = slot'.
Proof.
  unfold cell_number, BEGODE_BMS_OBSERVATIONS_PER_BANK, BEGODE_BMS_CELL_VALUES_PER_PAGE. lia.
Qed.
(** From the fifth page on the cells of the first bank take the numbers of the
    second: of sixteen reported cells eight are left. *)
Definition first_bank_fifth_page : BegodeFrame := cells_frame 0 4 (replicate 8 3900).
Definition second_bank_first_page : BegodeFrame := cells_frame 1 0 (replicate 8 4100).
Definition timed_page (f : BegodeFrame) : list BatteryReadback :=
  match cell_page_decode f with
  | Ok page => match cell_page_to_battery_response page with
               | RespBattery r => [with_observed_at r 0]
               | _ => []
               end
  | Err _ => []
  end.
Example fifth_page_overwritten :
  length (observations (observation_summary_of
    (timed_page first_bank_fifth_page ++ timed_page second_bank_first_page))) = 8%nat.
Proof. vm_compute. reflexivity. Qed.
