(* ===== verification/VeteranTelemetry.v ===== *)
(** * Veteran telemetry and battery pages

    [cutout-protocols/src/veteran_telemetry.rs]: the fixed header of a
    Veteran/LeaperKim/NOSFET frame, the models that a firmware word names, and
    what a frame reports.  [battery_profile.rs]: the voltage curve of a cell.
    [veteran_bms.rs]: the battery pages behind the header.  A frame that
    reaches these decoders has passed [VeteranFrame.try_from_slice]; a read
    outside of it is [None]. *)

From S2P Require Import Prelude.
From S2P Require Import Parser.
From S2P Require Import Quantities.
From S2P Require Import VeteranFrame.
From S2P Require Import Commands.
From S2P Require Import Telemetry.
From S2P Require Import Readback.

(** ** The curve of a cell *)

(** A point is a cell voltage in microvolts and a level in percent. *)
Record BatteryVoltageProfile := {
  cell_model : string;
  profile_capacity : Z;
  points : list (Z * Z);
}.
Definition estimate_level_from_cell_voltage (self : BatteryVoltageProfile) (cell_voltage : Z) : Z :=
  match head (points self) with
  | None => level_from_percent 0
  | Some (first_voltage, first_level) =>
      if bool_decide (cell_voltage <= first_voltage) then first_level
      else match piecewise_windows cell_voltage (points self) with
           | Some level => level
           | None => match last (points self) with
                     | Some (_, level) => level
                     | None => level_from_percent 0
                     end
           end
  end.
Definition estimate_level_from_pack_voltage (self : BatteryVoltageProfile) (pack_voltage series_cells : Z) : Z :=
  estimate_level_from_cell_voltage self (voltage_as_cell_voltage pack_voltage series_cells).
Definition SAMSUNG_50S_CELL_POINTS : list (Z * Z) :=
  [(3033333, level_from_percent 0); (3200000, level_from_percent 7); (3333333, level_from_percent 15);
   (3433333, level_from_percent 25); (3566667, level_from_percent 40); (3733333, level_from_percent 60);
   (3866667, level_from_percent 75); (4200000, level_from_percent 100)].
Definition SAMSUNG_50S_PROFILE : BatteryVoltageProfile :=
  {| cell_model := "Samsung 50S"; profile_capacity := 5000; points := SAMSUNG_50S_CELL_POINTS |}.

(** ** Battery pages *)

Definition VETERAN_BMS_CELL_VALUES_PER_PAGE : Z := 15.
Definition VETERAN_BMS_TEMPERATURE_VALUES_PER_PAGE : nat := 6.
Definition VETERAN_BMS_CELL_VALUES_OFFSET : nat := 53.
Definition VETERAN_BMS_TEMPERATURE_VALUES_OFFSET : nat := 47.
Definition VETERAN_BMS_PACK_CURRENT_VALUES_OFFSET : nat := 69.
Definition SELECTOR_OFFSET : nat := 46.
Definition CRC_TRAILER_LEN : nat := 4.
Definition BODY_OFFSET : nat := SELECTOR_OFFSET + 1.
Definition body_offset_from_frame_offset (offset : nat) : nat := offset - BODY_OFFSET.

(** The numbers of the first observation, of the pack, and of its first cell. *)
Definition veteran_observation_page_identity (selector : Z) : option (Z * Z * Z) :=
  let page :=
    if bool_decide (selector = 1) then Some (0, 0)
    else if bool_decide (selector = 2) then Some (0, 1)
    else if bool_decide (selector = 5) then Some (1, 0)
    else if bool_decide (selector = 6) then Some (1, 1)
    else None in
  '(pack_index, pack_page_ordinal) ← page;
  let pack_first := pack_page_ordinal * VETERAN_BMS_CELL_VALUES_PER_PAGE in
  Some (pack_index * 2 * VETERAN_BMS_CELL_VALUES_PER_PAGE + pack_first, pack_index, pack_first).
Definition classify_veteran_bms_selector (selector : Z) : BatteryPageKind :=
  if bool_decide (selector = 0) || bool_decide (selector = 4) then KindMetadata
  else if bool_decide (selector = 1) || bool_decide (selector = 2) || bool_decide (selector = 5)
          || bool_decide (selector = 6) then KindCellVoltage
  else if bool_decide (selector = 3) || bool_decide (selector = 7) then KindTemperature
  else KindRaw.

Record VeteranBmsPageEvidence := {
  ev_selector : Z;
  ev_kind : BatteryPageKind;
  ev_body : list Z;
}.
(** [usize::checked_sub]. *)
Definition checked_sub_nat (a b : nat) : option nat := if (b <=? a)%nat then Some (a - b)%nat else None.
Definition from_frame (frame : VeteranFrame) : option VeteranBmsPageEvidence :=
  selector ← byte (frame_bytes frame) SELECTOR_OFFSET;
  let body_start := (SELECTOR_OFFSET + 1)%nat in
  body_len ← checked_sub_nat (length (frame_bytes frame)) CRC_TRAILER_LEN ≫=
             (fun n => checked_sub_nat n body_start);
  body ← range (frame_bytes frame) body_start body_len;
  Some {| ev_selector := selector; ev_kind := classify_veteran_bms_selector selector; ev_body := body |}.

Inductive VeteranBmsPageError :=
| InvalidCellCount (selector observed expected : Z)
| PageBodyTooShort (selector : Z) (expected observed : nat)
| InvalidTemperaturePage (selector : Z)
| InvalidMetadataPage (selector : Z).
Record VeteranBmsCellPage := { cell_selector : Z; cell_voltage : list Z }.
Record VeteranBmsTemperaturePage := { temperature_selector : Z; page_temperatures : list Z }.
Record VeteranBmsMetadataPage := { metadata_selector : Z; currents : Z * Z }.

(** [body.get(offset..end)] as the documented values of a page. *)
Definition page_values (selector : Z) (body : list Z) (offset len : nat)
  : result (list Z) VeteranBmsPageError :=
  ok_or (get_range body offset len) (PageBodyTooShort selector (offset + len) (length body)).
(** The loop over [(0..values.len()).step_by(2)]. *)
Definition words {A} (read : list Z -> nat -> option A) (values : list Z) : list A :=
  omap (fun i => read values (2 * i)%nat) (seq 0 (Nat.div2 (length values + 1))).
Definition cell_page_from_body (selector : Z) (body : list Z) : result VeteranBmsCellPage VeteranBmsPageError :=
  match classify_veteran_bms_selector selector with
  | KindCellVoltage =>
      values <-? page_values selector body (body_offset_from_frame_offset VETERAN_BMS_CELL_VALUES_OFFSET)
                   (Z.to_nat VETERAN_BMS_CELL_VALUES_PER_PAGE * 2);
      Ok {| cell_selector := selector; cell_voltage := words be_u16 values |}
  | _ => Err (InvalidCellCount selector 0 VETERAN_BMS_CELL_VALUES_PER_PAGE)
  end.
Definition temperature_page_from_body (selector : Z) (body : list Z)
  : result VeteranBmsTemperaturePage VeteranBmsPageError :=
  if negb (bool_decide (selector = 3)) && negb (bool_decide (selector = 7))
  then Err (InvalidTemperaturePage selector)
  else
    values <-? page_values selector body (body_offset_from_frame_offset VETERAN_BMS_TEMPERATURE_VALUES_OFFSET)
                 (VETERAN_BMS_TEMPERATURE_VALUES_PER_PAGE * 2);
    Ok {| temperature_selector := selector;
          page_temperatures := temperature_from_centi_celsius <$> words be_i16 values |}.
(** [ReportedBatteryCurrent::from_centiamps]. *)
Definition reported_current_from_centiamps (value : Z) : Z := sat_mul_i32 value 10.
Definition metadata_page_from_body (selector : Z) (body : list Z)
  : result VeteranBmsMetadataPage VeteranBmsPageError :=
  if negb (bool_decide (selector = 0) || bool_decide (selector = 4))
  then Err (InvalidMetadataPage selector)
  else
    values <-? page_values selector body (body_offset_from_frame_offset VETERAN_BMS_PACK_CURRENT_VALUES_OFFSET) 4;
    Ok {| metadata_selector := selector;
          currents := (reported_current_from_centiamps (default 0 (be_i16 values 0)),
                       reported_current_from_centiamps (default 0 (be_i16 values 2))) |}.
Definition decode_veteran_bms_page (selector : Z) (cells : list Z) (battery : BatteryInfo)
    (verification : VerificationStatus) : result BatteryReadback VeteranBmsPageError :=
  let kind := classify_veteran_bms_selector selector in
  let from_page :=
    Ok (readback_available (payload_from_page (metadata_new selector kind verification) battery)) in
  match kind with
  | KindCellVoltage =>
      let observed := Z.min u8_max (Z.of_nat (length cells)) in
      if negb (bool_decide (observed = VETERAN_BMS_CELL_VALUES_PER_PAGE))
      then Err (InvalidCellCount selector observed VETERAN_BMS_CELL_VALUES_PER_PAGE)
      else
        match veteran_observation_page_identity selector with
        | None => from_page
        | Some (first, pack, pack_first) =>
            Ok (with_observation_pack
                  (with_first_observation_index
                     (readback_available
                        (payload_cell_voltage (metadata_cell_voltage selector verification) battery cells))
                     first) pack pack_first)
        end
  | _ => from_page
  end.

(** [session.rs]: what a page says. *)
Definition veteran_bms_cell_payload (page : VeteranBmsCellPage) : option BatteryReadback :=
  match decode_veteran_bms_page (cell_selector page) (cell_voltage page) default_battery_info HardwareVerified with
  | Ok readback => Some readback
  | Err _ => None
  end.
Definition veteran_bms_temperature_payload (page : VeteranBmsTemperaturePage) : BatteryPagePayload :=
  let first_temperature := default 0 (head (page_temperatures page)) in
  payload_temperature_values (metadata_temperature (temperature_selector page) HardwareVerified)
    {| bi_voltage := None; bi_current := None; level_reported := None; level_estimated := None;
       bi_temperature := Some (reported first_temperature); raw_state := None |}
    (((fun t => Some (reported t)) <$> take BATTERY_TEMPERATURE_VALUES_PER_PAGE (page_temperatures page))
     ++ replicate (BATTERY_TEMPERATURE_VALUES_PER_PAGE - length (page_temperatures page)) None).
Definition veteran_bms_metadata_payload (page : VeteranBmsMetadataPage) : BatteryPagePayload :=
  with_bms_pack_currents
    (payload_raw (metadata_metadata (metadata_selector page) HardwareVerified) default_battery_info)
    (pack_currents_reported (normalize (fst (currents page)) PolarityUnknown)
       (normalize (snd (currents page)) PolarityUnknown)).
Definition ok {A E} (r : result A E) : option A := match r with Ok x => Some x | Err _ => None end.
Definition veteran_bms_readback (evidence : VeteranBmsPageEvidence) : option BatteryReadback :=
  match ev_kind evidence with
  | KindTemperature =>
      (fun p => readback_available (veteran_bms_temperature_payload p)) <$>
        ok (temperature_page_from_body (ev_selector evidence) (ev_body evidence))
  | KindMetadata =>
      (fun p => readback_available (veteran_bms_metadata_payload p)) <$>
        ok (metadata_page_from_body (ev_selector evidence) (ev_body evidence))
  | _ => ok (cell_page_from_body (ev_selector evidence) (ev_body evidence)) ≫= veteran_bms_cell_payload
  end.

(** ** Models *)

Definition NOSFET_AERO_MIN_VOLTAGE : Z := 91000.
Definition NOSFET_AERO_MAX_VOLTAGE : Z := 126000.
Record BmsPageSelectorSpec := {
  ps_selector : Z;
  ps_kind : BatteryPageKind;
  ps_verification : VerificationStatus;
}.
Record BmsLayoutSpec := {
  layout_series_cells : Z;
  layout_parallel_packs : Z;
  cell_values_per_page : Z;
  temperature_values_per_page : Z;
  selectors : list BmsPageSelectorSpec;
  layout_verification : VerificationStatus;
}.
Definition bms_page_selector (selector : Z) : BmsPageSelectorSpec :=
  {| ps_selector := selector; ps_kind := classify_veteran_bms_selector selector;
     ps_verification := SourceVerified |}.
Definition VETERAN_BMS_SELECTORS : list BmsPageSelectorSpec :=
  bms_page_selector <$> [0; 1; 2; 3; 4; 5; 6; 7; 8].
Definition veteran_bms_layout (series_cells parallel_packs : Z) : BmsLayoutSpec :=
  {| layout_series_cells := series_cells; layout_parallel_packs := parallel_packs;
     cell_values_per_page := VETERAN_BMS_CELL_VALUES_PER_PAGE; temperature_values_per_page := 6;
     selectors := VETERAN_BMS_SELECTORS; layout_verification := VerificationInferred |}.
Definition bms_layout_for_geometry (series_cells parallel_packs : Z) : option BmsLayoutSpec :=
  if bool_decide ((series_cells, parallel_packs) ∈ [(30, 2); (36, 2); (36, 4); (36, 6); (42, 6)])
  then Some (veteran_bms_layout series_cells parallel_packs) else None.

(** A set of the bits 1 (duty readback), 2 (battery pages), 4 (binary horn). *)
Definition capabilities_new (has_pwm_readback has_smart_bms requires_binary_horn : bool) : Z :=
  Z.lor (Z.lor (if has_pwm_readback then 1 else 0) (if has_smart_bms then 2 else 0))
    (if requires_binary_horn then 4 else 0).
Definition has_pwm_readback (self : Z) : bool := negb (bool_decide (Z.land self 1 = 0)).
Definition has_smart_bms (self : Z) : bool := negb (bool_decide (Z.land self 2 = 0)).
Definition requires_binary_horn (self : Z) : bool := negb (bool_decide (Z.land self 4 = 0)).

Record VeteranModelProfile := {
  model_id : Z;
  name : string;
  series_cells : Z;
  parallel_packs : Z;
  nominal_capacity : option Z;
  battery_profile : option BatteryVoltageProfile;
  voltage_range : Z * Z;
  capabilities : Z;
  bms_layout : option BmsLayoutSpec;
  observed_app_odometer_offset : option Z;
}.
#[global] Instance eta_profile : Eta VeteranModelProfile := fun r =>
  Build_VeteranModelProfile (model_id r) (name r) (series_cells r) (parallel_packs r) (nominal_capacity r)
    (battery_profile r) (voltage_range r) (capabilities r) (bms_layout r) (observed_app_odometer_offset r).
Definition model_capabilities (raw_model_id : Z) : Z :=
  capabilities_new (bool_decide (2 <= raw_model_id))
    (bool_decide (5 <= raw_model_id) ||
     bool_decide (raw_model_id = 4 \/ raw_model_id = 7 \/ 42 <= raw_model_id <= 44))
    (bool_decide (3 <= raw_model_id)).
Definition new_linear (model_id : Z) (name : string) (series_cells : Z) (range : Z * Z) : VeteranModelProfile :=
  {| model_id := model_id; name := name; series_cells := series_cells; parallel_packs := 1;
     nominal_capacity := None; battery_profile := None; voltage_range := range;
     capabilities := model_capabilities model_id; bms_layout := None;
     observed_app_odometer_offset := None |}.
Definition battery_profile_pack_range (profile : BatteryVoltageProfile) (series_cells : Z) : Z * Z :=
  let start := match head (points profile) with
               | Some point => voltage_from_cell_voltage point.1 series_cells | None => 0 end in
  (start, match last (points profile) with
          | Some point => voltage_from_cell_voltage point.1 series_cells | None => start end).
Definition new_with_battery_profile (model_id : Z) (name : string) (series_cells parallel_packs : Z)
    (profile : BatteryVoltageProfile) : VeteranModelProfile :=
  {| model_id := model_id; name := name; series_cells := series_cells; parallel_packs := parallel_packs;
     nominal_capacity := Some (sat_mul u32_max (profile_capacity profile) parallel_packs);
     battery_profile := Some profile; voltage_range := battery_profile_pack_range profile series_cells;
     capabilities := model_capabilities model_id;
     bms_layout := bms_layout_for_geometry series_cells parallel_packs;
     observed_app_odometer_offset := None |}.
Definition with_observed_app_odometer_offset (self : VeteranModelProfile) (offset : Z) : VeteranModelProfile :=
  self <| observed_app_odometer_offset := Some offset |>.
Definition from_model_id (raw_model_id : Z) : option VeteranModelProfile :=
  let linear name := Some (new_linear raw_model_id name 24 (79350, 98700)) in
  let samsung name series parallel :=
    new_with_battery_profile raw_model_id name series parallel SAMSUNG_50S_PROFILE in
  if bool_decide (raw_model_id = 0) || bool_decide (raw_model_id = 1) then linear "Veteran Sherman"
  else if bool_decide (raw_model_id = 2) then linear "Veteran Abrams"
  else if bool_decide (raw_model_id = 3) then linear "Veteran Sherman S"
  else if bool_decide (raw_model_id = 4) then Some (samsung "Veteran Patton" 30 2)
  else if bool_decide (raw_model_id = 5) then Some (samsung "Veteran Lynx" 36 4)
  else if bool_decide (raw_model_id = 6) then Some (samsung "Veteran Sherman L" 36 6)
  else if bool_decide (raw_model_id = 7) then Some (samsung "Veteran Patton S" 30 2)
  else if bool_decide (raw_model_id = 8) then Some (samsung "Veteran Oryx" 42 6)
  else if bool_decide (raw_model_id = 9) then Some (samsung "Veteran Lynx S" 36 4)
  else if bool_decide (raw_model_id = 42) then Some (samsung "NOSFET Apex" 36 4)
  else if bool_decide (raw_model_id = 43)
  then Some (with_observed_app_odometer_offset (samsung "NOSFET Aero" 30 2) (distance_offset_from_metres 805))
  else if bool_decide (raw_model_id = 44) then Some (samsung "NOSFET Aeon" 36 2)
  else None.
Definition estimate_battery_level (self : VeteranModelProfile) (voltage : Z) : Z :=
  match battery_profile self with
  | Some profile => estimate_level_from_pack_voltage profile voltage (series_cells self)
  | None =>
      let '(start, end_) := voltage_range self in
      if bool_decide (voltage <= start) then level_from_percent 0
      else if bool_decide (end_ <= voltage) then level_from_percent 100
      else
        let numerator := (voltage - start) * 100 in
        let denominator := end_ - start in
        level_from_percent_i32 ((numerator + denominator ÷ 2) ÷ denominator)
  end.
Definition estimate_veteran_battery_level (model_id voltage : Z) : Z :=
  match from_model_id model_id with
  | None => level_from_percent 0
  | Some profile => estimate_battery_level profile voltage
  end.
Definition estimate_nosfet_aero_battery_level (voltage : Z) : Z := estimate_veteran_battery_level 43 voltage.

(** ** The header *)

Inductive VeteranTelemetryError := FrameTooShort.
Record VeteranFirmwareVersion := {
  raw_version : Z;
  fw_model_id : Z;
  minor : Z;
  revision : Z;
}.
Definition from_raw (raw_version : Z) : VeteranFirmwareVersion :=
  {| raw_version := raw_version; fw_model_id := raw_version / 1000;
     minor := raw_version mod 1000 / 100; revision := raw_version mod 100 |}.
Record VeteranTelemetry := {
  firmware : VeteranFirmwareVersion;
  voltage : Z;
  speed : Z;
  trip_distance : Z;
  total_distance : Z;
  battery_current : Z;
  mosfet_temperature : Z;
  auto_shutdown_time_remaining : Z;
  charge_mode : Quantities.ChargeMode;
  speed_alert : Z;
  speed_tiltback : Z;
  pedals_mode : Z;
  pitch : Z;
  hardware_pwm : Z;
  battery_level_estimated : Z;
}.
Definition charge_mode_from_veteran_field (value : Z) : Quantities.ChargeMode :=
  charge_from_active (negb (bool_decide (value = 0))).
Definition veteran_charge_mode_field (mode : Quantities.ChargeMode) : Z := if charge_is_active mode then 1 else 0.
(** [Angle::from_centi_degrees]. *)
Definition angle_from_centi_degrees (value : Z) : Z := sat_mul_i32 value 10.
Definition veteran_hardware_pwm (model_id raw : Z) : Z :=
  if bool_decide (model_id = 43) then duty_from_decipermille (to_signed 65536 raw)
  else duty_from_centered_pwm raw.
Definition read_field {A} (o : option A) : result A VeteranTelemetryError := ok_or o FrameTooShort.
Definition decode (frame : VeteranFrame) : result VeteranTelemetry VeteranTelemetryError :=
  let cursor := frame_bytes frame in
  raw_version <-? read_field (be_u16 cursor 28);
  let firmware := from_raw raw_version in
  voltage <-? read_field (be_u16 cursor 4);
  let voltage := voltage_from_centivolts voltage in
  charge_mode <-? read_field (be_u16 cursor 22);
  speed <-? read_field (be_i16 cursor 6);
  trip <-? read_field (veteran_swapped_u32 cursor 8);
  total <-? read_field (veteran_swapped_u32 cursor 12);
  battery_current <-? read_field (be_i16 cursor 16);
  mosfet_temperature <-? read_field (be_i16 cursor 18);
  auto_shutdown <-? read_field (be_u16 cursor 20);
  speed_alert <-? read_field (be_u16 cursor 24);
  speed_tiltback <-? read_field (be_u16 cursor 26);
  pedals_mode <-? read_field (be_u16 cursor 30);
  pitch <-? read_field (be_i16 cursor 32);
  pwm <-? read_field (be_u16 cursor 34);
  Ok {| firmware := firmware; voltage := voltage; speed := speed_from_deci_kmh speed;
        trip_distance := distance_from_metres trip; total_distance := distance_from_metres total;
        battery_current := reported_current_from_centiamps battery_current;
        mosfet_temperature := temperature_from_centi_celsius mosfet_temperature;
        auto_shutdown_time_remaining := duration_from_seconds auto_shutdown;
        charge_mode := charge_mode_from_veteran_field charge_mode;
        speed_alert := speed_from_deci_kmh speed_alert;
        speed_tiltback := speed_from_deci_kmh speed_tiltback; pedals_mode := pedals_mode;
        pitch := angle_from_centi_degrees pitch;
        hardware_pwm := veteran_hardware_pwm (fw_model_id firmware) pwm;
        battery_level_estimated := estimate_veteran_battery_level (fw_model_id firmware) voltage |}.

(** ** What a frame reports *)

(** [Power::from_pack_voltage_current]. *)
Definition power_from_pack_voltage_current (voltage : Z) (current : BatteryCurrent) : option Z :=
  signed ← match current with
           | CurrentZero => Some 0
           | CurrentOut value => Some value
           | CurrentIn value => Some (- value)
           | CurrentUnknown _ => None
           end;
  Some (saturating_i128_to_i64 ((voltage * signed) ÷ 1000)).
Definition to_delta (self : VeteranTelemetry) (at_ms : Z) : TelemetryDelta :=
  let battery_current := normalize (battery_current self) PolarityUnknown in
  let power := power_from_pack_voltage_current (voltage self) battery_current in
  delta_empty at_ms
    <| d_speed := Some (reported (speed self)) |>
    <| d_voltage := Some (reported (voltage self)) |>
    <| d_battery_current := Some (reported battery_current) |>
    <| d_charge_mode := Some (reported (charge_mode self)) |>
    <| d_power := calculated <$> power |>
    <| d_controller_temperature := Some (reported (mosfet_temperature self)) |>
    <| d_pwm := FieldSet (reported (hardware_pwm self)) |>
    <| d_distance := Some (reported (total_distance self)) |>
    <| d_trip_distance := Some (reported (trip_distance self)) |>
    <| d_pitch := Some (reported (pitch self)) |>
    <| d_battery_level_estimated := FieldSet (estimated (battery_level_estimated self)) |>.

Definition AERO_FIELD_PEDAL_HARDNESS_PERCENT : Z := 0x0832.
Definition AERO_FIELD_LATERAL_TILT_LIMIT_DEGREES : Z := 0x022f.
Definition AERO_FIELD_PWM_PERCENT : Z := 0x0835.
Definition AERO_FIELD_WHEEL_UNITS : Z := 0x083a.
Definition AERO_FIELD_DISPLAY_BACKLIGHT_PERCENT : Z := 0x0837.
Definition AERO_FIELD_TRANSPORT_MODE : Z := 0x0839.
Definition AERO_FIELD_GYRO_CALIBRATION_STATE : Z := 0x0838.
Definition AERO_FIELD_VOLTAGE_CORRECTION_TENTHS_PERCENT : Z := 0x083b.
Definition AERO_FIELD_LOW_BATTERY_MODE : Z := 0x083c.
Definition AERO_FIELD_HIGH_SPEED_MODE : Z := 0x083d.
Definition AERO_FIELD_BEEPER_VOLUME_PERCENT : Z := 0x083f.
Definition AERO_FIELD_MAX_CHARGE_VOLTAGE_RAW : Z := 0x0840.
Definition AERO_FIELD_DYNAMIC_ASSIST_PERCENT : Z := 0x0842.
Definition AERO_FIELD_PEDAL_DIP_COMPENSATION_PERCENT : Z := 0x0844.
Definition AERO_FIELD_BRAKE_OVERPRESSURE_ALARM_PERCENT : Z := 0x0841.
Definition VETERAN_FIELD_FIRMWARE_VERSION : Z := 0x001c.
Definition VETERAN_FIELD_AUTO_SHUTDOWN_TIME_REMAINING_SECONDS : Z := 0x0014.
Definition VETERAN_FIELD_CHARGE_MODE : Z := 0x0016.
Definition VETERAN_FIELD_SPEED_ALERT_DECI_KMH : Z := 0x0018.
Definition VETERAN_FIELD_SPEED_TILTBACK_DECI_KMH : Z := 0x001a.
Definition VETERAN_FIELD_PEDALS_MODE : Z := 0x001e.

Definition entry_of (id value : Z) (verification : VerificationStatus) : SettingsEntry :=
  {| se_field := {| rf_id := id; rf_value := value |}; se_source := Reported; se_quality := Known;
     se_verification := verification |}.
Definition settings_entry (id value : Z) : SettingsEntry := entry_of id value HardwareVerified.
Definition to_firmware_response (self : VeteranTelemetry) : ReadOnlyResponse :=
  RespFirmware
    {| protocol_version := None;
       firmware_major := Some (reported (fw_model_id (firmware self)));
       firmware_minor := Some (reported (minor (firmware self)));
       firmware_patch := Some (reported (revision (firmware self)));
       build_id := Some {| rf_id := VETERAN_FIELD_FIRMWARE_VERSION; rf_value := raw_version (firmware self) |} |}.
Definition to_settings_responses (self : VeteranTelemetry) : list ReadOnlyResponse :=
  [RespSettings (settings_available
     [Some (settings_entry VETERAN_FIELD_AUTO_SHUTDOWN_TIME_REMAINING_SECONDS
              (Z.min i64_max (duration_as_seconds (auto_shutdown_time_remaining self))));
      Some (settings_entry VETERAN_FIELD_CHARGE_MODE (veteran_charge_mode_field (charge_mode self)));
      Some (settings_entry VETERAN_FIELD_SPEED_ALERT_DECI_KMH
              (speed_as_deci_kmh_rounded (speed_alert self)));
      Some (settings_entry VETERAN_FIELD_SPEED_TILTBACK_DECI_KMH
              (speed_as_deci_kmh_rounded (speed_tiltback self)))]);
   RespSettings (settings_available
     [Some (settings_entry VETERAN_FIELD_PEDALS_MODE (pedals_mode self)); None; None; None])].
(** The entries of an Aero settings page. *)
Definition raw_entry (body : list Z) (offset : nat) (field_id : Z) : option SettingsEntry :=
  value ← body !! offset; Some (entry_of field_id value SourceVerified).
Definition signed_entry (body : list Z) (offset : nat) (field_id : Z) : option SettingsEntry :=
  value ← body !! offset; Some (entry_of field_id (to_signed 256 value) SourceVerified).
Definition to_aero_settings_page_response (self : VeteranTelemetry) (frame : VeteranFrame)
  : option ReadOnlyResponse :=
  if negb (bool_decide (fw_model_id (firmware self) = 43)) then None
  else
    let bytes := frame_bytes frame in
    body_len ← checked_sub_nat (length bytes) 4;
    body ← get_range bytes 0 body_len;
    if bool_decide (body !! 46%nat = Some 2) then
      value ← body !! 47%nat;
      Some (RespSettings (settings_available
        (Some (entry_of AERO_FIELD_LATERAL_TILT_LIMIT_DEGREES value SourceVerified) :: replicate 15 None)))
    else if negb (bool_decide (body !! 46%nat = Some 8)) then None
    else Some (RespSettings (settings_available
      [raw_entry body 50 AERO_FIELD_PEDAL_HARDNESS_PERCENT;
       raw_entry body 53 AERO_FIELD_PWM_PERCENT;
       raw_entry body 55 AERO_FIELD_DISPLAY_BACKLIGHT_PERCENT;
       raw_entry body 56 AERO_FIELD_GYRO_CALIBRATION_STATE;
       raw_entry body 57 AERO_FIELD_TRANSPORT_MODE;
       raw_entry body 58 AERO_FIELD_WHEEL_UNITS;
       signed_entry body 59 AERO_FIELD_VOLTAGE_CORRECTION_TENTHS_PERCENT;
       raw_entry body 60 AERO_FIELD_LOW_BATTERY_MODE;
       raw_entry body 61 AERO_FIELD_HIGH_SPEED_MODE;
       raw_entry body 63 AERO_FIELD_BEEPER_VOLUME_PERCENT;
       raw_entry body 64 AERO_FIELD_MAX_CHARGE_VOLTAGE_RAW;
       raw_entry body 66 AERO_FIELD_DYNAMIC_ASSIST_PERCENT;
       raw_entry body 68 AERO_FIELD_PEDAL_DIP_COMPENSATION_PERCENT;
       raw_entry body 65 AERO_FIELD_BRAKE_OVERPRESSURE_ALARM_PERCENT;
       None; None; None; None])).

(** The hardware capture of the source's tests. *)
Definition live_aero_bytes : list Z :=
  [0xdc; 0x5a; 0x5c; 0x53; 0x2a; 0x7c; 0x00; 0x00; 0x00; 0x00; 0x00; 0x00; 0xab; 0x41; 0x00; 0x17; 0x00; 0x00;
   0x0c; 0xff; 0x00; 0x00; 0x00; 0x00; 0x02; 0x26; 0x02; 0x1c; 0xa8; 0xf6; 0x07; 0x80; 0x1a; 0xfa; 0x00; 0x00;
   0x80; 0xc8; 0x00; 0x00; 0x80; 0x80; 0x80; 0x80; 0x80; 0x80; 0x02; 0x28; 0x80; 0x88; 0x03; 0x08; 0x08; 0x0e;
   0x31; 0x0e; 0x31; 0x0e; 0x2f; 0x0e; 0x2f; 0x0e; 0x30; 0x0e; 0x2a; 0x0e; 0x32; 0x0e; 0x2e; 0x0e; 0x30; 0x0e;
   0x31; 0x0e; 0x30; 0x0e; 0x2d; 0x0e; 0x2f; 0x0e; 0x31; 0x0e; 0x2e; 0x9e; 0x05; 0xe3; 0xad].
Example live_aero_frame :
  match decode {| frame_bytes := live_aero_bytes |} with
  | Ok t => voltage t = 108760 /\ total_distance t = 1551169000 /\ fw_model_id (firmware t) = 43 /\
            battery_level_estimated t = 47
  | Err _ => False
  end /\
  match from_frame {| frame_bytes := live_aero_bytes |} with
  | Some e => ev_kind e = KindCellVoltage /\
      match veteran_bms_readback e with Some r => first_observation_index r = Some 15 | None => False end
  | None => False
  end.
Proof. vm_compute. auto 10. Qed.

(** ** What a wheel sends

    The reference encoder of the header, its fields in the units of the wire. *)

Definition swapped_bytes (v : Z) : list Z :=
  [v / 256 mod 256; v mod 256; v / 16777216 mod 256; v / 65536 mod 256].
Record WheelHeader := {
  h_voltage : Z; h_speed : Z; h_trip : Z; h_total : Z; h_current : Z; h_temperature : Z;
  h_shutdown : Z; h_charge : Z; h_alert : Z; h_tiltback : Z; h_version : Z; h_pedals : Z;
  h_pitch : Z; h_pwm : Z;
}.
Definition header_bytes (len : Z) (h : WheelHeader) : list Z :=
  VETERAN_MAGIC ++ len :: be16_bytes (h_voltage h) ++ be16_bytes (h_speed h) ++
  swapped_bytes (h_trip h) ++ swapped_bytes (h_total h) ++ be16_bytes (h_current h) ++
  be16_bytes (h_temperature h) ++ be16_bytes (h_shutdown h) ++ be16_bytes (h_charge h) ++
  be16_bytes (h_alert h) ++ be16_bytes (h_tiltback h) ++ be16_bytes (h_version h) ++
  be16_bytes (h_pedals h) ++ be16_bytes (h_pitch h) ++ be16_bytes (h_pwm h).
Definition header_ok (h : WheelHeader) : Prop :=
  Forall (in_u u16_max) [h_voltage h; h_shutdown h; h_charge h; h_alert h; h_tiltback h; h_version h;
                         h_pedals h; h_pwm h] /\
  Forall (in_i i16_min i16_max) [h_speed h; h_current h; h_temperature h; h_pitch h] /\
  Forall (in_u u32_max) [h_trip h; h_total h].
Definition header_decoded (h : WheelHeader) : VeteranTelemetry :=
  let model := h_version h / 1000 in
  {| firmware := {| raw_version := h_version h; fw_model_id := model;
                    minor := h_version h mod 1000 / 100; revision := h_version h mod 100 |};
     voltage := h_voltage h * 10; speed := (h_speed h * 500) ÷ 18;
     trip_distance := h_trip h * 1000; total_distance := h_total h * 1000;
     battery_current := h_current h * 10; mosfet_temperature := h_temperature h * 10;
     auto_shutdown_time_remaining := h_shutdown h * 1000;
     charge_mode := if bool_decide (h_charge h = 0) then NotCharging else Charging;
     speed_alert := (h_alert h * 500) ÷ 18; speed_tiltback := (h_tiltback h * 500) ÷ 18;
     pedals_mode := h_pedals h; pitch := h_pitch h * 10;
     hardware_pwm := veteran_hardware_pwm model (h_pwm h);
     battery_level_estimated := estimate_veteran_battery_level model (h_voltage h * 10) |}.
(** The settings of the header, in the units of the wire. *)
Definition header_settings (h : WheelHeader) : list ReadOnlyResponse :=
  [RespSettings (settings_available
     [Some (settings_entry VETERAN_FIELD_AUTO_SHUTDOWN_TIME_REMAINING_SECONDS (h_shutdown h));
      Some (settings_entry VETERAN_FIELD_CHARGE_MODE (if bool_decide (h_charge h = 0) then 0 else 1));
      Some (settings_entry VETERAN_FIELD_SPEED_ALERT_DECI_KMH (h_alert h));
      Some (settings_entry VETERAN_FIELD_SPEED_TILTBACK_DECI_KMH (h_tiltback h))]);
   RespSettings (settings_available
     [Some (settings_entry VETERAN_FIELD_PEDALS_MODE (h_pedals h)); None; None; None])].

Lemma swapped_bytes_u v : in_u u32_max v ->
  Z.lor (Z.lor (Z.lor (Z.shiftl (v / 16777216 mod 256) 24) (Z.shiftl (v / 65536 mod 256) 16))
           (Z.shiftl (v / 256 mod 256) 8)) (v mod 256) = v.
Proof.
  intros Hv. rewrite <- (be32_bytes_u v Hv) at 5. unfold be32. by rewrite <- !Z.lor_assoc.
Qed.
Lemma speed_from_deci_kmh_i16 v : -65536 <= v <= 65535 -> speed_from_deci_kmh v = (v * 500) ÷ 18.
Proof.
  intros Hv. unfold speed_from_deci_kmh, speed_from_milli_kmh.
  rewrite (sat_mul_i32_id v) by int_lia. rewrite sat_mul_i32_id by int_lia. f_equal. lia.
Qed.
Lemma speed_deci_kmh_rounds_back v :
  in_u u16_max v -> speed_as_deci_kmh_rounded ((v * 500) ÷ 18) = v.
Proof.
  intros Hv. unfold in_u, u16_max in Hv. unfold speed_as_deci_kmh_rounded.
  rewrite (Z.quot_div_nonneg (v * 500)) by lia.
  rewrite bool_decide_true by div_lia. rewrite Z.quot_div_nonneg by div_lia. div_lia.
Qed.
Ltac header_read :=
  unfold header_bytes, be16_bytes, swapped_bytes, read_field, ok_or;
  cbn -[veteran_hardware_pwm estimate_veteran_battery_level speed_from_deci_kmh voltage_from_centivolts
        distance_from_metres reported_current_from_centiamps temperature_from_centi_celsius
        duration_from_seconds charge_mode_from_veteran_field angle_from_centi_degrees from_raw
        to_signed be16 be32 Z.modulo Z.div Z.mul Z.quot Z.add Z.lor Z.shiftl].
Lemma header_roundtrip len h tail :
  header_ok h -> decode {| frame_bytes := header_bytes len h ++ tail |} = Ok (header_decoded h).
Proof.
  intros (Hu & Hi & Hl). repeat (apply Forall_cons in Hu as [? Hu]).
  repeat (apply Forall_cons in Hi as [? Hi]). repeat (apply Forall_cons in Hl as [? Hl]).
  unfold decode. destruct h as [v sp tr to cu te sh ch al ti ve pe pi pw]. simpl in *.
  header_read. rewrite !swapped_bytes_u, !be16_bytes_i, !be16_bytes_u by assumption.
  f_equal. unfold header_decoded, from_raw. simpl.
  unfold voltage_from_centivolts, distance_from_metres, reported_current_from_centiamps,
    temperature_from_centi_celsius, duration_from_seconds, charge_mode_from_veteran_field,
    angle_from_centi_degrees, charge_from_active.
  rewrite !sat_mul_i32_id, !speed_from_deci_kmh_i16 by int_lia.
  f_equal; try int_lia. by case_bool_decide.
Qed.

(** What a wheel puts into the header of a frame is what is read: each
    field comes back converted exactly to milliunits, whatever follows the
    header, the settings it reports are the numbers the wheel sent (a
    threshold in tenths of a kilometre per hour survives the conversion to
    millimetres per second and back), and the firmware response carries the
    version word whole. *)
Theorem veteran_header_decoded (len : Z) (h : WheelHeader) (tail : list Z) :
  header_ok h ->
  let frame := {| frame_bytes := header_bytes len h ++ tail |} in
  decode frame = Ok (header_decoded h) /\
  to_settings_responses (header_decoded h) = header_settings h /\
  to_firmware_response (header_decoded h) =
    RespFirmware {| protocol_version := None; firmware_major := Some (reported (h_version h / 1000));
      firmware_minor := Some (reported (h_version h mod 1000 / 100));
      firmware_patch := Some (reported (h_version h mod 100));
      build_id := Some {| rf_id := VETERAN_FIELD_FIRMWARE_VERSION; rf_value := h_version h |} |}.
Proof.
  intros Hh. split; [by apply header_roundtrip|]. split; [|done].
  destruct Hh as (Hu & _ & _). unfold to_settings_responses, header_settings, header_decoded. simpl.
  repeat (apply Forall_cons in Hu as [? Hu]). rewrite !speed_deci_kmh_rounds_back by done.
  repeat f_equal; [|by case_bool_decide].
  unfold duration_as_seconds. rewrite Z.quot_mul by lia. int_lia.
Qed.

(** A frame is decoded exactly when it holds the whole header. *)
Lemma decode_ok_iff frame :
  is_ok (decode frame) = bool_decide (36 <= length (frame_bytes frame))%nat.
Proof.
  assert (Hr : forall A (o : option A), is_ok (read_field o) = bool_decide (is_Some o))
    by (intros A [|]; [by rewrite bool_decide_true by eauto|by rewrite bool_decide_false by (by intros [? ?])]).
  set (bytes := frame_bytes frame).
  case_bool_decide as Hl.
  - unfold decode. fold bytes.
    assert (H16 : forall o, (o <= 34)%nat -> exists v, be_u16 bytes o = Some v)
      by (intros o Ho; apply be_u16_is_Some; lia).
    assert (Hi16 : forall o, (o <= 34)%nat -> exists v, be_i16 bytes o = Some v)
      by (intros o Ho; destruct (H16 o Ho) as [v Hv]; unfold be_i16; rewrite Hv; by eexists).
    assert (H32 : forall o, (o <= 32)%nat -> exists v, veteran_swapped_u32 bytes o = Some v).
    { intros o Ho. unfold veteran_swapped_u32, range, get_range. rewrite (proj2 (Nat.leb_le _ _)) by lia.
      simpl. assert (Hn : length (take 4 (drop o bytes)) = 4%nat) by (rewrite length_take, length_drop; lia).
      destruct (take 4 (drop o bytes)) as [|b0 [|b1 [|b2 [|b3 [|]]]]]; try done. by eexists. }
    repeat match goal with
      | |- context [be_u16 bytes ?o] => destruct (H16 o ltac:(lia)) as [? ->]
      | |- context [be_i16 bytes ?o] => destruct (Hi16 o ltac:(lia)) as [? ->]
      | |- context [veteran_swapped_u32 bytes ?o] => destruct (H32 o ltac:(lia)) as [? ->]
      end. done.
  - destruct (decode frame) as [t|] eqn:E; [|done]. exfalso. unfold decode in E. fold bytes in E.
    repeat (apply result_bind_Ok in E as (? & ? & E)).
    match goal with H : read_field (be_u16 bytes 34) = Ok _ |- _ => apply ok_or_Ok in H; rename H into Hp end.
    assert (Hs : is_Some (be_u16 bytes 34)) by eauto. apply be_u16_is_Some in Hs. lia.
Qed.

(** *** Battery pages *)

Lemma omap_all {A B} (f : A -> option B) (l : list A) (ys : list B) : f <$> l = Some <$> ys -> omap f l = ys.
Proof.
  revert ys. induction l as [|x l IH]; intros [|y ys] H; try done.
  cbn [fmap list_fmap] in H. injection H as Hx H. cbn. rewrite Hx. f_equal. by apply IH.
Qed.
Section Words.
Context {A : Type} (read : list Z -> nat -> option A) (write : A -> list Z) (value_ok : A -> Prop).
Context (Hlen : forall v, length (write v) = 2%nat).
Context (Hread : forall pre v post, value_ok v -> read (pre ++ write v ++ post) (length pre) = Some v).

Lemma words_written values pre post :
  Forall value_ok values ->
  (fun i => read (pre ++ (values ≫= write) ++ post) (length pre + 2 * i)%nat) <$> seq 0 (length values)
    = Some <$> values.
Proof.
  intros Hv. revert pre. induction Hv as [|v values Hv _ IH]; intros pre; [done|].
  cbn [length seq fmap list_fmap]. f_equal.
  - rewrite Nat.mul_0_r, Nat.add_0_r, bind_cons, <- app_assoc. by apply Hread.
  - rewrite bind_cons, <- app_assoc, (app_assoc pre (write v)).
    rewrite <- (IH (pre ++ write v)), <- fmap_S_seq, <- list_fmap_compose.
    apply list_fmap_ext. intros i x _. simpl. rewrite length_app, Hlen. f_equal. lia.
Qed.
Lemma words_read values : Forall value_ok values -> words read (values ≫= write) = values.
Proof.
  intros Hv. unfold words.
  assert (Hn : length (values ≫= write) = (2 * length values)%nat).
  { clear Hv. induction values as [|v values IH]; [done|]. rewrite bind_cons, length_app, Hlen, IH. simpl. lia. }
  rewrite Hn. replace (Nat.div2 (2 * length values + 1)) with (length values)
    by (rewrite Nat.add_1_r, Nat.div2_succ_double; done).
  pose proof (words_written values [] [] Hv) as H. rewrite app_nil_r in H. cbn [app length] in H.
  by apply omap_all.
Qed.
End Words.

(** What a battery page says, in the units of the wire, and its bytes. *)
Inductive BatteryReport :=
| ReportCells (selector : Z) (gap cells : list Z)
| ReportTemperatures (selector : Z) (temperatures : list Z)
| ReportCurrents (selector : Z) (gap : list Z) (c0 c1 : Z).
Definition report_selector (r : BatteryReport) : Z :=
  match r with ReportCells s _ _ | ReportTemperatures s _ | ReportCurrents s _ _ _ => s end.
Definition report_body (r : BatteryReport) : list Z :=
  match r with
  | ReportCells _ gap cells => gap ++ (cells ≫= be16_bytes)
  | ReportTemperatures _ temperatures => temperatures ≫= be16_bytes
  | ReportCurrents _ gap c0 c1 => gap ++ be16_bytes c0 ++ be16_bytes c1
  end.
Definition battery_report_ok (r : BatteryReport) : Prop :=
  match r with
  | ReportCells s gap cells =>
      s ∈ [1; 2; 5; 6] /\ length gap = 6%nat /\ length cells = 15%nat /\ Forall (in_u u16_max) cells
  | ReportTemperatures s temperatures =>
      s ∈ [3; 7] /\ length temperatures = 6%nat /\ Forall (in_i i16_min i16_max) temperatures
  | ReportCurrents s gap c0 c1 =>
      s ∈ [0; 4] /\ length gap = 22%nat /\ in_i i16_min i16_max c0 /\ in_i i16_min i16_max c1
  end.
(** The number of the cell in a slot of a cell page, and in its pack. *)
Definition cell_of_pack (selector slot : Z) : Z := 15 * ((selector - 1) mod 4) + slot.
Definition veteran_cell_number (selector slot : Z) : Z := 30 * (selector / 4) + cell_of_pack selector slot.
Definition report_readback (r : BatteryReport) : BatteryReadback :=
  match r with
  | ReportCells s _ cells =>
      {| availability := Available;
         br_page := Some (PageCellVoltage
           {| cvp_page := metadata_cell_voltage s HardwareVerified; cvp_battery := default_battery_info;
              cell_voltages := cells |});
         first_observation_index := Some (veteran_cell_number s 0);
         observation_pack_index := Some (s / 4);
         first_pack_observation_index := Some (cell_of_pack s 0);
         br_observed_at := None; observation_event_sequence := None |}
  | ReportTemperatures s temps =>
      readback_available (PageTemperature
        {| tp_page := metadata_temperature s HardwareVerified;
           tp_battery := {| bi_voltage := None; bi_current := None; level_reported := None;
                            level_estimated := None;
                            bi_temperature := Some (reported (default 0 (head temps) * 10));
                            raw_state := None |};
           temperatures := Z.mul 10 <$> temps; temperature_count := 6 |})
  | ReportCurrents s _ c0 c1 =>
      readback_available (PageRaw
        {| rp_page := metadata_metadata s HardwareVerified; rp_battery := default_battery_info;
           rp_pack_currents := Some (pack_currents_reported (current_unknown (Z.abs (c0 * 10)))
                                       (current_unknown (Z.abs (c1 * 10)))) |})
  end.
(** A frame with a battery page: the header, ten bytes, the selector, the body,
    and the checksum. *)
Definition page_frame (header spare : list Z) (r : BatteryReport) (rest crc : list Z) : VeteranFrame :=
  {| frame_bytes := header ++ spare ++ report_selector r :: report_body r ++ rest ++ crc |}.

Lemma from_frame_page prefix selector body crc :
  length prefix = 46%nat -> length crc = 4%nat ->
  from_frame {| frame_bytes := prefix ++ selector :: body ++ crc |} =
    Some {| ev_selector := selector; ev_kind := classify_veteran_bms_selector selector; ev_body := body |}.
Proof.
  intros Hp Hc. unfold from_frame, byte, SELECTOR_OFFSET, CRC_TRAILER_LEN. cbn [frame_bytes].
  rewrite lookup_app_r, Hp by lia. replace (46 - 46)%nat with 0%nat by lia. simpl.
  set (bytes := prefix ++ selector :: body ++ crc).
  assert (Hl : length bytes = (51 + length body)%nat)
    by (unfold bytes; rewrite length_app, Hp; simpl; rewrite length_app, Hc; lia).
  assert (Hs : forall a b, (b <= a)%nat -> checked_sub_nat a b = Some (a - b)%nat)
    by (intros a b Hab; unfold checked_sub_nat; by rewrite (proj2 (Nat.leb_le _ _) Hab)).
  rewrite Hl, Hs by lia. cbn [mbind option_bind]. rewrite Hs by lia. cbn [mbind option_bind].
  replace (range bytes _ _) with (Some body); [done|]. symmetry. apply get_range_Some.
  split; [lia|]. unfold bytes. rewrite drop_app_ge, Hp by lia.
  replace (51 + length body - 4 - _)%nat with (length body) by lia.
  change (drop _ (selector :: body ++ crc)) with (body ++ crc). by rewrite take_app_length.
Qed.
Lemma page_values_write selector pre values rest len :
  length values = len -> page_values selector (pre ++ values ++ rest) (length pre) len = Ok values.
Proof.
  intros Hl. unfold page_values. apply ok_or_Ok, get_range_Some. rewrite !length_app. split; [lia|].
  rewrite drop_app_length, <- Hl. by rewrite take_app_length.
Qed.
Lemma write16_length (values : list Z) : length (values ≫= be16_bytes) = (2 * length values)%nat.
Proof. induction values as [|v values IH]; [done|]. rewrite bind_cons, length_app, IH. simpl. lia. Qed.
Lemma words_u16 values : Forall (in_u u16_max) values -> words be_u16 (values ≫= be16_bytes) = values.
Proof. apply words_read; [done|]. apply be_u16_write. Qed.
Lemma words_i16 values :
  Forall (in_i i16_min i16_max) values -> words be_i16 (values ≫= be16_bytes) = values.
Proof. apply words_read; [done|]. apply be_i16_write. Qed.

Lemma cell_selectors s :
  s ∈ [1; 2; 5; 6] ->
  classify_veteran_bms_selector s = KindCellVoltage /\
  veteran_observation_page_identity s = Some (veteran_cell_number s 0, s / 4, cell_of_pack s 0).
Proof. intros Hs%list_elem_of_In. by destruct Hs as [<- | [<- | [<- | [<- | []]]]]. Qed.
Lemma temperature_selectors s :
  s ∈ [3; 7] -> classify_veteran_bms_selector s = KindTemperature /\
  negb (bool_decide (s = 3)) && negb (bool_decide (s = 7)) = false.
Proof. intros Hs%list_elem_of_In. by destruct Hs as [<- | [<- | []]]. Qed.
Lemma metadata_selectors s :
  s ∈ [0; 4] -> classify_veteran_bms_selector s = KindMetadata /\
  negb (bool_decide (s = 0) || bool_decide (s = 4)) = false.
Proof. intros Hs%list_elem_of_In. by destruct Hs as [<- | [<- | []]]. Qed.
Lemma readback_of_report r rest :
  battery_report_ok r ->
  veteran_bms_readback {| ev_selector := report_selector r;
    ev_kind := classify_veteran_bms_selector (report_selector r); ev_body := report_body r ++ rest |}
  = Some (report_readback r).
Proof.
  destruct r as [s gap cells|s temps|s gap c0 c1]; cbn [battery_report_ok report_selector report_body report_readback].
  - intros (Hs & Hg & Hc & Hv). destruct (cell_selectors s Hs) as [Hk Hid].
    unfold veteran_bms_readback, cell_page_from_body. cbn [ev_kind ev_selector ev_body]. rewrite Hk.
    change (body_offset_from_frame_offset VETERAN_BMS_CELL_VALUES_OFFSET) with 6%nat.
    rewrite <- app_assoc, <- Hg, page_values_write by (rewrite write16_length, Hc; done).
    cbn [result_bind]. rewrite words_u16 by done.
    cbn [ok mbind option_bind]. unfold veteran_bms_cell_payload, decode_veteran_bms_page.
    cbn [cell_selector cell_voltage]. by rewrite Hk, Hid, Hc.
  - intros (Hs & Ht & Hv). destruct (temperature_selectors s Hs) as [Hk Hg].
    unfold veteran_bms_readback, temperature_page_from_body. cbn [ev_kind ev_selector ev_body]. rewrite Hk, Hg.
    pose proof (page_values_write s [] (temps ≫= be16_bytes) rest (VETERAN_BMS_TEMPERATURE_VALUES_PER_PAGE * 2)) as E.
    change (body_offset_from_frame_offset _) with 0%nat. cbn [app length] in E.
    rewrite E by (by rewrite write16_length, Ht). cbn [result_bind]. rewrite words_i16 by done.
    destruct temps as [|t0 [|t1 [|t2 [|t3 [|t4 [|t5 [|]]]]]]]; try done.
    repeat (apply Forall_cons in Hv as [? Hv]).
    assert (Hc : forall t, in_i i16_min i16_max t -> temperature_from_centi_celsius t = 10 * t)
      by (intros t Hi; unfold temperature_from_centi_celsius; rewrite sat_mul_i32_id by int_lia; lia).
    cbn -[Z.mul]. rewrite !Hc by done. by rewrite (Z.mul_comm t0).
  - intros (Hs & Hg & H0 & H1). destruct (metadata_selectors s Hs) as [Hk Hn].
    unfold veteran_bms_readback, metadata_page_from_body. cbn [ev_kind ev_selector ev_body]. rewrite Hk, Hn.
    change (body_offset_from_frame_offset VETERAN_BMS_PACK_CURRENT_VALUES_OFFSET) with 22%nat.
    rewrite <- app_assoc, <- Hg, page_values_write by done.
    assert (E0 : be_i16 (be16_bytes c0 ++ be16_bytes c1) 0 = Some c0) by (by apply (be_i16_write [])).
    assert (E1 : be_i16 (be16_bytes c0 ++ be16_bytes c1) 2 = Some c1)
      by (pose proof (be_i16_write (be16_bytes c0) c1 [] H1) as E; by rewrite app_nil_r in E).
    cbn [result_bind]. rewrite E0, E1. cbn [default from_option id].
    assert (Hc : forall c, in_i i16_min i16_max c -> reported_current_from_centiamps c = c * 10)
      by (intros c Hi; unfold reported_current_from_centiamps; rewrite sat_mul_i32_id by int_lia; lia).
    by rewrite !Hc.
Qed.

(** C35: What a battery page says is reported: a frame that carries a cell or a
    temperature page behind its header yields exactly its values, the cells
    under the numbers of their page, and one that carries a current page yields
    the magnitudes of the two pack currents, whose polarity is reported as
    unknown, so that the sign is lost; the four cell pages number the sixty cells
    of two packs from 0 to 59, every number for one slot only. *)
Theorem battery_pages_decoded (header spare rest crc : list Z) (r : BatteryReport) :
  length header = 36%nat -> length spare = 10%nat -> length crc = 4%nat -> battery_report_ok r ->
  (exists evidence, from_frame (page_frame header spare r rest crc) = Some evidence /\
     ev_kind evidence <> KindRaw /\ veteran_bms_readback evidence = Some (report_readback r)) /\
  forall s slot, s ∈ [1; 2; 5; 6] -> 0 <= slot < 15 ->
    0 <= veteran_cell_number s slot < 60 /\
    forall s' slot', s' ∈ [1; 2; 5; 6] -> 0 <= slot' < 15 ->
      veteran_cell_number s slot = veteran_cell_number s' slot' -> s = s' /\ slot = slot'.
Proof.
  intros Hh Hs Hc Hr. split.
  - unfold page_frame. rewrite app_assoc, (app_assoc (report_body r)).
    eexists. split; [apply from_frame_page; [by rewrite length_app, Hh, Hs|done]|].
    split; [|by apply readback_of_report]. cbn [ev_kind].
    destruct r as [s gap cells|s temps|s gap c0 c1]; destruct Hr as [Hr _]; simpl.
    + by rewrite (proj1 (cell_selectors s Hr)).
    + by rewrite (proj1 (temperature_selectors s Hr)).
    + by rewrite (proj1 (metadata_selectors s Hr)).
  - assert (Hn : forall s slot, s ∈ [1; 2; 5; 6] -> 0 <= slot < 15 ->
      veteran_cell_number s slot = slot + (if bool_decide (s = 1) then 0 else if bool_decide (s = 2) then 15
                                           else if bool_decide (s = 5) then 30 else 45) /\
      (s = 1 \/ s = 2 \/ s = 5 \/ s = 6)).
    { intros s slot Hm%list_elem_of_In _. unfold veteran_cell_number, cell_of_pack.
      destruct Hm as [<- | [<- | [<- | [<- | []]]]]; (split; [|lia]).
      all: repeat first [rewrite bool_decide_true by done|rewrite bool_decide_false by done]; div_lia. }
    intros s slot Hm Hslot. destruct (Hn s slot Hm Hslot) as [-> Hcase]. split.
    + repeat case_bool_decide; lia.
    + intros s' slot' Hm' Hslot'. destruct (Hn s' slot' Hm' Hslot') as [-> Hcase'].
      intros E. repeat case_bool_decide; lia.
Qed.

(** ** The battery level *)

Lemma samsung_curve_ok : curve_ok SAMSUNG_50S_CELL_POINTS.
Proof. unfold SAMSUNG_50S_CELL_POINTS, level_from_percent. repeat (constructor; simpl; try lia). Qed.
Lemma estimate_level_piecewise p cell :
  estimate_level_from_cell_voltage p cell = level_from_piecewise_linear cell (points p).
Proof. done. Qed.
Lemma cell_voltage_mono v v' s :
  0 < s -> v <= v' -> voltage_as_cell_voltage v s <= voltage_as_cell_voltage v' s.
Proof.
  intros Hs Hv. unfold voltage_as_cell_voltage. rewrite bool_decide_false by lia.
  unfold saturating_i64_to_i32, sat_mul_i64.
  assert (clamp i64_min i64_max (v * 1000) <= clamp i64_min i64_max (v' * 1000)) by (unfold clamp; lia).
  assert ((clamp i64_min i64_max (v * 1000) + s ÷ 2) ÷ s <= (clamp i64_min i64_max (v' * 1000) + s ÷ 2) ÷ s)
    by (apply Z.quot_le_mono; lia).
  repeat case_bool_decide; unfold_ints; lia.
Qed.
Lemma samsung_level v v' s :
  0 < s -> v <= v' ->
  0 <= estimate_level_from_pack_voltage SAMSUNG_50S_PROFILE v s
    <= estimate_level_from_pack_voltage SAMSUNG_50S_PROFILE v' s /\
  estimate_level_from_pack_voltage SAMSUNG_50S_PROFILE v' s <= 100.
Proof.
  intros Hs Hv. unfold estimate_level_from_pack_voltage. rewrite !estimate_level_piecewise.
  pose proof (cell_voltage_mono v v' s Hs Hv) as Hc. set (c := voltage_as_cell_voltage v s) in *.
  set (c' := voltage_as_cell_voltage v' s) in *. cbn [points SAMSUNG_50S_PROFILE].
  pose proof (piecewise_mono _ _ _ samsung_curve_ok Hc).
  pose proof (piecewise_range c _ _ _ samsung_curve_ok). pose proof (piecewise_range c' _ _ _ samsung_curve_ok).
  unfold SAMSUNG_50S_CELL_POINTS. change (level_from_percent 0) with 0 in *. split; [split|]; tauto.
Qed.
Lemma linear_level v v' start end_ :
  start < end_ -> v <= v' ->
  let level x := if bool_decide (x <= start) then level_from_percent 0
                 else if bool_decide (end_ <= x) then level_from_percent 100
                 else level_from_percent_i32 (((x - start) * 100 + (end_ - start) ÷ 2) ÷ (end_ - start)) in
  0 <= level v <= level v' /\ level v' <= 100.
Proof.
  intros He Hv level.
  assert (Hr : forall x, 0 <= level_from_percent_i32 x <= 100)
    by (intros x; unfold level_from_percent_i32, level_from_percent, clamp; case_bool_decide; lia).
  assert (Hm : forall x y, x <= y -> level_from_percent_i32 x <= level_from_percent_i32 y)
    by (intros x y Hxy; unfold level_from_percent_i32, level_from_percent, clamp; do 2 case_bool_decide; lia).
  assert (Hq : ((v - start) * 100 + (end_ - start) ÷ 2) ÷ (end_ - start) <=
               ((v' - start) * 100 + (end_ - start) ÷ 2) ÷ (end_ - start)) by (apply Z.quot_le_mono; lia).
  apply Hm in Hq. subst level. cbn beta. change (level_from_percent 0) with 0. change (level_from_percent 100) with 100.
  pose proof (Hr (((v - start) * 100 + (end_ - start) ÷ 2) ÷ (end_ - start))).
  pose proof (Hr (((v' - start) * 100 + (end_ - start) ÷ 2) ÷ (end_ - start))).
  repeat case_bool_decide; lia.
Qed.
(** The profile of a known model is one of two kinds. *)
Lemma from_model_id_cases id p :
  from_model_id id = Some p ->
  (battery_profile p = None /\ voltage_range p = (79350, 98700)) \/
  (battery_profile p = Some SAMSUNG_50S_PROFILE /\ 0 < series_cells p).
Proof.
  unfold from_model_id.
  repeat match goal with |- (if ?b then _ else _) = _ -> _ => destruct b end;
    intros [= <-]; (by left) || (right; simpl; split; [done|lia]).
Qed.
(** The level shown for a wheel is a percentage that never falls when the
    voltage rises, whatever model its firmware names. *)
Lemma veteran_level_monotone (id v v' : Z) :
  v <= v' ->
  0 <= estimate_veteran_battery_level id v <= estimate_veteran_battery_level id v' /\
  estimate_veteran_battery_level id v' <= 100.
Proof.
  intros Hv. unfold estimate_veteran_battery_level. destruct (from_model_id id) as [p|] eqn:E.
  2:{ change (level_from_percent 0) with 0. lia. }
  apply from_model_id_cases in E as [[E1 E2]|[E1 E2]]; unfold estimate_battery_level; rewrite E1.
  - rewrite E2. by apply linear_level.
  - by apply samsung_level.
Qed.

(** ** Witnesses *)

Definition live_header : WheelHeader :=
  {| h_voltage := 10876; h_speed := 0; h_trip := 0; h_total := 1551169; h_current := 0;
     h_temperature := 3327; h_shutdown := 0; h_charge := 0; h_alert := 550; h_tiltback := 540;
     h_version := 43254; h_pedals := 1920; h_pitch := 6906; h_pwm := 0 |}.
Example live_header_bytes : header_bytes 0x53 live_header = take 36 live_aero_bytes.
Proof. vm_compute. reflexivity. Qed.
Lemma live_header_ok : header_ok live_header.
Proof. unfold header_ok, in_u, in_i. rewrite !Forall_cons. split_ands; try constructor; vm_compute; discriminate. Qed.
Lemma veteran_header_decoded_witness :
  decode {| frame_bytes := live_aero_bytes |} = Ok (header_decoded live_header).
Proof. apply (veteran_header_decoded 0x53 live_header (drop 36 live_aero_bytes)), live_header_ok. Defined.
Definition currents_report : BatteryReport := ReportCurrents 4 (replicate 22 0) (-150) 275.
Lemma battery_pages_decoded_witness :
  exists evidence, from_frame (page_frame (take 36 live_aero_bytes) (replicate 10 0) currents_report [] (replicate 4 0))
      = Some evidence /\
    ev_kind evidence <> KindRaw /\ veteran_bms_readback evidence = Some (report_readback currents_report).
Proof.
  apply (battery_pages_decoded (take 36 live_aero_bytes) (replicate 10 0) [] (replicate 4 0) currents_report).
  - reflexivity.
  - reflexivity.
  - reflexivity.
  - assert (H4 : 4 ∈ [0; 4]) by (apply list_elem_of_In; simpl; auto).
    unfold currents_report. cbn [battery_report_ok]. split_ands; [exact H4|reflexivity|unfold in_i; int_lia..].
Defined.
