(* ===== verification/BegodeCharging.v ===== *)
(** * Inferring that a Begode wheel is charging

    [cutout-protocols/src/begode_charging.rs].  The wheels do not report that
    they charge; it is inferred from a pack voltage that keeps rising while the
    wheel stands still.  [BegodeCharging] is the struct, and [charging_observe],
    [charging_tick], [charging_reset] and [next_tick_at] its methods, each
    passing the state explicitly. *)

From Stdlib Require Import Sorted.
From S2P Require Import Prelude.
From S2P Require Import Quantities.
From S2P Require Import BegodeFrame.
From S2P Require Import Commands.
From S2P Require Import Telemetry.
From S2P Require Import BegodeTelemetry.

Definition FRESH : Z := 5000.
Definition SETTLE : Z := 60000.
Definition TREND : Z := 120000.
Definition INCREASE_SPACING : Z := 20000.
Definition REQUIRED_RISE_MV : Z := 200.
Definition MATERIAL_RISE_MV : Z := 50.
Definition STOP_DROP_MV : Z := 100.

Inductive Source := SourceUnknown | Placeholders | Usable.
#[global] Instance source_eq_dec : EqDecision Source.
Proof. solve_decision. Defined.

Record BegodeCharging := {
  source : Source;
  placeholder_summary_at : option Z;
  placeholder_cells_at : option Z;
  valid_summary_at : option Z;
  real_cells_at : option Z;
  last_input_at : option Z;
  last_speed_at : option Z;
  stationary_since : option Z;
  last_voltage_at : option Z;
  trend_started_at : option Z;
  baseline_mv : option Z;
  peak_mv : option Z;
  last_rise_at : option Z;
  rises : Z;
  charging : bool;
}.
#[global] Instance eta_charging : Eta BegodeCharging := fun r =>
  Build_BegodeCharging (source r) (placeholder_summary_at r) (placeholder_cells_at r)
    (valid_summary_at r) (real_cells_at r) (last_input_at r) (last_speed_at r)
    (stationary_since r) (last_voltage_at r) (trend_started_at r) (baseline_mv r) (peak_mv r)
    (last_rise_at r) (rises r) (charging r).
Definition default_charging : BegodeCharging :=
  {| source := SourceUnknown; placeholder_summary_at := None; placeholder_cells_at := None;
     valid_summary_at := None; real_cells_at := None; last_input_at := None;
     last_speed_at := None; stationary_since := None; last_voltage_at := None;
     trend_started_at := None; baseline_mv := None; peak_mv := None; last_rise_at := None;
     rises := 0; charging := false |}.

Definition elapsed (earlier later : Z) : Z := sat_sub later earlier.
Definition fresh (seen now : Z) : bool :=
  bool_decide (seen <= now) && bool_decide (elapsed seen now <= FRESH).
Definition is_fresh (seen : option Z) (now : Z) : bool := is_some_and seen (fun s => fresh s now).
Definition stale (seen : option Z) (now : Z) : bool := is_some_and seen (fun s => negb (fresh s now)).
Definition is_none_or {A} (o : option A) (f : A -> bool) : bool :=
  match o with None => true | Some x => f x end.

Definition valid_summary (summary : BegodeBmsSummary) : bool :=
  let pack := pack_voltage summary in
  let half := half_pack_voltage summary in
  bool_decide (-20000 <= temperature_0 summary <= 100000) &&
  bool_decide (-20000 <= temperature_1 summary <= 100000) &&
  bool_decide (40000 <= pack <= 250000) && bool_decide (0 < half) && bool_decide (half <= pack).
Definition is_placeholder (summary : BegodeBmsSummary) : bool :=
  bool_decide (bms_current summary = 0) && bool_decide (temperature_0 summary = 0) &&
  bool_decide (temperature_1 summary = 5000000) && bool_decide (half_pack_voltage summary = 0).

Definition reset_trend (self : BegodeCharging) : BegodeCharging :=
  self <| baseline_mv := None |> <| peak_mv := None |> <| trend_started_at := None |>
       <| last_rise_at := None |> <| rises := 0 |> <| charging := false |>.
Definition reset_evidence (self : BegodeCharging) : BegodeCharging := default_charging.
Definition charging_reset (self : BegodeCharging) : BegodeCharging := default_charging.
Definition clear_bms_evidence (self : BegodeCharging) : BegodeCharging :=
  reset_trend (self <| source := SourceUnknown |> <| placeholder_summary_at := None |>
    <| placeholder_cells_at := None |> <| valid_summary_at := None |> <| real_cells_at := None |>).

Definition expire_trend (self : BegodeCharging) (at_ : Z) : BegodeCharging :=
  if charging self && is_some_and (last_rise_at self) (fun last => bool_decide (TREND < elapsed last at_))
  then reset_trend self else self.

(** The second half of [observe_voltage]: a settled wheel shows a positive
    voltage.  [follow_peak] is its middle part, from [get_or_insert] on. *)
Definition follow_peak (self : BegodeCharging) (mv at_ : Z) : BegodeCharging :=
  let peak := default mv (peak_mv self) in
  let self := self <| peak_mv := Some peak |> in
  if bool_decide (MATERIAL_RISE_MV <= sat_sub_i i32_min i32_max mv peak) then
    let self :=
      if is_none_or (last_rise_at self)
           (fun last => bool_decide (INCREASE_SPACING <= elapsed last at_))
      then self <| rises := sat_add u8_max (rises self) 1 |> <| last_rise_at := Some at_ |>
      else self in
    self <| peak_mv := Some mv |>
  else self.
Definition extend_trend (self : BegodeCharging) (mv at_ : Z) : BegodeCharging :=
  let self :=
    if is_some_and (peak_mv self)
         (fun peak => bool_decide (STOP_DROP_MV <= sat_sub_i i32_min i32_max peak mv))
    then reset_trend self else self in
  let self :=
    match baseline_mv self with
    | None => self <| baseline_mv := Some mv |> <| trend_started_at := Some at_ |>
    | Some _ => self
    end in
  let self := follow_peak self mv at_ <| last_voltage_at := Some at_ |> in
  if bool_decide (3 <= rises self) &&
     is_some_and (baseline_mv self)
       (fun base => bool_decide (REQUIRED_RISE_MV <= sat_sub_i i32_min i32_max mv base)) &&
     is_some_and (trend_started_at self) (fun start => bool_decide (TREND <= elapsed start at_))
  then self <| charging := true |> else self.
Definition observe_voltage (self : BegodeCharging) (voltage at_ : Z) : BegodeCharging :=
  if bool_decide (last_voltage_at self = Some at_) then self
  else
    let mv := voltage in
    if bool_decide (mv <= 0) then reset_trend self <| last_voltage_at := Some at_ |>
    else if is_some_and (last_voltage_at self) (fun last => bool_decide (at_ < last))
    then reset_trend self
    else if is_none_or (stationary_since self)
              (fun start => bool_decide (elapsed start at_ < SETTLE))
    then self <| last_voltage_at := Some at_ |>
    else extend_trend self mv at_.

Definition observe_summary (self : BegodeCharging) (summary : BegodeBmsSummary) (at_ : Z)
  : BegodeCharging :=
  if negb (bool_decide (bms_index summary = 0)) then self
  else if valid_summary summary then
    let self :=
      if negb (bool_decide (source self = Usable))
      then reset_trend self <| last_voltage_at := None |> else self in
    let self := self <| valid_summary_at := Some at_ |> <| placeholder_summary_at := None |>
                     <| source := Usable |> in
    if is_fresh (real_cells_at self) at_ then observe_voltage self (pack_voltage summary) at_ else self
  else if is_placeholder summary then
    let self :=
      if bool_decide (source self = Usable)
      then reset_trend self <| last_voltage_at := None |> <| real_cells_at := None |>
             <| source := SourceUnknown |>
      else self in
    self <| placeholder_summary_at := Some at_ |> <| valid_summary_at := None |>
  else clear_bms_evidence self.

Definition plausible_cell (mv : Z) : bool := bool_decide (2500 <= mv <= 4500).
Definition observe_cells (self : BegodeCharging) (page : BegodeBmsCellPage) (at_ : Z)
  : BegodeCharging :=
  if negb (bool_decide (cell_bms_index page = 0)) then self
  else
    let plausible := forallb (fun mv => bool_decide (mv = 0) || plausible_cell mv) (cell_voltage page) in
    let has_cells := existsb plausible_cell (cell_voltage page) in
    if plausible && has_cells then
      let self := self <| real_cells_at := Some at_ |> in
      let self :=
        if negb (bool_decide (source self = Usable))
        then reset_trend self <| last_voltage_at := None |> else self in
      self <| source := Usable |>
    else if forallb (fun mv => bool_decide (mv = 0)) (cell_voltage page) then
      self <| placeholder_cells_at := Some at_ |>
    else clear_bms_evidence self.

Definition refresh_source (self : BegodeCharging) (at_ : Z) : BegodeCharging :=
  if bool_decide (source self = Usable) then self
  else if is_fresh (placeholder_summary_at self) at_ && is_fresh (placeholder_cells_at self) at_
  then self <| source := Placeholders |>
  else if bool_decide (source self = Placeholders)
  then reset_trend (self <| source := SourceUnknown |> <| last_voltage_at := None |>)
  else self.

Definition ready (self : BegodeCharging) (at_ : Z) : bool :=
  is_fresh (last_speed_at self) at_ && is_fresh (last_voltage_at self) at_ &&
  match source self with
  | SourceUnknown => false
  | Placeholders =>
      is_fresh (placeholder_summary_at self) at_ && is_fresh (placeholder_cells_at self) at_
  | Usable => is_fresh (valid_summary_at self) at_ && is_fresh (real_cells_at self) at_
  end.
Definition evidence_stale (self : BegodeCharging) (at_ : Z) : bool :=
  stale (last_speed_at self) at_ || stale (last_voltage_at self) at_ ||
  match source self with
  | SourceUnknown => false
  | Placeholders =>
      stale (placeholder_summary_at self) at_ || stale (placeholder_cells_at self) at_
  | Usable => stale (valid_summary_at self) at_ || stale (real_cells_at self) at_
  end.

Definition charging_result (self : BegodeCharging) (at_ : Z)
  : BegodeCharging * Measured Quantities.ChargeMode :=
  let settled := is_some_and (stationary_since self)
                   (fun start => bool_decide (SETTLE <= elapsed start at_)) in
  if negb settled then
    (reset_trend (self <| charging := false |>), estimated ChargeUnknown)
  else (self, estimated (if charging self then Charging else ChargeUnknown)).
Definition ready_result (self : BegodeCharging) (at_ : Z)
  : BegodeCharging * Measured Quantities.ChargeMode :=
  if ready self at_ then charging_result self at_ else (self, estimated ChargeUnknown).

(** The match on the tag of the frame in [observe]. *)
Definition observe_frame (self : BegodeCharging) (frame : BegodeFrame) (delta : TelemetryDelta)
    (at_ : Z) : BegodeCharging :=
  let tag := BegodeFrame.tag frame in
  if bool_decide (tag = 0x00) then
    if bool_decide (source self = Placeholders) then
      match d_voltage delta with
      | Some voltage => observe_voltage self (m_value voltage) at_
      | None => self
      end
    else self
  else if bool_decide (tag = 0x01) then
    match bms_summary_decode frame with
    | Ok summary => observe_summary self summary at_
    | Err _ => self
    end
  else if bool_decide (tag = 0x02) || bool_decide (tag = 0x03) then
    match cell_page_decode frame with
    | Ok page => observe_cells self page at_
    | Err _ => self
    end
  else self.
Definition stand_still (self : BegodeCharging) (at_ : Z) : BegodeCharging :=
  match stationary_since self with
  | None => self <| stationary_since := Some at_ |>
  | Some _ => self
  end.
Definition went_back (self : BegodeCharging) (at_ : Z) : bool :=
  is_some_and (last_input_at self) (fun last => bool_decide (at_ < last)).
Definition charging_observe (self : BegodeCharging) (frame : BegodeFrame) (delta : TelemetryDelta)
    (at_ : Z) : BegodeCharging * Measured Quantities.ChargeMode :=
  if went_back self at_ then (charging_reset self, estimated ChargeUnknown)
  else
    let self := if evidence_stale self at_ then reset_evidence self else self in
    let self := expire_trend self at_ <| last_input_at := Some at_ |> in
    let '(self, moving) :=
      match d_speed delta with
      | Some speed =>
          let self := self <| last_speed_at := Some at_ |> in
          if speed_is_moving (m_value speed)
          then (reset_evidence self <| last_input_at := Some at_ |> <| last_speed_at := Some at_ |>, true)
          else (stand_still self at_, false)
      | None => (self, false)
      end in
    if moving : bool then (self, estimated NotCharging)
    else ready_result (refresh_source (observe_frame self frame delta at_) at_) at_.

Definition charging_tick (self : BegodeCharging) (at_ : Z)
  : BegodeCharging * Measured Quantities.ChargeMode :=
  if went_back self at_ then (charging_reset self, estimated ChargeUnknown)
  else if evidence_stale self at_
  then (reset_evidence self <| last_input_at := Some at_ |>, estimated ChargeUnknown)
  else ready_result (expire_trend (self <| last_input_at := Some at_ |>) at_) at_.

Definition next_tick_at (self : BegodeCharging) : option Z :=
  if negb (charging self) then None
  else
    oldest ← last_speed_at self;
    voltage ← last_voltage_at self;
    let oldest := Z.min oldest voltage in
    oldest ← match source self with
             | SourceUnknown => None
             | Placeholders =>
                 summary ← placeholder_summary_at self;
                 cells ← placeholder_cells_at self;
                 Some (Z.min (Z.min oldest summary) cells)
             | Usable =>
                 summary ← valid_summary_at self;
                 cells ← real_cells_at self;
                 Some (Z.min (Z.min oldest summary) cells)
             end;
    let evidence_expiry := timestamp_saturating_add_duration oldest (sat_add u64_max FRESH 1) in
    last_rise ← last_rise_at self;
    let trend_expiry := timestamp_saturating_add_duration last_rise (sat_add u64_max TREND 1) in
    Some (Z.min evidence_expiry trend_expiry).

(** ** The machine *)

Inductive ChargingCall :=
| ChObserve (frame : BegodeFrame) (delta : TelemetryDelta) (at_ : Z)
| ChTick (at_ : Z)
| ChReset.
Definition charging_step (s : BegodeCharging) (c : ChargingCall)
  : BegodeCharging * option (Measured Quantities.ChargeMode) :=
  match c with
  | ChObserve frame delta at_ => let '(s, r) := charging_observe s frame delta at_ in (s, Some r)
  | ChTick at_ => let '(s, r) := charging_tick s at_ in (s, Some r)
  | ChReset => (charging_reset s, None)
  end.

(** ** What the trace shows *)

Definition call_time (c : ChargingCall) : option Z :=
  match c with ChObserve _ _ t | ChTick t => Some t | ChReset => None end.
Definition call_speed (c : ChargingCall) : option Z :=
  match c with ChObserve _ delta _ => m_value <$> d_speed delta | _ => None end.
Definition moves (c : ChargingCall) : bool := is_some_and (call_speed c) speed_is_moving.
(** The call reports that the wheel stands still, at this time. *)
Definition still_at (c : ChargingCall) (t : Z) : Prop :=
  call_time c = Some t /\ is_Some (call_speed c) /\ moves c = false.
(** The call shows this charge voltage at this time, by the source in use: the
    wheel's own voltage where its battery frames are placeholders, the first
    bank of the battery management where it is usable. *)
Definition shows (k : Source) (c : ChargingCall) (v t : Z) : Prop :=
  match c with
  | ChObserve frame delta at_ =>
      t = at_ /\
      match k with
      | SourceUnknown => False
      | Placeholders => BegodeFrame.tag frame = 0x00 /\ m_value <$> d_voltage delta = Some v
      | Usable => exists summary, bms_summary_decode frame = Ok summary /\
                    bms_index summary = 0 /\ valid_summary summary = true /\ pack_voltage summary = v
      end
  | _ => False
  end.

(** No input is older than one before it. *)
Definition no_step_back (calls : list ChargingCall) : Prop :=
  StronglySorted Z.le (omap call_time calls).
Lemma no_step_back_snoc calls c at_ :
  no_step_back calls -> call_time c = Some at_ ->
  Forall (fun c => exists t, call_time c = Some t /\ t <= at_) calls -> no_step_back (calls ++ [c]).
Proof.
  unfold no_step_back. intros Hs Hc Hall. rewrite omap_app. simpl. rewrite Hc.
  induction Hall as [|x calls (t & Hx & Ht) Hall IH]; simpl in *; [by repeat constructor|].
  rewrite Hx in Hs |- *. apply StronglySorted_inv in Hs as [Hs Hf]. simpl. constructor; [by apply IH|].
  apply Forall_app. split; [done|by repeat constructor].
Qed.

(** What the retained evidence means for the calls since the wheel stands. *)
Record standing (suffix : list ChargingCall) (s : BegodeCharging) (start l : Z) : Prop := {
  st_first : exists first rest, suffix = first :: rest /\ still_at first start;
  st_during : Forall (fun c => exists t, call_time c = Some t /\ start <= t <= l /\ moves c = false)
                suffix /\ no_step_back suffix;
  st_speed : forall t, last_speed_at s = Some t -> exists c, c ∈ suffix /\ still_at c t;
  st_trend : forall b, baseline_mv s = Some b -> exists t0 c, trend_started_at s = Some t0 /\
               c ∈ suffix /\ shows (source s) c b t0 /\ start + SETTLE <= t0;
  st_charging : charging s = true -> exists b t0 v t1 c,
      baseline_mv s = Some b /\ trend_started_at s = Some t0 /\ c ∈ suffix /\
      shows (source s) c v t1 /\ t0 + TREND <= t1 <= l /\ b + REQUIRED_RISE_MV <= v;
}.
Definition evidence_ok (calls : list ChargingCall) (l : Z) (s : BegodeCharging) : Prop :=
  match stationary_since s with
  | None => baseline_mv s = None /\ charging s = false
  | Some start => exists before suffix, calls = before ++ suffix /\ standing suffix s start l
  end.
Definition trace_ok (calls : list ChargingCall) (s : BegodeCharging) : Prop :=
  match last_input_at s with
  | None => s = default_charging
  | Some l => evidence_ok calls l s
  end.

Lemma elapsed_le a b d : 0 < d -> d <= elapsed a b -> a + d <= b.
Proof. unfold elapsed, sat_sub. lia. Qed.

(** Operations that only touch what the invariant does not read. *)
Lemma evidence_same calls l s s' :
  stationary_since s' = stationary_since s -> last_speed_at s' = last_speed_at s ->
  trend_started_at s' = trend_started_at s -> baseline_mv s' = baseline_mv s ->
  charging s' = charging s -> (baseline_mv s = None \/ source s' = source s) ->
  evidence_ok calls l s -> evidence_ok calls l s'.
Proof.
  unfold evidence_ok. intros E1 E2 E3 E4 E5 E6. rewrite E1, E4, E5.
  destruct (stationary_since s) as [start|]; [|done]. intros (before & suffix & E & H).
  exists before, suffix. split; [done|]. destruct H as [H1 H2 H3 H4 H5]. split; [done|done|..].
  - by rewrite E2.
  - rewrite E4, E3. intros b Hb. destruct E6 as [E6|E6]; [congruence|]. rewrite E6. auto.
  - rewrite E5, E4, E3. intros Hc. destruct (H5 Hc) as (b & t0 & v & t1 & c & Hb & Hr).
    destruct E6 as [E6|E6]; [congruence|]. rewrite E6. eauto 10.
Qed.
Lemma evidence_reset_trend calls l s :
  evidence_ok calls l s -> evidence_ok calls l (reset_trend s).
Proof.
  unfold evidence_ok, reset_trend. destruct s as [? ? ? ? ? ? sp [start|] ? ? ? ? ? ? ?]; simpl; [|done].
  intros (before & suffix & E & [H1 H2 H3 H4 H5]). exists before, suffix. split; [done|].
  by split.
Qed.
Lemma reset_trend_trend s :
  baseline_mv (reset_trend s) = None /\ charging (reset_trend s) = false.
Proof. by destruct s. Qed.

Lemma trace_last {calls : list ChargingCall} {c before suffix} :
  calls ++ [c] = before ++ suffix -> suffix <> [] -> c ∈ suffix.
Proof.
  intros E Hn. destruct (exists_last Hn) as (l & x & ->). rewrite app_assoc in E.
  apply app_inj_tail in E as [_ ->]. set_solver.
Qed.
Lemma standing_nonempty suffix s start l : standing suffix s start l -> suffix <> [].
Proof. intros [(first & rest & -> & _) _ _ _ _]. done. Qed.

(** The parts of the state a voltage cannot change. *)
Definition same_standing (s s' : BegodeCharging) : Prop :=
  stationary_since s' = stationary_since s /\ last_speed_at s' = last_speed_at s /\
  source s' = source s /\ last_input_at s' = last_input_at s.
Lemma follow_peak_same s mv at_ :
  same_standing s (follow_peak s mv at_) /\
  baseline_mv (follow_peak s mv at_) = baseline_mv s /\
  trend_started_at (follow_peak s mv at_) = trend_started_at s /\
  charging (follow_peak s mv at_) = charging s.
Proof.
  unfold follow_peak, same_standing. destruct s. simpl. case_bool_decide; simpl; [|by split_ands].
  destruct (is_none_or _ _); by split_ands.
Qed.

Lemma extend_trend_same s mv at_ : same_standing s (extend_trend s mv at_).
Proof.
  unfold extend_trend. set (s1 := if is_some_and (peak_mv s) _ then reset_trend s else s).
  assert (H1 : same_standing s s1) by (subst s1; destruct (is_some_and _ _); by destruct s).
  clearbody s1. set (s2 := match baseline_mv s1 with None => _ | Some _ => _ end).
  assert (H2 : same_standing s s2) by (subst s2; destruct (baseline_mv s1); [done|by destruct s1]).
  clearbody s2. destruct (follow_peak_same s2 mv at_) as (H3 & _). revert H3.
  generalize (follow_peak s2 mv at_). intros s3 H3.
  assert (H4 : same_standing s (s3 <| last_voltage_at := Some at_ |>)).
  { unfold same_standing in *. destruct_and?. destruct s3. simpl in *. split_ands; congruence. }
  destruct (_ && _); [|done]. clear H3. by destruct s3.
Qed.
Lemma extend_trend_ok calls c before suffix start v l s :
  calls ++ [c] = before ++ suffix -> shows (source s) c v l -> start + SETTLE <= l ->
  standing suffix s start l -> standing suffix (extend_trend s v l) start l.
Proof.
  intros E Hv Hs Hst. pose proof (trace_last E (standing_nonempty _ _ _ _ Hst)) as Hc.
  unfold extend_trend.
  set (s1 := if is_some_and (peak_mv s) _ then reset_trend s else s).
  assert (H1 : standing suffix s1 start l /\ source s1 = source s).
  { subst s1. destruct (is_some_and _ _); [|done]. split; [|by destruct s].
    destruct Hst as [H1 H2 H3 H4 H5]. destruct s; by split. }
  clearbody s1. destruct H1 as [H1 Es1].
  set (s2 := match baseline_mv s1 with None => _ | Some _ => _ end).
  assert (H2 : standing suffix s2 start l /\ source s2 = source s1).
  { subst s2. destruct (baseline_mv s1) eqn:Eb; [done|]. destruct H1 as [? ? ? ? H5].
    split; [|by destruct s1].
    destruct s1 as [so1 ? ? ? ? ? ? ? ? ? ? ? ? ? ch]; simpl in *; subst; split; simpl; try done.
    - intros b [= <-]. eauto 10.
    - intros Hch. destruct (H5 Hch) as (b & t0 & ? & ? & ? & Hb & _). congruence. }
  clearbody s2. destruct H2 as [H2 Es2]. clear H1 Hst.
  destruct (follow_peak_same s2 v l) as ((Ef1 & Ef2 & Ef3 & Ef4) & Ef5 & Ef6 & Ef7).
  set (s3 := follow_peak s2 v l) in *.
  assert (H3 : standing suffix (s3 <| last_voltage_at := Some l |>) start l).
  { destruct H2 as [? ? ? ? ?]. destruct s3; simpl in *; subst; by split. }
  clearbody s3. destruct s3 as [so pa pc va rc li sp st lv ts ba pk lr ri ch]. simpl in *.
  destruct ba as [b|]; [|by rewrite andb_false_r].
  destruct ts as [t0|]; [|by rewrite andb_false_r].
  cbn [is_some_and].
  destruct (bool_decide_reflect (3 <= ri)) as [Hr|]; [|exact H3].
  destruct (bool_decide_reflect (REQUIRED_RISE_MV <= sat_sub_i i32_min i32_max v b)) as [Hb|]; [|exact H3].
  destruct (bool_decide_reflect (TREND <= elapsed t0 l)) as [Ht|]; [|exact H3].
  destruct H3 as [? ? ? ? ?]. split; try done. intros _. exists b, t0, v, l, c. simpl.
  rewrite Ef3, Es2, Es1. split_ands; try done.
  - by apply elapsed_le in Ht.
  - unfold REQUIRED_RISE_MV in *. int_lia.
Qed.

Lemma observe_voltage_ok calls c v l s :
  shows (source s) c v l -> evidence_ok (calls ++ [c]) l s ->
  evidence_ok (calls ++ [c]) l (observe_voltage s v l).
Proof.
  intros Hv He. unfold observe_voltage. case_bool_decide; [done|].
  assert (Hlv : forall s o, evidence_ok (calls ++ [c]) l s ->
            evidence_ok (calls ++ [c]) l (s <| last_voltage_at := o |>)).
  { intros s' o. apply evidence_same; by destruct s'; simpl; auto. }
  case_bool_decide; [apply Hlv; by apply evidence_reset_trend|].
  destruct (is_some_and _ _); [by apply evidence_reset_trend|].
  destruct (stationary_since s) as [start|] eqn:Es; cbn [is_none_or]; [|by apply Hlv].
  case_bool_decide; [by apply Hlv|]. unfold evidence_ok in He |- *. rewrite Es in He.
  assert (Es' : stationary_since (extend_trend s v l) = Some start).
  { rewrite <- Es. apply extend_trend_same. }
  rewrite Es'. destruct He as (before & suffix & E & Hst). exists before, suffix. split; [done|].
  eapply extend_trend_ok; try done. apply elapsed_le; unfold SETTLE in *; lia.
Qed.

Lemma observe_voltage_same s v at_ : same_standing s (observe_voltage s v at_).
Proof.
  unfold observe_voltage. case_bool_decide; [done|]. case_bool_decide; [by destruct s|].
  destruct (is_some_and _ _); [by destruct s|].
  destruct (is_none_or _ _); [by destruct s|apply extend_trend_same].
Qed.

(** The other evidence: a change of the source always drops the trend. *)
Lemma observe_summary_ok calls frame delta at_ s summary :
  bms_summary_decode frame = Ok summary ->
  evidence_ok (calls ++ [ChObserve frame delta at_]) at_ s ->
  evidence_ok (calls ++ [ChObserve frame delta at_]) at_ (observe_summary s summary at_).
Proof.
  intros Hd He. unfold observe_summary. destruct (bool_decide_reflect (bms_index summary = 0)); [|done].
  cbn [negb]. destruct (valid_summary summary) eqn:Hv.
  - set (s1 := if negb (bool_decide (source s = Usable)) then _ else s).
    assert (H1 : evidence_ok (calls ++ [ChObserve frame delta at_]) at_ (s1 <| source := Usable |>)).
    { subst s1. destruct (bool_decide_reflect (source s = Usable)) as [Hs|Hs]; simpl.
      - eapply evidence_same, He; destruct s; simpl in *; auto.
      - eapply evidence_same, (evidence_reset_trend _ _ _ He); destruct s; simpl in *; auto. }
    clearbody s1.
    set (s2 := s1 <| valid_summary_at := _ |> <| placeholder_summary_at := _ |> <| source := Usable |>).
    assert (H2 : evidence_ok (calls ++ [ChObserve frame delta at_]) at_ s2).
    { eapply evidence_same, H1; subst s2; destruct s1; simpl; auto. }
    destruct (is_fresh _ _); [|done]. apply observe_voltage_ok; [|done].
    split; [done|]. replace (source s2) with Usable by (by destruct s1). eauto.
  - destruct (is_placeholder summary).
    + case_bool_decide.
      * eapply evidence_same, (evidence_reset_trend _ _ _ He); destruct s; simpl; auto.
      * eapply evidence_same, He; destruct s; simpl; auto.
    + unfold clear_bms_evidence.
      eapply evidence_same, (evidence_reset_trend _ _ _ He); destruct s; simpl; auto.
Qed.
Lemma observe_cells_ok calls l s page :
  evidence_ok calls l s -> evidence_ok calls l (observe_cells s page l).
Proof.
  intros He. unfold observe_cells. case_bool_decide; [|done]. cbn [negb].
  destruct (_ && _); [|destruct (forallb _ _)].
  - destruct (bool_decide_reflect (source (s <| real_cells_at := Some l |>) = Usable)) as [Hs|Hs]; cbn [negb].
    + eapply evidence_same, He; destruct s; simpl in *; auto.
    + eapply evidence_same, (evidence_reset_trend _ _ _ He); destruct s; simpl in *; auto.
  - eapply evidence_same, He; destruct s; simpl in *; auto.
  - unfold clear_bms_evidence.
    eapply evidence_same, (evidence_reset_trend _ _ _ He); destruct s; simpl; auto.
Qed.
Lemma refresh_source_ok calls l s : evidence_ok calls l s -> evidence_ok calls l (refresh_source s l).
Proof.
  intros He. unfold refresh_source. destruct (bool_decide_reflect (source s = Usable)); [done|].
  destruct (_ && _).
  - destruct (bool_decide_reflect (source s = Placeholders)) as [Hs|Hs].
    + eapply evidence_same, He; destruct s; simpl in *; auto.
    + assert (Hb : baseline_mv s = None).
      { unfold evidence_ok in He. destruct (stationary_since s); [|tauto].
        destruct He as (? & suffix & _ & [_ _ _ Ht _]). destruct (baseline_mv s) as [b|]; [|done].
        destruct (Ht b eq_refl) as (t0 & c & _ & _ & Hsh & _). destruct (source s); try done.
        destruct c; simpl in Hsh; tauto. }
      eapply evidence_same, He; destruct s; simpl in *; auto.
  - case_bool_decide; [|done].
    eapply evidence_same, (evidence_reset_trend _ _ _ He); destruct s; simpl; auto.
Qed.
Lemma observe_frame_ok calls frame delta at_ s :
  evidence_ok (calls ++ [ChObserve frame delta at_]) at_ s ->
  evidence_ok (calls ++ [ChObserve frame delta at_]) at_ (observe_frame s frame delta at_).
Proof.
  intros He. unfold observe_frame. destruct (bool_decide_reflect (BegodeFrame.tag frame = 0)) as [Ht|_].
  - case_bool_decide; [|done]. destruct (d_voltage delta) as [m|] eqn:Ev; [|done].
    apply observe_voltage_ok; [|done]. split; [done|]. replace (source s) with Placeholders by done.
    by rewrite Ev.
  - case_bool_decide.
    + destruct (bms_summary_decode frame) eqn:Ed; [|done]. by apply observe_summary_ok.
    + destruct (_ || _); [|done]. destruct (cell_page_decode frame); [|done]. by apply observe_cells_ok.
Qed.

Lemma observe_frame_input s frame delta at_ :
  last_input_at (observe_frame s frame delta at_) = last_input_at s.
Proof.
  assert (Hv : forall s v, last_input_at (observe_voltage s v at_) = last_input_at s)
    by (intros; apply observe_voltage_same).
  unfold observe_frame. case_bool_decide; [|case_bool_decide; [|destruct (_ || _); [|done]]].
  - case_bool_decide; [|done]. by destruct (d_voltage delta).
  - destruct (bms_summary_decode frame) as [summary|]; [|done]. unfold observe_summary.
    case_bool_decide; [|done]. cbn [negb]. destruct (valid_summary summary).
    + match goal with |- context [is_fresh ?o at_] => destruct (is_fresh o at_) end;
        rewrite ?Hv; case_bool_decide; by destruct s.
    + destruct (is_placeholder summary); [case_bool_decide|]; by destruct s.
  - destruct (cell_page_decode frame); [|done]. unfold observe_cells.
    case_bool_decide; [|done]. cbn [negb]. destruct (_ && _); [|destruct (forallb _ _)].
    + case_bool_decide; by destruct s.
    + by destruct s.
    + by destruct s.
Qed.
Lemma refresh_source_input s at_ : last_input_at (refresh_source s at_) = last_input_at s.
Proof.
  unfold refresh_source. case_bool_decide; [done|]. destruct (_ && _); [by destruct s|].
  case_bool_decide; by destruct s.
Qed.
Lemma ready_result_ok calls l s at_ :
  evidence_ok calls l s -> evidence_ok calls l (ready_result s at_).1 /\
  last_input_at (ready_result s at_).1 = last_input_at s.
Proof.
  intros He. unfold ready_result, charging_result. destruct (ready s at_); [|done].
  destruct (negb _); [|done]. simpl. split; [|by destruct s].
  eapply evidence_same, (evidence_reset_trend _ _ _ He); destruct s; simpl; auto.
Qed.
Lemma expire_trend_ok calls l s at_ :
  evidence_ok calls l s -> evidence_ok calls l (expire_trend s at_).
Proof. intros He. unfold expire_trend. destruct (_ && _); [by apply evidence_reset_trend|done]. Qed.

Lemma evidence_extend calls l s c at_ :
  evidence_ok calls l s -> l <= at_ -> call_time c = Some at_ -> moves c = false ->
  evidence_ok (calls ++ [c]) at_ s.
Proof.
  intros He Hle Ht Hm. unfold evidence_ok in *. destruct (stationary_since s) as [start|]; [|done].
  destruct He as (before & suffix & -> & [H1 H2 H3 H4 H5]). exists before, (suffix ++ [c]).
  split; [by rewrite app_assoc|].
  assert (Hs : start <= l).
  { destruct H1 as (first & rest & -> & _). destruct H2 as [H2 _].
    apply Forall_cons in H2 as [(t & _ & Hb & _) _]. lia. }
  destruct H2 as [H2 Hord].
  split.
  - destruct H1 as (first & rest & -> & Hf). by exists first, (rest ++ [c]).
  - split.
    + apply Forall_app. split; [|constructor; [exists at_; split_ands; [done|lia..|done]|constructor]].
      eapply Forall_impl; [exact H2|]. intros x (t & E & Hb & Hx). exists t. split_ands; try done; lia.
    + apply no_step_back_snoc with at_; [done..|]. eapply Forall_impl; [exact H2|].
      intros x (t & E & Hb & _). exists t. split; [done|lia].
  - intros t E. destruct (H3 t E) as (x & Hx & Hst). exists x. split; [set_solver|done].
  - intros b Hb. destruct (H4 b Hb) as (t0 & x & ? & Hx & ? & ?). exists t0, x.
    split_ands; try done. set_solver.
  - intros Hc. destruct (H5 Hc) as (b & t0 & v & t1 & x & ? & ? & Hx & ? & ? & ?).
    exists b, t0, v, t1, x. split_ands; try done; [set_solver|lia|lia].
Qed.
(** A report of no speed above the threshold. *)
Lemma still_speed_ok calls c at_ s :
  still_at c at_ -> evidence_ok (calls ++ [c]) at_ s ->
  evidence_ok (calls ++ [c]) at_ (stand_still (s <| last_speed_at := Some at_ |>) at_).
Proof.
  intros Hc He. unfold stand_still, evidence_ok in *.
  destruct s as [so ps pc vs rc li sp [start|] lv ts ba pk lr ri ch]; simpl in *.
  - destruct He as (before & suffix & E & Hst). exists before, suffix. split; [done|].
    pose proof (trace_last E (standing_nonempty _ _ _ _ Hst)) as Hin.
    destruct Hst as [H1 H2 H3 H4 H5]. split; try done. simpl. intros t [= <-]. by exists c.
  - destruct He as [-> ->]. exists calls, [c]. split; [done|]. split; simpl; try done.
    + by exists c, [].
    + destruct Hc as (Hct & _ & ?). split.
      * constructor; [|constructor]. exists at_. split_ands; try done.
      * unfold no_step_back. simpl. rewrite Hct. by repeat constructor.
    + intros t [= <-]. exists c. split; [apply list_elem_of_here|done].
Qed.

Lemma went_back_false s at_ l : went_back s at_ = false -> last_input_at s = Some l -> l <= at_.
Proof.
  unfold went_back. intros H E. rewrite E in H. simpl in H. apply bool_decide_eq_false in H. lia.
Qed.
Lemma trace_observe calls s frame delta at_ :
  trace_ok calls s ->
  trace_ok (calls ++ [ChObserve frame delta at_]) (charging_observe s frame delta at_).1.
Proof.
  intros Ht. unfold charging_observe. destruct (went_back s at_) eqn:Hw; [done|].
  set (s1 := if evidence_stale s at_ then _ else s).
  assert (H1 : trace_ok calls s1 /\ went_back s1 at_ = false)
    by (subst s1; by destruct (evidence_stale s at_)).
  clearbody s1. clear s Ht Hw. destruct H1 as [Ht Hw].
  set (c := ChObserve frame delta at_).
  set (s2 := expire_trend s1 at_ <| last_input_at := Some at_ |>).
  assert (H2 : moves c = false -> evidence_ok (calls ++ [c]) at_ s2).
  { intros Hm. subst s2. unfold trace_ok in Ht. destruct (last_input_at s1) as [l|] eqn:El.
    - apply (expire_trend_ok _ _ _ at_) in Ht.
      apply (evidence_extend _ _ _ c at_) in Ht; [|by apply went_back_false with s1|done|done].
      eapply evidence_same, Ht; by destruct (expire_trend s1 at_); simpl; auto.
    - subst s1. done. }
  assert (Hi2 : last_input_at s2 = Some at_) by (subst s2; by destruct (expire_trend s1 at_)).
  clearbody s2. subst c. unfold moves in H2. cbn [call_speed] in H2.
  destruct (d_speed delta) as [m|] eqn:Ed; simpl in H2.
  - destruct (speed_is_moving (m_value m)) eqn:Em; [done|]. specialize (H2 eq_refl).
    assert (H3 : evidence_ok (calls ++ [ChObserve frame delta at_]) at_
                   (stand_still (s2 <| last_speed_at := Some at_ |>) at_)).
    { apply still_speed_ok; [|done]. unfold still_at, moves. cbn [call_time call_speed].
      rewrite Ed. simpl. split_ands; [done|by eexists|done]. }
    apply (observe_frame_ok calls frame delta at_), refresh_source_ok, (ready_result_ok _ _ _ at_) in H3.
    destruct H3 as [H3 Hi]. unfold trace_ok.
    rewrite Hi, refresh_source_input, observe_frame_input.
    replace (last_input_at (stand_still _ at_)) with (Some at_); [done|].
    rewrite <- Hi2. unfold stand_still. destruct s2 as [? ? ? ? ? ? ? [|] ? ? ? ? ? ? ?]; done.
  - specialize (H2 eq_refl).
    apply (observe_frame_ok calls frame delta at_), refresh_source_ok, (ready_result_ok _ _ _ at_) in H2.
    destruct H2 as [H2 Hi]. unfold trace_ok. by rewrite Hi, refresh_source_input, observe_frame_input, Hi2.
Qed.

Lemma trace_tick calls s at_ :
  trace_ok calls s -> trace_ok (calls ++ [ChTick at_]) (charging_tick s at_).1.
Proof.
  intros Ht. unfold charging_tick. destruct (went_back s at_) eqn:Hw; [done|].
  destruct (evidence_stale s at_); [done|].
  assert (H2 : evidence_ok (calls ++ [ChTick at_]) at_ (expire_trend (s <| last_input_at := Some at_ |>) at_)).
  { apply expire_trend_ok. unfold trace_ok in Ht. destruct (last_input_at s) as [l|] eqn:El.
    - apply (evidence_extend _ _ _ (ChTick at_) at_) in Ht; [|by apply went_back_false with s|done|done].
      eapply evidence_same, Ht; by destruct s; simpl; auto.
    - by subst s. }
  apply (ready_result_ok _ _ _ at_) in H2 as [H2 Hi]. unfold trace_ok. rewrite Hi.
  replace (last_input_at _) with (Some at_); [done|].
  unfold expire_trend. destruct (_ && _); by destruct s.
Qed.
Lemma trace_step calls s c :
  trace_ok calls s -> trace_ok (calls ++ [c]) (charging_step s c).1.
Proof.
  intros Ht. destruct c as [frame delta at_|at_|]; simpl; [| |done].
  - pose proof (trace_observe calls s frame delta at_ Ht) as H.
    by destruct (charging_observe s frame delta at_).
  - pose proof (trace_tick calls s at_ Ht) as H. by destruct (charging_tick s at_).
Qed.
Lemma trace_run calls : trace_ok calls (run_state charging_step default_charging calls).
Proof.
  induction calls as [|c calls IH] using rev_ind; [done|].
  rewrite run_state_snoc. by apply trace_step.
Qed.

(** An answer of charging comes from a ready state that charges. *)
Lemma ready_charging s at_ :
  m_value (ready_result s at_).2 = Charging ->
  (ready_result s at_).1 = s /\ charging s = true /\ ready s at_ = true /\
  exists start, stationary_since s = Some start /\ start + SETTLE <= at_.
Proof.
  unfold ready_result, charging_result. destruct (ready s at_); [|done].
  destruct (stationary_since s) as [start|]; simpl; [|done]. case_bool_decide; simpl; [|done].
  destruct (charging s); [|done]. intros _. split_ands; try done. exists start. split; [done|].
  by apply elapsed_le.
Qed.
Lemma step_charging s c m :
  (charging_step s c).2 = Some m -> m_value m = Charging ->
  exists at_, call_time c = Some at_ /\ last_input_at (charging_step s c).1 = Some at_ /\
    charging (charging_step s c).1 = true /\ ready (charging_step s c).1 at_ = true.
Proof.
  destruct c as [frame delta at_|at_|]; simpl; [| |done].
  - unfold charging_observe. destruct (went_back s at_); [by intros [= <-]|].
    set (s2 := expire_trend _ at_ <| last_input_at := Some at_ |>).
    assert (Hi2 : last_input_at s2 = Some at_) by (subst s2; by destruct (expire_trend _ at_)).
    clearbody s2. destruct (d_speed delta) as [sp|]; [destruct (speed_is_moving _); [by intros [= <-]|]|].
    all: match goal with |- context [observe_frame ?x _ _ _] => set (s3 := x) end;
      assert (Hi3 : last_input_at s3 = Some at_)
        by (subst s3; unfold stand_still; destruct s2 as [? ? ? ? ? ? ? [|] ? ? ? ? ? ? ?]; done);
      clearbody s3; pose proof (ready_charging (refresh_source (observe_frame s3 frame delta at_) at_) at_) as Hr;
      destruct (ready_result _ at_) as [s4 r]; simpl; intros [= ->] Hm; destruct (Hr Hm) as (E & Hc & Hrd & _);
      simpl in E; subst s4; exists at_; split_ands; try done; by rewrite refresh_source_input, observe_frame_input.
  - unfold charging_tick. destruct (went_back s at_); [by intros [= <-]|].
    destruct (evidence_stale s at_); [by intros [= <-]|].
    pose proof (ready_charging (expire_trend (s <| last_input_at := Some at_ |>) at_) at_) as Hr.
    destruct (ready_result _ at_) as [s4 r]. simpl. intros [= ->] Hm. destruct (Hr Hm) as (E & Hc & Hrd & _).
    simpl in E. subst s4. exists at_. split_ands; try done. unfold expire_trend.
    destruct (_ && _); by destruct s.
Qed.

(** C34: charging is inferred only from a sustained rise while standing.  If an
    input after any trace answers that the wheel charges, then the trace ends
    in a stretch of inputs, none of them older than the one before it, that
    begins with a report that the wheel is still, in which no moving speed is
    reported and the last still speed is at most five seconds old; within it
    one source showed two voltages at least 200 mV apart, the lower one a
    minute or more after the beginning and the higher one two minutes or more
    after that. *)
Theorem charging_is_earned calls c m :
  (charging_step (run_state charging_step default_charging calls) c).2 = Some m ->
  m_value m = Charging ->
  exists at_ before first rest start seen,
    call_time c = Some at_ /\ calls ++ [c] = before ++ first :: rest /\ still_at first start /\
    Forall (fun c => exists t, call_time c = Some t /\ start <= t <= at_ /\ moves c = false)
      (first :: rest) /\
    no_step_back (first :: rest) /\
    (exists x, x ∈ first :: rest /\ still_at x seen) /\ seen <= at_ <= seen + FRESH /\
    exists k low t0 high t1,
      (exists x, x ∈ first :: rest /\ shows k x low t0) /\
      (exists x, x ∈ first :: rest /\ shows k x high t1) /\
      start + SETTLE <= t0 /\ t0 + TREND <= t1 <= at_ /\ low + REQUIRED_RISE_MV <= high.
Proof.
  intros Hr Hm. destruct (step_charging _ _ _ Hr Hm) as (at_ & Ht & Hi & Hc & Hrd).
  pose proof (trace_run (calls ++ [c])) as Htr. rewrite run_state_snoc in Htr. unfold trace_ok in Htr.
  set (s := (charging_step _ c).1) in *. rewrite Hi in Htr. unfold evidence_ok in Htr.
  destruct (stationary_since s) as [start|]; [|destruct Htr; congruence].
  destruct Htr as (before & suffix & E & [H1 H2 H3 H4 H5]).
  destruct H1 as (first & rest & -> & Hf).
  unfold ready in Hrd. apply andb_true_iff in Hrd as [[Hsp _]%andb_true_iff _].
  unfold is_fresh in Hsp. destruct (last_speed_at s) as [seen|]; [|done].
  unfold is_some_and, fresh in Hsp. apply andb_true_iff in Hsp as [Hs1%bool_decide_eq_true Hs2%bool_decide_eq_true].
  destruct (H5 Hc) as (b & t0 & v & t1 & x1 & Hb & Htr & Hx1 & Hsh & Hle & Hrise).
  destruct (H4 b Hb) as (t0' & x0 & Htr' & Hx0 & Hsh0 & Hst). assert (t0' = t0) by congruence. subst t0'.
  destruct H2 as [H2 Hord].
  exists at_, before, first, rest, start, seen. split_ands; try done; try lia.
  - by apply H3.
  - unfold elapsed, sat_sub in Hs2. lia.
  - exists (source s), b, t0, v, t1. split_ands; try done; try lia; eauto.
Qed.

(** A wheel on its charger: placeholder battery frames, standing, 210 mV up. *)
Definition still_delta (at_ : Z) (voltage : option Z) : TelemetryDelta :=
  delta_empty at_ <| d_speed := Some (reported 0) |> <| d_voltage := reported <$> voltage |>.
Definition charger_voltage (at_ : Z) : Z :=
  if bool_decide (120000 <= at_) then 80210 else if bool_decide (100000 <= at_) then 80130
  else if bool_decide (80000 <= at_) then 80060 else 80000.
Definition charger_calls (at_ : Z) : list ChargingCall :=
  [ChObserve (summary_frame 1 0 0 985 0 0 5000 0 0) (still_delta at_ None) at_;
   ChObserve (cells_frame 0 0 (replicate 8 0)) (still_delta at_ None) at_;
   ChObserve (wheel_frame (replicate 16 0) 0 0) (still_delta at_ (Some (charger_voltage at_))) at_].
Definition on_charger (n : nat) : list ChargingCall :=
  seq 0 n ≫= (fun i => charger_calls (Z.of_nat i * 5000)).
Lemma charging_is_earned_witness :
  exists at_, call_time (ChTick 180001) = Some at_ /\ at_ = 180001.
Proof.
  destruct (charging_is_earned (on_charger 37) (ChTick 180001) (estimated Charging)) as (at_ & _ & _ & _ & _ & _ & H & _).
  - vm_compute. reflexivity.
  - reflexivity.
  - exists at_. split; [exact H|]. by injection H.
Defined.

(** ** The next tick *)

Definition upto (o : option Z) (l : Z) : Prop := match o with Some t => t <= l | None => True end.
Record times_ok (l : Z) (s : BegodeCharging) : Prop := {
  to_placeholder_summary : upto (placeholder_summary_at s) l;
  to_placeholder_cells : upto (placeholder_cells_at s) l;
  to_valid_summary : upto (valid_summary_at s) l;
  to_real_cells : upto (real_cells_at s) l;
  to_speed : upto (last_speed_at s) l;
  to_voltage : upto (last_voltage_at s) l;
  to_rise : upto (last_rise_at s) l;
  to_rises : 0 < rises s -> is_Some (last_rise_at s);
  to_charging : charging s = true -> is_Some (last_rise_at s);
}.
Lemma times_default l : times_ok l default_charging.
Proof. by split. Qed.
Lemma upto_le o l l' : upto o l -> l <= l' -> upto o l'.
Proof. destruct o; simpl; lia. Qed.
Lemma times_le l l' s : times_ok l s -> l <= l' -> times_ok l' s.
Proof. intros [] ?. split; eauto using upto_le. Qed.
#[local] Hint Extern 1 (upto (Some _) _) => (simpl; lia) : core.
#[local] Hint Extern 1 (upto None _) => exact I : core.
(** The state is a constructor: each field is as before, this moment or dropped. *)
Ltac times_auto :=
  match goal with H : times_ok _ ?s |- _ => destruct H; destruct s; simpl in *; split; simpl; auto end;
  try done; try lia.
Lemma times_reset_trend l s : times_ok l s -> times_ok l (reset_trend s).
Proof. intros H. times_auto. Qed.
Lemma times_extend_trend l s mv : times_ok l s -> times_ok l (extend_trend s mv l).
Proof.
  intros H. unfold extend_trend. set (s1 := if is_some_and (peak_mv s) _ then reset_trend s else s).
  assert (H1 : times_ok l s1) by (subst s1; destruct (is_some_and _ _); auto using times_reset_trend).
  clearbody s1. clear H. set (s2 := match baseline_mv s1 with None => _ | Some _ => _ end).
  assert (H2 : times_ok l s2) by (subst s2; destruct (baseline_mv s1); [done|times_auto]).
  clearbody s2. clear H1. assert (H3 : times_ok l (follow_peak s2 mv l)).
  { unfold follow_peak. match goal with |- context [bool_decide ?P] => destruct (bool_decide P) end.
    - match goal with |- context [is_none_or ?o ?f] => destruct (is_none_or o f) end; times_auto.
    - times_auto. }
  revert H3. generalize (follow_peak s2 mv l). intros s3 H3.
  destruct (bool_decide_reflect (3 <= rises (s3 <| last_voltage_at := Some l |>))) as [Hr|]; cbn [andb].
  - destruct (_ && _); destruct H3; destruct s3; simpl in *; split; simpl; auto; try lia;
      intros _; apply to_rises0; lia.
  - times_auto.
Qed.
Lemma times_observe_voltage l s v : times_ok l s -> times_ok l (observe_voltage s v l).
Proof.
  intros H. unfold observe_voltage. case_bool_decide; [done|]. case_bool_decide; [times_auto|].
  destruct (is_some_and _ _); [by apply times_reset_trend|].
  destruct (is_none_or _ _); [times_auto|by apply times_extend_trend].
Qed.
Lemma times_observe_frame l s frame delta :
  times_ok l s -> times_ok l (observe_frame s frame delta l).
Proof.
  intros H. unfold observe_frame. case_bool_decide; [|case_bool_decide; [|destruct (_ || _); [|done]]].
  - case_bool_decide; [|done]. destruct (d_voltage delta); [by apply times_observe_voltage|done].
  - destruct (bms_summary_decode frame) as [summary|]; [|done]. unfold observe_summary.
    case_bool_decide; [|done]. cbn [negb]. destruct (valid_summary summary).
    + match goal with |- times_ok _ (if _ then observe_voltage ?x _ _ else _) =>
        assert (Hx : times_ok l x) by (case_bool_decide; times_auto); revert Hx; generalize x end.
      intros s1 Hs1. destruct (is_fresh _ _); [by apply times_observe_voltage|done].
    + destruct (is_placeholder summary); [case_bool_decide|]; times_auto.
  - destruct (cell_page_decode frame); [|done]. unfold observe_cells.
    case_bool_decide; [|done]. cbn [negb]. destruct (_ && _); [|destruct (forallb _ _)].
    + case_bool_decide; times_auto.
    + times_auto.
    + times_auto.
Qed.
Lemma times_refresh_source l s : times_ok l s -> times_ok l (refresh_source s l).
Proof.
  intros H. unfold refresh_source. case_bool_decide; [done|]. destruct (_ && _); [times_auto|].
  case_bool_decide; [times_auto|done].
Qed.
Lemma times_ready_result l s : times_ok l s -> times_ok l (ready_result s l).1.
Proof.
  intros H. unfold ready_result, charging_result. destruct (ready s l); [|done].
  destruct (negb _); [|done]. simpl. times_auto.
Qed.
Lemma times_expire_trend l s : times_ok l s -> times_ok l (expire_trend s l).
Proof. intros H. unfold expire_trend. destruct (_ && _); [by apply times_reset_trend|done]. Qed.

Lemma observe_input s frame delta at_ :
  let s' := (charging_observe s frame delta at_).1 in
  last_input_at s' = Some at_ \/ s' = default_charging.
Proof.
  cbv zeta. unfold charging_observe. destruct (went_back s at_); [by right|]. left.
  set (s2 := expire_trend _ at_ <| last_input_at := Some at_ |>).
  assert (Hi2 : last_input_at s2 = Some at_) by (subst s2; by destruct (expire_trend _ at_)).
  clearbody s2.
  assert (Hr : forall s, last_input_at (ready_result s at_).1 = last_input_at s).
  { intros s'. unfold ready_result, charging_result. destruct (ready s' at_); [|done].
    destruct (negb _); by destruct s'. }
  destruct (d_speed delta) as [m|]; [destruct (speed_is_moving _); [done|]|];
    rewrite Hr, refresh_source_input, observe_frame_input; [|done].
  unfold stand_still. destruct s2 as [? ? ? ? ? ? ? [|] ? ? ? ? ? ? ?]; done.
Qed.
Lemma tick_input s at_ :
  let s' := (charging_tick s at_).1 in last_input_at s' = Some at_ \/ s' = default_charging.
Proof.
  cbv zeta. unfold charging_tick. destruct (went_back s at_); [by right|]. left.
  destruct (evidence_stale s at_); [done|].
  unfold ready_result, charging_result, expire_trend.
  destruct (charging _ && _); match goal with |- context [ready ?x at_] => destruct (ready x at_) end;
    try (destruct (negb _)); by destruct s.
Qed.
Lemma times_observe l s frame delta at_ :
  (forall l', last_input_at s = Some l' -> l' = l) -> (last_input_at s = None -> s = default_charging) ->
  times_ok l s -> times_ok at_ (charging_observe s frame delta at_).1.
Proof.
  intros Hl Hn H. unfold charging_observe. destruct (went_back s at_) eqn:Hw; [apply times_default|].
  assert (H0 : times_ok at_ s).
  { destruct (last_input_at s) as [l'|] eqn:E.
    - rewrite (Hl l' eq_refl) in E. apply (times_le l); [done|]. by apply (went_back_false s).
    - rewrite (Hn eq_refl). apply times_default. }
  clear H Hl Hn Hw. set (s1 := if evidence_stale s at_ then _ else s).
  assert (H1 : times_ok at_ s1) by (subst s1; destruct (evidence_stale s at_); [apply times_default|done]).
  clearbody s1. clear H0. apply times_expire_trend in H1. revert H1. generalize (expire_trend s1 at_).
  intros s2 H2. assert (H3 : times_ok at_ (s2 <| last_input_at := Some at_ |>)) by times_auto.
  revert H3. generalize (s2 <| last_input_at := Some at_ |>). intros s3 H3. clear H2 s2.
  destruct (d_speed delta) as [m|]; [destruct (speed_is_moving _)|].
  - split; simpl; auto; done.
  - apply times_ready_result, times_refresh_source, times_observe_frame.
    unfold stand_still. destruct H3, s3 as [? ? ? ? ? ? ? [|] ? ? ? ? ? ? ?]; split; simpl in *;
      auto; try done; lia.
  - by apply times_ready_result, times_refresh_source, times_observe_frame.
Qed.
Lemma times_tick l s at_ :
  (forall l', last_input_at s = Some l' -> l' = l) -> (last_input_at s = None -> s = default_charging) ->
  times_ok l s -> times_ok at_ (charging_tick s at_).1.
Proof.
  intros Hl Hn H. unfold charging_tick. destruct (went_back s at_) eqn:Hw; [apply times_default|].
  destruct (evidence_stale s at_); [split; simpl; auto; done|].
  assert (H0 : times_ok at_ s).
  { destruct (last_input_at s) as [l'|] eqn:E.
    - rewrite (Hl l' eq_refl) in E. apply (times_le l); [done|]. by apply (went_back_false s).
    - rewrite (Hn eq_refl). apply times_default. }
  apply times_ready_result, times_expire_trend. clear H. times_auto.
Qed.
Lemma times_run calls :
  times_ok (default 0 (last_input_at (run_state charging_step default_charging calls)))
    (run_state charging_step default_charging calls).
Proof.
  induction calls as [|c calls IH] using rev_ind; [apply times_default|].
  pose proof (trace_run calls) as Ht. rewrite run_state_snoc.
  set (s := run_state charging_step default_charging calls) in *.
  assert (Hl : forall l', last_input_at s = Some l' -> l' = default 0 (last_input_at s)) by (by intros ? ->).
  assert (Hn : last_input_at s = None -> s = default_charging)
    by (intros E; unfold trace_ok in Ht; by rewrite E in Ht).
  assert (Hd : forall l s', times_ok l s' -> last_input_at s' = Some l \/ s' = default_charging ->
            times_ok (default 0 (last_input_at s')) s').
  { intros l s' H [-> | ->]; [done|apply times_default]. }
  destruct c as [frame delta at_|at_|]; simpl; [| |apply times_default].
  - pose proof (times_observe _ s frame delta at_ Hl Hn IH) as H.
    pose proof (observe_input s frame delta at_) as Hi.
    destruct (charging_observe s frame delta at_). by apply (Hd at_).
  - pose proof (times_tick _ s at_ Hl Hn IH) as H. pose proof (tick_input s at_) as Hi.
    destruct (charging_tick s at_). by apply (Hd at_).
Qed.

Lemma is_fresh_true o at_ : is_fresh o at_ = true <-> exists t, o = Some t /\ t <= at_ <= t + FRESH.
Proof.
  unfold is_fresh, fresh, elapsed, FRESH. destruct o as [t|]; simpl.
  - rewrite andb_true_iff, !bool_decide_eq_true. split.
    + intros [? ?]. exists t. split; [done|]. int_lia.
    + intros (? & [= <-] & ?). int_lia.
  - split; [done|]. by intros (? & ? & _).
Qed.
Lemma fresh_not_stale o at_ : is_fresh o at_ = true -> stale o at_ = false.
Proof. unfold is_fresh, stale. destruct o; simpl; [|done]. by intros ->. Qed.
(** The evidence that must be fresh, by the source in use. *)
Definition source_fresh (s : BegodeCharging) (at_ : Z) : bool :=
  match source s with
  | SourceUnknown => false
  | Placeholders => is_fresh (placeholder_summary_at s) at_ && is_fresh (placeholder_cells_at s) at_
  | Usable => is_fresh (valid_summary_at s) at_ && is_fresh (real_cells_at s) at_
  end.
Lemma ready_not_stale s at_ : ready s at_ = true -> evidence_stale s at_ = false.
Proof.
  unfold ready, evidence_stale. rewrite !andb_true_iff. intros [[H1 H2] H3].
  rewrite !fresh_not_stale by done. simpl. destruct (source s); [done|..];
    apply andb_true_iff in H3 as [H3 H4]; by rewrite !fresh_not_stale.
Qed.

(** While nothing has expired the next tick lies ahead, and conversely. *)
Ltac open_all :=
  repeat match goal with H : _ /\ _ |- _ => destruct H | H : exists _, _ |- _ => destruct H end;
  simplify_eq/=.
Ltac missing_evidence := split; intros; open_all; discriminate.
Lemma next_tick_ahead l s at_ :
  times_ok l s -> l <= at_ < u64_max ->
  (exists t, next_tick_at s = Some t /\ at_ < t) <->
  charging s = true /\ ready s at_ = true /\
  exists r, last_rise_at s = Some r /\ at_ <= r + TREND.
Proof.
  intros Hto Hl. unfold next_tick_at, ready.
  destruct (charging s); cbn [negb]; [|missing_evidence].
  rewrite !andb_true_iff, !is_fresh_true.
  destruct Hto as [U1 U2 U3 U4 U5 U6 U7 _ _].
  destruct (last_speed_at s) as [sp|]; simpl in *; [|missing_evidence].
  destruct (last_voltage_at s) as [v|]; simpl in *; [|missing_evidence].
  destruct (last_rise_at s) as [r|]; simpl in *.
  2: { destruct (source s), (placeholder_summary_at s), (placeholder_cells_at s),
         (valid_summary_at s), (real_cells_at s); simpl in *; missing_evidence. }
  unfold timestamp_saturating_add_duration, FRESH, TREND.
  destruct (source s); simpl in *; [missing_evidence|..]; rewrite andb_true_iff, !is_fresh_true.
  - destruct (placeholder_summary_at s) as [a|], (placeholder_cells_at s) as [b|]; simpl in *;
      try missing_evidence; unfold FRESH; split; intros; open_all.
    + split_ands; try done; eexists; (split; [done|int_lia]).
    + eexists; (split; [done|int_lia]).
  - destruct (valid_summary_at s) as [a|], (real_cells_at s) as [b|]; simpl in *;
      try missing_evidence; unfold FRESH; split; intros; open_all.
    + split_ands; try done; eexists; (split; [done|int_lia]).
    + eexists; (split; [done|int_lia]).
Qed.

(** When a charging trace still counts at a later instant. *)
Lemma tick_charges calls at_ :
  let s := run_state charging_step default_charging calls in
  default 0 (last_input_at s) <= at_ ->
  (m_value (charging_tick s at_).2 = Charging <->
   charging s = true /\ ready s at_ = true /\
   exists r, last_rise_at s = Some r /\ at_ <= r + TREND).
Proof.
  cbv zeta. pose proof (trace_run calls) as Ht. pose proof (times_run calls) as Hto.
  set (s := run_state charging_step default_charging calls) in *. intros Hle.
  unfold charging_tick. replace (went_back s at_) with false.
  2: { unfold went_back. destruct (last_input_at s); simpl in *; [|done].
       symmetry. apply bool_decide_eq_false. lia. }
  assert (Hr : forall x, ready (x <| last_input_at := Some at_ |>) at_ = ready x at_) by (by intros []).
  split.
  - destruct (evidence_stale s at_); [done|]. intros Hm. apply ready_charging in Hm as (_ & Hc & Hrd & _).
    unfold expire_trend in Hc, Hrd.
    replace (charging (s <| last_input_at := Some at_ |>)) with (charging s) in * by (by destruct s).
    replace (last_rise_at (s <| last_input_at := Some at_ |>)) with (last_rise_at s) in * by (by destruct s).
    destruct (charging s) eqn:Ec; cbn [andb] in *; [|destruct s; simpl in *; congruence].
    destruct (to_charging _ _ Hto Ec) as [r Er]. rewrite Er in *. cbn [is_some_and] in *.
    case_bool_decide as Hlt; [destruct s; simpl in *; congruence|]. rewrite Hr in Hrd. split_ands; try done.
    exists r. split; [done|]. unfold elapsed, sat_sub in Hlt. unfold TREND in *. lia.
  - intros (Hc & Hrd & r & Er & Hb). rewrite (ready_not_stale _ _ Hrd). unfold expire_trend.
    replace (last_rise_at (s <| last_input_at := Some at_ |>)) with (last_rise_at s) by (by destruct s).
    rewrite Er. cbn [is_some_and]. rewrite (bool_decide_false (TREND < elapsed r at_)), andb_false_r
      by (unfold elapsed, sat_sub, TREND in *; lia).
    unfold ready_result. rewrite Hr, Hrd. unfold charging_result.
    replace (charging (s <| last_input_at := Some at_ |>)) with true by (by destruct s).
    replace (stationary_since (s <| last_input_at := Some at_ |>)) with (stationary_since s) by (by destruct s).
    unfold trace_ok in Ht. destruct (last_input_at s) as [l|]; [|by rewrite Ht in Hc].
    unfold evidence_ok in Ht. destruct (stationary_since s) as [start|]; [|destruct Ht; congruence].
    destruct Ht as (before & suffix & _ & [_ _ _ H4 H5]). destruct (H5 Hc) as (b & t0 & v & t1 & c & Hb1 & Ht0 & _ & _ & Ht1 & _).
    destruct (H4 b Hb1) as (t0' & _ & Ht0' & _ & _ & Hs). assert (t0' = t0) by congruence. subst t0'.
    simpl. simpl in Hle. rewrite bool_decide_true; [done|]. unfold elapsed, sat_sub, SETTLE, TREND in *. lia.
Qed.

(** The wake-up of the charging inference is exact.  After any trace, and
    as long as no further input arrives, a tick at any later instant answers
    that the wheel charges exactly while the announced wake-up lies ahead: the
    answer never expires before it, at it the answer is gone, and with no
    wake-up announced the answer is not charging. *)
Theorem charging_wakeup_exact calls at_ :
  let s := run_state charging_step default_charging calls in
  default 0 (last_input_at s) <= at_ < u64_max ->
  (m_value (charging_tick s at_).2 = Charging <->
   exists t, next_tick_at s = Some t /\ at_ < t).
Proof.
  cbv zeta. intros Hl.
  rewrite (next_tick_ahead _ _ at_ (times_run calls) Hl). apply tick_charges. lia.
Qed.
Lemma charging_wakeup_exact_witness :
  let s := run_state charging_step default_charging (on_charger 37) in
  next_tick_at s = Some 185001 /\ m_value (charging_tick s 185000).2 = Charging /\
  m_value (charging_tick s 185001).2 <> Charging.
Proof.
  cbv zeta. split; [vm_compute; reflexivity|]. split.
  - apply charging_wakeup_exact; [vm_compute; split; [discriminate|reflexivity]|].
    exists 185001. split; vm_compute; reflexivity.
  - rewrite (charging_wakeup_exact (on_charger 37) 185001) by (vm_compute; split; [discriminate|reflexivity]).
    intros (t & H & Hlt).
    assert (E : next_tick_at (run_state charging_step default_charging (on_charger 37)) = Some 185001)
      by (vm_compute; reflexivity).
    rewrite E in H. injection H as <-. lia.
Defined.
