(* ===== verification/Settings.v ===== *)
(** * Settings writes and their confirmation

    [cutout-core/src/settings.rs]: the life of one typed setting write
    ([SettingState]).  [cutout-core/src/device_settings.rs]: the per-session
    owner of every setting ([DeviceSettingsState]), which orders readback,
    follows the host transport and times confirmations out.  The process-wide
    counter [NEXT_REQUEST_ID] is threaded through [submission].  The [BTreeMap]
    of records is a [gmap]; where the code iterates over it, it goes through
    [all_settings], whose order is the derived order of the keys. *)

From S2P Require Import Prelude.
From S2P Require Import Quantities Commands.
Import SettingIds (SettingId, all_settings).

Definition SETTING_CONFIRMATION_TIMEOUT : Z := 2000.

Inductive SettingCompletionStrategy := SubmissionOnly | MatchingReadback.
Definition supports_readback (c : SettingCompletionStrategy) : bool :=
  match c with MatchingReadback => true | SubmissionOnly => false end.

Inductive SettingValueSource := LiveReadback | CaptureReplay | UserRequest | SourceUnknown.
Inductive SettingCommandStatus :=
| StatusIdle | WaitingForConfirmation | SentWithoutConfirmation | StatusTimedOut
| StatusConfirmed | StatusRefused | StatusFailed.
Inductive SettingTransportStatus := Accepted | Queued | Submitted | TransportRejected | Cancelled.

#[global] Instance setting_source_eq_dec : EqDecision SettingValueSource.
Proof. solve_decision. Defined.
#[global] Instance transport_status_eq_dec : EqDecision SettingTransportStatus.
Proof. solve_decision. Defined.
#[global] Instance command_status_eq_dec : EqDecision SettingCommandStatus.
Proof. solve_decision. Defined.
#[global] Instance completion_eq_dec : EqDecision SettingCompletionStrategy.
Proof. solve_decision. Defined.

Record SettingValue (V : Type) := { sv_value : V; sv_source : SettingValueSource }.
Arguments Build_SettingValue {V} _ _.
Arguments sv_value {V} _.
Arguments sv_source {V} _.
#[global] Instance setting_value_dec `{EqDecision V} : EqDecision (SettingValue V).
Proof. solve_decision. Defined.

Inductive SettingState (V : Type) :=
| StUnknown
| StCurrent (v : SettingValue V)
| StPending (current : option (SettingValue V)) (requested : V) (submitted_at : option Z)
| StConfirmed (value : SettingValue V) (confirmed_at : Z)
| StRefused (current : option (SettingValue V)) (requested : option V)
            (reason : ControlRefusalReason)
| StTimedOut (current : option (SettingValue V)) (requested : V)
| StFailed (current : option (SettingValue V)) (requested : option V).
Arguments StUnknown {V}.
Arguments StCurrent {V} _.
Arguments StPending {V} _ _ _.
Arguments StConfirmed {V} _ _.
Arguments StRefused {V} _ _ _.
Arguments StTimedOut {V} _ _.
Arguments StFailed {V} _ _.
#[global] Instance setting_state_eq_dec `{EqDecision V} : EqDecision (SettingState V).
Proof. solve_decision. Defined.

(** ** One setting write *)

Section Reducer.
Context {V : Type} `{!EqDecision V}.

Definition current_readback (s : SettingState V) : option (SettingValue V) :=
  match s with
  | StUnknown => None
  | StCurrent v | StConfirmed v _ => Some v
  | StPending c _ _ | StRefused c _ _ | StTimedOut c _ | StFailed c _ => c
  end.

Definition requested_value (s : SettingState V) : option V :=
  match s with
  | StPending _ r _ | StTimedOut _ r => Some r
  | StRefused _ r _ | StFailed _ r => r
  | StUnknown | StCurrent _ | StConfirmed _ _ => None
  end.

Definition submit (s : SettingState V) (requested : V) (at_ : Z) : SettingState V :=
  StPending (current_readback s) requested (Some at_).
Definition await_transport (s : SettingState V) : SettingState V :=
  match s with StPending c r _ => StPending c r None | _ => s end.
Definition transport_submitted (s : SettingState V) (at_ : Z) : SettingState V :=
  match s with StPending c r _ => StPending c r (Some at_) | _ => s end.

Definition confirm_from (s : SettingState V) (value : V) (source : SettingValueSource)
    (confirmed_at : Z) : SettingState V * bool :=
  match s with
  | StPending _ requested (Some submitted_at) =>
      if negb (bool_decide (requested = value)) || bool_decide (confirmed_at < submitted_at)
      then (s, false)
      else (StConfirmed {| sv_value := value; sv_source := source |} confirmed_at, true)
  | _ => (s, false)
  end.
Definition confirm (s : SettingState V) (value : V) (at_ : Z) : SettingState V * bool :=
  confirm_from s value LiveReadback at_.

Definition terminal_readback_matches (s : SettingState V) (value : V) : bool :=
  match s with
  | StConfirmed c _ | StRefused (Some c) _ _ | StTimedOut (Some c) _ | StFailed (Some c) _ =>
      bool_decide (sv_value c = value)
  | StUnknown | StCurrent _ | StPending _ _ _ | StRefused None _ _ | StTimedOut None _
  | StFailed None _ => false
  end.

Definition observe (s : SettingState V) (value : V) (source : SettingValueSource)
    (observed_at : Z) : SettingState V * bool :=
  match confirm_from s value source observed_at with
  | (s', true) => (s', true)
  | (_, false) =>
      if terminal_readback_matches s value then (s, false) else
      let reading := {| sv_value := value; sv_source := source |} in
      match s with
      | StFailed _ r => (StFailed (Some reading) r, false)
      | StPending _ r submitted_at =>
          if match submitted_at with Some t => bool_decide (t <= observed_at) | None => true end
          then (StPending (Some reading) r submitted_at, false) else (s, false)
      | _ => (StCurrent reading, false)
      end
  end.

Definition refuse (s : SettingState V) (reason : ControlRefusalReason) : SettingState V :=
  StRefused (current_readback s) (requested_value s) reason.
Definition timeout (s : SettingState V) : SettingState V :=
  match s with StPending c r _ => StTimedOut c r | _ => s end.
Definition timeout_if_elapsed (s : SettingState V) (now limit : Z) : SettingState V * bool :=
  match s with
  | StPending _ _ (Some submitted_at) =>
      if bool_decide (sat_sub now submitted_at < limit) then (s, false) else (timeout s, true)
  | _ => (s, false)
  end.
Definition fail_state (s : SettingState V) : SettingState V :=
  StFailed (current_readback s) (requested_value s).

Definition command_status (s : SettingState V) (now : Z) (c : SettingCompletionStrategy)
  : SettingCommandStatus :=
  match s with
  | StUnknown | StCurrent _ => StatusIdle
  | StPending _ _ None => WaitingForConfirmation
  | StPending _ _ (Some submitted_at) =>
      if negb (supports_readback c) then SentWithoutConfirmation
      else if bool_decide (SETTING_CONFIRMATION_TIMEOUT <= sat_sub now submitted_at)
      then StatusTimedOut else WaitingForConfirmation
  | StConfirmed _ _ => StatusConfirmed
  | StRefused _ _ _ => StatusRefused
  | StTimedOut _ _ => StatusTimedOut
  | StFailed _ _ => StatusFailed
  end.
End Reducer.

(** ** The settings of one device session *)

Inductive SettingSubmissionOutcome :=
| SubAccepted | SubRefused (reason : ControlRefusalReason) | SubFailed.

Record SettingRecord := {
  r_state : SettingState DeviceSettingValue;
  r_observed_at : option Z;
  r_evidence : option (Measured unit);
  r_completion : SettingCompletionStrategy;
  r_transport : option SettingTransportStatus;
  r_request_id : option Z;
  r_transport_at : option Z;
}.
#[global] Instance eta_record : Eta SettingRecord := fun r =>
  Build_SettingRecord (r_state r) (r_observed_at r) (r_evidence r) (r_completion r)
    (r_transport r) (r_request_id r) (r_transport_at r).

Definition default_record : SettingRecord :=
  {| r_state := StUnknown; r_observed_at := None; r_evidence := None;
     r_completion := MatchingReadback; r_transport := None; r_request_id := None;
     r_transport_at := None |}.

Record DeviceSettingsState := {
  records : gmap SettingId SettingRecord;
  managed_transport : bool;
}.
#[global] Instance eta_settings : Eta DeviceSettingsState := fun r =>
  Build_DeviceSettingsState (records r) (managed_transport r).
Definition default_settings : DeviceSettingsState :=
  {| records := ∅; managed_transport := false |}.

Definition require_managed_transport (s : DeviceSettingsState) : DeviceSettingsState :=
  s <| managed_transport := true |>.

(** [self.records.entry(id).or_default()], updated in place. *)
Definition entry (s : DeviceSettingsState) (id : SettingId) : SettingRecord :=
  default default_record (records s !! id).
Definition put (s : DeviceSettingsState) (id : SettingId) (r : SettingRecord)
  : DeviceSettingsState := s <| records := <[id := r]> (records s) |>.

(** The guard shared by readback and its invalidation. *)
Definition out_of_order (r : SettingRecord) (observed_at : Z) : bool :=
  is_some_and (r_observed_at r) (fun latest => bool_decide (observed_at < latest))
  || match r_state r with
     | StPending _ _ (Some t) => bool_decide (observed_at < t)
     | _ => false
     end.

Definition invalidate_state (s : SettingState DeviceSettingValue)
  : SettingState DeviceSettingValue :=
  match s with
  | StPending _ r t => StPending None r t
  | StRefused _ r x => StRefused None r x
  | StTimedOut _ r => StTimedOut None r
  | StFailed _ r => StFailed None r
  | _ => StUnknown
  end.
Definition invalidate_readback (s : DeviceSettingsState) (id : SettingId) (observed_at : Z)
  : DeviceSettingsState :=
  let r := entry s id in
  if out_of_order r observed_at then put s id r else
  put s id (r <| r_state := invalidate_state (r_state r) |> <| r_evidence := None |>
              <| r_observed_at := Some observed_at |>).

Definition usable_confirmation (v : SettingValue DeviceSettingValue)
    (evidence : option (Measured unit)) : bool :=
  bool_decide (sv_source v = LiveReadback)
  && match evidence with
     | Some e => bool_decide (m_source e = Reported) && bool_decide (m_quality e = Known)
                 && is_trusted (m_verification e)
     | None => true
     end.

Definition observe_record (r : SettingRecord) (v : SettingValue DeviceSettingValue)
    (evidence : option (Measured unit)) (observed_at : Z) : SettingRecord :=
  let state :=
    match r_state r with
    | StPending _ req t =>
        if negb (supports_readback (r_completion r)) || negb (usable_confirmation v evidence)
        then StPending (Some v) req t
        else (observe (r_state r) (sv_value v) (sv_source v) observed_at).1
    | _ => (observe (r_state r) (sv_value v) (sv_source v) observed_at).1
    end in
  r <| r_state := state |> <| r_observed_at := Some observed_at |> <| r_evidence := evidence |>.

Definition observe_readback (s : DeviceSettingsState) (id : SettingId)
    (v : SettingValue DeviceSettingValue) (evidence : option (Measured unit)) (observed_at : Z)
  : DeviceSettingsState :=
  let r := entry s id in
  if out_of_order r observed_at then put s id r
  else put s id (observe_record r v evidence observed_at).

Definition observe_setting (s : DeviceSettingsState) (id : SettingId) (value : DeviceSettingValue)
    (source : SettingValueSource) (observed_at : Z) : DeviceSettingsState :=
  observe_readback s id {| sv_value := value; sv_source := source |} None observed_at.

Definition observe_measured (s : DeviceSettingsState) (id : SettingId)
    (measured : Measured DeviceSettingValue) (observed_at : Z) : DeviceSettingsState :=
  let source := if bool_decide (m_source measured = Reported) then LiveReadback
                else SourceUnknown in
  observe_readback s id {| sv_value := m_value measured; sv_source := source |}
    (Some (map_value (fun _ => tt) measured)) observed_at.

(** [NEXT_REQUEST_ID.try_update(checked_add(1)).unwrap_or(u64::MAX)]: the
    identity and the new counter. *)
Definition draw_request_id (next : Z) : Z * Z :=
  match checked_add u64_max next 1 with Some n => (next, n) | None => (u64_max, next) end.

Definition submission (s : DeviceSettingsState) (id : SettingId) (requested : DeviceSettingValue)
    (outcome : SettingSubmissionOutcome) (completion : SettingCompletionStrategy)
    (submitted_at next : Z) : DeviceSettingsState * Z * Z :=
  let r := entry s id in
  let '(request_id, next') := draw_request_id next in
  let transport := match outcome with
                   | SubAccepted => Accepted
                   | SubRefused _ | SubFailed => TransportRejected
                   end in
  let state := submit (r_state r) requested submitted_at in
  let state := if managed_transport s then await_transport state else state in
  let state := match outcome with
               | SubAccepted => state
               | SubRefused reason => refuse state reason
               | SubFailed => fail_state state
               end in
  (put s id (r <| r_request_id := Some request_id |> <| r_transport_at := Some submitted_at |>
               <| r_completion := completion |> <| r_transport := Some transport |>
               <| r_state := state |>),
   request_id, next').

Definition is_pending (s : SettingState DeviceSettingValue) : bool :=
  match s with StPending _ _ _ => true | _ => false end.
Definition transport_allowed (from : option SettingTransportStatus) (to : SettingTransportStatus)
  : bool :=
  match from, to with
  | Some Accepted, Queued | Some Accepted, Submitted | Some Accepted, TransportRejected
  | Some Accepted, Cancelled => true
  | Some Queued, Submitted | Some Queued, TransportRejected | Some Queued, Cancelled => true
  | _, _ => false
  end.

(** The [unreachable!] arm of the code, for [Accepted], changes nothing here;
    [transport_allowed] never admits it. *)
Definition transport (s : DeviceSettingsState) (id : SettingId) (request_id : Z)
    (status : SettingTransportStatus) (at_ : Z) : DeviceSettingsState * bool :=
  match records s !! id with
  | None => (s, false)
  | Some r =>
      if negb (bool_decide (r_request_id r = Some request_id))
         || is_some_and (r_transport_at r) (fun latest => bool_decide (at_ < latest))
         || negb (is_pending (r_state r))
         || negb (transport_allowed (r_transport r) status)
      then (s, false)
      else
        let r := r <| r_transport := Some status |> <| r_transport_at := Some at_ |> in
        let state := match status with
                     | Submitted => transport_submitted (r_state r) at_
                     | TransportRejected | Cancelled => fail_state (r_state r)
                     | Queued | Accepted => r_state r
                     end in
        (put s id (r <| r_state := state |>), true)
  end.

(** [values_mut().find(..)]: the first record, in key order, of this request. *)
Definition find_request (s : DeviceSettingsState) (request_id : Z) : option SettingId :=
  head (filter (fun id => (records s !! id) ≫= r_request_id = Some request_id) all_settings).

Definition fail_operation (s : DeviceSettingsState) (request_id at_ : Z)
  : DeviceSettingsState * bool :=
  match find_request s request_id with
  | None => (s, false)
  | Some id =>
      let r := entry s id in
      if is_some_and (r_transport_at r) (fun latest => bool_decide (at_ < latest))
         || negb (is_pending (r_state r))
      then (s, false)
      else (put s id (r <| r_state := fail_state (r_state r) |>), true)
  end.

Definition confirmation_deadline (r : SettingRecord) : option Z :=
  if negb (supports_readback (r_completion r)) then None else
  match r_state r with
  | StPending _ _ (Some t) => Some (sat_add u64_max t SETTING_CONFIRMATION_TIMEOUT)
  | _ => None
  end.
Definition next_confirmation_at (s : DeviceSettingsState) : option Z :=
  min_option (omap (fun id => records s !! id ≫= confirmation_deadline) all_settings).

Definition awaits_transport (s : DeviceSettingsState) (id : SettingId) (request_id : Z) : bool :=
  is_some_and (records s !! id) (fun r =>
    bool_decide (r_request_id r = Some request_id)
    && match r_transport r with
       | Some Accepted | Some Queued => true
       | Some Submitted | Some TransportRejected | Some Cancelled | None => false
       end).

Definition tick_record (now : Z) (r : SettingRecord) : SettingRecord :=
  if supports_readback (r_completion r)
  then r <| r_state := (timeout_if_elapsed (r_state r) now SETTING_CONFIRMATION_TIMEOUT).1 |>
  else r.
Definition tick (s : DeviceSettingsState) (now : Z) : DeviceSettingsState :=
  s <| records := tick_record now <$> records s |>.

Definition disconnect (s : DeviceSettingsState) : DeviceSettingsState := s <| records := ∅ |>.

Record DeviceSettingSnapshot := {
  snap_id : SettingId;
  snap_current : option (SettingValue DeviceSettingValue);
  snap_measured : option (Measured DeviceSettingValue);
  snap_requested : option DeviceSettingValue;
  snap_request_id : option Z;
  snap_status : SettingCommandStatus;
  snap_transport : option SettingTransportStatus;
  snap_age : option Z;
  snap_refusal : option ControlRefusalReason;
}.

Definition snapshot_record (now : Z) (id : SettingId) (r : SettingRecord) : DeviceSettingSnapshot :=
  let current := current_readback (r_state r) in
  {| snap_id := id; snap_current := current;
     snap_measured := (c ← current; e ← r_evidence r; Some (map_value (fun _ => sv_value c) e));
     snap_requested := requested_value (r_state r);
     snap_request_id := r_request_id r;
     snap_status := command_status (r_state r) now (r_completion r);
     snap_transport := r_transport r;
     snap_age := (if bool_decide (is_Some current)
                  then sat_sub now <$> r_observed_at r else None);
     snap_refusal := match r_state r with StRefused _ _ x => Some x | _ => None end |}.
Definition snapshot (s : DeviceSettingsState) (now : Z) : list DeviceSettingSnapshot :=
  omap (fun id => snapshot_record now id <$> records s !! id) all_settings.

(** ** The session's settings as a machine

    The state pairs the owner with the process-wide counter. *)

Inductive SettingsCall :=
| SObserve (id : SettingId) (value : DeviceSettingValue) (source : SettingValueSource) (at_ : Z)
| SObserveMeasured (id : SettingId) (measured : Measured DeviceSettingValue) (at_ : Z)
| SInvalidate (id : SettingId) (at_ : Z)
| SSubmission (id : SettingId) (requested : DeviceSettingValue)
              (outcome : SettingSubmissionOutcome) (completion : SettingCompletionStrategy) (at_ : Z)
| STransport (id : SettingId) (request_id : Z) (status : SettingTransportStatus) (at_ : Z)
| SFailOperation (request_id at_ : Z)
| STick (now : Z)
| SDisconnect
| SRequireManaged.

Inductive SettingsReply := RUnit | RRequest (id : Z) | RAdmitted (b : bool).

Definition settings_step (s : DeviceSettingsState * Z) (c : SettingsCall)
  : (DeviceSettingsState * Z) * SettingsReply :=
  let '(st, next) := s in
  match c with
  | SObserve id v src t => ((observe_setting st id v src t, next), RUnit)
  | SObserveMeasured id m t => ((observe_measured st id m t, next), RUnit)
  | SInvalidate id t => ((invalidate_readback st id t, next), RUnit)
  | SSubmission id v o k t =>
      let '(st', rid, next') := submission st id v o k t next in ((st', next'), RRequest rid)
  | STransport id rid x t => let '(st', b) := transport st id rid x t in ((st', next), RAdmitted b)
  | SFailOperation rid t => let '(st', b) := fail_operation st rid t in ((st', next), RAdmitted b)
  | STick now => ((tick st now, next), RUnit)
  | SDisconnect => ((disconnect st, next), RUnit)
  | SRequireManaged => ((require_managed_transport st, next), RUnit)
  end.

(** The repository's test: a procedure failure after submission is not undone by
    a later matching readback. *)
Example failure_not_confirmed_later :
  let id := SettingIds.PwmTiltback in
  let '(s, outs) := run settings_step (default_settings, 1)
    [SRequireManaged; SSubmission id (ValueNumber 81) SubAccepted MatchingReadback 10;
     STransport id 1 Submitted 11; SFailOperation 1 9; SFailOperation 1 12;
     SObserve id (ValueNumber 81) LiveReadback 13; SFailOperation 1 15] in
  outs = [RUnit; RRequest 1; RAdmitted true; RAdmitted false; RAdmitted true; RUnit; RAdmitted false]
  /\ (snap_status <$> snapshot s.1 14) = [StatusFailed].
Proof. vm_compute. auto. Qed.

(** ** Records touched by a call *)

Lemma lookup_put s id r j : records (put s id r) !! j = if bool_decide (j = id) then Some r else records s !! j.
Proof.
  destruct s. unfold put. simpl. case_bool_decide as E; [subst; apply lookup_insert_eq|].
  by apply lookup_insert_ne.
Qed.
Lemma entry_lookup s id r : records s !! id = Some r -> entry s id = r.
Proof. unfold entry. by intros ->. Qed.
Lemma entry_new s id : records s !! id = None -> entry s id = default_record.
Proof. unfold entry. by intros ->. Qed.

(** The call addressed to a setting, if it is one. *)
Definition readback_of (c : SettingsCall) : option (SettingId * SettingValue DeviceSettingValue
                                                    * option (Measured unit) * Z) :=
  match c with
  | SObserve id v src t => Some (id, {| sv_value := v; sv_source := src |}, None, t)
  | SObserveMeasured id m t =>
      Some (id, {| sv_value := m_value m;
                   sv_source := if bool_decide (m_source m = Reported) then LiveReadback
                                else SourceUnknown |},
            Some (map_value (fun _ => tt) m), t)
  | _ => None
  end.

Definition state_of (s : DeviceSettingsState) (id : SettingId) : SettingState DeviceSettingValue :=
  r_state (entry s id).

(** Only readback confirms: what it takes. *)
Lemma observe_confirms (s : SettingState DeviceSettingValue) v src t w t' :
  (observe s v src t).1 = StConfirmed w t' -> s <> StConfirmed w t' ->
  exists c sub, s = StPending c v (Some sub) /\ sub <= t /\ t' = t /\
                w = {| sv_value := v; sv_source := src |}.
Proof.
  unfold observe, confirm_from. intros H Hn. destruct s as [|c|c r [sub|]|c ca|c r x|c r|c r]; simpl in *.
  all: try (repeat case_match_in H; simpl in H; congruence).
  destruct (negb (bool_decide (r = v)) || bool_decide (t < sub)) eqn:E; simpl in H.
  - repeat case_match_in H; simpl in H; congruence.
  - prop_bools. injection H as <- <-. subst. exists c, sub. split_ands; [done|lia|done|done].
Qed.

Lemma submit_outcome (st : SettingState DeviceSettingValue) outcome w t :
  (match outcome with
   | SubAccepted => st
   | SubRefused reason => refuse st reason
   | SubFailed => fail_state st
   end) = StConfirmed w t -> st = StConfirmed w t.
Proof. by destruct outcome. Qed.

(** A call changes at most the record it addresses, apart from the clock and
    the connection boundary. *)
Lemma confirmed_step s next c id w t :
  state_of (settings_step (s, next) c).1.1 id = StConfirmed w t -> state_of s id <> StConfirmed w t ->
  exists v evidence r,
    readback_of c = Some (id, v, evidence, t) /\ w = v /\
    records s !! id = Some r /\ usable_confirmation v evidence = true /\
    r_completion r = MatchingReadback /\
    exists cur sub, r_state r = StPending cur (sv_value v) (Some sub) /\ sub <= t.
Proof.
  intros H Hn. unfold state_of, entry in *.
  assert (Hread : forall i v e at_,
    r_state (default default_record (records (observe_readback s i v e at_) !! id)) = StConfirmed w t ->
    i = id /\ at_ = t /\ w = v /\ exists r, records s !! id = Some r /\ usable_confirmation v e = true /\
    r_completion r = MatchingReadback /\
    exists cur sub, r_state r = StPending cur (sv_value v) (Some sub) /\ sub <= t).
  { intros i v e at_ Hi. unfold observe_readback in Hi. unfold entry in Hi.
    destruct (out_of_order _ _) eqn:Eo; rewrite lookup_put in Hi; case_bool_decide as Ei;
      subst; simpl in Hi; try (by destruct Hn).
    destruct (records s !! i) as [r|] eqn:Er; simpl in Hi.
    2:{ destruct v. simpl in Hi. unfold default_record in Hi. simpl in Hi. congruence. }
    destruct r as [rs ro re rc rt rr ra]. unfold observe_record in Hi. simpl in *.
    assert (Hob : (observe rs (sv_value v) (sv_source v) at_).1 = StConfirmed w t ->
      exists c sub, rs = StPending c (sv_value v) (Some sub) /\ sub <= at_ /\ t = at_ /\ w = v).
    { intros Hx. destruct (observe_confirms _ _ _ _ _ _ Hx Hn) as (c0 & sub & ? & ? & ? & ?).
      exists c0, sub. destruct v. auto. }
    destruct rs; try (destruct (Hob Hi) as (? & ? & ? & _); discriminate).
    destruct (negb (supports_readback rc) || _) eqn:Eu; [discriminate|]. prop_bools.
    destruct (Hob Hi) as (c0 & sub & E & ? & -> & ->). split_ands; try done.
    eexists. split; [done|]. split; [done|]. split; [by destruct rc|]. rewrite E. eauto. }
  destruct c as [i v src at_|i m at_|i at_|i v o k at_|i rid x at_|rid at_|now| |];
    cbn [settings_step fst] in H.
  - destruct (Hread _ _ _ _ H) as (-> & -> & -> & r & Hr). cbn [readback_of]. eauto 8.
  - destruct (Hread _ _ _ _ H) as (-> & -> & -> & r & Hr). cbn [readback_of]. eauto 8.
  - exfalso. unfold invalidate_readback, entry in H.
    destruct (out_of_order _ _); rewrite lookup_put in H; case_bool_decide; subst; try done.
    destruct (default default_record (records s !! i)) as [rs]. simpl in H. by destruct rs.
  - exfalso. unfold submission, entry in H. destruct (draw_request_id next). simpl in H.
    rewrite lookup_put in H. case_bool_decide; subst; [|done].
    destruct (default default_record (records s !! i)) as [rs]. simpl in H.
    destruct (managed_transport s), o; done.
  - exfalso. unfold transport in H. destruct (records s !! i) as [r|] eqn:Er; [|done].
    destruct (_ || _) eqn:E; [done|]. simpl in H. rewrite lookup_put in H.
    case_bool_decide; subst; [|done]. rewrite Er in Hn. destruct r as [rs]. simpl in *.
    prop_bools. destruct x, rs; simpl in *; try congruence; discriminate.
  - exfalso. unfold fail_operation in H. destruct (find_request s rid) as [i|]; [|done].
    destruct (_ || _); [done|]. simpl in H. rewrite lookup_put in H.
    case_bool_decide; subst; [|done]. unfold entry in H.
    by destruct (default default_record (records s !! i)).
  - exfalso. unfold tick in H. destruct s as [rs mt]. simpl in *. rewrite lookup_fmap in H.
    destruct (rs !! id) as [r|] eqn:Er; simpl in *; [|done]. unfold tick_record in H.
    destruct (supports_readback _); [|done]. destruct r as [st]. simpl in *.
    destruct st as [| |c0 r0 [sub|]| | | |]; simpl in *; try done.
    by destruct (bool_decide _) in H.
  - exfalso. destruct s. simpl in H. unfold default_record in H. by rewrite lookup_empty in H.
  - exfalso. by destruct s.
Qed.

(** ** Request identities *)

(** No record belongs to request [rid]. *)
Definition retired (rid : Z) (s : DeviceSettingsState) : Prop :=
  forall id r, records s !! id = Some r -> r_request_id r <> Some rid.

Record ids_ok (s : DeviceSettingsState) (next : Z) : Prop := {
  ids_drawn : forall id r rid, records s !! id = Some r -> r_request_id r = Some rid -> rid < next;
  ids_unique : forall id1 id2 r1 r2 rid,
    records s !! id1 = Some r1 -> records s !! id2 = Some r2 ->
    r_request_id r1 = Some rid -> r_request_id r2 = Some rid -> id1 = id2;
}.

Lemma entry_request s id rid :
  r_request_id (entry s id) = Some rid -> exists r, records s !! id = Some r /\ r_request_id r = Some rid.
Proof. unfold entry. destruct (records s !! id) as [r|]; [eauto|done]. Qed.

Lemma draw_request_id_spec next :
  next <= u64_max -> let '(rid, next') := draw_request_id next in
  next <= rid /\ next <= next' <= u64_max /\ (next < u64_max -> rid < next').
Proof.
  intros Hn. unfold draw_request_id. destruct (checked_add u64_max next 1) as [n|] eqn:E.
  - apply checked_add_Some in E as [? ->]. split_ands; lia.
  - split_ands; try lia. apply checked_add_None in E. lia.
Qed.

(** Where the identities after a call come from. *)
Lemma request_ids_step s next c id r' :
  records (settings_step (s, next) c).1.1 !! id = Some r' ->
  r_request_id r' = r_request_id (entry s id) \/
  exists v o k t, c = SSubmission id v o k t /\ r_request_id r' = Some (draw_request_id next).1.
Proof.
  assert (Hput : forall i r, records (put s i r) !! id = Some r' ->
    r_request_id r = r_request_id (entry s i) -> r_request_id r' = r_request_id (entry s id)).
  { intros i r H E. rewrite lookup_put in H. case_bool_decide; [congruence|].
    by rewrite (entry_lookup _ _ _ H). }
  assert (Hsame : records s !! id = Some r' -> r_request_id r' = r_request_id (entry s id)).
  { intros H. by rewrite (entry_lookup _ _ _ H). }
  assert (Hread : forall i v e t, records (observe_readback s i v e t) !! id = Some r' ->
    r_request_id r' = r_request_id (entry s id)).
  { intros i v e t. unfold observe_readback. destruct (out_of_order _ _); intros H;
      apply Hput in H; try done. unfold observe_record. by destruct (entry s i). }
  destruct c as [i v src at_|i m at_|i at_|i v o k at_|i rid x at_|rid at_|now| |];
    cbn [settings_step fst]; intros H.
  - left. by eapply Hread.
  - left. by eapply Hread.
  - left. unfold invalidate_readback in H. destruct (out_of_order _ _); apply Hput in H; try done.
    by destruct (entry s i).
  - unfold submission in H. destruct (draw_request_id next) as [rid n'] eqn:Ed. simpl in H.
    rewrite lookup_put in H. case_bool_decide; subst.
    + right. exists v, o, k, at_. split; [done|]. injection H as <-. by destruct (entry s i).
    + left. by apply Hsame.
  - left. unfold transport in H. destruct (records s !! i) as [r|] eqn:Er; [|by apply Hsame].
    destruct (_ || _); [by apply Hsame|]. apply Hput in H; [done|].
    rewrite (entry_lookup _ _ _ Er). by destruct r.
  - left. unfold fail_operation in H. destruct (find_request s rid) as [i|]; [|by apply Hsame].
    destruct (_ || _); [by apply Hsame|]. apply Hput in H; [done|]. by destruct (entry s i).
  - left. unfold tick in H. destruct s as [rs mt]. simpl in H. rewrite lookup_fmap in H.
    destruct (rs !! id) as [r|] eqn:Er; [|done]. simpl in H. injection H as <-.
    unfold entry. simpl. rewrite Er. simpl. unfold tick_record.
    destruct (supports_readback _); by destruct r.
  - by destruct s.
  - left. destruct s. by apply Hsame.
Qed.

Lemma next_step s next c :
  (settings_step (s, next) c).1.2 = next \/
  (settings_step (s, next) c).1.2 = (draw_request_id next).2.
Proof.
  destruct c as [i v src at_|i m at_|i at_|i v o k at_|i rid x at_|rid at_|now| |];
    cbn [settings_step fst snd]; try (by left).
  - right. unfold submission. by destruct (draw_request_id next).
  - left. by destruct (transport s i rid x at_).
  - left. by destruct (fail_operation s rid at_).
Qed.

Lemma retired_settings_step rid s next c :
  retired rid s -> rid < next <= u64_max ->
  let '(s', next') := (settings_step (s, next) c).1 in retired rid s' /\ rid < next' <= u64_max.
Proof.
  intros Hr Hn. pose proof (draw_request_id_spec next ltac:(lia)) as Hd.
  pose proof (request_ids_step s next c) as Hi. pose proof (next_step s next c) as Hx.
  destruct (draw_request_id next) as [new n']. destruct Hd as (H1 & H2 & H3).
  destruct (settings_step (s, next) c).1 as [s' next']. simpl in *. split; [|destruct Hx; lia].
  intros id r' Hl. destruct (Hi id r' Hl) as [->|(v & o & k & t & _ & ->)].
  - intros E. apply entry_request in E as (r & Hl' & E). by apply (Hr id r).
  - intros [= ->]. lia.
Qed.

Lemma ids_ok_step s next c :
  next < u64_max -> ids_ok s next ->
  let '(s', next') := (settings_step (s, next) c).1 in ids_ok s' next' /\ next' <= next + 1.
Proof.
  intros Hn [H1 H2]. pose proof (draw_request_id_spec next ltac:(lia)) as Hd.
  pose proof (request_ids_step s next c) as Hi. pose proof (next_step s next c) as Hx.
  assert (Hnn : (draw_request_id next).2 <= next + 1).
  { unfold draw_request_id. destruct (checked_add u64_max next 1) eqn:E; [|simpl; lia].
    apply checked_add_Some in E as [? ->]. simpl. lia. }
  destruct (draw_request_id next) as [new n'] eqn:Ed. destruct Hd as (D1 & D2 & D3).
  destruct (settings_step (s, next) c) as [[s' next'] rep] eqn:Es. simpl in *.
  split; [|destruct Hx; lia].
  assert (Hold : forall id rid, r_request_id (entry s id) = Some rid -> rid < next).
  { intros id rid E. apply entry_request in E as (r & Hl & E). by eapply H1. }
  assert (Hnew : forall id v o k t, c = SSubmission id v o k t -> next' = n').
  { intros id v o k t ->. cbn [settings_step] in Es. unfold submission in Es. rewrite Ed in Es. congruence. }
  split.
  - intros id r rid Hl E. destruct (Hi id r Hl) as [E'|(v & o & k & t & Ec & E')].
    + rewrite E' in E. specialize (Hold id rid E). destruct Hx; lia.
    + rewrite (Hnew _ _ _ _ _ Ec). rewrite E in E'. injection E' as ->. auto.
  - intros id1 id2 r1 r2 rid L1 L2 E1 E2.
    destruct (Hi id1 r1 L1) as [E1'|(v & o & k & t & Ec & E1')];
      destruct (Hi id2 r2 L2) as [E2'|(v2 & o2 & k2 & t2 & Ec2 & E2')].
    + rewrite E1' in E1. rewrite E2' in E2. apply entry_request in E1 as (x1 & ? & ?).
      apply entry_request in E2 as (x2 & ? & ?). by apply (H2 id1 id2 x1 x2 rid).
    + rewrite E1' in E1. apply Hold in E1. assert (rid = new) by congruence. lia.
    + rewrite E2' in E2. apply Hold in E2. assert (rid = new) by congruence. lia.
    + congruence.
Qed.

Lemma ids_ok_run n calls :
  n + Z.of_nat (length calls) <= u64_max ->
  let '(s, next) := run_state settings_step (default_settings, n) calls in
  ids_ok s next /\ next <= n + Z.of_nat (length calls).
Proof.
  assert (H0 : ids_ok default_settings n).
  { split; simpl; intros *; rewrite lookup_empty; done. }
  revert n H0. generalize default_settings. induction calls as [|c calls IH]; intros s n H0 Hn.
  { simpl. split; [done|lia]. }
  rewrite run_state_cons. simpl length in *.
  pose proof (ids_ok_step s n c ltac:(lia) H0) as H1.
  destruct (settings_step (s, n) c).1 as [s1 n1]. destruct H1 as [H1 H2].
  specialize (IH s1 n1 H1 ltac:(lia)). destruct (run_state _ _ _) as [s2 n2]. split; [tauto|lia].
Qed.

Lemma retired_run rid s next calls :
  retired rid s -> rid < next <= u64_max ->
  retired rid (run_state settings_step (s, next) calls).1.
Proof.
  revert s next. induction calls as [|c calls IH]; intros s next Hr Hn; [done|].
  rewrite run_state_cons. pose proof (retired_settings_step rid s next c Hr Hn) as H.
  destruct (settings_step (s, next) c).1 as [s1 n1]. destruct H. by apply IH.
Qed.

Lemma find_request_Some s rid id :
  find_request s rid = Some id -> exists r, records s !! id = Some r /\ r_request_id r = Some rid.
Proof.
  unfold find_request. intros H. apply head_Some_elem_of in H.
  apply list_elem_of_filter in H as [H _]. apply bind_Some in H. exact H.
Qed.

(** A request no record belongs to moves nothing. *)
Lemma retired_refused rid s id status at_ :
  retired rid s -> transport s id rid status at_ = (s, false) /\
  fail_operation s rid at_ = (s, false) /\ awaits_transport s id rid = false.
Proof.
  intros Hr. split_ands.
  - unfold transport. destruct (records s !! id) as [r|] eqn:E; [|done].
    by rewrite bool_decide_false by (by apply (Hr id r)).
  - unfold fail_operation. destruct (find_request s rid) as [i|] eqn:E; [|done].
    apply find_request_Some in E as (r & Hl & E). by destruct (Hr i r).
  - unfold awaits_transport. destruct (records s !! id) as [r|] eqn:E; [|done]. simpl.
    by rewrite bool_decide_false by (by apply (Hr id r)).
Qed.

(** What supersedes a request: a new submission of the setting, or the end of
    the connection. *)
Definition supersedes (c : SettingsCall) (id : SettingId) : Prop :=
  c = SDisconnect \/ exists v o k t, c = SSubmission id v o k t.

Lemma superseded_retired s next c id rid :
  ids_ok s next -> next <= u64_max -> r_request_id (entry s id) = Some rid -> supersedes c id ->
  retired rid (settings_step (s, next) c).1.1.
Proof.
  intros [H1 H2] Hn He Hc j r' Hl. pose proof (entry_request _ _ _ He) as (r0 & Hl0 & E0).
  pose proof (draw_request_id_spec next Hn) as Hd.
  destruct (draw_request_id next) as [new n'] eqn:Ed. destruct Hd as (D1 & _).
  destruct Hc as [->|(v & o & k & t & ->)].
  { destruct s. simpl in Hl. by rewrite lookup_empty in Hl. }
  pose proof (H1 _ _ _ Hl0 E0) as Hlt.
  destruct (decide (j = id)) as [->|Hj].
  - cbn [settings_step fst] in Hl. unfold submission in Hl. rewrite Ed in Hl. simpl in Hl.
    rewrite lookup_put, bool_decide_true in Hl by done. injection Hl as <-.
    destruct (entry s id). simpl. intros [= ->]. lia.
  - destruct (request_ids_step s next _ j r' Hl) as [->|(v' & o' & k' & t' & [= <- <- <- <- <-] & _)]; [|done].
    intros E. apply entry_request in E as (r & Hlj & E). apply Hj. by apply (H2 j id r r0 rid).
Qed.

(** ** Confirmation deadlines *)

Lemma all_settings_complete id : id ∈ all_settings.
Proof. apply list_elem_of_lookup. eexists. apply SettingIds.all_settings_lookup. Qed.

(** Every submission instant leaves room for its confirmation window. *)
Definition record_window (r : SettingRecord) : Prop :=
  match r_state r with
  | StPending _ _ (Some t) => 0 <= t <= u64_max - SETTING_CONFIRMATION_TIMEOUT
  | _ => True
  end.
Definition window_ok (s : DeviceSettingsState) : Prop :=
  map_Forall (fun _ r => record_window r) (records s).

(** One record's timer: it fires exactly from its deadline on. *)
Lemma tick_record_spec now r :
  record_window r ->
  match confirmation_deadline r with
  | None => tick_record now r = r
  | Some d => exists c q, r_state r = StPending c q (Some (d - SETTING_CONFIRMATION_TIMEOUT)) /\
      tick_record now r = (if bool_decide (d <= now) then r <| r_state := StTimedOut c q |> else r)
  end.
Proof.
  unfold record_window, confirmation_deadline, tick_record, SETTING_CONFIRMATION_TIMEOUT.
  destruct r as [st ro re rc rt rr ra]. simpl. destruct (supports_readback rc); simpl; [|done].
  destruct st as [| |c q [t|]| | | |]; simpl; try done. intros Ht.
  exists c, q. replace (sat_add u64_max t 2000) with (t + 2000) by int_lia.
  replace (t + 2000 - 2000) with t by lia. split; [done|].
  destruct (decide (t + 2000 <= now)) as [H|H].
  - rewrite bool_decide_false, bool_decide_true by int_lia. done.
  - rewrite bool_decide_true, bool_decide_false by int_lia. done.
Qed.

Lemma lookup_tick s now id : records (tick s now) !! id = tick_record now <$> records s !! id.
Proof. destruct s. unfold tick. simpl. apply lookup_fmap. Qed.

Lemma tick_identity s now :
  (forall id r, records s !! id = Some r -> tick_record now r = r) -> tick s now = s.
Proof.
  intros H. destruct s as [rs mt]. unfold tick. simpl. f_equal. apply map_eq. intros id.
  rewrite lookup_fmap. destruct (rs !! id) as [r|] eqn:E; [|done]. simpl. f_equal. by apply (H id).
Qed.

Lemma deadline_listed s id r d :
  records s !! id = Some r -> confirmation_deadline r = Some d ->
  d ∈ omap (fun id => records s !! id ≫= confirmation_deadline) all_settings.
Proof.
  intros Hl Hd. apply list_elem_of_omap. exists id. split; [apply all_settings_complete|].
  by rewrite Hl.
Qed.

Lemma next_confirmation_spec s :
  match next_confirmation_at s with
  | None => forall id r, records s !! id = Some r -> confirmation_deadline r = None
  | Some d => (exists id r, records s !! id = Some r /\ confirmation_deadline r = Some d) /\
      forall id r d', records s !! id = Some r -> confirmation_deadline r = Some d' -> d <= d'
  end.
Proof.
  unfold next_confirmation_at. destruct (min_option _) as [d|] eqn:E.
  - apply min_option_Some in E as [Hin Hmin]. apply list_elem_of_omap in Hin as (id & _ & H).
    apply bind_Some in H as (r & Hl & Hd). split; [eauto|].
    intros id' r' d' Hl' Hd'. apply Hmin. by eapply deadline_listed.
  - apply min_option_None in E. intros id r Hl. destruct (confirmation_deadline r) as [d|] eqn:Hd; [|done].
    pose proof (deadline_listed s id r d Hl Hd) as H. rewrite E in H. by apply not_elem_of_nil in H.
Qed.

(** ** Managed transport *)

(** With managed transport every state that speaks of the device having the
    request rests on a submitted write. *)
Definition handed_over (r : SettingRecord) : Prop :=
  match r_state r with
  | StPending _ _ (Some _) | StConfirmed _ _ | StTimedOut _ _ => r_transport r = Some Submitted
  | _ => True
  end.
Definition managed_ok (s : DeviceSettingsState) : Prop :=
  managed_transport s = true /\ map_Forall (fun _ r => handed_over r) (records s).

Lemma managed_put s id r : managed_ok s -> handed_over r -> managed_ok (put s id r).
Proof.
  intros [H1 H2] Hr. split; [by destruct s|]. intros j r' Hl. rewrite lookup_put in Hl.
  case_bool_decide; [by injection Hl as <-|by apply (H2 j)].
Qed.
Lemma managed_entry s id : managed_ok s -> handed_over (entry s id).
Proof.
  intros [_ H]. unfold entry. destruct (records s !! id) as [r|] eqn:E; [by apply (H id)|done].
Qed.

Lemma observe_handed (st : SettingState DeviceSettingValue) v src t tr :
  match st with
  | StPending _ _ (Some _) | StConfirmed _ _ | StTimedOut _ _ => tr = Some Submitted
  | _ => True
  end ->
  match (observe st v src t).1 with
  | StPending _ _ (Some _) | StConfirmed _ _ | StTimedOut _ _ => tr = Some Submitted
  | _ => True
  end.
Proof.
  intros H. destruct st as [|c|c q [u|]|c u|c q x|c q|c q]; unfold observe; simpl;
    repeat (case_match_goal; simpl in *; simplify_eq); done.
Qed.

#[export] Instance managed_invariant : Invariant settings_step (fun s => managed_ok s.1).
Proof.
  intros [s next] c Hm. simpl in Hm.
  assert (Hread : forall i v e t, managed_ok (observe_readback s i v e t)).
  { intros i v e t. pose proof (managed_entry s i Hm) as He. unfold observe_readback.
    destruct (out_of_order _ _); [by apply managed_put|]. apply managed_put; [done|].
    unfold handed_over, observe_record in *. destruct (entry s i) as [st ro re rc tr rr ra]. simpl in *.
    destruct st as [|c0|c0 q [u|]|c0 u|c0 q x|c0 q|c0 q];
      try (by apply observe_handed); destruct (_ || _); try done; by apply observe_handed. }
  destruct c as [i v src at_|i m at_|i at_|i v o k at_|i rid x at_|rid at_|now| |];
    cbn [settings_step fst].
  - apply Hread.
  - apply Hread.
  - pose proof (managed_entry s i Hm) as He. unfold invalidate_readback.
    destruct (out_of_order _ _); apply managed_put; try done.
    unfold handed_over in *. destruct (entry s i) as [st]. simpl in *. by destruct st.
  - unfold submission. destruct (draw_request_id next). simpl. apply managed_put; [done|].
    destruct Hm as [-> _]. unfold handed_over. destruct (entry s i). simpl. by destruct o.
  - pose proof (managed_entry s i Hm) as He. unfold transport.
    destruct (records s !! i) as [r|] eqn:Er; [|done]. rewrite (entry_lookup _ _ _ Er) in He.
    destruct (_ || _) eqn:E; [done|]. simpl. apply managed_put; [done|]. unfold handed_over in *.
    destruct r as [st ro re rc tr rr ra]. simpl in *. prop_bools.
    destruct st as [|c0|c0 q [u|]|c0 u|c0 q y|c0 q|c0 q], x; try done; subst; discriminate.
  - pose proof (managed_entry s) as He. unfold fail_operation.
    destruct (find_request s rid) as [i|]; [|done]. destruct (_ || _); [done|].
    simpl. apply managed_put; [done|]. unfold handed_over. by destruct (entry s i).
  - destruct Hm as [H1 H2]. split; [by destruct s|]. intros j r' Hl. rewrite lookup_tick in Hl.
    destruct (records s !! j) as [r|] eqn:Er; [|done]. simpl in Hl. injection Hl as <-.
    specialize (H2 j r Er). unfold tick_record. destruct (supports_readback _); [|done].
    destruct r as [st]. unfold handed_over in *. simpl in *.
    destruct st as [| |c0 q [u|]| | | |]; try done. simpl. by destruct (bool_decide _).
  - destruct Hm as [H1 _]. split; [by destruct s|]. destruct s. apply map_Forall_empty.
  - destruct Hm as [_ H2]. split; by destruct s.
Qed.

Lemma managed_run n calls :
  managed_ok (run_state settings_step (default_settings, n) (SRequireManaged :: calls)).1.
Proof.
  rewrite run_state_cons. apply (run_invariant settings_step (fun s => managed_ok s.1)).
  split; [done|]. apply map_Forall_empty.
Qed.

Lemma handed_over_snapshot now id r :
  handed_over r ->
  let x := snapshot_record now id r in
  snap_status x = StatusConfirmed \/ snap_status x = StatusTimedOut
    \/ snap_status x = SentWithoutConfirmation ->
  snap_transport x = Some Submitted.
Proof.
  unfold handed_over, snapshot_record. simpl.
  destruct (r_state r) as [| |c q [t|]| | | |]; simpl; intros Hm Hst; try done;
    destruct Hst as [?|[?|?]]; discriminate.
Qed.

Lemma managed_snapshot s now x :
  managed_ok s -> x ∈ snapshot s now ->
  snap_status x = StatusConfirmed \/ snap_status x = StatusTimedOut
    \/ snap_status x = SentWithoutConfirmation ->
  snap_transport x = Some Submitted.
Proof.
  intros [_ Hm] Hx. unfold snapshot in Hx. revert Hx. generalize all_settings. intros l Hx.
  apply list_elem_of_omap in Hx as (id & _ & Hx).
  apply fmap_Some in Hx as (r & Er & ->). apply handed_over_snapshot. exact (Hm id r Er).
Qed.

(** ** Properties *)

(** C38: a setting is reported as confirmed only by the device: a call that
    turns a setting into Confirmed is a readback of exactly the requested
    value for that setting, live and (when it carries evidence) reported, known
    and trusted, made no earlier than the write was submitted, for a setting
    that owns readback confirmation. *)
Theorem confirmed_only_by_readback (s : DeviceSettingsState) (next : Z) (c : SettingsCall)
    (id : SettingId) (w : SettingValue DeviceSettingValue) (t : Z) :
  state_of (settings_step (s, next) c).1.1 id = StConfirmed w t ->
  state_of s id <> StConfirmed w t ->
  exists evidence r cur submitted,
    readback_of c = Some (id, w, evidence, t) /\ sv_source w = LiveReadback /\
    (forall e, evidence = Some e -> m_source e = Reported /\ m_quality e = Known /\
                                    is_trusted (m_verification e) = true) /\
    records s !! id = Some r /\ r_completion r = MatchingReadback /\
    r_state r = StPending cur (sv_value w) (Some submitted) /\ submitted <= t.
Proof.
  intros H Hn. destruct (confirmed_step s next c id w t H Hn)
    as (v & e & r & Hc & -> & Hl & Hu & Hk & cur & sub & Hs & Ht).
  unfold usable_confirmation in Hu. prop_bools. exists e, r, cur, sub. split_ands; try done.
  intros e' ->. prop_bools. done.
Qed.

(** A superseded request can no longer move anything: in any run, once the
    setting is submitted again or the connection ends, the old request's
    transport receipts and procedure failures are refused and change nothing,
    and nothing waits for them, whatever happens in between. *)
Theorem stale_request_refused (n : Z) (before : list SettingsCall) (id : SettingId) (rid : Z)
    (c : SettingsCall) (after : list SettingsCall) (id' : SettingId)
    (status : SettingTransportStatus) (at_ : Z) :
  n + Z.of_nat (length before) <= u64_max ->
  r_request_id (entry (run_state settings_step (default_settings, n) before).1 id) = Some rid ->
  supersedes c id ->
  let s := (run_state settings_step (default_settings, n) (before ++ c :: after)).1 in
  transport s id' rid status at_ = (s, false) /\ fail_operation s rid at_ = (s, false) /\
  awaits_transport s id' rid = false.
Proof.
  intros Hn Hr Hc s. apply retired_refused. unfold s. rewrite run_state_app, run_state_cons.
  pose proof (ids_ok_run n before Hn) as Hids.
  destruct (run_state settings_step (default_settings, n) before) as [s1 n1]. simpl in Hr.
  destruct Hids as [Hids Hn1].
  pose proof (superseded_retired s1 n1 c id rid Hids ltac:(lia) Hr Hc) as Hret.
  pose proof (entry_request _ _ _ Hr) as (r & Hl & E).
  pose proof (ids_drawn _ _ Hids _ _ _ Hl E) as Hlt.
  pose proof (draw_request_id_spec n1 ltac:(lia)) as Hd. pose proof (next_step s1 n1 c) as Hx.
  destruct (draw_request_id n1) as [new n']. destruct Hd as (D1 & D2 & _).
  destruct (settings_step (s1, n1) c).1 as [s2 n2]. simpl in *.
  apply retired_run; [done|]. destruct Hx; lia.
Qed.

(** The confirmation timer is exact and always makes progress: before the
    earliest deadline a tick changes nothing; from that deadline on it turns a
    waiting write into TimedOut, keeping its readback and request, and leaves no
    deadline that has already passed; without a deadline no tick ever acts. *)
Theorem confirmation_deadline_exact (s : DeviceSettingsState) (now : Z) :
  window_ok s ->
  match next_confirmation_at s with
  | None => tick s now = s
  | Some d =>
      (now < d -> tick s now = s) /\
      (d <= now ->
         (exists id cur req, state_of s id = StPending cur req (Some (d - 2000)) /\
                             state_of (tick s now) id = StTimedOut cur req) /\
         forall d', next_confirmation_at (tick s now) = Some d' -> now < d')
  end.
Proof.
  intros Hw. pose proof (next_confirmation_spec s) as Hs.
  destruct (next_confirmation_at s) as [d|] eqn:En.
  - destruct Hs as [(id & r & Hl & Hd) Hmin]. split.
    + intros Hlt. apply tick_identity. intros i ri Hi.
      pose proof (tick_record_spec now ri (Hw i ri Hi)) as H.
      destruct (confirmation_deadline ri) as [di|] eqn:Ei; [|done].
      destruct H as (c & q & _ & ->). specialize (Hmin i ri di Hi Ei).
      by rewrite bool_decide_false by lia.
    + intros Hle. split.
      * exists id. pose proof (tick_record_spec now r (Hw id r Hl)) as H. rewrite Hd in H.
        destruct H as (c & q & E1 & E2). exists c, q. unfold state_of, entry.
        rewrite lookup_tick, Hl. simpl. split; [done|]. rewrite E2, bool_decide_true by done.
        by destruct r.
      * intros d' Hd'. pose proof (next_confirmation_spec (tick s now)) as H. rewrite Hd' in H.
        destruct H as [(i & r' & Hi & Hdi) _]. rewrite lookup_tick in Hi.
        destruct (records s !! i) as [ri|] eqn:Ei; [|done]. simpl in Hi. injection Hi as <-.
        pose proof (tick_record_spec now ri (Hw i ri Ei)) as H.
        destruct (confirmation_deadline ri) as [di|] eqn:Edi.
        -- destruct H as (c & q & _ & E). rewrite E in Hdi. case_bool_decide.
           ++ destruct ri as [st ro re rc rt rr ra]. unfold confirmation_deadline in Hdi.
              simpl in Hdi. by destruct (negb _) in Hdi.
           ++ assert (d' = di) by congruence. lia.
        -- rewrite H in Hdi. congruence.
  - apply tick_identity. intros i ri Hi. pose proof (tick_record_spec now ri (Hw i ri Hi)) as H.
    by rewrite (Hs i ri Hi) in H.
Qed.

(** Under managed transport nothing is claimed about a write the phone has
    not handed over: in every run that opts in first, a setting shown as
    confirmed, timed out or sent has a transport status of Submitted. *)
Theorem managed_claims_after_handoff (n : Z) (calls : list SettingsCall) (now : Z)
    (x : DeviceSettingSnapshot) :
  let s := (run_state settings_step (default_settings, n) (SRequireManaged :: calls)).1 in
  x ∈ snapshot s now ->
  snap_status x = StatusConfirmed \/ snap_status x = StatusTimedOut
    \/ snap_status x = SentWithoutConfirmation ->
  snap_transport x = Some Submitted.
Proof.
  intros s Hx Hst. assert (Hm : managed_ok s) by apply managed_run.
  clearbody s. by eapply managed_snapshot.
Qed.

(** ** Witnesses *)

Definition tiltback : SettingId := SettingIds.PwmTiltback.
(** A managed write handed over at 11 ms. *)
Definition sample_calls : list SettingsCall :=
  [SSubmission tiltback (ValueNumber 81) SubAccepted MatchingReadback 10;
   STransport tiltback 1 Submitted 11].
Definition sample_settings : DeviceSettingsState :=
  (run_state settings_step (default_settings, 1) (SRequireManaged :: sample_calls)).1.
Definition live (v : Z) : SettingValue DeviceSettingValue :=
  {| sv_value := ValueNumber v; sv_source := LiveReadback |}.

Lemma confirmed_only_by_readback_witness :
  exists evidence r cur submitted,
    readback_of (SObserve tiltback (ValueNumber 81) LiveReadback 20)
      = Some (tiltback, live 81, evidence, 20) /\ sv_source (live 81) = LiveReadback /\
    (forall e, evidence = Some e -> m_source e = Reported /\ m_quality e = Known /\
                                    is_trusted (m_verification e) = true) /\
    records sample_settings !! tiltback = Some r /\ r_completion r = MatchingReadback /\
    r_state r = StPending cur (ValueNumber 81) (Some submitted) /\ submitted <= 20.
Proof.
  apply (confirmed_only_by_readback sample_settings 2
           (SObserve tiltback (ValueNumber 81) LiveReadback 20) tiltback (live 81) 20).
  - vm_compute. reflexivity.
  - vm_compute. discriminate.
Defined.

Lemma stale_request_refused_witness :
  let s := (run_state settings_step (default_settings, 1)
              (sample_calls ++ SSubmission tiltback (ValueNumber 85) SubAccepted MatchingReadback 30
                 :: [STick 31])).1 in
  transport s tiltback 1 Submitted 40 = (s, false).
Proof.
  apply (stale_request_refused 1 sample_calls tiltback 1
           (SSubmission tiltback (ValueNumber 85) SubAccepted MatchingReadback 30) [STick 31]
           tiltback Submitted 40).
  - vm_compute. discriminate.
  - vm_compute. reflexivity.
  - right. repeat eexists.
Defined.

Lemma confirmation_deadline_exact_witness :
  next_confirmation_at sample_settings = Some 2011 /\ tick sample_settings 2010 = sample_settings.
Proof.
  split; [vm_compute; reflexivity|].
  pose proof (confirmation_deadline_exact sample_settings 2010) as H.
  assert (E : next_confirmation_at sample_settings = Some 2011) by (vm_compute; reflexivity).
  rewrite E in H. apply H; [|lia].
  unfold window_ok.
  replace (records sample_settings)
    with ({[ tiltback := entry sample_settings tiltback ]} : gmap SettingId SettingRecord)
    by (vm_compute; reflexivity).
  apply map_Forall_singleton. vm_compute. split; discriminate.
Defined.

Lemma managed_claims_after_handoff_witness :
  snap_transport (snapshot_record 2500 tiltback (entry sample_settings tiltback)) = Some Submitted.
Proof.
  apply (managed_claims_after_handoff 1 sample_calls 2500).
  - assert (E : snapshot sample_settings 2500
                = [snapshot_record 2500 tiltback (entry sample_settings tiltback)])
      by (vm_compute; reflexivity).
    unfold sample_settings in E. rewrite E. apply list_elem_of_here.
  - right; left. vm_compute. reflexivity.
Defined.
