(* ===== verification/DeviceActions.v ===== *)
(** * Device actions and their procedures

    [cutout-core/src/device_actions.rs]: the horn, the trip-meter reset and the
    two-step gyro calibration.  The owner resolves the next legal step from the
    progress the wheel reports, records submissions, and applies ordered,
    evidence-bearing progress. *)

From S2P Require Import Prelude.
From S2P Require Import Quantities Commands.

Inductive DeviceActionProgress := AdjustingAttitude | ReadyToCalibrate.
Inductive DeviceActionStateError := Busy | RestartRequired.
Inductive DeviceActionSubmissionOutcome :=
| ActAccepted | ActRefused (reason : ControlRefusalReason) | ActFailed.
Inductive DeviceActionStatus :=
| ActionIdle | WaitingForProgress | ReadyForNextStep | ActionSentWithoutConfirmation
| ActionRefused | ActionFailed.

#[global] Instance progress_eq_dec : EqDecision DeviceActionProgress.
Proof. solve_decision. Defined.
#[global] Instance action_status_eq_dec : EqDecision DeviceActionStatus.
Proof. solve_decision. Defined.
#[global] Instance action_error_eq_dec : EqDecision DeviceActionStateError.
Proof. solve_decision. Defined.
Definition action_code (i : DeviceActionId) : nat :=
  match i with Horn => 0 | ActionResetTripMeter => 1 | ActionGyroCalibration => 2 end.
(** The derived order of the keys of the [BTreeMap]. *)
Definition all_actions : list DeviceActionId := [Horn; ActionResetTripMeter; ActionGyroCalibration].
Lemma all_actions_lookup i : all_actions !! action_code i = Some i.
Proof. by destruct i. Qed.
#[global] Instance action_id_countable : Countable DeviceActionId :=
  inj_countable action_code (fun n => all_actions !! n) all_actions_lookup.

Record ActionRecord := {
  progress : option (Measured DeviceActionProgress);
  act_observed_at : option Z;
  act_submitted_at : option Z;
  requested_step : option DeviceActionStep;
  status : DeviceActionStatus;
  refusal : option ControlRefusalReason;
}.
#[global] Instance eta_action : Eta ActionRecord := fun r =>
  Build_ActionRecord (progress r) (act_observed_at r) (act_submitted_at r) (requested_step r)
    (status r) (refusal r).
Definition default_action : ActionRecord :=
  {| progress := None; act_observed_at := None; act_submitted_at := None;
     requested_step := None; status := ActionIdle; refusal := None |}.

Definition DeviceActionsState : Type := gmap DeviceActionId ActionRecord.
Definition action_entry (s : DeviceActionsState) (id : DeviceActionId) : ActionRecord :=
  default default_action (s !! id).

Definition usable_action_progress (p : Measured DeviceActionProgress) : bool :=
  bool_decide (m_source p = Reported) && bool_decide (m_quality p = Known)
  && is_trusted (m_verification p).

Definition next_request (s : DeviceActionsState) (id : DeviceActionId)
  : result DeviceActionRequest DeviceActionStateError :=
  step <-? match id with
           | Horn | ActionResetTripMeter => Ok Invoke
           | ActionGyroCalibration =>
               match s !! id with
               | None => Ok PrepareGyroCalibration
               | Some r =>
                   if bool_decide (status r = ActionSentWithoutConfirmation)
                   then Err RestartRequired
                   else if bool_decide (status r = WaitingForProgress) then Err Busy
                   else match progress r with
                        | Some p =>
                            if bool_decide (m_value p = ReadyToCalibrate)
                               && usable_action_progress p
                            then Ok StartGyroCalibration else Ok PrepareGyroCalibration
                        | None => Ok PrepareGyroCalibration
                        end
               end
           end;
  Ok {| action_id := id; action_step := step |}.

Definition action_submission (s : DeviceActionsState) (request : DeviceActionRequest)
    (outcome : DeviceActionSubmissionOutcome) (submitted_at : Z) : DeviceActionsState :=
  let r := action_entry s (action_id request) in
  let r := r <| act_submitted_at := Some submitted_at |>
             <| requested_step := Some (action_step request) |> <| refusal := None |> in
  let r := match outcome with
           | ActAccepted =>
               r <| status := match action_step request with
                              | PrepareGyroCalibration => WaitingForProgress
                              | Invoke | StartGyroCalibration => ActionSentWithoutConfirmation
                              end |>
           | ActRefused reason => r <| refusal := Some reason |> <| status := ActionRefused |>
           | ActFailed => r <| status := ActionFailed |>
           end in
  <[action_id request := r]> s.

(** The guard shared by progress and its invalidation. *)
Definition action_out_of_order (r : ActionRecord) (observed_at : Z) : bool :=
  is_some_and (act_observed_at r) (fun latest => bool_decide (observed_at < latest))
  || is_some_and (act_submitted_at r) (fun submitted => bool_decide (observed_at < submitted)).

Definition observe_action (s : DeviceActionsState) (id : DeviceActionId)
    (measured : Measured DeviceActionProgress) (observed_at : Z) : DeviceActionsState :=
  let r := action_entry s id in
  if action_out_of_order r observed_at then <[id := r]> s else
  let usable := usable_action_progress measured in
  let r := r <| progress := Some measured |> <| act_observed_at := Some observed_at |>
             <| refusal := None |> in
  if bool_decide (status r = ActionSentWithoutConfirmation)
     && bool_decide (requested_step r = Some StartGyroCalibration)
  then <[id := r]> s else
  let r := r <| status :=
             match usable, m_value measured with
             | true, AdjustingAttitude => WaitingForProgress
             | true, ReadyToCalibrate => ReadyForNextStep
             | false, _ => if bool_decide (requested_step r = Some PrepareGyroCalibration)
                           then WaitingForProgress else ActionIdle
             end |> in
  let r := if usable && bool_decide (m_value measured = ReadyToCalibrate)
           then r <| requested_step := None |> <| act_submitted_at := None |> else r in
  <[id := r]> s.

Definition invalidate_progress (s : DeviceActionsState) (id : DeviceActionId) (observed_at : Z)
  : DeviceActionsState :=
  let r := action_entry s id in
  if action_out_of_order r observed_at then <[id := r]> s else
  let r := r <| progress := None |> <| act_observed_at := Some observed_at |> in
  let r := if negb (bool_decide (status r = ActionSentWithoutConfirmation))
           then r <| status := if bool_decide (requested_step r = Some PrepareGyroCalibration)
                               then WaitingForProgress else ActionIdle |>
           else r in
  <[id := r]> s.

Definition disconnect_actions (s : DeviceActionsState) : DeviceActionsState := ∅.

Record DeviceActionSnapshot := {
  as_id : DeviceActionId;
  as_progress : option (Measured DeviceActionProgress);
  as_status : DeviceActionStatus;
  as_age : option Z;
  as_requested_step : option DeviceActionStep;
  as_next_step : result DeviceActionStep DeviceActionStateError;
  as_refusal : option ControlRefusalReason;
}.
Definition snapshot_for (s : DeviceActionsState) (id : DeviceActionId) (now : Z)
  : DeviceActionSnapshot :=
  let r := action_entry s id in
  {| as_id := id; as_progress := progress r; as_status := status r;
     as_age := (_ ← progress r; sat_sub now <$> act_observed_at r);
     as_requested_step := requested_step r;
     as_next_step := (q <-? next_request s id; Ok (action_step q));
     as_refusal := refusal r |}.
Definition action_snapshot (s : DeviceActionsState) (now : Z) : list DeviceActionSnapshot :=
  map (fun id => snapshot_for s id now) (filter (fun id => is_Some (s !! id)) all_actions).

(** ** The owner as a machine

    An invocation resolves the next step and records its outcome, as
    [submit_action] of [device_connection/actions.rs] does. *)

Inductive ActionCall :=
| AInvoke (id : DeviceActionId) (outcome : DeviceActionSubmissionOutcome) (at_ : Z)
| AObserve (id : DeviceActionId) (measured : Measured DeviceActionProgress) (at_ : Z)
| AInvalidate (id : DeviceActionId) (at_ : Z)
| ADisconnect.

(** The step that was submitted, or why none was; nothing for other calls. *)
Definition ActionReply : Type := option (result DeviceActionStep DeviceActionStateError).

Definition action_step_of (s : DeviceActionsState) (c : ActionCall)
  : DeviceActionsState * ActionReply :=
  match c with
  | AInvoke id outcome at_ =>
      match next_request s id with
      | Err e => (s, Some (Err e))
      | Ok request => (action_submission s request outcome at_, Some (Ok (action_step request)))
      end
  | AObserve id m at_ => (observe_action s id m at_, None)
  | AInvalidate id at_ => (invalidate_progress s id at_, None)
  | ADisconnect => (disconnect_actions s, None)
  end.

Definition ready (source : ValueSource) : Measured DeviceActionProgress :=
  {| m_value := ReadyToCalibrate; m_source := source; m_quality := Known;
     m_verification := HardwareVerified |}.

Example gyro_procedure :
  run_outputs action_step_of ∅
    [AInvoke ActionGyroCalibration ActAccepted 10; AInvoke ActionGyroCalibration ActAccepted 11;
     AObserve ActionGyroCalibration (ready Estimated) 12; AInvoke ActionGyroCalibration ActAccepted 13;
     AObserve ActionGyroCalibration (ready Reported) 9; AInvoke ActionGyroCalibration ActAccepted 14;
     AObserve ActionGyroCalibration (ready Reported) 15; AInvoke ActionGyroCalibration ActAccepted 16;
     AInvoke ActionGyroCalibration ActAccepted 17]
  = [Some (Ok PrepareGyroCalibration); Some (Err Busy); None; Some (Err Busy); None;
     Some (Err Busy); None; Some (Ok StartGyroCalibration); Some (Err RestartRequired)].
Proof. vm_compute. reflexivity. Qed.

(** ** The gyro record *)

Lemma action_entry_insert (s : DeviceActionsState) i r j :
  action_entry (<[i := r]> s) j = if bool_decide (j = i) then r else action_entry s j.
Proof.
  revert s. unfold action_entry, DeviceActionsState. intros s.
  case_bool_decide; [subst; by rewrite lookup_insert_eq|].
  by rewrite lookup_insert_ne.
Qed.

(** The resolution of a calibration step reads the record, present or default. *)
Lemma next_gyro s :
  next_request s ActionGyroCalibration =
    if bool_decide (status (action_entry s ActionGyroCalibration) = ActionSentWithoutConfirmation) then Err RestartRequired
    else if bool_decide (status (action_entry s ActionGyroCalibration) = WaitingForProgress) then Err Busy
    else Ok {| action_id := ActionGyroCalibration;
               action_step :=
                 match progress (action_entry s ActionGyroCalibration) with
                 | Some p => if bool_decide (m_value p = ReadyToCalibrate) && usable_action_progress p
                             then StartGyroCalibration else PrepareGyroCalibration
                 | None => PrepareGyroCalibration
                 end |}.
Proof.
  unfold next_request, action_entry. destruct (s !! ActionGyroCalibration) as [r|]; simpl; [|done].
  repeat case_match_goal; done.
Qed.

(** Calls for another action leave the gyro record alone. *)
Definition addressed (c : ActionCall) : option DeviceActionId :=
  match c with
  | AInvoke i _ _ | AObserve i _ _ | AInvalidate i _ => Some i
  | ADisconnect => None
  end.
Lemma other_action_step s c i j :
  addressed c = Some i -> i <> j -> action_entry (action_step_of s c).1 j = action_entry s j.
Proof.
  intros Hc Hn. destruct c as [k o t|k m t|k t|]; simpl in Hc; simplify_eq; simpl.
  - destruct (next_request s i) as [q|] eqn:E; simpl; [|done].
    assert (Hq : action_id q = i).
    { unfold next_request in E. apply result_bind_Ok in E as (st & _ & [= <-]). done. }
    unfold action_submission. rewrite action_entry_insert, bool_decide_false by congruence. done.
  - unfold observe_action. repeat (case_match_goal; simpl);
      by rewrite action_entry_insert, bool_decide_false by done.
  - unfold invalidate_progress. repeat (case_match_goal; simpl);
      by rewrite action_entry_insert, bool_decide_false by done.
Qed.

(** Calibration was started on this connection. *)
Definition calibration_started (s : DeviceActionsState) : Prop :=
  status (action_entry s ActionGyroCalibration) = ActionSentWithoutConfirmation /\
  requested_step (action_entry s ActionGyroCalibration) = Some StartGyroCalibration.
(** The wheel was asked at [t] to prepare and has not reported readiness. *)
Definition calibration_preparing (t : Z) (s : DeviceActionsState) : Prop :=
  status (action_entry s ActionGyroCalibration) = WaitingForProgress /\
  requested_step (action_entry s ActionGyroCalibration) = Some PrepareGyroCalibration /\
  act_submitted_at (action_entry s ActionGyroCalibration) = Some t.

Lemma gyro_cases c :
  c = ADisconnect \/ addressed c = Some ActionGyroCalibration \/
  exists i, addressed c = Some i /\ i <> ActionGyroCalibration.
Proof. destruct c as [[]|[]|[]|]; simpl; eauto; right; right; eexists; split; done. Qed.

Lemma started_step s c :
  c <> ADisconnect -> calibration_started s -> calibration_started (action_step_of s c).1 /\
  (forall o t, c = AInvoke ActionGyroCalibration o t ->
     (action_step_of s c).2 = Some (Err RestartRequired)).
Proof.
  intros Hc Hs. destruct (gyro_cases c) as [->|[Ha|(i & Ha & Hi)]]; [done| |].
  2:{ split; [|intros o t ->; simpl in Ha; congruence]. unfold calibration_started.
      by rewrite (other_action_step s c i ActionGyroCalibration Ha Hi). }
  destruct Hs as [H1 H2].
  destruct c as [i o t|i m t|i t|]; simpl in Ha; simplify_eq; cbn [action_step_of].
  - rewrite next_gyro, H1, bool_decide_true by done. simpl. split; [|done]. by split.
  - split; [|done]. unfold calibration_started, observe_action. cbn [fst].
    destruct (action_entry s ActionGyroCalibration) as [p oa sa rs st rf]. simpl in *. subst.
    destruct (action_out_of_order _ t); simpl; decide_bools;
      rewrite action_entry_insert, bool_decide_true; done.
  - split; [|done]. unfold calibration_started, invalidate_progress. cbn [fst].
    destruct (action_entry s ActionGyroCalibration) as [p oa sa rs st rf]. simpl in *. subst.
    destruct (action_out_of_order _ t); simpl; decide_bools;
      rewrite action_entry_insert, bool_decide_true; done.
Qed.

(** What lets a preparing wheel go on. *)
Definition reports_ready (t : Z) (c : ActionCall) : Prop :=
  exists m at_, c = AObserve ActionGyroCalibration m at_ /\ t <= at_ /\
    m_value m = ReadyToCalibrate /\ usable_action_progress m = true.

Lemma preparing_step t s c :
  c <> ADisconnect -> ~ reports_ready t c -> calibration_preparing t s ->
  calibration_preparing t (action_step_of s c).1 /\
  (forall o u, c = AInvoke ActionGyroCalibration o u -> (action_step_of s c).2 = Some (Err Busy)).
Proof.
  intros Hc Hr Hs. destruct (gyro_cases c) as [->|[Ha|(i & Ha & Hi)]]; [done| |].
  2:{ split; [|intros o u ->; simpl in Ha; congruence]. unfold calibration_preparing.
      by rewrite (other_action_step s c i ActionGyroCalibration Ha Hi). }
  destruct Hs as (H1 & H2 & H3).
  destruct c as [i o u|i m u|i u|]; simpl in Ha; simplify_eq; cbn [action_step_of].
  - rewrite next_gyro, H1, bool_decide_false, bool_decide_true by done. simpl. split; [|done]. by split.
  - split; [|done]. unfold calibration_preparing, observe_action. cbn [fst].
    destruct (action_entry s ActionGyroCalibration) as [p oa sa rs st rf]. simpl in *. subst.
    destruct (action_out_of_order _ u) eqn:Eo; simpl; decide_bools;
      rewrite action_entry_insert, bool_decide_true by done; [done|].
    unfold action_out_of_order in Eo. simpl in Eo. prop_bools.
    destruct (usable_action_progress m) eqn:Eu, (m_value m) eqn:Em; simpl; try done.
    exfalso. apply Hr. exists m, u. split_ands; auto; lia.
  - split; [|done]. unfold calibration_preparing, invalidate_progress. cbn [fst].
    destruct (action_entry s ActionGyroCalibration) as [p oa sa rs st rf]. simpl in *. subst.
    destruct (action_out_of_order _ u); simpl; decide_bools;
      rewrite action_entry_insert, bool_decide_true; done.
Qed.

Lemma invoke_outcome s t :
  match next_request s ActionGyroCalibration with
  | Ok q =>
      let s' := action_submission s q ActAccepted t in
      match action_step q with
      | StartGyroCalibration => calibration_started s'
      | PrepareGyroCalibration => calibration_preparing t s'
      | Invoke => False
      end
  | Err _ => True
  end.
Proof.
  rewrite next_gyro.
  destruct (bool_decide _); [done|]. destruct (bool_decide _); [done|]. cbn [action_step].
  assert (H : forall st, st <> Invoke ->
    match st with
    | StartGyroCalibration => calibration_started (action_submission s
        {| action_id := ActionGyroCalibration; action_step := st |} ActAccepted t)
    | PrepareGyroCalibration => calibration_preparing t (action_submission s
        {| action_id := ActionGyroCalibration; action_step := st |} ActAccepted t)
    | Invoke => False
    end).
  { intros [] Hs; [done|..]; unfold calibration_started, calibration_preparing, action_submission;
      rewrite action_entry_insert, bool_decide_true by done;
      simpl; by destruct (action_entry s ActionGyroCalibration). }
  apply H. repeat case_match_goal; done.
Qed.

(** ** Properties *)

(** Gyro calibration runs at most once per connection: after an accepted
    start, whatever the wheel reports and whatever else is invoked, every
    further calibration request on that connection is refused because a restart
    is required, so no second start or preparation is ever sent. *)
Theorem calibration_latched (s : DeviceActionsState) (t : Z) (calls : list ActionCall)
    (o : DeviceActionSubmissionOutcome) (u : Z) :
  (action_step_of s (AInvoke ActionGyroCalibration ActAccepted t)).2 = Some (Ok StartGyroCalibration) ->
  Forall (fun c => c <> ADisconnect) calls ->
  let s' := run_state action_step_of s (AInvoke ActionGyroCalibration ActAccepted t :: calls) in
  action_step_of s' (AInvoke ActionGyroCalibration o u) = (s', Some (Err RestartRequired)).
Proof.
  intros H Hc. cbv zeta. rewrite run_state_cons.
  assert (Hs : calibration_started (action_step_of s (AInvoke ActionGyroCalibration ActAccepted t)).1).
  { pose proof (invoke_outcome s t) as Hi. cbn [action_step_of] in *.
    destruct (next_request s ActionGyroCalibration) as [q|]; [|done]. simpl in *.
    injection H as E. by rewrite E in Hi. }
  revert Hs. generalize (action_step_of s (AInvoke ActionGyroCalibration ActAccepted t)).1.
  clear H. induction Hc as [|c calls Hc _ IH]; intros s1 Hs.
  - unfold run_state. cbn [run fst action_step_of]. rewrite next_gyro. destruct Hs as [-> _]. done.
  - rewrite run_state_cons. apply IH. by apply started_step.
Qed.

(** Calibration is never started on stale or untrusted evidence: once the
    wheel was asked to prepare, further calibration requests are refused as busy
    until a trusted ready report made no earlier than the request arrives, and
    such a report makes the start the next legal step. *)
Theorem calibration_waits_for_ready (s : DeviceActionsState) (t : Z) (calls : list ActionCall)
    (o : DeviceActionSubmissionOutcome) (u : Z) (m : Measured DeviceActionProgress) (at_ : Z) :
  (action_step_of s (AInvoke ActionGyroCalibration ActAccepted t)).2
    = Some (Ok PrepareGyroCalibration) ->
  Forall (fun c => c <> ADisconnect /\ ~ reports_ready t c) calls ->
  let s' := run_state action_step_of s (AInvoke ActionGyroCalibration ActAccepted t :: calls) in
  action_step_of s' (AInvoke ActionGyroCalibration o u) = (s', Some (Err Busy)) /\
  (m_value m = ReadyToCalibrate -> usable_action_progress m = true -> t <= at_ ->
   (forall latest, act_observed_at (action_entry s' ActionGyroCalibration) = Some latest -> latest <= at_) ->
   next_request (observe_action s' ActionGyroCalibration m at_) ActionGyroCalibration
   = Ok {| action_id := ActionGyroCalibration; action_step := StartGyroCalibration |}).
Proof.
  intros H Hc. cbv zeta. rewrite run_state_cons.
  assert (Hs : calibration_preparing t (action_step_of s (AInvoke ActionGyroCalibration ActAccepted t)).1).
  { pose proof (invoke_outcome s t) as Hi. cbn [action_step_of] in *.
    destruct (next_request s ActionGyroCalibration) as [q|]; [|done]. simpl in *.
    injection H as E. by rewrite E in Hi. }
  revert Hs. generalize (action_step_of s (AInvoke ActionGyroCalibration ActAccepted t)).1.
  clear H. induction Hc as [|c calls [Hc Hr] _ IH]; intros s1 Hs.
  - unfold run_state. cbn [run fst action_step_of]. rewrite next_gyro. destruct Hs as (H1 & H2 & H3).
    rewrite H1. split; [done|]. intros Hm Hu Ht Hl. unfold observe_action, action_out_of_order.
    rewrite H3. replace (is_some_and (act_observed_at _) _) with false.
    2:{ destruct (act_observed_at _) as [l|] eqn:El; [|done]. simpl.
        specialize (Hl l eq_refl). by rewrite bool_decide_false by lia. }
    simpl. rewrite bool_decide_false by lia. rewrite Hu, Hm. simpl.
    destruct (action_entry s1 ActionGyroCalibration) as [p oa sa rs st rf]. simpl in *. subst.
    simpl; decide_bools. rewrite next_gyro, action_entry_insert.
    rewrite (bool_decide_true (ActionGyroCalibration = _)) by done. simpl. rewrite Hm, Hu. by decide_bools.
  - rewrite run_state_cons. apply IH. by apply preparing_step.
Qed.

(** ** Witnesses *)

Definition sample_ready : DeviceActionsState :=
  run_state action_step_of ∅ [AInvoke ActionGyroCalibration ActAccepted 10;
                              AObserve ActionGyroCalibration (ready Reported) 15].

Lemma calibration_latched_witness :
  let s' := run_state action_step_of sample_ready
    [AInvoke ActionGyroCalibration ActAccepted 16; AObserve ActionGyroCalibration (ready Reported) 20] in
  action_step_of s' (AInvoke ActionGyroCalibration ActAccepted 21) = (s', Some (Err RestartRequired)).
Proof.
  apply (calibration_latched sample_ready 16 [AObserve ActionGyroCalibration (ready Reported) 20]).
  - vm_compute. reflexivity.
  - repeat constructor. discriminate.
Defined.

Lemma calibration_waits_for_ready_witness :
  let s' := run_state action_step_of ∅
    [AInvoke ActionGyroCalibration ActAccepted 10; AInvalidate ActionGyroCalibration 12] in
  next_request (observe_action s' ActionGyroCalibration (ready Reported) 13) ActionGyroCalibration
  = Ok {| action_id := ActionGyroCalibration; action_step := StartGyroCalibration |}.
Proof.
  apply (calibration_waits_for_ready ∅ 10 [AInvalidate ActionGyroCalibration 12] ActAccepted 0).
  - vm_compute. reflexivity.
  - repeat constructor; [discriminate|]. intros (m & at_ & [=] & _).
  - reflexivity.
  - reflexivity.
  - lia.
  - intros latest. vm_compute. intros [= <-]. discriminate.
Defined.
