(* ===== verification/RequestQueue.v ===== *)
(** * Request tracking and scheduling

    [cutout-core/src/lib.rs]: the one-slot [RequestTracker] of ambiguous
    replies, the fixed-capacity [RequestQueue], the [RequestScheduler] that ages
    skipped work, and polling plans.  The arrays [[T; N]] are lists of length
    [N]; the loops that move slots are the recursions [shift_up] and
    [shift_down].  The queue is shown to implement a list, the scheduler a list
    of requests with their skip counts. *)

From S2P Require Import Prelude.
From S2P Require Import Quantities Commands.

(** ** Keys and policies *)

Inductive RequestTarget := Local | VescCanController (controller_id : Z).
Record RequestKey := { key_command : CommandKind; key_target : RequestTarget }.
#[global] Instance target_eq_dec : EqDecision RequestTarget.
Proof. solve_decision. Defined.
#[global] Instance key_eq_dec : EqDecision RequestKey.
Proof. solve_decision. Defined.
Definition key_new (c : CommandKind) : RequestKey := {| key_command := c; key_target := Local |}.

Record RequestPolicy := { req_timeout : Z; max_retries : Z; min_interval : Z }.
Definition default_policy : RequestPolicy :=
  {| req_timeout := 1000; max_retries := 0; min_interval := 0 |}.

(** ** Diagnostics of a parser *)

Inductive ParserError :=
| OversizedFrame (claimed max : Z)
| BadChecksum
| MalformedFrame
| Timeout (elapsed_ms timeout_ms : Z)
| UnmatchedReply.
Record ParserDiagnostics := {
  dropped_bytes : Z; resyncs : Z; bad_checksums : Z; timeouts : Z;
  oversized_frames : Z; malformed_frames : Z; unmatched_replies : Z;
}.
#[global] Instance eta_diagnostics : Eta ParserDiagnostics := fun r =>
  Build_ParserDiagnostics (dropped_bytes r) (resyncs r) (bad_checksums r) (timeouts r)
    (oversized_frames r) (malformed_frames r) (unmatched_replies r).
Definition default_diagnostics : ParserDiagnostics :=
  {| dropped_bytes := 0; resyncs := 0; bad_checksums := 0; timeouts := 0;
     oversized_frames := 0; malformed_frames := 0; unmatched_replies := 0 |}.
Definition count_next (n : Z) : Z := sat_add u64_max n 1.
Definition add_dropped_bytes (d : ParserDiagnostics) (n : Z) : ParserDiagnostics :=
  d <| dropped_bytes := sat_add u64_max (dropped_bytes d) n |>.
Definition record_resync (d : ParserDiagnostics) : ParserDiagnostics :=
  d <| resyncs := count_next (resyncs d) |>.
Definition record_error (d : ParserDiagnostics) (e : ParserError) : ParserDiagnostics :=
  match e with
  | OversizedFrame _ _ => d <| oversized_frames := count_next (oversized_frames d) |>
  | BadChecksum => d <| bad_checksums := count_next (bad_checksums d) |>
  | MalformedFrame => d <| malformed_frames := count_next (malformed_frames d) |>
  | Timeout _ _ => d <| timeouts := count_next (timeouts d) |>
  | UnmatchedReply => d <| unmatched_replies := count_next (unmatched_replies d) |>
  end.
Definition merge_diagnostics (d o : ParserDiagnostics) : ParserDiagnostics :=
  {| dropped_bytes := sat_add u64_max (dropped_bytes d) (dropped_bytes o);
     resyncs := sat_add u64_max (resyncs d) (resyncs o);
     bad_checksums := sat_add u64_max (bad_checksums d) (bad_checksums o);
     timeouts := sat_add u64_max (timeouts d) (timeouts o);
     oversized_frames := sat_add u64_max (oversized_frames d) (oversized_frames o);
     malformed_frames := sat_add u64_max (malformed_frames d) (malformed_frames o);
     unmatched_replies := sat_add u64_max (unmatched_replies d) (unmatched_replies o) |}.

(** ** The tracker *)

Record ScheduledRequest := {
  sr_key : RequestKey;
  sr_policy : RequestPolicy;
  started_at_ms : Z;
  retries : Z;      (* u8 *)
}.
#[global] Instance eta_scheduled : Eta ScheduledRequest := fun r =>
  Build_ScheduledRequest (sr_key r) (sr_policy r) (started_at_ms r) (retries r).
Definition attempts (r : ScheduledRequest) : Z := sat_add u8_max (retries r) 1.

Inductive RequestStartError :=
| Busy (key : RequestKey)
| Pacing (ready_at_ms : Z)
| NoActiveRequest.
Inductive RequestTick :=
| Idle
| Waiting
| Retry (key : RequestKey) (attempt : Z)
| TimedOut (key : RequestKey) (attempts : Z).
Inductive CorrelationResult :=
| Matched (key : RequestKey) (attempts : Z)
| Unmatched (key : RequestKey).

Record RequestTracker := {
  in_flight : option ScheduledRequest;
  last_started : option (RequestKey * Z);
}.
#[global] Instance eta_tracker : Eta RequestTracker := fun r =>
  Build_RequestTracker (in_flight r) (last_started r).
Definition default_tracker : RequestTracker := {| in_flight := None; last_started := None |}.

Definition start (s : RequestTracker) (key : RequestKey) (policy : RequestPolicy) (now : Z)
  : RequestTracker * result unit RequestStartError :=
  match in_flight s with
  | Some active => (s, Err (Busy (sr_key active)))
  | None =>
      let started := ({| in_flight := Some {| sr_key := key; sr_policy := policy;
                                              started_at_ms := now; retries := 0 |};
                         last_started := Some (key, now) |}, Ok tt) in
      match last_started s with
      | Some (last_key, started_at) =>
          let ready_at := timestamp_saturating_add_duration started_at (min_interval policy) in
          if bool_decide (last_key = key) && bool_decide (now < ready_at)
          then (s, Err (Pacing ready_at)) else started
      | None => started
      end
  end.

Definition on_tick (s : RequestTracker) (now : Z) : RequestTick :=
  match in_flight s with
  | None => Idle
  | Some active =>
      let deadline :=
        timestamp_saturating_add_duration (started_at_ms active) (req_timeout (sr_policy active)) in
      if bool_decide (now < deadline) then Waiting
      else if bool_decide (retries active < max_retries (sr_policy active))
      then Retry (sr_key active) (sat_add u8_max (retries active) 1)
      else TimedOut (sr_key active) (attempts active)
  end.

Definition retry_started (s : RequestTracker) (now : Z)
  : RequestTracker * result unit RequestStartError :=
  match in_flight s with
  | None => (s, Err NoActiveRequest)
  | Some active =>
      if bool_decide (max_retries (sr_policy active) <= retries active)
      then (s, Err (Busy (sr_key active)))
      else
        let active := active <| retries := sat_add u8_max (retries active) 1 |>
                             <| started_at_ms := now |> in
        ({| in_flight := Some active; last_started := Some (sr_key active, now) |}, Ok tt)
  end.

Definition correlate_reply (s : RequestTracker) (key : RequestKey) (d : ParserDiagnostics)
  : RequestTracker * ParserDiagnostics * CorrelationResult :=
  match in_flight s with
  | None => (s, record_error d UnmatchedReply, Unmatched key)
  | Some active =>
      if bool_decide (sr_key active = key)
      then (s <| in_flight := None |>, d, Matched key (attempts active))
      else (s, record_error d UnmatchedReply, Unmatched key)
  end.

(** ** Queued requests *)

Inductive RequestUrgency := Routine | High | Critical.
#[global] Instance urgency_eq_dec : EqDecision RequestUrgency.
Proof. solve_decision. Defined.
(** The derived order. *)
Definition urgency_rank (u : RequestUrgency) : Z :=
  match u with Routine => 0 | High => 1 | Critical => 2 end.

Definition REQUEST_STARVATION_SKIP_THRESHOLD : Z := 2.

Record QueuedRequest := {
  q_key : RequestKey;
  q_policy : RequestPolicy;
  q_urgency : RequestUrgency;
}.
#[global] Instance policy_eq_dec : EqDecision RequestPolicy.
Proof. solve_decision. Defined.
#[global] Instance queued_eq_dec : EqDecision QueuedRequest.
Proof. solve_decision. Defined.

Inductive RequestQueueError := Full (capacity : nat) | DuplicateKey (key : RequestKey).

(** ** The queue *)

(** [entries: [Option<QueuedRequest>; N]]. *)
Record RequestQueue := { entries : list (option QueuedRequest); q_len : nat }.
Definition queue_new (N : nat) : RequestQueue := {| entries := replicate N None; q_len := 0 |}.
Definition capacity (q : RequestQueue) : nat := length (entries q).

(** [while index < len], [turns] from the end. *)
Fixpoint contains_loop (es : list (option QueuedRequest)) (key : RequestKey) (turns index : nat)
  : bool :=
  match turns with
  | O => false
  | S turns =>
      match es !! index with
      | Some (Some request) =>
          if bool_decide (q_key request = key) then true else contains_loop es key turns (S index)
      | _ => contains_loop es key turns (S index)
      end
  end.
Definition contains_key (q : RequestQueue) (key : RequestKey) : bool :=
  contains_loop (entries q) key (q_len q) 0.

(** [a[to] = a[from]]. *)
Definition copy_slot {A} (es : list A) (to from : nat) : list A :=
  match es !! from with Some x => <[to := x]> es | None => es end.
(** [while move_from > insert_at { a[move_from] = a[move_from - 1]; move_from -= 1 }]
    in [steps] turns. *)
Fixpoint shift_up {A} (steps move_from : nat) (es : list A) : list A :=
  match steps with
  | O => es
  | S steps => shift_up steps (move_from - 1) (copy_slot es move_from (move_from - 1))
  end.
(** [while index < len { a[index - 1] = a[index]; index += 1 }] in [steps] turns. *)
Fixpoint shift_down {A} (steps index : nat) (es : list A) : list A :=
  match steps with
  | O => es
  | S steps => shift_down steps (S index) (copy_slot es (index - 1) index)
  end.

Definition enqueue (q : RequestQueue) (r : QueuedRequest)
  : RequestQueue * result unit RequestQueueError :=
  if contains_key q (q_key r) then (q, Err (DuplicateKey (q_key r))) else
  if bool_decide (q_len q = capacity q) then (q, Err (Full (capacity q))) else
  ({| entries := <[q_len q := Some r]> (entries q); q_len := q_len q + 1 |}, Ok tt).

(** [iter().take(len).position(..)]. *)
Definition lower_urgency (r : QueuedRequest) (e : option QueuedRequest) : bool :=
  match e with
  | Some queued => bool_decide (urgency_rank (q_urgency queued) < urgency_rank (q_urgency r))
  | None => false
  end.
Fixpoint position {A} (f : A -> bool) (l : list A) : option nat :=
  match l with
  | [] => None
  | x :: l => if f x then Some O else S <$> position f l
  end.

Definition enqueue_by_urgency_with_index (q : RequestQueue) (r : QueuedRequest)
  : RequestQueue * result nat RequestQueueError :=
  if contains_key q (q_key r) then (q, Err (DuplicateKey (q_key r))) else
  if bool_decide (q_len q = capacity q) then (q, Err (Full (capacity q))) else
  let insert_at := default (q_len q) (position (lower_urgency r) (take (q_len q) (entries q))) in
  let es := shift_up (q_len q - insert_at) (q_len q) (entries q) in
  ({| entries := <[insert_at := Some r]> es; q_len := q_len q + 1 |}, Ok insert_at).

Definition enqueue_by_urgency (q : RequestQueue) (r : QueuedRequest)
  : RequestQueue * result unit RequestQueueError :=
  let '(q', res) := enqueue_by_urgency_with_index q r in
  (q', match res with Ok _ => Ok tt | Err e => Err e end).

Definition pop_next (q : RequestQueue) : RequestQueue * option QueuedRequest :=
  if bool_decide (q_len q = 0%nat) then (q, None) else
  let next := default None (entries q !! 0%nat) in
  let es := shift_down (q_len q - 1) 1 (entries q) in
  let len := (q_len q - 1)%nat in
  ({| entries := <[len := None]> es; q_len := len |}, next).

(** ** The scheduler *)

Record RequestUrgencyCounters := { routine : Z; high : Z; critical : Z }.
#[global] Instance eta_counters : Eta RequestUrgencyCounters := fun r =>
  Build_RequestUrgencyCounters (routine r) (high r) (critical r).
Definition increment (c : RequestUrgencyCounters) (u : RequestUrgency) : RequestUrgencyCounters :=
  match u with
  | Routine => c <| routine := count_next (routine c) |>
  | High => c <| high := count_next (high c) |>
  | Critical => c <| critical := count_next (critical c) |>
  end.
Definition zero_counters : RequestUrgencyCounters := {| routine := 0; high := 0; critical := 0 |}.
Record RequestSchedulerDiagnostics := {
  duplicate_refusals : Z;
  overflow_refusals : Z;
  enqueued : RequestUrgencyCounters;
  dequeued : RequestUrgencyCounters;
  starvation_aging_events : Z;
}.
#[global] Instance eta_sched_diagnostics : Eta RequestSchedulerDiagnostics := fun r =>
  Build_RequestSchedulerDiagnostics (duplicate_refusals r) (overflow_refusals r) (enqueued r)
    (dequeued r) (starvation_aging_events r).

Record RequestScheduler := {
  queue : RequestQueue;
  skip_counts : list Z;     (* [u8; N] *)
  diagnostics : RequestSchedulerDiagnostics;
}.
#[global] Instance eta_scheduler : Eta RequestScheduler := fun r =>
  Build_RequestScheduler (queue r) (skip_counts r) (diagnostics r).
Definition scheduler_new (N : nat) : RequestScheduler :=
  {| queue := queue_new N; skip_counts := replicate N 0;
     diagnostics := {| duplicate_refusals := 0; overflow_refusals := 0; enqueued := zero_counters;
                       dequeued := zero_counters; starvation_aging_events := 0 |} |}.

Definition record_enqueue_result (s : RequestScheduler) (r : QueuedRequest)
    (res : result unit RequestQueueError) : RequestScheduler * result unit RequestQueueError :=
  let d := diagnostics s in
  match res with
  | Ok _ => (s <| diagnostics := d <| enqueued := increment (enqueued d) (q_urgency r) |> |>, Ok tt)
  | Err (DuplicateKey key) =>
      (s <| diagnostics := d <| duplicate_refusals := count_next (duplicate_refusals d) |> |>,
       Err (DuplicateKey key))
  | Err (Full c) =>
      (s <| diagnostics := d <| overflow_refusals := count_next (overflow_refusals d) |> |>,
       Err (Full c))
  end.

Definition sched_enqueue (s : RequestScheduler) (r : QueuedRequest)
  : RequestScheduler * result unit RequestQueueError :=
  let previous_len := q_len (queue s) in
  let '(q, res) := enqueue (queue s) r in
  let s := s <| queue := q |> in
  let s := if is_ok res then s <| skip_counts := <[previous_len := 0]> (skip_counts s) |> else s in
  record_enqueue_result s r res.

Definition insert_skip_count (s : RequestScheduler) (insert_at : nat) : RequestScheduler :=
  let last := (q_len (queue s) - 1)%nat in
  s <| skip_counts := <[insert_at := 0]> (shift_up (last - insert_at) last (skip_counts s)) |>.

Definition sched_enqueue_by_urgency (s : RequestScheduler) (r : QueuedRequest)
  : RequestScheduler * result unit RequestQueueError :=
  let '(q, res) := enqueue_by_urgency_with_index (queue s) r in
  let s := s <| queue := q |> in
  let s := match res with Ok insert_at => insert_skip_count s insert_at | Err _ => s end in
  record_enqueue_result s r (match res with Ok _ => Ok tt | Err e => Err e end).

(** [while index < len], from index 1. *)
Fixpoint aged_loop (counts : list Z) (turns index : nat) : nat :=
  match turns with
  | O => 0
  | S turns => if bool_decide (REQUEST_STARVATION_SKIP_THRESHOLD <= default 0 (counts !! index))
              then index else aged_loop counts turns (S index)
  end.
Definition aged_pop_index (s : RequestScheduler) : option nat :=
  let len := q_len (queue s) in
  if bool_decide (len = 0%nat) then None
  else Some (aged_loop (skip_counts s) (len - 1) 1).

Definition remove_at (s : RequestScheduler) (selected : nat)
  : RequestScheduler * option QueuedRequest :=
  match entries (queue s) !! selected with
  | Some (Some request) =>
      let len := q_len (queue s) in
      let steps := (len - (selected + 1))%nat in
      let es := shift_down steps (selected + 1) (entries (queue s)) in
      let cs := shift_down steps (selected + 1) (skip_counts s) in
      let len := (len - 1)%nat in
      (s <| queue := {| entries := <[len := None]> es; q_len := len |} |>
         <| skip_counts := <[len := 0]> cs |>, Some request)
  | _ => (s, None)
  end.

Definition age_skipped_after_pop (s : RequestScheduler) (selected : nat) : RequestScheduler :=
  s <| skip_counts :=
         imap (fun index c => if bool_decide (index < q_len (queue s) /\ selected <= index)%nat
                              then sat_add u8_max c 1 else c) (skip_counts s) |>.

Definition sched_pop_next (s : RequestScheduler) : RequestScheduler * option QueuedRequest :=
  match aged_pop_index s with
  | None => (s, None)
  | Some selected =>
      match remove_at s selected with
      | (s, None) => (s, None)
      | (s, Some request) =>
          let s := if bool_decide (0 < selected)%nat
                   then s <| diagnostics := (diagnostics s)
                          <| starvation_aging_events :=
                               count_next (starvation_aging_events (diagnostics s)) |> |>
                   else s in
          let s := age_skipped_after_pop s selected in
          (s <| diagnostics := (diagnostics s)
               <| dequeued := increment (dequeued (diagnostics s)) (q_urgency request) |> |>,
           Some request)
      end
  end.

(** ** Polling plans *)

Record PollRequest := { poll_kind : CommandKind; poll_policy : RequestPolicy;
                        poll_urgency : RequestUrgency }.
Inductive PollingPlanError :=
| UnsupportedCommand (kind : CommandKind) (safety_class : SafetyClass)
| PlanQueue (e : RequestQueueError).
Definition to_queued_request (p : PollRequest) : result QueuedRequest PollingPlanError :=
  if bool_decide (kind_safety_class (poll_kind p) = ReadOnly)
  then Ok {| q_key := key_new (poll_kind p); q_policy := poll_policy p; q_urgency := poll_urgency p |}
  else Err (UnsupportedCommand (poll_kind p) (kind_safety_class (poll_kind p))).
(** The plan stops at the first refusal and keeps what it queued before. *)
Fixpoint enqueue_into (plan : list PollRequest) (q : RequestQueue)
  : RequestQueue * result unit PollingPlanError :=
  match plan with
  | [] => (q, Ok tt)
  | item :: rest =>
      match to_queued_request item with
      | Err e => (q, Err e)
      | Ok r =>
          match enqueue_by_urgency q r with
          | (q, Err e) => (q, Err (PlanQueue e))
          | (q, Ok _) => enqueue_into rest q
          end
      end
  end.

(** ** The array implements a list *)

Definition holds (N : nat) (q : RequestQueue) (l : list QueuedRequest) : Prop :=
  entries q = (Some <$> l) ++ replicate (N - length l) None /\ q_len q = length l /\
  (length l <= N)%nat.

Lemma holds_capacity N q l : holds N q l -> capacity q = N.
Proof.
  intros (E & _ & Hl). unfold capacity. rewrite E, length_app, length_fmap, length_replicate. lia.
Qed.

Lemma contains_loop_spec key pre l rest :
  contains_loop (pre ++ (Some <$> l) ++ rest) key (length l) (length pre)
  = bool_decide (key ∈ q_key <$> l).
Proof.
  revert pre. induction l as [|r l IH]; intros pre; [done|].
  cbn [contains_loop length fmap list_fmap app].
  rewrite list_lookup_middle by done. destruct (decide (q_key r = key)) as [E|E].
  - rewrite !bool_decide_true; [done| |done]. subst. apply list_elem_of_here.
  - rewrite (bool_decide_false (q_key r = key)) by done. specialize (IH (pre ++ [Some r])). rewrite length_app, <- app_assoc in IH. simpl in IH.
    replace (S (length pre)) with (length pre + 1)%nat by lia.
    rewrite IH. apply bool_decide_ext. rewrite elem_of_cons. intuition congruence.
Qed.

Lemma contains_key_spec N q l key :
  holds N q l -> contains_key q key = bool_decide (key ∈ q_key <$> l).
Proof.
  intros (E & El & _). unfold contains_key. rewrite E, El. exact (contains_loop_spec key [] l _).
Qed.

Lemma insert_middle {A} (a rest : list A) n x v :
  n = length a -> <[n := v]> (a ++ x :: rest) = a ++ v :: rest.
Proof. intros ->. rewrite insert_app_r_alt by lia. by rewrite Nat.sub_diag. Qed.

(** What the shifting loops leave once the freed slot is written. *)
Lemma shift_up_spec {A} (a b rest : list A) x v :
  <[length a := v]> (shift_up (length b) (length a + length b) (a ++ b ++ x :: rest))
  = a ++ v :: b ++ rest.
Proof.
  revert x rest. induction b as [|z b IH] using rev_ind; intros x rest.
  { simpl. by rewrite insert_middle. }
  rewrite length_app. simpl. replace (length b + 1)%nat with (S (length b)) by lia. simpl.
  replace (length a + S (length b) - 1)%nat with (length a + length b)%nat by lia.
  unfold copy_slot. rewrite <- !app_assoc. simpl.
  assert (E : (a ++ b ++ z :: x :: rest) !! (length a + length b)%nat = Some z).
  { rewrite (app_assoc a b). apply list_lookup_middle. by rewrite length_app. }
  rewrite E. replace (a ++ b ++ z :: x :: rest) with ((a ++ b ++ [z]) ++ x :: rest)
    by (by rewrite <- !app_assoc).
  replace (length a + S (length b))%nat with (length (a ++ b ++ [z])) by (rewrite !length_app; simpl; lia).
  rewrite insert_middle by done.
  replace ((a ++ b ++ [z]) ++ z :: rest) with (a ++ b ++ z :: z :: rest) by (by rewrite <- !app_assoc).
  exact (IH z (z :: rest)).
Qed.

Lemma shift_down_spec {A} (a b rest : list A) x v :
  <[(length a + length b)%nat := v]> (shift_down (length b) (length a + 1) (a ++ x :: b ++ rest))
  = a ++ b ++ v :: rest.
Proof.
  revert a x. induction b as [|z b IH]; intros a x; simpl.
  { rewrite Nat.add_0_r. by rewrite insert_middle. }
  unfold copy_slot. replace (length a + 1 - 1)%nat with (length a) by lia.
  assert (E : (a ++ x :: z :: b ++ rest) !! (length a + 1)%nat = Some z).
  { rewrite lookup_app_r by lia. by replace (length a + 1 - length a)%nat with 1%nat by lia. }
  rewrite E, insert_middle by done.
  specialize (IH (a ++ [z]) z). rewrite length_app, <- !app_assoc in IH. simpl in IH.
  replace (S (length a + 1)) with (length a + 1 + 1)%nat by lia.
  replace (length a + S (length b))%nat with (length a + 1 + length b)%nat by lia. exact IH.
Qed.

(** Insertion before the first entry of lower urgency. *)
Fixpoint insert_stable {A} (rank : A -> Z) (x : A) (l : list A) : list A :=
  match l with
  | [] => [x]
  | y :: l' => if bool_decide (rank y < rank x) then x :: l else y :: insert_stable rank x l'
  end.
Definition request_rank (r : QueuedRequest) : Z := urgency_rank (q_urgency r).

Lemma position_bound {A} (f : A -> bool) l k : position f l = Some k -> (k < length l)%nat.
Proof.
  revert k. induction l as [|x l IH]; intros k; simpl; [done|].
  destruct (f x); [intros [= <-]; lia|]. destruct (position f l); simpl; [|done].
  intros [= <-]. specialize (IH _ eq_refl). lia.
Qed.

Lemma insert_stable_position r l :
  let k := default (length l) (position (lower_urgency r) (Some <$> l)) in
  insert_stable request_rank r l = take k l ++ r :: drop k l /\ (k <= length l)%nat.
Proof.
  induction l as [|x l IH]; simpl; [done|]. unfold request_rank.
  destruct (bool_decide (urgency_rank (q_urgency x) < urgency_rank (q_urgency r))); simpl; [split; [done|lia]|].
  fold (request_rank r) in *. destruct IH as [E1 E2].
  destruct (position _ _) as [k|]; simpl in *; (split; [by f_equal|lia]).
Qed.

Lemma insert_stable_perm {A} (rank : A -> Z) x l : insert_stable rank x l ≡ₚ x :: l.
Proof.
  induction l as [|y l IH]; simpl; [done|]. case_bool_decide; [done|]. rewrite IH. apply perm_swap.
Qed.
Lemma insert_stable_length {A} (rank : A -> Z) x l : length (insert_stable rank x l) = S (length l).
Proof. by rewrite insert_stable_perm. Qed.

(** The reply of an enqueue on the list. *)
Definition admits (N : nat) (l : list QueuedRequest) (r : QueuedRequest)
  : result unit RequestQueueError :=
  if bool_decide (q_key r ∈ q_key <$> l) then Err (DuplicateKey (q_key r))
  else if bool_decide (length l = N) then Err (Full N) else Ok tt.

Lemma free_slot N (l : list QueuedRequest) :
  (length l < N)%nat ->
  replicate (N - length l) (@None QueuedRequest) = None :: replicate (N - S (length l)) None.
Proof. intros H. by replace (N - length l)%nat with (S (N - S (length l))) by lia. Qed.

Lemma enqueue_holds N q l r :
  holds N q l ->
  match admits N l r with
  | Err e => enqueue q r = (q, Err e)
  | Ok _ => exists q', enqueue q r = (q', Ok tt) /\ holds N q' (l ++ [r])
  end.
Proof.
  intros H. pose proof H as (E & El & Hl). unfold admits, enqueue.
  rewrite (contains_key_spec N q l) by done. rewrite (holds_capacity N q l H), El.
  destruct (bool_decide (_ ∈ _)); [done|]. case_bool_decide; [done|].
  eexists. split; [done|]. unfold holds. simpl. rewrite length_app. simpl. split_ands; [|lia|lia].
  rewrite E, free_slot by lia. rewrite <- (length_fmap Some l), insert_middle by done.
  rewrite fmap_app, <- app_assoc, length_fmap. simpl. by rewrite Nat.add_1_r.
Qed.

Lemma enqueue_by_urgency_holds N q l r :
  holds N q l ->
  match admits N l r with
  | Err e => enqueue_by_urgency_with_index q r = (q, Err e)
  | Ok _ => exists q' k, enqueue_by_urgency_with_index q r = (q', Ok k) /\
      holds N q' (insert_stable request_rank r l) /\
      k = default (length l) (position (lower_urgency r) (Some <$> l))
  end.
Proof.
  intros H. pose proof H as (E & El & Hl). unfold admits, enqueue_by_urgency_with_index.
  rewrite (contains_key_spec N q l) by done. rewrite (holds_capacity N q l H), El.
  destruct (bool_decide (_ ∈ _)); [done|]. case_bool_decide; [done|].
  destruct (insert_stable_position r l) as [Ei Hk].
  assert (Et : take (length l) (entries q) = Some <$> l).
  { rewrite E. by rewrite take_app_length' by (by rewrite length_fmap). }
  rewrite Et. set (k := default _ _) in *.
  eexists _, k. split; [done|]. split; [|done]. unfold holds. simpl.
  rewrite Ei, length_app. simpl. rewrite length_take, length_drop.
  split_ands; [|lia|lia].
  rewrite E, free_slot by lia.
  assert (Hsplit : (Some <$> l) = (Some <$> take k l) ++ (Some <$> drop k l)).
  { by rewrite <- fmap_app, take_drop. }
  rewrite Hsplit, <- app_assoc.
  pose proof (shift_up_spec (Some <$> take k l) (Some <$> drop k l)
    (replicate (N - S (length l)) None) None (Some r)) as Hs.
  rewrite !length_fmap, length_take, length_drop, Nat.min_l in Hs by lia.
  replace (k + (length l - k))%nat with (length l) in Hs by lia. rewrite Hs.
  rewrite fmap_app, <- app_assoc. simpl. do 4 f_equal. lia.
Qed.

Lemma pop_holds N q l :
  holds N q l ->
  match l with
  | [] => pop_next q = (q, None)
  | r :: l' => exists q', pop_next q = (q', Some r) /\ holds N q' l'
  end.
Proof.
  intros (E & El & Hl). unfold pop_next. rewrite El. destruct l as [|r l]; [done|].
  rewrite bool_decide_false by done. eexists. rewrite E. simpl. split; [done|].
  unfold holds. simpl in *. rewrite Nat.sub_0_r. split_ands; [|done|lia].
  pose proof (shift_down_spec [] (Some <$> l) (replicate (N - S (length l)) None) (Some r) None) as Hs.
  rewrite length_fmap in Hs. simpl in Hs. rewrite (free_slot N l) by lia. exact Hs.
Qed.

(** ** The scheduler implements a list with skip counts *)

Definition sched_holds (N : nat) (s : RequestScheduler) (l : list (QueuedRequest * Z)) : Prop :=
  holds N (queue s) l.*1 /\ skip_counts s = l.*2 ++ replicate (N - length l) 0.

Definition pair_rank (p : QueuedRequest * Z) : Z := request_rank p.1.
(** The first entry behind the head that was skipped too often, else the head. *)
Definition aged_index (l : list (QueuedRequest * Z)) : nat :=
  match position (fun p => bool_decide (REQUEST_STARVATION_SKIP_THRESHOLD <= p.2)) (tail l) with
  | Some k => S k
  | None => 0
  end.
Definition age (p : QueuedRequest * Z) : QueuedRequest * Z := (p.1, sat_add u8_max p.2 1).
Definition spec_pop (l : list (QueuedRequest * Z))
  : list (QueuedRequest * Z) * option QueuedRequest :=
  let k := aged_index l in
  match l !! k with
  | Some p => (take k l ++ (age <$> drop (S k) l), Some p.1)
  | None => (l, None)
  end.

Lemma insert_stable_fst r c l :
  (insert_stable pair_rank (r, c) l).*1 = insert_stable request_rank r l.*1.
Proof.
  induction l as [|[x y] l IH]; simpl; [done|]. unfold pair_rank. simpl.
  case_bool_decide; simpl; [done|]. by f_equal.
Qed.
Lemma insert_stable_snd r c (l : list (QueuedRequest * Z)) :
  let k := default (length l) (position (lower_urgency r) (Some <$> l.*1)) in
  (insert_stable pair_rank (r, c) l).*2 = take k l.*2 ++ c :: drop k l.*2.
Proof.
  induction l as [|[x y] l IH]; simpl; [done|]. unfold pair_rank, request_rank. simpl.
  destruct (bool_decide (urgency_rank (q_urgency x) < urgency_rank (q_urgency r))); simpl; [done|].
  simpl in IH. destruct (position _ _) as [k|]; simpl in *; by f_equal.
Qed.

Lemma diagnostics_holds N s l d : sched_holds N s l -> sched_holds N (s <| diagnostics := d |>) l.
Proof. by destruct s. Qed.

Lemma record_enqueue_spec s r res :
  exists d, record_enqueue_result s r res = (s <| diagnostics := d |>, res).
Proof. destruct res as [[]|[]]; eexists; reflexivity. Qed.

Lemma sched_enqueue_holds N s l r :
  sched_holds N s l ->
  exists s', sched_enqueue s r = (s', admits N l.*1 r) /\
    sched_holds N s' (if is_ok (admits N l.*1 r) then l ++ [(r, 0)] else l).
Proof.
  intros [Hq Hc]. pose proof (enqueue_holds N (queue s) l.*1 r Hq) as H.
  unfold sched_enqueue. destruct (admits N l.*1 r) as [[]|e] eqn:Ea.
  - destruct H as (q' & E & Hq'). rewrite E. cbn [is_ok].
    destruct (record_enqueue_spec (s <| queue := q' |>
      <| skip_counts := <[q_len (queue s) := 0]> (skip_counts (s <| queue := q' |>)) |>) r (Ok tt))
      as [d ->].
    eexists. split; [done|]. apply diagnostics_holds. destruct s as [q sc dg]. simpl in *.
    split; simpl; [by rewrite fmap_app|]. destruct Hq as (_ & -> & Hl). destruct Hq' as (_ & _ & Hl').
    rewrite length_app, !length_fmap in *. simpl in *. rewrite Hc, fmap_app, <- app_assoc. simpl.
    replace (N - length l)%nat with (S (N - S (length l))) by lia. simpl.
    rewrite insert_middle by (by rewrite length_fmap). do 3 f_equal. lia.
  - rewrite H. cbn [is_ok].
    destruct (record_enqueue_spec (s <| queue := queue s |>) r (Err e)) as [d ->].
    eexists. split; [done|]. apply diagnostics_holds. by destruct s.
Qed.

Lemma sched_urgent_holds N s l r :
  sched_holds N s l ->
  exists s', sched_enqueue_by_urgency s r = (s', admits N l.*1 r) /\
    sched_holds N s' (if is_ok (admits N l.*1 r) then insert_stable pair_rank (r, 0) l else l).
Proof.
  intros [Hq Hc]. pose proof (enqueue_by_urgency_holds N (queue s) l.*1 r Hq) as H.
  unfold sched_enqueue_by_urgency. destruct (admits N l.*1 r) as [[]|e] eqn:Ea.
  - destruct H as (q' & k & E & Hq' & Hk). rewrite E. cbn [is_ok].
    destruct (record_enqueue_spec (insert_skip_count (s <| queue := q' |>) k) r (Ok tt)) as [d ->].
    eexists. split; [done|]. apply diagnostics_holds. destruct s as [q sc dg]. simpl in *.
    split; simpl; [by rewrite insert_stable_fst|].
    destruct (insert_stable_position r l.*1) as [_ Hb]. rewrite <- Hk in Hb.
    destruct Hq' as (_ & -> & Hl'). rewrite insert_stable_length in *. rewrite length_fmap in *.
    rewrite insert_stable_length. cbn [Nat.sub]. rewrite Nat.sub_0_r.
    rewrite Hc. pose proof (insert_stable_snd r 0 l) as Es. cbv zeta in Es.
    rewrite <- Hk in Es. rewrite Es, <- app_assoc. simpl.
    replace (N - length l)%nat with (S (N - S (length l))) by lia. simpl.
    pose proof (shift_up_spec (take k l.*2) (drop k l.*2) (replicate (N - S (length l)) 0) 0 0) as Hs.
    rewrite !length_take, !length_drop, !length_fmap, Nat.min_l in Hs by lia.
    replace (k + (length l - k))%nat with (length l) in Hs by lia.
    rewrite (app_assoc (take k _)), take_drop in Hs. exact Hs.
  - rewrite H. cbn [is_ok].
    destruct (record_enqueue_spec (s <| queue := queue s |>) r (Err e)) as [d ->].
    eexists. split; [done|]. apply diagnostics_holds. by destruct s.
Qed.

Lemma aged_loop_spec pre cs rest :
  aged_loop (pre ++ cs ++ rest) (length cs) (length pre) =
  match position (fun c => bool_decide (REQUEST_STARVATION_SKIP_THRESHOLD <= c)) cs with
  | Some k => (length pre + k)%nat
  | None => 0%nat
  end.
Proof.
  revert pre. induction cs as [|c cs IH]; intros pre; [done|].
  cbn [aged_loop length position app]. rewrite list_lookup_middle by done. cbn [default].
  unfold default, id. destruct (bool_decide (REQUEST_STARVATION_SKIP_THRESHOLD <= c)); [lia|].
  specialize (IH (pre ++ [c])). rewrite length_app, <- app_assoc in IH. simpl in IH.
  replace (S (length pre)) with (length pre + 1)%nat by lia. rewrite IH.
  destruct (position _ cs); simpl; [lia|done].
Qed.

Lemma position_snd (f : Z -> bool) (l : list (QueuedRequest * Z)) :
  position f l.*2 = position (fun p => f p.2) l.
Proof. induction l as [|p l IH]; [done|]. rewrite fmap_cons. cbn [position]. by rewrite IH. Qed.

Lemma aged_pop_spec N s l :
  sched_holds N s l -> aged_pop_index s = match l with [] => None | _ => Some (aged_index l) end.
Proof.
  intros [(_ & El & _) Hc]. unfold aged_pop_index. rewrite El, length_fmap.
  destruct l as [|p l]; [done|]. rewrite bool_decide_false by done. f_equal.
  rewrite Hc, fmap_cons. cbn [length app]. replace (S (length l) - 1)%nat with (length l) by lia.
  pose proof (aged_loop_spec [p.2] l.*2 (replicate (N - S (length l)) 0)) as H.
  rewrite length_fmap in H. cbn [length app] in H. rewrite H. unfold aged_index. cbn [tail].
  by rewrite position_snd.
Qed.

Lemma aged_index_bound l : l <> [] -> (aged_index l < length l)%nat.
Proof.
  intros Hl. unfold aged_index. destruct l as [|p l]; [done|]. simpl.
  destruct (position _ l) as [k|] eqn:E; [apply position_bound in E|]; lia.
Qed.

Lemma imap_age_low (cs : list Z) len k :
  (length cs <= k)%nat ->
  imap (fun i c => if bool_decide (i < len /\ k <= i)%nat then sat_add u8_max c 1 else c) cs = cs.
Proof.
  intros H. rewrite <- (list_fmap_id cs) at 2. rewrite <- (imap_const id cs).
  apply imap_ext. intros i x Hi. apply lookup_lt_Some in Hi. rewrite bool_decide_false by lia. done.
Qed.

Lemma age_spec (a b : list Z) n len k :
  k = length a -> len = (length a + length b)%nat ->
  imap (fun i c => if bool_decide (i < len /\ k <= i)%nat then sat_add u8_max c 1 else c)
    (a ++ b ++ replicate n 0)
  = a ++ ((fun c => sat_add u8_max c 1) <$> b) ++ replicate n 0.
Proof.
  intros -> ->. rewrite !imap_app. f_equal; [by apply imap_age_low|f_equal].
  - rewrite <- (imap_const (fun c => sat_add u8_max c 1) b). apply imap_ext.
    intros i x Hi. apply lookup_lt_Some in Hi. simpl. by rewrite bool_decide_true by lia.
  - rewrite <- (list_fmap_id (replicate n 0)) at 2. rewrite <- (imap_const id).
    apply imap_ext. intros i x _. simpl. by rewrite bool_decide_false by lia.
Qed.

(** The entries around the selected one, in the array. *)
Lemma remove_at_spec N s l a p b :
  sched_holds N s l -> l = a ++ p :: b ->
  exists s', remove_at s (length a) = (s', Some p.1) /\ holds N (queue s') (a ++ b).*1 /\
    skip_counts s' = a.*2 ++ b.*2 ++ replicate (N - length (a ++ b)) 0.
Proof.
  intros [(E & El & Hl) Hc] ->. destruct s as [q sc dg]. cbn [queue skip_counts] in *.
  unfold remove_at. cbn [queue skip_counts].
  rewrite !fmap_app, !fmap_cons, <- !app_assoc in *. cbn [app] in *.
  rewrite length_app in El, Hl, E, Hc. cbn [length] in *. rewrite !length_fmap in *.
  rewrite length_app. rewrite <- (length_fmap fst a) in *. rewrite <- (length_fmap fst b) in *.
  assert (Ha : length a.*1 = length a.*2) by by rewrite !length_fmap.
  assert (Hb : length b.*1 = length b.*2) by by rewrite !length_fmap.
  revert E El Hl Hc Ha Hb. generalize a.*1, b.*1, a.*2, b.*2, p.1, p.2. clear.
  intros a1 b1 a2 b2 p1 p2 E El Hl -> Ha Hb.
  rewrite E, list_lookup_middle, El by (by rewrite length_fmap).
  replace (length a1 + S (length b1) - (length a1 + 1))%nat with (length b1) by lia.
  replace (length a1 + S (length b1) - 1)%nat with (length a1 + length b1)%nat by lia.
  assert (Hn : (N - (length a1 + length b1))%nat = S (N - (length a1 + S (length b1)))) by lia.
  eexists. split; [reflexivity|]. cbn. unfold holds. cbn. rewrite length_app, Hn.
  split; [split; [|lia]|].
  - pose proof (shift_down_spec (Some <$> a1) (Some <$> b1)
      (replicate (N - (length a1 + S (length b1))) None) (Some p1) None) as Hs.
    rewrite !length_fmap in Hs. rewrite fmap_app, <- app_assoc. exact Hs.
  - rewrite Ha, Hb. exact (shift_down_spec a2 b2 _ p2 0).
Qed.

Lemma fst_age l : (age <$> l).*1 = l.*1.
Proof. induction l; simpl; by f_equal. Qed.
Lemma snd_age l : (age <$> l).*2 = (fun c => sat_add u8_max c 1) <$> l.*2.
Proof. induction l; simpl; by f_equal. Qed.

Lemma sched_pop_holds N s l :
  sched_holds N s l ->
  exists s', sched_pop_next s = (s', (spec_pop l).2) /\ sched_holds N s' (spec_pop l).1.
Proof.
  intros H. unfold sched_pop_next. rewrite (aged_pop_spec N s l H).
  destruct (decide (l = [])) as [->|Hn]; [by exists s|].
  replace (match l with [] => None | _ => Some (aged_index l) end) with (Some (aged_index l))
    by (by destruct l).
  pose proof (aged_index_bound l Hn) as Hk.
  destruct (lookup_lt_is_Some_2 l (aged_index l) Hk) as [p Hp].
  unfold spec_pop. rewrite Hp. pose proof (take_drop_middle l _ _ Hp) as Hs.
  set (a := take (aged_index l) l) in *. set (b := drop (S (aged_index l)) l) in *.
  assert (Ha : length a = aged_index l) by (unfold a; rewrite length_take; lia).
  destruct (remove_at_spec N s l a p b H ltac:(done)) as (s1 & E & Hq & Hc).
  rewrite Ha in E. rewrite E. simpl fst. simpl snd.
  eexists. split; [reflexivity|]. apply diagnostics_holds.
  set (s2 := if bool_decide _ then _ else s1).
  assert (E2 : queue s2 = queue s1 /\ skip_counts s2 = skip_counts s1)
    by (unfold s2; destruct (bool_decide _), s1; done).
  destruct E2 as [E2q E2c]. unfold age_skipped_after_pop. destruct s2 as [q2 c2 d2]. simpl in *. subst q2 c2.
  split; simpl; [by rewrite fmap_app, fst_age, <- fmap_app|].
  rewrite fmap_app, snd_age, length_app, length_fmap, <- app_assoc, Hc, <- length_app.
  apply age_spec; [by rewrite length_fmap|]. destruct Hq as (_ & -> & _).
  by rewrite length_fmap, length_app, !length_fmap.
Qed.

(** ** The scheduler as a machine *)

Inductive SchedulerCall := QEnqueue (r : QueuedRequest) | QUrgent (r : QueuedRequest) | QPop.
Inductive SchedulerReply :=
| RAdmission (res : result unit RequestQueueError)
| RPopped (r : option QueuedRequest).

Definition scheduler_step (s : RequestScheduler) (c : SchedulerCall)
  : RequestScheduler * SchedulerReply :=
  match c with
  | QEnqueue r => RAdmission <$$> sched_enqueue s r
  | QUrgent r => RAdmission <$$> sched_enqueue_by_urgency s r
  | QPop => RPopped <$$> sched_pop_next s
  end.

(** The specification: a list of requests with their skip counts. *)
Definition spec_step (N : nat) (l : list (QueuedRequest * Z)) (c : SchedulerCall)
  : list (QueuedRequest * Z) * SchedulerReply :=
  match c with
  | QEnqueue r => let res := admits N l.*1 r in
                  (if is_ok res then l ++ [(r, 0)] else l, RAdmission res)
  | QUrgent r => let res := admits N l.*1 r in
                 (if is_ok res then insert_stable pair_rank (r, 0) l else l, RAdmission res)
  | QPop => RPopped <$$> spec_pop l
  end.

Lemma scheduler_new_holds N : sched_holds N (scheduler_new N) [].
Proof. unfold sched_holds, holds. simpl. rewrite Nat.sub_0_r. split_ands; try done. lia. Qed.

Lemma scheduler_step_holds N s l c :
  sched_holds N s l ->
  sched_holds N (scheduler_step s c).1 (spec_step N l c).1 /\
  (scheduler_step s c).2 = (spec_step N l c).2.
Proof.
  intros H. destruct c as [r|r|]; simpl.
  - destruct (sched_enqueue_holds N s l r H) as (s' & -> & H'). done.
  - destruct (sched_urgent_holds N s l r H) as (s' & -> & H'). done.
  - destruct (sched_pop_holds N s l H) as (s' & -> & H'). done.
Qed.

Lemma scheduler_run_holds N s l calls :
  sched_holds N s l ->
  sched_holds N (run_state scheduler_step s calls) (run_state (spec_step N) l calls) /\
  run_outputs scheduler_step s calls = run_outputs (spec_step N) l calls.
Proof.
  revert s l. induction calls as [|c calls IH]; intros s l H; [done|].
  rewrite !run_state_cons, !run_outputs_cons.
  destruct (scheduler_step_holds N s l c H) as [H1 H2]. destruct (IH _ _ H1) as [H3 H4].
  split; [done|]. by rewrite H2, H4.
Qed.

(** ** Nothing is lost *)

Definition accepted_of (c : SchedulerCall) (r : SchedulerReply) : list QueuedRequest :=
  match c, r with
  | QEnqueue q, RAdmission (Ok _) | QUrgent q, RAdmission (Ok _) => [q]
  | _, _ => []
  end.
Definition popped_of (r : SchedulerReply) : list QueuedRequest :=
  match r with RPopped (Some q) => [q] | _ => [] end.
(** The requests a scheduler holds, in slot order. *)
Definition pending_requests (s : RequestScheduler) : list QueuedRequest :=
  omap id (take (q_len (queue s)) (entries (queue s))).

Lemma pending_requests_holds N s l : sched_holds N s l -> pending_requests s = l.*1.
Proof.
  intros [(E & El & _) _]. unfold pending_requests. rewrite E, El.
  rewrite take_app_length' by (by rewrite !length_fmap).
  generalize l.*1. clear. intros l. induction l as [|r l IH]; [done|]. simpl. by f_equal.
Qed.

Lemma spec_pop_perm l :
  l.*1 ≡ₚ option_list (spec_pop l).2 ++ (spec_pop l).1.*1 /\
  ((spec_pop l).2 = None <-> l = []).
Proof.
  unfold spec_pop. destruct (decide (l = [])) as [->|Hn]; [done|].
  destruct (lookup_lt_is_Some_2 l _ (aged_index_bound l Hn)) as [p Hp]. rewrite Hp. simpl.
  split; [|done]. rewrite <- (take_drop_middle l _ _ Hp) at 1.
  rewrite !fmap_app, fst_age, fmap_cons. solve_Permutation.
Qed.

Lemma spec_step_perm N l c :
  l.*1 ++ accepted_of c (spec_step N l c).2
    ≡ₚ (spec_step N l c).1.*1 ++ popped_of (spec_step N l c).2.
Proof.
  destruct c as [r|r|]; simpl.
  - destruct (admits N l.*1 r); simpl; [|done]. rewrite fmap_app. simpl. by rewrite app_nil_r.
  - destruct (admits N l.*1 r); simpl; [|done].
    rewrite insert_stable_fst, insert_stable_perm. solve_Permutation.
  - destruct (spec_pop_perm l) as [H _]. destruct (spec_pop l) as [l' [r|]]; simpl in *;
      rewrite H; solve_Permutation.
Qed.

Lemma spec_step_bound N l c :
  (length l <= N)%nat /\ NoDup (q_key <$> l.*1) ->
  (length (spec_step N l c).1 <= N)%nat /\ NoDup (q_key <$> (spec_step N l c).1.*1).
Proof.
  intros [Hl Hd].
  assert (Ha : forall r, is_ok (admits N l.*1 r) = true ->
    (S (length l) <= N)%nat /\ q_key r ∉ q_key <$> l.*1).
  { intros r. unfold admits. case_bool_decide; [done|]. case_bool_decide as Hn; [done|].
    rewrite length_fmap in Hn. split; [lia|done]. }
  destruct c as [r|r|]; simpl.
  - destruct (is_ok (admits N l.*1 r)) eqn:E; [|done]. destruct (Ha r E) as [H1 H2].
    rewrite length_app. simpl. split; [lia|]. rewrite !fmap_app. apply NoDup_app. split_ands; [done| |].
    + intros x Hx Hx2. apply list_elem_of_singleton in Hx2 as ->. done.
    + apply NoDup_singleton.
  - destruct (is_ok (admits N l.*1 r)) eqn:E; [|done]. destruct (Ha r E) as [H1 H2].
    rewrite insert_stable_length. split; [lia|].
    rewrite insert_stable_fst, insert_stable_perm. by constructor.
  - destruct (spec_pop_perm l) as [H _]. split.
    + apply Permutation_length in H. rewrite length_app, !length_fmap in H. lia.
    + rewrite H, fmap_app in Hd. by apply NoDup_app in Hd as (_ & _ & ?).
Qed.

(** ** The life of a tracked request *)

Inductive TrackerCall :=
| TStart (key : RequestKey) (policy : RequestPolicy) (now : Z)
| TRetry (now : Z)
| TReply (key : RequestKey).
Inductive TrackerReply :=
| RStart (res : result unit RequestStartError)
| RRetry (res : result unit RequestStartError)
| RCorrelation (c : CorrelationResult).
Definition tracker_step (s : RequestTracker) (c : TrackerCall) : RequestTracker * TrackerReply :=
  match c with
  | TStart k p t => RStart <$$> start s k p t
  | TRetry t => RRetry <$$> retry_started s t
  | TReply k => let '(s', _, c) := correlate_reply s k default_diagnostics in (s', RCorrelation c)
  end.
Definition retried (r : TrackerReply) : bool := match r with RRetry (Ok _) => true | _ => false end.

(** The request of [key] is the one in flight, [n] retries into its policy. *)
Definition flying (s : RequestTracker) (key : RequestKey) (p : RequestPolicy) (n : Z) : Prop :=
  exists t, in_flight s = Some {| sr_key := key; sr_policy := p; started_at_ms := t; retries := n |}.

Lemma flying_step s key p n c :
  flying s key p n -> c <> TReply key -> 0 <= n <= max_retries p -> max_retries p <= u8_max ->
  let '(s', r) := tracker_step s c in
  let n' := if retried r then n + 1 else n in
  flying s' key p n' /\ n' <= max_retries p /\
  (forall res, r = RStart res -> res = Err (Busy key)) /\
  (forall k, c = TReply k -> r = RCorrelation (Unmatched k)).
Proof.
  intros [t Hf] Hc Hn Hm. destruct s as [fl ls]. simpl in Hf. subst. destruct c as [k q u|u|k]; simpl.
  - split_ands; [by exists t|lia|by intros res [= <-]|done].
  - unfold retry_started. simpl. case_bool_decide; simpl.
    + split_ands; [by exists t|lia|done|done].
    + replace (sat_add u8_max n 1) with (n + 1) by int_lia.
      split_ands; [eexists; done|lia|done|done].
  - unfold correlate_reply. simpl. rewrite bool_decide_false by congruence. simpl.
    split_ands; [by exists t|lia|done|by intros k' [= ->]].
Qed.

Lemma flying_run s key p n calls :
  flying s key p n -> Forall (fun c => c <> TReply key) calls ->
  0 <= n <= max_retries p -> max_retries p <= u8_max ->
  let '(s', outs) := run tracker_step s calls in
  let n' := n + Z.of_nat (length (filter (fun r => retried r = true) outs)) in
  flying s' key p n' /\ n' <= max_retries p /\
  Forall (fun r => forall res, r = RStart res -> res = Err (Busy key)) outs.
Proof.
  intros Hf Hc Hn Hm. revert s n Hf Hn. induction Hc as [|c calls Hc _ IH]; intros s n Hf Hn; simpl.
  { rewrite Z.add_0_r. split_ands; [done|lia|done]. }
  pose proof (flying_step s key p n c Hf Hc Hn Hm) as H.
  destruct (tracker_step s c) as [s1 r]. destruct H as (H1 & H2 & H3 & _).
  specialize (IH s1 _ H1 ltac:(destruct (retried r); lia)).
  destruct (run tracker_step s1 calls) as [s' outs]. destruct IH as (I1 & I2 & I3).
  rewrite filter_cons. destruct (retried r) eqn:Er;
    [rewrite decide_True by done|rewrite decide_False by done]; cbn [length].
  - replace (n + Z.of_nat (S (length (filter (fun r => retried r = true) outs))))
      with (n + 1 + Z.of_nat (length (filter (fun r => retried r = true) outs))) by lia.
    split_ands; auto.
  - split_ands; auto.
Qed.

(** ** Service by urgency *)

Inductive QueueCall := UEnqueue (r : QueuedRequest) | UPop.
Definition urgency_step (q : RequestQueue) (c : QueueCall) : RequestQueue * SchedulerReply :=
  match c with
  | UEnqueue r => RAdmission <$$> enqueue_by_urgency q r
  | UPop => RPopped <$$> pop_next q
  end.

(** The specification: one first-in first-out list per urgency, served from the
    most urgent non-empty one. *)
Record Classes := { criticals : list QueuedRequest; highs : list QueuedRequest;
                    routines : list QueuedRequest }.
#[global] Instance eta_classes : Eta Classes := fun r =>
  Build_Classes (criticals r) (highs r) (routines r).
Definition all_classes (k : Classes) : list QueuedRequest := criticals k ++ highs k ++ routines k.
Definition class_add (k : Classes) (r : QueuedRequest) : Classes :=
  match q_urgency r with
  | Critical => k <| criticals := criticals k ++ [r] |>
  | High => k <| highs := highs k ++ [r] |>
  | Routine => k <| routines := routines k ++ [r] |>
  end.
Definition class_pop (k : Classes) : Classes * option QueuedRequest :=
  match criticals k, highs k, routines k with
  | r :: l, _, _ => (k <| criticals := l |>, Some r)
  | [], r :: l, _ => (k <| highs := l |>, Some r)
  | [], [], r :: l => (k <| routines := l |>, Some r)
  | [], [], [] => (k, None)
  end.
Definition class_step (N : nat) (k : Classes) (c : QueueCall) : Classes * SchedulerReply :=
  match c with
  | UEnqueue r => let res := admits N (all_classes k) r in
                  (if is_ok res then class_add k r else k, RAdmission res)
  | UPop => RPopped <$$> class_pop k
  end.

Definition classes_ok (k : Classes) : Prop :=
  Forall (fun r => q_urgency r = Critical) (criticals k) /\
  Forall (fun r => q_urgency r = High) (highs k) /\
  Forall (fun r => q_urgency r = Routine) (routines k).

Lemma insert_stable_after (r : QueuedRequest) l rest :
  Forall (fun x => urgency_rank (q_urgency r) <= urgency_rank (q_urgency x)) l ->
  insert_stable request_rank r (l ++ rest) = l ++ insert_stable request_rank r rest.
Proof.
  induction 1 as [|x l Hx _ IH]; [done|]. simpl. unfold request_rank in *.
  rewrite bool_decide_false by lia. by f_equal.
Qed.
Lemma insert_stable_before (r : QueuedRequest) rest :
  Forall (fun x => urgency_rank (q_urgency x) < urgency_rank (q_urgency r)) rest ->
  insert_stable request_rank r rest = r :: rest.
Proof.
  intros H. destruct H as [|x l Hx _]; [done|]. simpl. unfold request_rank.
  by rewrite bool_decide_true.
Qed.

Lemma class_add_spec k r :
  classes_ok k ->
  all_classes (class_add k r) = insert_stable request_rank r (all_classes k) /\
  classes_ok (class_add k r).
Proof.
  intros (Hc & Hh & Hr). destruct k as [c h l]. unfold all_classes, class_add. simpl in *.
  assert (Hw : forall (P Q : QueuedRequest -> Prop) xs, Forall P xs -> (forall x, P x -> Q x) -> Forall Q xs)
    by (intros; eapply Forall_impl; eauto).
  destruct (q_urgency r) eqn:E; simpl.
  - split; [|unfold classes_ok; simpl; split_ands; auto; apply Forall_app_2; auto].
    rewrite insert_stable_after by (eapply Hw; [exact Hc|]; intros x ->; rewrite E; simpl; lia).
    rewrite insert_stable_after by (eapply Hw; [exact Hh|]; intros x ->; rewrite E; simpl; lia).
    rewrite <- (app_nil_r l) at 2.
    by rewrite insert_stable_after by (eapply Hw; [exact Hr|]; intros x ->; rewrite E; simpl; lia).
  - split; [|unfold classes_ok; simpl; split_ands; auto; apply Forall_app_2; auto].
    rewrite insert_stable_after by (eapply Hw; [exact Hc|]; intros x ->; rewrite E; simpl; lia).
    rewrite insert_stable_after by (eapply Hw; [exact Hh|]; intros x ->; rewrite E; simpl; lia).
    rewrite insert_stable_before by (eapply Hw; [exact Hr|]; intros x ->; rewrite E; simpl; lia).
    by rewrite <- app_assoc.
  - split; [|unfold classes_ok; simpl; split_ands; auto; apply Forall_app_2; auto].
    rewrite insert_stable_after by (eapply Hw; [exact Hc|]; intros x ->; rewrite E; simpl; lia).
    rewrite insert_stable_before; [by rewrite <- app_assoc|].
    apply Forall_app_2; (eapply Hw; [eassumption|]; intros x ->; rewrite E; simpl; lia).
Qed.

Lemma class_pop_spec k :
  classes_ok k -> classes_ok (class_pop k).1 /\
  match all_classes k with
  | [] => (class_pop k).2 = None /\ all_classes (class_pop k).1 = []
  | r :: l => (class_pop k).2 = Some r /\ all_classes (class_pop k).1 = l
  end.
Proof.
  intros (Hc & Hh & Hr). destruct k as [[|c cs] [|h hs] [|l ls]]; unfold all_classes, class_pop, classes_ok;
    simpl in *; repeat match goal with H : Forall _ (_ :: _) |- _ => apply Forall_cons in H as [? ?] end;
    split_ands; simpl; auto.
Qed.

Lemma urgency_step_holds N q k c :
  holds N q (all_classes k) -> classes_ok k ->
  holds N (urgency_step q c).1 (all_classes (class_step N k c).1) /\
  classes_ok (class_step N k c).1 /\ (urgency_step q c).2 = (class_step N k c).2.
Proof.
  intros Hq Hk. destruct c as [r|]; simpl.
  - pose proof (enqueue_by_urgency_holds N q _ r Hq) as H. unfold enqueue_by_urgency.
    destruct (admits N (all_classes k) r) as [[]|e]; simpl.
    + destruct H as (q' & i & -> & Hq' & _). destruct (class_add_spec k r Hk) as [E Hk'].
      rewrite E. done.
    + rewrite H. done.
  - pose proof (pop_holds N q _ Hq) as H. destruct (class_pop_spec k Hk) as [Hk' H2].
    destruct (all_classes k) as [|r l] eqn:E.
    + rewrite H. destruct H2 as [-> E2]. simpl. by rewrite E2.
    + destruct H as (q' & -> & Hq'). destruct H2 as [-> E2]. simpl. by rewrite E2.
Qed.

(** ** Properties *)

(** C37: the scheduler's fixed arrays and shifting loops implement a plain list:
    for every capacity and every sequence of calls, each admission (accepted,
    duplicate or full) and each request handed out is the one the list of
    requests with their skip counts gives, and the slots in use hold that
    list. *)
Theorem scheduler_refines_list (N : nat) (calls : list SchedulerCall) :
  run_outputs scheduler_step (scheduler_new N) calls = run_outputs (spec_step N) [] calls /\
  pending_requests (run_state scheduler_step (scheduler_new N) calls)
  = (run_state (spec_step N) [] calls).*1.
Proof.
  destruct (scheduler_run_holds N _ _ calls (scheduler_new_holds N)) as [H1 H2].
  split; [done|]. by eapply pending_requests_holds.
Qed.

(** No queued request is lost or sent twice: after any calls the accepted
    requests are exactly those handed out and those still queued, the queue
    never exceeds its capacity, and it never holds two requests of one key. *)
Theorem scheduler_loses_nothing (N : nat) (calls : list SchedulerCall) :
  let '(s, outs) := run scheduler_step (scheduler_new N) calls in
  concat (zip_with accepted_of calls outs) ≡ₚ pending_requests s ++ concat (map popped_of outs) /\
  (length (pending_requests s) <= N)%nat /\ NoDup (q_key <$> pending_requests s).
Proof.
  pose proof (scheduler_run_holds N _ _ calls (scheduler_new_holds N)) as [H1 H2].
  unfold run_state, run_outputs in *.
  destruct (run scheduler_step (scheduler_new N) calls) as [s outs]. simpl in H1, H2.
  rewrite (pending_requests_holds N s _ H1). clear H1. subst outs.
  assert (H : forall l, (length l <= N)%nat /\ NoDup (q_key <$> l.*1) ->
    l.*1 ++ concat (zip_with accepted_of calls (run (spec_step N) l calls).2)
      ≡ₚ (run (spec_step N) l calls).1.*1 ++ concat (map popped_of (run (spec_step N) l calls).2) /\
    (length (run (spec_step N) l calls).1 <= N)%nat /\
    NoDup (q_key <$> (run (spec_step N) l calls).1.*1)).
  { induction calls as [|c calls IH]; intros l Hl; [done|]. simpl.
    pose proof (spec_step_perm N l c) as Hp. pose proof (spec_step_bound N l c Hl) as Hb.
    destruct (spec_step N l c) as [l1 o]. simpl in Hp, Hb. specialize (IH l1 Hb).
    destruct (run (spec_step N) l1 calls) as [l2 outs]. simpl in *. destruct IH as (I1 & I2 & I3).
    split_ands; auto. rewrite app_assoc, Hp.
    trans ((l1.*1 ++ concat (zip_with accepted_of calls outs)) ++ popped_of o); [solve_Permutation|].
    rewrite I1. solve_Permutation. }
  destruct (H [] ltac:(split; [simpl; lia|constructor])) as (A & B & C). simpl in A.
  split_ands; [done| |done]. by rewrite length_fmap.
Qed.

(** Requests queued by urgency are served in order of urgency, and first in
    first out among equals: the array queue behaves as one list per urgency,
    served from the most urgent non-empty one, with one shared capacity and one
    shared duplicate check. *)
Theorem urgency_queue_serves_classes (N : nat) (calls : list QueueCall) :
  run_outputs urgency_step (queue_new N) calls
  = run_outputs (class_step N) {| criticals := []; highs := []; routines := [] |} calls.
Proof.
  assert (H : forall q k, holds N q (all_classes k) -> classes_ok k ->
    run_outputs urgency_step q calls = run_outputs (class_step N) k calls).
  { induction calls as [|c calls IH]; intros q k Hq Hk; [done|]. rewrite !run_outputs_cons.
    destruct (urgency_step_holds N q k c Hq Hk) as (H1 & H2 & H3). by rewrite H3, (IH _ _ H1 H2). }
  apply H; [|repeat constructor]. apply (scheduler_new_holds N).
Qed.

(** A tracked request lives until its own reply: once started, whatever
    retries, other starts and foreign replies follow, it stays the one request
    in flight, every other start is refused as busy with its key, it is retried
    at most as often as its policy allows, and its reply frees the slot and
    reports exactly the attempts made. *)
Theorem tracked_request_life (s : RequestTracker) (key : RequestKey) (policy : RequestPolicy)
    (now : Z) (calls : list TrackerCall) (d : ParserDiagnostics) :
  (start s key policy now).2 = Ok tt -> in_u u8_max (max_retries policy) ->
  Forall (fun c => c <> TReply key) calls ->
  let '(s', outs) := run tracker_step (start s key policy now).1 calls in
  let n := Z.of_nat (length (filter (fun r => retried r = true) outs)) in
  flying s' key policy n /\ n <= max_retries policy /\
  Forall (fun r => forall res, r = RStart res -> res = Err (Busy key)) outs /\
  correlate_reply s' key d = (s' <| in_flight := None |>, d, Matched key (sat_add u8_max n 1)).
Proof.
  intros Hs Hm Hc. assert (Hf : flying (start s key policy now).1 key policy 0).
  { unfold start in *. destruct (in_flight s); [done|].
    destruct (last_started s) as [[k t]|]; [|by exists now].
    destruct (_ && _); [done|]. by exists now. }
  pose proof (flying_run _ key policy 0 calls Hf Hc) as H.
  destruct (run tracker_step _ calls) as [s' outs].
  cbv zeta in *. rewrite Z.add_0_l in H.
  destruct H as (H1 & H2 & H3); [unfold in_u in *; lia|unfold in_u in *; lia|]. split_ands; auto.
  destruct H1 as [t Ht]. unfold correlate_reply. rewrite Ht. simpl. by rewrite bool_decide_true.
Qed.

Definition telemetry_request (c : CommandKind) (u : RequestUrgency) : QueuedRequest :=
  {| q_key := key_new c; q_policy := default_policy; q_urgency := u |}.
Definition urgent_probe : QueuedRequest := telemetry_request RequestIdentity Critical.
(** One round of routine polling at the rate the queue is served. *)
Definition polling_round : list SchedulerCall :=
  [QPop; QUrgent (telemetry_request RequestTelemetry Routine);
   QPop; QUrgent (telemetry_request RequestBatteryInfo Routine);
   QPop; QUrgent (telemetry_request RequestDiagnostics Routine)].
Definition before_polling : list SchedulerCall :=
  [QUrgent (telemetry_request RequestFirmwareInfo Critical);
   QUrgent (telemetry_request RequestTelemetry Routine); QPop;
   QUrgent (telemetry_request RequestBatteryInfo Routine);
   QUrgent (telemetry_request RequestFirmwareInfo Critical); QPop;
   QUrgent urgent_probe; QUrgent (telemetry_request RequestDiagnostics Routine)].

(** The queue of the specification before and after a round. *)
Definition polled_queue : list (QueuedRequest * Z) :=
  [(urgent_probe, 0); (telemetry_request RequestTelemetry Routine, 2);
   (telemetry_request RequestBatteryInfo Routine, 1);
   (telemetry_request RequestDiagnostics Routine, 0)].

Lemma polling_round_cycle :
  run (spec_step 4) polled_queue polling_round =
  (polled_queue,
   [RPopped (Some (telemetry_request RequestTelemetry Routine)); RAdmission (Ok tt);
    RPopped (Some (telemetry_request RequestBatteryInfo Routine)); RAdmission (Ok tt);
    RPopped (Some (telemetry_request RequestDiagnostics Routine)); RAdmission (Ok tt)]).
Proof. vm_compute. reflexivity. Qed.

Lemma polling_rounds n :
  run_state (spec_step 4) polled_queue (concat (replicate n polling_round)) = polled_queue /\
  RPopped (Some urgent_probe)
    ∉ run_outputs (spec_step 4) polled_queue (concat (replicate n polling_round)).
Proof.
  induction n as [|n [IH1 IH2]]; [split; [done|]; apply not_elem_of_nil|].
  cbn [replicate concat]. rewrite run_state_app, run_outputs_app.
  assert (E : run_state (spec_step 4) polled_queue polling_round = polled_queue)
    by (unfold run_state; by rewrite polling_round_cycle).
  rewrite E. split; [exact IH1|]. unfold run_outputs at 1. rewrite polling_round_cycle. rewrite not_elem_of_app. split; [|exact IH2].
  unfold urgent_probe, telemetry_request. set_unfold. intuition discriminate.
Qed.

(** Ageing protects requests behind the head but never the head itself: in
    a queue of four, a critical request that is accepted and next in line is
    still next in line, and has not been handed out, after any number of rounds
    of routine polling that queue one request per request served. *)
Theorem urgent_head_starves (rounds : nat) :
  let calls := before_polling ++ concat (replicate rounds polling_round) in
  RAdmission (Ok tt) = (scheduler_step (run_state scheduler_step (scheduler_new 4)
                          (take 6 before_polling)) (QUrgent urgent_probe)).2 /\
  head (pending_requests (run_state scheduler_step (scheduler_new 4) calls)) = Some urgent_probe /\
  RPopped (Some urgent_probe) ∉ run_outputs scheduler_step (scheduler_new 4) calls.
Proof.
  intros calls. split; [vm_compute; reflexivity|].
  destruct (scheduler_run_holds 4 _ _ calls (scheduler_new_holds 4)) as [H1 H2].
  rewrite H2, (pending_requests_holds 4 _ _ H1). unfold calls.
  rewrite run_state_app, run_outputs_app.
  assert (E : run_state (spec_step 4) [] before_polling = polled_queue) by (vm_compute; reflexivity).
  rewrite E. destruct (polling_rounds rounds) as [-> Hn]. split; [done|].
  rewrite not_elem_of_app. split; [|done].
  vm_compute. set_unfold. intuition discriminate.
Qed.

(** ** Witness *)

Lemma tracked_request_life_witness :
  let key := key_new RequestTelemetry in
  let policy := {| req_timeout := 100; max_retries := 1; min_interval := 0 |} in
  let s := (start default_tracker key policy 10).1 in
  let '(s', outs) := run tracker_step s [TRetry 110; TRetry 210; TReply (key_new RequestSettings)] in
  flying s' key policy 1.
Proof.
  pose proof (tracked_request_life default_tracker (key_new RequestTelemetry)
    {| req_timeout := 100; max_retries := 1; min_interval := 0 |} 10
    [TRetry 110; TRetry 210; TReply (key_new RequestSettings)] default_diagnostics) as H.
  simpl in *. apply H.
  - reflexivity.
  - unfold in_u, u8_max. simpl. lia.
  - repeat constructor; discriminate.
Defined.
