(* ===== verification/VehicleIdentity.v ===== *)
(** * Protocol families and vehicle identity

    [cutout-core/src/vehicle.rs], [ProtocolFamily] of [cutout-core/src/lib.rs],
    [VescApplicationDiscovery] of [cutout-protocols/src/session.rs] and the
    identity part of [DeviceSession] of [cutout-protocols/src/device_session.rs]:
    which physical vehicle a decoder stands for and on what evidence.  The rest
    of a protocol engine is left out. *)

From S2P Require Import Prelude.

Inductive ProtocolFamily := VeteranLeaperkimNosfet | BegodeGotway | Vesc.
(** [identification.rs]: the family the detector has confirmed. *)
Inductive ProtocolFamilyState :=
| FamilyUnknown | FamilyVeteran | FamilyBegode | FamilyVesc | FamilyConflict.
Inductive VehicleKind :=
| KindUnknown | ElectricUnicycle | Onewheel | Scooter | Eskate | Ebike | Emoto.
Inductive VehicleClassificationRequirement :=
| RequirementPending | UserSelectionRequired | Resolved.
Inductive VehicleClassificationProvenance :=
| ProvenanceUnknown | ProvenanceProtocol | UserProvided.
Record VehicleClassification := {
  cl_kind : VehicleKind;
  cl_provenance : VehicleClassificationProvenance;
}.
Inductive VescApplicationDiscovery := DiscoveryPending | Refloat | Absent.

#[global] Instance family_eq_dec : EqDecision ProtocolFamily.
Proof. solve_decision. Defined.
#[global] Instance family_state_eq_dec : EqDecision ProtocolFamilyState.
Proof. solve_decision. Defined.
#[global] Instance kind_eq_dec : EqDecision VehicleKind.
Proof. solve_decision. Defined.
#[global] Instance provenance_eq_dec : EqDecision VehicleClassificationProvenance.
Proof. solve_decision. Defined.
#[global] Instance classification_eq_dec : EqDecision VehicleClassification.
Proof. solve_decision. Defined.
#[global] Instance discovery_eq_dec : EqDecision VescApplicationDiscovery.
Proof. solve_decision. Defined.

Definition UNKNOWN : VehicleClassification :=
  {| cl_kind := KindUnknown; cl_provenance := ProvenanceUnknown |}.
Definition from_protocol (kind : VehicleKind) : VehicleClassification :=
  match kind with
  | KindUnknown => UNKNOWN
  | _ => {| cl_kind := kind; cl_provenance := ProvenanceProtocol |}
  end.
Definition user_provided (kind : VehicleKind) : option VehicleClassification :=
  match kind with
  | KindUnknown => None
  | _ => Some {| cl_kind := kind; cl_provenance := UserProvided |}
  end.

(** Of an engine, what the identity reads: the VESC session's discovery, and
    whether a settings operation is in progress. *)
Inductive DeviceSessionEngine :=
| EngineVeteran
| EngineBegode
| EngineVesc (application_discovery : VescApplicationDiscovery) (settings_busy : bool).

Record DeviceSessionIdentity := {
  protocol : ProtocolFamily;
  classification : VehicleClassification;
  classification_requirement : VehicleClassificationRequirement;
  vesc_application : option VescApplicationDiscovery;
}.
Record DeviceSession := {
  d_identity : DeviceSessionIdentity;
  engine : DeviceSessionEngine;
  user_classification : option VehicleClassification;
}.
#[global] Instance eta_identity : Eta DeviceSessionIdentity := fun r =>
  Build_DeviceSessionIdentity (protocol r) (classification r) (classification_requirement r)
    (vesc_application r).
#[global] Instance eta_device : Eta DeviceSession := fun r =>
  Build_DeviceSession (d_identity r) (engine r) (user_classification r).

Definition from_detection (family : ProtocolFamilyState) : option DeviceSession :=
  '(protocol, vehicle_kind, engine) ←
    match family with
    | FamilyUnknown | FamilyConflict => None
    | FamilyVeteran => Some (VeteranLeaperkimNosfet, ElectricUnicycle, EngineVeteran)
    | FamilyBegode => Some (BegodeGotway, ElectricUnicycle, EngineBegode)
    | FamilyVesc => Some (Vesc, KindUnknown, EngineVesc DiscoveryPending false)
    end;
  Some {| d_identity :=
            {| protocol := protocol;
               classification := from_protocol vehicle_kind;
               classification_requirement :=
                 if bool_decide (vehicle_kind = KindUnknown) then RequirementPending else Resolved;
               vesc_application := None |};
          engine := engine;
          user_classification := None |}.

Definition identity (self : DeviceSession) : DeviceSessionIdentity :=
  match engine self with
  | EngineVesc application _ =>
      let '(classification_, requirement) :=
        match application with
        | DiscoveryPending => (UNKNOWN, RequirementPending)
        | Refloat => (from_protocol Onewheel, Resolved)
        | Absent =>
            match user_classification self with
            | Some c => (c, Resolved)
            | None => (UNKNOWN, UserSelectionRequired)
            end
        end in
      (d_identity self) <| vesc_application := Some application |>
                        <| classification := classification_ |>
                        <| classification_requirement := requirement |>
  | _ => d_identity self
  end.
Definition vehicle_kind (self : DeviceSessionIdentity) : VehicleKind :=
  cl_kind (classification self).

Definition device_configure_vehicle_kind (self : DeviceSession) (kind : VehicleKind)
  : DeviceSession * bool :=
  match user_provided kind with
  | None => (self, false)
  | Some classification =>
      match engine self with
      | EngineVesc _ _ => (self <| user_classification := Some classification |>, true)
      | _ => (self, false)
      end
  end.

Definition device_settings_busy (self : DeviceSession) : bool :=
  match engine self with EngineVesc _ busy => busy | _ => false end.
(** [DeviceSession::phone_drive_step] is there exactly for the VESC engine. *)
Definition has_drive_step (self : DeviceSession) : bool :=
  match engine self with EngineVesc _ _ => true | _ => false end.

(** A session built by [from_detection] keeps the family its engine decodes. *)
Definition engine_matches (self : DeviceSession) : Prop :=
  protocol (d_identity self) = match engine self with
                               | EngineVeteran => VeteranLeaperkimNosfet
                               | EngineBegode => BegodeGotway
                               | EngineVesc _ _ => Vesc
                               end.
Lemma from_detection_matches f d : from_detection f = Some d -> engine_matches d.
Proof. by destruct f; simpl; intros [= <-]. Qed.
Lemma configure_matches d kind :
  engine_matches d -> engine_matches (device_configure_vehicle_kind d kind).1.
Proof.
  unfold device_configure_vehicle_kind, engine_matches.
  destruct d as [i e u], (user_provided kind); [|done]. by destruct e.
Qed.
