(* ===== verification/SessionIO.v ===== *)
(** * What goes into and comes out of a session

    [cutout-core/src/lib.rs]: the inputs of a protocol session, the events,
    transport actions and ingest outcomes it emits, and the bounded payloads
    they carry.  A GATT channel is the number of its UUID. *)

From S2P Require Import Prelude.
From S2P Require Import RequestQueue.
From S2P Require Import VehicleIdentity.
From S2P Require Import Commands.
From S2P Require Import Telemetry.
From S2P Require Import Readback.

Definition GattChannel : Type := Z.
Record LinkInfo := { li_monotonic_ms : Z; max_write_len : option Z }.

(** ** Inputs *)

Inductive SessionInput :=
| InLinkUp (info : LinkInfo)
| InLinkDown
| InNotification (channel : GattChannel) (bytes : list Z) (monotonic_ms : Z)
| InTick (monotonic_ms : Z)
| InCommand (command : DeviceCommand).

(** ** Writes *)

Definition MAX_TRANSPORT_WRITE_LEN : nat := 512.
Definition MAX_INLINE_TRANSPORT_WRITE_LEN : nat := 32.
Inductive WriteMode := WithResponse | WithoutResponse.
Definition TransportOperationId : Type := Z.
Record ApplicationQueryWrite := { query_id : Z; submit_before : Z }.
(** The admission of a phone-drive write is kept by [PhoneDrive]. *)
Inductive WritePayloadCorrelation :=
| Untracked
| CorrOperation (id : TransportOperationId)
| CorrApplicationQuery (query : ApplicationQueryWrite)
| CorrPhoneDrive.
Inductive WritePayloadStorage :=
| StorageInline (bytes : list Z)
| StorageLarge (bytes : list Z).
Record WritePayload := { storage : WritePayloadStorage; correlation : WritePayloadCorrelation }.
Record WritePayloadTooLong := { too_long_len : nat; too_long_max : nat }.

Definition write_payload_try_from_slice (bytes : list Z) : result WritePayload WritePayloadTooLong :=
  if bool_decide (MAX_TRANSPORT_WRITE_LEN < length bytes)%nat
  then Err {| too_long_len := length bytes; too_long_max := MAX_TRANSPORT_WRITE_LEN |}
  else if bool_decide (length bytes <= MAX_INLINE_TRANSPORT_WRITE_LEN)%nat
  then Ok {| storage := StorageInline bytes; correlation := Untracked |}
  else Ok {| storage := StorageLarge bytes; correlation := Untracked |}.
Definition write_payload_as_slice (self : WritePayload) : list Z :=
  match storage self with StorageInline bytes | StorageLarge bytes => bytes end.
Definition is_inline (self : WritePayload) : bool :=
  match storage self with StorageInline _ => true | StorageLarge _ => false end.
Definition operation_id (self : WritePayload) : option TransportOperationId :=
  match correlation self with CorrOperation id => Some id | _ => None end.
Definition application_query (self : WritePayload) : option ApplicationQueryWrite :=
  match correlation self with CorrApplicationQuery query => Some query | _ => None end.
Definition set_application_query (self : WritePayload) (query : ApplicationQueryWrite) : WritePayload :=
  {| storage := storage self; correlation := CorrApplicationQuery query |}.
Definition set_operation_id (self : WritePayload) (id : TransportOperationId) : WritePayload :=
  {| storage := storage self; correlation := CorrOperation id |}.

Inductive TransportAction :=
| Subscribe (channel : GattChannel)
| Write (channel : GattChannel) (bytes : WritePayload) (mode : WriteMode)
| Disconnect.

(** ** Evidence about notifications *)

Definition MAX_RETAINED_NOTIFICATION_PAYLOAD_BYTES : nat := 4096.
Definition INLINE_RETAINED_NOTIFICATION_PAYLOAD_BYTES : nat := 36.
Record InlineRetainedNotificationPayload := { inline_len : Z; inline_bytes : list Z }.
Definition inline_from_bytes (bytes : list Z) : option InlineRetainedNotificationPayload :=
  if bool_decide (Z.of_nat (length bytes) <= u8_max)
  then Some {| inline_len := Z.of_nat (length bytes);
               inline_bytes := bytes ++ replicate (INLINE_RETAINED_NOTIFICATION_PAYLOAD_BYTES - length bytes) 0 |}
  else None.
Definition inline_as_slice (self : InlineRetainedNotificationPayload) : list Z :=
  take (Z.to_nat (inline_len self)) (inline_bytes self).
Inductive RetainedNotificationPayload :=
| RetainedEmpty
| RetainedInline (bytes : InlineRetainedNotificationPayload)
| RetainedBytes (bytes : list Z).
Definition retained_from_bytes (bytes : list Z) : RetainedNotificationPayload :=
  if bool_decide (bytes = []) then RetainedEmpty
  else
    let large := RetainedBytes (take MAX_RETAINED_NOTIFICATION_PAYLOAD_BYTES bytes) in
    if bool_decide (length bytes <= INLINE_RETAINED_NOTIFICATION_PAYLOAD_BYTES)%nat then
      match inline_from_bytes bytes with Some retained => RetainedInline retained | None => large end
    else large.
Definition retained_as_slice (self : RetainedNotificationPayload) : list Z :=
  match self with
  | RetainedEmpty => []
  | RetainedInline bytes => inline_as_slice bytes
  | RetainedBytes bytes => bytes
  end.

Record NotificationEvidence := {
  ne_family : ProtocolFamily; ne_channel : GattChannel; ne_monotonic_ms : Z; ne_len : Z;
}.
Inductive IgnoredNotificationReason :=
| WrongChannel | UnsupportedFamily | UnsupportedChannel | AcceptedButUnmapped
| SeekingFrameBoundary | IntentionallyDropped.
Record IgnoredNotificationEvidence := {
  ig_family : option ProtocolFamily; ig_channel : GattChannel; ig_monotonic_ms : Z; ig_len : Z;
  ig_retained_payload : RetainedNotificationPayload;
}.
Definition ignored_new (family : option ProtocolFamily) (channel : GattChannel) (len monotonic_ms : Z)
  : IgnoredNotificationEvidence :=
  {| ig_family := family; ig_channel := channel; ig_monotonic_ms := monotonic_ms; ig_len := len;
     ig_retained_payload := RetainedEmpty |}.
Definition ignored_with_retained_payload (family : option ProtocolFamily) (channel : GattChannel)
    (bytes : list Z) (monotonic_ms : Z) : IgnoredNotificationEvidence :=
  {| ig_family := family; ig_channel := channel; ig_monotonic_ms := monotonic_ms;
     ig_len := Z.of_nat (length bytes); ig_retained_payload := retained_from_bytes bytes |}.
Inductive PayloadClassifier := ClassSelector (s : Z) | ClassTag (t : Z).
Record ReservedPayloadEvidence := {
  rp_classifier : PayloadClassifier; rp_body_len : Z;
  rp_retained_payload : RetainedNotificationPayload; rp_verification : VerificationStatus;
}.
Record ParserGapEvidence := {
  pg_classifier : PayloadClassifier; pg_body_len : Z; pg_retained_payload : RetainedNotificationPayload;
}.
Inductive NotificationIngestOutcome :=
| SemanticEvents (notification : NotificationEvidence) (event_count : Z)
| BufferedFragment (notification : NotificationEvidence)
| ParserDiagnostic (notification : NotificationEvidence) (error : ParserError)
| KnownReserved (notification : NotificationEvidence) (payload : ReservedPayloadEvidence)
| ParserGap (notification : NotificationEvidence) (gap : ParserGapEvidence)
| Ignored (evidence : IgnoredNotificationEvidence) (reason : IgnoredNotificationReason).

Definition evidence_new (family : ProtocolFamily) (channel : GattChannel) (len monotonic_ms : Z)
  : NotificationEvidence :=
  {| ne_family := family; ne_channel := channel; ne_monotonic_ms := monotonic_ms; ne_len := len |}.
Definition semantic_events family channel len monotonic_ms event_count : NotificationIngestOutcome :=
  SemanticEvents (evidence_new family channel len monotonic_ms) event_count.
Definition buffered_fragment family channel len monotonic_ms : NotificationIngestOutcome :=
  BufferedFragment (evidence_new family channel len monotonic_ms).
Definition parser_diagnostic family channel len monotonic_ms error : NotificationIngestOutcome :=
  ParserDiagnostic (evidence_new family channel len monotonic_ms) error.
Definition known_reserved family channel len monotonic_ms payload : NotificationIngestOutcome :=
  KnownReserved (evidence_new family channel len monotonic_ms) payload.
Definition parser_gap family channel len monotonic_ms gap : NotificationIngestOutcome :=
  ParserGap (evidence_new family channel len monotonic_ms) gap.
Definition wrong_channel_for_family_bytes family channel bytes monotonic_ms : NotificationIngestOutcome :=
  Ignored (ignored_with_retained_payload (Some family) channel bytes monotonic_ms) WrongChannel.
Definition accepted_but_unmapped_bytes family channel bytes monotonic_ms : NotificationIngestOutcome :=
  Ignored (ignored_with_retained_payload (Some family) channel bytes monotonic_ms) AcceptedButUnmapped.
Definition seeking_frame_boundary family channel bytes monotonic_ms : NotificationIngestOutcome :=
  Ignored (ignored_with_retained_payload (Some family) channel bytes monotonic_ms) SeekingFrameBoundary.

(** ** Events and outputs *)

Record ControlRefusal := {
  cr_command : CommandKind; cr_safety_class : SafetyClass; cr_reason : ControlRefusalReason;
}.
Inductive DiagnosticErrorKind :=
| KindOversizedFrame | KindBadChecksum | KindMalformedFrame | KindTimeout | KindUnmatchedReply.
Record DiagnosticError := {
  de_kind : DiagnosticErrorKind; de_claimed_len : option Z; de_max_len : option Z;
  de_elapsed_ms : option Z; de_timeout_ms : option Z;
}.
Definition without_details (kind : DiagnosticErrorKind) : DiagnosticError :=
  {| de_kind := kind; de_claimed_len := None; de_max_len := None; de_elapsed_ms := None;
     de_timeout_ms := None |}.
Definition from_parser_error (error : ParserError) : DiagnosticError :=
  match error with
  | OversizedFrame claimed max =>
      {| de_kind := KindOversizedFrame; de_claimed_len := Some claimed; de_max_len := Some max;
         de_elapsed_ms := None; de_timeout_ms := None |}
  | BadChecksum => without_details KindBadChecksum
  | MalformedFrame => without_details KindMalformedFrame
  | Timeout elapsed_ms timeout_ms =>
      {| de_kind := KindTimeout; de_claimed_len := None; de_max_len := None;
         de_elapsed_ms := Some elapsed_ms; de_timeout_ms := Some timeout_ms |}
  | UnmatchedReply => without_details KindUnmatchedReply
  end.

Inductive DeviceEvent :=
| EventLinkUp (info : LinkInfo)
| EventLinkDown
| EventTick (monotonic_ms : Z)
| EventTelemetry (delta : TelemetryDelta)
| EventReadOnlyResponse (response : ReadOnlyResponse)
| EventControlRefusal (refusal : ControlRefusal)
| EventDiagnostics (diagnostics : ParserDiagnostics)
| EventDiagnosticError (error : DiagnosticError).
Inductive SessionOutput :=
| OutTransport (action : TransportAction)
| OutEvent (event : DeviceEvent)
| OutNotificationIngest (outcome : NotificationIngestOutcome).

(** [session.rs]: the two events of a parser error. *)
Definition diagnostics_for (error : ParserError) : ParserDiagnostics :=
  record_error default_diagnostics error.
Definition push_parser_error (error : ParserError) : list SessionOutput :=
  [OutEvent (EventDiagnosticError (from_parser_error error));
   OutEvent (EventDiagnostics (diagnostics_for error))].

(** ** Lemmas *)

(** Retention keeps a prefix of at most 4,096 bytes, all of a shorter payload. *)
Lemma retained_is_prefix bytes :
  retained_as_slice (retained_from_bytes bytes) = take MAX_RETAINED_NOTIFICATION_PAYLOAD_BYTES bytes.
Proof.
  unfold retained_from_bytes. case_bool_decide as Hn; [by rewrite Hn|].
  case_bool_decide as Hl; [|done].
  unfold INLINE_RETAINED_NOTIFICATION_PAYLOAD_BYTES in Hl. unfold inline_from_bytes.
  rewrite bool_decide_true by (unfold u8_max; lia). simpl. unfold inline_as_slice. simpl.
  rewrite Nat2Z.id, take_app_length, take_ge; [done|].
  unfold MAX_RETAINED_NOTIFICATION_PAYLOAD_BYTES. lia.
Qed.
(** A payload is accepted exactly when it fits, whole and untracked. *)
Lemma write_payload_roundtrip bytes :
  (length bytes <= MAX_TRANSPORT_WRITE_LEN)%nat <->
  exists p, write_payload_try_from_slice bytes = Ok p /\ write_payload_as_slice p = bytes /\
    correlation p = Untracked /\
    is_inline p = bool_decide (length bytes <= MAX_INLINE_TRANSPORT_WRITE_LEN)%nat.
Proof.
  unfold write_payload_try_from_slice. case_bool_decide as H; [split; [lia|by intros (? & ? & _)]|].
  split; [|lia]. intros _. case_bool_decide; eexists; split_ands; try done; simpl.
Qed.

(** ** Streams cut into notifications

    A stream is a list of items, noise followed by a frame; a notification is
    bytes with the time at which they arrived. *)

Definition event_of (o : SessionOutput) : option DeviceEvent :=
  match o with OutEvent e => Some e | _ => None end.
Definition item_bytes (item : list Z * list Z) : list Z := item.1 ++ item.2.
(** The bytes of a notification, each with its time. *)
Definition stamped (n : list Z * Z) : list (Z * Z) := (fun b => (b, n.2)) <$> n.1.
(** The frames completed byte by byte, each with its byte's stamp. *)
Definition completed_at {F} (answers : list (option F)) (stamps : list Z) : list (F * Z) :=
  omap (fun p => (fun f => (f, p.2)) <$> p.1) (zip answers stamps).
(** The time at which each frame of a stream is complete: that of its last byte. *)
Fixpoint completion_times (items : list (list Z * list Z)) (stamps : list Z) : list Z :=
  match items with
  | [] => []
  | item :: rest =>
      default 0 (stamps !! (length (item_bytes item) - 1)%nat)
      :: completion_times rest (drop (length (item_bytes item)) stamps)
  end.

Lemma completed_at_app {F} (a1 a2 : list (option F)) s1 s2 :
  length a1 = length s1 -> completed_at (a1 ++ a2) (s1 ++ s2) = completed_at a1 s1 ++ completed_at a2 s2.
Proof. intros H. unfold completed_at. by rewrite zip_with_app, omap_app. Qed.
Lemma completed_at_cons {F} (a : option F) answers t stamps :
  completed_at (a :: answers) (t :: stamps) =
  option_list ((fun f => (f, t)) <$> a) ++ completed_at answers stamps.
Proof. unfold completed_at. simpl. by destruct a. Qed.
Lemma completed_at_none {F} n stamps : completed_at (replicate n (@None F)) stamps = [].
Proof.
  revert stamps. induction n as [|n IH]; intros [|t stamps]; try done. cbn [replicate].
  by rewrite completed_at_cons, IH.
Qed.
Lemma stamped_bytes (ns : list (list Z * Z)) : fst <$> (ns ≫= stamped) = concat (fst <$> ns).
Proof.
  induction ns as [|[bytes t] ns IH]; [done|].
  rewrite bind_cons, fmap_app, IH. unfold stamped. cbn [fst snd fmap list_fmap concat].
  f_equal. rewrite <- list_fmap_compose. induction bytes as [|b bytes IHb]; [done|].
  cbn [fmap list_fmap]. f_equal. exact IHb.
Qed.
(** Frames that complete at the last byte of their item. *)
Lemma stream_completed_at {F} (frame_of : list Z * list Z -> F) items stamps :
  length stamps = length (concat (item_bytes <$> items)) ->
  Forall (fun item => item_bytes item <> []) items ->
  completed_at (concat ((fun item => replicate (length (item_bytes item) - 1) None ++ [Some (frame_of item)])
                          <$> items)) stamps =
    zip (frame_of <$> items) (completion_times items stamps).
Proof.
  intros Hl Hi. revert stamps Hl. induction Hi as [|item items Hn Hi IH]; intros stamps Hl; [done|].
  cbn [fmap list_fmap concat completion_times zip zip_with] in *. rewrite length_app in Hl.
  assert (Hp : (1 <= length (item_bytes item))%nat) by (destruct (item_bytes item); [done|simpl; lia]).
  rewrite <- (take_drop (length (item_bytes item)) stamps) at 1.
  rewrite completed_at_app by (rewrite length_app, length_replicate, length_take; simpl; lia).
  rewrite IH by (rewrite length_drop; lia).
  destruct (take (length (item_bytes item)) stamps) as [|t ts _] eqn:E using rev_ind;
    apply (f_equal length) in E as Ht; rewrite length_take in Ht; [simpl in Ht; lia|].
  rewrite length_app in Ht. simpl in Ht.
  rewrite completed_at_app, completed_at_none by (rewrite length_replicate; lia).
  assert (Hlk : stamps !! (length (item_bytes item) - 1)%nat = Some t).
  { rewrite <- (lookup_take_lt _ (length (item_bytes item))) by lia. rewrite E, lookup_app_r by lia.
    replace (_ - _ - _)%nat with 0%nat by lia. done. }
  by rewrite Hlk.
Qed.
