(* ===== verification/ConnectionLifecycle.v ===== *)
(** * Connection attempts and reconnection

    [cutout-core/src/connection_lifecycle.rs]: identity of one connection
    attempt, admission of decoded data, the whole-attempt deadline and the
    reconnect timer.  The record [ConnectionAttemptLifecycle] is the struct
    of that name; each method is the definition of the same name, a function
    from the state to the state and the returned value.  [step] lists the
    methods as the inputs of one machine. *)

From S2P Require Import Prelude.

(** ** Data *)

Record ConnectionAttemptToken := {
  generation : Z;                    (* u64 *)
  platform_identifier : string;
}.

(** [ConnectionRetryToken] is a newtype of [u64]. *)
Definition ConnectionRetryToken : Type := Z.

Record ConnectionRetry := {
  rt_token : ConnectionRetryToken;
  rt_attempt : Z;                    (* u8 *)
  rt_deadline : Z;                   (* MonotonicTimestamp *)
  rt_platform_identifier : string;
}.

Inductive ConnectionRetryDecision :=
| Scheduled (retry : ConnectionRetry)
| Exhausted (attempt : Z)
| Rejected.

Inductive ConnectionReadiness :=
| ReadyDisconnected | Pending | Verified | RecordOnly | Failed | Conflicted.

Inductive ConnectionTransportState :=
| TransportDisconnected | Connecting | Connected.

Inductive ConnectionRetryScope := InitialIdentification | EstablishedConnection.

#[global] Instance token_eq_dec : EqDecision ConnectionAttemptToken.
Proof. solve_decision. Defined.
#[global] Instance retry_eq_dec : EqDecision ConnectionRetry.
Proof. unfold ConnectionRetryToken. solve_decision. Defined.
#[global] Instance decision_eq_dec : EqDecision ConnectionRetryDecision.
Proof. solve_decision. Defined.
#[global] Instance readiness_eq_dec : EqDecision ConnectionReadiness.
Proof. solve_decision. Defined.
#[global] Instance transport_eq_dec : EqDecision ConnectionTransportState.
Proof. solve_decision. Defined.
#[global] Instance scope_eq_dec : EqDecision ConnectionRetryScope.
Proof. solve_decision. Defined.

Record ConnectionAttemptSnapshot := {
  s_generation : Z;                  (* u64, wrapping *)
  s_revision : Z;                    (* u64, wrapping *)
  s_token : option ConnectionAttemptToken;
  s_readiness : ConnectionReadiness;
  s_transport : ConnectionTransportState;
  s_deadline : option Z;
}.

Record ConnectionAttemptLifecycle := {
  snapshot : ConnectionAttemptSnapshot;
  retry_scope : ConnectionRetryScope;
  retry_attempt : Z;                 (* u8 *)
  retry_token : Z;                   (* u64 *)
  failed_attempt : option ConnectionAttemptToken;
  pending_retry : option ConnectionRetry;
}.

#[global] Instance eta_snapshot : Eta ConnectionAttemptSnapshot := fun r =>
  Build_ConnectionAttemptSnapshot (s_generation r) (s_revision r) (s_token r)
    (s_readiness r) (s_transport r) (s_deadline r).
#[global] Instance eta_lifecycle : Eta ConnectionAttemptLifecycle := fun r =>
  Build_ConnectionAttemptLifecycle (snapshot r) (retry_scope r) (retry_attempt r)
    (retry_token r) (failed_attempt r) (pending_retry r).

(** [Default::default()]. *)
Definition default_snapshot : ConnectionAttemptSnapshot := {|
  s_generation := 0; s_revision := 0; s_token := None;
  s_readiness := ReadyDisconnected; s_transport := TransportDisconnected;
  s_deadline := None |}.
Definition default_lifecycle : ConnectionAttemptLifecycle := {|
  snapshot := default_snapshot; retry_scope := InitialIdentification;
  retry_attempt := 0; retry_token := 0; failed_attempt := None;
  pending_retry := None |}.

(** ** Operations *)

(** [self.snapshot.revision = self.snapshot.revision.wrapping_add(1)]. *)
Definition bump_revision (s : ConnectionAttemptSnapshot) : ConnectionAttemptSnapshot :=
  s <| s_revision := wrap_add u64_max (s_revision s) 1 |>.
Definition bump_generation (s : ConnectionAttemptSnapshot) : ConnectionAttemptSnapshot :=
  s <| s_generation := wrap_add u64_max (s_generation s) 1 |>.

Definition begin_attempt (self : ConnectionAttemptLifecycle) (ident : string) (now : Z)
  : ConnectionAttemptLifecycle * ConnectionAttemptToken :=
  let snap := bump_generation (snapshot self) in
  let token := {| generation := s_generation snap; platform_identifier := ident |} in
  let snap := snap <| s_token := Some token |> <| s_readiness := Pending |>
                   <| s_transport := Connecting |>
                   <| s_deadline := Some (sat_add u64_max now 15000) |> in
  (self <| snapshot := bump_revision snap |>, token).

Definition begin (self : ConnectionAttemptLifecycle) (ident : string) (now : Z)
  : ConnectionAttemptLifecycle * ConnectionAttemptToken :=
  begin_attempt
    (self <| retry_scope := InitialIdentification |> <| retry_attempt := 0 |>
          <| failed_attempt := None |> <| pending_retry := None |>) ident now.

Definition is_current (self : ConnectionAttemptLifecycle) (t : ConnectionAttemptToken) : bool :=
  bool_decide (s_token (snapshot self) = Some t).

Definition can_retry (r : ConnectionReadiness) : bool :=
  match r with
  | Pending | Verified | RecordOnly | Failed => true
  | ReadyDisconnected | Conflicted => false
  end.

(** The backoff of one retry, in milliseconds. *)
Definition retry_delay_ms (attempt jitter_permille : Z) : Z :=
  let jitter := Z.min jitter_permille 1000 in
  let exponent := Z.min (sat_sub attempt 1) 7 in
  let base_ms := Z.min (sat_mul u64_max 250 (Z.shiftl 1 exponent)) 25000 in
  sat_add u64_max (sat_mul u64_max base_ms (800000 + 400 * jitter)) 500000 ÷ 1000000.

Definition request_retry (self : ConnectionAttemptLifecycle) (failed : ConnectionAttemptToken)
    (now jitter_permille : Z) : ConnectionAttemptLifecycle * ConnectionRetryDecision :=
  if bool_decide (is_Some (pending_retry self)) then (self, Rejected) else
  let is_active_failure := is_current self failed && can_retry (s_readiness (snapshot self)) in
  if negb is_active_failure && negb (bool_decide (failed_attempt self = Some failed))
  then (self, Rejected) else
  let attempt := sat_add u8_max (retry_attempt self) 1 in
  if bool_decide (3 < attempt) && bool_decide (retry_scope self = InitialIdentification) then
    let self1 :=
      if is_current self failed then
        let snap := bump_revision (bump_generation (snapshot self)) in
        self <| snapshot := snap <| s_token := None |> <| s_deadline := None |>
                <| s_readiness := Failed |> <| s_transport := TransportDisconnected |> |>
      else self in
    (self1 <| failed_attempt := Some failed |> <| retry_attempt := attempt |>,
     Exhausted attempt)
  else
    let self1 :=
      if is_current self failed then
        self <| snapshot := bump_revision
                 ((snapshot self) <| s_deadline := None |> <| s_readiness := Failed |>
                                  <| s_transport := TransportDisconnected |>) |>
      else self in
    let token := wrap_add u64_max (retry_token self1) 1 in
    let retry := {| rt_token := token; rt_attempt := attempt;
                    rt_deadline := sat_add u64_max now (retry_delay_ms attempt jitter_permille);
                    rt_platform_identifier := platform_identifier failed |} in
    (self1 <| failed_attempt := Some failed |> <| retry_attempt := attempt |>
           <| retry_token := token |> <| pending_retry := Some retry |>,
     Scheduled retry).

Definition admit_retry (self : ConnectionAttemptLifecycle) (token : ConnectionRetryToken) (now : Z)
  : ConnectionAttemptLifecycle * option ConnectionAttemptToken :=
  match pending_retry self with
  | None => (self, None)
  | Some retry =>
      if negb (bool_decide (rt_token retry = token)) || bool_decide (now < rt_deadline retry)
      then (self, None)
      else
        let self1 := self <| pending_retry := None |> <| failed_attempt := None |> in
        let '(self2, t) := begin_attempt self1 (rt_platform_identifier retry) now in
        (self2, Some t)
  end.

Definition cancel_retry (self : ConnectionAttemptLifecycle) (token : ConnectionRetryToken)
  : ConnectionAttemptLifecycle * bool :=
  if negb (bool_decide (rt_token <$> pending_retry self = Some token)) then (self, false)
  else (self <| pending_retry := None |> <| retry_attempt := 0 |> <| failed_attempt := None |>,
        true).

Definition retry_deadline (self : ConnectionAttemptLifecycle) (token : ConnectionRetryToken)
  : option Z :=
  match pending_retry self with
  | Some retry => if bool_decide (rt_token retry = token) then Some (rt_deadline retry) else None
  | None => None
  end.

(** The proof object is the borrowed token itself. *)
Definition verified_attempt (self : ConnectionAttemptLifecycle) (t : ConnectionAttemptToken)
  : option ConnectionAttemptToken :=
  if is_current self t
     && bool_decide (s_readiness (snapshot self) = Verified)
     && bool_decide (s_transport (snapshot self) = Connected)
  then Some t else None.

Definition is_verified (self : ConnectionAttemptLifecycle) (t : ConnectionAttemptToken) : bool :=
  bool_decide (is_Some (verified_attempt self t)).

Definition finish_detection (self : ConnectionAttemptLifecycle) (t : ConnectionAttemptToken)
    (verified : bool) : ConnectionAttemptLifecycle * bool :=
  if negb (is_current self t) || negb (bool_decide (s_readiness (snapshot self) = Pending))
  then (self, false) else
  if verified && negb (bool_decide (s_transport (snapshot self) = Connected))
  then (self, false) else
  let self1 := self <| snapshot := (snapshot self)
                        <| s_readiness := if verified then Verified else RecordOnly |> |> in
  let self2 := if verified
               then self1 <| retry_scope := EstablishedConnection |> <| retry_attempt := 0 |>
                          <| failed_attempt := None |> <| pending_retry := None |>
               else self1 in
  (self2 <| snapshot := bump_revision ((snapshot self2) <| s_deadline := None |>) |>, true).

Definition expire (self : ConnectionAttemptLifecycle) (t : ConnectionAttemptToken) (now : Z)
  : ConnectionAttemptLifecycle * bool :=
  match s_deadline (snapshot self) with
  | None => (self, false)
  | Some deadline =>
      if bool_decide (now < deadline) then (self, false) else finish_detection self t false
  end.

Definition disconnect (self : ConnectionAttemptLifecycle) : ConnectionAttemptLifecycle :=
  self <| retry_scope := InitialIdentification |> <| retry_attempt := 0 |>
       <| failed_attempt := None |> <| pending_retry := None |>
       <| snapshot := (bump_revision (bump_generation (snapshot self)))
            <| s_token := None |> <| s_deadline := None |>
            <| s_readiness := ReadyDisconnected |>
            <| s_transport := TransportDisconnected |> |>.

Definition connected (self : ConnectionAttemptLifecycle) (t : ConnectionAttemptToken)
  : ConnectionAttemptLifecycle * bool :=
  if negb (is_current self t) || negb (bool_decide (s_transport (snapshot self) = Connecting))
  then (self, false)
  else (self <| snapshot := bump_revision ((snapshot self) <| s_transport := Connected |>) |>,
        true).

Definition transport_failed (self : ConnectionAttemptLifecycle) (t : ConnectionAttemptToken)
  : ConnectionAttemptLifecycle * bool :=
  if negb (is_current self t) then (self, false) else
  if bool_decide (s_readiness (snapshot self) = Pending) then finish_detection self t false else
  if bool_decide (s_readiness (snapshot self) = Verified) then
    let self1 := disconnect self in
    let self2 := self1 <| retry_scope := EstablishedConnection |> <| failed_attempt := Some t |> in
    (self2 <| snapshot := (snapshot self2) <| s_readiness := Failed |> |>, true)
  else (self, false).

Definition link_down (self : ConnectionAttemptLifecycle) (t : ConnectionAttemptToken)
  : ConnectionAttemptLifecycle * bool :=
  if negb (is_current self t) then (self, false) else
  let self1 := self <| snapshot := bump_revision
                 ((snapshot self) <| s_transport := TransportDisconnected |>) |> in
  ((transport_failed self1 t).1, true).

Definition conflict (self : ConnectionAttemptLifecycle) (t : ConnectionAttemptToken)
  : ConnectionAttemptLifecycle * bool :=
  if negb (is_current self t) || negb (bool_decide (s_readiness (snapshot self) = Verified))
  then (self, false)
  else (self <| snapshot := (bump_revision (bump_generation (snapshot self)))
                  <| s_token := None |> <| s_deadline := None |>
                  <| s_readiness := Conflicted |>
                  <| s_transport := TransportDisconnected |> |>, true).

(** ** The machine of the public methods *)

Inductive Call :=
| CBegin (ident : string) (now : Z)
| CRequestRetry (failed : ConnectionAttemptToken) (now jitter : Z)
| CAdmitRetry (token : ConnectionRetryToken) (now : Z)
| CCancelRetry (token : ConnectionRetryToken)
| CFinishDetection (t : ConnectionAttemptToken) (verified : bool)
| CExpire (t : ConnectionAttemptToken) (now : Z)
| CDisconnect
| CConnected (t : ConnectionAttemptToken)
| CLinkDown (t : ConnectionAttemptToken)
| CTransportFailed (t : ConnectionAttemptToken)
| CConflict (t : ConnectionAttemptToken).

Inductive Reply :=
| RToken (t : ConnectionAttemptToken)
| RDecision (d : ConnectionRetryDecision)
| RAdmitted (t : option ConnectionAttemptToken)
| RBool (b : bool)
| RUnit.

Definition step (self : ConnectionAttemptLifecycle) (c : Call)
  : ConnectionAttemptLifecycle * Reply :=
  match c with
  | CBegin i now => RToken <$$> begin self i now
  | CRequestRetry f now j => RDecision <$$> request_retry self f now j
  | CAdmitRetry k now => RAdmitted <$$> admit_retry self k now
  | CCancelRetry k => RBool <$$> cancel_retry self k
  | CFinishDetection t v => RBool <$$> finish_detection self t v
  | CExpire t now => RBool <$$> expire self t now
  | CDisconnect => (disconnect self, RUnit)
  | CConnected t => RBool <$$> connected self t
  | CLinkDown t => RBool <$$> link_down self t
  | CTransportFailed t => RBool <$$> transport_failed self t
  | CConflict t => RBool <$$> conflict self t
  end.

(** ** Executions of the repository's tests *)

Definition test_verified : ConnectionAttemptLifecycle * ConnectionAttemptToken :=
  let '(s, t) := begin default_lifecycle "Falcon" 0 in
  ((finish_detection (connected s t).1 t true).1, t).

Example test_retry_deadline :
  let '(s, t) := test_verified in
  match (request_retry s t 1000 500).2 with
  | Scheduled r => rt_attempt r = 1 /\ rt_deadline r = 1250
  | _ => False
  end.
Proof. vm_compute. split; reflexivity. Qed.

(** ** Well-formed states *)

(** What each readiness promises about the rest of the state. *)
Definition readiness_ok (s : ConnectionAttemptLifecycle) : Prop :=
  let snap := snapshot s in
  match s_readiness snap with
  | ReadyDisconnected =>
      s_token snap = None /\ s_deadline snap = None /\ s_transport snap = TransportDisconnected /\
      failed_attempt s = None /\ pending_retry s = None /\
      retry_scope s = InitialIdentification /\ retry_attempt s = 0
  | Pending =>
      is_Some (s_token snap) /\ is_Some (s_deadline snap) /\
      s_transport snap <> TransportDisconnected /\
      failed_attempt s = None /\ pending_retry s = None
  | Verified =>
      is_Some (s_token snap) /\ s_deadline snap = None /\ s_transport snap = Connected /\
      failed_attempt s = None /\ pending_retry s = None /\
      retry_scope s = EstablishedConnection /\ retry_attempt s = 0
  | RecordOnly =>
      is_Some (s_token snap) /\ s_deadline snap = None /\
      failed_attempt s = None /\ pending_retry s = None
  | Failed => s_deadline snap = None /\ s_transport snap = TransportDisconnected
  | Conflicted =>
      s_token snap = None /\ s_deadline snap = None /\ s_transport snap = TransportDisconnected /\
      failed_attempt s = None /\ pending_retry s = None
  end.

(** A pending timer is the last one minted and belongs to the failed attempt. *)
Definition retry_ok (s : ConnectionAttemptLifecycle) : Prop :=
  forall r, pending_retry s = Some r ->
    rt_token r = retry_token s /\ rt_attempt r = retry_attempt s /\ 1 <= rt_attempt r /\
    (retry_scope s = InitialIdentification -> rt_attempt r <= 3) /\
    exists f, failed_attempt s = Some f /\
              platform_identifier f = rt_platform_identifier r.

Definition token_ok (s : ConnectionAttemptLifecycle) : Prop :=
  forall t, s_token (snapshot s) = Some t -> generation t = s_generation (snapshot s).

Definition counters_ok (s : ConnectionAttemptLifecycle) : Prop :=
  in_u u64_max (s_generation (snapshot s)) /\ in_u u64_max (s_revision (snapshot s)) /\
  in_u u8_max (retry_attempt s) /\ in_u u64_max (retry_token s).

Record wf (s : ConnectionAttemptLifecycle) : Prop := {
  wf_readiness : readiness_ok s;
  wf_retry : retry_ok s;
  wf_token : token_ok s;
  wf_counters : counters_ok s;
}.

(** Open a handler on an explicit state and split all its guards. *)
Ltac open_state s :=
  destruct s as [[? ? ? ? ? ?] ? ? ? ? ?].
Ltac open_call :=
  unfold begin, begin_attempt, request_retry, admit_retry, cancel_retry, expire,
    link_down, transport_failed, disconnect, finish_detection, connected, conflict,
    is_current, can_retry, bump_revision, bump_generation, set_field in *; simpl in *.

Lemma wrap1_range z : in_u u64_max (wrap_add u64_max z 1).
Proof. apply wrap_add_range. int_lia. Qed.
#[export] Hint Resolve wrap1_range : ints.

Lemma wf_default : wf default_lifecycle.
Proof.
  split; [compute; tauto| intros r [=] | intros r [=] |].
  unfold counters_ok; simpl. int_lia.
Qed.

Ltac wf_finish :=
  split; unfold readiness_ok, retry_ok, token_ok, counters_ok in *; simpl in *;
  [ repeat split; eauto; try discriminate
  | intros; simplify_eq/=; eauto
  | intros; simplify_eq/=; eauto
  | destruct_and?; split_ands; auto with ints; int_lia ].

Ltac wf_counters :=
  unfold counters_ok in *; simpl in *; destruct_and?; split_ands; auto with ints; int_lia.

Lemma begin_attempt_wf s i now :
  pending_retry s = None -> failed_attempt s = None -> counters_ok s ->
  wf (begin_attempt s i now).1.
Proof.
  open_state s; open_call; intros -> -> ?. wf_finish.
Qed.

Lemma begin_wf s i now : wf s -> wf (begin s i now).1.
Proof.
  intros [_ _ _ Hc]. apply begin_attempt_wf; open_state s; try reflexivity. wf_counters.
Qed.

Lemma disconnect_wf s : wf s -> wf (disconnect s).
Proof. intros [? ? ? Hc]. open_state s; open_call. wf_finish. Qed.

Lemma finish_detection_wf s t v : wf s -> wf (finish_detection s t v).1.
Proof.
  intros [Hr Hp Ht Hc]. open_state s; open_call.
  unfold readiness_ok in Hr; simpl in Hr.
  destruct v; step_cases; try (split; assumption); destruct_and?; wf_finish.
Qed.

Lemma expire_wf s t now : wf s -> wf (expire s t now).1.
Proof. intros Hs. unfold expire. step_cases; auto using finish_detection_wf. Qed.

Lemma connected_wf s t : wf s -> wf (connected s t).1.
Proof.
  intros [Hr Hp Ht Hc]. open_state s; open_call. step_cases; try (split; assumption).
  unfold readiness_ok in Hr; simpl in Hr.
  split; [|exact Hp|exact Ht|wf_counters].
  unfold readiness_ok; simpl. case_match_goal; destruct_and?; split_ands; congruence.
Qed.

Lemma conflict_wf s t : wf s -> wf (conflict s t).1.
Proof.
  intros [Hr Hp Ht Hc]. open_state s; open_call. step_cases; try (split; assumption).
  unfold readiness_ok in Hr; simpl in Hr. destruct_and?. wf_finish.
Qed.

Lemma cancel_retry_wf s k : wf s -> wf (cancel_retry s k).1.
Proof.
  intros [Hr Hp Ht Hc]. open_state s; open_call. step_cases; try (split; assumption).
  split; [|done|exact Ht|wf_counters].
  unfold readiness_ok in *; simpl in *. case_match_goal; destruct_and?; split_ands; congruence.
Qed.

Lemma admit_retry_wf s k now : wf s -> wf (admit_retry s k now).1.
Proof.
  intros [Hr Hp Ht Hc]. unfold admit_retry. case_match_goal; [|split; assumption].
  case_match_goal; [split; assumption|].
  match goal with |- context [begin_attempt ?a ?b ?c] =>
    pose proof (begin_attempt_wf a b c) as H; destruct (begin_attempt a b c) end.
  apply H; open_state s; auto.
Qed.

Lemma transport_failed_wf s t : wf s -> wf (transport_failed s t).1.
Proof.
  intros Hs. unfold transport_failed. case_match_goal; [exact Hs|].
  case_match_goal; [apply finish_detection_wf, Hs|]. case_match_goal; [|exact Hs].
  destruct Hs as [Hr Hp Ht Hc]. open_state s; open_call. wf_finish.
Qed.

Lemma link_down_wf s t : wf s -> wf (link_down s t).1.
Proof.
  intros [Hr Hp Ht Hc]. open_state s; open_call; unfold readiness_ok in Hr; simpl in Hr.
  step_cases; try (split; assumption); destruct_and?;
    try solve [wf_finish | intuition congruence].
  split; [|exact Hp|exact Ht|wf_counters].
  unfold readiness_ok; simpl. case_match_goal; destruct_and?; split_ands; congruence.
Qed.

(** The failed attempt is only remembered while the session is [Failed]. *)
Lemma failed_attempt_readiness s f :
  wf s -> failed_attempt s = Some f -> s_readiness (snapshot s) = Failed.
Proof.
  intros [Hr _ _ _] Hf. unfold readiness_ok in Hr.
  case_match_in Hr; destruct_and?; congruence.
Qed.

Lemma not_pending s : ~ is_Some (pending_retry s) -> pending_retry s = None.
Proof. destruct (pending_retry s); [intros []; eauto | done]. Qed.

Lemma request_retry_wf s f now j : wf s -> wf (request_retry s f now j).1.
Proof.
  intros Hs. unfold request_retry. case_bool_decide as Hn; [exact Hs|].
  apply not_pending in Hn. case_match_goal; [exact Hs|].
  assert (Hcur : is_current s f = true \/ s_readiness (snapshot s) = Failed).
  { destruct (is_current s f); [by left|right]; simpl in *; prop_bools.
    eauto using failed_attempt_readiness. }
  assert (Hatt : in_u u8_max (sat_add u8_max (retry_attempt s) 1) /\
                 1 <= sat_add u8_max (retry_attempt s) 1).
  { destruct Hs as [_ _ _ (?&?&?&?)]. int_lia. }
  destruct Hs as [Hr Hp Ht Hc]. destruct Hatt as [? ?].
  clear Heqb.
  destruct (bool_decide (3 < _) && _) eqn:Hb; destruct (is_current s f) eqn:Hi; open_state s; open_call;
    prop_bools; unfold readiness_ok in Hr; simpl in Hr; subst; simplify_eq/=;
    destruct_and?;
    try (destruct Hcur as [?|?]; [discriminate|]; subst; simplify_eq/=; destruct_and?);
    (split; [done| |first [exact Ht | intros ? [=]; subst; auto]|wf_counters]).
  all: intros r [=]; subst; simpl; split_ands; eauto; intros ->;
    destruct Hb; prop_bools; lia || congruence.
Qed.

Create HintDb connection discriminated.
#[export] Hint Resolve begin_wf request_retry_wf admit_retry_wf cancel_retry_wf
  finish_detection_wf expire_wf disconnect_wf connected_wf link_down_wf
  transport_failed_wf conflict_wf wf_default : connection.

#[global] Instance step_wf : Invariant step wf.
Proof. intros s [] Hs; cbn [step relabel fst]; auto with connection. Qed.

(** ** Identity: generations *)

Definition gen (s : ConnectionAttemptLifecycle) : Z := s_generation (snapshot s).
Definition current (s : ConnectionAttemptLifecycle) : option ConnectionAttemptToken :=
  s_token (snapshot s).

(** What one call can do to the current identity, short of wrap-around. *)
Definition identity_step (s s' : ConnectionAttemptLifecycle) : Prop :=
  (gen s' = gen s /\ (current s' = current s \/ current s' = None)) \/
  (gen s' = gen s + 1 /\
   (current s' = None \/ exists t, current s' = Some t /\ generation t = gen s + 1)).

Lemma step_identity s c :
  in_u u64_max (gen s) -> gen s + 1 <= u64_max -> identity_step s (step s c).1.
Proof.
  intros Hg Hb. assert (Hw : wrap_add u64_max (gen s) 1 = gen s + 1)
    by (apply wrap_add_small; int_lia).
  unfold identity_step, gen, current in *. open_state s. simpl in *.
  destruct c; cbn [step relabel fst]; open_call; step_cases; eauto 6.
Qed.

Lemma is_current_true s t : is_current s t = true <-> current s = Some t.
Proof. unfold is_current, current. apply bool_decide_eq_true. Qed.
Lemma is_current_false s t : is_current s t = false <-> current s <> Some t.
Proof. unfold is_current, current. apply bool_decide_eq_false. Qed.

Lemma is_verified_true s t :
  is_verified s t = true <->
  current s = Some t /\ s_readiness (snapshot s) = Verified /\ s_transport (snapshot s) = Connected.
Proof.
  unfold is_verified, verified_attempt. rewrite bool_decide_eq_true.
  destruct (is_current s t) eqn:E; [apply is_current_true in E|apply is_current_false in E].
  - simpl. repeat case_bool_decide; simpl; split; intros; destruct_and?; eauto;
      try (destruct_and?; congruence); try (match goal with H : is_Some None |- _ => destruct H; done end).
  - simpl. split; [intros [? ?]; done|tauto].
Qed.

Lemma is_verified_false s t : is_current s t = false -> is_verified s t = false.
Proof.
  intros H. destruct (is_verified s t) eqn:E; [|done].
  apply is_verified_true in E as [Hc _]. apply is_current_true in Hc. congruence.
Qed.

(** A token is retired when it is not current and its generation is not ahead. *)
Definition retired (t : ConnectionAttemptToken) (n : nat) (s : ConnectionAttemptLifecycle) : Prop :=
  is_current s t = false /\ generation t <= gen s /\
  in_u u64_max (gen s) /\ gen s + Z.of_nat n <= u64_max.

Lemma retired_step t n s c : retired t (S n) s -> retired t n (step s c).1.
Proof.
  intros (Hc & Hle & Hg & Hn).
  destruct (step_identity s c Hg ltac:(lia)) as [[Hg' Hc']|[Hg' Hc']];
    unfold retired, in_u in *; rewrite is_current_false in *; rewrite Hg'; split_ands; try lia;
    destruct Hc' as [Hc'|Hc']; try congruence.
  destruct Hc' as (t' & -> & Ht'). intros [=]; subst. lia.
Qed.

(** ** Reconnection *)

Definition is_scheduled (r : Reply) : bool :=
  match r with RDecision (Scheduled _) => true | _ => false end.
Definition is_exhausted (r : Reply) : bool :=
  match r with RDecision (Exhausted _) => true | _ => false end.
Definition scheduled_count (rs : list Reply) : Z :=
  Z.of_nat (length (filter (fun r => is_scheduled r = true) rs)).

(** The calls that reset the failure budget of an unproven connection. *)
Definition resets_budget (c : Call) : bool :=
  match c with
  | CBegin _ _ | CCancelRetry _ | CDisconnect | CFinishDetection _ true => true
  | _ => false
  end.

Lemma budget_step s c :
  wf s -> retry_scope s = InitialIdentification -> resets_budget c = false ->
  retry_scope (step s c).1 = InitialIdentification /\
  (if is_scheduled (step s c).2
   then retry_attempt s < 3 /\ retry_attempt (step s c).1 = retry_attempt s + 1
   else retry_attempt s <= retry_attempt (step s c).1).
Proof.
  intros [Hr _ _ (_ & _ & Ha & _)]. open_state s. unfold readiness_ok in Hr. simpl in *.
  intros -> Hq.
  destruct c; try discriminate; try (destruct verified; discriminate);
    cbn [step relabel fst snd]; open_call; try destruct verified; try discriminate;
    step_cases; destruct_and?; try discriminate; split_ands; auto; try int_lia.
  all: repeat match goal with H : _ \/ _ |- _ => destruct H; prop_bools end; try congruence; int_lia.
Qed.

Lemma established_step s c :
  retry_scope s = EstablishedConnection ->
  match c with CBegin _ _ | CDisconnect => False | _ => True end ->
  retry_scope (step s c).1 = EstablishedConnection /\ is_exhausted (step s c).2 = false.
Proof.
  open_state s. simpl. intros -> Hq.
  destruct c; try done; cbn [step relabel fst snd]; open_call;
    try destruct verified; step_cases; auto.
Qed.

(** ** Backoff *)

Lemma retry_base_range e :
  0 <= e <= 7 -> 250 <= Z.min (sat_mul u64_max 250 (Z.shiftl 1 e)) 25000 <= 25000.
Proof.
  intros He. rewrite Z.shiftl_mul_pow2 by lia.
  assert (1 <= 2 ^ e) by (apply (Z.pow_le_mono_r 2 0 e); lia). int_lia.
Qed.

Lemma retry_base_mono e e' :
  0 <= e <= e' ->
  Z.min (sat_mul u64_max 250 (Z.shiftl 1 e)) 25000 <=
  Z.min (sat_mul u64_max 250 (Z.shiftl 1 e')) 25000.
Proof.
  intros He. rewrite !Z.shiftl_mul_pow2 by lia.
  assert (2 ^ e <= 2 ^ e') by (apply Z.pow_le_mono_r; lia). int_lia.
Qed.

(** The delay without saturation: no intermediate product leaves [u64]. *)
Lemma retry_delay_exact a j :
  1 <= a <= 255 -> 0 <= j ->
  retry_delay_ms a j =
    (Z.min (sat_mul u64_max 250 (Z.shiftl 1 (Z.min (a - 1) 7))) 25000 *
       (800000 + 400 * Z.min j 1000) + 500000) / 1000000.
Proof.
  intros Ha Hj. unfold retry_delay_ms.
  replace (sat_sub a 1) with (a - 1) by int_lia.
  pose proof (retry_base_range (Z.min (a - 1) 7) ltac:(lia)) as Hb.
  set (b := Z.min (sat_mul _ _ _) _) in *. set (k := 800000 + 400 * Z.min j 1000).
  assert (800000 <= k <= 1200000) by (subst k; lia).
  assert (0 <= b * k <= 25000 * 1200000) by nia.
  unfold sat_add, sat_mul, u64_max. rewrite Z.quot_div_nonneg by lia.
  f_equal. lia.
Qed.

(** ** Properties *)

(** Whatever sequence of calls the mobile transport makes, the lifecycle
    stays well formed: each readiness keeps its promises about token, deadline
    and link, the current token has the current generation, and a pending timer
    is the last one minted, for the failed attempt and within the budget. *)
Theorem run_wf (calls : list Call) : wf (run_state step default_lifecycle calls).
Proof. apply run_invariant; [exact step_wf | exact wf_default]. Qed.

(** C29: a retired attempt stays retired: once a token is not current, no
    sequence of calls (short of exhausting the u64 generations) makes it
    current or verified again, so late callbacks of an old connection are
    refused for ever. *)
Theorem retired_token_stays_retired (s : ConnectionAttemptLifecycle)
    (t : ConnectionAttemptToken) (calls : list Call) :
  is_current s t = false -> generation t <= gen s -> 0 <= gen s ->
  gen s + Z.of_nat (length calls) <= u64_max ->
  is_current (run_state step s calls) t = false /\
  is_verified (run_state step s calls) t = false.
Proof.
  intros Hc Hle Hg Hn.
  assert (Hr : retired t 0 (run_state step s calls)).
  { apply (run_invariant_counted step (retired t)); [intros; by apply retired_step|].
    unfold retired, in_u. split_ands; auto; lia. }
  destruct Hr as [Hr _]. auto using is_verified_false.
Qed.

(** Data is admitted only through the detector: a call makes a token
    verified only when it is the detector's positive verdict for the current
    pending attempt on an established link. *)
Theorem verified_only_by_detection (s : ConnectionAttemptLifecycle) (c : Call)
    (t : ConnectionAttemptToken) :
  wf s -> is_verified s t = false -> is_verified (step s c).1 t = true ->
  c = CFinishDetection t true /\ is_current s t = true /\
  s_readiness (snapshot s) = Pending /\ s_transport (snapshot s) = Connected.
Proof.
  intros [Hr _ _ _] Hn Hv. rewrite is_current_true.
  apply is_verified_true in Hv as (Hc & Hrd & Htr).
  assert (Hn' : ~ (current s = Some t /\ s_readiness (snapshot s) = Verified /\
                   s_transport (snapshot s) = Connected)).
  { rewrite <- is_verified_true. congruence. }
  unfold current, readiness_ok in *. open_state s. simpl in *.
  destruct c; cbn [step relabel fst] in *; open_call;
    revert Hc Hrd Htr; try destruct verified; step_cases; intros; destruct_and?; simplify_eq/=;
    try tauto; exfalso; apply Hn'; auto.
Qed.

(** The retry budget of an unproven device: from a state whose connection
    was never verified, as long as no call resets the budget, at most three
    minus the retries already used are ever scheduled. *)
Theorem initial_retry_budget (s : ConnectionAttemptLifecycle) (calls : list Call) :
  wf s -> retry_scope s = InitialIdentification ->
  Forall (fun c => resets_budget c = false) calls ->
  scheduled_count (run_outputs step s calls) <= Z.max 0 (3 - retry_attempt s).
Proof.
  revert s. induction calls as [|c calls IH]; intros s Hs Hsc Hq; [unfold scheduled_count; simpl; lia|].
  inversion Hq; subst.
  destruct (budget_step s c Hs Hsc) as [Hsc' Hb]; [done|].
  specialize (IH (step s c).1 (step_wf s c Hs) Hsc' ltac:(done)).
  rewrite run_outputs_cons. unfold scheduled_count in *. rewrite filter_cons.
  destruct (is_scheduled (step s c).2); simpl; lia.
Qed.

(** A proven wheel is never given up: in any run without an explicit begin
    or disconnect, a session whose connection was verified never answers that
    its retries are exhausted. *)
Theorem established_never_exhausted (s : ConnectionAttemptLifecycle) (calls : list Call) :
  retry_scope s = EstablishedConnection ->
  Forall (fun c => match c with CBegin _ _ | CDisconnect => False | _ => True end) calls ->
  Forall (fun r => is_exhausted r = false) (run_outputs step s calls).
Proof.
  revert s. induction calls as [|c calls IH]; intros s Hs Hq; [constructor|].
  inversion Hq; subst. rewrite run_outputs_cons.
  destruct (established_step s c Hs) as [? ?]; [done|]. constructor; auto.
Qed.

(** The backoff is bounded and grows: every delay is between 200 ms and
    30 s, at least 20 s from the eighth attempt on, never shrinks with the
    attempt number, and never overflows u64. *)
Theorem retry_delay_bounds (a a' j : Z) :
  1 <= a <= 255 -> a <= a' <= 255 -> 0 <= j ->
  200 <= retry_delay_ms a j <= 30000 /\
  (8 <= a -> 20000 <= retry_delay_ms a j) /\
  retry_delay_ms a j <= retry_delay_ms a' j.
Proof.
  intros Ha Ha' Hj. rewrite !retry_delay_exact by lia.
  pose proof (retry_base_range (Z.min (a - 1) 7) ltac:(lia)).
  pose proof (retry_base_mono (Z.min (a - 1) 7) (Z.min (a' - 1) 7) ltac:(lia)).
  assert (8 <= a -> Z.min (sat_mul u64_max 250 (Z.shiftl 1 (Z.min (a - 1) 7))) 25000 = 25000).
  { intros. replace (Z.min (a - 1) 7) with 7 by lia. reflexivity. }
  set (b := Z.min (sat_mul _ _ (Z.shiftl 1 (Z.min (a - 1) 7))) _) in *.
  set (b' := Z.min (sat_mul _ _ (Z.shiftl 1 (Z.min (a' - 1) 7))) _) in *.
  set (k := 800000 + 400 * Z.min j 1000).
  assert (800000 <= k <= 1200000) by (subst k; lia).
  assert (b * k <= b' * k) by nia. assert (250 * 800000 <= b * k <= 25000 * 1200000) by nia.
  assert (8 <= a -> 25000 * 800000 <= b * k) by (intros; assert (b = 25000) as -> by auto; lia).
  generalize dependent (b' * k). generalize dependent (b * k). intros p q.
  clear - p q. intros. split_ands; try (apply Z.div_le_mono; lia); div_lia.
Qed.

(** Recovery of a lost wheel: when the link of a verified attempt drops,
    the old token is refused at once, the first retry is granted, its timer is
    refused before the deadline, and at the deadline a fresh attempt for the
    same device starts, pending and with its own 15-second deadline. *)
Theorem link_loss_recovers (s : ConnectionAttemptLifecycle) (t : ConnectionAttemptToken)
    (now j early late : Z) :
  wf s -> is_verified s t = true -> 0 <= now -> 0 <= j ->
  let s1 := (link_down s t).1 in
  let '(s2, d) := request_retry s1 t now j in
  is_current s1 t = false /\
  exists r, d = Scheduled r /\ rt_attempt r = 1 /\
    rt_platform_identifier r = platform_identifier t /\
    rt_deadline r = sat_add u64_max now (retry_delay_ms 1 j) /\
    (early < rt_deadline r -> admit_retry s2 (rt_token r) early = (s2, None)) /\
    (rt_deadline r <= late ->
       exists s3 t', admit_retry s2 (rt_token r) late = (s3, Some t') /\
         platform_identifier t' = platform_identifier t /\ is_current s3 t' = true /\
         s_readiness (snapshot s3) = Pending /\
         s_deadline (snapshot s3) = Some (sat_add u64_max late 15000)).
Proof.
  intros [Hr _ _ Hc] Hv Hnow Hj. apply is_verified_true in Hv as (Hcur & Hrd & Htr).
  unfold current, readiness_ok in *. open_state s. simpl in *. subst.
  destruct Hr as (_ & -> & _ & -> & -> & -> & ->). open_call.
  decide_bools.
  split; [reflexivity|]. eexists. split; [reflexivity|]. simpl. split_ands; auto.
  - intros He. decide_bools. reflexivity.
  - intros Hl. decide_bools. eexists _, _. split; [reflexivity|]. simpl. decide_bools. auto.
Qed.

(** ** Witnesses *)

Lemma retired_token_stays_retired_witness :
  let '(s, t) := test_verified in
  is_current (run_state step (disconnect s) [CConnected t; CBegin "Falcon" 9; CFinishDetection t true]) t
    = false.
Proof.
  apply (retired_token_stays_retired (disconnect test_verified.1) test_verified.2);
    [reflexivity | vm_compute; discriminate | vm_compute; discriminate | vm_compute; discriminate].
Defined.

Lemma verified_only_by_detection_witness :
  let '(s0, t) := begin default_lifecycle "Falcon" 0 in
  s_transport (snapshot (connected s0 t).1) = Connected.
Proof.
  pose (s0 := begin default_lifecycle "Falcon" 0).
  apply (verified_only_by_detection (connected s0.1 s0.2).1 (CFinishDetection s0.2 true) s0.2);
    [apply connected_wf, begin_wf, wf_default | vm_compute; reflexivity | vm_compute; reflexivity].
Defined.

Lemma initial_retry_budget_witness :
  scheduled_count (run_outputs step (begin default_lifecycle "A" 0).1
    [CRequestRetry (begin default_lifecycle "A" 0).2 0 500; CAdmitRetry 1 250]) <= 3.
Proof.
  apply (initial_retry_budget (begin default_lifecycle "A" 0).1);
    [apply begin_wf, wf_default | reflexivity | repeat constructor].
Defined.

Lemma established_never_exhausted_witness :
  let '(s, t) := test_verified in
  Forall (fun r => is_exhausted r = false)
    (run_outputs step s [CLinkDown t; CRequestRetry t 0 0; CAdmitRetry 1 200]).
Proof.
  apply (established_never_exhausted test_verified.1); [vm_compute; reflexivity|].
  repeat constructor.
Defined.

Lemma retry_delay_bounds_witness : 200 <= retry_delay_ms 1 500 <= 30000.
Proof. apply (retry_delay_bounds 1 8 500); lia. Defined.

Lemma link_loss_recovers_witness :
  let '(s, t) := test_verified in is_current (link_down s t).1 t = false.
Proof.
  pose proof (link_loss_recovers test_verified.1 test_verified.2 1000 500 0 2000
    ltac:(apply finish_detection_wf, connected_wf, begin_wf, wf_default)
    ltac:(vm_compute; reflexivity) ltac:(lia) ltac:(lia)) as H.
  vm_compute in H. vm_compute. exact (proj1 H).
Defined.
