(* ===== verification/CaptureLifecycle.v ===== *)
(** * Capture lifecycle

    [cutout-core/src/capture_lifecycle.rs]: admission of one capture writer at a
    time, the flush that ends it, and the durable receipts of writers that have
    already been retired.  [CaptureSessionLifecycle] is the struct; its set of
    pending completions ([BTreeSet]) is a [gset]. *)

From S2P Require Import Prelude.
From S2P Require Import ConnectionLifecycle.

(** [CaptureGeneration] is a newtype of [u64]. *)
Definition CaptureGeneration : Type := Z.

Inductive CaptureOrigin := Automatic | Manual.
Inductive CaptureTransportOwnership := OwnBorrowed | CaptureOwned.
Inductive CaptureTransportRelease :=
| ReleaseRejected
| WriterOnly
| ReleaseOwnedTransport (t : ConnectionAttemptToken).
Inductive CaptureTransportBinding :=
| Borrowed
| Owned (t : ConnectionAttemptToken).
Inductive CaptureStage :=
| Starting | Recording | Saving | SaveFailed | Finalizing | Saved | CaptureFailed.
Inductive CaptureCompletionDisposition := CurrentAttempt | HistoricalAttempt | CompletionRejected.

#[global] Instance origin_eq_dec : EqDecision CaptureOrigin.
Proof. solve_decision. Defined.
#[global] Instance ownership_eq_dec : EqDecision CaptureTransportOwnership.
Proof. solve_decision. Defined.
#[global] Instance binding_eq_dec : EqDecision CaptureTransportBinding.
Proof. solve_decision. Defined.
#[global] Instance stage_eq_dec : EqDecision CaptureStage.
Proof. solve_decision. Defined.
#[global] Instance disposition_eq_dec : EqDecision CaptureCompletionDisposition.
Proof. solve_decision. Defined.
#[global] Instance release_eq_dec : EqDecision CaptureTransportRelease.
Proof. solve_decision. Defined.

Definition reserves_writer (s : CaptureStage) : bool :=
  bool_decide (s = Starting) || bool_decide (s = Recording)
  || bool_decide (s = Saving) || bool_decide (s = SaveFailed).

Record CaptureAttemptSnapshot := {
  c_generation : CaptureGeneration;
  c_origin : CaptureOrigin;
  c_stage : CaptureStage;
}.
#[global] Instance eta_attempt : Eta CaptureAttemptSnapshot := fun r =>
  Build_CaptureAttemptSnapshot (c_generation r) (c_origin r) (c_stage r).

Record CaptureFinishToken := { f_generation : CaptureGeneration; f_operation : Z }.
#[global] Instance finish_token_eq_dec : EqDecision CaptureFinishToken.
Proof. unfold CaptureGeneration. solve_decision. Defined.

Record CaptureSessionLifecycle := {
  next_generation : Z;
  next_operation : Z;
  current : option CaptureAttemptSnapshot;
  transport : CaptureTransportBinding;
  finishing : option CaptureFinishToken;
  pending_completions : gset Z;
}.
#[global] Instance eta_session : Eta CaptureSessionLifecycle := fun r =>
  Build_CaptureSessionLifecycle (next_generation r) (next_operation r) (current r)
    (transport r) (finishing r) (pending_completions r).

Definition default_session : CaptureSessionLifecycle := {|
  next_generation := 0; next_operation := 0; current := None; transport := Borrowed;
  finishing := None; pending_completions := ∅ |}.

Definition admits_result (self : CaptureSessionLifecycle) (g : CaptureGeneration) : bool :=
  match current self with
  | Some attempt =>
      bool_decide (c_generation attempt = g) &&
      match c_stage attempt with
      | Recording | Saving | SaveFailed | Finalizing => true
      | Starting | Saved | CaptureFailed => false
      end
  | None => false
  end.

Definition can_start (self : CaptureSessionLifecycle) : bool :=
  match current self with
  | Some attempt => negb (reserves_writer (c_stage attempt))
  | None => true
  end.

Definition can_pair (self : CaptureSessionLifecycle) : bool :=
  match current self with
  | Some attempt => bool_decide (c_origin attempt = Automatic)
                    || negb (reserves_writer (c_stage attempt))
  | None => true
  end.

Definition automatic_capture_to_finish (self : CaptureSessionLifecycle) : option CaptureGeneration :=
  match current self with
  | Some attempt =>
      if bool_decide (c_origin attempt = Automatic)
         && (bool_decide (c_stage attempt = Starting) || bool_decide (c_stage attempt = Recording)
             || bool_decide (c_stage attempt = SaveFailed))
      then Some (c_generation attempt) else None
  | None => None
  end.

Definition begin_with_transport (self : CaptureSessionLifecycle) (origin : CaptureOrigin)
    (ownership : CaptureTransportOwnership) (connection_attempt : option ConnectionAttemptToken)
  : CaptureSessionLifecycle * option CaptureGeneration :=
  if negb (can_start self) then (self, None) else
  match (match ownership, connection_attempt with
         | OwnBorrowed, None => Some Borrowed
         | CaptureOwned, Some token => Some (Owned token)
         | OwnBorrowed, Some _ | CaptureOwned, None => None
         end) with
  | None => (self, None)
  | Some binding =>
      match checked_add u64_max (next_generation self) 1 with
      | None => (self, None)
      | Some generation =>
          let self1 := self <| next_generation := generation |> in
          let self2 :=
            match current self1 with
            | Some previous =>
                if bool_decide (c_stage previous = Finalizing)
                then self1 <| pending_completions :=
                       {[ c_generation previous ]} ∪ pending_completions self1 |>
                else self1
            | None => self1
            end in
          (self2 <| current := Some {| c_generation := generation; c_origin := origin;
                                       c_stage := Starting |} |>
                 <| transport := binding |> <| finishing := None |>, Some generation)
      end
  end.

Definition begin (self : CaptureSessionLifecycle) (origin : CaptureOrigin)
  : CaptureSessionLifecycle * option CaptureGeneration :=
  begin_with_transport self origin OwnBorrowed None.

Definition set_stage (self : CaptureSessionLifecycle) (attempt : CaptureAttemptSnapshot)
    (stage : CaptureStage) : CaptureSessionLifecycle :=
  self <| current := Some (attempt <| c_stage := stage |>) |>.

Definition transition (self : CaptureSessionLifecycle) (g : CaptureGeneration)
    (from to : CaptureStage) : CaptureSessionLifecycle * bool :=
  match current self with
  | None => (self, false)
  | Some attempt =>
      if negb (bool_decide (c_generation attempt = g)) || negb (bool_decide (c_stage attempt = from))
      then (self, false)
      else (set_stage self attempt to, true)
  end.

Definition writer_started (self : CaptureSessionLifecycle) (g : CaptureGeneration)
  : CaptureSessionLifecycle * bool := transition self g Starting Recording.
Definition writer_start_failed (self : CaptureSessionLifecycle) (g : CaptureGeneration)
  : CaptureSessionLifecycle * bool := transition self g Starting CaptureFailed.

Definition begin_finish (self : CaptureSessionLifecycle) (g : CaptureGeneration)
  : CaptureSessionLifecycle * option CaptureFinishToken :=
  match current self with
  | None => (self, None)
  | Some attempt =>
      if negb (bool_decide (c_generation attempt = g))
         || negb (bool_decide (c_origin attempt = Manual))
         || (negb (bool_decide (c_stage attempt = Recording))
             && negb (bool_decide (c_stage attempt = SaveFailed)))
      then (self, None)
      else
        match checked_add u64_max (next_operation self) 1 with
        | None => (self, None)
        | Some op =>
            let token := {| f_generation := g; f_operation := op |} in
            (set_stage (self <| next_operation := op |>) attempt Saving
               <| finishing := Some token |>, Some token)
        end
  end.

Definition finish_flush (self : CaptureSessionLifecycle) (token : CaptureFinishToken)
    (succeeded : bool) : CaptureSessionLifecycle * bool :=
  if negb (bool_decide (finishing self = Some token)) then (self, false) else
  match current self with
  | None => (self, false)
  | Some attempt =>
      if negb (bool_decide (c_generation attempt = f_generation token))
         || negb (bool_decide (c_stage attempt = Saving))
      then (self, false)
      else (set_stage (self <| finishing := None |>) attempt
              (if succeeded then Finalizing else SaveFailed), succeeded)
  end.

Definition finish_flush_with_transport (self : CaptureSessionLifecycle)
    (token : CaptureFinishToken) (succeeded : bool)
    (current_token : option ConnectionAttemptToken)
  : CaptureSessionLifecycle * CaptureTransportRelease :=
  match finish_flush self token succeeded with
  | (self1, false) => (self1, ReleaseRejected)
  | (self1, true) =>
      let binding := transport self1 in
      let self2 := self1 <| transport := Borrowed |> in
      match binding with
      | Owned owned => if bool_decide (current_token = Some owned)
                       then (self2, ReleaseOwnedTransport owned) else (self2, WriterOnly)
      | Borrowed => (self2, WriterOnly)
      end
  end.

Definition writer_failed (self : CaptureSessionLifecycle) (g : CaptureGeneration)
  : CaptureSessionLifecycle * bool :=
  match current self with
  | None => (self, false)
  | Some attempt =>
      if negb (bool_decide (c_generation attempt = g))
         || (negb (bool_decide (c_stage attempt = Recording))
             && negb (bool_decide (c_stage attempt = SaveFailed)))
      then (self, false)
      else (set_stage self attempt SaveFailed, true)
  end.

Definition retire (self : CaptureSessionLifecycle) (g : CaptureGeneration)
  : CaptureSessionLifecycle * bool :=
  match current self with
  | None => (self, false)
  | Some attempt =>
      if negb (bool_decide (c_generation attempt = g))
         || bool_decide (c_stage attempt = Starting)
         || (negb (reserves_writer (c_stage attempt))
             && negb (bool_decide (c_stage attempt = Finalizing)))
      then (self, false)
      else (set_stage self attempt Finalizing <| finishing := None |>, true)
  end.

Definition complete (self : CaptureSessionLifecycle) (g : CaptureGeneration) (succeeded : bool)
  : CaptureSessionLifecycle * CaptureCompletionDisposition :=
  match transition self g Finalizing (if succeeded then Saved else CaptureFailed) with
  | (self1, true) => (self1, CurrentAttempt)
  | (self1, false) =>
      if bool_decide (g ∈ pending_completions self1)
      then (self1 <| pending_completions := pending_completions self1 ∖ {[ g ]} |>,
            HistoricalAttempt)
      else (self1, CompletionRejected)
  end.

(** ** The machine of the public methods *)

Inductive CaptureCall :=
| CBegin (origin : CaptureOrigin) (ownership : CaptureTransportOwnership)
         (connection_attempt : option ConnectionAttemptToken)
| CWriterStarted (g : CaptureGeneration)
| CWriterStartFailed (g : CaptureGeneration)
| CBeginFinish (g : CaptureGeneration)
| CFinishFlush (token : CaptureFinishToken) (succeeded : bool)
| CFinishFlushTransport (token : CaptureFinishToken) (succeeded : bool)
                        (current_token : option ConnectionAttemptToken)
| CWriterFailed (g : CaptureGeneration)
| CRetire (g : CaptureGeneration)
| CComplete (g : CaptureGeneration) (succeeded : bool).

Inductive CaptureReply :=
| RGeneration (g : option CaptureGeneration)
| RToken (t : option CaptureFinishToken)
| RBool (b : bool)
| RRelease (r : CaptureTransportRelease)
| RDisposition (d : CaptureCompletionDisposition).

Definition capture_step (s : CaptureSessionLifecycle) (c : CaptureCall)
  : CaptureSessionLifecycle * CaptureReply :=
  match c with
  | CBegin o w a => RGeneration <$$> begin_with_transport s o w a
  | CWriterStarted g => RBool <$$> writer_started s g
  | CWriterStartFailed g => RBool <$$> writer_start_failed s g
  | CBeginFinish g => RToken <$$> begin_finish s g
  | CFinishFlush t b => RBool <$$> finish_flush s t b
  | CFinishFlushTransport t b k => RRelease <$$> finish_flush_with_transport s t b k
  | CWriterFailed g => RBool <$$> writer_failed s g
  | CRetire g => RBool <$$> retire s g
  | CComplete g b => RDisposition <$$> complete s g b
  end.

Example manual_capture_path :
  let '(s, rs) := run capture_step default_session
    [CBegin Manual OwnBorrowed None; CWriterStarted 1; CBeginFinish 1;
     CFinishFlush {| f_generation := 1; f_operation := 1 |} true; CComplete 1 true; CComplete 1 true] in
  c_stage <$> current s = Some Saved /\
  rs = [RGeneration (Some 1); RBool true; RToken (Some {| f_generation := 1; f_operation := 1 |});
        RBool true; RDisposition CurrentAttempt; RDisposition CompletionRejected].
Proof. vm_compute. auto. Qed.

(** ** Invariant *)

(** A generation whose terminal receipt is still owed. *)
Definition owed (s : CaptureSessionLifecycle) (g : CaptureGeneration) : Prop :=
  (exists a, current s = Some a /\ c_generation a = g /\ c_stage a <> Saved /\
             c_stage a <> CaptureFailed) \/ g ∈ pending_completions s.

Record capture_wf (s : CaptureSessionLifecycle) : Prop := {
  cw_generation : 0 <= next_generation s <= u64_max;
  cw_operation : 0 <= next_operation s <= u64_max;
  cw_current : forall a, current s = Some a -> c_generation a = next_generation s;
  cw_pending : forall g, g ∈ pending_completions s -> g <= next_generation s;
  cw_pending_current : forall a, current s = Some a -> c_generation a ∉ pending_completions s;
  cw_saving : forall a, current s = Some a ->
    (c_stage a = Saving <-> exists t, finishing s = Some t);
  cw_finishing : forall t, finishing s = Some t ->
    f_operation t = next_operation s /\
    exists a, current s = Some a /\ c_generation a = f_generation t /\ c_origin a = Manual;
}.

Ltac open_capture s := destruct s as [ng no [[g0 o0 st0]|] tr fi pe].
Ltac capture_unfold :=
  unfold begin_with_transport, writer_started, writer_start_failed, begin_finish,
    finish_flush_with_transport, finish_flush, writer_failed, retire, complete, transition,
    set_stage, can_start, set_field in *; simpl in *.

Lemma stage_change_wf s a st fi op :
  capture_wf s -> current s = Some a -> 0 <= op <= u64_max ->
  (st = Saving <-> exists t, fi = Some t) ->
  (forall t, fi = Some t -> f_operation t = op /\
             c_generation a = f_generation t /\ c_origin a = Manual) ->
  capture_wf (s <| next_operation := op |> <| current := Some (a <| c_stage := st |>) |>
                <| finishing := fi |>).
Proof.
  intros [H1 H2 H3 H4 H5 H6 H7] Ha Hop Hs Hf. destruct s, a. simpl in *. subst.
  split; simpl; auto.
  - intros a [= <-]. simpl. by apply (H3 _ eq_refl).
  - intros a [= <-]. simpl. by apply (H5 _ eq_refl).
  - intros a [= <-]. exact Hs.
  - intros t Ht. destruct (Hf t Ht) as (?&?&?). split; [done|]. eexists. split; [done|]. done.
Qed.

(** A stage change that is not a save and drops any save in flight. *)
Lemma stage_drop_wf s a st :
  capture_wf s -> current s = Some a -> st <> Saving ->
  capture_wf (set_stage (s <| finishing := None |>) a st).
Proof.
  intros Hw Ha Hst. pose proof (stage_change_wf s a st None (next_operation s) Hw Ha) as H.
  unfold set_stage. destruct s. simpl in *. apply H; [by destruct Hw| |done].
  split; [done|by intros [? ?]].
Qed.

Lemma stage_keep_wf s a st :
  capture_wf s -> current s = Some a -> c_stage a <> Saving -> st <> Saving ->
  capture_wf (set_stage s a st).
Proof.
  intros Hw Ha Hn Hst. pose proof (cw_saving s Hw a Ha) as H6.
  assert (Hf : finishing s = None).
  { destruct (finishing s) as [t|] eqn:E; [|done]. destruct Hn. apply H6. by exists t. }
  replace s with (s <| finishing := None |>) by (destruct s; simpl in *; by subst).
  by apply stage_drop_wf.
Qed.

Lemma transition_wf s g from to :
  capture_wf s -> from <> Saving -> to <> Saving -> capture_wf (transition s g from to).1.
Proof.
  intros Hw Hf Ht. unfold transition. destruct (current s) as [a|] eqn:E; [|done].
  destruct (_ || _) eqn:Eb; [done|]. prop_bools. subst. by apply stage_keep_wf.
Qed.

Lemma finish_flush_wf s t b : capture_wf s -> capture_wf (finish_flush s t b).1.
Proof.
  intros Hw. unfold finish_flush. case_match_goal; [done|].
  destruct (current s) as [a|] eqn:E; [|done]. destruct (_ || _); [done|]. cbn [fst].
  apply stage_drop_wf; [done|done|by destruct b].
Qed.

Lemma set_transport_wf s b : capture_wf s -> capture_wf (s <| transport := b |>).
Proof. intros [H1 H2 H3 H4 H5 H6 H7]. destruct s. split; auto. Qed.

(** A new attempt, over receipts owed to earlier ones. *)
Lemma new_attempt_wf s o bd pe :
  capture_wf s -> next_generation s + 1 <= u64_max ->
  (forall g, g ∈ pe -> g <= next_generation s) ->
  capture_wf {| next_generation := next_generation s + 1; next_operation := next_operation s;
    current := Some {| c_generation := next_generation s + 1; c_origin := o; c_stage := Starting |};
    transport := bd; finishing := None; pending_completions := pe |}.
Proof.
  intros [H1 H2 H3 H4 H5 H6 H7] Hg Hpe. split; simpl; auto; try lia; try done.
  - by intros a [= <-].
  - intros g Hin. specialize (Hpe g Hin). lia.
  - intros a [= <-]. simpl. intros Hin. specialize (Hpe _ Hin). lia.
  - intros a [= <-]. simpl. split; [done|by intros [? ?]].
Qed.

Lemma begin_capture_wf s o w a : capture_wf s -> capture_wf (begin_with_transport s o w a).1.
Proof.
  intros Hw. unfold begin_with_transport. destruct (negb (can_start s)); [done|].
  destruct (match w, a with OwnBorrowed, None => _ | _, _ => _ end) as [bd|]; [|done].
  destruct (checked_add _ _ _) as [g|] eqn:Eg; [|done]. apply checked_add_Some in Eg as [Hg ->].
  pose proof Hw as [_ _ H3 H4 _ _ _].
  pose proof (new_attempt_wf s o bd (pending_completions s) Hw Hg) as Hk.
  open_capture s; simpl in *; [|by apply Hk].
  case_bool_decide; simpl; [|by apply Hk].
  apply (new_attempt_wf _ o bd _ Hw Hg). simpl. intros g'. rewrite elem_of_union, elem_of_singleton.
  intros [->|Hin]; [pose proof (H3 _ eq_refl) as E0; simpl in E0; lia|by apply H4].
Qed.

Lemma begin_finish_wf s g : capture_wf s -> capture_wf (begin_finish s g).1.
Proof.
  intros Hw. unfold begin_finish. destruct (current s) as [a|] eqn:E; [|done].
  destruct (_ || _) eqn:Eb; [done|].
  destruct (checked_add _ _ _) as [op|] eqn:Eo; [|done]. apply checked_add_Some in Eo as [Ho ->].
  prop_bools. cbn [fst]. unfold set_stage.
  apply stage_change_wf; auto; [destruct Hw; lia| |].
  - split; [by eexists|done].
  - intros t [= <-]. simpl. auto.
Qed.

Lemma complete_wf s g b : capture_wf s -> capture_wf (complete s g b).1.
Proof.
  intros Hw. unfold complete.
  pose proof (transition_wf s g Finalizing (if b then Saved else CaptureFailed) Hw) as Ht.
  destruct (transition _ _ _ _) as [s1 []]; simpl in *; [apply Ht; by destruct b|].
  assert (Hw1 : capture_wf s1) by (apply Ht; by destruct b).
  case_bool_decide; [|done]. destruct Hw1 as [H1 H2 H3 H4 H5 H6 H7]. destruct s1. simpl in *.
  split; simpl; auto.
  - intros g' Hin. apply elem_of_difference in Hin as [Hin _]. auto.
  - intros a Ha. specialize (H5 a Ha). rewrite elem_of_difference. tauto.
Qed.

Lemma writer_failed_wf s g : capture_wf s -> capture_wf (writer_failed s g).1.
Proof.
  intros Hw. unfold writer_failed. destruct (current s) as [a|] eqn:E; [|done].
  destruct (_ || _) eqn:Eb; [done|]. prop_bools. apply stage_keep_wf; auto.
  destruct H0 as [Hb|Hb]; prop_bools; congruence.
Qed.

Lemma retire_wf s g : capture_wf s -> capture_wf (retire s g).1.
Proof.
  intros Hw. unfold retire. destruct (current s) as [a|] eqn:E; [|done].
  destruct (_ || _) eqn:Eb; [done|]. pose proof (stage_drop_wf s a Finalizing Hw E) as H.
  unfold set_stage in *. destruct s. by apply H.
Qed.

Lemma finish_flush_transport_wf s t b k :
  capture_wf s -> capture_wf (finish_flush_with_transport s t b k).1.
Proof.
  intros Hw. unfold finish_flush_with_transport. pose proof (finish_flush_wf s t b Hw) as H.
  destruct (finish_flush s t b) as [s1 []]; simpl in *; [|done].
  destruct (transport s1); [by apply set_transport_wf|].
  case_bool_decide; by apply set_transport_wf.
Qed.

Create HintDb capture discriminated.
#[export] Hint Resolve begin_capture_wf transition_wf begin_finish_wf finish_flush_wf
  finish_flush_transport_wf writer_failed_wf retire_wf complete_wf : capture.

#[global] Instance capture_step_wf : Invariant capture_step capture_wf.
Proof.
  intros s [] Hw; cbn [capture_step relabel fst]; auto with capture;
    apply transition_wf; auto; discriminate.
Qed.

Lemma default_session_wf : capture_wf default_session.
Proof. split; simpl; try done; int_lia. Qed.

(** ** Receipts *)

(** A writer has left the active slot and its receipt is owed. *)
Definition finalizing (g : CaptureGeneration) (s : CaptureSessionLifecycle) : Prop :=
  (exists a, current s = Some a /\ c_generation a = g /\ c_stage a = Finalizing) \/
  g ∈ pending_completions s.

(** A generation whose receipt is settled. *)
Definition settled (g : CaptureGeneration) (s : CaptureSessionLifecycle) : Prop :=
  g <= next_generation s /\ g ∉ pending_completions s /\
  forall a, current s = Some a -> c_generation a = g -> c_stage a = Saved \/ c_stage a = CaptureFailed.

Definition is_complete_of (g : CaptureGeneration) (c : CaptureCall) : Prop :=
  exists b, c = CComplete g b.

(** Calls other than [complete] act on one stage of the current attempt. *)
Definition keeps_current (s s' : CaptureSessionLifecycle) : Prop :=
  next_generation s' = next_generation s /\ pending_completions s' = pending_completions s /\
  (current s' = current s \/
   exists a st, current s = Some a /\ current s' = Some (a <| c_stage := st |>) /\
     (c_stage a = Starting \/ c_stage a = Recording \/ c_stage a = Saving \/
      c_stage a = SaveFailed \/ c_stage a = Finalizing) /\
     st <> Saved /\ (c_stage a = Finalizing -> st = Finalizing)).

Lemma keeps_current_refl s : keeps_current s s.
Proof. unfold keeps_current. auto. Qed.

(** The calls that neither begin an attempt nor settle a receipt. *)
Definition other_call (c : CaptureCall) : bool :=
  match c with CBegin _ _ _ | CComplete _ _ => false | _ => true end.

(** Close a stage change of the current attempt, its stage tested before. *)
Ltac stage_change_done :=
  unfold keeps_current; simpl;
  split; [reflexivity|]; split; [reflexivity|]; right; do 2 eexists;
  split; [reflexivity|]; split; [reflexivity|]; simpl;
  split_ands; try discriminate; auto 10.

Lemma non_complete_step s c :
  other_call c = true ->
  keeps_current s (capture_step s c).1.
Proof.
  destruct c as [o w a|g|g|g|t b|t b k|g|g|g b]; try done; intros _;
    cbn [capture_step relabel fst]; unfold writer_started, writer_start_failed, transition,
      begin_finish, finish_flush_with_transport, finish_flush, writer_failed, retire, set_stage;
    open_capture s; simpl;
    try (destruct (_ || _) eqn:Eb; [apply keeps_current_refl|]); try apply keeps_current_refl.
  - prop_bools. subst. stage_change_done.
  - prop_bools. subst. stage_change_done.
  - destruct (checked_add _ _ _); [|apply keeps_current_refl]. prop_bools. subst.
    destruct H0 as [Hb|Hb]; prop_bools; subst; stage_change_done.
  - case_bool_decide; simpl; [|apply keeps_current_refl].
    destruct (_ || _) eqn:Eb; [apply keeps_current_refl|]. prop_bools. subst.
    destruct b; stage_change_done.
  - case_bool_decide; simpl; apply keeps_current_refl.
  - case_bool_decide; simpl; [|apply keeps_current_refl].
    destruct (negb (bool_decide (g0 = f_generation t)) || _) eqn:Eb; [apply keeps_current_refl|].
    prop_bools. subst.
    destruct b; [destruct tr; simpl; try destruct (bool_decide (k = Some _))|]; stage_change_done.
  - case_bool_decide; simpl; apply keeps_current_refl.
  - prop_bools. subst. destruct H0 as [Hb|Hb]; prop_bools; subst; stage_change_done.
  - prop_bools. subst. destruct st0; stage_change_done; destruct H0; discriminate.
Qed.

Lemma begin_reply s o w a g :
  (begin_with_transport s o w a).2 = Some g ->
  can_start s = true /\ g = next_generation s + 1 /\
  next_generation (begin_with_transport s o w a).1 = g /\
  current (begin_with_transport s o w a).1
    = Some {| c_generation := g; c_origin := o; c_stage := Starting |} /\
  pending_completions (begin_with_transport s o w a).1 =
    match current s with
    | Some p => if bool_decide (c_stage p = Finalizing)
                then {[ c_generation p ]} ∪ pending_completions s else pending_completions s
    | None => pending_completions s
    end.
Proof.
  unfold begin_with_transport. destruct (can_start s) eqn:Ec; [|done]. simpl negb. cbn iota.
  destruct (match w, a with OwnBorrowed, None => _ | _, _ => _ end); [|done].
  destruct (checked_add _ _ _) as [g'|] eqn:Eg; [|done]. apply checked_add_Some in Eg as [_ ->].
  intros [= <-]. open_capture s; simpl; [case_bool_decide; simpl|]; auto 10.
Qed.

Lemma begin_refused s o w a :
  (begin_with_transport s o w a).2 = None -> (begin_with_transport s o w a).1 = s.
Proof.
  unfold begin_with_transport. destruct (negb _); [done|].
  destruct (match w, a with OwnBorrowed, None => _ | _, _ => _ end); [|done].
  by destruct (checked_add _ _ _).
Qed.

(** The two ways a receipt is looked up. *)
Lemma complete_cases s g b :
  (exists a, current s = Some a /\ c_generation a = g /\ c_stage a = Finalizing /\
     complete s g b = (set_stage s a (if b then Saved else CaptureFailed), CurrentAttempt)) \/
  (~ (exists a, current s = Some a /\ c_generation a = g /\ c_stage a = Finalizing) /\
   ((g ∈ pending_completions s /\
     complete s g b = (s <| pending_completions := pending_completions s ∖ {[ g ]} |>, HistoricalAttempt))
    \/ (g ∉ pending_completions s /\ complete s g b = (s, CompletionRejected)))).
Proof.
  unfold complete, transition.
  assert (Hp : forall P : Prop, P -> P /\ ((g ∈ pending_completions s /\
     (if bool_decide (g ∈ pending_completions s)
      then (s <| pending_completions := pending_completions s ∖ {[ g ]} |>, HistoricalAttempt)
      else (s, CompletionRejected))
     = (s <| pending_completions := pending_completions s ∖ {[ g ]} |>, HistoricalAttempt))
    \/ (g ∉ pending_completions s /\ (if bool_decide (g ∈ pending_completions s)
      then (s <| pending_completions := pending_completions s ∖ {[ g ]} |>, HistoricalAttempt)
      else (s, CompletionRejected)) = (s, CompletionRejected)))).
  { intros P HP. split; [done|]. destruct (decide (g ∈ pending_completions s)) as [Hin|Hin].
    - left. by rewrite bool_decide_true.
    - right. by rewrite bool_decide_false. }
  destruct (current s) as [a|] eqn:E.
  - destruct (_ || _) eqn:Eb.
    + right. apply Hp. intros (a' & [= <-] & Hg & Hs). apply orb_true_iff in Eb as [Eb|Eb]; prop_bools; done.
    + prop_bools. left. exists a. auto.
  - right. apply Hp. by intros (a' & [=] & _).
Qed.

(** A settled receipt stays settled, and asking for it again is refused. *)
Lemma settled_step g s c :
  capture_wf s -> settled g s ->
  settled g (capture_step s c).1 /\
  (forall b, c = CComplete g b -> (capture_step s c).2 = RDisposition CompletionRejected).
Proof.
  intros Hw (Hg & Hp & Hs).
  destruct (other_call c) eqn:Hc.
  { destruct (non_complete_step s c Hc) as (En & Ep & Hcur).
    split; [|by intros b ->]. unfold settled. rewrite En, Ep. split_ands; auto.
    intros a' Ha' Hga. destruct Hcur as [Hcur|(a & st & Ha & Ha2 & Hst & _)]; [rewrite Hcur in Ha'; auto|].
    rewrite Ha2 in Ha'. injection Ha' as <-. destruct a as [ga oa sa]. simpl in *.
    destruct (Hs _ Ha Hga) as [E|E]; simpl in E; subst; intuition discriminate. }
  destruct c as [o w a|g'|g'|g'|t b|t b k|g'|g'|g' b]; try discriminate Hc;
    cbn [capture_step relabel fst snd].
  - split; [|by intros b]. destruct (begin_with_transport s o w a).2 as [g'|] eqn:E.
    + apply begin_reply in E as (_ & Eg & En & Ecur & Ep).
      unfold settled. rewrite En, Ecur, Ep. split; [lia|]. split.
      * destruct (current s) as [p|] eqn:Es; [|done]. case_bool_decide as Ef; [|done].
        rewrite elem_of_union, elem_of_singleton. intros [->|?]; [|done].
        destruct (Hs p eq_refl eq_refl); congruence.
      * intros a' [= <-]. simpl. lia.
    + by rewrite (begin_refused s o w a E).
  - destruct (complete_cases s g' b) as [(a & Ea & Hga & Hst & E)|[_ [[Hin E]|[Hin E]]]]; rewrite E.
    + split; [|intros b' [= -> ->]; destruct (Hs a Ea Hga); congruence].
      destruct s, a. unfold settled, set_stage. simpl in *. split_ands; auto.
      intros a' [= <-]. simpl. destruct b; auto.
    + split; [|intros b' [= -> ->]; done].
      destruct s. unfold settled. simpl in *. rewrite elem_of_difference. split_ands; auto; tauto.
    + split; [done|]. done.
Qed.

(** Accepting a receipt settles it. *)
Lemma complete_settles s g b :
  capture_wf s -> (complete s g b).2 <> CompletionRejected -> settled g (complete s g b).1.
Proof.
  intros Hw. pose proof Hw as [_ _ H3 H4 H5 _ _].
  destruct (complete_cases s g b) as [(a & Ea & Hga & Hst & ->)|[_ [[Hin ->]|[Hin ->]]]];
    simpl; [| |done]; intros _.
  - specialize (H3 _ Ea). specialize (H5 _ Ea).
    destruct s, a. unfold settled, set_stage. simpl in *. subst. split_ands; auto; try lia.
    intros a' [= <-]. simpl. destruct b; auto.
  - destruct s. unfold settled. simpl in *. rewrite elem_of_difference, elem_of_singleton.
    split; [by apply H4|]. split; [tauto|]. intros a' Ha <-. by destruct (H5 _ Ha).
Qed.

(** An owed receipt stays owed until it is asked for. *)
Lemma finalizing_step g s c :
  finalizing g s -> ~ is_complete_of g c -> finalizing g (capture_step s c).1.
Proof.
  intros Hf Hn.
  destruct (other_call c) eqn:Hc.
  { destruct (non_complete_step s c Hc) as (En & Ep & Hcur). unfold finalizing. rewrite Ep.
    destruct Hf as [(a & Ha & Hg & Hst)|Hin]; [left|by right].
    destruct Hcur as [->|(a2 & st & Ha2 & -> & _ & _ & Hfin)]; [by exists a|].
    eexists. split; [done|]. destruct a, a2. simpl in *. simplify_eq. auto. }
  destruct c as [o w a|g'|g'|g'|t b|t b k|g'|g'|g' b]; try discriminate Hc;
    cbn [capture_step relabel fst].
  - destruct (begin_with_transport s o w a).2 as [g'|] eqn:E.
    + apply begin_reply in E as (_ & _ & _ & _ & Ep). right. rewrite Ep.
      destruct Hf as [(p & -> & Hg & Hst)|Hin].
      * rewrite bool_decide_true by done. set_solver.
      * destruct (current s) as [p|]; [case_bool_decide|]; set_solver.
    + by rewrite (begin_refused s o w a E).
  - assert (Hne : g' <> g) by (intros ->; apply Hn; by exists b).
    destruct (complete_cases s g' b) as [(a & Ea & Hga & Hst & ->)|[_ [[Hin ->]|[Hin ->]]]];
      simpl; [| |done]; destruct s; unfold finalizing, set_stage in *; simpl in *.
    + destruct Hf as [(a' & Ha' & ? & _)|?]; [congruence|by right].
    + destruct Hf as [?|?]; [by left|right; set_solver].
Qed.

Lemma finalizing_accepts g s b : finalizing g s -> (complete s g b).2 <> CompletionRejected.
Proof.
  intros Hf. destruct (complete_cases s g b) as [(a & Ea & Hga & Hst & ->)|[Hn [[Hin ->]|[Hin ->]]]];
    [done|done|]. by destruct Hf.
Qed.

(** ** Properties *)

(** C23: the durable receipt of a capture is consumed exactly once: once a writer
    is finalizing, then after any calls that do not ask for its receipt the
    first receipt is accepted, whether the attempt is still current or has been
    replaced; and after any further calls every other receipt for it is
    refused. *)
Theorem receipt_consumed_exactly_once (s : CaptureSessionLifecycle) (g : CaptureGeneration)
    (before after : list CaptureCall) (ok again : bool) :
  capture_wf s -> finalizing g s -> Forall (fun c => ~ is_complete_of g c) before ->
  let s1 := run_state capture_step s before in
  let '(s2, first) := complete s1 g ok in
  first <> CompletionRejected /\
  (complete (run_state capture_step s2 after) g again).2 = CompletionRejected.
Proof.
  intros Hw Hf Hb s1.
  assert (Hf1 : finalizing g s1).
  { clear Hw. unfold s1. clear s1. revert s Hf. induction Hb as [|c before Hc _ IH]; intros s Hf; [done|].
    rewrite run_state_cons. apply IH. by apply finalizing_step. }
  assert (Hw1 : capture_wf s1) by (apply run_invariant; [exact capture_step_wf|done]).
  pose proof (finalizing_accepts g s1 ok Hf1) as Hacc.
  pose proof (complete_settles s1 g ok Hw1 Hacc) as Hset.
  pose proof (complete_wf s1 g ok Hw1) as Hw2.
  destruct (complete s1 g ok) as [s2 first]. simpl in *. split; [done|].
  assert (H : settled g (run_state capture_step s2 after) /\ capture_wf (run_state capture_step s2 after)).
  { clear Hacc. revert s2 Hset Hw2. induction after as [|c after IH]; intros s2 Hset Hw2; [done|].
    rewrite run_state_cons. apply IH; [by apply settled_step|by apply capture_step_wf]. }
  destruct H as [H1 H2].
  destruct (settled_step g _ (CComplete g again) H2 H1) as [_ H3].
  specialize (H3 again eq_refl). cbn [capture_step relabel snd] in H3. by injection H3.
Qed.

(** An attempt that holds the writer is not displaced: no call replaces it,
    a new capture is refused, an explicit recording is never offered for
    automatic finishing or pairing, and it leaves the writer slot only through
    a call that names its own generation. *)
Theorem capture_not_displaced (s : CaptureSessionLifecycle) (a : CaptureAttemptSnapshot)
    (c : CaptureCall) :
  current s = Some a -> reserves_writer (c_stage a) = true ->
  (forall o w t, begin_with_transport s o w t = (s, None)) /\
  (c_origin a = Manual -> can_pair s = false /\ automatic_capture_to_finish s = None) /\
  exists a', current (capture_step s c).1 = Some a' /\ c_generation a' = c_generation a /\
    c_origin a' = c_origin a /\
    (reserves_writer (c_stage a') = false ->
       c = CWriterStartFailed (c_generation a) \/ c = CRetire (c_generation a) \/
       exists t b k, f_generation t = c_generation a /\
         (c = CFinishFlush t b \/ c = CFinishFlushTransport t b k)).
Proof.
  intros Ha Hr.
  assert (Hbegin : forall o w t, begin_with_transport s o w t = (s, None)).
  { intros. unfold begin_with_transport, can_start. rewrite Ha, Hr. done. }
  split; [done|]. split.
  { intros Hm. unfold can_pair, automatic_capture_to_finish. rewrite Ha, Hr, Hm. done. }
  destruct s as [ng no cur tr fi pe]. simpl in Ha. subst. destruct a as [g0 o0 st0]. simpl in Hr.
  assert (Hkeep : forall st', reserves_writer st' = true ->
    exists a', Some {| c_generation := g0; c_origin := o0; c_stage := st' |} = Some a' /\
      c_generation a' = g0 /\ c_origin a' = o0 /\
      (reserves_writer (c_stage a') = false -> c = CWriterStartFailed g0 \/ c = CRetire g0 \/
       exists t b k, f_generation t = g0 /\ (c = CFinishFlush t b \/ c = CFinishFlushTransport t b k))).
  { intros st' E. eexists. split; [done|]. split_ands; try done. simpl. congruence. }
  assert (Hn : st0 <> Finalizing) by (intros ->; done).
  destruct c as [o w t|g|g|g|t b|t b k|g|g|g b]; cbn [capture_step relabel fst].
  - rewrite Hbegin. by apply Hkeep.
  - unfold writer_started, transition. simpl. destruct (_ || _); simpl; by apply Hkeep.
  - unfold writer_start_failed, transition. simpl. destruct (_ || _) eqn:E; simpl; [by apply Hkeep|].
    prop_bools. subst. eexists. split; [done|]. simpl. auto.
  - unfold begin_finish. simpl. destruct (_ || _); simpl; [by apply Hkeep|].
    destruct (checked_add _ _ _); simpl; by apply Hkeep.
  - unfold finish_flush. simpl. case_bool_decide; simpl; [|by apply Hkeep].
    destruct (_ || _) eqn:E; simpl; [by apply Hkeep|]. prop_bools. subst.
    eexists. split; [done|]. simpl. split_ands; try done. right; right. exists t, b, None. auto.
  - unfold finish_flush_with_transport, finish_flush. simpl. case_bool_decide; simpl; [|by apply Hkeep].
    destruct (negb (bool_decide (g0 = f_generation t)) || _) eqn:E; simpl; [by apply Hkeep|].
    prop_bools. subst. destruct b; [destruct tr; simpl; try destruct (bool_decide (k = Some _))|];
      (eexists; split; [done|]; simpl; split_ands; try done; right; right; exists t; eauto 6).
  - unfold writer_failed. simpl. destruct (_ || _); simpl; by apply Hkeep.
  - unfold retire. simpl. destruct (_ || _) eqn:E; simpl; [by apply Hkeep|]. prop_bools. subst.
    eexists. split; [done|]. simpl. auto.
  - unfold complete, transition. simpl. rewrite (bool_decide_false (st0 = Finalizing)) by done.
    rewrite orb_true_r. case_bool_decide; simpl; by apply Hkeep.
Qed.

(** A capture is presented as saved only after its own receipt: a call that
    turns the current attempt into Saved is the successful receipt of that
    generation, received while it was finalizing. *)
Theorem saved_only_by_receipt (s : CaptureSessionLifecycle) (c : CaptureCall)
    (a' : CaptureAttemptSnapshot) :
  current (capture_step s c).1 = Some a' -> c_stage a' = Saved -> current s <> Some a' ->
  c = CComplete (c_generation a') true /\
  exists a, current s = Some a /\ c_generation a = c_generation a' /\ c_stage a = Finalizing.
Proof.
  intros Hc Hs Hn.
  destruct (other_call c) eqn:Hk.
  { destruct (non_complete_step s c Hk) as (_ & _ & [E|(a & st & Ha & E & _ & Hst & _)]);
      rewrite E in Hc; [done|]. injection Hc as <-. by destruct a. }
  destruct c as [o w t|g|g|g|t b|t b k|g|g|g b]; try discriminate Hk;
    cbn [capture_step relabel fst] in Hc.
  - destruct (begin_with_transport s o w t).2 as [g'|] eqn:E.
    + apply begin_reply in E as (_ & _ & _ & E & _). rewrite E in Hc. by injection Hc as <-.
    + by rewrite (begin_refused s o w t E) in Hc.
  - destruct (complete_cases s g b) as [(a & Ea & Hga & Hst & E)|[_ [[Hin E]|[Hin E]]]];
      rewrite E in Hc; simpl in Hc; [|by destruct s|done].
    destruct s, a. unfold set_stage in Hc. simpl in *. subst. injection Hc as <-.
    destruct b; [|done]. simpl. eauto.
Qed.

(** ** Witnesses *)

Definition sample_finalizing : CaptureSessionLifecycle :=
  run_state capture_step default_session
    [CBegin Automatic OwnBorrowed None; CWriterStarted 1; CRetire 1].

Lemma receipt_consumed_exactly_once_witness :
  let s1 := run_state capture_step sample_finalizing [CBegin Manual OwnBorrowed None] in
  (complete s1 1 true).2 <> CompletionRejected.
Proof.
  pose proof (receipt_consumed_exactly_once sample_finalizing 1 [CBegin Manual OwnBorrowed None] [] true true
    ltac:(unfold sample_finalizing; apply run_invariant; [exact capture_step_wf|exact default_session_wf])
    ltac:(left; exists {| c_generation := 1; c_origin := Automatic; c_stage := Finalizing |}; vm_compute; auto)
    ltac:(repeat constructor; intros [? ?]; discriminate)) as H.
  cbv zeta in *. set (r := complete _ 1 true) in *. destruct r. apply H.
Defined.

Lemma capture_not_displaced_witness :
  let s := run_state capture_step default_session [CBegin Manual OwnBorrowed None; CWriterStarted 1] in
  begin_with_transport s Automatic OwnBorrowed None = (s, None).
Proof.
  apply (capture_not_displaced
           (run_state capture_step default_session [CBegin Manual OwnBorrowed None; CWriterStarted 1])
           {| c_generation := 1; c_origin := Manual; c_stage := Recording |} (CRetire 1));
    vm_compute; reflexivity.
Defined.

Lemma saved_only_by_receipt_witness :
  exists a, current sample_finalizing = Some a /\ c_generation a = 1 /\ c_stage a = Finalizing.
Proof.
  apply (saved_only_by_receipt sample_finalizing (CComplete 1 true)
           {| c_generation := 1; c_origin := Automatic; c_stage := Saved |});
    [vm_compute; reflexivity | reflexivity | vm_compute; discriminate].
Defined.
