(* ===== verification/PhoneDrive.v ===== *)
(** * Motor control from the phone

    [cutout-protocols/src/device_connection/phone_drive.rs] and the parts of
    [cutout-protocols/src/device_connection.rs] that end phone control: which
    touches become motor-current writes, when a write may still be submitted,
    and what retires an activation.  The record [DeviceConnectionSession] holds
    the fields this code reads or writes; of the other fields of that struct
    (detection, settings, actions, drivetrains, telemetry) only what they say
    here is kept, as arguments.  A step's outcome is the list of drive writes it
    puts in front of the session's outputs.  The checksum of a packet is the
    parameter [vesc_crc16] of [VescFrame.v]. *)

From S2P Require Import Readback.
From S2P Require Import Prelude.
From S2P Require Import PhoneDriveInput VescFrame ConnectionLifecycle VehicleIdentity.

Definition CADENCE_MS : Z := 50.
Definition INPUT_MAX_AGE_MS : Z := 150.
Definition SUBMISSION_WINDOW_MS : Z := 50.
Definition VESC_RAW_CURRENT_FAULT_CODE_FIELD_ID : Z := 32772.

(** ** Data *)

Inductive PhoneDriveUnavailableReason := Disconnected | VehicleUnsupported.
Inductive PhoneDriveAvailability :=
| Unavailable (reason : PhoneDriveUnavailableReason)
| Ready
| Active (id : PhoneDriveActivationId).
Inductive PhoneDriveWriteKind := Setpoint | Release.
Record PhoneDriveWrite := {
  w_activation_id : PhoneDriveActivationId;
  w_sequence : Z;                     (* u64 *)
  w_generation : Z;                   (* u64 *)
  w_submit_before_ms : Z;             (* u64 *)
  w_kind : PhoneDriveWriteKind;
}.
Inductive PhoneDriveActivationError :=
| ConnectionUnavailable | ActVehicleUnsupported | SettingsNotLoaded | ActModeDisabled
| InputHeld | Busy | ClockRegression | InputGenerationChanged | IdentifierExhausted
| ActControllerFault.
Inductive ApplicationQueryTransportStatus :=
| Queued | Submitted | TransportRejected | TransportCancelled | SubmissionUnknown.

Record Activation := {
  act_id : PhoneDriveActivationId;
  act_limits : PhoneDriveLimits;
  act_observed_at : option Z;
  act_next_setpoint_at : option Z;
}.
Record PendingWrite := {
  admission : PhoneDriveWrite;
  p_action : option PhoneDriveAction;
  p_milliamps : Z;
  issued_at : Z;
  emitted : bool;
}.
Record PhoneDriveControl := {
  activation : option Activation;
  pending : option PendingWrite;
  next_activation : Z;                (* u64 *)
  next_sequence : Z;                  (* u64 *)
  controller_fault : bool;
}.
Record DeviceConnectionSession := {
  connection : ConnectionAttemptLifecycle;
  phone_drive_input : PhoneDriveInputState;
  phone_drive_limits : PhoneDriveLimits;
  device : option DeviceSession;
  setting_operations : bool;          (* the map holds an operation *)
  user_vehicle_classification : option VehicleClassification;
  last_input_at : Z;                  (* MonotonicTimestamp *)
  phone_drive_control : PhoneDriveControl;
  preferences_token : option ConnectionAttemptToken;
  settings_presented_for : option ConnectionAttemptToken;
}.

#[global] Instance write_kind_eq_dec : EqDecision PhoneDriveWriteKind.
Proof. solve_decision. Defined.
#[global] Instance write_eq_dec : EqDecision PhoneDriveWrite.
Proof. unfold EqDecision, PhoneDriveActivationId. solve_decision. Defined.
#[global] Instance eta_activation : Eta Activation := fun r =>
  Build_Activation (act_id r) (act_limits r) (act_observed_at r) (act_next_setpoint_at r).
#[global] Instance eta_pending : Eta PendingWrite := fun r =>
  Build_PendingWrite (admission r) (p_action r) (p_milliamps r) (issued_at r) (emitted r).
#[global] Instance eta_control : Eta PhoneDriveControl := fun r =>
  Build_PhoneDriveControl (activation r) (pending r) (next_activation r) (next_sequence r)
    (controller_fault r).
#[global] Instance eta_session : Eta DeviceConnectionSession := fun r =>
  Build_DeviceConnectionSession (connection r) (phone_drive_input r) (phone_drive_limits r)
    (device r) (setting_operations r) (user_vehicle_classification r) (last_input_at r)
    (phone_drive_control r) (preferences_token r) (settings_presented_for r).

Definition default_control : PhoneDriveControl :=
  {| activation := None; pending := None; next_activation := 0; next_sequence := 0;
     controller_fault := false |}.
Definition default_session : DeviceConnectionSession :=
  {| connection := default_lifecycle; phone_drive_input := default_input;
     phone_drive_limits := default_limits; device := None; setting_operations := false;
     user_vehicle_classification := None; last_input_at := 0;
     phone_drive_control := default_control; preferences_token := None;
     settings_presented_for := None |}.

Section Drive.
Context (vesc_crc16 : list Z -> Z).

#[local] Abbreviation Session := DeviceConnectionSession.

(** ** Field updates *)

Definition with_activation (s : Session) (a : option Activation) : Session :=
  s <| phone_drive_control := (phone_drive_control s) <| activation := a |> |>.
Definition with_pending (s : Session) (p : option PendingWrite) : Session :=
  s <| phone_drive_control := (phone_drive_control s) <| pending := p |> |>.
Definition with_input (s : Session) (i : PhoneDriveInputState) : Session :=
  s <| phone_drive_input := i |>.
Definition with_last_input (s : Session) (at_ : Z) : Session := s <| last_input_at := at_ |>.

(** ** Reading *)

Definition phone_drive_activation (s : Session) : option PhoneDriveActivationId :=
  act_id <$> activation (phone_drive_control s).

Definition snapshot_of (s : Session) : PhoneDriveInputSnapshot :=
  input_snapshot (phone_drive_input s).

Definition phone_drive_availability (s : Session) : PhoneDriveAvailability :=
  match s_token (snapshot (connection s)) with
  | None => Unavailable Disconnected
  | Some token =>
      if negb (is_verified (connection s) token) then Unavailable Disconnected else
      match identity <$> device s with
      | Some i =>
          if bool_decide (protocol i = Vesc) && bool_decide (vehicle_kind i = Eskate)
             && bool_decide (vesc_application i = Some Absent)
          then match phone_drive_activation s with Some id => Active id | None => Ready end
          else Unavailable VehicleUnsupported
      | None => Unavailable Disconnected
      end
  end.
Definition is_unavailable (a : PhoneDriveAvailability) : bool :=
  match a with Unavailable _ => true | _ => false end.

Definition pending_release (s : Session) : bool :=
  match pending (phone_drive_control s) with
  | Some p => bool_decide (w_kind (admission p) = Release)
  | None => false
  end.

Definition budget (limits : PhoneDriveLimits) (action : PhoneDriveAction) : Z :=
  match action with
  | Throttle => throttle_milliamps limits
  | Brake => brake_milliamps limits
  end.

Definition gesture_local_cancel (reason : PhoneDriveCancelReason) : bool :=
  match reason with
  | RegionLeft | MultipleContacts | ContactReplaced | InvalidContact => true
  | _ => false
  end.

(** ** Writes *)

Definition exhausted (s : Session) : Session :=
  let s := with_pending (with_activation s None) None in
  with_input s (input_cancel (phone_drive_input s) GenerationExhausted).

Definition prepare_phone_drive_write (s : Session) (action : option PhoneDriveAction)
    (milliamps at_ : Z) : Session :=
  match activation (phone_drive_control s) with
  | None => s
  | Some act =>
      match checked_add u64_max (next_sequence (phone_drive_control s)) 1 with
      | None => exhausted s
      | Some sequence =>
          match checked_add u64_max at_ SUBMISSION_WINDOW_MS with
          | None => exhausted s
          | Some deadline =>
              match snap_generation (snapshot_of s) with
              | None => s
              | Some generation =>
                  let write := {| w_activation_id := act_id act; w_sequence := sequence;
                                  w_generation := generation; w_submit_before_ms := deadline;
                                  w_kind := match action with
                                            | Some _ => Setpoint
                                            | None => Release
                                            end |} in
                  let s := s <| phone_drive_control :=
                                  (phone_drive_control s) <| next_sequence := sequence |> |> in
                  let s := with_pending s
                    (Some {| admission := write; p_action := action; p_milliamps := milliamps;
                             issued_at := at_; emitted := false |}) in
                  with_activation s
                    (Some (act <| act_next_setpoint_at :=
                                    action ≫= fun _ => checked_add u64_max at_ CADENCE_MS |>))
              end
          end
      end
  end.

Definition cancel_phone_drive (s : Session) (reason : PhoneDriveCancelReason) : Session :=
  if bool_decide (reason = ConnectionChanged) then
    let s := s <| phone_drive_control := (phone_drive_control s)
                    <| activation := None |> <| pending := None |>
                    <| controller_fault := false |> |>
               <| preferences_token := None |> <| settings_presented_for := None |> in
    let s := with_input s (set_mode (phone_drive_input s) ModeDisabled) in
    let s := with_input s (input_cancel (phone_drive_input s) reason) in
    s <| phone_drive_limits := default_limits |>
  else
    let s := with_input s (input_cancel (phone_drive_input s) reason) in
    match activation (phone_drive_control s) with
    | None => s
    | Some _ =>
        let s := if pending_release s then s
                 else prepare_phone_drive_write s None 0 (last_input_at s) in
        if gesture_local_cancel reason then
          match activation (phone_drive_control s) with
          | Some act => with_activation s (Some (act <| act_next_setpoint_at := None |>))
          | None => s
          end
        else with_activation s None
    end.

Definition cancel_phone_drive_at (s : Session) (reason : PhoneDriveCancelReason) (at_ : Z)
  : Session :=
  cancel_phone_drive (with_last_input s (Z.max (last_input_at s) at_)) reason.

(** The end of a release that could not be submitted: both in
    [advance_phone_drive_deadlines] and [mark_phone_drive_transport]. *)
Definition retire_release (s : Session) : Session :=
  let s := with_activation s None in
  with_input s (input_cancel (phone_drive_input s) TransportUnavailable).

Definition evidence_fresh (observed : option Z) (at_ : Z) : bool :=
  match observed with
  | Some observed => bool_decide (observed <= at_)
                     && bool_decide (at_ - observed < INPUT_MAX_AGE_MS)
  | None => false
  end.

Definition is_pressed (phase : PhoneDriveInputPhase) : bool :=
  match phase with PhasePressed _ => true | _ => false end.

Definition advance_phone_drive_deadlines (s : Session) (at_ : Z) : Session :=
  let s :=
    if is_pressed (snap_phase (snapshot_of s))
       && negb (evidence_fresh (activation (phone_drive_control s) ≫= act_observed_at) at_)
       && bool_decide (is_Some (activation (phone_drive_control s)))
    then cancel_phone_drive (with_last_input s at_) InputExpired
    else s in
  match pending (phone_drive_control s) with
  | Some p =>
      if bool_decide (w_submit_before_ms (admission p) <= at_) then
        let s := with_last_input (with_pending s None) at_ in
        match w_kind (admission p) with
        | Setpoint => cancel_phone_drive s TransportUnavailable
        | Release => retire_release s
        end
      else s
  | None => s
  end.

(** [phone_drive_step]: a step of a verified VESC session, without drive writes yet. *)
Definition phone_drive_step (s : Session) (token : ConnectionAttemptToken) (at_ : Z)
  : Session * bool :=
  if negb (is_verified (connection s) token) then (s, false) else
  let s := with_last_input s (Z.max (last_input_at s) at_) in
  (s, match device s with Some d => has_drive_step d | None => false end).

Definition DriveWrites : Type := list (PhoneDriveWrite * list Z).

Definition append_phone_drive_write (s : Session) (at_ : Z) (can_submit : bool)
  : Session * DriveWrites :=
  match pending (phone_drive_control s) with
  | None => (s, [])
  | Some p =>
      if emitted p || negb can_submit || bool_decide (w_submit_before_ms (admission p) <= at_)
      then (s, [])
      else
        match encode_phone_drive_current vesc_crc16 (p_action p) (p_milliamps p) with
        | None =>
            let s := with_pending (with_activation s None) None in
            (with_input s (input_cancel (phone_drive_input s) TransportUnavailable), [])
        | Some bytes => (with_pending s (Some (p <| emitted := true |>)), [(admission p, bytes)])
        end
  end.

(** The tail of the two entry points: [phone_drive_step]?, then
    [append_phone_drive_write]. *)
Definition finish_step (s : Session) (token : ConnectionAttemptToken) (at_ : Z)
    (can_submit : bool) : Session * option DriveWrites :=
  let '(s, step) := phone_drive_step s token at_ in
  if step then Some <$$> append_phone_drive_write s at_ can_submit else (s, None).

(** ** Entry points *)

Definition tick_phone_drive (s : Session) (token : ConnectionAttemptToken) (at_ : Z)
    (can_submit : bool) : Session * option DriveWrites :=
  if negb (is_verified (connection s) token) then (s, None) else
  let s := if bool_decide (at_ < last_input_at s) then cancel_phone_drive s InputExpired else s in
  let at_ := Z.max at_ (last_input_at s) in
  let s := advance_phone_drive_deadlines s at_ in
  let s :=
    if can_submit && bool_decide (pending (phone_drive_control s) = None) then
      match activation (phone_drive_control s), snap_phase (snapshot_of s) with
      | Some act, PhasePressed action =>
          if match act_next_setpoint_at act with
             | Some due => bool_decide (due <= at_)
             | None => false
             end
          then prepare_phone_drive_write s (Some action) (budget (act_limits act) action) at_
          else s
      | _, _ => s
      end
    else s in
  finish_step s token at_ can_submit.

(** The end of [activate_phone_drive], once a neutral that can no longer be sent
    is out of the way. *)
Definition activate_idle (s : Session) (limits : PhoneDriveLimits) (at_ : Z)
  : Session * result PhoneDriveActivationId PhoneDriveActivationError :=
  if negb (bool_decide (snap_phase (snapshot_of s) = PhaseIdle)) then (s, Err InputHeld) else
  if match device s with Some d => device_settings_busy d | None => false end
     || setting_operations s
  then (s, Err Busy) else
  match checked_add u64_max (next_activation (phone_drive_control s)) 1 ≫= activation_id_new with
  | None => (s, Err IdentifierExhausted)
  | Some next =>
      let s := with_input s (input_cancel (phone_drive_input s) ActivationChanged) in
      if bool_decide (snap_generation (snapshot_of s) = None) then (s, Err IdentifierExhausted)
      else
        let s := s <| phone_drive_control :=
                        (phone_drive_control s) <| next_activation := next |> |> in
        let s := with_activation (with_pending s None)
          (Some {| act_id := next; act_limits := limits; act_observed_at := None;
                   act_next_setpoint_at := None |}) in
        (with_last_input s at_, Ok next)
  end.

Definition activate_phone_drive (s : Session) (token : ConnectionAttemptToken)
    (expected_input_generation : Z) (limits : PhoneDriveLimits) (at_ : Z)
  : Session * result PhoneDriveActivationId PhoneDriveActivationError :=
  if negb (is_verified (connection s) token) then (s, Err ConnectionUnavailable) else
  if negb (bool_decide (snap_generation (snapshot_of s) = Some expected_input_generation))
  then (s, Err InputGenerationChanged) else
  if negb (bool_decide (preferences_token s = Some token)) then (s, Err SettingsNotLoaded) else
  if bool_decide (settings_presented_for s = Some token) then (s, Err Busy) else
  if is_unavailable (phone_drive_availability s) then (s, Err ActVehicleUnsupported) else
  if bool_decide (snap_mode (snapshot_of s) = ModeDisabled) then (s, Err ActModeDisabled) else
  if bool_decide (at_ < last_input_at s) then (s, Err ClockRegression) else
  if controller_fault (phone_drive_control s) then (s, Err ActControllerFault) else
  match pending (phone_drive_control s) with
  | Some p =>
      if negb (bool_decide (w_kind (admission p) = Release)) then activate_idle s limits at_
      else if bool_decide (at_ < w_submit_before_ms (admission p)) then (s, Err Busy)
      else activate_idle (retire_release (with_pending s None)) limits at_
  | None => activate_idle s limits at_
  end.

(** What an accepted contact observation does to an activation, given the input
    before and after it. *)
Definition contact_writes (s : Session) (before after : PhoneDriveInputPhase)
    (observed_at at_ : Z) : Session :=
  match activation (phone_drive_control s) with
  | None => s
  | Some act =>
      let act := act <| act_observed_at := Some observed_at |> in
      match after with
      | PhasePressed action =>
          let s := with_activation s (Some act) in
          if bool_decide (before = after) then s
          else prepare_phone_drive_write s (Some action) (budget (act_limits act) action) at_
      | PhaseIdle =>
          let s := with_activation s (Some (act <| act_next_setpoint_at := None |>)) in
          if is_pressed before then prepare_phone_drive_write s None 0 at_ else s
      | PhaseCancelled reason =>
          let s := with_activation s (Some (act <| act_next_setpoint_at := None |>)) in
          if bool_decide (before = after) then s
          else if gesture_local_cancel reason
          then if pending_release s then s else prepare_phone_drive_write s None 0 at_
          else cancel_phone_drive s reason
      end
  end.

(** The input after an accepted observation: a fresh contact cannot bypass an
    unsent neutral. *)
Definition observe_contacts (s : Session) (generation : Z) (contacts : PhoneDriveContacts)
  : Session :=
  let s := if is_unavailable (phone_drive_availability s) then s
           else with_input s (input_observe (phone_drive_input s) generation contacts) in
  if is_pressed (snap_phase (snapshot_of s)) && pending_release s
  then with_input s (input_observe (phone_drive_input s) generation Invalid)
  else s.

Definition observe_phone_drive_contacts_at (s : Session) (token : ConnectionAttemptToken)
    (generation : Z) (contacts : PhoneDriveContacts) (observed_at at_ : Z)
  : Session * option DriveWrites :=
  if negb (is_verified (connection s) token) then (s, None) else
  if negb (bool_decide (preferences_token s = Some token))
     || bool_decide (settings_presented_for s = Some token) then (s, None) else
  let before := snapshot_of s in
  if negb (bool_decide (snap_generation before = Some generation)) then
    let '(s, step) := phone_drive_step s token (Z.max at_ (last_input_at s)) in
    (s, if step then Some [] else None)
  else
  if bool_decide (at_ < last_input_at s) || bool_decide (at_ < observed_at)
     || bool_decide (INPUT_MAX_AGE_MS <= sat_sub at_ observed_at)
     || match activation (phone_drive_control s) ≫= act_observed_at with
        | Some previous => bool_decide (observed_at < previous)
        | None => false
        end
  then
    let s := cancel_phone_drive s InputExpired in
    tick_phone_drive s token (Z.max (last_input_at s) at_) true
  else
  let s := observe_contacts (with_last_input s at_) generation contacts in
  let s := contact_writes s (snap_phase before) (snap_phase (snapshot_of s)) observed_at at_ in
  finish_step s token at_ true.

Definition phone_drive_transport_is_current (s : Session) (token : ConnectionAttemptToken)
    (write : PhoneDriveWrite) (at_ : Z) : bool :=
  if negb (is_verified (connection s) token) then false else
  if bool_decide (settings_presented_for s = Some token) && bool_decide (w_kind write = Setpoint)
  then false else
  match pending (phone_drive_control s) with
  | None => false
  | Some p =>
      if negb (bool_decide (admission p = write)) || bool_decide (at_ < issued_at p)
         || bool_decide (w_submit_before_ms write <= at_)
      then false else
      match w_kind write with
      | Release => true
      | Setpoint =>
          match activation (phone_drive_control s) with
          | None => false
          | Some act =>
              bool_decide (act_id act = w_activation_id write)
              && bool_decide (snap_generation (snapshot_of s) = Some (w_generation write))
              && bool_decide (snap_phase (snapshot_of s)
                              = match p_action p with
                                | Some action => PhasePressed action
                                | None => PhaseIdle
                                end)
              && evidence_fresh (act_observed_at act) at_
          end
      end
  end.

Definition mark_phone_drive_transport (s : Session) (token : ConnectionAttemptToken)
    (write : PhoneDriveWrite) (status : ApplicationQueryTransportStatus) (at_ : Z)
  : Session * bool :=
  if negb (is_verified (connection s) token)
     || (bool_decide (settings_presented_for s = Some token)
         && bool_decide (w_kind write = Setpoint))
     || negb match pending (phone_drive_control s) with
             | Some p => bool_decide (admission p = write) && bool_decide (issued_at p <= at_)
             | None => false
             end
  then (s, false)
  else
    (match status with
     | Queued => s
     | Submitted => with_pending s None
     | TransportRejected | TransportCancelled | SubmissionUnknown =>
         let s := with_pending s None in
         match w_kind write with
         | Setpoint =>
             cancel_phone_drive (with_last_input s (Z.max (last_input_at s) at_))
               TransportUnavailable
         | Release => retire_release s
         end
     end, true).

(** ** Settings of the input surface *)

Definition phone_drive_target_is_current (s : Session) (token : ConnectionAttemptToken) : bool :=
  negb (is_unavailable (phone_drive_availability s)) && is_verified (connection s) token.

Definition apply_phone_drive_preferences (s : Session) (token : ConnectionAttemptToken)
    (m : PhoneControlMode) (limits : PhoneDriveLimits) : Session * bool :=
  if negb (phone_drive_target_is_current s token) then (s, false) else
  let s := if negb (bool_decide (snap_mode (snapshot_of s) = m))
           then cancel_phone_drive s ModeChanged
           else if negb (bool_decide (phone_drive_limits s = limits))
           then cancel_phone_drive s ActivationChanged
           else s in
  let s := with_input s (set_mode (phone_drive_input s) m) in
  (s <| phone_drive_limits := limits |> <| preferences_token := Some token |>, true).

Definition set_phone_drive_settings_presented (s : Session) (token : ConnectionAttemptToken)
    (presented : bool) : Session * bool :=
  if negb (phone_drive_target_is_current s token) then (s, false) else
  if presented then
    (if bool_decide (settings_presented_for s = Some token) then s
     else cancel_phone_drive s Navigation <| settings_presented_for := Some token |>, true)
  else if bool_decide (settings_presented_for s = Some token)
  then (s <| settings_presented_for := None |>, true)
  else (s, false).

Definition phone_drive_preferences_are_current (s : Session) (token : ConnectionAttemptToken)
  : bool :=
  bool_decide (preferences_token s = Some token) && phone_drive_target_is_current s token.
Definition phone_drive_settings_are_presented (s : Session) (token : ConnectionAttemptToken)
  : bool :=
  bool_decide (settings_presented_for s = Some token) && phone_drive_target_is_current s token.

Definition phone_drive_next_wakeup_at (s : Session) (can_submit : bool) : option Z :=
  let p := pending (phone_drive_control s) in
  let act := activation (phone_drive_control s) in
  let held := is_pressed (snap_phase (snapshot_of s)) in
  min_option (omap id
    [ (fun p => w_submit_before_ms (admission p)) <$> p;
      p ≫= (fun p => if negb (emitted p) && can_submit then Some (last_input_at s) else None);
      act ≫= (fun act => if held then act_observed_at act ≫= fun at_ =>
                                        checked_add u64_max at_ INPUT_MAX_AGE_MS else None);
      act ≫= (fun act => if can_submit && bool_decide (p = None)
                         then act_next_setpoint_at act else None) ]).

(** ** What retires an activation *)

(** Of the outputs of a step, the raw telemetry readbacks. *)
Inductive SessionOutput := RawTelemetry (fields : list RawFieldValue) | OtherOutput.

Definition observe_fault (s : Session) (output : SessionOutput) : Session :=
  match output with
  | RawTelemetry fields =>
      match list_find (fun f => rf_id f = VESC_RAW_CURRENT_FAULT_CODE_FIELD_ID) fields with
      | Some (_, field) =>
          let faulty := negb (bool_decide (rf_value field = 0)) in
          let s := s <| phone_drive_control :=
                          (phone_drive_control s) <| controller_fault := faulty |> |> in
          if faulty then cancel_phone_drive s ControllerFault else s
      | None => s
      end
  | OtherOutput => s
  end.
Definition observe_phone_drive_fault (s : Session) (outputs : list SessionOutput) : Session :=
  foldl observe_fault s outputs.

Definition reset_for_attempt (s : Session) (at_ : Z) : Session :=
  let s := with_last_input (cancel_phone_drive s ConnectionChanged) at_ in
  s <| user_vehicle_classification := None |> <| setting_operations := false |>
    <| device := None |>.

Definition begin_attempt (s : Session) (platform_identifier : string) (at_ : Z) : Session :=
  let s := reset_for_attempt s at_ in
  s <| connection := (begin (connection s) platform_identifier at_).1 |>.

Definition session_admit_retry (s : Session) (retry : ConnectionRetryToken) (at_ : Z)
  : Session * option ConnectionAttemptToken :=
  let '(connection', token) := admit_retry (connection s) retry at_ in
  let s := s <| connection := connection' |> in
  (match token with Some _ => reset_for_attempt s at_ | None => s end, token).

Definition session_disconnect (s : Session) : Session :=
  let s := cancel_phone_drive s ConnectionChanged in
  s <| connection := disconnect (connection s) |> <| setting_operations := false |>
    <| device := None |>.

Definition clear_failed_device (s : Session) : Session :=
  if bool_decide (s_readiness (snapshot (connection s)) = Failed)
  then s <| device := None |> else s.

Definition session_link_down (s : Session) (token : ConnectionAttemptToken) : Session :=
  let s := if is_current (connection s) token then cancel_phone_drive s ConnectionChanged else s in
  clear_failed_device (s <| connection := (link_down (connection s) token).1 |>).

Definition session_transport_failed (s : Session) (token : ConnectionAttemptToken) : Session :=
  let s := if is_current (connection s) token then cancel_phone_drive s ConnectionChanged else s in
  clear_failed_device (s <| connection := (transport_failed (connection s) token).1 |>).

Definition protocol_conflict (s : Session) (token : ConnectionAttemptToken) : Session * bool :=
  let '(connection', conflicted) := conflict (connection s) token in
  if negb conflicted then (s, false) else
  let s := cancel_phone_drive (s <| connection := connection' |>) ConnectionChanged in
  (s <| device := None |>, true).

Definition apply_vehicle_classification (s : Session) (c : VehicleClassification)
  : Session * bool :=
  let '(device', configured) :=
    match device s with
    | Some d => (fun r => (Some r.1, r.2)) (device_configure_vehicle_kind d (cl_kind c))
    | None => (None, true)
    end in
  let s := s <| device := device' |> in
  if negb configured then (s, false) else
  let s := if bool_decide (user_vehicle_classification s = Some c) then s
           else cancel_phone_drive s ConfigurationChanged in
  (s <| user_vehicle_classification := Some c |>, true).

Definition validate_vehicle_kind (s : Session) (token : ConnectionAttemptToken)
    (kind : VehicleKind) : option VehicleClassification :=
  if negb (is_current (connection s) token) then None else
  match s_readiness (snapshot (connection s)) with
  | Pending | Verified =>
      if match device s with
         | Some d => negb (bool_decide (protocol (identity d) = Vesc))
         | None => false
         end
      then None else user_provided kind
  | _ => None
  end.

Definition configure_vehicle_kind (s : Session) (token : ConnectionAttemptToken)
    (kind : VehicleKind) : Session * bool :=
  match validate_vehicle_kind s token kind with
  | Some c => apply_vehicle_classification s c
  | None => (s, false)
  end.

(** The end of [resolve]: [family], [model_known] and [probe_pending] are what
    the detector has established. *)
Definition resolve (s : Session) (token : ConnectionAttemptToken) (family : ProtocolFamilyState)
    (model_known probe_pending identification_complete : bool) (at_ : Z) : Session :=
  if negb (is_current (connection s) token)
     || negb (bool_decide (s_readiness (snapshot (connection s)) = Pending)) then s else
  let '(connection', expired) := expire (connection s) token at_ in
  let s := s <| connection := connection' |> in
  if expired then s else
  if negb model_known && probe_pending then s else
  match from_detection family with
  | Some d =>
      let d := match user_vehicle_classification s with
               | Some c => (device_configure_vehicle_kind d (cl_kind c)).1
               | None => d
               end in
      if identification_complete || model_known || bool_decide (protocol (identity d) = Vesc) then
        let '(connection', finished) := finish_detection (connection s) token true in
        let s := s <| connection := connection' |> in
        if finished then s <| device := Some d |> else s
      else s
  | None =>
      if identification_complete
      then s <| connection := (finish_detection (connection s) token false).1 |> else s
  end.

(** The end of [ingest_validated]: the decoder has become [engine'] and put out
    [outputs]. *)
Definition ingest (s : Session) (token : ConnectionAttemptToken) (received : option Z)
    (is_link_down : bool) (engine' : VescApplicationDiscovery * bool)
    (outputs : list SessionOutput) : Session :=
  if negb (is_verified (connection s) token) then s else
  let s := match received with
           | Some at_ => with_last_input s (Z.max (last_input_at s) at_)
           | None => s
           end in
  match device s with
  | None => s
  | Some d =>
      let identity_before := identity d in
      let d := d <| engine := match engine d with
                              | EngineVesc _ _ => EngineVesc engine'.1 engine'.2
                              | other => other
                              end |> in
      let identity_after := identity d in
      let s := observe_phone_drive_fault (s <| device := Some d |>) outputs in
      if is_link_down then cancel_phone_drive s ConnectionChanged
      else if negb (bool_decide (classification identity_before = classification identity_after))
              || negb (bool_decide (vesc_application identity_before
                                    = vesc_application identity_after))
      then cancel_phone_drive s ConfigurationChanged
      else s
  end.

(** ** The machine of the public methods *)

Inductive DriveCall :=
| DActivate (token : ConnectionAttemptToken) (generation : Z) (limits : PhoneDriveLimits) (at_ : Z)
| DObserve (token : ConnectionAttemptToken) (generation : Z) (contacts : PhoneDriveContacts)
    (observed_at at_ : Z)
| DTick (token : ConnectionAttemptToken) (at_ : Z) (can_submit : bool)
| DMark (token : ConnectionAttemptToken) (write : PhoneDriveWrite)
    (status : ApplicationQueryTransportStatus) (at_ : Z)
| DPreferences (token : ConnectionAttemptToken) (m : PhoneControlMode) (limits : PhoneDriveLimits)
| DPresented (token : ConnectionAttemptToken) (presented : bool)
| DCancel (reason : PhoneDriveCancelReason) (at_ : Z)
| DBegin (platform_identifier : string) (at_ : Z)
| DAdmitRetry (retry : ConnectionRetryToken) (at_ : Z)
| DDisconnect
| DLinkDown (token : ConnectionAttemptToken)
| DTransportFailed (token : ConnectionAttemptToken)
| DConflict (token : ConnectionAttemptToken)
| DConfigureKind (token : ConnectionAttemptToken) (kind : VehicleKind)
| DResolve (token : ConnectionAttemptToken) (family : ProtocolFamilyState)
    (model_known probe_pending identification_complete : bool) (at_ : Z)
| DIngest (token : ConnectionAttemptToken) (received : option Z) (is_link_down : bool)
    (engine' : VescApplicationDiscovery * bool) (outputs : list SessionOutput)
(** What other parts of the session do: the link comes up, a retry is asked for
    or given up, a settings operation starts or ends, a drivetrain is edited. *)
| DConnected (token : ConnectionAttemptToken)
| DRequestRetry (failed : ConnectionAttemptToken) (now jitter : Z)
| DCancelRetry (token : ConnectionRetryToken)
| DSettingOperations (busy : bool)
| DDrivetrainChanged.

Inductive DriveReply :=
| DActivated (r : result PhoneDriveActivationId PhoneDriveActivationError)
| DStep (writes : option DriveWrites)
| DBool (b : bool)
| DToken (token : option ConnectionAttemptToken)
| DUnit.

Definition on_connection (s : Session) (c : Call) : Session :=
  s <| connection := (step (connection s) c).1 |>.

Definition drive_step (s : Session) (c : DriveCall) : Session * DriveReply :=
  match c with
  | DActivate token generation limits at_ =>
      DActivated <$$> activate_phone_drive s token generation limits at_
  | DObserve token generation contacts observed_at at_ =>
      DStep <$$> observe_phone_drive_contacts_at s token generation contacts observed_at at_
  | DTick token at_ can_submit => DStep <$$> tick_phone_drive s token at_ can_submit
  | DMark token write status at_ => DBool <$$> mark_phone_drive_transport s token write status at_
  | DPreferences token m limits => DBool <$$> apply_phone_drive_preferences s token m limits
  | DPresented token presented => DBool <$$> set_phone_drive_settings_presented s token presented
  | DCancel reason at_ => (cancel_phone_drive_at s reason at_, DUnit)
  | DBegin platform_identifier at_ => (begin_attempt s platform_identifier at_, DUnit)
  | DAdmitRetry retry at_ => DToken <$$> session_admit_retry s retry at_
  | DDisconnect => (session_disconnect s, DUnit)
  | DLinkDown token => (session_link_down s token, DUnit)
  | DTransportFailed token => (session_transport_failed s token, DUnit)
  | DConflict token => DBool <$$> protocol_conflict s token
  | DConfigureKind token kind => DBool <$$> configure_vehicle_kind s token kind
  | DResolve token family model_known probe_pending identification_complete at_ =>
      (resolve s token family model_known probe_pending identification_complete at_, DUnit)
  | DIngest token received is_link_down engine' outputs =>
      (ingest s token received is_link_down engine' outputs, DUnit)
  | DConnected token => (on_connection s (CConnected token), DUnit)
  | DRequestRetry failed now jitter => (on_connection s (CRequestRetry failed now jitter), DUnit)
  | DCancelRetry token => (on_connection s (CCancelRetry token), DUnit)
  | DSettingOperations busy => (s <| setting_operations := busy |>, DUnit)
  | DDrivetrainChanged => (cancel_phone_drive s ConfigurationChanged, DUnit)
  end.
End Drive.

(** ** Executions of the repository's tests *)

(** A standard VESC board, chosen as a skateboard, with its preferences loaded. *)
Definition board : ConnectionAttemptToken :=
  {| generation := 1; platform_identifier := "board" |}.
Definition three_amps : PhoneDriveLimits :=
  {| throttle_milliamps := 3000; brake_milliamps := 2000 |}.
Definition board_ready : list DriveCall :=
  [ DBegin "board" 0; DConnected board; DConfigureKind board Eskate;
    DResolve board FamilyVesc false false true 10;
    DIngest board (Some 3000) false (Absent, false) [];
    DPreferences board Buttons three_amps ].
(** [active()]: activated at 3000, all contacts lifted. *)
Definition board_active : list DriveCall :=
  board_ready ++ [ DObserve board 6 Released 3000 3000; DActivate board 6 three_amps 3000;
                   DObserve board 7 Released 3000 3000 ].
Definition throttle_held : PhoneDriveContacts := Single 1 (Some Throttle).
Definition drive_outputs : list DriveCall -> list DriveReply :=
  run_outputs (drive_step sum_crc) default_session.

(** A press sends the throttle current; its next heartbeat sends nothing and the
    cadence repeats it; a navigation then leaves one neutral to send. *)
Example held_throttle :
  drop 9 (drive_outputs (board_active ++
    [ DObserve board 7 throttle_held 3001 3001;
      DMark board {| w_activation_id := 1; w_sequence := 1; w_generation := 7;
                     w_submit_before_ms := 3051; w_kind := Setpoint |} Submitted 3001;
      DObserve board 7 throttle_held 3040 3040; DTick board 3051 true; DCancel Navigation 3060;
      DTick board 3061 true ]))
  = [ DStep (Some [({| w_activation_id := 1; w_sequence := 1; w_generation := 7;
                       w_submit_before_ms := 3051; w_kind := Setpoint |},
                    [2; 5; 6; 0; 0; 11; 184; 0; 201; 3])]);
      DBool true; DStep (Some []);
      DStep (Some [({| w_activation_id := 1; w_sequence := 2; w_generation := 7;
                       w_submit_before_ms := 3101; w_kind := Setpoint |},
                    [2; 5; 6; 0; 0; 11; 184; 0; 201; 3])]);
      DUnit;
      DStep (Some [({| w_activation_id := 1; w_sequence := 3; w_generation := 8;
                       w_submit_before_ms := 3110; w_kind := Release |},
                    [2; 5; 6; 0; 0; 0; 0; 0; 6; 3])]) ].
Proof. reflexivity. Qed.
