(* ===== verification/PhoneDriveSafety.v ===== *)
(** * Phone control: what the motor can be told, and when

    Theorems on the machine of [PhoneDrive.v].  [keeps] is what the internal
    steps of a handler may do: they never grant authority, never hold a press
    and prepare nothing but a neutral.  [drive_ok] is the invariant of the
    session; the histories of the theorems are lists of calls from the initial
    session. *)

From S2P Require Import Readback.
From S2P Require Import Prelude.
From S2P Require Import PhoneDriveInput VescFrame ConnectionLifecycle VehicleIdentity PhoneDrive.

#[local] Abbreviation Session := DeviceConnectionSession.

Definition act_of (s : Session) : option Activation := activation (phone_drive_control s).
Definition pend (s : Session) : option PendingWrite := pending (phone_drive_control s).
Definition seq (s : Session) : Z := next_sequence (phone_drive_control s).
Definition ids (s : Session) : Z := next_activation (phone_drive_control s).
Definition phase (s : Session) : PhoneDriveInputPhase := snap_phase (snapshot_of s).
Definition gen_of (s : Session) : option Z := snap_generation (snapshot_of s).

(** A neutral that has not been sent. *)
Definition neutral (p : PendingWrite) : Prop :=
  w_kind (admission p) = Release /\ p_action p = None /\ p_milliamps p = 0.
Definition window_ok (p : PendingWrite) : Prop :=
  w_submit_before_ms (admission p) = issued_at p + SUBMISSION_WINDOW_MS.

(** ** Internal steps *)

Definition same_grant (act act' : Activation) : Prop :=
  act_id act' = act_id act /\ act_limits act' = act_limits act /\
  act_observed_at act' = act_observed_at act.

Definition writes_kept (s s' : Session) : Prop :=
  seq s' = seq s /\ (pend s' = pend s \/ pend s' = None).
Definition writes_neutral (s s' : Session) : Prop :=
  seq s < seq s' /\
  (pend s' = None \/
   exists p act, pend s' = Some p /\ act_of s = Some act /\ neutral p /\ window_ok p /\
     w_activation_id (admission p) = act_id act /\ w_sequence (admission p) = seq s' /\
     is_pressed (phase s') = false).

Record keeps (s s' : Session) : Prop := {
  k_connection : connection s' = connection s;
  k_device : device s' = device s;
  k_user : user_vehicle_classification s' = user_vehicle_classification s;
  k_ids : ids s' = ids s;
  k_activation : forall act', act_of s' = Some act' ->
    exists act, act_of s = Some act /\ same_grant act act';
  k_input : is_pressed (phase s') = true -> phone_drive_input s' = phone_drive_input s;
  k_writes : writes_kept s s' \/ writes_neutral s s';
}.

Lemma keeps_refl s : keeps s s.
Proof. split; try done; [|left; split; [done|by left]]. intros act Ha. by exists act. Qed.
Lemma keeps_trans s1 s2 s3 : keeps s1 s2 -> keeps s2 s3 -> keeps s1 s3.
Proof.
  intros [C1 D1 U1 I1 A1 P1 W1] [C2 D2 U2 I2 A2 P2 W2]. split; try congruence.
  - intros act (act2 & E2 & G2)%A2. apply A1 in E2 as (act1 & E1 & G1). exists act1.
    split; [done|]. destruct G1 as (?&?&?), G2 as (?&?&?). unfold same_grant. split_ands; congruence.
  - intros H. pose proof (P2 H) as E. rewrite E. apply P1. unfold phase, snapshot_of in *.
    by rewrite <- E.
  - unfold writes_kept, writes_neutral in *.
    destruct W1 as [[S1 Q1]|[S1 Q1]], W2 as [[S2 Q2]|[S2 Q2]].
    + left. split; [congruence|]. destruct Q2 as [->| ->]; [done|by right].
    + right. split; [congruence|]. destruct Q2 as [Q2|(p & act & Hp & Ha & R)]; [by left|right].
      apply A1 in Ha as (act1 & Ha & Hg & _). exists p, act1. destruct R as (?&?&?&?&?).
      split_ands; try done. congruence.
    + right. split; [congruence|]. destruct Q2 as [Q2|Q2]; [|by left]. rewrite Q2.
      destruct Q1 as [Q1|(p & act & Hp & Ha & R)]; [by left|right].
      exists p, act. destruct R as (?&?&?&?&Hn). split_ands; try done; [congruence|].
      destruct (is_pressed (phase s3)) eqn:E; [|done]. pose proof (P2 eq_refl) as Ei.
      unfold phase, snapshot_of in *. rewrite Ei in E. congruence.
    + right. split; [lia|]. destruct Q2 as [Q2|(p & act & Hp & Ha & R)]; [by left|right].
      apply A1 in Ha as (act1 & Ha & Hg & _). exists p, act1. destruct R as (?&?&?&?&?).
      split_ands; try done. congruence.
Qed.
#[export] Instance keeps_preorder : PreOrder keeps.
Proof. split; [exact keeps_refl|exact keeps_trans]. Qed.

Lemma cancelled_not_pressed i reason :
  is_pressed (snap_phase (input_snapshot (input_cancel i reason))) = false.
Proof.
  unfold input_cancel, input_snapshot. destruct i as [m [g ge|]]; simpl; [|done].
  by destruct (checked_add _ _ _).
Qed.

(** Updates of one field. *)
Create HintDb drive discriminated.
Ltac open_session s := destruct s as [? ? ? ? ? ? ? [? ? ? ? ?] ? ?].
Ltac keeps_field s :=
  open_session s; split; try done;
  [ try (intros ? ?; eexists; split; [eassumption|done]) .. |
    left; split; [done|first [by left|by right]] ].
Lemma keeps_input s i :
  is_pressed (snap_phase (input_snapshot i)) = false -> keeps s (with_input s i).
Proof.
  intros Hi. keeps_field s. unfold phase, snapshot_of. simpl.
  congruence.
Qed.
Lemma keeps_last_input s at_ : keeps s (with_last_input s at_).
Proof. keeps_field s. Qed.
Lemma keeps_no_pending s : keeps s (with_pending s None).
Proof. keeps_field s. Qed.
Lemma keeps_no_activation s : keeps s (with_activation s None).
Proof. keeps_field s. Qed.
Lemma keeps_cadence s act next :
  act_of s = Some act -> keeps s (with_activation s (Some (act <| act_next_setpoint_at := next |>))).
Proof.
  intros Ha. open_session s. split; try done; [|left; split; [done|by left]].
  intros act' [= <-]. exists act. split; [done|]. by destruct act.
Qed.
Lemma keeps_cancel_input s reason : keeps s (with_input s (input_cancel (phone_drive_input s) reason)).
Proof. apply keeps_input, cancelled_not_pressed. Qed.
#[export] Hint Resolve keeps_refl keeps_last_input keeps_no_pending keeps_no_activation
  keeps_cancel_input : drive.

(** ** The handlers' internal steps *)

Lemma exhausted_keeps s : keeps s (exhausted s).
Proof.
  unfold exhausted. etrans; [apply keeps_no_activation|]. etrans; [apply keeps_no_pending|].
  apply keeps_cancel_input.
Qed.
Lemma retire_release_keeps s : keeps s (retire_release s).
Proof. unfold retire_release. etrans; [apply keeps_no_activation|apply keeps_cancel_input]. Qed.

(** What [prepare_phone_drive_write] leaves: no authority at all, no change, or
    one new write. *)
Inductive prepared (s : Session) (action : option PhoneDriveAction) (milliamps at_ : Z)
  : Session -> Prop :=
| prepared_exhausted :
    u64_max < seq s + 1 \/ u64_max < at_ + SUBMISSION_WINDOW_MS ->
    prepared s action milliamps at_ (exhausted s)
| prepared_nothing :
    act_of s = None \/ gen_of s = None -> prepared s action milliamps at_ s
| prepared_write act generation s' :
    act_of s = Some act -> gen_of s = Some generation ->
    seq s + 1 <= u64_max -> at_ + SUBMISSION_WINDOW_MS <= u64_max ->
    connection s' = connection s -> device s' = device s ->
    user_vehicle_classification s' = user_vehicle_classification s ->
    last_input_at s' = last_input_at s -> preferences_token s' = preferences_token s ->
    settings_presented_for s' = settings_presented_for s ->
    ids s' = ids s -> phone_drive_input s' = phone_drive_input s -> seq s' = seq s + 1 ->
    pend s' = Some {| admission :=
                        {| w_activation_id := act_id act; w_sequence := seq s + 1;
                           w_generation := generation;
                           w_submit_before_ms := at_ + SUBMISSION_WINDOW_MS;
                           w_kind := match action with
                                     | Some _ => Setpoint
                                     | None => Release
                                     end |};
                      p_action := action; p_milliamps := milliamps; issued_at := at_;
                      emitted := false |} ->
    act_of s' = Some (act <| act_next_setpoint_at :=
                               action ≫= fun _ => checked_add u64_max at_ CADENCE_MS |>) ->
    prepared s action milliamps at_ s'.

Lemma prepare_cases s action milliamps at_ :
  prepared s action milliamps at_ (prepare_phone_drive_write s action milliamps at_).
Proof.
  unfold prepare_phone_drive_write. fold (act_of s).
  destruct (act_of s) as [act|] eqn:Ea; [|apply prepared_nothing; by left].
  fold (seq s). destruct (checked_add u64_max (seq s) 1) as [q|] eqn:Eq;
    [|apply checked_add_None in Eq; apply prepared_exhausted; by left].
  apply checked_add_Some in Eq as [Hq ->].
  destruct (checked_add u64_max at_ SUBMISSION_WINDOW_MS) as [d|] eqn:Ed;
    [|apply checked_add_None in Ed; apply prepared_exhausted; by right].
  apply checked_add_Some in Ed as [Hd ->].
  fold (gen_of s). destruct (gen_of s) as [g|] eqn:Eg; [|apply prepared_nothing; by right].
  apply (prepared_write _ _ _ _ act g); try done; by open_session s.
Qed.

Lemma prepare_neutral_keeps s at_ :
  is_pressed (phase s) = false -> keeps s (prepare_phone_drive_write s None 0 at_).
Proof.
  intros Hp. destruct (prepare_cases s None 0 at_)
    as [?|?|act g s' Ha Hg Hs Hd Ec Ev Eu El Ept Esp Ei Ep Eseq Epend Eact];
    [apply exhausted_keeps|done|].
  split; try done.
  - intros act' E. rewrite Eact in E. injection E as <-. exists act. split; [done|by destruct act].
  - right. split; [lia|]. right. eexists _, act. split_ands; [done..|].
    unfold phase, snapshot_of. by rewrite Ep.
Qed.

(** [ConnectionChanged] ends everything. *)
Lemma cancel_connection_spec s :
  let s' := cancel_phone_drive s ConnectionChanged in
  act_of s' = None /\ pend s' = None /\ keeps s s' /\ preferences_token s' = None /\
  mode (phone_drive_input s') = ModeDisabled.
Proof.
  assert (Hm : mode (input_cancel (set_mode (phone_drive_input s) ModeDisabled) ConnectionChanged)
               = ModeDisabled).
  { destruct s as [? [m e] ? ? ? ? ? ? ? ?]. unfold set_mode. simpl.
    case_bool_decide; [by subst|done]. }
  cbv zeta. pose proof (cancelled_not_pressed (set_mode (phone_drive_input s) ModeDisabled)
    ConnectionChanged) as Hp.
  unfold cancel_phone_drive. rewrite bool_decide_true by done.
  open_session s. split_ands; try done. split; try done; [|by left; split; [|right]].
  unfold phase, snapshot_of. simpl in *. congruence.
Qed.

Lemma cancel_keeps s reason : keeps s (cancel_phone_drive s reason).
Proof.
  destruct (decide (reason = ConnectionChanged)) as [->|Hr]; [apply cancel_connection_spec|].
  unfold cancel_phone_drive. rewrite bool_decide_false by done.
  etrans; [apply (keeps_cancel_input s reason)|].
  set (s1 := with_input s _).
  assert (Hp : is_pressed (phase s1) = false)
    by (unfold phase, snapshot_of, s1; open_session s; apply cancelled_not_pressed).
  clearbody s1. destruct (activation (phone_drive_control s1)); [|done].
  etrans.
  { instantiate (1 := if pending_release s1 then s1
      else prepare_phone_drive_write s1 None 0 (last_input_at s1)).
    destruct (pending_release s1); [done|by apply prepare_neutral_keeps]. }
  set (s2 := if pending_release s1 then _ else _). clearbody s2.
  destruct (gesture_local_cancel reason); [|apply keeps_no_activation].
  destruct (activation (phone_drive_control s2)) eqn:E; [by apply keeps_cadence|done].
Qed.
#[export] Hint Resolve cancel_keeps exhausted_keeps retire_release_keeps : drive.

Lemma advance_keeps s at_ : keeps s (advance_phone_drive_deadlines s at_).
Proof.
  unfold advance_phone_drive_deadlines.
  set (s1 := if is_pressed _ && _ && _ then _ else s).
  assert (H1 : keeps s s1).
  { unfold s1. destruct (is_pressed _ && _ && _); [|done].
    etrans; [apply keeps_last_input|apply cancel_keeps]. }
  clearbody s1. etrans; [exact H1|]. destruct (pending (phone_drive_control s1)) as [p|]; [|done].
  case_bool_decide; [|done].
  etrans; [apply keeps_no_pending|]. etrans; [apply keeps_last_input|].
  destruct (w_kind (admission p)); auto with drive.
Qed.

Lemma mark_keeps s token write status at_ :
  keeps s (mark_phone_drive_transport s token write status at_).1.
Proof.
  unfold mark_phone_drive_transport. destruct (_ || _ || _); [done|]. cbn [fst].
  destruct status; auto with drive;
    (etrans; [apply keeps_no_pending|]); destruct (w_kind write); auto with drive;
    (etrans; [apply keeps_last_input|apply cancel_keeps]).
Qed.

Lemma step_keeps s token at_ : keeps s (phone_drive_step s token at_).1.
Proof. unfold phone_drive_step. destruct (negb _); [done|apply keeps_last_input]. Qed.

Lemma fault_keeps s outputs : keeps s (observe_phone_drive_fault s outputs).
Proof.
  unfold observe_phone_drive_fault. revert s.
  induction outputs as [|o os IH]; intros s; [done|]. cbn [foldl].
  etrans; [|apply IH]. unfold observe_fault. destruct o as [fields|]; [|done].
  destruct (list_find _ fields) as [[? f]|]; [|done].
  set (s1 := s <| phone_drive_control := _ |>).
  assert (H1 : keeps s s1) by (unfold s1; keeps_field s).
  clearbody s1. destruct (negb _); [|done]. etrans; [exact H1|apply cancel_keeps].
Qed.

(** ** The invariant *)

Definition ready_of (s : Session) : ConnectionReadiness := s_readiness (snapshot (connection s)).
Definition has_authority (s : Session) : Prop := is_Some (act_of s) \/ is_Some (pend s).
(** The only vehicle phone control drives: a standard VESC skateboard. *)
Definition drivable (d : DeviceSession) : Prop :=
  vehicle_kind (identity d) = Eskate /\ vesc_application (identity d) = Some Absent.
Definition write_ok (s : Session) (p : PendingWrite) : Prop :=
  w_sequence (admission p) = seq s /\ w_activation_id (admission p) <= ids s /\ window_ok p /\
  (neutral p \/
   w_kind (admission p) = Setpoint /\ exists a, p_action p = Some a /\
     forall act, act_of s = Some act -> act_id act = w_activation_id (admission p) ->
       p_milliamps p = budget (act_limits act) a).
Definition user_choice_ok (s : Session) : Prop :=
  (forall c, user_vehicle_classification s = Some c -> user_provided (cl_kind c) = Some c) /\
  (forall d app busy, device s = Some d -> engine d = EngineVesc app busy ->
     user_classification d = user_vehicle_classification s).

Record core_ok (s : Session) : Prop := {
  ok_engine : forall d, device s = Some d -> engine_matches d;
  ok_user : user_choice_ok s;
  ok_authority : has_authority s ->
    ready_of s <> Pending /\
    (ready_of s = Verified -> exists d, device s = Some d /\ has_drive_step d = true /\
       (is_Some (act_of s) -> drivable d));
  ok_ids : forall act, act_of s = Some act -> act_id act <= ids s;
  ok_pending : forall p, pend s = Some p -> write_ok s p;
  ok_hold : is_pressed (phase s) = true ->
    mode (phone_drive_input s) <> ModeDisabled /\ pending_release s = false;
}.
(** Between calls no setpoint is waiting to be emitted. *)
Definition no_setpoint_waiting (s : Session) : Prop :=
  forall p, pend s = Some p -> w_kind (admission p) = Setpoint -> emitted p = true.
Definition drive_ok (s : Session) : Prop := core_ok s /\ no_setpoint_waiting s.

Lemma pending_release_pend s s' : pend s' = pend s -> pending_release s' = pending_release s.
Proof. unfold pending_release, pend. by intros ->. Qed.

Lemma keeps_authority s s' :
  keeps s s' -> (is_Some (act_of s') -> is_Some (act_of s)) /\
                (has_authority s' -> has_authority s).
Proof.
  intros K. assert (Ha : is_Some (act_of s') -> is_Some (act_of s)).
  { intros [act E]. apply (k_activation _ _ K) in E as (act0 & -> & _). done. }
  split; [done|]. intros [H|[p H]]; [left; auto|].
  destruct (k_writes _ _ K) as [[_ [E|E]]|[_ [E|(q & act & Hq & Hact & _)]]]; rewrite H in *;
    try done; [right; rewrite <- E; done|left; by rewrite Hact].
Qed.

Lemma keeps_core s s' : keeps s s' -> core_ok s -> core_ok s'.
Proof.
  intros K [E U A I W H]. pose proof (keeps_authority _ _ K) as [Ka Kh].
  destruct K as [Kc Kd Ku Ki Kact Kin Kw]. split.
  - by rewrite Kd.
  - unfold user_choice_ok. by rewrite Ku, Kd.
  - intros Hs'. unfold ready_of in *. rewrite Kc, Kd. destruct (A (Kh Hs')) as [A1 A2].
    split; [done|]. intros Hv. destruct (A2 Hv) as (d & ? & ? & Hd). exists d. auto.
  - intros act' (act & Hact & Hg & _)%Kact. rewrite Ki, Hg. auto.
  - intros p Hp. destruct Kw as [[Kseq [Kp|Kp]]|[Kseq [Kp|(q & act & Hq & Hact & Hn & Hw & Hid & Hs & _)]]];
      try congruence.
    + rewrite Kp in Hp. destruct (W p Hp) as (W1 & W2 & W3 & W4). unfold write_ok.
      rewrite Kseq, Ki. split_ands; try done. destruct W4 as [W4|(Wk & a & Wa & Wb)]; [by left|].
      right. split; [done|]. exists a. split; [done|]. intros act' Hact' Hid.
      apply Kact in Hact' as (act & Hact & Hid' & Hl & _). rewrite Hl. apply Wb; congruence.
    + assert (q = p) as -> by congruence. unfold write_ok. rewrite Ki, Hid.
      split_ands; try done; [by apply I|by left].
  - intros Hp. pose proof (Kin Hp) as Ei. rewrite Ei.
    destruct H as [H1 H2]; [unfold phase, snapshot_of in *; by rewrite <- Ei|]. split; [done|].
    destruct Kw as [[_ [Kp|Kp]]|[_ [Kp|(q & act & _ & _ & _ & _ & _ & _ & Hn)]]].
    + by rewrite (pending_release_pend _ _ Kp).
    + unfold pending_release. fold (pend s'). by rewrite Kp.
    + unfold pending_release. fold (pend s'). by rewrite Kp.
    + congruence.
Qed.

Lemma keeps_waiting s s' : keeps s s' -> no_setpoint_waiting s -> no_setpoint_waiting s'.
Proof.
  intros K H p Hp Hk. destruct (k_writes _ _ K) as [[_ [E|E]]|[_ [E|(q & act & Hq & _ & Hn & _)]]].
  - apply H; [congruence|done].
  - congruence.
  - congruence.
  - assert (q = p) as -> by congruence. destruct Hn. congruence.
Qed.
Lemma keeps_ok s s' : keeps s s' -> drive_ok s -> drive_ok s'.
Proof. intros K [H1 H2]. split; [by eapply keeps_core|by eapply keeps_waiting]. Qed.

(** ** Emission *)

(** A setpoint goes out only under the activation it was prepared for. *)
Definition issued_under (s : Session) (p : PendingWrite) : Prop :=
  w_kind (admission p) = Setpoint ->
  exists act, act_of s = Some act /\ act_id act = w_activation_id (admission p).
(** What one call may put out: nothing, or the write now pending. *)
Definition emission (vesc_crc16 : list Z -> Z) (s' : Session) (writes : option DriveWrites) : Prop :=
  default [] writes = [] \/
  exists p bytes, pend s' = Some p /\ emitted p = true /\
    encode_phone_drive_current vesc_crc16 (p_action p) (p_milliamps p) = Some bytes /\
    writes = Some [(admission p, bytes)] /\ issued_under s' p.

Section Emission.
Context (vesc_crc16 : list Z -> Z).

(** Marking the pending write as emitted. *)
Lemma emitted_core s p :
  core_ok s -> pend s = Some p -> core_ok (with_pending s (Some (p <| emitted := true |>))).
Proof.
  intros [E U A I W H] Hp. destruct (W p Hp) as (W1 & W2 & W3 & W4).
  unfold pend, act_of, has_authority, user_choice_ok, ready_of, ids, seq, pending_release, phase,
    snapshot_of in *.
  destruct p as [w a m i e]. open_session s. simpl in *. subst. split; simpl; try done.
  - intros _. apply A. right. by eexists.
  - intros p [= <-]. by unfold write_ok, seq, ids.
Qed.
Lemma append_ok s at_ can_submit :
  core_ok s -> (forall p, pend s = Some p -> emitted p = false -> issued_under s p) ->
  let r := append_phone_drive_write vesc_crc16 s at_ can_submit in
  core_ok r.1 /\ emission vesc_crc16 r.1 (Some r.2).
Proof.
  intros Hs Hu. cbv zeta. unfold append_phone_drive_write. fold (pend s).
  destruct (pend s) as [p|] eqn:Ep; [|split; [done|by left]].
  destruct (emitted p || negb can_submit || _) eqn:Eg; [split; [done|by left]|].
  apply orb_false_iff in Eg as [Eg _]. apply orb_false_iff in Eg as [Eg _].
  specialize (Hu p eq_refl Eg).
  destruct (encode_phone_drive_current _ _ _) as [bytes|] eqn:Eb.
  - split; [by apply emitted_core|]. right. exists (p <| emitted := true |>), bytes.
    unfold issued_under, act_of, pend in *. destruct p. open_session s. split_ands; done.
  - cbn [fst snd]. split; [|by left]. eapply keeps_core; [|exact Hs].
    etrans; [apply keeps_no_activation|]. etrans; [apply keeps_no_pending|].
    apply keeps_cancel_input.
Qed.

(** ** Grants and order *)

(** Nothing is granted and no press begins. *)
Definition grant_kept (s s' : Session) : Prop :=
  (forall act', act_of s' = Some act' -> exists act, act_of s = Some act /\ same_grant act act') /\
  (is_pressed (phase s') = true -> phone_drive_input s' = phone_drive_input s).
Lemma keeps_grant s s' : keeps s s' -> grant_kept s s'.
Proof. intros K. split; [apply K|apply K]. Qed.
Lemma phase_of_input s s' : phone_drive_input s' = phone_drive_input s -> phase s' = phase s.
Proof. unfold phase, snapshot_of. by intros ->. Qed.
Lemma grant_trans s1 s2 s3 : grant_kept s1 s2 -> grant_kept s2 s3 -> grant_kept s1 s3.
Proof.
  intros [A1 P1] [A2 P2]. split.
  - intros act (act2 & E2 & (?&?&?))%A2. apply A1 in E2 as (act1 & E1 & (?&?&?)). exists act1.
    split; [done|]. unfold same_grant. split_ands; congruence.
  - intros H. rewrite (P2 H). apply P1. by rewrite <- (phase_of_input _ _ (P2 H)).
Qed.

Definition waiting (s : Session) : Prop := exists p, pend s = Some p /\ emitted p = false.
(** Writes go out in the order of their sequence numbers, each one once. *)
Definition ordered (s s' : Session) (writes : DriveWrites) : Prop :=
  seq s <= seq s' /\
  (waiting s' -> seq s < seq s' \/ waiting s) /\
  (writes <> [] -> ~ waiting s' /\ (seq s < seq s' \/ waiting s)).
Lemma keeps_ordered s s' : keeps s s' -> ordered s s' [].
Proof.
  intros K. unfold ordered. split_ands; [| |done].
  - destruct (k_writes _ _ K) as [[? _]|[? _]]; lia.
  - intros (p & Hp & He). destruct (k_writes _ _ K) as [[_ [E|E]]|[? _]]; [|congruence|by left].
    right. exists p. split; [congruence|done].
Qed.
Lemma ordered_trans s1 s2 s3 writes :
  ordered s1 s2 [] -> ordered s2 s3 writes -> ordered s1 s3 writes.
Proof.
  intros (S1 & W1 & _) (S2 & W2 & O2). unfold ordered. split_ands; [lia| |].
  - intros [?|?%W1]%W2; [left; lia|]. destruct H; [left; lia|by right].
  - intros [H1 H2]%O2. split; [done|]. destruct H2 as [?|?%W1]; [left; lia|].
    destruct H; [left; lia|by right].
Qed.

(** The state between the parts of a handler: a setpoint in it was prepared
    right now, to be sent. *)
Definition setpoint_ready (s : Session) (at_ : Z) (can_submit : bool) : Prop :=
  forall p, pend s = Some p -> w_kind (admission p) = Setpoint -> emitted p = false ->
    issued_at p = at_ /\ can_submit = true /\ issued_under s p.
Lemma waiting_ready s at_ can_submit : no_setpoint_waiting s -> setpoint_ready s at_ can_submit.
Proof. intros H p Hp Hk He. specialize (H p Hp Hk). congruence. Qed.

Lemma prepare_setpoint s act action at_ :
  core_ok s -> no_setpoint_waiting s -> act_of s = Some act -> phase s = PhasePressed action ->
  let s' := prepare_phone_drive_write s (Some action) (budget (act_limits act) action) at_ in
  core_ok s' /\ grant_kept s s' /\ ordered s s' [] /\ connection s' = connection s /\
  setpoint_ready s' at_ true.
Proof.
  intros Hs Hn Ha Hp. cbv zeta. set (s' := prepare_phone_drive_write _ _ _ _).
  destruct (prepare_cases s (Some action) (budget (act_limits act) action) at_)
    as [?|?|act' g s2 Ha' Hg Hs1 Hd Ec Ev Eu El Ept Esp Ei Ep Eseq Epend Eact]; subst s'.
  - pose proof (exhausted_keeps s) as K. split_ands; [by eapply keeps_core|by apply keeps_grant|
      by apply keeps_ordered|apply K|]. apply waiting_ready. by eapply keeps_waiting.
  - split_ands; [done|by apply keeps_grant|by apply keeps_ordered|done|by apply waiting_ready].
  - assert (act' = act) as -> by congruence.
    destruct Hs as [E U A I W H]. split_ands; [|split|unfold ordered; split_ands; [lia|intros _; left; lia|done]|done|].
    + split.
      * by rewrite Ev.
      * unfold user_choice_ok. by rewrite Eu, Ev.
      * intros _. unfold ready_of. rewrite Ec, Ev. destruct A as [A1 A2]; [left; by rewrite Ha|].
        split; [done|]. intros Hv. destruct (A2 Hv) as (d & ? & ? & Hdr). exists d.
        split_ands; [done|done|]. intros _. apply Hdr. by rewrite Ha.
      * intros a. rewrite Eact, Ei. intros [= <-]. destruct act. by apply (I _ Ha).
      * intros p. rewrite Epend. intros [= <-]. unfold write_ok. cbn [admission].
        rewrite Ei, Eseq. split_ands; [done|by apply (I _ Ha)|done|]. right. split; [done|].
        exists action. split; [done|]. rewrite Eact. intros a [= <-] _. by destruct act.
      * intros Hp'. rewrite (phase_of_input _ _ Ep) in Hp'. rewrite Ep. split; [by apply H|].
        unfold pending_release. fold (pend s2). by rewrite Epend.
    + intros a. rewrite Eact. intros [= <-]. exists act. split; [done|by destruct act].
    + by intros _.
    + intros p. rewrite Epend. intros [= <-] _ _. split_ands; [done|done|]. intros _.
      rewrite Eact. eexists. split; [done|by destruct act].
Qed.

Lemma phone_drive_step_verified s token at_ :
  is_verified (connection s) token = true ->
  phone_drive_step s token at_
  = (with_last_input s (Z.max (last_input_at s) at_),
     match device s with Some d => has_drive_step d | None => false end).
Proof. intros Hv. unfold phone_drive_step. rewrite Hv. by open_session s. Qed.

Lemma is_verified_ready s token :
  is_verified (connection s) token = true -> ready_of s = Verified.
Proof. intros H%is_verified_true. apply H. Qed.

Lemma append_grant s at_ can_submit :
  let r := append_phone_drive_write vesc_crc16 s at_ can_submit in
  grant_kept s r.1 /\ ordered s r.1 r.2 /\
  (setpoint_ready s at_ can_submit ->
   (forall p, pend s = Some p -> window_ok p) -> no_setpoint_waiting r.1).
Proof.
  cbv zeta. unfold append_phone_drive_write. fold (pend s).
  destruct (pend s) as [p|] eqn:Ep.
  2:{ split_ands; [by apply keeps_grant|by apply keeps_ordered|].
      intros _ _ q Hq. cbn [fst] in Hq. congruence. }
  destruct (emitted p || negb can_submit || _) eqn:Eg.
  - split_ands; [by apply keeps_grant|by apply keeps_ordered|].
    intros Hr Hw q Hq Hk. cbn [fst] in Hq. assert (q = p) as -> by congruence.
    destruct (emitted p) eqn:Ee; [done|]. destruct (Hr p Hq Hk Ee) as (Hi & -> & _).
    simpl in Eg. apply bool_decide_eq_true in Eg. pose proof (Hw p eq_refl) as Hwp.
    unfold window_ok, SUBMISSION_WINDOW_MS in Hwp. lia.
  - apply orb_false_iff in Eg as [Eg _]. apply orb_false_iff in Eg as [Eg _].
    destruct (encode_phone_drive_current _ _ _) as [bytes|].
    + unfold pend, act_of, waiting, ordered, grant_kept, phase, snapshot_of, seq in *.
      destruct p. open_session s. simpl in *. split_ands; simpl.
      * intros a Ha. by exists a.
      * done.
      * lia.
      * intros (q & [= <-] & ?). done.
      * intros _. split; [intros (q & [= <-] & ?); done|]. right. by eexists.
      * intros _ _ q [= <-]. done.
    + assert (K : keeps s (with_input (with_pending (with_activation s None) None)
          (input_cancel (phone_drive_input (with_pending (with_activation s None) None))
             TransportUnavailable))).
      { etrans; [apply keeps_no_activation|]. etrans; [apply keeps_no_pending|].
        apply keeps_cancel_input. }
      cbn [fst snd]. split_ands; [by apply keeps_grant|by apply keeps_ordered|].
      intros _ _ q Hq. by open_session s.
Qed.

Lemma finish_ok s token at_ can_submit :
  core_ok s -> is_verified (connection s) token = true -> setpoint_ready s at_ can_submit ->
  let r := finish_step vesc_crc16 s token at_ can_submit in
  drive_ok r.1 /\ grant_kept s r.1 /\ ordered s r.1 (default [] r.2) /\ emission vesc_crc16 r.1 r.2.
Proof.
  intros Hs Hv Hr. cbv zeta. unfold finish_step. rewrite phone_drive_step_verified by done.
  set (s1 := with_last_input s _). pose proof (keeps_last_input s (Z.max (last_input_at s) at_)) as K.
  fold s1 in K. pose proof (keeps_core _ _ K Hs) as Hs1.
  assert (Ep : pend s1 = pend s) by (unfold s1, pend; by open_session s).
  assert (Hr1 : setpoint_ready s1 at_ can_submit).
  { intros p. unfold issued_under. rewrite Ep. replace (act_of s1) with (act_of s)
      by (unfold s1, act_of; by open_session s). apply Hr. }
  destruct (match device s with Some d => has_drive_step d | None => false end) eqn:Ed.
  - destruct (append_ok s1 at_ can_submit Hs1) as [Hc He].
    { intros p Hp He Hk. by apply (Hr1 p Hp Hk He). }
    destruct (append_grant s1 at_ can_submit) as (Hg & Ho & Hn).
    unfold relabel. cbn [fst snd default]. split_ands.
    + split; [done|]. apply Hn; [done|]. intros p Hp. by apply (ok_pending _ Hs1).
    + eapply grant_trans; [by apply keeps_grant|done].
    + eapply ordered_trans; [by apply keeps_ordered|done].
    + done.
  - cbn [fst snd default]. split_ands; [|by apply keeps_grant|by apply keeps_ordered|by left].
    split; [done|]. intros p Hp Hk. exfalso. rewrite Ep in Hp.
    destruct (ok_authority _ Hs) as [_ HA]; [right; by rewrite Hp|].
    destruct (HA (is_verified_ready _ _ Hv)) as (d & Hd & Hstep & _). rewrite Hd in Ed. congruence.
Qed.

Lemma tick_ok s token at_ can_submit :
  drive_ok s ->
  let r := tick_phone_drive vesc_crc16 s token at_ can_submit in
  drive_ok r.1 /\ grant_kept s r.1 /\ ordered s r.1 (default [] r.2) /\ emission vesc_crc16 r.1 r.2.
Proof.
  intros Hs. cbv zeta. unfold tick_phone_drive.
  destruct (is_verified (connection s) token) eqn:Hv; cbn [negb].
  2:{ split_ands; [done|by apply keeps_grant|by apply keeps_ordered|by left]. }
  set (s0 := if bool_decide (at_ < last_input_at s) then _ else s).
  assert (K0 : keeps s s0) by (unfold s0; case_bool_decide; auto with drive).
  generalize dependent s0. intros s0 K0. set (at1 := Z.max at_ (last_input_at s0)). clearbody at1.
  set (s1 := advance_phone_drive_deadlines s0 at1).
  assert (K : keeps s s1) by (etrans; [exact K0|apply advance_keeps]). clearbody s1.
  destruct (keeps_ok _ _ K Hs) as [Hc Hn].
  assert (Hv1 : is_verified (connection s1) token = true) by (by rewrite (k_connection _ _ K)).
  assert (Hplain : let r := finish_step vesc_crc16 s1 token at1 can_submit in
    drive_ok r.1 /\ grant_kept s r.1 /\ ordered s r.1 (default [] r.2) /\ emission vesc_crc16 r.1 r.2).
  { cbv zeta. destruct (finish_ok s1 token at1 can_submit Hc Hv1 (waiting_ready _ _ _ Hn))
      as (?&?&?&?). split_ands; [done| |
      |done]; [eapply grant_trans; [by apply keeps_grant|done]|
              eapply ordered_trans; [by apply keeps_ordered|done]]. }
  destruct can_submit; cbn [andb]; [|done].
  destruct (bool_decide (pending (phone_drive_control s1) = None)); [|done].
  fold (act_of s1) (phase s1).
  destruct (act_of s1) as [act|] eqn:Ea; [|done].
  destruct (phase s1) as [|action|] eqn:Eph; [done| |done].
  destruct (match act_next_setpoint_at act with Some due => _ | None => false end); [|done].
  destruct (prepare_setpoint s1 act action at1 Hc Hn Ea Eph) as (Hc2 & Hg2 & Ho2 & Ec2 & Hr2).
  set (s2 := prepare_phone_drive_write _ _ _ _) in *. clearbody s2.
  destruct (finish_ok s2 token at1 true Hc2 ltac:(by rewrite Ec2) Hr2) as (?&?&?&?).
  split_ands; [done| | |done].
  - eapply grant_trans; [by apply keeps_grant|]. by eapply grant_trans.
  - eapply ordered_trans; [by apply keeps_ordered|]. by eapply ordered_trans.
Qed.

(** ** Contacts *)

Lemma core_change s s' :
  connection s' = connection s -> device s' = device s ->
  user_vehicle_classification s' = user_vehicle_classification s ->
  ids s' = ids s -> seq s' = seq s -> pend s' = pend s ->
  (forall act', act_of s' = Some act' -> exists act, act_of s = Some act /\
     act_id act' = act_id act /\ act_limits act' = act_limits act) ->
  (is_pressed (phase s') = true ->
     mode (phone_drive_input s') <> ModeDisabled /\ pending_release s = false) ->
  core_ok s -> core_ok s'.
Proof.
  intros Ec Ed Eu Ei Es Ep Hact Hh [E U A I W H]. split.
  - by rewrite Ed.
  - unfold user_choice_ok. by rewrite Eu, Ed.
  - intros Ha. unfold ready_of. rewrite Ec, Ed.
    assert (Himp : is_Some (act_of s') -> is_Some (act_of s))
      by (intros [a Ha']; apply Hact in Ha' as (? & -> & _); done).
    destruct A as [A1 A2].
    { destruct Ha as [Ha|Ha]; [left; auto|right; by rewrite <- Ep]. }
    split; [done|]. intros Hv. destruct (A2 Hv) as (d & ? & ? & ?). exists d. auto.
  - intros act' (act & Ha & -> & _)%Hact. rewrite Ei. auto.
  - intros p Hp. rewrite Ep in Hp. destruct (W p Hp) as (W1 & W2 & W3 & W4). unfold write_ok.
    rewrite Ei, Es. split_ands; try done. destruct W4 as [?|(? & a & ? & Hb)]; [by left|right].
    split; [done|]. exists a. split; [done|]. intros act' (act & Ha & Hi & ->)%Hact Hid.
    apply Hb; congruence.
  - intros Hp. destruct (Hh Hp). split; [done|]. by rewrite (pending_release_pend _ _ Ep).
Qed.
(** A change that leaves the writes alone. *)
Lemma writes_same s s' :
  seq s' = seq s -> pend s' = pend s ->
  (no_setpoint_waiting s -> no_setpoint_waiting s') /\ ordered s s' [].
Proof.
  intros Es Ep. unfold no_setpoint_waiting, ordered, waiting. rewrite Es, Ep.
  split_ands; [done|lia|by right|done].
Qed.

Lemma set_observed s act o :
  act_of s = Some act -> core_ok s -> no_setpoint_waiting s ->
  let s' := with_activation s (Some (act <| act_observed_at := Some o |>)) in
  core_ok s' /\ no_setpoint_waiting s' /\ ordered s s' [] /\ connection s' = connection s /\
  phone_drive_input s' = phone_drive_input s /\
  act_of s' = Some (act <| act_observed_at := Some o |>).
Proof.
  intros Ha Hc Hn. cbv zeta. set (s' := with_activation s _).
  assert (Ea : act_of s' = Some (act <| act_observed_at := Some o |>)) by by open_session s.
  assert (Ei : phone_drive_input s' = phone_drive_input s) by by open_session s.
  destruct (writes_same s s') as [W1 W2]; [by open_session s..|].
  split_ands; [|auto|done|by open_session s|done|done].
  apply (core_change s); [by open_session s..| | |done].
  - intros act'. rewrite Ea. intros [= <-]. exists act. by destruct act.
  - intros Hp. rewrite (phase_of_input _ _ Ei) in Hp. rewrite Ei. by apply (ok_hold _ Hc).
Qed.

Lemma input_core s i :
  core_ok s ->
  (is_pressed (snap_phase (input_snapshot i)) = true ->
     mode i <> ModeDisabled /\ pending_release s = false) ->
  core_ok (with_input s i).
Proof.
  intros Hc Hi. apply (core_change s); [by open_session s..| | |done].
  - intros act Ha. exists act. split; [by open_session s|done].
  - unfold phase, snapshot_of. by open_session s.
Qed.
Lemma input_same s i :
  no_setpoint_waiting s ->
  no_setpoint_waiting (with_input s i) /\ ordered s (with_input s i) [] /\
  connection (with_input s i) = connection s /\ act_of (with_input s i) = act_of s /\
  device (with_input s i) = device s.
Proof.
  intros Hn. destruct (writes_same s (with_input s i)) as [W1 W2]; [by open_session s..|].
  split_ands; [auto|done|by open_session s..].
Qed.

(** What a call to [contact_writes] leaves. *)
Definition contact_result (s s' : Session) (observed_at at_ : Z) : Prop :=
  core_ok s' /\ ordered s s' [] /\ connection s' = connection s /\ setpoint_ready s' at_ true /\
  (forall act', act_of s' = Some act' -> exists act, act_of s = Some act /\
     act_id act' = act_id act /\ act_limits act' = act_limits act /\
     act_observed_at act' = Some observed_at) /\
  (is_pressed (phase s') = true -> phone_drive_input s' = phone_drive_input s).

Lemma contact_writes_ok s before observed_at at_ :
  core_ok s -> no_setpoint_waiting s ->
  contact_result s (contact_writes s before (phase s) observed_at at_) observed_at at_.
Proof.
  intros Hc Hn. unfold contact_writes. fold (act_of s).
  destruct (act_of s) as [act|] eqn:Ea.
  2:{ unfold contact_result. split_ands; try done; [by apply keeps_ordered|by apply waiting_ready|].
      intros act' Hact'. congruence. }
  destruct (set_observed s act observed_at Ea Hc Hn) as (Hc1 & Hn1 & Ho1 & Ec1 & Ei1 & Ea1).
  set (act1 := act <| act_observed_at := Some observed_at |>) in *.
  assert (Hact1 : act_id act1 = act_id act /\ act_limits act1 = act_limits act /\
    act_observed_at act1 = Some observed_at) by (unfold act1; by destruct act).
  set (s1 := with_activation s (Some act1)) in *.
  assert (Hstep : forall s2, core_ok s2 -> ordered s1 s2 [] -> connection s2 = connection s1 ->
    setpoint_ready s2 at_ true -> grant_kept s1 s2 -> contact_result s s2 observed_at at_).
  { intros s2 Hc2 Ho2 Ec2 Hr2 [Hg2 Hp2]. unfold contact_result. split_ands; try done.
    - by eapply ordered_trans.
    - congruence.
    - intros act' (a & E & (?&?&?))%Hg2. rewrite Ea1 in E. injection E as <-.
      exists act. destruct Hact1 as (?&?&?). split_ands; congruence.
    - intros Hp. rewrite (Hp2 Hp). done. }
  assert (Hkeep : forall s2, keeps s1 s2 -> contact_result s s2 observed_at at_).
  { intros s2 K. destruct (keeps_ok _ _ K (conj Hc1 Hn1)) as [Hc2 Hn2].
    apply Hstep; [done|by apply keeps_ordered|apply K|by apply waiting_ready|by apply keeps_grant]. }
  assert (Hidle : forall a, with_activation s (Some (a <| act_next_setpoint_at := None |>))
    = with_activation (with_activation s (Some a)) (Some (a <| act_next_setpoint_at := None |>)))
    by (intros a; by open_session s).
  destruct (phase s) as [|action|reason] eqn:Ep.
  - rewrite Hidle. fold s1. set (s2 := with_activation s1 _).
    assert (K : keeps s1 s2) by (by apply keeps_cadence).
    assert (Hp2 : is_pressed (phase s2) = false).
    { rewrite (phase_of_input s s2), Ep; [done|]. unfold s2, s1. by open_session s. }
    clearbody s2. apply Hkeep. etrans; [exact K|].
    destruct (is_pressed before); [by apply prepare_neutral_keeps|done].
  - case_bool_decide; [by apply Hkeep|]. fold act1 in Hact1 |- *.
    assert (Ep1 : phase s1 = PhasePressed action) by (by rewrite (phase_of_input s s1)).
    destruct (prepare_setpoint s1 act1 action at_ Hc1 Hn1 Ea1 Ep1) as (?&?&?&?&?). by apply Hstep.
  - rewrite Hidle. fold s1. set (s2 := with_activation s1 _).
    assert (K : keeps s1 s2) by (by apply keeps_cadence).
    assert (Hp2 : is_pressed (phase s2) = false).
    { rewrite (phase_of_input s s2), Ep; [done|]. unfold s2, s1. by open_session s. }
    clearbody s2. apply Hkeep. etrans; [exact K|].
    case_bool_decide; [done|]. destruct (gesture_local_cancel reason); [|apply cancel_keeps].
    destruct (pending_release s2); [done|by apply prepare_neutral_keeps].
Qed.

Lemma available s token :
  core_ok s -> is_verified (connection s) token = true -> is_Some (act_of s) ->
  is_unavailable (phone_drive_availability s) = false.
Proof.
  intros Hs Hv Ha. pose proof (proj1 (is_verified_true _ _) Hv) as (Ht & _).
  destruct (ok_authority _ Hs (or_introl Ha)) as [_ H].
  destruct (H (is_verified_ready _ _ Hv)) as (d & Hd & Hstep & Hdr).
  destruct (Hdr Ha) as [Hk Happ]. pose proof (ok_engine _ Hs d Hd) as He.
  unfold phone_drive_availability. unfold current in Ht. rewrite Ht, Hv, Hd.
  cbn [negb fmap option_fmap option_map].
  rewrite (bool_decide_true (protocol (identity d) = Vesc)).
  2:{ clear -He Hstep. unfold engine_matches, identity, has_drive_step in *.
      destruct d as [[] e u]; simpl in *. destruct e as [| |app ?]; try done.
      destruct app; [done|done|by destruct u]. }
  rewrite (bool_decide_true (vehicle_kind _ = Eskate)), (bool_decide_true (_ = Some Absent)) by done.
  simpl. by destruct (phone_drive_activation s).
Qed.

Lemma input_observe_spec i g c :
  snap_generation (input_snapshot i) = Some g ->
  let j := input_observe i g c in
  mode j = mode i /\ snap_generation (input_snapshot j) = Some g /\
  (mode i = ModeDisabled /\ j = i \/
   exists gesture, epoch i = EpochCurrent g gesture /\
     snap_phase (input_snapshot j) = gesture_phase (gesture_observe gesture c)).
Proof.
  destruct i as [m [g' ge|]]; cbn; [|done]. intros [= ->]. unfold input_observe. cbn [mode epoch].
  case_bool_decide; [split_ands; auto|]. rewrite bool_decide_true by done. simpl.
  split_ands; [done|done|right]. by exists ge.
Qed.
Lemma gesture_pressed_single g c a :
  gesture_phase (gesture_observe g c) = PhasePressed a -> exists k, c = Single k (Some a).
Proof.
  destruct g, c as [| |k [a'|]|]; simpl; repeat case_bool_decide; simpl; try done;
    intros [= <-]; simplify_eq; eauto.
Qed.
Lemma gesture_invalid_not_pressed g : is_pressed (gesture_phase (gesture_observe g Invalid)) = false.
Proof. by destruct g. Qed.

Definition contacts_input (s : Session) (g : Z) (contacts : PhoneDriveContacts)
  : PhoneDriveInputState :=
  let i := if is_unavailable (phone_drive_availability s) then phone_drive_input s
           else input_observe (phone_drive_input s) g contacts in
  if is_pressed (snap_phase (input_snapshot i)) && pending_release s
  then input_observe i g Invalid else i.
Lemma observe_contacts_input s g contacts :
  observe_contacts s g contacts = with_input s (contacts_input s g contacts).
Proof.
  unfold observe_contacts, contacts_input.
  destruct (is_unavailable _); open_session s; unfold snapshot_of, pending_release, with_input; simpl;
    by destruct (is_pressed _ && _).
Qed.

(** A press in the new input was seen in this observation, or nothing is driven. *)
Lemma contacts_input_ok s g contacts :
  core_ok s -> gen_of s = Some g ->
  let i := contacts_input s g contacts in
  snap_generation (input_snapshot i) = Some g /\
  forall a, snap_phase (input_snapshot i) = PhasePressed a ->
    mode i <> ModeDisabled /\ pending_release s = false /\
    (is_unavailable (phone_drive_availability s) = true \/ exists k, contacts = Single k (Some a)).
Proof.
  intros Hc Hg. cbv zeta. unfold gen_of, snapshot_of in Hg.
  assert (Hhold : forall a, snap_phase (input_snapshot (phone_drive_input s)) = PhasePressed a ->
    mode (phone_drive_input s) <> ModeDisabled).
  { intros a Hp. apply (ok_hold _ Hc). unfold phase, snapshot_of. by rewrite Hp. }
  pose proof (input_observe_spec _ g contacts Hg) as (Hm & Hg1 & Hj).
  unfold contacts_input. set (i1 := if is_unavailable _ then _ else _).
  assert (Hi1 : snap_generation (input_snapshot i1) = Some g /\
    forall a, snap_phase (input_snapshot i1) = PhasePressed a -> mode i1 <> ModeDisabled /\
      (is_unavailable (phone_drive_availability s) = true \/ exists k, contacts = Single k (Some a))).
  { unfold i1. destruct (is_unavailable _); (split; [assumption|]); intros a Hp.
    - split; [by eapply Hhold|by left].
    - rewrite Hm. destruct Hj as [[Hd Ej]|(ge & He & Hph)].
      + rewrite Ej in Hp. by destruct (Hhold a Hp).
      + split; [|right; rewrite Hph in Hp; by eapply gesture_pressed_single].
        intros Hd. assert (Ej : input_observe (phone_drive_input s) g contacts = phone_drive_input s)
          by (unfold input_observe; by rewrite bool_decide_true).
        rewrite Ej in Hp. by destruct (Hhold a Hp). }
  clearbody i1. destruct Hi1 as [Hgen Hpress].
  pose proof (input_observe_spec _ g Invalid Hgen) as (Hm2 & Hg2 & Hj2).
  destruct (is_pressed (snap_phase (input_snapshot i1))) eqn:Ep; cbn [andb].
  2:{ split; [done|]. intros a Hp. rewrite Hp in Ep. done. }
  destruct (snap_phase (input_snapshot i1)) as [|a1|] eqn:Ea; try done.
  destruct (Hpress a1 eq_refl) as [Hmode Hev].
  destruct (pending_release s); (split; [done|]); intros a Hp.
  - destruct Hj2 as [[Hd _]|(ge & _ & Hph)]; [done|].
    rewrite Hph in Hp. pose proof (gesture_invalid_not_pressed ge) as Hx. by rewrite Hp in Hx.
  - rewrite Ea in Hp. injection Hp as <-. done.
Qed.

Lemma observe_ok s token g contacts observed_at at_ :
  drive_ok s ->
  let r := observe_phone_drive_contacts_at vesc_crc16 s token g contacts observed_at at_ in
  drive_ok r.1 /\ ordered s r.1 (default [] r.2) /\ emission vesc_crc16 r.1 r.2 /\
  (grant_kept s r.1 \/
   forall act', act_of r.1 = Some act' -> exists act, act_of s = Some act /\
     act_id act' = act_id act /\ act_limits act' = act_limits act /\
     act_observed_at act' = Some observed_at /\
     forall a, phase r.1 = PhasePressed a ->
       gen_of r.1 = Some g /\ exists k, contacts = Single k (Some a)).
Proof.
  intros Hs. cbv zeta. unfold observe_phone_drive_contacts_at.
  destruct (is_verified (connection s) token) eqn:Hv; cbn [negb].
  2:{ split_ands; [done|by apply keeps_ordered|by left|left; by apply keeps_grant]. }
  destruct (_ || _); [split_ands; [done|by apply keeps_ordered|by left|left; by apply keeps_grant]|].
  destruct (bool_decide (snap_generation (snapshot_of s) = Some g)) eqn:Eg; cbn [negb].
  2:{ pose proof (step_keeps s token (Z.max at_ (last_input_at s))) as K.
      destruct (phone_drive_step s token _) as [s1 st]. cbn [fst snd] in *.
      split_ands; [by eapply keeps_ok| |by left; destruct st|left; by apply keeps_grant].
      destruct st; by apply keeps_ordered. }
  destruct (_ || _).
  - pose proof (cancel_keeps s InputExpired) as K. set (s1 := cancel_phone_drive s InputExpired) in *.
    destruct (tick_ok s1 token (Z.max (last_input_at s1) at_) true (keeps_ok _ _ K Hs))
      as (?&?&?&?).
    split_ands; [done| |done|left; eapply grant_trans; [by apply keeps_grant|done]].
    eapply ordered_trans; [by apply keeps_ordered|done].
  - apply bool_decide_eq_true in Eg. set (s1 := with_last_input s at_).
    pose proof (keeps_last_input s at_) as K. fold s1 in K. destruct (keeps_ok _ _ K Hs) as [Hc1 Hn1].
    assert (Hv1 : is_verified (connection s1) token = true) by (by rewrite (k_connection _ _ K)).
    assert (Ea1 : act_of s1 = act_of s) by (unfold s1; by open_session s).
    assert (Eg1 : gen_of s1 = Some g)
      by (unfold gen_of, snapshot_of, s1 in *; by open_session s).
    rewrite observe_contacts_input.
    destruct (contacts_input_ok s1 g contacts Hc1 Eg1) as [Hg2 Hp2].
    set (i := contacts_input s1 g contacts) in *.
    destruct (input_same s1 i Hn1) as (Hn2 & Ho2 & Ec2 & Ea2 & _).
    assert (Hc2 : core_ok (with_input s1 i)).
    { apply input_core; [done|]. intros Hp.
      destruct (snap_phase (input_snapshot i)) as [|a|] eqn:E; try done.
      destruct (Hp2 a eq_refl) as (? & ? & _). done. }
    assert (Eph : phase (with_input s1 i) = snap_phase (input_snapshot i))
      by (unfold phase, snapshot_of; by open_session s1).
    assert (Egen : gen_of (with_input s1 i) = Some g)
      by (unfold gen_of, snapshot_of; by open_session s1).
    set (s2 := with_input s1 i) in *. clearbody s2.
    change (snap_phase (snapshot_of s2)) with (phase s2).
    destruct (contact_writes_ok s2 (snap_phase (snapshot_of s)) observed_at at_ Hc2 Hn2)
      as (Hc3 & Ho3 & Ec3 & Hr3 & Ha3 & Hi3).
    set (s3 := contact_writes s2 _ _ _ _) in *. clearbody s3.
    destruct (finish_ok s3 token at_ true Hc3 ltac:(congruence) Hr3) as (Hd4 & Hg4 & Ho4 & He4).
    set (r := finish_step vesc_crc16 s3 token at_ true) in *. clearbody r. split_ands; [done| |done|].
    + eapply ordered_trans; [by apply keeps_ordered|]. eapply ordered_trans; [done|].
      by eapply ordered_trans.
    + right. destruct Hg4 as [Hg4 Hi4].
      intros act' (act3 & E3 & (I3&L3&O3))%Hg4. apply Ha3 in E3 as (act & E & I2 & L2 & O2).
      exists act. rewrite Ea2, Ea1 in E. split_ands; try done; try congruence.
      intros a Hp. assert (Hpr : is_pressed (phase r.1) = true) by (by rewrite Hp).
      pose proof (Hi4 Hpr) as E4. rewrite (phase_of_input _ _ E4) in Hp.
      assert (Hpr3 : is_pressed (phase s3) = true) by (by rewrite Hp).
      pose proof (Hi3 Hpr3) as E23. rewrite (phase_of_input _ _ E23), Eph in Hp.
      split; [unfold gen_of, snapshot_of in *; congruence|].
      destruct (Hp2 a Hp) as (_ & _ & [Hu|Hk]); [|done].
      rewrite (available s1 token Hc1 Hv1) in Hu; [done|]. rewrite Ea1. by rewrite E.
Qed.
End Emission.

(** ** Activation *)

Lemma available_drivable s :
  core_ok s -> is_unavailable (phone_drive_availability s) = false ->
  ready_of s = Verified /\
  exists d, device s = Some d /\ has_drive_step d = true /\ drivable d.
Proof.
  intros Hs. unfold phone_drive_availability.
  destruct (s_token (snapshot (connection s))) as [token|]; [|done].
  destruct (is_verified (connection s) token) eqn:Hv; [|done]. cbn [negb].
  destruct (device s) as [d|] eqn:Ed; [|done]. cbn [fmap option_fmap option_map].
  destruct (_ && _ && _) eqn:Eg; [|done]. intros _. prop_bools.
  split; [by eapply is_verified_ready|]. exists d. split_ands; [done| |done].
  pose proof (ok_engine _ Hs d Ed) as He. unfold engine_matches, has_drive_step, identity in *.
  destruct (engine d); [congruence|congruence|done].
Qed.

(** What a successful activation has seen and what it leaves. *)
Definition activated (s s' : Session) (limits : PhoneDriveLimits) (at_ : Z)
    (id : PhoneDriveActivationId) : Prop :=
  phase s = PhaseIdle /\ setting_operations s = false /\
  (forall d, device s = Some d -> device_settings_busy d = false) /\
  id = ids s + 1 /\ id <= u64_max /\ ids s' = id /\ pend s' = None /\ last_input_at s' = at_ /\
  act_of s' = Some {| act_id := id; act_limits := limits; act_observed_at := None;
                      act_next_setpoint_at := None |} /\
  phase s' = PhaseCancelled ActivationChanged.

Lemma activate_idle_cases s limits at_ :
  let r := activate_idle s limits at_ in
  match r.2 with
  | Ok id => activated s r.1 limits at_ id /\ connection r.1 = connection s /\
             device r.1 = device s /\ seq r.1 = seq s /\
             user_vehicle_classification r.1 = user_vehicle_classification s
  | Err _ => keeps s r.1
  end.
Proof.
  cbv zeta. unfold activate_idle. fold (phase s).
  destruct (bool_decide (phase s = PhaseIdle)) eqn:Ep; [|apply keeps_refl]. cbn [negb].
  apply bool_decide_eq_true in Ep.
  destruct (_ || _) eqn:Eb; [apply keeps_refl|]. apply orb_false_iff in Eb as [Eb1 Eb2].
  fold (ids s).
  match goal with
  | |- context [match ?x with Some _ => _ | None => (s, Err IdentifierExhausted) end] =>
      destruct x as [next|] eqn:En; [|apply keeps_refl]
  end.
  apply bind_Some in En as (n & [Hn ->]%checked_add_Some & En).
  unfold activation_id_new in En. case_bool_decide; [done|]. injection En as <-.
  set (s1 := with_input s _). case_bool_decide as Eg; [apply keeps_cancel_input|].
  cbn [fst snd]. unfold activated, phase, snapshot_of, gen_of, act_of, pend, ids, seq in *.
  split_ands; try by open_session s.
  - intros d Hd. by rewrite Hd in Eb1.
  - unfold s1, with_input in *. open_session s. simpl in *.
    unfold input_cancel, input_snapshot in *. destruct phone_drive_input as [m [g ge|]]; simpl in *;
      [|done]. by destruct (checked_add u64_max g 1).
Qed.

Lemma activated_ok s s' limits at_ id :
  core_ok s -> is_unavailable (phone_drive_availability s) = false ->
  activated s s' limits at_ id -> connection s' = connection s -> device s' = device s ->
  user_vehicle_classification s' = user_vehicle_classification s -> drive_ok s'.
Proof.
  intros Hs Hav (_ & _ & _ & -> & _ & Hids & Hp & _ & Ha & Hph) Ec Ed Eu.
  destruct (available_drivable s Hs Hav) as (Hv & d & Hd & Hstep & Hdr).
  destruct Hs as [E U A I W H]. split; [|intros p; congruence]. split.
  - by rewrite Ed.
  - unfold user_choice_ok. by rewrite Eu, Ed.
  - intros _. unfold ready_of in *. rewrite Ec, Hv. split; [done|]. intros _. exists d.
    split_ands; [congruence|done|done].
  - intros act. rewrite Ha, Hids. intros [= <-]. cbn [act_id]. lia.
  - intros p. congruence.
  - rewrite Hph. done.
Qed.

Lemma retire_availability s :
  is_unavailable (phone_drive_availability (retire_release (with_pending s None)))
  = is_unavailable (phone_drive_availability s).
Proof.
  unfold phone_drive_availability, retire_release, phone_drive_activation. open_session s. simpl.
  destruct (s_token _); [|done]. destruct (negb _); [done|].
  destruct device as [d|]; [|done]. simpl. destruct (_ && _ && _); [|done].
  by destruct activation.
Qed.

(** The guards of an activation, in the order of the code. *)
Definition activation_guards (s : Session) (token : ConnectionAttemptToken) (generation at_ : Z)
  : Prop :=
  is_verified (connection s) token = true /\ gen_of s = Some generation /\
  preferences_token s = Some token /\ settings_presented_for s <> Some token /\
  is_unavailable (phone_drive_availability s) = false /\
  mode (phone_drive_input s) <> ModeDisabled /\ last_input_at s <= at_ /\
  controller_fault (phone_drive_control s) = false /\
  (forall p, pend s = Some p -> w_kind (admission p) = Release ->
     w_submit_before_ms (admission p) <= at_).

Lemma snap_mode_mode i : snap_mode (input_snapshot i) = mode i.
Proof. unfold input_snapshot. by destruct (epoch i). Qed.

Lemma activate_cases s token generation limits at_ :
  drive_ok s ->
  let r := activate_phone_drive s token generation limits at_ in
  drive_ok r.1 /\ ordered s r.1 [] /\
  match r.2 with
  | Ok id => activation_guards s token generation at_ /\ pending_release s = false /\
             activated s r.1 limits at_ id
  | Err _ => grant_kept s r.1
  end.
Proof.
  intros Hs. cbv zeta. unfold activate_phone_drive.
  assert (Hsame : drive_ok s /\ ordered s s [] /\ grant_kept s s)
    by (split_ands; [done|by apply keeps_ordered|by apply keeps_grant]).
  destruct (is_verified _ _) eqn:G1; cbn [negb]; [|exact Hsame].
  destruct (bool_decide (snap_generation _ = _)) eqn:G2; cbn [negb]; [|exact Hsame].
  destruct (bool_decide (preferences_token s = _)) eqn:G3; cbn [negb]; [|exact Hsame].
  destruct (bool_decide (settings_presented_for s = _)) eqn:G4; [exact Hsame|].
  destruct (is_unavailable _) eqn:G5; [exact Hsame|].
  destruct (bool_decide (snap_mode _ = _)) eqn:G6; [exact Hsame|].
  destruct (bool_decide (at_ < _)) eqn:G7; [exact Hsame|].
  destruct (controller_fault _) eqn:G8; [exact Hsame|]. prop_bools.
  unfold snapshot_of in G6. rewrite snap_mode_mode in G6.
  assert (Hguards : (forall p, pend s = Some p -> w_kind (admission p) = Release ->
      w_submit_before_ms (admission p) <= at_) -> activation_guards s token generation at_).
  { intros Hp. unfold activation_guards. split_ands; try done. lia. }
  (* the activation itself, from a state that only lost authority *)
  assert (Hgo : forall s1, keeps s s1 -> is_unavailable (phone_drive_availability s1) = false ->
    (phase s1 = PhaseIdle -> pending_release s = false /\ s1 = s) ->
    activation_guards s token generation at_ ->
    let r := activate_idle s1 limits at_ in
    drive_ok r.1 /\ ordered s r.1 [] /\
    match r.2 with
    | Ok id => activation_guards s token generation at_ /\ pending_release s = false /\
               activated s r.1 limits at_ id
    | Err _ => grant_kept s r.1
    end).
  { intros s1 K Hav Hidle Hg. destruct (keeps_ok _ _ K Hs) as [Hc1 Hn1].
    pose proof (activate_idle_cases s1 limits at_) as H. cbv zeta in *.
    destruct (activate_idle s1 limits at_) as [s2 [id|e]]; cbn [fst snd] in *.
    - destruct H as (Hact & Ec & Ed & Es & Eu). destruct (Hidle (proj1 Hact)) as [Hr ->].
      split_ands; [by eapply activated_ok| |done|done|done].
      unfold ordered. split_ands; [lia| |done]. intros (p & Hp & _).
      destruct Hact as (_ & _ & _ & _ & _ & _ & Hnone & _). congruence.
    - pose proof (keeps_trans _ _ _ K H) as K2.
      split_ands; [by eapply keeps_ok|by apply keeps_ordered|by apply keeps_grant]. }
  fold (pend s). destruct (pend s) as [p|] eqn:Ep.
  - assert (Epr : pending_release s = bool_decide (w_kind (admission p) = Release))
      by (unfold pending_release; fold (pend s); by rewrite Ep).
    destruct (bool_decide (w_kind (admission p) = Release)) eqn:Er; cbn [negb].
    + destruct (bool_decide (at_ < _)) eqn:Eat; [exact Hsame|].
      apply bool_decide_eq_false in Eat. apply Hgo.
      * etrans; [apply keeps_no_pending|apply retire_release_keeps].
      * by rewrite retire_availability.
      * intros Hidle. exfalso. unfold retire_release, phase, snapshot_of in Hidle. revert Hidle.
        open_session s. simpl. unfold input_cancel, input_snapshot.
        destruct phone_drive_input as [m [g ge|]]; simpl; [|done]. by destruct (checked_add _ _ _).
      * apply Hguards. intros q [= <-] _. lia.
    + apply bool_decide_eq_false in Er. apply Hgo; [done|done|done|].
      apply Hguards. intros q [= <-] Hk. congruence.
  - apply Hgo; [done|done| |by apply Hguards].
    intros _. split; [|done]. unfold pending_release. fold (pend s). by rewrite Ep.
Qed.

(** ** The rest of the session *)

Definition with_device (s : Session) (d : option DeviceSession) : Session := s <| device := d |>.

(** A change of what the writes do not depend on. *)
Lemma rebase s s' :
  phone_drive_control s' = phone_drive_control s -> phone_drive_input s' = phone_drive_input s ->
  (forall d, device s' = Some d -> engine_matches d) -> user_choice_ok s' ->
  (has_authority s -> ready_of s' <> Pending /\
     (ready_of s' = Verified -> exists d, device s' = Some d /\ has_drive_step d = true /\
        (is_Some (act_of s) -> drivable d))) ->
  drive_ok s -> drive_ok s' /\ grant_kept s s' /\ ordered s s' [].
Proof.
  intros Ec Ei He Hu Ha [[E U A I W H] Hn].
  assert (Eq : act_of s' = act_of s /\ pend s' = pend s /\ seq s' = seq s /\ ids s' = ids s)
    by (unfold act_of, pend, seq, ids; by rewrite Ec).
  destruct Eq as (Eact & Ep & Es & Eids). destruct (writes_same s s' Es Ep) as [W1 W2].
  split_ands; [|split; [intros a Hact; exists a; split; [congruence|done]|done]|done].
  split; [|auto]. split; [done|done| | | |].
  - unfold has_authority. rewrite Eact, Ep. exact Ha.
  - intros act. rewrite Eact, Eids. apply I.
  - intros p. rewrite Ep. intros Hp. unfold write_ok. rewrite Es, Eids, Eact. by apply W.
  - rewrite (phase_of_input _ _ Ei), Ei, (pending_release_pend _ _ Ep). done.
Qed.

Definition no_authority (s : Session) : Prop := act_of s = None /\ pend s = None.
Lemma no_authority_not s : no_authority s -> ~ has_authority s.
Proof. intros [Ha Hp] [[? H]|[? H]]; congruence. Qed.

(** A handler that loses authority before it changes the connection. *)
Lemma disconnected_ok s s1 s' :
  drive_ok s -> keeps s s1 -> no_authority s1 ->
  phone_drive_control s' = phone_drive_control s1 -> phone_drive_input s' = phone_drive_input s1 ->
  (device s' = None \/ device s' = device s) ->
  (user_vehicle_classification s' = None /\ device s' = None \/
   user_vehicle_classification s' = user_vehicle_classification s) ->
  drive_ok s' /\ grant_kept s s' /\ ordered s s' [].
Proof.
  intros Hs K Hno Ec Ei Ed Eu. destruct (keeps_ok _ _ K Hs) as [Hc1 Hn1].
  destruct Hs as [[E U _ _ _ _] _].
  destruct (rebase s1 s' Ec Ei) as (?&?&?); [| | |by split|].
  - intros d Hd. destruct Ed as [Ed|Ed]; [congruence|]. apply E. congruence.
  - destruct U as [U1 U2]. split.
    + intros c Hcl. destruct Eu as [[Eu _]|Eu]; [congruence|]. apply U1. congruence.
    + intros d app busy Hd Heng. destruct Ed as [Ed|Ed]; [congruence|].
      destruct Eu as [[_ Eu]|Eu]; [congruence|]. rewrite Eu. apply (U2 d app busy); congruence.
  - intros Hauth. by destruct (no_authority_not s1 Hno).
  - split_ands; [done|eapply grant_trans; [by apply keeps_grant|done]|].
    eapply ordered_trans; [by apply keeps_ordered|done].
Qed.

Lemma cancel_connection_none s : no_authority (cancel_phone_drive s ConnectionChanged).
Proof. pose proof (cancel_connection_spec s) as (?&?&_). done. Qed.
Lemma disconnect_ok s :
  drive_ok s -> drive_ok (session_disconnect s) /\ grant_kept s (session_disconnect s) /\
                ordered s (session_disconnect s) [].
Proof.
  intros Hs. pose proof (cancel_keeps s ConnectionChanged) as K.
  pose proof (cancel_connection_none s) as Hno. unfold session_disconnect.
  set (s1 := cancel_phone_drive s ConnectionChanged) in *.
  assert (Eu : user_vehicle_classification s1 = user_vehicle_classification s) by apply K.
  clearbody s1. apply (disconnected_ok s s1); try done; [..|right; rewrite <- Eu]; open_session s1;
    auto.
Qed.
Lemma begin_ok s ident at_ :
  drive_ok s -> drive_ok (begin_attempt s ident at_) /\ grant_kept s (begin_attempt s ident at_) /\
                ordered s (begin_attempt s ident at_) [].
Proof.
  intros Hs. pose proof (cancel_keeps s ConnectionChanged) as K.
  pose proof (cancel_connection_none s) as Hno. unfold begin_attempt, reset_for_attempt.
  set (s1 := cancel_phone_drive s ConnectionChanged) in *. clearbody s1.
  apply (disconnected_ok s s1); try done; open_session s1; auto.
Qed.

(** Link loss: of the current attempt, or of one already replaced. *)
Lemma clear_failed_fields s :
  phone_drive_control (clear_failed_device s) = phone_drive_control s /\
  phone_drive_input (clear_failed_device s) = phone_drive_input s /\
  user_vehicle_classification (clear_failed_device s) = user_vehicle_classification s /\
  connection (clear_failed_device s) = connection s /\
  (device (clear_failed_device s) = None /\ ready_of s = Failed \/
   device (clear_failed_device s) = device s).
Proof.
  unfold clear_failed_device, ready_of. case_bool_decide; open_session s; simpl; split_ands; auto.
Qed.
Lemma clear_failed_ok s :
  drive_ok s -> drive_ok (clear_failed_device s) /\ grant_kept s (clear_failed_device s) /\
                ordered s (clear_failed_device s) [].
Proof.
  intros Hs. destruct (clear_failed_fields s) as (Ec & Ei & Eu & Econ & Ed).
  pose proof Hs as [[E [U1 U2] A _ _ _] _]. apply rebase; try done.
  - intros d Hd. apply E. destruct Ed as [[Ed _]|Ed]; congruence.
  - split; [intros c; rewrite Eu; auto|]. intros d app busy Hd Heng. rewrite Eu.
    apply (U2 d app busy); [|done]. destruct Ed as [[Ed _]|Ed]; congruence.
  - intros Ha. unfold ready_of in *. rewrite Econ. destruct (A Ha) as [A1 A2]. split; [done|].
    intros Hv. destruct Ed as [[_ Ed]|Ed]; [congruence|]. rewrite Ed. auto.
Qed.

Lemma lost_ok s (connection' : ConnectionAttemptLifecycle) (current : bool) :
  drive_ok s -> (current = false -> connection' = connection s) ->
  let s1 := if current then cancel_phone_drive s ConnectionChanged else s in
  let s' := clear_failed_device (s1 <| connection := connection' |>) in
  drive_ok s' /\ grant_kept s s' /\ ordered s s' [].
Proof.
  intros Hs Hcur. cbv zeta. destruct current.
  - pose proof (cancel_keeps s ConnectionChanged) as K.
    pose proof (cancel_connection_none s) as Hno.
    set (s1 := cancel_phone_drive s ConnectionChanged) in *.
    set (s2 := s1 <| connection := connection' |>).
    assert (H2 : phone_drive_control s2 = phone_drive_control s1 /\
      phone_drive_input s2 = phone_drive_input s1 /\ device s2 = device s /\
      user_vehicle_classification s2 = user_vehicle_classification s).
    { rewrite <- (k_device _ _ K), <- (k_user _ _ K). unfold s2. clearbody s1. by open_session s1. }
    destruct H2 as (E1 & E2 & E3 & E4).
    destruct (clear_failed_fields s2) as (F1 & F2 & F3 & _ & F4).
    apply (disconnected_ok s s1); try done; [congruence|congruence| |right; congruence].
    destruct F4 as [[F4 _]|F4]; [by left|right; congruence].
  - rewrite (Hcur eq_refl). replace (s <| connection := connection s |>) with s by by open_session s.
    by apply clear_failed_ok.
Qed.

(** Calls on the connection that do not go through the session. *)
Lemma quiet_connection s c :
  match c with CConnected _ | CRequestRetry _ _ _ | CCancelRetry _ => True | _ => False end ->
  drive_ok s ->
  drive_ok (on_connection s c) /\ grant_kept s (on_connection s c) /\
  ordered s (on_connection s c) [].
Proof.
  intros Hc Hs. pose proof Hs as [[E [U1 U2] A _ _ _] _].
  assert (Hr : (s_readiness (snapshot (step (connection s) c).1) = Pending -> ready_of s = Pending) /\
    (s_readiness (snapshot (step (connection s) c).1) = Verified -> ready_of s = Verified)).
  { unfold ready_of. destruct (connection s) as [[? ? ? ? ? ?] ? ? ? ? ?].
    destruct c; try done; cbn [step relabel fst]; open_call; step_cases; split; congruence. }
  unfold on_connection. set (con := (step (connection s) c).1) in *. clearbody con.
  destruct Hr as [Hr1 Hr2].
  apply rebase; [by open_session s..| | | |done].
  - intros d Hd. apply E. by open_session s.
  - split; [intros cl Hcl; apply U1; by open_session s|]. intros d app busy Hd Heng.
    replace (user_vehicle_classification _) with (user_vehicle_classification s) by by open_session s.
    apply (U2 d app busy); [by open_session s|done].
  - intros Ha. destruct (A Ha) as [A1 A2]. unfold ready_of in *.
    replace (device _) with (device s) by by open_session s.
    replace (connection _) with con by by open_session s. auto.
Qed.

Lemma admit_retry_none c retry at_ c' :
  admit_retry c retry at_ = (c', None) -> c' = c.
Proof.
  unfold admit_retry. destruct (pending_retry c); [|by intros [= <-]].
  repeat case_match; by intros [= <-].
Qed.
Lemma admit_ok s retry at_ :
  drive_ok s -> let s' := (session_admit_retry s retry at_).1 in
  drive_ok s' /\ grant_kept s s' /\ ordered s s' [].
Proof.
  intros Hs. cbv zeta. unfold session_admit_retry.
  destruct (admit_retry (connection s) retry at_) as [c' [token|]] eqn:E; cbn [fst].
  - unfold reset_for_attempt. set (s0 := s <| connection := c' |>).
    assert (H0 : phone_drive_control (cancel_phone_drive s0 ConnectionChanged)
                 = phone_drive_control (cancel_phone_drive s ConnectionChanged) /\
                 phone_drive_input (cancel_phone_drive s0 ConnectionChanged)
                 = phone_drive_input (cancel_phone_drive s ConnectionChanged)).
    { unfold s0, cancel_phone_drive. rewrite bool_decide_true by done. by open_session s. }
    destruct H0 as [H1 H2]. apply (disconnected_ok s (cancel_phone_drive s ConnectionChanged)); try done.
    + apply cancel_keeps.
    + apply cancel_connection_none.
    + rewrite <- H1. by destruct (cancel_phone_drive s0 ConnectionChanged).
    + rewrite <- H2. by destruct (cancel_phone_drive s0 ConnectionChanged).
    + left. by destruct (cancel_phone_drive s0 ConnectionChanged).
    + left. by destruct (cancel_phone_drive s0 ConnectionChanged).
  - apply admit_retry_none in E as ->.
    replace (s <| connection := connection s |>) with s by by open_session s.
    split_ands; [done|by apply keeps_grant|by apply keeps_ordered].
Qed.

Lemma conflict_ok s token :
  drive_ok s -> let s' := (protocol_conflict s token).1 in
  drive_ok s' /\ grant_kept s s' /\ ordered s s' [].
Proof.
  intros Hs. cbv zeta. unfold protocol_conflict.
  destruct (conflict (connection s) token) as [c' [|]]; cbn [negb fst];
    [|split_ands; [done|by apply keeps_grant|by apply keeps_ordered]].
  set (s0 := s <| connection := c' |>).
  assert (H0 : phone_drive_control (cancel_phone_drive s0 ConnectionChanged)
               = phone_drive_control (cancel_phone_drive s ConnectionChanged) /\
               phone_drive_input (cancel_phone_drive s0 ConnectionChanged)
               = phone_drive_input (cancel_phone_drive s ConnectionChanged) /\
               user_vehicle_classification (cancel_phone_drive s0 ConnectionChanged)
               = user_vehicle_classification s).
  { split_ands; [..|rewrite (k_user _ _ (cancel_keeps s0 _)); by open_session s];
      unfold s0, cancel_phone_drive; rewrite bool_decide_true by done; by open_session s. }
  destruct H0 as (H1 & H2 & H3).
  apply (disconnected_ok s (cancel_phone_drive s ConnectionChanged)); try done.
  - apply cancel_keeps.
  - apply cancel_connection_none.
  - rewrite <- H1. by destruct (cancel_phone_drive s0 ConnectionChanged).
  - rewrite <- H2. by destruct (cancel_phone_drive s0 ConnectionChanged).
  - left. by destruct (cancel_phone_drive s0 ConnectionChanged).
  - right. rewrite <- H3. by destruct (cancel_phone_drive s0 ConnectionChanged).
Qed.

Lemma configured_engine d k : engine (device_configure_vehicle_kind d k).1 = engine d.
Proof.
  unfold device_configure_vehicle_kind. destruct (user_provided k); [|done].
  destruct d as [? e ?]. by destruct e.
Qed.
Lemma configured_classification d k c app busy :
  engine d = EngineVesc app busy -> user_provided k = Some c ->
  user_classification (device_configure_vehicle_kind d k).1 = Some c.
Proof.
  intros He Hk. unfold device_configure_vehicle_kind. rewrite Hk. destruct d as [? e ?].
  simpl in *. by rewrite He.
Qed.
Lemma detected_classification f d : from_detection f = Some d -> user_classification d = None.
Proof. destruct f; simpl; by intros [= <-]. Qed.

Lemma resolve_ok s token family known probing complete at_ :
  drive_ok s -> let s' := resolve s token family known probing complete at_ in
  drive_ok s' /\ grant_kept s s' /\ ordered s s' [].
Proof.
  intros Hs. cbv zeta. pose proof Hs as [[E [U1 U2] A _ _ _] _].
  assert (Hsame : drive_ok s /\ grant_kept s s /\ ordered s s [])
    by (split_ands; [done|by apply keeps_grant|by apply keeps_ordered]).
  unfold resolve. destruct (_ || _) eqn:Eg; [done|]. apply orb_false_iff in Eg as [_ Eg].
  apply negb_false_iff, bool_decide_eq_true in Eg.
  assert (Hno : ~ has_authority s) by (intros Ha; by destruct (A Ha)).
  (* only the connection and the device may change *)
  assert (Hset : forall s', phone_drive_control s' = phone_drive_control s ->
    phone_drive_input s' = phone_drive_input s ->
    user_vehicle_classification s' = user_vehicle_classification s ->
    (device s' = device s \/ exists d, from_detection family = Some d /\ device s' = Some
      match user_vehicle_classification s with
      | Some c => (device_configure_vehicle_kind d (cl_kind c)).1
      | None => d
      end) ->
    drive_ok s' /\ grant_kept s s' /\ ordered s s' []).
  { intros s' Ec Ei Eu Ed. apply rebase; try done.
    - intros d Hd. destruct Ed as [Ed|(d0 & Hd0 & Ed)]; [apply E; congruence|].
      apply from_detection_matches in Hd0. rewrite Hd in Ed. injection Ed as ->.
      destruct (user_vehicle_classification s); [by apply configure_matches|done].
    - split; [intros c; rewrite Eu; auto|]. intros d app busy Hd Heng. rewrite Eu.
      destruct Ed as [Ed|(d0 & Hd0 & Ed)]; [apply (U2 d app busy); congruence|].
      rewrite Hd in Ed. injection Ed as ->.
      destruct (user_vehicle_classification s) as [c|]; [|by eapply detected_classification].
      rewrite configured_engine in Heng.
      by apply (configured_classification d0 (cl_kind c) c app busy), U1. }
  destruct (expire (connection s) token at_) as [c1 ex].
  set (s1 := s <| connection := c1 |>).
  assert (Hs1 : phone_drive_control s1 = phone_drive_control s /\
    phone_drive_input s1 = phone_drive_input s /\ device s1 = device s /\
    user_vehicle_classification s1 = user_vehicle_classification s) by (by open_session s).
  clearbody s1. destruct Hs1 as (E1 & E2 & E3 & E4). rewrite E4.
  destruct ex; [apply Hset; auto|]. destruct (negb known && probing); [apply Hset; auto|].
  destruct (from_detection family) as [d|] eqn:Ed.
  - destruct (complete || known || _); [|apply Hset; auto].
    destruct (finish_detection (connection s1) token true) as [c2 fin].
    destruct fin; apply Hset; try (by open_session s1); [right; exists d|left];
      open_session s1; auto.
  - destruct complete; apply Hset; auto; open_session s1; auto.
Qed.

(** A cancellation does not look at the device. *)
Lemma prepare_device s d a m at_ :
  prepare_phone_drive_write (with_device s d) a m at_
  = with_device (prepare_phone_drive_write s a m at_) d.
Proof.
  unfold prepare_phone_drive_write, exhausted, with_device, snapshot_of. open_session s. simpl.
  destruct activation; [|done]. destruct (checked_add _ _ _); [|done].
  destruct (checked_add _ _ _); [|done]. by destruct (snap_generation _).
Qed.
Lemma cancel_device s d r :
  cancel_phone_drive (with_device s d) r = with_device (cancel_phone_drive s r) d.
Proof.
  unfold cancel_phone_drive. case_bool_decide; [by open_session s|].
  set (s1 := with_input s _).
  replace (with_input (with_device s d) _) with (with_device s1 d) by (unfold s1; by open_session s).
  clearbody s1.
  replace (pending_release (with_device s1 d)) with (pending_release s1) by by open_session s1.
  replace (activation (phone_drive_control (with_device s1 d)))
    with (activation (phone_drive_control s1)) by by open_session s1.
  replace (last_input_at (with_device s1 d)) with (last_input_at s1) by by open_session s1.
  rewrite prepare_device. destruct (activation (phone_drive_control s1)); [|done].
  set (s2 := if pending_release s1 then s1 else _).
  replace (if pending_release s1 then with_device s1 d else _) with (with_device s2 d)
    by (unfold s2; by destruct (pending_release s1)).
  clearbody s2. destruct (gesture_local_cancel r); [|by open_session s2].
  open_session s2. simpl. by destruct activation.
Qed.
Lemma fault_device s d outputs :
  observe_phone_drive_fault (with_device s d) outputs
  = with_device (observe_phone_drive_fault s outputs) d.
Proof.
  unfold observe_phone_drive_fault. revert s. induction outputs as [|o os IH]; intros s; [done|].
  cbn [foldl]. rewrite <- IH. f_equal. unfold observe_fault. destruct o as [fields|]; [|done].
  destruct (list_find _ fields) as [[? f]|]; [|done].
  set (faulty := negb (bool_decide (rf_value f = 0))).
  assert (Es : with_device s d <| phone_drive_control :=
      (phone_drive_control (with_device s d)) <| controller_fault := faulty |> |>
    = with_device (s <| phone_drive_control :=
        (phone_drive_control s) <| controller_fault := faulty |> |>) d) by by open_session s.
  rewrite Es. destruct faulty; [apply cancel_device|done].
Qed.
Lemma cancel_final s r :
  r <> ConnectionChanged -> gesture_local_cancel r = false -> act_of (cancel_phone_drive s r) = None.
Proof.
  intros Hr Hg. unfold cancel_phone_drive. rewrite bool_decide_false by done. rewrite Hg.
  set (s1 := with_input s _). clearbody s1. fold (act_of s1).
  destruct (act_of s1) eqn:E; [|done]. set (s2 := if pending_release s1 then s1 else _). by open_session s2.
Qed.

(** A new device under internal steps that ended the activation, or left the
    vehicle what it was. *)
Lemma device_ok s s1 d d' user :
  drive_ok s -> keeps s s1 -> device s = Some d ->
  engine_matches d' -> has_drive_step d' = has_drive_step d ->
  (act_of s1 = None \/ (drivable d -> drivable d')) ->
  (forall c, user = Some c -> user_provided (cl_kind c) = Some c) ->
  (forall app busy, engine d' = EngineVesc app busy -> user_classification d' = user) ->
  let s' := with_device s1 (Some d') <| user_vehicle_classification := user |> in
  drive_ok s' /\ grant_kept s s' /\ ordered s s' [].
Proof.
  intros Hs K Hd He Hstep Hdr Hu1 Hu2. cbv zeta. destruct (keeps_ok _ _ K Hs) as [Hc1 Hn1].
  pose proof (k_device _ _ K) as Kd. set (s' := with_device s1 (Some d') <| _ := _ |>).
  destruct (rebase s1 s') as (?&?&?); [by open_session s1..| | | |by split|].
  - intros x Hx. assert (x = d') as -> by (unfold s' in Hx; open_session s1; simpl in *; congruence).
    done.
  - unfold user_choice_ok, s', with_device. open_session s1. simpl. split; [done|].
    intros x app busy [= <-] Hx. eauto.
  - intros Ha. destruct (ok_authority _ Hc1 Ha) as [A1 A2].
    assert (Er : ready_of s' = ready_of s1) by (unfold ready_of, s'; by open_session s1).
    rewrite Er. split; [done|]. intros Hv. destruct (A2 Hv) as (x & Hx & Hs1 & Hdx).
    assert (x = d) as -> by congruence. exists d'. split_ands; [by open_session s1|congruence|].
    intros Hact. destruct Hdr as [Hno|Hdr]; [rewrite Hno in Hact; by destruct Hact|auto].
  - split_ands; [done|eapply grant_trans; [by apply keeps_grant|done]|].
    eapply ordered_trans; [by apply keeps_ordered|done].
Qed.

Lemma validate_ok s token kind c :
  validate_vehicle_kind s token kind = Some c -> user_provided kind = Some c.
Proof.
  unfold validate_vehicle_kind. destruct (negb _); [done|].
  destruct (s_readiness _); try done; destruct (device s); try done;
    by destruct (negb (bool_decide (protocol _ = Vesc))).
Qed.
Lemma user_provided_kind kind c : user_provided kind = Some c -> user_provided (cl_kind c) = Some c.
Proof. destruct kind; simpl; by intros [= <-]. Qed.

Lemma configure_ok s token kind :
  drive_ok s -> let s' := (configure_vehicle_kind s token kind).1 in
  drive_ok s' /\ grant_kept s s' /\ ordered s s' [].
Proof.
  intros Hs. cbv zeta.
  assert (Hsame : drive_ok s /\ grant_kept s s /\ ordered s s [])
    by (split_ands; [done|by apply keeps_grant|by apply keeps_ordered]).
  unfold configure_vehicle_kind. destruct (validate_vehicle_kind s token kind) as [c|] eqn:Ev; [|done].
  apply validate_ok, user_provided_kind in Ev. unfold apply_vehicle_classification.
  pose proof Hs as [[E [U1 U2] _ _ _ _] _].
  set (s1 := if bool_decide (user_vehicle_classification s = Some c) then s
             else cancel_phone_drive s ConfigurationChanged).
  assert (K : keeps s s1) by (unfold s1; case_bool_decide; auto with drive).
  assert (Hs1 : forall d, (if bool_decide (user_vehicle_classification (with_device s d) = Some c)
      then with_device s d else cancel_phone_drive (with_device s d) ConfigurationChanged)
      = with_device s1 d).
  { intros d. unfold s1.
    replace (user_vehicle_classification (with_device s d)) with (user_vehicle_classification s)
      by by open_session s.
    case_bool_decide; [done|apply cancel_device]. }
  destruct (device s) as [d|] eqn:Ed.
  - destruct (device_configure_vehicle_kind d (cl_kind c)) as [d' configured] eqn:Ec. cbn [fst snd].
    change (s <| device := Some d' |>) with (with_device s (Some d')).
    pose proof (configured_engine d (cl_kind c)) as Heng. pose proof (configure_matches d (cl_kind c) (E d eq_refl)) as Hm.
    rewrite Ec in Heng, Hm. cbn [fst] in *.
    destruct configured; cbn [negb fst].
    + rewrite Hs1. apply (device_ok s s1 d); try done.
      * unfold has_drive_step. by rewrite Heng.
      * destruct (decide (user_vehicle_classification s = Some c)) as [Hu|Hu].
        -- right. replace d' with d; [done|].
           unfold device_configure_vehicle_kind in Ec. rewrite Ev in Ec.
           destruct (engine d) as [| |app busy] eqn:En; try done. injection Ec as <-.
           pose proof (U2 d app busy eq_refl En) as Huc. destruct d as [i e u]. simpl in *.
           congruence.
        -- left. unfold s1. rewrite bool_decide_false by done. by apply cancel_final.
      * by intros x [= <-].
      * intros app busy He. rewrite Heng in He.
        pose proof (configured_classification d (cl_kind c) c app busy He Ev) as Hcl.
        by rewrite Ec in Hcl.
    + assert (d' = d) as ->.
      { unfold device_configure_vehicle_kind in Ec. rewrite Ev in Ec.
        by destruct (engine d); injection Ec as <-. }
      replace (with_device s (Some d)) with s; [done|]. rewrite <- Ed. by open_session s.
  - change (s <| device := None |>) with (with_device s None). cbn [negb fst]. rewrite Hs1.
    destruct (keeps_ok _ _ K Hs) as [Hc1 Hn1].
    set (s' := with_device s1 None <| _ := _ |>).
    assert (Hd1 : device s1 = None) by (rewrite (k_device _ _ K); done).
    destruct (rebase s1 s') as (?&?&?); [by open_session s1..| | | |by split|].
    + intros x Hx. unfold s' in Hx. by open_session s1.
    + unfold user_choice_ok, s', with_device. open_session s1. simpl. by split; [intros ? [= <-]|].
    + intros Ha. destruct (ok_authority _ Hc1 Ha) as [A1 A2].
      assert (Er : ready_of s' = ready_of s1) by (unfold ready_of, s'; by open_session s1).
      rewrite Er. split; [done|]. intros Hv. destruct (A2 Hv) as (x & Hx & _). congruence.
    + split_ands; [done|eapply grant_trans; [by apply keeps_grant|done]|].
      eapply ordered_trans; [by apply keeps_ordered|done].
Qed.

Lemma ingest_ok s token received link_down engine' outputs :
  drive_ok s -> let s' := ingest s token received link_down engine' outputs in
  drive_ok s' /\ grant_kept s s' /\ ordered s s' [].
Proof.
  intros Hs. cbv zeta. unfold ingest.
  destruct (negb _); [split_ands; [done|by apply keeps_grant|by apply keeps_ordered]|].
  set (s0 := match received with Some at_ => _ | None => s end).
  assert (K0 : keeps s s0) by (unfold s0; destruct received; auto with drive). clearbody s0.
  pose proof (keeps_ok _ _ K0 Hs) as Hs0. destruct (device s0) as [d|] eqn:Ed.
  2:{ split_ands; [done|by apply keeps_grant|by apply keeps_ordered]. }
  enough (H : forall s1 d', keeps s0 s1 -> d' = d <| engine := match engine d with
        | EngineVesc _ _ => EngineVesc engine'.1 engine'.2 | other => other end |> ->
      (act_of s1 = None \/ (drivable d -> drivable d')) ->
      drive_ok (with_device s1 (Some d')) /\ grant_kept s (with_device s1 (Some d')) /\
      ordered s (with_device s1 (Some d')) []).
  { set (d' := d <| engine := _ |>) in *.
    change (s0 <| device := Some d' |>) with (with_device s0 (Some d')).
    rewrite fault_device. pose proof (fault_keeps s0 outputs) as K1.
    set (s1 := observe_phone_drive_fault s0 outputs) in *. rewrite !cancel_device.
    assert (Kc : forall r, keeps s0 (cancel_phone_drive s1 r))
      by (intros r; etrans; [exact K1|apply cancel_keeps]).
    destruct link_down; [apply H; [apply Kc|done|left; apply cancel_connection_none]|].
    destruct (_ || _) eqn:Eg.
    - apply H; [apply Kc|done|]. left. by apply cancel_final.
    - apply orb_false_iff in Eg as [Eg1 Eg2]. prop_bools. apply H; [exact K1|done|]. right.
      unfold drivable, vehicle_kind. by rewrite Eg1, Eg2. }
  intros s1 d' K1 -> Hdr. destruct Hs0 as [Hc0 Hn0]. pose proof Hc0 as [E [U1 U2] _ _ _ _].
  set (d' := d <| engine := _ |>) in *.
  assert (Hfields : d_identity d' = d_identity d /\ user_classification d' = user_classification d)
    by (unfold d'; by destruct d).
  destruct Hfields as [Hf1 Hf2].
  assert (Heng : engine d' = match engine d with
      | EngineVesc _ _ => EngineVesc engine'.1 engine'.2 | other => other end)
    by (unfold d'; by destruct d).
  destruct (device_ok s0 s1 d d' (user_vehicle_classification s0)) as (H1 & H2 & H3); try done.
  - pose proof (E d Ed) as Hm. unfold engine_matches in *. rewrite Hf1, Heng. by destruct (engine d).
  - unfold has_drive_step. rewrite Heng. by destruct (engine d).
  - intros app busy He. rewrite Hf2. rewrite Heng in He.
    destruct (engine d) as [| |app0 busy0] eqn:En; try done. by apply (U2 d app0 busy0).
  - replace (with_device s1 (Some d') <| user_vehicle_classification := _ |>)
      with (with_device s1 (Some d')) in *
      by (rewrite <- (k_user _ _ K1); by open_session s1).
    split_ands; [done|eapply grant_trans; [by apply keeps_grant|done]|].
    eapply ordered_trans; [by apply keeps_ordered|done].
Qed.

(** ** One call *)

Lemma preferences_keeps s token m limits :
  keeps s (apply_phone_drive_preferences s token m limits).1.
Proof.
  unfold apply_phone_drive_preferences. destruct (negb _); [done|]. cbn [fst].
  set (s1 := if negb (bool_decide (snap_mode _ = m)) then _ else _).
  assert (K1 : keeps s s1)
    by (unfold s1; destruct (negb _); [apply cancel_keeps|destruct (negb _); [apply cancel_keeps|done]]).
  clearbody s1. etrans; [exact K1|]. etrans.
  { instantiate (1 := with_input s1 (set_mode (phone_drive_input s1) m)). unfold set_mode.
    case_bool_decide; [|apply keeps_input, cancelled_not_pressed].
    replace (with_input s1 (phone_drive_input s1)) with s1 by by open_session s1. done. }
  set (s2 := with_input s1 _). clearbody s2. keeps_field s2.
Qed.
Lemma presented_keeps s token presented :
  keeps s (set_phone_drive_settings_presented s token presented).1.
Proof.
  unfold set_phone_drive_settings_presented. destruct (negb _); [done|]. destruct presented.
  - cbn [fst]. destruct (bool_decide _); [done|]. etrans; [apply (cancel_keeps s Navigation)|].
    set (s1 := cancel_phone_drive s Navigation). clearbody s1. keeps_field s1.
  - destruct (bool_decide _); [|done]. cbn [fst]. keeps_field s.
Qed.

Section Step.
Context (vesc_crc16 : list Z -> Z).
#[local] Abbreviation drive_step := (drive_step vesc_crc16).

Definition writes_of (r : DriveReply) : DriveWrites :=
  match r with DStep (Some writes) => writes | _ => [] end.

(** Where the authority after a call comes from. *)
Definition granted (c : DriveCall) (s s' : Session) (r : DriveReply) : Prop :=
  forall act', act_of s' = Some act' ->
    (exists token generation at_,
       c = DActivate token generation (act_limits act') at_ /\ r = DActivated (Ok (act_id act')) /\
       act_observed_at act' = None) \/
    (exists act, act_of s = Some act /\ act_id act' = act_id act /\ act_limits act' = act_limits act /\
       forall a, phase s' = PhasePressed a ->
         act_observed_at act' = act_observed_at act /\ phone_drive_input s' = phone_drive_input s \/
         exists token generation contact observed_at at_,
           c = DObserve token generation (Single contact (Some a)) observed_at at_ /\
           act_observed_at act' = Some observed_at /\ gen_of s' = Some generation).
Lemma grant_granted c s s' r : grant_kept s s' -> granted c s s' r.
Proof.
  intros [Ha Hi] act' (act & E & (?&?&?))%Ha. right. exists act. split_ands; [done..|].
  intros a Hp. left. split; [done|]. apply Hi. by rewrite Hp.
Qed.

Lemma drive_step_ok s c :
  drive_ok s ->
  let '(s', r) := drive_step s c in
  drive_ok s' /\ ordered s s' (writes_of r) /\ emission vesc_crc16 s' (Some (writes_of r)) /\
  granted c s s' r.
Proof.
  intros Hs.
  assert (Hquiet : forall s' r, writes_of r = [] ->
    drive_ok s' /\ grant_kept s s' /\ ordered s s' [] ->
    drive_ok s' /\ ordered s s' (writes_of r) /\ emission vesc_crc16 s' (Some (writes_of r)) /\
    granted c s s' r).
  { intros s' r -> (?&?&?). split_ands; [done|done|by left|by apply grant_granted]. }
  assert (Hkeeps : forall s' r, writes_of r = [] -> keeps s s' ->
    drive_ok s' /\ ordered s s' (writes_of r) /\ emission vesc_crc16 s' (Some (writes_of r)) /\
    granted c s s' r).
  { intros s' r Hr K. apply Hquiet; [done|]. split_ands; [by eapply keeps_ok|by apply keeps_grant|
      by apply keeps_ordered]. }
  assert (Hemit : forall s' w, emission vesc_crc16 s' w ->
    emission vesc_crc16 s' (Some (writes_of (DStep w)))).
  { intros s' [w|] [E|(p & b & ? & ? & ? & E & ?)]; simpl in *; try done; [by left| |by left].
    right. exists p, b. by simplify_eq. }
  destruct c; cbn [PhoneDrive.drive_step relabel fst snd].
  - destruct (activate_cases s token generation limits at_ Hs) as (H1 & H2 & H3).
    destruct (activate_phone_drive s token generation limits at_) as [s' r]. cbn [fst snd] in *.
    destruct r as [id|e].
    + split_ands; [done|done|by left|]. destruct H3 as (_ & _ & Hact).
      destruct Hact as (_&_&_&_&_&_&_&_&Ha&_). intros act' Hact'. rewrite Ha in Hact'.
      injection Hact' as <-. left. by exists token, generation, at_.
    + by apply Hquiet.
  - destruct (observe_ok vesc_crc16 s token generation contacts observed_at at_ Hs)
      as (H1 & H2 & H3 & H4).
    destruct (observe_phone_drive_contacts_at _ _ _ _ _ _ _) as [s' w]. cbn [fst snd] in *.
    split_ands; [done|by destruct w|by apply Hemit|].
    destruct H4 as [H4|H4]; [by apply grant_granted|].
    intros act' (act & ? & ? & ? & ? & Hp)%H4. right. exists act. split_ands; [done..|].
    intros a Ha. right. destruct (Hp a Ha) as (Hg & k & ->). by eexists _, _, k, _, _.
  - destruct (tick_ok vesc_crc16 s token at_ can_submit Hs) as (H1 & H2 & H3 & H4).
    destruct (tick_phone_drive _ _ _ _ _) as [s' w]. cbn [fst snd] in *.
    split_ands; [done|by destruct w|by apply Hemit|by apply grant_granted].
  - apply Hkeeps; [done|]. apply mark_keeps.
  - apply Hkeeps; [done|]. apply preferences_keeps.
  - apply Hkeeps; [done|]. apply presented_keeps.
  - apply Hkeeps; [done|]. etrans; [apply keeps_last_input|apply cancel_keeps].
  - apply Hquiet; [done|]. by apply begin_ok.
  - apply Hquiet; [done|]. by apply admit_ok.
  - apply Hquiet; [done|]. by apply disconnect_ok.
  - apply Hquiet; [done|]. apply lost_ok; [done|]. intros E. rewrite E. unfold link_down. by rewrite E.
  - apply Hquiet; [done|]. apply lost_ok; [done|]. intros E. rewrite E. unfold transport_failed. by rewrite E.
  - apply Hquiet; [done|]. by apply conflict_ok.
  - apply Hquiet; [done|]. by apply configure_ok.
  - apply Hquiet; [done|]. by apply resolve_ok.
  - apply Hquiet; [done|]. by apply ingest_ok.
  - apply Hquiet; [done|]. by apply quiet_connection.
  - apply Hquiet; [done|]. by apply quiet_connection.
  - apply Hquiet; [done|]. by apply quiet_connection.
  - apply Hkeeps; [done|]. keeps_field s.
  - apply Hkeeps; [done|]. apply cancel_keeps.
Qed.

#[export] Instance drive_invariant : Invariant drive_step drive_ok.
Proof. intros s c Hs. pose proof (drive_step_ok s c Hs) as H. destruct (drive_step s c). apply H. Qed.
Lemma default_session_ok : drive_ok default_session.
Proof.
  split; [|intros p; done]. by split.
Qed.
Lemma reached_ok calls : drive_ok (run_state drive_step default_session calls).
Proof. apply run_invariant, default_session_ok. apply _. Qed.
End Step.
