(* ===== verification/PhoneDriveTheorems.v ===== *)
(** * Phone control: the theorems

    Properties of the machine of [PhoneDrive.v] from its initial session, on the
    invariant of [PhoneDriveSafety.v]: what stands behind a motor-current write,
    the order of the writes, the dead man's switch, the refusals of an
    activation, and what a cancellation leaves. *)

From Stdlib Require Import Sorting.Sorted.
From S2P Require Import Prelude.
From S2P Require Import PhoneDriveInput VescFrame ConnectionLifecycle VehicleIdentity PhoneDrive.
From S2P Require Import PhoneDriveSafety.

#[local] Abbreviation Session := DeviceConnectionSession.

Section Theorems.
Context (vesc_crc16 : list Z -> Z).
#[local] Abbreviation drive_step := (drive_step vesc_crc16).
#[local] Abbreviation after calls := (run_state drive_step default_session calls).

(** ** Where authority comes from *)

(** The activation [id] was granted with [limits] by a call of the list; [rest]
    are the calls since. *)
Definition granted_by (calls : list DriveCall) (id : PhoneDriveActivationId)
    (limits : PhoneDriveLimits) (rest : list DriveCall) : Prop :=
  exists before token generation at_,
    calls = before ++ DActivate token generation limits at_ :: rest /\
    (drive_step (after before) (DActivate token generation limits at_)).2 = DActivated (Ok id).
(** One of the calls saw a single contact in the region of [action]. *)
Definition seen_in (calls : list DriveCall) (generation : Z) (action : PhoneDriveAction)
    (observed_at : Z) : Prop :=
  exists token contact at_,
    DObserve token generation (Single contact (Some action)) observed_at at_ ∈ calls.

Lemma live_history calls act :
  act_of (after calls) = Some act ->
  exists rest, granted_by calls (act_id act) (act_limits act) rest /\
    forall action observed_at, phase (after calls) = PhasePressed action ->
      act_observed_at act = Some observed_at ->
      exists generation, gen_of (after calls) = Some generation /\
        seen_in rest generation action observed_at.
Proof.
  revert act. induction calls as [|c calls IH] using rev_ind; intros act Hact.
  - done.
  - rewrite run_state_app, run_state_one in *.
    pose proof (drive_step_ok vesc_crc16 _ c (reached_ok vesc_crc16 calls)) as Hstep.
    destruct (drive_step (after calls) c) as [s' r] eqn:Ec. cbn [fst snd] in *.
    destruct Hstep as (_ & _ & _ & Hg).
    destruct (Hg act Hact) as [(token & g & at_ & -> & -> & Hno)|(act0 & Ha0 & Hid & Hl & Hev)].
    + exists []. split; [|by rewrite Hno]. exists calls, token, g, at_. split; [done|by rewrite Ec].
    + destruct (IH act0 Ha0) as (rest & (before & token & g & at_ & -> & Hr) & Hseen).
      exists (rest ++ [c]). split.
      { exists before, token, g, at_. rewrite Hid, Hl. split; [by rewrite <- app_assoc|done]. }
      intros action o Hp Ho. destruct (Hev action Hp) as [[Hobs Hin]|(t & g' & k & o' & a' & -> & Hobs & Hgen)].
      * rewrite (phase_of_input _ _ Hin) in Hp.
        destruct (Hseen action o Hp) as (gen & Hgen & t & k & a' & Hin'); [congruence|].
        exists gen. split; [unfold gen_of, snapshot_of in *; congruence|].
        exists t, k, a'. apply elem_of_app. by left.
      * exists g'. split; [done|]. exists t, k, a'. apply elem_of_app. right.
        rewrite Hobs in Ho. injection Ho as ->. apply list_elem_of_here.
Qed.

Lemma evidence_fresh_true o at_ :
  evidence_fresh o at_ = true <-> exists t, o = Some t /\ t <= at_ < t + INPUT_MAX_AGE_MS.
Proof.
  unfold evidence_fresh. destruct o as [t|].
  - rewrite andb_true_iff, !bool_decide_eq_true. split; [exists t; split; [done|lia]|].
    intros (? & [= <-] & ?). lia.
  - split; [done|by intros (? & ? & _)].
Qed.

(** What stands behind a setpoint that may be handed to the transport. *)
Definition backed_by_contact (calls : list DriveCall) (token : ConnectionAttemptToken)
    (write : PhoneDriveWrite) (at_ : Z) : Prop :=
  is_verified (connection (after calls)) token = true /\
  settings_presented_for (after calls) <> Some token /\
  exists p limits action observed_at rest,
    pend (after calls) = Some p /\ admission p = write /\ p_action p = Some action /\
    p_milliamps p = budget limits action /\
    granted_by calls (w_activation_id write) limits rest /\
    seen_in rest (w_generation write) action observed_at /\
    observed_at <= at_ < observed_at + INPUT_MAX_AGE_MS /\
    phase (after calls) = PhasePressed action.

(** C1: no current without a finger on the glass: whatever was called before, a
    setpoint passes the check made right before its submission only on a
    verified connection whose settings sheet is closed, under an activation the
    rider was granted with these very budgets, while the surface reads pressed,
    and because, since that activation, a single contact was reported in the
    region of this action less than 150 ms ago; its current is the budget of the
    action. *)
Theorem setpoint_needs_live_contact (calls : list DriveCall) (token : ConnectionAttemptToken)
    (write : PhoneDriveWrite) (at_ : Z) :
  phone_drive_transport_is_current (after calls) token write at_ = true ->
  w_kind write = Setpoint -> backed_by_contact calls token write at_.
Proof.
  intros H Hk. unfold phone_drive_transport_is_current in H.
  destruct (is_verified _ token) eqn:Hv; [|done]. cbn [negb] in H.
  rewrite (bool_decide_true (w_kind write = Setpoint)), andb_true_r in H by done.
  destruct (bool_decide (settings_presented_for _ = Some token)) eqn:Hp; [done|].
  apply bool_decide_eq_false in Hp. split; [done|]. split; [done|].
  fold (pend (after calls)) in H. destruct (pend (after calls)) as [p|] eqn:Ep; [|done].
  destruct (_ || _ || _) eqn:Eg; [done|]. rewrite Hk in H.
  apply orb_false_iff in Eg as [Eg _]. apply orb_false_iff in Eg as [Eg _].
  apply negb_false_iff, bool_decide_eq_true in Eg.
  fold (act_of (after calls)) in H. destruct (act_of (after calls)) as [act|] eqn:Ea; [|done].
  rewrite !andb_true_iff, !bool_decide_eq_true, evidence_fresh_true in H.
  destruct H as (((Hid & Hg) & Hph) & o & Ho & Hage).
  destruct (reached_ok vesc_crc16 calls) as [Hc _].
  destruct (ok_pending _ Hc p Ep) as (_ & _ & _ & [(Hn & _)|(_ & action & Hact & Hb)]); [congruence|].
  rewrite Hact in Hph.
  destruct (live_history calls act Ea) as (rest & Hgr & Hseen).
  destruct (Hseen action o Hph Ho) as (g & Hg' & Hs).
  exists p, (act_limits act), action, o, rest. split_ands; try done.
  - apply Hb; [done|congruence].
  - by rewrite <- Hid.
  - replace (w_generation write) with g; [done|]. unfold gen_of in Hg'. congruence.
  - lia.
  - lia.
Qed.

(** ** The writes of a run *)

Definition drive_writes (calls : list DriveCall) : DriveWrites :=
  concat (writes_of <$> run_outputs drive_step default_session calls).

Definition within_budget (calls : list DriveCall) (out : PhoneDriveWrite * list Z) : Prop :=
  match w_kind out.1 with
  | Release => encode_phone_drive_current vesc_crc16 None 0 = Some out.2
  | Setpoint => exists limits action rest,
      granted_by calls (w_activation_id out.1) limits rest /\
      encode_phone_drive_current vesc_crc16 (Some action) (budget limits action) = Some out.2
  end.

Lemma granted_by_more calls more id limits rest :
  granted_by calls id limits rest -> granted_by (calls ++ more) id limits (rest ++ more).
Proof.
  intros (before & token & g & at_ & -> & Hr). exists before, token, g, at_.
  split; [by rewrite <- app_assoc|done].
Qed.
Lemma within_budget_more calls more out :
  within_budget calls out -> within_budget (calls ++ more) out.
Proof.
  unfold within_budget. destruct (w_kind out.1); [|done].
  intros (limits & action & rest & Hg & He). exists limits, action, (rest ++ more).
  split; [by apply granted_by_more|done].
Qed.

(** The next write is numbered above all the earlier ones. *)
Definition numbered (s : Session) (writes : DriveWrites) : Prop :=
  StronglySorted Z.lt (w_sequence ∘ fst <$> writes) /\
  Forall (fun w => w_sequence w.1 <= seq s) writes /\
  (waiting s -> Forall (fun w => w_sequence w.1 < seq s) writes).

Lemma numbered_step s s' writes out :
  numbered s writes -> ordered s s' out -> emission vesc_crc16 s' (Some out) -> core_ok s' ->
  numbered s' (writes ++ out).
Proof.
  intros (Hs & Hle & Hlt) (Hseq & Hw & Ho) He Hc. unfold numbered.
  assert (Hmono : seq s < seq s' \/ waiting s -> Forall (fun w => w_sequence w.1 < seq s') writes).
  { intros [H|H]; [eapply Forall_impl; [exact Hle|]|eapply Forall_impl; [exact (Hlt H)|]];
      simpl; lia. }
  destruct He as [He|(p & bytes & Hp & Hem & _ & E & _)]; [|injection E as ->].
  - simpl in He. subst. rewrite app_nil_r. split_ands; [done| |].
    + eapply Forall_impl; [exact Hle|]. simpl. lia.
    + intros Hwait. apply Hmono, Hw, Hwait.
  - destruct (Ho ltac:(done)) as [Hnw Hlt']. specialize (Hmono Hlt').
    destruct (ok_pending _ Hc p Hp) as (Hsq & _). split_ands.
    + rewrite fmap_app. simpl. apply StronglySorted_snoc; [done|]. apply Forall_fmap.
      rewrite Hsq. exact Hmono.
    + apply Forall_app. split; [|repeat constructor; simpl; lia].
      eapply Forall_impl; [exact Hmono|]. simpl. lia.
    + intros Hwait. by destruct (Hnw Hwait).
Qed.

(** C3: writes are ordered and bounded: the drive writes of any run carry
    strictly increasing sequence numbers, so none goes out twice or after a
    later one; each neutral is the packet of zero current, and each setpoint the
    packet of the throttle or brake budget of the activation it names, which the
    rider was granted earlier in the run. *)
Theorem drive_writes_ordered (calls : list DriveCall) :
  StronglySorted Z.lt (w_sequence ∘ fst <$> drive_writes calls) /\
  Forall (within_budget calls) (drive_writes calls).
Proof.
  enough (H : numbered (after calls) (drive_writes calls) /\
              Forall (within_budget calls) (drive_writes calls)) by (destruct H as [(?&?&?) ?]; done).
  induction calls as [|c calls [IHn IHb]] using rev_ind.
  - split; [unfold numbered; split_ands; simpl; repeat constructor|constructor].
  - unfold drive_writes in *. rewrite run_outputs_app, fmap_app, concat_app, run_outputs_one.
    pose proof (drive_step_ok vesc_crc16 _ c (reached_ok vesc_crc16 calls)) as Hstep.
    pose proof (reached_ok vesc_crc16 (calls ++ [c])) as Hok.
    pose proof (live_history (calls ++ [c])) as Hlive.
    rewrite run_state_app, run_state_one in *.
    destruct (drive_step (after calls) c) as [s' r] eqn:Ec. cbn [fst snd] in *.
    destruct Hstep as ([Hc _] & Ho & He & _). simpl. rewrite app_nil_r.
    split; [by eapply numbered_step|]. apply Forall_app. split.
    { eapply Forall_impl; [exact IHb|]. intros w. apply within_budget_more. }
    destruct He as [He|(p & bytes & Hp & _ & Henc & E & Hissued)]; [simpl in He; by rewrite He|].
    injection E as ->.
    repeat constructor. unfold within_budget. cbn [fst snd].
    destruct (ok_pending _ Hc p Hp) as (_ & _ & _ & [(-> & Ea & Em)|(Hk & action & Ha & Hb)]).
    + by rewrite <- Ea, <- Em.
    + rewrite Hk. destruct (Hissued Hk) as (act & Hact & Hid).
      destruct (Hlive act Hact) as (rest & Hg & _).
      exists (act_limits act), action, rest. rewrite <- Hid. split; [done|].
      by rewrite <- Ha, <- (Hb act Hact Hid).
Qed.

(** ** Cancellation *)

(** No setpoint may be handed to the transport, at any time. *)
Definition no_setpoint_admitted (s : Session) (token : ConnectionAttemptToken) : Prop :=
  forall write at_, w_kind write = Setpoint ->
    phone_drive_transport_is_current s token write at_ = false.

(** No identity is used up. *)
Definition not_exhausted (s : Session) (at_ : Z) : Prop :=
  seq s + 1 <= u64_max /\ at_ + SUBMISSION_WINDOW_MS <= u64_max /\
  exists g, gen_of s = Some g /\ g + 1 <= u64_max.

Lemma cancel_input_gen i reason g :
  snap_generation (input_snapshot i) = Some g -> g + 1 <= u64_max ->
  input_snapshot (input_cancel i reason)
  = {| snap_mode := mode i; snap_generation := Some (g + 1); snap_phase := PhaseCancelled reason |}.
Proof.
  destruct i as [m [g' ge|]]; cbn; [|done]. intros [= ->] Hg. unfold input_cancel. simpl.
  by rewrite (proj2 (checked_add_Some u64_max g 1 (g + 1)) ltac:(lia)).
Qed.

(** What a cancellation leaves for the timer. *)
Definition neutral_waiting (s s' : Session) (at_ : Z) : Prop :=
  connection s' = connection s /\ device s' = device s /\ last_input_at s' = last_input_at s /\
  is_pressed (phase s') = false /\
  exists p, pend s' = Some p /\ neutral p /\ emitted p = false /\
    w_submit_before_ms (admission p) = at_ + SUBMISSION_WINDOW_MS.

Lemma cancel_leaves_neutral s act reason :
  act_of s = Some act -> pending_release s = false -> reason <> ConnectionChanged ->
  not_exhausted s (last_input_at s) ->
  neutral_waiting s (cancel_phone_drive s reason) (last_input_at s).
Proof.
  intros Ha Hr Hreason (Hq & Hd & g & Hg & Hg1). unfold cancel_phone_drive.
  rewrite bool_decide_false by done.
  pose proof (cancel_input_gen (phone_drive_input s) reason g Hg Hg1) as Hsnap.
  set (s1 := with_input s (input_cancel (phone_drive_input s) reason)).
  assert (H1 : act_of s1 = act_of s /\ pending_release s1 = pending_release s /\
    last_input_at s1 = last_input_at s /\ seq s1 = seq s /\ connection s1 = connection s /\
    device s1 = device s /\ phone_drive_input s1 = input_cancel (phone_drive_input s) reason)
    by (by open_session s).
  clearbody s1. destruct H1 as (E1 & E2 & E3 & E4 & E5 & E6 & E7).
  fold (act_of s1). rewrite E1, Ha, E2, Hr, E3.
  destruct (prepare_cases s1 None 0 (last_input_at s))
    as [H|[H|H]|act1 g1 s2 Ha1 Hg1' Hq1 Hd1 Ec Ev Eu El Ept Esp Ei Ep Eseq Epend Eact].
  - lia.
  - congruence.
  - unfold gen_of, snapshot_of in H. rewrite E7, Hsnap in H. done.
  - assert (Hfin : forall s3, connection s3 = connection s2 -> device s3 = device s2 ->
      last_input_at s3 = last_input_at s2 -> phone_drive_input s3 = phone_drive_input s2 ->
      pend s3 = pend s2 -> neutral_waiting s s3 (last_input_at s)).
    { intros s3 F1 F2 F3 F4 F5. unfold neutral_waiting. rewrite F1, F2, F3, F5, Epend.
      split_ands; [congruence..| |].
      - unfold phase, snapshot_of. by rewrite F4, Ep, E7, Hsnap.
      - by eexists. }
    fold (act_of s2). rewrite Eact.
    destruct (gesture_local_cancel reason); apply Hfin; open_session s2; done.
Qed.

(** A tick inside the window sends it. *)
Lemma tick_sends_neutral s token p at_ :
  drive_ok s -> is_verified (connection s) token = true ->
  pend s = Some p -> neutral p -> emitted p = false -> is_pressed (phase s) = false ->
  last_input_at s <= at_ < w_submit_before_ms (admission p) ->
  exists bytes, encode_phone_drive_current vesc_crc16 None 0 = Some bytes /\
    (tick_phone_drive vesc_crc16 s token at_ true).2 = Some [(admission p, bytes)] /\
    act_of (tick_phone_drive vesc_crc16 s token at_ true).1 = act_of s.
Proof.
  intros [Hc _] Hv Hp (Hk & Ha & Hm) He Hph [Hlo Hhi].
  destruct (encode_phone_drive_current vesc_crc16 None 0) as [bytes|] eqn:Eb;
    [|unfold encode_phone_drive_current in Eb; by rewrite bool_decide_false in Eb by done].
  exists bytes. split; [done|]. unfold tick_phone_drive. rewrite Hv. cbn [negb].
  rewrite (bool_decide_false (at_ < last_input_at s)) by lia.
  rewrite (Z.max_l at_ (last_input_at s)) by lia.
  unfold advance_phone_drive_deadlines. change (snap_phase (snapshot_of s)) with (phase s).
  rewrite Hph. cbn [andb]. fold (pend s). rewrite Hp.
  rewrite (bool_decide_false (w_submit_before_ms (admission p) <= at_)) by lia.
  fold (pend s). rewrite Hp, (bool_decide_false (Some p = None)) by done. cbn [andb].
  unfold finish_step. rewrite phone_drive_step_verified by done.
  destruct (ok_authority _ Hc) as [_ HA]; [right; by rewrite Hp|].
  destruct (HA (is_verified_ready _ _ Hv)) as (d & Hd & Hstep & _). rewrite Hd, Hstep.
  set (s1 := with_last_input s _).
  assert (H1 : pend s1 = pend s /\ act_of s1 = act_of s) by (by open_session s).
  destruct H1 as [Ep1 Ea1]. clearbody s1. unfold append_phone_drive_write. fold (pend s1).
  rewrite Ep1, Hp, He.
  rewrite (bool_decide_false (w_submit_before_ms (admission p) <= at_)) by lia. cbn [orb negb].
  rewrite Ha, Hm, Eb. unfold relabel. cbn [fst snd]. split; [done|]. rewrite <- Ea1.
  by open_session s1.
Qed.

(** The session asks to be woken while a press is held. *)
Lemma held_wakeup s act action observed_at at_ can_submit :
  act_of s = Some act -> phase s = PhasePressed action -> act_observed_at act = Some observed_at ->
  observed_at + INPUT_MAX_AGE_MS <= at_ -> not_exhausted s at_ ->
  exists wakeup, phone_drive_next_wakeup_at s can_submit = Some wakeup /\
    wakeup <= observed_at + INPUT_MAX_AGE_MS.
Proof.
  intros Ha Hph Ho Hold (_ & Hd & _). unfold phone_drive_next_wakeup_at. fold (pend s) (act_of s).
  change (snap_phase (snapshot_of s)) with (phase s). rewrite Hph, Ha. cbn [is_pressed].
  change (Some act ≫= ?f) with (f act). cbn beta. rewrite Ho.
  change (Some observed_at ≫= ?f) with (f observed_at). cbn beta.
  rewrite (proj2 (checked_add_Some u64_max observed_at INPUT_MAX_AGE_MS
    (observed_at + INPUT_MAX_AGE_MS)))
    by (split; [|done]; unfold SUBMISSION_WINDOW_MS in *; lia).
  match goal with |- context [min_option ?x] => set (l := x) end.
  assert (Hin : observed_at + INPUT_MAX_AGE_MS ∈ l).
  { unfold l. apply list_elem_of_omap. eexists. split; [|reflexivity]. set_solver. }
  destruct (min_option l) as [m|] eqn:Em.
  - apply min_option_Some in Em as [_ Hm]. exists m. split; [done|by apply Hm].
  - apply min_option_None in Em. rewrite Em in Hin. by apply not_elem_of_nil in Hin.
Qed.

(** A tick on stale evidence is a cancellation, then the same tick. *)
Lemma stale_tick s token act action observed_at at_ :
  is_verified (connection s) token = true -> act_of s = Some act ->
  phase s = PhasePressed action -> act_observed_at act = Some observed_at ->
  last_input_at s <= at_ -> observed_at + INPUT_MAX_AGE_MS <= at_ ->
  let s1 := cancel_phone_drive (with_last_input s at_) InputExpired in
  last_input_at s1 = at_ -> is_pressed (phase s1) = false ->
  tick_phone_drive vesc_crc16 s token at_ true = tick_phone_drive vesc_crc16 s1 token at_ true.
Proof.
  cbv zeta. intros Hv Ha Hph Ho Hlast Hold. set (s1 := cancel_phone_drive _ _). intros El1 Hp1.
  assert (K : keeps s s1) by (etrans; [apply (keeps_last_input s at_)|apply cancel_keeps]).
  assert (Hadv : advance_phone_drive_deadlines s at_ = advance_phone_drive_deadlines s1 at_).
  { unfold advance_phone_drive_deadlines at 1. change (snap_phase (snapshot_of s)) with (phase s).
    fold (act_of s). rewrite Hph, Ha. cbn [is_pressed andb].
    change (Some act ≫= act_observed_at) with (act_observed_at act). rewrite Ho.
    destruct (evidence_fresh (Some observed_at) at_) eqn:Ef.
    { apply evidence_fresh_true in Ef as (? & [= <-] & ?). lia. }
    cbn [negb andb]. rewrite (bool_decide_true (is_Some (Some act))) by done.
    fold s1. unfold advance_phone_drive_deadlines.
    change (snap_phase (snapshot_of s1)) with (phase s1). by rewrite Hp1. }
  unfold tick_phone_drive. rewrite (k_connection _ _ K), Hv, El1. cbn [negb].
  rewrite (bool_decide_false (at_ < last_input_at s)) by lia.
  rewrite (bool_decide_false (at_ < at_)) by lia.
  rewrite (Z.max_l at_ (last_input_at s)), El1, Z.max_id by lia. by rewrite Hadv.
Qed.

(** C2: the dead man's switch: while a press is held under an activation of the
    verified vehicle, the session asks to be woken no later than when its last
    contact report is 150 ms old, whether or not the transport can take a
    packet; and a tick from then on, not older than the last input and at which
    the transport can take a packet, ends the activation and sends the packet
    of zero current, and nothing else, whatever became of the last setpoint, as
    long as no identity is used up.  (A tick at which the transport can take
    nothing sends nothing.) *)
Theorem stale_contact_releases (calls : list DriveCall) (token : ConnectionAttemptToken)
    (act : Activation) (action : PhoneDriveAction) (observed_at at_ : Z) (can_submit : bool) :
  let s := after calls in
  is_verified (connection s) token = true -> act_of s = Some act ->
  phase s = PhasePressed action -> act_observed_at act = Some observed_at ->
  last_input_at s <= at_ -> observed_at + INPUT_MAX_AGE_MS <= at_ -> not_exhausted s at_ ->
  (exists wakeup, phone_drive_next_wakeup_at s can_submit = Some wakeup /\
     wakeup <= observed_at + INPUT_MAX_AGE_MS) /\
  exists write bytes,
    (tick_phone_drive vesc_crc16 s token at_ true).2 = Some [(write, bytes)] /\
    w_kind write = Release /\ encode_phone_drive_current vesc_crc16 None 0 = Some bytes /\
    act_of (tick_phone_drive vesc_crc16 s token at_ true).1 = None.
Proof.
  cbv zeta. intros Hv Ha Hph Ho Hlast Hold Hne. pose proof (reached_ok vesc_crc16 calls) as Hok.
  set (s := after calls) in *. clearbody s. split; [by eapply held_wakeup|].
  assert (Hr : pending_release s = false) by (apply (ok_hold _ (proj1 Hok)); by rewrite Hph).
  set (s0 := with_last_input s at_). set (s1 := cancel_phone_drive s0 InputExpired).
  assert (K : keeps s s1) by (etrans; [apply (keeps_last_input s at_)|apply cancel_keeps]).
  assert (H0 : act_of s0 = Some act /\ pending_release s0 = false /\ last_input_at s0 = at_ /\
               not_exhausted s0 at_) by (rewrite <- Hr, <- Ha; by open_session s).
  destruct H0 as (Ha0 & Hr0 & Hl0 & Hne0).
  destruct (cancel_leaves_neutral s0 act InputExpired Ha0 Hr0 ltac:(done) ltac:(by rewrite Hl0))
    as (_ & _ & El1 & Hp1 & p & Epend & Hneu & Hem & Hsub).
  fold s1 in El1, Hp1, Epend. rewrite Hl0 in *.
  rewrite (stale_tick s token act action observed_at at_) by done. fold s0 s1.
  destruct (tick_sends_neutral s1 token p at_ (keeps_ok _ _ K Hok)) as (bytes & Henc & Hout & Hact);
    [by rewrite (k_connection _ _ K)|done|done|done|done| |].
  { rewrite El1, Hsub. unfold SUBMISSION_WINDOW_MS. lia. }
  exists (admission p), bytes. split_ands; [done|apply Hneu|done|].
  rewrite Hact. by apply cancel_final.
Qed.

(** A cancellation stops the motor and is final: when phone control of the
    verified vehicle is active, any lifecycle cancellation that is not older
    than the last input and has another reason than a changed connection leaves
    one packet of zero current, which the next tick within 50 ms at which the
    transport can take a packet sends as its only write, if no release was
    pending before and no identity is used up; and unless the reason was a slip
    of the gesture itself, no call after it puts out a setpoint or admits one
    to the transport until the rider activates again. *)
Theorem cancel_is_final (calls later : list DriveCall) (token : ConnectionAttemptToken)
    (act : Activation) (reason : PhoneDriveCancelReason) (at_ at' : Z) :
  let s := after calls in
  let cancelled := (drive_step s (DCancel reason at_)).1 in
  is_verified (connection s) token = true -> act_of s = Some act ->
  reason <> ConnectionChanged -> last_input_at s <= at_ ->
  (pending_release s = false -> not_exhausted s at_ ->
   at_ <= at' < at_ + SUBMISSION_WINDOW_MS ->
   exists write bytes,
     (tick_phone_drive vesc_crc16 cancelled token at' true).2 = Some [(write, bytes)] /\
     w_kind write = Release /\ encode_phone_drive_current vesc_crc16 None 0 = Some bytes) /\
  (gesture_local_cancel reason = false ->
   (forall id, DActivated (Ok id) ∉ run_outputs drive_step cancelled later) ->
   Forall (fun w => w_kind w.1 = Release)
     (concat (writes_of <$> run_outputs drive_step cancelled later)) /\
   no_setpoint_admitted (run_state drive_step cancelled later) token).
Proof.
  cbv zeta. intros Hv Ha Hreason Hlast. pose proof (reached_ok vesc_crc16 calls) as Hok.
  set (s := after calls) in *. clearbody s. cbn [PhoneDrive.drive_step fst].
  unfold cancel_phone_drive_at. rewrite (Z.max_r (last_input_at s) at_) by lia.
  set (s0 := with_last_input s at_). pose proof (keeps_last_input s at_) as K0. fold s0 in K0.
  assert (K : keeps s (cancel_phone_drive s0 reason)) by (etrans; [exact K0|apply cancel_keeps]).
  set (s1 := cancel_phone_drive s0 reason) in *. pose proof (keeps_ok _ _ K Hok) as Hok1. split.
  - intros Hr Hne Hwin.
    assert (H0 : act_of s0 = Some act /\ pending_release s0 = false /\ last_input_at s0 = at_ /\
                 not_exhausted s0 at_) by (rewrite <- Hr, <- Ha; by open_session s).
    destruct H0 as (Ha0 & Hr0 & Hl0 & Hne0).
    destruct (cancel_leaves_neutral s0 act reason Ha0 Hr0 Hreason ltac:(by rewrite Hl0))
      as (Ec1 & Ed1 & El1 & Hp1 & p & Epend & Hneu & Hem & Hsub).
    fold s1 in Ec1, Ed1, El1, Hp1, Epend. rewrite Hl0 in *.
    destruct (tick_sends_neutral s1 token p at' Hok1) as (bytes & Henc & Hout & _);
      [by rewrite (k_connection _ _ K)|done|done|done|done|lia|].
    exists (admission p), bytes. split_ands; [done|apply Hneu|done].
  - intros Hlocal Hno. assert (Hact : act_of s1 = None) by (by apply cancel_final).
    clearbody s1. clear -Hact Hno Hok1. revert s1 Hact Hno Hok1.
    induction later as [|c later IH]; intros s Hact Hno Hok.
    + split; [constructor|]. intros write t Hk. unfold run_state, phone_drive_transport_is_current.
      simpl. fold (pend s) (act_of s). rewrite Hact, Hk.
      destruct (is_verified _ _); [|done]. simpl. destruct (_ && _); [done|].
      destruct (pend s); [|done]. by destruct (_ || _ || _).
    + pose proof (drive_step_ok vesc_crc16 s c Hok) as Hstep.
      rewrite run_outputs_cons in *. rewrite run_state_cons.
      destruct (drive_step s c) as [s' r] eqn:Ec. cbn [fst snd] in *.
      destruct Hstep as (Hok' & _ & He & Hg).
      assert (Hact' : act_of s' = None).
      { destruct (act_of s') as [act'|] eqn:E; [|done]. exfalso.
        destruct (Hg act' E) as [(tk & g & a & -> & -> & _)|(act0 & H0 & _)]; [|congruence].
        apply (Hno (act_id act')). apply list_elem_of_here. }
      destruct (IH s' Hact') as [IH1 IH2]; [|done|].
      { intros id Hin. apply (Hno id). by apply list_elem_of_further. }
      split; [|done]. rewrite fmap_cons. cbn [concat]. apply Forall_app. split; [|done].
      destruct He as [He|(p & bytes & Hp & _ & _ & E & Hissued)]; [simpl in He; by rewrite He|].
      injection E as ->. repeat constructor. simpl. destruct (w_kind (admission p)) eqn:Hk; [|done].
      destruct (Hissued Hk) as (a & Ha & _). congruence.
Qed.

(** An activation is refused unless everything is in place, and a refusal
    grants nothing: it is accepted only on the verified connection whose
    preferences are loaded and whose sheet is closed, for the current input
    generation, with a supported vehicle, a surface that is enabled and idle, no
    controller fault, no unsent neutral and no settings work; it then holds
    exactly the requested budgets under a new identity, with no contact evidence
    and the surface waiting for a complete release; a refusal never changes the
    identity or budgets of an activation, nor adds one. *)
Theorem activation_refused (calls : list DriveCall) (token : ConnectionAttemptToken)
    (generation : Z) (limits : PhoneDriveLimits) (at_ : Z) :
  let s := after calls in
  let '(s', outcome) := activate_phone_drive s token generation limits at_ in
  match outcome with
  | Ok id => activation_guards s token generation at_ /\ pending_release s = false /\
             activated s s' limits at_ id /\ no_setpoint_admitted s' token
  | Err _ => forall act', act_of s' = Some act' ->
               exists act, act_of s = Some act /\ same_grant act act'
  end.
Proof.
  cbv zeta. pose proof (activate_cases _ token generation limits at_ (reached_ok vesc_crc16 calls))
    as (_ & _ & H).
  destruct (activate_phone_drive _ _ _ _ _) as [s' [id|e]]; cbn [fst snd] in *; [|apply H].
  destruct H as (Hg & Hr & Hact). split_ands; [done|done|done|]. intros write t Hk.
  destruct Hact as (_ & _ & _ & _ & _ & _ & Hp & _ & Ha & _).
  unfold phone_drive_transport_is_current. fold (pend s'). rewrite Hp.
  destruct (is_verified _ _); [|done]. simpl. by destruct (_ && _).
Qed.
End Theorems.

(** ** Witnesses *)

(** The throttle is held on an active board and its setpoint is out. *)
Definition board_pressed : list DriveCall :=
  board_active ++ [ DObserve board 7 throttle_held 3001 3001 ].
Definition first_setpoint : PhoneDriveWrite :=
  {| w_activation_id := 1; w_sequence := 1; w_generation := 7; w_submit_before_ms := 3051;
     w_kind := Setpoint |}.
Definition held_activation : Activation :=
  {| act_id := 1; act_limits := three_amps; act_observed_at := Some 3001;
     act_next_setpoint_at := Some 3051 |}.

Lemma setpoint_needs_live_contact_witness :
  backed_by_contact sum_crc board_pressed board first_setpoint 3010.
Proof. by apply (setpoint_needs_live_contact sum_crc); vm_compute. Defined.

Lemma stale_contact_releases_witness :
  exists write bytes,
    (tick_phone_drive sum_crc (run_state (drive_step sum_crc) default_session board_pressed)
       board 3160 true).2 = Some [(write, bytes)] /\ w_kind write = Release.
Proof.
  pose proof (stale_contact_releases sum_crc board_pressed board held_activation Throttle 3001 3160
    true) as H. cbv zeta in H.
  do 6 specialize (H ltac:(by vm_compute)).
  specialize (H ltac:(split; [by vm_compute|]; split; [by vm_compute|]; exists 7; split; by vm_compute)).
  destruct H as [_ (write & bytes & H1 & H2 & _)]. exists write, bytes. exact (conj H1 H2).
Defined.

Lemma cancel_is_final_witness :
  Forall (fun w => w_kind w.1 = Release)
    (concat (writes_of <$> run_outputs (drive_step sum_crc)
       (run_state (drive_step sum_crc) default_session (board_pressed ++ [DCancel Navigation 3060]))
       [DObserve board 8 Released 3061 3061; DObserve board 8 throttle_held 3062 3062])).
Proof.
  pose proof (cancel_is_final sum_crc board_pressed
    [DObserve board 8 Released 3061 3061; DObserve board 8 throttle_held 3062 3062]
    board held_activation Navigation 3060 3061) as H. cbv zeta in H.
  do 4 specialize (H ltac:(by vm_compute)). destruct H as [_ H].
  rewrite run_state_app, run_state_one. refine (proj1 (H eq_refl _)). intros id Hin. vm_compute in Hin.
  by repeat (apply elem_of_cons in Hin as [Hin|Hin]); try apply not_elem_of_nil in Hin.
Defined.
