(* ===== verification/SessionState.v ===== *)
(** * The session's state root

    [cutout-core/src/session_state.rs] and [HostSession] of
    [cutout-core/src/lib.rs]: what a session retains of the events a protocol
    decoder emits (telemetry, battery pages and their history, identity
    evidence, probes, the discovery inventory), and the operations that join
    connection and capture.  The slices of the root that no operation here
    reads (ride, camera, settings, actions, phone input) are left out, as are
    the texts shown in the device picker. *)

From stdpp Require Import sorting.
From S2P Require Import Prelude.
From S2P Require Import Quantities.
From S2P Require Import RequestQueue.
From S2P Require Import VehicleIdentity.
From S2P Require Import CaptureLifecycle.
From S2P Require Import ConnectionLifecycle.
From S2P Require Import Commands.
From S2P Require Import Telemetry.
From S2P Require Import Readback.
From S2P Require Import SessionIO.

(** ** Battery telemetry *)

Record BmsTelemetryState := {
  bms_latest : BatteryReadback;
  bms_pages : list BatteryReadback;
  observation_history : list BatteryReadback;
  next_observation_event_sequence : Z;
}.
#[global] Instance eta_bms : Eta BmsTelemetryState := fun r =>
  Build_BmsTelemetryState (bms_latest r) (bms_pages r) (observation_history r)
    (next_observation_event_sequence r).
Definition default_bms : BmsTelemetryState :=
  {| bms_latest := readback_unavailable; bms_pages := []; observation_history := [];
     next_observation_event_sequence := 0 |}.

Definition same_bms_page (l r : BatteryPageMetadata) : bool :=
  bool_decide (selector l = selector r) &&
  match page_tag l, page_tag r with
  | Some l, Some r => bool_decide (l = r)
  | None, None => true
  | Some _, None | None, Some _ => false
  end.
(** [page().is_some_and(|p| same_bms_page(p.page(), identity))]. *)
Definition has_identity (identity : BatteryPageMetadata) (r : BatteryReadback) : bool :=
  match br_page r with Some p => same_bms_page (payload_page p) identity | None => false end.
Definition holds_cells (r : BatteryReadback) : bool :=
  match br_page r with Some p => is_cell_voltage p | None => false end.

Definition assign_observation_event_sequence (self : BmsTelemetryState) (readback : BatteryReadback)
  : BmsTelemetryState * BatteryReadback :=
  if bool_decide (br_observed_at readback = None) || negb (holds_cells readback)
     || bool_decide (is_Some (observation_event_sequence readback))
  then (self, readback)
  else
    let sequence := next_observation_event_sequence self in
    (self <| next_observation_event_sequence := sat_add u64_max sequence 1 |>,
     with_observation_event_sequence readback sequence).

(** [position] and [remove]: the list without its first match. *)
Fixpoint remove_first {A} (f : A -> bool) (l : list A) : list A :=
  match l with [] => [] | x :: rest => if f x then rest else x :: remove_first f rest end.
Definition retain {A} (f : A -> bool) (l : list A) : list A := filter (fun x => f x = true) l.
Definition count_if {A} (f : A -> bool) (l : list A) : nat := length (retain f l).

Definition observe_page (self : BmsTelemetryState) (readback : BatteryReadback) : BmsTelemetryState :=
  match br_page readback with
  | None => self
  | Some page =>
      let identity := payload_page page in
      let self := self <| bms_pages :=
        retain (fun existing => negb (has_identity identity existing)) (bms_pages self) ++ [readback] |> in
      if is_cell_voltage page && bool_decide (is_Some (br_observed_at readback)) then
        let matching := count_if (has_identity identity) (observation_history self) in
        let history :=
          if bool_decide (matching = BMS_OBSERVATION_HISTORY_CYCLES)
          then remove_first (has_identity identity) (observation_history self)
          else observation_history self in
        self <| observation_history := history ++ [readback] |>
      else self
  end.
Definition observe_readback (self : BmsTelemetryState) (readback : BatteryReadback)
  : BmsTelemetryState :=
  let self := self <| bms_latest := readback |> in
  let self := match availability readback with
              | Available => self
              | Unavailable | Unsupported =>
                  self <| bms_pages := [] |> <| observation_history := [] |>
              end in
  observe_page self readback.
(** The condition the code asserts in debug builds after recording a cell page. *)
Definition bms_observation_history_max (cell_page_count : nat) : nat :=
  (cell_page_count * BMS_OBSERVATION_HISTORY_CYCLES)%nat.
Definition history_assertion (self : BmsTelemetryState) : bool :=
  bool_decide (length (observation_history self) <=
    bms_observation_history_max (count_if holds_cells (bms_pages self)))%nat.

Definition observation_summary (self : BmsTelemetryState) : BmsObservationSummary :=
  observation_summary_of (observation_history self).
Definition temperature_summary (self : BmsTelemetryState) : option BmsTemperatureSummary :=
  temperature_summary_of (bms_pages self).
Definition current_summary (self : BmsTelemetryState) : BmsCurrentSummary :=
  current_summary_of (bms_pages self).

(** ** Identity *)

Inductive PendingProbe := BegodeName | BegodeFirmware | BegodeImu.
Definition ALL_PROBES : list PendingProbe := [BegodeName; BegodeFirmware; BegodeImu].
#[global] Instance probe_eq_dec : EqDecision PendingProbe.
Proof. solve_decision. Defined.

Record ProtocolModelIdentity := { pmi_family : ProtocolFamily; model_id : Z }.
Inductive ProtocolModelIdentityEvidence :=
| ModelMissing | ModelId (identity : ProtocolModelIdentity) | ModelMalformed.

Record DiscoveryManufacturerDataSummary := { company_identifier : Z; payload_len : Z }.
(** Names and UUIDs are their bytes. *)
Record DiscoveryObservation := {
  o_platform_identifier : string;
  o_advertised_name : option (list Z);
  advertised_service_uuids : list (list Z);
  manufacturer_data : list DiscoveryManufacturerDataSummary;
  rssi_dbm : option Z;
}.
#[global] Instance manufacturer_eq_dec : EqDecision DiscoveryManufacturerDataSummary.
Proof. solve_decision. Defined.
#[global] Instance observation_eq_dec : EqDecision DiscoveryObservation.
Proof. solve_decision. Defined.
Record DiscoveryState := {
  discovered : list DiscoveryObservation;
  selected_platform_identifier : option string;
}.
#[global] Instance eta_discovery : Eta DiscoveryState := fun r =>
  Build_DiscoveryState (discovered r) (selected_platform_identifier r).
Definition default_discovery : DiscoveryState :=
  {| discovered := []; selected_platform_identifier := None |}.

Record DeviceIdentityState := {
  id_protocol_family : option ProtocolFamily;
  id_model : option string;
  discovery : DiscoveryState;
  id_firmware : option FirmwareInfo;
  id_advertised_name : option (list Z);
  model_banner : option (list Z);
  firmware_banner : option (list Z);
  imu_banner : option (list Z);
  protocol_model : ProtocolModelIdentityEvidence;
  protocol_conflict : bool;
  pending_probe_started_at : PendingProbe -> option Z;
  missing_probe_response : option PendingProbe;
  malformed_probe_response : option PendingProbe;
}.
#[global] Instance eta_identity : Eta DeviceIdentityState := fun r =>
  Build_DeviceIdentityState (id_protocol_family r) (id_model r) (discovery r) (id_firmware r)
    (id_advertised_name r) (model_banner r) (firmware_banner r) (imu_banner r) (protocol_model r)
    (protocol_conflict r) (pending_probe_started_at r) (missing_probe_response r)
    (malformed_probe_response r).
Definition default_identity : DeviceIdentityState :=
  {| id_protocol_family := None; id_model := None; discovery := default_discovery;
     id_firmware := None; id_advertised_name := None; model_banner := None;
     firmware_banner := None; imu_banner := None; protocol_model := ModelMissing;
     protocol_conflict := false; pending_probe_started_at := fun _ => None;
     missing_probe_response := None; malformed_probe_response := None |}.
Record DeviceIdentityUpdate := {
  up_protocol_family : option ProtocolFamily;
  up_model : option string;
  up_firmware : option FirmwareInfo;
}.
Definition firmware_update (firmware : FirmwareInfo) : DeviceIdentityUpdate :=
  {| up_protocol_family := None; up_model := None; up_firmware := Some firmware |}.

(** Array update. *)
Definition set_probe (f : PendingProbe -> option Z) (p : PendingProbe) (v : option Z)
  : PendingProbe -> option Z :=
  fun q => if bool_decide (q = p) then v else f q.

Definition reset_link_probes (self : DeviceIdentityState) : DeviceIdentityState :=
  self <| pending_probe_started_at := fun _ => None |> <| missing_probe_response := None |>
       <| malformed_probe_response := None |>.
Definition retire_pending_probes (self : DeviceIdentityState) : DeviceIdentityState :=
  self <| pending_probe_started_at := fun _ => None |> <| missing_probe_response := None |>
       <| malformed_probe_response := None |>.
Definition observe_probe_write (self : DeviceIdentityState) (probe : PendingProbe) (started_at : Z)
  : DeviceIdentityState :=
  self <| pending_probe_started_at := set_probe (pending_probe_started_at self) probe
            (Some (default started_at (pending_probe_started_at self probe))) |>.
Definition observe_probe_response (self : DeviceIdentityState) (probe : PendingProbe)
  : DeviceIdentityState :=
  self <| pending_probe_started_at := set_probe (pending_probe_started_at self) probe None |>.
Definition observe_probe_timeout (self : DeviceIdentityState) (probe : PendingProbe)
  : DeviceIdentityState * bool :=
  match pending_probe_started_at self probe with
  | None => (self, false)
  | Some _ =>
      (self <| pending_probe_started_at := set_probe (pending_probe_started_at self) probe None |>
            <| missing_probe_response := Some probe |>, true)
  end.
(** The body of the loop of [expire_pending_probes]. *)
Definition expire_probe (now timeout : Z) (acc : DeviceIdentityState * list PendingProbe)
    (probe : PendingProbe) : DeviceIdentityState * list PendingProbe :=
  let '(s, expired) := acc in
  match pending_probe_started_at s probe with
  | None => (s, expired)
  | Some started_at =>
      if bool_decide (timeout < sat_sub now started_at)
      then ((observe_probe_timeout s probe).1, expired ++ [probe]) else (s, expired)
  end.
Definition expire_pending_probes (self : DeviceIdentityState) (now timeout : Z)
  : DeviceIdentityState * list PendingProbe :=
  foldl (expire_probe now timeout) (self, []) ALL_PROBES.
Definition mark_pending_probes_missing (self : DeviceIdentityState)
  : DeviceIdentityState * list PendingProbe :=
  foldl (fun '(s, missing) probe =>
    match observe_probe_timeout s probe with
    | (s, true) => (s, missing ++ [probe])
    | (s, false) => (s, missing)
    end) (self, []) ALL_PROBES.
Definition next_probe_expiry (self : DeviceIdentityState) (timeout : Z) : option Z :=
  let delay := sat_add u64_max timeout 1 in
  min_option ((fun started_at => sat_add u64_max started_at delay) <$>
              omap (pending_probe_started_at self) ALL_PROBES).

Definition apply_update (self : DeviceIdentityState) (update : DeviceIdentityUpdate)
  : DeviceIdentityState :=
  self <| id_protocol_family := union (id_protocol_family self) (up_protocol_family update) |>
       <| id_model := union (id_model self) (up_model update) |>
       <| id_firmware := union (id_firmware self) (up_firmware update) |>.

(** ** Discovery *)

Definition same_platform (id : string) (o : DiscoveryObservation) : bool :=
  bool_decide (o_platform_identifier o = id).
(** What an observation takes over from the previous one of its peripheral. *)
Definition inherit (observation previous : DiscoveryObservation) : DiscoveryObservation :=
  {| o_platform_identifier := o_platform_identifier observation;
     o_advertised_name := union (o_advertised_name observation) (o_advertised_name previous);
     advertised_service_uuids :=
       foldl (fun uuids uuid => if bool_decide (uuid ∈ uuids) then uuids else uuids ++ [uuid])
         (advertised_service_uuids observation) (advertised_service_uuids previous);
     manufacturer_data := if bool_decide (manufacturer_data observation = [])
                          then manufacturer_data previous else manufacturer_data observation;
     rssi_dbm := union (rssi_dbm observation) (rssi_dbm previous) |}.
Definition discovery_observe (self : DiscoveryState) (observation : DiscoveryObservation)
  : DiscoveryState :=
  let same := same_platform (o_platform_identifier observation) in
  match list_find (fun o => same o = true) (discovered self) with
  | Some (index, previous) =>
      self <| discovered := delete index (discovered self) ++ [inherit observation previous] |>
  | None => self <| discovered := discovered self ++ [observation] |>
  end.
Definition select_platform (self : DiscoveryState) (id : string) : DiscoveryState :=
  self <| selected_platform_identifier := Some id |>.

(** ** The root and the events it observes *)

Record TelemetryState := {
  current_telemetry : TelemetrySnapshot;
  bms : BmsTelemetryState;
  raw_telemetry : RawTelemetryReadback;
}.
#[global] Instance eta_telemetry : Eta TelemetryState := fun r =>
  Build_TelemetryState (current_telemetry r) (bms r) (raw_telemetry r).
Inductive DeviceConnectionIntent := IntentUse | IntentReconnect | RecordOnly.
#[global] Instance intent_eq_dec : EqDecision DeviceConnectionIntent.
Proof. solve_decision. Defined.

Record CutoutSessionState := {
  device_connection_intent : DeviceConnectionIntent;
  connection : ConnectionAttemptLifecycle;
  capture : CaptureSessionLifecycle;
  identity : DeviceIdentityState;
  telemetry : TelemetryState;
  parser_diagnostics : ParserDiagnostics;
}.
#[global] Instance eta_root : Eta CutoutSessionState := fun r =>
  Build_CutoutSessionState (device_connection_intent r) (connection r) (capture r) (identity r)
    (telemetry r) (parser_diagnostics r).
Definition default_telemetry : TelemetryState :=
  {| current_telemetry := default_snapshot; bms := default_bms;
     raw_telemetry := default_raw_telemetry |}.
Definition default_root : CutoutSessionState :=
  {| device_connection_intent := IntentUse; connection := default_lifecycle;
     capture := default_session; identity := default_identity; telemetry := default_telemetry;
     parser_diagnostics := default_diagnostics |}.

Inductive SessionTelemetryRetention := RetainLive | RetainHistorical.
#[global] Instance retention_eq_dec : EqDecision SessionTelemetryRetention.
Proof. solve_decision. Defined.

Definition observe_read_only_response (self : CutoutSessionState) (response : ReadOnlyResponse)
  : CutoutSessionState :=
  match response with
  | RespFirmware firmware =>
      self <| identity := apply_update (identity self) (firmware_update firmware) |>
  | RespBattery readback =>
      self <| telemetry := telemetry self <| bms := observe_readback (bms (telemetry self)) readback |> |>
  | RespRawTelemetry readback => self <| telemetry := telemetry self <| raw_telemetry := readback |> |>
  | RespDiagnostics _ | RespSettings _ | RespFaultHistory _ => self
  end.
Definition drop_charging (s : TelemetrySnapshot) : TelemetrySnapshot :=
  let s := s <| t_charge_mode := None |> in
  if bool_decide (t_operating_state s = Some RideCharging) then s <| t_operating_state := None |> else s.
Definition observe_event (self : CutoutSessionState) (event : DeviceEvent)
    (retention : SessionTelemetryRetention) : CutoutSessionState :=
  match event with
  | EventTelemetry delta =>
      self <| telemetry := telemetry self <| current_telemetry :=
                apply_delta (current_telemetry (telemetry self)) delta |> |>
  | EventReadOnlyResponse response => observe_read_only_response self response
  | EventDiagnostics diagnostics =>
      self <| parser_diagnostics := merge_diagnostics (parser_diagnostics self) diagnostics |>
  | EventLinkUp _ | EventLinkDown =>
      if bool_decide (retention = RetainLive)
      then self <| telemetry := telemetry self <| current_telemetry :=
                     drop_charging (current_telemetry (telemetry self)) |> |>
      else self
  | EventTick _ | EventControlRefusal _ | EventDiagnosticError _ => self
  end.
Definition observe_output (self : CutoutSessionState) (output : SessionOutput)
    (retention : SessionTelemetryRetention) : CutoutSessionState :=
  match output with
  | OutEvent event => observe_event self event retention
  | OutTransport _ | OutNotificationIngest _ => self
  end.
Definition observe_outputs (self : CutoutSessionState) (outputs : list SessionOutput)
    (retention : SessionTelemetryRetention) : CutoutSessionState :=
  foldl (fun s o => observe_output s o retention) self outputs.

Definition begin_capture (self : CutoutSessionState) (origin : CaptureOrigin)
    (ownership : CaptureTransportOwnership) (connection_attempt : option ConnectionAttemptToken)
  : CutoutSessionState * option CaptureGeneration :=
  if is_some_and connection_attempt (fun token => negb (ConnectionLifecycle.is_current (connection self) token))
  then (self, None) else
  match ownership with
  | OwnBorrowed =>
      let '(c, g) := begin_with_transport (capture self) origin OwnBorrowed None in
      (self <| capture := c |>, g)
  | CaptureOwned =>
      if negb (bool_decide (device_connection_intent self = RecordOnly)) then (self, None) else
      match connection_attempt with
      | None => (self, None)
      | Some token =>
          let '(c, g) := begin_with_transport (capture self) origin CaptureOwned (Some token) in
          (self <| capture := c |>, g)
      end
  end.
Definition finish_capture_flush (self : CutoutSessionState) (token : CaptureFinishToken)
    (succeeded : bool) : CutoutSessionState * CaptureTransportRelease :=
  let '(c, r) := finish_flush_with_transport (capture self) token succeeded
                   (s_token (snapshot (connection self))) in
  (self <| capture := c |>, r).
Definition should_retry_identification (self : CutoutSessionState) : bool :=
  match device_connection_intent self with IntentReconnect => true | IntentUse | RecordOnly => false end.
Definition reset_device_identity (self : CutoutSessionState) : CutoutSessionState :=
  self <| identity := default_identity <| discovery := discovery (identity self) |> |>.

(** ** The host of a protocol session *)

(** The trait a protocol engine implements, without its methods for
    application queries and host time, which the host forwards. *)
Class ProtocolSession (S : Type) := {
  ps_handle : S -> SessionInput -> S * list SessionOutput;
  telemetry_retention : S -> SessionTelemetryRetention;
}.

Section Host.
Context {S : Type} `{ProtocolSession S}.

Record HostSession := { protocol_session : S; host_state : CutoutSessionState;
                        host_output : list SessionOutput }.

(** Stamp the battery readbacks of a step and number its cell pages. *)
Definition stamp_output (observed_at : Z) (state : CutoutSessionState) (output : SessionOutput)
  : CutoutSessionState * SessionOutput :=
  match output with
  | OutEvent (EventReadOnlyResponse (RespBattery readback)) =>
      let '(b, readback) := assign_observation_event_sequence (bms (telemetry state))
                              (with_observed_at readback observed_at) in
      (state <| telemetry := telemetry state <| bms := b |> |>,
       OutEvent (EventReadOnlyResponse (RespBattery readback)))
  | _ => (state, output)
  end.
Definition stamp_outputs (observed_at : option Z) (state : CutoutSessionState)
    (outputs : list SessionOutput) : CutoutSessionState * list SessionOutput :=
  match observed_at with
  | Some at_ => run (stamp_output at_) state outputs
  | None => (state, outputs)
  end.
Definition observed_at_of (input : SessionInput) : option Z :=
  match input with
  | InNotification _ _ monotonic_ms | InTick monotonic_ms => Some monotonic_ms
  | InLinkUp _ | InLinkDown | InCommand _ => None
  end.
Definition host_handle (h : HostSession) (input : SessionInput)
  : HostSession :=
  let '(s, outputs) := ps_handle (protocol_session h) input in
  let '(state, outputs) := stamp_outputs (observed_at_of input) (host_state h) outputs in
  {| protocol_session := s;
     host_state := observe_outputs state outputs (telemetry_retention s);
     host_output := host_output h ++ outputs |}.
Definition drain_outputs (h : HostSession) : HostSession * list SessionOutput :=
  ({| protocol_session := protocol_session h; host_state := host_state h; host_output := [] |},
   host_output h).
End Host.

(** ** What is retained of the battery pages *)

(** Two metadata belong to one page when selector and tag agree. *)
Definition page_id (m : BatteryPageMetadata) : Z * option Z := (selector m, page_tag m).
Lemma same_bms_page_spec l r : same_bms_page l r = bool_decide (page_id l = page_id r).
Proof.
  unfold same_bms_page, page_id. destruct l as [sl [tl|] lk lv], r as [sr [tr|] rk rv]; simpl;
    repeat case_bool_decide; simpl; congruence.
Qed.
Definition readback_id (r : BatteryReadback) : option (Z * option Z) :=
  (fun p => page_id (payload_page p)) <$> br_page r.
Lemma has_identity_spec i r : has_identity i r = bool_decide (readback_id r = Some (page_id i)).
Proof.
  unfold has_identity, readback_id. destruct (br_page r) as [p|]; [|by rewrite bool_decide_eq_false_2].
  rewrite same_bms_page_spec. simpl. repeat case_bool_decide; congruence.
Qed.

(** The reference: the readbacks since the last one that reported no data (it
    included), and of those the timestamped cell pages of one identity. *)
Fixpoint since_reset_from (kept rbs : list BatteryReadback) : list BatteryReadback :=
  match rbs with
  | [] => kept
  | r :: rest =>
      since_reset_from (match availability r with Available => kept | _ => [] end ++ [r]) rest
  end.
Definition since_reset := since_reset_from [].
Definition is_timed_cells (r : BatteryReadback) : bool :=
  holds_cells r && bool_decide (is_Some (br_observed_at r)).
Definition timed_cells (i : BatteryPageMetadata) (rbs : list BatteryReadback) : list BatteryReadback :=
  retain (fun r => is_timed_cells r && has_identity i r) rbs.
Definition lastn {A} (n : nat) (l : list A) : list A := drop (length l - n) l.

Lemma since_reset_snoc rbs r :
  since_reset (rbs ++ [r]) =
  match availability r with Available => since_reset rbs | _ => [] end ++ [r].
Proof.
  unfold since_reset. assert (H : forall kept, since_reset_from kept (rbs ++ [r]) =
    match availability r with Available => since_reset_from kept rbs | _ => [] end ++ [r]); [|done].
  induction rbs as [|x rbs IH]; intros kept; simpl; [done|]. by rewrite IH.
Qed.

Lemma retain_app {A} (f : A -> bool) l k : retain f (l ++ k) = retain f l ++ retain f k.
Proof. apply filter_app. Qed.
Lemma retain_one {A} (f : A -> bool) x : retain f [x] = if f x then [x] else [].
Proof.
  unfold retain. rewrite filter_cons. destruct (f x);
    [by rewrite decide_True by done|by rewrite decide_False by done].
Qed.
Lemma retain_cons {A} (f : A -> bool) x l : retain f (x :: l) = if f x then x :: retain f l else retain f l.
Proof.
  unfold retain. rewrite filter_cons. destruct (f x);
    [by rewrite decide_True by done|by rewrite decide_False by done].
Qed.
Lemma retain_retain_same {A} (f g : A -> bool) l :
  (forall x, f x = true -> g x = false) -> retain f (retain (fun x => negb (g x)) l) = retain f l.
Proof.
  intros H. induction l as [|x l IH]; [done|]. rewrite !retain_cons.
  destruct (f x) eqn:Ef; [rewrite (H _ Ef)|]; simpl; rewrite ?retain_cons, ?Ef, ?IH; [done|].
  destruct (g x); simpl; rewrite ?retain_cons, ?Ef, ?IH; done.
Qed.
Lemma retain_retain_none {A} (f : A -> bool) l : retain f (retain (fun x => negb (f x)) l) = [].
Proof.
  induction l as [|x l IH]; [done|]. rewrite retain_cons. destruct (f x) eqn:E; simpl; [done|].
  by rewrite retain_cons, E.
Qed.
Lemma remove_first_same {A} (f : A -> bool) l : retain f (remove_first f l) = tail (retain f l).
Proof.
  induction l as [|x l IH]; [done|]. simpl. rewrite retain_cons. destruct (f x) eqn:E; [done|].
  by rewrite retain_cons, E.
Qed.
Lemma remove_first_other {A} (f g : A -> bool) l :
  (forall x, f x = true -> g x = false) -> retain f (remove_first g l) = retain f l.
Proof.
  intros H. induction l as [|x l IH]; [done|]. simpl. rewrite retain_cons.
  destruct (g x) eqn:Eg; [|by rewrite retain_cons, IH].
  destruct (f x) eqn:Ef; [|done]. rewrite (H _ Ef) in Eg. done.
Qed.
Lemma lastn_snoc {A} n (l : list A) x :
  (0 < n)%nat ->
  lastn n (l ++ [x]) = (if bool_decide (length (lastn n l) = n) then tail (lastn n l) else lastn n l) ++ [x].
Proof.
  intros Hn. unfold lastn. rewrite length_app, length_drop. simpl.
  case_bool_decide as E.
  - rewrite drop_app_le by lia. f_equal.
    replace (length l + 1 - n)%nat with (length l - n + 1)%nat by lia.
    rewrite <- drop_drop. by destruct (drop (length l - n) l).
  - replace (length l + 1 - n)%nat with 0%nat by lia. replace (length l - n)%nat with 0%nat by lia.
    done.
Qed.
Lemma lastn_nil {A} n : @lastn A n [] = [].
Proof. apply drop_nil. Qed.
Lemma last_retain_snoc {A} (f : A -> bool) l x :
  last (retain f (l ++ [x])) = if f x then Some x else last (retain f l).
Proof.
  rewrite retain_app, retain_one. destruct (f x); [apply last_snoc|by rewrite app_nil_r].
Qed.

Lemma has_identity_disjoint i j r :
  page_id i <> page_id j -> has_identity i r = true -> has_identity j r = false.
Proof.
  rewrite !has_identity_spec. intros Hne H. prop_bools. apply bool_decide_eq_false. congruence.
Qed.
Lemma has_identity_same i j r : page_id i = page_id j -> has_identity i r = has_identity j r.
Proof. rewrite !has_identity_spec. by intros ->. Qed.


(** Recording one cell page, for its own identity and for the others. *)
Lemma observe_page_own s r p i :
  br_page r = Some p -> page_id (payload_page p) = page_id i ->
  retain (has_identity i) (bms_pages (observe_page s r)) = [r] /\
  retain (has_identity i) (observation_history (observe_page s r)) =
    (if is_timed_cells r
     then (if bool_decide (length (retain (has_identity i) (observation_history s)) = 7%nat)
           then tail (retain (has_identity i) (observation_history s))
           else retain (has_identity i) (observation_history s)) ++ [r]
     else retain (has_identity i) (observation_history s)).
Proof.
  intros Er He. assert (Hext : forall x, has_identity (payload_page p) x = has_identity i x)
    by (intros; by apply has_identity_same).
  assert (Hi : has_identity i r = true).
  { rewrite has_identity_spec. unfold readback_id. rewrite Er. apply bool_decide_eq_true. simpl. congruence. }
  assert (Hr : forall (f g : BatteryReadback -> bool) l, (forall x, f x = g x) -> retain f l = retain g l).
  { intros f g l H. apply list_filter_iff. intros x. by rewrite H. }
  unfold observe_page, is_timed_cells, holds_cells. rewrite Er. destruct s as [la pg hs nx].
  assert (Hp : forall l, retain (has_identity i)
      (retain (fun x => negb (has_identity (payload_page p) x)) l ++ [r]) = [r]).
  { intros l. rewrite retain_app, retain_one, Hi.
    rewrite (Hr _ (fun x => negb (has_identity i x)) l) by (intros; by rewrite Hext).
    by rewrite retain_retain_none. }
  destruct (is_cell_voltage p && bool_decide (is_Some (br_observed_at r))) eqn:Ec; simpl;
    (split; [apply Hp|]); [|done].
  rewrite retain_app, retain_one, Hi. f_equal. unfold count_if, BMS_OBSERVATION_HISTORY_CYCLES.
  rewrite (Hr (has_identity (payload_page p)) (has_identity i)) by done.
  clear Ec. case_bool_decide; [|done]. rewrite <- remove_first_same. f_equal.
  clear -Hext. induction hs as [|x l IH]; [done|]. simpl. rewrite Hext.
  by destruct (has_identity i x); f_equal.
Qed.
Lemma observe_page_other s r i :
  has_identity i r = false ->
  retain (has_identity i) (bms_pages (observe_page s r)) = retain (has_identity i) (bms_pages s) /\
  retain (has_identity i) (observation_history (observe_page s r)) =
    retain (has_identity i) (observation_history s).
Proof.
  intros Hi. unfold observe_page. destruct (br_page r) as [p|] eqn:Er; [|done].
  destruct s as [la pg hs nx].
  assert (Hd : forall x, has_identity i x = true -> has_identity (payload_page p) x = false).
  { intros x Hx. apply (has_identity_disjoint i); [|done]. rewrite has_identity_spec in Hi.
    unfold readback_id in Hi. rewrite Er in Hi. apply bool_decide_eq_false in Hi. simpl in Hi. congruence. }
  destruct (is_cell_voltage p && bool_decide (is_Some (br_observed_at r))) eqn:Ec; simpl; split;
    rewrite ?retain_app, ?retain_one, ?Hi, ?app_nil_r; try done; try (by apply retain_retain_same).
  clear Ec. case_bool_decide; [|done]. by apply remove_first_other.
Qed.

Lemma observe_page_latest s r : bms_latest (observe_page s r) = bms_latest s.
Proof. unfold observe_page. destruct s, (br_page r); [|done]. simpl. by case_match. Qed.
Lemma observe_page_id i r p : br_page r = Some p -> has_identity i r = true ->
  page_id (payload_page p) = page_id i.
Proof.
  rewrite has_identity_spec. unfold readback_id. intros ->. simpl. intros H%bool_decide_eq_true. congruence.
Qed.

Lemma bms_retained rbs i :
  let s := foldl observe_readback default_bms rbs in
  bms_latest s = default readback_unavailable (last rbs) /\
  retain (has_identity i) (bms_pages s) =
    option_list (last (retain (has_identity i) (since_reset rbs))) /\
  retain (has_identity i) (observation_history s) =
    lastn BMS_OBSERVATION_HISTORY_CYCLES (timed_cells i (since_reset rbs)).
Proof.
  cbv zeta. induction rbs as [|r rbs (IHl & IHp & IHh)] using rev_ind; [by split_ands|].
  rewrite foldl_snoc, last_snoc, since_reset_snoc.
  set (s := foldl observe_readback default_bms rbs) in *. set (kept := since_reset rbs) in *.
  assert (Hpre : exists s0 kept0, observe_readback s r = observe_page s0 r /\ bms_latest s0 = r /\
     kept0 = match availability r with Available => kept | _ => [] end /\
     retain (has_identity i) (bms_pages s0) = option_list (last (retain (has_identity i) kept0)) /\
     retain (has_identity i) (observation_history s0) =
       lastn BMS_OBSERVATION_HISTORY_CYCLES (timed_cells i kept0)).
  { clearbody s kept. destruct s as [la pg hs nx]. unfold observe_readback.
    destruct (availability r); do 2 eexists; (split; [reflexivity|]); split_ands; done. }
  destruct Hpre as (s0 & kept0 & -> & Hl & -> & Hp & Hh). clear IHl IHp IHh.
  set (kept0 := match availability r with Available => kept | _ => [] end) in *.
  rewrite observe_page_latest. split; [exact Hl|].
  rewrite last_retain_snoc. unfold timed_cells. rewrite retain_app, retain_one. fold (timed_cells i kept0).
  destruct (has_identity i r) eqn:Hi.
  - assert (exists p, br_page r = Some p) as [p Er]
      by (unfold has_identity in Hi; destruct (br_page r); [eauto|done]).
    destruct (observe_page_own s0 r p i Er (observe_page_id _ _ _ Er Hi)) as [-> ->].
    split; [done|]. rewrite Hh, andb_true_r. destruct (is_timed_cells r); [|by rewrite app_nil_r].
    unfold BMS_OBSERVATION_HISTORY_CYCLES. by rewrite lastn_snoc by lia.
  - destruct (observe_page_other s0 r i Hi) as [-> ->]. by rewrite andb_false_r, app_nil_r.
Qed.

(** The session retains exactly the recent battery pages.  After any
    readbacks, in any order and of any kinds: the latest readback is the last
    one; for every page identity (selector and tag) the retained page is the
    last one with that identity since the device last reported having no data;
    and the retained history of that identity is its last seven timestamped
    cell pages since then, oldest first. *)
Theorem bms_retains_recent_pages rbs i :
  let s := foldl observe_readback default_bms rbs in
  bms_latest s = default readback_unavailable (last rbs) /\
  retain (has_identity i) (bms_pages s) =
    option_list (last (retain (has_identity i) (since_reset rbs))) /\
  retain (has_identity i) (observation_history s) =
    lastn BMS_OBSERVATION_HISTORY_CYCLES (timed_cells i (since_reset rbs)).
Proof. apply bms_retained. Qed.

Lemma remove_first_elem {A} (f : A -> bool) l x : x ∈ remove_first f l -> x ∈ l.
Proof. induction l as [|y l IH]; simpl; [done|]. destruct (f y); set_solver. Qed.
Lemma observe_page_elem s x r :
  r ∈ observation_history (observe_page s x) ->
  r ∈ observation_history s \/ (r = x /\ is_timed_cells x = true).
Proof.
  unfold observe_page, is_timed_cells, holds_cells. destruct (br_page x) as [p|]; [|auto].
  destruct s as [la pg hs nx].
  destruct (is_cell_voltage p && bool_decide (is_Some (br_observed_at x))) eqn:E; simpl; [|auto].
  intros [H| ->%list_elem_of_singleton]%elem_of_app; [|auto].
  left. destruct (bool_decide _) in H; [by apply remove_first_elem in H|done].
Qed.
Lemma history_elem rbs r :
  r ∈ observation_history (foldl observe_readback default_bms rbs) ->
  r ∈ since_reset rbs /\ is_timed_cells r = true.
Proof.
  induction rbs as [|x rbs IH] using rev_ind; [by intros ?%not_elem_of_nil|].
  rewrite foldl_snoc, since_reset_snoc. set (s := foldl observe_readback default_bms rbs) in *.
  unfold observe_readback. intros [H|[-> Ht]]%observe_page_elem; [|by split; [apply elem_of_app; right; apply list_elem_of_here|]].
  destruct s as [la pg hs nx]. destruct (availability x); simpl in H;
    try (by apply not_elem_of_nil in H). destruct (IH H). split; [apply elem_of_app; auto|done].
Qed.
Lemma since_reset_elem rbs r : r ∈ since_reset rbs -> r ∈ rbs.
Proof.
  induction rbs as [|x rbs IH] using rev_ind; [done|]. rewrite since_reset_snoc.
  destruct (availability x); rewrite !elem_of_app, ?elem_of_nil; intuition.
Qed.
Lemma has_identity_of r r' p :
  br_page r = Some p -> has_identity (payload_page p) r' = bool_decide (readback_id r' = readback_id r).
Proof.
  intros E. rewrite has_identity_spec.
  by replace (readback_id r) with (Some (page_id (payload_page p))) by (unfold readback_id; by rewrite E).
Qed.
Lemma history_per_page rbs r :
  r ∈ observation_history (foldl observe_readback default_bms rbs) ->
  exists p, br_page r = Some p /\
  (length (retain (has_identity (payload_page p)) (observation_history (foldl observe_readback default_bms rbs))) <= 7)%nat.
Proof.
  intros Hr. destruct (history_elem _ _ Hr) as [_ Ht]. unfold is_timed_cells, holds_cells in Ht.
  destruct (br_page r) as [p|]; [|done]. exists p. split; [done|].
  destruct (bms_retained rbs (payload_page p)) as (_ & _ & ->).
  unfold lastn, BMS_OBSERVATION_HISTORY_CYCLES. rewrite length_drop. lia.
Qed.

Lemma omap_cons {A B} (f : A -> option B) x l :
  omap f (x :: l) = match f x with Some y => y :: omap f l | None => omap f l end.
Proof. reflexivity. Qed.

(** A page reads each observation once. *)
Lemma cell_readings_once r k : (length (samples_of k (cell_readings r)) <= 1)%nat.
Proof.
  unfold cell_readings. destruct (br_observed_at r) as [t|]; [|simpl; lia].
  destruct (br_page r) as [[p|p|p]|]; try (simpl; lia). unfold enumerate, samples_of.
  generalize (default 0 (first_observation_index r)) as base. intros base.
  assert (H : forall (l : list Z) n, (length (filter (fun e => e.1 = k) (omap (fun sv : Z * Z =>
      (fun i => (i, {| sample_voltage := sv.2; sample_at := t |})) <$> checked_add u16_max base sv.1)
      (zip (Z.of_nat <$> seq n (length l)) l))) <=
    (if decide (base + Z.of_nat n <= k)%Z then 1 else 0))%nat).
  { induction l as [|v l IH]; intros n; [simpl; lia|]. specialize (IH (Datatypes.S n)).
    cbn [length seq]. rewrite fmap_cons. cbn [zip_with]. rewrite omap_cons. cbn [fst snd].
    destruct (checked_add u16_max base (Z.of_nat n)) as [i|] eqn:Ei; cbn [fmap option_fmap option_map].
    - apply checked_add_Some in Ei as [_ ->]. rewrite filter_cons. cbn [fst].
      revert IH. repeat case_decide; cbn [length]; lia.
    - revert IH. repeat case_decide; lia. }
  rewrite length_fmap. specialize (H (cell_voltages p) 0%nat). case_decide; lia.
Qed.

Lemma samples_of_cons k r l :
  samples_of k ((r :: l) ≫= cell_readings) =
  samples_of k (cell_readings r) ++ samples_of k (l ≫= cell_readings).
Proof. unfold samples_of. simpl. by rewrite filter_app, fmap_app. Qed.
Lemma samples_of_count k l :
  (length (samples_of k (l ≫= cell_readings)) <=
   count_if (fun r => bool_decide (k ∈ fst <$> cell_readings r)) l)%nat.
Proof.
  induction l as [|r l IH]; [done|]. rewrite samples_of_cons, length_app.
  unfold count_if in *. rewrite retain_cons. pose proof (cell_readings_once r k).
  destruct (bool_decide_reflect (k ∈ fst <$> cell_readings r)) as [|Hn]; cbn [length]; [lia|].
  rewrite (samples_of_nil k _ Hn). cbn [length]. lia.
Qed.
Lemma count_if_le {A} (f g : A -> bool) l :
  (forall x, x ∈ l -> f x = true -> g x = true) -> (count_if f l <= count_if g l)%nat.
Proof.
  unfold count_if. induction l as [|x l IH]; intros H; [done|]. rewrite !retain_cons.
  assert (IH' := IH ltac:(intros; apply H; set_solver)).
  destruct (f x) eqn:E; [rewrite (H x ltac:(apply list_elem_of_here) E); simpl; lia|].
  destruct (g x); simpl; lia.
Qed.

Lemma padded_elem ss v :
  (0 < length ss)%nat -> v ∈ merge_sort Z.le (padded ss) -> v ∈ sample_voltage <$> ss.
Proof.
  rewrite merge_sort_Permutation. unfold padded. destruct ss as [|s ss]; simpl; [lia|]. intros _ H.
  apply elem_of_cons in H as [->|H]; [apply list_elem_of_here|].
  apply elem_of_app in H as [H|[-> _]%elem_of_replicate]; [by apply list_elem_of_further|].
  apply list_elem_of_here.
Qed.

(** Decoders give every page its own range of observations. *)
Definition ranges_disjoint (rbs : list BatteryReadback) : Prop :=
  forall r r' k, r ∈ rbs -> r' ∈ rbs -> k ∈ fst <$> cell_readings r -> k ∈ fst <$> cell_readings r' ->
    readback_id r = readback_id r'.

(** Every cell voltage shown is the median of a complete, bounded
    history.  If the decoder gives different pages different observation
    ranges, then after any readbacks each cell of the session's summary carries
    at least one and at most seven samples, so that the value shown is a middle
    one of all the samples listed for it, and none of them is left out. *)
Theorem displayed_cells_bounded rbs o :
  ranges_disjoint rbs ->
  o ∈ observations (observation_summary (foldl observe_readback default_bms rbs)) ->
  (0 < length (samples o) <= BMS_OBSERVATION_HISTORY_CYCLES)%nat /\
  exists v, stabilized_voltage (samples o) = Some v /\ v ∈ sample_voltage <$> samples o.
Proof.
  intros Hd Ho. unfold observation_summary in Ho. apply summary_observation in Ho as [Hs Hk].
  set (s := foldl observe_readback default_bms rbs) in *. set (k := obs_index o) in *.
  apply list_elem_of_fmap in Hk as (e & Hek & He).
  apply list_elem_of_bind in He as (r & He & Hr).
  assert (Hkr : k ∈ fst <$> cell_readings r) by (rewrite Hek; by apply list_elem_of_fmap_2).
  assert (Hfrom : forall x, x ∈ observation_history s -> x ∈ rbs)
    by (intros x Hx; by apply since_reset_elem, (history_elem rbs x)).
  destruct (history_per_page _ _ Hr) as (p & Hp & Hlen). fold s in Hlen.
  assert (Hle : (length (samples o) <= BMS_OBSERVATION_HISTORY_CYCLES)%nat).
  { rewrite Hs. pose proof (samples_of_count k (observation_history s)) as H1.
    assert (H2 : (count_if (fun r => bool_decide (k ∈ fst <$> cell_readings r)) (observation_history s)
      <= count_if (has_identity (payload_page p)) (observation_history s))%nat).
    { apply count_if_le. intros x Hx Hkx%bool_decide_eq_true. rewrite (has_identity_of r x p Hp).
      apply bool_decide_eq_true. by apply (Hd x r k); [apply Hfrom|apply Hfrom| |]. }
    unfold count_if in *. unfold BMS_OBSERVATION_HISTORY_CYCLES. lia. }
  assert (Hpos : (0 < length (samples o))%nat).
  { rewrite Hs. unfold samples_of. rewrite length_fmap.
    assert (Hin : e ∈ filter (fun e => e.1 = k) (observation_history s ≫= cell_readings)).
    { apply list_elem_of_filter. split; [done|]. apply list_elem_of_bind. by exists r. }
    destruct (filter _ _); [by apply not_elem_of_nil in Hin|simpl; lia]. }
  split; [lia|]. destruct (stabilized_some (samples o)) as [v Hv]. exists v. split; [done|].
  rewrite (proj1 (stabilized_values _ Hle)) in Hv. apply list_elem_of_lookup_2 in Hv.
  by apply padded_elem.
Qed.

Definition cells_page (sel : Z) (at_ : Z) (cells : list Z) : BatteryReadback :=
  with_observed_at (with_first_observation_index (readback_available
    (payload_cell_voltage (metadata_cell_voltage sel SourceVerified) default_battery_info cells))
    (8 * sel)) at_.
Definition nine_cycles : list BatteryReadback :=
  (fun n => cells_page 1 n [4000 + n; 4100 - n]) <$> [0; 1; 2; 3; 4; 5; 6; 7; 8].
Lemma displayed_cells_bounded_witness :
  observations (observation_summary (foldl observe_readback default_bms nine_cycles)) =
    [ {| obs_index := 8; obs_pack_index := None; obs_pack_observation_index := None;
         obs_voltage := 4005; latest_voltage := 4008;
         samples := (fun n => {| sample_voltage := 4000 + n; sample_at := n |}) <$> [2; 3; 4; 5; 6; 7; 8] |};
      {| obs_index := 9; obs_pack_index := None; obs_pack_observation_index := None;
         obs_voltage := 4095; latest_voltage := 4092;
         samples := (fun n => {| sample_voltage := 4100 - n; sample_at := n |}) <$> [2; 3; 4; 5; 6; 7; 8] |} ] /\
  forall o, o ∈ observations (observation_summary (foldl observe_readback default_bms nine_cycles)) ->
    (0 < length (samples o) <= 7)%nat.
Proof.
  split; [vm_compute; reflexivity|]. intros o Ho.
  refine (proj1 (displayed_cells_bounded nine_cycles o _ Ho)).
  intros r r' k Hr Hr' _ _.
  apply list_elem_of_fmap in Hr as (n & -> & _). apply list_elem_of_fmap in Hr' as (n' & -> & _).
  reflexivity.
Defined.

(** The bound on the history that debug builds assert holds as long as a page
    identity keeps its kind. *)
Lemma cover_length (l : list BatteryReadback) (pages : list BatteryReadback) n :
  (forall r, r ∈ l -> exists q, q ∈ pages /\ readback_id q = readback_id r) ->
  (forall r, r ∈ l -> (count_if (fun x => bool_decide (readback_id x = readback_id r)) l <= n)%nat) ->
  (length l <= length pages * n)%nat.
Proof.
  revert l. induction pages as [|q pages IH]; intros l Hc Hn.
  - destruct l as [|r l]; [done|]. destruct (Hc r ltac:(apply list_elem_of_here)) as (q & Hq & _).
    by apply not_elem_of_nil in Hq.
  - set (f := fun x => bool_decide (readback_id x = readback_id q)).
    assert (Hsplit : (length l = count_if f l + length (retain (fun x => negb (f x)) l))%nat).
    { unfold count_if. clear. induction l as [|x l IH]; [done|]. rewrite !retain_cons.
      destruct (f x); simpl; lia. }
    assert (Hin : forall x, x ∈ retain (fun x => negb (f x)) l -> x ∈ l /\ f x = false).
    { intros x [Hx ?]%list_elem_of_filter. by apply negb_true_iff in Hx. }
    assert (H1 : (count_if f l <= n)%nat).
    { destruct (retain f l) as [|x rest] eqn:E; unfold count_if; [rewrite E; simpl; lia|].
      assert (x ∈ retain f l) as [Hx Hxl]%list_elem_of_filter by (rewrite E; apply list_elem_of_here).
      specialize (Hn x Hxl). unfold f in Hx. apply bool_decide_eq_true in Hx. rewrite Hx in Hn. exact Hn. }
    assert (H2 : (length (retain (fun x => negb (f x)) l) <= length pages * n)%nat).
    { apply IH.
      - intros r [Hr Hf]%Hin. destruct (Hc r Hr) as (q' & Hq' & E).
        apply elem_of_cons in Hq' as [->|Hq']; [|by exists q'].
        unfold f in Hf. apply bool_decide_eq_false in Hf. congruence.
      - intros r [Hr _]%Hin. specialize (Hn r Hr). etransitivity; [|exact Hn].
        unfold count_if. clear. induction l as [|x l IH]; [done|]. rewrite !retain_cons.
        destruct (f x); simpl; rewrite ?retain_cons; destruct (bool_decide _); simpl; lia. }
    simpl. lia.
Qed.
Lemma history_assertion_holds rbs (holds : option (Z * option Z) -> bool) :
  (forall r, r ∈ rbs -> holds_cells r = holds (readback_id r)) ->
  history_assertion (foldl observe_readback default_bms rbs) = true.
Proof.
  intros Hk. unfold history_assertion, bms_observation_history_max. apply bool_decide_eq_true.
  set (s := foldl observe_readback default_bms rbs). unfold count_if.
  apply cover_length.
  - intros r Hr. destruct (history_elem _ _ Hr) as [Hs Ht].
    unfold is_timed_cells in Ht. apply andb_true_iff in Ht as [Hc _].
    assert (exists p, br_page r = Some p) as [p Hp]
      by (unfold holds_cells in Hc; destruct (br_page r); [eauto|done]).
    destruct (bms_retained rbs (payload_page p)) as (_ & Hpage & _). fold s in Hpage.
    assert (Hrin : r ∈ retain (has_identity (payload_page p)) (since_reset rbs)).
    { apply list_elem_of_filter. split; [|done]. rewrite (has_identity_of _ _ _ Hp).
      by apply bool_decide_eq_true. }
    destruct (last (retain (has_identity (payload_page p)) (since_reset rbs))) as [q|] eqn:Eq;
      [|apply last_None in Eq; rewrite Eq in Hrin; by apply not_elem_of_nil in Hrin].
    apply last_Some_elem_of, list_elem_of_filter in Eq as [Hqi Hq].
    rewrite (has_identity_of _ _ _ Hp) in Hqi. apply bool_decide_eq_true in Hqi.
    exists q. split; [|done]. apply list_elem_of_filter.
    rewrite (Hk q) by (by apply since_reset_elem). rewrite Hqi, <- (Hk r) by (by apply since_reset_elem).
    split; [done|]. assert (q ∈ retain (has_identity (payload_page p)) (bms_pages s))
      as [_ ?]%list_elem_of_filter by (rewrite Hpage; apply list_elem_of_here). done.
  - intros r Hr. destruct (history_per_page _ _ Hr) as (p & Hp & Hl).
    unfold count_if, BMS_OBSERVATION_HISTORY_CYCLES. etransitivity; [|exact Hl]. apply Nat.eq_le_incl.
    f_equal. apply list_filter_iff. intros x. by rewrite (has_identity_of _ _ _ Hp).
Qed.
(** A page that changes its kind leaves its cells in the history: the assertion
    fails on the next cell page of another identity. *)
Example history_assertion_can_fail :
  history_assertion (foldl observe_readback default_bms
    (nine_cycles ++ [readback_available (payload_raw (metadata_raw 1 SourceVerified) default_battery_info);
                     cells_page 2 9 [4000]])) = false.
Proof. vm_compute. reflexivity. Qed.

(** ** Probes *)

Definition expired_at (s : DeviceIdentityState) (now timeout : Z) (p : PendingProbe) : bool :=
  match pending_probe_started_at s p with
  | Some started_at => bool_decide (timeout < sat_sub now started_at)
  | None => false
  end.

Lemma expire_probe_spec now timeout s acc p :
  expire_probe now timeout (s, acc) p =
  if expired_at s now timeout p
  then (s <| pending_probe_started_at := set_probe (pending_probe_started_at s) p None |>
          <| missing_probe_response := Some p |>, acc ++ [p])
  else (s, acc).
Proof.
  unfold expire_probe, expired_at, observe_probe_timeout.
  destruct (pending_probe_started_at s p); [|done]. by case_bool_decide.
Qed.
Lemma expired_at_set s now timeout p q :
  q <> p ->
  expired_at (s <| pending_probe_started_at := set_probe (pending_probe_started_at s) p None |>
                <| missing_probe_response := Some p |>) now timeout q = expired_at s now timeout q.
Proof.
  intros H. unfold expired_at, set_probe. destruct s; simpl. by rewrite bool_decide_eq_false_2.
Qed.
Lemma expire_probes_fold s now timeout probes acc :
  NoDup probes ->
  let r := foldl (expire_probe now timeout) (s, acc) probes in
  let expired := retain (expired_at s now timeout) probes in
  r.2 = acc ++ expired /\
  (forall p, pending_probe_started_at r.1 p =
     if bool_decide (p ∈ expired) then None else pending_probe_started_at s p) /\
  missing_probe_response r.1 =
    match last expired with Some p => Some p | None => missing_probe_response s end.
Proof.
  revert s acc. induction probes as [|q probes IH]; intros s acc Hd; cbv zeta.
  - simpl. by rewrite app_nil_r.
  - apply NoDup_cons in Hd as [Hq Hd]. cbn [foldl]. rewrite expire_probe_spec, retain_cons.
    destruct (expired_at s now timeout q) eqn:Eq; [|by apply IH].
    destruct (IH (s <| pending_probe_started_at := set_probe (pending_probe_started_at s) q None |>
      <| missing_probe_response := Some q |>) (acc ++ [q]) Hd) as (H1 & H2 & H3).
    assert (Hsame : retain (expired_at (s <| pending_probe_started_at :=
         set_probe (pending_probe_started_at s) q None |> <| missing_probe_response := Some q |>)
         now timeout) probes = retain (expired_at s now timeout) probes).
    { clear -Hq. induction probes as [|p probes IH]; [done|]. rewrite !retain_cons.
      apply not_elem_of_cons in Hq as [Hp Hq]. rewrite expired_at_set by done. by rewrite IH. }
    rewrite Hsame in H1, H2, H3. split_ands.
    + by rewrite H1, <- app_assoc.
    + intros p. rewrite H2. clear H1 H2 H3 Hsame IH. set (s0 := s). destruct s; simpl. unfold set_probe.
      destruct (decide (p = q)) as [->|Hne].
      * rewrite (bool_decide_eq_true_2 (q = q)) by done.
        rewrite (bool_decide_eq_true_2 (q ∈ q :: _)) by apply list_elem_of_here. by case_bool_decide.
      * rewrite (bool_decide_eq_false_2 (p = q)) by done.
        assert (Hc : p ∈ q :: retain (expired_at s0 now timeout) probes <->
                     p ∈ retain (expired_at s0 now timeout) probes) by (rewrite elem_of_cons; tauto).
        by rewrite (bool_decide_ext _ _ Hc).
    + rewrite H3. destruct (retain (expired_at s now timeout) probes) as [|p rest] eqn:E; [by destruct s|].
      change (last (q :: p :: rest)) with (last (p :: rest)).
      destruct (last (p :: rest)) eqn:El; [done|]. by apply last_None in El.
Qed.

Lemma all_probes p : p ∈ ALL_PROBES.
Proof. destruct p; unfold ALL_PROBES; set_solver. Qed.
Lemma expired_elem s now timeout p :
  p ∈ retain (expired_at s now timeout) ALL_PROBES <-> expired_at s now timeout p = true.
Proof. unfold retain. rewrite list_elem_of_filter. pose proof (all_probes p). tauto. Qed.
Lemma some_expired s now timeout :
  retain (expired_at s now timeout) ALL_PROBES <> [] <->
  exists p t, pending_probe_started_at s p = Some t /\ timeout < sat_sub now t.
Proof.
  split.
  - intros H. destruct (retain _ _) as [|p rest] eqn:E; [done|].
    assert (Hp : p ∈ retain (expired_at s now timeout) ALL_PROBES) by (rewrite E; apply list_elem_of_here).
    apply expired_elem in Hp. unfold expired_at in Hp.
    destruct (pending_probe_started_at s p) as [t|] eqn:Et; [|done]. prop_bools. eauto.
  - intros (p & t & Hp & Ht) E.
    assert (p ∈ retain (expired_at s now timeout) ALL_PROBES) as Hin.
    { apply expired_elem. unfold expired_at. rewrite Hp. by apply bool_decide_eq_true. }
    rewrite E in Hin. by apply not_elem_of_nil in Hin.
Qed.
Lemma next_probe_spec s timeout :
  match next_probe_expiry s timeout with
  | Some wake =>
      (exists p t, pending_probe_started_at s p = Some t /\
         wake = sat_add u64_max t (sat_add u64_max timeout 1)) /\
      forall p t, pending_probe_started_at s p = Some t ->
        wake <= sat_add u64_max t (sat_add u64_max timeout 1)
  | None => forall p, pending_probe_started_at s p = None
  end.
Proof.
  unfold next_probe_expiry.
  assert (Hin : forall p t, pending_probe_started_at s p = Some t ->
                t ∈ omap (pending_probe_started_at s) ALL_PROBES)
    by (intros p t H; apply list_elem_of_omap; eauto using all_probes).
  destruct (min_option _) as [wake|] eqn:Em.
  - apply min_option_Some in Em as [Hw Hmin]. split.
    + apply list_elem_of_fmap in Hw as (t & -> & Ht). apply list_elem_of_omap in Ht as (p & _ & Hp). eauto.
    + intros p t Hp. apply Hmin.
      by apply (list_elem_of_fmap_2 (fun t => sat_add u64_max t (sat_add u64_max timeout 1))), (Hin p).
  - apply min_option_None, fmap_nil_inv in Em. intros p.
    destruct (pending_probe_started_at s p) as [t|] eqn:E; [|done].
    specialize (Hin p t E). rewrite Em in Hin. by apply not_elem_of_nil in Hin.
Qed.

Definition pending_times_ok (s : DeviceIdentityState) : Prop :=
  forall p t, pending_probe_started_at s p = Some t -> 0 <= t.

(** Probe deadlines are exact.  Expiry at [now] reports and clears exactly
    the probes that have waited strictly longer than the timeout, in their
    fixed order, keeps the others, and remembers the last as missing.  The
    wake-up time the session announces is the first instant at which that is
    not empty (short of the end of the clock), and it announces one exactly
    while a probe is pending. *)
Theorem probe_expiry_exact s now timeout :
  pending_times_ok s -> 0 <= timeout < u64_max -> 0 <= now < u64_max ->
  let r := expire_pending_probes s now timeout in
  r.2 = retain (expired_at s now timeout) ALL_PROBES /\
  (forall p, pending_probe_started_at r.1 p =
     if expired_at s now timeout p then None else pending_probe_started_at s p) /\
  missing_probe_response r.1 =
    match last r.2 with Some p => Some p | None => missing_probe_response s end /\
  match next_probe_expiry s timeout with
  | Some wake => r.2 <> [] <-> wake <= now
  | None => r.2 = [] /\ forall p, pending_probe_started_at s p = None
  end.
Proof.
  intros Hok Ht Hn. cbv zeta.
  destruct (expire_probes_fold s now timeout ALL_PROBES [] ltac:(by apply (bool_decide_unpack _)))
    as (H1 & H2 & H3). fold (expire_pending_probes s now timeout) in H1, H2, H3. simpl app in H1.
  split_ands; [done| |by rewrite H1|].
  - intros p. rewrite H2. destruct (expired_at s now timeout p) eqn:E.
    + by rewrite bool_decide_eq_true_2 by (by apply expired_elem).
    + rewrite bool_decide_eq_false_2; [done|]. intros H%expired_elem. congruence.
  - rewrite H1. pose proof (next_probe_spec s timeout) as Hs. destruct (next_probe_expiry s timeout).
    + destruct Hs as [(p & t & Hp & ->) Hmin]. rewrite some_expired. split.
      * intros (q & u & Hq & Hu). specialize (Hmin q u Hq). pose proof (Hok q u Hq). int_lia.
      * intros Hw. exists p, t. pose proof (Hok p t Hp). split; [done|int_lia].
    + split; [|done]. destruct (decide (retain (expired_at s now timeout) ALL_PROBES = [])) as [|Hne]; [done|].
      apply some_expired in Hne as (q & u & Hq & _). by rewrite Hs in Hq.
Qed.

Definition two_probes : DeviceIdentityState :=
  observe_probe_write (observe_probe_write default_identity BegodeName 100) BegodeImu 400.
Lemma probe_expiry_exact_witness :
  (expire_pending_probes two_probes 1101 1000).2 = [BegodeName] /\
  next_probe_expiry two_probes 1000 = Some 1101 /\
  match next_probe_expiry two_probes 1000 with
  | Some wake => (expire_pending_probes two_probes 1101 1000).2 <> [] <-> wake <= 1101
  | None => (expire_pending_probes two_probes 1101 1000).2 = [] /\
            forall p, pending_probe_started_at two_probes p = None
  end.
Proof.
  assert (Hok : pending_times_ok two_probes) by (intros [] t; vm_compute; intros [= <-] || done; congruence || done).
  destruct (probe_expiry_exact two_probes 1101 1000 Hok ltac:(int_lia) ltac:(int_lia)) as (_ & _ & _ & H).
  exact (conj eq_refl (conj eq_refl H)).
Defined.

(** ** The discovery inventory *)

(** The reference: the observations of one peripheral, oldest first. *)
Definition of_platform (id : string) (os : list DiscoveryObservation) : list DiscoveryObservation :=
  retain (same_platform id) os.
(** The peripherals in order of their last observation. *)
Fixpoint last_seen_order (ids : list string) : list string :=
  match ids with
  | [] => []
  | id :: rest => if bool_decide (id ∈ rest) then last_seen_order rest else id :: last_seen_order rest
  end.

Lemma same_platform_inherit id o p : same_platform id (inherit o p) = same_platform id o.
Proof. done. Qed.
Lemma list_find_same (f : DiscoveryObservation -> bool) l :
  match list_find (fun o => f o = true) l with
  | Some (i, x) => l !! i = Some x /\ f x = true /\ retain f (take i l) = []
  | None => retain f l = []
  end.
Proof.
  induction l as [|y l IH]; [done|]. simpl. rewrite retain_cons. destruct (f y) eqn:E.
  - rewrite decide_True by done. simpl. by rewrite E.
  - rewrite decide_False by congruence. simpl. destruct (list_find _ l) as [[i x]|]; simpl; [|done].
    rewrite retain_cons, E. done.
Qed.

Lemma retain_all {A} (f : A -> bool) l : (forall x, x ∈ l -> f x = true) -> retain f l = l.
Proof.
  induction l as [|x l IH]; intros H; [done|]. rewrite retain_cons, (H x), IH; [done| |set_solver].
  intros; apply H; set_solver.
Qed.
Lemma retain_nil {A} (f : A -> bool) l x : retain f l = [] -> x ∈ l -> f x = false.
Proof.
  intros H Hx. destruct (f x) eqn:E; [|done]. assert (x ∈ retain f l) as Hin by (by apply list_elem_of_filter).
  rewrite H in Hin. by apply not_elem_of_nil in Hin.
Qed.
(** Observing a peripheral moves it to the end, when it is listed once. *)
Lemma discovery_observe_spec s o :
  NoDup (o_platform_identifier <$> discovered s) ->
  let same := same_platform (o_platform_identifier o) in
  exists new, discovered (discovery_observe s o) = retain (fun x => negb (same x)) (discovered s) ++ [new] /\
    match retain same (discovered s) with
    | previous :: _ => new = inherit o previous
    | [] => new = o
    end.
Proof.
  intros Hnd same. unfold discovery_observe. fold same.
  pose proof (list_find_same same (discovered s)) as Hf.
  destruct (list_find (fun o => same o = true) (discovered s)) as [[i p]|].
  - destruct Hf as (Hi & Hp & Ht). destruct s as [ds sel]. simpl in *. exists (inherit o p).
    rewrite <- (take_drop_middle _ _ _ Hi) in Hnd at 1 |- * at 2 3.
    rewrite !retain_app, !retain_cons, Hp, Ht. simpl. split; [|done]. f_equal.
    rewrite delete_take_drop. f_equal; symmetry; apply retain_all.
    + intros x Hx. by rewrite (retain_nil same _ x Ht Hx).
    + intros x Hx. rewrite fmap_app, fmap_cons in Hnd. apply NoDup_app in Hnd as (_ & _ & Hnd).
      apply NoDup_cons in Hnd as [Hn _]. unfold same, same_platform in *. prop_bools.
      apply negb_true_iff, bool_decide_eq_false. intros E. apply Hn. rewrite Hp, <- E.
      by apply list_elem_of_fmap_2.
  - destruct s as [ds sel]. simpl in *. exists o. rewrite Hf. split; [|done]. f_equal. symmetry.
    apply retain_all. intros x Hx. by rewrite (retain_nil same _ x Hf Hx).
Qed.

Lemma last_seen_order_elem ids id : id ∈ last_seen_order ids <-> id ∈ ids.
Proof.
  induction ids as [|x ids IH]; simpl; [done|]. case_bool_decide; rewrite !elem_of_cons, IH; [|done].
  split; [auto|by intros [->|?]].
Qed.
Lemma last_seen_order_nodup ids : NoDup (last_seen_order ids).
Proof.
  induction ids as [|x ids IH]; simpl; [constructor|]. case_bool_decide; [done|].
  constructor; [by rewrite last_seen_order_elem|done].
Qed.
Lemma last_seen_order_snoc ids id :
  last_seen_order (ids ++ [id]) = filter (fun x => x <> id) (last_seen_order ids) ++ [id].
Proof.
  induction ids as [|x ids IH]; [done|]. simpl. rewrite IH.
  destruct (decide (x = id)) as [->|Hne].
  - rewrite bool_decide_eq_true_2 by (apply elem_of_app; right; apply list_elem_of_here).
    case_bool_decide; [done|]. rewrite filter_cons, decide_False by tauto. done.
  - assert (E : bool_decide (x ∈ ids ++ [id]) = bool_decide (x ∈ ids)).
    { apply bool_decide_ext. rewrite elem_of_app, list_elem_of_singleton. tauto. }
    rewrite E. clear E. case_bool_decide; [done|]. by rewrite filter_cons, decide_True by done.
Qed.

Definition platforms (os : list DiscoveryObservation) : list string := o_platform_identifier <$> os.
(** An entry [m] carries all the evidence of its peripheral's observations. *)
Definition carries (m : DiscoveryObservation) (own : list DiscoveryObservation) : Prop :=
  o_advertised_name m = last (omap o_advertised_name own) /\
  rssi_dbm m = last (omap rssi_dbm own) /\
  manufacturer_data m =
    default [] (last (retain (fun d => negb (bool_decide (d = []))) (manufacturer_data <$> own))) /\
  forall u, u ∈ advertised_service_uuids m <-> exists o, o ∈ own /\ u ∈ advertised_service_uuids o.

Lemma merge_uuids_elem us vs u :
  u ∈ foldl (fun uuids uuid => if bool_decide (uuid ∈ uuids) then uuids else uuids ++ [uuid]) us vs <->
  u ∈ us \/ u ∈ (vs : list (list Z)).
Proof.
  revert us. induction vs as [|v vs IH]; intros us; simpl.
  - split; [auto|]. by intros [?|?%not_elem_of_nil].
  - rewrite IH. case_bool_decide; rewrite ?elem_of_app, ?elem_of_cons, ?elem_of_nil.
    + split; [tauto|]. intros [?|[->|?]]; auto.
    + tauto.
Qed.
Lemma last_omap_snoc {A B} (f : A -> option B) l x :
  last (omap f (l ++ [x])) = union (f x) (last (omap f l)).
Proof. rewrite omap_snoc. destruct (f x); simpl; [rewrite last_snoc; by destruct (last _)|by rewrite app_nil_r; destruct (last _)]. Qed.
Lemma carries_snoc m own o : carries m own -> carries (inherit o m) (own ++ [o]).
Proof.
  intros (Hn & Hr & Hm & Hu). unfold carries, inherit. simpl.
  rewrite !last_omap_snoc, <- Hn, <- Hr, fmap_app. split_ands; [done|done| |].
  - change (manufacturer_data <$> [o]) with [manufacturer_data o].
    rewrite last_retain_snoc. case_bool_decide; simpl; [exact Hm|done].
  - intros u. rewrite merge_uuids_elem, Hu. split.
    + intros [?|(o' & ? & ?)]; [exists o|exists o']; rewrite elem_of_app, list_elem_of_singleton; auto.
    + intros (o' & [?| ->%list_elem_of_singleton]%elem_of_app & ?); [right; eauto|auto].
Qed.
Lemma carries_first o : carries o [o].
Proof.
  unfold carries. simpl. destruct (o_advertised_name o), (rssi_dbm o); simpl; split_ands; try done.
  all: try (unfold fmap, list_fmap; rewrite retain_cons; by case_bool_decide).
  all: intros u; split; [intros; exists o; split; [apply list_elem_of_here|done]|].
  all: by intros (o' & ->%list_elem_of_singleton & ?).
Qed.

Lemma never_listed ds os id :
  platforms ds = last_seen_order (platforms os) -> retain (same_platform id) ds = [] ->
  retain (same_platform id) os = [].
Proof.
  intros Ho E. destruct (retain (same_platform id) os) as [|x r] eqn:Ex; [done|].
  assert (x ∈ retain (same_platform id) os) as [Hx1 Hx2]%list_elem_of_filter
    by (rewrite Ex; apply list_elem_of_here).
  assert (Hin : id ∈ platforms ds).
  { rewrite Ho, last_seen_order_elem. unfold same_platform in Hx1. prop_bools. rewrite <- Hx1.
    by apply (list_elem_of_fmap_2 o_platform_identifier). }
  apply list_elem_of_fmap in Hin as (y & Hy & Hyin).
  pose proof (retain_nil _ _ y E Hyin) as Hn. unfold same_platform in Hn. prop_bools. congruence.
Qed.

(** The discovery inventory loses no evidence.  After any advertisements,
    it lists every observed peripheral once, in the order of their last
    advertisements; each entry has the last name and signal strength any of
    its advertisements carried, its last manufacturer data, and every service
    any of them announced. *)
Theorem discovery_keeps_evidence os :
  let s := foldl discovery_observe default_discovery os in
  platforms (discovered s) = last_seen_order (platforms os) /\
  forall m, m ∈ discovered s -> carries m (of_platform (o_platform_identifier m) os).
Proof.
  cbv zeta. induction os as [|o os [IHo IHc]] using rev_ind.
  { split; [done|]. by intros m ?%not_elem_of_nil. }
  rewrite foldl_snoc. set (s := foldl discovery_observe default_discovery os) in *.
  assert (Hnd : NoDup (platforms (discovered s))) by (rewrite IHo; apply last_seen_order_nodup).
  destruct (discovery_observe_spec s o Hnd) as (new & -> & Hnew).
  set (id := o_platform_identifier o) in *.
  assert (Hid : o_platform_identifier new = id) by (destruct (retain _ _); by subst new).
  split.
  - unfold platforms in *. rewrite !fmap_app. change (o_platform_identifier <$> [o]) with [id].
    change (o_platform_identifier <$> [new]) with [o_platform_identifier new].
    rewrite last_seen_order_snoc, <- IHo, Hid. f_equal.
    generalize (discovered s) as l. induction l as [|x l IH]; [done|].
    rewrite retain_cons, fmap_cons, filter_cons. unfold same_platform.
    case_bool_decide as E; simpl; [rewrite decide_False by (fold id; tauto)|rewrite decide_True by done];
      by rewrite <- IH.
  - intros m [[Hf Hm]%list_elem_of_filter| ->%list_elem_of_singleton]%elem_of_app.
    + unfold of_platform. rewrite retain_app, retain_one.
      replace (same_platform (o_platform_identifier m) o) with false; [rewrite app_nil_r; by apply IHc|].
      unfold same_platform in *. prop_bools. symmetry. apply bool_decide_eq_false. fold id. congruence.
    + rewrite Hid. unfold of_platform. rewrite retain_app, retain_one.
      replace (same_platform id o) with true by (symmetry; by apply bool_decide_eq_true).
      destruct (retain (same_platform id) (discovered s)) as [|p rest] eqn:E; subst new.
      * rewrite (never_listed _ _ _ IHo E). apply carries_first.
      * assert (p ∈ retain (same_platform id) (discovered s)) as [Hp1 Hp2]%list_elem_of_filter
          by (rewrite E; apply list_elem_of_here).
        unfold same_platform in Hp1. prop_bools. specialize (IHc p Hp2). rewrite Hp1 in IHc.
        by apply carries_snoc.
Qed.

(** ** Numbering of cell pages *)

Section HostTheorems.
Context {S : Type} `{Hps : ProtocolSession S}.

Inductive HostCall :=
| Feed (input : SessionInput)
| Drain.
Definition host_step (h : @HostSession S) (c : HostCall)   : @HostSession S * list SessionOutput :=
  match c with Feed input => (host_handle h input, []) | Drain => drain_outputs h end.
(** Everything emitted so far: what was drained and what is still queued. *)
Definition emitted (h : @HostSession S) (drained : list (list SessionOutput)) : list SessionOutput :=
  concat drained ++ host_output h.
Definition event_number (o : SessionOutput) : option Z :=
  match o with
  | OutEvent (EventReadOnlyResponse (RespBattery r)) => observation_event_sequence r
  | _ => None
  end.
Definition next_number (s : CutoutSessionState) : Z := next_observation_event_sequence (bms (telemetry s)).
(** Engines emit decoder-local readbacks: they number nothing themselves. *)
Definition engine_numbers_nothing : Prop :=
  forall (s : S) input o, o ∈ (ps_handle s input).2 -> event_number o = None.

Lemma observe_readback_number b r :
  next_observation_event_sequence (observe_readback b r) = next_observation_event_sequence b.
Proof.
  unfold observe_readback, observe_page. destruct b as [la pg hs nx].
  destruct (availability r), (br_page r); simpl; try done; by case_match.
Qed.
Lemma observe_output_number s o ret : next_number (observe_output s o ret) = next_number s.
Proof.
  destruct s as [? ? ? ? [? ? ?] ?]. unfold next_number. destruct o as [|e|]; [done| |done].
  destruct e as [| | |d|r| |d|]; simpl; try done; try (by case_bool_decide).
  destruct r; simpl; try done. apply observe_readback_number.
Qed.
Lemma observe_outputs_number s os ret : next_number (observe_outputs s os ret) = next_number s.
Proof.
  revert s. induction os as [|o os IH]; intros s; [done|]. simpl. unfold observe_outputs in IH |- *.
  simpl. by rewrite IH, observe_output_number.
Qed.

Lemma stamp_output_number at_ s o :
  event_number o = None -> 0 <= next_number s < u64_max ->
  (event_number (stamp_output at_ s o).2 = None /\ next_number (stamp_output at_ s o).1 = next_number s) \/
  (event_number (stamp_output at_ s o).2 = Some (next_number s) /\
   next_number (stamp_output at_ s o).1 = next_number s + 1).
Proof.
  intros Hn Hb. destruct o as [|e|]; [by left| |by left].
  destruct e as [| | |d|r| |d|]; try (by left). destruct r as [|r| | | |]; try (by left).
  destruct s as [? ? ? ? [? b ?] ?]. unfold next_number in *. simpl in *.
  unfold assign_observation_event_sequence. destruct r as [a p f1 f2 f3 t q]. simpl in *. subst q.
  destruct b as [la pg hs nx]. simpl in *. destruct (holds_cells _); simpl; [|by left].
  right. split; [done|]. int_lia.
Qed.
Lemma stamp_outputs_number at_ s os :
  (forall o, o ∈ os -> event_number o = None) ->
  0 <= next_number s -> next_number s + Z.of_nat (length os) <= u64_max ->
  let r := stamp_outputs at_ s os in
  exists k, (k <= length os)%nat /\ omap event_number r.2 = seqZ (next_number s) (Z.of_nat k) /\
    next_number r.1 = next_number s + Z.of_nat k /\ length r.2 = length os.
Proof.
  intros Ho Hp Hb. destruct at_ as [t|]; simpl.
  - revert s Ho Hp Hb. induction os as [|o os IH]; intros s Ho Hp Hb.
    + exists 0%nat. split_ands; [done|done|simpl; lia|done].
    + rewrite run_cons. cbn [fst snd length] in *.
      pose proof (stamp_output_number t s o (Ho o ltac:(apply list_elem_of_here)) ltac:(lia)) as H1.
      assert (Hn1 : next_number s <= next_number (stamp_output t s o).1 <= next_number s + 1)
        by (destruct H1 as [[_ ->]|[_ ->]]; lia).
      destruct (IH (stamp_output t s o).1) as (k & Hk & Hs & Hnx & Hl);
        [intros; apply Ho; set_solver|lia|lia|]. unfold run_state, run_outputs. rewrite omap_cons, Hs, Hl.
      destruct H1 as [[-> E]|[-> E]]; rewrite E in *.
      * exists k. split_ands; [lia|done|lia|done].
      * exists (Datatypes.S k). split_ands; [lia| |lia|done].
        rewrite (seqZ_cons (next_number s)) by lia. f_equal. f_equal; lia.
  - exists 0%nat. split_ands; [lia| |lia|done]. clear Hp Hb.
    induction os as [|o os IH]; [done|]. rewrite omap_cons, (Ho o) by apply list_elem_of_here.
    apply IH. intros; apply Ho; set_solver.
Qed.
Lemma emitted_grows h c drained :
  (length (emitted h drained) <= length (emitted (host_step h c).1 (drained ++ [(host_step h c).2])))%nat.
Proof.
  unfold emitted. rewrite concat_app. destruct c as [input|]; simpl; rewrite ?app_nil_r.
  - unfold host_handle. destruct (ps_handle _ input) as [s1 os]. destruct (stamp_outputs _ _ os).
    simpl. rewrite !length_app. lia.
  - done.
Qed.
Lemma host_step_number h c (drained : list (list SessionOutput)) n :
  engine_numbers_nothing ->
  omap event_number (emitted h drained) = seqZ 0 (Z.of_nat n) -> next_number (host_state h) = Z.of_nat n ->
  Z.of_nat (length (emitted (host_step h c).1 (drained ++ [(host_step h c).2]))) <= u64_max ->
  (n <= length (emitted h drained))%nat ->
  exists n', (n' <= length (emitted (host_step h c).1 (drained ++ [(host_step h c).2])))%nat /\
    omap event_number (emitted (host_step h c).1 (drained ++ [(host_step h c).2])) = seqZ 0 (Z.of_nat n') /\
    next_number (host_state (host_step h c).1) = Z.of_nat n'.
Proof.
  intros Heng He Hn Hb Hle. destruct c as [input|].
  - cbn [host_step fst snd] in *. unfold host_handle, emitted in *.
    pose proof (Heng (protocol_session h) input) as Ho.
    destruct (ps_handle (protocol_session h) input) as [s1 os]. cbn [snd] in Ho.
    destruct (stamp_outputs (observed_at_of input) (host_state h) os) as [st os'] eqn:Es.
    cbn [host_output host_state] in *. rewrite concat_app in *. cbn [concat] in *.
    rewrite !app_nil_r in *. rewrite !app_assoc in *.
    assert (Hl : length os' = length os).
    { destruct (observed_at_of input); simpl in Es; [|by simplify_eq].
      pose proof (run_outputs_length (stamp_output z) (host_state h) os) as Hlen.
      unfold run_outputs in Hlen. by rewrite Es in Hlen. }
    rewrite length_app in Hb. rewrite length_app, Hl in Hb.
    pose proof (stamp_outputs_number (observed_at_of input) (host_state h) os Ho ltac:(lia)) as Hk.
    rewrite Es in Hk. cbn [fst snd] in Hk. rewrite length_app in Hle.
    destruct Hk as (k & Hk & Hs & Hnx & _); [lia|].
    exists (n + k)%nat. rewrite omap_app, He, Hs, observe_outputs_number, Hnx, Hn, !length_app, Hl.
    split_ands; [lia| |lia]. rewrite Nat2Z.inj_add, seqZ_app by lia. by rewrite Z.add_0_l.
  - cbn [host_step drain_outputs fst snd] in *. exists n. unfold emitted in *.
    cbn [host_output] in *. rewrite concat_app in *. cbn [concat] in *. rewrite !app_nil_r in *. done.
Qed.

(** Cell pages are numbered without gaps.  Whatever inputs a host feeds
    its protocol engine and whenever it drains the outputs, the cell-voltage
    pages among everything emitted (drained or still queued) that carry a
    number carry 0, 1, 2, and so on in the order of emission, and the state's
    next number is their count, as long as the outputs do not exceed the range
    of the counter. *)
Theorem cell_pages_numbered (s : S) calls :
  engine_numbers_nothing ->
  let h0 := {| protocol_session := s; host_state := default_root; host_output := [] |} in
  let h := run_state host_step h0 calls in
  let all := emitted h (run_outputs host_step h0 calls) in
  Z.of_nat (length all) <= u64_max ->
  exists n, omap event_number all = seqZ 0 (Z.of_nat n) /\ next_number (host_state h) = Z.of_nat n.
Proof.
  intros Heng h0. cbv zeta.
  assert (H : Z.of_nat (length (emitted (run_state host_step h0 calls) (run_outputs host_step h0 calls))) <= u64_max ->
    exists n, (n <= length (emitted (run_state host_step h0 calls) (run_outputs host_step h0 calls)))%nat /\
     omap event_number (emitted (run_state host_step h0 calls) (run_outputs host_step h0 calls))
       = seqZ 0 (Z.of_nat n) /\
     next_number (host_state (run_state host_step h0 calls)) = Z.of_nat n).
  { induction calls as [|c calls IH] using rev_ind; [by exists 0%nat|].
    rewrite !run_state_app, !run_outputs_app, !run_state_one, !run_outputs_one. intros Hb.
    destruct IH as (n & Hn & He & Hx).
    { etransitivity; [|exact Hb]. apply Nat2Z.inj_le, emitted_grows. }
    by apply (host_step_number _ c _ n). }
  intros Hb. destruct (H Hb) as (n & _ & He). by exists n.
Qed.
End HostTheorems.

(** An engine that answers every notification with the page it was sent. *)
Definition echo_engine : ProtocolSession unit := {|
  ps_handle s input :=
    match input with
    | InNotification _ cells _ =>
        (s, [OutTransport Disconnect; OutEvent (EventReadOnlyResponse (RespBattery (readback_available
               (payload_cell_voltage (metadata_cell_voltage 1 SourceVerified) default_battery_info cells))))])
    | _ => (s, [OutEvent (EventTick 0)])
    end;
  telemetry_retention _ := RetainLive;
|}.
Definition echo_calls : list (HostCall) :=
  [Feed (InNotification 0 [4000] 10); Drain; Feed (InTick 20); Feed (InNotification 0 [4001] 30)].
Lemma cell_pages_numbered_witness :
  let h0 := {| protocol_session := tt; host_state := default_root; host_output := [] |} in
  let h := run_state (host_step (Hps := echo_engine)) h0 echo_calls in
  let all := emitted h (run_outputs (host_step (Hps := echo_engine)) h0 echo_calls) in
  omap event_number all = [0; 1] /\
  exists n, omap event_number all = seqZ 0 (Z.of_nat n) /\ next_number (host_state h) = Z.of_nat n.
Proof.
  split; [vm_compute; reflexivity|].
  refine (cell_pages_numbered (Hps := echo_engine) tt echo_calls _ _).
  - intros s input o Ho. destruct input; cbn in Ho;
      repeat (apply elem_of_cons in Ho as [->|Ho]; [reflexivity|]); by apply not_elem_of_nil in Ho.
  - vm_compute. discriminate.
Defined.

(** ** Capture and connection *)

(** What the root's owners do: connection events, captures and their flushes,
    the events of a capture's writer, the purpose of the connection. *)
Inductive WriterCall :=
| WStarted (g : CaptureGeneration)
| WStartFailed (g : CaptureGeneration)
| WBeginFinish (g : CaptureGeneration)
| WFailed (g : CaptureGeneration)
| WRetire (g : CaptureGeneration)
| WComplete (g : CaptureGeneration) (succeeded : bool).
Definition capture_call (c : WriterCall) : CaptureCall :=
  match c with
  | WStarted g => CWriterStarted g
  | WStartFailed g => CWriterStartFailed g
  | WBeginFinish g => CBeginFinish g
  | WFailed g => CWriterFailed g
  | WRetire g => CRetire g
  | WComplete g b => CComplete g b
  end.
Inductive RootCall :=
| RootConnection (c : Call)
| RootBeginCapture (origin : CaptureOrigin) (ownership : CaptureTransportOwnership)
    (attempt : option ConnectionAttemptToken)
| RootFinishFlush (token : CaptureFinishToken) (succeeded : bool)
| RootWriter (c : WriterCall)
| RootIntent (intent : DeviceConnectionIntent).
Inductive RootReply :=
| RepConnection (r : Reply)
| RepGeneration (g : option CaptureGeneration)
| RepRelease (r : CaptureTransportRelease)
| RepWriter (r : CaptureReply)
| RepDone.
Definition root_step (s : CutoutSessionState) (c : RootCall) : CutoutSessionState * RootReply :=
  match c with
  | RootConnection c =>
      let '(l, r) := step (connection s) c in (s <| connection := l |>, RepConnection r)
  | RootBeginCapture origin ownership attempt =>
      RepGeneration <$$> begin_capture s origin ownership attempt
  | RootFinishFlush token succeeded => RepRelease <$$> finish_capture_flush s token succeeded
  | RootWriter c =>
      let '(l, r) := capture_step (capture s) (capture_call c) in (s <| capture := l |>, RepWriter r)
  | RootIntent i => (s <| device_connection_intent := i |>, RepDone)
  end.

Lemma writer_transport c w : transport (capture_step c (capture_call w)).1 = transport c.
Proof.
  destruct c as [ng no cu fi pc tr]. destruct w; cbn [capture_call capture_step relabel fst];
    unfold writer_started, writer_start_failed, CaptureLifecycle.transition, begin_finish,
      writer_failed, retire, complete, CaptureLifecycle.transition; simpl;
    destruct cu as [a|]; simpl; try done; repeat (case_match; simpl; try done); by simplify_eq/=.
Qed.
Lemma begin_transport c o w a t :
  transport (begin_with_transport c o w a).1 = Owned t ->
  transport c = Owned t \/
  (w = CaptureOwned /\ a = Some t /\ exists g, (begin_with_transport c o w a).2 = Some g).
Proof.
  unfold begin_with_transport. destruct c as [ng no cu bi fi pc]. destruct (can_start _); simpl; [|auto].
  destruct w, a; simpl; auto; destruct (checked_add _ _ _); simpl; auto; destruct cu; simpl;
    try case_bool_decide; simpl; intros [=]; subst; right; eauto.
Qed.
Lemma flush_transport c k b cur t :
  transport (finish_flush_with_transport c k b cur).1 = Owned t -> transport c = Owned t.
Proof.
  unfold finish_flush_with_transport, finish_flush. destruct c as [? ? ? ? ? tr]. simpl.
  repeat (case_match; simpl in *; simplify_eq/=; try done).
Qed.

Lemma root_connection s c :
  connection (root_step s c).1 =
  match c with RootConnection c => (step (connection s) c).1 | _ => connection s end.
Proof.
  destruct s as [? cn cp ? ? ?], c as [c|o w a|k b|w|i]; cbn [root_step relabel fst]; try done.
  - simpl. by destruct (step cn c).
  - unfold begin_capture. simpl. destruct (is_some_and _ _); [done|].
    destruct w; [by destruct (begin_with_transport _ _ _ _)|]. destruct (negb _); [done|].
    destruct a; [by destruct (begin_with_transport _ _ _ _)|done].
  - unfold finish_capture_flush. simpl. by destruct (finish_flush_with_transport _ _ _ _).
  - by destruct (capture_step _ _).
Qed.
(** How a capture comes to own a transport. *)
Definition owned_begin (s : CutoutSessionState) (c : RootCall) (t : ConnectionAttemptToken) : Prop :=
  (exists o, c = RootBeginCapture o CaptureOwned (Some t)) /\
  (exists g, (root_step s c).2 = RepGeneration (Some g)) /\
  ConnectionLifecycle.is_current (connection s) t = true /\ device_connection_intent s = RecordOnly.
Lemma root_transport s c t :
  transport (capture (root_step s c).1) = Owned t ->
  transport (capture s) = Owned t \/ owned_begin s c t.
Proof.
  unfold owned_begin. destruct s as [it cn cp idn tl dg], c as [c|o w a|k b|w|i];
    cbn [root_step relabel fst snd]; auto.
  - simpl. destruct (step cn c); auto.
  - unfold begin_capture. simpl. destruct (is_some_and a _) eqn:Ea; [auto|]. destruct w.
    + pose proof (begin_transport cp o OwnBorrowed None t) as H.
      destruct (begin_with_transport _ _ _ _). simpl in *. intros [?|(Ho & _)]%H; [auto|discriminate Ho].
    + destruct (bool_decide_reflect (it = RecordOnly)) as [->|]; simpl; [|auto].
      destruct a as [a|]; [|auto]. pose proof (begin_transport cp o CaptureOwned (Some a) t) as H.
      destruct (begin_with_transport _ _ _ _). simpl in *. intros [?|(_ & [= ->] & g & ->)]%H; [auto|].
      apply negb_false_iff in Ea. right. split_ands; eauto.
  - unfold finish_capture_flush. pose proof (flush_transport cp k b (s_token (snapshot cn)) t) as H.
    simpl. destruct (finish_flush_with_transport _ _ _ _). auto.
  - pose proof (writer_transport cp w) as H. simpl. destruct (capture_step _ _). simpl in *.
    rewrite H. auto.
Qed.

(** A token that was current once, with [n] calls left in the range of the
    connection generations. *)
Definition seen (t : ConnectionAttemptToken) (n : nat) (s : CutoutSessionState) : Prop :=
  generation t <= gen (connection s) /\ in_u u64_max (gen (connection s)) /\
  gen (connection s) + Z.of_nat n <= u64_max.
Lemma root_gen s c :
  in_u u64_max (gen (connection s)) -> gen (connection s) + 1 <= u64_max ->
  gen (connection s) <= gen (connection (root_step s c).1) <= gen (connection s) + 1.
Proof.
  intros H1 H2. rewrite root_connection. destruct c as [c| | | |]; try lia.
  destruct (step_identity (connection s) c H1 H2) as [[-> _]|[-> _]]; lia.
Qed.
Lemma seen_step t n s c : seen t (Datatypes.S n) s -> seen t n (root_step s c).1.
Proof.
  intros (H1 & H2 & H3). pose proof (root_gen s c H2 ltac:(lia)). unfold seen, in_u in *. lia.
Qed.
Lemma root_retired_step t n s c :
  retired t (Datatypes.S n) (connection s) -> retired t n (connection (root_step s c).1).
Proof.
  intros H. rewrite root_connection. destruct c as [c| | | |]; [by apply retired_step|..];
    destruct H as (? & ? & [? ?] & ?); unfold retired, in_u; split_ands; try done; lia.
Qed.
Lemma default_gen n calls :
  Z.of_nat (length calls + n) <= u64_max ->
  0 <= gen (connection (run_state root_step default_root calls)) /\
  gen (connection (run_state root_step default_root calls)) + Z.of_nat n <= u64_max.
Proof.
  intros H.
  assert (H1 : (fun m s => in_u u64_max (gen (connection s)) /\
      gen (connection s) + Z.of_nat (m + n) <= u64_max) 0%nat (run_state root_step default_root calls)).
  { apply (run_invariant_counted root_step (fun m s => in_u u64_max (gen (connection s)) /\
      gen (connection s) + Z.of_nat (m + n) <= u64_max)).
    - intros m s c [H1 H2]. pose proof (root_gen s c H1 ltac:(lia)). unfold in_u in *. lia.
    - unfold in_u, gen. simpl. lia. }
  destruct H1 as [H1 H2]. unfold in_u in H1. simpl in H2. lia.
Qed.
#[global] Instance root_connection_wf : Invariant root_step (fun s => wf (connection s)).
Proof. intros s c H. rewrite root_connection. destruct c; [by apply step_wf|done..]. Qed.
Lemma root_token_ok calls : token_ok (connection (run_state root_step default_root calls)).
Proof. apply wf_token, (run_invariant root_step (fun s => wf (connection s))), wf_default. Qed.

(** The begin that a retained ownership goes back to. *)
Lemma owned_since calls t :
  transport (capture (run_state root_step default_root calls)) = Owned t ->
  exists before c after, calls = before ++ c :: after /\
    owned_begin (run_state root_step default_root before) c t.
Proof.
  induction calls as [|c calls IH] using rev_ind; [done|].
  rewrite run_state_app, run_state_one. intros [H|H]%root_transport.
  - destruct (IH H) as (before & c' & after & -> & Hb). exists before, c', (after ++ [c]).
    by rewrite <- app_assoc.
  - by exists calls, c, [].
Qed.

Lemma release_inv s token succeeded t :
  (root_step s (RootFinishFlush token succeeded)).2 = RepRelease (ReleaseOwnedTransport t) ->
  succeeded = true /\ transport (capture s) = Owned t /\
  ConnectionLifecycle.is_current (connection s) t = true.
Proof.
  cbn [root_step relabel snd]. unfold finish_capture_flush, finish_flush_with_transport, finish_flush.
  destruct s as [it cn cp idn tl dg], cp as [ng no cu bi fi pc]. simpl.
  destruct (negb _); [done|]. destruct cu as [a|]; [|done]. destruct (negb _ || negb _); [done|]. simpl.
  destruct succeeded; [|done]. simpl. destruct bi as [|own]; [done|].
  destruct (bool_decide _) eqn:E; simpl; [|done]. intros [= ->].
  apply bool_decide_eq_true in E. split_ands; [done|done|]. apply is_current_true. exact E.
Qed.

(** While [t] stays current afterwards it was current all along. *)
Lemma current_throughout t s calls :
  seen t (length calls) s ->
  ConnectionLifecycle.is_current (connection (run_state root_step s calls)) t = true ->
  ConnectionLifecycle.is_current (connection s) t = true.
Proof.
  intros (H1 & H2 & H3) Hc. destruct (ConnectionLifecycle.is_current (connection s) t) eqn:E; [done|].
  assert (Hr : retired t 0 (connection (run_state root_step s calls))).
  { apply (run_invariant_counted root_step (fun n s => retired t n (connection s))).
    - intros n s' c. apply root_retired_step.
    - by repeat split; try apply H2. }
  destruct Hr as [Hr _]. congruence.
Qed.

(** Finishing a capture disconnects only its own connection.  After any
    events of connection, captures and writers, a finished flush hands back a
    transport to release only if the flush succeeded, a capture of the
    record-only intent was begun with exactly that connection attempt while it
    was the current one, and the attempt has been the current one ever since:
    a connection that replaced it is never torn down by the old capture. *)
Theorem release_only_own_transport calls token succeeded t :
  let s := run_state root_step default_root calls in
  Z.of_nat (length calls) <= u64_max ->
  (root_step s (RootFinishFlush token succeeded)).2 = RepRelease (ReleaseOwnedTransport t) ->
  succeeded = true /\
  exists before c after, calls = before ++ c :: after /\
    owned_begin (run_state root_step default_root before) c t /\
    forall during later, c :: after = during ++ later ->
      ConnectionLifecycle.is_current (connection (run_state root_step default_root (before ++ during))) t = true.
Proof.
  cbv zeta. intros Hlen Hr. destruct (release_inv _ _ _ _ Hr) as (Hs & Ht & Hc). split; [done|].
  destruct (owned_since _ _ Ht) as (before & c & after & -> & Hb). exists before, c, after.
  split_ands; [done|done|]. intros during later E.
  apply (current_throughout t _ later).
  - destruct Hb as (_ & _ & Hcur & _). apply is_current_true in Hcur.
    assert (Hl : (length (before ++ c :: after) = length before + (length during + length later))%nat)
      by (rewrite E, !length_app; lia).
    destruct (default_gen (length during + length later) before) as [Hg1 Hg2]; [lia|].
    rewrite run_state_app.
    apply (run_invariant_counted_from root_step (seen t)); [intros; by apply seen_step|].
    unfold seen, in_u. rewrite (root_token_ok before t Hcur). unfold gen in *. split_ands; lia.
  - rewrite <- run_state_app, <- app_assoc, <- E. exact Hc.
Qed.

Definition release_calls : list RootCall :=
  [RootIntent RecordOnly; RootConnection (CBegin "w" 0);
   RootBeginCapture Manual CaptureOwned (Some {| generation := 1; platform_identifier := "w" |});
   RootWriter (WStarted 1); RootWriter (WBeginFinish 1)].
Lemma release_only_own_transport_witness :
  exists before c after, release_calls = before ++ c :: after /\
    owned_begin (run_state root_step default_root before) c
      {| generation := 1; platform_identifier := "w" |}.
Proof.
  destruct (release_only_own_transport release_calls {| f_generation := 1; f_operation := 1 |} true
              {| generation := 1; platform_identifier := "w" |}) as (_ & b & c & a & E & H & _).
  - vm_compute. discriminate.
  - vm_compute. reflexivity.
  - by exists b, c, a.
Defined.
