(* ===== verification/Sessions.v ===== *)
(** * The session shells

    [cutout-protocols/src/session.rs]: the shells that turn the inputs of a
    connection into outputs, for any model and any notification decoder.
    [ReadOnlySession] serves reads, [BenignControlSession] adds allow-listed
    controls, [StationarySettingsWriteSession] writes settings under a
    short-lived stationary arm, [DangerousControlSession] refuses every
    command.  The trait of a decoder is the class [NotificationDecoder]; the
    associated constants and encoders of a model are the record [ModelSpec].
    Pushing to the output vector is returning what is pushed. *)

From S2P Require Import Prelude.
From S2P Require Import Quantities.
From S2P Require Import RequestQueue.
From S2P Require Import VehicleIdentity.
From S2P Require Import Commands.
From S2P Require Import Telemetry.
From S2P Require Import Readback.
From S2P Require Import SessionIO.
From S2P Require Import SessionState.

(** ** Interfaces *)

Inductive NotificationBufferState := BufferUnknown | BufferEmpty | BufferBuffered.
Inductive VeteranCommandMode := Ascii | Binary.
#[global] Instance command_mode_eq_dec : EqDecision VeteranCommandMode.
Proof. solve_decision. Defined.
Inductive ControlEncodingContext :=
| ContextDefault
| ContextVeteran (mode : VeteranCommandMode).

(** The trait [ReadOnlyNotificationDecoder], without its methods for
    application queries, host time and raw settings pages. *)
Class NotificationDecoder (D : Type) := {
  nd_buffer_state : D -> NotificationBufferState;
  nd_reset : D -> D;
  nd_on_tick : D -> Z -> D * list SessionOutput;
  nd_next_tick_at : D -> option Z;
  nd_on_read_command : D -> CommandKind -> D * list SessionOutput * bool;
  nd_control_encoding_context : D -> ControlEncodingContext;
  nd_handle_notification : D -> ProtocolFamily -> GattChannel -> list Z -> Z ->
    D * list SessionOutput;
}.

Record EncodedRequest := { er_payload : WritePayload; er_mode : WriteMode }.
Inductive RequestDisposition :=
| RequestPassive (command : CommandKind)
| RequestWrite (request : EncodedRequest)
| RequestWrites (requests : list EncodedRequest).
Record EncodedControl := { ec_command : CommandKind; ec_payload : WritePayload; ec_mode : WriteMode }.
Record EncodedControlStep := { delay_ms : Z; step_payload : WritePayload; step_mode : WriteMode }.
Record EncodedControlSequence := { ecs_command : CommandKind; steps : list EncodedControlStep }.

Record ModelSpec (Selection : Type) := {
  MODEL : string;
  PROTOCOL : ProtocolFamily;
  READ_CAPABILITIES : Capabilities;
  CONTROL_CAPABILITIES : Capabilities;
  WRITE_CAPABILITIES : Capabilities;
  MAX_SETTINGS_SPEED : option Z;
  WRITE_CHANNEL : GattChannel;
  SUBSCRIBE_CHANNEL : GattChannel;
  encode_read_command : CommandKind -> option RequestDisposition;
  select : DeviceCommand -> ControlEncodingContext -> option Selection;
  single : Selection -> DeviceCommand -> option EncodedControl;
  sequence : Selection -> DeviceCommand -> option EncodedControlSequence;
}.
Arguments MODEL {_} _.
Arguments PROTOCOL {_} _.
Arguments READ_CAPABILITIES {_} _.
Arguments CONTROL_CAPABILITIES {_} _.
Arguments WRITE_CAPABILITIES {_} _.
Arguments MAX_SETTINGS_SPEED {_} _.
Arguments WRITE_CHANNEL {_} _.
Arguments SUBSCRIBE_CHANNEL {_} _.
Arguments encode_read_command {_} _ _.
Arguments select {_} _ _ _.
Arguments single {_} _ _ _.
Arguments sequence {_} _ _ _.

Section Shells.
Context {D Selection : Type} `{NotificationDecoder D} (M : ModelSpec Selection).

(** ** Reads *)

Inductive ReadOnlyCommandGate := SupportedRead (k : CommandKind) | UnsupportedGate (k : CommandKind).
Definition gate_read_only_command (command : DeviceCommand) : ReadOnlyCommandGate :=
  let kind := command_kind command in
  if bool_decide (kind_safety_class kind = ReadOnly) && supports_command_kind (READ_CAPABILITIES M) kind
  then SupportedRead kind else UnsupportedGate kind.
Definition unavailable_readback_response (kind : CommandKind) : option ReadOnlyResponse :=
  match kind with
  | RequestBatteryInfo => Some (RespBattery readback_unavailable)
  | RequestFaultHistory =>
      Some (RespFaultHistory {| fh_availability := Unavailable; last_fault := None; since_distance := None |})
  | RequestSettings => Some (RespSettings {| sr_availability := Unavailable;
                               sr_entries := replicate SETTINGS_READBACK_CAPACITY None |})
  | _ => None
  end.
Definition push_encoded_read_request (request : EncodedRequest) : list SessionOutput :=
  [OutTransport (Write (WRITE_CHANNEL M) (er_payload request) (er_mode request))].
Definition push_unavailable (kind : CommandKind) : list SessionOutput :=
  match unavailable_readback_response kind with
  | Some response => [OutEvent (EventReadOnlyResponse response)]
  | None => []
  end.
Definition push_read_request (kind : CommandKind) : list SessionOutput :=
  match encode_read_command M kind with
  | Some (RequestWrite request) => push_encoded_read_request request
  | Some (RequestWrites requests) => requests ≫= push_encoded_read_request
  | Some (RequestPassive command) => push_unavailable command
  | None => push_unavailable kind
  end.

Record ReadOnlySession := { connected : bool; decoder : D }.
Definition with_decoder (d : D) : ReadOnlySession := {| connected := false; decoder := d |}.
Definition read_only_command (self : ReadOnlySession) (command : DeviceCommand)
  : ReadOnlySession * list SessionOutput :=
  match gate_read_only_command command with
  | SupportedRead kind =>
      if connected self || negb (bool_decide (PROTOCOL M = Vesc)) then
        let '(d, outputs, handled) := nd_on_read_command (decoder self) kind in
        ({| connected := connected self; decoder := d |},
         outputs ++ if handled : bool then [] else push_read_request kind)
      else (self, [])
  | UnsupportedGate RequestSettings =>
      (self, [OutEvent (EventReadOnlyResponse (RespSettings {| sr_availability := Unsupported;
               sr_entries := replicate SETTINGS_READBACK_CAPACITY None |}))])
  | UnsupportedGate RequestFaultHistory =>
      (self, [OutEvent (EventReadOnlyResponse (RespFaultHistory
        {| fh_availability := Unsupported; last_fault := None; since_distance := None |}))])
  | UnsupportedGate RequestBatteryInfo =>
      (self, [OutEvent (EventReadOnlyResponse (RespBattery readback_unsupported))])
  | UnsupportedGate _ => (self, [])
  end.
Definition read_only_handle (self : ReadOnlySession) (input : SessionInput)
  : ReadOnlySession * list SessionOutput :=
  match input with
  | InLinkUp info =>
      let '(d, outputs) := nd_on_tick (nd_reset (decoder self)) (li_monotonic_ms info) in
      ({| connected := true; decoder := d |},
       outputs ++ [OutEvent (EventLinkUp info); OutTransport (Subscribe (SUBSCRIBE_CHANNEL M))])
  | InLinkDown =>
      ({| connected := false; decoder := nd_reset (decoder self) |}, [OutEvent EventLinkDown])
  | InTick monotonic_ms =>
      let '(d, outputs) :=
        if connected self then nd_on_tick (decoder self) monotonic_ms else (decoder self, []) in
      ({| connected := connected self; decoder := d |},
       outputs ++ [OutEvent (EventTick monotonic_ms)])
  | InNotification channel bytes monotonic_ms =>
      if negb (connected self) then (self, [])
      else if bool_decide (channel = SUBSCRIBE_CHANNEL M) then
        let '(d, outputs) :=
          nd_handle_notification (decoder self) (PROTOCOL M) channel bytes monotonic_ms in
        ({| connected := connected self; decoder := d |}, outputs)
      else (self, [OutNotificationIngest
                     (wrong_channel_for_family_bytes (PROTOCOL M) channel bytes monotonic_ms)])
  | InCommand command => read_only_command self command
  end.
Definition read_only_next_tick_at (self : ReadOnlySession) : option Z :=
  if connected self then nd_next_tick_at (decoder self) else None.

#[global] Instance read_only_session : ProtocolSession ReadOnlySession :=
  {| ps_handle := read_only_handle; telemetry_retention _ := RetainLive |}.

(** ** Controls *)

Definition refusal (command : DeviceCommand) (reason : ControlRefusalReason) : list SessionOutput :=
  [OutEvent (EventControlRefusal {| cr_command := command_kind command;
     cr_safety_class := command_safety_class command; cr_reason := reason |})].
Definition write_control (encoded : EncodedControl) : list SessionOutput :=
  [OutTransport (Write (WRITE_CHANNEL M) (ec_payload encoded) (ec_mode encoded))].
(** [select(command, context).and_then(|selection| selection.single(command))]. *)
Definition select_single (command : DeviceCommand) (context : ControlEncodingContext)
  : option EncodedControl :=
  selection ← select M command context; single M selection command.
Definition select_sequence (command : DeviceCommand) (context : ControlEncodingContext)
  : option EncodedControlSequence :=
  selection ← select M command context; sequence M selection command.
Definition handle_benign_control (command : DeviceCommand) (context : ControlEncodingContext)
  : list SessionOutput :=
  match (if supports_command_kind (CONTROL_CAPABILITIES M) (command_kind command)
         then select_single command context else None) with
  | Some encoded => write_control encoded
  | None => refusal command CtlUnsupportedCommand
  end.

Inductive LightCommandState := LightUnknown | LightRequested (state : LightState).
Record BenignControlSession := {
  bc_read_only : ReadOnlySession;
  light_command_state : LightCommandState;
}.
Definition benign_handle (self : BenignControlSession) (input : SessionInput)
  : BenignControlSession * list SessionOutput :=
  let self :=
    match input with
    | InLinkUp _ | InLinkDown =>
        {| bc_read_only := bc_read_only self; light_command_state := LightUnknown |}
    | _ => self
    end in
  let serve :=
    let '(ro, outputs) := read_only_handle (bc_read_only self) input in
    ({| bc_read_only := ro; light_command_state := light_command_state self |}, outputs) in
  match input with
  | InCommand command =>
      if bool_decide (command_safety_class command = ReadOnly) then serve
      else
        let context := nd_control_encoding_context (decoder (bc_read_only self)) in
        match (if bool_decide (command_safety_class command = BenignControl) &&
                  supports_command_kind (CONTROL_CAPABILITIES M) (command_kind command)
               then select_single command context else None) with
        | Some encoded =>
            ({| bc_read_only := bc_read_only self;
                light_command_state := match command with
                                       | CmdSetLights state => LightRequested state
                                       | _ => light_command_state self
                                       end |}, write_control encoded)
        | None => (self, refusal command CtlUnsupportedCommand)
        end
  | _ => serve
  end.
#[global] Instance benign_session : ProtocolSession BenignControlSession :=
  {| ps_handle := benign_handle; telemetry_retention _ := RetainLive |}.

(** ** Settings under a stationary arm *)

Record PendingSettingsSequence := {
  remaining : list EncodedControlStep;
  next_at : Z;
  seq_expires_at : Z;
}.
Record StationarySettingsWriteSession := {
  st_read_only : ReadOnlySession;
  st_arm : option StationarySettingsArm;
  st_monotonic_ms : Z;
  pending_sequence : option PendingSettingsSequence;
  latest_settings_speed : option (Z * Z);
  latest_settings_charge_mode : option (Quantities.ChargeMode * Z);
  settings_cancellation_generation : Z;
}.
#[global] Instance eta_stationary : Eta StationarySettingsWriteSession := fun r =>
  Build_StationarySettingsWriteSession (st_read_only r) (st_arm r) (st_monotonic_ms r)
    (pending_sequence r) (latest_settings_speed r) (latest_settings_charge_mode r)
    (settings_cancellation_generation r).
Definition stationary_with_decoder (d : D) : StationarySettingsWriteSession :=
  {| st_read_only := with_decoder d; st_arm := None; st_monotonic_ms := 0;
     pending_sequence := None; latest_settings_speed := None;
     latest_settings_charge_mode := None; settings_cancellation_generation := 0 |}.
Record SettingWriteAuthorization := {
  auth_arm : StationarySettingsArm; cancellation_generation : Z;
}.

Definition stationary_next_tick_at (self : StationarySettingsWriteSession) : option Z :=
  min_option (option_list (read_only_next_tick_at (st_read_only self)) ++
              option_list (next_at <$> pending_sequence self)).
Definition charging_evidence (self : StationarySettingsWriteSession) : option (Quantities.ChargeMode * Z) :=
  match latest_settings_charge_mode self with
  | Some (mode, at_) => if charge_is_active mode then Some (mode, at_) else None
  | None => None
  end.
Definition setting_authorization_expires_at (self : StationarySettingsWriteSession)
    (authorization : SettingWriteAuthorization) : Z :=
  let evidence := option_list (snd <$> latest_settings_speed self) ++
                  option_list (snd <$> charging_evidence self) in
  let expiry := timestamp_saturating_add_duration (sa_expires_at (auth_arm authorization)) 1 in
  match evidence with
  | [] => expiry
  | at_ :: rest => Z.min expiry (timestamp_saturating_add_duration (foldr Z.max at_ rest) 2001)
  end.
Definition st_arm_with (self : StationarySettingsWriteSession) (arm : StationarySettingsArm)
  : StationarySettingsWriteSession :=
  let self := self <| st_monotonic_ms := sa_issued_at arm |> in
  let self :=
    if is_some_and (pending_sequence self)
         (fun pending => bool_decide (seq_expires_at pending < st_monotonic_ms self))
    then self <| pending_sequence := None |> else self in
  self <| st_arm := Some arm |>.
Definition set_monotonic (self : StationarySettingsWriteSession) (monotonic_ms : Z)
  : StationarySettingsWriteSession := self <| st_monotonic_ms := monotonic_ms |>.
Definition clear_arm (self : StationarySettingsWriteSession) : StationarySettingsWriteSession :=
  self <| st_arm := None |> <| pending_sequence := None |>
       <| settings_cancellation_generation :=
            sat_add u64_max (settings_cancellation_generation self) 1 |>.
Definition set_step_operation (id : TransportOperationId) (step : EncodedControlStep)
  : EncodedControlStep :=
  {| delay_ms := delay_ms step; step_payload := set_operation_id (step_payload step) id;
     step_mode := step_mode step |}.
Definition bind_setting_operation (self : StationarySettingsWriteSession) (id : TransportOperationId)
  : StationarySettingsWriteSession * (option SettingWriteAuthorization * Z) :=
  let pending :=
    (fun p => {| remaining := set_step_operation id <$> remaining p; next_at := next_at p;
                 seq_expires_at := seq_expires_at p |}) <$> pending_sequence self in
  (self <| pending_sequence := pending |>,
   ((fun arm => {| auth_arm := arm;
                   cancellation_generation := settings_cancellation_generation self |}) <$> st_arm self,
    match pending with Some p => Z.of_nat (length (remaining p)) | None => 0 end)).
Definition fresh_settings_speed (self : StationarySettingsWriteSession) (now : Z) : option Z :=
  match latest_settings_speed self with
  | Some (speed, observed_at) =>
      if bool_decide (observed_at <= now) && bool_decide (sat_sub now observed_at <= 2000)
      then Some speed else None
  | None => None
  end.
Definition fresh_settings_charging (self : StationarySettingsWriteSession) (now : Z) : bool :=
  match latest_settings_charge_mode self with
  | Some (mode, observed_at) =>
      charge_is_active mode && bool_decide (observed_at <= now) &&
      bool_decide (sat_sub now observed_at <= 2000)
  | None => false
  end.
(** The greatest speed, without its sign, at which settings may be written. *)
Definition maximum_settings_speed : Z :=
  match MAX_SETTINGS_SPEED M with Some maximum => Z.abs maximum | None => 0 end.
Definition setting_write_is_current (self : StationarySettingsWriteSession)
    (authorization : SettingWriteAuthorization) (at_ : Z) : bool :=
  let speed := fresh_settings_speed self at_ in
  bool_decide (cancellation_generation authorization = settings_cancellation_generation self) &&
  bool_decide (is_Some (st_arm self)) &&
  bool_decide (sa_issued_at (auth_arm authorization) <= at_) &&
  sa_is_valid_for (auth_arm authorization) (MODEL M) at_ &&
  match speed with Some speed => bool_decide (Z.abs speed <= maximum_settings_speed) | None => true end &&
  (bool_decide (is_Some speed) || fresh_settings_charging self at_).

(** The body of the loop of [observe_settings_telemetry], in its two parts. *)
Definition observe_settings_speed (self : StationarySettingsWriteSession) (delta : TelemetryDelta)
  : StationarySettingsWriteSession :=
  match d_speed delta with
  | Some speed =>
      if match latest_settings_speed self with Some (_, at_) => bool_decide (at_ <= d_at_ms delta) | None => true end
      then
        let self := self <| latest_settings_speed := Some (m_value speed, d_at_ms delta) |> in
        if bool_decide (maximum_settings_speed < Z.abs (m_value speed)) then clear_arm self else self
      else self
  | None => self
  end.
Definition observe_settings_charging (self : StationarySettingsWriteSession) (delta : TelemetryDelta)
  : StationarySettingsWriteSession :=
  match d_charge_mode delta with
  | Some mode =>
      if match latest_settings_charge_mode self with Some (_, at_) => bool_decide (at_ <= d_at_ms delta) | None => true end
      then
        let was_charging :=
          match latest_settings_charge_mode self with
          | Some (previous, _) => charge_is_active previous | None => false end in
        let self := self <| latest_settings_charge_mode := Some (m_value mode, d_at_ms delta) |> in
        if was_charging && negb (charge_is_active (m_value mode)) then clear_arm self else self
      else self
  | None => self
  end.
Definition observe_settings_output (self : StationarySettingsWriteSession) (output : SessionOutput)
  : StationarySettingsWriteSession :=
  match output with
  | OutEvent (EventTelemetry delta) => observe_settings_charging (observe_settings_speed self delta) delta
  | _ => self
  end.
Definition observe_settings_telemetry (self : StationarySettingsWriteSession)
    (outputs : list SessionOutput) : StationarySettingsWriteSession :=
  foldl observe_settings_output self outputs.

(** The write of [handle_tick], after the read-only session has ticked. *)
Definition tick_sequence (self : StationarySettingsWriteSession) (monotonic_ms : Z)
  : StationarySettingsWriteSession * list SessionOutput :=
  match pending_sequence self with
  | Some pending =>
      if bool_decide (monotonic_ms < next_at pending) then (self, [])
      else if match st_arm self with
              | Some arm => negb (sa_is_valid_for arm (MODEL M) monotonic_ms) | None => true end
              || bool_decide (seq_expires_at pending < monotonic_ms)
      then (self <| pending_sequence := None |>, [])
      else
        match remaining pending with
        | [] => (self, [])
        | step :: rest =>
            let pending :=
              match rest with
              | next :: _ => Some {| remaining := rest;
                  next_at := timestamp_saturating_add_duration monotonic_ms (delay_ms next);
                  seq_expires_at := seq_expires_at pending |}
              | [] => None
              end in
            (self <| pending_sequence := pending |>,
             [OutTransport (Write (WRITE_CHANNEL M) (step_payload step) (step_mode step))])
        end
  | None => (self, [])
  end.
Definition evidence_lapsed (self : StationarySettingsWriteSession) (monotonic_ms : Z) : bool :=
  (bool_decide (is_Some (latest_settings_speed self)) ||
   bool_decide (is_Some (latest_settings_charge_mode self))) &&
  bool_decide (fresh_settings_speed self monotonic_ms = None) &&
  negb (fresh_settings_charging self monotonic_ms).
Definition handle_tick (self : StationarySettingsWriteSession) (monotonic_ms : Z)
  : StationarySettingsWriteSession * list SessionOutput :=
  let self := self <| st_monotonic_ms := monotonic_ms |> in
  let self := if evidence_lapsed self monotonic_ms then clear_arm self else self in
  let '(ro, outputs) := read_only_handle (st_read_only self) (InTick monotonic_ms) in
  let '(self, written) := tick_sequence (self <| st_read_only := ro |>) monotonic_ms in
  (self, outputs ++ written).

Definition stationary_refusal (self : StationarySettingsWriteSession) (kind : CommandKind)
  : option ControlRefusalReason :=
  if supports_command_kind (WRITE_CAPABILITIES M) kind then
    match pending_sequence self with
    | Some _ => Some CtlBusy
    | None =>
        match st_arm self with
        | None => Some CtlMissingArm
        | Some arm =>
            if negb (str_eq (sa_model arm) (MODEL M)) then Some CtlWrongModel
            else if negb (sa_is_valid_for arm (MODEL M) (st_monotonic_ms self)) then Some CtlExpiredArm
            else None
        end
    end
  else Some CtlUnsupportedCommand.
Definition begin_sequence (self : StationarySettingsWriteSession) (rest : list EncodedControlStep)
  : option PendingSettingsSequence :=
  match rest, st_arm self with
  | next :: _, Some arm =>
      Some {| remaining := rest;
              next_at := timestamp_saturating_add_duration (st_monotonic_ms self) (delay_ms next);
              seq_expires_at := sa_expires_at arm |}
  | _, _ => None
  end.
Definition handle_stationary_command (self : StationarySettingsWriteSession) (command : DeviceCommand)
  : StationarySettingsWriteSession * list SessionOutput :=
  match stationary_refusal self (command_kind command) with
  | Some reason => (self, refusal command reason)
  | None =>
      let context := nd_control_encoding_context (decoder (st_read_only self)) in
      match select_sequence command context with
      | Some sequence =>
          match steps sequence with
          | [] => (self, refusal command CtlUnsupportedCommand)
          | first :: rest =>
              (self <| pending_sequence := begin_sequence self rest |>,
               [OutTransport (Write (WRITE_CHANNEL M) (step_payload first) (step_mode first))])
          end
      | None =>
          match select_single command context with
          | Some encoded => (self, write_control encoded)
          | None => (self, refusal command CtlUnsupportedCommand)
          end
      end
  end.
Definition handle_benign_setting (self : StationarySettingsWriteSession) (command : DeviceCommand)
  : list SessionOutput :=
  let busy := bool_decide (is_Some (pending_sequence self)) in
  if negb (supports_command_kind (WRITE_CAPABILITIES M) (command_kind command)) || busy
  then refusal command (if busy then CtlBusy else CtlUnsupportedCommand)
  else
    match select_single command (nd_control_encoding_context (decoder (st_read_only self))) with
    | Some encoded => write_control encoded
    | None => refusal command CtlUnsupportedCommand
    end.
Definition serve_and_observe (self : StationarySettingsWriteSession) (input : SessionInput)
  : StationarySettingsWriteSession * list SessionOutput :=
  let '(ro, outputs) := read_only_handle (st_read_only self) input in
  (observe_settings_telemetry (self <| st_read_only := ro |>) outputs, outputs).
Definition stationary_handle (self : StationarySettingsWriteSession) (input : SessionInput)
  : StationarySettingsWriteSession * list SessionOutput :=
  match input with
  | InTick monotonic_ms => handle_tick self monotonic_ms
  | InLinkDown | InLinkUp _ =>
      let self := clear_arm self <| latest_settings_speed := None |>
                                 <| latest_settings_charge_mode := None |> in
      let '(ro, outputs) := read_only_handle (st_read_only self) input in
      (self <| st_read_only := ro |>, outputs)
  | InCommand command =>
      if bool_decide (command_safety_class command = StationaryOnly)
      then handle_stationary_command self command
      else if bool_decide (command_safety_class command = BenignControl) then
        match command with
        | CmdSetSetting _ _ => (self, handle_benign_setting self command)
        | _ => (self, handle_benign_control command
                        (nd_control_encoding_context (decoder (st_read_only self))))
        end
      else serve_and_observe self input
  | InNotification _ _ _ => serve_and_observe self input
  end.
#[global] Instance stationary_session : ProtocolSession StationarySettingsWriteSession :=
  {| ps_handle := stationary_handle; telemetry_retention _ := RetainLive |}.

(** [arm_settings_write]. *)
Definition arm_settings_write (state : RideOperatingState) (speed : option Z) (monotonic_ms : Z)
  : option StationarySettingsArm :=
  sp_arm_with_speed {| sp_model := MODEL M; sp_arm_duration := 5000 |} state speed
    (MAX_SETTINGS_SPEED M) monotonic_ms.
End Shells.

(** ** The shell for dangerous commands *)

Record DangerousControlSession := {
  dc_policy : DangerousActuationPolicy;
  dc_arm : option DangerousActuationArm;
  dc_monotonic_ms : Z;
}.
Definition dangerous_new (policy : DangerousActuationPolicy) : DangerousControlSession :=
  {| dc_policy := policy; dc_arm := None; dc_monotonic_ms := 0 |}.
Definition dangerous_arm (self : DangerousControlSession) (arm : DangerousActuationArm)
  : DangerousControlSession :=
  {| dc_policy := dc_policy self; dc_arm := Some arm; dc_monotonic_ms := dc_monotonic_ms self |}.
Definition push_refusal (command : CommandKind) (safety_class : SafetyClass)
    (reason : ControlRefusalReason) : list SessionOutput :=
  [OutEvent (EventControlRefusal
     {| cr_command := command; cr_safety_class := safety_class; cr_reason := reason |})].
Definition dangerous_handle (actuation_capabilities : Capabilities) (self : DangerousControlSession)
    (input : SessionInput) : DangerousControlSession * list SessionOutput :=
  match input with
  | InTick monotonic_ms =>
      ({| dc_policy := dc_policy self; dc_arm := dc_arm self; dc_monotonic_ms := monotonic_ms |}, [])
  | InCommand command =>
      let kind := command_kind command in
      let safety_class := command_safety_class command in
      if negb (supports_command_kind actuation_capabilities kind)
      then (self, push_refusal kind safety_class CtlUnsupportedCommand)
      else
        (self, match authorize (dc_policy self) command (dc_monotonic_ms self) (dc_arm self) with
               | Ok metadata => push_refusal (md_kind metadata) (md_safety_class metadata) CtlUnsupportedCommand
               | Err reason => push_refusal kind safety_class (control_refusal_from reason)
               end)
  | InLinkUp _ | InLinkDown | InNotification _ _ _ => (self, [])
  end.

(** ** Settings writes need a live arm

    A settings session is driven by its inputs and by the host: arming it,
    setting its clock, clearing the arm and binding a transport operation. *)

Inductive SettingsCall :=
| CallInput (input : SessionInput)
| CallArm (arm : StationarySettingsArm)
| CallSetMonotonic (monotonic_ms : Z)
| CallClearArm
| CallBind (id : TransportOperationId).

Section SettingsWrites.
Context {D Selection : Type} `{NotificationDecoder D} (M : ModelSpec Selection).
Notation session := (@StationarySettingsWriteSession D).

Definition settings_step (self : session) (call : SettingsCall) : session * list SessionOutput :=
  match call with
  | CallInput input => stationary_handle M self input
  | CallArm arm => (st_arm_with self arm, [])
  | CallSetMonotonic monotonic_ms => (set_monotonic self monotonic_ms, [])
  | CallClearArm => (clear_arm self, [])
  | CallBind id => ((bind_setting_operation self id).1, [])
  end.

(** What an arm outlives: no clear, no other arm, no link change; no tick that
    finds the evidence of standing still lapsed; and no command or notification
    whose outputs report a speed above the maximum, newer than those before it,
    or the end of charging.  What a tick itself reports is not looked at:
    [handle_tick] does not observe its outputs. *)
Definition keeps_arm (b : session) (call : SettingsCall) : Prop :=
  match call with
  | CallArm _ | CallClearArm | CallInput (InLinkUp _) | CallInput InLinkDown => False
  | CallSetMonotonic _ | CallBind _ => True
  | CallInput (InTick t) => evidence_lapsed b t = false
  | CallInput _ =>
      (forall seen delta m rest,
         (settings_step b call).2 = seen ++ OutEvent (EventTelemetry delta) :: rest ->
         d_speed delta = Some m -> maximum_settings_speed M < Z.abs (m_value m) ->
         exists v at_, latest_settings_speed (observe_settings_telemetry M b seen) = Some (v, at_) /\
           d_at_ms delta < at_) /\
      (is_Some (charging_evidence b) -> is_Some (charging_evidence (settings_step b call).1))
  end.

(** A tick's own write of the pending sequence. *)
Definition tick_writes (self : session) (t : Z) : list SessionOutput :=
  let self := self <| st_monotonic_ms := t |> in
  (tick_sequence M (if evidence_lapsed self t then clear_arm self else self) t).2.
Fixpoint sequence_writes (self : session) (calls : list SettingsCall) : list SessionOutput :=
  match calls with
  | [] => []
  | call :: rest =>
      match call with CallInput (InTick t) => tick_writes self t | _ => [] end ++
      sequence_writes (settings_step self call).1 rest
  end.
(** A step and an output on the wire: the bytes and how they are written. *)
Definition wire (step : EncodedControlStep) : list Z * WriteMode :=
  (write_payload_as_slice (step_payload step), step_mode step).
Definition written (output : SessionOutput) : option (list Z * WriteMode) :=
  match output with
  | OutTransport (Write _ payload mode) => Some (write_payload_as_slice payload, mode)
  | _ => None
  end.

(** *** Lemmas *)

(** Observing an output changes only the evidence and what clearing clears. *)
Lemma clear_arm_fields (s : session) :
  st_arm (clear_arm s) = None /\ pending_sequence (clear_arm s) = None /\
  latest_settings_speed (clear_arm s) = latest_settings_speed s /\
  latest_settings_charge_mode (clear_arm s) = latest_settings_charge_mode s /\
  st_read_only (clear_arm s) = st_read_only s /\ st_monotonic_ms (clear_arm s) = st_monotonic_ms s.
Proof. by destruct s. Qed.

(** A state is kept by an observation, or its arm and sequence are cleared. *)
Definition kept_or_cleared (s s' : session) : Prop :=
  st_arm s' = st_arm s /\ pending_sequence s' = pending_sequence s \/
  st_arm s' = None /\ pending_sequence s' = None.
#[local] Instance kept_or_cleared_preorder : PreOrder kept_or_cleared.
Proof.
  unfold kept_or_cleared. split; [by intros ?; left|].
  intros x y z [[-> ->] | [Hy1 Hy2]] Hz; [done|]. right.
  destruct Hz as [[-> ->] | ?]; [by rewrite Hy1, Hy2|done].
Qed.
Lemma observe_output_kept (s : session) o : kept_or_cleared s (observe_settings_output M s o).
Proof.
  destruct o as [|[| | |delta| | | |]|]; try reflexivity. simpl.
  transitivity (observe_settings_speed M s delta).
  - unfold observe_settings_speed, kept_or_cleared. destruct s. simpl. step_cases; tauto.
  - generalize (observe_settings_speed M s delta). clear s. intros s.
    unfold observe_settings_charging, kept_or_cleared. destruct s. simpl. step_cases; tauto.
Qed.
Lemma observe_telemetry_kept (s : session) outs : kept_or_cleared s (observe_settings_telemetry M s outs).
Proof.
  unfold observe_settings_telemetry. revert s.
  induction outs as [|o outs IH]; intros s; [reflexivity|]. simpl.
  etransitivity; [apply observe_output_kept|apply IH].
Qed.
Lemma observe_telemetry_cleared (s : session) outs :
  st_arm s = None -> st_arm (observe_settings_telemetry M s outs) = None.
Proof. intros Hs. destruct (observe_telemetry_kept s outs) as [[-> _] | [-> _]]; done. Qed.
Lemma observe_telemetry_app (s : session) o1 o2 :
  observe_settings_telemetry M s (o1 ++ o2) =
  observe_settings_telemetry M (observe_settings_telemetry M s o1) o2.
Proof. unfold observe_settings_telemetry. apply foldl_app. Qed.

(** The evidence an observation leaves does not depend on the rest. *)
Definition same_evidence (s s' : session) : Prop :=
  latest_settings_speed s' = latest_settings_speed s /\
  latest_settings_charge_mode s' = latest_settings_charge_mode s.
Lemma observe_telemetry_evidence (s s' : session) outs :
  same_evidence s s' ->
  same_evidence (observe_settings_telemetry M s outs) (observe_settings_telemetry M s' outs).
Proof.
  unfold observe_settings_telemetry. revert s s'.
  induction outs as [|o outs IH]; intros s s' E; [done|]. simpl. apply IH.
  destruct o as [|[| | |delta| | | |]|]; try done. simpl.
  destruct s, s', E as [E1 E2]. simpl in *. subst.
  unfold observe_settings_speed, observe_settings_charging, same_evidence. simpl.
  step_cases; done.
Qed.

(** An arm that outlives an observation saw no newer speed above the maximum. *)
Lemma armed_observation_slow (s : session) arm seen delta m rest :
  st_arm (observe_settings_telemetry M s (seen ++ OutEvent (EventTelemetry delta) :: rest)) = Some arm ->
  d_speed delta = Some m -> maximum_settings_speed M < Z.abs (m_value m) ->
  exists v at_, latest_settings_speed (observe_settings_telemetry M s seen) = Some (v, at_) /\
    d_at_ms delta < at_.
Proof.
  rewrite observe_telemetry_app. generalize (observe_settings_telemetry M s seen). clear s seen.
  intros s Ha Hd Hm.
  assert (Hn : st_arm (observe_settings_output M s (OutEvent (EventTelemetry delta))) <> None).
  { intros Hn. change (st_arm (observe_settings_telemetry M (observe_settings_output M s
      (OutEvent (EventTelemetry delta))) rest) = Some arm) in Ha.
    by rewrite observe_telemetry_cleared in Ha. }
  clear Ha rest. simpl in Hn. unfold observe_settings_speed in Hn. rewrite Hd in Hn.
  destruct (latest_settings_speed s) as [[v at_]|] eqn:E.
  1: case_bool_decide as Hat; [|exists v, at_; split; [done|lia]].
  all: destruct Hn; rewrite bool_decide_true by done; destruct s; unfold observe_settings_charging;
    simpl; step_cases; done.
Qed.
(** And no end of charging. *)
Lemma armed_observation_charging (s : session) arm outs :
  st_arm (observe_settings_telemetry M s outs) = Some arm ->
  is_Some (charging_evidence s) -> is_Some (charging_evidence (observe_settings_telemetry M s outs)).
Proof.
  revert s. induction outs as [|o outs IH]; intros s Ha Hc; [done|].
  change (observe_settings_telemetry M s (o :: outs)) with
    (observe_settings_telemetry M (observe_settings_output M s o) outs) in *.
  apply IH; [done|]. clear IH.
  assert (Hn : st_arm (observe_settings_output M s o) <> None)
    by (intros Hn; by rewrite observe_telemetry_cleared in Ha).
  clear Ha. destruct o as [|[| | |delta| | | |]|]; try done. simpl in *.
  assert (Hc' : is_Some (charging_evidence (observe_settings_speed M s delta))).
  { unfold observe_settings_speed, charging_evidence in *. destruct s. simpl in *.
    clear Hn. step_cases; done. }
  clear Hc. revert Hc' Hn. generalize (observe_settings_speed M s delta). clear s. intros s Hc Hn.
  unfold observe_settings_charging, charging_evidence in *. destruct s. simpl in *.
  destruct (d_charge_mode delta) as [mode|]; [|done].
  destruct latest_settings_charge_mode0 as [[previous at_]|]; [|by destruct Hc]. simpl in *.
  destruct (charge_is_active previous) eqn:Ep; [|by destruct Hc].
  case_bool_decide; simpl in *; [|by rewrite Ep].
  destruct (charge_is_active (m_value mode)) eqn:Em; simpl in *; [|done]. by rewrite Em.
Qed.
(** Serving a read-only input observes its outputs. *)
Lemma serve_and_observe_keeps (s : session) input arm :
  st_arm (serve_and_observe M s input).1 = Some arm ->
  st_arm s = Some arm /\
  (forall seen delta m rest,
     (serve_and_observe M s input).2 = seen ++ OutEvent (EventTelemetry delta) :: rest ->
     d_speed delta = Some m -> maximum_settings_speed M < Z.abs (m_value m) ->
     exists v at_, latest_settings_speed (observe_settings_telemetry M s seen) = Some (v, at_) /\
       d_at_ms delta < at_) /\
  (is_Some (charging_evidence s) -> is_Some (charging_evidence (serve_and_observe M s input).1)).
Proof.
  unfold serve_and_observe. destruct (read_only_handle M (st_read_only s) input) as [ro outs]. cbn [fst snd].
  intros Ha. split_ands.
  - destruct (observe_telemetry_kept (s <| st_read_only := ro |>) outs) as [[E _] | [E _]];
      rewrite E in Ha; [|done]. by destruct s.
  - intros seen delta m rest -> Hd Hm.
    destruct (armed_observation_slow _ _ _ _ _ _ Ha Hd Hm) as (v & at_ & E & Hlt).
    exists v, at_. split; [|done]. rewrite <- E. symmetry.
    apply observe_telemetry_evidence. by destruct s.
  - intros Hc. apply (armed_observation_charging _ _ _ Ha). by destruct s.
Qed.

(** A tick keeps the arm, or finds the evidence lapsed. *)
Lemma tick_sequence_arm (s : session) t : st_arm (tick_sequence M s t).1 = st_arm s.
Proof. unfold tick_sequence. destruct s. simpl. step_cases; done. Qed.
Lemma handle_tick_keeps (s : session) t arm :
  st_arm (handle_tick M s t).1 = Some arm -> st_arm s = Some arm /\ evidence_lapsed s t = false.
Proof.
  unfold handle_tick. set (s1 := s <| st_monotonic_ms := t |>).
  replace (evidence_lapsed s1 t) with (evidence_lapsed s t) by (by destruct s).
  set (s2 := if evidence_lapsed s t then clear_arm s1 else s1).
  destruct (read_only_handle M (st_read_only s2) (InTick t)) as [ro outs].
  pose proof (tick_sequence_arm (s2 <| st_read_only := ro |>) t) as E.
  destruct (tick_sequence M (s2 <| st_read_only := ro |>) t) as [s3 written]. simpl in *. rewrite E.
  unfold s2, s1. destruct (evidence_lapsed s t), s; done.
Qed.
Definition link_change (input : SessionInput) : bool :=
  match input with InLinkUp _ | InLinkDown => true | _ => false end.
Lemma link_change_clears (s : session) input :
  link_change input = true ->
  st_arm (stationary_handle M s input).1 = None /\
  pending_sequence (stationary_handle M s input).1 = None.
Proof.
  destruct s, input; try done; intros _; unfold stationary_handle.
  all: match goal with |- context [read_only_handle M ?r ?i] => destruct (read_only_handle M r i) end.
  all: done.
Qed.
Lemma settings_step_keeps (s : session) call arm :
  st_arm (settings_step s call).1 = Some arm ->
  call = CallArm arm \/ st_arm s = Some arm /\ keeps_arm s call.
Proof.
  destruct call as [input|arm'|t| |id]; cbn [settings_step].
  - intros Ha. right.
    destruct (link_change input) eqn:Hl; [by destruct (link_change_clears s input Hl) as [E _]; rewrite E in Ha|].
    destruct input as [info| |channel bytes t|t|command]; try done; simpl in *.
    + by apply serve_and_observe_keeps.
    + by apply handle_tick_keeps.
    + (* commands *)
      case_bool_decide as E1; [|case_bool_decide as E2].
      * (* a settings command keeps the arm and emits no telemetry *)
        revert Ha. unfold handle_stationary_command, write_control, refusal. destruct s. simpl.
        step_cases; intros Ha; split_ands; try done; intros seen delta m rest Hs;
          destruct seen as [|? [|? ?]]; done.
      * revert Ha. unfold handle_benign_control, handle_benign_setting, write_control, refusal. destruct s. simpl.
        step_cases; intros Ha; split_ands; try done; intros seen delta m rest Hs;
          destruct seen as [|? [|? ?]]; done.
      * by apply serve_and_observe_keeps.
  - unfold st_arm_with. destruct s. simpl. step_cases; intros [= ->]; by left.
  - destruct s. simpl. by right.
  - destruct s. done.
  - unfold bind_setting_operation. destruct s. simpl. by right.
Qed.

Lemma armed_by (d : D) calls arm :
  st_arm (run_state settings_step (stationary_with_decoder d) calls) = Some arm ->
  exists pre post, calls = pre ++ CallArm arm :: post /\
    forall p1 call p2, post = p1 ++ call :: p2 ->
      keeps_arm (run_state settings_step (stationary_with_decoder d) (pre ++ CallArm arm :: p1)) call.
Proof.
  induction calls as [|call calls IH] using rev_ind; [done|].
  rewrite run_state_snoc. intros Ha.
  apply settings_step_keeps in Ha as [-> | [Ha Hk]].
  - exists calls, []. split; [done|]. intros [|? ?]; done.
  - destruct (IH Ha) as (pre & post & -> & Hpost). exists pre, (post ++ [call]).
    split; [by rewrite <- app_assoc|]. intros p1 c p2 E.
    destruct p2 as [|x p2 _] using rev_ind.
    + apply app_inj_tail in E as [-> ->]. done.
    + rewrite app_comm_cons, app_assoc in E. apply app_inj_tail in E as [E ->]. eauto.
Qed.
Lemma refusal_no_write command reason o : o ∈ refusal command reason -> written o = None.
Proof. unfold refusal. set_solver. Qed.
Lemma stationary_refusal_None (s : session) kind :
  stationary_refusal M s kind = None ->
  pending_sequence s = None /\ supports_command_kind (WRITE_CAPABILITIES M) kind = true /\
  exists arm, st_arm s = Some arm /\ sa_model arm = MODEL M /\ st_monotonic_ms s <= sa_expires_at arm.
Proof.
  unfold stationary_refusal, sa_is_valid_for. destruct s. simpl. step_cases; try done.
  intros _. split_ands; [done..|]. eexists. rewrite str_eq_spec in *. prop_bools. done.
Qed.

(** *** The pending sequence *)

(** What a step does to the pending sequence: it begins with the command that
    was accepted, or loses its first step to a tick's write, or is kept up to
    the operation its writes are bound to. *)
Inductive sequence_change (s : session) (call : SettingsCall) (p : PendingSettingsSequence) : Prop :=
| SequenceBegun command sequence first arm :
    call = CallInput (InCommand command) -> command_safety_class command = StationaryOnly ->
    stationary_refusal M s (command_kind command) = None ->
    select_sequence M command (nd_control_encoding_context (decoder (st_read_only s))) = Some sequence ->
    steps sequence = first :: remaining p ->
    omap written (settings_step s call).2 = [wire first] ->
    st_arm s = Some arm -> seq_expires_at p = sa_expires_at arm ->
    sequence_change s call p
| SequenceAdvanced t step q :
    call = CallInput (InTick t) -> pending_sequence s = Some q ->
    remaining q = step :: remaining p -> seq_expires_at p = seq_expires_at q ->
    omap written (tick_writes s t) = [wire step] ->
    sequence_change s call p
| SequenceKept q :
    pending_sequence s = Some q -> wire <$> remaining p = wire <$> remaining q ->
    seq_expires_at p = seq_expires_at q ->
    (forall t, call = CallInput (InTick t) -> tick_writes s t = []) ->
    sequence_change s call p.

Lemma sequence_kept (s : session) call p :
  pending_sequence s = Some p -> (forall t, call = CallInput (InTick t) -> tick_writes s t = []) ->
  sequence_change s call p.
Proof. intros. by eapply SequenceKept. Qed.
Lemma tick_sequence_change (s : session) t p :
  pending_sequence (handle_tick M s t).1 = Some p -> sequence_change s (CallInput (InTick t)) p.
Proof.
  unfold handle_tick. set (s1 := s <| st_monotonic_ms := t |>).
  replace (evidence_lapsed s1 t) with (evidence_lapsed s t) by (by destruct s).
  set (s2 := if evidence_lapsed s t then clear_arm s1 else s1).
  destruct (read_only_handle M (st_read_only s2) (InTick t)) as [ro outs].
  destruct (tick_sequence M (s2 <| st_read_only := ro |>) t) as [s3 out] eqn:E. cbn [fst]. intros Hp.
  assert (Hw : tick_writes s t = out).
  { unfold tick_writes. fold s1.
    replace (evidence_lapsed s1 t) with (evidence_lapsed s t) by (by destruct s). fold s2.
    transitivity (tick_sequence M (s2 <| st_read_only := ro |>) t).2; [|by rewrite E].
    unfold tick_sequence. destruct s2. simpl. step_cases; done. }
  revert E. unfold tick_sequence, s2, s1. destruct s. simpl. intros E. step_cases_in E; try done.
  1-2: apply sequence_kept; [done|]; intros t' [= <-];
    match goal with Hn : [] = tick_writes _ _ |- _ => by rewrite <- Hn end.
  simpl in Hp. step_cases_in Hp; try done.
  match goal with H : [_] = tick_writes _ _ |- _ => rename H into Hw end.
  eapply SequenceAdvanced; [done|done|simpl; eassumption|done|]. by rewrite <- Hw.
Qed.
Lemma begin_sequence_Some (s : session) rest p :
  begin_sequence s rest = Some p ->
  remaining p = rest /\ exists arm, st_arm s = Some arm /\ seq_expires_at p = sa_expires_at arm.
Proof. unfold begin_sequence. step_cases; try done. intros [= <-]. eauto. Qed.
Lemma command_sequence_change (s : session) command p :
  pending_sequence (stationary_handle M s (InCommand command)).1 = Some p ->
  sequence_change s (CallInput (InCommand command)) p.
Proof.
  simpl. case_bool_decide as E1; [|case_bool_decide as E2].
  - unfold handle_stationary_command.
    destruct (stationary_refusal M s (command_kind command)) as [reason|] eqn:Er.
    { intros Hp. by apply sequence_kept. }
    pose proof Er as (Hp0 & _ & _)%stationary_refusal_None.
    destruct (select_sequence _ _ _) as [seq|] eqn:Es.
    + destruct (steps seq) as [|first rest] eqn:Est; [intros Hp; by apply sequence_kept|].
      intros Hp. assert (Hb : begin_sequence s rest = Some p) by (rewrite <- Hp; by destruct s).
      pose proof Hb as (Hr & arm & Ha & He)%begin_sequence_Some.
      eapply SequenceBegun; try done; [by rewrite Hr|].
      simpl. rewrite bool_decide_true by done. unfold handle_stationary_command. by rewrite Er, Es, Est.
    + destruct (select_single _ _ _); intros Hp; simpl in Hp; by rewrite Hp0 in Hp.
  - intros Hp. apply sequence_kept; [|done]. revert Hp. step_cases; done.
  - intros Hp. apply sequence_kept; [|done]. revert Hp. unfold serve_and_observe.
    destruct (read_only_handle M _ _) as [ro outs]. cbn [fst].
    destruct (observe_telemetry_kept (s <| st_read_only := ro |>) outs) as [[_ ->] | [_ ->]]; by destruct s.
Qed.
Lemma settings_step_sequence (s : session) call p :
  pending_sequence (settings_step s call).1 = Some p -> sequence_change s call p.
Proof.
  destruct call as [input|arm|t| |id]; cbn [settings_step].
  - destruct (link_change input) eqn:Hl.
    { destruct (link_change_clears s input Hl) as [_ ->]. done. }
    destruct input as [info| |channel bytes t|t|command]; try done.
    + cbn [stationary_handle]. intros Hp. apply sequence_kept; [|done]. revert Hp. unfold serve_and_observe.
      destruct (read_only_handle M _ _) as [ro outs]. cbn [fst].
      destruct (observe_telemetry_kept (s <| st_read_only := ro |>) outs) as [[_ ->] | [_ ->]]; by destruct s.
    + apply tick_sequence_change.
    + apply command_sequence_change.
  - intros Hp. apply sequence_kept; [|done]. revert Hp. unfold st_arm_with. destruct s. simpl. step_cases; done.
  - intros Hp. apply sequence_kept; [|done]. by destruct s.
  - by destruct s.
  - unfold bind_setting_operation. intros Hp. destruct s as [? ? ? [q|]]; simpl in Hp; [|done].
    injection Hp as <-. eapply SequenceKept; [done| |done|done]. simpl.
    rewrite <- list_fmap_compose. apply list_fmap_ext. by intros i [] _.
Qed.
Lemma sequence_writes_snoc (s : session) calls call :
  sequence_writes s (calls ++ [call]) =
  sequence_writes s calls ++
  match call with CallInput (InTick t) => tick_writes (run_state settings_step s calls) t | _ => [] end.
Proof.
  revert s. induction calls as [|c calls IH]; intros s.
  - simpl. by rewrite app_nil_r.
  - cbn [app sequence_writes]. by rewrite IH, run_state_cons, app_assoc.
Qed.
(** Where a pending sequence comes from: the steps of an accepted command are
    those written since, in order, followed by those that remain. *)
Definition sequence_from (s0 : session) (calls : list SettingsCall) (p : PendingSettingsSequence) : Prop :=
  exists pre command post sequence arm,
    calls = pre ++ CallInput (InCommand command) :: post /\
    let b := run_state settings_step s0 pre in
    let '(b', out) := settings_step b (CallInput (InCommand command)) in
    command_safety_class command = StationaryOnly /\
    stationary_refusal M b (command_kind command) = None /\
    st_arm b = Some arm /\ seq_expires_at p = sa_expires_at arm /\
    select_sequence M command (nd_control_encoding_context (decoder (st_read_only b))) = Some sequence /\
    wire <$> steps sequence = omap written (out ++ sequence_writes b' post) ++ (wire <$> remaining p).
Lemma sequence_from_snoc (s0 : session) calls call p q :
  sequence_from s0 calls q -> seq_expires_at p = seq_expires_at q ->
  wire <$> remaining q =
    omap written (match call with CallInput (InTick t) => tick_writes (run_state settings_step s0 calls) t
                                | _ => [] end) ++ (wire <$> remaining p) ->
  sequence_from s0 (calls ++ [call]) p.
Proof.
  intros (pre & command & post & sequence & arm & -> & Hseq) He Hr.
  exists pre, command, (post ++ [call]), sequence, arm. split; [by rewrite <- app_assoc|].
  cbn zeta in *. rewrite run_state_app, run_state_cons in Hr.
  destruct (settings_step (run_state settings_step s0 pre) (CallInput (InCommand command))) as [b' out].
  destruct Hseq as (? & ? & ? & He' & ? & Hw). cbn [fst] in Hr. split_ands; try done; [congruence|].
  rewrite Hw, Hr, sequence_writes_snoc, !omap_app, <- !app_assoc. done.
Qed.
Lemma sequence_provenance (d : D) calls p :
  pending_sequence (run_state settings_step (stationary_with_decoder d) calls) = Some p ->
  sequence_from (stationary_with_decoder d) calls p.
Proof.
  revert p. induction calls as [|call calls IH] using rev_ind; intros p; [done|].
  rewrite run_state_snoc.
  intros [command sequence first arm -> Hc Hr Hs Hst Ho Ha He|t step q -> Hq Hrem He Hw|q Hq Hrem He Hw]%settings_step_sequence.
  - exists calls, command, [], sequence, arm. split; [done|]. cbn zeta.
    destruct (settings_step (run_state settings_step (stationary_with_decoder d) calls)
                (CallInput (InCommand command))) as [b' out].
    split_ands; try done. cbn [sequence_writes snd] in *. rewrite app_nil_r, Ho, Hst. done.
  - eapply sequence_from_snoc; [by apply IH|done|]. rewrite Hw, Hrem. done.
  - eapply sequence_from_snoc; [by apply IH|done|]. rewrite Hrem.
    destruct call as [[]| | | |]; try done. by rewrite Hw.
Qed.
(** A tick's write is of a due step, under an arm valid at the tick. *)
Lemma tick_writes_inv (s : session) t w :
  w ∈ tick_writes s t ->
  w ∈ (settings_step s (CallInput (InTick t))).2 /\
  exists p step rest arm, pending_sequence s = Some p /\ remaining p = step :: rest /\
    w = OutTransport (Write (WRITE_CHANNEL M) (step_payload step) (step_mode step)) /\
    next_at p <= t <= seq_expires_at p /\ evidence_lapsed s t = false /\
    st_arm s = Some arm /\ sa_is_valid_for arm (MODEL M) t = true.
Proof.
  unfold tick_writes. set (s1 := s <| st_monotonic_ms := t |>).
  replace (evidence_lapsed s1 t) with (evidence_lapsed s t) by (by destruct s).
  set (s2 := if evidence_lapsed s t then clear_arm s1 else s1). intros Hw. split.
  - cbn [settings_step stationary_handle]. unfold handle_tick. fold s1.
    replace (evidence_lapsed s1 t) with (evidence_lapsed s t) by (by destruct s). fold s2.
    destruct (read_only_handle M (st_read_only s2) (InTick t)) as [ro outs].
    assert (E : (tick_sequence M (s2 <| st_read_only := ro |>) t).2 = (tick_sequence M s2 t).2)
      by (unfold tick_sequence; destruct s2; simpl; step_cases; done).
    destruct (tick_sequence M (s2 <| st_read_only := ro |>) t). simpl in *. subst. set_solver.
  - revert Hw. unfold tick_sequence, s2, s1. destruct s. simpl.
    step_cases; try (intros; set_solver).
    intros Hw. apply list_elem_of_singleton in Hw as ->. do 4 eexists.
    split_ands; try done; lia.
Qed.
(** A due tick under a live arm writes the next step and keeps the rest. *)
Definition after_step (p : PendingSettingsSequence) (t : Z) (rest : list EncodedControlStep)
  : option PendingSettingsSequence :=
  match rest with
  | next :: _ => Some {| remaining := rest;
                         next_at := timestamp_saturating_add_duration t (delay_ms next);
                         seq_expires_at := seq_expires_at p |}
  | [] => None
  end.
Lemma due_tick (s : session) t p arm step rest :
  pending_sequence s = Some p -> remaining p = step :: rest -> next_at p <= t <= seq_expires_at p ->
  st_arm s = Some arm -> sa_is_valid_for arm (MODEL M) t = true -> evidence_lapsed s t = false ->
  let s' := (handle_tick M s t).1 in
  omap written (tick_writes s t) = [wire step] /\ pending_sequence s' = after_step p t rest /\
  st_arm s' = Some arm /\ (forall u, evidence_lapsed s' u = evidence_lapsed s u).
Proof.
  intros Hp Hr Ht Ha Hv Hl. destruct s. simpl in Hp, Ha. subst.
  unfold tick_writes, handle_tick.
  match type of Hl with evidence_lapsed ?x _ = _ => set (s0 := x) in * end.
  set (s1 := s0 <| st_monotonic_ms := t |>).
  change (evidence_lapsed s1 t) with (evidence_lapsed s0 t). rewrite Hl.
  destruct (read_only_handle M (st_read_only s1) (InTick t)) as [ro outs].
  unfold tick_sequence. simpl. rewrite Hr, Hv.
  rewrite (bool_decide_false (t < next_at p)), (bool_decide_false (seq_expires_at p < t)) by lia. done.
Qed.
(** A tick at every step's time, not before its delay has passed. *)
Fixpoint on_schedule (from : Z) (later : list EncodedControlStep) (times : list Z) : Prop :=
  match later, times with
  | [], [] => True
  | step :: later, t :: times =>
      timestamp_saturating_add_duration from (delay_ms step) <= t /\ on_schedule t later times
  | _, _ => False
  end.
Definition ticks (times : list Z) : list SettingsCall := (fun t => CallInput (InTick t)) <$> times.
Lemma scheduled_ticks (times : list Z) (s : session) from step rest p arm :
  pending_sequence s = Some p -> remaining p = step :: rest ->
  next_at p = timestamp_saturating_add_duration from (delay_ms step) ->
  st_arm s = Some arm -> sa_model arm = MODEL M -> seq_expires_at p = sa_expires_at arm ->
  on_schedule from (step :: rest) times ->
  (forall t, t ∈ times -> t <= sa_expires_at arm /\ evidence_lapsed s t = false) ->
  omap written (sequence_writes s (ticks times)) = wire <$> step :: rest /\
  pending_sequence (run_state settings_step s (ticks times)) = None.
Proof.
  revert s from step rest p.
  induction times as [|t times IH]; intros s from step rest p Hp Hr Hn Ha Hm He Hs Hall; [done|].
  destruct Hs as [Hd Hs]. destruct (Hall t) as [Ht Hl]; [set_solver|].
  assert (Hv : sa_is_valid_for arm (MODEL M) t = true).
  { unfold sa_is_valid_for. rewrite str_eq_spec, !bool_decide_true; done. }
  destruct (due_tick s t p arm step rest) as (Hw & Hp' & Ha' & Hl'); [done..|lia|done|done|done|].
  change (ticks (t :: times)) with (CallInput (InTick t) :: ticks times).
  cbn [sequence_writes]. rewrite omap_app, Hw, run_state_cons.
  change (settings_step s (CallInput (InTick t))).1 with (handle_tick M s t).1.
  destruct rest as [|next rest]; cbn zeta in *.
  - destruct times; [|done]. split; [done|]. exact Hp'.
  - destruct (IH (handle_tick M s t).1 t next rest
                {| remaining := next :: rest;
                   next_at := timestamp_saturating_add_duration t (delay_ms next);
                   seq_expires_at := seq_expires_at p |}) as [IHw IHp]; try done.
    { intros u Hu. rewrite Hl'. apply Hall. set_solver. }
    rewrite IHw. done.
Qed.
Lemma charging_evidence_fresh (s : session) t :
  fresh_settings_charging s t = true <->
  exists mode at_, charging_evidence s = Some (mode, at_) /\ at_ <= t /\ sat_sub t at_ <= 2000.
Proof.
  unfold fresh_settings_charging, charging_evidence.
  destruct (latest_settings_charge_mode s) as [[mode at_]|]; [|split; [done|by intros (? & ? & ? & _)]].
  destruct (charge_is_active mode); simpl; [|split; [done|by intros (? & ? & ? & _)]].
  rewrite andb_true_iff, !bool_decide_eq_true. split; [eauto 10|].
  by intros (? & ? & [= <- <-] & ? & ?).
Qed.
Lemma speed_evidence_fresh (s : session) t v :
  fresh_settings_speed s t = Some v <->
  exists at_, latest_settings_speed s = Some (v, at_) /\ at_ <= t /\ sat_sub t at_ <= 2000.
Proof.
  unfold fresh_settings_speed. destruct (latest_settings_speed s) as [[w at_]|]; [|split; [done|by intros (? & ? & _)]].
  destruct (_ && _) eqn:E; prop_bools.
  - split; [intros [= <-]; eauto|]. by intros (? & [= <- <-] & _).
  - split; [done|]. intros (? & [= <- <-] & ? & ?). destruct E; prop_bools; lia.
Qed.

(** C30: a setting that needs a stationary vehicle is written only under a live
    arm: whatever a settings session has been through, when a stationary-only
    command puts bytes on the wire, the host had installed an arm for this
    very model, not yet expired by the session's clock, and since then nothing
    disarmed the session: no clear, no second arm, no link change, no tick with
    its evidence lapsed, and no command or notification that reported a newer
    speed above the maximum or the end of charging.  What a tick reports does not
    count: the session does not look at it, so an arm outlives an end of charging
    that the decoder finds on a tick. *)
Theorem settings_write_needs_arm (d : D) (calls : list SettingsCall) (command : DeviceCommand)
    (write : SessionOutput) :
  let s := run_state settings_step (stationary_with_decoder d) calls in
  command_safety_class command = StationaryOnly ->
  write ∈ (stationary_handle M s (InCommand command)).2 -> is_Some (written write) ->
  exists pre arm post, calls = pre ++ CallArm arm :: post /\
    sa_model arm = MODEL M /\ st_monotonic_ms s <= sa_expires_at arm /\
    supports_command_kind (WRITE_CAPABILITIES M) (command_kind command) = true /\
    forall p1 call p2, post = p1 ++ call :: p2 ->
      keeps_arm (run_state settings_step (stationary_with_decoder d) (pre ++ CallArm arm :: p1)) call.
Proof.
  intros s Hc Hw Hs. simpl in Hw. rewrite bool_decide_true in Hw by done.
  unfold handle_stationary_command in Hw.
  destruct (stationary_refusal M s (command_kind command)) as [reason|] eqn:E.
  { apply refusal_no_write in Hw. rewrite Hw in Hs. by destruct Hs. }
  apply stationary_refusal_None in E as (_ & Hcap & arm & Ha & Hm & Ht).
  destruct (armed_by _ _ _ Ha) as (pre & post & E & Hpost).
  exists pre, arm, post. done.
Qed.

(** C31: a setting written in several steps keeps its order and its limits:
    every write that a tick makes is of the next step of the sequence that an
    accepted stationary-only command began, right after the steps already
    written for it; the write is on the setting's channel, no later than
    the expiry of the arm the command was given under, and made under an arm
    for this model that is still live at that tick, with the evidence of
    standing still not lapsed. *)
Theorem settings_sequence_in_order (d : D) (calls : list SettingsCall) (t : Z) (w : SessionOutput) :
  let s := run_state settings_step (stationary_with_decoder d) calls in
  w ∈ tick_writes s t ->
  w ∈ (stationary_handle M s (InTick t)).2 /\
  (exists arm, st_arm s = Some arm /\ sa_is_valid_for arm (MODEL M) t = true) /\
  evidence_lapsed s t = false /\
  exists pre command post sequence arm later payload mode,
    calls = pre ++ CallInput (InCommand command) :: post /\
    w = OutTransport (Write (WRITE_CHANNEL M) payload mode) /\
    let b := run_state settings_step (stationary_with_decoder d) pre in
    let '(b', out) := settings_step b (CallInput (InCommand command)) in
    command_safety_class command = StationaryOnly /\
    stationary_refusal M b (command_kind command) = None /\
    st_arm b = Some arm /\ t <= sa_expires_at arm /\
    select_sequence M command (nd_control_encoding_context (decoder (st_read_only b))) = Some sequence /\
    wire <$> steps sequence =
      omap written (out ++ sequence_writes b' post) ++ (write_payload_as_slice payload, mode) :: later.
Proof.
  intros s Hw. apply tick_writes_inv in Hw as (Hin & p & step & rest & arm & Hp & Hr & -> & Ht & Hl & Ha & Hv).
  split; [done|]. split; [eauto|]. split; [done|].
  destruct (sequence_provenance _ _ _ Hp) as (pre & command & post & sequence & arm' & -> & Hs).
  exists pre, command, post, sequence, arm', (wire <$> rest), (step_payload step), (step_mode step).
  split; [done|]. split; [done|]. cbn zeta in *.
  destruct (settings_step (run_state settings_step (stationary_with_decoder d) pre)
              (CallInput (InCommand command))) as [b' out].
  destruct Hs as (? & ? & ? & He & ? & Hw). rewrite Hr in Hw. split_ands; try done. lia.
Qed.

(** And it is written whole: when an accepted command has a sequence of
    steps, its first step goes out at once, and ticking the session once per
    remaining step, each no sooner than that step's delay after the one
    before, no later than the arm's expiry and with the evidence of standing
    still not lapsed, puts exactly the steps of the sequence on the wire, in
    order, and leaves no sequence pending. *)
Theorem settings_sequence_completes (s : session) (command : DeviceCommand) (arm : StationarySettingsArm)
    (sequence : EncodedControlSequence) (first : EncodedControlStep) (rest : list EncodedControlStep)
    (times : list Z) :
  command_safety_class command = StationaryOnly ->
  stationary_refusal M s (command_kind command) = None -> st_arm s = Some arm ->
  select_sequence M command (nd_control_encoding_context (decoder (st_read_only s))) = Some sequence ->
  steps sequence = first :: rest ->
  on_schedule (st_monotonic_ms s) rest times ->
  (forall t, t ∈ times -> t <= sa_expires_at arm /\ evidence_lapsed s t = false) ->
  let '(s', out) := stationary_handle M s (InCommand command) in
  omap written (out ++ sequence_writes s' (ticks times)) = wire <$> steps sequence /\
  pending_sequence (run_state settings_step s' (ticks times)) = None.
Proof.
  intros Hc Hr Ha Hs Hst Hsch Hall. cbn [stationary_handle]. rewrite bool_decide_true by done.
  pose proof Hr as (Hp & _ & arm' & Ha' & Hm & _)%stationary_refusal_None.
  unfold handle_stationary_command. rewrite Hr, Hs, Hst. cbn [app].
  change (omap written (OutTransport ?w :: ?l)) with (omap written [OutTransport w] ++ omap written l).
  destruct rest as [|next rest]; cbn zeta in *.
  { destruct times; [|done]. destruct s; done. }
  destruct (scheduled_ticks times (s <| pending_sequence := begin_sequence s (next :: rest) |>)
    (st_monotonic_ms s) next rest
    {| remaining := next :: rest;
       next_at := timestamp_saturating_add_duration (st_monotonic_ms s) (delay_ms next);
       seq_expires_at := sa_expires_at arm |} arm) as [Hw Hn]; try (destruct s; simpl in *; congruence).
  { destruct s. simpl in *. by subst. }
  { intros t Ht. destruct (Hall t Ht) as [? ?]. split; [done|]. by destruct s. }
  split; [|done]. rewrite Hw. done.
Qed.

(** The deadline of a setting write is exact: an authorization that has not
    been cancelled, from an arm for this model, and backed by a report of an
    admissible speed or of charging, none of it from the future, is current at
    a time exactly when that time is before the deadline the session computed
    for it: the arm has not expired, and the newest of the reports is at most
    two seconds old. *)
Theorem authorization_deadline_exact (s : session) (authorization : SettingWriteAuthorization) (t : Z) :
  cancellation_generation authorization = settings_cancellation_generation s ->
  is_Some (st_arm s) -> sa_model (auth_arm authorization) = MODEL M ->
  sa_issued_at (auth_arm authorization) <= t < u64_max ->
  (forall v at_, latest_settings_speed s = Some (v, at_) ->
     at_ <= t /\ Z.abs v <= maximum_settings_speed M) ->
  (forall mode at_, charging_evidence s = Some (mode, at_) -> at_ <= t) ->
  is_Some (latest_settings_speed s) \/ is_Some (charging_evidence s) ->
  setting_write_is_current M s authorization t = true <->
  t < setting_authorization_expires_at s authorization.
Proof.
  intros Hg Ha Hm Ht Hv Hc He. unfold setting_write_is_current, sa_is_valid_for.
  rewrite str_eq_spec, !andb_true_iff, orb_true_iff, charging_evidence_fresh, !bool_decide_eq_true.
  assert (Hs : match fresh_settings_speed s t with
               | Some speed => bool_decide (Z.abs speed <= maximum_settings_speed M) | None => true end = true).
  { destruct (fresh_settings_speed s t) as [v|] eqn:E; [|done].
    apply speed_evidence_fresh in E as (at_ & E & _). apply Hv in E as [_ E]. by rewrite bool_decide_true. }
  assert (Hf : is_Some (fresh_settings_speed s t) <->
    exists v at_, latest_settings_speed s = Some (v, at_) /\ at_ <= t /\ sat_sub t at_ <= 2000).
  { split; [intros [v E]; exists v; by apply speed_evidence_fresh|].
    intros (v & E). exists v. by apply speed_evidence_fresh. }
  rewrite Hs, Hf. unfold setting_authorization_expires_at, timestamp_saturating_add_duration, option_list.
  destruct (latest_settings_speed s) as [[v at1]|] eqn:E1, (charging_evidence s) as [[mode at2]|] eqn:E2; simpl.
  - specialize (Hv _ _ eq_refl). specialize (Hc _ _ eq_refl). split.
    + intros (? & [(? & ? & [= <- <-] & ?) | (? & ? & [= <- <-] & ?)]); unfold_ints; lia.
    + intros Hlt. split; [unfold_ints; split_ands; try done; lia|].
      destruct (decide (at1 <= at2)); [right|left]; do 2 eexists; split_ands; try done; unfold_ints; lia.
  - specialize (Hv _ _ eq_refl). split.
    + intros (? & [(? & ? & [= <- <-] & ?) | (? & ? & [=] & ?)]); unfold_ints; lia.
    + intros Hlt. split; [unfold_ints; split_ands; try done; lia|].
      left; do 2 eexists; split_ands; try done; unfold_ints; lia.
  - specialize (Hc _ _ eq_refl). split.
    + intros (? & [(? & ? & [=] & ?) | (? & ? & [= <- <-] & ?)]); unfold_ints; lia.
    + intros Hlt. split; [unfold_ints; split_ands; try done; lia|].
      right; do 2 eexists; split_ands; try done; unfold_ints; lia.
  - destruct He as [[? [=]] | [? [=]]].
Qed.
End SettingsWrites.

(** A command for a dangerous actuation is refused, once, whatever the arm. *)
Lemma dangerous_session_refuses capabilities (self : DangerousControlSession) input :
  (dangerous_handle capabilities self input).2 =
  match input with
  | InCommand command =>
      push_refusal (command_kind command) (command_safety_class command)
        (if supports_command_kind capabilities (command_kind command)
         then match authorize (dc_policy self) command (dc_monotonic_ms self) (dc_arm self) with
              | Ok _ => CtlUnsupportedCommand | Err reason => control_refusal_from reason end
         else CtlUnsupportedCommand)
  | _ => []
  end.
Proof.
  destruct input; try done. simpl.
  destruct (supports_command_kind capabilities (command_kind command)); [|done]. simpl.
  destruct (authorize _ _ _ _) as [m|] eqn:E; [|done].
  unfold authorize in E. step_cases_in E; done.
Qed.

(** ** A session that sees nothing but its host, for the witnesses *)

#[local] Instance silent_decoder : NotificationDecoder unit := {
  nd_buffer_state _ := BufferUnknown;
  nd_reset d := d;
  nd_on_tick d _ := (d, []);
  nd_next_tick_at _ := None;
  nd_on_read_command d _ := (d, [], false);
  nd_control_encoding_context _ := ContextDefault;
  nd_handle_notification d _ _ _ _ := (d, []);
}.
Definition one_byte (b : Z) : WritePayload := {| storage := StorageInline [b]; correlation := Untracked |}.
Definition step_of (delay b : Z) : EncodedControlStep :=
  {| delay_ms := delay; step_payload := one_byte b; step_mode := WithoutResponse |}.
Definition two_step_model : ModelSpec unit :=
  let all := {| supported_commands := u64_max |} in
  {| MODEL := "M"; PROTOCOL := BegodeGotway; READ_CAPABILITIES := all; CONTROL_CAPABILITIES := all;
     WRITE_CAPABILITIES := all; MAX_SETTINGS_SPEED := Some 1000; WRITE_CHANNEL := 0; SUBSCRIBE_CHANNEL := 0;
     encode_read_command _ := None; select _ _ := Some tt; single _ _ := None;
     sequence _ command := Some {| ecs_command := command_kind command;
                                   steps := [step_of 0 87; step_of 300 66] |} |}.
Definition calibrate : DeviceCommand :=
  CmdInvokeAction {| action_id := ActionGyroCalibration; action_step := StartGyroCalibration |}.
Definition arm_at_1000 : StationarySettingsArm :=
  {| sa_model := "M"; sa_issued_at := 1000; sa_expires_at := 6000 |}.

Lemma settings_write_needs_arm_witness :
  exists pre arm post,
    [CallArm arm_at_1000; CallInput (InTick 1200)] = pre ++ CallArm arm :: post /\ sa_model arm = "M" /\
    forall p1 call p2, post = p1 ++ call :: p2 ->
      keeps_arm two_step_model
        (run_state (settings_step two_step_model) (stationary_with_decoder tt) (pre ++ CallArm arm :: p1)) call.
Proof.
  destruct (settings_write_needs_arm two_step_model tt [CallArm arm_at_1000; CallInput (InTick 1200)]
    calibrate (OutTransport (Write 0 (one_byte 87) WithoutResponse)))
    as (pre & arm & post & E & Hm & _ & _ & Hk).
  - reflexivity.
  - vm_compute. left.
  - vm_compute. eexists. reflexivity.
  - exists pre, arm, post. exact (conj E (conj Hm Hk)).
Defined.

Lemma settings_sequence_in_order_witness :
  let calls := [CallArm arm_at_1000; CallInput (InTick 1200); CallInput (InCommand calibrate)] in
  let s := run_state (settings_step two_step_model) (stationary_with_decoder tt) calls in
  tick_writes two_step_model s 1400 = [] /\
  tick_writes two_step_model s 1500 = [OutTransport (Write 0 (one_byte 66) WithoutResponse)] /\
  OutTransport (Write 0 (one_byte 66) WithoutResponse) ∈ (stationary_handle two_step_model s (InTick 1500)).2.
Proof.
  intros calls s. split; [vm_compute; reflexivity|]. split; [vm_compute; reflexivity|].
  apply (settings_sequence_in_order two_step_model tt calls 1500). vm_compute. left.
Defined.

Lemma settings_sequence_completes_witness :
  let s := run_state (settings_step two_step_model) (stationary_with_decoder tt)
             [CallArm arm_at_1000; CallInput (InTick 1200)] in
  let '(s', out) := stationary_handle two_step_model s (InCommand calibrate) in
  omap written (out ++ sequence_writes two_step_model s' (ticks [1500])) =
    [([87], WithoutResponse); ([66], WithoutResponse)] /\
  pending_sequence (run_state (settings_step two_step_model) s' (ticks [1500])) = None.
Proof.
  apply (settings_sequence_completes two_step_model
    (run_state (settings_step two_step_model) (stationary_with_decoder tt)
       [CallArm arm_at_1000; CallInput (InTick 1200)])
    calibrate arm_at_1000 {| ecs_command := GyroCalibration; steps := [step_of 0 87; step_of 300 66] |}
    (step_of 0 87) [step_of 300 66] [1500]); try reflexivity.
  - split; [vm_compute; discriminate|exact I].
  - intros t Ht. apply list_elem_of_singleton in Ht as ->. split; [vm_compute; discriminate|reflexivity].
Defined.

Definition parked_session : @StationarySettingsWriteSession unit :=
  {| st_read_only := with_decoder tt; st_arm := Some arm_at_1000; st_monotonic_ms := 1200;
     pending_sequence := None; latest_settings_speed := Some (0, 1100);
     latest_settings_charge_mode := None; settings_cancellation_generation := 3 |}.
Lemma authorization_deadline_exact_witness :
  let authorization := {| auth_arm := arm_at_1000; cancellation_generation := 3 |} in
  setting_authorization_expires_at parked_session authorization = 3101 /\
  setting_write_is_current two_step_model parked_session authorization 3100 = true.
Proof.
  split; [reflexivity|].
  apply (authorization_deadline_exact two_step_model parked_session
    {| auth_arm := arm_at_1000; cancellation_generation := 3 |} 3100).
  - reflexivity.
  - eexists. reflexivity.
  - reflexivity.
  - vm_compute. split; [discriminate|reflexivity].
  - intros v at_ [= <- <-]. vm_compute. split; discriminate.
  - intros mode at_ [=].
  - left. eexists. reflexivity.
  - vm_compute. reflexivity.
Defined.
