(* ===== verification/BegodeSession.v ===== *)
(** * The Begode notification decoder

    [cutout-protocols/src/begode_telemetry.rs], [BegodeTelemetryContext]: the
    evidence kept across frames (units, charging inference, the charge mode
    last reported).  [session.rs], [push_begode_frame] and
    [BegodeNotificationDecoder]: from notifications to events.  The decoder is
    an instance of [NotificationDecoder], so that the session shells run on it.
    Pushing to the output vector is returning what is pushed; every function
    that pushes also returns its [SemanticEventCount]. *)

From S2P Require Import Prelude.
From S2P Require Import Parser.
From S2P Require Import Quantities.
From S2P Require Import BegodeFrame.
From S2P Require Import RequestQueue.
From S2P Require Import VehicleIdentity.
From S2P Require Import Commands.
From S2P Require Import Telemetry.
From S2P Require Import Readback.
From S2P Require Import BegodeTelemetry.
From S2P Require Import BegodeCharging.
From S2P Require Import SessionIO.
From S2P Require Import SessionState.
From S2P Require Import Sessions.

(** ** Evidence across frames *)

Record BegodeTelemetryContext := {
  ctx_unit_mode : BegodeUnitMode;
  ctx_charging : BegodeCharging;
  last_charge_mode : option (Measured Quantities.ChargeMode);
}.
#[global] Instance eta_context : Eta BegodeTelemetryContext := fun r =>
  Build_BegodeTelemetryContext (ctx_unit_mode r) (ctx_charging r) (last_charge_mode r).
Definition default_context : BegodeTelemetryContext :=
  {| ctx_unit_mode := Metric; ctx_charging := default_charging; last_charge_mode := None |}.

Definition charging_delta (self : BegodeTelemetryContext) (frame : BegodeFrame) (delta : TelemetryDelta)
    (at_ : Z) : BegodeTelemetryContext * TelemetryDelta :=
  let '(charging, mode) := charging_observe (ctx_charging self) frame delta at_ in
  (self <| ctx_charging := charging |> <| last_charge_mode := Some mode |>,
   delta <| d_charge_mode := Some mode |>).
Definition changed_charging_delta (self : BegodeTelemetryContext) (mode : Measured Quantities.ChargeMode)
    (at_ : Z) : BegodeTelemetryContext * option TelemetryDelta :=
  if bool_decide (last_charge_mode self = Some mode)
     || (bool_decide (last_charge_mode self = None) && bool_decide (m_value mode = ChargeUnknown))
  then (self, None)
  else (self <| last_charge_mode := Some mode |>,
        Some (delta_empty at_ <| d_charge_mode := Some mode |>)).
Definition bms_charging_delta (self : BegodeTelemetryContext) (frame : BegodeFrame) (at_ : Z)
  : BegodeTelemetryContext * option TelemetryDelta :=
  let '(charging, mode) := charging_observe (ctx_charging self) frame (delta_empty at_) at_ in
  changed_charging_delta (self <| ctx_charging := charging |>) mode at_.
Definition next_charging_tick_at (self : BegodeTelemetryContext) : option Z :=
  next_tick_at (ctx_charging self).
Definition context_charging_tick (self : BegodeTelemetryContext) (at_ : Z)
  : BegodeTelemetryContext * option TelemetryDelta :=
  let '(charging, mode) := charging_tick (ctx_charging self) at_ in
  changed_charging_delta (self <| ctx_charging := charging |>) mode at_.
Definition context_reset (self : BegodeTelemetryContext) : BegodeTelemetryContext :=
  {| ctx_unit_mode := Metric; ctx_charging := charging_reset (ctx_charging self);
     last_charge_mode := None |}.
Definition observe_live_b (self : BegodeTelemetryContext) (telemetry : BegodeLiveBTelemetry)
  : BegodeTelemetryContext := self <| ctx_unit_mode := unit_mode telemetry |>.
Definition context_live_a_to_delta (self : BegodeTelemetryContext) (telemetry : BegodeLiveATelemetry)
    (at_ms : Z) : TelemetryDelta := live_a_to_delta_with_units telemetry at_ms (ctx_unit_mode self).

(** ** One frame *)

Section Frames.
Context (family : ProtocolFamily) (channel : GattChannel).

Definition retain_known_frame (frame : BegodeFrame) (monotonic_ms : Z) : list SessionOutput :=
  let len := Z.of_nat (length (frame_bytes frame)) in
  [OutNotificationIngest (parser_gap family channel len monotonic_ms
     {| pg_classifier := ClassTag (BegodeFrame.tag frame); pg_body_len := len;
        pg_retained_payload := retained_from_bytes (frame_bytes frame) |})].
Definition push_begode_telemetry_error : list SessionOutput * Z :=
  (push_parser_error MalformedFrame, 2).
Definition push_begode_frame (context : BegodeTelemetryContext) (profile : BegodePackVoltageProfile)
    (frame : BegodeFrame) (monotonic_ms : Z) : BegodeTelemetryContext * (list SessionOutput * Z) :=
  let tag := BegodeFrame.tag frame in
  if bool_decide (tag = 0x00) then
    match live_a_decode frame profile with
    | Ok telemetry =>
        let delta := context_live_a_to_delta context telemetry monotonic_ms in
        let '(context, delta) := charging_delta context frame delta monotonic_ms in
        (context, ([OutEvent (EventTelemetry delta);
                    OutEvent (EventReadOnlyResponse (live_a_to_settings_response telemetry))]
                   ++ retain_known_frame frame monotonic_ms, 2))
    | Err _ => (context, push_begode_telemetry_error)
    end
  else if bool_decide (0x01 <= tag <= 0x03) then
    let '(context, delta) := bms_charging_delta context frame monotonic_ms in
    (context, match delta with
              | Some delta =>
                  (retain_known_frame frame monotonic_ms ++ [OutEvent (EventTelemetry delta)], 1)
              | None => (retain_known_frame frame monotonic_ms, 0)
              end)
  else if bool_decide (tag = 0x04) then
    match live_b_decode frame with
    | Ok telemetry =>
        let context := observe_live_b context telemetry in
        let delta := live_b_to_delta_with_units telemetry monotonic_ms in
        let '(context, delta) := charging_delta context frame delta monotonic_ms in
        (context, ([OutEvent (EventTelemetry delta);
                    OutEvent (EventReadOnlyResponse (live_b_to_settings_response telemetry));
                    OutEvent (EventReadOnlyResponse (live_b_to_diagnostics_response telemetry))]
                   ++ retain_known_frame frame monotonic_ms, 3))
    | Err _ => (context, push_begode_telemetry_error)
    end
  else if bool_decide (tag = 0x07) then
    match extra_decode frame with
    | Ok telemetry =>
        let '(context, delta) :=
          charging_delta context frame (extra_to_delta telemetry monotonic_ms) monotonic_ms in
        (context, ([OutEvent (EventTelemetry delta)] ++ retain_known_frame frame monotonic_ms, 1))
    | Err _ => (context, push_begode_telemetry_error)
    end
  else (context, (push_parser_error MalformedFrame, 2)).
End Frames.

(** ** The decoder *)

Record BegodeNotificationDecoder := {
  reassembler : BegodeFrameReassembler;
  context : BegodeTelemetryContext;
  pack_voltage_profile : BegodePackVoltageProfile;
}.
Definition with_pack_voltage_profile (profile : BegodePackVoltageProfile) : BegodeNotificationDecoder :=
  {| reassembler := default_reassembler; context := default_context; pack_voltage_profile := profile |}.
Definition decoder_reset (self : BegodeNotificationDecoder) : BegodeNotificationDecoder :=
  {| reassembler := reset (reassembler self); context := context_reset (context self);
     pack_voltage_profile := pack_voltage_profile self |}.
Definition decoder_on_tick (self : BegodeNotificationDecoder) (at_ : Z)
  : BegodeNotificationDecoder * list SessionOutput :=
  let '(ctx, delta) := context_charging_tick (context self) at_ in
  ({| reassembler := reassembler self; context := ctx;
      pack_voltage_profile := pack_voltage_profile self |},
   match delta with Some delta => [OutEvent (EventTelemetry delta)] | None => [] end).

(** The loop of [handle_notification] over the bytes left: what it pushed, and
    its two counters, or [None] when an invalid frame made it return. *)
Fixpoint feed_notification (self : BegodeNotificationDecoder) (family : ProtocolFamily)
    (channel : GattChannel) (bytes : list Z) (monotonic_ms : Z) (event_count : Z)
    (completed_frame : bool)
  : BegodeNotificationDecoder * list SessionOutput * option (Z * bool) :=
  match bytes with
  | [] => (self, [], Some (event_count, completed_frame))
  | byte :: rest =>
      let '(re, parsed) := feed_byte_result_at (reassembler self) byte monotonic_ms in
      let self := {| reassembler := re; context := context self;
                     pack_voltage_profile := pack_voltage_profile self |} in
      match parsed with
      | Ok (Complete frame) =>
          let '(ctx, (pushed, events)) :=
            push_begode_frame family channel (context self) (pack_voltage_profile self)
              frame monotonic_ms in
          let self := {| reassembler := re; context := ctx;
                         pack_voltage_profile := pack_voltage_profile self |} in
          let '(self, later, ended) :=
            feed_notification self family channel rest monotonic_ms
              (sat_add u64_max event_count events) true in
          (self, pushed ++ later, ended)
      | Ok Seeking | Ok Buffered =>
          feed_notification self family channel rest monotonic_ms event_count completed_frame
      | Err InvalidFrame => (self, push_parser_error MalformedFrame, None)
      end
  end.
Definition handle_notification (self : BegodeNotificationDecoder) (family : ProtocolFamily)
    (channel : GattChannel) (bytes : list Z) (monotonic_ms : Z)
  : BegodeNotificationDecoder * list SessionOutput :=
  let len := Z.of_nat (length bytes) in
  let '(self, pushed, ended) := feed_notification self family channel bytes monotonic_ms 0 false in
  (self, pushed ++
    match ended with
    | None =>
        [OutNotificationIngest (parser_diagnostic family channel len monotonic_ms MalformedFrame)]
    | Some (event_count, completed_frame) =>
        if completed_frame && bool_decide (event_count = 0) then []
        else if bool_decide (0 < event_count)
        then [OutNotificationIngest (semantic_events family channel len monotonic_ms event_count)]
        else [OutNotificationIngest (buffered_fragment family channel len monotonic_ms)]
    end).

#[global] Instance begode_notification_decoder : NotificationDecoder BegodeNotificationDecoder := {
  nd_buffer_state _ := BufferUnknown;
  nd_reset := decoder_reset;
  nd_on_tick := decoder_on_tick;
  nd_next_tick_at self := next_charging_tick_at (context self);
  nd_on_read_command self _ := (self, [], false);
  nd_control_encoding_context _ := ContextDefault;
  nd_handle_notification := handle_notification;
}.

(** ** What the bytes become

    A stream of whole frames, with noise that holds no header byte between
    them, seen as the answers of the reassembler to its bytes. *)

Definition frame_answers (f : list Z) : list (result BegodeFrameParseResult BegodeFrameError) :=
  replicate (length f - 1) (Ok Buffered) ++ [Ok (Complete {| frame_bytes := f |})].
Definition item_answers (item : list Z * list Z)
  : list (result BegodeFrameParseResult BegodeFrameError) :=
  replicate (length item.1) (Ok Seeking) ++ frame_answers item.2.
Definition item_ok (item : list Z * list Z) : Prop :=
  Forall (fun b => b <> 0x55) item.1 /\ frame_spec item.2 /\ has_glitch item.2 = false.

(** The reassembler that stamps its bytes answers as the plain one. *)
Definition timed_feed (s : BegodeFrameReassembler) (b : Z * Z)
  : BegodeFrameReassembler * result BegodeFrameParseResult BegodeFrameError :=
  feed_byte_result_at s b.1 b.2.
Lemma timed_feed_buffer s b :
  buffer (timed_feed s b).1 = (feed_buffer (buffer s) b.1).1 /\
  (timed_feed s b).2 = (feed_buffer (buffer s) b.1).2.
Proof.
  unfold timed_feed. destruct (feed_at_buffer s b.1 b.2) as [-> ->]. apply feed_byte_result_buffer.
Qed.
Lemma timed_noise s bytes :
  buffer s = [] -> Forall (fun b => b <> 0x55) (fst <$> bytes) ->
  buffer (run_state timed_feed s bytes) = [] /\
  run_outputs timed_feed s bytes = replicate (length bytes) (Ok Seeking).
Proof.
  revert s. induction bytes as [|b bytes IH]; intros s Hs Hn; [done|].
  apply Forall_cons in Hn as [Hb Hn]. rewrite run_state_cons, run_outputs_cons.
  destruct (timed_feed_buffer s b) as [E1 E2]. rewrite Hs, feed_empty, bool_decide_false in E1, E2 by done.
  destruct (IH _ E1 Hn) as [-> ->]. rewrite E2. done.
Qed.
Lemma timed_payload s rest bytes f :
  buffer s = BEGODE_HEADER ++ rest -> (length rest + length bytes = 22)%nat -> bytes <> [] ->
  f = BEGODE_HEADER ++ rest ++ (fst <$> bytes) -> frame_spec f -> has_glitch f = false ->
  buffer (run_state timed_feed s bytes) = [] /\
  run_outputs timed_feed s bytes =
    replicate (length bytes - 1) (Ok Buffered) ++ [Ok (Complete {| frame_bytes := f |})].
Proof.
  intros Hs Hl Hne -> Hf Hg. revert s rest Hs Hl Hf Hg. induction bytes as [|b bytes IH]; intros; [done|].
  simpl in Hl. rewrite run_state_cons, run_outputs_cons.
  destruct (timed_feed_buffer s b) as [E1 E2]. rewrite Hs, feed_collecting in E1, E2 by lia.
  cbn zeta in E1, E2. cbn [fmap list_fmap] in *.
  rewrite (no_resync rest b.1 (fst <$> bytes) Hg) in E1, E2.
  destruct bytes as [|b' bytes].
  - rewrite bool_decide_true in E1, E2 by (simpl in Hl; lia). cbn [fst] in E1.
    rewrite E2. split; [exact E1|].
    destruct (try_from_slice_Ok (BEGODE_HEADER ++ rest ++ [b.1])
                {| frame_bytes := BEGODE_HEADER ++ rest ++ [b.1] |}) as [_ H].
    cbn [snd]. rewrite H; [done|]. split; [exact Hf|done].
  - rewrite bool_decide_false in E1, E2 by (simpl in Hl; lia). cbn [fst snd] in E1, E2.
    cbn [fmap list_fmap] in *.
    destruct (IH ltac:(done) (timed_feed s b).1 (rest ++ [b.1])) as [-> ->];
      [exact E1|rewrite length_app; simpl in *; lia|rewrite <- app_assoc; exact Hf
      |rewrite <- app_assoc; exact Hg|].
    rewrite E2, <- app_assoc. split; [done|]. simpl. by rewrite Nat.sub_0_r.
Qed.
Lemma timed_stream items bytes s :
  buffer s = [] -> Forall item_ok items -> fst <$> bytes = concat (item_bytes <$> items) ->
  buffer (run_state timed_feed s bytes) = [] /\
  run_outputs timed_feed s bytes = concat (item_answers <$> items).
Proof.
  revert bytes s. induction items as [|[noise f] items IH]; intros bytes s Hs Hi Hb.
  { apply fmap_nil_inv in Hb as ->. done. }
  apply Forall_cons in Hi as [(Hn & Hf & Hg) Hi]. cbn [fmap list_fmap concat item_bytes fst snd] in *.
  change (item_bytes (noise, f)) with (noise ++ f) in Hb. rewrite <- app_assoc in Hb.
  apply fmap_app_inv in Hb as (b1 & rest1 & -> & Hb & ->).
  symmetry in Hb. apply fmap_app_inv in Hb as (b2 & rest2 & E2 & E3 & ->).
  rewrite !run_state_app, !run_outputs_app. fold (fmap fst b1) in *.
  destruct (timed_noise s b1 Hs Hn) as [H1 ->].
  assert (H2 : buffer (run_state timed_feed (run_state timed_feed s b1) b2) = [] /\
               run_outputs timed_feed (run_state timed_feed s b1) b2 = frame_answers f).
  { pose proof Hf as (payload & Hl & Ef).
    destruct b2 as [|x [|y b2]]; [by rewrite Ef in E2|by rewrite Ef in E2|].
    cbn [fmap list_fmap] in E2. rewrite Ef in E2. injection E2 as Ex Ey Eb.
    rewrite !run_state_cons, !run_outputs_cons. set (s1 := run_state timed_feed s b1) in *.
    destruct (timed_feed_buffer s1 x) as [E4 E5]. rewrite H1, feed_empty, <- Ex in E4, E5.
    rewrite bool_decide_true in E4, E5 by done. cbn [fst snd] in E4, E5.
    destruct (timed_feed_buffer (timed_feed s1 x).1 y) as [E6 E7].
    rewrite E4, feed_one, <- Ey, bool_decide_true in E6, E7 by done. cbn [fst snd] in E6, E7.
    assert (Hlen : length b2 = 22%nat).
    { rewrite <- (length_fmap fst), <- Eb, length_app, Hl. done. }
    destruct (timed_payload (timed_feed (timed_feed s1 x).1 y).1 [] b2 f) as [-> ->];
      [exact E6|exact Hlen|by destruct b2|by rewrite Ef, Eb|done|done|].
    split; [done|]. rewrite E5, E7. unfold frame_answers. rewrite Hlen, Ef, !length_app, Hl. done. }
  destruct H2 as [H2 ->]. destruct (IH rest2 _ H2 Hi) as [-> ->]; [done|].
  split; [done|]. unfold item_answers. cbn [fst snd]. by rewrite length_fmap, app_assoc.
Qed.

(** ** What the answers become *)

(** The frames completed by a list of answers, each with its byte's stamp. *)
Definition completions (answers : list (result BegodeFrameParseResult BegodeFrameError))
    (stamps : list Z) : list (BegodeFrame * Z) := completed_at (completed <$> answers) stamps.
Lemma completions_app a1 a2 s1 s2 :
  length a1 = length s1 -> completions (a1 ++ a2) (s1 ++ s2) = completions a1 s1 ++ completions a2 s2.
Proof. intros H. unfold completions. by rewrite fmap_app, completed_at_app by (by rewrite length_fmap). Qed.
Lemma completions_cons a answers t stamps :
  completions (a :: answers) (t :: stamps) =
  option_list ((fun f => (f, t)) <$> completed a) ++ completions answers stamps.
Proof. apply completed_at_cons. Qed.

Section Notifications.
Context (family : ProtocolFamily) (channel : GattChannel) (profile : BegodePackVoltageProfile).

Definition report (ctx : BegodeTelemetryContext) (f : BegodeFrame * Z)
  : BegodeTelemetryContext * list SessionOutput :=
  let '(ctx, (pushed, _)) := push_begode_frame family channel ctx profile f.1 f.2 in (ctx, pushed).
Definition notify (self : BegodeNotificationDecoder) (n : list Z * Z)
  : BegodeNotificationDecoder * list SessionOutput :=
  handle_notification self family channel n.1 n.2.
(** Without an invalid frame, the loop reports the frames that complete. *)
Lemma feed_notification_reports bytes t self ec cf :
  pack_voltage_profile self = profile ->
  let answers := run_outputs timed_feed (reassembler self) (stamped (bytes, t)) in
  Forall (fun a => is_ok a = true) answers ->
  let fs := completions answers (snd <$> stamped (bytes, t)) in
  exists ended,
    feed_notification self family channel bytes t ec cf =
      ({| reassembler := run_state timed_feed (reassembler self) (stamped (bytes, t));
          context := run_state report (context self) fs; pack_voltage_profile := profile |},
       concat (run_outputs report (context self) fs), Some ended).
Proof.
  revert self ec cf. induction bytes as [|b bytes IH]; intros self ec cf Hp answers Hok fs.
  { exists (ec, cf). destruct self. simpl in *. by subst. }
  subst answers fs. unfold stamped in *. cbn [fmap list_fmap fst snd] in *.
  rewrite run_state_cons. rewrite run_outputs_cons in *. apply Forall_cons in Hok as [Ha Hok].
  cbn [feed_notification]. change (feed_byte_result_at (reassembler self) b t) with
    (timed_feed (reassembler self) (b, t)).
  destruct (timed_feed (reassembler self) (b, t)) as [re parsed]. cbn [fst snd] in *.
  rewrite completions_cons.
  destruct parsed as [[| |frame]|[]]; [..|done]; cbn [completed fmap option_fmap option_map option_list app].
  - apply (IH {| reassembler := re; context := context self;
                 pack_voltage_profile := pack_voltage_profile self |}); done.
  - apply (IH {| reassembler := re; context := context self;
                 pack_voltage_profile := pack_voltage_profile self |}); done.
  - change (option_list (Some (frame, t)) ++ ?l) with ((frame, t) :: l).
    rewrite run_state_cons, run_outputs_cons. cbn [context pack_voltage_profile]. rewrite Hp.
    destruct (push_begode_frame family channel (context self) profile frame t)
      as [ctx [pushed events]] eqn:Ep.
    assert (Er : report (context self) (frame, t) = (ctx, pushed))
      by (unfold report; cbn [fst snd]; by rewrite Ep).
    rewrite Er.
    destruct (IH {| reassembler := re; context := ctx; pack_voltage_profile := profile |}
                 (sat_add u64_max ec events) true) as [ended E]; [done..|].
    rewrite E. exists ended. done.
Qed.
(** A notification adds nothing to the events of its frames. *)
Lemma notify_reports n self :
  pack_voltage_profile self = profile ->
  let answers := run_outputs timed_feed (reassembler self) (stamped n) in
  Forall (fun a => is_ok a = true) answers ->
  let fs := completions answers (snd <$> stamped n) in
  (notify self n).1 =
      {| reassembler := run_state timed_feed (reassembler self) (stamped n);
         context := run_state report (context self) fs; pack_voltage_profile := profile |} /\
  omap event_of (notify self n).2 = omap event_of (concat (run_outputs report (context self) fs)).
Proof.
  destruct n as [bytes t]. intros Hp answers Hok fs. unfold notify, handle_notification. cbn [fst snd].
  destruct (feed_notification_reports bytes t self 0 false Hp Hok) as [ended E]. rewrite E.
  cbn [fst snd]. split; [done|]. rewrite omap_app.
  destruct ended as [ec cf]. destruct (_ && _); [|destruct (bool_decide (0 < ec))];
    by rewrite app_nil_r.
Qed.
Lemma notifications_report ns self :
  pack_voltage_profile self = profile ->
  let answers := run_outputs timed_feed (reassembler self) (ns ≫= stamped) in
  Forall (fun a => is_ok a = true) answers ->
  let fs := completions answers (snd <$> (ns ≫= stamped)) in
  let s := run_state notify self ns in
  reassembler s = run_state timed_feed (reassembler self) (ns ≫= stamped) /\
  context s = run_state report (context self) fs /\
  omap event_of (concat (run_outputs notify self ns)) =
    omap event_of (concat (run_outputs report (context self) fs)).
Proof.
  revert self. induction ns as [|n ns IH]; intros self Hp answers Hok fs s; [done|].
  subst answers fs s. rewrite bind_cons, fmap_app, run_outputs_app, run_state_app in *.
  apply Forall_app in Hok as [Ho1 Ho2]. rewrite completions_app by
    (by rewrite run_outputs_length, length_fmap).
  rewrite run_state_cons, run_outputs_cons, run_outputs_app, run_state_app. cbn [concat].
  destruct (notify_reports n self Hp Ho1) as [E1 E2].
  rewrite E1. destruct (IH {| reassembler := run_state timed_feed (reassembler self) (stamped n);
    context := run_state report (context self) (completions
      (run_outputs timed_feed (reassembler self) (stamped n)) (snd <$> stamped n));
    pack_voltage_profile := profile |} eq_refl Ho2) as (E3 & E4 & E5).
  split_ands; [exact E3|exact E4|]. rewrite omap_app, E2, E5, concat_app, omap_app. done.
Qed.
End Notifications.

Definition item_frame (item : list Z * list Z) : BegodeFrame := {| frame_bytes := item.2 |}.

Lemma item_answers_completed item :
  frame_spec item.2 ->
  completed <$> item_answers item =
    replicate (length (item_bytes item) - 1) None ++ [Some (item_frame item)].
Proof.
  destruct item as [noise f]. cbn [fst snd]. intros (payload & Hp & Ef).
  assert (Hf : length f = 24%nat) by (rewrite Ef, !length_app, Hp; done).
  unfold item_answers, frame_answers, item_bytes, item_frame. cbn [fst snd].
  rewrite !fmap_app, !fmap_replicate. cbn [fmap list_fmap completed]. rewrite app_assoc, <- replicate_add.
  rewrite length_app. do 2 f_equal. lia.
Qed.
Lemma stream_completions items stamps :
  Forall item_ok items -> length stamps = length (concat (item_bytes <$> items)) ->
  completions (concat (item_answers <$> items)) stamps =
    zip (item_frame <$> items) (completion_times items stamps).
Proof.
  intros Hi Hl. unfold completions. rewrite <- stream_completed_at; [|done|].
  - f_equal. clear Hl. induction Hi as [|item items (_ & Hf & _) Hi IH]; [done|].
    cbn [fmap list_fmap concat]. rewrite fmap_app, item_answers_completed by done. f_equal. exact IH.
  - apply Forall_impl with item_ok; [done|]. intros [noise f] (_ & (payload & _ & Ef) & _) Hn.
    unfold item_bytes in Hn. cbn [fst snd] in *. rewrite Ef in Hn. by apply app_nil in Hn as [_ ?].
Qed.
Lemma item_answers_ok items :
  Forall (fun a : result BegodeFrameParseResult BegodeFrameError => is_ok a = true)
    (concat (item_answers <$> items)).
Proof.
  apply Forall_concat, Forall_fmap, Forall_forall. intros item _. unfold item_answers, frame_answers.
  cbn [compose]. rewrite !Forall_app. split_ands; [apply Forall_replicate|apply Forall_replicate|]; repeat constructor.
Qed.

(** C10: what a wheel says is reported, once and in order: however a stream of
    whole frames, with noise that holds no header byte between them, is cut
    into notifications for a decoder that holds no partial frame, if no frame
    opens with 55 aa 5a 55 aa or 55 aa 5a 5a 55 aa, the two openings at which
    the decoder takes the inner header for the beginning of the frame, the events that leave the decoder are exactly the
    events of those frames, each reported at the time of the notification that
    brought its last byte and in the context its predecessors left; no partial
    frame is kept. *)
Theorem wheel_events_complete (family : ProtocolFamily) (channel : GattChannel)
    (self : BegodeNotificationDecoder) (items : list (list Z * list Z)) (ns : list (list Z * Z)) :
  buffer (reassembler self) = [] -> Forall item_ok items ->
  concat (fst <$> ns) = concat (item_bytes <$> items) ->
  let profile := pack_voltage_profile self in
  let frames := zip (item_frame <$> items) (completion_times items (snd <$> (ns ≫= stamped))) in
  let s := run_state (notify family channel) self ns in
  buffer (reassembler s) = [] /\
  context s = run_state (report family channel profile) (context self) frames /\
  omap event_of (concat (run_outputs (notify family channel) self ns)) =
    omap event_of (concat (run_outputs (report family channel profile) (context self) frames)).
Proof.
  intros Hb Hi Hc profile frames s.
  assert (Hf : fst <$> (ns ≫= stamped) = concat (item_bytes <$> items)) by (by rewrite stamped_bytes).
  destruct (timed_stream items (ns ≫= stamped) (reassembler self) Hb Hi Hf) as [Hb' Ha].
  destruct (notifications_report family channel profile ns self eq_refl) as (E1 & E2 & E3).
  { rewrite Ha. apply item_answers_ok. }
  rewrite Ha, stream_completions in E2, E3 by (done || (rewrite <- Hf, !length_fmap; done)).
  subst s. rewrite E1, Hb'. split_ands; [done|exact E2|exact E3].
Qed.

(** ** What is said once is not repeated

    The decoder reports a charge mode after a battery frame or a tick only when
    it differs from the last one.  The reference below reports it every time. *)

Inductive WheelCall :=
| WheelFrame (frame : BegodeFrame) (at_ : Z)
| WheelTick (at_ : Z).
Definition telemetry_of (o : SessionOutput) : option TelemetryDelta :=
  match o with OutEvent (EventTelemetry delta) => Some delta | _ => None end.

Section Reports.
Context (family : ProtocolFamily) (channel : GattChannel) (profile : BegodePackVoltageProfile).

Definition wheel_step (ctx : BegodeTelemetryContext) (call : WheelCall)
  : BegodeTelemetryContext * list TelemetryDelta :=
  match call with
  | WheelFrame f t =>
      let '(ctx, outputs) := report family channel profile ctx (f, t) in (ctx, omap telemetry_of outputs)
  | WheelTick t =>
      let '(ctx, delta) := context_charging_tick ctx t in (ctx, option_list delta)
  end.
Definition reference_step (s : BegodeCharging * BegodeUnitMode) (call : WheelCall)
  : (BegodeCharging * BegodeUnitMode) * option Quantities.ChargeMode :=
  let '(charging, units) := s in
  let told units (r : BegodeCharging * Measured Quantities.ChargeMode) :=
    ((r.1, units), Some (m_value r.2)) in
  match call with
  | WheelTick t => told units (charging_tick charging t)
  | WheelFrame f t =>
      match live_a_decode f profile, live_b_decode f, extra_decode f with
      | Ok a, _, _ => told units (charging_observe charging f (live_a_to_delta_with_units a t units) t)
      | _, Ok b, _ =>
          told (unit_mode b) (charging_observe charging f (live_b_to_delta_with_units b t) t)
      | _, _, Ok e => told units (charging_observe charging f (extra_to_delta e t) t)
      | _, _, _ =>
          if bool_decide (1 <= BegodeFrame.tag f <= 3)
          then told units (charging_observe charging f (delta_empty t) t)
          else (s, None)
      end
  end.
(** What a rider is shown: nothing known is [ChargeUnknown]. *)
Definition shown (mode : option Quantities.ChargeMode) : Quantities.ChargeMode := default ChargeUnknown mode.

Definition latest (modes : list (option Quantities.ChargeMode)) : option Quantities.ChargeMode :=
  foldl (fun known mode => match mode with Some _ => mode | None => known end) None modes.

(** The context, the reference and the snapshot agree. *)
Record tracks (ctx : BegodeTelemetryContext) (s : BegodeCharging * BegodeUnitMode)
    (snap : TelemetrySnapshot) (known : option Quantities.ChargeMode) : Prop := {
  tr_charging : ctx_charging ctx = s.1;
  tr_units : ctx_unit_mode ctx = s.2;
  tr_snapshot : t_charge_mode snap = last_charge_mode ctx;
  tr_known : shown (m_value <$> last_charge_mode ctx) = shown known;
}.
(** A report that is made, and one that may be left out. *)
Lemma tracks_told ctx snap units f delta t :
  let '(ctx', told) := charging_delta (ctx <| ctx_unit_mode := units |>) f delta t in
  let r := charging_observe (ctx_charging ctx) f delta t in
  tracks ctx' (r.1, units) (apply_delta snap told) (Some (m_value r.2)).
Proof.
  unfold charging_delta. destruct ctx as [u c last]. simpl.
  destruct (charging_observe c f delta t) as [c' mode]. by destruct delta.
Qed.
Lemma tracks_changed ctx s snap known charging mode t :
  tracks ctx s snap known ->
  let '(ctx', delta) := changed_charging_delta (ctx <| ctx_charging := charging |>) mode t in
  tracks ctx' (charging, s.2) (foldl apply_delta snap (option_list delta)) (Some (m_value mode)).
Proof.
  intros [H1 H2 H3 H4]. unfold changed_charging_delta. destruct ctx as [u c last]. simpl in *.
  destruct (_ || _) eqn:E; cbn [option_list option_rect foldl].
  - split; try done. simpl. apply orb_true_iff in E as [E|E]; prop_bools; subst.
    all: repeat match goal with E : _ /\ _ |- _ => destruct E end; prop_bools.
    all: match goal with E : t_charge_mode _ = _ |- _ => rewrite E end; simpl; congruence.
  - split; done.
Qed.
Lemma live_a_tag f : live_a_decode f profile = Err {| expected := 0; actual := tag_byte (BegodeFrame.tag f) |}
  \/ BegodeFrame.tag f = 0 /\ exists a, live_a_decode f profile = Ok a.
Proof. unfold live_a_decode, require_tag. case_bool_decide; [right|left]; simpl; eauto. Qed.
Lemma live_b_tag f : live_b_decode f = Err {| expected := 4; actual := tag_byte (BegodeFrame.tag f) |}
  \/ BegodeFrame.tag f = 4 /\ exists b, live_b_decode f = Ok b.
Proof. unfold live_b_decode, require_tag. case_bool_decide; [right|left]; simpl; eauto. Qed.
Lemma extra_tag f : extra_decode f = Err {| expected := 7; actual := tag_byte (BegodeFrame.tag f) |}
  \/ BegodeFrame.tag f = 7 /\ exists e, extra_decode f = Ok e.
Proof. unfold extra_decode, require_tag. case_bool_decide; [right|left]; simpl; eauto. Qed.

(** The telemetry of one frame. *)
Lemma wheel_step_frame ctx f t :
  wheel_step ctx (WheelFrame f t) =
    match live_a_decode f profile, live_b_decode f, extra_decode f with
    | Ok a, _, _ =>
        let '(ctx, d) := charging_delta ctx f (live_a_to_delta_with_units a t (ctx_unit_mode ctx)) t in
        (ctx, [d])
    | _, Ok b, _ =>
        let '(ctx, d) := charging_delta (observe_live_b ctx b) f (live_b_to_delta_with_units b t) t in
        (ctx, [d])
    | _, _, Ok e => let '(ctx, d) := charging_delta ctx f (extra_to_delta e t) t in (ctx, [d])
    | _, _, _ =>
        if bool_decide (1 <= BegodeFrame.tag f <= 3)
        then let '(ctx, d) := bms_charging_delta ctx f t in (ctx, option_list d)
        else (ctx, [])
    end.
Proof.
  cbn [wheel_step]. unfold report, push_begode_frame. cbn [fst snd].
  destruct (live_a_tag f) as [-> | [Ht [a ->]]].
  2:{ rewrite bool_decide_true by done. unfold context_live_a_to_delta. by destruct (charging_delta _ _ _ _). }
  destruct (live_b_tag f) as [-> | [Ht [b ->]]].
  2:{ rewrite Ht. cbn. by destruct (charging_delta _ _ _ _). }
  destruct (extra_tag f) as [-> | [Ht [e ->]]].
  2:{ rewrite Ht. cbn. by destruct (charging_delta _ _ _ _). }
  repeat case_bool_decide; try done; try lia;
    destruct (bms_charging_delta ctx f t) as [ctx' [d|]]; done.
Qed.
Lemma tracks_step ctx s snap known call :
  tracks ctx s snap known ->
  let '(s', mode) := reference_step s call in
  tracks (wheel_step ctx call).1 s' (foldl apply_delta snap (wheel_step ctx call).2)
    (match mode with Some _ => mode | None => known end).
Proof.
  intros H. pose proof H as [Hc Hu _ _]. destruct s as [charging units]. cbn [fst snd] in *.
  assert (Htold : forall units' f delta t,
    let '(ctx', told) := charging_delta (ctx <| ctx_unit_mode := units' |>) f delta t in
    let r := charging_observe charging f delta t in
    tracks ctx' (r.1, units') (foldl apply_delta snap [told]) (Some (m_value r.2)))
    by (intros; rewrite <- Hc; apply tracks_told).
  assert (Hsame : ctx <| ctx_unit_mode := units |> = ctx) by (rewrite <- Hu; by destruct ctx).
  destruct call as [f t|t].
  - rewrite wheel_step_frame. cbn [reference_step]. cbn zeta. rewrite Hu.
    destruct (live_a_decode f profile) as [a|].
    { specialize (Htold units f (live_a_to_delta_with_units a t units) t). rewrite Hsame in Htold.
      by destruct (charging_delta _ _ _ _). }
    destruct (live_b_decode f) as [b|].
    { specialize (Htold (unit_mode b) f (live_b_to_delta_with_units b t) t).
      unfold observe_live_b. by destruct (charging_delta _ _ _ _). }
    destruct (extra_decode f) as [x|].
    { specialize (Htold units f (extra_to_delta x t) t). rewrite Hsame in Htold.
      by destruct (charging_delta _ _ _ _). }
    case_bool_decide; [|done]. unfold bms_charging_delta. rewrite Hc.
    destruct (charging_observe charging f (delta_empty t) t) as [c mode].
    pose proof (tracks_changed _ _ _ _ c mode t H) as Ht.
    destruct (changed_charging_delta _ mode t) as [ctx' delta]. exact Ht.
  - cbn [reference_step wheel_step]; cbn zeta. unfold context_charging_tick. rewrite Hc.
    destruct (charging_tick charging t) as [c mode].
    pose proof (tracks_changed _ _ _ _ c mode t H) as Ht.
    destruct (changed_charging_delta _ mode t) as [ctx' delta]. exact Ht.
Qed.
Lemma tracks_run calls ctx s snap known :
  tracks ctx s snap known ->
  tracks (run_state wheel_step ctx calls) (run_state reference_step s calls)
    (foldl apply_delta snap (concat (run_outputs wheel_step ctx calls)))
    (foldl (fun known mode => match mode with Some _ => mode | None => known end) known
       (run_outputs reference_step s calls)).
Proof.
  revert ctx s snap known. induction calls as [|call calls IH]; intros ctx s snap known H; [done|].
  rewrite !run_state_cons, !run_outputs_cons. cbn [concat foldl]. rewrite foldl_app.
  apply IH. pose proof (tracks_step _ _ _ _ call H) as Hs. by destruct (reference_step s call).
Qed.

(** Leaving out repeated charge modes hides nothing: after any frames and
    ticks since a connection began, the charge mode in the snapshot that the
    reported deltas add up to is the one the charging inference arrived at
    last, as if it had been reported after every frame and tick; a mode never
    reported reads as unknown. *)
Theorem charge_mode_suppression_invisible (calls : list WheelCall) :
  let told := concat (run_outputs wheel_step default_context calls) in
  let inferred := run_outputs reference_step (default_charging, Metric) calls in
  shown (m_value <$> t_charge_mode (foldl apply_delta default_snapshot told)) = shown (latest inferred).
Proof.
  intros told inferred.
  destruct (tracks_run calls default_context (default_charging, Metric) default_snapshot None)
    as [_ _ Hs Hk]; [done|].
  unfold told, inferred, latest. by rewrite Hs, Hk.
Qed.

(** The units that the last settings frame named. *)
Definition last_units (calls : list WheelCall) : BegodeUnitMode :=
  foldl (fun units call =>
    match call with
    | WheelFrame f _ => match live_b_decode f with Ok b => unit_mode b | Err _ => units end
    | WheelTick _ => units
    end) Metric calls.
Lemma charging_delta_units ctx f d t : ctx_unit_mode (charging_delta ctx f d t).1 = ctx_unit_mode ctx.
Proof. unfold charging_delta. destruct ctx. simpl. by destruct (charging_observe _ _ _ _). Qed.
Lemma changed_charging_delta_units ctx m t :
  ctx_unit_mode (changed_charging_delta ctx m t).1 = ctx_unit_mode ctx.
Proof. unfold changed_charging_delta. destruct ctx. simpl. by destruct (_ || _). Qed.
Lemma wheel_step_units ctx call :
  ctx_unit_mode (wheel_step ctx call).1 =
    match call with
    | WheelFrame f _ => match live_b_decode f with Ok b => unit_mode b | Err _ => ctx_unit_mode ctx end
    | WheelTick _ => ctx_unit_mode ctx
    end.
Proof.
  destruct call as [f t|t].
  - rewrite wheel_step_frame. destruct (live_a_tag f) as [-> | [Ht [a ->]]].
    + destruct (live_b_tag f) as [-> | [Ht [b ->]]].
      * destruct (extra_decode f) as [x|].
        { pose proof (charging_delta_units ctx f (extra_to_delta x t) t) as E.
          by destruct (charging_delta _ _ _ _). }
        case_bool_decide; [|done]. unfold bms_charging_delta.
        destruct (charging_observe (ctx_charging ctx) f (delta_empty t) t) as [c m].
        pose proof (changed_charging_delta_units (ctx <| ctx_charging := c |>) m t) as E.
        destruct (changed_charging_delta _ m t). cbn [fst] in *. rewrite E. by destruct ctx.
      * pose proof (charging_delta_units (observe_live_b ctx b) f (live_b_to_delta_with_units b t) t) as E.
        destruct (charging_delta _ _ _ _). cbn [fst] in *. rewrite E. by destruct ctx.
    + pose proof (charging_delta_units ctx f (live_a_to_delta_with_units a t (ctx_unit_mode ctx)) t) as E.
      destruct (charging_delta _ _ _ _). cbn [fst] in *. rewrite E.
      destruct (live_b_tag f) as [-> | [Ht' _]]; [done|]. lia.
  - cbn [wheel_step]. unfold context_charging_tick.
    destruct (charging_tick (ctx_charging ctx) t) as [c m].
    pose proof (changed_charging_delta_units (ctx <| ctx_charging := c |>) m t) as E.
    destruct (changed_charging_delta _ m t). cbn [fst] in *. rewrite E. by destruct ctx.
Qed.
Lemma context_units calls ctx :
  ctx_unit_mode (run_state wheel_step ctx calls) =
  foldl (fun units call =>
    match call with
    | WheelFrame f _ => match live_b_decode f with Ok b => unit_mode b | Err _ => units end
    | WheelTick _ => units
    end) (ctx_unit_mode ctx) calls.
Proof.
  revert ctx. induction calls as [|call calls IH]; intros ctx; [done|].
  rewrite run_state_cons, IH, wheel_step_units. by destruct call.
Qed.

(** Speeds and distances are in the units the wheel named last: whatever
    frames and ticks came before, a Live A frame is reported as one delta at
    its time, with its speed and trip distance converted by the unit bit of
    the last settings frame, metric before any, and with the voltage scaled
    by the pack profile. *)
Theorem live_a_in_last_units (calls : list WheelCall) (f : BegodeFrame) (t : Z) (a : BegodeLiveATelemetry) :
  live_a_decode f profile = Ok a ->
  exists d, (wheel_step (run_state wheel_step default_context calls) (WheelFrame f t)).2 = [d] /\
    d_at_ms d = t /\
    d_speed d = Some (source_reported (unit_speed (last_units calls) (la_speed a))) /\
    d_distance d = Some (source_reported (unit_distance (last_units calls) (trip_distance_low a))) /\
    d_voltage d = Some (source_reported
      (wire_as_scaled_voltage (frame_u16 f 2) (scaler_milli profile))) /\
    is_Some (d_charge_mode d).
Proof.
  intros Ha. rewrite wheel_step_frame, Ha, context_units. fold (last_units calls).
  unfold charging_delta. destruct (charging_observe _ _ _ _) as [c mode]. cbn [snd].
  eexists. split; [done|]. unfold live_a_decode in Ha.
  destruct (require_tag f 0); [|done]. simpl in Ha. injection Ha as <-. by split_ands.
Qed.
End Reports.

(** ** Witnesses *)

Definition live_a_sample : list Z := frame_bytes (live_a_frame 6000 500 1234 (-200) 300 7 0 3).
Definition live_b_imperial : list Z := frame_bytes (live_b_frame 90000 1 15 45 0 0 0 0 0).
Definition fresh_wheel : BegodeNotificationDecoder := with_pack_voltage_profile Begode100VFullCharge.

Lemma sample_items_ok : Forall item_ok [([], live_b_imperial); ([1; 2], live_a_sample)].
Proof.
  assert (frame_spec live_b_imperial /\ frame_spec live_a_sample) as [Hb Ha].
  { split; [exists (take 18 (drop 2 live_b_imperial))|exists (take 18 (drop 2 live_a_sample))];
      split; reflexivity. }
  repeat constructor; try assumption; lia.
Defined.
Lemma wheel_events_complete_witness :
  let stream := live_b_imperial ++ [1; 2] ++ live_a_sample in
  let ns := [(take 30 stream, 1000); (drop 30 stream, 1040)] in
  let s := run_state (notify BegodeGotway 0) fresh_wheel ns in
  buffer (reassembler s) = [] /\ ctx_unit_mode (context s) = Imperial.
Proof.
  intros stream ns s.
  destruct (wheel_events_complete BegodeGotway 0 fresh_wheel
    [([], live_b_imperial); ([1; 2], live_a_sample)] ns) as (Hb & Hc & _).
  - reflexivity.
  - exact sample_items_ok.
  - vm_compute. reflexivity.
  - split; [exact Hb|]. unfold s. rewrite Hc. vm_compute. reflexivity.
Defined.
Lemma live_a_in_last_units_witness :
  exists d, (wheel_step BegodeGotway 0 Begode100VFullCharge
      (run_state (wheel_step BegodeGotway 0 Begode100VFullCharge) default_context
         [WheelFrame {| frame_bytes := live_b_imperial |} 1000])
      (WheelFrame {| frame_bytes := live_a_sample |} 1040)).2 = [d] /\
    d_speed d = Some (source_reported (unit_speed Imperial 5000)).
Proof.
  destruct (live_a_decode {| frame_bytes := live_a_sample |} Begode100VFullCharge) as [a|x] eqn:Ha;
    [|vm_compute in Ha; discriminate].
  destruct (live_a_in_last_units BegodeGotway 0 Begode100VFullCharge
    [WheelFrame {| frame_bytes := live_b_imperial |} 1000] {| frame_bytes := live_a_sample |} 1040 a Ha)
    as (d & Hd & _ & Hs & _).
  exists d. split; [exact Hd|]. rewrite Hs. vm_compute in Ha. injection Ha as <-. vm_compute. reflexivity.
Defined.

(** ** What the bytes show *)

(** An invalid frame costs the rest of its notification: the same bytes cut
    after the bad frame deliver the good one, uncut they lose it. *)
Definition bad_frame : list Z := BEGODE_HEADER ++ replicate 22 0.
Example invalid_frame_drops_rest :
  let events ns := omap event_of (concat (run_outputs (notify BegodeGotway 0) fresh_wheel ns)) in
  length (events [(bad_frame ++ live_a_sample, 1000)]) = 2%nat /\
  length (events [(bad_frame, 1000); (live_a_sample, 1000)]) = 4%nat.
Proof. vm_compute. split; reflexivity. Qed.
(** The trip distance of Live A and the lifetime distance of Live B are
    reported in the same field, so the snapshot alternates between them. *)
Example distance_alternates :
  let distance calls := m_value <$> t_distance (foldl apply_delta default_snapshot (concat
    (run_outputs (wheel_step BegodeGotway 0 Begode100VFullCharge) default_context calls))) in
  let a := WheelFrame {| frame_bytes := live_a_sample |} 1000 in
  let b := WheelFrame (live_b_frame 90000 0 15 45 0 0 0 0 0) 1020 in
  distance [a; b] <> distance [a; b; a].
Proof. vm_compute. discriminate. Qed.

(** The end of charging that a tick finds is reported and not seen by the
    settings session: a wheel that stood and charged has not gained voltage for
    more than two minutes, the tick reports so, and the arm still lets a setting
    be written. *)
Definition charging_wheel : BegodeCharging :=
  {| BegodeCharging.source := Placeholders; placeholder_summary_at := Some 199000;
     placeholder_cells_at := Some 199000; valid_summary_at := None; real_cells_at := None;
     last_input_at := Some 199500; last_speed_at := Some 199500; stationary_since := Some 0;
     last_voltage_at := Some 199500; trend_started_at := Some 10000; baseline_mv := Some 80000;
     peak_mv := Some 81000; last_rise_at := Some 79000; rises := 5; charging := true |}.
Definition charging_session : @StationarySettingsWriteSession BegodeNotificationDecoder :=
  {| st_read_only :=
       {| connected := true;
          decoder := {| reassembler := default_reassembler;
                        context := {| ctx_unit_mode := Metric; ctx_charging := charging_wheel;
                                      last_charge_mode := Some (estimated Charging) |};
                        pack_voltage_profile := Begode100VFullCharge |} |};
     st_arm := Some {| sa_model := "M"; sa_issued_at := 199000; sa_expires_at := 204000 |};
     st_monotonic_ms := 199500; pending_sequence := None;
     latest_settings_speed := Some (0, 199500);
     latest_settings_charge_mode := Some (Charging, 199500); settings_cancellation_generation := 0 |}.
Example tick_ends_charging_keeps_arm :
  let '(s, outputs) := stationary_handle two_step_model charging_session (InTick 200000) in
  let modes := omap (fun o => match o with OutEvent (EventTelemetry delta) => d_charge_mode delta
                              | _ => None end) outputs in
  m_value <$> modes = [Quantities.ChargeUnknown] /\ charge_is_active Quantities.ChargeUnknown = false
  /\ omap written (stationary_handle two_step_model s (InCommand calibrate)).2
     = [([87], WithoutResponse)].
Proof. vm_compute. repeat split. Qed.
