(* ===== verification/VeteranSession.v ===== *)
(** * The Veteran notification decoder

    [cutout-protocols/src/session.rs], [VeteranNotificationDecoder] and what it
    pushes for a frame; [request_encoder.rs], [VeteranCommandModeDetector]: the
    representation of commands, chosen from the lengths of complete packets;
    [raw_settings.rs], [RawSettingsPages]: the settings page of the current
    connection, kept whole.  The decoder is an instance of
    [NotificationDecoder], so that the session shells run on it.  The CRC-32 of
    a package is the parameter of [VeteranFrame]. *)

From S2P Require Import Prelude.
From S2P Require Import Parser.
From S2P Require Import Quantities.
From S2P Require Import VeteranFrame.
From S2P Require Import RequestQueue.
From S2P Require Import VehicleIdentity.
From S2P Require Import Commands.
From S2P Require Import Telemetry.
From S2P Require Import Readback.
From S2P Require Import VeteranTelemetry.
From S2P Require Import SessionIO.
From S2P Require Import SessionState.
From S2P Require Import Sessions.

(** ** The command mode *)

Record VeteranCommandModeDetector := {
  previous : option VeteranCommandMode;
  latched : option VeteranCommandMode;
}.
Definition default_detector : VeteranCommandModeDetector := {| previous := None; latched := None |}.
Definition mode (self : VeteranCommandModeDetector) : VeteranCommandMode := default Binary (latched self).
Definition is_latched (self : VeteranCommandModeDetector) : bool := bool_decide (is_Some (latched self)).
Definition observe_complete_packet_len (self : VeteranCommandModeDetector) (packet_len : nat)
  : VeteranCommandModeDetector :=
  if bool_decide (packet_len < 36)%nat || is_latched self then self
  else
    let observed := if bool_decide (packet_len < 47)%nat then Ascii else Binary in
    if bool_decide (previous self = Some observed)
    then {| previous := previous self; latched := Some observed |}
    else {| previous := Some observed; latched := latched self |}.
Definition detector_reset (self : VeteranCommandModeDetector) : VeteranCommandModeDetector := default_detector.

(** ** The settings page *)

(** The key of a page is its selector. *)
Record RawSettingsPage := {
  page_selector : Z;
  page_observed_at : Z;
  page_bytes : list Z;
}.
Definition RawSettingsPages : Type := list RawSettingsPage.
(** The pages are sorted by selector, so that the binary search finds the page
    of a selector or the place of a new one. *)
Fixpoint place_page (pages : RawSettingsPages) (page : RawSettingsPage) : RawSettingsPages :=
  match pages with
  | [] => [page]
  | p :: rest =>
      if bool_decide (page_selector p < page_selector page) then p :: place_page rest page
      else if bool_decide (page_selector p = page_selector page)
      then (if bool_decide (page_observed_at page < page_observed_at p) then p else page) :: rest
      else page :: p :: rest
  end.
Definition observe_veteran (self : RawSettingsPages) (frame : VeteranFrame) (observed_at : Z) : RawSettingsPages :=
  match from_frame frame with
  | None => self
  | Some evidence =>
      place_page self {| page_selector := ev_selector evidence; page_observed_at := observed_at;
                         page_bytes := VeteranFrame.frame_bytes frame |}
  end.

(** ** One frame *)

#[global] Instance page_kind_eq_dec : EqDecision BatteryPageKind.
Proof. solve_decision. Defined.

Definition push_veteran_frame (frame : VeteranFrame) (monotonic_ms : Z) : list SessionOutput * Z :=
  match VeteranTelemetry.decode frame with
  | Ok telemetry =>
      let settings_responses := to_settings_responses telemetry in
      let aero_settings := to_aero_settings_page_response telemetry frame in
      let settings_count :=
        Z.of_nat (length settings_responses) + (if bool_decide (is_Some aero_settings) then 1 else 0) in
      let pushed :=
        [OutEvent (EventTelemetry (to_delta telemetry monotonic_ms));
         OutEvent (EventReadOnlyResponse (to_firmware_response telemetry))] ++
        ((fun response => OutEvent (EventReadOnlyResponse response)) <$>
           settings_responses ++ option_list aero_settings) in
      match from_frame frame ≫= (fun evidence =>
              if bool_decide (ev_kind evidence = KindRaw) then None else veteran_bms_readback evidence) with
      | Some readback =>
          (pushed ++ [OutEvent (EventReadOnlyResponse (RespBattery readback))], sat_add u64_max 3 settings_count)
      | None => (pushed, sat_add u64_max 2 settings_count)
      end
  | Err FrameTooShort => (push_parser_error MalformedFrame, 2)
  end.

Section Frames.
Context (family : ProtocolFamily) (channel : GattChannel).

Definition push_veteran_ingest_outcome_for_frame (frame : VeteranFrame) (monotonic_ms event_count : Z)
  : list SessionOutput :=
  let frame_len := Z.of_nat (length (VeteranFrame.frame_bytes frame)) in
  let told := OutNotificationIngest (semantic_events family channel frame_len monotonic_ms event_count) in
  match from_frame frame with
  | Some evidence =>
      let body_len := Z.of_nat (length (ev_body evidence)) in
      let gap :=
        OutNotificationIngest (parser_gap family channel frame_len monotonic_ms
          {| pg_classifier := ClassSelector (ev_selector evidence); pg_body_len := body_len;
             pg_retained_payload := retained_from_bytes (ev_body evidence) |}) in
      if negb (bool_decide (ev_kind evidence = KindRaw)) then [told; gap]
      else if bool_decide (ev_selector evidence = 8) then
        [OutNotificationIngest (known_reserved family channel frame_len monotonic_ms
           {| rp_classifier := ClassSelector (ev_selector evidence); rp_body_len := body_len;
              rp_retained_payload := retained_from_bytes (ev_body evidence);
              rp_verification := HardwareVerified |})]
      else [gap]
  | None => [told]
  end.

(** ** The decoder *)

Record VeteranNotificationDecoder := {
  reassembler : VeteranFrameReassembler;
  command_mode : VeteranCommandModeDetector;
  raw_settings : option RawSettingsPages;
}.
Definition default_decoder : VeteranNotificationDecoder :=
  {| reassembler := default_reassembler; command_mode := default_detector; raw_settings := None |}.
Definition decoder_reset (self : VeteranNotificationDecoder) : VeteranNotificationDecoder :=
  {| reassembler := VeteranFrame.reset (reassembler self); command_mode := detector_reset (command_mode self);
     raw_settings := None |}.
Definition raw_settings_pages (self : VeteranNotificationDecoder) : RawSettingsPages :=
  default [] (raw_settings self).

(** What is kept across frames, and the arm of the loop for a complete frame. *)
Definition Kept : Type := VeteranCommandModeDetector * option RawSettingsPages.
Definition complete_frame (kept : Kept) (frame : VeteranFrame) (monotonic_ms : Z) : Kept * list SessionOutput :=
  let '(detector, raw) := kept in
  let raw := if bool_decide (VeteranFrame.frame_bytes frame !! 46%nat = Some 8)
             then Some (observe_veteran (default [] raw) frame monotonic_ms) else raw in
  let detector := observe_complete_packet_len detector (length (VeteranFrame.frame_bytes frame)) in
  let '(pushed, event_count) := push_veteran_frame frame monotonic_ms in
  ((detector, raw), pushed ++ push_veteran_ingest_outcome_for_frame frame monotonic_ms event_count).

Section Checksum.
Variable crc32 : list Z -> Z.

(** The error of the session for an error of the reassembler. *)
Definition parser_error_of (e : VeteranReassemblyError) : ParserError :=
  match e with
  | CrcMismatch => BadChecksum
  | VeteranFrame.OversizedFrame claimed max => RequestQueue.OversizedFrame (Z.of_nat claimed) (Z.of_nat max)
  | InvalidFrame => MalformedFrame
  end.
(** The loop of [handle_notification] over the bytes left: what it pushed, and
    its two variables, or [Err] when an error made it return. *)
Fixpoint feed_notification (self : VeteranNotificationDecoder) (bytes : list Z) (monotonic_ms : Z)
    (completed_frames : Z) (buffered : bool)
  : VeteranNotificationDecoder * list SessionOutput * result (Z * bool) ParserError :=
  match bytes with
  | [] => (self, [], Ok (completed_frames, buffered))
  | byte :: rest =>
      let '(re, parsed) := feed_byte_result crc32 (reassembler self) byte in
      let self := {| reassembler := re; command_mode := command_mode self; raw_settings := raw_settings self |} in
      match parsed with
      | Ok (Complete frame) =>
          let '((detector, raw), pushed) :=
            complete_frame (command_mode self, raw_settings self) frame monotonic_ms in
          let self := {| reassembler := re; command_mode := detector; raw_settings := raw |} in
          let '(self, later, ended) :=
            feed_notification self rest monotonic_ms (sat_add u64_max completed_frames 1) false in
          (self, pushed ++ later, ended)
      | Ok Buffered => feed_notification self rest monotonic_ms completed_frames true
      | Ok Seeking => feed_notification self rest monotonic_ms completed_frames false
      | Err e => (self, push_parser_error (parser_error_of e), Err (parser_error_of e))
      end
  end.
Definition handle_notification (self : VeteranNotificationDecoder) (bytes : list Z) (monotonic_ms : Z)
  : VeteranNotificationDecoder * list SessionOutput :=
  let len := Z.of_nat (length bytes) in
  let '(self, pushed, ended) := feed_notification self bytes monotonic_ms 0 false in
  (self, pushed ++
    match ended with
    | Err error => [OutNotificationIngest (parser_diagnostic family channel len monotonic_ms error)]
    | Ok (completed_frames, buffered) =>
        if negb (bool_decide (completed_frames = 0)) then []
        else if (buffered : bool)
        then [OutNotificationIngest (buffered_fragment family channel len monotonic_ms)]
        else [OutNotificationIngest (seeking_frame_boundary family channel bytes monotonic_ms)]
    end).
End Checksum.
End Frames.

(** The decoder of a package's checksum. *)
#[global] Instance veteran_notification_decoder (crc32 : list Z -> Z)
  : NotificationDecoder VeteranNotificationDecoder := {
  nd_buffer_state self := if has_pending_bytes (reassembler self) then BufferBuffered else BufferEmpty;
  nd_reset := decoder_reset;
  nd_on_tick self _ := (self, []);
  nd_next_tick_at _ := None;
  nd_on_read_command self _ := (self, [], false);
  nd_control_encoding_context self := ContextVeteran (mode (command_mode self));
  nd_handle_notification self family channel bytes monotonic_ms :=
    handle_notification family channel crc32 self bytes monotonic_ms;
}.

(** ** What the bytes become

    A stream of whole frames, with noise that holds no first magic byte between
    them, seen as the answers of the reassembler to its bytes. *)

Section Stream.
Context (crc32 : list Z -> Z).

Definition item_ok (item : list Z * list Z) : Prop :=
  Forall (fun b => b <> 0xdc) item.1 /\ frame_spec crc32 item.2.
Definition item_frame (item : list Z * list Z) : VeteranFrame := {| VeteranFrame.frame_bytes := item.2 |}.
Definition Answer : Type := result VeteranFrameParseResult VeteranReassemblyError.
Definition frame_answers (f : list Z) : list Answer :=
  replicate (length f - 1) (Ok Buffered) ++ [Ok (Complete {| VeteranFrame.frame_bytes := f |})].
Definition item_answers (item : list Z * list Z) : list Answer :=
  replicate (length item.1) (Ok Seeking) ++ frame_answers item.2.
Definition feed (s : VeteranFrameReassembler) (b : Z) : VeteranFrameReassembler * Answer :=
  feed_byte_result crc32 s b.

Lemma feed_of s b buf st o :
  feed_byte crc32 (state s) b (buffer s) = (buf, Ok (st, o)) ->
  feed s b = ({| buffer := buf; state := st |},
              Ok (match o with Some f => Complete f | None => if bool_decide (buf = []) then Seeking else Buffered end)).
Proof. intros E. unfold feed, feed_byte_result. rewrite E. by destruct s. Qed.
Lemma noise_answers noise :
  Forall (fun b => b <> 0xdc) noise ->
  run feed default_reassembler noise = (default_reassembler, replicate (length noise) (Ok Seeking)).
Proof.
  induction 1 as [|b noise Hb _ IH]; [done|]. cbn [run].
  rewrite (feed_of default_reassembler b [] SeekingMagic0 None) by (simpl; by rewrite bool_decide_false).
  unfold default_reassembler in IH. rewrite IH. done.
Qed.
Lemma body_answers s len body rest :
  is_byte len -> rest <> [] -> length (body ++ rest) = Z.to_nat len ->
  frame_spec crc32 (VETERAN_MAGIC ++ len :: (body ++ rest)) ->
  VeteranFrame.collected s (VETERAN_MAGIC ++ len :: body) ->
  run feed s rest =
    (default_reassembler, replicate (length rest - 1) (Ok Buffered) ++
       [Ok (Complete {| VeteranFrame.frame_bytes := VETERAN_MAGIC ++ len :: (body ++ rest) |})]).
Proof.
  intros Hb Hne Hl Hf. revert s body Hl Hf Hne.
  induction rest as [|b rest IH]; intros s body Hl Hf Hne [Hst Hbuf]; [done|].
  rewrite length_app in Hl. simpl in Hl. cbn [run].
  pose proof (push_and_finish_body crc32 len body b Hb ltac:(lia)) as E. cbv zeta in E.
  assert (Hfb : feed_byte crc32 (state s) b (buffer s) = push_and_finish crc32 (VETERAN_MAGIC ++ len :: body) b)
    by (rewrite Hst, Hbuf; done).
  rewrite E in Hfb. clear E. destruct rest as [|b' rest].
  - rewrite (proj2 (Nat.ltb_ge _ _)) in Hfb by (simpl in Hl; lia).
    assert (Hc : bool_decide (VETERAN_SHORT_FRAME_MAX_LEN < len)
                 && negb (veteran_crc_matches crc32 (VETERAN_MAGIC ++ len :: body ++ [b])) = false).
    { destruct (bool_decide (_ < len)) eqn:El; [|done]. prop_bools. simpl.
      apply negb_false_iff. apply crc_matches_spec; [done|rewrite length_app; simpl in *; lia|].
      destruct Hf as (len' & body' & _ & [= <- <-] & _ & Hcrc). auto. }
    rewrite Hc in Hfb. by rewrite (feed_of _ _ _ _ _ Hfb).
  - rewrite (proj2 (Nat.ltb_lt _ _)) in Hfb by (simpl in Hl; lia).
    rewrite (feed_of _ _ _ _ _ Hfb). cbn [app].
    rewrite (IH {| buffer := VETERAN_MAGIC ++ len :: (body ++ [b]); state := Collecting |} (body ++ [b]));
      rewrite <- ?app_assoc; [|rewrite !length_app; simpl in *; lia|done..].
    simpl. by rewrite Nat.sub_0_r.
Qed.
Lemma frame_answered f :
  frame_spec crc32 f -> run feed default_reassembler f = (default_reassembler, frame_answers f).
Proof.
  intros Hf. pose proof Hf as (len & body & Hb & -> & Hl & _). unfold frame_answers.
  set (s := {| buffer := VETERAN_MAGIC; state := Collecting |}).
  assert (Hm : run feed default_reassembler VETERAN_MAGIC = (s, [Ok Buffered; Ok Buffered; Ok Buffered]))
    by (vm_compute; reflexivity).
  rewrite run_app. unfold run_state, run_outputs. rewrite Hm. cbn [fst snd run].
  assert (Hfb : feed_byte crc32 (state s) len (buffer s) = push_and_finish crc32 VETERAN_MAGIC len) by done.
  rewrite push_and_finish_len in Hfb by done. destruct body as [|b body].
  - simpl in Hl. unfold is_byte in Hb. rewrite bool_decide_true in Hfb by lia.
    by rewrite (feed_of _ _ _ _ _ Hfb).
  - simpl in Hl. rewrite bool_decide_false in Hfb by lia. rewrite (feed_of _ _ _ _ _ Hfb). cbn [app].
    rewrite (body_answers _ len [] (b :: body)); [|done..]. simpl. by rewrite Nat.sub_0_r.
Qed.
Lemma stream_answers items :
  Forall item_ok items ->
  run feed default_reassembler (concat (item_bytes <$> items)) =
    (default_reassembler, concat (item_answers <$> items)).
Proof.
  induction 1 as [|[noise f] items [Hn Hf] _ IH]; [done|]. cbn [fmap list_fmap concat].
  unfold item_bytes at 1, item_answers at 1. cbn [fst snd] in *.
  rewrite run_app, run_state_app, run_outputs_app. unfold run_state, run_outputs.
  rewrite (noise_answers noise Hn). cbn [fst snd]. rewrite (frame_answered f Hf). cbn [fst snd]. by rewrite IH.
Qed.
End Stream.

Section Notifications.
Context (family : ProtocolFamily) (channel : GattChannel) (crc32 : list Z -> Z).

Definition kept_of (self : VeteranNotificationDecoder) : Kept := (command_mode self, raw_settings self).
Definition report (kept : Kept) (f : VeteranFrame * Z) : Kept * list SessionOutput :=
  complete_frame family channel kept f.1 f.2.
Definition notify (self : VeteranNotificationDecoder) (n : list Z * Z)
  : VeteranNotificationDecoder * list SessionOutput :=
  handle_notification family channel crc32 self n.1 n.2.
Definition frames_at (answers : list Answer) (stamps : list Z) : list (VeteranFrame * Z) :=
  completed_at (completed <$> answers) stamps.
Definition with_kept (re : VeteranFrameReassembler) (kept : Kept) : VeteranNotificationDecoder :=
  {| reassembler := re; command_mode := kept.1; raw_settings := kept.2 |}.

(** Without an error, the loop reports the frames that complete. *)
Lemma veteran_feed_notification_reports bytes t self cf bf :
  let answers := run_outputs (feed crc32) (reassembler self) bytes in
  Forall (fun a => is_ok a = true) answers ->
  let fs := frames_at answers (snd <$> stamped (bytes, t)) in
  exists ended,
    feed_notification family channel crc32 self bytes t cf bf =
      (with_kept (run_state (feed crc32) (reassembler self) bytes) (run_state report (kept_of self) fs),
       concat (run_outputs report (kept_of self) fs), Ok ended).
Proof.
  revert self cf bf. induction bytes as [|b bytes IH]; intros self cf bf answers Hok fs.
  { exists (cf, bf). by destruct self. }
  subst answers fs. unfold stamped, frames_at in *. cbn [fmap list_fmap fst snd] in *.
  rewrite run_state_cons. rewrite run_outputs_cons in *. apply Forall_cons in Hok as [Ha Hok].
  cbn [feed_notification fmap list_fmap]. fold (feed crc32 (reassembler self) b).
  destruct (feed crc32 (reassembler self) b) as [re parsed]. cbn [fst snd] in *.
  rewrite completed_at_cons.
  destruct parsed as [[| |frame]|e]; [..|done]; cbn [completed fmap option_fmap option_map option_list app].
  - apply (IH {| reassembler := re; command_mode := command_mode self; raw_settings := raw_settings self |}), Hok.
  - apply (IH {| reassembler := re; command_mode := command_mode self; raw_settings := raw_settings self |}), Hok.
  - change (option_list (Some (frame, t)) ++ ?l) with ((frame, t) :: l).
    rewrite run_state_cons, run_outputs_cons. cbn [command_mode raw_settings]. fold (kept_of self).
    change (complete_frame family channel (kept_of self) frame t) with (report (kept_of self) (frame, t)).
    destruct (report (kept_of self) (frame, t)) as [[d r] pushed]. cbn [fst snd].
    destruct (IH {| reassembler := re; command_mode := d; raw_settings := r |}
                 (sat_add u64_max cf 1) false Hok) as [ended E].
    unfold kept_of in E. cbn [reassembler command_mode raw_settings] in E. rewrite E. by exists ended.
Qed.
(** A notification adds nothing to the events of its frames. *)
Lemma veteran_notify_reports n self :
  let answers := run_outputs (feed crc32) (reassembler self) n.1 in
  Forall (fun a => is_ok a = true) answers ->
  let fs := frames_at answers (snd <$> stamped n) in
  (notify self n).1 = with_kept (run_state (feed crc32) (reassembler self) n.1) (run_state report (kept_of self) fs) /\
  omap event_of (notify self n).2 = omap event_of (concat (run_outputs report (kept_of self) fs)).
Proof.
  destruct n as [bytes t]. intros answers Hok fs. unfold notify, handle_notification. cbn [fst snd].
  destruct (veteran_feed_notification_reports bytes t self 0 false Hok) as [[cf bf] E]. rewrite E.
  cbn [fst snd]. split; [done|]. rewrite omap_app.
  destruct (negb _); [|destruct bf]; by rewrite app_nil_r.
Qed.
Lemma veteran_notifications_report ns self :
  let answers := run_outputs (feed crc32) (reassembler self) (concat (fst <$> ns)) in
  Forall (fun a => is_ok a = true) answers ->
  let fs := frames_at answers (snd <$> (ns ≫= stamped)) in
  run_state notify self ns =
    with_kept (run_state (feed crc32) (reassembler self) (concat (fst <$> ns))) (run_state report (kept_of self) fs) /\
  omap event_of (concat (run_outputs notify self ns)) =
    omap event_of (concat (run_outputs report (kept_of self) fs)).
Proof.
  revert self. induction ns as [|n ns IH]; intros self answers Hok fs; [by destruct self|].
  subst answers fs. cbn [fmap list_fmap concat] in *.
  rewrite bind_cons, fmap_app. unfold frames_at in *. rewrite run_outputs_app, run_state_app in *.
  apply Forall_app in Hok as [Ho1 Ho2]. rewrite fmap_app, completed_at_app by
    (unfold stamped; by rewrite !length_fmap, run_outputs_length).
  destruct (veteran_notify_reports n self Ho1) as [E1 E2]. unfold frames_at in *.
  rewrite run_state_cons, run_outputs_cons, run_outputs_app, run_state_app, E1. cbn [concat].
  set (k1 := run_state report (kept_of self) _) in *.
  destruct (IH (with_kept (run_state (feed crc32) (reassembler self) n.1) k1) Ho2) as [E3 E4].
  cbn [reassembler with_kept] in *.
  assert (Ek : kept_of (with_kept (run_state (feed crc32) (reassembler self) n.1) k1) = k1) by (by destruct k1).
  rewrite Ek in E3, E4. split; [exact E3|]. by rewrite omap_app, E2, E4, concat_app, omap_app.
Qed.
End Notifications.

Lemma veteran_item_answers_completed item :
  item.2 <> [] ->
  completed <$> item_answers item = replicate (length (item_bytes item) - 1) None ++ [Some (item_frame item)].
Proof.
  destruct item as [noise f]. cbn [fst snd]. intros Hf.
  unfold item_answers, frame_answers, item_bytes, item_frame. cbn [fst snd].
  rewrite !fmap_app, !fmap_replicate. cbn [fmap list_fmap completed]. rewrite app_assoc, <- replicate_add.
  rewrite length_app. do 2 f_equal. destruct f; [done|simpl; lia].
Qed.
Lemma item_ok_nonempty crc32 item : item_ok crc32 item -> item.2 <> [].
Proof. intros (_ & len & body & _ & E & _) Hn. by rewrite Hn in E. Qed.
Lemma stream_frames crc32 items stamps :
  Forall (item_ok crc32) items -> length stamps = length (concat (item_bytes <$> items)) ->
  frames_at (concat (item_answers <$> items)) stamps =
    zip (item_frame <$> items) (completion_times items stamps).
Proof.
  intros Hi Hl. unfold frames_at. rewrite <- stream_completed_at; [|done|].
  - f_equal. clear Hl. induction Hi as [|item items Hf Hi IH]; [done|].
    cbn [fmap list_fmap concat].
    rewrite fmap_app, veteran_item_answers_completed by (by eapply item_ok_nonempty). f_equal. exact IH.
  - apply Forall_impl with (item_ok crc32); [done|]. intros [noise f] Hf%item_ok_nonempty Hn.
    unfold item_bytes in Hn. by apply app_nil in Hn as [_ ?].
Qed.
Lemma veteran_item_answers_ok items : Forall (fun a : Answer => is_ok a = true) (concat (item_answers <$> items)).
Proof.
  apply Forall_concat, Forall_fmap, Forall_forall. intros item _. unfold item_answers, frame_answers.
  cbn [compose]. rewrite !Forall_app. split_ands; [apply Forall_replicate|apply Forall_replicate|]; repeat constructor.
Qed.

(** C9: What a Veteran wheel says is reported, once and in order: however a
    stream of valid frames, with noise that holds no first magic byte between
    them, is cut into notifications, the events that leave the decoder are
    exactly the events of those frames, each reported at the time of the
    notification that brought its last byte; the command mode and the retained
    settings page are those of the frames; no partial frame is kept. *)
Theorem veteran_events_complete (crc32 : list Z -> Z) (family : ProtocolFamily) (channel : GattChannel)
    (self : VeteranNotificationDecoder) (items : list (list Z * list Z)) (ns : list (list Z * Z)) :
  reassembler self = default_reassembler -> Forall (item_ok crc32) items ->
  concat (fst <$> ns) = concat (item_bytes <$> items) ->
  let frames := zip (item_frame <$> items) (completion_times items (snd <$> (ns ≫= stamped))) in
  run_state (notify family channel crc32) self ns =
    with_kept default_reassembler (run_state (report family channel) (kept_of self) frames) /\
  omap event_of (concat (run_outputs (notify family channel crc32) self ns)) =
    omap event_of (concat (run_outputs (report family channel) (kept_of self) frames)).
Proof.
  intros Hd Hi Hc frames.
  pose proof (stream_answers crc32 items Hi) as Hs. rewrite <- Hc in Hs.
  assert (Ha : run_outputs (feed crc32) (reassembler self) (concat (fst <$> ns)) = concat (item_answers <$> items))
    by (unfold run_outputs; by rewrite Hd, Hs).
  destruct (veteran_notifications_report family channel crc32 ns self) as [E1 E2].
  { rewrite Ha. apply veteran_item_answers_ok. }
  rewrite Ha in E1, E2. rewrite (stream_frames crc32) in E1, E2
    by (done || (rewrite <- Hc, <- stamped_bytes, !length_fmap; done)).
  rewrite E1. split; [|exact E2]. f_equal. unfold run_state. by rewrite Hd, Hs.
Qed.

(** ** The command mode is decided once *)

Definition packet_class (len : nat) : option VeteranCommandMode :=
  if bool_decide (len < 36)%nat then None
  else Some (if bool_decide (len < 47)%nat then Ascii else Binary).
(** The first class that two packets in a row agree on. *)
Fixpoint first_agreed (before : option VeteranCommandMode) (classes : list VeteranCommandMode)
  : option VeteranCommandMode :=
  match classes with
  | [] => None
  | c :: rest => if bool_decide (before = Some c) then Some c else first_agreed (Some c) rest
  end.
Definition packet_step (self : VeteranCommandModeDetector) (len : nat) : VeteranCommandModeDetector * unit :=
  (observe_complete_packet_len self len, tt).
Lemma packet_latched lens m p : latched (run_state packet_step {| previous := p; latched := Some m |} lens) = Some m.
Proof.
  induction lens as [|len lens IH]; [done|]. rewrite run_state_cons. cbn [packet_step fst].
  unfold observe_complete_packet_len, is_latched. cbn [latched].
  rewrite (bool_decide_true (is_Some (Some m))) by eauto. rewrite orb_true_r. exact IH.
Qed.
Lemma packets_agree lens p :
  latched (run_state packet_step {| previous := p; latched := None |} lens) =
    first_agreed p (omap packet_class lens).
Proof.
  revert p. induction lens as [|len lens IH]; intros p; [done|]. rewrite run_state_cons. cbn [packet_step fst].
  unfold observe_complete_packet_len, is_latched, packet_class. cbn [latched previous omap list_omap].
  rewrite (bool_decide_false (is_Some None)) by (by intros [? ?]). rewrite orb_false_r.
  fold packet_class. case_bool_decide as Hl.
  - rewrite IH. done.
  - cbn [first_agreed]. destruct (bool_decide (p = Some _)); [apply packet_latched|apply IH].
Qed.
Lemma report_detector family channel fs kept :
  fst (run_state (report family channel) kept fs) =
    run_state packet_step kept.1 ((fun f => length (VeteranFrame.frame_bytes f.1)) <$> fs).
Proof.
  revert kept. induction fs as [|[f t] fs IH]; intros [d raw]; [done|].
  cbn [fmap list_fmap]. rewrite !run_state_cons, IH. unfold report, complete_frame. cbn [fst snd].
  by destruct (push_veteran_frame f t).
Qed.
(** The representation of commands after a reset: the first class that two long
    packets in a row agree on, however the stream was cut, and binary before. *)
Lemma command_mode_decided (crc32 : list Z -> Z) (family : ProtocolFamily) (channel : GattChannel)
    (items : list (list Z * list Z)) (ns : list (list Z * Z)) :
  Forall (item_ok crc32) items -> concat (fst <$> ns) = concat (item_bytes <$> items) ->
  mode (command_mode (run_state (notify family channel crc32) default_decoder ns)) =
    default Binary (first_agreed None (omap packet_class ((fun item => length item.2) <$> items))).
Proof.
  intros Hi Hc. pose proof (stream_answers crc32 items Hi) as Hs. rewrite <- Hc in Hs.
  assert (Ha : run_outputs (feed crc32) (reassembler default_decoder) (concat (fst <$> ns)) = concat (item_answers <$> items))
    by (unfold run_outputs; cbn [reassembler default_decoder]; by rewrite Hs).
  destruct (veteran_notifications_report family channel crc32 ns default_decoder) as [E1 _].
  { rewrite Ha. apply veteran_item_answers_ok. }
  rewrite E1, Ha. cbn [command_mode with_kept]. rewrite report_detector. unfold mode.
  cbn [kept_of fst default_decoder command_mode]. unfold default_detector. rewrite packets_agree. do 3 f_equal.
  rewrite (stream_frames crc32) by (done || (rewrite <- Hc, <- stamped_bytes, !length_fmap; done)).
  clear. generalize (snd <$> (ns ≫= stamped)). induction items as [|item items IH]; intros stamps; [done|].
  cbn [fmap list_fmap completion_times]. simpl. f_equal. apply IH.
Qed.

(** ** Witnesses *)

Definition live_item : list Z * list Z := ([7], header_bytes 32 live_header).
Lemma live_items_ok : Forall (item_ok sample_crc) [live_item; live_item].
Proof.
  assert (H : item_ok sample_crc live_item).
  { split; [by repeat constructor|]. exists 32, (drop 4 (header_bytes 32 live_header)).
    split_ands; vm_compute; done. }
  constructor; [exact H|constructor; [exact H|constructor]].
Qed.
Definition live_notifications : list (list Z * Z) :=
  [(7 :: take 20 (header_bytes 32 live_header), 1000);
   (drop 20 (header_bytes 32 live_header) ++ [7], 1050); (header_bytes 32 live_header, 1100)].
Lemma veteran_events_complete_witness :
  length (omap event_of (concat (run_outputs (notify VeteranLeaperkimNosfet 0 sample_crc) default_decoder
    live_notifications))) = 8%nat /\
  mode (command_mode (run_state (notify VeteranLeaperkimNosfet 0 sample_crc) default_decoder live_notifications)) = Ascii.
Proof.
  destruct (veteran_events_complete sample_crc VeteranLeaperkimNosfet 0 default_decoder [live_item; live_item]
              live_notifications eq_refl live_items_ok ltac:(vm_compute; reflexivity)) as [E1 E2].
  split; [rewrite E2|rewrite E1]; vm_compute; reflexivity.
Defined.

(** A checksum error makes the decoder return: the valid frame that follows in
    the same notification is lost, and in a notification of its own it is not. *)
Definition corrupted : list Z := take 43 sample_long ++ [9].
Example checksum_error_drops_rest :
  let events ns :=
    omap event_of (concat (run_outputs (notify VeteranLeaperkimNosfet 0 sample_crc) default_decoder ns)) in
  length (events [(corrupted ++ header_bytes 32 live_header, 1000)]) = 2%nat /\
  length (events [(corrupted, 1000); (header_bytes 32 live_header, 1000)]) = 6%nat.
Proof. vm_compute. auto. Qed.
