(* ===== verification/ControlWire.v ===== *)
(** * The destinations of control writes

    [cutout-protocols/src/control_wire.rs] and [control_wire/]: the tables that
    say where a control goes, the check that no two of them collide, and the
    bytes of a write.  A schema is checked when the crate is compiled; here the
    failed assertion is [None] and the check is a law of the class
    [WireCommand].  The CRC-32 of a package is a parameter.  A panic (an index
    out of bounds, an [ArrayVec] pushed over its capacity, the [unreachable!] of
    [request_payload]) is the outer [None]. *)

From Stdlib Require Import Ascii.
From S2P Require Import Prelude.
From S2P Require Import Parser.
From S2P Require Import Commands.
From S2P Require Import SessionIO.
From S2P Require Import Sessions.

(** ** Byte strings *)

Definition byte_char (c : ascii) : Z := Z.of_nat (nat_of_ascii c).
(** [b"..."]. *)
Definition byte_string (s : string) : list Z := byte_char <$> String.list_ascii_of_string s.

(** ** Layouts and schemas *)

(** [[u8; 4]]. *)
Definition Magic : Type := Z * Z * Z * Z.
Definition magic_bytes (m : Magic) : list Z := let '(a, b, c, d) := m in [a; b; c; d].
Record BinaryField := { bf_magic : Magic; bf_bank : list Z; bf_offset : Z }.
Inductive Layout :=
| Field (field : BinaryField)
| Literal (bytes : list Z)
| DecimalMenu (selector digits : Z).
Inductive Schema := schema (parent : option Schema) (layouts : list Layout).

Fixpoint schema_len (self : Schema) : nat :=
  let 'schema parent layouts := self in
  length layouts + match parent with Some base => schema_len base | None => 0 end.
Fixpoint layout (self : Schema) (index : nat) : option Layout :=
  let 'schema parent layouts := self in
  match parent with
  | Some base => if (index <? schema_len base)%nat then layout base index
                 else layouts !! (index - schema_len base)%nat
  | None => layouts !! index
  end.

Definition validate_field (field : BinaryField) : bool :=
  negb (bool_decide (bf_bank field = [])) &&
  bool_decide (5 + Z.of_nat (length (bf_bank field)) <= bf_offset field) && bool_decide (bf_offset field <= 28).
Definition bytes_equal (a b : list Z) : bool :=
  bool_decide (length a = length b) && forallb (fun i => bool_decide (a !! i = b !! i)) (seq 0 (length a)).
(** A bank byte that is not specified is 0x80 on the wire. *)
Definition bank_byte (bank : list Z) (i : nat) : Z := default 0x80 (bank !! i).
Definition fields_overlap (a b : BinaryField) : bool :=
  bool_decide (bf_offset a = bf_offset b) && bytes_equal (magic_bytes (bf_magic a)) (magic_bytes (bf_magic b)) &&
  forallb (fun i => bool_decide (bank_byte (bf_bank a) i = bank_byte (bf_bank b) i))
    (seq 0 (Nat.max (length (bf_bank a)) (length (bf_bank b)))).
Definition field_overlaps_literal (field : BinaryField) (bytes : list Z) : bool :=
  bool_decide (Z.of_nat (length bytes) = bf_offset field + 5) &&
  forallb (fun i => bool_decide (bytes !! i = magic_bytes (bf_magic field) !! i)) (seq 0 4) &&
  bool_decide (bytes !! 4%nat = Some (bf_offset field + 5)) &&
  forallb (fun i => bool_decide (bytes !! i = Some (bank_byte (bf_bank field) (i - 5))))
    (seq 5 (Z.to_nat (bf_offset field) - 5)).
Definition layout_fields_overlap (l : Layout) (field : BinaryField) : bool :=
  match l with Field f => fields_overlap f field | _ => false end.
Definition overlaps (a b : Layout) : bool :=
  let with_field field other :=
    match other with
    | Field _ => layout_fields_overlap other field
    | Literal bytes => field_overlaps_literal field bytes
    | DecimalMenu _ _ => bool_decide (magic_bytes (bf_magic field) !! 0%nat = Some (byte_char "W"%char))
    end in
  match a, b with
  | Field field, other | other, Field field => with_field field other
  | Literal a, Literal b => bytes_equal a b
  | DecimalMenu a _, DecimalMenu b _ => bool_decide (a = b)
  | Literal bytes, DecimalMenu _ _ | DecimalMenu _ _, Literal bytes => bytes_equal bytes (byte_string "W")
  end.

Definition valid_layout (l : Layout) : bool :=
  match l with
  | Field field => validate_field field
  | Literal bytes => negb (bool_decide (bytes = []))
  | DecimalMenu _ digits => bool_decide (digits = 1) || bool_decide (digits = 2)
  end.
(** The assertions of a build; [None] does not compile. *)
Definition build (parent : option Schema) (layouts : list Layout) : option Schema :=
  let self := schema parent layouts in
  let inherited := match parent with Some base => schema_len base | None => 0%nat end in
  let apart i j :=
    match layouts !! i, layout self j with Some a, Some b => negb (overlaps a b) | _, _ => false end in
  if forallb (fun i => match layouts !! i with Some l => valid_layout l | None => false end &&
                       forallb (apart i) (seq 0 (inherited + i))) (seq 0 (length layouts))
  then Some self else None.
Definition schema_new (layouts : list Layout) : option Schema := build None layouts.
Definition schema_extend (parent : Schema) (layouts : list Layout) : option Schema := build (Some parent) layouts.
(** What compiles. *)
Inductive checked : Schema -> Prop :=
| checked_new layouts s : schema_new layouts = Some s -> checked s
| checked_extend base layouts s : checked base -> schema_extend base layouts = Some s -> checked s.

(** ** The bytes of a write *)

(** [ArrayVec::push], and a loop of it. *)
Definition array_push {A} (capacity : nat) (frame : list A) (x : A) : option (list A) :=
  if (length frame <? capacity)%nat then Some (frame ++ [x]) else None.
Fixpoint push_all {A} (capacity : nat) (frame xs : list A) : option (list A) :=
  match xs with
  | [] => Some frame
  | x :: rest => frame ← array_push capacity frame x; push_all capacity frame rest
  end.
Definition request_payload (bytes : list Z) : option WritePayload :=
  result_ok (write_payload_try_from_slice bytes).

Section Writes.
(** [crc32fast::hash]. *)
Variable crc32 : list Z -> Z.

Definition field_payload (field : BinaryField) (value : Z) : option WritePayload :=
  frame ← push_all 33 [] (magic_bytes (bf_magic field));
  claimed ← checked_add u8_max (bf_offset field) 5;
  frame ← array_push 33 frame claimed;
  frame ← push_all 33 frame (bf_bank field);
  frame ← push_all 33 frame (replicate (Z.to_nat (bf_offset field) - length frame) 0x80);
  frame ← array_push 33 frame value;
  frame ← push_all 33 frame (be32_bytes (crc32 frame));
  request_payload frame.
Definition payload (self : Schema) (index : nat) (value : Z) : option (option WritePayload) :=
  l ← layout self index;
  match l with
  | Literal bytes => Some <$> request_payload bytes
  | DecimalMenu _ _ => Some None
  | Field field => Some <$> field_payload field value
  end.
Definition menu_step (delay byte : Z) : option EncodedControlStep :=
  bytes ← request_payload [byte];
  Some {| delay_ms := delay; step_payload := bytes; step_mode := WithoutResponse |}.
Definition schema_steps (self : Schema) (index : nat) (value : Z) : option (option (list EncodedControlStep)) :=
  l ← layout self index;
  match l with
  | DecimalMenu selector digits =>
      if (bool_decide (digits = 1) && bool_decide (9 < value)) || bool_decide (99 < value) then Some None
      else
        enter ← menu_step 0 (byte_char "W"%char);
        select ← menu_step 100 selector;
        tens ← (if bool_decide (digits = 2)
                then step ← menu_step 200 (byte_char "0"%char + value / 10); Some [step] else Some []);
        units ← menu_step 200 (byte_char "0"%char + value mod 10);
        leave ← menu_step 200 (byte_char "b"%char);
        steps ← push_all 5 [] (enter :: select :: tens ++ [units; leave]);
        Some (Some steps)
  | _ => Some None
  end.

(** ** Selections *)

Record Selection := { sel_schema : Schema; sel_index : nat; sel_value : Z }.
Definition selection_single (self : Selection) (command : DeviceCommand) : option (option EncodedControl) :=
  answer ← payload (sel_schema self) (sel_index self) (sel_value self);
  Some (option_map (fun bytes =>
    {| ec_command := command_kind command; ec_payload := bytes; ec_mode := WithoutResponse |}) answer).
Definition selection_sequence (self : Selection) (command : DeviceCommand)
  : option (option EncodedControlSequence) :=
  answer ← schema_steps (sel_schema self) (sel_index self) (sel_value self);
  Some (option_map (fun st => {| ecs_command := command_kind command; steps := st |}) answer).
End Writes.

(** The trait [WireCommand], with the check of its schema as a law. *)
Class WireCommand (W : Type) := {
  SCHEMA : Schema;
  wire_index : W -> nat;
  wire_checked : checked SCHEMA;
}.
Definition wire_select {W} `{WireCommand W} (self : W) (value : Z) : Selection :=
  {| sel_schema := SCHEMA; sel_index := wire_index self; sel_value := value |}.

(** ** What a receiver sees *)

Section Transmission.
Context (crc32 : list Z -> Z).

(** The writes of a destination, in the order they leave: one payload, or the
    steps of a menu.  The inner [None] is a value that does not fit. *)
Definition transmission (self : Schema) (index : nat) (value : Z) : option (option (list (list Z))) :=
  single ← payload crc32 self index value;
  match single with
  | Some bytes => Some (Some [write_payload_as_slice bytes])
  | None =>
      sequence ← schema_steps self index value;
      Some (option_map (map (fun step => write_payload_as_slice (step_payload step))) sequence)
  end.

(** The bytes before the value of a field, and the whole frame. *)
Definition field_prefix (field : BinaryField) : list Z :=
  magic_bytes (bf_magic field) ++ [bf_offset field + 5] ++ bf_bank field ++
  replicate (Z.to_nat (bf_offset field) - 5 - length (bf_bank field)) 0x80.
Definition field_frame (field : BinaryField) (value : Z) : list Z :=
  let body := field_prefix field ++ [value] in body ++ be32_bytes (crc32 body).
Definition fits (digits value : Z) : bool :=
  negb ((bool_decide (digits = 1) && bool_decide (9 < value)) || bool_decide (99 < value)).
Definition writes_of (l : Layout) (value : Z) : list (list Z) :=
  match l with
  | Field field => [field_frame field value]
  | Literal bytes => [bytes]
  | DecimalMenu selector digits =>
      [[byte_char "W"%char]; [selector]] ++
      (if bool_decide (digits = 2) then [[byte_char "0"%char + value / 10]] else []) ++
      [[byte_char "0"%char + value mod 10]; [byte_char "b"%char]]
  end.

(** *** Pushing *)

Lemma push_all_fits {A} capacity (frame xs : list A) :
  (length frame + length xs <= capacity)%nat -> push_all capacity frame xs = Some (frame ++ xs).
Proof.
  revert frame. induction xs as [|x xs IH]; intros frame Hl; simpl in *; [by rewrite app_nil_r|].
  unfold array_push. rewrite (proj2 (Nat.ltb_lt _ _)) by lia. simpl. rewrite IH, <- app_assoc; [done|].
  rewrite length_app. simpl. lia.
Qed.
Lemma request_payload_fits bytes :
  (length bytes <= 512)%nat -> exists p, request_payload bytes = Some p /\ write_payload_as_slice p = bytes.
Proof.
  intros Hl. unfold request_payload, write_payload_try_from_slice.
  rewrite bool_decide_false by (unfold MAX_TRANSPORT_WRITE_LEN; lia).
  case_bool_decide; simpl; eexists; split; done.
Qed.
Lemma request_payload_bytes bytes p : request_payload bytes = Some p -> write_payload_as_slice p = bytes.
Proof.
  unfold request_payload, write_payload_try_from_slice. intros H. step_cases_in H; done.
Qed.
Lemma length_magic m : length (magic_bytes m) = 4%nat.
Proof. by destruct m as [[[a b] c] d]. Qed.
Lemma validate_spec field :
  validate_field field = true ->
  bf_bank field <> [] /\ 5 + Z.of_nat (length (bf_bank field)) <= bf_offset field <= 28.
Proof. unfold validate_field. intros H. prop_bools. auto. Qed.
Lemma length_field_prefix field :
  validate_field field = true -> length (field_prefix field) = Z.to_nat (bf_offset field).
Proof.
  intros [_ Ho]%validate_spec. unfold field_prefix.
  rewrite !length_app, length_magic, length_replicate. simpl. lia.
Qed.
Lemma length_field_frame field value :
  validate_field field = true -> Z.of_nat (length (field_frame field value)) = bf_offset field + 5.
Proof.
  intros Hv. unfold field_frame. rewrite !length_app, length_field_prefix by done.
  apply validate_spec in Hv as [_ Hv]. simpl. lia.
Qed.
Lemma field_payload_frame field value :
  validate_field field = true ->
  exists p, field_payload crc32 field value = Some p /\ write_payload_as_slice p = field_frame field value.
Proof.
  intros Hv. pose proof (length_field_prefix field Hv) as Hp. pose proof (length_field_frame field value Hv) as Hf.
  destruct (validate_spec field Hv) as [_ Ho].
  assert (Hm := length_magic (bf_magic field)).
  destruct (request_payload_fits (field_frame field value)) as (p & Ep & Es); [lia|].
  exists p. split; [|done]. unfold field_payload.
  rewrite push_all_fits by (simpl; lia). cbn [mbind option_bind app].
  unfold checked_add. rewrite bool_decide_true by int_lia. cbn [mbind option_bind].
  assert (Hpush : forall f x, (length f < 33)%nat -> array_push 33 f x = Some (f ++ [x] : list Z)).
  { intros f x Hl. unfold array_push. by rewrite (proj2 (Nat.ltb_lt _ _)). }
  rewrite Hpush by lia. cbn [mbind option_bind].
  rewrite push_all_fits by (rewrite !length_app; simpl; lia). cbn [mbind option_bind].
  rewrite push_all_fits by (rewrite !length_app, length_replicate; simpl; lia). cbn [mbind option_bind].
  assert (Epre : ((magic_bytes (bf_magic field) ++ [bf_offset field + 5]) ++ bf_bank field) ++
            replicate (Z.to_nat (bf_offset field) -
              length ((magic_bytes (bf_magic field) ++ [bf_offset field + 5]) ++ bf_bank field)) 0x80
          = field_prefix field).
  { unfold field_prefix. rewrite !length_app, Hm, <- !app_assoc. cbn [length app].
    do 4 f_equal; lia. }
  rewrite Epre, Hpush by lia. cbn [mbind option_bind].
  rewrite push_all_fits by (rewrite !length_app, Hp; simpl; lia). exact Ep.
Qed.

(** *** Layouts of a checked schema *)

Fixpoint all_layouts (self : Schema) : list Layout :=
  let 'schema parent layouts := self in
  match parent with Some base => all_layouts base | None => [] end ++ layouts.
Lemma length_all_layouts (self : Schema) : length (all_layouts self) = schema_len self.
Proof.
  revert self. fix IH 1. intros [[base|] layouts]; simpl; rewrite ?length_app, ?IH; lia.
Qed.
Lemma layout_all (self : Schema) index : layout self index = all_layouts self !! index.
Proof.
  revert self. fix IH 1. intros [[base|] layouts]; simpl; [|done]. rewrite lookup_app.
  destruct (index <? schema_len base)%nat eqn:E.
  - apply Nat.ltb_lt in E. rewrite IH.
    destruct (lookup_lt_is_Some_2 (all_layouts base) index) as [x Ex]; [by rewrite length_all_layouts|].
    by rewrite Ex.
  - apply Nat.ltb_ge in E. rewrite (lookup_ge_None_2 (all_layouts base)), length_all_layouts; [done|].
    by rewrite length_all_layouts.
Qed.
Lemma forallb_seq f start n :
  forallb f (seq start n) = true <-> forall i, (start <= i < start + n)%nat -> f i = true.
Proof.
  rewrite forallb_forall. split; intros H i Hi; apply H; [apply in_seq|apply in_seq in Hi]; lia.
Qed.

Record apart (ls : list Layout) : Prop := {
  apart_valid : Forall (fun l => valid_layout l = true) ls;
  apart_pair : forall i j a b, (j < i)%nat -> ls !! i = Some a -> ls !! j = Some b -> overlaps a b = false;
}.
Lemma build_apart parent layouts s :
  match parent with Some base => apart (all_layouts base) | None => True end ->
  build parent layouts = Some s -> apart (all_layouts s).
Proof.
  intros Hbase. unfold build. destruct (forallb _ (seq 0 (length layouts))) eqn:Heqb; [|done]. intros [= <-].
  assert (Hlen : match parent with Some base => schema_len base | None => 0%nat end =
                 length match parent with Some base => all_layouts base | None => [] end)
    by (destruct parent; [by rewrite length_all_layouts|done]).
  rewrite Hlen in *. clear Hlen.
  pose proof (proj1 (forallb_seq _ _ _) Heqb) as Hall. clear Heqb.
  assert (Hnew : forall i a, layouts !! i = Some a -> valid_layout a = true /\
    forall j b, (j < length match parent with Some base => all_layouts base | None => [] end + i)%nat ->
      all_layouts (schema parent layouts) !! j = Some b -> overlaps a b = false).
  { intros i a Ha. pose proof (lookup_lt_Some _ _ _ Ha) as Hi.
    specialize (Hall i ltac:(lia)). cbv beta in Hall. rewrite Ha in Hall. apply andb_true_iff in Hall as [Hv Hj].
    split; [done|]. intros j b Hlt Hb. apply (proj1 (forallb_seq _ _ _)) with (i := j) in Hj; [|lia].
    rewrite layout_all, Hb in Hj. by apply negb_true_iff in Hj. }
  assert (Hb : Forall (fun l => valid_layout l = true) match parent with Some base => all_layouts base | None => [] end)
    by (destruct parent; [by apply apart_valid|by constructor]).
  split.
  - simpl. apply Forall_app. split; [done|]. apply Forall_lookup. intros i a Ha. by apply (Hnew i a).
  - intros i j a b Hlt Ha Hbj. simpl in Ha, Hbj. rewrite lookup_app in Ha.
    destruct (match parent with Some base => all_layouts base | None => [] end !! i) as [l|] eqn:El.
    + injection Ha as ->. destruct parent as [base|]; [|done]. apply (apart_pair _ Hbase i j); [done|done|].
      rewrite lookup_app_l in Hbj; [done|]. pose proof (lookup_lt_Some _ _ _ El). lia.
    + apply lookup_ge_None in El. apply (Hnew _ _ Ha) with (j := j); [lia|done].
Qed.
Lemma checked_apart s : checked s -> apart (all_layouts s).
Proof.
  induction 1 as [layouts s E|base layouts s _ IH E]; by apply (build_apart _ _ _) in E.
Qed.

(** *** Destinations that do not overlap *)

Lemma bytes_equal_spec a b : bytes_equal a b = true <-> a = b.
Proof.
  unfold bytes_equal. rewrite andb_true_iff, bool_decide_eq_true, forallb_seq. split.
  - intros [Hl Hi]. apply list_eq. intros i. destruct (decide (i < length a)%nat).
    + specialize (Hi i ltac:(lia)). by apply bool_decide_eq_true in Hi.
    + rewrite !lookup_ge_None_2 by lia. done.
  - intros ->. split; [done|]. intros. by apply bool_decide_eq_true.
Qed.
Lemma field_prefix_lookup field i :
  validate_field field = true -> (5 <= i < Z.to_nat (bf_offset field))%nat ->
  field_prefix field !! i = Some (bank_byte (bf_bank field) (i - 5)).
Proof.
  intros [_ Ho]%validate_spec Hi. unfold field_prefix, bank_byte.
  rewrite lookup_app_r, length_magic by (rewrite length_magic; lia).
  rewrite lookup_app_r by (simpl; lia). cbn [length]. replace (i - 4 - 1)%nat with (i - 5)%nat by lia.
  destruct (bf_bank field !! (i - 5)%nat) as [x|] eqn:E; [by erewrite lookup_app_l_Some|].
  apply lookup_ge_None in E. rewrite lookup_app_r by done. rewrite lookup_replicate_2 by lia. done.
Qed.
Lemma fields_overlap_spec a b :
  fields_overlap a b = true <->
    bf_offset a = bf_offset b /\ magic_bytes (bf_magic a) = magic_bytes (bf_magic b) /\
    forall i, bank_byte (bf_bank a) i = bank_byte (bf_bank b) i.
Proof.
  unfold fields_overlap. rewrite !andb_true_iff, bool_decide_eq_true, bytes_equal_spec, forallb_seq. split.
  - intros [[Ho Hm] Hi]. split; [done|]. split; [done|]. intros i.
    destruct (decide (i < Nat.max (length (bf_bank a)) (length (bf_bank b)))%nat).
    + specialize (Hi i ltac:(lia)). by apply bool_decide_eq_true in Hi.
    + unfold bank_byte. rewrite !lookup_ge_None_2 by lia. done.
  - intros (? & ? & Hi). split; [done|]. intros. apply bool_decide_eq_true. apply Hi.
Qed.
Lemma fields_overlap_sym a b : fields_overlap a b = fields_overlap b a.
Proof.
  apply eq_bool_prop_intro. rewrite !Is_true_true, !fields_overlap_spec.
  split; intros (? & ? & Hi); (split; [done|]); (split; [done|]); intros; by rewrite Hi.
Qed.
Lemma field_frame_prefix field value :
  validate_field field = true -> take (Z.to_nat (bf_offset field)) (field_frame field value) = field_prefix field.
Proof.
  intros Hv. unfold field_frame. rewrite <- app_assoc, <- (length_field_prefix field Hv). apply take_app_length.
Qed.
Lemma field_prefix_magic field : take 4 (field_prefix field) = magic_bytes (bf_magic field).
Proof. unfold field_prefix. by rewrite <- (length_magic (bf_magic field)), take_app_length. Qed.
Lemma same_frame_overlaps f g v w :
  validate_field f = true -> validate_field g = true -> field_frame f v = field_frame g w ->
  fields_overlap f g = true.
Proof.
  intros Hf Hg E. pose proof (length_field_frame f v Hf) as Lf. pose proof (length_field_frame g w Hg) as Lg.
  rewrite E, Lg in Lf. assert (Ho : bf_offset f = bf_offset g) by lia.
  assert (Ep : field_prefix f = field_prefix g)
    by (rewrite <- (field_frame_prefix f v), <- (field_frame_prefix g w), E, Ho by done; done).
  apply fields_overlap_spec. split; [done|]. split; [by rewrite <- !field_prefix_magic, Ep|].
  intros i. apply validate_spec in Hf as Hf', Hg as Hg'.
  destruct (decide (i + 5 < Z.to_nat (bf_offset f))%nat).
  - pose proof (field_prefix_lookup f (i + 5) Hf ltac:(lia)) as E1.
    pose proof (field_prefix_lookup g (i + 5) Hg ltac:(lia)) as E2.
    replace (i + 5 - 5)%nat with i in * by lia. rewrite Ep, E2 in E1. by injection E1.
  - unfold bank_byte. rewrite !lookup_ge_None_2 by lia. done.
Qed.
Lemma frame_literal_overlaps f v bytes :
  validate_field f = true -> field_frame f v = bytes -> field_overlaps_literal f bytes = true.
Proof.
  intros Hf <-. pose proof (length_field_frame f v Hf) as Lf.
  pose proof (validate_spec f Hf) as [_ Ho].
  assert (Hat : forall i, (i < Z.to_nat (bf_offset f))%nat -> field_frame f v !! i = field_prefix f !! i).
  { intros i Hi. rewrite <- (field_frame_prefix f v Hf). by rewrite lookup_take_lt. }
  unfold field_overlaps_literal. rewrite !andb_true_iff, !forallb_seq, !bool_decide_eq_true.
  split_ands.
  - done.
  - intros i Hi. rewrite bool_decide_eq_true, Hat, <- (field_prefix_magic f), lookup_take_lt by lia. done.
  - rewrite Hat by lia. unfold field_prefix. by rewrite lookup_app_r, length_magic by (rewrite length_magic; lia).
  - intros i Hi. rewrite bool_decide_eq_true, Hat by lia. apply field_prefix_lookup; [done|lia].
Qed.
Lemma overlaps_sound a b v w :
  valid_layout a = true -> valid_layout b = true -> writes_of a v `prefix_of` writes_of b w ->
  overlaps a b = true /\ overlaps b a = true.
Proof.
  intros Ha Hb [more E]. symmetry in E.
  destruct a as [f|bytes|sel digits], b as [g|bytes'|sel' digits']; cbn [valid_layout writes_of app] in *.
  - injection E as E _. apply same_frame_overlaps in E as E1; [|done..].
    cbn [overlaps layout_fields_overlap]. by rewrite (fields_overlap_sym g f).
  - injection E as E _. split; by apply (frame_literal_overlaps f v).
  - injection E as E _. apply (f_equal length) in E. pose proof (length_field_frame f v Ha) as L.
    apply validate_spec in Ha. simpl in E. lia.
  - injection E as E _. symmetry in E. split; by apply (frame_literal_overlaps g w).
  - injection E as -> _. split; by apply bytes_equal_spec.
  - injection E as -> _. split; by apply bytes_equal_spec.
  - destruct (bool_decide (digits = 2)); discriminate E.
  - destruct (bool_decide (digits = 2)); discriminate E.
  - injection E as <- _. cbn [overlaps]. by rewrite bool_decide_true.
Qed.

(** *** What is sent *)

Lemma menu_step_eq delay byte :
  menu_step delay byte =
    Some {| delay_ms := delay; step_payload := one_byte byte; step_mode := WithoutResponse |}.
Proof. done. Qed.
Lemma menu_transmission s i sel digits v :
  layout s i = Some (DecimalMenu sel digits) ->
  transmission s i v = Some (if fits digits v then Some (writes_of (DecimalMenu sel digits) v) else None) /\
  (fits digits v = true -> exists st, schema_steps s i v = Some (Some st) /\
     delay_ms <$> st = 0 :: 100 :: replicate (if bool_decide (digits = 2) then 3 else 2) 200).
Proof.
  intros E. unfold transmission, payload, schema_steps. rewrite E. cbn [mbind option_bind].
  rewrite !menu_step_eq. cbn [mbind option_bind]. unfold fits.
  destruct ((bool_decide (digits = 1) && bool_decide (9 < v)) || bool_decide (99 < v)); [done|].
  cbn [writes_of]. destruct (bool_decide (digits = 2)); cbn [mbind option_bind app];
    (rewrite push_all_fits by (simpl; lia)); cbn [mbind option_bind negb]; split; eauto.
Qed.
Lemma field_transmission s i f v :
  layout s i = Some (Field f) -> validate_field f = true ->
  transmission s i v = Some (Some [field_frame f v]).
Proof.
  intros E Hf. destruct (field_payload_frame f v Hf) as (p & Ep & Es).
  unfold transmission, payload. rewrite E. cbn [mbind option_bind]. rewrite Ep. simpl. by rewrite Es.
Qed.
Lemma transmission_writes s i l v ws :
  layout s i = Some l -> valid_layout l = true -> transmission s i v = Some (Some ws) -> ws = writes_of l v.
Proof.
  intros E Hv Et. destruct l as [f|bytes|sel digits].
  - rewrite (field_transmission s i f v E Hv) in Et. by injection Et as <-.
  - unfold transmission, payload in Et. rewrite E in Et. cbn [mbind option_bind] in Et.
    destruct (request_payload bytes) as [p|] eqn:Ep; simpl in Et; [|done].
    apply request_payload_bytes in Ep. injection Et as <-. by rewrite Ep.
  - rewrite (proj1 (menu_transmission s i sel digits v E)) in Et. destruct (fits digits v); congruence.
Qed.
Lemma layout_valid s i l : checked s -> layout s i = Some l -> valid_layout l = true.
Proof.
  intros Hs%checked_apart El. rewrite layout_all in El.
  apply (proj1 (Forall_lookup _ _) (apart_valid _ Hs) i l El).
Qed.

(** The reference receivers: a device that checks the claimed length and the
    checksum of a frame, and one that follows the [W] menu. *)
Definition receive_field (frame : list Z) : option (list Z * Z) :=
  claimed ← frame !! 4%nat;
  let body := take (length frame - 4) frame in
  crc ← be_u32 frame (length frame - 4);
  if bool_decide (claimed = Z.of_nat (length frame)) && bool_decide (crc = crc32 body) then
    value ← body !! (length body - 1)%nat; Some (take (length body - 1) body, value)
  else None.
Definition receive_menu (writes : list (list Z)) : option (Z * Z) :=
  let digit b := b - byte_char "0"%char in
  match writes with
  | [[w]; [selector]; [units]; [leave]] =>
      if bool_decide (w = byte_char "W"%char) && bool_decide (leave = byte_char "b"%char)
      then Some (selector, digit units) else None
  | [[w]; [selector]; [tens]; [units]; [leave]] =>
      if bool_decide (w = byte_char "W"%char) && bool_decide (leave = byte_char "b"%char)
      then Some (selector, 10 * digit tens + digit units) else None
  | _ => None
  end.
Lemma receive_field_frame f v :
  (forall bytes, in_u u32_max (crc32 bytes)) -> validate_field f = true ->
  receive_field (field_frame f v) = Some (field_prefix f, v).
Proof.
  intros Hcrc Hf. pose proof (length_field_frame f v Hf) as L. pose proof (validate_spec f Hf) as [_ Ho].
  pose proof (length_field_prefix f Hf) as Lp.
  assert (E4 : field_frame f v !! 4%nat = Some (bf_offset f + 5)).
  { pose proof (frame_literal_overlaps f v _ Hf eq_refl) as E. unfold field_overlaps_literal in E. by prop_bools. }
  set (body := field_prefix f ++ [v]).
  assert (Lb : (length (field_frame f v) - 4)%nat = length body)
    by (unfold body; rewrite length_app; simpl; lia).
  assert (Ef : field_frame f v = body ++ be32_bytes (crc32 body)) by done.
  unfold receive_field. rewrite E4. cbn [mbind option_bind]. rewrite Lb, L.
  assert (Et : take (length body) (field_frame f v) = body) by (rewrite Ef; apply take_app_length).
  rewrite Et.
  replace (be_u32 (field_frame f v) (length body)) with (Some (crc32 body))
    by (rewrite Ef, <- (app_nil_r (be32_bytes _)); symmetry; by apply be_u32_write).
  cbn [mbind option_bind]. rewrite !bool_decide_true by done. cbn [andb].
  assert (Lb' : (length body - 1)%nat = length (field_prefix f)) by (unfold body; rewrite length_app; simpl; lia).
  rewrite Lb'. unfold body. rewrite list_lookup_middle by done. simpl. by rewrite take_app_length.
Qed.
Lemma fits_spec digits v : fits digits v = true <-> v <= 99 /\ (digits = 1 -> v <= 9).
Proof.
  unfold fits. rewrite negb_true_iff, orb_false_iff, andb_false_iff, !bool_decide_eq_false. lia.
Qed.
Lemma receive_menu_writes sel digits v :
  valid_layout (DecimalMenu sel digits) = true -> 0 <= v -> fits digits v = true ->
  receive_menu (writes_of (DecimalMenu sel digits) v) = Some (sel, v).
Proof.
  intros Hd Hv [Hf1 Hf2]%fits_spec. cbn [valid_layout] in Hd.
  pose proof (Z.div_mod v 10 ltac:(lia)). cbn [writes_of].
  apply orb_true_iff in Hd as [Hd|Hd]; apply bool_decide_eq_true in Hd; subst digits.
  - rewrite (bool_decide_false (1 = 2)) by lia. simpl. do 2 f_equal.
    specialize (Hf2 eq_refl). rewrite Z.mod_small by lia. lia.
  - rewrite bool_decide_true by done. simpl. do 2 f_equal. lia.
Qed.
End Transmission.

(** ** The tables of the protocols *)

Module BegodeWires.
Inductive BegodeWire :=
| LightOn | LightOff | LightStrobe | PedalHard | PedalMedium | PedalSoft | RollLow
| RollMedium | RollHigh | AlarmBoth | AlarmStageOne | MaxSpeed | BeeperVolume
| LedMode.
Definition BEGODE_LAYOUTS : list Layout :=
  [Literal (byte_string "Q"); Literal (byte_string "E"); Literal (byte_string "T");
   Literal (byte_string "h"); Literal (byte_string "f"); Literal (byte_string "s");
   Literal (byte_string ">"); Literal (byte_string "="); Literal (byte_string "<");
   Literal (byte_string "o"); Literal (byte_string "u"); DecimalMenu (byte_char "Y"%char) 2;
   DecimalMenu (byte_char "B"%char) 1; DecimalMenu (byte_char "M"%char) 1].
Definition begode_wire_index (self : BegodeWire) : nat :=
  match self with
  | LightOn => 0 | LightOff => 1 | LightStrobe => 2 | PedalHard => 3
  | PedalMedium => 4 | PedalSoft => 5 | RollLow => 6 | RollMedium => 7 | RollHigh => 8
  | AlarmBoth => 9 | AlarmStageOne => 10 | MaxSpeed => 11 | BeeperVolume => 12
  | LedMode => 13
  end%nat.
#[global] Instance begode_wire : WireCommand BegodeWire.
Proof.
  refine {| SCHEMA := schema None BEGODE_LAYOUTS; wire_index := begode_wire_index |}.
  apply (checked_new BEGODE_LAYOUTS). vm_compute. reflexivity.
Defined.
End BegodeWires.

Module VeteranWires.
Definition magic_of (second : ascii) : Magic :=
  (byte_char "L"%char, byte_char second, byte_char "A"%char, byte_char "p"%char).
Definition LkAp (bank : list Z) (offset : Z) : Layout :=
  Field {| bf_magic := magic_of "k"%char; bf_bank := bank; bf_offset := offset |}.
Definition LdAp (bank : list Z) (offset : Z) : Layout :=
  Field {| bf_magic := magic_of "d"%char; bf_bank := bank; bf_offset := offset |}.
Inductive VeteranWire :=
| PedalAngle | SpeedAlarm | LateralTilt | PedalHardness | TiltbackSpeed | PwmTiltback
| DisplayBrightness | GyroCalibration | TransportMode | DisplayUnits
| VoltageCorrection | LowBatteryMode | HighSpeedMode | BeeperVolume | DynamicAssist
| PedalDipCompensation | Horn | RidingPreset | AsciiHorn | AsciiResetTrip
| AsciiHeadlightOn | AsciiHeadlightOff | AsciiRidingSoft | AsciiRidingMedium
| AsciiRidingHard.
Definition VETERAN_LAYOUTS : list Layout :=
  [LkAp [1] 11; LkAp [1] 12; LkAp [1] 17; LdAp [1; 2] 10; LdAp [1; 2] 12; LdAp [1; 2] 13;
   LdAp [1; 2] 15; LdAp [1; 2] 16; LdAp [1; 2] 17; LdAp [1; 2] 18; LdAp [1; 2] 19;
   LdAp [1; 2] 20; LdAp [1; 2] 21; LdAp [1; 2] 23; LdAp [1; 2] 26; LdAp [1; 2] 28; LkAp [0] 9;
   LkAp [1] 7; Literal (byte_string "OLDCMDb"); Literal (byte_string "CLEARMETER");
   Literal (byte_string "SetLightON"); Literal (byte_string "SetLightOFF");
   Literal (byte_string "SETs"); Literal (byte_string "SETm"); Literal (byte_string "SETh")].
Definition veteran_wire_index (self : VeteranWire) : nat :=
  match self with
  | PedalAngle => 0 | SpeedAlarm => 1 | LateralTilt => 2 | PedalHardness => 3
  | TiltbackSpeed => 4 | PwmTiltback => 5 | DisplayBrightness => 6
  | GyroCalibration => 7 | TransportMode => 8 | DisplayUnits => 9
  | VoltageCorrection => 10 | LowBatteryMode => 11 | HighSpeedMode => 12
  | BeeperVolume => 13 | DynamicAssist => 14 | PedalDipCompensation => 15 | Horn => 16
  | RidingPreset => 17 | AsciiHorn => 18 | AsciiResetTrip => 19
  | AsciiHeadlightOn => 20 | AsciiHeadlightOff => 21 | AsciiRidingSoft => 22
  | AsciiRidingMedium => 23 | AsciiRidingHard => 24
  end%nat.
#[global] Instance veteran_wire : WireCommand VeteranWire.
Proof.
  refine {| SCHEMA := schema None VETERAN_LAYOUTS; wire_index := veteran_wire_index |}.
  apply (checked_new VETERAN_LAYOUTS). vm_compute. reflexivity.
Defined.
End VeteranWires.

(** The dialect of NOSFET extends the schema of Veteran; the one of the Falcon
    is the schema of Begode. *)
Module NosfetWires.
Import VeteranWires.
Inductive NosfetWire := BrakeOverpressureAlarm.
Definition NOSFET_LAYOUTS : list Layout := [LdAp [1; 2] 25].
Definition nosfet_wire_index (self : NosfetWire) : nat :=
  schema_len (SCHEMA (W := VeteranWire)) + match self with BrakeOverpressureAlarm => 0 end.
#[global] Instance nosfet_wire : WireCommand NosfetWire.
Proof.
  refine {| SCHEMA := schema (Some (SCHEMA (W := VeteranWire))) NOSFET_LAYOUTS;
            wire_index := nosfet_wire_index |}.
  apply (checked_extend (SCHEMA (W := VeteranWire)) NOSFET_LAYOUTS); [apply wire_checked|].
  vm_compute. reflexivity.
Defined.
End NosfetWires.
Export BegodeWires(BegodeWire) VeteranWires(VeteranWire) NosfetWires(NosfetWire).

(** ** No destination is taken for another *)

(** In a schema that compiles, the writes of one destination are never an
    initial part of the writes of another, whatever the two values: a frame
    never has the bytes of another field or of a literal, two menus never share
    a selector, and no single write opens a menu. *)
Theorem destinations_prefix_free (crc32 : list Z -> Z) (s : Schema) (i j : nat) (v w : Z)
    (bs cs : list (list Z)) :
  checked s -> i <> j ->
  transmission crc32 s i v = Some (Some bs) -> transmission crc32 s j w = Some (Some cs) ->
  ~ bs `prefix_of` cs.
Proof.
  intros Hs Hij Ei Ej Hp.
  destruct (layout s i) as [a|] eqn:La; [|by unfold transmission, payload in Ei; rewrite La in Ei].
  destruct (layout s j) as [b|] eqn:Lb; [|by unfold transmission, payload in Ej; rewrite Lb in Ej].
  pose proof (layout_valid s i a Hs La) as Va. pose proof (layout_valid s j b Hs Lb) as Vb.
  rewrite (transmission_writes crc32 s i a v bs La Va Ei), (transmission_writes crc32 s j b w cs Lb Vb Ej) in Hp.
  destruct (overlaps_sound crc32 a b v w Va Vb Hp) as [O1 O2].
  apply checked_apart in Hs. rewrite layout_all in La, Lb.
  destruct (Nat.lt_total i j) as [Hlt|[Heq|Hlt]]; [|done|].
  - rewrite (apart_pair _ Hs j i b a Hlt Lb La) in O2. done.
  - rewrite (apart_pair _ Hs i j a b Hlt La Lb) in O1. done.
Qed.

(** What is sent for a destination of a schema that compiles is what a
    device reads back.  A field becomes one frame whose claimed length and
    checksum hold and whose last data byte is the value, behind the bytes that
    name the field; a menu becomes the digits of the value between [W], the
    selector and [b], with the delays of the menu, and is refused exactly when
    the value has too many digits; a literal is sent as it stands. *)
Theorem destination_received (crc32 : list Z -> Z) (s : Schema) (i : nat) (l : Layout) (v : Z) :
  checked s -> layout s i = Some l -> is_byte v -> (forall bytes, in_u u32_max (crc32 bytes)) ->
  match l with
  | Field f => exists frame, transmission crc32 s i v = Some (Some [frame]) /\
      length frame = (Z.to_nat (bf_offset f) + 5)%nat /\ receive_field crc32 frame = Some (field_prefix f, v)
  | Literal bytes =>
      (length bytes <= 512)%nat -> transmission crc32 s i v = Some (Some [bytes])
  | DecimalMenu selector digits =>
      if bool_decide (v < 10 ^ digits) then
        exists sent st, transmission crc32 s i v = Some (Some sent) /\ receive_menu sent = Some (selector, v) /\
          schema_steps s i v = Some (Some st) /\
          delay_ms <$> st = 0 :: 100 :: replicate (Z.to_nat digits + 1) 200
      else transmission crc32 s i v = Some None
  end.
Proof.
  intros Hs El Hv Hcrc. pose proof (layout_valid s i l Hs El) as Vl. destruct l as [f|bytes|sel digits].
  - exists (field_frame crc32 f v). split; [by apply field_transmission|].
    pose proof (length_field_frame crc32 f v Vl). pose proof (validate_spec f Vl) as [_ ?].
    split; [lia|by apply receive_field_frame].
  - intros Hl. destruct (request_payload_fits bytes Hl) as (p & Ep & Es).
    unfold transmission, payload. rewrite El. cbn [mbind option_bind]. rewrite Ep. simpl. by rewrite Es.
  - destruct (menu_transmission crc32 s i sel digits v El) as [Et Est]. unfold is_byte in Hv.
    assert (Hd : digits = 1 \/ digits = 2).
    { cbn [valid_layout] in Vl. apply orb_true_iff in Vl as [Vl|Vl]; apply bool_decide_eq_true in Vl; auto. }
    assert (Hf : bool_decide (v < 10 ^ digits) = fits digits v).
    { apply eq_bool_prop_intro. rewrite !Is_true_true, bool_decide_eq_true, fits_spec.
      destruct Hd as [-> | ->]; lia. }
    rewrite Hf. destruct (fits digits v) eqn:Ef; [|done]. destruct (Est eq_refl) as (st & Es & Ed).
    exists (writes_of crc32 (DecimalMenu sel digits) v), st.
    split; [done|]. split; [apply receive_menu_writes; [done|lia|done]|]. split; [done|].
    rewrite Ed. by destruct Hd as [-> | ->].
Qed.

Definition sample_crc (bytes : list Z) : Z := Z.of_nat (length bytes).
Lemma destinations_prefix_free_witness :
  ~ [byte_string "E"] `prefix_of` [byte_string "Q"].
Proof.
  apply (destinations_prefix_free sample_crc (SCHEMA (W := BegodeWire)) 1 0 7 9); [apply wire_checked|lia|done|done].
Defined.
Definition sample_crc_u32 (bytes : list Z) : Z := Z.of_nat (length bytes) mod 4294967296.
Lemma destination_received_witness :
  exists frame, transmission sample_crc_u32 (SCHEMA (W := NosfetWire)) 25 0x5a = Some (Some [frame]) /\
    length frame = 30%nat /\
    receive_field sample_crc_u32 frame =
      Some (byte_string "LdAp" ++ 30 :: 1 :: 2 :: replicate 18 0x80, 0x5a).
Proof.
  apply (destination_received sample_crc_u32 (SCHEMA (W := NosfetWire)) 25 (VeteranWires.LdAp [1; 2] 25) 0x5a).
  - apply wire_checked.
  - reflexivity.
  - unfold is_byte. lia.
  - intros bytes. unfold in_u, u32_max, sample_crc_u32.
    pose proof (Z.mod_pos_bound (Z.of_nat (length bytes)) 4294967296 ltac:(lia)). lia.
Defined.
