(* ===== verification/ControlEncoding.v ===== *)
(** * From commands to destinations

    [cutout-protocols/src/settings_wire.rs] and [request_encoder.rs]: the
    bounded values of settings, the two dialects that turn a command into a
    destination and a value, and the encoders of read requests
    ([probe.rs]).  A bounded newtype is the [Z] that its [new] accepted.  The
    class [Dialect] is the trait, with what a dialect owes its sessions as
    laws: each selection can be sent, and its destination and value tell which
    command it was.  The models of [session.rs] built on them are at the end. *)

From Stdlib Require Import Ascii.
From S2P Require Import Prelude.
From S2P Require Import Parser.
From S2P Require Import Quantities.
From S2P Require Import RequestQueue.
From S2P Require Import VehicleIdentity.
From S2P Require Import Commands.
From S2P Require Import SessionIO.
From S2P Require Import SessionState.
From S2P Require Import Sessions.
From S2P Require Import ControlWire.
Import SettingIds (SettingId).

(** ** Bounded settings *)

(** [TryFrom] between integer types, and [as i8 as u8] through [to_ne_bytes]. *)
Definition u8_try_from (z : Z) : option Z := if bool_decide (in_u u8_max z) then Some z else None.
Definition i8_try_from (z : Z) : option Z := if bool_decide (in_i i8_min i8_max z) then Some z else None.
Definition byte_of_i8 (z : Z) : Z := z mod 256.
(** A match on an inclusive range. *)
Definition bounded (minimum maximum value : Z) : option Z :=
  if bool_decide (minimum <= value <= maximum) then Some value else None.

Definition VeteranSpeedSetting_new (kilometres_per_hour : Z) : option Z := bounded 10 200 kilometres_per_hour.
Definition VeteranBrakeOverpressureAlarm_new (percent : Z) : option Z := bounded 90 125 percent.
Definition VeteranPwmPercent_new (percent : Z) : option Z := bounded 0 70 percent.
Definition from_duty_percent (duty : Z) : option Z := margin ← checked_sub 100 duty; VeteranPwmPercent_new margin.
Definition duty_percent (margin : Z) : Z := 100 - margin.
Definition VeteranPedalHardness_new (percent : Z) : option Z := bounded 0 100 percent.
Definition VeteranDisplayBacklight_new (percent : Z) : option Z := bounded 0 100 percent.
Definition VeteranBeeperVolume_new (percent : Z) : option Z := bounded 0 100 percent.
Definition VeteranDynamicAssist_new (percent : Z) : option Z := bounded 0 100 percent.
Definition VeteranPedalDipCompensation_new (percent : Z) : option Z := bounded 0 100 percent.
Definition VeteranLateralTiltLimit_new (degrees : Z) : option Z := bounded 35 75 degrees.
Definition VeteranVoltageCorrection_new (tenths : Z) : option Z := bounded (-15) 15 tenths.
Definition VeteranAngleAdjustment_new (tenths : Z) : option Z :=
  if bool_decide (tenths < -80) || bool_decide (80 < tenths) then None else Some tenths.
Definition BegodeMaxSpeed_new (kilometres_per_hour : Z) : option Z := bounded 0 99 kilometres_per_hour.
Definition BegodeBeeperVolume_new (level : Z) : option Z := bounded 1 9 level.
Definition BegodeLedModeSetting_new (mode : Z) : option Z := bounded 0 9 mode.

Inductive VeteranRidingMode := RidingHard | RidingMedium | RidingSoft.
Definition riding_mode_from_wire (value : Z) : option VeteranRidingMode :=
  match value with 1 => Some RidingSoft | 2 => Some RidingMedium | 3 => Some RidingHard | _ => None end.
Definition riding_mode_wire_value (self : VeteranRidingMode) : Z :=
  match self with RidingHard => 3 | RidingMedium => 2 | RidingSoft => 1 end.
Inductive VeteranWheelUnits := Metric | Imperial.
Definition from_display_mode (value : Z) : option VeteranWheelUnits :=
  match value with 0 => Some Metric | 1 => Some Imperial | _ => None end.
Definition display_mode (self : VeteranWheelUnits) : Z := match self with Metric => 0 | Imperial => 1 end.
Inductive VeteranGyroCalibrationState := GyroIdle | GyroWaiting | GyroComplete.
Definition gyro_from_wire (value : Z) : option VeteranGyroCalibrationState :=
  match value with 0 => Some GyroIdle | 1 => Some GyroWaiting | 2 => Some GyroComplete | _ => None end.
Definition gyro_wire_value (self : VeteranGyroCalibrationState) : Z :=
  match self with GyroIdle => 0 | GyroWaiting => 1 | GyroComplete => 2 end.
Inductive VeteranPwmSetting := PwmOff | PwmMargin (margin : Z).

(** ** The NOSFET dialect *)

Inductive NosfetCommand :=
| NDisplayBacklight (percent : Z) | NBeeperVolume (percent : Z) | NDynamicAssist (percent : Z)
| NPedalDipCompensation (percent : Z) | NLateralTiltLimit (degrees : Z) | NVoltageCorrection (tenths : Z)
| NTiltbackSpeed (kmh : Z) | NPwmPercent (setting : VeteranPwmSetting) | NGyroCalibration
| NBrakeOverpressureAlarm (percent : Z) | NPedalHardness (percent : Z) | NWheelUnits (units : VeteranWheelUnits)
| NHighSpeedMode (enabled : bool) | NLowBatteryMode (enabled : bool) | NTransportMode (enabled : bool)
| NAlarmSpeed (kmh : Z) | NAngleAdjustment (tenths : Z) | NRidingMode (mode : VeteranRidingMode).

Definition exact_deci_kmh (value : Z) : option Z :=
  if bool_decide (0 <= value) && bool_decide (Z.rem value 10 = 0) then u8_try_from (Z.quot value 10) else None.
(** [Constructor(new(number(value)?)?)]. *)
Definition with_number (new : Z -> option Z) (make : Z -> NosfetCommand) (value : Z) : option NosfetCommand :=
  n ← u8_try_from value; v ← new n; Some (make v).
Definition nosfet_command (command : DeviceCommand) : option NosfetCommand :=
  match command with
  | CmdInvokeAction request =>
      if bool_decide (action_id request = ActionGyroCalibration) then
        match action_step request with
        | Invoke | PrepareGyroCalibration | StartGyroCalibration => Some NGyroCalibration
        end
      else None
  | CmdSetSetting id value =>
      match id, value with
      | SettingIds.DisplayBrightness, ValueNumber n => with_number VeteranDisplayBacklight_new NDisplayBacklight n
      | SettingIds.BeeperVolumePercent, ValueNumber n => with_number VeteranBeeperVolume_new NBeeperVolume n
      | SettingIds.DynamicAssist, ValueNumber n => with_number VeteranDynamicAssist_new NDynamicAssist n
      | SettingIds.PedalDipCompensation, ValueNumber n =>
          with_number VeteranPedalDipCompensation_new NPedalDipCompensation n
      | SettingIds.LateralTiltLimit, ValueNumber n => with_number VeteranLateralTiltLimit_new NLateralTiltLimit n
      | SettingIds.VoltageCorrection, ValueNumber n =>
          t ← i8_try_from n; v ← VeteranVoltageCorrection_new t; Some (NVoltageCorrection v)
      | SettingIds.TiltbackSpeed, ValueNumber n =>
          k ← exact_deci_kmh n; v ← VeteranSpeedSetting_new k; Some (NTiltbackSpeed v)
      | SettingIds.PwmTiltback, ValueNumber n =>
          d ← u8_try_from n; m ← checked_sub 100 d; v ← VeteranPwmPercent_new m; Some (NPwmPercent (PwmMargin v))
      | SettingIds.PwmTiltback, ValueDisabled => Some (NPwmPercent PwmOff)
      | SettingIds.BrakeOverpressureAlarm, ValueNumber n =>
          with_number VeteranBrakeOverpressureAlarm_new NBrakeOverpressureAlarm n
      | SettingIds.PedalHardness, ValueNumber n => with_number VeteranPedalHardness_new NPedalHardness n
      | SettingIds.DisplayUnits, ValueChoice 0 => Some (NWheelUnits Metric)
      | SettingIds.DisplayUnits, ValueChoice 1 => Some (NWheelUnits Imperial)
      | SettingIds.HighSpeedMode, ValueBoolean b => Some (NHighSpeedMode b)
      | SettingIds.LowBatteryMode, ValueBoolean b => Some (NLowBatteryMode b)
      | SettingIds.TransportMode, ValueBoolean b => Some (NTransportMode b)
      | SettingIds.SpeedAlarmThreshold, ValueNumber n =>
          k ← exact_deci_kmh n; v ← VeteranSpeedSetting_new k; Some (NAlarmSpeed v)
      | SettingIds.PedalAngle, ValueNumber n =>
          t ← i8_try_from n; v ← VeteranAngleAdjustment_new t; Some (NAngleAdjustment v)
      | SettingIds.RidingPreset, ValueChoice 0 => Some (NRidingMode RidingHard)
      | SettingIds.RidingPreset, ValueChoice 1 => Some (NRidingMode RidingMedium)
      | SettingIds.RidingPreset, ValueChoice 2 => Some (NRidingMode RidingSoft)
      | _, _ => None
      end
  | _ => None
  end.

Definition veteran_select (wire : VeteranWire) (value : Z) : Selection := wire_select wire value.
Definition veteran_riding_mode_payload (value : Z) (mode : VeteranCommandMode) : option Selection :=
  ascii ← match value with
          | 1 => Some VeteranWires.AsciiRidingSoft
          | 2 => Some VeteranWires.AsciiRidingMedium
          | 3 => Some VeteranWires.AsciiRidingHard
          | _ => None
          end;
  Some (match mode with
        | Ascii => veteran_select ascii value
        | Binary => veteran_select VeteranWires.RidingPreset value
        end).
Definition horn_selection (mode : VeteranCommandMode) : Selection :=
  match mode with
  | Ascii => veteran_select VeteranWires.AsciiHorn 1
  | Binary => veteran_select VeteranWires.Horn 1
  end.
Definition veteran_mode_control_payload (command : DeviceCommand) (mode : VeteranCommandMode) : option Selection :=
  match command with
  | CmdSoundHorn => Some (horn_selection mode)
  | CmdInvokeAction {| action_id := Horn; action_step := Invoke |} => Some (horn_selection mode)
  | CmdInvokeAction {| action_id := ActionResetTripMeter; action_step := Invoke |} =>
      Some (veteran_select VeteranWires.AsciiResetTrip 1)
  | CmdSetSetting SettingIds.HighBeam (ValueBoolean enabled) =>
      Some (if enabled : bool then veteran_select VeteranWires.AsciiHeadlightOn 1
            else veteran_select VeteranWires.AsciiHeadlightOff 0)
  | CmdSetSetting SettingIds.RidingPreset (ValueChoice value) =>
      wire ← match value with 0 => Some 3 | 1 => Some 2 | 2 => Some 1 | _ => None end;
      veteran_riding_mode_payload wire mode
  | _ => None
  end.

Definition select_in_mode (command : DeviceCommand) (mode : VeteranCommandMode) : option Selection :=
  match veteran_mode_control_payload command mode with
  | Some selection => Some selection
  | None =>
      n ← nosfet_command command;
      match n with
      | NDisplayBacklight v => Some (veteran_select VeteranWires.DisplayBrightness v)
      | NBeeperVolume v => Some (veteran_select VeteranWires.BeeperVolume v)
      | NDynamicAssist v => Some (veteran_select VeteranWires.DynamicAssist v)
      | NPedalDipCompensation v => Some (veteran_select VeteranWires.PedalDipCompensation v)
      | NLateralTiltLimit v => Some (veteran_select VeteranWires.LateralTilt v)
      | NVoltageCorrection v => Some (veteran_select VeteranWires.VoltageCorrection (byte_of_i8 v))
      | NTiltbackSpeed v => Some (veteran_select VeteranWires.TiltbackSpeed v)
      | NPwmPercent PwmOff => Some (veteran_select VeteranWires.PwmTiltback 200)
      | NPwmPercent (PwmMargin margin) => Some (veteran_select VeteranWires.PwmTiltback (100 - margin))
      | NGyroCalibration => Some (veteran_select VeteranWires.GyroCalibration 1)
      | NBrakeOverpressureAlarm v => Some (wire_select NosfetWires.BrakeOverpressureAlarm v)
      | NPedalHardness v => Some (veteran_select VeteranWires.PedalHardness v)
      | NWheelUnits units => Some (veteran_select VeteranWires.DisplayUnits (display_mode units))
      | NHighSpeedMode b => Some (veteran_select VeteranWires.HighSpeedMode (Z.b2z b))
      | NLowBatteryMode b => Some (veteran_select VeteranWires.LowBatteryMode (Z.b2z b))
      | NTransportMode b => Some (veteran_select VeteranWires.TransportMode (Z.b2z b))
      | NAlarmSpeed v => Some (veteran_select VeteranWires.SpeedAlarm v)
      | NAngleAdjustment v => Some (veteran_select VeteranWires.PedalAngle (byte_of_i8 v))
      | NRidingMode m => veteran_riding_mode_payload (riding_mode_wire_value m) mode
      end
  end.
Definition nosfet_select (command : DeviceCommand) (context : ControlEncodingContext) : option Selection :=
  select_in_mode command match context with ContextVeteran mode => mode | ContextDefault => Binary end.

(** ** The Falcon dialect *)

Inductive PedalMode := PedalHard | PedalMedium | PedalSoft.
Inductive RollAngle := RollLow | RollMedium | RollHigh.
Inductive SpeedAlarmMode := AlarmBoth | AlarmStageOneOnly | AlarmOff | AlarmPwmTiltback.
Inductive BegodeWireCommand :=
| Lights (state : LightState) | BPedalMode (mode : PedalMode) | BRollAngle (angle : RollAngle)
| BSpeedAlarmMode (mode : SpeedAlarmMode) | BMaxSpeed (kmh : Z) | BBeeperVolume (level : Z) | BLedMode (mode : Z).
Definition begode_wire_command (command : DeviceCommand) : option BegodeWireCommand :=
  match command with
  | CmdSetLights state => Some (Lights state)
  | CmdSetSetting id value =>
      match id, value with
      | SettingIds.Headlight, ValueBoolean true => Some (Lights LightOn)
      | SettingIds.Headlight, ValueBoolean false => Some (Lights LightOff)
      | SettingIds.PedalMode, ValueChoice 0 => Some (BPedalMode PedalHard)
      | SettingIds.PedalMode, ValueChoice 1 => Some (BPedalMode PedalMedium)
      | SettingIds.PedalMode, ValueChoice 2 => Some (BPedalMode PedalSoft)
      | SettingIds.RollAngleMode, ValueChoice 0 => Some (BRollAngle RollLow)
      | SettingIds.RollAngleMode, ValueChoice 1 => Some (BRollAngle RollMedium)
      | SettingIds.RollAngleMode, ValueChoice 2 => Some (BRollAngle RollHigh)
      | SettingIds.SpeedAlarmMode, ValueChoice 0 => Some (BSpeedAlarmMode AlarmBoth)
      | SettingIds.SpeedAlarmMode, ValueChoice 1 => Some (BSpeedAlarmMode AlarmStageOneOnly)
      | SettingIds.MaximumSpeed, ValueNumber n => k ← exact_deci_kmh n; v ← BegodeMaxSpeed_new k; Some (BMaxSpeed v)
      | SettingIds.BeeperVolumeLevel, ValueNumber n =>
          b ← u8_try_from n; v ← BegodeBeeperVolume_new b; Some (BBeeperVolume v)
      | SettingIds.LightingPattern, ValueChoice c =>
          b ← u8_try_from c; v ← BegodeLedModeSetting_new b; Some (BLedMode v)
      | _, _ => None
      end
  | _ => None
  end.
Definition falcon_select (command : DeviceCommand) : option Selection :=
  wire ← begode_wire_command command;
  let at_ (wire : BegodeWire) value := Some (wire_select wire value) in
  match wire with
  | Lights LightOn => at_ BegodeWires.LightOn 0
  | Lights LightOff => at_ BegodeWires.LightOff 0
  | Lights Strobe => at_ BegodeWires.LightStrobe 0
  | BPedalMode PedalHard => at_ BegodeWires.PedalHard 0
  | BPedalMode PedalMedium => at_ BegodeWires.PedalMedium 0
  | BPedalMode PedalSoft => at_ BegodeWires.PedalSoft 0
  | BRollAngle RollLow => at_ BegodeWires.RollLow 0
  | BRollAngle RollMedium => at_ BegodeWires.RollMedium 0
  | BRollAngle RollHigh => at_ BegodeWires.RollHigh 0
  | BSpeedAlarmMode AlarmBoth => at_ BegodeWires.AlarmBoth 0
  | BSpeedAlarmMode AlarmStageOneOnly => at_ BegodeWires.AlarmStageOne 0
  | BMaxSpeed v => at_ BegodeWires.MaxSpeed v
  | BBeeperVolume v => at_ BegodeWires.BeeperVolume v
  | BLedMode v => at_ BegodeWires.LedMode v
  | BSpeedAlarmMode AlarmOff | BSpeedAlarmMode AlarmPwmTiltback => None
  end.

(** ** Read requests *)

Inductive AeroProbe :=
| AeroIdentity | AeroFirmwareInfo | AeroTelemetry | AeroBatteryInfo | AeroFaultHistory | AeroSettings.
Definition aero_from_command_kind (kind : CommandKind) : option AeroProbe :=
  match kind with
  | RequestIdentity => Some AeroIdentity
  | RequestFirmwareInfo => Some AeroFirmwareInfo
  | RequestTelemetry => Some AeroTelemetry
  | RequestBatteryInfo => Some AeroBatteryInfo
  | RequestFaultHistory => Some AeroFaultHistory
  | RequestSettings => Some AeroSettings
  | _ => None
  end.
Definition aero_command_kind (self : AeroProbe) : CommandKind :=
  match self with
  | AeroIdentity => RequestIdentity
  | AeroFirmwareInfo => RequestFirmwareInfo
  | AeroTelemetry => RequestTelemetry
  | AeroBatteryInfo => RequestBatteryInfo
  | AeroFaultHistory => RequestFaultHistory
  | AeroSettings => RequestSettings
  end.
Inductive FalconProbe := FalconIdentity | FalconFirmwareInfo | FalconTelemetry | FalconBatteryInfo.
Definition falcon_from_command_kind (kind : CommandKind) : option FalconProbe :=
  match kind with
  | RequestIdentity => Some FalconIdentity
  | RequestFirmwareInfo => Some FalconFirmwareInfo
  | RequestTelemetry => Some FalconTelemetry
  | RequestBatteryInfo => Some FalconBatteryInfo
  | _ => None
  end.
Definition falcon_command_kind (self : FalconProbe) : CommandKind :=
  match self with
  | FalconIdentity => RequestIdentity
  | FalconFirmwareInfo => RequestFirmwareInfo
  | FalconTelemetry => RequestTelemetry
  | FalconBatteryInfo => RequestBatteryInfo
  end.
(** The disposition keeps the command; the probe is its name in the family. *)
Definition aero_encode (probe : AeroProbe) : RequestDisposition := RequestPassive (aero_command_kind probe).
Definition aero_encode_command (kind : CommandKind) : option RequestDisposition :=
  probe ← aero_from_command_kind kind; Some (aero_encode probe).
Definition falcon_encode (probe : FalconProbe) : option RequestDisposition :=
  match probe with
  | FalconIdentity =>
      bytes ← request_payload (byte_string "N"); Some (RequestWrite {| er_payload := bytes; er_mode := WithoutResponse |})
  | FalconFirmwareInfo =>
      bytes ← request_payload (byte_string "V"); Some (RequestWrite {| er_payload := bytes; er_mode := WithoutResponse |})
  | FalconTelemetry | FalconBatteryInfo => Some (RequestPassive (falcon_command_kind probe))
  end.
Definition falcon_encode_command (kind : CommandKind) : option RequestDisposition :=
  probe ← falcon_from_command_kind kind; falcon_encode probe.
Record EncodedIdentificationProbe := { ip_probe : PendingProbe; ip_payload : WritePayload; ip_mode : WriteMode }.
Definition begode_identification_probes : option (list EncodedIdentificationProbe) :=
  mapM (fun '(probe, payload) =>
    bytes ← request_payload payload; Some {| ip_probe := probe; ip_payload := bytes; ip_mode := WithoutResponse |})
    [(BegodeName, byte_string "N"); (BegodeFirmware, byte_string "V"); (BegodeImu, byte_string "M")].

(** ** The models *)

(** The FFE1 characteristic. *)
Definition SHARED_FFE1_DATA_CHANNEL : GattChannel := 0x0000ffe100001000800000805f9b34fb.
Definition VETERAN_DATA_CHANNEL : GattChannel := SHARED_FFE1_DATA_CHANNEL.
Definition BEGODE_DATA_CHANNEL : GattChannel := SHARED_FFE1_DATA_CHANNEL.
Section Models.
Variable crc32 : list Z -> Z.
(** A panic never happens for the selections of a dialect
    ([commands_told_apart]); here it is folded into the absent answer. *)
Definition NosfetAeroModel : ModelSpec Selection := {|
  MODEL := "NOSFET Aero"; PROTOCOL := VeteranLeaperkimNosfet;
  READ_CAPABILITIES := from_supported_commands
    [RequestIdentity; RequestFirmwareInfo; RequestTelemetry; RequestBatteryInfo; RequestSettings];
  CONTROL_CAPABILITIES := from_supported_commands [SoundHorn; ResetTripMeter];
  WRITE_CAPABILITIES := from_supported_commands [SetSetting; ResetTripMeter; GyroCalibration];
  MAX_SETTINGS_SPEED := Some CONNECTED_WHEEL_MOVEMENT_THRESHOLD;
  WRITE_CHANNEL := VETERAN_DATA_CHANNEL; SUBSCRIBE_CHANNEL := VETERAN_DATA_CHANNEL;
  encode_read_command := aero_encode_command;
  select := nosfet_select;
  single s command := mjoin (selection_single crc32 s command);
  sequence s command := mjoin (selection_sequence s command);
|}.
Definition BegodeFalconModel : ModelSpec Selection := {|
  MODEL := "Falcon"; PROTOCOL := BegodeGotway;
  READ_CAPABILITIES := from_supported_commands
    [RequestIdentity; RequestFirmwareInfo; RequestTelemetry; RequestBatteryInfo];
  CONTROL_CAPABILITIES := from_supported_commands [SetLights];
  WRITE_CAPABILITIES := from_supported_commands [SetSetting];
  MAX_SETTINGS_SPEED := None;
  WRITE_CHANNEL := BEGODE_DATA_CHANNEL; SUBSCRIBE_CHANNEL := BEGODE_DATA_CHANNEL;
  encode_read_command := falcon_encode_command;
  select command _ := falcon_select command;
  single s command := mjoin (selection_single crc32 s command);
  sequence s command := mjoin (selection_sequence s command);
|}.
(** [NosfetDialect::encode], [encode_settings_sequence] and Falcon's. *)
Definition encode_in_mode (command : DeviceCommand) (mode : VeteranCommandMode) : option EncodedControl :=
  s ← select_in_mode command mode; single NosfetAeroModel s command.
Definition nosfet_encode (command : DeviceCommand) : option EncodedControl := encode_in_mode command Binary.
Definition nosfet_encode_settings_sequence (command : DeviceCommand) : option EncodedControlSequence :=
  s ← select_in_mode command Binary; sequence NosfetAeroModel s command.
Definition falcon_encode_control (command : DeviceCommand) : option EncodedControl :=
  s ← falcon_select command; single BegodeFalconModel s command.
Definition falcon_encode_settings_sequence (command : DeviceCommand) : option EncodedControlSequence :=
  s ← falcon_select command; sequence BegodeFalconModel s command.
End Models.

(** ** What a dialect owes *)

(** Commands that are one request under two names. *)
Definition canonical (command : DeviceCommand) : DeviceCommand :=
  match command with
  | CmdSoundHorn => CmdInvokeAction {| action_id := Horn; action_step := Invoke |}
  | CmdInvokeAction {| action_id := ActionGyroCalibration |} =>
      CmdInvokeAction {| action_id := ActionGyroCalibration; action_step := Invoke |}
  | CmdSetSetting SettingIds.Headlight (ValueBoolean true) => CmdSetLights LightOn
  | CmdSetSetting SettingIds.Headlight (ValueBoolean false) => CmdSetLights LightOff
  | _ => command
  end.
Definition sendable (l : Layout) (value : Z) : bool :=
  bool_decide (is_byte value) &&
  match l with
  | Field _ => true
  | Literal bytes => bool_decide (length bytes <= 512)%nat
  | DecimalMenu _ digits => fits digits value
  end.
(** The trait [Dialect]: its selection, over one schema that compiles, and how
    to tell the command from a destination and a value. *)
Class Dialect (K : Type) := {
  dialect_select : DeviceCommand -> ControlEncodingContext -> option Selection;
  dialect_schema : Schema;
  dialect_meaning : nat -> Z -> option DeviceCommand;
  dialect_checked : checked dialect_schema;
  dialect_sends command context selection :
    dialect_select command context = Some selection ->
    exists l, layout (sel_schema selection) (sel_index selection) = Some l /\
      layout dialect_schema (sel_index selection) = Some l /\ valid_layout l = true /\
      sendable l (sel_value selection) = true;
  dialect_tells command context selection :
    dialect_select command context = Some selection ->
    dialect_meaning (sel_index selection) (sel_value selection) = Some (canonical command);
  dialect_literal index bytes v w :
    layout dialect_schema index = Some (Literal bytes) -> dialect_meaning index v = dialect_meaning index w;
}.

Definition number_setting (id : SettingId) (n : Z) : option DeviceCommand := Some (CmdSetSetting id (ValueNumber n)).
Definition choice_setting (id : SettingId) (c : Z) : option DeviceCommand := Some (CmdSetSetting id (ValueChoice c)).
Definition boolean_setting (id : SettingId) (b : Z) : option DeviceCommand :=
  Some (CmdSetSetting id (ValueBoolean (bool_decide (b <> 0)))).
Definition action (id : DeviceActionId) : option DeviceCommand :=
  Some (CmdInvokeAction {| action_id := id; action_step := Invoke |}).
(** The meaning of a destination of NOSFET: [index] in the order of its schema. *)
Definition nosfet_meaning (index : nat) (v : Z) : option DeviceCommand :=
  match index with
  | 0%nat => number_setting SettingIds.PedalAngle (to_signed 256 v)
  | 1%nat => number_setting SettingIds.SpeedAlarmThreshold (10 * v)
  | 2%nat => number_setting SettingIds.LateralTiltLimit v
  | 3%nat => number_setting SettingIds.PedalHardness v
  | 4%nat => number_setting SettingIds.TiltbackSpeed (10 * v)
  | 5%nat => if bool_decide (v = 200) then Some (CmdSetSetting SettingIds.PwmTiltback ValueDisabled)
         else number_setting SettingIds.PwmTiltback v
  | 6%nat => number_setting SettingIds.DisplayBrightness v
  | 7%nat => action ActionGyroCalibration
  | 8%nat => boolean_setting SettingIds.TransportMode v
  | 9%nat => choice_setting SettingIds.DisplayUnits v
  | 10%nat => number_setting SettingIds.VoltageCorrection (to_signed 256 v)
  | 11%nat => boolean_setting SettingIds.LowBatteryMode v
  | 12%nat => boolean_setting SettingIds.HighSpeedMode v
  | 13%nat => number_setting SettingIds.BeeperVolumePercent v
  | 14%nat => number_setting SettingIds.DynamicAssist v
  | 15%nat => number_setting SettingIds.PedalDipCompensation v
  | 16%nat | 18%nat => action Horn
  | 17%nat => choice_setting SettingIds.RidingPreset (3 - v)
  | 19%nat => action ActionResetTripMeter
  | 20%nat => Some (CmdSetSetting SettingIds.HighBeam (ValueBoolean true))
  | 21%nat => Some (CmdSetSetting SettingIds.HighBeam (ValueBoolean false))
  | 22%nat => choice_setting SettingIds.RidingPreset 2
  | 23%nat => choice_setting SettingIds.RidingPreset 1
  | 24%nat => choice_setting SettingIds.RidingPreset 0
  | 25%nat => number_setting SettingIds.BrakeOverpressureAlarm v
  | _ => None
  end.
Definition falcon_meaning (index : nat) (v : Z) : option DeviceCommand :=
  match index with
  | 0%nat => Some (CmdSetLights LightOn)
  | 1%nat => Some (CmdSetLights LightOff)
  | 2%nat => Some (CmdSetLights Strobe)
  | 3%nat => choice_setting SettingIds.PedalMode 0
  | 4%nat => choice_setting SettingIds.PedalMode 1
  | 5%nat => choice_setting SettingIds.PedalMode 2
  | 6%nat => choice_setting SettingIds.RollAngleMode 0
  | 7%nat => choice_setting SettingIds.RollAngleMode 1
  | 8%nat => choice_setting SettingIds.RollAngleMode 2
  | 9%nat => choice_setting SettingIds.SpeedAlarmMode 0
  | 10%nat => choice_setting SettingIds.SpeedAlarmMode 1
  | 11%nat => number_setting SettingIds.MaximumSpeed (10 * v)
  | 12%nat => number_setting SettingIds.BeeperVolumeLevel v
  | 13%nat => choice_setting SettingIds.LightingPattern v
  | _ => None
  end.

(** *** Inverting the encoders *)

Lemma bounded_Some lo hi z v : bounded lo hi z = Some v <-> v = z /\ lo <= z <= hi.
Proof. unfold bounded. case_bool_decide; split; intros; simplify_eq; intuition congruence. Qed.
Lemma u8_try_from_Some z v : u8_try_from z = Some v <-> v = z /\ 0 <= z <= 255.
Proof. unfold u8_try_from, in_u, u8_max. case_bool_decide; split; intros; simplify_eq; intuition congruence. Qed.
Lemma i8_try_from_Some z v : i8_try_from z = Some v <-> v = z /\ -128 <= z <= 127.
Proof.
  unfold i8_try_from, in_i, i8_min, i8_max. case_bool_decide; split; intros; simplify_eq; intuition congruence.
Qed.
Lemma exact_deci_kmh_Some z v : exact_deci_kmh z = Some v <-> z = 10 * v /\ 0 <= v <= 255.
Proof.
  unfold exact_deci_kmh. split.
  - intros H. case_match_in H; [|done]. prop_bools. apply u8_try_from_Some in H as [-> H].
    pose proof (Z.quot_rem' z 10). lia.
  - intros [-> Hv]. rewrite (Z.mul_comm 10), Z.rem_mul, Z.quot_mul, !bool_decide_true by lia.
    by apply u8_try_from_Some.
Qed.
Lemma with_number_Some new make z n :
  with_number new make z = Some n <-> exists v, 0 <= z <= 255 /\ new z = Some v /\ n = make v.
Proof.
  unfold with_number. split.
  - intros H. apply bind_Some in H as (u & [-> Hu]%u8_try_from_Some & (v & Ev & [= <-])%bind_Some). eauto.
  - intros (v & Hz & Ev & ->). rewrite (proj2 (u8_try_from_Some z z)) by done. simpl. by rewrite Ev.
Qed.
Lemma angle_Some z v : VeteranAngleAdjustment_new z = Some v <-> v = z /\ -80 <= z <= 80.
Proof.
  unfold VeteranAngleAdjustment_new. destruct (bool_decide (z < -80) || bool_decide (80 < z)) eqn:E; prop_bools.
  - split; [done|]. destruct E; prop_bools; lia.
  - split; [intros [= <-]; lia|]. by intros [-> ?].
Qed.
Lemma to_signed_byte z : -128 <= z <= 127 -> to_signed 256 (byte_of_i8 z) = z.
Proof. intros. unfold to_signed, byte_of_i8. case_bool_decide; div_lia. Qed.
Lemma byte_of_i8_range z : is_byte (byte_of_i8 z).
Proof. unfold is_byte, byte_of_i8. pose proof (Z.mod_pos_bound z 256). lia. Qed.

(** The encoders as the chain of checks they are. *)
Ltac invert_encoder :=
  repeat match goal with
  | H : with_number _ _ _ = Some _ |- _ => apply with_number_Some in H as (? & ? & H & ->)
  | H : @mbind option _ _ _ _ _ = Some _ |- _ => apply bind_Some in H as (? & ? & H)
  | H : exact_deci_kmh _ = Some _ |- _ => apply exact_deci_kmh_Some in H as [-> ?]
  | H : u8_try_from _ = Some _ |- _ => apply u8_try_from_Some in H as [-> ?]
  | H : i8_try_from _ = Some _ |- _ => apply i8_try_from_Some in H as [-> ?]
  | H : checked_sub _ _ = Some _ |- _ => apply checked_sub_Some in H as [? ->]
  | H : VeteranAngleAdjustment_new _ = Some _ |- _ => apply angle_Some in H as [-> ?]
  | H : bounded _ _ _ = Some _ |- _ => apply bounded_Some in H as [-> ?]
  | H : _ = Some _ |- _ =>
      progress unfold VeteranSpeedSetting_new, VeteranBrakeOverpressureAlarm_new, VeteranPwmPercent_new,
        VeteranPedalHardness_new, VeteranDisplayBacklight_new, VeteranBeeperVolume_new, VeteranDynamicAssist_new,
        VeteranPedalDipCompensation_new, VeteranLateralTiltLimit_new, VeteranVoltageCorrection_new,
        BegodeMaxSpeed_new, BegodeBeeperVolume_new, BegodeLedModeSetting_new in H
  | H : Some _ = Some _ |- _ => injection H as H
  | H : _ = ?x |- _ => subst x
  end.

(** A selection of a schema and its meaning. *)
Definition told (base : Schema) (meaning : nat -> Z -> option DeviceCommand) (command : DeviceCommand)
    (s : Selection) : Prop :=
  (exists l, layout (sel_schema s) (sel_index s) = Some l /\ layout base (sel_index s) = Some l /\
     valid_layout l = true /\ sendable l (sel_value s) = true) /\
  meaning (sel_index s) (sel_value s) = Some (canonical command).

Definition nosfet_schema : Schema := SCHEMA (W := NosfetWire).
(** The three places of a selection are computed; its range is arithmetic. *)
Ltac tell :=
  split;
  [ eexists; split; [reflexivity|]; split; [reflexivity|]; split; [reflexivity|];
    unfold sendable; apply andb_true_intro; split;
      [apply bool_decide_eq_true; cbn [sel_value veteran_select wire_select];
       first [apply byte_of_i8_range | unfold is_byte; lia] | try reflexivity]
  | try reflexivity ].
Lemma pwm_meaning n : n <= 100 -> nosfet_meaning 5 (100 - (100 - n)) = number_setting SettingIds.PwmTiltback n.
Proof. intros. unfold nosfet_meaning. rewrite bool_decide_false by lia. do 3 f_equal. lia. Qed.
Lemma signed_meaning id n : -128 <= n <= 127 -> number_setting id (to_signed 256 (byte_of_i8 n)) = number_setting id n.
Proof. intros. by rewrite to_signed_byte. Qed.
Lemma nosfet_told command mode s :
  select_in_mode command mode = Some s -> told nosfet_schema nosfet_meaning command s.
Proof.
  intros H. unfold select_in_mode in H.
  destruct command as [| | | | | | |id value|[a step]|?|?| |?]; try discriminate H.
  - destruct id; try discriminate H; destruct value as [b|n|c|]; try discriminate H.
    all: try (destruct c as [|[[?|?|]|[?|?|]|]|?]; try discriminate H).
    all: try destruct b; cbn [veteran_mode_control_payload nosfet_command] in H; invert_encoder.
    all: try (destruct mode; cbn in H; injection H as <-).
    all: tell.
    all: first [by apply pwm_meaning | apply signed_meaning; lia].
  - destruct a, step, mode; cbn in H; try discriminate H; injection H as <-; tell.
  - destruct mode; injection H as <-; tell.
Qed.

Definition begode_schema : Schema := SCHEMA (W := BegodeWire).
Lemma menu_sendable digits v : is_byte v -> v < 10 ^ digits -> digits = 1 \/ digits = 2 -> fits digits v = true.
Proof. intros ? ? [-> | ->]; apply fits_spec; unfold is_byte in *; lia. Qed.
Lemma falcon_told command s :
  falcon_select command = Some s -> told begode_schema falcon_meaning command s.
Proof.
  intros H. unfold falcon_select in H.
  destruct command as [| | | | | | |id value|[a step]|light|?| |?]; try discriminate H.
  - destruct id; try discriminate H; destruct value as [b|n|c|]; try discriminate H.
    all: try destruct b; cbn [begode_wire_command] in H.
    all: try (destruct c as [|[[?|?|]|[?|?|]|]|?]; try discriminate H).
    all: invert_encoder; tell.
    all: apply menu_sendable; [unfold is_byte| |auto]; cbn [sel_value wire_select]; lia.
  - destruct light; injection H as <-; tell.
Qed.

Inductive NosfetDialect := nosfet_dialect_tag.
Inductive FalconDialect := falcon_dialect_tag.
Ltac literal_meaning i :=
  do 26 (destruct i as [|i]; [vm_compute; intros; first [discriminate|reflexivity]|]);
  vm_compute; intros; first [discriminate|reflexivity].
#[global] Instance nosfet_dialect : Dialect NosfetDialect.
Proof.
  refine {| dialect_select := nosfet_select; dialect_schema := nosfet_schema; dialect_meaning := nosfet_meaning |}.
  - apply wire_checked.
  - intros command context s H. by apply nosfet_told in H as [H _].
  - intros command context s H. by apply nosfet_told in H as [_ H].
  - intros i bytes v w. literal_meaning i.
Defined.
#[global] Instance falcon_dialect : Dialect FalconDialect.
Proof.
  refine {| dialect_select command _ := falcon_select command; dialect_schema := begode_schema;
            dialect_meaning := falcon_meaning |}.
  - apply wire_checked.
  - intros command context s H. by apply falcon_told in H as [H _].
  - intros command context s H. by apply falcon_told in H as [_ H].
  - intros i bytes v w. literal_meaning i.
Defined.

(** ** What is sent *)

Section Sent.
Context (crc32 : list Z -> Z).

Definition selection_writes (s : Selection) : option (option (list (list Z))) :=
  transmission crc32 (sel_schema s) (sel_index s) (sel_value s).
Lemma sendable_sent s i l v :
  layout s i = Some l -> valid_layout l = true -> sendable l v = true ->
  transmission crc32 s i v = Some (Some (writes_of crc32 l v)).
Proof.
  intros El Vl [_ Hs]%andb_true_iff. destruct l as [f|bytes|sel digits].
  - by apply field_transmission.
  - apply bool_decide_eq_true in Hs. destruct (request_payload_fits bytes Hs) as (p & Ep & Es).
    unfold transmission, payload. rewrite El. cbn [mbind option_bind]. rewrite Ep. simpl. by rewrite Es.
  - rewrite (proj1 (menu_transmission crc32 s i sel digits v El)). by rewrite Hs.
Qed.
(** The bytes of a destination tell its value, unless it is a literal. *)
Lemma writes_of_value l v w :
  valid_layout l = true -> sendable l v = true -> sendable l w = true ->
  writes_of crc32 l v `prefix_of` writes_of crc32 l w ->
  v = w \/ exists bytes, l = Literal bytes.
Proof.
  intros Vl Sv Sw [more E].
  assert (Hlen : length (writes_of crc32 l v) = length (writes_of crc32 l w))
    by (destruct l as [| |? digits]; [done|done|simpl; by destruct (bool_decide _)]).
  assert (more = []) as ->.
  { apply (f_equal length) in E. rewrite length_app in E. destruct more; [done|simpl in E; lia]. }
  rewrite app_nil_r in E. apply andb_true_iff in Sv as [Bv Sv], Sw as [Bw Sw].
  apply bool_decide_eq_true in Bv, Bw. destruct l as [f|bytes|sel digits]; [|eauto|]; left.
  - injection E as E. assert (Hv : forall u, field_frame crc32 f u !! length (field_prefix f) = Some u).
    { intros u. unfold field_frame. rewrite <- app_assoc. by apply list_lookup_middle. }
    specialize (Hv v) as H1. specialize (Hv w) as H2. rewrite <- E in H1. congruence.
  - pose proof (receive_menu_writes crc32 sel digits v Vl ltac:(unfold is_byte in Bv; lia) Sv) as H1.
    pose proof (receive_menu_writes crc32 sel digits w Vl ltac:(unfold is_byte in Bw; lia) Sw) as H2.
    rewrite E, H1 in H2. congruence.
Qed.
(** A session writes exactly these: the payload of the one control, or the
    payloads of the steps. *)
Lemma sent_by_session (M : ModelSpec Selection) s command w :
  single M s command = mjoin (selection_single crc32 s command) ->
  sequence M s command = mjoin (selection_sequence s command) ->
  selection_writes s = Some (Some w) ->
  match single M s command, sequence M s command with
  | Some control, None => w = [write_payload_as_slice (ec_payload control)]
  | None, Some steps_of =>
      w = (fun step => write_payload_as_slice (step_payload step)) <$> steps steps_of
  | _, _ => False
  end.
Proof.
  intros -> ->. unfold selection_writes, transmission, selection_single, selection_sequence, schema_steps, payload.
  destruct (layout (sel_schema s) (sel_index s)) as [[f|bytes|sel digits]|]; [| | |done]; cbn [mbind option_bind].
  - destruct (field_payload crc32 f (sel_value s)); simpl; [|done]. by intros [= <-].
  - destruct (request_payload bytes); simpl; [|done]. by intros [= <-].
  - set (r := if _ || _ then _ else _). destruct r as [[st|]|]; simpl; [|done|done]. by intros [= <-].
Qed.
End Sent.

(** C8: Every command a dialect selects can be sent, and what is sent says
    which command it was: the writes of two commands that do not mean the same
    are different, and neither is an initial part of the other, also when the
    two were encoded in different modes of the connection.  (Two commands mean
    the same when [canonical] maps them to one: the horn as a command and as an
    action, the steps of the calibration, the headlight as a setting and as a
    command.) *)
Theorem commands_told_apart {K} `{!Dialect K} (crc32 : list Z -> Z) (c1 c2 : DeviceCommand)
    (ctx1 ctx2 : ControlEncodingContext) (s1 s2 : Selection) :
  dialect_select c1 ctx1 = Some s1 -> dialect_select c2 ctx2 = Some s2 ->
  canonical c1 <> canonical c2 ->
  exists w1 w2, selection_writes crc32 s1 = Some (Some w1) /\ selection_writes crc32 s2 = Some (Some w2) /\
    ~ w1 `prefix_of` w2.
Proof.
  intros E1 E2 Hne.
  destruct (dialect_sends _ _ _ E1) as (l1 & L1 & B1 & V1 & S1).
  destruct (dialect_sends _ _ _ E2) as (l2 & L2 & B2 & V2 & S2).
  exists (writes_of crc32 l1 (sel_value s1)), (writes_of crc32 l2 (sel_value s2)).
  split; [by apply sendable_sent|]. split; [by apply sendable_sent|]. intros Hp.
  pose proof (dialect_tells _ _ _ E1) as M1. pose proof (dialect_tells _ _ _ E2) as M2.
  destruct (decide (sel_index s1 = sel_index s2)) as [Ei|Ei].
  - rewrite Ei in B1, M1. assert (l2 = l1) as -> by congruence.
    destruct (writes_of_value crc32 l1 _ _ V1 S1 S2 Hp) as [Ev|[bytes ->]].
    + rewrite Ev in M1. congruence.
    + rewrite (dialect_literal _ _ _ (sel_value s2) B1) in M1. congruence.
  - destruct (overlaps_sound crc32 l1 l2 _ _ V1 V2 Hp) as [O1 O2].
    pose proof (checked_apart _ (dialect_checked (K := K))) as A. rewrite layout_all in B1, B2.
    destruct (Nat.lt_total (sel_index s1) (sel_index s2)) as [Hlt|[Heq|Hlt]]; [|done|].
    + rewrite (apart_pair _ A _ _ _ _ Hlt B2 B1) in O2. done.
    + rewrite (apart_pair _ A _ _ _ _ Hlt B1 B2) in O1. done.
Qed.

Lemma commands_told_apart_witness :
  exists w1 w2,
    selection_writes sample_crc (veteran_select VeteranWires.PwmTiltback 80) = Some (Some w1) /\
    selection_writes sample_crc (veteran_select VeteranWires.AsciiHeadlightOn 1) = Some (Some w2) /\
    ~ w1 `prefix_of` w2.
Proof.
  apply (commands_told_apart (K := NosfetDialect) sample_crc
           (CmdSetSetting SettingIds.PwmTiltback (ValueNumber 80))
           (CmdSetSetting SettingIds.HighBeam (ValueBoolean true)) (ContextVeteran Binary) (ContextVeteran Ascii)).
  - reflexivity.
  - reflexivity.
  - discriminate.
Defined.
