(* ===== verification/DeviceCatalog.v ===== *)
(** * The settings a device shows and accepts

    [cutout-protocols/src/device_settings.rs] and its [aero.rs], [falcon.rs] and
    [readback.rs]: the controls of the two EUC profiles, the resolution of a
    semantic request into a command, and the reading of a settings response
    back into semantic values.  The adapter of VESC configurations, the text
    keys of help and value meaning, the apply effect (always unspecified here)
    and the default charge profile are left out.
    [Vec::push] is appending to the list of observations. *)

From S2P Require Import Prelude.
From S2P Require Import Parser.
From S2P Require Import Quantities.
From S2P Require Import VehicleIdentity.
From S2P Require Import Commands.
From S2P Require Import Readback.
From S2P Require Import VeteranFrame.
From S2P Require Import BegodeTelemetry.
From S2P Require Import VeteranTelemetry.
From S2P Require Import Settings.
From S2P Require Import SessionIO.
From S2P Require Import Sessions.
From S2P Require Import ControlWire.
From S2P Require Import ControlEncoding.
Import SettingIds (SettingId).

(** ** Controls *)

Inductive SettingUnit :=
| UnitPercent | UnitPwmDutyPercent | UnitKilometresPerHour | UnitDegrees | UnitLevel | UnitSeconds | UnitMinutes.
Inductive SettingGroup :=
| GroupLimits | GroupRiding | GroupInterface | GroupModes | GroupDiagnostics.
Record SettingChoice := { sc_id : Z; sc_label_key : string; sc_writable : bool }.
Record NumberControl := {
  minimum : Z; maximum : Z; quantum : Z; editor_step : Z; precision : Z; unit_of : SettingUnit; can_disable : bool;
}.
#[global] Instance eta_number_control : Eta NumberControl := fun r =>
  {| minimum := minimum r; maximum := maximum r; quantum := quantum r; editor_step := editor_step r;
     precision := precision r; unit_of := unit_of r; can_disable := can_disable r |}.
Inductive SettingControl :=
| ControlBoolean
| ControlNumber (n : NumberControl)
| ControlChoices (choices : list SettingChoice)
| ControlReadOnly.

Definition accepts_value (self : SettingControl) (value : DeviceSettingValue) : bool :=
  match self, value with
  | ControlBoolean, ValueBoolean _ => true
  | ControlNumber n, ValueNumber v =>
      bool_decide (minimum n <= v <= maximum n) && bool_decide (0 < quantum n) &&
      bool_decide (Z.rem (v - minimum n) (quantum n) = 0)
  | ControlNumber n, ValueDisabled => can_disable n
  | ControlChoices choices, ValueChoice id => existsb (fun c => bool_decide (sc_id c = id)) choices
  | _, _ => false
  end.
Definition accepts (self : SettingControl) (value : DeviceSettingValue) : bool :=
  if negb (accepts_value self value) then false
  else match self, value with
       | ControlChoices choices, ValueChoice id =>
           existsb (fun c => bool_decide (sc_id c = id) && sc_writable c) choices
       | _, _ => true
       end.

Inductive SettingAccess := AccessWritable | AccessUnverified | AccessReadOnly.
Record SettingDescriptor := {
  sd_id : SettingId; sd_label_key : string; sd_group : SettingGroup; sd_order : Z; sd_control : SettingControl;
  sd_access : SettingAccess; sd_write_verification : VerificationStatus; sd_completion : SettingCompletionStrategy;
}.
Inductive SettingObservationBinding :=
| ObserveNone | ObservedField (field : Z) | MatchingField (field : Z) | ReadOnlyField (field : Z).
Definition observed_field (self : SettingObservationBinding) : option Z :=
  match self with ObserveNone => None | ObservedField f | MatchingField f | ReadOnlyField f => Some f end.
Inductive SettingEncoderBinding := EncoderNone | EncoderNosfet | EncoderFalcon.
Inductive SettingWriteAccess := WriteWritable | WriteReadOnly.
Record SettingBinding := {
  control : SettingControl; observation : SettingObservationBinding; encoder : SettingEncoderBinding;
  write_access : SettingWriteAccess;
}.
Definition binding_new (control : SettingControl) (observation : SettingObservationBinding)
    (encoder : SettingEncoderBinding) : SettingBinding :=
  {| control := control; observation := observation; encoder := encoder;
     write_access := match encoder with EncoderNone => WriteReadOnly | _ => WriteWritable end |}.
Definition completion (self : SettingBinding) : SettingCompletionStrategy :=
  match observation self with MatchingField _ => MatchingReadback | _ => SubmissionOnly end.

Definition number (minimum maximum precision : Z) (unit : SettingUnit) : SettingControl :=
  ControlNumber {| minimum := minimum; maximum := maximum; quantum := 1; editor_step := 1;
                   precision := precision; unit_of := unit; can_disable := false |}.
Definition speed_control (minimum maximum : Z) : SettingControl :=
  ControlNumber {| minimum := minimum * 10; maximum := maximum * 10; quantum := 10; editor_step := 10;
                   precision := 1; unit_of := UnitKilometresPerHour; can_disable := false |}.
Definition choices (entries : list (Z * string * bool)) : SettingControl :=
  ControlChoices ((fun '(id, label_key, writable) =>
    {| sc_id := id; sc_label_key := label_key; sc_writable := writable |}) <$> entries).
Definition u16_try_from (z : Z) : option Z := if bool_decide (in_u u16_max z) then Some z else None.
Definition i32_try_from (z : Z) : option Z := if bool_decide (in_i i32_min i32_max z) then Some z else None.
Definition control_value (control : SettingControl) (raw : Z) : option DeviceSettingValue :=
  match control with
  | ControlBoolean => match raw with 0 => Some (ValueBoolean false) | 1 => Some (ValueBoolean true) | _ => None end
  | ControlChoices choices =>
      value ← u16_try_from raw;
      if existsb (fun c => bool_decide (sc_id c = value)) choices then Some (ValueChoice value) else None
  | ControlNumber n =>
      value ← i32_try_from raw;
      if bool_decide (minimum n <= value <= maximum n) then Some (ValueNumber value) else None
  | ControlReadOnly => None
  end.

(** ** The Aero *)

Definition aero_binding (id : SettingId) : option SettingBinding :=
  let writable control observation := Some (binding_new control observation EncoderNosfet) in
  let percent field := writable (number 0 100 0 UnitPercent) (MatchingField field) in
  match id with
  | SettingIds.HighBeam => writable ControlBoolean ObserveNone
  | SettingIds.HighSpeedMode => writable ControlBoolean (MatchingField AERO_FIELD_HIGH_SPEED_MODE)
  | SettingIds.LowBatteryMode => writable ControlBoolean (MatchingField AERO_FIELD_LOW_BATTERY_MODE)
  | SettingIds.TransportMode => writable ControlBoolean (MatchingField AERO_FIELD_TRANSPORT_MODE)
  | SettingIds.TiltbackSpeed => writable (speed_control 10 200) (MatchingField VETERAN_FIELD_SPEED_TILTBACK_DECI_KMH)
  | SettingIds.SpeedAlarmThreshold => writable (speed_control 10 200) (MatchingField VETERAN_FIELD_SPEED_ALERT_DECI_KMH)
  | SettingIds.PwmTiltback => writable (number 30 100 0 UnitPwmDutyPercent) (MatchingField AERO_FIELD_PWM_PERCENT)
  | SettingIds.PedalHardness => percent AERO_FIELD_PEDAL_HARDNESS_PERCENT
  | SettingIds.DisplayBrightness => percent AERO_FIELD_DISPLAY_BACKLIGHT_PERCENT
  | SettingIds.BeeperVolumePercent => percent AERO_FIELD_BEEPER_VOLUME_PERCENT
  | SettingIds.DynamicAssist => percent AERO_FIELD_DYNAMIC_ASSIST_PERCENT
  | SettingIds.PedalDipCompensation => percent AERO_FIELD_PEDAL_DIP_COMPENSATION_PERCENT
  | SettingIds.LateralTiltLimit =>
      writable (number 35 75 0 UnitDegrees) (MatchingField AERO_FIELD_LATERAL_TILT_LIMIT_DEGREES)
  | SettingIds.VoltageCorrection =>
      writable (number (-15) 15 1 UnitPercent) (MatchingField AERO_FIELD_VOLTAGE_CORRECTION_TENTHS_PERCENT)
  | SettingIds.PedalAngle => writable (number (-80) 80 1 UnitDegrees) ObserveNone
  | SettingIds.BrakeOverpressureAlarm =>
      writable (number 90 125 0 UnitPercent) (MatchingField AERO_FIELD_BRAKE_OVERPRESSURE_ALARM_PERCENT)
  | SettingIds.DisplayUnits =>
      writable (choices [(0, "settings.choice.metric", true); (1, "settings.choice.imperial", true)])
        (MatchingField AERO_FIELD_WHEEL_UNITS)
  | SettingIds.RidingPreset =>
      writable (choices [(0, "settings.choice.hard", true); (1, "settings.choice.medium", true);
                         (2, "settings.choice.soft", true)]) ObserveNone
  | SettingIds.ChargeLimitDiagnostic =>
      Some (binding_new ControlReadOnly (ReadOnlyField AERO_FIELD_MAX_CHARGE_VOLTAGE_RAW) EncoderNone)
  | SettingIds.AutoShutdownRemaining =>
      Some (binding_new (number 0 i32_max 0 UnitSeconds)
              (ReadOnlyField VETERAN_FIELD_AUTO_SHUTDOWN_TIME_REMAINING_SECONDS) EncoderNone)
  | SettingIds.ChargeMode =>
      Some (binding_new (choices [(0, "settings.choice.not_charging", false); (1, "settings.choice.charging", false)])
              (ReadOnlyField VETERAN_FIELD_CHARGE_MODE) EncoderNone)
  | _ => None
  end.

Record SettingObservation := {
  so_protocol : option ProtocolFamily; so_id : SettingId; so_field : Z;
  so_value : option (Measured DeviceSettingValue);
}.
(** [readback::push]. *)
Definition observed (entry : SettingsEntry) (id : SettingId) (value : option DeviceSettingValue) : SettingObservation :=
  {| so_protocol := None; so_id := id; so_field := rf_id (se_field entry);
     so_value := (fun v => {| m_value := v; m_source := se_source entry; m_quality := se_quality entry;
                              m_verification := se_verification entry |}) <$> value |}.
Definition pedal_choice (mode : PedalMode) : DeviceSettingValue :=
  ValueChoice match mode with PedalHard => 0 | PedalMedium => 1 | PedalSoft => 2 end.
Definition pedal_mode_from_veteran_raw (raw : Z) : option PedalMode :=
  match raw with 0 => Some PedalHard | 1 => Some PedalMedium | 2 => Some PedalSoft | _ => None end.
Definition aero_semantic_value (id : SettingId) (raw : Z) : option DeviceSettingValue :=
  match id with
  | SettingIds.PwmTiltback =>
      if bool_decide (0 <= raw <= 100) then ValueNumber <$> i32_try_from raw
      else if bool_decide (raw = 200) then Some ValueDisabled else None
  | SettingIds.TiltbackSpeed | SettingIds.SpeedAlarmThreshold =>
      value ← u16_try_from raw; if bool_decide (100 <= value <= 2000) then Some (ValueNumber value) else None
  | SettingIds.ChargeLimitDiagnostic =>
      if bool_decide (0 <= raw <= 70) then ValueNumber <$> i32_try_from raw else None
  | _ => binding ← aero_binding id; control_value (control binding) raw
  end.
(** The setting a field of a Veteran response stands for. *)
Definition aero_field_setting (field : Z) : option SettingId :=
  snd <$> find (fun entry => bool_decide (entry.1 = field))
    [(AERO_FIELD_PWM_PERCENT, SettingIds.PwmTiltback);
     (AERO_FIELD_PEDAL_HARDNESS_PERCENT, SettingIds.PedalHardness);
     (AERO_FIELD_DISPLAY_BACKLIGHT_PERCENT, SettingIds.DisplayBrightness);
     (AERO_FIELD_BEEPER_VOLUME_PERCENT, SettingIds.BeeperVolumePercent);
     (AERO_FIELD_DYNAMIC_ASSIST_PERCENT, SettingIds.DynamicAssist);
     (AERO_FIELD_PEDAL_DIP_COMPENSATION_PERCENT, SettingIds.PedalDipCompensation);
     (AERO_FIELD_LATERAL_TILT_LIMIT_DEGREES, SettingIds.LateralTiltLimit);
     (AERO_FIELD_VOLTAGE_CORRECTION_TENTHS_PERCENT, SettingIds.VoltageCorrection);
     (AERO_FIELD_MAX_CHARGE_VOLTAGE_RAW, SettingIds.ChargeLimitDiagnostic);
     (AERO_FIELD_BRAKE_OVERPRESSURE_ALARM_PERCENT, SettingIds.BrakeOverpressureAlarm);
     (AERO_FIELD_TRANSPORT_MODE, SettingIds.TransportMode);
     (AERO_FIELD_HIGH_SPEED_MODE, SettingIds.HighSpeedMode);
     (AERO_FIELD_LOW_BATTERY_MODE, SettingIds.LowBatteryMode);
     (AERO_FIELD_WHEEL_UNITS, SettingIds.DisplayUnits);
     (VETERAN_FIELD_SPEED_TILTBACK_DECI_KMH, SettingIds.TiltbackSpeed);
     (VETERAN_FIELD_SPEED_ALERT_DECI_KMH, SettingIds.SpeedAlarmThreshold);
     (VETERAN_FIELD_AUTO_SHUTDOWN_TIME_REMAINING_SECONDS, SettingIds.AutoShutdownRemaining);
     (VETERAN_FIELD_CHARGE_MODE, SettingIds.ChargeMode)].
Definition aero_normalize (entry : SettingsEntry) : list SettingObservation :=
  let raw := rf_value (se_field entry) in
  if bool_decide (rf_id (se_field entry) = VETERAN_FIELD_PEDALS_MODE) then
    [observed entry SettingIds.PedalMode
       (value ← u16_try_from raw; mode ← pedal_mode_from_veteran_raw value; Some (pedal_choice mode))]
  else match aero_field_setting (rf_id (se_field entry)) with
       | Some id => [observed entry id (aero_semantic_value id raw)]
       | None => []
       end.

(** ** The Falcon *)

Definition falcon_binding (id : SettingId) : option SettingBinding :=
  match id with
  | SettingIds.Headlight | SettingIds.AccelerationAssist | SettingIds.Taillight =>
      Some (binding_new ControlBoolean (ObservedField BEGODE_FIELD_LED_AND_LIGHT_MODE) EncoderFalcon)
  | SettingIds.MaximumSpeed =>
      Some (binding_new (speed_control 0 99) (MatchingField BEGODE_FIELD_TILTBACK_SPEED_KMH) EncoderFalcon)
  | SettingIds.BeeperVolumeLevel =>
      Some (binding_new (number 1 9 0 UnitLevel) (MatchingField BEGODE_FIELD_BEEPER_VOLUME) EncoderFalcon)
  | SettingIds.PowerOffDelay =>
      Some (binding_new (number 0 255 0 UnitMinutes) (ReadOnlyField BEGODE_FIELD_POWER_OFF_TIMER_MINUTES) EncoderNone)
  | SettingIds.LightingPattern =>
      Some (binding_new
        (choices [(0, "settings.choice.pattern_0", false); (1, "settings.choice.pattern_1", false);
                  (2, "settings.choice.pattern_2", false); (3, "settings.choice.pattern_3", false);
                  (4, "settings.choice.pattern_4", false); (5, "settings.choice.pattern_5", false);
                  (6, "settings.choice.pattern_6", false); (7, "settings.choice.pattern_7", false);
                  (8, "settings.choice.pattern_8", false); (9, "settings.choice.pattern_9", false)])
        (ReadOnlyField BEGODE_FIELD_LED_AND_LIGHT_MODE) EncoderNone)
  | SettingIds.PedalMode =>
      Some (binding_new (choices [(0, "settings.choice.hard", true); (1, "settings.choice.medium", true);
                                  (2, "settings.choice.soft", true)])
              (MatchingField BEGODE_FIELD_SETTINGS_BITS) EncoderFalcon)
  | SettingIds.RollAngleMode =>
      Some (binding_new (choices [(0, "settings.choice.low", true); (1, "settings.choice.medium", true);
                                  (2, "settings.choice.high", true)])
              (MatchingField BEGODE_FIELD_SETTINGS_BITS) EncoderFalcon)
  | SettingIds.SpeedAlarmMode =>
      Some (binding_new (choices [(0, "settings.choice.both_alarm_stages", true);
                                  (1, "settings.choice.first_alarm_stage", true);
                                  (2, "settings.choice.off", false); (3, "settings.choice.pwm_tiltback", false)])
              (MatchingField BEGODE_FIELD_SETTINGS_BITS) EncoderFalcon)
  | _ => None
  end.
Definition pedal_mode_from_begode_settings_bits (raw : Z) : option PedalMode :=
  match Z.land (Z.shiftr raw 13) 3 with 0 => Some PedalSoft | 1 => Some PedalMedium | 2 => Some PedalHard | _ => None end.
Definition roll_angle_from_begode_settings_bits (raw : Z) : option RollAngle :=
  match Z.land (Z.shiftr raw 7) 3 with 0 => Some RollLow | 1 => Some RollMedium | 2 => Some RollHigh | _ => None end.
Definition speed_alarm_mode_from_begode_settings_bits (raw : Z) : option SpeedAlarmMode :=
  match Z.land (Z.shiftr raw 10) 3 with
  | 0 => Some AlarmBoth | 1 => Some AlarmStageOneOnly | 2 => Some AlarmOff | 3 => Some AlarmPwmTiltback | _ => None
  end.
Definition roll_choice (angle : RollAngle) : DeviceSettingValue :=
  ValueChoice match angle with RollLow => 0 | RollMedium => 1 | RollHigh => 2 end.
Definition speed_alarm_choice (mode : SpeedAlarmMode) : DeviceSettingValue :=
  ValueChoice match mode with AlarmBoth => 0 | AlarmStageOneOnly => 1 | AlarmOff => 2 | AlarmPwmTiltback => 3 end.
Definition falcon_semantic_value (id : SettingId) (raw : Z) : option DeviceSettingValue :=
  binding ← falcon_binding id; control_value (control binding) raw.
Definition falcon_normalize (entry : SettingsEntry) : list SettingObservation :=
  let raw := rf_value (se_field entry) in
  let field := rf_id (se_field entry) in
  if bool_decide (field = BEGODE_FIELD_BEEPER_VOLUME) then
    [observed entry SettingIds.BeeperVolumeLevel (falcon_semantic_value SettingIds.BeeperVolumeLevel raw)]
  else if bool_decide (field = BEGODE_FIELD_POWER_OFF_TIMER_MINUTES) then
    [observed entry SettingIds.PowerOffDelay (falcon_semantic_value SettingIds.PowerOffDelay raw)]
  else if bool_decide (field = BEGODE_FIELD_TILTBACK_SPEED_KMH) then
    [observed entry SettingIds.MaximumSpeed
       (speed ← u8_try_from raw; if bool_decide (speed <= 99) then Some (ValueNumber (speed * 10)) else None)]
  else if bool_decide (field = BEGODE_FIELD_SETTINGS_BITS) then
    let bits := u16_try_from raw in
    [observed entry SettingIds.PedalMode (pedal_choice <$> (bits ≫= pedal_mode_from_begode_settings_bits));
     observed entry SettingIds.RollAngleMode (roll_choice <$> (bits ≫= roll_angle_from_begode_settings_bits));
     observed entry SettingIds.SpeedAlarmMode
       (speed_alarm_choice <$> (bits ≫= speed_alarm_mode_from_begode_settings_bits))]
  else if bool_decide (field = BEGODE_FIELD_LED_AND_LIGHT_MODE) then
    let packed := u16_try_from raw in
    let pattern :=
      packed ← packed;
      let pattern := Z.shiftr packed 8 in if bool_decide (pattern <= 9) then Some (ValueChoice pattern) else None in
    let light :=
      packed ← packed;
      match light_state (Z.land (packed mod 256) 3) with
      | Some LightOff => Some (ValueBoolean false)
      | Some LightOn => Some (ValueBoolean true)
      | _ => None
      end in
    [observed entry SettingIds.LightingPattern pattern; observed entry SettingIds.Headlight light]
  else [].

(** ** Profiles *)

Inductive SettingsAdapter := AdapterNone | AdapterAero | AdapterFalcon.
#[global] Instance adapter_eq_dec : EqDecision SettingsAdapter.
Proof. solve_decision. Defined.
Definition adapter_binding (self : SettingsAdapter) (id : SettingId) : option SettingBinding :=
  match self with
  | AdapterNone => None
  | AdapterAero => aero_binding id
  | AdapterFalcon => falcon_binding id
  end.
Definition adapter_normalize (self : SettingsAdapter) (entry : SettingsEntry) : list SettingObservation :=
  match self with
  | AdapterNone => []
  | AdapterAero => aero_normalize entry
  | AdapterFalcon => falcon_normalize entry
  end.
Definition adapter_protocol (self : SettingsAdapter) : option ProtocolFamily :=
  match self with
  | AdapterNone => None
  | AdapterAero => Some VeteranLeaperkimNosfet
  | AdapterFalcon => Some BegodeGotway
  end.

Record DeviceControlProfile := {
  settings_adapter : SettingsAdapter;
  available : Capabilities; verified : Capabilities; production : Capabilities;
  available_settings : list SettingId; verified_settings : list SettingId; readable : list SettingId;
}.
#[global] Instance eta_profile : Eta DeviceControlProfile := fun r =>
  {| settings_adapter := settings_adapter r; available := available r; verified := verified r;
     production := production r; available_settings := available_settings r;
     verified_settings := verified_settings r; readable := readable r |}.
Definition profile_new (available verified : Capabilities) : DeviceControlProfile :=
  {| settings_adapter := AdapterNone; available := available; verified := verified; production := verified;
     available_settings := []; verified_settings := []; readable := [] |}.
Definition aero_control_profile : DeviceControlProfile :=
  profile_new (from_supported_commands [SetSetting; SoundHorn; ResetTripMeter; GyroCalibration])
              (from_supported_commands [SetSetting; SoundHorn])
    <| production := from_supported_commands [SetSetting; SoundHorn; ResetTripMeter] |>
    <| settings_adapter := AdapterAero |>
    <| available_settings :=
       [SettingIds.HighBeam; SettingIds.TiltbackSpeed; SettingIds.PwmTiltback; SettingIds.BrakeOverpressureAlarm;
        SettingIds.PedalHardness; SettingIds.DisplayBrightness; SettingIds.BeeperVolumePercent;
        SettingIds.DynamicAssist; SettingIds.PedalDipCompensation; SettingIds.LateralTiltLimit;
        SettingIds.VoltageCorrection; SettingIds.ChargeLimitDiagnostic; SettingIds.DisplayUnits;
        SettingIds.SpeedAlarmThreshold; SettingIds.PedalAngle] |>
    <| readable := [SettingIds.AutoShutdownRemaining; SettingIds.ChargeMode] |>.
Definition falcon_control_profile : DeviceControlProfile :=
  let available := from_supported_commands [SetSetting] in
  let settings := [SettingIds.Headlight; SettingIds.PedalMode; SettingIds.RollAngleMode; SettingIds.SpeedAlarmMode;
                   SettingIds.MaximumSpeed; SettingIds.BeeperVolumeLevel; SettingIds.LightingPattern] in
  profile_new available available
    <| settings_adapter := AdapterFalcon |>
    <| available_settings := settings |> <| verified_settings := settings |>
    <| readable := [SettingIds.PowerOffDelay] |>.

Definition CATALOG : list (SettingId * string * SettingGroup * Z) :=
  [(SettingIds.Headlight, "settings.headlight.label", GroupInterface, 0);
   (SettingIds.HighBeam, "settings.high_beam.label", GroupInterface, 1);
   (SettingIds.TiltbackSpeed, "settings.tiltback_speed.label", GroupLimits, 2);
   (SettingIds.PwmTiltback, "settings.pwm_tiltback.label", GroupLimits, 3);
   (SettingIds.PedalHardness, "settings.pedal_hardness.label", GroupRiding, 4);
   (SettingIds.DisplayBrightness, "settings.display_brightness.label", GroupInterface, 5);
   (SettingIds.DisplayUnits, "settings.display_units.label", GroupInterface, 6);
   (SettingIds.BeeperVolumePercent, "settings.beeper_volume_percent.label", GroupInterface, 7);
   (SettingIds.DynamicAssist, "settings.dynamic_assist.label", GroupRiding, 8);
   (SettingIds.PedalDipCompensation, "settings.pedal_dip_compensation.label", GroupRiding, 9);
   (SettingIds.LateralTiltLimit, "settings.lateral_tilt_limit.label", GroupLimits, 10);
   (SettingIds.VoltageCorrection, "settings.voltage_correction.label", GroupModes, 11);
   (SettingIds.ChargeLimitDiagnostic, "settings.charge_limit_diagnostic.label", GroupDiagnostics, 12);
   (SettingIds.HighSpeedMode, "settings.high_speed_mode.label", GroupModes, 13);
   (SettingIds.LowBatteryMode, "settings.low_battery_mode.label", GroupModes, 14);
   (SettingIds.TransportMode, "settings.transport_mode.label", GroupModes, 15);
   (SettingIds.SpeedAlarmThreshold, "settings.speed_alarm_threshold.label", GroupLimits, 16);
   (SettingIds.PedalAngle, "settings.pedal_angle.label", GroupRiding, 17);
   (SettingIds.RidingPreset, "settings.riding_preset.label", GroupRiding, 18);
   (SettingIds.BrakeOverpressureAlarm, "settings.brake_overpressure_alarm.label", GroupLimits, 19);
   (SettingIds.PedalMode, "settings.pedal_mode.label", GroupRiding, 20);
   (SettingIds.RollAngleMode, "settings.roll_angle_mode.label", GroupRiding, 21);
   (SettingIds.SpeedAlarmMode, "settings.speed_alarm_mode.label", GroupLimits, 22);
   (SettingIds.MaximumSpeed, "settings.maximum_speed.label", GroupLimits, 23);
   (SettingIds.BeeperVolumeLevel, "settings.beeper_volume_level.label", GroupInterface, 24);
   (SettingIds.LightingPattern, "settings.lighting_pattern.label", GroupInterface, 25);
   (SettingIds.AccelerationAssist, "settings.acceleration_assist.label", GroupRiding, 26);
   (SettingIds.Taillight, "settings.taillight.label", GroupInterface, 27);
   (SettingIds.AutoShutdownRemaining, "settings.auto_shutdown_remaining.label", GroupDiagnostics, 28);
   (SettingIds.PowerOffDelay, "settings.power_off_delay.label", GroupModes, 29);
   (SettingIds.ChargeMode, "settings.charge_mode.label", GroupDiagnostics, 30)].
Definition contains (ids : list SettingId) (id : SettingId) : bool := existsb (fun i => bool_decide (i = id)) ids.
Definition setting_writable (self : DeviceControlProfile) (validation_mode : bool) (id : SettingId) : bool :=
  contains (available_settings self) id &&
  (supports_command_kind (production self) SetSetting || validation_mode || contains (verified_settings self) id).
Definition shown_control (id : SettingId) (control : SettingControl) (writable : bool) : SettingControl :=
  match control with
  | ControlNumber n =>
      ControlNumber (n <| can_disable := (can_disable n || bool_decide (id = SettingIds.PwmTiltback)) && writable |>)
  | other => other
  end.
(** The body of the closure of [descriptors]. *)
Definition descriptor_of (self : DeviceControlProfile) (validation_mode : bool)
    (row : SettingId * string * SettingGroup * Z) : option SettingDescriptor :=
  let '(id, label_key, group, order) := row in
  if negb (contains (readable self) id) && negb (contains (available_settings self) id) then None
  else
    binding ← adapter_binding (settings_adapter self) id;
    let writable := setting_writable self validation_mode id in
    let access :=
      match write_access binding with
      | WriteReadOnly => AccessReadOnly
      | WriteWritable => if writable then AccessWritable else AccessUnverified
      end in
    Some {| sd_id := id; sd_label_key := label_key; sd_group := group; sd_order := order;
            sd_control := shown_control id (control binding) writable;
            sd_access := access;
            sd_write_verification := if contains (verified_settings self) id then HardwareVerified else Unverified;
            sd_completion := completion binding |}.
Definition descriptors (self : DeviceControlProfile) (validation_mode : bool) : list SettingDescriptor :=
  if bool_decide (settings_adapter self = AdapterNone) then []
  else omap (descriptor_of self validation_mode) CATALOG.

Inductive SettingsRequestError := SreUnavailable | SreReadOnly | SreUnverified | SreInvalidValue.
Section Requests.
Variable crc32 : list Z -> Z.
Definition checked_request (self : SettingBinding) (id : SettingId) (value : DeviceSettingValue)
  : option DeviceCommand :=
  let command := CmdSetSetting id value in
  let encodes :=
    match encoder self with
    | EncoderNone => false
    | EncoderNosfet =>
        bool_decide (is_Some (nosfet_encode crc32 command)) ||
        bool_decide (is_Some (nosfet_encode_settings_sequence crc32 command))
    | EncoderFalcon =>
        bool_decide (is_Some (falcon_encode_control crc32 command)) ||
        bool_decide (is_Some (falcon_encode_settings_sequence crc32 command))
    end in
  if encodes then Some command else None.
Definition adapter_checked_request (self : SettingsAdapter) (id : SettingId) (value : DeviceSettingValue)
  : option DeviceCommand :=
  binding ← adapter_binding self id; checked_request binding id value.
Definition setting_command (self : DeviceControlProfile) (id : SettingId) (value : DeviceSettingValue)
    (validation_mode : bool) : result DeviceCommand SettingsRequestError :=
  match find (fun entry => bool_decide (sd_id entry = id)) (descriptors self validation_mode) with
  | None => Err SreUnavailable
  | Some descriptor =>
      match sd_access descriptor with
      | AccessReadOnly => Err SreReadOnly
      | AccessUnverified => Err SreUnverified
      | AccessWritable =>
          if negb (accepts (sd_control descriptor) value) then Err SreInvalidValue
          else ok_or (adapter_checked_request (settings_adapter self) id value) SreInvalidValue
      end
  end.
End Requests.

Definition normalize_capture_readback (self : DeviceControlProfile) (readback : SettingsReadback)
    (include_research : bool) : list SettingObservation :=
  match adapter_protocol (settings_adapter self) with
  | None => []
  | Some protocol =>
      let observations := omap id (sr_entries readback) ≫= adapter_normalize (settings_adapter self) in
      let shown := descriptors self false in
      let retained :=
        filter (fun entry =>
          Is_true ((include_research || existsb (fun item => bool_decide (sd_id item = so_id entry)) shown) &&
          match adapter_binding (settings_adapter self) (so_id entry) with
          | Some binding => bool_decide (observed_field (observation binding) = Some (so_field entry))
          | None => false
          end)) observations in
      (fun o => {| so_protocol := Some protocol; so_id := so_id o; so_field := so_field o; so_value := so_value o |})
        <$> retained
  end.
Definition normalize_readback (self : DeviceControlProfile) (readback : SettingsReadback) : list SettingObservation :=
  normalize_capture_readback self readback false.

(** ** Shown controls can be sent *)

(** The selection of an adapter's dialect. *)
Definition adapter_select (self : SettingsAdapter) (command : DeviceCommand) (context : ControlEncodingContext)
  : option Selection :=
  match self with
  | AdapterNone => None
  | AdapterAero => dialect_select (K := NosfetDialect) command context
  | AdapterFalcon => dialect_select (K := FalconDialect) command context
  end.
Lemma accepts_number n v :
  accepts (ControlNumber n) (ValueNumber v) = true <->
    minimum n <= v <= maximum n /\ 0 < quantum n /\ Z.rem (v - minimum n) (quantum n) = 0.
Proof.
  assert (E : accepts (ControlNumber n) (ValueNumber v) = accepts_value (ControlNumber n) (ValueNumber v))
    by (unfold accepts; destruct (accepts_value _ _); done).
  rewrite E. cbn [accepts_value]. rewrite !andb_true_iff, !bool_decide_eq_true. tauto.
Qed.
Lemma accepts_disabled n : accepts (ControlNumber n) ValueDisabled = can_disable n.
Proof. unfold accepts. cbn [accepts_value]. by destruct (can_disable n). Qed.

(** Each encoder accepts what its number control does. *)
Lemma u8_in z : 0 <= z <= 255 -> u8_try_from z = Some z.
Proof. intros. by apply u8_try_from_Some. Qed.
Lemma i8_in z : -128 <= z <= 127 -> i8_try_from z = Some z.
Proof. intros. by apply i8_try_from_Some. Qed.
Lemma bounded_in lo hi z : lo <= z <= hi -> bounded lo hi z = Some z.
Proof. intros. by apply bounded_Some. Qed.
Lemma with_number_in lo hi make z : lo <= z <= hi -> 0 <= lo -> hi <= 255 ->
  with_number (bounded lo hi) make z = Some (make z).
Proof. intros. apply with_number_Some. exists z. split; [lia|]. split; [by apply bounded_in|done]. Qed.
Lemma deci_in lo hi z : 0 <= lo -> hi <= 255 -> lo * 10 <= z <= hi * 10 -> Z.rem (z - lo * 10) 10 = 0 ->
  exists k, exact_deci_kmh z = Some k /\ bounded lo hi k = Some k.
Proof.
  intros Hlo Hhi Hz Hr. pose proof (Z.quot_rem' (z - lo * 10) 10) as Q. exists (lo + Z.quot (z - lo * 10) 10).
  split; [apply exact_deci_kmh_Some|apply bounded_in]; lia.
Qed.
Ltac unfold_settings :=
  unfold VeteranSpeedSetting_new, VeteranBrakeOverpressureAlarm_new, VeteranPwmPercent_new,
    VeteranPedalHardness_new, VeteranDisplayBacklight_new, VeteranBeeperVolume_new, VeteranDynamicAssist_new,
    VeteranPedalDipCompensation_new, VeteranLateralTiltLimit_new, VeteranVoltageCorrection_new,
    BegodeMaxSpeed_new, BegodeBeeperVolume_new, BegodeLedModeSetting_new in *.
(** The choices that are left of an accepted one. *)
Ltac listed_choice c H :=
  destruct c as [|[[[?|?|]|[?|?|]|]|[[?|?|]|[?|?|]|]|]|?]; try (vm_compute in H; discriminate H).
Lemma aero_accepted_selects id b value mode w :
  aero_binding id = Some b -> write_access b = WriteWritable ->
  accepts (shown_control id (control b) w) value = true ->
  exists s, select_in_mode (CmdSetSetting id value) mode = Some s.
Proof.
  intros Eb Ew Ea.
  destruct id; try discriminate Eb; injection Eb as <-; try discriminate Ew; cbn [control binding_new] in Ea.
  all: destruct value as [v|n|c|]; try (by destruct w).
  all: try (listed_choice c Ea).
  all: try (apply accepts_number in Ea; cbn in Ea).
  all: unfold select_in_mode; cbn [veteran_mode_control_payload nosfet_command]; unfold_settings.
  all: try (rewrite with_number_in by lia).
  all: try (destruct (deci_in 10 200 n) as (k & Ek & Bk); [lia..|]; rewrite Ek; cbn [mbind option_bind]; rewrite Bk).
  all: try (rewrite u8_in by lia; cbn [mbind option_bind]; unfold checked_sub;
            rewrite bool_decide_true by lia; cbn [mbind option_bind]; rewrite bounded_in by lia).
  all: try (unfold VeteranAngleAdjustment_new; rewrite i8_in by lia; cbn [mbind option_bind];
            rewrite !(bool_decide_false (_ < _)) by lia).
  all: try (rewrite i8_in by lia; cbn [mbind option_bind]; rewrite bounded_in by lia).
  all: cbn [mbind option_bind]; try (destruct mode); eexists; reflexivity.
Qed.
Lemma falcon_accepted_selects id b value w :
  falcon_binding id = Some b -> write_access b = WriteWritable ->
  contains (available_settings falcon_control_profile) id = true ->
  accepts (shown_control id (control b) w) value = true ->
  exists s, falcon_select (CmdSetSetting id value) = Some s.
Proof.
  intros Eb Ew Ei Ea.
  destruct id; try discriminate Eb; injection Eb as <-; try discriminate Ew; try discriminate Ei;
    cbn [control binding_new] in Ea.
  all: destruct value as [v|n|c|]; try (by destruct w).
  all: try (listed_choice c Ea).
  all: try destruct v.
  all: try (apply accepts_number in Ea; cbn in Ea).
  all: unfold falcon_select; cbn [begode_wire_command]; unfold_settings.
  all: try (destruct (deci_in 0 99 n) as (k & Ek & Bk); [lia..|]; rewrite Ek; cbn [mbind option_bind]; rewrite Bk).
  all: try (rewrite u8_in by lia; cbn [mbind option_bind]; rewrite bounded_in by lia).
  all: eexists; reflexivity.
Qed.

Section Accepted.
Context (crc32 : list Z -> Z).

(** A selection of a dialect is one control or one sequence. *)
Lemma selected_encodes {K} `{!Dialect K} (M : ModelSpec Selection) command context s :
  dialect_select command context = Some s ->
  single M s command = mjoin (selection_single crc32 s command) ->
  sequence M s command = mjoin (selection_sequence s command) ->
  is_Some (single M s command) \/ is_Some (sequence M s command).
Proof.
  intros E E1 E2. destruct (dialect_sends _ _ _ E) as (l & L & _ & V & S).
  pose proof (sent_by_session crc32 M s command _ E1 E2 (sendable_sent crc32 _ _ _ _ L V S)) as W.
  destruct (single M s command); [left; eauto|]. destruct (sequence M s command); [right; eauto|done].
Qed.
Lemma checked_request_selected (p : DeviceControlProfile) b id value context s :
  adapter_binding (settings_adapter p) id = Some b -> write_access b = WriteWritable ->
  (settings_adapter p = AdapterAero -> context = ContextVeteran Binary) ->
  adapter_select (settings_adapter p) (CmdSetSetting id value) context = Some s ->
  adapter_checked_request crc32 (settings_adapter p) id value = Some (CmdSetSetting id value).
Proof.
  intros Eb Ew Ectx Es. unfold adapter_checked_request. rewrite Eb. cbn [mbind option_bind].
  unfold checked_request. destruct (settings_adapter p); [done| |].
  - specialize (Ectx eq_refl) as ->. change (select_in_mode (CmdSetSetting id value) Binary = Some s) in Es.
    assert (Ee : encoder b = EncoderNosfet).
    { cbn in Eb. destruct id; try discriminate Eb; injection Eb as <-; first [reflexivity|discriminate Ew]. }
    rewrite Ee. unfold nosfet_encode, encode_in_mode, nosfet_encode_settings_sequence. rewrite Es.
    cbn [mbind option_bind].
    destruct (@selected_encodes NosfetDialect nosfet_dialect (NosfetAeroModel crc32) (CmdSetSetting id value)
                (ContextVeteran Binary) s Es
                eq_refl eq_refl) as [H|H].
    + by rewrite (bool_decide_true (is_Some (single _ _ _))).
    + rewrite (bool_decide_true (is_Some (sequence _ _ _))) by done. by rewrite orb_true_r.
  - change (falcon_select (CmdSetSetting id value) = Some s) in Es.
    assert (Ee : encoder b = EncoderFalcon).
    { cbn in Eb. destruct id; try discriminate Eb; injection Eb as <-; first [reflexivity|discriminate Ew]. }
    rewrite Ee. unfold falcon_encode_control, falcon_encode_settings_sequence. rewrite Es. cbn [mbind option_bind].
    destruct (@selected_encodes FalconDialect falcon_dialect (BegodeFalconModel crc32) (CmdSetSetting id value)
                context s Es eq_refl eq_refl)
      as [H|H].
    + by rewrite (bool_decide_true (is_Some (single _ _ _))).
    + rewrite (bool_decide_true (is_Some (sequence _ _ _))) by done. by rewrite orb_true_r.
Qed.
Definition euc_profile (p : DeviceControlProfile) : Prop := p = aero_control_profile \/ p = falcon_control_profile.
Lemma shown_descriptor p vm d id :
  find (fun entry => bool_decide (sd_id entry = id)) (descriptors p vm) = Some d ->
  exists b, adapter_binding (settings_adapter p) id = Some b /\ sd_id d = id /\
    sd_control d = shown_control id (control b) (setting_writable p vm id) /\
    sd_completion d = completion b /\
    (sd_access d = AccessWritable -> write_access b = WriteWritable /\ setting_writable p vm id = true).
Proof.
  intros [Hin He]%find_some. apply bool_decide_eq_true in He. apply list_elem_of_In in Hin.
  unfold descriptors in Hin. case_bool_decide; [by apply elem_of_nil in Hin|].
  apply list_elem_of_omap in Hin as ([[[i k] g] o] & _ & E). unfold descriptor_of in E.
  destruct (_ && _); [done|]. destruct (adapter_binding (settings_adapter p) i) as [b|] eqn:Eb; [|done].
  cbn [mbind option_bind] in E. injection E as <-. cbn [sd_id sd_control sd_access sd_completion] in *. subst i.
  exists b. split; [done|]. split; [done|]. split; [done|]. split; [done|].
  destruct (write_access b), (setting_writable p vm id); done.
Qed.
Lemma accepted_selects p id b value vm context :
  euc_profile p -> adapter_binding (settings_adapter p) id = Some b -> write_access b = WriteWritable ->
  setting_writable p vm id = true ->
  accepts (shown_control id (control b) (setting_writable p vm id)) value = true ->
  exists s, adapter_select (settings_adapter p) (CmdSetSetting id value) context = Some s.
Proof.
  intros [-> | ->] Eb Ew Hw Ha; cbn in Eb.
  - exact (aero_accepted_selects id b value _ _ Eb Ew Ha).
  - refine (falcon_accepted_selects id b value _ Eb Ew _ Ha).
    unfold setting_writable in Hw. by apply andb_true_iff in Hw as [Hw _].
Qed.
End Accepted.

(** C6: What a profile shows is what it accepts.  A request for a setting of
    the Aero or the Falcon becomes a command exactly when the setting is shown
    as writable and its control admits the value, and then the dialect of the
    device has a destination for it in every mode of the connection; every
    other request is refused, with the reason the descriptor gives. *)
Theorem shown_controls_are_sendable (crc32 : list Z -> Z) (p : DeviceControlProfile) (id : SettingId)
    (value : DeviceSettingValue) (vm : bool) (context : ControlEncodingContext) :
  euc_profile p ->
  match find (fun entry => bool_decide (sd_id entry = id)) (descriptors p vm) with
  | None => setting_command crc32 p id value vm = Err SreUnavailable
  | Some d =>
      match sd_access d with
      | AccessReadOnly => setting_command crc32 p id value vm = Err SreReadOnly
      | AccessUnverified => setting_command crc32 p id value vm = Err SreUnverified
      | AccessWritable =>
          if accepts (sd_control d) value
          then setting_command crc32 p id value vm = Ok (CmdSetSetting id value) /\
               exists s, adapter_select (settings_adapter p) (CmdSetSetting id value) context = Some s
          else setting_command crc32 p id value vm = Err SreInvalidValue
      end
  end.
Proof.
  intros Hp. unfold setting_command.
  destruct (find _ (descriptors p vm)) as [d|] eqn:Ed; [|done].
  destruct (shown_descriptor p vm d id Ed) as (b & Eb & _ & Ec & _ & Ha).
  destruct (sd_access d); [|done|done]. destruct (Ha eq_refl) as [Hb Hw].
  destruct (accepts (sd_control d) value) eqn:Hacc; [|done]. rewrite Ec in Hacc.
  pose proof (accepted_selects p id b value vm) as Hs. split; [|by apply Hs].
  destruct (Hs (ContextVeteran Binary)) as [s Es]; [done..|].
  cbn [negb]. by rewrite (checked_request_selected crc32 p b id value (ContextVeteran Binary) s Eb Hb).
Qed.
Lemma shown_controls_are_sendable_witness :
  setting_command sample_crc aero_control_profile SettingIds.PwmTiltback (ValueNumber 80) false =
    Ok (CmdSetSetting SettingIds.PwmTiltback (ValueNumber 80)) /\
  exists s, adapter_select AdapterAero (CmdSetSetting SettingIds.PwmTiltback (ValueNumber 80)) ContextDefault = Some s.
Proof.
  exact (shown_controls_are_sendable sample_crc aero_control_profile SettingIds.PwmTiltback (ValueNumber 80) false
           ContextDefault (or_introl eq_refl)).
Defined.

(** ** A write is read back as the value requested *)

(** Position of a field of page 8, and what the page decoder makes of its byte. *)
Definition page8_raw (id : SettingId) (byte : Z) : Z :=
  if bool_decide (id = SettingIds.VoltageCorrection) then to_signed 256 byte else byte.
Definition page8_setting (id : SettingId) (position : Z) : Prop :=
  exists b, aero_binding id = Some b /\ observation b = MatchingField (2048 + position) /\ 0 <= position < 256.

Ltac page8_cases id Eb Eo :=
  destruct id; try discriminate Eb; injection Eb as <-; cbn [observation binding_new] in Eo; try discriminate Eo;
  injection Eo as Eo; match type of Eo with ?f = _ => let v := eval vm_compute in f in change f with v in Eo end;
  try (exfalso; lia);
  match type of Eo with ?f = _ => let v := eval vm_compute in (f - 2048) in
    match type of Eo with _ = 2048 + ?position => assert (position = v) as -> by lia; clear Eo end end.
Ltac read_back :=
  cbn [sel_value wire_select veteran_select aero_semantic_value aero_binding control binding_new number
       control_value mbind option_bind fmap option_fmap option_map minimum maximum];
  unfold page8_raw; rewrite ?bool_decide_true by done;
  rewrite ?(bool_decide_false (_ = SettingIds.VoltageCorrection)) by done;
  unfold i32_try_from, u16_try_from; rewrite ?to_signed_byte by lia.
Lemma written_read_back id position value mode s :
  page8_setting id position -> select_in_mode (CmdSetSetting id value) mode = Some s ->
  aero_semantic_value id (page8_raw id (sel_value s)) = Some value /\
  layout (sel_schema s) (sel_index s) = Some (VeteranWires.LdAp [1; 2] (position - 40)) /\ 50 <= position <= 68 /\
  is_byte (sel_value s).
Proof.
  intros (b & Eb & Eo & Hp) Es. unfold select_in_mode in Es.
  page8_cases id Eb Eo.
  all: destruct value as [v|n|c|]; try discriminate Es.
  all: try (destruct c as [|[?|?|]|?]; try discriminate Es).
  all: try destruct v.
  all: cbn [veteran_mode_control_payload nosfet_command] in Es; invert_encoder.
  all: split; [read_back | split; [reflexivity|]; split; [lia|];
         cbn [sel_value wire_select veteran_select];
         first [apply byte_of_i8_range | by vm_compute | unfold is_byte; lia]].
  all: try reflexivity.
  all: try (replace (100 - (100 - n)) with n by lia; rewrite (bool_decide_true (0 <= n <= 100)) by lia).
  all: rewrite (bool_decide_true (in_i _ _ n)) by int_lia; cbn [mbind option_bind fmap option_fmap option_map].
  all: rewrite ?bool_decide_true by lia; reflexivity.
Qed.

(** The entries of page 8 are named after their positions. *)
Definition page8_positions : list Z := [50; 53; 55; 56; 57; 58; 59; 60; 61; 63; 64; 66; 68; 65].
Definition page8_value (position byte : Z) : Z := if bool_decide (position = 59) then to_signed 256 byte else byte.
Definition page8_entry (body : list Z) (position : Z) : option SettingsEntry :=
  byte ← body !! Z.to_nat position;
  Some (entry_of (2048 + position) (page8_value position byte) SourceVerified).
Lemma page8_response t bytes :
  fw_model_id (firmware t) = 43 -> (69 <= length bytes - 4)%nat -> bytes !! 46%nat = Some 8 ->
  to_aero_settings_page_response t {| frame_bytes := bytes |} =
    Some (RespSettings (settings_available
      ((page8_entry (take (length bytes - 4) bytes) <$> page8_positions) ++ replicate 4 None))).
Proof.
  intros Hm Hl H46. unfold to_aero_settings_page_response. rewrite bool_decide_true by done. cbn [negb frame_bytes].
  unfold checked_sub_nat. rewrite (proj2 (Nat.leb_le _ _)) by lia. cbn [mbind option_bind].
  unfold get_range. rewrite (proj2 (Nat.leb_le _ _)) by lia. cbn [mbind option_bind]. rewrite drop_0.
  rewrite lookup_take_lt, H46 by lia. cbn [bool_decide]. done.
Qed.
Lemma page8_field id position :
  page8_setting id position ->
  aero_field_setting (2048 + position) = Some id /\ position ∈ page8_positions /\
  2048 + position <> VETERAN_FIELD_PEDALS_MODE /\ forall byte, page8_value position byte = page8_raw id byte.
Proof.
  intros (b & Eb & Eo & Hp). page8_cases id Eb Eo.
  all: split; [reflexivity|]; split; [apply list_elem_of_In; simpl; auto 20|]; split; [done|done].
Qed.

Lemma aero_normalize_field e obs :
  obs ∈ aero_normalize e -> so_field obs = rf_id (se_field e) /\
  (rf_id (se_field e) = VETERAN_FIELD_PEDALS_MODE \/
   forall id, aero_field_setting (rf_id (se_field e)) = Some id ->
     so_id obs = id /\ m_value <$> so_value obs = aero_semantic_value id (rf_value (se_field e))).
Proof.
  unfold aero_normalize. case_bool_decide as Hp.
  - intros ->%list_elem_of_singleton. by split; [|left].
  - destruct (aero_field_setting _) as [i|]; [|by intros ?%elem_of_nil]. intros ->%list_elem_of_singleton.
    split; [done|]. right. intros id [= <-]. split; [done|]. cbn [observed so_value].
    by destruct (aero_semantic_value i _).
Qed.
Lemma aero_normalize_here e id :
  rf_id (se_field e) <> VETERAN_FIELD_PEDALS_MODE -> aero_field_setting (rf_id (se_field e)) = Some id ->
  observed e id (aero_semantic_value id (rf_value (se_field e))) ∈ aero_normalize e.
Proof.
  intros Hp Hf. unfold aero_normalize. rewrite bool_decide_false, Hf by done. by apply list_elem_of_singleton.
Qed.
Lemma normalize_elem p readback o :
  o ∈ normalize_readback p readback <->
  exists protocol e obs b, adapter_protocol (settings_adapter p) = Some protocol /\
    Some e ∈ sr_entries readback /\ obs ∈ adapter_normalize (settings_adapter p) e /\
    existsb (fun item => bool_decide (sd_id item = so_id obs)) (descriptors p false) = true /\
    adapter_binding (settings_adapter p) (so_id obs) = Some b /\
    observed_field (observation b) = Some (so_field obs) /\
    o = {| so_protocol := Some protocol; so_id := so_id obs; so_field := so_field obs; so_value := so_value obs |}.
Proof.
  unfold normalize_readback, normalize_capture_readback.
  destruct (adapter_protocol (settings_adapter p)) as [protocol|]; [|split; [by intros ?%elem_of_nil|]].
  - rewrite list_elem_of_fmap. setoid_rewrite list_elem_of_filter. setoid_rewrite list_elem_of_bind.
    setoid_rewrite list_elem_of_omap. split.
    + intros (obs & -> & Hf & e & Hobs & [x [Hx Ex]]). rewrite Is_true_true, andb_true_iff in Hf.
      destruct Hf as [Hs Hb]. destruct (adapter_binding _ (so_id obs)) as [b|] eqn:Eb; [|done].
      apply bool_decide_eq_true in Hb. cbn in Ex. subst x. exists protocol, e, obs, b. auto 10.
    + intros (? & e & obs & b & [= <-] & He & Hobs & Hs & Eb & Hb & ->). exists obs. split; [done|].
      split; [|by exists e; eauto].
      rewrite Is_true_true, andb_true_iff, Hs, Eb. split; [done|]. by apply bool_decide_eq_true.
  - intros (? & ? & ? & ? & [=] & _).
Qed.
Lemma page8_shown id position :
  page8_setting id position -> contains (available_settings aero_control_profile) id = true ->
  existsb (fun item => bool_decide (sd_id item = id)) (descriptors aero_control_profile false) = true.
Proof.
  intros (b & Eb & Eo & Hp) Hc. page8_cases id Eb Eo.
  all: first [discriminate Hc | vm_compute; reflexivity].
Qed.

(** C7: A setting written to an Aero is read back as the value requested.  The
    settings the wheel reports on its page 8 are written to a destination whose
    offset is the reported position less 40; so when the next page holds, at
    that position, the byte that was sent, the page is decoded into a response
    whose only observation of the setting is the requested value, whatever else
    the page holds and in whichever mode the command was encoded. *)
Theorem aero_write_read_back (t : VeteranTelemetry) (bytes : list Z) (id : SettingId) (position : Z)
    (value : DeviceSettingValue) (mode : VeteranCommandMode) (s : Selection) :
  page8_setting id position -> contains (available_settings aero_control_profile) id = true ->
  select_in_mode (CmdSetSetting id value) mode = Some s ->
  fw_model_id (firmware t) = 43 -> (73 <= length bytes)%nat -> bytes !! 46%nat = Some 8 ->
  layout (sel_schema s) (sel_index s) = Some (VeteranWires.LdAp [1; 2] (position - 40)) /\
  exists readback,
    to_aero_settings_page_response t {| frame_bytes := <[Z.to_nat position := sel_value s]> bytes |} =
      Some (RespSettings readback) /\
    (exists o, o ∈ normalize_readback aero_control_profile readback /\ so_id o = id) /\
    forall o, o ∈ normalize_readback aero_control_profile readback -> so_id o = id ->
      m_value <$> so_value o = Some value.
Proof.
  intros Hid Hc Es Hm Hl H46. destruct (written_read_back id position value mode s Hid Es) as (Hv & Hlay & Hp & _).
  split; [done|]. destruct (page8_field id position Hid) as (Hf & Hin & Hped & Hraw).
  pose proof Hid as (b & Eb & Eo & _).
  set (bytes' := <[Z.to_nat position := sel_value s]> bytes).
  assert (Hl' : length bytes' = length bytes) by apply length_insert.
  set (body := take (length bytes' - 4) bytes').
  assert (Hbody : body !! Z.to_nat position = Some (sel_value s)).
  { unfold body. rewrite lookup_take_lt by lia. apply list_lookup_insert_eq. lia. }
  eexists. split; [apply page8_response; [done|lia|]|].
  { unfold bytes'. rewrite list_lookup_insert_ne by lia. done. }
  fold body. set (es := (page8_entry body <$> page8_positions) ++ replicate 4 None).
  assert (Hes : sr_entries (settings_available es) = es) by done.
  set (e := entry_of (2048 + position) (page8_value position (sel_value s)) SourceVerified).
  assert (He : Some e ∈ es).
  { unfold es. apply elem_of_app. left. apply list_elem_of_fmap. exists position. split; [|done].
    unfold page8_entry. by rewrite Hbody. }
  split.
  - set (obs := observed e id (aero_semantic_value id (rf_value (se_field e)))).
    exists {| so_protocol := Some VeteranLeaperkimNosfet; so_id := so_id obs; so_field := so_field obs;
              so_value := so_value obs |}.
    split; [|done]. apply normalize_elem. exists VeteranLeaperkimNosfet, e, obs, b. rewrite Hes.
    split; [done|]. split; [done|]. split; [by apply aero_normalize_here|].
    split; [by apply (page8_shown id position)|]. split; [done|]. by rewrite Eo.
  - intros o (protocol & e' & obs & b' & Hpr & He' & Hobs & _ & Eb' & Ef & ->)%normalize_elem Ho. cbn [so_id so_value] in *.
    subst id. cbn in Eb'. rewrite Eb in Eb'. injection Eb' as <-. rewrite Eo in Ef. injection Ef as Ef.
    apply aero_normalize_field in Hobs as [Hfield Hobs]. rewrite <- Hfield, <- Ef in Hobs.
    destruct Hobs as [Hobs|Hobs]; [done|]. destruct (Hobs _ Hf) as [_ ->]. rewrite <- Hv, <- Hraw. f_equal.
    rewrite Hes in He'. unfold es in He'. apply elem_of_app in He' as [He'|He'].
    + apply list_elem_of_fmap in He' as (q & Eq & _). unfold page8_entry in Eq.
      destruct (body !! Z.to_nat q) as [x|] eqn:Ex; [|done]. injection Eq as ->. cbn in Hfield.
      assert (q = position) as -> by lia. rewrite Hbody in Ex. injection Ex as <-. done.
    + by apply elem_of_replicate in He' as [He' _].
Qed.
Definition settings_page : list Z := take 46 live_aero_bytes ++ 8 :: replicate 40 0x80.
Lemma aero_write_read_back_witness :
  match VeteranTelemetry.decode {| frame_bytes := live_aero_bytes |} with
  | Ok t => exists readback,
      to_aero_settings_page_response t {| frame_bytes := <[53%nat := 80]> settings_page |} =
        Some (RespSettings readback) /\
      (exists o, o ∈ normalize_readback aero_control_profile readback /\ so_id o = SettingIds.PwmTiltback) /\
      forall o, o ∈ normalize_readback aero_control_profile readback -> so_id o = SettingIds.PwmTiltback ->
        m_value <$> so_value o = Some (ValueNumber 80)
  | Err _ => False
  end.
Proof.
  assert (H : match VeteranTelemetry.decode {| frame_bytes := live_aero_bytes |} with
              | Ok t => fw_model_id (firmware t) = 43 | Err _ => False end) by (vm_compute; reflexivity).
  destruct (VeteranTelemetry.decode _) as [t|]; [|exact H].
  refine (proj2 (aero_write_read_back t settings_page SettingIds.PwmTiltback 53 (ValueNumber 80) Binary
                   (veteran_select VeteranWires.PwmTiltback 80) _ _ _ H _ _)).
  - eexists. split; [reflexivity|]. split; [reflexivity|lia].
  - vm_compute. reflexivity.
  - vm_compute. reflexivity.
  - vm_compute. lia.
  - vm_compute. reflexivity.
Defined.
