(* ===== verification/RideSession.v ===== *)
(** * The logical ride and its Live Activity

    [cutout-core/src/ride_lifecycle.rs]: the reducer that turns rider,
    Bluetooth, telemetry and ActivityKit events into the state of one logical
    ride and at most one platform effect.  [transition] is the method of that
    name, from a state to the next state and the effect.  The JSON form of a
    marker ([serde_json]) and of its UUID ([uuid]) are parameters. *)

From S2P Require Import Prelude.
From S2P Require Import PhoneDriveInput.

(** ** Data *)

Definition RIDE_SESSION_STALE_AFTER : Z := 2000.
Definition RIDE_SESSION_MARKER_VERSION : Z := 1.

(** The platform identifier is the list of its Unicode scalar values; the
    session id is the 128-bit value of the UUID. *)
Record RideSessionIdentity := { platform_identifier : list Z; session_id : Z }.
Record RideSessionMarker := { marker_identity : RideSessionIdentity }.
Inductive RideSessionMarkerError := InvalidEncoding | UnsupportedVersion | InvalidIdentity.
Inductive RideSessionAppPresence := Foreground | Background.
Inductive RideSessionEndReason :=
| UserDisconnect | UserStop | ReplacedByNewSession | ReconnectExhausted | AppReset
| UnrecoverableSessionFailure.
Inductive RideSessionPhase :=
| RideIdle | RideStarting | RideActive | RideReconnecting | RideStale
| RideEnding (reason : RideSessionEndReason)
| RideEnded (reason : RideSessionEndReason).
Inductive ActivityProjectionState :=
| ActivityAbsent
| ActivityStarting
| ActivityActive (activity_id : string)
| ActivityStale (activity_id : string)
| ActivityEnding
| ActivityEnded
| ActivityUnavailable.
Inductive RideSessionInput :=
| InStart (identity : RideSessionIdentity)
| InActivityStarted (identity : RideSessionIdentity) (activity_id : string)
| InActivityEnded (identity : RideSessionIdentity)
| InActivityUnavailable (identity : RideSessionIdentity)
| InAppBackgrounded
| InAppForegrounded
| InBluetoothDisconnected (at_ : Z)
| InBluetoothConnected
| InTelemetryObserved (at_ : Z)
| InFreshnessChecked (now : Z)
| InUserDisconnected
| InUserStopped
| InReconnectExhausted
| InAppReset
| InUnrecoverableSessionFailure.
Inductive RideSessionEffect :=
| NoEffect
| StartActivity (identity : RideSessionIdentity)
| UpdateActivity (identity : RideSessionIdentity)
| MarkActivityStale (identity : RideSessionIdentity)
| EndActivity (identity : RideSessionIdentity) (reason : RideSessionEndReason)
| RequestCaptureFlush (identity : RideSessionIdentity).

Record RideSessionLifecycle := {
  ride_phase : RideSessionPhase;
  ride_identity : option RideSessionIdentity;
  pending_identity : option RideSessionIdentity;
  activity : ActivityProjectionState;
  last_telemetry_at : option Z;
  app_presence : RideSessionAppPresence;
}.
Definition RideSessionDecision : Type := RideSessionLifecycle * RideSessionEffect.

#[global] Instance identity_eq_dec : EqDecision RideSessionIdentity.
Proof. solve_decision. Defined.
#[global] Instance presence_eq_dec : EqDecision RideSessionAppPresence.
Proof. solve_decision. Defined.
#[global] Instance end_reason_eq_dec : EqDecision RideSessionEndReason.
Proof. solve_decision. Defined.
#[global] Instance ride_phase_eq_dec : EqDecision RideSessionPhase.
Proof. solve_decision. Defined.
#[global] Instance activity_eq_dec : EqDecision ActivityProjectionState.
Proof. solve_decision. Defined.
#[global] Instance eta_ride : Eta RideSessionLifecycle := fun r =>
  Build_RideSessionLifecycle (ride_phase r) (ride_identity r) (pending_identity r) (activity r)
    (last_telemetry_at r) (app_presence r).

Definition default_ride : RideSessionLifecycle :=
  {| ride_phase := RideIdle; ride_identity := None; pending_identity := None;
     activity := ActivityAbsent; last_telemetry_at := None; app_presence := Foreground |}.

(** ** Operations *)

Definition is_live (p : RideSessionPhase) : bool :=
  match p with RideIdle | RideEnded _ => false | _ => true end.
Definition accepts_updates (p : RideSessionPhase) : bool :=
  match p with RideStarting | RideActive | RideReconnecting | RideStale => true | _ => false end.

Definition marker (self : RideSessionLifecycle) : option RideSessionMarker :=
  if negb (is_live (ride_phase self)) then None
  else (fun i => {| marker_identity := i |}) <$> ride_identity self.

(** A ride that starts, in [recover], [start] and [activity_ended]. *)
Definition starting_ride (identity : RideSessionIdentity) (presence : RideSessionAppPresence)
  : RideSessionDecision :=
  ({| ride_phase := RideStarting; ride_identity := Some identity; pending_identity := None;
      activity := ActivityStarting; last_telemetry_at := None; app_presence := presence |},
   StartActivity identity).

Definition recover (m : RideSessionMarker) (restored_platform_identifier : option (list Z))
    (presence : RideSessionAppPresence) : RideSessionDecision :=
  let identity := marker_identity m in
  if bool_decide (restored_platform_identifier = Some (platform_identifier identity))
  then starting_ride identity presence
  else ({| ride_phase := RideReconnecting; ride_identity := Some identity;
           pending_identity := None; activity := ActivityUnavailable;
           last_telemetry_at := None; app_presence := presence |}, NoEffect).

Definition start (self : RideSessionLifecycle) (identity : RideSessionIdentity)
  : RideSessionDecision :=
  if bool_decide (ride_identity self = Some identity) && is_live (ride_phase self)
  then (self, NoEffect)
  else match (if is_live (ride_phase self) then ride_identity self else None) with
       | Some current_identity =>
           (self <| ride_phase := RideEnding ReplacedByNewSession |>
                 <| pending_identity := Some identity |> <| activity := ActivityEnding |>,
            EndActivity current_identity ReplacedByNewSession)
       | None => starting_ride identity (app_presence self)
       end.

Definition activity_started (self : RideSessionLifecycle) (identity : RideSessionIdentity)
    (activity_id : string) : RideSessionDecision :=
  if negb (bool_decide (ride_identity self = Some identity))
     || negb (bool_decide (activity self = ActivityStarting))
     || negb (accepts_updates (ride_phase self))
  then (self, NoEffect)
  else
    let state := if bool_decide (ride_phase self = RideStarting)
                 then self <| ride_phase := RideActive |> else self in
    (state <| activity := ActivityActive activity_id |>, NoEffect).

Definition activity_ended (self : RideSessionLifecycle) (identity : RideSessionIdentity)
  : RideSessionDecision :=
  if negb (bool_decide (ride_identity self = Some identity)) then (self, NoEffect) else
  match ride_phase self with
  | RideEnding reason =>
      match pending_identity self with
      | Some identity => starting_ride identity (app_presence self)
      | None => (self <| ride_phase := RideEnded reason |> <| activity := ActivityEnded |>, NoEffect)
      end
  | _ => (self, NoEffect)
  end.

Definition activity_unavailable (self : RideSessionLifecycle) (identity : RideSessionIdentity)
  : RideSessionDecision :=
  if negb (bool_decide (ride_identity self = Some identity)) || negb (is_live (ride_phase self))
  then (self, NoEffect)
  else (self <| activity := ActivityUnavailable |>, NoEffect).

Definition app_backgrounded (self : RideSessionLifecycle) : RideSessionDecision :=
  if bool_decide (app_presence self = Background) then (self, NoEffect) else
  (self <| app_presence := Background |>,
   match (if is_live (ride_phase self) then ride_identity self else None) with
   | Some identity => RequestCaptureFlush identity
   | None => NoEffect
   end).
Definition app_foregrounded (self : RideSessionLifecycle) : RideSessionDecision :=
  if bool_decide (app_presence self = Foreground) then (self, NoEffect)
  else (self <| app_presence := Foreground |>, NoEffect).

Definition bluetooth_disconnected (self : RideSessionLifecycle) (at_ : Z) : RideSessionDecision :=
  match ride_identity self with
  | None => (self, NoEffect)
  | Some identity =>
      if negb (accepts_updates (ride_phase self)) then (self, NoEffect) else
      let state := self <| ride_phase := RideReconnecting |>
                        <| last_telemetry_at := Some (default at_ (last_telemetry_at self)) |> in
      match activity state with
      | ActivityActive activity_id | ActivityStale activity_id =>
          (state <| activity := ActivityStale activity_id |>, MarkActivityStale identity)
      | _ => (state, NoEffect)
      end
  end.

Definition bluetooth_connected (self : RideSessionLifecycle) : RideSessionDecision :=
  match ride_phase self with
  | RideReconnecting | RideStale => (self <| ride_phase := RideActive |>, NoEffect)
  | _ => (self, NoEffect)
  end.

Definition telemetry_observed (self : RideSessionLifecycle) (at_ : Z) : RideSessionDecision :=
  match ride_identity self with
  | None => (self, NoEffect)
  | Some identity =>
      if negb (accepts_updates (ride_phase self)) then (self, NoEffect) else
      let state := self <| last_telemetry_at := Some at_ |> <| ride_phase := RideActive |> in
      match activity state with
      | ActivityActive _ => (state, UpdateActivity identity)
      | ActivityStale activity_id =>
          (state <| activity := ActivityActive activity_id |>, UpdateActivity identity)
      | _ => (state, NoEffect)
      end
  end.

Definition freshness_checked (self : RideSessionLifecycle) (now stale_after : Z)
  : RideSessionDecision :=
  match ride_identity self, last_telemetry_at self with
  | Some identity, Some last_telemetry_at =>
      if negb (accepts_updates (ride_phase self))
         || bool_decide (ride_phase self = RideStale)
         || bool_decide (sat_sub now last_telemetry_at < stale_after)
      then (self, NoEffect)
      else
        let state := self <| ride_phase := RideStale |> in
        match activity state with
        | ActivityActive activity_id =>
            (state <| activity := ActivityStale activity_id |>, MarkActivityStale identity)
        | _ => (state, NoEffect)
        end
  | _, _ => (self, NoEffect)
  end.

Definition end_ride (self : RideSessionLifecycle) (reason : RideSessionEndReason)
  : RideSessionDecision :=
  match ride_identity self with
  | None => (self <| ride_phase := RideEnded reason |> <| activity := ActivityEnded |>, NoEffect)
  | Some identity =>
      if negb (is_live (ride_phase self)) then (self, NoEffect) else
      match ride_phase self with
      | RideEnding existing_reason =>
          if bool_decide (existing_reason = reason)
             && bool_decide (activity self = ActivityUnavailable)
          then (self <| activity := ActivityEnding |>, EndActivity identity reason)
          else (self, NoEffect)
      | _ =>
          (self <| ride_phase := RideEnding reason |> <| pending_identity := None |>
                <| activity := ActivityEnding |>, EndActivity identity reason)
      end
  end.

Definition transition (self : RideSessionLifecycle) (input : RideSessionInput)
  : RideSessionDecision :=
  match input with
  | InStart identity => start self identity
  | InActivityStarted identity activity_id => activity_started self identity activity_id
  | InActivityEnded identity => activity_ended self identity
  | InActivityUnavailable identity => activity_unavailable self identity
  | InAppBackgrounded => app_backgrounded self
  | InAppForegrounded => app_foregrounded self
  | InBluetoothDisconnected at_ => bluetooth_disconnected self at_
  | InBluetoothConnected => bluetooth_connected self
  | InTelemetryObserved at_ => telemetry_observed self at_
  | InFreshnessChecked now => freshness_checked self now RIDE_SESSION_STALE_AFTER
  | InUserDisconnected => end_ride self UserDisconnect
  | InUserStopped => end_ride self UserStop
  | InReconnectExhausted => end_ride self ReconnectExhausted
  | InAppReset => end_ride self AppReset
  | InUnrecoverableSessionFailure => end_ride self UnrecoverableSessionFailure
  end.

(** ** The durable marker *)

Record RideSessionMarkerWire := {
  wire_version : Z;
  wire_platform_identifier : list Z;
  wire_session_id : list Z;
}.

Section Marker.
Context (to_vec : RideSessionMarkerWire -> option (list Z)).
Context (from_slice : list Z -> option RideSessionMarkerWire).
Context (uuid_to_string : Z -> list Z) (uuid_parse_str : list Z -> option Z).

Definition marker_encode (self : RideSessionMarker) : result (list Z) RideSessionMarkerError :=
  ok_or (to_vec {| wire_version := RIDE_SESSION_MARKER_VERSION;
                   wire_platform_identifier := platform_identifier (marker_identity self);
                   wire_session_id := uuid_to_string (session_id (marker_identity self)) |})
    InvalidEncoding.

Definition marker_decode (bytes : list Z) : result RideSessionMarker RideSessionMarkerError :=
  wire <-? ok_or (from_slice bytes) InvalidEncoding;
  if negb (bool_decide (wire_version wire = RIDE_SESSION_MARKER_VERSION))
  then Err UnsupportedVersion else
  if bool_decide (trim (wire_platform_identifier wire) = []) then Err InvalidIdentity else
  session_id <-? ok_or (uuid_parse_str (wire_session_id wire)) InvalidIdentity;
  Ok {| marker_identity := {| platform_identifier := wire_platform_identifier wire;
                              session_id := session_id |} |}.
End Marker.

(** ** Executions of the repository's tests *)

Definition wheel : RideSessionIdentity := {| platform_identifier := [119]; session_id := 1 |}.
Definition board_ride : RideSessionIdentity := {| platform_identifier := [98]; session_id := 2 |}.

(** Background and reconnect keep the ride; it ends once. *)
Example ride_survives_reconnect :
  run_outputs transition default_ride
    [ InStart wheel; InActivityStarted wheel "activity"; InTelemetryObserved 1000;
      InAppBackgrounded; InBluetoothDisconnected 1500; InBluetoothConnected;
      InTelemetryObserved 4000; InFreshnessChecked 5999; InFreshnessChecked 6000;
      InUserStopped; InUserDisconnected; InActivityEnded wheel ]
  = [ StartActivity wheel; NoEffect; UpdateActivity wheel; RequestCaptureFlush wheel;
      MarkActivityStale wheel; NoEffect; UpdateActivity wheel; NoEffect; MarkActivityStale wheel;
      EndActivity wheel UserStop; NoEffect; NoEffect ].
Proof. reflexivity. Qed.

(** ** The contract of the Live Activity

    What the platform may rely on, whatever happens: at most one activity is
    open; it is updated only while open; it is closed before the next one is
    opened, and the next one is the ride that replaced it. *)

Inductive Projection :=
| NoActivity
| Open (identity : RideSessionIdentity)
| Closing (identity : RideSessionIdentity) (reason : RideSessionEndReason)
    (next : option RideSessionIdentity)
| Closed (identity : RideSessionIdentity) (reason : RideSessionEndReason).
#[global] Instance projection_eq_dec : EqDecision Projection.
Proof. solve_decision. Defined.

(** The reason an input ends a ride for, and the ride it starts. *)
Definition ends (input : RideSessionInput) : option RideSessionEndReason :=
  match input with
  | InStart _ => Some ReplacedByNewSession
  | InUserDisconnected => Some UserDisconnect
  | InUserStopped => Some UserStop
  | InReconnectExhausted => Some ReconnectExhausted
  | InAppReset => Some AppReset
  | InUnrecoverableSessionFailure => Some UnrecoverableSessionFailure
  | _ => None
  end.
Definition starts (input : RideSessionInput) : option RideSessionIdentity :=
  match input with InStart identity => Some identity | _ => None end.

Definition guard_spec (b : bool) (p : Projection) : option Projection := if b then Some p else None.

(** One input and its effect, as the platform sees them; nothing if the
    contract forbids them. *)
Definition contract (p : Projection) (input : RideSessionInput) (effect : RideSessionEffect)
  : option Projection :=
  match effect, p with
  | StartActivity i, (NoActivity | Closed _ _) => guard_spec (bool_decide (starts input = Some i)) (Open i)
  | StartActivity i, Closing old _ (Some next) =>
      match input with
      | InActivityEnded j => guard_spec (bool_decide (j = old) && bool_decide (i = next)) (Open next)
      | _ => None
      end
  | (UpdateActivity i | MarkActivityStale i), Open j => guard_spec (bool_decide (i = j)) p
  | EndActivity i r, Open j =>
      guard_spec (bool_decide (i = j) && bool_decide (ends input = Some r)
                  && bool_decide (starts input <> Some i)) (Closing i r (starts input))
  | EndActivity i r, Closing j old next =>
      guard_spec (bool_decide (i = j) && bool_decide (ends input = Some r)
                  && bool_decide (starts input <> Some i)
                  && (bool_decide (r = old) || bool_decide (r = ReplacedByNewSession)))
        (Closing i r (match starts input with Some n => Some n | None => next end))
  | RequestCaptureFlush i, (Open j | Closing j _ _) => guard_spec (bool_decide (i = j)) p
  | NoEffect, Closing i r None =>
      match input with
      | InActivityEnded j => Some (if bool_decide (j = i) then Closed i r else p)
      | _ => Some p
      end
  | NoEffect, Closing i r (Some _) =>
      match input with InActivityEnded j => guard_spec (bool_decide (j <> i)) p | _ => Some p end
  | NoEffect, _ => Some p
  | _, _ => None
  end.

Fixpoint contract_run (p : Projection) (ins : list RideSessionInput)
    (effects : list RideSessionEffect) : option Projection :=
  match ins, effects with
  | i :: ins, e :: effects => p ← contract p i e; contract_run p ins effects
  | _, _ => Some p
  end.

(** What the reducer's state says about the activity. *)
Definition projection (s : RideSessionLifecycle) : Projection :=
  match ride_identity s, ride_phase s with
  | Some i, RideEnding r => Closing i r (pending_identity s)
  | Some i, RideEnded r => Closed i r
  | Some i, (RideStarting | RideActive | RideReconnecting | RideStale) => Open i
  | _, _ => NoActivity
  end.

(** The states that stand for a projection. *)
Definition shown (a : ActivityProjectionState) : bool :=
  match a with ActivityActive _ | ActivityStale _ => true | _ => false end.
Definition implements (s : RideSessionLifecycle) (p : Projection) : Prop :=
  match p with
  | NoActivity => ride_identity s = None /\ is_live (ride_phase s) = false
  | Open i => ride_identity s = Some i /\ accepts_updates (ride_phase s) = true
  | Closing i r next => ride_identity s = Some i /\ ride_phase s = RideEnding r /\
                        (is_Some next -> r = ReplacedByNewSession)
  | Closed i r => ride_identity s = Some i /\ ride_phase s = RideEnded r
  end /\
  (pending_identity s = match p with Closing _ _ next => next | _ => None end) /\
  (shown (activity s) = true -> exists i, p = Open i).

Lemma implements_projection s p : implements s p -> projection s = p.
Proof.
  unfold implements, projection. destruct p; intros (H & Hp & _); destruct_and?;
    destruct (ride_identity s), (ride_phase s); simplify_eq/=; congruence.
Qed.

(** Split a reducer call on the fields it reads. *)
Ltac unfold_ride :=
  cbn [transition];
  unfold start, activity_started, activity_ended, activity_unavailable, app_backgrounded,
    app_foregrounded, bluetooth_disconnected, bluetooth_connected, telemetry_observed,
    freshness_checked, end_ride, starting_ride, guard_spec; simpl.
Ltac ride_cases :=
  repeat (simpl; match goal with
    | |- context [bool_decide ?P] => destruct (bool_decide_reflect P); simplify_eq/=
    | |- context [match ?x with _ => _ end] => is_var x; destruct x; simplify_eq/=
    end).
Ltac ride_solve :=
  unfold_ride; ride_cases;
  first [by exfalso; congruence | by exfalso; eauto | eexists]; (split; [reflexivity|]);
  unfold implements; simpl; split_ands; try done; try congruence; eauto;
  try (intros; exfalso; firstorder congruence).

(** One step of the reducer is one step of the contract. *)
Lemma transition_implements s p i :
  implements s p ->
  exists p', contract p i (transition s i).2 = Some p' /\ implements (transition s i).1 p'.
Proof.
  intros H. unfold implements in H. destruct s as [ph id pe ac lt pr], p as [|i0|i0 r0 n0|i0 r0];
    destruct H as (H & Hp & Hs); simpl in *; destruct_and?; simplify_eq/=.
  - destruct ph; try done; destruct i; ride_solve.
  - destruct ph; try done; destruct i; ride_solve.
  - assert (shown ac = false) by (destruct (shown ac); [destruct Hs; done|done]).
    destruct i; ride_solve.
  - assert (shown ac = false) by (destruct (shown ac); [destruct Hs; done|done]).
    destruct i; ride_solve.
Qed.

Lemma run_implements s p ins :
  implements s p ->
  exists p', contract_run p ins (run_outputs transition s ins) = Some p' /\
             implements (run_state transition s ins) p'.
Proof.
  revert s p. induction ins as [|i ins IH]; intros s p H; [by exists p|].
  rewrite run_state_cons, run_outputs_cons. simpl.
  destruct (transition_implements s p i H) as (p1 & -> & H1). simpl. exact (IH _ _ H1).
Qed.

Lemma default_implements : implements default_ride NoActivity.
Proof. by unfold implements. Qed.

(** C36: the reducer refines the contract of the Live Activity.  Whatever
    events a fresh reducer is given, in whatever order, every effect it asks
    for is one the contract allows after the events and effects before it: an
    activity is started only by a start request or when the ride it replaces
    has been ended by the platform, updated and marked stale only while it is
    the open one, and ended with the reason of the event that ends it; the
    state the contract ends in is the one the reducer's own fields show. *)
Theorem ride_refines_activity ins :
  contract_run NoActivity ins (run_outputs transition default_ride ins) =
  Some (projection (run_state transition default_ride ins)).
Proof.
  destruct (run_implements _ _ ins default_implements) as (p & Hp & H).
  by rewrite Hp, (implements_projection _ _ H).
Qed.

(** ** The end of a ride *)

(** Once a ride is closing for an explicit reason, the contract lets nothing
    but a start request move it: no other effect is possible. *)
Definition closing_for (i : RideSessionIdentity) (r : RideSessionEndReason) (p : Projection) : Prop :=
  p = Closing i r None \/ p = Closed i r.
Definition end_effect (i : RideSessionIdentity) (r : RideSessionEndReason)
    (e : RideSessionEffect) : Prop :=
  e = NoEffect \/ e = EndActivity i r \/ e = RequestCaptureFlush i.

Lemma contract_closing i r p p' input e :
  closing_for i r p -> starts input = None -> contract p input e = Some p' ->
  closing_for i r p' /\ end_effect i r e.
Proof.
  unfold closing_for, end_effect. intros [-> | ->] Hn.
  - destruct e; simpl; unfold guard_spec; try done; rewrite ?Hn.
    + destruct input; intros [= <-]; auto. case_bool_decide; auto.
    + destruct (bool_decide_reflect (identity = i)) as [->|]; [|done].
      destruct (bool_decide_reflect (ends input = Some reason)) as [Hr|]; [|done].
      destruct (bool_decide_reflect (reason = r)) as [->|]; simpl.
      * intros [= <-]; auto.
      * destruct (bool_decide_reflect (reason = ReplacedByNewSession)) as [->|];
          [by destruct input|done].
    + case_bool_decide; [intros [= <-]; subst; auto|done].
  - destruct e; simpl; unfold guard_spec; try done; [intros [= <-]; auto|].
    by rewrite Hn.
Qed.

Lemma contract_run_closing i r p p' ins es :
  closing_for i r p -> Forall (fun input => starts input = None) ins ->
  length es = length ins -> contract_run p ins es = Some p' ->
  closing_for i r p' /\ Forall (end_effect i r) es.
Proof.
  revert p es. induction ins as [|input ins IH]; intros p es Hp Hn Hl Hc;
    destruct es as [|e es]; try done.
  - simplify_eq/=. by split.
  - simpl in Hc. destruct (contract p input e) as [p1|] eqn:E; [|done]. simpl in Hc.
    apply Forall_cons in Hn as [Hi Hn].
    destruct (contract_closing _ _ _ _ _ _ Hp Hi E) as [H1 He].
    destruct (IH p1 es H1 Hn ltac:(simpl in Hl; lia) Hc). auto.
Qed.

Lemma run_from_default ins :
  implements (run_state transition default_ride ins) (projection (run_state transition default_ride ins)).
Proof.
  destruct (run_implements _ _ ins default_implements) as (p & _ & H).
  by rewrite (implements_projection _ _ H).
Qed.

(** The first explicit end decides.  After any history that leaves a ride
    open, an event that ends it (disconnect, stop, exhausted reconnects, app
    reset, failure) asks for the activity's end with exactly that reason, and
    no later event other than the start of a new ride changes the reason,
    reopens, updates or restarts the activity: the only effects left are the
    same end request again, after the platform could not execute it, and
    capture flushes. *)
Theorem terminal_reason_kept pre i input r later :
  let s := run_state transition default_ride pre in
  projection s = Open i -> ends input = Some r -> starts input = None ->
  Forall (fun input => starts input = None) later ->
  (transition s input).2 = EndActivity i r /\
  closing_for i r (projection (run_state transition (transition s input).1 later)) /\
  Forall (end_effect i r) (run_outputs transition (transition s input).1 later).
Proof.
  intros s Ho He Hn Hl. pose proof (run_from_default pre) as Hs. fold s in Hs. rewrite Ho in Hs.
  assert (E : transition s input =
    (s <| ride_phase := RideEnding r |> <| pending_identity := None |>
       <| activity := ActivityEnding |>, EndActivity i r)).
  { destruct Hs as [[Hi Ha] _]. destruct input; simplify_eq/=; unfold end_ride; rewrite Hi;
      destruct s as [ph ? ? ? ? ?]; simpl in *; by destruct ph. }
  destruct (transition_implements s (Open i) input Hs) as (p & Hc & Hp).
  rewrite E in Hc, Hp |- *. cbn [fst snd] in *. split; [done|].
  assert (Hcl : closing_for i r p).
  { simpl in Hc. unfold guard_spec in Hc. rewrite Hn in Hc. case_match; [|done]. left. by simplify_eq. }
  destruct (run_implements _ _ later Hp) as (p' & Hr & Hp').
  rewrite (implements_projection _ _ Hp').
  eapply contract_run_closing; eauto. apply run_outputs_length.
Qed.

Lemma terminal_reason_kept_witness :
  let s := run_state transition default_ride [InStart wheel; InActivityStarted wheel "a"] in
  closing_for wheel UserStop
    (projection (run_state transition (transition s InUserStopped).1
       [InActivityUnavailable wheel; InUserDisconnected; InUserStopped; InActivityEnded wheel])) /\
  run_outputs transition (transition s InUserStopped).1
       [InActivityUnavailable wheel; InUserDisconnected; InUserStopped; InActivityEnded wheel]
  = [NoEffect; NoEffect; EndActivity wheel UserStop; NoEffect].
Proof.
  split; [|reflexivity].
  eapply (terminal_reason_kept [InStart wheel; InActivityStarted wheel "a"] wheel InUserStopped UserStop
    [InActivityUnavailable wheel; InUserDisconnected; InUserStopped; InActivityEnded wheel]);
    try reflexivity. repeat constructor.
Defined.

(** ** Staleness *)

Lemma freshness_quiet s i id t nows :
  ride_identity s = Some i -> ride_phase s = RideActive -> activity s = ActivityActive id ->
  last_telemetry_at s = Some t -> Forall (fun now => sat_sub now t < RIDE_SESSION_STALE_AFTER) nows ->
  run transition s (InFreshnessChecked <$> nows) = (s, replicate (length nows) NoEffect).
Proof.
  intros Hi Hp Ha Ht. induction nows as [|now nows IH]; intros Hn; [done|].
  apply Forall_cons in Hn as [Hnow Hn].
  assert (E : transition s (InFreshnessChecked now) = (s, NoEffect)).
  { simpl. unfold freshness_checked. rewrite Hi, Ht, Hp. simpl.
    by rewrite (bool_decide_eq_true_2 _ Hnow). }
  cbn [fmap list_fmap run]. rewrite E. by rewrite (IH Hn).
Qed.
Lemma freshness_stale_quiet s nows :
  ride_phase s = RideStale ->
  run transition s (InFreshnessChecked <$> nows) = (s, replicate (length nows) NoEffect).
Proof.
  intros Hp. induction nows as [|now nows IH]; [done|].
  assert (E : transition s (InFreshnessChecked now) = (s, NoEffect)).
  { simpl. unfold freshness_checked. rewrite Hp.
    destruct (ride_identity s), (last_telemetry_at s); reflexivity. }
  cbn [fmap list_fmap run]. rewrite E. by rewrite IH.
Qed.

(** The shown activity goes stale exactly at the deadline, and once.
    After a telemetry sample at [t] reaches a ride whose activity is shown,
    freshness checks that see it less than 2 seconds old ask for nothing; the
    first that sees it 2 seconds old or older marks the activity stale; no
    later check repeats it, and the next sample updates the activity again. *)
Theorem stale_marked_once s i t early now late t' :
  ride_identity s = Some i -> accepts_updates (ride_phase s) = true -> shown (activity s) = true ->
  Forall (fun now => sat_sub now t < RIDE_SESSION_STALE_AFTER) early ->
  RIDE_SESSION_STALE_AFTER <= sat_sub now t ->
  run_outputs transition s
    (InTelemetryObserved t :: (InFreshnessChecked <$> early) ++
     InFreshnessChecked now :: (InFreshnessChecked <$> late) ++ [InTelemetryObserved t']) =
  UpdateActivity i :: replicate (length early) NoEffect ++ MarkActivityStale i :: replicate (length late) NoEffect
    ++ [UpdateActivity i].
Proof.
  intros Hi Ha Hs He Hn. rewrite run_outputs_cons.
  assert (exists id, transition s (InTelemetryObserved t) =
    (s <| last_telemetry_at := Some t |> <| ride_phase := RideActive |>
       <| activity := ActivityActive id |>, UpdateActivity i)) as [id ->].
  { simpl. unfold telemetry_observed. rewrite Hi, Ha. destruct s as [? ? ? ac ? ?]; simpl in *.
    destruct ac; simplify_eq/=; eauto. }
  cbn [fst snd]. f_equal. rewrite run_outputs_app.
  unfold run_outputs at 1. unfold run_state at 1.
  erewrite freshness_quiet by (eauto; by destruct s). cbn [fst snd]. f_equal.
  rewrite run_outputs_cons.
  assert (E : transition (s <| last_telemetry_at := Some t |> <| ride_phase := RideActive |>
       <| activity := ActivityActive id |>) (InFreshnessChecked now) =
    (s <| last_telemetry_at := Some t |> <| ride_phase := RideStale |>
       <| activity := ActivityStale id |>, MarkActivityStale i)).
  { destruct s as [? ? ? ac ? ?]; simpl in *. subst. unfold freshness_checked. simpl.
    by rewrite bool_decide_eq_false_2 by lia. }
  rewrite E. cbn [fst snd]. f_equal. rewrite run_outputs_app.
  unfold run_outputs at 1. unfold run_state at 1.
  rewrite freshness_stale_quiet by (by destruct s). cbn [fst snd]. f_equal.
  rewrite run_outputs_one. f_equal. destruct s as [? ? ? ac ? ?]; simpl in *. by subst.
Qed.

Lemma stale_marked_once_witness :
  let s := run_state transition default_ride [InStart wheel; InActivityStarted wheel "a"] in
  run_outputs transition s
    (InTelemetryObserved 1000 :: (InFreshnessChecked <$> [1500; 2999]) ++
     InFreshnessChecked 3000 :: (InFreshnessChecked <$> [3001]) ++ [InTelemetryObserved 3500])
  = [UpdateActivity wheel; NoEffect; NoEffect; MarkActivityStale wheel; NoEffect; UpdateActivity wheel].
Proof.
  apply (stale_marked_once
    (run_state transition default_ride [InStart wheel; InActivityStarted wheel "a"])
    wheel 1000 [1500; 2999] 3000 [3001] 3500); [reflexivity..| |by vm_compute].
  repeat constructor.
Defined.

(** A ride whose telemetry ran out before ActivityKit confirmed the activity
    shows it as current: no later freshness check marks it stale. *)
Lemma late_activity_never_stale nows :
  let s := run_state transition default_ride
    [InStart wheel; InTelemetryObserved 0; InFreshnessChecked 2000; InActivityStarted wheel "a"] in
  activity s = ActivityActive "a" /\ ride_phase s = RideStale /\
  run transition s (InFreshnessChecked <$> nows) = (s, replicate (length nows) NoEffect).
Proof. intros s. split_ands; try reflexivity. by apply freshness_stale_quiet. Qed.

(** ** The marker survives a relaunch *)

Section MarkerRoundTrip.
Context (to_vec : RideSessionMarkerWire -> option (list Z)).
Context (from_slice : list Z -> option RideSessionMarkerWire).
Context (uuid_to_string : Z -> list Z) (uuid_parse_str : list Z -> option Z).
(** [serde_json] reads back what it wrote, [uuid] parses what it printed. *)
Context (json_reads_back : forall wire bytes, to_vec wire = Some bytes -> from_slice bytes = Some wire).
Context (uuid_reads_back : forall id, uuid_parse_str (uuid_to_string id) = Some id).

(** The ride survives a relaunch.  A marker taken from the reducer after
    any history exists exactly while a ride is live; one that encodes decodes
    to the same identity unless the platform identifier is blank, which is
    refused; and recovery from it keeps that identity: with the same restored
    peripheral it starts the activity of that very ride, with another or none
    it waits for a reconnection with no effect.  Either way the ride is open
    again, and its marker is the one it was recovered from. *)
Theorem marker_survives_relaunch ins m bytes restored presence :
  marker (run_state transition default_ride ins) = Some m ->
  marker_encode to_vec uuid_to_string m = Ok bytes ->
  marker_decode from_slice uuid_parse_str bytes =
    (if bool_decide (trim (platform_identifier (marker_identity m)) = [])
     then Err InvalidIdentity else Ok m) /\
  ride_identity (run_state transition default_ride ins) = Some (marker_identity m) /\
  projection (recover m restored presence).1 = Open (marker_identity m) /\
  marker (recover m restored presence).1 = Some m /\
  (recover m restored presence).2 =
    (if bool_decide (restored = Some (platform_identifier (marker_identity m)))
     then StartActivity (marker_identity m) else NoEffect).
Proof.
  intros Hm He. split_ands.
  - unfold marker_encode in He. apply ok_or_Ok, json_reads_back in He.
    unfold marker_decode. rewrite He. simpl. case_bool_decide; [done|].
    rewrite uuid_reads_back. simpl. by destruct m as [[? ?]].
  - unfold marker in Hm. destruct (negb _); [done|]. destruct (ride_identity _); by simplify_eq/=.
  - unfold recover. by case_bool_decide.
  - unfold recover. destruct m. by case_bool_decide.
  - unfold recover. by case_bool_decide.
Qed.
End MarkerRoundTrip.

(** A serializer and a UUID printer with the properties assumed of the packages. *)
Definition sample_to_vec (w : RideSessionMarkerWire) : option (list Z) :=
  Some (wire_version w :: Z.of_nat (length (wire_platform_identifier w)) ::
        wire_platform_identifier w ++ wire_session_id w).
Definition sample_from_slice (bytes : list Z) : option RideSessionMarkerWire :=
  match bytes with
  | v :: n :: rest => Some {| wire_version := v; wire_platform_identifier := take (Z.to_nat n) rest;
                              wire_session_id := drop (Z.to_nat n) rest |}
  | _ => None
  end.
Definition sample_uuid (id : Z) : list Z := [id].
Definition sample_parse (text : list Z) : option Z := head text.

Lemma sample_reads_back wire bytes :
  sample_to_vec wire = Some bytes -> sample_from_slice bytes = Some wire.
Proof.
  intros [= <-]. simpl. rewrite Nat2Z.id, take_app_length, drop_app_length. by destruct wire.
Qed.

Lemma marker_survives_relaunch_witness :
  marker_decode sample_from_slice sample_parse [1; 1; 119; 1] = Ok {| marker_identity := wheel |} /\
  projection (recover {| marker_identity := wheel |} (Some [119]) Background).1 = Open wheel.
Proof.
  pose proof (marker_survives_relaunch sample_to_vec sample_from_slice sample_uuid sample_parse
    sample_reads_back (fun _ => eq_refl) [InStart wheel] {| marker_identity := wheel |}
    [1; 1; 119; 1] (Some [119]) Background eq_refl eq_refl) as (Hd & _ & Hp & _).
  exact (conj Hd Hp).
Defined.
