(* ===== verification/Text.v ===== *)
(** * Text

    What the source uses of Rust's [String] and [str].  A string is the list
    of its Unicode scalar values; its length in bytes is the length of its
    UTF-8 form. *)

From S2P Require Import Prelude.

Definition text : Type := list Z.
(** The text of an ASCII literal. *)
Definition chars (s : string) : text :=
  (fun a => Z.of_nat (Ascii.nat_of_ascii a)) <$> String.list_ascii_of_string s.

(** [char::len_utf8] and [str::len]. *)
Definition char_len (c : Z) : Z :=
  if bool_decide (c < 128) then 1
  else if bool_decide (c < 2048) then 2
  else if bool_decide (c < 65536) then 3 else 4.
Fixpoint str_len (t : text) : Z :=
  match t with [] => 0 | c :: rest => char_len c + str_len rest end.

(** [char::is_whitespace], the Unicode property [White_Space]. *)
Definition is_whitespace (c : Z) : bool :=
  bool_decide (9 <= c <= 13) || bool_decide (c = 32) || bool_decide (c = 133)
  || bool_decide (c = 160) || bool_decide (c = 5760) || bool_decide (8192 <= c <= 8202)
  || bool_decide (c = 8232) || bool_decide (c = 8233) || bool_decide (c = 8239)
  || bool_decide (c = 8287) || bool_decide (c = 12288).

Fixpoint trim_start (t : text) : text :=
  match t with
  | [] => []
  | c :: rest => if is_whitespace c then trim_start rest else t
  end.
Definition trim (t : text) : text := reverse (trim_start (reverse (trim_start t))).

(** [str::is_char_boundary] and the slice [&t[..n]], which panics elsewhere. *)
Fixpoint is_char_boundary (t : text) (n : Z) : bool :=
  if bool_decide (n = 0) then true else
  match t with
  | [] => false
  | c :: rest =>
      if bool_decide (n < char_len c) then false else is_char_boundary rest (n - char_len c)
  end.
Fixpoint slice_to (t : text) (n : Z) : option text :=
  if bool_decide (n = 0) then Some [] else
  match t with
  | [] => None
  | c :: rest =>
      if bool_decide (n < char_len c) then None else (cons c) <$> slice_to rest (n - char_len c)
  end.

(** [str::strip_prefix]. *)
Fixpoint strip_prefix (prefix t : text) : option text :=
  match prefix, t with
  | [], _ => Some t
  | p :: prefix, c :: t => if bool_decide (p = c) then strip_prefix prefix t else None
  | _ :: _, [] => None
  end.

(** ASCII classes.  The source tests the bytes of a string; the bytes of a
    character outside ASCII are outside every class. *)
Definition is_ascii_digit (c : Z) : bool := bool_decide (48 <= c <= 57).
Definition is_ascii_alphanumeric (c : Z) : bool :=
  is_ascii_digit c || bool_decide (65 <= c <= 90) || bool_decide (97 <= c <= 122).
Definition to_ascii_lowercase (c : Z) : Z := if bool_decide (65 <= c <= 90) then c + 32 else c.
Definition eq_ignore_ascii_case (a b : text) : bool :=
  bool_decide (to_ascii_lowercase <$> a = to_ascii_lowercase <$> b).

(** [str::split]: the parts between the separators, at least one. *)
Fixpoint split (sep : Z) (t : text) : list text :=
  match t with
  | [] => [[]]
  | c :: rest =>
      if bool_decide (c = sep) then [] :: split sep rest
      else match split sep rest with
           | part :: parts => (c :: part) :: parts
           | [] => [[c]]
           end
  end.

(** ** Lemmas *)

Lemma char_len_range c : 1 <= char_len c <= 4.
Proof. unfold char_len. repeat case_bool_decide; lia. Qed.
Lemma str_len_nonneg t : 0 <= str_len t.
Proof. induction t as [|c t IH]; simpl; [lia|]. pose proof (char_len_range c). lia. Qed.
Lemma str_len_app a b : str_len (a ++ b) = str_len a + str_len b.
Proof. induction a as [|c a IH]; simpl; lia. Qed.
Lemma str_len_zero t : str_len t = 0 -> t = [].
Proof.
  destruct t as [|c t]; [done|]. simpl. pose proof (char_len_range c).
  pose proof (str_len_nonneg t). lia.
Qed.

(** A boundary is the length of a prefix, and the slice is that prefix. *)
Lemma slice_to_Some t n p : slice_to t n = Some p <-> p `prefix_of` t /\ str_len p = n.
Proof.
  revert n p. induction t as [|c t IH]; intros n p; simpl.
  - case_bool_decide; split.
    + intros [= <-]. split; [by apply prefix_nil|done].
    + intros [->%prefix_nil_inv _]. done.
    + done.
    + intros [->%prefix_nil_inv Hn]. simpl in Hn. congruence.
  - case_bool_decide as Hn; [|case_bool_decide as Hc].
    + split; [intros [= <-]; split; [apply prefix_nil|done]|].
      intros [_ Hl]. f_equal. symmetry. apply str_len_zero. lia.
    + split; [done|]. intros [[r Hr] Hl]. destruct p as [|d p]; simpl in *; [lia|].
      simplify_eq. pose proof (str_len_nonneg p). lia.
    + rewrite fmap_Some. split.
      * intros (q & [Hq Hl]%IH & ->). split; [by apply prefix_cons|]. simpl. lia.
      * intros [Hp Hl]. destruct p as [|d p]; simpl in *; [lia|].
        pose proof (prefix_cons_inv_1 _ _ _ _ Hp) as ->.
        exists p. split; [|done]. apply IH. split; [by eapply prefix_cons_inv_2|lia].
Qed.

Lemma is_char_boundary_slice t n : is_char_boundary t n = bool_decide (is_Some (slice_to t n)).
Proof.
  revert n. induction t as [|c t IH]; intros n; simpl.
  - case_bool_decide; [by rewrite bool_decide_eq_true_2 by eauto|].
    symmetry. apply bool_decide_eq_false_2. by intros [? ?].
  - case_bool_decide; [by rewrite bool_decide_eq_true_2 by eauto|].
    case_bool_decide; [symmetry; apply bool_decide_eq_false_2; by intros [? ?]|].
    rewrite IH. apply bool_decide_ext. by rewrite fmap_is_Some.
Qed.

(** The longest prefix of at most [n] bytes. *)
Fixpoint longest_fit (t : text) (n : Z) : text :=
  match t with
  | [] => []
  | c :: rest => if bool_decide (char_len c <= n) then c :: longest_fit rest (n - char_len c) else []
  end.

Lemma longest_fit_prefix t n : longest_fit t n `prefix_of` t.
Proof.
  revert n. induction t as [|c t IH]; intros n; simpl; [done|].
  case_bool_decide; [by apply prefix_cons|apply prefix_nil].
Qed.
Lemma longest_fit_fits t n : 0 <= n -> str_len (longest_fit t n) <= n.
Proof.
  revert n. induction t as [|c t IH]; intros n Hn; simpl; [done|].
  case_bool_decide; simpl; [|lia]. specialize (IH (n - char_len c) ltac:(lia)). lia.
Qed.
(** No boundary lies between the longest fit and the limit. *)
Lemma longest_fit_greatest t n p :
  p `prefix_of` t -> str_len p <= n -> str_len p <= str_len (longest_fit t n).
Proof.
  revert n p. induction t as [|c t IH]; intros n p Hp Hn; simpl.
  - apply prefix_nil_inv in Hp as ->. done.
  - destruct p as [|d p]; [apply str_len_nonneg|]. simpl in Hn.
    pose proof (prefix_cons_inv_1 _ _ _ _ Hp) as ->. pose proof (str_len_nonneg p).
    rewrite bool_decide_eq_true_2 by lia. simpl.
    apply prefix_cons_inv_2 in Hp. specialize (IH (n - char_len c) p Hp ltac:(lia)). lia.
Qed.
(** The limit is at most three bytes behind it, within the text. *)
Lemma longest_fit_close t n :
  0 <= n <= str_len t -> n - 3 <= str_len (longest_fit t n).
Proof.
  revert n. induction t as [|c t IH]; intros n Hn; simpl in *; [lia|].
  pose proof (char_len_range c).
  case_bool_decide; simpl; [|lia]. specialize (IH (n - char_len c) ltac:(lia)). lia.
Qed.

(** A trimmed text is left as it is. *)
Lemma trim_start_idem t : trim_start (trim_start t) = trim_start t.
Proof.
  induction t as [|c t IH]; [done|]. simpl. destruct (is_whitespace c) eqn:E; [exact IH|].
  simpl. by rewrite E.
Qed.
Lemma trim_start_suffix t : exists spaces, t = spaces ++ trim_start t.
Proof.
  induction t as [|c t [spaces IH]]; [by exists []|]. simpl. destruct (is_whitespace c); [|by exists []].
  exists (c :: spaces). by rewrite IH at 1.
Qed.
Lemma trim_idem t : trim (trim t) = trim t.
Proof.
  unfold trim. set (u := trim_start t).
  destruct (trim_start_suffix (reverse u)) as [spaces Hs].
  set (v := trim_start (reverse u)) in *.
  assert (E : trim_start (reverse v) = reverse v).
  { assert (Hu : u = reverse v ++ reverse spaces) by (rewrite <- reverse_app, <- Hs; by rewrite reverse_involutive).
    assert (Hi : trim_start u = u) by apply trim_start_idem.
    destruct (reverse v) as [|c w]; [done|]. rewrite Hu in Hi. simpl in Hi |- *.
    destruct (is_whitespace c); [|done].
    destruct (trim_start_suffix (w ++ reverse spaces)) as [x Hx]. rewrite Hi in Hx.
    apply (f_equal length) in Hx. rewrite !length_app in Hx. simpl in Hx. rewrite length_app in Hx. lia. }
  rewrite E, reverse_involutive. unfold v. by rewrite trim_start_idem.
Qed.
