(* ===== verification/RideLocation.v ===== *)
(** * Locations of a recorded ride

    [cutout-ride-maps/src/coordinate.rs], [location.rs], [summary.rs] and the
    admission policy of [recording.rs]: fixed-point coordinates, location
    samples, the distance and point count of a route, and which sample may
    follow which.  The great-circle distance is computed in floating point, so
    it is the parameter [great_circle] of the definitions that use it. *)

From S2P Require Import Prelude.

(** ** Coordinates *)

Inductive CoordinateError := NonFinite | LatitudeOutOfRange | LongitudeOutOfRange.
Record Coordinate := { latitude : Z; longitude : Z }.
#[global] Instance coordinate_eq_dec : EqDecision Coordinate.
Proof. solve_decision. Defined.

Definition from_fixed_parts (latitude longitude : Z) : result Coordinate CoordinateError :=
  if negb (bool_decide (-900000000 <= latitude <= 900000000)) then Err LatitudeOutOfRange
  else if negb (bool_decide (-1800000000 <= longitude <= 1800000000))
  then Err LongitudeOutOfRange
  else Ok {| latitude := latitude; longitude := longitude |}.

(** ** Samples *)

Inductive LocationSource := Live | PevcapImport.
#[global] Instance location_source_eq_dec : EqDecision LocationSource.
Proof. solve_decision. Defined.

Record LocationSample := {
  coordinate : Coordinate;
  monotonic : Z;
  wall_clock : Z;
  horizontal_accuracy : option Z;    (* millimetres, u32 *)
  source : LocationSource;
}.
#[global] Instance location_sample_eq_dec : EqDecision LocationSample.
Proof. solve_decision. Defined.

Definition same_values (self other : LocationSample) : bool :=
  bool_decide (coordinate self = coordinate other)
  && bool_decide (horizontal_accuracy self = horizontal_accuracy other)
  && bool_decide (source self = source other).

Inductive LocationAdmission := Accepted | Duplicate | OutOfOrder | AccuracyTooLow | UnrealisticJump.
#[global] Instance location_admission_eq_dec : EqDecision LocationAdmission.
Proof. solve_decision. Defined.

Definition sample_admission (self : LocationSample) (previous : option LocationSample)
  : LocationAdmission :=
  match previous with
  | None => Accepted
  | Some previous =>
      if bool_decide (self = previous) then Duplicate
      else if bool_decide (monotonic self <= monotonic previous) then OutOfOrder
      else Accepted
  end.

Definition MAX_HORIZONTAL_ACCURACY_MILLIMETRES : Z := 100000.
Definition MAX_GAP_MILLISECONDS : Z := 30000.
Definition MAX_IMPLIED_SPEED_MILLIMETRES_PER_SECOND : Z := 100000.
Definition TELEMETRY_FRESHNESS_MILLISECONDS : Z := 2000.

Inductive TelemetryFreshness := TelemetryUnavailable | Fresh | Stale.
Definition telemetry_freshness (received_at : option Z) (now : Z) : TelemetryFreshness :=
  match received_at with
  | None => TelemetryUnavailable
  | Some received_at =>
      if bool_decide (now < received_at) then TelemetryUnavailable
      else if bool_decide (sat_sub now received_at <= TELEMETRY_FRESHNESS_MILLISECONDS)
      then Fresh else Stale
  end.

(** ** Summaries *)

Record RideSummary := { point_count : Z; distance_millimetres : Z }.
Definition no_route : RideSummary := {| point_count := 0; distance_millimetres := 0 |}.

(** [checked_mul] of [u128] cannot fail for a [u64], but it is written. *)
Definition average_speed (self : RideSummary) (duration : Z) : option Z :=
  if bool_decide (distance_millimetres self = 0) || bool_decide (duration = 0) then None
  else scaled ← checked_mul u128_max (distance_millimetres self) 1000;
       let speed := scaled / duration in
       if bool_decide (speed <= u64_max) then Some speed else None.

(** [windows(2)]. *)
Fixpoint windows2 {A} (l : list A) : list (A * A) :=
  match l with
  | a :: (b :: _) as rest => (a, b) :: windows2 rest
  | _ => []
  end.

Section Distance.
Context (great_circle : Coordinate -> Coordinate -> Z).

Definition distance_between (first second : LocationSample) : Z :=
  great_circle (coordinate first) (coordinate second).

Definition from_samples (samples : list LocationSample) : RideSummary :=
  {| point_count := Z.of_nat (length samples);
     distance_millimetres :=
       foldl (sat_add u64_max) 0 ((fun p => distance_between p.1 p.2) <$> windows2 samples) |}.

(** ** Which sample may follow which *)

Definition route_admission (recording_started_at : option Z) (previous : option LocationSample)
    (sample : LocationSample) : LocationAdmission :=
  if match recording_started_at with
     | Some started => bool_decide (monotonic sample < started)
     | None => false
     end then OutOfOrder
  else if match horizontal_accuracy sample with
          | Some accuracy => bool_decide (MAX_HORIZONTAL_ACCURACY_MILLIMETRES < accuracy)
          | None => false
          end then AccuracyTooLow
  else match sample_admission sample previous with
  | Accepted =>
      match previous with
      | None => Accepted
      | Some previous =>
          let elapsed := sat_sub (monotonic sample) (monotonic previous) in
          if bool_decide (elapsed <= MAX_GAP_MILLISECONDS)
             && bool_decide (MAX_IMPLIED_SPEED_MILLIMETRES_PER_SECOND * elapsed
                             < distance_between previous sample * 1000)
          then UnrealisticJump else Accepted
      end
  | refused => refused
  end.

(** What an admitted sample has: it is precise, later than its predecessor
    and, within a gap, no faster than 100 m/s. *)
Definition may_follow (previous sample : LocationSample) : Prop :=
  monotonic previous < monotonic sample
  /\ (monotonic sample - monotonic previous <= MAX_GAP_MILLISECONDS ->
      distance_between previous sample * 1000
      <= MAX_IMPLIED_SPEED_MILLIMETRES_PER_SECOND * (monotonic sample - monotonic previous)).

Definition precise (sample : LocationSample) : Prop :=
  forall accuracy, horizontal_accuracy sample = Some accuracy ->
    accuracy <= MAX_HORIZONTAL_ACCURACY_MILLIMETRES.

Lemma route_admission_Accepted started previous sample :
  route_admission started previous sample = Accepted <->
    (forall at_, started = Some at_ -> at_ <= monotonic sample)
    /\ precise sample
    /\ (forall p, previous = Some p -> may_follow p sample).
Proof.
  unfold route_admission, sample_admission, may_follow, precise. split.
  - intros H. step_cases_in H; split_ands; intros ? [= <-]; try lia; split; try lia; intros Hgap;
      match goal with HH : _ \/ _ |- _ => revert HH end;
      rewrite !bool_decide_eq_false; int_lia.
  - intros (Hs & Hp & Hf).
    destruct (match started with Some _ => _ | None => _ end) eqn:E1.
    { destruct started as [at_|]; [|done]. prop_bools. specialize (Hs at_ eq_refl). lia. }
    destruct (match horizontal_accuracy sample with Some _ => _ | None => _ end) eqn:E2.
    { destruct (horizontal_accuracy sample) as [a|]; [|done]. prop_bools.
      specialize (Hp a eq_refl). lia. }
    destruct previous as [p|]; [|done]. destruct (Hf p eq_refl) as [Hlt Hv].
    rewrite bool_decide_eq_false_2 by (intros ->; lia). rewrite bool_decide_eq_false_2 by lia.
    case_bool_decide as Hg; [|done]. simpl. rewrite bool_decide_eq_false_2; [done|].
    revert Hg Hv. int_lia.
Qed.
End Distance.

Lemma average_speed_bounds s d v :
  0 < d -> 0 <= distance_millimetres s -> average_speed s d = Some v ->
  v * d <= distance_millimetres s * 1000 < (v + 1) * d.
Proof.
  unfold average_speed. intros Hd Hm H. case_match_in H; [done|].
  destruct (checked_mul _ _ _) as [x|] eqn:E; simpl in H; [|done].
  apply checked_mul_Some in E as [_ ->]. step_cases_in H. div_nia.
Qed.

Lemma windows2_snoc {A} (l : list A) a b : windows2 (l ++ [a; b]) = windows2 (l ++ [a]) ++ [(a, b)].
Proof.
  induction l as [|c l IH]; [done|]. destruct l as [|d l]; [done|].
  change ((c :: d :: l) ++ [a; b]) with (c :: (d :: l) ++ [a; b]).
  change ((c :: d :: l) ++ [a]) with (c :: (d :: l) ++ [a]).
  simpl in *. by rewrite IH.
Qed.
