(* ===== verification/RideRecorder.v ===== *)
(** * The recorder of a ride

    [cutout-ride-maps/src/recording.rs]: the projection of one live recording,
    [RideMapRecorder].  It admits location samples, splits the route into
    segments, keeps the last points of the route with the totals of all of it,
    associates one vehicle, and measures the time a ride was active.  The
    process-wide counter [NEXT_RECORDING_GENERATION] is passed explicitly; the
    great-circle distance is a parameter, as in [RideLocation]. *)

From S2P Require Import Prelude.
From S2P Require Import ElapsedTime Text RideLocation.
Import Lifecycle.

(** ** Points and segments *)

(** [VehicleIdentity]: a trimmed text that is not empty. *)
Definition VehicleIdentity : Type := text.
Definition vehicle_identity_new (value : text) : option VehicleIdentity :=
  let value := trim value in if bool_decide (value = []) then None else Some value.

Inductive RideSegmentStartReason :=
| ReasonInitial | ReasonResume | ReasonBackgroundGap | ReasonImportBoundary | ReasonStationary.
#[global] Instance start_reason_eq_dec : EqDecision RideSegmentStartReason.
Proof. solve_decision. Defined.

Inductive RouteTelemetryState :=
| GpsOnly | AssociatedNoTelemetry | AssociatedFresh | AssociatedStale.
#[global] Instance telemetry_state_eq_dec : EqDecision RouteTelemetryState.
Proof. solve_decision. Defined.
Definition storage_value (self : RouteTelemetryState) : Z :=
  match self with
  | GpsOnly => 0 | AssociatedNoTelemetry => 1 | AssociatedFresh => 2 | AssociatedStale => 3
  end.
Definition from_storage (value : Z) : option RouteTelemetryState :=
  if bool_decide (value = 0) then Some GpsOnly
  else if bool_decide (value = 1) then Some AssociatedNoTelemetry
  else if bool_decide (value = 2) then Some AssociatedFresh
  else if bool_decide (value = 3) then Some AssociatedStale else None.

Record RideMapPoint := {
  pt_sample : LocationSample;
  pt_segment_id : Z;
  pt_telemetry_state : RouteTelemetryState;
  pt_segment_start_reason : RideSegmentStartReason;
}.
#[global] Instance point_eq_dec : EqDecision RideMapPoint.
Proof. solve_decision. Defined.
Definition point_at (p : RideMapPoint) : Z := monotonic (pt_sample p).

(** [RideMapSegmentId::next]. *)
Definition segment_next (id : Z) : Z := sat_add u64_max id 1.

Definition MAX_LIVE_ROUTE_POINTS : Z := 4096.

Inductive TelemetryObservation :=
| Observed | AlreadyObserved | NotAssociated | TelemetryOutOfOrder | TelemetryRideNotOpen.
Inductive VehicleAssociation :=
| Associated | AlreadyAssociated | CandidateMissing | IdentityMismatch
| AssociationOutOfOrder | AssociationRideNotOpen.

(** Capabilities of the recorder. *)
Inductive AdmittedLocationBoundary := BoundaryContinue | BoundaryStart.
#[global] Instance boundary_eq_dec : EqDecision AdmittedLocationBoundary.
Proof. solve_decision. Defined.
Record AdmittedLocationSample := {
  ad_point : RideMapPoint;
  ad_boundary : AdmittedLocationBoundary;
  ad_recording_generation : Z;
  ad_active_interval_generation : Z;
}.
Definition admitted_at (a : AdmittedLocationSample) : Z := point_at (ad_point a).
(** [ClockOnlyLocationObservation] and [StationaryLocationObservation]. *)
Record ObservationCapability := {
  ob_sample : LocationSample;
  ob_recording_generation : Z;
  ob_active_interval_generation : Z;
}.
Inductive LocationRecordingDecision :=
| Record_ (admitted : AdmittedLocationSample)
| ObserveClockOnly (observation : ObservationCapability)
| Rejected (reason : LocationAdmission).

(** ** Timing *)

Record RideRecordingTiming := {
  tm_last_event : Z;
  tm_paused_at : option Z;
  tm_paused_duration : Z;
  tm_completed_duration : Z;
}.
#[global] Instance eta_timing : Eta RideRecordingTiming := fun r =>
  Build_RideRecordingTiming (tm_last_event r) (tm_paused_at r) (tm_paused_duration r)
    (tm_completed_duration r).

Definition duration_at (self : RideRecordingTiming) (state : RideLifecycleState)
    (created_at at_ : Z) : Z :=
  let active at_ := sat_sub (sat_sub at_ created_at) (tm_paused_duration self) in
  match state with
  | Active => active at_
  | Paused => active (match tm_paused_at self with Some paused_at => paused_at | None => at_ end)
  | _ => tm_completed_duration self
  end.

Definition clamped_transition_timestamp (created_at : Z) (latest_observed : option Z)
    (requested_at : Z) : Z :=
  Z.max (Z.max requested_at created_at)
    (match latest_observed with Some value => value | None => 0 end).

Definition transitioned (self : RideRecordingTiming) (transition : ValidatedRideTransition)
    (created_at at_ : Z) : RideRecordingTiming :=
  let at_ := clamped_transition_timestamp created_at (Some (tm_last_event self)) at_ in
  let timing :=
    match previous transition, next transition with
    | Active, Paused => self <| tm_paused_at := Some at_ |>
    | (Paused | Interrupted), Active =>
        let recorded := duration_at self (previous transition) created_at at_ in
        self <| tm_paused_duration := sat_sub (sat_sub at_ created_at) recorded |>
             <| tm_paused_at := None |>
    | (Active | Paused), (Stopped | Interrupted) =>
        self <| tm_completed_duration := duration_at self (previous transition) created_at at_ |>
             <| tm_paused_at := None |>
    | _, _ => self
    end in
  match previous transition, next transition with
  | (Stopped | Interrupted), (Saved | Discarded) => timing
  | _, _ => timing <| tm_last_event := at_ |>
  end.

(** ** The recorder *)

Record RideMapMetadata := {
  md_candidate_vehicle : option VehicleIdentity;
  md_associated_vehicle : option VehicleIdentity;
  md_associated_at : option Z;
  md_last_telemetry_at : option Z;
  md_background_gap_count : Z;
}.

Record RideMapRecorder := {
  state : option RideLifecycleState;
  recording_generation : option Z;
  active_interval_generation : Z;
  created_at : Z;
  candidate_vehicle : option VehicleIdentity;
  associated_vehicle : option VehicleIdentity;
  associated_at : option Z;
  last_telemetry_at : option Z;
  latest_location_observation : option LocationSample;
  stationary_boundary_at : option Z;
  points : list RideMapPoint;
  first_point_sequence : Z;
  summary : RideSummary;
  segment_id : Z;
  segment_started : bool;
  background_gap_count : Z;
  last_monotonic : Z;
  active_started_at : option Z;
  paused_at : option Z;
  paused_duration : Z;
  completed_duration : Z;
}.
#[global] Instance eta_recorder : Eta RideMapRecorder := fun r =>
  Build_RideMapRecorder (state r) (recording_generation r) (active_interval_generation r)
    (created_at r) (candidate_vehicle r) (associated_vehicle r) (associated_at r)
    (last_telemetry_at r) (latest_location_observation r) (stationary_boundary_at r)
    (points r) (first_point_sequence r) (summary r) (segment_id r) (segment_started r)
    (background_gap_count r) (last_monotonic r) (active_started_at r) (paused_at r)
    (paused_duration r) (completed_duration r).

Definition recorder_new : RideMapRecorder := {|
  state := None; recording_generation := None; active_interval_generation := 0;
  created_at := 0; candidate_vehicle := None; associated_vehicle := None;
  associated_at := None; last_telemetry_at := None; latest_location_observation := None;
  stationary_boundary_at := None; points := []; first_point_sequence := 0;
  summary := no_route; segment_id := 0; segment_started := false;
  background_gap_count := 0; last_monotonic := 0; active_started_at := None;
  paused_at := None; paused_duration := 0; completed_duration := 0 |}.

(** [try_update] of the counter, then [NonZeroU64::new] of what it held. *)
Definition next_recording_generation (counter : Z) : option Z * Z :=
  match checked_add u64_max counter 1 with
  | Some bumped => (if bool_decide (counter = 0) then None else Some counter, bumped)
  | None => (None, counter)
  end.

Definition recording_timing (self : RideMapRecorder) : RideRecordingTiming :=
  {| tm_last_event := last_monotonic self; tm_paused_at := paused_at self;
     tm_paused_duration := paused_duration self;
     tm_completed_duration := completed_duration self |}.

Definition duration_milliseconds_at (self : RideMapRecorder) (at_ : Z) : Z :=
  duration_at (recording_timing self) (default Draft (state self)) (created_at self) at_.
Definition duration_milliseconds (self : RideMapRecorder) : Z :=
  duration_milliseconds_at self (last_monotonic self).

Definition accepts_recording_observation_at (self : RideMapRecorder) (at_ : Z) : bool :=
  bool_decide (state self = Some Active)
  && match active_started_at self with
     | Some start => bool_decide (start <= at_)
     | None => false
     end.

Definition segment_count (self : RideMapRecorder) : Z :=
  if bool_decide (point_count (summary self) = 0) then 0 else segment_next (segment_id self).

Definition is_open (self : RideMapRecorder) : bool :=
  match state self with Some (Active | Paused) => true | _ => false end.
Definition later_than (o : option Z) (at_ : Z) : bool :=
  match o with Some t => bool_decide (t < at_) | None => false end.

(** *** Lifecycle

    [start] assigns every field. *)

Definition start (self : RideMapRecorder) (counter at_ : Z) (candidate : option VehicleIdentity)
  : RideMapRecorder * Z * result unit TransitionError :=
  if negb (match state self with
           | None | Some (Stopped | Interrupted | Saved | Discarded) => true
           | _ => false
           end)
  then (self, counter, Err Invalid)
  else match next_recording_generation counter with
  | (None, counter) => (self, counter, Err Invalid)
  | (Some generation, counter) =>
      ({| state := Some Active; recording_generation := Some generation;
          active_interval_generation := 0; created_at := at_; candidate_vehicle := candidate;
          associated_vehicle := None; associated_at := None; last_telemetry_at := None;
          latest_location_observation := None; stationary_boundary_at := None; points := [];
          first_point_sequence := 0; summary := no_route; segment_id := 0;
          segment_started := true; background_gap_count := 0; last_monotonic := at_;
          active_started_at := Some at_; paused_at := None; paused_duration := 0;
          completed_duration := 0 |}, counter, Ok tt)
  end.

Definition validate_transition (self : RideMapRecorder) (event : RideEvent)
  : result ValidatedRideTransition TransitionError :=
  lifecycle <-? ok_or (state self) Invalid; transition lifecycle event.

Definition resumes (t : ValidatedRideTransition) : bool :=
  match previous t, next t with (Paused | Interrupted), Active => true | _, _ => false end.

Definition active_started_after (self : RideMapRecorder) (t : ValidatedRideTransition) (at_ : Z)
  : option Z :=
  match previous t, next t with
  | Active, (Paused | Interrupted | Stopped) | (Paused | Interrupted), Stopped => None
  | (Paused | Interrupted), Active => Some at_
  | _, _ => active_started_at self
  end.

Definition apply_transition_at (self : RideMapRecorder) (t : ValidatedRideTransition) (at_ : Z)
  : RideMapRecorder * result unit TransitionError :=
  if negb (bool_decide (state self = Some (previous t))) then (self, Err Invalid) else
  match (if resumes t then checked_add u64_max (active_interval_generation self) 1
         else Some (active_interval_generation self)) with
  | None => (self, Err Invalid)
  | Some interval =>
      let at_ := clamped_transition_timestamp (created_at self) (Some (last_monotonic self)) at_ in
      let timing := transitioned (recording_timing self) t (created_at self) at_ in
      let started := active_started_after self t at_ in
      let opens_segment :=
        resumes t && negb (segment_started self) && negb (bool_decide (points self = [])) in
      (self <| paused_at := tm_paused_at timing |>
            <| paused_duration := tm_paused_duration timing |>
            <| completed_duration := tm_completed_duration timing |>
            <| segment_id := if opens_segment then segment_next (segment_id self)
                             else segment_id self |>
            <| segment_started := segment_started self || opens_segment |>
            <| active_started_at := started |>
            <| active_interval_generation := interval |>
            <| last_monotonic := tm_last_event timing |>
            <| state := Some (next t) |>, Ok tt)
  end.

Definition apply_transition (self : RideMapRecorder) (t : ValidatedRideTransition)
  : RideMapRecorder * result unit TransitionError :=
  apply_transition_at self t (last_monotonic self).

Definition save_interrupted_at_recorded_duration (self : RideMapRecorder) (recorded : Z)
  : RideMapRecorder * result unit TransitionError :=
  if negb (bool_decide (state self = Some Interrupted))
     || bool_decide (is_Some (paused_at self))
     || bool_decide (completed_duration self < recorded)
  then (self, Err Invalid)
  else match validate_transition self Save with
  | Err e => (self, Err e)
  | Ok save =>
      match apply_transition self save with
      | (self, Err e) => (self, Err e)
      | (self, Ok _) => (self <| completed_duration := recorded |>, Ok tt)
      end
  end.

(** *** The vehicle *)

Definition observe_vehicle (self : RideMapRecorder) (identity : VehicleIdentity) (at_ : Z)
  : RideMapRecorder * VehicleAssociation :=
  if negb (is_open self) then (self, AssociationRideNotOpen)
  else if bool_decide (at_ < last_monotonic self) then (self, AssociationOutOfOrder)
  else match associated_vehicle self with
  | Some associated =>
      (self, if bool_decide (associated = identity) then AlreadyAssociated else IdentityMismatch)
  | None =>
      if match candidate_vehicle self with
         | Some candidate => negb (bool_decide (candidate = identity))
         | None => false
         end
      then (self, IdentityMismatch)
      else (self <| associated_vehicle := Some identity |>
                 <| candidate_vehicle := None |>
                 <| associated_at := Some at_ |>, Associated)
  end.

Definition observe_telemetry (self : RideMapRecorder) (at_ : Z)
  : RideMapRecorder * TelemetryObservation :=
  if negb (is_open self) then (self, TelemetryRideNotOpen) else
  match associated_at self with
  | None => (self, NotAssociated)
  | Some associated_at =>
      if bool_decide (at_ < associated_at) || bool_decide (at_ < created_at self)
      then (self, TelemetryOutOfOrder)
      else if bool_decide (last_telemetry_at self = Some at_) then (self, AlreadyObserved)
      else if match last_telemetry_at self with
              | Some previous => bool_decide (at_ < previous)
              | None => false
              end
      then (self, TelemetryOutOfOrder)
      else (self <| last_telemetry_at := Some at_ |>, Observed)
  end.

Definition telemetry_state_at (self : RideMapRecorder) (at_ : Z) : RouteTelemetryState :=
  if bool_decide (associated_vehicle self = None) then GpsOnly
  else if match associated_at self with
          | Some associated_at => bool_decide (at_ < associated_at)
          | None => false
          end
  then GpsOnly
  else match last_telemetry_at self with
  | None => AssociatedNoTelemetry
  | Some last =>
      if bool_decide (at_ < last) then AssociatedNoTelemetry
      else if bool_decide (TELEMETRY_FRESHNESS_MILLISECONDS < sat_sub at_ last)
      then AssociatedStale else AssociatedFresh
  end.

(** *** Segments *)

Definition last_point (self : RideMapRecorder) : option RideMapPoint := last (points self).

Definition mark_stationary_boundary (self : RideMapRecorder) (at_ : Z) : RideMapRecorder :=
  if match last_point self with
     | Some point => bool_decide (at_ <= point_at point)
     | None => false
     end then self
  else if match stationary_boundary_at self with
          | Some previous => bool_decide (previous < at_)
          | None => true
          end
  then self <| stationary_boundary_at := Some at_ |> else self.

Definition segment_id_for_sample (self : RideMapRecorder) (sample : LocationSample) : Z :=
  if negb (bool_decide (points self = []))
     && later_than (stationary_boundary_at self) (monotonic sample)
  then if segment_started self then segment_id self else segment_next (segment_id self)
  else if negb (segment_started self)
          && match latest_location_observation self with
             | Some previous =>
                 bool_decide (MAX_GAP_MILLISECONDS
                              < sat_sub (monotonic sample) (monotonic previous))
             | None => false
             end
  then segment_next (segment_id self) else segment_id self.

Definition segment_start_reason_for_sample (self : RideMapRecorder) (sample : LocationSample)
    (next_segment_id : Z) : RideSegmentStartReason :=
  if negb (segment_started self) && negb (bool_decide (points self = []))
     && later_than (stationary_boundary_at self) (monotonic sample)
  then ReasonStationary
  else if negb (bool_decide (next_segment_id = segment_id self)) then ReasonBackgroundGap
  else match last_point self with
  | Some point =>
      if negb (segment_started self) then pt_segment_start_reason point else ReasonResume
  | None =>
      match source sample with Live => ReasonInitial | PevcapImport => ReasonImportBoundary end
  end.

Definition next_sample_metadata (self : RideMapRecorder) (sample : LocationSample)
  : Z * bool * RideSegmentStartReason :=
  let next_segment_id := segment_id_for_sample self sample in
  let gap_started := negb (bool_decide (next_segment_id = segment_id self)) in
  (next_segment_id, segment_started self || gap_started,
   segment_start_reason_for_sample self sample next_segment_id).

(** *** Samples *)

Section Route.
Context (great_circle : Coordinate -> Coordinate -> Z).

Definition check_sample (self : RideMapRecorder) (sample : LocationSample) : LocationAdmission :=
  route_admission great_circle (active_started_at self) (latest_location_observation self) sample.

Definition admit_sample (self : RideMapRecorder) (sample : LocationSample)
  : result AdmittedLocationSample LocationAdmission :=
  match recording_generation self with
  | None => Err OutOfOrder
  | Some generation =>
      match check_sample self sample with
      | Accepted =>
          let '(segment, started, reason) := next_sample_metadata self sample in
          Ok {| ad_point := {| pt_sample := sample; pt_segment_id := segment;
                               pt_telemetry_state := telemetry_state_at self (monotonic sample);
                               pt_segment_start_reason := reason |};
                ad_boundary := if started then BoundaryStart else BoundaryContinue;
                ad_recording_generation := generation;
                ad_active_interval_generation := active_interval_generation self |}
      | admission => Err admission
      end
  end.

Definition capability (self : RideMapRecorder) (sample : LocationSample)
    (admitted : AdmittedLocationSample) : ObservationCapability :=
  {| ob_sample := sample; ob_recording_generation := ad_recording_generation admitted;
     ob_active_interval_generation := active_interval_generation self |}.

Definition admit_stationary_sample (self : RideMapRecorder) (sample : LocationSample)
  : result ObservationCapability LocationAdmission :=
  if negb (bool_decide (state self = Some Active)) || negb (bool_decide (source sample = Live))
  then Err OutOfOrder
  else admitted <-? admit_sample self sample; Ok (capability self sample admitted).

Definition holds (self : RideMapRecorder) (observation : ObservationCapability) : bool :=
  bool_decide (recording_generation self = Some (ob_recording_generation observation))
  && bool_decide (active_interval_generation self = ob_active_interval_generation observation).

(** What both clock observations do. *)
Definition advance_clock (self : RideMapRecorder) (sample : LocationSample) : RideMapRecorder :=
  self <| latest_location_observation := Some sample |>
       <| last_monotonic := Z.max (last_monotonic self) (monotonic sample) |>.

Definition observe_stationary (self : RideMapRecorder) (observation : ObservationCapability)
  : RideMapRecorder * bool :=
  if negb (holds self observation)
     || negb (is_ok (admit_stationary_sample self (ob_sample observation)))
  then (self, false)
  else (mark_stationary_boundary (advance_clock self (ob_sample observation))
          (monotonic (ob_sample observation)), true).

Definition repeats_retained_values (self : RideMapRecorder) (sample : LocationSample) : bool :=
  match last_point self with
  | Some previous =>
      same_values sample (pt_sample previous)
      && bool_decide (pt_telemetry_state previous = telemetry_state_at self (monotonic sample))
  | None => false
  end.

Definition classify_sample (self : RideMapRecorder) (sample : LocationSample)
  : LocationRecordingDecision :=
  match admit_sample self sample with
  | Err reason => Rejected reason
  | Ok admitted =>
      let segment_started := bool_decide (ad_boundary admitted = BoundaryStart) in
      if bool_decide (source sample = Live) && negb segment_started
         && repeats_retained_values self sample
      then ObserveClockOnly (capability self sample admitted)
      else Record_ admitted
  end.

Definition observe_clock_only (self : RideMapRecorder) (observation : ObservationCapability)
  : RideMapRecorder * bool :=
  if negb (bool_decide (state self = Some Active)) || negb (holds self observation)
  then (self, false)
  else match classify_sample self (ob_sample observation) with
  | ObserveClockOnly _ => (advance_clock self (ob_sample observation), true)
  | Record_ _ | Rejected _ => (self, false)
  end.

Definition accepts_settlement (self : RideMapRecorder) : bool :=
  match state self with
  | Some (Active | Paused | Interrupted | Stopped | Saved) => true
  | _ => false
  end.

(** The boundary of a point against the durable predecessor. *)
Definition boundary_after (previous : option RideMapPoint) (point : RideMapPoint)
  : AdmittedLocationBoundary :=
  match previous with
  | Some previous =>
      if bool_decide (pt_segment_id previous = pt_segment_id point)
      then BoundaryContinue else BoundaryStart
  | None => BoundaryStart
  end.
Definition distance_after (previous : option RideMapPoint) (point : RideMapPoint) : Z :=
  match boundary_after previous point, previous with
  | BoundaryContinue, Some previous =>
      distance_between great_circle (pt_sample previous) (pt_sample point)
  | _, _ => 0
  end.

Definition record_admitted_sample (self : RideMapRecorder) (admitted : AdmittedLocationSample)
  : RideMapRecorder * bool :=
  let point := ad_point admitted in
  let sample := pt_sample point in
  if negb (accepts_settlement self)
     || negb (bool_decide (Some (ad_recording_generation admitted) = recording_generation self))
     || match last_point self with
        | Some last => bool_decide (monotonic sample <= point_at last)
        | None => false
        end
  then (self, false)
  else
    let boundary := boundary_after (last_point self) point in
    let preserve :=
      segment_started self
      && negb (bool_decide (ad_active_interval_generation admitted
                            = active_interval_generation self)) in
    let summary' :=
      {| point_count := sat_add u64_max (point_count (summary self)) 1;
         distance_millimetres :=
           sat_add u64_max (distance_millimetres (summary self))
             (distance_after (last_point self) point) |} in
    let points' := points self ++ [point] in
    let points' := drop (Z.to_nat (Z.of_nat (length points') - MAX_LIVE_ROUTE_POINTS)) points' in
    (self <| background_gap_count :=
                if bool_decide (boundary = BoundaryStart)
                   && bool_decide (pt_segment_start_reason point = ReasonBackgroundGap)
                then sat_add u64_max (background_gap_count self) 1
                else background_gap_count self |>
           <| segment_id := Z.max (segment_id self)
                              (if preserve then segment_next (pt_segment_id point)
                               else pt_segment_id point) |>
           <| summary := summary' |>
           <| last_monotonic := Z.max (last_monotonic self) (monotonic sample) |>
           <| latest_location_observation :=
                if match latest_location_observation self with
                   | Some previous => bool_decide (monotonic previous < monotonic sample)
                   | None => true
                   end
                then Some sample else latest_location_observation self |>
           <| points := points' |>
           <| first_point_sequence :=
                sat_sub (point_count summary') (Z.of_nat (length points')) |>
           <| segment_started := preserve |>
           <| stationary_boundary_at :=
                if later_than (stationary_boundary_at self) (monotonic sample)
                then None else stationary_boundary_at self |>, true).

Definition record_sample (self : RideMapRecorder) (sample : LocationSample)
  : RideMapRecorder * bool :=
  if negb (bool_decide (state self = Some Active)) then (self, false) else
  match classify_sample self sample with
  | Record_ admitted => record_admitted_sample self admitted
  | ObserveClockOnly observation => ((observe_clock_only self observation).1, false)
  | Rejected _ => (self, false)
  end.

(** *** Restoration *)

(** [points.drain(..excess)] of the points beyond the bound. *)
Definition live_tail (points : list RideMapPoint) : list RideMapPoint :=
  drop (Z.to_nat (Z.of_nat (length points) - MAX_LIVE_ROUTE_POINTS)) points.
Definition observed_gaps (points : list RideMapPoint) : Z :=
  Z.of_nat (length (filter (fun p => pt_segment_start_reason p = ReasonBackgroundGap) points)).

(** What the two ways of restoring share. *)
Definition restored_common (lifecycle : RideLifecycleState) (created : Z)
    (metadata : RideMapMetadata) (points : list RideMapPoint) (summary : RideSummary)
    (generation : option Z) (last_at : Z) (timing : RideRecordingTiming) : RideMapRecorder := {|
  state := Some lifecycle; recording_generation := generation; active_interval_generation := 0;
  created_at := created; candidate_vehicle := md_candidate_vehicle metadata;
  associated_vehicle := md_associated_vehicle metadata;
  associated_at := md_associated_at metadata;
  last_telemetry_at := md_last_telemetry_at metadata;
  latest_location_observation := pt_sample <$> last points;
  stationary_boundary_at := None; points := points;
  first_point_sequence := sat_sub (point_count summary) (Z.of_nat (length points));
  summary := summary;
  segment_id := match last points with Some point => pt_segment_id point | None => 0 end;
  segment_started := false;
  background_gap_count := Z.max (md_background_gap_count metadata) (observed_gaps points);
  last_monotonic := last_at;
  active_started_at := if bool_decide (lifecycle = Active) then Some last_at else None;
  paused_at := if bool_decide (lifecycle = Paused)
               then Some (default last_at (tm_paused_at timing)) else None;
  paused_duration := tm_paused_duration timing;
  completed_duration := tm_completed_duration timing |}.

Definition route_last (created : Z) (points : list RideMapPoint) : Z :=
  match last points with Some point => point_at point | None => created end.

Definition restored_with_summary (counter : Z) (lifecycle : RideLifecycleState) (created : Z)
    (metadata : RideMapMetadata) (points : list RideMapPoint) (summary : RideSummary)
  : RideMapRecorder * Z :=
  let points := live_tail points in
  let last_at := route_last created points in
  let '(generation, counter) := next_recording_generation counter in
  (restored_common lifecycle created metadata points summary generation last_at
     {| tm_last_event := last_at; tm_paused_at := None; tm_paused_duration := 0;
        tm_completed_duration :=
          match lifecycle with Active | Paused => 0 | _ => sat_sub last_at created end |},
   counter).

Definition restored_with_summary_and_timing (counter : Z) (lifecycle : RideLifecycleState)
    (created : Z) (metadata : RideMapMetadata) (points : list RideMapPoint)
    (summary : RideSummary) (timing : RideRecordingTiming) : RideMapRecorder * Z :=
  let points := live_tail points in
  let last_at := Z.max (Z.max (tm_last_event timing) (route_last created points)) created in
  let '(generation, counter) := next_recording_generation counter in
  (restored_common lifecycle created metadata points summary generation last_at
     (timing <| tm_paused_at :=
        (fun at_ => Z.min (Z.max at_ created) last_at) <$> tm_paused_at timing |>), counter).

(** The distance over the neighbours that share a segment. *)
Definition route_distance (points : list RideMapPoint) : Z :=
  foldl (sat_add u64_max) 0
    ((fun p => distance_between great_circle (pt_sample p.1) (pt_sample p.2)) <$>
     filter (fun p => pt_segment_id p.1 = pt_segment_id p.2) (windows2 points)).

Definition restored_with_metadata (counter : Z) (lifecycle : RideLifecycleState) (created : Z)
    (candidate associated : option VehicleIdentity) (associated_at last_telemetry_at : option Z)
    (points : list RideMapPoint) : RideMapRecorder * Z :=
  restored_with_summary counter lifecycle created
    {| md_candidate_vehicle := candidate; md_associated_vehicle := associated;
       md_associated_at := associated_at; md_last_telemetry_at := last_telemetry_at;
       md_background_gap_count := 0 |}
    points
    {| point_count := Z.of_nat (length points); distance_millimetres := route_distance points |}.

Definition restored (counter : Z) (lifecycle : RideLifecycleState) (created : Z)
    (points : list RideMapPoint) : RideMapRecorder * Z :=
  restored_with_metadata counter lifecycle created None None None None points.

Definition restore_stationary_observation (self : RideMapRecorder) (sample : LocationSample)
  : RideMapRecorder * bool :=
  if negb (bool_decide (source sample = Live))
     || bool_decide (monotonic sample < created_at self)
     || bool_decide (last_monotonic self < monotonic sample)
     || match latest_location_observation self with
        | Some previous => bool_decide (monotonic sample < monotonic previous)
        | None => false
        end
  then (self, false)
  else (mark_stationary_boundary (self <| latest_location_observation := Some sample |>)
          (monotonic sample), true).

Definition restore_location_observation (self : RideMapRecorder) (at_ wall : Z)
  : RideMapRecorder * bool :=
  match last_point self with
  | None => (self, false)
  | Some point =>
      let sample := pt_sample point in
      if bool_decide (at_ < monotonic sample) || bool_decide (last_monotonic self < at_)
         || match latest_location_observation self with
            | Some latest => bool_decide (at_ < monotonic latest)
            | None => false
            end
      then (self, false)
      else (self <| latest_location_observation :=
              Some {| coordinate := coordinate sample; monotonic := at_; wall_clock := wall;
                      horizontal_accuracy := horizontal_accuracy sample;
                      source := source sample |} |>, true)
  end.
End Route.
