(* ===== verification/RideRoute.v ===== *)
(** * The route of a ride

    The recorder of [RideRecorder] as a machine, and what it guarantees over a
    whole recording: the bounded projection against the complete route, active
    time against the intervals that made it, what a restart keeps, the fate of
    an admission, and the distance a ride can claim. *)

From Stdlib Require Import Sorted.
From S2P Require Import Prelude.
From S2P Require Import ElapsedTime Text RideLocation RideRecorder.
Import Lifecycle.

Section Route.
Context (great_circle : Coordinate -> Coordinate -> Z).

(** ** The recorder as a machine

    The state is a recorder with the process-wide counter of generations.  A
    capability is an argument: nothing is assumed about where it came from. *)

Definition World : Type := RideMapRecorder * Z.
Definition fresh_world : World := (recorder_new, 1).

Inductive RecorderCall :=
| CallStart (at_ : Z) (candidate : option VehicleIdentity)
| CallTransition (event : RideEvent) (at_ : Z)
| CallSaveInterrupted (recorded : Z)
| CallObserveVehicle (identity : VehicleIdentity) (at_ : Z)
| CallObserveTelemetry (at_ : Z)
| CallMarkStationary (at_ : Z)
| CallAdmit (sample : LocationSample)
| CallAdmitStationary (sample : LocationSample)
| CallClassify (sample : LocationSample)
| CallObserveStationary (observation : ObservationCapability)
| CallObserveClockOnly (observation : ObservationCapability)
| CallRecordSample (sample : LocationSample)
| CallRecordAdmitted (admitted : AdmittedLocationSample).

Inductive RecorderReply :=
| ReplyUnit
| ReplyTransition (r : result unit TransitionError)
| ReplyVehicle (a : VehicleAssociation)
| ReplyTelemetry (o : TelemetryObservation)
| ReplyAdmitted (r : result AdmittedLocationSample LocationAdmission)
| ReplyStationary (r : result ObservationCapability LocationAdmission)
| ReplyDecision (d : LocationRecordingDecision)
| ReplyBool (b : bool).

(** [validate_transition], then [apply_transition_at]. *)
Definition transition_at (r : RideMapRecorder) (event : RideEvent) (at_ : Z)
  : RideMapRecorder * result unit TransitionError :=
  match validate_transition r event with
  | Err e => (r, Err e)
  | Ok t => apply_transition_at r t at_
  end.

Definition recorder_step (w : World) (c : RecorderCall) : World * RecorderReply :=
  let '(r, counter) := w in
  match c with
  | CallStart at_ candidate =>
      let '(r, counter, reply) := start r counter at_ candidate in
      ((r, counter), ReplyTransition reply)
  | CallTransition event at_ =>
      let '(r, reply) := transition_at r event at_ in ((r, counter), ReplyTransition reply)
  | CallSaveInterrupted recorded =>
      let '(r, reply) := save_interrupted_at_recorded_duration r recorded in
      ((r, counter), ReplyTransition reply)
  | CallObserveVehicle identity at_ =>
      let '(r, reply) := observe_vehicle r identity at_ in ((r, counter), ReplyVehicle reply)
  | CallObserveTelemetry at_ =>
      let '(r, reply) := observe_telemetry r at_ in ((r, counter), ReplyTelemetry reply)
  | CallMarkStationary at_ => ((mark_stationary_boundary r at_, counter), ReplyUnit)
  | CallAdmit sample => (w, ReplyAdmitted (admit_sample great_circle r sample))
  | CallAdmitStationary sample => (w, ReplyStationary (admit_stationary_sample great_circle r sample))
  | CallClassify sample => (w, ReplyDecision (classify_sample great_circle r sample))
  | CallObserveStationary observation =>
      let '(r, b) := observe_stationary great_circle r observation in ((r, counter), ReplyBool b)
  | CallObserveClockOnly observation =>
      let '(r, b) := observe_clock_only great_circle r observation in ((r, counter), ReplyBool b)
  | CallRecordSample sample =>
      let '(r, b) := record_sample great_circle r sample in ((r, counter), ReplyBool b)
  | CallRecordAdmitted admitted =>
      let '(r, b) := record_admitted_sample great_circle r admitted in ((r, counter), ReplyBool b)
  end.

(** ** The complete route

    The specification keeps every point: a start empties the route, a call
    that answers that it recorded a point appends the newest one. *)

Definition starts (c : RecorderCall) (reply : RecorderReply) : bool :=
  match c, reply with CallStart _ _, ReplyTransition (Ok _) => true | _, _ => false end.
Definition records (c : RecorderCall) (reply : RecorderReply) : bool :=
  match c, reply with
  | (CallRecordSample _ | CallRecordAdmitted _), ReplyBool true => true
  | _, _ => false
  end.

Definition route_step (s : World * list RideMapPoint) (c : RecorderCall)
  : (World * list RideMapPoint) * RecorderReply :=
  let '(w, route) := s in
  let '(w', reply) := recorder_step w c in
  (w', if starts c reply then []
       else if records c reply then route ++ option_list (last_point w'.1)
       else route, reply).

(** The segments of a route that a gap in the observations opened. *)
Definition opens_gap (previous : option RideMapPoint) (p : RideMapPoint) : Z :=
  if bool_decide (boundary_after previous p = BoundaryStart)
     && bool_decide (pt_segment_start_reason p = ReasonBackgroundGap) then 1 else 0.
Fixpoint gaps (previous : option RideMapPoint) (route : list RideMapPoint) : Z :=
  match route with
  | [] => 0
  | p :: rest => opens_gap previous p + gaps (Some p) rest
  end.

(** What the projection promises of the complete route. *)
Record projects (r : RideMapRecorder) (route : list RideMapPoint) : Prop := {
  projects_points : points r = live_tail route;
  projects_count : point_count (summary r) = Z.min u64_max (Z.of_nat (length route));
  projects_distance : distance_millimetres (summary r) = route_distance great_circle route;
  projects_gaps : background_gap_count r = Z.min u64_max (gaps None route);
  projects_first : first_point_sequence r
                   = sat_sub (point_count (summary r)) (Z.of_nat (length (points r)));
  projects_order : StronglySorted Z.lt (point_at <$> route);
}.

(** *** Lists *)

Lemma live_tail_short l : Z.of_nat (length l) <= MAX_LIVE_ROUTE_POINTS -> live_tail l = l.
Proof.
  intros H. unfold live_tail. replace (Z.to_nat _) with O by lia. apply drop_0.
Qed.
Lemma live_tail_length l :
  Z.of_nat (length (live_tail l)) = Z.min (Z.of_nat (length l)) MAX_LIVE_ROUTE_POINTS.
Proof. unfold live_tail. rewrite length_drop. unfold MAX_LIVE_ROUTE_POINTS. lia. Qed.
Lemma live_tail_snoc l p : live_tail (live_tail l ++ [p]) = live_tail (l ++ [p]).
Proof.
  unfold live_tail at 1. rewrite !length_app, Nat2Z.inj_add, live_tail_length. simpl.
  unfold live_tail. rewrite <- drop_app_le by (unfold MAX_LIVE_ROUTE_POINTS; lia).
  rewrite drop_drop. f_equal. rewrite length_app, Nat2Z.inj_add. simpl.
  unfold MAX_LIVE_ROUTE_POINTS. lia.
Qed.
Lemma last_live_tail l : last (live_tail l) = last l.
Proof.
  unfold live_tail. destruct l as [|p l _] using rev_ind; [done|].
  rewrite drop_app_le.
  - by rewrite !last_snoc.
  - rewrite length_app, Nat2Z.inj_add. simpl. unfold MAX_LIVE_ROUTE_POINTS. lia.
Qed.

Lemma gaps_snoc previous l p :
  gaps previous (l ++ [p])
  = gaps previous l + opens_gap (match last l with Some q => Some q | None => previous end) p.
Proof.
  revert previous. induction l as [|q l IH]; intros previous; simpl; [lia|].
  rewrite IH. destruct l as [|q' l]; simpl; [lia|].
  destruct (last (q' :: l)) eqn:E; [lia|]. by apply last_None in E.
Qed.
Lemma gaps_nonneg previous l : 0 <= gaps previous l.
Proof.
  revert previous. induction l as [|p l IH]; intros previous; simpl; [lia|].
  specialize (IH (Some p)). unfold opens_gap. case_match_goal; lia.
Qed.

Lemma route_distance_le l : route_distance great_circle l <= u64_max.
Proof.
  unfold route_distance. destruct (_ <$> _) as [|d ds _] using rev_ind; [done|].
  rewrite foldl_snoc. int_lia.
Qed.
Lemma route_distance_snoc l p :
  route_distance great_circle (l ++ [p])
  = sat_add u64_max (route_distance great_circle l) (distance_after great_circle (last l) p).
Proof.
  pose proof (route_distance_le l) as Hle. revert Hle. unfold route_distance.
  destruct l as [|q l _] using rev_ind; [done|]. intros Hle.
  rewrite <- app_assoc. simpl. rewrite windows2_snoc, filter_app, fmap_app, foldl_app, last_snoc.
  unfold distance_after, boundary_after. rewrite filter_cons. simpl.
  case_bool_decide; [by rewrite decide_True|]. rewrite decide_False by done. simpl. int_lia.
Qed.

(** ** Recording a point *)

(** What recording [a] does to [r], field by field. *)
Record recorded (r : RideMapRecorder) (a : AdmittedLocationSample) (r' : RideMapRecorder)
  : Prop := {
  recorded_open : accepts_settlement r = true;
  recorded_generation : recording_generation r = Some (ad_recording_generation a);
  recorded_later : forall p, last_point r = Some p -> point_at p < admitted_at a;
  recorded_points : points r' = live_tail (points r ++ [ad_point a]);
  recorded_count : point_count (summary r') = sat_add u64_max (point_count (summary r)) 1;
  recorded_distance : distance_millimetres (summary r')
    = sat_add u64_max (distance_millimetres (summary r))
        (distance_after great_circle (last_point r) (ad_point a));
  recorded_first : first_point_sequence r'
    = sat_sub (point_count (summary r')) (Z.of_nat (length (points r')));
  recorded_gaps : background_gap_count r' =
    if bool_decide (boundary_after (last_point r) (ad_point a) = BoundaryStart)
       && bool_decide (pt_segment_start_reason (ad_point a) = ReasonBackgroundGap)
    then sat_add u64_max (background_gap_count r) 1 else background_gap_count r;
  recorded_latest : latest_location_observation r' =
    if match latest_location_observation r with
       | Some previous => bool_decide (monotonic previous < admitted_at a)
       | None => true
       end
    then Some (pt_sample (ad_point a)) else latest_location_observation r;
  recorded_boundary : stationary_boundary_at r' =
    if later_than (stationary_boundary_at r) (admitted_at a) then None
    else stationary_boundary_at r;
  recorded_last : last_monotonic r' = Z.max (last_monotonic r) (admitted_at a);
  recorded_started : segment_started r' =
    segment_started r && negb (bool_decide (ad_active_interval_generation a
                                            = active_interval_generation r));
  recorded_segment : segment_id r' =
    Z.max (segment_id r) (if segment_started r' then segment_next (pt_segment_id (ad_point a))
                          else pt_segment_id (ad_point a));
  recorded_same : state r' = state r /\ recording_generation r' = recording_generation r
    /\ active_interval_generation r' = active_interval_generation r
    /\ created_at r' = created_at r /\ active_started_at r' = active_started_at r
    /\ recording_timing r' = (recording_timing r) <| tm_last_event := last_monotonic r' |>
    /\ associated_vehicle r' = associated_vehicle r /\ associated_at r' = associated_at r
    /\ last_telemetry_at r' = last_telemetry_at r;
}.

Lemma record_admitted_true r a r' :
  record_admitted_sample great_circle r a = (r', true) -> recorded r a r'.
Proof.
  unfold record_admitted_sample. intros H.
  destruct (_ || _ || _) eqn:E in H; [congruence|]. injection H as <-. prop_bools.
  destruct r; split; try done.
  intros p Hp. simpl in *. rewrite Hp in H0. by apply bool_decide_eq_false_1, Z.nle_gt in H0.
Qed.

Lemma record_admitted_false r a r' :
  record_admitted_sample great_circle r a = (r', false) -> r' = r.
Proof. unfold record_admitted_sample. intros H.
  destruct (_ || _ || _) in H; congruence. Qed.

(** ** What a call does

    The ways a call changes a recorder, apart from a start and from
    recording a point. *)
Inductive quiet (r : RideMapRecorder) : RideMapRecorder -> Prop :=
| quiet_none : quiet r r
| quiet_vehicle identity at_ :
    is_open r = true -> last_monotonic r <= at_ -> associated_vehicle r = None ->
    quiet r (r <| associated_vehicle := Some identity |> <| candidate_vehicle := None |>
               <| associated_at := Some at_ |>)
| quiet_telemetry at_ :
    is_open r = true -> quiet r (r <| last_telemetry_at := Some at_ |>)
| quiet_boundary at_ :
    (forall p, last_point r = Some p -> point_at p < at_) ->
    quiet r (r <| stationary_boundary_at := Some at_ |>)
| quiet_clock a :
    state r = Some Active -> admit_sample great_circle r (pt_sample (ad_point a)) = Ok a ->
    ad_boundary a = BoundaryContinue -> repeats_retained_values r (pt_sample (ad_point a)) = true ->
    quiet r (advance_clock r (pt_sample (ad_point a)))
| quiet_parked a :
    state r = Some Active -> admit_sample great_circle r (pt_sample (ad_point a)) = Ok a ->
    quiet r (mark_stationary_boundary (advance_clock r (pt_sample (ad_point a))) (admitted_at a)).

(** The calls that move the lifecycle, a start apart. *)
Inductive advanced (r : RideMapRecorder) : RecorderCall -> RideMapRecorder -> Prop :=
| advanced_transition t event at_ r' :
    state r = Some (previous t) -> transition (previous t) event = Ok t ->
    apply_transition_at r t at_ = (r', Ok tt) -> advanced r (CallTransition event at_) r'
| advanced_saved recorded r' :
    recorded <= completed_duration r ->
    apply_transition_at r {| previous := Interrupted; next := Saved |} (last_monotonic r)
      = (r', Ok tt) ->
    advanced r (CallSaveInterrupted recorded) (r' <| completed_duration := recorded |>).
Definition advances (c : RecorderCall) (reply : RecorderReply) : bool :=
  match c, reply with
  | (CallTransition _ _ | CallSaveInterrupted _), ReplyTransition (Ok _) => true
  | _, _ => false
  end.

Lemma admit_sample_Ok r sample a :
  admit_sample great_circle r sample = Ok a ->
  pt_sample (ad_point a) = sample
  /\ route_admission great_circle (active_started_at r) (latest_location_observation r) sample
     = Accepted
  /\ recording_generation r = Some (ad_recording_generation a)
  /\ ad_active_interval_generation a = active_interval_generation r
  /\ pt_segment_id (ad_point a) = segment_id_for_sample r sample
  /\ pt_telemetry_state (ad_point a) = telemetry_state_at r (monotonic sample)
  /\ (ad_boundary a = BoundaryStart <->
      segment_started r = true \/ segment_id_for_sample r sample <> segment_id r).
Proof.
  unfold admit_sample, check_sample. intros H.
  destruct (recording_generation r) as [g|]; [|done].
  destruct (route_admission _ _ _ _); simplify_eq/=. split_ands; try done.
  destruct (segment_started r); simpl; [split; [by left|done]|].
  case_bool_decide; simpl; (split; [|]); try done; [|by right].
  intros [|]; done.
Qed.
Lemma observe_clock_quiet r o : quiet r (observe_clock_only great_circle r o).1.
Proof.
  unfold observe_clock_only. destruct (bool_decide (state r = Some Active)) eqn:Es; simpl;
    [|constructor]. prop_bools. destruct (negb (holds r o)); [constructor|].
  unfold classify_sample. destruct (admit_sample _ r (ob_sample o)) as [a|] eqn:Ea; [|constructor].
  destruct (admit_sample_Ok _ _ _ Ea) as [Hs _].
  destruct (_ && _ && _) eqn:E; simpl; [|constructor]. prop_bools.
  rewrite <- Hs. apply quiet_clock; rewrite ?Hs; try done. by destruct (ad_boundary a).
Qed.
Lemma observe_stationary_quiet r o : quiet r (observe_stationary great_circle r o).1.
Proof.
  unfold observe_stationary, admit_stationary_sample. destruct (negb (holds r o)); [constructor|].
  destruct (bool_decide (state r = Some Active)) eqn:Es; simpl; [|constructor]. prop_bools.
  destruct (negb (bool_decide (source (ob_sample o) = Live))); simpl; [constructor|].
  destruct (admit_sample _ r (ob_sample o)) as [a|] eqn:Ea; simpl; [|constructor].
  destruct (admit_sample_Ok _ _ _ Ea) as [Hs _].
  assert (Ht : monotonic (ob_sample o) = admitted_at a) by (unfold admitted_at, point_at; by rewrite Hs).
  rewrite Ht, <- Hs. apply quiet_parked; by rewrite ?Hs.
Qed.
Lemma mark_stationary_quiet r at_ : quiet r (mark_stationary_boundary r at_).
Proof.
  unfold mark_stationary_boundary. destruct (last_point r) as [p|] eqn:Ep.
  - case_bool_decide; [constructor|]. destruct (match stationary_boundary_at r with Some _ => _ | None => _ end);
      [|constructor]. apply quiet_boundary. intros q Hq. simplify_eq. lia.
  - destruct (match stationary_boundary_at r with Some _ => _ | None => _ end);
      [|constructor]. apply quiet_boundary. intros q Hq. simplify_eq.
Qed.
Lemma apply_transition_Err r t at_ r' e : apply_transition_at r t at_ = (r', Err e) -> r' = r.
Proof.
  unfold apply_transition_at. destruct (negb _); [by intros [= <-]|].
  destruct (if resumes t then _ else _); [done|by intros [= <-]].
Qed.
Lemma transition_previous lifecycle event t :
  transition lifecycle event = Ok t -> previous t = lifecycle.
Proof.
  unfold transition. intros H. destruct lifecycle, event; simpl in H;
    first [discriminate|by injection H as <-].
Qed.

Lemma step_advances w c :
  advances c (recorder_step w c).2 = true -> advanced w.1 c (recorder_step w c).1.1.
Proof.
  destruct w as [r counter]. destruct c; simpl; try done; try by case_match_goal.
  - unfold transition_at, validate_transition. destruct (state r) as [lifecycle|] eqn:Es; [|done].
    simpl. destruct (transition lifecycle event) as [t|] eqn:Et; [|done].
    destruct (apply_transition_at r t at_) as [r' [[]|]] eqn:E; [|done]. intros _.
    pose proof (transition_previous _ _ _ Et) as <-. by apply (advanced_transition _ t).
  - unfold save_interrupted_at_recorded_duration, apply_transition.
    destruct (_ || _ || _) eqn:E; [done|]. prop_bools. unfold validate_transition. rewrite H. simpl.
    destruct (apply_transition_at r _ _) as [r' [[]|]] eqn:Et; [|done]. intros _.
    apply advanced_saved; [lia|done].
Qed.

Lemma step_quiet w c :
  starts c (recorder_step w c).2 = false -> records c (recorder_step w c).2 = false ->
  advances c (recorder_step w c).2 = false -> quiet w.1 (recorder_step w c).1.1.
Proof.
  destruct w as [r counter]. destruct c; simpl; try (intros _ _ _; by constructor).
  - unfold start. destruct (negb _); [by constructor|].
    destruct (next_recording_generation _) as [[]]; [done|by constructor].
  - intros _ _ H. unfold transition_at in *. destruct (validate_transition _ _) as [t|]; [|constructor].
    destruct (apply_transition_at r t at_) as [r' []] eqn:E; [done|].
    apply apply_transition_Err in E as ->. constructor.
  - intros _ _ H. unfold save_interrupted_at_recorded_duration, apply_transition in *.
    destruct (_ || _ || _); [constructor|]. destruct (validate_transition _ _) as [t|]; [|constructor].
    destruct (apply_transition_at r t _) as [r' []] eqn:E; [done|].
    apply apply_transition_Err in E as ->. constructor.
  - intros _ _ _. unfold observe_vehicle. destruct (is_open r) eqn:Eo; simpl; [|constructor].
    case_bool_decide; [constructor|]. destruct (associated_vehicle r) eqn:Ev; [constructor|].
    destruct (match candidate_vehicle r with Some _ => _ | None => _ end); [constructor|].
    apply quiet_vehicle; [done|lia|done].
  - intros _ _ _. unfold observe_telemetry. destruct (is_open r) eqn:Eo; simpl; [|constructor].
    destruct (associated_at r); [|constructor]. destruct (_ || _); [constructor|].
    case_bool_decide; [constructor|].
    destruct (match last_telemetry_at r with Some _ => _ | None => _ end); [constructor|].
    by apply quiet_telemetry.
  - intros _ _ _. apply mark_stationary_quiet.
  - intros _ _ _. pose proof (observe_stationary_quiet r observation) as H.
    by destruct (observe_stationary _ _ _).
  - intros _ _ _. pose proof (observe_clock_quiet r observation) as H.
    by destruct (observe_clock_only _ _ _).
  - intros _ H _. unfold record_sample in *. destruct (negb _); [constructor|].
    destruct (classify_sample _ r sample) as [a|o|]; [| |constructor].
    + destruct (record_admitted_sample _ r a) as [r' []] eqn:E; [done|].
      apply record_admitted_false in E as ->. constructor.
    + apply observe_clock_quiet.
  - intros _ H _. destruct (record_admitted_sample _ r admitted) as [r' []] eqn:E; [done|].
    apply record_admitted_false in E as ->. constructor.
Qed.

(** Only a start turns the counter, upwards. *)
Lemma step_counter w c :
  0 < w.2 -> (recorder_step w c).1.2 = w.2 + if starts c (recorder_step w c).2 then 1 else 0.
Proof.
  destruct w as [r counter]. simpl. intros Hc. destruct c; simpl; try lia.
  - unfold start, next_recording_generation. destruct (negb _); simpl; [lia|].
    destruct (checked_add u64_max counter 1) as [k|] eqn:E; simpl; [|lia].
    apply checked_add_Some in E as [_ ->]. by rewrite bool_decide_eq_false_2 by lia.
  - destruct (transition_at r event at_); simpl. lia.
  - destruct (save_interrupted_at_recorded_duration r recorded0); simpl. lia.
  - destruct (observe_vehicle r identity at_); simpl. lia.
  - destruct (observe_telemetry r at_); simpl. lia.
  - destruct (observe_stationary _ r observation); simpl. lia.
  - destruct (observe_clock_only _ r observation); simpl. lia.
  - destruct (record_sample _ r sample); simpl. lia.
  - destruct (record_admitted_sample _ r admitted); simpl. lia.
Qed.

(** The fields every move but a few leaves alone. *)
Definition route_view (r : RideMapRecorder) :=
  (points r, first_point_sequence r, summary r, background_gap_count r).

Lemma transition_result r t at_ r' :
  apply_transition_at r t at_ = (r', Ok tt) ->
  let at_' := clamped_transition_timestamp (created_at r) (Some (last_monotonic r)) at_ in
  state r = Some (previous t) /\ state r' = Some (next t)
  /\ route_view r' = route_view r
  /\ recording_generation r' = recording_generation r
  /\ created_at r' = created_at r
  /\ recording_timing r' = transitioned (recording_timing r) t (created_at r) at_'
  /\ active_started_at r' = active_started_after r t at_'
  /\ latest_location_observation r' = latest_location_observation r
  /\ stationary_boundary_at r' = stationary_boundary_at r
  /\ (segment_started r' = segment_started r
       \/ segment_started r' = true /\ segment_id r' = segment_next (segment_id r)
          /\ segment_started r = false)
  /\ (segment_started r' = segment_started r -> segment_id r' = segment_id r)
  /\ active_interval_generation r <= active_interval_generation r'.
Proof.
  unfold apply_transition_at. destruct (negb _) eqn:Es; [done|]. prop_bools.
  destruct (if resumes t then _ else _) as [k|] eqn:Ek; [|done]. intros [= <-]. simpl.
  assert (active_interval_generation r <= k).
  { destruct (resumes t); simplify_eq; [|lia]. apply checked_add_Some in Ek. lia. }
  destruct r as [? ? ? ? ? ? ? ? ? ? pts ? ? ? sg ? ? ? ? ? ?]; simpl in *.
  split_ands; try done.
  - unfold recording_timing. simpl. by destruct (transitioned _ _ _ _).
  - destruct (resumes t), sg, (bool_decide (pts = [])); simpl; auto.
  - destruct (resumes t), sg, (bool_decide (pts = [])); simpl; done.
Qed.

Definition interval_after (t : ValidatedRideTransition) (interval : Z) : option Z :=
  if resumes t then checked_add u64_max interval 1 else Some interval.
Lemma apply_interval r t at_ r' :
  apply_transition_at r t at_ = (r', Ok tt) ->
  interval_after t (active_interval_generation r) = Some (active_interval_generation r').
Proof.
  unfold apply_transition_at, interval_after. destruct (negb _); [done|].
  destruct (if resumes t then _ else _); [|done]. intros [= <-]. by destruct r.
Qed.
(** A transition that one recorder makes is made by every other of the same
    lifecycle and interval. *)
Lemma transition_applies r r' t at_ at' r1 :
  state r' = state r -> active_interval_generation r' = active_interval_generation r ->
  apply_transition_at r t at_ = (r1, Ok tt) ->
  exists r2, apply_transition_at r' t at' = (r2, Ok tt).
Proof.
  unfold apply_transition_at. intros -> ->. destruct (negb _); [done|].
  destruct (if resumes t then _ else _); [|done]. by eexists.
Qed.

Lemma quiet_view r r' : quiet r r' -> route_view r' = route_view r.
Proof.
  intros H. destruct H as [| | | |a|a]; try done; try by destruct r.
  unfold mark_stationary_boundary. destruct r. by repeat case_match_goal.
Qed.
Lemma quiet_generation r r' : quiet r r' -> recording_generation r' = recording_generation r.
Proof.
  intros H. destruct H as [| | | |a|a]; try done; try by destruct r.
  unfold mark_stationary_boundary. destruct r. by repeat case_match_goal.
Qed.
Lemma advanced_view r c r' : advanced r c r' ->
  route_view r' = route_view r /\ recording_generation r' = recording_generation r.
Proof.
  intros H. destruct H as [t event at_ r' _ _ H|recorded r' _ H];
    destruct (transition_result _ _ _ _ H) as (_ & _ & <- & <- & _); by destruct r'.
Qed.

(** Whatever is neither a start nor a recorded point. *)
Lemma step_view w c :
  starts c (recorder_step w c).2 = false -> records c (recorder_step w c).2 = false ->
  route_view (recorder_step w c).1.1 = route_view w.1
  /\ recording_generation (recorder_step w c).1.1 = recording_generation w.1.
Proof.
  intros Hs Hr. destruct (advances c (recorder_step w c).2) eqn:Ha.
  - by eapply advanced_view, step_advances.
  - pose proof (step_quiet _ _ Hs Hr Ha). split; [by apply quiet_view|by apply quiet_generation].
Qed.

Lemma records_true w c :
  records c (recorder_step w c).2 = true ->
  exists a, recorded w.1 a (recorder_step w c).1.1
            /\ (c = CallRecordAdmitted a
                \/ exists sample, c = CallRecordSample sample
                   /\ state w.1 = Some Active /\ admit_sample great_circle w.1 sample = Ok a).
Proof.
  destruct w as [r counter]. destruct c; simpl; try done; try by case_match_goal.
  - unfold record_sample, classify_sample.
    destruct (bool_decide (state r = Some Active)) eqn:Es; [|done]. prop_bools. simpl.
    destruct (admit_sample _ r sample) as [a|] eqn:Ea; [|done].
    destruct (_ && _ && _); [done|].
    destruct (record_admitted_sample _ r a) as [r' []] eqn:E; [|done]. intros _.
    exists a. split; [by apply record_admitted_true|]. right. by exists sample.
  - destruct (record_admitted_sample _ r admitted) as [r' []] eqn:E; [|done]. intros _.
    exists admitted. split; [by apply record_admitted_true|by left].
Qed.

Lemma starts_true w c :
  starts c (recorder_step w c).2 = true ->
  exists at_ candidate generation counter',
    c = CallStart at_ candidate
    /\ next_recording_generation w.2 = (Some generation, counter')
    /\ start w.1 w.2 at_ candidate = ((recorder_step w c).1.1, counter', Ok tt)
    /\ (recorder_step w c).1.2 = counter'.
Proof.
  destruct w as [r counter]. destruct c; simpl; try done; try by case_match_goal.
  unfold start. destruct (negb _); [done|].
  destruct (next_recording_generation counter) as [[g|] k] eqn:E; [|done]. intros _.
  by exists at_, candidate, g, k.
Qed.

(** ** The projection and the complete route *)

Lemma projects_snoc r a r' route :
  projects r route -> recorded r a r' -> projects r' (route ++ [ad_point a]).
Proof.
  intros [Hp Hc Hd Hg Hf Ho] R.
  assert (Hlast : last_point r = last route) by (unfold last_point; rewrite Hp; apply last_live_tail).
  split.
  - rewrite (recorded_points _ _ _ R), Hp. apply live_tail_snoc.
  - rewrite (recorded_count _ _ _ R), Hc, length_app. simpl. int_lia.
  - rewrite (recorded_distance _ _ _ R), Hd, Hlast. by rewrite route_distance_snoc.
  - rewrite (recorded_gaps _ _ _ R), Hg, gaps_snoc. unfold opens_gap. rewrite Hlast.
    pose proof (gaps_nonneg None route). destruct (last route); case_match_goal; int_lia.
  - apply (recorded_first _ _ _ R).
  - rewrite fmap_app. apply StronglySorted_snoc_last; [done|]. intros y Hy.
    rewrite fmap_last, fmap_Some in Hy. destruct Hy as (q & Hq & ->).
    apply (recorded_later _ _ _ R). by rewrite Hlast.
Qed.

Lemma projects_view r r' route : route_view r' = route_view r -> projects r route -> projects r' route.
Proof.
  intros [= E1 E2 E3 E4] [Hp Hc Hd Hg Hf Ho].
  split; rewrite ?E1, ?E2, ?E3, ?E4; done.
Qed.
Lemma started_empty r counter at_ candidate r' counter' :
  start r counter at_ candidate = (r', counter', Ok tt) -> projects r' [].
Proof.
  unfold start. destruct (negb _); [done|].
  destruct (next_recording_generation counter) as [[g|] k]; [|done].
  intros [= <- <-]. split; simpl; try done; constructor.
Qed.

#[local] Instance route_step_projects :
  Invariant route_step (fun s => projects s.1.1 s.2).
Proof.
  intros [w route] c Hp. unfold route_step. simpl in Hp.
  pose proof (starts_true w c) as Hs. pose proof (records_true w c) as Hr.
  pose proof (step_view w c) as Hv.
  destruct (recorder_step w c) as [w' reply]; simpl in *.
  destruct (starts c reply).
  - destruct (Hs eq_refl) as (at_ & candidate & g & k & _ & _ & Hst & _).
    by eapply started_empty.
  - destruct (records c reply); [|by apply (projects_view w.1); [apply Hv|]].
    destruct (Hr eq_refl) as (a & R & _).
    unfold last_point. rewrite (recorded_points _ _ _ R), last_live_tail, last_snoc.
    by eapply projects_snoc.
Qed.

Lemma route_step_world s calls :
  (run_state route_step s calls).1 = run_state recorder_step s.1 calls.
Proof.
  revert s. induction calls as [|c calls IH]; intros [w route]; [done|].
  rewrite !run_state_cons, IH. f_equal. simpl. by destruct (recorder_step w c).
Qed.

(** ** The fate of an admission

    The counter is above every generation it gave out, so a generation that
    was replaced never returns. *)

Definition generation_below (w : World) : Prop :=
  0 < w.2 /\ forall g, recording_generation w.1 = Some g -> g < w.2.

(** [a] can no longer be recorded: its recording was replaced, or its time is
    not after the newest point. *)
Definition spent (a : AdmittedLocationSample) (w : World) : Prop :=
  generation_below w /\ ad_recording_generation a < w.2
  /\ (recording_generation w.1 <> Some (ad_recording_generation a)
      \/ exists p, last_point w.1 = Some p /\ admitted_at a <= point_at p).

Lemma spent_refused a w :
  spent a w -> recorder_step w (CallRecordAdmitted a) = (w, ReplyBool false).
Proof.
  destruct w as [r counter]. intros (_ & _ & H). simpl in *.
  destruct (record_admitted_sample _ r a) as [r' []] eqn:E.
  - apply record_admitted_true in E as R. exfalso. destruct H as [H|(p & Hp & Ha)].
    + by apply H, (recorded_generation _ _ _ R).
    + pose proof (recorded_later _ _ _ R p Hp). lia.
  - by apply record_admitted_false in E as ->.
Qed.

Lemma recorded_last_point r a r' : recorded r a r' -> last_point r' = Some (ad_point a).
Proof.
  intros R. unfold last_point. by rewrite (recorded_points _ _ _ R), last_live_tail, last_snoc.
Qed.

Lemma started_generation r counter at_ candidate r' counter' :
  0 < counter -> start r counter at_ candidate = (r', counter', Ok tt) ->
  recording_generation r' = Some counter /\ counter' = counter + 1.
Proof.
  unfold start, next_recording_generation. intros Hc. destruct (negb _); [done|].
  destruct (checked_add u64_max counter 1) as [k|] eqn:E; [|done].
  apply checked_add_Some in E as [_ ->]. rewrite bool_decide_eq_false_2 by lia.
  by intros [= <- <-].
Qed.

(** What one call does to the generation and the newest point. *)
Lemma step_generation w c :
  0 < w.2 ->
  let w' := (recorder_step w c).1 in
  (recording_generation w'.1 = Some w.2 /\ w'.2 = w.2 + 1)
  \/ (recording_generation w'.1 = recording_generation w.1 /\ w'.2 = w.2
      /\ (last_point w'.1 = last_point w.1
          \/ exists a, recorded w.1 a w'.1 /\ last_point w'.1 = Some (ad_point a))).
Proof.
  intros Hc w'. pose proof (step_counter w c Hc) as Hk.
  destruct (starts c (recorder_step w c).2) eqn:Es.
  - left. destruct (starts_true _ _ Es) as (at_ & cand & g & k & _ & _ & Hst & Hk').
    destruct (started_generation _ _ _ _ _ _ Hc Hst) as [Hg Hk2]. split; [done|].
    unfold w'. by rewrite Hk', Hk2.
  - right. destruct (records c (recorder_step w c).2) eqn:Er.
    + destruct (records_true _ _ Er) as (a & R & _).
      split_ands; [by destruct (recorded_same _ _ _ R) as (_ & ? & _)|unfold w'; lia|].
      right. exists a. split; [done|]. by eapply recorded_last_point.
    + destruct (step_view _ _ Es Er) as [Hv Hg].
      split_ands; [done|unfold w'; lia|]. left. unfold last_point, w'. by injection Hv as ->.
Qed.

#[local] Instance generation_below_invariant : Invariant recorder_step generation_below.
Proof.
  intros w c [Hc Hg]. split; destruct (step_generation w c Hc) as [[Hg' Hc']|(Hg' & Hc' & _)];
    rewrite Hc'; try lia; intros g; rewrite Hg'; [|by apply Hg]. intros [= <-]. lia.
Qed.

#[local] Instance spent_invariant a : Invariant recorder_step (spent a).
Proof.
  intros w c (Hb & Hlt & H). split; [by apply (generation_below_invariant w c)|]. destruct Hb as [Hc Hg].
  destruct (step_generation w c Hc) as [[Hg' Hc']|(Hg' & Hc' & Hlast)]; rewrite Hc', Hg'.
  - split; [lia|]. left. intros [= E]. lia.
  - split; [done|]. destruct H as [H|(p & Hp & Ha)]; [by left|]. right.
    destruct Hlast as [->|(b & R & ->)]; [by exists p|]. exists (ad_point b). split; [done|].
    pose proof (recorded_later _ _ _ R p Hp). unfold admitted_at in *. lia.
Qed.

(** ** Active time

    The specification adds up the intervals in which the ride was active. *)

Record Activity := { active_done : Z; active_since : option Z }.
Definition idle : Activity := {| active_done := 0; active_since := None |}.
Definition active_total (a : Activity) (at_ : Z) : Z :=
  active_done a + match active_since a with Some since => at_ - since | None => 0 end.

Definition is_active (r : RideMapRecorder) : bool := bool_decide (state r = Some Active).

Definition activity_after (before after : RideMapRecorder) (c : RecorderCall)
    (reply : RecorderReply) (a : Activity) : Activity :=
  if starts c reply then {| active_done := 0; active_since := Some (created_at after) |}
  else match c, reply with
  | CallSaveInterrupted recorded, ReplyTransition (Ok _) =>
      {| active_done := recorded; active_since := None |}
  | CallTransition _ _, ReplyTransition (Ok _) =>
      if is_active before then
        {| active_done := active_total a (last_monotonic after); active_since := None |}
      else if is_active after then
        {| active_done := active_done a; active_since := Some (last_monotonic after) |}
      else a
  | _, _ => a
  end.

Definition timed_step (s : World * Activity) (c : RecorderCall)
  : (World * Activity) * RecorderReply :=
  let '(w', reply) := recorder_step s.1 c in
  ((w', activity_after s.1.1 w'.1 c reply s.2), reply).

(** How the timing of a recorder encodes the active time. *)
Definition timed (r : RideMapRecorder) (a : Activity) : Prop :=
  created_at r <= last_monotonic r /\
  match state r with
  | None | Some Discarded => True
  | Some Active =>
      exists since, active_since a = Some since /\ created_at r <= since <= last_monotonic r
        /\ paused_duration r = since - created_at r - active_done a
        /\ 0 <= active_done a <= since - created_at r
  | Some Paused =>
      exists p, active_since a = None /\ paused_at r = Some p
        /\ created_at r <= p <= last_monotonic r
        /\ p - created_at r - paused_duration r = active_done a
        /\ 0 <= active_done a <= p - created_at r
  | Some (Interrupted | Stopped) =>
      active_since a = None /\ completed_duration r = active_done a
      /\ 0 <= active_done a <= last_monotonic r - created_at r
  | Some Saved => active_since a = None /\ completed_duration r = active_done a
  | Some (Draft | Imported) => False
  end.

(** A recorder whose watermark moved and whose lifecycle did not. *)
Definition still (r r' : RideMapRecorder) : Prop :=
  state r' = state r /\ created_at r' = created_at r /\ paused_at r' = paused_at r
  /\ paused_duration r' = paused_duration r /\ completed_duration r' = completed_duration r
  /\ last_monotonic r <= last_monotonic r'.

Lemma quiet_still r r' : quiet r r' -> still r r'.
Proof.
  intros H. destruct H as [| | | |a|a]; try (destruct r; unfold still; simpl; split_ands; done || lia).
  unfold mark_stationary_boundary, still. destruct r; simpl.
  repeat case_match_goal; simpl; split_ands; done || lia.
Qed.
Lemma recorded_still r a r' : recorded r a r' -> still r r'.
Proof.
  intros R. destruct (recorded_same _ _ _ R) as (? & _ & _ & ? & _ & Ht & _).
  pose proof (recorded_last _ _ _ R). injection Ht. intros.
  unfold still. split_ands; try done. lia.
Qed.
Lemma still_timed r r' a : still r r' -> timed r a -> timed r' a.
Proof.
  intros (Es & Ec & Ep & Ed & Ef & Hl) [H0 H]. unfold timed. rewrite Es, Ec, Ep, Ed, Ef.
  split; [lia|]. destruct (state r) as [[]|]; try done.
  - destruct H as (since & ?). exists since. intuition lia.
  - destruct H as (p & ?). exists p. intuition lia.
  - intuition lia.
  - intuition lia.
Qed.

Lemma timing_fields r t :
  recording_timing r = t ->
  last_monotonic r = tm_last_event t /\ paused_at r = tm_paused_at t
  /\ paused_duration r = tm_paused_duration t /\ completed_duration r = tm_completed_duration t.
Proof. by intros <-. Qed.

Lemma transition_timed r t event at_ r' a :
  state r = Some (previous t) -> transition (previous t) event = Ok t ->
  apply_transition_at r t at_ = (r', Ok tt) -> timed r a ->
  timed r' (activity_after r r' (CallTransition event at_) (ReplyTransition (Ok tt)) a).
Proof.
  intros Es Ht H [H0 Ha]. destruct (transition_result _ _ _ _ H) as (_ & Es' & _ & _ & Ec & Et & _).
  apply timing_fields in Et as (El & Ep & Ed & Ef). rewrite Es in Ha.
  unfold timed, activity_after, active_total, is_active. simpl. rewrite Es, Es', Ec, El, Ep, Ed, Ef.
  clear Es Es' Ec El Ep Ed Ef H. unfold transitioned. simpl.
  replace (clamped_transition_timestamp _ _ (clamped_transition_timestamp _ _ _)) with
    (clamped_transition_timestamp (created_at r) (Some (last_monotonic r)) at_)
    by (unfold clamped_transition_timestamp; lia).
  assert (Hat : last_monotonic r
          <= clamped_transition_timestamp (created_at r) (Some (last_monotonic r)) at_)
    by (unfold clamped_transition_timestamp; lia).
  revert Hat. generalize (clamped_transition_timestamp (created_at r) (Some (last_monotonic r)) at_).
  clear at_. intros at_ Hat. unfold duration_at, sat_sub. simpl.
  destruct t as [prev nxt], a as [total since]. destruct r. unfold transition in Ht. simpl in *.
  destruct prev, event; simpl in Ht; try discriminate; injection Ht as <-; simpl;
    repeat match goal with
    | H : exists _, _ |- _ => destruct H as (? & ?)
    | H : _ /\ _ |- _ => destruct H
    end; subst; (split; [lia|]); try done; try eexists; split_ands; try reflexivity; lia.
Qed.

Lemma started_timed r counter at_ candidate r' counter' :
  start r counter at_ candidate = (r', counter', Ok tt) ->
  timed r' {| active_done := 0; active_since := Some (created_at r') |}.
Proof.
  unfold start. destruct (negb _); [done|].
  destruct (next_recording_generation counter) as [[g|] k]; [|done].
  intros [= <- <-]. split; simpl; [lia|]. exists at_. split_ands; done || lia.
Qed.

Lemma saved_timed r recorded r' a :
  apply_transition_at r {| previous := Interrupted; next := Saved |} (last_monotonic r)
    = (r', Ok tt) ->
  timed r a -> timed (r' <| completed_duration := recorded |>)
                     {| active_done := recorded; active_since := None |}.
Proof.
  intros H [H0 _]. destruct (transition_result _ _ _ _ H) as (_ & Es & _ & _ & Ec & Et & _).
  apply timing_fields in Et as (El & _). destruct r'. unfold timed in *. simpl in *.
  subst. split; [|done]. simpl. lia.
Qed.

#[local] Instance timed_invariant : Invariant timed_step (fun s => timed s.1.1 s.2).
Proof.
  intros [w a] c Ht. unfold timed_step. simpl in *.
  pose proof (starts_true w c) as Hs. pose proof (records_true w c) as Hr.
  pose proof (step_advances w c) as Ha. pose proof (step_quiet w c) as Hq.
  destruct (recorder_step w c) as [w' reply]; simpl in *.
  destruct (starts c reply) eqn:Es.
  { destruct (Hs eq_refl) as (at_ & cand & g & k & _ & _ & Hst & _).
    unfold activity_after. rewrite Es. by eapply started_timed. }
  destruct (advances c reply) eqn:Ead.
  { destruct (Ha eq_refl) as [t event at_ r' Hst Ht' H|recorded r' _ H];
      destruct reply as [|[[]|]| | | | | |]; try done.
    - by eapply transition_timed.
    - by eapply saved_timed. }
  replace (activity_after w.1 w'.1 c reply a) with a
    by (unfold activity_after; rewrite Es; destruct c; try done; by destruct reply as [|[[]|]| | | | | |]).
  destruct (records c reply); eapply still_timed, Ht.
  - destruct (Hr eq_refl) as (b & R & _). by eapply recorded_still.
  - by apply quiet_still, Hq.
Qed.

Lemma timed_step_world s calls :
  (run_state timed_step s calls).1 = run_state recorder_step s.1 calls.
Proof.
  revert s. induction calls as [|c calls IH]; intros [w a]; [done|].
  rewrite !run_state_cons, IH. f_equal. unfold timed_step. simpl. by destruct (recorder_step w c).
Qed.

(** ** What a restart keeps *)

(** The newest point is not after the newest event, and only a paused or a
    discarded recording remembers a pause. *)
Definition storable (r : RideMapRecorder) : Prop :=
  (forall p, last_point r = Some p -> point_at p <= last_monotonic r)
  /\ (state r <> Some Paused -> state r <> Some Discarded -> paused_at r = None).

Lemma still_storable r r' :
  still r r' -> last_point r' = last_point r -> storable r -> storable r'.
Proof.
  intros (Es & _ & Ep & _ & _ & Hl) Hp [H1 H2]. unfold storable. rewrite Es, Ep, Hp.
  split; [|done]. intros p Hlast. specialize (H1 p Hlast). lia.
Qed.
Lemma advanced_storable r c r' : advanced r c r' -> storable r -> storable r'.
Proof.
  assert (Hm : forall t at_ r', apply_transition_at r t at_ = (r', Ok tt) ->
            (exists event, transition (previous t) event = Ok t) -> storable r -> storable r').
  { intros t at_ r1 H [event He] [H1 H2].
    destruct (transition_result _ _ _ _ H) as (Es & Es' & Hv & _ & _ & Et & _).
    apply timing_fields in Et as (El & Ep & _). unfold storable, last_point.
    injection Hv as -> _ _ _. rewrite El, Ep, Es'. rewrite Es in H2. clear El Ep Es' H Es.
    unfold transitioned, recording_timing in *. simpl.
    assert (Hle : last_monotonic r <= clamped_transition_timestamp (created_at r)
              (Some (last_monotonic r)) at_) by (unfold clamped_transition_timestamp; lia).
    split.
    - intros p Hp. specialize (H1 p Hp). revert Hle.
      generalize (clamped_transition_timestamp (created_at r) (Some (last_monotonic r)) at_).
      unfold clamped_transition_timestamp.
      destruct t as [prev nxt]; simpl; intros; destruct prev, nxt; simpl; lia.
    - destruct t as [prev nxt]. unfold transition in He. simpl in *.
      destruct prev, event; simpl in He; try discriminate; injection He as <-; simpl; try done;
        intros; apply H2; done. }
  intros H Hr. destruct H as [t event at_ r' _ Ht H|recorded r' _ H].
  - eapply Hm; [done|by exists event|done].
  - apply Hm in H; [|by exists Save|done]. destruct r', H as [H1 H2]. by split.
Qed.
#[local] Instance storable_invariant : Invariant recorder_step (fun w => storable w.1).
Proof.
  intros w c Hw.
  pose proof (starts_true w c) as Hs. pose proof (records_true w c) as Hr.
  pose proof (step_advances w c) as Ha. pose proof (step_quiet w c) as Hq.
  pose proof (step_view w c) as Hv.
  destruct (recorder_step w c) as [w' reply]; simpl in *.
  destruct (starts c reply) eqn:Es.
  { destruct (Hs eq_refl) as (at_ & cand & g & k & _ & _ & Hst & _). revert Hst. unfold start.
    destruct (negb _); [done|]. destruct (next_recording_generation w.2) as [[]]; [|done].
    intros [= <- _]. split; done. }
  destruct (advances c reply) eqn:Ead; [by eapply advanced_storable, Hw; apply Ha|].
  destruct (records c reply).
  - destruct (Hr eq_refl) as (a & R & _). destruct (recorded_still _ _ _ R) as (Es' & _ & Ep & _).
    destruct Hw as [_ H2]. unfold storable. rewrite Es', Ep. split; [|done].
    intros p. rewrite (recorded_last_point _ _ _ R), (recorded_last _ _ _ R). intros [= <-].
    unfold admitted_at. lia.
  - destruct (Hv eq_refl eq_refl) as [Hview _].
    apply (still_storable w.1); [by apply quiet_still, Hq| |done].
    unfold last_point. by injection Hview as ->.
Qed.

Definition vehicle_view (r : RideMapRecorder) :=
  (candidate_vehicle r, associated_vehicle r, associated_at r, last_telemetry_at r).

(** What is written of a recorder, as its owner reads it back. *)
Definition metadata_of (r : RideMapRecorder) : RideMapMetadata := {|
  md_candidate_vehicle := candidate_vehicle r; md_associated_vehicle := associated_vehicle r;
  md_associated_at := associated_at r; md_last_telemetry_at := last_telemetry_at r;
  md_background_gap_count := background_gap_count r |}.
Definition restart (counter : Z) (r : RideMapRecorder) (route : list RideMapPoint)
  : RideMapRecorder :=
  (restored_with_summary_and_timing counter (default Draft (state r)) (created_at r)
     (metadata_of r) route (summary r) (recording_timing r)).1.

Lemma restart_result counter r route lifecycle a :
  state r = Some lifecycle -> projects r route -> storable r -> timed r a ->
  let r' := restart counter r route in
  state r' = Some lifecycle
  /\ route_view r' = (points r, first_point_sequence r, summary r,
                      Z.max (background_gap_count r) (observed_gaps (points r)))
  /\ vehicle_view r' = vehicle_view r
  /\ (lifecycle <> Discarded -> recording_timing r' = recording_timing r)
  /\ (forall at_, duration_milliseconds_at r' at_ = duration_milliseconds_at r at_)
  /\ active_started_at r' = (if bool_decide (lifecycle = Active) then Some (last_monotonic r) else None)
  /\ recording_generation r' = (next_recording_generation counter).1.
Proof.
  intros Hst Hp [Hs1 Hs2] [Ht1 Ht2] r'.
  assert (Hlast : Z.max (Z.max (last_monotonic r) (route_last (created_at r) (points r))) (created_at r)
                  = last_monotonic r).
  { unfold route_last, last_point in *. destruct (last (points r)) as [p|]; [|lia].
    specialize (Hs1 p eq_refl). lia. }
  assert (Htm : lifecycle <> Discarded -> recording_timing r' = recording_timing r).
  { intros Hd. unfold r', restart, restored_with_summary_and_timing.
    rewrite <- (projects_points _ _ Hp), Hst. simpl. rewrite Hlast.
    destruct (next_recording_generation counter). unfold recording_timing. simpl. f_equal.
    case_bool_decide as Hpa; [subst|symmetry; apply Hs2; congruence].
    rewrite Hst in Ht2. destruct Ht2 as (p & _ & -> & ? & _). simpl. f_equal. lia. }
  assert (Hst' : state r' = Some lifecycle /\ created_at r' = created_at r
                 /\ completed_duration r' = completed_duration r).
  { unfold r', restart, restored_with_summary_and_timing. rewrite Hst.
    by destruct (next_recording_generation counter). }
  destruct Hst' as (E1 & E2 & E3). split_ands; try done.
  - unfold r', restart, restored_with_summary_and_timing, route_view.
    rewrite <- (projects_points _ _ Hp), (projects_first _ _ Hp).
    by destruct (next_recording_generation counter).
  - unfold r', restart, restored_with_summary_and_timing.
    by destruct (next_recording_generation counter).
  - intros at_. unfold duration_milliseconds_at. rewrite E1, E2, Hst. simpl.
    destruct (decide (lifecycle = Discarded)) as [->|Hd]; [done|]. by rewrite Htm.
  - unfold r', restart, restored_with_summary_and_timing.
    rewrite <- (projects_points _ _ Hp), Hst. simpl. rewrite Hlast.
    by destruct (next_recording_generation counter).
  - unfold r', restart, restored_with_summary_and_timing.
    by destruct (next_recording_generation counter).
Qed.

(** C13: An admission is used at most once and never outlives its recording.
    Once an admitted sample was recorded, or once a new recording was started
    while it belonged to the current one, recording it is refused and changes
    nothing, whatever calls come after: a delayed completion of a storage
    write can neither repeat a point nor put one into another ride. *)
Theorem admission_used_at_most_once calls c later a :
  let w := run_state recorder_step fresh_world calls in
  let '(w', reply) := recorder_step w c in
  let final := run_state recorder_step w' later in
  (c = CallRecordAdmitted a /\ records c reply = true)
  \/ (recording_generation w.1 = Some (ad_recording_generation a) /\ starts c reply = true) ->
  recorder_step final (CallRecordAdmitted a) = (final, ReplyBool false).
Proof.
  intros w. assert (Hb : generation_below w) by (apply run_invariant; [apply _|done]).
  pose proof (step_generation w c (proj1 Hb)) as Hg. pose proof (records_true w c) as Hr.
  pose proof (starts_true w c) as Hst. pose proof (generation_below_invariant w c Hb) as Hb'.
  destruct (recorder_step w c) as [w' reply] eqn:E. simpl in *. intros Hc.
  apply spent_refused. apply run_invariant; [apply _|]. split; [done|].
  destruct Hb as [Hb1 Hb2]. destruct Hc as [[-> Hrec]|[Hgen Hs]].
  - destruct (Hr Hrec) as (b & R & [[= <-]|(? & [=] & _)]).
    pose proof (recorded_generation _ _ _ R) as Hg'. pose proof (Hb2 _ Hg').
    assert (w'.2 = w.2).
    { pose proof (step_counter w (CallRecordAdmitted a) Hb1) as Hk. rewrite E in Hk. simpl in Hk. lia. }
    split; [lia|]. right. exists (ad_point a). split; [by eapply recorded_last_point|].
    unfold admitted_at. lia.
  - pose proof (Hb2 _ Hgen).
    destruct (Hst Hs) as (at_ & cand & g & k & -> & _ & Hst' & Hk).
    destruct (started_generation _ _ _ _ _ _ Hb1 Hst') as [Hg' Hk'].
    rewrite Hk, Hk', Hg'. split; [lia|]. left. intros [= Hx]. lia.
Qed.

(** C12: The recorder keeps at most 4,096 points, yet after any sequence of
    calls it agrees with the complete route since the last start: its points
    are the newest points of that route and their first sequence number is
    right, the point count is the length of the route, the distance is the sum
    over the neighbours that share a segment, the gap count is the number of
    segments a gap opened (each up to saturation), and the route is ordered by
    time.  Nothing is assumed about the admissions that are settled. *)
Theorem live_projection_refines_route calls :
  let s := run_state route_step (fresh_world, []) calls in
  s.1 = run_state recorder_step fresh_world calls /\ projects s.1.1 s.2.
Proof.
  intros s. split; [apply route_step_world|].
  apply (run_invariant route_step (fun s => projects s.1.1 s.2)).
  split; simpl; try done; constructor.
Qed.

(** C14: The duration of a ride is the time it was active: after any sequence of
    calls, and at any time from the newest event on, the three fields that
    encode the timing answer the sum of the intervals in which the recording
    was active since its start, pauses and interruptions left out (for an
    interrupted ride saved at a recorded duration, that duration), as long as
    the ride was not discarded.  Requested times that run backwards are
    clamped; they never make an interval negative. *)
Theorem active_time_is_counted calls at_ lifecycle :
  let s := run_state timed_step (fresh_world, idle) calls in
  let r := s.1.1 in
  state r = Some lifecycle -> lifecycle <> Discarded -> last_monotonic r <= at_ ->
  s.1 = run_state recorder_step fresh_world calls
  /\ duration_milliseconds_at r at_ = active_total s.2 at_.
Proof.
  intros s r Hst Hd Hat. split; [apply timed_step_world|].
  assert (H : timed r s.2)
    by (apply (run_invariant timed_step (fun s => timed s.1.1 s.2)); by split).
  destruct H as [H0 H]. unfold duration_milliseconds_at, duration_at, active_total. rewrite Hst in *.
  simpl. destruct lifecycle; try done.
  - destruct H as (since & -> & ?). int_lia.
  - destruct H as (p & -> & -> & ?). int_lia.
  - destruct H as (-> & -> & _). lia.
  - destruct H as (-> & -> & _). lia.
  - destruct H as (-> & ->). lia.
Qed.

(** C15: A restart loses nothing that a ride shows.  Restoring a recorder, after
    any sequence of calls, from its stored parts and the complete stored route
    gives back its lifecycle, creation time, points, totals, first sequence
    number and vehicle, its timing unless it was discarded, and the same
    duration at every time.  The restored recorder admits no sample from before
    its newest event and, the counter of generations running on, records no
    admission made before the restart. *)
Theorem restart_keeps_the_ride calls counter lifecycle a :
  let s := run_state route_step (fresh_world, []) calls in
  let r := s.1.1 in
  let r' := restart counter r s.2 in
  state r = Some lifecycle -> s.1.2 <= counter ->
  recording_generation r = Some (ad_recording_generation a) ->
  state r' = Some lifecycle /\ route_view r' = (points r, first_point_sequence r, summary r,
                                               Z.max (background_gap_count r) (observed_gaps (points r)))
  /\ vehicle_view r' = vehicle_view r
  /\ (lifecycle <> Discarded -> recording_timing r' = recording_timing r)
  /\ (forall at_, duration_milliseconds_at r' at_ = duration_milliseconds_at r at_)
  /\ (lifecycle = Active -> forall sample, monotonic sample < last_monotonic r ->
        check_sample great_circle r' sample = OutOfOrder)
  /\ record_admitted_sample great_circle r' a = (r', false).
Proof.
  intros s r r' Hst Hk Hg.
  assert (Hw : s.1 = run_state recorder_step fresh_world calls) by apply route_step_world.
  assert (Hp : projects r s.2).
  { apply (run_invariant route_step (fun s => projects s.1.1 s.2)). split; simpl; try done; constructor. }
  assert (Hs : storable r).
  { unfold r. rewrite Hw. apply (run_invariant recorder_step (fun w => storable w.1)). by split. }
  assert (Ht : timed r (run_state timed_step (fresh_world, idle) calls).2).
  { unfold r. rewrite Hw. rewrite <- (timed_step_world (fresh_world, idle)).
    apply (run_invariant timed_step (fun s => timed s.1.1 s.2)). by split. }
  assert (Hb : generation_below s.1) by (rewrite Hw; apply run_invariant; [apply _|done]).
  destruct (restart_result counter r s.2 lifecycle _ Hst Hp Hs Ht) as (E1 & E2 & E3 & E4 & E5 & E6 & E7).
  split_ands; try done.
  - intros Hl sample Hlt. unfold check_sample, route_admission. fold r' in E6. rewrite E6, Hl. simpl.
    by rewrite bool_decide_eq_true_2.
  - destruct Hb as [Hb1 Hb2]. specialize (Hb2 _ Hg). fold r' in E7.
    unfold record_admitted_sample. rewrite E7.
    assert (bool_decide (Some (ad_recording_generation a) = (next_recording_generation counter).1)
            = false) as ->; [|by rewrite orb_true_r].
    apply bool_decide_eq_false_2. unfold next_recording_generation.
    destruct (checked_add u64_max counter 1), (bool_decide (counter = 0)); simpl;
      intros [=]; lia.
Qed.
End Route.

(** ** At a concrete ride

    A flat map: every distance is zero, and every sample of [fix_at] repeats
    the same place with another accuracy. *)
Definition flat (a b : Coordinate) : Z := 0.
Definition fix_at (at_ accuracy : Z) : LocationSample :=
  {| coordinate := {| latitude := 0; longitude := 0 |}; monotonic := at_; wall_clock := at_;
     horizontal_accuracy := Some accuracy; source := Live |}.
Definition admission_at (at_ : Z) : AdmittedLocationSample :=
  {| ad_point := {| pt_sample := fix_at at_ 1; pt_segment_id := 0; pt_telemetry_state := GpsOnly;
                    pt_segment_start_reason := ReasonInitial |};
     ad_boundary := BoundaryStart; ad_recording_generation := 1;
     ad_active_interval_generation := 0 |}.
Definition short_ride : list RecorderCall :=
  [CallStart 0 None; CallRecordSample (fix_at 1000 1); CallTransition Pause 2000;
   CallTransition Resume 5000; CallRecordSample (fix_at 6000 2)].

Lemma admission_used_at_most_once_witness :
  recorder_step flat (run_state (recorder_step flat) fresh_world
                        [CallStart 0 None; CallRecordAdmitted (admission_at 1000);
                         CallTransition Stop 2000; CallStart 3000 None])
    (CallRecordAdmitted (admission_at 1000))
  = (run_state (recorder_step flat) fresh_world
       [CallStart 0 None; CallRecordAdmitted (admission_at 1000);
        CallTransition Stop 2000; CallStart 3000 None], ReplyBool false).
Proof.
  pose proof (admission_used_at_most_once flat [CallStart 0 None]
           (CallRecordAdmitted (admission_at 1000))
           [CallTransition Stop 2000; CallStart 3000 None] (admission_at 1000)) as H.
  vm_compute in H |- *. apply H. left. split; reflexivity.
Defined.

Lemma active_time_is_counted_witness :
  duration_milliseconds_at (run_state (timed_step flat) (fresh_world, idle) short_ride).1.1 9000
  = 6000.
Proof.
  etransitivity.
  - refine (proj2 (active_time_is_counted flat short_ride 9000 Active _ _ _)).
    + vm_compute. reflexivity.
    + discriminate.
    + apply Z.leb_le. vm_compute. reflexivity.
  - vm_compute. reflexivity.
Defined.

Lemma restart_keeps_the_ride_witness :
  (restart 2 (run_state (route_step flat) (fresh_world, []) short_ride).1.1
     (run_state (route_step flat) (fresh_world, []) short_ride).2).(state) = Some Active.
Proof.
  refine (proj1 (restart_keeps_the_ride flat short_ride 2 Active (admission_at 1000) _ _ _)).
  - vm_compute. reflexivity.
  - apply Z.leb_le. vm_compute. reflexivity.
  - vm_compute. reflexivity.
Defined.

(** The restored gap count is the number of points whose segment a gap
    opened: one gap with two points after it counts twice. *)
Example restart_counts_gap_points :
  let s := run_state (route_step flat) (fresh_world, [])
             [CallStart 0 None; CallRecordSample (fix_at 1000 1);
              CallRecordSample (fix_at 41000 2); CallRecordSample (fix_at 42000 3)] in
  background_gap_count s.1.1 = 1 /\ background_gap_count (restart 2 s.1.1 s.2) = 2.
Proof. vm_compute. split; reflexivity. Qed.
