(* ===== verification/RideMotion.v ===== *)
(** * Motion and location of a recording

    [libcutout-persistence/src/recording.rs]: which source of speed a ride
    shows, the bounded history of the wheel's motion, the location work the
    platform is asked for, and the in-memory recording session.  The speed of
    the phone is a floating-point number; what its admission makes of it is the
    parameter [phone_speed].  The random identity of a new ride is an input. *)

From Stdlib Require Import Sorted.
From S2P Require Import Prelude.
From S2P Require Import Quantities ElapsedTime Text RideLocation RideRecorder.
Import Lifecycle.

Definition RideId : Type := Z.

(** ** Motion *)

Record RideMotionObservation := {
  mo_parked : bool;
  mo_at : Z;
  mo_last_stationary : option Z;
}.
#[global] Instance motion_observation_eq_dec : EqDecision RideMotionObservation.
Proof. solve_decision. Defined.

Record SpeedObservation := { so_speed : Z; so_at : Z; so_generation : Z }.
Record PhoneGpsReceipt := { pr_at : Z; pr_generation : Z }.
Inductive RecordingSpeedSource := FromVehicle | FromPhoneGps.
Record RecordingSpeed := { rs_speed : Z; rs_source : RecordingSpeedSource }.

(** The array [motion] with the number of its slots in use. *)
Record RecordingSpeedState := {
  sp_vehicle : option SpeedObservation;
  sp_phone_gps : option SpeedObservation;
  sp_phone_receipt : option PhoneGpsReceipt;
  sp_motion : list (option RideMotionObservation);
  sp_motion_count : nat;
  sp_latest_verified : option Z;
  sp_first_verified : option Z;
  sp_retired_before : option Z;
}.
#[global] Instance eta_speed_state : Eta RecordingSpeedState := fun r =>
  Build_RecordingSpeedState (sp_vehicle r) (sp_phone_gps r) (sp_phone_receipt r) (sp_motion r)
    (sp_motion_count r) (sp_latest_verified r) (sp_first_verified r) (sp_retired_before r).

Definition MOTION_SLOTS : nat := 64.
Definition default_speed_state : RecordingSpeedState := {|
  sp_vehicle := None; sp_phone_gps := None; sp_phone_receipt := None;
  sp_motion := replicate MOTION_SLOTS None; sp_motion_count := 0;
  sp_latest_verified := None; sp_first_verified := None; sp_retired_before := None |}.

(** What [restore_motion] puts into the first slots. *)
Definition restored_motion (observation : RideMotionObservation) : list RideMotionObservation :=
  match mo_last_stationary observation with
  | Some at_ =>
      if negb (mo_parked observation) && bool_decide (at_ < mo_at observation)
      then [{| mo_parked := true; mo_at := at_; mo_last_stationary := Some at_ |}; observation]
      else [observation]
  | None => [observation]
  end.
Definition restore_motion (self : RecordingSpeedState) (observation : RideMotionObservation)
  : RecordingSpeedState :=
  let kept := restored_motion observation in
  self <| sp_motion := (Some <$> kept) ++ replicate (MOTION_SLOTS - length kept) None |>
       <| sp_motion_count := length kept |>
       <| sp_latest_verified := Some (mo_at observation) |>
       <| sp_first_verified := mo_at <$> head kept |>
       <| sp_retired_before := None |>.

Definition slot (self : RecordingSpeedState) (index : nat) : option RideMotionObservation :=
  mjoin (sp_motion self !! index).
Definition latest_motion (self : RecordingSpeedState) : option RideMotionObservation :=
  match sp_motion_count self with O => None | S index => slot self index end.

(** [rotate_left(1)]. *)
Definition rotate_left {A} (l : list A) : list A := drop 1 l ++ take 1 l.

Definition motion_admitted (self : RecordingSpeedState) (source_at receipt_at : Z) : bool :=
  negb (bool_decide (receipt_at < source_at)
        || bool_decide (TELEMETRY_FRESHNESS_MILLISECONDS < sat_sub receipt_at source_at)
        || match sp_latest_verified self with
           | Some at_ => bool_decide (source_at <= at_)
           | None => false
           end).

(** The two clocks of an admitted observation. *)
Definition hears (self : RecordingSpeedState) (source_at : Z) : RecordingSpeedState :=
  self <| sp_latest_verified := Some source_at |>
       <| sp_first_verified := Some (default source_at (sp_first_verified self)) |>.

(** A full array loses its oldest transition. *)
Definition retire_motion (self : RecordingSpeedState) : RecordingSpeedState :=
  if bool_decide (sp_motion_count self = length (sp_motion self))
  then let self := self <| sp_motion := rotate_left (sp_motion self) |>
                        <| sp_motion_count := pred (sp_motion_count self) |> in
       self <| sp_retired_before := mo_at <$> slot self 0 |>
  else self.

Definition push_motion (self : RecordingSpeedState) (observation : RideMotionObservation)
  : RecordingSpeedState :=
  self <| sp_motion := <[sp_motion_count self := Some observation]> (sp_motion self) |>
       <| sp_motion_count := S (sp_motion_count self) |>.

Definition observe_verified_motion (self : RecordingSpeedState) (speed source_at receipt_at : Z)
  : RecordingSpeedState * bool :=
  if negb (motion_admitted self source_at receipt_at) then (self, false) else
  let self := hears self source_at in
  let parked := negb (speed_is_moving speed) in
  if match latest_motion self with
     | Some previous => bool_decide (mo_parked previous = parked)
     | None => false
     end
  then (self, false)
  else
    let self := retire_motion self in
    let last_stationary :=
      if parked then Some source_at
      else match latest_motion self with
           | Some motion => mo_last_stationary motion
           | None => None
           end in
    (push_motion self {| mo_parked := parked; mo_at := source_at;
                         mo_last_stationary := last_stationary |}, true).

(** Searched from the newest slot. *)
Definition motion_at (self : RecordingSpeedState) (source_at : Z) : option RideMotionObservation :=
  head (filter (fun motion => mo_at motion <= source_at)
          (omap id (reverse (take (sp_motion_count self) (sp_motion self))))).
Definition parked_at (self : RecordingSpeedState) (source_at : Z) : bool :=
  is_some_and (motion_at self source_at) mo_parked.

Definition motion_history_retired_at (self : RecordingSpeedState) (source_at : Z) : bool :=
  match sp_first_verified self with
  | Some first => bool_decide (first <= source_at)
  | None => false
  end
  && match sp_retired_before self with
     | Some oldest => bool_decide (source_at < oldest)
     | None => false
     end.

(** ** Speed *)

Definition observe_vehicle_speed (self : RecordingSpeedState) (speed : option Z)
    (at_ generation : Z) : RecordingSpeedState :=
  match speed with
  | None => self
  | Some speed =>
      if match sp_vehicle self with
         | Some previous =>
             bool_decide (so_generation previous = generation) && bool_decide (at_ <= so_at previous)
         | None => false
         end
      then self
      else self <| sp_vehicle := Some {| so_speed := speed; so_at := at_;
                                         so_generation := generation |} |>
  end.

Section Phone.
(** [phone_speed] is the filter and the rounding of the reported speed: a
    finite speed that is not negative, in millimetres per second, if an [i32]
    holds it. *)
Context {Float : Type} (phone_speed : Float -> option Z).

Definition observe_phone_gps (self : RecordingSpeedState) (speed : option Float)
    (at_ generation : Z) : RecordingSpeedState :=
  if match sp_phone_receipt self with
     | Some previous =>
         bool_decide (pr_generation previous = generation) && bool_decide (at_ <= pr_at previous)
     | None => false
     end
  then self
  else
    let self := self <| sp_phone_receipt := Some {| pr_at := at_; pr_generation := generation |} |> in
    match mbind phone_speed speed with
    | None => self
    | Some speed =>
        self <| sp_phone_gps := Some {| so_speed := speed; so_at := at_;
                                        so_generation := generation |} |>
    end.
End Phone.

Definition fresh_speed (observation : SpeedObservation) (generation at_ : Z) : option Z :=
  if bool_decide (so_generation observation = generation)
     && bool_decide (so_at observation <= at_)
     && bool_decide (sat_sub at_ (so_at observation) <= TELEMETRY_FRESHNESS_MILLISECONDS)
  then Some (so_speed observation) else None.
Definition selected_at (self : RecordingSpeedState) (lifecycle : RideLifecycleState)
    (generation at_ : Z) : option RecordingSpeed :=
  if negb (bool_decide (lifecycle = Active)) then None else
  match sp_vehicle self ≫= (fun o => fresh_speed o generation at_) with
  | Some speed => Some {| rs_speed := speed; rs_source := FromVehicle |}
  | None =>
      (fun speed => {| rs_speed := speed; rs_source := FromPhoneGps |})
        <$> (sp_phone_gps self ≫= (fun o => fresh_speed o generation at_))
  end.

(** ** Location work *)

Inductive LocationAuthorization := NotDetermined | Denied | Restricted | WhenInUse | Always.
#[global] Instance authorization_eq_dec : EqDecision LocationAuthorization.
Proof. solve_decision. Defined.
Record LocationEnvironment := {
  authorization : LocationAuthorization;
  services_enabled : bool;
  temporarily_unavailable : bool;
}.
#[global] Instance environment_eq_dec : EqDecision LocationEnvironment.
Proof. solve_decision. Defined.
Inductive LocationAvailability :=
| Checking | Ready | PermissionRequired | LocationDenied | LocationRestricted
| ServicesDisabled | TemporarilyUnavailable.
Inductive LocationDemand := DemandIdle | DemandPermission | DemandRecord.
Inductive LocationRecoveryAction := NoAction | ActionRequestPermission | ActionOpenSettings.
Record LocationAcquisition := {
  la_revision : Z;
  la_availability : LocationAvailability;
  la_demand : LocationDemand;
  la_recovery_action : LocationRecoveryAction;
}.
Record LocationAcquisitionState := {
  las_environment : option LocationEnvironment;
  las_capture_generation : Z;
  las_capture_active : bool;
}.
#[global] Instance eta_acquisition : Eta LocationAcquisitionState := fun r =>
  Build_LocationAcquisitionState (las_environment r) (las_capture_generation r)
    (las_capture_active r).
Definition default_acquisition : LocationAcquisitionState :=
  {| las_environment := None; las_capture_generation := 0; las_capture_active := false |}.

Definition observe_environment (self : LocationAcquisitionState)
    (environment : LocationEnvironment) : LocationAcquisitionState * bool :=
  if bool_decide (las_environment self = Some environment) then (self, false)
  else (self <| las_environment := Some environment |>, true).

Definition observe_diagnostic_capture (self : LocationAcquisitionState) (generation : Z)
    (active : bool) : LocationAcquisitionState * bool :=
  if bool_decide (generation < las_capture_generation self)
     || (bool_decide (generation = las_capture_generation self)
         && (negb (las_capture_active self) || active))
  then (self, false)
  else (self <| las_capture_generation := generation |> <| las_capture_active := active |>, true).

Definition availability_of (environment : option LocationEnvironment) : LocationAvailability :=
  match environment with
  | None => Checking
  | Some environment =>
      if negb (services_enabled environment) then ServicesDisabled
      else match authorization environment with
      | NotDetermined => PermissionRequired
      | Denied => LocationDenied
      | Restricted => LocationRestricted
      | WhenInUse | Always =>
          if temporarily_unavailable environment then TemporarilyUnavailable else Ready
      end
  end.
Definition location_acquisition_for (revision : Z) (lifecycle : option RideLifecycleState)
    (environment : option LocationEnvironment) (capture_active : bool) : LocationAcquisition :=
  let availability := availability_of environment in
  let requested := bool_decide (lifecycle = Some Active) || capture_active in
  {| la_revision := revision;
     la_availability := availability;
     la_demand :=
       if requested then
         match availability with
         | Ready | TemporarilyUnavailable => DemandRecord
         | PermissionRequired => DemandPermission
         | _ => DemandIdle
         end
       else DemandIdle;
     la_recovery_action :=
       if requested then
         match availability with
         | PermissionRequired => ActionRequestPermission
         | LocationDenied | ServicesDisabled => ActionOpenSettings
         | _ => NoAction
         end
       else NoAction |}.
Definition acquisition (self : LocationAcquisitionState) (revision : Z)
    (lifecycle : option RideLifecycleState) : LocationAcquisition :=
  location_acquisition_for revision lifecycle (las_environment self) (las_capture_active self).

(** ** The in-memory session *)

Record RecordingToken := { rt_ride_id : RideId; rt_generation : Z }.
Record RecordingSnapshot := {
  snap_ride_id : RideId;
  snap_revision : Z;
  snap_token : option RecordingToken;
  snap_state : RideLifecycleState;
}.
#[global] Instance eta_snapshot : Eta RecordingSnapshot := fun r =>
  Build_RecordingSnapshot (snap_ride_id r) (snap_revision r) (snap_token r) (snap_state r).
Inductive RecordingError :=
| AlreadyRecording | NoActiveRide | InvalidTransition | DatabaseCommandRequired.

Record RideRecordingSession := {
  ses_database : bool;
  ses_recorder : RideMapRecorder;
  ses_revision : Z;
  ses_generation : Z;
  ses_snapshot : option RecordingSnapshot;
  ses_acquisition : LocationAcquisitionState;
}.
#[global] Instance eta_session : Eta RideRecordingSession := fun r =>
  Build_RideRecordingSession (ses_database r) (ses_recorder r) (ses_revision r)
    (ses_generation r) (ses_snapshot r) (ses_acquisition r).
Definition session_new (database : bool) : RideRecordingSession := {|
  ses_database := database; ses_recorder := recorder_new; ses_revision := 0;
  ses_generation := 0; ses_snapshot := None; ses_acquisition := default_acquisition |}.

(** What follows an accepted observation. *)
Definition bump_revision (self : RideRecordingSession) : RideRecordingSession :=
  let revision := sat_add u64_max (ses_revision self) 1 in
  self <| ses_revision := revision |>
       <| ses_snapshot := (fun s => s <| snap_revision := revision |>) <$> ses_snapshot self |>.
Definition observe_location_environment (self : RideRecordingSession)
    (environment : LocationEnvironment) : RideRecordingSession :=
  let '(acquisition, changed) := observe_environment (ses_acquisition self) environment in
  let self := self <| ses_acquisition := acquisition |> in
  if changed then bump_revision self else self.
Definition observe_diagnostic_capture_location (self : RideRecordingSession) (generation : Z)
    (active : bool) : RideRecordingSession :=
  let '(acquisition, changed) :=
    observe_diagnostic_capture (ses_acquisition self) generation active in
  let self := self <| ses_acquisition := acquisition |> in
  if changed then bump_revision self else self.
Definition location_acquisition (self : RideRecordingSession) : LocationAcquisition :=
  acquisition (ses_acquisition self) (ses_revision self) (state (ses_recorder self)).

(** [counter] is the process-wide counter of generations, [fresh_id] the
    random identity of the ride. *)
Definition start_gps_only (self : RideRecordingSession) (counter fresh_id at_ : Z)
    (candidate : option VehicleIdentity)
  : RideRecordingSession * Z * result RecordingSnapshot RecordingError :=
  if ses_database self then (self, counter, Err DatabaseCommandRequired) else
  match start (ses_recorder self) counter at_ candidate with
  | (recorder, counter, Err _) =>
      (self <| ses_recorder := recorder |>, counter, Err AlreadyRecording)
  | (recorder, counter, Ok _) =>
      let revision := sat_add u64_max (ses_revision self) 1 in
      let generation := sat_add u64_max (ses_generation self) 1 in
      let snapshot :=
        {| snap_ride_id := fresh_id; snap_revision := revision;
           snap_token := Some {| rt_ride_id := fresh_id; rt_generation := generation |};
           snap_state := Active |} in
      (self <| ses_recorder := recorder |> <| ses_revision := revision |>
            <| ses_generation := generation |> <| ses_snapshot := Some snapshot |>,
       counter, Ok snapshot)
  end.

Definition session_transition (self : RideRecordingSession) (event : RideEvent) (at_ : Z)
  : RideRecordingSession * result RecordingSnapshot RecordingError :=
  if ses_database self then (self, Err DatabaseCommandRequired) else
  match state (ses_recorder self), ses_snapshot self with
  | Some current, Some published =>
      match transition current event with
      | Err _ => (self, Err InvalidTransition)
      | Ok t =>
          match apply_transition_at (ses_recorder self) t at_ with
          | (recorder, Err _) => (self <| ses_recorder := recorder |>, Err InvalidTransition)
          | (recorder, Ok _) =>
              let revision := sat_add u64_max (ses_revision self) 1 in
              let generation := sat_add u64_max (ses_generation self) 1 in
              let ride_id := snap_ride_id published in
              let snapshot :=
                {| snap_ride_id := ride_id; snap_revision := revision;
                   snap_token :=
                     if bool_decide (next t = Active)
                     then Some {| rt_ride_id := ride_id; rt_generation := generation |} else None;
                   snap_state := next t |} in
              (self <| ses_recorder := recorder |> <| ses_revision := revision |>
                    <| ses_generation := generation |> <| ses_snapshot := Some snapshot |>,
               Ok snapshot)
          end
      end
  | _, _ => (self, Err NoActiveRide)
  end.

(** ** The history of motion *)

Inductive MotionCall :=
| RestoreMotion (observation : RideMotionObservation)
| ObserveMotion (speed source_at receipt_at : Z).
Definition motion_step (self : RecordingSpeedState) (c : MotionCall)
  : RecordingSpeedState * bool :=
  match c with
  | RestoreMotion observation => (restore_motion self observation, true)
  | ObserveMotion speed source_at receipt_at =>
      observe_verified_motion self speed source_at receipt_at
  end.

(** The specification keeps what the last restoration brought and every
    observation admitted since, with whether the wheel was parked, oldest
    first; a restoration replaces all that was heard before it. *)
Definition heard_after (before : RecordingSpeedState) (heard : list (Z * bool)) (c : MotionCall)
  : list (Z * bool) :=
  match c with
  | RestoreMotion observation => (fun m => (mo_at m, mo_parked m)) <$> restored_motion observation
  | ObserveMotion speed source_at receipt_at =>
      if motion_admitted before source_at receipt_at
      then heard ++ [(source_at, negb (speed_is_moving speed))] else heard
  end.
Definition heard_step (s : RecordingSpeedState * list (Z * bool)) (c : MotionCall)
  : (RecordingSpeedState * list (Z * bool)) * bool :=
  let '(self, b) := motion_step s.1 c in ((self, heard_after s.1 s.2 c), b).
(** What was last heard of the wheel at [t]. *)
Definition known_at (heard : list (Z * bool)) (t : Z) : option bool :=
  snd <$> last (filter (fun o => o.1 <= t) heard).

Definition found_at (kept : list RideMotionObservation) (t : Z) : option RideMotionObservation :=
  last (filter (fun motion => mo_at motion <= t) kept).

(** *** Filtered lists *)

Lemma last_filter_snoc {A} (P : A -> Prop) `{!forall x, Decision (P x)} l x :
  last (filter P (l ++ [x])) = if decide (P x) then Some x else last (filter P l).
Proof.
  rewrite filter_app, filter_cons, filter_nil. case_decide; [by rewrite last_snoc|].
  by rewrite app_nil_r.
Qed.
Lemma last_filter_last {A} (P : A -> Prop) `{!forall x, Decision (P x)} l x :
  last l = Some x -> P x -> last (filter P l) = Some x.
Proof.
  destruct l as [|y l _] using rev_ind; [done|]. rewrite last_snoc. intros [= ->] Hp.
  rewrite last_filter_snoc. by rewrite decide_True.
Qed.
Lemma last_filter_cons {A} (P : A -> Prop) `{!forall x, Decision (P x)} x l :
  is_Some (last (filter P l)) -> last (filter P (x :: l)) = last (filter P l).
Proof.
  rewrite filter_cons. case_decide; [|done]. destruct (filter P l); [by intros [? ?]|done].
Qed.
Lemma filter_before {A} (f : A -> Z) l x t :
  StronglySorted Z.lt (f <$> l) -> head l = Some x -> t < f x -> filter (fun y => f y <= t) l = [].
Proof.
  destruct l as [|y l]; [done|]. simpl. intros Hs [= ->] Hlt.
  apply StronglySorted_inv in Hs as [_ Hall].
  rewrite filter_cons, decide_False by lia. induction l as [|z l IH]; [done|]. simpl in *.
  apply Forall_cons in Hall as [? Hall]. rewrite filter_cons, decide_False by lia. by apply IH.
Qed.

(** *** The invariant *)

(** [kept] are the transitions in the slots. *)
Record remembers (s : RecordingSpeedState) (heard : list (Z * bool))
    (kept : list RideMotionObservation) : Prop := {
  rem_slots : exists rest, sp_motion s = (Some <$> kept) ++ rest;
  rem_length : length (sp_motion s) = MOTION_SLOTS;
  rem_count : sp_motion_count s = length kept;
  rem_heard : StronglySorted Z.lt (fst <$> heard);
  rem_kept : StronglySorted Z.lt (mo_at <$> kept);
  rem_latest : sp_latest_verified s = fst <$> last heard;
  rem_first : sp_first_verified s = fst <$> head heard;
  rem_flag : mo_parked <$> last kept = snd <$> last heard;
  rem_last : forall m o, last kept = Some m -> last heard = Some o -> mo_at m <= o.1;
  rem_retired : match sp_retired_before s with
                | None => mo_at <$> head kept = fst <$> head heard
                | Some oldest => mo_at <$> head kept = Some oldest /\ length kept = MOTION_SLOTS
                    /\ forall o, head heard = Some o -> o.1 <= oldest
                end;
  rem_known : forall t, (forall m, head kept = Some m -> mo_at m <= t) ->
    mo_parked <$> found_at kept t = known_at heard t;
}.

Lemma omap_id_fmap_Some {A} (l : list A) : omap id (Some <$> l) = l.
Proof. induction l as [|x l IH]; [done|]. simpl. f_equal. apply IH. Qed.

Section Remembers.
Context (s : RecordingSpeedState) (heard : list (Z * bool)) (kept : list RideMotionObservation).
Context (R : remembers s heard kept).

Lemma slot_kept i : (i < length kept)%nat -> slot s i = kept !! i.
Proof.
  intros Hi. destruct (rem_slots _ _ _ R) as [rest E]. unfold slot. rewrite E.
  rewrite lookup_app_l by (by rewrite length_fmap). rewrite list_lookup_fmap.
  by destruct (kept !! i).
Qed.
Lemma latest_motion_last : latest_motion s = last kept.
Proof.
  unfold latest_motion. rewrite (rem_count _ _ _ R), last_lookup.
  destruct (length kept) as [|n] eqn:E; [by apply nil_length_inv in E as ->|].
  apply slot_kept. lia.
Qed.
Lemma motion_at_found t : motion_at s t = found_at kept t.
Proof.
  destruct (rem_slots _ _ _ R) as [rest E]. unfold motion_at, found_at.
  rewrite (rem_count _ _ _ R), E, <- (length_fmap Some kept), take_app_length.
  rewrite <- fmap_reverse, omap_id_fmap_Some, filter_reverse. apply head_reverse.
Qed.
Lemma kept_fits : (length kept <= MOTION_SLOTS)%nat.
Proof.
  destruct (rem_slots _ _ _ R) as [rest E]. rewrite <- (rem_length _ _ _ R), E, length_app, length_fmap.
  lia.
Qed.
End Remembers.

Lemma known_at_snoc heard at_ flag t :
  known_at (heard ++ [(at_, flag)]) t = if decide (at_ <= t) then Some flag else known_at heard t.
Proof. unfold known_at. rewrite last_filter_snoc. simpl. by case_decide. Qed.
Lemma found_at_snoc kept m t :
  found_at (kept ++ [m]) t = if decide (mo_at m <= t) then Some m else found_at kept t.
Proof. unfold found_at. rewrite last_filter_snoc. by case_decide. Qed.
Lemma known_at_last heard o t :
  last heard = Some o -> o.1 <= t -> known_at heard t = Some o.2.
Proof. intros Hl Ht. unfold known_at. by rewrite (last_filter_last _ _ o). Qed.
Lemma known_at_before heard o t :
  StronglySorted Z.lt (fst <$> heard) -> head heard = Some o -> t < o.1 -> known_at heard t = None.
Proof. intros Hs Hh Ht. unfold known_at. by rewrite (filter_before fst heard o t). Qed.

(** An admitted observation is newer than everything heard. *)
Lemma admitted_newer s heard kept source_at receipt_at :
  remembers s heard kept -> motion_admitted s source_at receipt_at = true ->
  forall o, last heard = Some o -> o.1 < source_at.
Proof.
  intros R H o Ho. unfold motion_admitted in H. rewrite (rem_latest _ _ _ R), Ho in H. simpl in H.
  prop_bools. lia.
Qed.


Lemma heard_nil_kept s heard kept : remembers s heard kept -> heard = [] <-> kept = [].
Proof.
  intros R. pose proof (rem_flag _ _ _ R) as Hf. split.
  - intros ->. destruct (last kept) eqn:E; [done|]. by apply last_None in E.
  - intros ->. destruct (last heard) eqn:E; [done|]. by apply last_None in E.
Qed.
Lemma heard_sorted s heard kept at_ (flag : bool) :
  remembers s heard kept -> (forall o, last heard = Some o -> o.1 < at_) ->
  StronglySorted Z.lt (fst <$> heard ++ [(at_, flag)]).
Proof.
  intros R Hnew. rewrite fmap_app. apply StronglySorted_snoc_last; [by apply (rem_heard _ _ _ R)|].
  intros y. rewrite fmap_last, fmap_Some. intros (o & Ho & ->). by apply Hnew.
Qed.
Lemma heard_first s heard kept at_ (flag : bool) :
  remembers s heard kept ->
  Some (default at_ (sp_first_verified s)) = fst <$> head (heard ++ [(at_, flag)]).
Proof. intros R. rewrite (rem_first _ _ _ R). by destruct heard. Qed.

(** The wheel did what it did before. *)
Lemma hear_same s heard kept at_ flag :
  remembers s heard kept -> (forall o, last heard = Some o -> o.1 < at_) ->
  mo_parked <$> last kept = Some flag -> remembers (hears s at_) (heard ++ [(at_, flag)]) kept.
Proof.
  intros R Hnew Hflag. pose proof (heard_sorted s heard kept at_ flag R Hnew) as Hsorted.
  pose proof (heard_first s heard kept at_ flag R) as Hfirst.
  assert (Hne : exists o h, heard = o :: h).
  { destruct heard as [|o h]; [|by exists o, h]. rewrite (proj1 (heard_nil_kept _ _ _ R)) in Hflag; done. }
  destruct Hne as (o0 & h0 & E0).
  assert (Hlast : exists m p, last kept = Some m /\ last heard = Some p /\ mo_at m < at_).
  { destruct (last kept) as [m|] eqn:Em; [|done].
    destruct (last heard) as [p|] eqn:Ep; [|rewrite E0 in Ep; by apply last_None in Ep].
    exists m, p. pose proof (rem_last _ _ _ R m p Em Ep). pose proof (Hnew p eq_refl).
    split_ands; try done. lia. }
  destruct Hlast as (m & p & Em & Ep & Hm). destruct s, R as [Hs Hl Hc Hh Hk _ Hf Hfl Hla Hr Hkn].
  split; simpl in *; try done.
  - by rewrite last_snoc.
  - by rewrite last_snoc.
  - intros m' o Hm'. rewrite last_snoc. intros [= <-]. simplify_eq. simpl. lia.
  - rewrite E0 in *. simpl in *. by destruct sp_retired_before0.
  - intros t Ht. rewrite known_at_snoc. case_decide as Hat; [|by apply Hkn].
    rewrite Em in Hflag. unfold found_at. by rewrite (last_filter_last _ _ m) by (done || lia).
Qed.

(** The wheel did something else: first a full array loses its oldest slot,
    which a found transition does not miss while its time is retained. *)
Lemma remembers_retired s heard kept at_ :
  remembers s heard kept ->
  exists kept', sp_motion_count (retire_motion (hears s at_)) = length kept'
    /\ (length kept' < MOTION_SLOTS)%nat
    /\ length (sp_motion (retire_motion (hears s at_))) = MOTION_SLOTS
    /\ (exists rest, sp_motion (retire_motion (hears s at_)) = (Some <$> kept') ++ rest)
    /\ (kept' = kept /\ sp_retired_before (retire_motion (hears s at_)) = sp_retired_before s
        /\ sp_retired_before s = None
        \/ (exists m, kept = m :: kept') /\ length kept = MOTION_SLOTS
           /\ sp_retired_before (retire_motion (hears s at_)) = mo_at <$> head kept').
Proof.
  intros R. pose proof (kept_fits _ _ _ R) as Hfit. pose proof (slot_kept _ _ _ R) as Hslot.
  destruct s, R as [[rest Hs] Hl Hc Hh Hk _ Hf Hfl Hla Hr Hkn]. simpl in *. subst sp_motion_count0.
  unfold retire_motion, hears. simpl. rewrite Hl. case_bool_decide as Hfull; simpl.
  - destruct kept as [|m kept]; [done|]. exists kept. simpl in *. subst sp_motion0. simpl in *.
    split_ands; try lia; try done.
    + unfold rotate_left. rewrite !length_app, length_drop, length_take. simpl. lia.
    + exists (rest ++ [Some m]). unfold rotate_left. simpl. by rewrite drop_0, <- app_assoc.
    + right. split_ands; [by exists m|done|]. unfold slot, rotate_left. simpl. rewrite drop_0.
      by destruct kept.
  - exists kept. split_ands; try done; [unfold MOTION_SLOTS in *; lia|by exists rest|].
    left. split_ands; try done. destruct sp_retired_before0; [|done]. destruct Hr as (_ & Hr & _). lia.
Qed.

Lemma found_at_tail m kept t :
  (forall h, head kept = Some h -> mo_at h <= t) -> kept <> [] ->
  found_at (m :: kept) t = found_at kept t.
Proof.
  intros Hh Hne. unfold found_at. apply last_filter_cons. destruct kept as [|h kept]; [done|].
  specialize (Hh h eq_refl). rewrite filter_cons, decide_True by done.
  destruct (last (_ :: _)) eqn:E; [by eexists|]. by apply last_None in E.
Qed.

Lemma push_motion_fields self o :
  let self' := push_motion self o in
  sp_motion self' = <[sp_motion_count self := Some o]> (sp_motion self)
  /\ sp_motion_count self' = S (sp_motion_count self)
  /\ sp_latest_verified self' = sp_latest_verified self
  /\ sp_first_verified self' = sp_first_verified self
  /\ sp_retired_before self' = sp_retired_before self.
Proof. by destruct self. Qed.
Lemma retire_hears_clocks s at_ :
  sp_latest_verified (retire_motion (hears s at_)) = Some at_
  /\ sp_first_verified (retire_motion (hears s at_)) = Some (default at_ (sp_first_verified s)).
Proof. destruct s. unfold retire_motion, hears. simpl. by case_bool_decide. Qed.

(** The first observation is not after the oldest transition kept. *)
Lemma first_not_after s heard kept h m :
  remembers s heard kept -> head heard = Some h -> head kept = Some m -> h.1 <= mo_at m.
Proof.
  intros R Hh Hm. pose proof (rem_retired _ _ _ R) as H. rewrite Hh, Hm in H. simpl in H.
  destruct (sp_retired_before s); [|simplify_eq; lia].
  destruct H as ([= <-] & _ & H). by apply H.
Qed.

Lemma hear_new_retired s heard kept at_ o k :
  remembers s heard kept -> mo_at o = at_ ->
  (k = kept /\ sp_retired_before (retire_motion (hears s at_)) = sp_retired_before s
     /\ sp_retired_before s = None
   \/ (exists m, kept = m :: k) /\ length kept = MOTION_SLOTS
      /\ sp_retired_before (retire_motion (hears s at_)) = mo_at <$> head k) ->
  match sp_retired_before (retire_motion (hears s at_)) with
  | None => mo_at <$> head (k ++ [o]) = fst <$> head (heard ++ [(at_, mo_parked o)])
  | Some oldest => mo_at <$> head (k ++ [o]) = Some oldest /\ length (k ++ [o]) = MOTION_SLOTS
      /\ forall h, head (heard ++ [(at_, mo_parked o)]) = Some h -> h.1 <= oldest
  end.
Proof.
  intros R Ho [(-> & -> & Hn)|([m E] & Hlen & ->)].
  - rewrite Hn. pose proof (rem_retired _ _ _ R) as Hr. rewrite Hn in Hr.
    destruct (heard_nil_kept _ _ _ R) as [H1 H2].
    destruct kept as [|m kept]; [by rewrite H2; simpl; rewrite ?Ho|].
    destruct heard as [|h heard]; [by specialize (H1 eq_refl)|]. done.
  - destruct k as [|h k]; [by rewrite E in Hlen|]. simpl. split_ands.
    + done.
    + rewrite E in Hlen. simpl in *. rewrite length_app. simpl. lia.
    + intros p Hp. destruct heard as [|h0 heard].
      { destruct (heard_nil_kept _ _ _ R) as [H1 _]. rewrite H1 in E; done. }
      simpl in Hp. injection Hp as <-.
      pose proof (first_not_after _ _ _ h0 m R eq_refl) as Hf. rewrite E in Hf.
      specialize (Hf eq_refl). pose proof (rem_kept _ _ _ R) as Hks. rewrite E in Hks.
      apply StronglySorted_inv in Hks as [_ Hks]. apply Forall_cons in Hks as [? _]. simpl in *. lia.
Qed.

Lemma hear_new s heard kept at_ o :
  remembers s heard kept -> (forall o, last heard = Some o -> o.1 < at_) ->
  mo_at o = at_ ->
  exists kept', remembers (push_motion (retire_motion (hears s at_)) o)
                          (heard ++ [(at_, mo_parked o)]) kept'.
Proof.
  intros R Hnew Ho. destruct (remembers_retired _ _ _ at_ R) as (k & Hc & Hk & Hl & [rest Hs] & Hcase).
  assert (Hm : forall m, last k = Some m -> mo_at m < at_).
  { intros m Em. assert (El : last kept = Some m).
    { destruct Hcase as [(<- & _)|([m0 ->] & _)]; [done|]. by rewrite last_cons, Em. }
    destruct (last heard) as [p|] eqn:Ep.
    - pose proof (rem_last _ _ _ R m p El Ep). pose proof (Hnew p eq_refl). lia.
    - pose proof (rem_flag _ _ _ R) as Hf. by rewrite El, Ep in Hf. }
  assert (Hsorted : StronglySorted Z.lt (mo_at <$> k ++ [o])).
  { rewrite fmap_app. apply StronglySorted_snoc_last.
    - pose proof (rem_kept _ _ _ R) as Hks. destruct Hcase as [(-> & _)|([m0 ->] & _)]; [done|].
      by apply StronglySorted_inv in Hks as [? _].
    - intros y. rewrite fmap_last, fmap_Some. intros (m & Em & ->). rewrite Ho. by apply Hm. }
  assert (Hhead : forall m t, kept = m :: k -> (forall h, head k = Some h -> mo_at h <= t) ->
            k <> [] -> mo_at m <= t).
  { intros m t -> Hh Hne. pose proof (rem_kept _ _ _ R) as Hks. destruct k as [|h k]; [done|].
    apply StronglySorted_inv in Hks as [_ Hks]. apply Forall_cons in Hks as [? _].
    specialize (Hh h eq_refl). simpl in *. lia. }
  destruct (push_motion_fields (retire_motion (hears s at_)) o) as (E1 & E2 & E3 & E4 & E5).
  destruct (retire_hears_clocks s at_) as [C1 C2].
  exists (k ++ [o]). split; rewrite ?E1, ?E2, ?E3, ?E4, ?E5, ?C1, ?C2, ?Hc, ?Hs, ?last_snoc.
  - exists (drop 1 rest). rewrite fmap_app, <- app_assoc. simpl.
    destruct rest as [|x rest].
    { rewrite Hs, app_nil_r, length_fmap in Hl. lia. }
    replace (length k) with (length (Some <$> k) + 0)%nat by (rewrite length_fmap; lia).
    rewrite insert_app_r. simpl. by rewrite drop_0.
  - by rewrite length_insert, <- Hs.
  - rewrite length_app. simpl. lia.
  - by eapply heard_sorted.
  - done.
  - done.
  - by apply (heard_first s heard kept).
  - done.
  - intros m p [= <-] [= <-]. simpl. lia.
  - eapply hear_new_retired; done.
  - intros t Ht. rewrite known_at_snoc, found_at_snoc, Ho. case_decide; [done|].
    destruct (decide (k = [])) as [->|Hne].
    { specialize (Ht o eq_refl). lia. }
    assert (Ht' : forall h, head k = Some h -> mo_at h <= t)
      by (intros h Hh; apply Ht; by destruct k).
    rewrite <- (rem_known _ _ _ R).
    + destruct Hcase as [(-> & _)|([m0 ->] & _)]; [done|]. by rewrite found_at_tail.
    + destruct Hcase as [(<- & _)|([m0 E] & _)]; [done|]. rewrite E. intros ? [= <-]. by eapply Hhead.
Qed.

Lemma restored_remembers s observation :
  remembers (restore_motion s observation)
    ((fun m => (mo_at m, mo_parked m)) <$> restored_motion observation)
    (restored_motion observation).
Proof.
  assert (H : exists o, last (restored_motion observation) = Some o /\ mo_at o = mo_at observation
            /\ (length (restored_motion observation) <= 2)%nat
            /\ StronglySorted Z.lt (mo_at <$> restored_motion observation)).
  { unfold restored_motion. exists observation. destruct (mo_last_stationary observation) as [a|];
      [destruct (_ && _) eqn:E|]; simpl; split_ands; try done; try lia;
      repeat constructor; prop_bools; simpl; lia. }
  destruct H as (o & Hlast & Ho & Hlen & Hs). unfold restore_motion.
  revert Hlast Hlen Hs. generalize (restored_motion observation). intros kept Hlast Hlen Hs.
  destruct s. split; simpl; try done.
  - by eexists.
  - rewrite length_app, length_fmap, length_replicate. unfold MOTION_SLOTS in *. lia.
  - by rewrite <- list_fmap_compose.
  - by rewrite fmap_last, Hlast, <- Ho.
  - by destruct kept.
  - by rewrite fmap_last, Hlast.
  - intros m p Hm. rewrite fmap_last, Hm. intros [= <-]. simpl. lia.
  - by destruct kept.
  - intros t _. unfold found_at, known_at. clear.
    induction kept as [|m kept IH] using rev_ind; [done|].
    rewrite fmap_app. simpl. rewrite !last_filter_snoc. simpl. by case_decide.
Qed.

Lemma default_remembers : remembers default_speed_state [] [].
Proof. split; simpl; try done; [by eexists|constructor|constructor]. Qed.

#[local] Instance heard_step_remembers :
  Invariant heard_step (fun s => exists kept, remembers s.1 s.2 kept).
Proof.
  intros [s heard] c [kept R]. unfold heard_step. simpl in *.
  destruct c as [observation|speed source_at receipt_at]; simpl.
  - eexists. apply restored_remembers.
  - unfold observe_verified_motion. destruct (motion_admitted s source_at receipt_at) eqn:Ea; simpl;
      [|by exists kept].
    pose proof (admitted_newer _ _ _ _ _ R Ea) as Hnew.
    assert (El : latest_motion (hears s source_at) = last kept).
    { rewrite <- (latest_motion_last _ _ _ R). unfold latest_motion, slot. by destruct s. }
    rewrite El. destruct (last kept) as [m|] eqn:Em; [case_bool_decide as Hp|]; simpl.
    + exists kept. apply hear_same; [done|done|]. by rewrite Em, <- Hp.
    + by apply (hear_new s heard kept source_at
        {| mo_parked := _; mo_at := _; mo_last_stationary := _ |}).
    + by apply (hear_new s heard kept source_at
        {| mo_parked := _; mo_at := _; mo_last_stationary := _ |}).
Qed.

(** C21: The bounded motion history does not lie.  After any sequence of
    restorations and verified observations, a source time that is not reported
    as retired is answered by what the wheel was last heard to do at or before
    it, among what the last restoration brought and all observations admitted
    since (a restoration replaces what was known before it), although only 64
    changes are kept; a retired time has no answer, does not lie before the first
    of these observations, and occurs only when all 64 slots are in use. *)
Theorem motion_is_known_or_refused calls t :
  let s := run_state heard_step (default_speed_state, []) calls in
  if motion_history_retired_at s.1 t
  then motion_at s.1 t = None /\ is_Some (known_at s.2 t) /\ sp_motion_count s.1 = MOTION_SLOTS
  else mo_parked <$> motion_at s.1 t = known_at s.2 t.
Proof.
  intros s. assert (H : exists kept, remembers s.1 s.2 kept).
  { apply (run_invariant heard_step (fun s => exists kept, remembers s.1 s.2 kept)).
    exists []. apply default_remembers. }
  destruct H as [kept R]. rewrite (motion_at_found _ _ _ R). unfold motion_history_retired_at.
  pose proof (rem_retired _ _ _ R) as Hr. rewrite (rem_first _ _ _ R).
  destruct (head kept) as [m|] eqn:Em.
  2:{ destruct kept; [|done]. assert (Eh : s.2 = []) by (by apply (heard_nil_kept _ _ _ R)).
      by rewrite Eh. }
  destruct (head s.2) as [h|] eqn:Eh.
  2:{ destruct s.2 eqn:E; [|done]. rewrite (proj1 (heard_nil_kept _ _ _ R)) in Em; done. }
  simpl. pose proof (first_not_after _ _ _ _ _ R Eh Em) as Hle.
  assert (Hbefore : t < mo_at m -> found_at kept t = None).
  { intros Ht. unfold found_at. by rewrite (filter_before _ _ _ _ (rem_kept _ _ _ R) Em Ht). }
  assert (Hafter : mo_at m <= t -> mo_parked <$> found_at kept t = known_at s.2 t).
  { intros Ht. apply (rem_known _ _ _ R). intros m' Hm'. congruence. }
  assert (Hnever : t < h.1 -> known_at s.2 t = None) by
    (intros Ht; by apply (known_at_before _ h); [apply (rem_heard _ _ _ R)| |]).
  destruct (bool_decide (h.1 <= t)) eqn:Eb; prop_bools; simpl.
  - destruct (sp_retired_before s.1) as [oldest|]; simpl in *.
    + destruct Hr as ([= <-] & Hlen & _). case_bool_decide as Hlt; [|apply Hafter; lia].
      split_ands; [by apply Hbefore| |by rewrite (rem_count _ _ _ R)].
      unfold known_at. destruct s.2 as [|h' heard]; [done|]. injection Eh as ->.
      rewrite filter_cons, decide_True by done.
      destruct (last (_ :: _)) eqn:E; [by eexists|]. by apply last_None in E.
    + injection Hr as Hr. apply Hafter. lia.
  - rewrite Hnever by lia. by rewrite Hbefore by lia.
Qed.

(** The speed shown is fresh, of this recording and of an active ride; the
    phone is shown only when the wheel has no such speed. *)
Lemma selected_speed_is_fresh self lifecycle generation at_ shown :
  selected_at self lifecycle generation at_ = Some shown ->
  lifecycle = Active
  /\ exists o, (rs_source shown = FromVehicle /\ sp_vehicle self = Some o
                \/ rs_source shown = FromPhoneGps /\ sp_phone_gps self = Some o
                   /\ forall v, sp_vehicle self = Some v -> fresh_speed v generation at_ = None)
     /\ so_speed o = rs_speed shown /\ so_generation o = generation
     /\ so_at o <= at_ <= so_at o + TELEMETRY_FRESHNESS_MILLISECONDS.
Proof.
  assert (Hf : forall o v, fresh_speed o generation at_ = Some v ->
            so_speed o = v /\ so_generation o = generation
            /\ so_at o <= at_ <= so_at o + TELEMETRY_FRESHNESS_MILLISECONDS).
  { intros o v. unfold fresh_speed. destruct (_ && _ && _) eqn:E; [|done]. intros [= <-].
    prop_bools. split_ands; try done. revert H0. int_lia. }
  unfold selected_at. case_bool_decide as Hl; [|done]. simpl.
  destruct (sp_vehicle self ≫= _) as [v|] eqn:Ev.
  - apply bind_Some in Ev as (o & Eo & Ho). intros [= <-]. split; [done|]. exists o.
    split; [by left|]. by apply Hf.
  - destruct (sp_phone_gps self) as [o|] eqn:Eo; [|done]. simpl.
    destruct (fresh_speed o generation at_) as [v|] eqn:Ef; [|done]. intros [= <-].
    split; [done|]. exists o. split; [|by apply Hf]. right. split_ands; try done.
    intros w Hw. by rewrite Hw in Ev.
Qed.

(** The session publishes the state of its recorder. *)
Inductive SessionCall :=
| SessionEnvironment (environment : LocationEnvironment)
| SessionCapture (generation : Z) (active : bool)
| SessionStart (fresh_id at_ : Z) (candidate : option VehicleIdentity)
| SessionTransition (event : RideEvent) (at_ : Z).
Definition session_step (s : RideRecordingSession * Z) (c : SessionCall)
  : (RideRecordingSession * Z) * unit :=
  let '(self, counter) := s in
  match c with
  | SessionEnvironment environment => ((observe_location_environment self environment, counter), tt)
  | SessionCapture generation active =>
      ((observe_diagnostic_capture_location self generation active, counter), tt)
  | SessionStart fresh_id at_ candidate =>
      ((start_gps_only self counter fresh_id at_ candidate).1, tt)
  | SessionTransition event at_ => (((session_transition self event at_).1, counter), tt)
  end.

Definition published (self : RideRecordingSession) : Prop :=
  state (ses_recorder self) = snap_state <$> ses_snapshot self
  /\ forall snapshot, ses_snapshot self = Some snapshot ->
       snap_revision snapshot = ses_revision self
       /\ snap_token snapshot =
            if bool_decide (snap_state snapshot = Active)
            then Some {| rt_ride_id := snap_ride_id snapshot; rt_generation := ses_generation self |}
            else None.

Lemma bump_published self : published self -> published (bump_revision self).
Proof.
  intros [Hs Hp]. destruct self as [db rec rev gen [[]|] acq]; split; simpl in *; try done.
  intros ? [= <-]. by destruct (Hp _ eq_refl).
Qed.
Lemma start_state r counter at_ candidate :
  match start r counter at_ candidate with
  | (r', _, Ok _) => state r' = Some Active
  | (r', _, Err _) => r' = r
  end.
Proof.
  unfold start. destruct (negb _); [done|]. by destruct (next_recording_generation counter) as [[]].
Qed.
Lemma apply_transition_state r t at_ :
  match apply_transition_at r t at_ with
  | (r', Ok _) => state r' = Some (next t)
  | (r', Err _) => r' = r
  end.
Proof.
  unfold apply_transition_at. destruct (negb _); [done|].
  destruct (if resumes t then _ else _); [|done]. by destruct r.
Qed.

#[local] Instance session_step_published : Invariant session_step (fun s => published s.1).
Proof.
  intros [self counter] c Hp. simpl in Hp. destruct c; simpl.
  - unfold observe_location_environment. destruct (observe_environment _ _) as [acq []]; simpl;
      [apply bump_published|]; by destruct self.
  - unfold observe_diagnostic_capture_location.
    destruct (observe_diagnostic_capture _ _ _) as [acq []]; simpl; [apply bump_published|]; by destruct self.
  - unfold start_gps_only. destruct (ses_database self); [done|].
    pose proof (start_state (ses_recorder self) counter at_ candidate) as Hs.
    destruct (start _ counter at_ candidate) as [[r' k] [[]|]]; simpl;
      destruct self; simpl in *; [|by subst]. split; simpl; [done|]. by intros ? [= <-].
  - unfold session_transition. destruct (ses_database self); [done|].
    destruct (state (ses_recorder self)) as [current|]; [|done].
    destruct (ses_snapshot self) as [old|]; [|done]. destruct (transition current event) as [t|]; [|done].
    pose proof (apply_transition_state (ses_recorder self) t at_) as Hs.
    destruct (apply_transition_at (ses_recorder self) t at_) as [r' [[]|]]; simpl;
      destruct self; simpl in *; [|by subst]. split; simpl; [done|]. by intros ? [= <-].
Qed.

Lemma session_publishes database calls counter :
  published (run_state session_step (session_new database, counter) calls).1.
Proof. apply (run_invariant session_step (fun s => published s.1)). by split. Qed.
