(* ===== verification/RideRecovery.v ===== *)
(** * Recovery of an interrupted ride

    [cutout-ride-maps/src/recovery.rs]: the ordered evidence that the app was
    away, how two snapshots of it are merged, and what becomes of a ride that
    was found interrupted or paused. *)

From S2P Require Import Prelude.

Inductive RideAppPresence := Foreground | Background.
Inductive RideInactivityEligibility := VerifiedParked | NotCanonicallyParked.

(** An order is the nonzero number of an owner. *)
Definition presence_order_new (value : Z) : option Z :=
  if bool_decide (value = 0) then None else Some value.

Record RideInactivityEvidence := {
  presence_order : option Z;
  presence_observed_at : option Z;
  app_inactive_since : option Z;
  last_verified_device_seen : option Z;
}.
#[global] Instance eta_evidence : Eta RideInactivityEvidence := fun r =>
  Build_RideInactivityEvidence (presence_order r) (presence_observed_at r)
    (app_inactive_since r) (last_verified_device_seen r).
Definition no_evidence : RideInactivityEvidence := {|
  presence_order := None; presence_observed_at := None;
  app_inactive_since := None; last_verified_device_seen := None |}.
Inductive RideInactivityEvidenceError := InvalidState | OrderExhausted.

Definition from_state_parts (order observed_at inactive_since device_seen : option Z)
  : result RideInactivityEvidence RideInactivityEvidenceError :=
  if xorb (bool_decide (is_Some order)) (bool_decide (is_Some observed_at))
     || (bool_decide (is_Some inactive_since) && negb (bool_decide (is_Some order)))
  then Err InvalidState
  else Ok {| presence_order := order; presence_observed_at := observed_at;
             app_inactive_since := inactive_since; last_verified_device_seen := device_seen |}.

(** The order of [Option]: nothing is below everything. *)
Definition option_lt (a b : option Z) : bool :=
  match a, b with
  | Some a, Some b => bool_decide (a < b)
  | None, Some _ => true
  | _, None => false
  end.

Definition newest (current candidate : option Z) : option Z :=
  match current, candidate with
  | Some current, Some candidate => Some (Z.max current candidate)
  | Some current, None => Some current
  | None, Some candidate => Some candidate
  | None, None => None
  end.
Definition merge (self incoming : RideInactivityEvidence) : RideInactivityEvidence :=
  let newer := if option_lt (presence_order self) (presence_order incoming)
               then incoming else self in
  {| presence_order := presence_order newer;
     presence_observed_at := presence_observed_at newer;
     app_inactive_since := app_inactive_since newer;
     last_verified_device_seen :=
       newest (last_verified_device_seen self) (last_verified_device_seen incoming) |}.

Definition observe_app_presence (self : RideInactivityEvidence) (order : Z)
    (presence : RideAppPresence) (observed_at : Z) : RideInactivityEvidence * bool :=
  if match presence_order self with
     | Some previous => bool_decide (order <= previous)
     | None => false
     end
  then (self, false)
  else (self <| presence_order := Some order |>
             <| presence_observed_at := Some observed_at |>
             <| app_inactive_since :=
                  match presence with
                  | Foreground => None
                  | Background => Some (default observed_at (app_inactive_since self))
                  end |>, true).

Definition observe_verified_device_seen (self : RideInactivityEvidence) (observed_at : Z)
  : RideInactivityEvidence * bool :=
  if match last_verified_device_seen self with
     | Some previous => bool_decide (observed_at <= previous)
     | None => false
     end
  then (self, false)
  else (self <| last_verified_device_seen := Some observed_at |>, true).

Definition INTERRUPTED_RIDE_RESUME_WINDOW : Z := 3 * 60 * 60 * 1000.
Definition EXPLICIT_PAUSE_PERSISTENCE_WINDOW : Z := 24 * 60 * 60 * 1000.

Inductive RideRecoveryKind := InvoluntaryInterruption | ExplicitPause.
Inductive RideRecoveryDecision := DecideResume | KeepPaused | Finalize.
#[global] Instance recovery_decision_eq_dec : EqDecision RideRecoveryDecision.
Proof. solve_decision. Defined.

Definition ride_recovery_decision (kind : RideRecoveryKind) (now updated_at : Z)
  : RideRecoveryDecision :=
  match checked_sub now updated_at with
  | None => Finalize
  | Some age =>
      match kind with
      | InvoluntaryInterruption =>
          if bool_decide (age <= INTERRUPTED_RIDE_RESUME_WINDOW) then DecideResume else Finalize
      | ExplicitPause =>
          if bool_decide (age <= EXPLICIT_PAUSE_PERSISTENCE_WINDOW) then KeepPaused else Finalize
      end
  end.

Definition inactivity_recovery_decision (self : RideInactivityEvidence) (now : Z)
    (eligibility : RideInactivityEligibility) : option RideRecoveryDecision :=
  match eligibility with
  | NotCanonicallyParked => None
  | VerifiedParked =>
      (fun inactive_since =>
         let anchor := match last_verified_device_seen self with
                       | Some last_seen => Z.max inactive_since last_seen
                       | None => inactive_since
                       end in
         ride_recovery_decision InvoluntaryInterruption now anchor)
        <$> app_inactive_since self
  end.

(** ** Evidence *)

Definition valid_evidence (e : RideInactivityEvidence) : Prop :=
  (is_Some (presence_order e) <-> is_Some (presence_observed_at e))
  /\ (is_Some (app_inactive_since e) -> is_Some (presence_order e)).

Lemma restored_evidence_valid order at_ since seen e :
  from_state_parts order at_ since seen = Ok e <->
    e = {| presence_order := order; presence_observed_at := at_;
           app_inactive_since := since; last_verified_device_seen := seen |} /\ valid_evidence e.
Proof.
  unfold from_state_parts, valid_evidence. split.
  - destruct (_ || _) eqn:E; [done|]. intros [= <-]. split; [done|]. simpl.
    destruct order, at_, since; simpl in *; try done; repeat split; intros; try done; by eexists.
  - intros (-> & H1 & H2). simpl in *.
    destruct order, at_, since; simpl in *; try done; exfalso;
      destruct H1 as [H1 H1'];
      first [ by destruct (H1 (mk_is_Some _ _ eq_refl)) | by destruct (H1' (mk_is_Some _ _ eq_refl))
            | by destruct (H2 (mk_is_Some _ _ eq_refl)) ].
Qed.

Lemma merge_valid a b : valid_evidence a -> valid_evidence b -> valid_evidence (merge a b).
Proof. unfold valid_evidence, merge. simpl. by destruct (option_lt _ _). Qed.

Lemma option_lt_trans a b c : option_lt a b = true -> option_lt b c = true -> option_lt a c = true.
Proof.
  destruct a as [a|], b as [b|], c as [c|]; simpl; try done. intros.
  prop_bools. apply bool_decide_eq_true_2. lia.
Qed.
Lemma option_lt_false_trans a b c :
  option_lt a b = false -> option_lt b c = false -> option_lt a c = false.
Proof.
  destruct a as [a|], b as [b|], c as [c|]; simpl; try done. intros.
  prop_bools. apply bool_decide_eq_false_2. lia.
Qed.

Lemma newest_assoc a b c : newest a (newest b c) = newest (newest a b) c.
Proof. destruct a, b, c; simpl; try done. f_equal. lia. Qed.
Lemma newest_idem a : newest a a = a.
Proof. destruct a; simpl; [f_equal; lia|done]. Qed.

(** Snapshots may arrive in any grouping and any number of times. *)
Lemma merge_assoc a b c : merge a (merge b c) = merge (merge a b) c.
Proof.
  unfold merge. simpl. rewrite newest_assoc.
  destruct (option_lt (presence_order b) (presence_order c)) eqn:Ebc,
           (option_lt (presence_order a) (presence_order b)) eqn:Eab; simpl; rewrite ?Ebc, ?Eab; try done.
  - by rewrite (option_lt_trans _ _ _ Eab Ebc).
  - by destruct (option_lt (presence_order a) (presence_order c)).
  - by rewrite (option_lt_false_trans _ _ _ Eab Ebc).
Qed.
Lemma merge_idem a : merge a a = a.
Proof. unfold merge. rewrite newest_idem. by destruct a as [o p i d], (option_lt _ _). Qed.

(** ** A run of presence events

    The specification keeps the accepted events of a run, newest first. *)
Record PresenceEvent := { pe_order : Z; pe_presence : RideAppPresence; pe_at : Z }.
Definition presence_step (s : RideInactivityEvidence * list PresenceEvent) (e : PresenceEvent)
  : (RideInactivityEvidence * list PresenceEvent) * bool :=
  let '(self, b) := observe_app_presence s.1 (pe_order e) (pe_presence e) (pe_at e) in
  ((self, if b then e :: s.2 else s.2), b).

(** When the last unbroken run in the background began. *)
Fixpoint away_since (events : list PresenceEvent) : option Z :=
  match events with
  | [] => None
  | e :: earlier =>
      match pe_presence e with
      | Foreground => None
      | Background => Some (default (pe_at e) (away_since earlier))
      end
  end.

Definition presence_tracked (s : RideInactivityEvidence * list PresenceEvent) : Prop :=
  app_inactive_since s.1 = away_since s.2
  /\ presence_order s.1 = pe_order <$> head s.2
  /\ presence_observed_at s.1 = pe_at <$> head s.2.

#[local] Instance presence_tracked_invariant : Invariant presence_step presence_tracked.
Proof.
  intros [self events] e (H1 & H2 & H3). unfold presence_step, observe_app_presence. simpl in *.
  destruct (match presence_order self with Some _ => _ | None => _ end); [done|].
  destruct self. split; [|done]. simpl in *. subst. by destruct (pe_presence e).
Qed.

Lemma inactive_since_is_first_background events :
  presence_tracked (run_state presence_step (no_evidence, []) events).
Proof. by apply run_invariant; [apply _|]. Qed.

(** The exact window of each decision. *)
Lemma recovery_decision_exact kind now updated_at :
  ride_recovery_decision kind now updated_at =
    match kind with
    | InvoluntaryInterruption =>
        if bool_decide (updated_at <= now <= updated_at + INTERRUPTED_RIDE_RESUME_WINDOW)
        then DecideResume else Finalize
    | ExplicitPause =>
        if bool_decide (updated_at <= now <= updated_at + EXPLICIT_PAUSE_PERSISTENCE_WINDOW)
        then KeepPaused else Finalize
    end.
Proof.
  unfold ride_recovery_decision. destruct (checked_sub now updated_at) as [age|] eqn:E.
  - apply checked_sub_Some in E as [? ->].
    destruct kind; repeat case_bool_decide; done || lia.
  - apply checked_sub_None in E. destruct kind; by rewrite bool_decide_eq_false_2 by lia.
Qed.
