(* ===== verification/MusicRequests.v ===== *)
(** * Identities and deadlines of a music provider

    The small owners of [cutout-music/src] from which the lifecycle of a
    provider is put together: the identities of [ids.rs], the callback epochs
    and authorization transactions of [callback_epoch.rs], the bounded
    connection attempts of [connection.rs], the player-state and artwork
    requests of [player_request.rs] and the foreground intent of
    [monitor.rs].  Every owner is a machine over the calls of its public
    methods; the class [IdentitySource] states what those that hand out
    identities promise to the callbacks that carry them. *)

From S2P Require Import Prelude.
From S2P Require Import Quantities.

(** [LifecycleId<K>] is a [u64]; its marker only keeps the domains apart. *)
Definition LifecycleId : Type := Z.
Definition id_next (id : LifecycleId) : option LifecycleId := checked_add u64_max id 1.

(** ** Callback epochs ([callback_epoch.rs]) *)

Inductive CallbackEpochMatch := EpochCurrent | EpochStale.
Inductive CallbackEpochState := EpochIdle | EpochActive (id : LifecycleId).
Record CallbackEpoch := { ce_last_id : LifecycleId; ce_state : CallbackEpochState }.
#[global] Instance eta_epoch : Eta CallbackEpoch := fun r =>
  Build_CallbackEpoch (ce_last_id r) (ce_state r).
Definition default_epoch : CallbackEpoch := {| ce_last_id := 0; ce_state := EpochIdle |}.

#[global] Instance epoch_match_eq_dec : EqDecision CallbackEpochMatch.
Proof. solve_decision. Defined.

Definition epoch_begin (self : CallbackEpoch) : CallbackEpoch * option LifecycleId :=
  match id_next (ce_last_id self) with
  | None => (self, None)
  | Some id => (self <| ce_last_id := id |> <| ce_state := EpochActive id |>, Some id)
  end.

Definition epoch_classify (self : CallbackEpoch) (id : LifecycleId) : CallbackEpochMatch :=
  match ce_state self with
  | EpochActive active => if bool_decide (active = id) then EpochCurrent else EpochStale
  | EpochIdle => EpochStale
  end.

Definition epoch_finish (self : CallbackEpoch) (id : LifecycleId)
  : CallbackEpoch * CallbackEpochMatch :=
  let outcome := epoch_classify self id in
  (if bool_decide (outcome = EpochCurrent) then self <| ce_state := EpochIdle |> else self,
   outcome).

Definition epoch_invalidate (self : CallbackEpoch) : CallbackEpoch :=
  self <| ce_state := EpochIdle |>.

(** ** Authorization transactions *)

Inductive AuthorizationTransactionKind := KindAuthorizing | KindRenewing.
Inductive AuthorizationTransactionMatch := MatchAuthorizing | MatchRenewing | MatchStale.
Inductive AuthorizationTransactionState :=
| AuthIdle
| AuthAuthorizing (id : LifecycleId)
| AuthRenewing (id : LifecycleId).
Record AuthorizationTransaction := {
  at_last_id : LifecycleId;
  at_state : AuthorizationTransactionState;
}.
#[global] Instance eta_authorization : Eta AuthorizationTransaction := fun r =>
  Build_AuthorizationTransaction (at_last_id r) (at_state r).
Definition default_authorization : AuthorizationTransaction :=
  {| at_last_id := 0; at_state := AuthIdle |}.

#[global] Instance authorization_match_eq_dec : EqDecision AuthorizationTransactionMatch.
Proof. solve_decision. Defined.

Definition authorization_begin (self : AuthorizationTransaction)
    (kind : AuthorizationTransactionKind) : AuthorizationTransaction * option LifecycleId :=
  match id_next (at_last_id self) with
  | None => (self, None)
  | Some id =>
      (self <| at_last_id := id |>
            <| at_state := match kind with
                           | KindAuthorizing => AuthAuthorizing id
                           | KindRenewing => AuthRenewing id
                           end |>, Some id)
  end.

Definition authorization_classify (self : AuthorizationTransaction) (id : LifecycleId)
  : AuthorizationTransactionMatch :=
  match at_state self with
  | AuthAuthorizing active =>
      if bool_decide (active = id) then MatchAuthorizing else MatchStale
  | AuthRenewing active => if bool_decide (active = id) then MatchRenewing else MatchStale
  | AuthIdle => MatchStale
  end.

Definition authorization_finish (self : AuthorizationTransaction) (id : LifecycleId)
  : AuthorizationTransaction * AuthorizationTransactionMatch :=
  let outcome := authorization_classify self id in
  (if bool_decide (outcome = MatchStale) then self else self <| at_state := AuthIdle |>,
   outcome).

Definition authorization_invalidate (self : AuthorizationTransaction)
  : AuthorizationTransaction := self <| at_state := AuthIdle |>.

(** ** Connection attempts ([connection.rs]) *)

Definition MAXIMUM_ATTEMPTS : Z := 3.
Definition RETRY_DELAY : Z := 2000.
Definition ATTEMPT_TIMEOUT : Z := 10000.

Inductive MusicConnectionCallback := CallbackAccepted | CallbackStale.
Inductive ConnectionAttemptAdmission :=
| AttemptStarted (id : LifecycleId)
| AttemptPending
| AttemptWaitingToRetry
| AttemptExhausted.
Inductive MusicConnectionState :=
| ConnIdle
| ConnConnecting (attempt_id : LifecycleId) (started_at : Z)
| ConnConnected (connection_id : LifecycleId)
| ConnWaitingToRetry (not_before : Z).
Record MusicConnection := {
  attempts : Z;
  last_attempt_id : LifecycleId;
  conn_state : MusicConnectionState;
}.
#[global] Instance eta_connection : Eta MusicConnection := fun r =>
  Build_MusicConnection (attempts r) (last_attempt_id r) (conn_state r).
Definition default_connection : MusicConnection :=
  {| attempts := 0; last_attempt_id := 0; conn_state := ConnIdle |}.

#[global] Instance connection_callback_eq_dec : EqDecision MusicConnectionCallback.
Proof. solve_decision. Defined.

Definition callback_id (self : MusicConnection) : option LifecycleId :=
  match conn_state self with
  | ConnConnecting attempt_id _ => Some attempt_id
  | ConnConnected connection_id => Some connection_id
  | ConnIdle | ConnWaitingToRetry _ => None
  end.

Definition is_established (self : MusicConnection) (connection_id : LifecycleId) : bool :=
  match conn_state self with
  | ConnConnected current => bool_decide (current = connection_id)
  | _ => false
  end.

Definition connection_classify (self : MusicConnection) (attempt_id : LifecycleId)
  : MusicConnectionCallback :=
  if bool_decide (callback_id self = Some attempt_id) then CallbackAccepted else CallbackStale.

Definition classify_at (self : MusicConnection) (attempt_id : LifecycleId) (now : Z)
  : MusicConnectionCallback :=
  match conn_state self with
  | ConnConnected current =>
      if bool_decide (current = attempt_id) then CallbackAccepted else CallbackStale
  | ConnConnecting current started_at =>
      if bool_decide (current = attempt_id)
         && bool_decide (timestamp_saturating_duration_since now started_at < ATTEMPT_TIMEOUT)
      then CallbackAccepted else CallbackStale
  | ConnIdle | ConnWaitingToRetry _ => CallbackStale
  end.

Definition connection_reset (self : MusicConnection) : MusicConnection :=
  self <| attempts := 0 |> <| conn_state := ConnIdle |>.

Definition begin_attempt (self : MusicConnection) (now : Z)
  : MusicConnection * ConnectionAttemptAdmission :=
  if bool_decide (MAXIMUM_ATTEMPTS <= attempts self) then (self, AttemptExhausted) else
  match (match conn_state self with
         | ConnConnecting _ started_at =>
             if bool_decide (timestamp_saturating_duration_since now started_at
                             < ATTEMPT_TIMEOUT)
             then Some AttemptPending else None
         | ConnWaitingToRetry not_before =>
             if bool_decide (now < not_before) then Some AttemptWaitingToRetry else None
         | ConnIdle | ConnConnected _ => None
         end) with
  | Some refused => (self, refused)
  | None =>
      match id_next (last_attempt_id self) with
      | None => (self, AttemptExhausted)
      | Some attempt_id =>
          (self <| attempts := attempts self + 1 |>
                <| last_attempt_id := attempt_id |>
                <| conn_state := ConnConnecting attempt_id now |>, AttemptStarted attempt_id)
      end
  end.

Definition recovery_exhausted_at (self : MusicConnection) (now : Z) : bool :=
  if bool_decide (attempts self < MAXIMUM_ATTEMPTS) then false else
  match conn_state self with
  | ConnConnecting _ started_at =>
      bool_decide (ATTEMPT_TIMEOUT <= timestamp_saturating_duration_since now started_at)
  | ConnWaitingToRetry _ | ConnIdle => true
  | ConnConnected _ => false
  end.

Definition schedule_retry (self : MusicConnection) (now : Z) : MusicConnection :=
  let requested := timestamp_saturating_add_duration now RETRY_DELAY in
  let not_before :=
    match conn_state self with
    | ConnWaitingToRetry not_before => Z.max not_before requested
    | ConnIdle | ConnConnecting _ _ | ConnConnected _ => requested
    end in
  self <| conn_state := ConnWaitingToRetry not_before |>.

Definition failed_for (self : MusicConnection) (attempt_id : LifecycleId) (now : Z)
  : MusicConnection * MusicConnectionCallback :=
  if bool_decide (classify_at self attempt_id now = CallbackStale) then (self, CallbackStale)
  else (schedule_retry self now, CallbackAccepted).

Definition disconnected_for (self : MusicConnection) (attempt_id : LifecycleId) (now : Z)
  : MusicConnection * MusicConnectionCallback := failed_for self attempt_id now.

Definition established_for_at (self : MusicConnection) (attempt_id : LifecycleId) (now : Z)
  : MusicConnection * option LifecycleId :=
  if negb (match conn_state self with
           | ConnConnecting current _ => bool_decide (current = attempt_id)
           | _ => false
           end)
     || bool_decide (classify_at self attempt_id now = CallbackStale)
  then (self, None)
  else (self <| attempts := 0 |> <| conn_state := ConnConnected attempt_id |>,
        Some attempt_id).

Definition expired_for (self : MusicConnection) (attempt_id : LifecycleId) (now : Z)
  : MusicConnection * MusicConnectionCallback :=
  match conn_state self with
  | ConnConnecting current started_at =>
      if negb (bool_decide (current = attempt_id))
         || bool_decide (timestamp_saturating_duration_since now started_at < ATTEMPT_TIMEOUT)
      then (self, CallbackStale)
      else (schedule_retry self now, CallbackAccepted)
  | _ => (self, CallbackStale)
  end.

(** ** Player-state requests ([player_request.rs]) *)

Definition REQUEST_TIMEOUT : Z := 10000.
Definition OBSERVATION_TIMEOUT : Z := 30000.
Definition MAX_ARTWORK_ATTEMPTS : Z := 3.

Inductive MusicPlayerRequestCompletion := RequestAccepted | RequestStale.
Inductive MusicPlayerRequestExpiration := ExpirationPending | ExpirationExpired | ExpirationStale.

#[global] Instance request_completion_eq_dec : EqDecision MusicPlayerRequestCompletion.
Proof. solve_decision. Defined.

Record PendingPlayerStateRequest := { ppr_id : LifecycleId; ppr_started_at : Z }.
Inductive PlayerStateRequestState :=
| PlayerAvailable
| PlayerPending (pending : PendingPlayerStateRequest).

Definition player_pending (self : PlayerStateRequestState) : option PendingPlayerStateRequest :=
  match self with PlayerPending pending => Some pending | PlayerAvailable => None end.

(** [pending().filter(|pending| pending.id == id)]. *)
Definition player_pending_for (self : PlayerStateRequestState) (id : LifecycleId)
  : option PendingPlayerStateRequest :=
  match player_pending self with
  | Some pending => if bool_decide (ppr_id pending = id) then Some pending else None
  | None => None
  end.

Definition player_retire (self : PlayerStateRequestState) (id : LifecycleId)
  : PlayerStateRequestState * option PendingPlayerStateRequest :=
  match player_pending_for self id with
  | Some pending => (PlayerAvailable, Some pending)
  | None => (self, None)
  end.

(** [ObservationRevision] is a [u64] that only grows. *)
Inductive ObservationRevisionState := RevisionCurrent (r : Z) | RevisionExhausted.
#[global] Instance revision_eq_dec : EqDecision ObservationRevisionState.
Proof. solve_decision. Defined.

Definition revision (self : ObservationRevisionState) : Z :=
  match self with RevisionCurrent r => r | RevisionExhausted => u64_max end.

Definition revision_advance (self : ObservationRevisionState) : ObservationRevisionState :=
  match self with
  | RevisionCurrent current =>
      match checked_add u64_max current 1 with
      | Some next => RevisionCurrent next
      | None => RevisionExhausted
      end
  | RevisionExhausted => RevisionExhausted
  end.

Record MusicPlayerRequest := {
  pr_last_id : LifecycleId;
  pr_state : PlayerStateRequestState;
  last_observed_at : option Z;
  pr_revision : ObservationRevisionState;
}.
#[global] Instance eta_player : Eta MusicPlayerRequest := fun r =>
  Build_MusicPlayerRequest (pr_last_id r) (pr_state r) (last_observed_at r) (pr_revision r).
Definition default_player_request : MusicPlayerRequest :=
  {| pr_last_id := 0; pr_state := PlayerAvailable; last_observed_at := None;
     pr_revision := RevisionCurrent 0 |}.

Definition player_begin (self : MusicPlayerRequest) (now : Z)
  : MusicPlayerRequest * option LifecycleId :=
  if match player_pending (pr_state self) with
     | Some pending => bool_decide (timestamp_saturating_duration_since now
                                      (ppr_started_at pending) < REQUEST_TIMEOUT)
     | None => false
     end
  then (self, None) else
  match id_next (pr_last_id self) with
  | None => (self, None)
  | Some id =>
      (self <| pr_last_id := id |>
            <| pr_state := PlayerPending {| ppr_id := id; ppr_started_at := now |} |>, Some id)
  end.

Definition player_complete (self : MusicPlayerRequest) (request_id : LifecycleId) (now : Z)
  : MusicPlayerRequest * MusicPlayerRequestCompletion :=
  match player_retire (pr_state self) request_id with
  | (_, None) => (self, RequestStale)
  | (state, Some pending) =>
      (self <| pr_state := state |>,
       if bool_decide (timestamp_saturating_duration_since now (ppr_started_at pending)
                       < REQUEST_TIMEOUT)
       then RequestAccepted else RequestStale)
  end.

Definition player_expire (self : MusicPlayerRequest) (request_id : LifecycleId) (now : Z)
  : MusicPlayerRequest * MusicPlayerRequestExpiration :=
  match player_pending_for (pr_state self) request_id with
  | None => (self, ExpirationStale)
  | Some pending =>
      if bool_decide (timestamp_saturating_duration_since now (ppr_started_at pending)
                      < REQUEST_TIMEOUT)
      then (self, ExpirationPending)
      else (self <| pr_state := (player_retire (pr_state self) request_id).1 |>,
            ExpirationExpired)
  end.

Definition complete_if_current (self : MusicPlayerRequest) (request_id : LifecycleId)
    (observation_revision now : Z) : MusicPlayerRequest * MusicPlayerRequestCompletion :=
  if bool_decide (pr_revision self = RevisionCurrent observation_revision)
  then player_complete self request_id now
  else (self <| pr_state := (player_retire (pr_state self) request_id).1 |>, RequestStale).

Definition mark_observed (self : MusicPlayerRequest) (now : Z) : MusicPlayerRequest :=
  self <| pr_revision := revision_advance (pr_revision self) |>
       <| last_observed_at := Some now |>.

Definition observation_revision (self : MusicPlayerRequest) : Z := revision (pr_revision self).

Definition player_is_stale (self : MusicPlayerRequest) (now : Z) : bool :=
  match last_observed_at self with
  | Some observed_at =>
      bool_decide (OBSERVATION_TIMEOUT < timestamp_saturating_duration_since now observed_at)
  | None => false
  end.

Definition player_reset (self : MusicPlayerRequest) : MusicPlayerRequest :=
  self <| pr_state := PlayerAvailable |> <| last_observed_at := None |>.

(** ** Artwork requests *)

Inductive ArtworkRequestState := ArtworkAvailable | ArtworkPending (id : LifecycleId).
Record MusicArtworkRequest := {
  aw_last_id : LifecycleId;
  aw_attempts : Z;
  aw_state : ArtworkRequestState;
}.
#[global] Instance eta_artwork : Eta MusicArtworkRequest := fun r =>
  Build_MusicArtworkRequest (aw_last_id r) (aw_attempts r) (aw_state r).
Definition default_artwork_request : MusicArtworkRequest :=
  {| aw_last_id := 0; aw_attempts := 0; aw_state := ArtworkAvailable |}.

Definition artwork_can_retry (self : MusicArtworkRequest) : bool :=
  match aw_state self with
  | ArtworkAvailable => bool_decide (aw_attempts self < MAX_ARTWORK_ATTEMPTS)
  | ArtworkPending _ => false
  end.

Definition artwork_begin (self : MusicArtworkRequest) : MusicArtworkRequest * option LifecycleId :=
  if negb (artwork_can_retry self) then (self, None) else
  match id_next (aw_last_id self) with
  | None => (self, None)
  | Some id =>
      (self <| aw_last_id := id |> <| aw_attempts := aw_attempts self + 1 |>
            <| aw_state := ArtworkPending id |>, Some id)
  end.

Definition artwork_complete (self : MusicArtworkRequest) (request_id : LifecycleId)
  : MusicArtworkRequest * MusicPlayerRequestCompletion :=
  match aw_state self with
  | ArtworkPending id =>
      if bool_decide (id = request_id)
      then (self <| aw_state := ArtworkAvailable |>, RequestAccepted)
      else (self, RequestStale)
  | ArtworkAvailable => (self, RequestStale)
  end.

Definition artwork_reset (self : MusicArtworkRequest) : MusicArtworkRequest :=
  self <| aw_attempts := 0 |> <| aw_state := ArtworkAvailable |>.

(** ** Foreground intent ([monitor.rs]) *)

Inductive MusicMonitorStart := StartObserve | StartAuthorize.
Inductive MusicMonitorRequest := RequestObserve | RequestAuthorize.
Inductive MonitorScene := SceneActive | SceneSuspended.
Inductive MonitorIntent := IntentIdle | IntentObserve | IntentAuthorize.
Inductive MusicMonitorResume := ResumeAlreadyActive | ResumeNoRequest | ResumeRestored.
#[global] Instance scene_eq_dec : EqDecision MonitorScene.
Proof. solve_decision. Defined.
#[global] Instance intent_eq_dec : EqDecision MonitorIntent.
Proof. solve_decision. Defined.

Record MusicMonitor := { mon_scene : MonitorScene; mon_intent : MonitorIntent }.
#[global] Instance eta_monitor : Eta MusicMonitor := fun r =>
  Build_MusicMonitor (mon_scene r) (mon_intent r).
Definition default_monitor : MusicMonitor :=
  {| mon_scene := SceneActive; mon_intent := IntentIdle |}.

Definition monitor_request (self : MusicMonitor) (request : MusicMonitorRequest) : MusicMonitor :=
  self <| mon_intent :=
    match request with
    | RequestObserve =>
        match mon_intent self with
        | IntentAuthorize => IntentAuthorize
        | IntentIdle | IntentObserve => IntentObserve
        end
    | RequestAuthorize => IntentAuthorize
    end |>.

Definition monitor_cancel (self : MusicMonitor) : MusicMonitor :=
  self <| mon_intent := IntentIdle |>.

Definition monitor_suspend (self : MusicMonitor) : MusicMonitor :=
  let self := self <| mon_scene := SceneSuspended |> in
  if bool_decide (mon_intent self = IntentAuthorize)
  then self <| mon_intent := IntentObserve |> else self.

Definition monitor_resume (self : MusicMonitor) : MusicMonitor * MusicMonitorResume :=
  (self <| mon_scene := SceneActive |>,
   match mon_scene self with
   | SceneActive => ResumeAlreadyActive
   | SceneSuspended =>
       match mon_intent self with
       | IntentIdle => ResumeNoRequest
       | IntentObserve | IntentAuthorize => ResumeRestored
       end
   end).

Definition is_scene_active (self : MusicMonitor) : bool :=
  match mon_scene self with SceneActive => true | SceneSuspended => false end.

Definition pending_start (self : MusicMonitor) : option MusicMonitorStart :=
  if negb (bool_decide (mon_scene self = SceneActive))
     || bool_decide (mon_intent self = IntentIdle)
  then None
  else Some (match mon_intent self with
             | IntentIdle | IntentObserve => StartObserve
             | IntentAuthorize => StartAuthorize
             end).

Definition take_start (self : MusicMonitor) : MusicMonitor * option MusicMonitorStart :=
  match pending_start self with
  | None => (self, None)
  | Some start => (self <| mon_intent := IntentObserve |>, Some start)
  end.

(** [music_callback_path_matches]: only the empty and the slash root agree
    without being equal. *)
Definition music_callback_path_matches (expected actual : string) : bool :=
  let root p := bool_decide (p = ""%string) || bool_decide (p = "/"%string) in
  if root expected && root actual then true else bool_decide (expected = actual).

(** ** The owners as machines *)

Inductive EpochCall := EpochBegin | EpochFinish (id : LifecycleId) | EpochInvalidate.
Inductive EpochReply :=
| EpochBegan (id : option LifecycleId)
| EpochFinished (m : CallbackEpochMatch)
| EpochDone.
Definition epoch_step (self : CallbackEpoch) (call : EpochCall) : CallbackEpoch * EpochReply :=
  match call with
  | EpochBegin => EpochBegan <$$> epoch_begin self
  | EpochFinish id => EpochFinished <$$> epoch_finish self id
  | EpochInvalidate => (epoch_invalidate self, EpochDone)
  end.

Inductive AuthorizationCall :=
| AuthorizationBegin (kind : AuthorizationTransactionKind)
| AuthorizationFinish (id : LifecycleId)
| AuthorizationInvalidate.
Inductive AuthorizationReply :=
| AuthorizationBegan (id : option LifecycleId)
| AuthorizationFinished (m : AuthorizationTransactionMatch)
| AuthorizationDone.
Definition authorization_step (self : AuthorizationTransaction) (call : AuthorizationCall)
  : AuthorizationTransaction * AuthorizationReply :=
  match call with
  | AuthorizationBegin kind => AuthorizationBegan <$$> authorization_begin self kind
  | AuthorizationFinish id => AuthorizationFinished <$$> authorization_finish self id
  | AuthorizationInvalidate => (authorization_invalidate self, AuthorizationDone)
  end.

Inductive ConnectionCall :=
| BeginAttempt (now : Z)
| FailedFor (id : LifecycleId) (now : Z)
| DisconnectedFor (id : LifecycleId) (now : Z)
| EstablishedForAt (id : LifecycleId) (now : Z)
| ExpiredFor (id : LifecycleId) (now : Z)
| ConnectionReset.
Inductive ConnectionReply :=
| Admission (a : ConnectionAttemptAdmission)
| ConnectionCallbackReply (c : MusicConnectionCallback)
| Established (id : option LifecycleId)
| ConnectionDone.
Definition connection_step (self : MusicConnection) (call : ConnectionCall)
  : MusicConnection * ConnectionReply :=
  match call with
  | BeginAttempt now => Admission <$$> begin_attempt self now
  | FailedFor id now => ConnectionCallbackReply <$$> failed_for self id now
  | DisconnectedFor id now => ConnectionCallbackReply <$$> disconnected_for self id now
  | EstablishedForAt id now => Established <$$> established_for_at self id now
  | ExpiredFor id now => ConnectionCallbackReply <$$> expired_for self id now
  | ConnectionReset => (connection_reset self, ConnectionDone)
  end.

Inductive PlayerCall :=
| PlayerBegin (now : Z)
| PlayerComplete (id : LifecycleId) (now : Z)
| PlayerExpire (id : LifecycleId) (now : Z)
| PlayerCompleteIfCurrent (id : LifecycleId) (r now : Z)
| PlayerMarkObserved (now : Z)
| PlayerReset.
Inductive PlayerReply :=
| PlayerBegan (id : option LifecycleId)
| PlayerCompleted (c : MusicPlayerRequestCompletion)
| PlayerExpired (e : MusicPlayerRequestExpiration)
| PlayerDone.
Definition player_step (self : MusicPlayerRequest) (call : PlayerCall)
  : MusicPlayerRequest * PlayerReply :=
  match call with
  | PlayerBegin now => PlayerBegan <$$> player_begin self now
  | PlayerComplete id now => PlayerCompleted <$$> player_complete self id now
  | PlayerExpire id now => PlayerExpired <$$> player_expire self id now
  | PlayerCompleteIfCurrent id r now => PlayerCompleted <$$> complete_if_current self id r now
  | PlayerMarkObserved now => (mark_observed self now, PlayerDone)
  | PlayerReset => (player_reset self, PlayerDone)
  end.

Inductive ArtworkCall := ArtworkBegin | ArtworkComplete (id : LifecycleId) | ArtworkReset.
Inductive ArtworkReply :=
| ArtworkBegan (id : option LifecycleId)
| ArtworkCompleted (c : MusicPlayerRequestCompletion)
| ArtworkDone.
Definition artwork_step (self : MusicArtworkRequest) (call : ArtworkCall)
  : MusicArtworkRequest * ArtworkReply :=
  match call with
  | ArtworkBegin => ArtworkBegan <$$> artwork_begin self
  | ArtworkComplete id => ArtworkCompleted <$$> artwork_complete self id
  | ArtworkReset => (artwork_reset self, ArtworkDone)
  end.

Inductive MonitorCall :=
| MonitorRequested (r : MusicMonitorRequest)
| MonitorCancelled
| MonitorSuspended
| MonitorResumed
| MonitorStartTaken.
Inductive MonitorReply :=
| MonitorResumeReply (r : MusicMonitorResume)
| MonitorStartReply (s : option MusicMonitorStart)
| MonitorDone.
Definition monitor_step (self : MusicMonitor) (call : MonitorCall) : MusicMonitor * MonitorReply :=
  match call with
  | MonitorRequested r => (monitor_request self r, MonitorDone)
  | MonitorCancelled => (monitor_cancel self, MonitorDone)
  | MonitorSuspended => (monitor_suspend self, MonitorDone)
  | MonitorResumed => MonitorResumeReply <$$> monitor_resume self
  | MonitorStartTaken => MonitorStartReply <$$> take_start self
  end.

(** ** What a source of identities promises

    A step hands out the next identity, which becomes the only one a callback
    is accepted for, or it hands out none and at most retires the current one. *)
Class IdentitySource {S I O : Type} (step : S -> I -> S * O) := {
  last_issued : S -> LifecycleId;
  live : S -> option LifecycleId;
  (** Some classification of the owner accepts a callback with this identity. *)
  accepts : S -> LifecycleId -> Prop;
  accepts_live s id : accepts s id -> live s = Some id;
  source_step s i :
    (last_issued (step s i).1 = last_issued s /\
     (live (step s i).1 = live s \/ live (step s i).1 = None)) \/
    (last_issued (step s i).1 = last_issued s + 1 /\
     live (step s i).1 = Some (last_issued s + 1));
}.

(** Run through a step of an owner that hands out identities. *)
Ltac source_cases :=
  unfold id_next, checked_add in *;
  repeat (case_match_goal; simplify_eq; simpl in *);
  prop_bools; simplify_eq; simpl; auto.

Definition epoch_live (s : CallbackEpoch) : option LifecycleId :=
  match ce_state s with EpochActive a => Some a | EpochIdle => None end.
Definition authorization_live (s : AuthorizationTransaction) : option LifecycleId :=
  match at_state s with AuthAuthorizing a | AuthRenewing a => Some a | AuthIdle => None end.
Definition player_live (s : MusicPlayerRequest) : option LifecycleId :=
  ppr_id <$> player_pending (pr_state s).
Definition artwork_live (s : MusicArtworkRequest) : option LifecycleId :=
  match aw_state s with ArtworkPending a => Some a | ArtworkAvailable => None end.

#[local] Obligation Tactic := idtac.

#[export] Program Instance epoch_source : IdentitySource epoch_step := {|
  last_issued := ce_last_id;
  live := epoch_live;
  accepts s id := epoch_classify s id = EpochCurrent;
|}.
Next Obligation.
  intros [last [|a]] id; unfold epoch_classify, epoch_live; simpl; [done|].
  case_bool_decide; congruence.
Qed.
Next Obligation.
  intros [last st] []; unfold epoch_step, relabel, epoch_begin, epoch_finish, epoch_invalidate,
    epoch_live; simpl; source_cases.
Qed.

#[export] Program Instance authorization_source : IdentitySource authorization_step := {|
  last_issued := at_last_id;
  live := authorization_live;
  accepts s id := authorization_classify s id <> MatchStale;
|}.
Next Obligation.
  intros [last [|a|a]] id; unfold authorization_classify, authorization_live; simpl;
    [done| |]; case_bool_decide; congruence.
Qed.
Next Obligation.
  intros [last st] []; unfold authorization_step, relabel, authorization_begin,
    authorization_finish, authorization_invalidate, authorization_live; simpl; source_cases.
Qed.

#[export] Program Instance connection_source : IdentitySource connection_step := {|
  last_issued := last_attempt_id;
  live := callback_id;
  accepts s id := connection_classify s id = CallbackAccepted
                  \/ (exists now, classify_at s id now = CallbackAccepted)
                  \/ is_established s id = true;
|}.
Next Obligation.
  intros s id. unfold connection_classify, classify_at, is_established, callback_id.
  intros [H|[[now H]|H]].
  - case_bool_decide; [done|discriminate].
  - step_cases_in H; done.
  - step_cases_in H; done.
Qed.
Next Obligation.
  intros [n last st] []; unfold connection_step, disconnected_for, relabel, begin_attempt,
    failed_for, established_for_at, expired_for, connection_reset, schedule_retry, callback_id;
    simpl; source_cases.
Qed.

#[export] Program Instance player_source : IdentitySource player_step := {|
  last_issued := pr_last_id;
  live := player_live;
  accepts s id := exists now, (player_complete s id now).2 = RequestAccepted;
|}.
Next Obligation.
  intros [last [|p] obs rev] id [now H]; revert H;
    unfold player_complete, player_retire, player_pending_for, player_live; simpl; [done|].
  case_bool_decide; simpl; congruence.
Qed.
Next Obligation.
  intros [last st obs rev] []; unfold player_step, relabel, player_begin, complete_if_current,
    player_complete, player_expire, mark_observed, player_reset, player_retire,
    player_pending_for, player_live, player_pending; simpl; source_cases.
Qed.

#[export] Program Instance artwork_source : IdentitySource artwork_step := {|
  last_issued := aw_last_id;
  live := artwork_live;
  accepts s id := (artwork_complete s id).2 = RequestAccepted;
|}.
Next Obligation.
  intros [last n [|a]] id; unfold artwork_complete, artwork_live; simpl; [done|].
  case_bool_decide; simpl; congruence.
Qed.
Next Obligation.
  intros [last n st] []; unfold artwork_step, relabel, artwork_begin, artwork_complete,
    artwork_reset, artwork_can_retry, artwork_live; simpl; source_cases.
Qed.

Section Source.
Context {S I O : Type} {step : S -> I -> S * O} `{!IdentitySource step}.

Lemma last_issued_mono s calls : last_issued s <= last_issued (run_state step s calls).
Proof.
  revert s. induction calls as [|c calls IH]; intros s; [done|].
  rewrite run_state_cons. specialize (IH (step s c).1).
  destruct (source_step s c) as [[? _]|[? _]]; lia.
Qed.

#[local] Instance retired_invariant id :
  Invariant step (fun s => id <= last_issued s /\ live s <> Some id).
Proof.
  intros s c [Hle Hlive].
  destruct (source_step s c) as [[-> [Hl|Hl]]|[-> Hl]]; rewrite Hl; split; try done; try lia.
  intros [= <-]. lia.
Qed.

Lemma retired_not_accepted s calls id :
  id <= last_issued s -> live s <> Some id -> ~ accepts (run_state step s calls) id.
Proof.
  intros Hle Hlive H%accepts_live.
  destruct (run_invariant step (fun s => id <= last_issued s /\ live s <> Some id) s calls)
    as [_ Hn]; [done|]. by apply Hn.
Qed.
End Source.

Lemma not_accepted_stale (c : MusicConnectionCallback) : c <> CallbackAccepted -> c = CallbackStale.
Proof. by destruct c. Qed.

(** A callback of a retired identity is refused for ever.  Whatever calls
    follow, an identity that some owner has issued and that is no longer its
    current one is stale to every classification: of a callback epoch, of an
    authorization, of a connection attempt or session at any time, of a
    player-state request (also when its answer comes in time) and of an
    artwork request.  No owner issues an identity twice. *)
Theorem retired_identity_stays_refused :
  (forall s calls id, id <= ce_last_id s -> epoch_live s <> Some id ->
     epoch_classify (run_state epoch_step s calls) id = EpochStale) /\
  (forall s calls id, id <= at_last_id s -> authorization_live s <> Some id ->
     authorization_classify (run_state authorization_step s calls) id = MatchStale) /\
  (forall s calls id, id <= last_attempt_id s -> callback_id s <> Some id ->
     let s' := run_state connection_step s calls in
     (forall now, classify_at s' id now = CallbackStale) /\ is_established s' id = false) /\
  (forall s calls id now, id <= pr_last_id s -> player_live s <> Some id ->
     (player_complete (run_state player_step s calls) id now).2 = RequestStale) /\
  (forall s calls id, id <= aw_last_id s -> artwork_live s <> Some id ->
     (artwork_complete (run_state artwork_step s calls) id).2 = RequestStale).
Proof.
  split_ands; intros s calls id.
  - intros Hle Hl. pose proof (retired_not_accepted s calls id Hle Hl) as H. simpl in H.
    by destruct (epoch_classify _ id).
  - intros Hle Hl. pose proof (retired_not_accepted s calls id Hle Hl) as H. simpl in H.
    by destruct (decide (authorization_classify (run_state authorization_step s calls) id
                         = MatchStale)).
  - intros Hle Hl. pose proof (retired_not_accepted s calls id Hle Hl) as H. simpl in H.
    cbv zeta. split.
    + intros now. apply not_accepted_stale. intros E. apply H. eauto.
    + apply not_true_iff_false. intros E. apply H. eauto.
  - intros now Hle Hl. pose proof (retired_not_accepted s calls id Hle Hl) as H. simpl in H.
    destruct (player_complete _ id now).2 eqn:E; [|done]. exfalso. eauto.
  - intros Hle Hl. pose proof (retired_not_accepted s calls id Hle Hl) as H. simpl in H.
    by destruct (artwork_complete _ id).2.
Qed.

(** ** Connection attempts *)

(** A call that gives the session its attempts back: success or a reset. *)
Definition restores_budget (r : ConnectionReply) (c : ConnectionCall) : bool :=
  match c, r with
  | ConnectionReset, _ => true
  | _, Established (Some _) => true
  | _, _ => false
  end.
Definition starts (r : ConnectionReply) : bool :=
  match r with Admission (AttemptStarted _) => true | _ => false end.

(** The calls of a run that keep spending the same budget. *)
Fixpoint same_budget (s : MusicConnection) (calls : list ConnectionCall) : Prop :=
  match calls with
  | [] => True
  | c :: rest =>
      restores_budget (connection_step s c).2 c = false /\
      same_budget (connection_step s c).1 rest
  end.

Lemma connection_step_attempts s c :
  restores_budget (connection_step s c).2 c = false ->
  attempts (connection_step s c).1 =
    attempts s + (if starts (connection_step s c).2 then 1 else 0) /\
  (starts (connection_step s c).2 = true -> attempts s < MAXIMUM_ATTEMPTS).
Proof.
  destruct s as [n last st], c; unfold connection_step, disconnected_for, relabel, begin_attempt,
    failed_for, established_for_at, expired_for, schedule_retry, restores_budget, starts;
    simpl; repeat (case_match_goal; simplify_eq; simpl in *); prop_bools; intros;
    split; intros; simplify_eq; lia || done.
Qed.

Lemma starts_bounded s calls :
  same_budget s calls ->
  Z.of_nat (length (filter starts (run_outputs connection_step s calls)))
    <= Z.max 0 (MAXIMUM_ATTEMPTS - attempts s).
Proof.
  revert s. induction calls as [|c calls IH]; intros s Hb; [simpl; lia|].
  destruct Hb as [H0 Hrest]. rewrite run_outputs_cons, filter_cons.
  destruct (connection_step_attempts s c H0) as [Ha Hs]. specialize (IH _ Hrest). rewrite Ha in IH.
  case_decide as Hd; [|destruct (starts _) eqn:E in IH; [by rewrite E in Hd|lia]].
  apply Is_true_true in Hd. rewrite Hd in IH. specialize (Hs Hd). simpl length. lia.
Qed.

(** While recovery waits, nothing but a start or a reset changes the state. *)
Lemma retry_waiting_step n last nb c :
  let s := {| attempts := n; last_attempt_id := last; conn_state := ConnWaitingToRetry nb |} in
  c <> ConnectionReset -> starts (connection_step s c).2 = false -> (connection_step s c).1 = s.
Proof.
  destruct c; unfold connection_step, disconnected_for, relabel, begin_attempt, failed_for,
    established_for_at, expired_for, starts; simpl; try done; intros _.
  repeat (case_match_goal; simplify_eq; simpl in *); done.
Qed.

Lemma waiting_run n last nb calls :
  let s := {| attempts := n; last_attempt_id := last; conn_state := ConnWaitingToRetry nb |} in
  ConnectionReset ∉ calls ->
  Forall (fun r => starts r = false) (run_outputs connection_step s calls) ->
  run_state connection_step s calls = s.
Proof.
  cbv zeta. induction calls as [|c calls IH]; [done|]. intros Hr Ho.
  apply not_elem_of_cons in Hr as [Hc Hr]. rewrite run_outputs_cons in Ho.
  apply Forall_cons in Ho as [H0 Ho]. rewrite run_state_cons.
  assert (Hs := retry_waiting_step n last nb c (not_eq_sym Hc) H0).
  rewrite Hs in Ho |- *. by apply IH.
Qed.

Lemma failed_for_accepted s id t :
  (failed_for s id t).2 = CallbackAccepted ->
  (failed_for s id t).1 =
    {| attempts := attempts s; last_attempt_id := last_attempt_id s;
       conn_state := ConnWaitingToRetry (timestamp_saturating_add_duration t RETRY_DELAY) |}.
Proof.
  unfold failed_for. case_bool_decide as H; [done|]. intros _. simpl. unfold schedule_retry.
  unfold classify_at in H. destruct s as [n last []]; simpl in *; done.
Qed.

(** C28: Recovery is bounded and on time.  Between two successes or resets a
    session starts at most the attempts it has left, three from a fresh
    start.  After a failure at [t] a new attempt is refused before two seconds
    have passed and admitted, with the next identity, from that moment on,
    whatever stale callbacks arrive meanwhile; with no attempt left it is
    refused for good. *)
Theorem recovery_bounded_and_on_time :
  (forall s calls, same_budget s calls ->
     Z.of_nat (length (filter starts (run_outputs connection_step s calls)))
       <= Z.max 0 (MAXIMUM_ATTEMPTS - attempts s)) /\
  (forall s id t calls now,
     (failed_for s id t).2 = CallbackAccepted ->
     last_attempt_id s < u64_max ->
     ConnectionReset ∉ calls ->
     let s1 := (failed_for s id t).1 in
     Forall (fun r => starts r = false) (run_outputs connection_step s1 calls) ->
     (begin_attempt (run_state connection_step s1 calls) now).2 =
       if bool_decide (MAXIMUM_ATTEMPTS <= attempts s) then AttemptExhausted
       else if bool_decide (now < timestamp_saturating_add_duration t RETRY_DELAY)
       then AttemptWaitingToRetry
       else AttemptStarted (last_attempt_id s + 1)).
Proof.
  split; [exact starts_bounded|].
  intros s id t calls now Hf Hmax Hr s1 Ho. subst s1.
  rewrite failed_for_accepted in Ho |- * by done. rewrite waiting_run by done.
  unfold begin_attempt; simpl. case_bool_decide; [done|]. case_bool_decide; [done|].
  unfold id_next, checked_add. rewrite bool_decide_eq_true_2 by lia. done.
Qed.

(** ** Polls of the player state *)

Definition revision_rank (r : ObservationRevisionState) : Z :=
  match r with RevisionCurrent r => r | RevisionExhausted => u64_max + 1 end.
Definition revision_ok (r : ObservationRevisionState) : Prop :=
  match r with RevisionCurrent r => in_u u64_max r | RevisionExhausted => True end.

Lemma player_complete_revision s id now :
  pr_revision (player_complete s id now).1 = pr_revision s.
Proof.
  unfold player_complete, player_retire. destruct (player_pending_for _ id); [|done].
  by destruct s.
Qed.

Lemma player_step_revision s c :
  pr_revision (player_step s c).1 =
    match c with PlayerMarkObserved _ => revision_advance (pr_revision s) | _ => pr_revision s end.
Proof.
  destruct c; unfold player_step, relabel; simpl.
  - unfold player_begin. destruct s as [l st o r]; simpl. step_cases; done.
  - apply player_complete_revision.
  - unfold player_expire. destruct s; simpl. step_cases; done.
  - unfold complete_if_current. case_bool_decide; [apply player_complete_revision|by destruct s].
  - by destruct s.
  - by destruct s.
Qed.

Lemma revision_advance_rank r :
  revision_ok r -> revision_ok (revision_advance r) /\
  revision_rank r <= revision_rank (revision_advance r) /\
  (r <> RevisionExhausted -> revision_rank r < revision_rank (revision_advance r)).
Proof.
  destruct r as [r|]; simpl; [|split_ands; try done; lia].
  unfold checked_add. intros ?. case_bool_decide; simpl; unfold in_u in *; split_ands; try done; lia.
Qed.

#[export] Instance revision_invariant k :
  Invariant player_step (fun s => revision_ok (pr_revision s) /\ k <= revision_rank (pr_revision s)).
Proof.
  intros s c [Hok Hk]. rewrite player_step_revision.
  destruct c; try done. destruct (revision_advance_rank _ Hok) as (? & ? & _). split; [done|lia].
Qed.

(** A poll never overwrites a newer observation.  If the answer of a poll
    comes back with the revision that was read when it was sent, and the
    provider has reported an observation of its own in between, the answer is
    refused, whatever else was called before and after that observation, and
    also once the revisions are exhausted. *)
Theorem superseded_poll_is_refused s before observed_at after id now :
  revision_ok (pr_revision s) ->
  let s' := run_state player_step s (before ++ PlayerMarkObserved observed_at :: after) in
  (complete_if_current s' id (observation_revision s) now).2 = RequestStale.
Proof.
  intros Hok s'.
  assert (H : revision_ok (pr_revision s') /\
              (pr_revision s' = RevisionExhausted \/
               revision_rank (pr_revision s) < revision_rank (pr_revision s'))).
  { subst s'. rewrite run_state_app, run_state_cons.
    destruct (run_invariant player_step _ s before (conj Hok (Z.le_refl _))) as [Hok1 Hr1].
    set (s1 := run_state player_step s before) in *.
    destruct (revision_advance_rank _ Hok1) as (Hok2 & _ & Hlt).
    assert (E2 : pr_revision (player_step s1 (PlayerMarkObserved observed_at)).1
                 = revision_advance (pr_revision s1)) by apply player_step_revision.
    set (s2 := (player_step s1 (PlayerMarkObserved observed_at)).1) in *.
    rewrite <- E2 in *.
    destruct (run_invariant player_step _ s2 after (conj Hok2 (Z.le_refl _))) as [Hok3 Hr3].
    split; [done|]. destruct (decide (pr_revision s1 = RevisionExhausted)) as [He|He].
    - left. rewrite E2, He in Hr3. simpl in Hr3.
      destruct (pr_revision (run_state player_step s2 after)) as [r|]; [|done].
      unfold revision_ok, in_u in Hok3. simpl in Hr3. lia.
    - right. specialize (Hlt He). lia. }
  clearbody s'. unfold complete_if_current, observation_revision.
  case_bool_decide as E; [|done]. exfalso. destruct H as [Hs' [H|H]]; [congruence|].
  rewrite E in H, Hs'. destruct (pr_revision s) as [r|]; simpl in *; unfold in_u in *; lia.
Qed.

(** ** Launches of the authorization screen *)

Definition asks_authorization (c : MonitorCall) : bool :=
  match c with MonitorRequested RequestAuthorize => true | _ => false end.
Definition launches_authorization (r : MonitorReply) : bool :=
  match r with MonitorStartReply (Some StartAuthorize) => true | _ => false end.
Definition authorize_requests (calls : list MonitorCall) : nat :=
  length (filter asks_authorization calls).
Definition authorize_starts (replies : list MonitorReply) : nat :=
  length (filter launches_authorization replies).
Definition grant (s : MusicMonitor) : nat :=
  match mon_intent s with IntentAuthorize => 1 | _ => 0 end%nat.

Lemma monitor_starts_granted s calls :
  (authorize_starts (run_outputs monitor_step s calls) <= authorize_requests calls + grant s)%nat.
Proof.
  revert s. induction calls as [|c calls IH]; intros s; [apply Nat.le_0_l|].
  rewrite run_outputs_cons. specialize (IH (monitor_step s c).1). revert IH.
  generalize (run_state monitor_step (monitor_step s c).1 calls).
  generalize (run_outputs monitor_step (monitor_step s c).1 calls). intros os _.
  unfold authorize_starts, authorize_requests. rewrite !filter_cons.
  destruct s as [[] []], c as [[]| | | |]; simpl; unfold grant; simpl; lia.
Qed.

(** ** Witnesses *)

Definition failed_connection : MusicConnection :=
  run_state connection_step default_connection [BeginAttempt 0; FailedFor 1 100].

Lemma retired_identity_stays_refused_witness :
  epoch_classify (run_state epoch_step {| ce_last_id := 2; ce_state := EpochActive 2 |}
                    [EpochBegin; EpochInvalidate; EpochBegin]) 1 = EpochStale /\
  classify_at (run_state connection_step failed_connection [BeginAttempt 2100]) 1 2100
    = CallbackStale /\
  (player_complete (run_state player_step default_player_request [PlayerBegin 5]) 0 6).2
    = RequestStale.
Proof.
  destruct retired_identity_stays_refused as (Hepoch & _ & Hconn & Hplayer & _). split_ands.
  - apply Hepoch; [simpl; lia|done].
  - apply (Hconn failed_connection [BeginAttempt 2100] 1); vm_compute; done.
  - apply Hplayer; [simpl; lia|done].
Defined.

Lemma recovery_bounded_and_on_time_witness :
  (begin_attempt failed_connection 2099).2 = AttemptWaitingToRetry /\
  (begin_attempt failed_connection 2100).2 = AttemptStarted 2 /\
  length (filter starts (run_outputs connection_step failed_connection
    [BeginAttempt 2100; BeginAttempt 12100; BeginAttempt 22100; BeginAttempt 32100])) = 2%nat /\
  Z.of_nat (length (filter starts (run_outputs connection_step failed_connection
    [BeginAttempt 2100; BeginAttempt 12100; BeginAttempt 22100; BeginAttempt 32100]))) <= 2.
Proof.
  destruct recovery_bounded_and_on_time as [Hbound Htime].
  set (s := run_state connection_step default_connection [BeginAttempt 0]).
  split_ands.
  - apply (Htime s 1 100 [] 2099); [reflexivity|done|apply not_elem_of_nil|by constructor].
  - apply (Htime s 1 100 [] 2100); [reflexivity|done|apply not_elem_of_nil|by constructor].
  - reflexivity.
  - apply (Hbound failed_connection). repeat split.
Defined.

Lemma superseded_poll_is_refused_witness :
  let s := (player_begin default_player_request 0).1 in
  (complete_if_current s 1 0 20).2 = RequestAccepted /\
  (complete_if_current (run_state player_step s [PlayerMarkObserved 10]) 1 0 20).2 = RequestStale.
Proof.
  split; [reflexivity|].
  apply (superseded_poll_is_refused (player_begin default_player_request 0).1 [] 10 [] 1 20).
  vm_compute. split; discriminate.
Defined.
