(* ===== verification/MusicHistory.v ===== *)
(** * Music observations and ride timelines

    [cutout-music/src/model.rs] and [history.rs]: the bounded texts of a
    provider observation, the observation itself, the privacy-filtered event
    made from it, and the bounded timeline of one ride. *)

From S2P Require Import Prelude.
From S2P Require Import Quantities Text.

(** ** Observations ([model.rs]) *)

Definition MAX_MUSIC_IDENTIFIER_BYTES : Z := 256.
Definition MAX_MUSIC_DISPLAY_TEXT_BYTES : Z := 512.

Inductive MusicProvider := AppleMusic | Spotify | SoundCloud.
Inductive MusicPlaybackState :=
| Playing | Paused | Stopped | Buffering | Interrupted | Unauthorized | Unavailable
| Disconnected | StaleState.
Inductive MusicCommand := Previous | Play | Pause | Next | OpenProvider.

#[global] Instance music_provider_eq_dec : EqDecision MusicProvider.
Proof. solve_decision. Defined.
#[global] Instance playback_state_eq_dec : EqDecision MusicPlaybackState.
Proof. solve_decision. Defined.
#[global] Instance music_command_eq_dec : EqDecision MusicCommand.
Proof. solve_decision. Defined.

Inductive MusicValidationError :=
| ProviderObservationUnsupported
| BlankIdentifier
| IdentifierTooLong
| PositionAfterDuration
| ObservationAfterEvent
| EventKindStateMismatch.
#[global] Instance validation_error_eq_dec : EqDecision MusicValidationError.
Proof. solve_decision. Defined.

Definition is_skip (c : MusicCommand) : bool :=
  match c with Previous | Next => true | Play | Pause | OpenProvider => false end.
Definition command_bit (c : MusicCommand) : Z :=
  match c with
  | Previous => Z.shiftl 1 0 | Play => Z.shiftl 1 1 | Pause => Z.shiftl 1 2
  | Next => Z.shiftl 1 3 | OpenProvider => Z.shiftl 1 4
  end.

(** [MusicCapabilities] is a byte of bits. *)
Definition MusicCapabilities : Type := Z.
Definition capabilities_new : MusicCapabilities := 0.
Definition capabilities_with (self : MusicCapabilities) (c : MusicCommand) : MusicCapabilities :=
  Z.lor self (command_bit c).
Definition supports (self : MusicCapabilities) (c : MusicCommand) : bool :=
  negb (bool_decide (Z.land self (command_bit c) = 0)).

(** [MusicIdentifier] and [MusicDisplayText] are newtypes of [String]. *)
Definition identifier_new (value : text) : result text MusicValidationError :=
  if bool_decide (trim value = []) then Err BlankIdentifier
  else if bool_decide (MAX_MUSIC_IDENTIFIER_BYTES < str_len value) then Err IdentifierTooLong
  else Ok value.

(** [while !value.is_char_boundary(end) { end -= 1 }]. *)
Fixpoint back_to_boundary (fuel : nat) (value : text) (end_ : Z) : option Z :=
  if is_char_boundary value end_ then Some end_ else
  match fuel with
  | O => None
  | S fuel => back_to_boundary fuel value (end_ - 1)
  end.

(** A character has at most four bytes, so three steps back are enough. *)
Definition boundary_fuel : nat := 3.

Definition display_text (value : text) : option text :=
  let value := trim value in
  if bool_decide (value = []) then None else
  match back_to_boundary boundary_fuel value
          (Z.min (str_len value) MAX_MUSIC_DISPLAY_TEXT_BYTES) with
  | Some end_ => slice_to value end_
  | None => None
  end.

Record MusicItem := { i_identifier : text; i_title : option text; i_artist : option text }.
Definition item_new (identifier : text) (title artist : option text)
  : result MusicItem MusicValidationError :=
  identifier <-? identifier_new identifier;
  Ok {| i_identifier := identifier; i_title := title ≫= display_text;
        i_artist := artist ≫= display_text |}.

Record MusicPlaybackPosition := { p_position : option Z; p_duration : option Z }.
Definition position_new (position duration : option Z)
  : result MusicPlaybackPosition MusicValidationError :=
  match position, duration with
  | Some p, Some d =>
      if bool_decide (d < p) then Err PositionAfterDuration
      else Ok {| p_position := position; p_duration := duration |}
  | _, _ => Ok {| p_position := position; p_duration := duration |}
  end.

Record MusicSnapshot := {
  s_provider : MusicProvider;
  s_session_id : text;
  s_state : MusicPlaybackState;
  s_item : option MusicItem;
  s_position : option Z;
  s_duration : option Z;
  s_observed_at : Z;
  s_capabilities : MusicCapabilities;
}.
#[global] Instance eta_snapshot : Eta MusicSnapshot := fun r =>
  Build_MusicSnapshot (s_provider r) (s_session_id r) (s_state r) (s_item r) (s_position r)
    (s_duration r) (s_observed_at r) (s_capabilities r).

Definition with_playback_observation (self : MusicSnapshot) (state : MusicPlaybackState)
    (observed_at : Z) (capabilities : MusicCapabilities) : MusicSnapshot :=
  self <| s_state := state |> <| s_observed_at := observed_at |>
       <| s_capabilities := capabilities |>.

Definition soundcloud_unavailable (observed_at : Z) : MusicSnapshot :=
  {| s_provider := SoundCloud; s_session_id := chars "soundcloud-local-unavailable";
     s_state := Unavailable; s_item := None; s_position := None; s_duration := None;
     s_observed_at := observed_at;
     s_capabilities := capabilities_with capabilities_new OpenProvider |}.

(** [!MusicCommand::OpenProvider.bit()] on a byte. *)
Definition snapshot_new (provider : MusicProvider) (session_id : text)
    (state : MusicPlaybackState) (item : option MusicItem) (position : MusicPlaybackPosition)
    (observed_at : Z) (capabilities : MusicCapabilities)
  : result MusicSnapshot MusicValidationError :=
  if bool_decide (provider = SoundCloud)
     && (negb (bool_decide (state = Unavailable))
         || bool_decide (is_Some item)
         || bool_decide (is_Some (p_position position))
         || bool_decide (is_Some (p_duration position))
         || negb (bool_decide
              (Z.land capabilities (u8_max - command_bit OpenProvider) = 0)))
  then Err ProviderObservationUnsupported
  else
    session_id <-? identifier_new session_id;
    Ok {| s_provider := provider; s_session_id := session_id; s_state := state; s_item := item;
          s_position := p_position position; s_duration := p_duration position;
          s_observed_at := observed_at; s_capabilities := capabilities |}.

(** ** Ride events ([history.rs]) *)

Definition MAX_MUSIC_TIMELINE_EVENTS : Z := 512.

Inductive MusicHistoryPolicy := PolicyDisabled | OpaqueItem | HumanReadable.
Inductive MusicRideEventKind :=
| KPlay | KPause | KSkip | KItemChanged | KStopped | KProviderDisconnected.
#[global] Instance history_policy_eq_dec : EqDecision MusicHistoryPolicy.
Proof. solve_decision. Defined.
#[global] Instance event_kind_eq_dec : EqDecision MusicRideEventKind.
Proof. solve_decision. Defined.

Record MusicRideEvent := {
  e_provider : MusicProvider;
  e_item_identifier : option text;
  e_title : option text;
  e_artist : option text;
  e_kind : MusicRideEventKind;
  e_observed_at : option Z;
  e_monotonic_at : Z;
  e_wall_clock_at : Z;
  e_clock_uncertainty : Z;
}.
#[global] Instance eta_event : Eta MusicRideEvent := fun r =>
  Build_MusicRideEvent (e_provider r) (e_item_identifier r) (e_title r) (e_artist r) (e_kind r)
    (e_observed_at r) (e_monotonic_at r) (e_wall_clock_at r) (e_clock_uncertainty r).
#[global] Instance ride_event_eq_dec : EqDecision MusicRideEvent.
Proof. solve_decision. Defined.

Record MusicEventTiming := {
  t_observed_at : option Z;
  t_monotonic_at : Z;
  t_wall_clock_at : Z;
  t_clock_uncertainty : Z;
}.

Definition is_occurrence (k : MusicRideEventKind) : bool :=
  match k with KSkip | KItemChanged | KProviderDisconnected => true | _ => false end.

Definition valid_for_state (k : MusicRideEventKind) (state : MusicPlaybackState) : bool :=
  match k with
  | KPlay | KPause => match state with Playing | Paused | Buffering => true | _ => false end
  | KStopped => match state with Stopped => true | _ => false end
  | KProviderDisconnected => match state with Disconnected => true | _ => false end
  | KSkip | KItemChanged => match state with Playing | Paused | Stopped => true | _ => false end
  end.

Definition metadata_bearing_identifier (provider : MusicProvider) (identifier : text) : bool :=
  match provider with
  | AppleMusic | SoundCloud => false
  | Spotify => bool_decide (chars "spotify:local:" `prefix_of` identifier)
  end.

Definition event_new (provider : MusicProvider) (item_identifier title artist : option text)
    (kind : MusicRideEventKind) (timing : MusicEventTiming)
  : result MusicRideEvent MusicValidationError :=
  if bool_decide (provider = SoundCloud) then Err ProviderObservationUnsupported
  else if match t_observed_at timing with
          | Some observed => bool_decide (t_monotonic_at timing < observed)
          | None => false
          end
  then Err ObservationAfterEvent
  else
    item_identifier <-? match item_identifier with
                        | Some i => i <-? identifier_new i; Ok (Some i)
                        | None => Ok None
                        end;
    Ok {| e_provider := provider; e_item_identifier := item_identifier;
          e_title := title ≫= display_text; e_artist := artist ≫= display_text;
          e_kind := kind; e_observed_at := t_observed_at timing;
          e_monotonic_at := t_monotonic_at timing; e_wall_clock_at := t_wall_clock_at timing;
          e_clock_uncertainty := t_clock_uncertainty timing |}.

Definition try_from_snapshot (snapshot : MusicSnapshot) (kind : MusicRideEventKind)
    (monotonic_at wall_clock_at clock_uncertainty : Z) (policy : MusicHistoryPolicy)
  : result (option MusicRideEvent) MusicValidationError :=
  if bool_decide (policy = PolicyDisabled) || bool_decide (s_state snapshot = StaleState)
  then Ok None
  else if negb (valid_for_state kind (s_state snapshot)) then Err EventKindStateMismatch
  else
    match (match policy with
           | PolicyDisabled => None
           | OpaqueItem =>
               Some (match s_item snapshot with
                     | Some item =>
                         if metadata_bearing_identifier (s_provider snapshot) (i_identifier item)
                         then None else Some (i_identifier item)
                     | None => None
                     end, None, None)
           | HumanReadable =>
               Some (i_identifier <$> s_item snapshot, s_item snapshot ≫= i_title,
                     s_item snapshot ≫= i_artist)
           end) with
    | None => Ok None
    | Some (item_identifier, title, artist) =>
        event <-? event_new (s_provider snapshot) item_identifier title artist kind
          {| t_observed_at := Some (s_observed_at snapshot); t_monotonic_at := monotonic_at;
             t_wall_clock_at := wall_clock_at; t_clock_uncertainty := clock_uncertainty |};
        Ok (Some event)
    end.

Definition from_snapshot (snapshot : MusicSnapshot) (kind : MusicRideEventKind)
    (monotonic_at wall_clock_at clock_uncertainty : Z) (policy : MusicHistoryPolicy)
  : option MusicRideEvent :=
  result_ok (try_from_snapshot snapshot kind monotonic_at wall_clock_at clock_uncertainty policy)
    ≫= id.

Definition same_transition_as (self other : MusicRideEvent) : bool :=
  let same_content :=
    bool_decide (e_provider self = e_provider other)
    && bool_decide (e_item_identifier self = e_item_identifier other)
    && bool_decide (e_kind self = e_kind other) in
  if is_occurrence (e_kind self) || is_occurrence (e_kind other)
  then same_content
       && bool_decide (e_observed_at self = e_observed_at other)
       && bool_decide (e_monotonic_at self = e_monotonic_at other)
       && bool_decide (e_wall_clock_at self = e_wall_clock_at other)
       && bool_decide (e_clock_uncertainty self = e_clock_uncertainty other)
  else same_content.

Definition redact_event (self : MusicRideEvent) : MusicRideEvent :=
  let self := self <| e_title := None |> <| e_artist := None |> in
  if match e_item_identifier self with
     | Some identifier => metadata_bearing_identifier (e_provider self) identifier
     | None => false
     end
  then self <| e_item_identifier := None |> else self.

(** ** Timelines *)

Inductive MusicTimelineOutcome := Recorded | Duplicate | TOutOfOrder | TDisabled | TFull.
Inductive MusicTimelineRestoreError := RestoreFull | RestoreOutOfOrder.
#[global] Instance timeline_outcome_eq_dec : EqDecision MusicTimelineOutcome.
Proof. solve_decision. Defined.

(** [MusicTimeline] is the vector of its events. *)
Definition MusicTimeline : Type := list MusicRideEvent.

Definition admission (previous : option MusicRideEvent) (count : Z) (event : MusicRideEvent)
  : MusicTimelineOutcome :=
  match (match previous with
         | Some previous =>
             if bool_decide (e_monotonic_at event < e_monotonic_at previous) then Some TOutOfOrder
             else if same_transition_as event previous then Some Duplicate else None
         | None => None
         end) with
  | Some refused => refused
  | None =>
      if bool_decide (MAX_MUSIC_TIMELINE_EVENTS <= count) then TFull else Recorded
  end.

Definition timeline_append (self : MusicTimeline) (event : MusicRideEvent)
  : MusicTimeline * MusicTimelineOutcome :=
  let outcome := admission (list.last self) (Z.of_nat (length self)) event in
  (if bool_decide (outcome = Recorded) then self ++ [event] else self, outcome).

(** [events.windows(2)]. *)
Fixpoint moves_backwards (events : list MusicRideEvent) : bool :=
  match events with
  | a :: ((b :: _) as rest) =>
      bool_decide (e_monotonic_at b < e_monotonic_at a) || moves_backwards rest
  | _ => false
  end.

Definition from_stored_events (events : list MusicRideEvent)
  : result MusicTimeline MusicTimelineRestoreError :=
  if bool_decide (MAX_MUSIC_TIMELINE_EVENTS < Z.of_nat (length events)) then Err RestoreFull
  else if moves_backwards events then Err RestoreOutOfOrder
  else Ok events.

(** [Vec::pop]. *)
Definition pop_last (self : MusicTimeline) : MusicTimeline * option MusicRideEvent :=
  (take (length self - 1) self, list.last self).

Definition redact_timeline (self : MusicTimeline) : MusicTimeline := redact_event <$> self.

(** ** Bounded text *)

Lemma back_to_boundary_longest fuel t n :
  0 <= n <= str_len t -> n - Z.of_nat fuel <= str_len (longest_fit t n) ->
  back_to_boundary fuel t n = Some (str_len (longest_fit t n)).
Proof.
  intros Hn Hf.
  assert (Hgo : forall m, str_len (longest_fit t n) <= m <= n ->
            m - Z.of_nat fuel <= str_len (longest_fit t n) ->
            back_to_boundary fuel t m = Some (str_len (longest_fit t n))).
  2:{ apply Hgo; [|done]. split; [apply longest_fit_fits; lia|lia]. }
  clear Hf. induction fuel as [|fuel IH]; intros m Hm Hf; simpl; rewrite is_char_boundary_slice.
  - rewrite bool_decide_eq_true_2; [f_equal; lia|].
    exists (longest_fit t n). apply slice_to_Some. split; [apply longest_fit_prefix|lia].
  - case_bool_decide as Hb.
    + destruct Hb as [p [Hp Hl]%slice_to_Some]. f_equal.
      pose proof (longest_fit_greatest t n p Hp ltac:(lia)). lia.
    + apply IH; [|lia]. split; [|lia].
      destruct (decide (m = str_len (longest_fit t n))) as [->|]; [|lia].
      exfalso. apply Hb. exists (longest_fit t n). apply slice_to_Some.
      split; [apply longest_fit_prefix|done].
Qed.

Lemma display_text_longest value :
  display_text value =
    if bool_decide (trim value = []) then None
    else Some (longest_fit (trim value) MAX_MUSIC_DISPLAY_TEXT_BYTES).
Proof.
  unfold display_text. case_bool_decide as Hne; [done|]. set (t := trim value) in *.
  pose proof (str_len_nonneg t) as H0.
  assert (Hmin : longest_fit t (Z.min (str_len t) MAX_MUSIC_DISPLAY_TEXT_BYTES)
                 = longest_fit t MAX_MUSIC_DISPLAY_TEXT_BYTES).
  { clear. revert t. unfold MAX_MUSIC_DISPLAY_TEXT_BYTES.
    assert (forall t n, 0 <= n -> longest_fit t (Z.min (str_len t) n) = longest_fit t n) as H;
      [|intros; apply H; lia].
    induction t as [|c t IH]; intros n Hn; simpl; [done|].
    pose proof (str_len_nonneg t). pose proof (char_len_range c).
    case_bool_decide; case_bool_decide; try lia; [|done].
    f_equal. rewrite <- (IH (n - char_len c)) by lia. f_equal. lia. }
  rewrite back_to_boundary_longest.
  - rewrite Hmin. apply slice_to_Some. split; [apply longest_fit_prefix|done].
  - unfold MAX_MUSIC_DISPLAY_TEXT_BYTES. lia.
  - apply longest_fit_close. unfold MAX_MUSIC_DISPLAY_TEXT_BYTES. lia.
Qed.

(** Display text is never rejected and never cut inside a character.  Text
    of white space only is absent; any other becomes a non-empty prefix of the
    trimmed text that takes at most 512 bytes, and of all such prefixes the
    longest; the search for the boundary always ends. *)
Theorem display_text_is_longest_prefix value :
  (trim value = [] -> display_text value = None) /\
  (trim value <> [] ->
   exists shown, display_text value = Some shown /\ shown <> [] /\
     shown `prefix_of` trim value /\ str_len shown <= MAX_MUSIC_DISPLAY_TEXT_BYTES /\
     forall other, other `prefix_of` trim value ->
       str_len other <= MAX_MUSIC_DISPLAY_TEXT_BYTES -> other `prefix_of` shown).
Proof.
  rewrite display_text_longest. split; intros H; [by rewrite bool_decide_eq_true_2|].
  rewrite bool_decide_eq_false_2 by done.
  set (t := trim value) in *. set (n := MAX_MUSIC_DISPLAY_TEXT_BYTES).
  assert (Hn : 4 <= n) by (unfold n, MAX_MUSIC_DISPLAY_TEXT_BYTES; lia).
  exists (longest_fit t n). split_ands; [done| |apply longest_fit_prefix| |].
  - destruct t as [|c t']; [done|]. simpl. pose proof (char_len_range c).
    by rewrite bool_decide_eq_true_2 by lia.
  - apply longest_fit_fits. lia.
  - intros other Hp Hl. pose proof (longest_fit_greatest t n other Hp Hl) as Hg.
    destruct (prefix_weak_total other (longest_fit t n) t Hp (longest_fit_prefix t n))
      as [?|[r Hr]]; [done|].
    rewrite Hr, str_len_app in Hg. pose proof (str_len_nonneg r).
    rewrite Hr. assert (r = []) as -> by (apply str_len_zero; lia). by rewrite app_nil_r.
Qed.

(** Shown text is not always canonical again: the cut can leave white space at
    the end, which a second pass removes. *)
Example display_text_not_idempotent :
  let long := replicate 511 97 ++ [32; 98] in
  display_text long = Some (replicate 511 97 ++ [32]) /\
  (display_text long ≫= display_text) = Some (replicate 511 97).
Proof. vm_compute. done. Qed.

(** ** Privacy *)

(** The item of a snapshot went through its constructor. *)
Definition item_admitted (snapshot : MusicSnapshot) : Prop :=
  forall item, s_item snapshot = Some item ->
  exists identifier title artist, item_new identifier title artist = Ok item.

Lemma identifier_new_Ok v i :
  identifier_new v = Ok i -> i = v /\ identifier_new i = Ok i.
Proof. unfold identifier_new. intros H. step_cases_in H. by rewrite !bool_decide_eq_false_2. Qed.

Lemma item_new_identifier v t a item :
  item_new v t a = Ok item -> identifier_new (i_identifier item) = Ok (i_identifier item).
Proof.
  unfold item_new. intros (i & [_ Hi]%identifier_new_Ok & H)%result_bind_Ok. by simplify_eq.
Qed.

(** The identifier an event of a snapshot's item keeps under the opaque policy. *)
Definition redact_result (r : result (option MusicRideEvent) MusicValidationError) :=
  event <-? r; Ok (redact_event <$> event).

(** C27: Redaction afterwards is the private choice beforehand.  Whatever was
    recorded with titles and artists becomes, once redacted, exactly the event
    the opaque policy would have recorded of the same observation, its
    identifier dropped where it spells out the metadata of a local file; the
    two policies refuse the same observations with the same error. *)
Theorem redaction_is_the_opaque_policy snapshot kind monotonic_at wall_clock_at uncertainty :
  item_admitted snapshot ->
  redact_result
    (try_from_snapshot snapshot kind monotonic_at wall_clock_at uncertainty HumanReadable) =
  try_from_snapshot snapshot kind monotonic_at wall_clock_at uncertainty OpaqueItem.
Proof.
  intros Hitem. unfold redact_result, try_from_snapshot. simpl.
  case_bool_decide; [done|]. destruct (valid_for_state kind (s_state snapshot)); [simpl|done].
  unfold event_new; simpl. case_bool_decide; [done|]. case_bool_decide; [done|].
  destruct (s_item snapshot) as [item|] eqn:Ei; simpl; [|done].
  destruct (Hitem item Ei) as (v & t & a & Hnew). apply item_new_identifier in Hnew.
  rewrite Hnew. simpl. unfold redact_event. simpl.
  destruct (metadata_bearing_identifier _ _); simpl; [done|]. by rewrite Hnew.
Qed.

(** ** Timelines *)

Inductive TimelineCall := Append (e : MusicRideEvent) | PopLast | RedactAll.
Inductive TimelineReply :=
| AppendReply (o : MusicTimelineOutcome)
| PopReply (e : option MusicRideEvent)
| RedactReply.
Definition timeline_step (self : MusicTimeline) (c : TimelineCall)
  : MusicTimeline * TimelineReply :=
  match c with
  | Append e => AppendReply <$$> timeline_append self e
  | PopLast => PopReply <$$> pop_last self
  | RedactAll => (redact_timeline self, RedactReply)
  end.

Lemma moves_backwards_snoc l e :
  moves_backwards (l ++ [e]) =
    moves_backwards l ||
    match list.last l with
    | Some p => bool_decide (e_monotonic_at e < e_monotonic_at p)
    | None => false
    end.
Proof.
  induction l as [|a [|b l] IH]; [done|by simpl; rewrite orb_false_r|].
  change ((a :: b :: l) ++ [e]) with (a :: b :: (l ++ [e])).
  change (moves_backwards (a :: b :: (l ++ [e])))
    with (bool_decide (e_monotonic_at b < e_monotonic_at a) || moves_backwards (b :: (l ++ [e]))).
  change (b :: (l ++ [e])) with ((b :: l) ++ [e]). rewrite IH. simpl. by rewrite orb_assoc.
Qed.

Lemma redact_event_monotonic e : e_monotonic_at (redact_event e) = e_monotonic_at e.
Proof. destruct e as [p [i|] ? ? ? ? ? ? ?]; unfold redact_event; simpl; [by case_match|done]. Qed.

Lemma moves_backwards_redact l : moves_backwards (redact_timeline l) = moves_backwards l.
Proof.
  induction l as [|a [|b l] IH]; [done|done|]. simpl in *. rewrite IH, !redact_event_monotonic. done.
Qed.

Lemma pop_last_snoc (l : MusicTimeline) e : take (length (l ++ [e]) - 1) (l ++ [e]) = l.
Proof. rewrite length_app. simpl. apply take_app_length'. lia. Qed.

Definition timeline_ok (t : MusicTimeline) : Prop :=
  Z.of_nat (length t) <= MAX_MUSIC_TIMELINE_EVENTS /\ moves_backwards t = false.

#[export] Instance timeline_ok_invariant : Invariant timeline_step timeline_ok.
Proof.
  intros t c [Hlen Hord]. unfold timeline_ok. destruct c as [e| |]; simpl.
  - unfold timeline_append, admission. simpl.
    case_bool_decide as Ho; [|done]. rewrite length_app, moves_backwards_snoc, Hord. simpl.
    destruct (list.last t) as [p|]; step_cases_in Ho; split; try done; lia.
  - destruct t as [|e t _] using rev_ind; [done|]. rewrite pop_last_snoc.
    rewrite length_app in Hlen. rewrite moves_backwards_snoc in Hord. simpl in Hlen.
    apply orb_false_iff in Hord as [? _]. split; [lia|done].
  - unfold redact_timeline at 1. rewrite length_fmap, moves_backwards_redact. done.
Qed.

(** No event repeats the one before it. *)
Fixpoint repeats (t : MusicTimeline) : bool :=
  match t with
  | a :: ((b :: _) as rest) => same_transition_as b a || repeats rest
  | _ => false
  end.

Lemma repeats_snoc l e :
  repeats (l ++ [e]) =
    repeats l || match list.last l with Some p => same_transition_as e p | None => false end.
Proof.
  induction l as [|a [|b l] IH]; [done|by simpl; rewrite orb_false_r|].
  change (repeats ((a :: b :: l) ++ [e]))
    with (same_transition_as b a || repeats ((b :: l) ++ [e])).
  rewrite IH. simpl. by rewrite orb_assoc.
Qed.

Lemma timeline_step_repeats t c :
  c <> RedactAll -> repeats t = false -> repeats (timeline_step t c).1 = false.
Proof.
  intros Hc Hr. destruct c as [e| |]; [| |done]; simpl.
  - unfold timeline_append, admission. simpl. case_bool_decide as Ho; [|done].
    rewrite repeats_snoc, Hr. simpl. destruct (list.last t); step_cases_in Ho; done.
  - destruct t as [|e t _] using rev_ind; [done|]. rewrite pop_last_snoc.
    rewrite repeats_snoc in Hr. by apply orb_false_iff in Hr as [? _].
Qed.

(** A timeline survives its storage.  However events were appended, rolled
    back and redacted, the vector of a timeline holds at most 512 events in
    the order of their monotonic times, so that restoring exactly the stored
    rows succeeds and gives the same timeline; and unless it was redacted no
    event repeats the transition before it. *)
Theorem timeline_restored_from_storage calls :
  let t := run_state timeline_step [] calls in
  from_stored_events t = Ok t /\ (RedactAll ∉ calls -> repeats t = false).
Proof.
  intros t. split.
  - destruct (run_invariant timeline_step timeline_ok [] calls) as [Hlen Hord]; [done|].
    fold t in Hlen, Hord. unfold from_stored_events.
    by rewrite bool_decide_eq_false_2, Hord by lia.
  - subst t. assert (H0 : repeats [] = false) by done. revert H0. generalize (@nil MusicRideEvent).
    induction calls as [|c calls IH]; intros t Ht Hn; [done|].
    apply not_elem_of_cons in Hn as [? ?]. rewrite run_state_cons.
    apply IH; [by apply timeline_step_repeats|done].
Qed.

(** ** Witnesses *)

Definition local_track : MusicItem :=
  {| i_identifier := chars "spotify:local:Artist:Album:Song:100";
     i_title := Some (chars "Song"); i_artist := Some (chars "Artist") |}.
Definition local_snapshot : MusicSnapshot :=
  {| s_provider := Spotify; s_session_id := chars "session"; s_state := Playing;
     s_item := Some local_track; s_position := Some 10; s_duration := Some 100;
     s_observed_at := 10; s_capabilities := 0 |}.

Lemma display_text_is_longest_prefix_witness :
  exists shown, display_text (chars "  Song ") = Some shown /\
    str_len shown <= MAX_MUSIC_DISPLAY_TEXT_BYTES /\ shown = chars "Song".
Proof.
  destruct (proj2 (display_text_is_longest_prefix (chars "  Song ")))
    as (shown & H & _ & _ & Hl & _); [done|].
  exists shown. split; [done|]. split; [done|]. vm_compute in H. by injection H as <-.
Defined.

Lemma redaction_is_the_opaque_policy_witness :
  redact_result (try_from_snapshot local_snapshot KPlay 10 1000 2 HumanReadable) =
    try_from_snapshot local_snapshot KPlay 10 1000 2 OpaqueItem /\
  result_ok (try_from_snapshot local_snapshot KPlay 10 1000 2 OpaqueItem) =
    Some (Some {| e_provider := Spotify; e_item_identifier := None; e_title := None;
                  e_artist := None; e_kind := KPlay; e_observed_at := Some 10;
                  e_monotonic_at := 10; e_wall_clock_at := 1000; e_clock_uncertainty := 2 |}).
Proof.
  split; [|reflexivity]. apply redaction_is_the_opaque_policy.
  intros item [= <-].
  exists (chars "spotify:local:Artist:Album:Song:100"), (Some (chars "Song")),
    (Some (chars "Artist")). reflexivity.
Defined.

Lemma timeline_restored_from_storage_witness :
  let e k t := {| e_provider := Spotify; e_item_identifier := None; e_title := None;
                  e_artist := None; e_kind := k; e_observed_at := None; e_monotonic_at := t;
                  e_wall_clock_at := 0; e_clock_uncertainty := 0 |} in
  let t := run_state timeline_step []
             [Append (e KPlay 1); Append (e KPlay 2); Append (e KPause 3); Append (e KPlay 2)] in
  length t = 2%nat /\ from_stored_events t = Ok t /\ repeats t = false.
Proof.
  intros e t. split; [reflexivity|].
  destruct (timeline_restored_from_storage
    [Append (e KPlay 1); Append (e KPlay 2); Append (e KPause 3); Append (e KPlay 2)]) as [H1 H2].
  split; [exact H1|]. apply H2. rewrite !not_elem_of_cons. split_ands; try done.
  apply not_elem_of_nil.
Defined.
