(* ===== verification/MusicObservation.v ===== *)
(** * Music observations and the history they make

    [cutout-music/src/observation.rs]: the tracker that orders the
    observations of each provider, classifies what changed between two of
    them, and decides whether a change of item was a skip the rider asked for.
    A transition that depends on a command still in flight waits for its
    outcome; every transition waits until the durable history has acknowledged
    it.  [VecDeque] is a list. *)

From Stdlib Require Import Sorted.
From S2P Require Import Prelude.
From S2P Require Import Quantities Text.
From S2P Require Import MusicRequests MusicHistory.

Definition SKIP_CONFIRMATION_MAX_AGE : Z := 5000.
Definition SKIP_CONFIRMATION_MAX_UNCHANGED_OBSERVATIONS : Z := 5.

Inductive SkipCommandOutcome := SkipPending | SkipAccepted | SkipRejected.
#[global] Instance skip_outcome_eq_dec : EqDecision SkipCommandOutcome.
Proof. solve_decision. Defined.

Record PendingSkip := {
  sk_transport_id : LifecycleId;
  sk_issued_at : Z;
  sk_remaining : Z;
  sk_outcome : SkipCommandOutcome;
  sk_matched : bool;
}.
#[global] Instance eta_skip : Eta PendingSkip := fun r =>
  Build_PendingSkip (sk_transport_id r) (sk_issued_at r) (sk_remaining r) (sk_outcome r)
    (sk_matched r).

Definition applies_at (self : PendingSkip) (observed_at : Z) : bool :=
  bool_decide (sk_issued_at self <= observed_at).
Definition is_expired_at (self : PendingSkip) (observed_at : Z) : bool :=
  bool_decide (sk_issued_at self <= observed_at)
  && bool_decide (SKIP_CONFIRMATION_MAX_AGE
                  < timestamp_saturating_duration_since observed_at (sk_issued_at self)).

Record MusicObservationTiming := { wall_clock_at : Z; clock_uncertainty_milliseconds : Z }.

Inductive PendingHistoryKind :=
| Confirmed (kind : MusicRideEventKind)
| AwaitingSkip (transport_id : LifecycleId) (rejected_kind : option MusicRideEventKind).

Record PendingHistoryTransition := {
  ph_id : LifecycleId;
  ph_snapshot : MusicSnapshot;
  ph_kind : PendingHistoryKind;
  ph_timing : MusicObservationTiming;
}.
#[global] Instance eta_pending_history : Eta PendingHistoryTransition := fun r =>
  Build_PendingHistoryTransition (ph_id r) (ph_snapshot r) (ph_kind r) (ph_timing r).

(** [MusicUnsettledHistoryTransition] has the fields of the pending one. *)
Inductive MusicUnsettledHistoryKind :=
| UnsettledConfirmed (kind : MusicRideEventKind)
| UnsettledAwaitingSkip (transport_id : LifecycleId) (rejected_kind : option MusicRideEventKind).
Record MusicUnsettledHistoryTransition := {
  u_id : LifecycleId;
  u_snapshot : MusicSnapshot;
  u_kind : MusicUnsettledHistoryKind;
  u_timing : MusicObservationTiming;
}.

Record MusicHistoryTransition := {
  ht_id : LifecycleId;
  ht_snapshot : MusicSnapshot;
  ht_kind : MusicRideEventKind;
  ht_timing : MusicObservationTiming;
}.

Inductive MusicHistoryTransitionAcknowledgement := Acknowledged | AcknowledgementStale.
Inductive MusicObservationOutcome :=
| ObservationAccepted (snapshot : MusicSnapshot) (transition : option MusicHistoryTransition)
| ObservationOutOfOrder
| ObservationFull.

Record MusicObservationTracker := {
  apple_music : option MusicSnapshot;
  spotify : option MusicSnapshot;
  soundcloud : option MusicSnapshot;
  pending_skips : list PendingSkip;
  pending_history : list PendingHistoryTransition;
  last_history_id : LifecycleId;
}.
#[global] Instance eta_tracker : Eta MusicObservationTracker := fun r =>
  Build_MusicObservationTracker (apple_music r) (spotify r) (soundcloud r) (pending_skips r)
    (pending_history r) (last_history_id r).
Definition tracker_new : MusicObservationTracker :=
  {| apple_music := None; spotify := None; soundcloud := None; pending_skips := [];
     pending_history := []; last_history_id := 0 |}.

(** [iter().position(..)]. *)
Definition position {A} (P : A -> bool) (l : list A) : option nat := fst <$> list_find P l.

(** ** Classification *)

Definition classify_transition (previous : option MusicSnapshot) (current : MusicSnapshot)
    (skip_applies : bool) : option MusicRideEventKind :=
  match s_state current with
  | Disconnected =>
      if match previous with
         | Some previous => negb (bool_decide (s_state previous = Disconnected))
         | None => true
         end
      then Some KProviderDisconnected else None
  | Buffering | Interrupted | Unauthorized | Unavailable | StaleState => None
  | Playing | Paused | Stopped =>
      match previous with
      | None => match s_item current with Some _ => Some KItemChanged | None => None end
      | Some previous =>
          if negb (bool_decide (s_provider previous = s_provider current))
          then Some KItemChanged
          else if bool_decide (s_state current = Stopped)
                  && negb (bool_decide (s_state previous = Stopped))
          then Some KStopped
          else
            let previous_item := i_identifier <$> s_item previous in
            let current_item := i_identifier <$> s_item current in
            if negb (bool_decide (previous_item = current_item))
            then Some (if skip_applies && bool_decide (is_Some previous_item)
                          && bool_decide (is_Some current_item)
                       then KSkip else KItemChanged)
            else if skip_applies && bool_decide (is_Some previous_item)
                    && bool_decide (is_Some current_item)
                    && match s_position previous, s_position current with
                       | Some previous, Some current => bool_decide (current < previous)
                       | _, _ => false
                       end
            then Some KSkip
            else match s_state previous, s_state current with
                 | previous, Playing =>
                     if bool_decide (previous = Playing) then None else Some KPlay
                 | previous, Paused =>
                     if bool_decide (previous = Paused) then None else Some KPause
                 | _, _ => None
                 end
      end
  end.

Definition is_terminal_state (state : MusicPlaybackState) : bool :=
  match state with
  | Stopped | Unauthorized | Unavailable | Disconnected | StaleState => true
  | _ => false
  end.

(** ** Skips *)

Definition issue_skip (self : MusicObservationTracker) (transport_id : LifecycleId)
    (issued_at : Z) : MusicObservationTracker :=
  self <| pending_skips := pending_skips self ++
    [{| sk_transport_id := transport_id; sk_issued_at := issued_at;
        sk_remaining := SKIP_CONFIRMATION_MAX_UNCHANGED_OBSERVATIONS;
        sk_outcome := SkipPending; sk_matched := false |}] |>.

Definition awaits_skip (transport_id : LifecycleId) (p : PendingHistoryTransition) : bool :=
  match ph_kind p with
  | AwaitingSkip current _ => bool_decide (current = transport_id)
  | Confirmed _ => false
  end.

Definition resolve_history_skip (self : MusicObservationTracker) (transport_id : LifecycleId)
    (outcome : SkipCommandOutcome) : MusicObservationTracker :=
  match position (awaits_skip transport_id) (pending_history self) with
  | None => self
  | Some index =>
      match ph_kind <$> pending_history self !! index with
      | Some (AwaitingSkip _ rejected_kind) =>
          match (match outcome with
                 | SkipAccepted => Some (Some KSkip)
                 | SkipRejected => Some rejected_kind
                 | SkipPending => None
                 end) with
          | None => self
          | Some (Some kind) =>
              self <| pending_history :=
                alter (fun p => p <| ph_kind := Confirmed kind |>) index (pending_history self) |>
          | Some None =>
              self <| pending_history := delete index (pending_history self) |>
          end
      | _ => self
      end
  end.

Definition finish_skip (self : MusicObservationTracker) (transport_id : LifecycleId)
    (outcome : SkipCommandOutcome) : MusicObservationTracker :=
  match position (fun p => bool_decide (sk_transport_id p = transport_id)) (pending_skips self) with
  | None => self
  | Some index =>
      if bool_decide (outcome = SkipAccepted)
         && match pending_skips self !! index with
            | Some pending => negb (sk_matched pending)
            | None => false
            end
      then self <| pending_skips :=
             alter (fun p => p <| sk_outcome := SkipAccepted |>) index (pending_skips self) |>
      else
        let self := resolve_history_skip self transport_id outcome in
        self <| pending_skips := delete index (pending_skips self) |>
  end.

(** [for request_id in ids { self.finish_skip(request_id, Rejected) }]. *)
Definition reject_skips (self : MusicObservationTracker) (ids : list LifecycleId)
  : MusicObservationTracker :=
  foldl (fun self id => finish_skip self id SkipRejected) self ids.

Definition clear_pending_skips (self : MusicObservationTracker) : MusicObservationTracker :=
  reject_skips self (sk_transport_id <$> pending_skips self).

Definition expire_skips (self : MusicObservationTracker) (observed_at : Z)
  : MusicObservationTracker :=
  reject_skips self
    (sk_transport_id <$> filter (fun p => is_expired_at p observed_at) (pending_skips self)).

(** ** Observations *)

Definition latest (self : MusicObservationTracker) (provider : MusicProvider)
  : option MusicSnapshot :=
  match provider with
  | AppleMusic => apple_music self
  | Spotify => spotify self
  | SoundCloud => soundcloud self
  end.

Definition replace_latest (self : MusicObservationTracker) (snapshot : MusicSnapshot)
  : MusicObservationTracker :=
  match s_provider snapshot with
  | AppleMusic => self <| apple_music := Some snapshot |>
  | Spotify => self <| spotify := Some snapshot |>
  | SoundCloud => self <| soundcloud := Some snapshot |>
  end.

Definition reset_observations (self : MusicObservationTracker) : MusicObservationTracker :=
  self <| apple_music := None |> <| spotify := None |> <| soundcloud := None |>.

Definition tracker_reset (self : MusicObservationTracker) : MusicObservationTracker :=
  clear_pending_skips (reset_observations self) <| pending_history := [] |>.

Definition has_pending_history (self : MusicObservationTracker) : bool :=
  negb (bool_decide (pending_history self = [])).

Definition unsettled (p : PendingHistoryTransition) : MusicUnsettledHistoryTransition :=
  {| u_id := ph_id p; u_snapshot := ph_snapshot p;
     u_kind := match ph_kind p with
               | Confirmed kind => UnsettledConfirmed kind
               | AwaitingSkip transport_id rejected_kind =>
                   UnsettledAwaitingSkip transport_id rejected_kind
               end;
     u_timing := ph_timing p |}.

Definition retire_history_association (self : MusicObservationTracker)
  : MusicObservationTracker * list MusicUnsettledHistoryTransition :=
  (tracker_reset (self <| pending_history := [] |>), unsettled <$> pending_history self).

(** The kind under which a transition is queued, and the tracker after the
    matched skip was marked; [None] is an early return.  [index] was found by
    [position] in the same list, so that the lookup never fails. *)
Definition enqueue_kind (self : MusicObservationTracker) (kind : MusicRideEventKind)
    (rejected_transition : option MusicRideEventKind) (skip_index : option nat)
  : MusicObservationTracker * option PendingHistoryKind :=
  if bool_decide (kind = KSkip) then
    match skip_index with
    | None => (self, None)
    | Some index =>
        match pending_skips self !! index with
        | None => (self, None)
        | Some pending =>
            (self <| pending_skips :=
               alter (fun p => p <| sk_matched := true |>) index (pending_skips self) |>,
             match sk_outcome pending with
             | SkipAccepted => Some (Confirmed kind)
             | SkipPending => Some (AwaitingSkip (sk_transport_id pending) rejected_transition)
             | SkipRejected => None
             end)
        end
    end
  else (self, Some (Confirmed kind)).

Definition enqueue_observation_transition (self : MusicObservationTracker)
    (snapshot : MusicSnapshot) (timing : MusicObservationTiming)
    (transition rejected_transition : option MusicRideEventKind) (skip_index : option nat)
  : MusicObservationTracker :=
  match transition with
  | None => self
  | Some kind =>
      match enqueue_kind self kind rejected_transition skip_index with
      | (self, None) => self
      | (self, Some pending_kind) =>
          match id_next (last_history_id self) with
          | None => self
          | Some id =>
              let self := self <| last_history_id := id |>
                <| pending_history := pending_history self ++
                     [{| ph_id := id; ph_snapshot := snapshot; ph_kind := pending_kind;
                         ph_timing := timing |}] |> in
              match skip_index with
              | Some index =>
                  if bool_decide (kind = KSkip)
                     && bool_decide (sk_outcome <$> pending_skips self !! index
                                     = Some SkipAccepted)
                  then self <| pending_skips := delete index (pending_skips self) |>
                  else self
              | None => self
              end
          end
      end
  end.

Definition resolve_unchanged_skip (self : MusicObservationTracker) (current : MusicSnapshot)
    (skip_index : option nat) (transition : option MusicRideEventKind)
  : MusicObservationTracker :=
  match skip_index with
  | None => self
  | Some index =>
      if bool_decide (transition = Some KSkip) then self else
      match pending_skips self !! index with
      | None => self
      | Some pending =>
          if is_terminal_state (s_state current)
          then finish_skip self (sk_transport_id pending) SkipRejected
          else
            let remaining := sat_sub (sk_remaining pending) 1 in
            let self := self <| pending_skips :=
              alter (fun p => p <| sk_remaining := remaining |>) index (pending_skips self) |> in
            if bool_decide (remaining = 0)
            then finish_skip self (sk_transport_id pending) SkipRejected else self
      end
  end.

Definition current_history_transition (self : MusicObservationTracker)
  : option MusicHistoryTransition :=
  match pending_history self with
  | [] => None
  | pending :: _ =>
      match ph_kind pending with
      | Confirmed kind =>
          Some {| ht_id := ph_id pending; ht_snapshot := ph_snapshot pending; ht_kind := kind;
                  ht_timing := ph_timing pending |}
      | AwaitingSkip _ _ => None
      end
  end.

Definition observe (self : MusicObservationTracker) (snapshot : MusicSnapshot)
    (timing : MusicObservationTiming) : MusicObservationTracker * MusicObservationOutcome :=
  let previous := latest self (s_provider snapshot) in
  if match previous with
     | Some previous => bool_decide (s_observed_at snapshot <= s_observed_at previous)
     | None => false
     end
  then (self, ObservationOutOfOrder) else
  let self := expire_skips self (s_observed_at snapshot) in
  let skip_index := position (fun p => negb (sk_matched p) && applies_at p (s_observed_at snapshot))
                      (pending_skips self) in
  let skip_applies := bool_decide (is_Some skip_index) in
  let transition := classify_transition previous snapshot skip_applies in
  if bool_decide (is_Some transition)
     && bool_decide (MAX_MUSIC_TIMELINE_EVENTS <= Z.of_nat (length (pending_history self)))
  then (self, ObservationFull) else
  let rejected_transition :=
    if skip_applies then classify_transition previous snapshot false else None in
  let self := enqueue_observation_transition self snapshot timing transition
                rejected_transition skip_index in
  let self := resolve_unchanged_skip self snapshot skip_index transition in
  let self := replace_latest self snapshot in
  (self, ObservationAccepted snapshot (current_history_transition self)).

Definition acknowledge_history_transition (self : MusicObservationTracker) (id : LifecycleId)
  : MusicObservationTracker * MusicHistoryTransitionAcknowledgement :=
  match pending_history self with
  | [] => (self, AcknowledgementStale)
  | current :: rest =>
      if negb (bool_decide (ph_id current = id))
         || negb (match ph_kind current with Confirmed _ => true | AwaitingSkip _ _ => false end)
      then (self, AcknowledgementStale)
      else (self <| pending_history := rest |>, Acknowledged)
  end.

(** ** The tracker as a machine *)

Inductive TrackerCall :=
| IssueSkip (id : LifecycleId) (issued_at : Z)
| FinishSkip (id : LifecycleId) (outcome : SkipCommandOutcome)
| Observe (snapshot : MusicSnapshot) (timing : MusicObservationTiming)
| Acknowledge (id : LifecycleId)
| RetireAssociation
| TrackerReset
| ClearSkips
| ResetObservations.
Inductive TrackerReply :=
| ObserveReply (o : MusicObservationOutcome)
| AcknowledgeReply (a : MusicHistoryTransitionAcknowledgement)
| RetiredReply (l : list MusicUnsettledHistoryTransition)
| TrackerDone.
Definition tracker_step (self : MusicObservationTracker) (call : TrackerCall)
  : MusicObservationTracker * TrackerReply :=
  match call with
  | IssueSkip id issued_at => (issue_skip self id issued_at, TrackerDone)
  | FinishSkip id outcome => (finish_skip self id outcome, TrackerDone)
  | Observe snapshot timing => ObserveReply <$$> observe self snapshot timing
  | Acknowledge id => AcknowledgeReply <$$> acknowledge_history_transition self id
  | RetireAssociation => RetiredReply <$$> retire_history_association self
  | TrackerReset => (tracker_reset self, TrackerDone)
  | ClearSkips => (clear_pending_skips self, TrackerDone)
  | ResetObservations => (reset_observations self, TrackerDone)
  end.

(** ** How skips are settled *)

Lemma position_Some {A} (P : A -> bool) l i :
  position P l = Some i -> exists x, l !! i = Some x /\ P x = true.
Proof.
  unfold position. intros H. apply fmap_Some in H as ([j x] & H & ->).
  apply list_find_Some in H as (Hx & HP & _). exists x. split; [done|]. by apply Is_true_true.
Qed.
Lemma position_None {A} (P : A -> bool) l :
  position P l = None -> forall x, x ∈ l -> P x = false.
Proof.
  unfold position. rewrite fmap_None, list_find_None, Forall_forall. intros H x Hx.
  apply not_true_iff_false. intros E. apply (H x Hx). by rewrite E.
Qed.

(** What [resolve_history_skip] does to the history. *)
Definition settles (id : LifecycleId) (o : SkipCommandOutcome)
    (h h' : list PendingHistoryTransition) : Prop :=
  (h' = h /\ (o <> SkipPending -> Forall (fun p => awaits_skip id p = false) h)) \/
  exists i p rejected, h !! i = Some p /\ ph_kind p = AwaitingSkip id rejected /\
    ((exists k, (o = SkipAccepted /\ k = KSkip \/ o = SkipRejected /\ rejected = Some k) /\
                h' = alter (fun p => p <| ph_kind := Confirmed k |>) i h) \/
     (o = SkipRejected /\ rejected = None /\ h' = delete i h)).

Lemma resolve_history_skip_spec s id o :
  exists h', settles id o (pending_history s) h' /\
    resolve_history_skip s id o = s <| pending_history := h' |>.
Proof.
  unfold resolve_history_skip. destruct (position _ _) as [i|] eqn:E.
  2:{ exists (pending_history s). split; [left|by destruct s]. split; [done|]. intros _.
      apply Forall_forall. by apply position_None. }
  apply position_Some in E as (p & Hi & Hw). unfold awaits_skip in Hw. rewrite Hi. simpl.
  destruct (ph_kind p) as [|cur rejected] eqn:Ek; [done|]. apply bool_decide_eq_true_1 in Hw as ->.
  destruct o.
  - exists (pending_history s). split; [by left|by destruct s].
  - eexists. split; [|reflexivity]. right. exists i, p, rejected. split_ands; [done..|].
    left. exists KSkip. eauto.
  - destruct rejected as [k|]; (eexists; split; [|reflexivity]); right; eexists i, p, _;
      split_ands; [done..| |done|done|].
    + left. exists k. eauto.
    + by right.
Qed.

(** What [finish_skip] does: nothing to the observations, and either nothing,
    an acceptance noted for later, or the skip settled and gone. *)
Lemma finish_skip_spec s id o :
  (finish_skip s id o = s /\ id ∉ (sk_transport_id <$> pending_skips s)) \/
  (exists i p, pending_skips s !! i = Some p /\ sk_transport_id p = id /\
     ((o = SkipAccepted /\ sk_matched p = false /\
       finish_skip s id o = s <| pending_skips :=
         alter (fun p => p <| sk_outcome := SkipAccepted |>) i (pending_skips s) |>) \/
      ((o = SkipAccepted -> sk_matched p = true) /\
       exists h', settles id o (pending_history s) h' /\
         finish_skip s id o = s <| pending_history := h' |>
                                <| pending_skips := delete i (pending_skips s) |>))).
Proof.
  unfold finish_skip. destruct (position _ _) as [i|] eqn:E; [right|left].
  - apply position_Some in E as (p & Hi & Hp%bool_decide_eq_true_1). exists i, p.
    split_ands; [done..|]. rewrite Hi. simpl.
    destruct (resolve_history_skip_spec s id o) as (h' & Hs & ->).
    case_bool_decide; simpl; [destruct (sk_matched p) eqn:Em; simpl|].
    2: by left.
    all: right; (split; [try done|]); exists h'; (split; [done|by destruct s]).
  - split; [done|]. rewrite list_elem_of_fmap. intros (p & -> & Hp).
    pose proof (position_None _ _ E p Hp) as Hf. simpl in Hf.
    by apply bool_decide_eq_false_1 in Hf.
Qed.

Lemma finish_skip_latest s id o p :
  latest (finish_skip s id o) p = latest s p /\
  last_history_id (finish_skip s id o) = last_history_id s.
Proof.
  destruct (finish_skip_spec s id o) as [[-> _]|(i & q & _ & _ & [(_ & _ & ->)|(_ & h' & _ & ->)])];
    destruct s; by destruct p.
Qed.

Lemma reject_skips_latest s ids p :
  latest (reject_skips s ids) p = latest s p /\
  last_history_id (reject_skips s ids) = last_history_id s.
Proof.
  revert s. induction ids as [|id ids IH]; intros s; [done|]. simpl.
  destruct (IH (finish_skip s id SkipRejected)) as [-> ->]. apply finish_skip_latest.
Qed.

Lemma classify_valid previous current skip k :
  classify_transition previous current skip = Some k ->
  valid_for_state k (s_state current) = true /\ (k = KSkip -> skip = true).
Proof.
  unfold classify_transition. destruct (s_state current), previous as [previous|]; simpl; intros H;
    repeat (case_match_in H; try discriminate H); try (injection H as <-);
    repeat case_match_goal; (split; [try done|]); intros; prop_bools; simplify_eq; done.
Qed.

(** ** What the tracker knows of each transition

    [issued] and [accepted] say which skips were asked for and which of them
    the provider accepted, [admitted] which snapshots were observed. *)
Section Justified.
Context (issued : LifecycleId -> Z -> Prop) (accepted : LifecycleId -> Prop)
  (admitted : MusicSnapshot -> Prop).

Definition asked_before (id : LifecycleId) (observed_at : Z) : Prop :=
  exists issued_at, issued id issued_at /\ issued_at <= observed_at.

Definition skip_justified (p : PendingSkip) : Prop :=
  issued (sk_transport_id p) (sk_issued_at p) /\
  match sk_outcome p with
  | SkipAccepted => accepted (sk_transport_id p)
  | SkipPending => True
  | SkipRejected => False
  end.

Definition kind_justified (snapshot : MusicSnapshot) (k : MusicRideEventKind) : Prop :=
  valid_for_state k (s_state snapshot) = true /\
  (k = KSkip -> exists id, asked_before id (s_observed_at snapshot) /\ accepted id).

Definition transition_justified (p : PendingHistoryTransition) : Prop :=
  admitted (ph_snapshot p) /\
  match ph_kind p with
  | Confirmed k => kind_justified (ph_snapshot p) k
  | AwaitingSkip id rejected =>
      asked_before id (s_observed_at (ph_snapshot p)) /\
      valid_for_state KSkip (s_state (ph_snapshot p)) = true /\
      (forall k, rejected = Some k -> k <> KSkip /\ kind_justified (ph_snapshot p) k)
  end.

Record tracker_justified (s : MusicObservationTracker) : Prop := {
  tj_skips : Forall skip_justified (pending_skips s);
  tj_history : Forall transition_justified (pending_history s);
  tj_latest : forall p snapshot, latest s p = Some snapshot -> s_provider snapshot = p;
}.

Lemma settles_justified id o h h' :
  (o = SkipAccepted -> accepted id) -> settles id o h h' ->
  Forall transition_justified h -> Forall transition_justified h'.
Proof.
  intros Ha [[-> _]|(i & p & rejected & Hi & Hk & Hs)] Hh; [done|].
  destruct Hs as [(k & Hk' & ->)|(_ & _ & ->)]; [|by apply Forall_delete].
  apply Forall_alter; [done|]. intros q Hq [Hadm Hq']. assert (q = p) as -> by congruence.
  rewrite Hk in Hq'. destruct Hq' as (Hask & Hv & Hrej). destruct p; simpl in *.
  split; [done|]. destruct Hk' as [[-> ->]|[_ ->]]; [|by apply Hrej].
  split; [done|]. intros _. exists id. auto.
Qed.

Lemma finish_skip_justified s id o :
  (o = SkipAccepted -> accepted id) -> tracker_justified s ->
  tracker_justified (finish_skip s id o).
Proof.
  intros Ha [Hskips Hhist Hlatest].
  assert (Hl : forall p snapshot, latest (finish_skip s id o) p = Some snapshot ->
                 s_provider snapshot = p).
  { intros p snapshot. destruct (finish_skip_latest s id o p) as [-> _]. apply Hlatest. }
  destruct (finish_skip_spec s id o)
    as [[E _]|(i & q & Hi & Hid & [(-> & _ & E)|(_ & h' & Hs & E)])]; rewrite E in *.
  - by split.
  - split; [|by destruct s|done]. destruct s; simpl in *. apply Forall_alter; [done|].
    intros q' Hq' [Hiss _]. assert (q' = q) as -> by congruence.
    destruct q; simpl in *. split; [done|]. simpl. rewrite Hid. by apply Ha.
  - apply (settles_justified id o _ h' Ha) in Hhist; [|done].
    destruct s; split; simpl in *; [by apply Forall_delete|done|done].
Qed.

Lemma reject_skips_justified s ids :
  tracker_justified s -> tracker_justified (reject_skips s ids).
Proof.
  revert s. induction ids as [|id ids IH]; intros s Hs; [done|]. simpl.
  apply IH, finish_skip_justified; [done|done].
Qed.

(** The index an observation may match: a skip asked for before it. *)
Definition matchable (s : MusicObservationTracker) (snapshot : MusicSnapshot)
    (skip_index : option nat) : Prop :=
  forall i, skip_index = Some i ->
  exists p, pending_skips s !! i = Some p /\ sk_issued_at p <= s_observed_at snapshot.

Lemma enqueue_justified s snapshot timing transition rejected skip_index :
  admitted snapshot -> matchable s snapshot skip_index ->
  (forall k, transition = Some k -> valid_for_state k (s_state snapshot) = true) ->
  (forall k, rejected = Some k -> k <> KSkip /\ valid_for_state k (s_state snapshot) = true) ->
  tracker_justified s ->
  tracker_justified
    (enqueue_observation_transition s snapshot timing transition rejected skip_index).
Proof.
  intros Hadm Hm Htr Hrej [Hskips Hhist Hlatest]. unfold enqueue_observation_transition.
  destruct transition as [k|]; [|by split]. specialize (Htr k eq_refl).
  assert (Hkind : exists skips o,
    enqueue_kind s k rejected skip_index = (s <| pending_skips := skips |>, o) /\
    Forall skip_justified skips /\
    forall kind, o = Some kind -> forall id, transition_justified
      {| ph_id := id; ph_snapshot := snapshot; ph_kind := kind; ph_timing := timing |}).
  { unfold enqueue_kind. case_bool_decide as Hk.
    2:{ exists (pending_skips s), (Some (Confirmed k)). split_ands; [by destruct s|done|].
        intros kind [= <-] id. split; [done|]. by split. }
    subst k. destruct skip_index as [i|].
    2:{ exists (pending_skips s), None. split_ands; [by destruct s|done|done]. }
    destruct (Hm i eq_refl) as (p & Hi & Hle). rewrite Hi. eexists _, _. split; [reflexivity|].
    pose proof (Forall_lookup_1 _ _ _ _ Hskips Hi) as [Hiss Hout]. split.
    - apply Forall_alter; [done|]. intros q Hq Hj. by destruct q.
    - intros kind Hkind id. split; [done|]. destruct (sk_outcome p); simplify_eq; simpl.
      + split_ands; [by eexists|done|]. intros k Hk. destruct (Hrej k Hk). by split.
      + split; [done|]. intros _. eexists. split; [by eexists|done]. }
  destruct Hkind as (skips & o & -> & Hskips' & Ho).
  destruct o as [kind|]; [|split; by destruct s]. unfold id_next.
  destruct (checked_add _ _ _) as [id|]; [|split; by destruct s].
  specialize (Ho kind eq_refl id). destruct s; simpl in *.
  assert (Hh : Forall transition_justified (pending_history0 ++
    [{| ph_id := id; ph_snapshot := snapshot; ph_kind := kind; ph_timing := timing |}]))
    by (by apply Forall_app_2; [|constructor]).
  destruct skip_index as [i|]; simpl; [|by split]. case_match_goal; [|by split].
  split; [by apply Forall_delete|done|done].
Qed.

Lemma resolve_unchanged_justified s snapshot skip_index transition :
  tracker_justified s -> tracker_justified (resolve_unchanged_skip s snapshot skip_index transition).
Proof.
  intros Hj. unfold resolve_unchanged_skip. destruct skip_index as [i|]; [|done].
  case_bool_decide; [done|]. destruct (pending_skips s !! i) as [p|] eqn:Hi; [|done].
  case_match_goal; [by apply finish_skip_justified|].
  set (s1 := s <| pending_skips := _ |>).
  assert (Hj1 : tracker_justified s1).
  { destruct Hj as [Hskips Hhist Hlatest]. subst s1. destruct s; split; simpl in *; try done.
    apply Forall_alter; [done|]. intros q Hq Hq'. by destruct q. }
  case_bool_decide; [by apply finish_skip_justified|done].
Qed.

Lemma matchable_position s snapshot :
  matchable s snapshot (position (fun p => negb (sk_matched p)
    && applies_at p (s_observed_at snapshot)) (pending_skips s)).
Proof.
  intros i (p & Hi & Hp%andb_true_iff)%position_Some. exists p. split; [done|].
  by destruct Hp as [_ Hp%bool_decide_eq_true_1].
Qed.

Lemma observe_justified s snapshot timing :
  admitted snapshot -> tracker_justified s -> tracker_justified (observe s snapshot timing).1.
Proof.
  intros Hadm Hj. unfold observe.
  destruct (match latest s (s_provider snapshot) with Some _ => _ | None => _ end); [done|].
  assert (Hj1 : tracker_justified (expire_skips s (s_observed_at snapshot)))
    by by apply reject_skips_justified.
  set (s1 := expire_skips s (s_observed_at snapshot)) in *.
  pose proof (matchable_position s1 snapshot) as Hm.
  set (index := position _ (pending_skips s1)) in *. cbv zeta.
  case_match_goal; [done|]. cbn [fst].
  assert (Hj2 : tracker_justified (enqueue_observation_transition s1 snapshot timing
    (classify_transition (latest s (s_provider snapshot)) snapshot (bool_decide (is_Some index)))
    (if bool_decide (is_Some index)
     then classify_transition (latest s (s_provider snapshot)) snapshot false else None) index)).
  { apply enqueue_justified; try done.
    - intros k Hk. by apply classify_valid in Hk as [? _].
    - intros k Hk. case_bool_decide; [|done]. apply classify_valid in Hk as [? Hs].
      split; [|done]. intros ->. by specialize (Hs eq_refl). }
  set (s2 := enqueue_observation_transition _ _ _ _ _ _) in *.
  apply resolve_unchanged_justified with (snapshot := snapshot) (skip_index := index)
    (transition := classify_transition (latest s (s_provider snapshot)) snapshot
                     (bool_decide (is_Some index))) in Hj2.
  set (s3 := resolve_unchanged_skip _ _ _ _) in *.
  destruct Hj2 as [Hskips Hhist Hlatest]. unfold replace_latest.
  destruct (s_provider snapshot) eqn:Ep; split; destruct s3; simpl in *; try done;
    intros p0 snap0; specialize (Hlatest p0 snap0); destruct p0; simpl in *; intros; simplify_eq;
    auto.
Qed.

Lemma reset_observations_justified s :
  tracker_justified s -> tracker_justified (reset_observations s).
Proof. intros [? ? ?]. split; destruct s; simpl in *; try done. by intros []. Qed.

Lemma forget_history_justified s :
  tracker_justified s -> tracker_justified (s <| pending_history := [] |>).
Proof. intros [? ? ?]. split; destruct s; simpl in *; try done. Qed.

Lemma tracker_reset_justified s : tracker_justified s -> tracker_justified (tracker_reset s).
Proof.
  intros Hj. unfold tracker_reset.
  by apply forget_history_justified, reject_skips_justified, reset_observations_justified.
Qed.

Lemma tracker_step_justified s c :
  match c with
  | IssueSkip id t => issued id t
  | FinishSkip id SkipAccepted => accepted id
  | Observe snapshot _ => admitted snapshot
  | _ => True
  end ->
  tracker_justified s -> tracker_justified (tracker_step s c).1.
Proof.
  intros Hc Hj. destruct c as [id t|id o|snapshot timing|id| | | |]; simpl.
  - destruct Hj as [Hskips ? ?]. split; destruct s; simpl in *; try done.
    apply Forall_app_2; [done|]. constructor; [by split|constructor].
  - apply finish_skip_justified; [|done]. by intros ->.
  - by apply observe_justified.
  - unfold acknowledge_history_transition. destruct s as [a b c sk [|p h] last]; [done|]. simpl.
    destruct (_ || _); [done|]. destruct Hj as [Hskips Hh Hl].
    apply Forall_cons in Hh as [_ Hh]. split; [exact Hskips|exact Hh|exact Hl].
  - by apply tracker_reset_justified, forget_history_justified.
  - by apply tracker_reset_justified.
  - by apply reject_skips_justified.
  - by apply reset_observations_justified.
Qed.
End Justified.

Lemma tracker_justified_mono (i i' : LifecycleId -> Z -> Prop) (a a' : LifecycleId -> Prop)
    (adm : MusicSnapshot -> Prop) s :
  (forall id t, i id t -> i' id t) -> (forall id, a id -> a' id) ->
  tracker_justified i a adm s -> tracker_justified i' a' adm s.
Proof.
  intros Hi Ha [Hs Hh Hl]. split; [| |done].
  - eapply Forall_impl; [exact Hs|]. intros p [H1 H2]. split; [auto|].
    destruct (sk_outcome p); auto.
  - assert (Hask : forall id t, asked_before i id t -> asked_before i' id t)
      by (intros id t (u & ? & ?); exists u; auto).
    assert (Hkind : forall snap k, kind_justified i a snap k -> kind_justified i' a' snap k)
      by (intros snap k [? Hk]; split; [done|]; intros E; destruct (Hk E) as (id & ? & ?); eauto).
    eapply Forall_impl; [exact Hh|]. intros p [H1 H2]. split; [done|].
    destruct (ph_kind p); [auto|]. destruct H2 as (H2 & H3 & H4). split_ands; auto.
    intros k Hk. destruct (H4 k Hk). auto.
Qed.

(** ** Order of the history *)

Definition history_ids (s : MusicObservationTracker) : list LifecycleId :=
  ph_id <$> pending_history s.

(** Identities [l] were issued after [low], the newest being [high]. *)
Definition ids_between (low high : LifecycleId) (l : list LifecycleId) : Prop :=
  StronglySorted Z.lt l /\ Forall (fun id => low < id <= high) l /\ low <= high /\
  Z.of_nat (length l) <= MAX_MUSIC_TIMELINE_EVENTS.

Definition tracker_ordered (low : LifecycleId) (s : MusicObservationTracker) : Prop :=
  ids_between low (last_history_id s) (history_ids s).

Lemma ids_between_sublist low high l l' :
  l `sublist_of` l' -> ids_between low high l' -> ids_between low high l.
Proof.
  intros Hl (Hs & Hf & Hle & Hlen). unfold ids_between. split_ands; [| |done|].
  - by eapply StronglySorted_sublist.
  - by eapply Forall_sublist.
  - apply sublist_length in Hl. lia.
Qed.

Lemma settles_sublist id o h h' : settles id o h h' -> (ph_id <$> h') `sublist_of` (ph_id <$> h).
Proof.
  intros [[-> _]|(i & p & rejected & Hi & _ & [(k & _ & ->)|(_ & _ & ->)])]; [done| |].
  - rewrite (list_fmap_alter _ _ (fun x => x)); [|by apply Forall_true; intros []].
    by rewrite list_alter_id.
  - rewrite list_fmap_delete. apply sublist_delete.
Qed.

Lemma finish_skip_sublist s id o : history_ids (finish_skip s id o) `sublist_of` history_ids s.
Proof.
  unfold history_ids.
  destruct (finish_skip_spec s id o) as [[-> _]|(i & q & _ & _ & [(_ & _ & ->)|(_ & h' & Hs & ->)])];
    [done|by destruct s|]. apply settles_sublist in Hs. by destruct s.
Qed.

Lemma finish_skip_ordered low s id o :
  tracker_ordered low s -> tracker_ordered low (finish_skip s id o).
Proof.
  unfold tracker_ordered. destruct (finish_skip_latest s id o AppleMusic) as [_ ->].
  apply ids_between_sublist, finish_skip_sublist.
Qed.

Lemma reject_skips_ordered low s ids :
  tracker_ordered low s -> tracker_ordered low (reject_skips s ids).
Proof.
  revert s. induction ids as [|id ids IH]; intros s Hs; [done|]. by apply IH, finish_skip_ordered.
Qed.

Lemma enqueue_ordered low s snapshot timing transition rejected skip_index :
  (is_Some transition -> Z.of_nat (length (pending_history s)) < MAX_MUSIC_TIMELINE_EVENTS) ->
  tracker_ordered low s ->
  tracker_ordered low
    (enqueue_observation_transition s snapshot timing transition rejected skip_index).
Proof.
  intros Hroom Ho. unfold enqueue_observation_transition. destruct transition as [k|]; [|done].
  specialize (Hroom ltac:(eauto)).
  assert (Hk : exists skips o,
    enqueue_kind s k rejected skip_index = (s <| pending_skips := skips |>, o)).
  { assert (Hs : s = s <| pending_skips := pending_skips s |>) by by destruct s.
    unfold enqueue_kind. case_bool_decide; [destruct skip_index as [i|]|].
    1: destruct (pending_skips s !! i).
    all: do 2 eexists; (reflexivity || (f_equal; exact Hs)). }
  destruct Hk as (skips & o & ->). destruct o as [kind|]; [|by destruct s].
  unfold id_next. destruct (checked_add _ _ _) as [id|] eqn:Hid; [|by destruct s].
  apply checked_add_Some in Hid as [_ Hid]. destruct s as [a b c sk h last]. simpl in *. subst id.
  destruct Ho as (Hs & Hf & Hle & Hlen). simpl in *.
  assert (Hn : ids_between low (last + 1) (ph_id <$> (h ++ [{| ph_id := last + 1;
    ph_snapshot := snapshot; ph_kind := kind; ph_timing := timing |}]))).
  { rewrite fmap_app. unfold ids_between. simpl. split_ands; [| |lia|].
    - apply StronglySorted_snoc; [done|]. eapply Forall_impl; [exact Hf|]. simpl. lia.
    - apply Forall_app. split; [eapply Forall_impl; [exact Hf|]; simpl; lia|].
      constructor; [lia|constructor].
    - rewrite length_app, length_fmap. simpl. lia. }
  destruct skip_index as [i|]; simpl; [|done]. by case_match_goal.
Qed.

Lemma resolve_unchanged_ordered low s snapshot skip_index transition :
  tracker_ordered low s ->
  tracker_ordered low (resolve_unchanged_skip s snapshot skip_index transition).
Proof.
  intros Ho. unfold resolve_unchanged_skip. destruct skip_index as [i|]; [|done].
  case_bool_decide; [done|]. destruct (pending_skips s !! i) as [p|]; [|done].
  case_match_goal; [by apply finish_skip_ordered|].
  case_bool_decide; [apply finish_skip_ordered|]; by destruct s.
Qed.

Lemma observe_ordered low s snapshot timing :
  tracker_ordered low s -> tracker_ordered low (observe s snapshot timing).1.
Proof.
  intros Ho. unfold observe.
  destruct (match latest s (s_provider snapshot) with Some _ => _ | None => _ end); [done|].
  assert (Ho1 : tracker_ordered low (expire_skips s (s_observed_at snapshot)))
    by by apply reject_skips_ordered.
  set (s1 := expire_skips s (s_observed_at snapshot)) in *. cbv zeta.
  destruct (bool_decide (is_Some _) && bool_decide (MAX_MUSIC_TIMELINE_EVENTS <= _)) eqn:E; [done|].
  cbn [fst]. apply andb_false_iff in E.
  assert (Ho2 : forall s3, tracker_ordered low s3 -> tracker_ordered low (replace_latest s3 snapshot)).
  { intros s3. unfold replace_latest. by destruct (s_provider snapshot), s3. }
  apply Ho2, resolve_unchanged_ordered, enqueue_ordered; [|done].
  intros Hsome. destruct E as [E|E]; apply bool_decide_eq_false_1 in E; [done|lia].
Qed.

Lemma tracker_reset_ordered low s : tracker_ordered low s -> tracker_ordered low (tracker_reset s).
Proof.
  intros Ho. unfold tracker_reset.
  assert (H : tracker_ordered low (clear_pending_skips (reset_observations s)))
    by (apply reject_skips_ordered; by destruct s).
  destruct (clear_pending_skips (reset_observations s)). destruct H as (_ & _ & Hle & Hlen).
  unfold tracker_ordered, ids_between. split_ands; simpl in *;
    [constructor|constructor|done|vm_compute; done].
Qed.

(** The identity a call hands over to the durable history, if it does. *)
Definition acknowledged (c : TrackerCall) (r : TrackerReply) : list LifecycleId :=
  match c, r with
  | Acknowledge id, AcknowledgeReply Acknowledged => [id]
  | _, _ => []
  end.
Definition acknowledgements (s : MusicObservationTracker) (calls : list TrackerCall)
  : list LifecycleId :=
  concat (zip_with acknowledged calls (run_outputs tracker_step s calls)).

Lemma tracker_step_ordered low s c :
  tracker_ordered low s ->
  match acknowledged c (tracker_step s c).2 with
  | id :: _ => low < id /\ tracker_ordered id (tracker_step s c).1 /\
               ht_id <$> current_history_transition s = Some id
  | [] => tracker_ordered low (tracker_step s c).1
  end.
Proof.
  intros Ho. destruct c as [id t|id o|snapshot timing|id| | | |]; simpl.
  - by destruct s.
  - by apply finish_skip_ordered.
  - by apply observe_ordered.
  - unfold acknowledge_history_transition, current_history_transition.
    destruct s as [a b c sk [|p h] last]; simpl; [done|].
    case_bool_decide as Hid; simpl; [|done]. destruct (ph_kind p); simpl; [|done].
    unfold tracker_ordered, ids_between, history_ids in *.
    cbn [pending_history last_history_id] in Ho. rewrite fmap_cons, length_cons in Ho.
    destruct Ho as (Hs & [Hp Hf]%Forall_cons & _ & Hlen). subst id.
    apply StronglySorted_inv in Hs as [Hs Hlt].
    split_ands; [lia|exact Hs| |simpl; lia|cbn [pending_history]; lia|done].
    rewrite Forall_forall in *. intros x Hx. specialize (Hlt x Hx). specialize (Hf x Hx).
    simpl in *. lia.
  - apply tracker_reset_ordered. destruct s, Ho as (_ & _ & ? & _).
    unfold tracker_ordered, ids_between. split_ands; simpl in *;
      [constructor|constructor|done|vm_compute; done].
  - by apply tracker_reset_ordered.
  - by apply reject_skips_ordered.
  - by destruct s.
Qed.

Lemma acknowledgements_cons s c calls :
  acknowledgements s (c :: calls) =
    acknowledged c (tracker_step s c).2 ++ acknowledgements (tracker_step s c).1 calls.
Proof. unfold acknowledgements. rewrite run_outputs_cons. done. Qed.

Lemma acknowledgements_ordered low s calls :
  tracker_ordered low s ->
  StronglySorted Z.lt (acknowledgements s calls) /\
  Forall (Z.lt low) (acknowledgements s calls) /\
  exists low', Forall (fun id => id <= low') (low :: acknowledgements s calls) /\
    tracker_ordered low' (run_state tracker_step s calls).
Proof.
  revert low s. induction calls as [|c calls IH]; intros low s Ho.
  - split_ands; [constructor|constructor|]. exists low. split; [by repeat constructor|done].
  - rewrite acknowledgements_cons, run_state_cons. pose proof (tracker_step_ordered low s c Ho) as H.
    assert (Hone : acknowledged c (tracker_step s c).2 = [] \/
                   exists id, acknowledged c (tracker_step s c).2 = [id]).
    { destruct c; simpl; auto. case_match_goal; eauto. }
    destruct Hone as [E|[id E]]; rewrite E in *; [by apply IH|]. destruct H as (Hlt & Ho' & _).
    destruct (IH id _ Ho') as (Hs & Hf & low' & [Hid Hf']%Forall_cons & Ho'').
    split_ands; [by constructor| |].
    + constructor; [done|]. eapply Forall_impl; [exact Hf|]. simpl. lia.
    + exists low'. split; [|done]. constructor; [lia|]. by constructor.
Qed.

(** History is handed over once and in order.  Whatever is observed,
    commanded, reset or acknowledged, the transitions the durable history
    acknowledges have strictly increasing identities, so that none is taken
    twice or behind a later one; those still waiting come after all of them,
    in order, and are never more than 512. *)
Theorem history_acknowledged_in_order calls :
  let s := run_state tracker_step tracker_new calls in
  let handed := acknowledgements tracker_new calls in
  StronglySorted Z.lt (handed ++ history_ids s) /\
  Z.of_nat (length (pending_history s)) <= MAX_MUSIC_TIMELINE_EVENTS.
Proof.
  intros s handed.
  assert (H0 : tracker_ordered 0 tracker_new)
    by (unfold tracker_ordered, ids_between; split_ands; constructor || done).
  destruct (acknowledgements_ordered 0 tracker_new calls H0)
    as (Hs & _ & low & [_ Hf]%Forall_cons & Hs' & Hf' & _ & Hlen).
  fold s handed in Hs, Hf, Hs', Hf', Hlen. unfold history_ids in Hlen. rewrite length_fmap in Hlen.
  split; [|done]. revert Hs Hf. generalize handed. intros l. induction l as [|x l IH]; [done|].
  intros [Hs Hx]%StronglySorted_inv [Hlow Hf]%Forall_cons. simpl. constructor; [auto|].
  apply Forall_app. split; [done|]. eapply Forall_impl; [exact Hf'|]. simpl. lia.
Qed.

(** ** Delivered transitions are recordable *)

(** The snapshot and its item went through their constructors. *)
Definition snapshot_admitted (snapshot : MusicSnapshot) : Prop :=
  (exists provider session_id state item position observed_at capabilities,
     snapshot_new provider session_id state item position observed_at capabilities = Ok snapshot) /\
  item_admitted snapshot.

Definition observes_admitted (c : TrackerCall) : Prop :=
  match c with Observe snapshot _ => snapshot_admitted snapshot | _ => True end.

Lemma admitted_soundcloud snapshot :
  snapshot_admitted snapshot -> s_provider snapshot = SoundCloud -> s_state snapshot = Unavailable.
Proof.
  intros [(p & sid & st & item & pos & at_ & caps & H) _] Hp. unfold snapshot_new in H.
  case_bool_decide as Hsc; simpl in H.
  - case_match_in H; [done|]. apply orb_false_iff in Heqb as [Heqb _].
    repeat apply orb_false_iff in Heqb as [Heqb _].
    apply negb_false_iff, bool_decide_eq_true_1 in Heqb.
    apply result_bind_Ok in H as (? & _ & [= <-]). done.
  - apply result_bind_Ok in H as (? & _ & [= <-]). simpl in Hp. congruence.
Qed.

Lemma try_from_snapshot_recordable snapshot kind m w u policy :
  snapshot_admitted snapshot -> valid_for_state kind (s_state snapshot) = true ->
  policy <> PolicyDisabled -> s_observed_at snapshot <= m ->
  exists e, try_from_snapshot snapshot kind m w u policy = Ok (Some e) /\
    e_kind e = kind /\ e_provider e = s_provider snapshot /\
    e_observed_at e = Some (s_observed_at snapshot).
Proof.
  intros Hadm Hv Hpol Hm.
  assert (Hsc : s_provider snapshot <> SoundCloud).
  { intros Hp. rewrite (admitted_soundcloud _ Hadm Hp) in Hv. by destruct kind. }
  assert (Hstale : s_state snapshot <> StaleState) by (intros E; rewrite E in Hv; by destruct kind).
  unfold try_from_snapshot. rewrite (bool_decide_eq_false_2 (policy = _)) by done.
  rewrite (bool_decide_eq_false_2 (s_state snapshot = _)) by done. rewrite Hv. simpl.
  unfold event_new. rewrite (bool_decide_eq_false_2 (s_provider snapshot = _)) by done. simpl.
  rewrite (bool_decide_eq_false_2 (m < _)) by lia.
  destruct Hadm as [_ Hitem]. destruct policy; [done| |]; simpl;
    (destruct (s_item snapshot) as [item|] eqn:Ei; simpl; [|by eexists]);
    destruct (Hitem item Ei) as (v & t & a & Hid%item_new_identifier).
  - destruct (metadata_bearing_identifier _ _); simpl; [by eexists|]. rewrite Hid. by eexists.
  - rewrite Hid. by eexists.
Qed.

(** What is delivered can be recorded.  As long as the platform reports
    snapshots that passed their constructors, every transition the tracker
    delivers, whether classified at once or settled later by the outcome of a
    skip, is a kind its snapshot's state allows: no policy but the disabled
    one drops it or refuses it, and the event recorded has the transition's
    kind, provider and time of observation. *)
Theorem delivered_transitions_recordable calls t monotonic_at wall_clock uncertainty policy :
  Forall observes_admitted calls ->
  current_history_transition (run_state tracker_step tracker_new calls) = Some t ->
  policy <> PolicyDisabled -> s_observed_at (ht_snapshot t) <= monotonic_at ->
  exists e,
    try_from_snapshot (ht_snapshot t) (ht_kind t) monotonic_at wall_clock uncertainty policy
      = Ok (Some e) /\
    e_kind e = ht_kind t /\ e_provider e = s_provider (ht_snapshot t) /\
    e_observed_at e = Some (s_observed_at (ht_snapshot t)).
Proof.
  intros Hcalls Ht Hpol Hm.
  assert (Hj : tracker_justified (fun _ _ => True) (fun _ => True) snapshot_admitted
                 (run_state tracker_step tracker_new calls)).
  { clear -Hcalls. induction calls as [|c calls IH] using rev_ind.
    - split; [constructor|constructor|by intros []].
    - rewrite run_state_snoc. apply Forall_app in Hcalls as [Hcalls [Hc _]%Forall_cons].
      apply tracker_step_justified; [by destruct c as [| |? ?| | | | |]; simpl; try case_match|auto]. }
  destruct Hj as [_ Hh _]. unfold current_history_transition in Ht.
  destruct (pending_history _) as [|p h]; [done|]. apply Forall_cons in Hh as [[Hadm Hk] _].
  destruct (ph_kind p); [|done]. simplify_eq. destruct Hk as [Hv _].
  by apply try_from_snapshot_recordable.
Qed.

(** ** What a transition waits for *)

Definition awaited (p : PendingHistoryTransition) : option LifecycleId :=
  match ph_kind p with AwaitingSkip id _ => Some id | Confirmed _ => None end.
Definition waiting_ids (s : MusicObservationTracker) : list LifecycleId :=
  omap awaited (pending_history s).

(** Every awaited skip is still pending, and every pending skip is [flying]. *)
Record tracker_waits (known flying : LifecycleId -> Prop) (s : MusicObservationTracker) : Prop := {
  tw_skips : NoDup (sk_transport_id <$> pending_skips s);
  tw_known : Forall (fun p => known (sk_transport_id p)) (pending_skips s);
  tw_waiting : NoDup (waiting_ids s);
  tw_awaited : forall id, id ∈ waiting_ids s -> exists p, p ∈ pending_skips s /\
    sk_transport_id p = id /\ sk_matched p = true /\ sk_outcome p = SkipPending;
  tw_flying : forall p, p ∈ pending_skips s -> sk_outcome p = SkipPending ->
    flying (sk_transport_id p);
}.

Lemma tracker_waits_mono (known known' flying flying' : LifecycleId -> Prop) s :
  (forall id, known id -> known' id) -> (forall id, flying id -> flying' id) ->
  tracker_waits known flying s -> tracker_waits known' flying' s.
Proof.
  intros Hk Hf [? Hkn ? ? Hfl]. split; try done.
  - eapply Forall_impl; [exact Hkn|]. auto.
  - intros p Hp Ho. apply Hf. by apply Hfl.
Qed.

Lemma skips_unique (skips : list PendingSkip) p q :
  NoDup (sk_transport_id <$> skips) -> p ∈ skips -> q ∈ skips ->
  sk_transport_id p = sk_transport_id q -> p = q.
Proof.
  induction skips as [|x l IH]; [by intros _ ?%elem_of_nil|]. rewrite fmap_cons, NoDup_cons.
  intros [Hx Hl] Hp Hq E. apply elem_of_cons in Hp as [->|Hp], Hq as [->|Hq]; [done| | |auto].
  - exfalso. apply Hx. rewrite E. by apply list_elem_of_fmap_2.
  - exfalso. apply Hx. rewrite <- E. by apply list_elem_of_fmap_2.
Qed.

Lemma alter_middle {A} (f : A -> A) l1 x l2 :
  alter f (length l1) (l1 ++ x :: l2) = l1 ++ f x :: l2.
Proof. induction l1 as [|y l1 IH]; simpl; [done|]. f_equal. exact IH. Qed.

Lemma lookup_split {A} (l : list A) i x :
  l !! i = Some x -> exists l1 l2, l = l1 ++ x :: l2 /\ i = length l1.
Proof. intros H. apply list_elem_of_split_length in H as (l1 & l2 & -> & ->). eauto. Qed.

(** Once a skip is settled, no transition waits for it any more. *)
Lemma settles_waiting id o h h' :
  o <> SkipPending -> settles id o h h' -> NoDup (omap awaited h) ->
  NoDup (omap awaited h') /\ forall x, x ∈ omap awaited h' <-> x ∈ omap awaited h /\ x <> id.
Proof.
  intros Ho [[-> Hn]|(i & p & rejected & Hi & Hk & Hs)] Hnd.
  - split; [done|]. intros x. split; [|tauto]. intros Hx. split; [done|]. intros ->.
    apply list_elem_of_omap in Hx as (p & Hp & Hw). specialize (Hn Ho).
    rewrite Forall_forall in Hn. specialize (Hn p Hp). unfold awaited, awaits_skip in *.
    destruct (ph_kind p); simplify_eq. by apply bool_decide_eq_false_1 in Hn.
  - apply lookup_split in Hi as (l1 & l2 & -> & ->).
    assert (E : omap awaited h' = omap awaited l1 ++ omap awaited l2).
    { destruct Hs as [(k & _ & ->)|(_ & _ & ->)].
      - rewrite alter_middle, omap_app. by destruct p.
      - by rewrite delete_middle, omap_app. }
    assert (E0 : omap awaited (l1 ++ p :: l2) = omap awaited l1 ++ id :: omap awaited l2)
      by (rewrite omap_app; simpl; unfold awaited at 2; by rewrite Hk).
    rewrite E, E0 in *.
    assert (Hp : omap awaited l1 ++ id :: omap awaited l2 ≡ₚ
                 id :: (omap awaited l1 ++ omap awaited l2)) by (by rewrite Permutation_middle).
    rewrite Hp in Hnd. apply NoDup_cons in Hnd as [Hid Hnd]. split; [done|].
    intros x. rewrite Hp, elem_of_cons. split; [|by intros [[->|?] ?]].
    intros Hx. split; [by right|]. by intros ->.
Qed.

Lemma finish_skip_waits known flying s id o :
  o <> SkipPending -> tracker_waits known flying s ->
  tracker_waits known (fun x => flying x /\ x <> id) (finish_skip s id o).
Proof.
  intros Ho [Hnd Hkn Hwn Haw Hfl].
  destruct (finish_skip_spec s id o)
    as [[-> Hid]|(i & q & Hi & Hq & [(-> & Hm & ->)|(_ & h' & Hs & ->)])].
  - split; try done. intros p Hp Hout. split; [by apply Hfl|]. intros E. apply Hid.
    rewrite <- E. by apply list_elem_of_fmap_2.
  - apply lookup_split in Hi as (l1 & l2 & Hsk & ->). destruct s as [a b c sk h last].
    simpl in *. subst sk. rewrite alter_middle. rewrite fmap_app, fmap_cons in Hnd.
    destruct q as [qid qt qr qo qm]. simpl in *. subst qid qm.
    split; simpl.
    + by rewrite fmap_app, fmap_cons.
    + apply Forall_app in Hkn as [? [? ?]%Forall_cons]. apply Forall_app. split; [done|].
      by constructor.
    + done.
    + intros x Hx. destruct (Haw x Hx) as (p & Hp & Hpx & Hpm & Hpo). exists p.
      split; [|done]. apply elem_of_app in Hp as [?|[->|?]%elem_of_cons];
        [set_solver|discriminate Hpm|set_solver].
    + intros p Hp Hpo.
      assert (Hp' : p ∈ l1 ++ l2).
      { apply elem_of_app in Hp as [?|[->|?]%elem_of_cons]; [set_solver|done|set_solver]. }
      split; [apply Hfl; [set_solver|done]|]. rewrite <- Permutation_middle, NoDup_cons in Hnd.
      destruct Hnd as [Hnin _]. intros E. apply Hnin. rewrite <- E, <- fmap_app.
      by apply list_elem_of_fmap_2.
  - apply lookup_split in Hi as (l1 & l2 & Hsk & ->). destruct s as [a b c sk h last].
    unfold waiting_ids in *. simpl in *. subst sk. rewrite delete_middle.
    destruct (settles_waiting _ _ _ _ Ho Hs Hwn) as [Hwn' Hiff].
    rewrite fmap_app, fmap_cons, <- Permutation_middle, NoDup_cons, <- fmap_app in Hnd.
    destruct Hnd as [Hnin Hnd].
    assert (Hne : forall p, p ∈ l1 ++ l2 -> sk_transport_id p <> id).
    { intros p Hp E. apply Hnin. rewrite Hq, <- E. by apply list_elem_of_fmap_2. }
    split; simpl; [done| |done| |].
    + apply Forall_app in Hkn as [? [_ ?]%Forall_cons]. by apply Forall_app.
    + intros x Hx. apply Hiff in Hx as [Hx Hxid]. destruct (Haw x Hx) as (p & Hp & Hpx & Hrest).
      exists p. split; [|done]. apply elem_of_app in Hp as [?|[->|?]%elem_of_cons];
        [set_solver|congruence|set_solver].
    + intros p Hp Hpo. split; [|auto]. apply Hfl; [set_solver|done].
Qed.

Lemma reject_skips_waits known flying s ids :
  tracker_waits known flying s -> tracker_waits known flying (reject_skips s ids).
Proof.
  revert s. induction ids as [|id ids IH]; intros s Hs; [done|]. simpl. apply IH.
  eapply tracker_waits_mono; [..|apply finish_skip_waits; [|exact Hs]]; [done|by intros ? []|done].
Qed.

Definition unmatched_at (s : MusicObservationTracker) (skip_index : option nat) : Prop :=
  forall i, skip_index = Some i ->
  exists p, pending_skips s !! i = Some p /\ sk_matched p = false.

Lemma unmatched_not_awaited known flying s p :
  tracker_waits known flying s -> p ∈ pending_skips s -> sk_matched p = false ->
  sk_transport_id p ∉ waiting_ids s.
Proof.
  intros Hw Hp Hm Hx. destruct (tw_awaited _ _ _ Hw _ Hx) as (q & Hq & Hid & Hqm & _).
  assert (q = p) as -> by (eapply skips_unique; [apply Hw|done..]). congruence.
Qed.

(** Changing a skip that nothing waits for, or only its countdown. *)
Lemma alter_skip_waits known flying s i p f :
  tracker_waits known flying s -> pending_skips s !! i = Some p ->
  sk_transport_id (f p) = sk_transport_id p -> sk_outcome (f p) = sk_outcome p ->
  (sk_matched p = true -> sk_matched (f p) = true) ->
  tracker_waits known flying (s <| pending_skips := alter f i (pending_skips s) |>).
Proof.
  intros [Hnd Hkn Hwn Haw Hfl] Hi Hfid Hfo Hfm. apply lookup_split in Hi as (l1 & l2 & Hsk & ->).
  destruct s as [a b c sk h last]. simpl in *. subst sk. rewrite alter_middle.
  split; simpl; [| |done| |].
  - rewrite fmap_app, fmap_cons in *. by rewrite Hfid.
  - apply Forall_app in Hkn as [? [? ?]%Forall_cons]. apply Forall_app. split; [done|].
    constructor; [by rewrite Hfid|done].
  - intros x Hx. destruct (Haw x Hx) as (q & Hq & Hqid & Hqm & Hqo).
    apply elem_of_app in Hq as [?|[->|?]%elem_of_cons]; [exists q; set_solver| |exists q; set_solver].
    exists (f p). split; [set_solver|]. rewrite Hfid, Hfo. auto.
  - intros q Hq Hqo. apply elem_of_app in Hq as [?|[->|?]%elem_of_cons];
      [apply Hfl; set_solver| |apply Hfl; set_solver].
    rewrite Hfid. apply Hfl; [set_solver|]. by rewrite <- Hfo.
Qed.

(** Dropping a skip whose command has already been accepted. *)
Lemma delete_accepted_waits known flying s i p :
  tracker_waits known flying s -> pending_skips s !! i = Some p -> sk_outcome p = SkipAccepted ->
  tracker_waits known flying (s <| pending_skips := delete i (pending_skips s) |>).
Proof.
  intros [Hnd Hkn Hwn Haw Hfl] Hi Ho. apply lookup_split in Hi as (l1 & l2 & Hsk & ->).
  destruct s as [a b c sk h last]. simpl in *. subst sk. rewrite delete_middle.
  split; simpl; [| |done| |].
  - rewrite fmap_app, fmap_cons, <- Permutation_middle, NoDup_cons, <- fmap_app in Hnd. apply Hnd.
  - apply Forall_app in Hkn as [? [_ ?]%Forall_cons]. by apply Forall_app.
  - intros x Hx. destruct (Haw x Hx) as (q & Hq & Hqid & Hqm & Hqo). exists q. split; [|done].
    apply elem_of_app in Hq as [?|[->|?]%elem_of_cons]; [set_solver|congruence|set_solver].
  - intros q Hq Hqo. apply Hfl; [set_solver|done].
Qed.

(** Queueing a transition: confirmed, or waiting for a skip that has just been
    matched by it. *)
Lemma push_history_waits known flying s p :
  tracker_waits known flying s ->
  (forall id, awaited p = Some id -> id ∉ waiting_ids s /\ exists q, q ∈ pending_skips s /\
     sk_transport_id q = id /\ sk_matched q = true /\ sk_outcome q = SkipPending) ->
  tracker_waits known flying
    (s <| last_history_id := ph_id p |> <| pending_history := pending_history s ++ [p] |>).
Proof.
  intros [Hnd Hkn Hwn Haw Hfl] Hp. destruct s as [a b c sk h last]. unfold waiting_ids in *.
  simpl in *.
  assert (E : omap awaited (h ++ [p]) = omap awaited h ++ option_list (awaited p))
    by (rewrite omap_app; simpl; by destruct (awaited p)).
  split; simpl; try done; unfold waiting_ids; simpl; rewrite E.
  - destruct (awaited p) as [id|]; simpl; [|by rewrite app_nil_r].
    destruct (Hp id eq_refl) as [Hnew _]. apply NoDup_app. split_ands; [done| |apply NoDup_singleton].
    intros x Hx ->%list_elem_of_singleton. done.
  - intros x [Hx|Hx]%elem_of_app; [by apply Haw|].
    destruct (awaited p) as [id|]; simpl in Hx; [|by apply elem_of_nil in Hx].
    apply list_elem_of_singleton in Hx as ->. by apply Hp.
Qed.

Lemma enqueue_waits known flying s snapshot timing transition rejected skip_index :
  unmatched_at s skip_index -> tracker_waits known flying s ->
  tracker_waits known flying
    (enqueue_observation_transition s snapshot timing transition rejected skip_index).
Proof.
  intros Hu Hw. unfold enqueue_observation_transition, enqueue_kind.
  destruct transition as [k|]; [|done]. case_bool_decide as Hk.
  2:{ destruct (id_next _) as [id|]; [|done]. destruct skip_index as [i|];
        by apply (push_history_waits known flying s
          {| ph_id := id; ph_snapshot := snapshot; ph_kind := Confirmed k; ph_timing := timing |}). }
  destruct skip_index as [i|]; [|done]. destruct (Hu i eq_refl) as (p & Hi & Hm). rewrite Hi.
  pose proof (list_elem_of_lookup_2 _ _ _ Hi) as Hp.
  pose proof (unmatched_not_awaited _ _ _ _ Hw Hp Hm) as Hnew.
  set (f := fun q => q <| sk_matched := true |>).
  assert (Hfp : sk_transport_id (f p) = sk_transport_id p /\ sk_outcome (f p) = sk_outcome p /\
                sk_matched (f p) = true) by (by destruct p).
  destruct Hfp as (Hf1 & Hf2 & Hf3).
  pose proof (alter_skip_waits _ _ _ _ _ f Hw Hi Hf1 Hf2 (fun _ => Hf3)) as Hw1.
  set (s1 := s <| pending_skips := alter f i (pending_skips s) |>) in *.
  assert (Hi1 : pending_skips s1 !! i = Some (f p))
    by (subst s1; destruct s; simpl in *; by rewrite list_lookup_alter_eq, Hi).
  assert (Hnew1 : sk_transport_id p ∉ waiting_ids s1) by (subst s1; by destruct s).
  clearbody s1. destruct (sk_outcome p) eqn:Ho; [..|done].
  - destruct (id_next _) as [id|]; [|done].
    rewrite (bool_decide_eq_false_2 (_ = Some SkipAccepted)), andb_false_r.
    2:{ destruct s1; simpl in *. rewrite Hi1. simpl. congruence. }
    apply (push_history_waits known flying s1 {| ph_id := id; ph_snapshot := snapshot;
      ph_kind := AwaitingSkip (sk_transport_id p) rejected; ph_timing := timing |}); [done|].
    intros x [= <-]. split; [done|]. exists (f p). split_ands; try congruence.
    by eapply list_elem_of_lookup_2.
  - destruct (id_next _) as [id|]; [|done].
    pose proof (push_history_waits known flying s1 {| ph_id := id; ph_snapshot := snapshot;
      ph_kind := Confirmed k; ph_timing := timing |} Hw1 ltac:(done)) as Hw2.
    rewrite andb_true_l, bool_decide_eq_true_2.
    2:{ destruct s1; simpl in *. rewrite Hi1. simpl. congruence. }
    eapply delete_accepted_waits; [exact Hw2| |exact Hf2]. by destruct s1.
Qed.

Lemma resolve_unchanged_waits known flying s snapshot skip_index transition :
  tracker_waits known flying s ->
  tracker_waits known flying (resolve_unchanged_skip s snapshot skip_index transition).
Proof.
  intros Hw. unfold resolve_unchanged_skip. destruct skip_index as [i|]; [|done].
  case_bool_decide; [done|]. destruct (pending_skips s !! i) as [p|] eqn:Hi; [|done].
  assert (Hfin : forall s1 id, tracker_waits known flying s1 ->
            tracker_waits known flying (finish_skip s1 id SkipRejected))
    by (intros s1 id Hs1; apply (reject_skips_waits known flying s1 [id] Hs1)).
  case_match_goal; [by apply Hfin|].
  assert (Hw1 := fun f => alter_skip_waits _ _ _ _ _ f Hw Hi).
  case_bool_decide; [apply Hfin|]; apply Hw1; by destruct p.
Qed.

Lemma observe_waits known flying s snapshot timing :
  tracker_waits known flying s -> tracker_waits known flying (observe s snapshot timing).1.
Proof.
  intros Hw. unfold observe.
  destruct (match latest s (s_provider snapshot) with Some _ => _ | None => _ end); [done|].
  assert (Hw1 : tracker_waits known flying (expire_skips s (s_observed_at snapshot)))
    by by apply reject_skips_waits.
  set (s1 := expire_skips s (s_observed_at snapshot)) in *. cbv zeta.
  destruct (bool_decide (is_Some _) && bool_decide (MAX_MUSIC_TIMELINE_EVENTS <= _)); [done|].
  cbn [fst].
  assert (Hrep : forall s3, tracker_waits known flying s3 ->
                   tracker_waits known flying (replace_latest s3 snapshot)).
  { intros s3 []. unfold replace_latest. by destruct (s_provider snapshot), s3. }
  apply Hrep, resolve_unchanged_waits, enqueue_waits; [|done].
  intros i (p & Hi & [Hp _]%andb_true_iff)%position_Some. exists p. split; [done|].
  by apply negb_true_iff in Hp.
Qed.

Lemma forget_history_waits known flying s :
  tracker_waits known flying s -> tracker_waits known flying (s <| pending_history := [] |>).
Proof.
  intros [? ? _ _ ?]. destruct s. split; simpl in *; try done; [constructor|].
  by intros ? ?%elem_of_nil.
Qed.

Lemma reset_observations_waits known flying s :
  tracker_waits known flying s -> tracker_waits known flying (reset_observations s).
Proof. intros []. by destruct s. Qed.

Lemma tracker_reset_waits known flying s :
  tracker_waits known flying s -> tracker_waits known flying (tracker_reset s).
Proof.
  intros Hw. by apply forget_history_waits, reject_skips_waits, reset_observations_waits.
Qed.

Lemma issue_skip_waits known flying s id t :
  tracker_waits known flying s -> known id -> flying id ->
  (forall p, p ∈ pending_skips s -> sk_transport_id p <> id) ->
  tracker_waits known flying (issue_skip s id t).
Proof.
  intros [Hnd Hkn Hwn Haw Hfl] Hk Hf Hnew. destruct s as [a b c sk h last]. simpl in *.
  split; simpl; [| |done| |].
  - rewrite fmap_app. simpl. apply NoDup_app. split_ands; [done| |apply NoDup_singleton].
    intros x (p & -> & Hp)%list_elem_of_fmap Hx%list_elem_of_singleton. by apply (Hnew p).
  - apply Forall_app. split; [done|]. by repeat constructor.
  - intros x Hx. destruct (Haw x Hx) as (q & Hq & ?). exists q. split; [set_solver|done].
  - intros p [Hp|Hp%list_elem_of_singleton]%elem_of_app Hpo; [by apply Hfl|by subst p].
Qed.

Lemma acknowledge_waits known flying s id :
  tracker_waits known flying s -> tracker_waits known flying (acknowledge_history_transition s id).1.
Proof.
  unfold acknowledge_history_transition. intros Hw. destruct s as [a b c sk [|p h] last]; [done|].
  simpl. destruct (ph_kind p) as [k|] eqn:Ek; simpl; rewrite ?orb_true_r; [|done].
  case_match_goal; [done|]. destruct Hw as [? ? Hwn Haw ?]. unfold waiting_ids in *. simpl in *.
  unfold awaited in Hwn, Haw at 1. rewrite Ek in Hwn, Haw. split; simpl; try done.
Qed.

(** ** Witness *)

Lemma delivered_transitions_recordable_witness :
  let snapshot := {| s_provider := AppleMusic; s_session_id := chars "session";
    s_state := Paused; s_item := Some {| i_identifier := chars "track"; i_title := None;
    i_artist := None |}; s_position := None; s_duration := None; s_observed_at := 20;
    s_capabilities := 0 |} in
  let tm := {| wall_clock_at := 5; clock_uncertainty_milliseconds := 0 |} in
  exists e, try_from_snapshot snapshot KItemChanged 20 5 0 OpaqueItem = Ok (Some e) /\
    e_kind e = KItemChanged.
Proof.
  intros snapshot tm.
  destruct (delivered_transitions_recordable [Observe snapshot tm]
    {| ht_id := 1; ht_snapshot := snapshot; ht_kind := KItemChanged; ht_timing := tm |}
    20 5 0 OpaqueItem) as (e & H1 & H2 & _); [|reflexivity|discriminate|done|].
  - constructor; [|constructor]. split.
    + exists AppleMusic, (chars "session"), Paused, (s_item snapshot),
        {| p_position := None; p_duration := None |}, 20, 0. reflexivity.
    + intros item [= <-]. exists (chars "track"), None, None. reflexivity.
  - by exists e.
Defined.
