(* ===== verification/MusicLifecycle.v ===== *)
(** * The lifecycle of a music provider

    [cutout-music/src/provider_lifecycle.rs]: one owner for the monitor, the
    provider session, authorization, connection, player state, artwork,
    transport commands and observations of the selected provider.  It is put
    together from the owners of [MusicRequests] and the tracker of
    [MusicObservation]; the platform executes the effects it admits and comes
    back with the identities it was given. *)

From S2P Require Import Prelude.
From S2P Require Import Quantities Text.
From S2P Require Import MusicRequests MusicHistory MusicObservation.

Definition MONITOR_POLL_INTERVAL_MS : Z := 1000.
Definition AUTHORIZATION_TIMEOUT_MS : Z := 20000.
Definition TRANSPORT_TIMEOUT_MS : Z := 10000.
Definition ARTWORK_TIMEOUT_MS : Z := 5000.
Definition ARTWORK_RETRY_DELAY_MS : Z := 1000.
Definition PLAY_HANDOFF_TIMEOUT_MS : Z := 60000.

Inductive MusicPlaybackTransport := AppRemote | WebApi | TransportUnavailable.
Definition select_playback_transport (app_remote_connected web_playback_authorized : bool)
  : MusicPlaybackTransport :=
  if app_remote_connected then AppRemote
  else if web_playback_authorized then WebApi else TransportUnavailable.

Definition deadline_after (now delay : Z) : Z := timestamp_saturating_add_duration now delay.

(** [MusicDeadlineEffect]: an identity and its absolute deadline. *)
Record MusicDeadlineEffect := { eff_id : LifecycleId; eff_deadline : Z }.

Inductive MusicProviderWorkState :=
| WorkActive | WorkRemotePolling | WorkAuthorizationPending | WorkCredentialsAvailable
| WorkRequiresUserAction | WorkUnavailable.
#[global] Instance work_state_eq_dec : EqDecision MusicProviderWorkState.
Proof. solve_decision. Defined.

Inductive MusicTransportOutcome := OutAccepted | OutFailed | OutTimedOut | OutCancelled.
#[global] Instance transport_outcome_eq_dec : EqDecision MusicTransportOutcome.
Proof. solve_decision. Defined.
Inductive MusicTransportCompletion :=
| CompletionPending
| Finished (request_id : LifecycleId) (outcome : MusicTransportOutcome)
| CompletionStale.

Record MusicConnectionEffect := {
  ce_callback : MusicConnectionCallback;
  ce_transport : MusicTransportCompletion;
}.
Inductive MusicConnectionAttemptAdmission :=
| MStarted (attempt_id : LifecycleId) (transport : MusicTransportCompletion)
| MPending
| MWaitingToRetry
| MExhausted.

Inductive MusicTransportOwner :=
| OwnedByProvider (provider_generation : LifecycleId)
| OwnedByConnection (provider_generation connection_id : LifecycleId).
Definition provider_generation (self : MusicTransportOwner) : LifecycleId :=
  match self with OwnedByProvider g | OwnedByConnection g _ => g end.

Record MusicProviderSuspension := {
  observation_gap : bool;
  cancelled_transport_request_id : option LifecycleId;
}.
Record MusicMonitorEffect := { me_generation : LifecycleId; me_start : MusicMonitorStart }.

Record PendingTransport := {
  pt_owner : MusicTransportOwner;
  pt_request_id : LifecycleId;
  pt_started_at : Z;
  pt_command : MusicCommand;
}.
Inductive MusicTransportState :=
| TransportAvailable (last_request_id : LifecycleId)
| TransportPending (p : PendingTransport).

Definition transport_begin (self : MusicTransportState) (owner : MusicTransportOwner)
    (command : MusicCommand) (now : Z) : MusicTransportState * option PendingTransport :=
  match self with
  | TransportAvailable last_request_id =>
      match id_next last_request_id with
      | None => (self, None)
      | Some request_id =>
          let pending := {| pt_owner := owner; pt_request_id := request_id;
                            pt_started_at := now; pt_command := command |} in
          (TransportPending pending, Some pending)
      end
  | TransportPending _ => (self, None)
  end.

Definition transport_pending (self : MusicTransportState) : option PendingTransport :=
  match self with TransportPending p => Some p | TransportAvailable _ => None end.

Definition transport_finish (self : MusicTransportState) (generation request_id : LifecycleId)
  : MusicTransportState * option PendingTransport :=
  match transport_pending self with
  | Some pending =>
      if bool_decide (provider_generation (pt_owner pending) = generation)
         && bool_decide (pt_request_id pending = request_id)
      then (TransportAvailable (pt_request_id pending), Some pending)
      else (self, None)
  | None => (self, None)
  end.

Inductive MusicObservationOwnership := OwnershipIdle | OwnershipActive.
Definition has_gap (self : MusicObservationOwnership) : bool :=
  match self with OwnershipActive => true | OwnershipIdle => false end.

Record MusicProviderLifecycle := {
  monitor : MusicMonitor;
  monitor_generation : CallbackEpoch;
  provider_session : CallbackEpoch;
  authorization : AuthorizationTransaction;
  connection : MusicConnection;
  player_state : MusicPlayerRequest;
  artwork : MusicArtworkRequest;
  artwork_retry : CallbackEpoch;
  command_feedback : CallbackEpoch;
  play_handoff : CallbackEpoch;
  play_handoff_started_at : Z;
  transport : MusicTransportState;
  observations : MusicObservationTracker;
  observation_ownership : MusicObservationOwnership;
}.
#[global] Instance eta_lifecycle : Eta MusicProviderLifecycle := fun r =>
  Build_MusicProviderLifecycle (monitor r) (monitor_generation r) (provider_session r)
    (authorization r) (connection r) (player_state r) (artwork r) (artwork_retry r)
    (command_feedback r) (play_handoff r) (play_handoff_started_at r) (transport r)
    (observations r) (observation_ownership r).

Definition default_lifecycle : MusicProviderLifecycle := {|
  monitor := default_monitor; monitor_generation := default_epoch;
  provider_session := default_epoch; authorization := default_authorization;
  connection := default_connection; player_state := default_player_request;
  artwork := default_artwork_request; artwork_retry := default_epoch;
  command_feedback := default_epoch; play_handoff := default_epoch;
  play_handoff_started_at := 0; transport := TransportAvailable 0;
  observations := tracker_new; observation_ownership := OwnershipIdle |}.

(** ** Play handoff and command feedback *)

Definition begin_play_handoff (self : MusicProviderLifecycle) (now : Z)
  : MusicProviderLifecycle * option MusicDeadlineEffect :=
  match epoch_begin (play_handoff self) with
  | (_, None) => (self, None)
  | (epoch, Some id) =>
      (self <| play_handoff := epoch |> <| play_handoff_started_at := now |>,
       Some {| eff_id := id; eff_deadline := deadline_after now PLAY_HANDOFF_TIMEOUT_MS |})
  end.

Definition finish_play_handoff (self : MusicProviderLifecycle) (id : LifecycleId)
  : MusicProviderLifecycle * CallbackEpochMatch :=
  let '(epoch, m) := epoch_finish (play_handoff self) id in (self <| play_handoff := epoch |>, m).

(** [(finish(id) == Current).then_some(outcome)]. *)
Definition settle_play_handoff (self : MusicProviderLifecycle) (id : LifecycleId)
    (outcome : MusicTransportOutcome) : MusicProviderLifecycle * option MusicTransportOutcome :=
  let '(self, m) := finish_play_handoff self id in
  (self, if bool_decide (m = EpochCurrent) then Some outcome else None).

Definition observe_play_handoff (self : MusicProviderLifecycle) (id : LifecycleId)
    (state : MusicPlaybackState) (observed_at : Z)
  : MusicProviderLifecycle * option MusicTransportOutcome :=
  if negb (bool_decide (state = Playing))
     || bool_decide (observed_at < play_handoff_started_at self)
     || bool_decide (timestamp_saturating_add_duration (play_handoff_started_at self)
                       PLAY_HANDOFF_TIMEOUT_MS <= observed_at)
  then (self, None) else settle_play_handoff self id OutAccepted.

Definition expire_play_handoff (self : MusicProviderLifecycle) (id : LifecycleId) (now : Z)
  : MusicProviderLifecycle * option MusicTransportOutcome :=
  if bool_decide (now < timestamp_saturating_add_duration (play_handoff_started_at self)
                          PLAY_HANDOFF_TIMEOUT_MS)
  then (self, None) else settle_play_handoff self id OutTimedOut.

Definition begin_command_feedback (self : MusicProviderLifecycle)
  : MusicProviderLifecycle * option LifecycleId :=
  let '(epoch, id) := epoch_begin (command_feedback self) in
  (self <| command_feedback := epoch |>, id).
Definition classify_command_feedback (self : MusicProviderLifecycle) (id : LifecycleId)
  : CallbackEpochMatch := epoch_classify (command_feedback self) id.
Definition invalidate_command_feedback (self : MusicProviderLifecycle) : MusicProviderLifecycle :=
  self <| command_feedback := epoch_invalidate (command_feedback self) |>.
Definition dismiss_command_feedback (self : MusicProviderLifecycle) (id : LifecycleId)
  : MusicProviderLifecycle * CallbackEpochMatch :=
  let '(epoch, m) := epoch_finish (command_feedback self) id in
  (self <| command_feedback := epoch |>, m).

(** ** Observations *)

Definition on_tracker {A} (self : MusicProviderLifecycle) (r : MusicObservationTracker * A)
  : MusicProviderLifecycle * A := (self <| observations := r.1 |>, r.2).
Definition observe_music (self : MusicProviderLifecycle) (snapshot : MusicSnapshot)
    (timing : MusicObservationTiming) : MusicProviderLifecycle * MusicObservationOutcome :=
  on_tracker self (observe (observations self) snapshot timing).
Definition retire_association (self : MusicProviderLifecycle)
  : MusicProviderLifecycle * list MusicUnsettledHistoryTransition :=
  on_tracker self (retire_history_association (observations self)).
Definition acknowledge_transition (self : MusicProviderLifecycle) (id : LifecycleId)
  : MusicProviderLifecycle * MusicHistoryTransitionAcknowledgement :=
  on_tracker self (acknowledge_history_transition (observations self) id).
Definition reset_observation_correlation (self : MusicProviderLifecycle)
  : MusicProviderLifecycle := self <| observations := tracker_reset (observations self) |>.
Definition reset_observation_baselines (self : MusicProviderLifecycle) : MusicProviderLifecycle :=
  self <| observations := reset_observations (observations self) |>.
Definition clear_pending_command_correlation (self : MusicProviderLifecycle)
  : MusicProviderLifecycle := self <| observations := clear_pending_skips (observations self) |>.

(** ** Transport *)

Definition finish_transport_unchecked (self : MusicProviderLifecycle)
    (generation request_id : LifecycleId) (outcome : MusicTransportOutcome)
  : MusicProviderLifecycle * MusicTransportCompletion :=
  match transport_finish (transport self) generation request_id with
  | (_, None) => (self, CompletionStale)
  | (state, Some pending) =>
      let self := self <| transport := state |> in
      let self :=
        if is_skip (pt_command pending)
        then self <| observations :=
               finish_skip (observations self) request_id
                 (if bool_decide (outcome = OutAccepted) then SkipAccepted else SkipRejected) |>
        else self in
      (self, Finished request_id outcome)
  end.

Definition finish_transport (self : MusicProviderLifecycle) (generation request_id : LifecycleId)
    (outcome : MusicTransportOutcome) : MusicProviderLifecycle * MusicTransportCompletion :=
  match transport_pending (transport self) with
  | None => (self, CompletionStale)
  | Some pending =>
      if negb (bool_decide (provider_generation (pt_owner pending) = generation))
         || negb (bool_decide (pt_request_id pending = request_id))
      then (self, CompletionStale)
      else if match pt_owner pending with
              | OwnedByConnection _ connection_id =>
                  negb (is_established (connection self) connection_id)
              | OwnedByProvider _ => false
              end
      then finish_transport_unchecked self generation request_id OutCancelled
      else finish_transport_unchecked self generation request_id outcome
  end.

Definition expire_transport (self : MusicProviderLifecycle) (generation : LifecycleId) (now : Z)
  : MusicProviderLifecycle * MusicTransportCompletion :=
  match transport_pending (transport self) with
  | None => (self, CompletionStale)
  | Some pending =>
      if negb (bool_decide (provider_generation (pt_owner pending) = generation))
      then (self, CompletionStale)
      else if bool_decide (timestamp_saturating_duration_since now (pt_started_at pending)
                           < TRANSPORT_TIMEOUT_MS)
      then (self, CompletionPending)
      else finish_transport_unchecked self generation (pt_request_id pending) OutTimedOut
  end.

Definition cancel_transport (self : MusicProviderLifecycle) (generation request_id : LifecycleId)
  : MusicProviderLifecycle * MusicTransportCompletion :=
  finish_transport_unchecked self generation request_id OutCancelled.

Definition cancel_current_transport (self : MusicProviderLifecycle)
  : MusicProviderLifecycle * MusicTransportCompletion :=
  match transport_pending (transport self) with
  | None => (self, CompletionStale)
  | Some pending =>
      finish_transport_unchecked self (provider_generation (pt_owner pending))
        (pt_request_id pending) OutCancelled
  end.

Definition cancel_transport_for_connection_current (self : MusicProviderLifecycle)
    (connection_id : LifecycleId) : MusicProviderLifecycle * MusicTransportCompletion :=
  match transport_pending (transport self) with
  | None => (self, CompletionStale)
  | Some pending =>
      if match pt_owner pending with
         | OwnedByConnection _ current => bool_decide (current = connection_id)
         | OwnedByProvider _ => false
         end
      then finish_transport_unchecked self (provider_generation (pt_owner pending))
             (pt_request_id pending) OutCancelled
      else (self, CompletionStale)
  end.

Definition owner_is_current (self : MusicProviderLifecycle) (owner : MusicTransportOwner) : bool :=
  match owner with
  | OwnedByProvider g => bool_decide (epoch_classify (provider_session self) g = EpochCurrent)
  | OwnedByConnection g connection_id =>
      bool_decide (epoch_classify (provider_session self) g = EpochCurrent)
      && is_established (connection self) connection_id
  end.

Definition begin_transport_effect (self : MusicProviderLifecycle) (owner : MusicTransportOwner)
    (command : MusicCommand) (now : Z) : MusicProviderLifecycle * option MusicDeadlineEffect :=
  if negb (owner_is_current self owner) then (self, None) else
  match transport_begin (transport self) owner command now with
  | (_, None) => (self, None)
  | (state, Some pending) =>
      let self := self <| transport := state |> in
      let self :=
        if is_skip command
        then self <| observations :=
               issue_skip (observations self) (pt_request_id pending) (pt_started_at pending) |>
        else self in
      (self, Some {| eff_id := pt_request_id pending;
                     eff_deadline := deadline_after now TRANSPORT_TIMEOUT_MS |})
  end.

(** ** Provider work *)

Definition invalidate_provider_work (self : MusicProviderLifecycle) : MusicProviderLifecycle :=
  self <| provider_session := epoch_invalidate (provider_session self) |>
       <| observation_ownership := OwnershipIdle |>
       <| connection := connection_reset (connection self) |>
       <| player_state := player_reset (player_state self) |>
       <| artwork := artwork_reset (artwork self) |>
       <| artwork_retry := epoch_invalidate (artwork_retry self) |>
       <| observations := clear_pending_skips (observations self) |>.

Definition retire_all_provider_work (self : MusicProviderLifecycle)
  : MusicProviderLifecycle * MusicTransportCompletion :=
  let '(self, completion) := cancel_current_transport self in
  (invalidate_provider_work self, completion).

Definition finished_request_id (c : MusicTransportCompletion) : option LifecycleId :=
  match c with Finished request_id _ => Some request_id | CompletionPending | CompletionStale => None end.

(** ** Monitor *)

Definition request_monitor (self : MusicProviderLifecycle) (request : MusicMonitorRequest)
  : MusicProviderLifecycle := self <| monitor := monitor_request (monitor self) request |>.

Definition cancel_monitor (self : MusicProviderLifecycle)
  : MusicProviderLifecycle * MusicTransportCompletion :=
  retire_all_provider_work
    (self <| monitor := monitor_cancel (monitor self) |>
          <| monitor_generation := epoch_invalidate (monitor_generation self) |>
          <| authorization := authorization_invalidate (authorization self) |>).

Definition begin_monitor (self : MusicProviderLifecycle)
  : MusicProviderLifecycle * option MusicMonitorEffect :=
  match pending_start (monitor self) with
  | None => (self, None)
  | Some start =>
      match epoch_begin (monitor_generation self) with
      | (_, None) => (self, None)
      | (epoch, Some generation) =>
          let self := self <| monitor_generation := epoch |> in
          match take_start (monitor self) with
          | (_, None) => (self, None)
          | (m, Some _) =>
              (self <| monitor := m |>,
               Some {| me_generation := generation; me_start := start |})
          end
      end
  end.

Definition classify_monitor (self : MusicProviderLifecycle) (generation : LifecycleId)
  : CallbackEpochMatch := epoch_classify (monitor_generation self) generation.
Definition finish_monitor (self : MusicProviderLifecycle) (generation : LifecycleId)
  : MusicProviderLifecycle * CallbackEpochMatch :=
  let '(epoch, m) := epoch_finish (monitor_generation self) generation in
  (self <| monitor_generation := epoch |>, m).

Definition next_monitor_poll (self : MusicProviderLifecycle) (generation : LifecycleId)
    (work_state : MusicProviderWorkState) (now : Z) : option MusicDeadlineEffect :=
  if bool_decide (epoch_classify (monitor_generation self) generation = EpochStale)
     || (bool_decide (work_state = WorkCredentialsAvailable)
         && recovery_exhausted_at (connection self) now)
     || match work_state with WorkRequiresUserAction | WorkUnavailable => true | _ => false end
  then None
  else Some {| eff_id := generation;
               eff_deadline := deadline_after now
                 (if bool_decide (work_state = WorkRemotePolling) then 5000
                  else MONITOR_POLL_INTERVAL_MS) |}.

Definition suspend (self : MusicProviderLifecycle)
  : MusicProviderLifecycle * MusicProviderSuspension :=
  let self := self <| monitor := monitor_suspend (monitor self) |>
                   <| monitor_generation := epoch_invalidate (monitor_generation self) |> in
  let gap := has_gap (observation_ownership self) in
  let '(self, completion) := cancel_current_transport self in
  (invalidate_provider_work self,
   {| observation_gap := gap;
      cancelled_transport_request_id := finished_request_id completion |}).

Definition resume (self : MusicProviderLifecycle) : MusicProviderLifecycle * MusicMonitorResume :=
  let '(m, r) := monitor_resume (monitor self) in (self <| monitor := m |>, r).

(** ** Provider sessions and authorization *)

Definition begin_provider_session (self : MusicProviderLifecycle)
  : MusicProviderLifecycle * option LifecycleId :=
  let '(self, _) := retire_all_provider_work self in
  let self := invalidate_command_feedback self in
  match epoch_begin (provider_session self) with
  | (_, None) => (self, None)
  | (epoch, Some generation) =>
      (self <| provider_session := epoch |> <| observation_ownership := OwnershipActive |>,
       Some generation)
  end.

Definition retire_provider_session (self : MusicProviderLifecycle) (id : LifecycleId)
  : MusicProviderLifecycle * MusicTransportCompletion :=
  match epoch_finish (provider_session self) id with
  | (_, EpochStale) => (self, CompletionStale)
  | (epoch, EpochCurrent) =>
      retire_all_provider_work (invalidate_command_feedback (self <| provider_session := epoch |>))
  end.

Definition begin_authorization (self : MusicProviderLifecycle)
    (kind : AuthorizationTransactionKind) : MusicProviderLifecycle * option LifecycleId :=
  let '(a, id) := authorization_begin (authorization self) kind in
  (self <| authorization := a |>, id).

Definition begin_authorization_effect (self : MusicProviderLifecycle)
    (kind : AuthorizationTransactionKind) (now : Z)
  : MusicProviderLifecycle * option MusicDeadlineEffect :=
  let deadline :=
    match kind with
    | KindAuthorizing => u64_max
    | KindRenewing => deadline_after now AUTHORIZATION_TIMEOUT_MS
    end in
  match begin_authorization self kind with
  | (self, None) => (self, None)
  | (self, Some id) => (self, Some {| eff_id := id; eff_deadline := deadline |})
  end.

Definition finish_authorization (self : MusicProviderLifecycle) (id : LifecycleId)
  : MusicProviderLifecycle * AuthorizationTransactionMatch :=
  let '(a, m) := authorization_finish (authorization self) id in
  (self <| authorization := a |>, m).
Definition invalidate_authorization (self : MusicProviderLifecycle) : MusicProviderLifecycle :=
  self <| authorization := authorization_invalidate (authorization self) |>.

(** ** Connection *)

Definition begin_connection_attempt (self : MusicProviderLifecycle) (now : Z)
  : MusicProviderLifecycle * MusicConnectionAttemptAdmission :=
  let previous_id := callback_id (connection self) in
  match begin_attempt (connection self) now with
  | (conn, AttemptStarted attempt_id) =>
      let self := self <| connection := conn |> in
      let '(self, completion) :=
        match previous_id with
        | Some id => cancel_transport_for_connection_current self id
        | None => (self, CompletionStale)
        end in
      (self, MStarted attempt_id completion)
  | (conn, AttemptPending) => (self <| connection := conn |>, MPending)
  | (conn, AttemptWaitingToRetry) => (self <| connection := conn |>, MWaitingToRetry)
  | (conn, AttemptExhausted) => (self <| connection := conn |>, MExhausted)
  end.

Definition connection_established (self : MusicProviderLifecycle) (id : LifecycleId) (now : Z)
  : MusicProviderLifecycle * option LifecycleId :=
  let '(conn, r) := established_for_at (connection self) id now in
  (self <| connection := conn |>, r).

Definition finish_connection (self : MusicProviderLifecycle) (id : LifecycleId)
    (callback : MusicConnectionCallback) : MusicProviderLifecycle * MusicConnectionEffect :=
  if bool_decide (callback = CallbackStale)
  then (self, {| ce_callback := callback; ce_transport := CompletionStale |})
  else
    let self := self <| command_feedback := epoch_invalidate (command_feedback self) |>
                     <| player_state := player_reset (player_state self) |> in
    let '(self, completion) := cancel_transport_for_connection_current self id in
    (self, {| ce_callback := callback; ce_transport := completion |}).

Definition end_connection (self : MusicProviderLifecycle) (id : LifecycleId) (now : Z)
  : MusicProviderLifecycle * MusicConnectionEffect :=
  let '(conn, callback) := failed_for (connection self) id now in
  finish_connection (self <| connection := conn |>) id callback.
Definition connection_failed_effect (self : MusicProviderLifecycle) (id : LifecycleId) (now : Z)
  : MusicProviderLifecycle * MusicConnectionEffect := end_connection self id now.
Definition connection_disconnected_effect (self : MusicProviderLifecycle) (id : LifecycleId)
    (now : Z) : MusicProviderLifecycle * MusicConnectionEffect := end_connection self id now.
Definition connection_expired_effect (self : MusicProviderLifecycle) (id : LifecycleId) (now : Z)
  : MusicProviderLifecycle * MusicConnectionEffect :=
  let '(conn, callback) := expired_for (connection self) id now in
  finish_connection (self <| connection := conn |>) id callback.

(** ** Player state and artwork *)

Definition on_player {A} (self : MusicProviderLifecycle) (r : MusicPlayerRequest * A)
  : MusicProviderLifecycle * A := (self <| player_state := r.1 |>, r.2).
Definition begin_player_state_request (self : MusicProviderLifecycle) (now : Z)
  : MusicProviderLifecycle * option LifecycleId :=
  on_player self (player_begin (player_state self) now).
Definition complete_player_state_request (self : MusicProviderLifecycle) (id : LifecycleId)
    (now : Z) : MusicProviderLifecycle * MusicPlayerRequestCompletion :=
  on_player self (player_complete (player_state self) id now).
Definition expire_player_state_request (self : MusicProviderLifecycle) (id : LifecycleId)
    (now : Z) : MusicProviderLifecycle * MusicPlayerRequestExpiration :=
  on_player self (player_expire (player_state self) id now).
Definition complete_player_state_request_if_current (self : MusicProviderLifecycle)
    (id : LifecycleId) (observation_revision now : Z)
  : MusicProviderLifecycle * MusicPlayerRequestCompletion :=
  on_player self (complete_if_current (player_state self) id observation_revision now).
Definition mark_player_state_observed (self : MusicProviderLifecycle) (now : Z)
  : MusicProviderLifecycle := self <| player_state := mark_observed (player_state self) now |>.

Definition begin_artwork_effect (self : MusicProviderLifecycle) (generation : LifecycleId)
    (now : Z) : MusicProviderLifecycle * option MusicDeadlineEffect :=
  if bool_decide (epoch_classify (provider_session self) generation = EpochStale)
  then (self, None) else
  match artwork_begin (artwork self) with
  | (aw, None) => (self <| artwork := aw |>, None)
  | (aw, Some id) =>
      (self <| artwork := aw |>,
       Some {| eff_id := id; eff_deadline := deadline_after now ARTWORK_TIMEOUT_MS |})
  end.

Definition complete_artwork_request (self : MusicProviderLifecycle)
    (generation id : LifecycleId) : MusicProviderLifecycle * MusicPlayerRequestCompletion :=
  if bool_decide (epoch_classify (provider_session self) generation = EpochStale)
  then (self, RequestStale) else
  let '(aw, c) := artwork_complete (artwork self) id in (self <| artwork := aw |>, c).

Definition reset_artwork (self : MusicProviderLifecycle) : MusicProviderLifecycle :=
  self <| artwork := artwork_reset (artwork self) |>
       <| artwork_retry := epoch_invalidate (artwork_retry self) |>.

Definition begin_artwork_retry_effect (self : MusicProviderLifecycle) (generation : LifecycleId)
    (now : Z) : MusicProviderLifecycle * option MusicDeadlineEffect :=
  if bool_decide (epoch_classify (provider_session self) generation = EpochStale)
     || negb (artwork_can_retry (artwork self))
  then (self, None) else
  match epoch_begin (artwork_retry self) with
  | (_, None) => (self, None)
  | (epoch, Some id) =>
      (self <| artwork_retry := epoch |>,
       Some {| eff_id := id; eff_deadline := deadline_after now ARTWORK_RETRY_DELAY_MS |})
  end.

Definition complete_artwork_retry (self : MusicProviderLifecycle) (generation id : LifecycleId)
  : MusicProviderLifecycle * CallbackEpochMatch :=
  if bool_decide (epoch_classify (provider_session self) generation = EpochStale)
  then (self, EpochStale) else
  let '(epoch, m) := epoch_finish (artwork_retry self) id in
  (self <| artwork_retry := epoch |>, m).

(** ** The lifecycle as a machine: one constructor per mutating method *)

Inductive LifecycleCall :=
| BeginPlayHandoff (now : Z)
| ObservePlayHandoff (id : LifecycleId) (state : MusicPlaybackState) (observed_at : Z)
| ExpirePlayHandoff (id : LifecycleId) (now : Z)
| FinishPlayHandoff (id : LifecycleId)
| BeginCommandFeedback
| InvalidateCommandFeedback
| DismissCommandFeedback (id : LifecycleId)
| ObserveMusic (snapshot : MusicSnapshot) (timing : MusicObservationTiming)
| RetireHistoryAssociation
| AcknowledgeHistoryTransition (id : LifecycleId)
| ResetObservationCorrelation
| ResetObservationBaselines
| ClearPendingCommandCorrelation
| RequestMonitor (r : MusicMonitorRequest)
| CancelMonitor
| BeginMonitor
| FinishMonitor (generation : LifecycleId)
| Suspend
| Resume
| BeginProviderSession
| RetireProviderSession (id : LifecycleId)
| BeginAuthorization (kind : AuthorizationTransactionKind)
| BeginAuthorizationEffect (kind : AuthorizationTransactionKind) (now : Z)
| FinishAuthorization (id : LifecycleId)
| InvalidateAuthorization
| BeginConnectionAttempt (now : Z)
| ConnectionEstablished (id : LifecycleId) (now : Z)
| ConnectionFailed (id : LifecycleId) (now : Z)
| ConnectionExpired (id : LifecycleId) (now : Z)
| ConnectionDisconnected (id : LifecycleId) (now : Z)
| BeginPlayerState (now : Z)
| CompletePlayerState (id : LifecycleId) (now : Z)
| ExpirePlayerState (id : LifecycleId) (now : Z)
| CompletePlayerStateIfCurrent (id : LifecycleId) (r now : Z)
| MarkPlayerStateObserved (now : Z)
| BeginArtwork (generation : LifecycleId) (now : Z)
| CompleteArtwork (generation id : LifecycleId)
| ResetArtwork
| BeginArtworkRetry (generation : LifecycleId) (now : Z)
| CompleteArtworkRetry (generation id : LifecycleId)
| BeginTransport (owner : MusicTransportOwner) (command : MusicCommand) (now : Z)
| FinishTransport (generation request_id : LifecycleId) (outcome : MusicTransportOutcome)
| ExpireTransport (generation : LifecycleId) (now : Z)
| CancelTransport (generation request_id : LifecycleId).

Inductive LifecycleReply :=
| RDone
| RId (id : option LifecycleId)
| REffect (e : option MusicDeadlineEffect)
| RMatch (m : CallbackEpochMatch)
| ROutcome (o : option MusicTransportOutcome)
| RObserved (o : MusicObservationOutcome)
| RUnsettled (l : list MusicUnsettledHistoryTransition)
| RAcknowledged (a : MusicHistoryTransitionAcknowledgement)
| RCompletion (c : MusicTransportCompletion)
| RMonitor (e : option MusicMonitorEffect)
| RSuspended (s : MusicProviderSuspension)
| RResumed (r : MusicMonitorResume)
| RAuthorization (m : AuthorizationTransactionMatch)
| RAttempt (a : MusicConnectionAttemptAdmission)
| RConnection (e : MusicConnectionEffect)
| RPlayer (c : MusicPlayerRequestCompletion)
| RPlayerExpiration (e : MusicPlayerRequestExpiration).

Definition lifecycle_step (s : MusicProviderLifecycle) (c : LifecycleCall)
  : MusicProviderLifecycle * LifecycleReply :=
  match c with
  | BeginPlayHandoff now => REffect <$$> begin_play_handoff s now
  | ObservePlayHandoff id state at_ => ROutcome <$$> observe_play_handoff s id state at_
  | ExpirePlayHandoff id now => ROutcome <$$> expire_play_handoff s id now
  | FinishPlayHandoff id => RMatch <$$> finish_play_handoff s id
  | BeginCommandFeedback => RId <$$> begin_command_feedback s
  | InvalidateCommandFeedback => (invalidate_command_feedback s, RDone)
  | DismissCommandFeedback id => RMatch <$$> dismiss_command_feedback s id
  | ObserveMusic snapshot timing => RObserved <$$> observe_music s snapshot timing
  | RetireHistoryAssociation => RUnsettled <$$> retire_association s
  | AcknowledgeHistoryTransition id => RAcknowledged <$$> acknowledge_transition s id
  | ResetObservationCorrelation => (reset_observation_correlation s, RDone)
  | ResetObservationBaselines => (reset_observation_baselines s, RDone)
  | ClearPendingCommandCorrelation => (clear_pending_command_correlation s, RDone)
  | RequestMonitor r => (request_monitor s r, RDone)
  | CancelMonitor => RCompletion <$$> cancel_monitor s
  | BeginMonitor => RMonitor <$$> begin_monitor s
  | FinishMonitor g => RMatch <$$> finish_monitor s g
  | Suspend => RSuspended <$$> suspend s
  | Resume => RResumed <$$> resume s
  | BeginProviderSession => RId <$$> begin_provider_session s
  | RetireProviderSession id => RCompletion <$$> retire_provider_session s id
  | BeginAuthorization kind => RId <$$> begin_authorization s kind
  | BeginAuthorizationEffect kind now => REffect <$$> begin_authorization_effect s kind now
  | FinishAuthorization id => RAuthorization <$$> finish_authorization s id
  | InvalidateAuthorization => (invalidate_authorization s, RDone)
  | BeginConnectionAttempt now => RAttempt <$$> begin_connection_attempt s now
  | ConnectionEstablished id now => RId <$$> connection_established s id now
  | ConnectionFailed id now => RConnection <$$> connection_failed_effect s id now
  | ConnectionExpired id now => RConnection <$$> connection_expired_effect s id now
  | ConnectionDisconnected id now => RConnection <$$> connection_disconnected_effect s id now
  | BeginPlayerState now => RId <$$> begin_player_state_request s now
  | CompletePlayerState id now => RPlayer <$$> complete_player_state_request s id now
  | ExpirePlayerState id now => RPlayerExpiration <$$> expire_player_state_request s id now
  | CompletePlayerStateIfCurrent id r now =>
      RPlayer <$$> complete_player_state_request_if_current s id r now
  | MarkPlayerStateObserved now => (mark_player_state_observed s now, RDone)
  | BeginArtwork g now => REffect <$$> begin_artwork_effect s g now
  | CompleteArtwork g id => RPlayer <$$> complete_artwork_request s g id
  | ResetArtwork => (reset_artwork s, RDone)
  | BeginArtworkRetry g now => REffect <$$> begin_artwork_retry_effect s g now
  | CompleteArtworkRetry g id => RMatch <$$> complete_artwork_retry s g id
  | BeginTransport owner command now => REffect <$$> begin_transport_effect s owner command now
  | FinishTransport g id outcome => RCompletion <$$> finish_transport s g id outcome
  | ExpireTransport g now => RCompletion <$$> expire_transport s g now
  | CancelTransport g id => RCompletion <$$> cancel_transport s g id
  end.

(** The request a reply reports as finished, and with what outcome. *)
Definition completion_of (r : LifecycleReply) : MusicTransportCompletion :=
  match r with
  | RCompletion c => c
  | RConnection e => ce_transport e
  | RAttempt (MStarted _ c) => c
  | RSuspended s =>
      match cancelled_transport_request_id s with
      | Some id => Finished id OutCancelled
      | None => CompletionStale
      end
  | _ => CompletionStale
  end.
Definition reported (r : LifecycleReply) : list LifecycleId :=
  option_list (finished_request_id (completion_of r)).

(** The request a call has started. *)
Definition started (c : LifecycleCall) (r : LifecycleReply) : list LifecycleId :=
  match c, r with
  | BeginTransport _ _ _, REffect (Some e) => [eff_id e]
  | _, _ => []
  end.

Definition pending_request (s : MusicProviderLifecycle) : option LifecycleId :=
  pt_request_id <$> transport_pending (transport s).

(** ** The parts that transport and history depend on *)

Definition core (s : MusicProviderLifecycle) :=
  (provider_session s, connection s, transport s, observations s).

(** A request ended: its state is free again and its skip, if it was one, is
    settled.  Or none did, and nothing changed. *)
Inductive settled (s : MusicProviderLifecycle)
  : MusicProviderLifecycle -> MusicTransportCompletion -> Prop :=
| settled_none c : finished_request_id c = None -> settled s s c
| settled_one p o :
    transport_pending (transport s) = Some p ->
    settled s
      (let s := s <| transport := TransportAvailable (pt_request_id p) |> in
       if is_skip (pt_command p)
       then s <| observations :=
              finish_skip (observations s) (pt_request_id p)
                (if bool_decide (o = OutAccepted) then SkipAccepted else SkipRejected) |>
       else s)
      (Finished (pt_request_id p) o).

Lemma finish_unchecked_settled s g id o :
  settled s (finish_transport_unchecked s g id o).1 (finish_transport_unchecked s g id o).2.
Proof.
  unfold finish_transport_unchecked, transport_finish.
  destruct (transport_pending (transport s)) as [p|] eqn:E; simpl; [|by constructor].
  case_bool_decide; simpl; [|by constructor]. case_bool_decide as Hid; simpl; [|by constructor].
  rewrite <- Hid. by apply settled_one.
Qed.

Lemma finish_unchecked_matching s p o :
  transport_pending (transport s) = Some p ->
  (finish_transport_unchecked s (provider_generation (pt_owner p)) (pt_request_id p) o).2
    = Finished (pt_request_id p) o.
Proof.
  intros E. unfold finish_transport_unchecked, transport_finish. rewrite E.
  by rewrite (bool_decide_eq_true_2 (provider_generation _ = _)),
    (bool_decide_eq_true_2 (pt_request_id _ = _)).
Qed.

Lemma cancel_current_settled s :
  settled s (cancel_current_transport s).1 (cancel_current_transport s).2.
Proof.
  unfold cancel_current_transport. destruct (transport_pending _); [|by constructor].
  apply finish_unchecked_settled.
Qed.

Lemma cancel_for_connection_settled s id :
  settled s (cancel_transport_for_connection_current s id).1
    (cancel_transport_for_connection_current s id).2.
Proof.
  unfold cancel_transport_for_connection_current.
  destruct (transport_pending _) as [p|]; [|by constructor].
  destruct (pt_owner p); simpl; [by constructor|]. case_bool_decide; [|by constructor].
  apply finish_unchecked_settled.
Qed.

Lemma settled_pending s s' c :
  settled s s' c ->
  match finished_request_id c with
  | Some id => pending_request s = Some id /\ transport s' = TransportAvailable id
  | None => s' = s
  end.
Proof.
  intros [c' Hc|p o Hp]; [by rewrite Hc|]. unfold pending_request. rewrite Hp. simpl.
  split; [done|]. destruct s. simpl. by case_match_goal.
Qed.

Lemma settled_frame s s' c :
  settled s s' c -> provider_session s' = provider_session s /\ connection s' = connection s.
Proof. intros [c' Hc|p o Hp]; [done|]. destruct s. simpl. by case_match_goal. Qed.

Lemma cancel_current_idle s :
  transport_pending (transport (cancel_current_transport s).1) = None /\
  (transport_pending (transport s) = None -> (cancel_current_transport s).2 = CompletionStale) /\
  (forall p, transport_pending (transport s) = Some p ->
   (cancel_current_transport s).2 = Finished (pt_request_id p) OutCancelled).
Proof.
  pose proof (settled_pending _ _ _ (cancel_current_settled s)) as H. revert H.
  destruct (transport_pending (transport s)) as [p|] eqn:E.
  - intros H. assert (Hc : (cancel_current_transport s).2 = Finished (pt_request_id p) OutCancelled).
    { unfold cancel_current_transport. rewrite E. by apply finish_unchecked_matching. }
    rewrite Hc in *. destruct H as [_ ->]. split_ands; [done..|]. by intros q [= <-].
  - intros _. unfold cancel_current_transport. rewrite E. split_ands; done.
Qed.

(** The calls that change a transport, a session, a connection or the history. *)
Definition touches_core (c : LifecycleCall) : bool :=
  match c with
  | ObserveMusic _ _ | RetireHistoryAssociation | AcknowledgeHistoryTransition _
  | ResetObservationCorrelation | ResetObservationBaselines | ClearPendingCommandCorrelation
  | CancelMonitor | Suspend | BeginProviderSession | RetireProviderSession _
  | BeginConnectionAttempt _ | ConnectionEstablished _ _ | ConnectionFailed _ _
  | ConnectionExpired _ _ | ConnectionDisconnected _ _
  | BeginTransport _ _ _ | FinishTransport _ _ _ | ExpireTransport _ _ | CancelTransport _ _ =>
      true
  | _ => false
  end.

Lemma untouched_core s c :
  touches_core c = false ->
  core (lifecycle_step s c).1 = core s /\ reported (lifecycle_step s c).2 = [] /\
  started c (lifecycle_step s c).2 = [].
Proof.
  intros Hc. destruct c; try discriminate Hc; simpl; destruct s; unfold relabel,
    begin_play_handoff, observe_play_handoff, expire_play_handoff, settle_play_handoff,
    finish_play_handoff, begin_command_feedback, invalidate_command_feedback,
    dismiss_command_feedback, request_monitor, begin_monitor, finish_monitor, resume,
    begin_authorization_effect, begin_authorization, finish_authorization,
    invalidate_authorization, on_player, begin_artwork_effect, complete_artwork_request,
    reset_artwork, begin_artwork_retry_effect, complete_artwork_retry; simpl;
    repeat (case_match_goal; simpl); split_ands; try reflexivity; simplify_eq; done.
Qed.

(** ** Accounting of transport requests *)

Definition last_request (s : MusicProviderLifecycle) : LifecycleId :=
  match transport s with TransportAvailable l => l | TransportPending p => pt_request_id p end.

(** What a new provider session silently drops. *)
Definition dropped (s : MusicProviderLifecycle) (c : LifecycleCall) : list LifecycleId :=
  match c with BeginProviderSession => option_list (pending_request s) | _ => [] end.

(** The effect of a step on the books: [ended] leaves, [new] comes. *)
Definition booked (s s' : MusicProviderLifecycle) (new ended : list LifecycleId) : Prop :=
  option_list (pending_request s) ++ new = ended ++ option_list (pending_request s') /\
  (new = [] /\ last_request s' = last_request s \/
   new = [last_request s + 1] /\ last_request s' = last_request s + 1).

Lemma booked_same s s' : transport s' = transport s -> booked s s' [] [].
Proof.
  unfold booked, pending_request, last_request. intros ->. rewrite app_nil_r. auto.
Qed.

(** A request was settled, with other fields changed before and after. *)
Lemma booked_settled s s1 s1' s' c :
  transport s1 = transport s -> settled s1 s1' c -> transport s' = transport s1' ->
  booked s s' [] (option_list (finished_request_id c)).
Proof.
  unfold booked, last_request, pending_request. intros E1 Hs E2. rewrite E2, <- E1, app_nil_r.
  apply settled_pending in Hs. unfold pending_request in Hs.
  destruct (finished_request_id c) as [id|]; simpl; [|by subst s1'; auto].
  destruct Hs as [Hp ->]. rewrite Hp. simpl. split; [done|left]. split; [done|].
  destruct (transport s1); simpl in *; by simplify_eq.
Qed.

Lemma settled_finish s g id o :
  settled s (finish_transport s g id o).1 (finish_transport s g id o).2.
Proof.
  unfold finish_transport. destruct (transport_pending _) as [p|]; [|by constructor].
  destruct (_ || _); [by constructor|].
  destruct (match pt_owner p with OwnedByProvider _ => _ | _ => _ end);
    apply finish_unchecked_settled.
Qed.
Lemma settled_expire s g now :
  settled s (expire_transport s g now).1 (expire_transport s g now).2.
Proof.
  unfold expire_transport. destruct (transport_pending _) as [p|]; [|by constructor].
  case_bool_decide; simpl; [|by constructor]. case_bool_decide; [by constructor|].
  apply finish_unchecked_settled.
Qed.

(** The connection changes first, then the transport it owned is settled. *)
Lemma finish_connection_settled s id cb :
  exists s1, transport s1 = transport s /\ observations s1 = observations s /\
    provider_session s1 = provider_session s /\ connection s1 = connection s /\
    settled s1 (finish_connection s id cb).1 (ce_transport (finish_connection s id cb).2).
Proof.
  unfold finish_connection. case_bool_decide.
  - exists s. split_ands; try done. by constructor.
  - set (s1 := s <| command_feedback := _ |> <| player_state := _ |>). exists s1.
    pose proof (cancel_for_connection_settled s1 id) as Hs.
    destruct (cancel_transport_for_connection_current s1 id).
    split_ands; [by destruct s..|exact Hs].
Qed.

Lemma begin_connection_settled s now :
  exists s1 c, transport s1 = transport s /\ observations s1 = observations s /\
    provider_session s1 = provider_session s /\
    connection s1 = (begin_attempt (connection s) now).1 /\
    settled s1 (begin_connection_attempt s now).1 c /\
    c = completion_of (RAttempt (begin_connection_attempt s now).2).
Proof.
  unfold begin_connection_attempt. destruct (begin_attempt (connection s) now) as [conn a].
  set (s1 := s <| connection := conn |>).
  assert (H1 : transport s1 = transport s /\ observations s1 = observations s /\
               provider_session s1 = provider_session s /\ connection s1 = conn)
    by (by destruct s).
  destruct H1 as (Ht & Ho & Hp & Hc).
  destruct a; try by (exists s1, CompletionStale; split_ands; try done; by constructor).
  destruct (callback_id (connection s)) as [prev|].
  - pose proof (cancel_for_connection_settled s1 prev) as Hs.
    destruct (cancel_transport_for_connection_current s1 prev) as [s2 c2]. by exists s1, c2.
  - exists s1, CompletionStale. split_ands; try done. by constructor.
Qed.

Lemma invalidate_provider_work_fields s :
  transport (invalidate_provider_work s) = transport s /\
  observations (invalidate_provider_work s) = clear_pending_skips (observations s) /\
  connection (invalidate_provider_work s) = connection_reset (connection s) /\
  provider_session (invalidate_provider_work s) = epoch_invalidate (provider_session s).
Proof. by destruct s. Qed.

Lemma retire_all_settled s :
  exists s1, settled s s1 (retire_all_provider_work s).2 /\
    transport_pending (transport s1) = None /\
    (retire_all_provider_work s).1 = invalidate_provider_work s1.
Proof.
  pose proof (cancel_current_settled s) as H. pose proof (cancel_current_idle s) as [Hn _].
  unfold retire_all_provider_work. destruct (cancel_current_transport s) as [s1 c]. eauto.
Qed.

Lemma begin_transport_booked s owner command now :
  booked s (lifecycle_step s (BeginTransport owner command now)).1
    (started (BeginTransport owner command now)
       (lifecycle_step s (BeginTransport owner command now)).2) [].
Proof.
  simpl. unfold begin_transport_effect, transport_begin, id_next, booked, last_request,
    pending_request. case_match_goal; simpl; [rewrite app_nil_r; auto|].
  destruct (transport s) as [l|p] eqn:E; simpl; rewrite ?E; simpl; [|rewrite ?E; auto].
  destruct (checked_add u64_max l 1) as [id|] eqn:Ei; simpl; rewrite ?E; simpl; [|auto].
  apply checked_add_Some in Ei as [_ ->]. destruct s. simpl in *.
  case_match_goal; simpl; auto.
Qed.

Lemma retire_all_booked s0 s :
  transport s = transport s0 ->
  booked s0 (retire_all_provider_work s).1 []
    (option_list (finished_request_id (retire_all_provider_work s).2)).
Proof.
  intros E0. destruct (retire_all_settled s) as (s2 & Hs & _ & E).
  eapply booked_settled; [exact E0|exact Hs|].
  rewrite E. by destruct (invalidate_provider_work_fields s2) as [-> _].
Qed.

Lemma suspend_booked s :
  booked s (suspend s).1 [] (option_list (cancelled_transport_request_id (suspend s).2)).
Proof.
  unfold suspend. set (s1 := s <| monitor := _ |> <| monitor_generation := _ |>).
  pose proof (cancel_current_settled s1) as Hs. destruct (cancel_current_transport s1) as [s2 c2].
  eapply booked_settled; [|exact Hs|]; [by destruct s|].
  exact (proj1 (invalidate_provider_work_fields s2)).
Qed.

Lemma begin_session_booked s :
  booked s (begin_provider_session s).1 [] (option_list (pending_request s)).
Proof.
  unfold begin_provider_session. destruct (retire_all_settled s) as (s2 & Hs & Hn & E).
  destruct (retire_all_provider_work s) as [s3 c3]. simpl in Hs, E. subst s3.
  assert (Hf : option_list (finished_request_id c3) = option_list (pending_request s)).
  { apply settled_pending in Hs. destruct (finished_request_id c3) as [id|].
    - by destruct Hs as [-> _].
    - subst s2. unfold pending_request. by rewrite Hn. }
  rewrite <- Hf. eapply booked_settled; [done|exact Hs|].
  destruct (epoch_begin _) as [ep [g|]]; by destruct s2.
Qed.

Lemma retire_session_booked s id :
  booked s (retire_provider_session s id).1 []
    (option_list (finished_request_id (retire_provider_session s id).2)).
Proof.
  unfold retire_provider_session. destruct (epoch_finish _ _) as [ep []].
  - apply retire_all_booked. by destruct s.
  - by apply booked_same.
Qed.

Lemma finish_connection_booked s conn id cb :
  booked s (finish_connection (s <| connection := conn |>) id cb).1 []
    (option_list (finished_request_id
       (ce_transport (finish_connection (s <| connection := conn |>) id cb).2))).
Proof.
  destruct (finish_connection_settled (s <| connection := conn |>) id cb)
    as (s1 & Ht & _ & _ & _ & Hs).
  eapply booked_settled; [|exact Hs|done]. rewrite Ht. by destruct s.
Qed.

Lemma begin_connection_booked s now :
  booked s (begin_connection_attempt s now).1 []
    (option_list (finished_request_id
       (completion_of (RAttempt (begin_connection_attempt s now).2)))).
Proof.
  destruct (begin_connection_settled s now) as (s1 & c1 & Ht & _ & _ & _ & Hs & <-).
  by eapply booked_settled.
Qed.

(** Every step keeps the books. *)
Lemma step_booked s c :
  booked s (lifecycle_step s c).1 (started c (lifecycle_step s c).2)
    (dropped s c ++ reported (lifecycle_step s c).2).
Proof.
  destruct (touches_core c) eqn:Hc.
  2:{ destruct (untouched_core s c Hc) as (E & -> & ->). injection E as _ _ Ht _.
      assert (dropped s c = []) as -> by by destruct c. by apply booked_same. }
  destruct c; try discriminate Hc; try by (apply booked_same; destruct s).
  - apply retire_all_booked. by destruct s.
  - pose proof (suspend_booked s) as H. simpl. unfold reported. simpl.
    by destruct (cancelled_transport_request_id (suspend s).2).
  - simpl. rewrite app_nil_r. apply begin_session_booked.
  - apply retire_session_booked.
  - apply begin_connection_booked.
  - simpl. unfold connection_established. destruct (established_for_at _ _ _).
    apply booked_same. by destruct s.
  - simpl. unfold connection_failed_effect, end_connection. destruct (failed_for _ _ _).
    apply finish_connection_booked.
  - simpl. unfold connection_expired_effect. destruct (expired_for _ _ _).
    apply finish_connection_booked.
  - simpl. unfold connection_disconnected_effect, end_connection. destruct (failed_for _ _ _).
    apply finish_connection_booked.
  - apply begin_transport_booked.
  - eapply booked_settled; [done|apply settled_finish|done].
  - eapply booked_settled; [done|apply settled_expire|done].
  - eapply booked_settled; [done|apply finish_unchecked_settled|done].
Qed.

Definition all_started (s : MusicProviderLifecycle) (calls : list LifecycleCall) :=
  concat (zip_with started calls (run_outputs lifecycle_step s calls)).
Definition all_reported (s : MusicProviderLifecycle) (calls : list LifecycleCall) :=
  concat (reported <$> run_outputs lifecycle_step s calls).

(** No provider session is begun over a pending request. *)
Fixpoint sessions_begin_idle (s : MusicProviderLifecycle) (calls : list LifecycleCall) : Prop :=
  match calls with
  | [] => True
  | c :: rest => dropped s c = [] /\ sessions_begin_idle (lifecycle_step s c).1 rest
  end.

Lemma run_booked s calls :
  exists ended,
    option_list (pending_request s) ++ all_started s calls =
      ended ++ option_list (pending_request (run_state lifecycle_step s calls)) /\
    all_reported s calls `sublist_of` ended /\
    (sessions_begin_idle s calls -> ended = all_reported s calls) /\
    all_started s calls = seqZ (last_request s + 1) (Z.of_nat (length (all_started s calls))).
Proof.
  revert s. induction calls as [|c calls IH]; intros s.
  - exists []. unfold all_started, all_reported. simpl. rewrite app_nil_r. done.
  - destruct (step_booked s c) as [Hb Hn]. destruct (IH (lifecycle_step s c).1)
      as (ended & Hbal & Hsub & Hidle & Hseq). clear IH.
    unfold all_started, all_reported in *. rewrite run_outputs_cons, run_state_cons. simpl.
    set (s' := (lifecycle_step s c).1) in *. set (r := (lifecycle_step s c).2) in *.
    set (later := concat (zip_with started calls _)) in *.
    set (told := concat (reported <$> _)) in *.
    exists ((dropped s c ++ reported r) ++ ended). split_ands.
    + rewrite app_assoc, Hb, <- app_assoc, Hbal. by rewrite <- !app_assoc.
    + rewrite <- app_assoc. apply sublist_inserts_l. by apply sublist_app.
    + intros [-> Hi]. by rewrite Hidle.
    + destruct Hn as [[-> El]|[-> El]]; rewrite El in Hseq; simpl; [done|].
      rewrite seqZ_cons by lia. f_equal. rewrite Hseq at 1. f_equal; lia.
Qed.

(** C24: Every transport request is reported exactly once.  The requests that
    are started are numbered one, two, three and so on; whatever ends them (a
    callback, the deadline, a cancellation, the loss of their connection, the
    end of their session, a suspension), the identities reported as finished
    followed by the one still pending are a part of those started, in their
    order and without repetition; and if no provider session is begun over a
    pending request, they are all of them. *)
Theorem transport_reported_exactly_once calls :
  let s := run_state lifecycle_step default_lifecycle calls in
  let begun := all_started default_lifecycle calls in
  let told := all_reported default_lifecycle calls ++ option_list (pending_request s) in
  begun = seqZ 1 (Z.of_nat (length begun)) /\
  told `sublist_of` begun /\
  (sessions_begin_idle default_lifecycle calls -> told = begun).
Proof.
  intros s begun told.
  destruct (run_booked default_lifecycle calls) as (ended & Hbal & Hsub & Hidle & Hseq).
  simpl in Hbal. subst s begun told. split_ands; [exact Hseq| |].
  - rewrite Hbal. by apply sublist_app.
  - intros Hi. rewrite Hbal. by rewrite Hidle.
Qed.

(** ** Owners of a pending request, and what the history waits for *)

Definition flying (s : MusicProviderLifecycle) (id : LifecycleId) : Prop :=
  exists p, transport_pending (transport s) = Some p /\ pt_request_id p = id /\
    is_skip (pt_command p) = true.
Definition known (s : MusicProviderLifecycle) (id : LifecycleId) : Prop := id <= last_request s.

Definition owner_alive (s : MusicProviderLifecycle) : Prop :=
  forall p, transport_pending (transport s) = Some p -> owner_is_current s (pt_owner p) = true.
Definition history_waits (s : MusicProviderLifecycle) : Prop :=
  tracker_waits (known s) (flying s) (observations s).

Lemma flying_none s id : transport_pending (transport s) = None -> ~ flying s id.
Proof. intros E (p & Hp & _). congruence. Qed.

(** Waiting depends on the transport and the tracker only. *)
Lemma history_waits_ext s s' :
  transport s' = transport s -> observations s' = observations s ->
  history_waits s -> history_waits s'.
Proof.
  intros Et Eo. unfold history_waits. rewrite Eo. apply tracker_waits_mono.
  - intros id. unfold known, last_request. by rewrite Et.
  - intros id. unfold flying. by rewrite Et.
Qed.

Lemma history_waits_tracker s s' :
  transport s' = transport s ->
  (forall k f, tracker_waits k f (observations s) -> tracker_waits k f (observations s')) ->
  history_waits s -> history_waits s'.
Proof.
  intros Et Ho Hw. eapply tracker_waits_mono; [| |by apply Ho, Hw].
  - intros id. unfold known, last_request. by rewrite Et.
  - intros id. unfold flying. by rewrite Et.
Qed.

Lemma settled_waits s s' c : settled s s' c -> history_waits s -> history_waits s'.
Proof.
  intros Hs Hw. pose proof (settled_pending _ _ _ Hs) as Hp. destruct Hs as [c Hc|p o Hpend].
  - done.
  - destruct Hp as [_ Ht]. simpl in Ht. unfold history_waits in *.
    set (s1 := s <| transport := _ |>) in *. cbv zeta in *.
    assert (Ho : observations s1 = observations s) by by destruct s.
    assert (Hl : forall s2, transport s2 = TransportAvailable (pt_request_id p) ->
              forall id, known s id -> known s2 id).
    { intros s2 E id. unfold known, last_request. rewrite E.
      destruct (transport s); simpl in Hpend; simplify_eq. done. }
    destruct (is_skip (pt_command p)) eqn:Es.
    + assert (Eo : forall t, observations (s1 <| observations := t |>) = t) by by destruct s.
      rewrite Eo, Ho. eapply tracker_waits_mono; [apply Hl; by destruct s| |].
      2:{ apply finish_skip_waits; [by case_bool_decide|exact Hw]. }
      intros id [(q & Hq & Hid & _) Hne]. rewrite Hpend in Hq. by simplify_eq.
    + rewrite Ho. eapply tracker_waits_mono; [apply Hl; by destruct s| |exact Hw].
      intros id (q & Hq & _ & Hsk). rewrite Hpend in Hq. injection Hq as ->. congruence.
Qed.

Lemma invalidate_waits s : history_waits s -> history_waits (invalidate_provider_work s).
Proof.
  destruct (invalidate_provider_work_fields s) as (Et & Eo & _).
  apply history_waits_tracker; [done|]. intros k f. rewrite Eo. apply reject_skips_waits.
Qed.

Lemma begin_transport_waits s owner command now :
  history_waits s -> history_waits (begin_transport_effect s owner command now).1.
Proof.
  intros Hw. unfold begin_transport_effect, transport_begin, id_next.
  destruct (negb _); [done|]. destruct (transport s) as [l|p] eqn:E; [|done].
  destruct (checked_add u64_max l 1) as [id|] eqn:Ei; [|done].
  apply checked_add_Some in Ei as [_ ->]. cbn [fst pt_request_id pt_started_at].
  set (p := {| pt_owner := owner; pt_request_id := _; pt_started_at := _; pt_command := _ |}).
  assert (Hw1 : tracker_waits (fun x => x <= l) (fun _ => False) (observations s)).
  { eapply tracker_waits_mono; [| |exact Hw].
    - intros x. unfold known, last_request. by rewrite E.
    - intros x (q & Hq & _). by rewrite E in Hq. }
  set (s1 := s <| transport := TransportPending p |>).
  assert (Hf : forall s2, transport s2 = TransportPending p ->
            (forall x, x <= l -> known s2 x) /\ known s2 (l + 1) /\
            (is_skip command = true -> flying s2 (l + 1))).
  { intros s2 E2. unfold known, last_request, flying. rewrite E2. simpl. split_ands; [lia|lia|].
    intros. by exists p. }
  assert (Ho : observations s1 = observations s) by by destruct s.
  destruct (is_skip command) eqn:Es; unfold history_waits.
  - assert (Eo : forall t, observations (s1 <| observations := t |>) = t) by by destruct s.
    rewrite Eo, Ho. destruct (Hf (s1 <| observations := issue_skip (observations s) (l + 1) now |>))
      as (Hk & Hk1 & Hfl); [subst s1; by destruct s|].
    apply issue_skip_waits; [|done|by apply Hfl|].
    + eapply tracker_waits_mono; [exact Hk| |exact Hw1]. done.
    + intros q Hq Hid. pose proof (tw_known _ _ _ Hw1) as Hkn. rewrite Forall_forall in Hkn.
      specialize (Hkn q Hq). simpl in Hkn. lia.
  - rewrite Ho. destruct (Hf s1) as (Hk & _); [by destruct s|].
    eapply tracker_waits_mono; [exact Hk| |exact Hw1]. done.
Qed.

Lemma owner_alive_ext s s' :
  transport s' = transport s -> provider_session s' = provider_session s ->
  connection s' = connection s -> owner_alive s -> owner_alive s'.
Proof.
  unfold owner_alive, owner_is_current. by intros -> -> ->.
Qed.

Lemma owner_alive_idle s : transport_pending (transport s) = None -> owner_alive s.
Proof. intros E p Hp. congruence. Qed.

Lemma settled_owner s s' c : settled s s' c -> owner_alive s -> owner_alive s'.
Proof.
  intros Hs Ho. pose proof (settled_pending _ _ _ Hs) as Hp.
  destruct (finished_request_id c); [|by subst s'].
  destruct Hp as [_ Ht]. apply owner_alive_idle. by rewrite Ht.
Qed.

Lemma established_callback conn id : is_established conn id = true -> callback_id conn = Some id.
Proof.
  unfold is_established, callback_id. destruct (conn_state conn); try done.
  by intros ->%bool_decide_eq_true_1.
Qed.

(** The connection changes: a request it owned is gone, the others stay. *)
Lemma cancel_for_connection_owner s s0 id :
  transport s0 = transport s -> provider_session s0 = provider_session s -> owner_alive s ->
  (forall cid, is_established (connection s) cid = true ->
     is_established (connection s0) cid = true \/ cid = id) ->
  owner_alive (cancel_transport_for_connection_current s0 id).1.
Proof.
  intros Et Ep Ho Hc. unfold cancel_transport_for_connection_current. rewrite Et.
  destruct (transport_pending (transport s)) as [p|] eqn:Hp.
  2:{ apply owner_alive_idle. simpl. by rewrite Et. }
  specialize (Ho p Hp).
  destruct (match pt_owner p with OwnedByProvider _ => _ | _ => _ end) eqn:Eo.
  - pose proof (finish_unchecked_settled s0 (provider_generation (pt_owner p))
      (pt_request_id p) OutCancelled) as Hs.
    rewrite (finish_unchecked_matching s0 p) in Hs by (by rewrite Et).
    apply settled_pending in Hs as [_ Ht]. apply owner_alive_idle. by rewrite Ht.
  - intros q Hq. simpl in Hq |- *. rewrite Et, Hp in Hq. injection Hq as <-.
    unfold owner_is_current in *. rewrite Ep. destruct (pt_owner p) as [g|g cid]; [done|].
    apply andb_true_iff in Ho as [-> Hest]. apply bool_decide_eq_false_1 in Eo.
    by destruct (Hc cid Hest).
Qed.

Lemma finish_connection_owner s conn id cb :
  owner_alive s -> (cb = CallbackStale -> conn = connection s) ->
  (cb = CallbackAccepted -> forall cid, is_established (connection s) cid = true -> cid = id) ->
  owner_alive (finish_connection (s <| connection := conn |>) id cb).1.
Proof.
  intros Ho Hst Hacc. unfold finish_connection.
  destruct cb; [rewrite bool_decide_eq_false_2 by done|rewrite bool_decide_eq_true_2 by done].
  - set (s1 := s <| connection := conn |> <| command_feedback := _ |> <| player_state := _ |>).
    assert (H : owner_alive (cancel_transport_for_connection_current s1 id).1).
    { apply (cancel_for_connection_owner s); [by destruct s|by destruct s|done|].
      intros cid Hcid. right. by apply Hacc. }
    by destruct (cancel_transport_for_connection_current s1 id).
  - apply (owner_alive_ext s); [by destruct s..| |done]. rewrite Hst by done. by destruct s.
Qed.

Lemma established_connected conn id :
  is_established conn id = true <-> conn_state conn = ConnConnected id.
Proof.
  unfold is_established. destruct (conn_state conn); try (split; congruence).
  rewrite bool_decide_eq_true. split; congruence.
Qed.

Lemma failed_for_owner s id now :
  owner_alive s ->
  owner_alive (finish_connection (s <| connection := (failed_for (connection s) id now).1 |>) id
                 (failed_for (connection s) id now).2).1.
Proof.
  intros Ho. apply finish_connection_owner; [done| |]; unfold failed_for; case_bool_decide as Hc;
    try done.
  intros _ cid Hest%established_connected. unfold classify_at in Hc. rewrite Hest in Hc.
  by case_bool_decide.
Qed.

Lemma expired_for_owner s id now :
  owner_alive s ->
  owner_alive (finish_connection (s <| connection := (expired_for (connection s) id now).1 |>) id
                 (expired_for (connection s) id now).2).1.
Proof.
  intros Ho. apply finish_connection_owner; [done| |]; unfold expired_for;
    destruct (conn_state (connection s)) eqn:Es; simpl; try done.
  - by destruct (_ || _).
  - intros _ cid Hest%established_connected. congruence.
Qed.

Lemma begin_connection_owner s now :
  owner_alive s -> owner_alive (begin_connection_attempt s now).1.
Proof.
  intros Ho. unfold begin_connection_attempt.
  destruct (begin_attempt (connection s) now) as [conn a] eqn:Eb.
  assert (Hsame : (forall id, a <> AttemptStarted id) -> conn = connection s).
  { revert Eb. unfold begin_attempt. intros Eb Ha.
    step_cases_in Eb; try done; exfalso; by eapply Ha. }
  set (s1 := s <| connection := conn |>).
  assert (Hkeep : (forall id, a <> AttemptStarted id) -> owner_alive s1).
  { intros Ha. apply (owner_alive_ext s); [by destruct s..| |done]. rewrite <- Hsame by done.
    by destruct s. }
  destruct a as [id| | |]; try by apply Hkeep. clear Hsame Hkeep.
  destruct (callback_id (connection s)) as [prev|] eqn:Ec.
  - assert (H : owner_alive (cancel_transport_for_connection_current s1 prev).1).
    { apply (cancel_for_connection_owner s); [by destruct s|by destruct s|done|].
      intros cid Hcid%established_callback. right. congruence. }
    by destruct (cancel_transport_for_connection_current s1 prev).
  - simpl. intros p Hp. assert (Hp' : transport_pending (transport s) = Some p) by by destruct s.
    specialize (Ho p Hp'). unfold owner_is_current in *. destruct (pt_owner p) as [g|g cid].
    + rewrite <- Ho. by destruct s.
    + apply andb_true_iff in Ho as [_ Hest%established_callback]. congruence.
Qed.

Lemma established_for_owner s id now :
  owner_alive s -> owner_alive (connection_established s id now).1.
Proof.
  intros Ho. unfold connection_established, established_for_at.
  destruct (_ || _) eqn:Ec; [by apply (owner_alive_ext s); destruct s|].
  simpl. intros p Hp. assert (Hp' : transport_pending (transport s) = Some p) by by destruct s.
  specialize (Ho p Hp'). unfold owner_is_current in *. destruct (pt_owner p) as [g|g cid].
  - rewrite <- Ho. by destruct s.
  - apply andb_true_iff in Ho as [_ Hest%established_connected]. rewrite Hest in Ec. done.
Qed.

(** ** The invariant *)

Definition lifecycle_ok (s : MusicProviderLifecycle) : Prop := owner_alive s /\ history_waits s.

Lemma lifecycle_ok_ext s s' : core s' = core s -> lifecycle_ok s -> lifecycle_ok s'.
Proof.
  intros E [Ho Hw]. injection E as Ep Ec Et Eo. split.
  - by apply (owner_alive_ext s).
  - by apply (history_waits_ext s).
Qed.

Lemma idle_ok s : transport_pending (transport s) = None -> history_waits s -> lifecycle_ok s.
Proof. intros Ht Hw. split; [by apply owner_alive_idle|done]. Qed.

Lemma cancel_current_ok s0 s :
  transport s = transport s0 -> observations s = observations s0 -> history_waits s0 ->
  let s1 := invalidate_provider_work (cancel_current_transport s).1 in
  transport_pending (transport s1) = None /\ history_waits s1.
Proof.
  intros Et Eo Hw s1. pose proof (cancel_current_idle s) as [Hn _].
  destruct (invalidate_provider_work_fields (cancel_current_transport s).1) as (Ht & _).
  subst s1. rewrite Ht. split; [done|]. apply invalidate_waits.
  eapply settled_waits; [apply cancel_current_settled|]. by apply (history_waits_ext s0).
Qed.

Lemma retire_all_ok s0 s :
  transport s = transport s0 -> observations s = observations s0 -> history_waits s0 ->
  transport_pending (transport (retire_all_provider_work s).1) = None /\
  history_waits (retire_all_provider_work s).1.
Proof.
  intros Et Eo Hw. pose proof (cancel_current_ok s0 s Et Eo Hw) as H.
  unfold retire_all_provider_work. by destruct (cancel_current_transport s).
Qed.

Lemma session_calls_ok s c :
  match c with
  | CancelMonitor | Suspend | BeginProviderSession | RetireProviderSession _ => True
  | _ => False
  end ->
  lifecycle_ok s -> lifecycle_ok (lifecycle_step s c).1.
Proof.
  intros Hc [Ho Hw]. destruct c; try done; simpl.
  - apply idle_ok; by (apply (retire_all_ok s); [by destruct s..|]).
  - unfold suspend. set (s1 := s <| monitor := _ |> <| monitor_generation := _ |>).
    pose proof (cancel_current_ok s s1 ltac:(by destruct s) ltac:(by destruct s) Hw) as [H1 H2].
    destruct (cancel_current_transport s1) as [s2 c2]. by apply idle_ok.
  - unfold begin_provider_session. pose proof (retire_all_ok s s eq_refl eq_refl Hw) as [H1 H2].
    destruct (retire_all_provider_work s) as [s1 c1]. simpl in H1, H2.
    destruct (epoch_begin _) as [ep [g|]]; simpl; apply idle_ok;
      solve [by destruct s1 | by apply (history_waits_ext s1); destruct s1].
  - unfold retire_provider_session. destruct (epoch_finish _ _) as [ep []]; [|by split].
    apply idle_ok; by (apply (retire_all_ok s); [by destruct s..|]).
Qed.

Lemma connection_calls_ok s c :
  match c with
  | BeginConnectionAttempt _ | ConnectionEstablished _ _ | ConnectionFailed _ _
  | ConnectionExpired _ _ | ConnectionDisconnected _ _ => True
  | _ => False
  end ->
  lifecycle_ok s -> lifecycle_ok (lifecycle_step s c).1.
Proof.
  intros Hc [Ho Hw].
  assert (Hfin : forall conn id cb,
            history_waits (finish_connection (s <| connection := conn |>) id cb).1).
  { intros conn id cb. destruct (finish_connection_settled (s <| connection := conn |>) id cb)
      as (s1 & Et & Eo & _ & _ & Hs).
    eapply settled_waits; [exact Hs|]. apply (history_waits_ext s);
      [rewrite Et; by destruct s|rewrite Eo; by destruct s|done]. }
  destruct c; try done; simpl.
  - split; [by apply begin_connection_owner|].
    destruct (begin_connection_settled s now) as (s1 & c1 & Et & Eo & _ & _ & Hs & _).
    eapply settled_waits; [exact Hs|]. by apply (history_waits_ext s).
  - split; [by apply established_for_owner|]. unfold connection_established.
    destruct (established_for_at _ _ _). by apply (history_waits_ext s); destruct s.
  - pose proof (failed_for_owner s id now Ho) as H.
    unfold connection_failed_effect, end_connection.
    destruct (failed_for _ _ _). split; [exact H|apply Hfin].
  - pose proof (expired_for_owner s id now Ho) as H. unfold connection_expired_effect.
    destruct (expired_for _ _ _). split; [exact H|apply Hfin].
  - pose proof (failed_for_owner s id now Ho) as H.
    unfold connection_disconnected_effect, end_connection.
    destruct (failed_for _ _ _). split; [exact H|apply Hfin].
Qed.

Lemma transport_calls_ok s c :
  match c with
  | BeginTransport _ _ _ | FinishTransport _ _ _ | ExpireTransport _ _ | CancelTransport _ _ => True
  | _ => False
  end ->
  lifecycle_ok s -> lifecycle_ok (lifecycle_step s c).1.
Proof.
  intros Hc [Ho Hw].
  assert (Hset : forall s' c', settled s s' c' -> lifecycle_ok s').
  { intros s' c' Hs. split; [by eapply settled_owner|by eapply settled_waits]. }
  destruct c; try done; simpl.
  - split; [|by apply begin_transport_waits]. unfold begin_transport_effect, transport_begin.
    destruct (owner_is_current s owner) eqn:Eo; simpl; [|done].
    destruct (transport s) as [l|p]; [|done]. destruct (id_next l) as [id|]; [|done].
    intros q Hq. destruct (is_skip command); simpl in *; destruct s; simpl in *;
      injection Hq as <-; exact Eo.
  - eapply Hset, settled_finish.
  - eapply Hset, settled_expire.
  - eapply Hset, finish_unchecked_settled.
Qed.

Lemma tracker_calls_ok s c :
  match c with
  | ObserveMusic _ _ | RetireHistoryAssociation | AcknowledgeHistoryTransition _
  | ResetObservationCorrelation | ResetObservationBaselines | ClearPendingCommandCorrelation => True
  | _ => False
  end ->
  lifecycle_ok s -> lifecycle_ok (lifecycle_step s c).1.
Proof.
  intros Hc [Ho Hw]. destruct c; try done; simpl;
    (split; [by apply (owner_alive_ext s); destruct s|]);
    (eapply (history_waits_tracker s); [by destruct s| |done]); intros k f Hkf;
    destruct s; simpl in *.
  - by apply observe_waits.
  - by apply tracker_reset_waits, forget_history_waits.
  - by apply acknowledge_waits.
  - by apply tracker_reset_waits.
  - by apply reset_observations_waits.
  - by apply reject_skips_waits.
Qed.

#[export] Instance lifecycle_invariant : Invariant lifecycle_step lifecycle_ok.
Proof.
  intros s c Hok. destruct (touches_core c) eqn:Hc.
  - destruct c; try discriminate Hc;
      first [by apply tracker_calls_ok | by apply session_calls_ok
            | by apply connection_calls_ok | by apply transport_calls_ok].
  - destruct (untouched_core s c Hc) as (E & _). by apply (lifecycle_ok_ext s).
Qed.

Lemma default_lifecycle_ok : lifecycle_ok default_lifecycle.
Proof.
  apply idle_ok; [done|]. split; [constructor|constructor|constructor| |].
  - by intros ? ?%elem_of_nil.
  - by intros ? ?%elem_of_nil.
Qed.

Lemma run_lifecycle_ok calls : lifecycle_ok (run_state lifecycle_step default_lifecycle calls).
Proof. apply run_invariant; [exact lifecycle_invariant|exact default_lifecycle_ok]. Qed.

(** C25: A pending request always has a live owner.  In every state the
    provider session that owns the pending transport request is current, and
    if a connection owns it, that connection is established: ending either
    ends the request with it.  The callback of the pending request is
    therefore reported with the outcome it brings, and never overruled. *)
Theorem pending_request_has_live_owner calls p outcome :
  let s := run_state lifecycle_step default_lifecycle calls in
  transport_pending (transport s) = Some p ->
  owner_is_current s (pt_owner p) = true /\
  (finish_transport s (provider_generation (pt_owner p)) (pt_request_id p) outcome).2
    = Finished (pt_request_id p) outcome.
Proof.
  intros s Hp. destruct (run_lifecycle_ok calls) as [Ho _]. fold s in Ho. specialize (Ho p Hp).
  split; [done|]. unfold finish_transport. rewrite Hp, !bool_decide_eq_true_2 by done. simpl.
  unfold owner_is_current in Ho. destruct (pt_owner p) as [g|g cid] eqn:Eo.
  - rewrite <- (finish_unchecked_matching s p) by done. by rewrite Eo.
  - apply andb_true_iff in Ho as [_ ->]. simpl.
    rewrite <- (finish_unchecked_matching s p) by done. by rewrite Eo.
Qed.

Lemma waiting_is_flying s h id rejected :
  history_waits s -> h ∈ pending_history (observations s) -> ph_kind h = AwaitingSkip id rejected ->
  pending_request s = Some id.
Proof.
  intros Hw Hh Hk.
  assert (Hid : id ∈ waiting_ids (observations s)).
  { apply list_elem_of_omap. exists h. split; [done|]. unfold awaited. by rewrite Hk. }
  destruct (tw_awaited _ _ _ Hw id Hid) as (q & Hq & <- & _ & Hqo).
  destruct (tw_flying _ _ _ Hw q Hq Hqo) as (p & Hp & Hpid & _).
  unfold pending_request. by rewrite Hp, <- Hpid.
Qed.

(** C26: History never stalls.  A transition waits for nothing but the skip
    command that is in flight, so that without one every transition is
    confirmed; and ten seconds after a command was sent its deadline reports
    it and confirms all that waited, whereupon the oldest transition is
    delivered and its acknowledgement accepted. *)
Theorem history_waits_only_for_flight calls :
  let s := run_state lifecycle_step default_lifecycle calls in
  (forall h id rejected, h ∈ pending_history (observations s) ->
     ph_kind h = AwaitingSkip id rejected -> pending_request s = Some id) /\
  (forall p now, transport_pending (transport s) = Some p ->
     pt_started_at p + TRANSPORT_TIMEOUT_MS <= now ->
     let r := expire_transport s (provider_generation (pt_owner p)) now in
     r.2 = Finished (pt_request_id p) OutTimedOut /\
     (forall h, h ∈ pending_history (observations r.1) -> exists k, ph_kind h = Confirmed k) /\
     (pending_history (observations r.1) <> [] ->
      exists t, current_history_transition (observations r.1) = Some t /\
        (acknowledge_transition r.1 (ht_id t)).2 = Acknowledged)).
Proof.
  intros s. pose proof (run_lifecycle_ok calls) as Hok. fold s in Hok. split.
  - intros h id rejected. apply waiting_is_flying, Hok.
  - intros p now Hp Hnow r.
    assert (Hr : r.2 = Finished (pt_request_id p) OutTimedOut).
    { subst r. unfold expire_transport. rewrite Hp, bool_decide_eq_true_2 by done. simpl.
      rewrite bool_decide_eq_false_2; [by apply finish_unchecked_matching|].
      unfold timestamp_saturating_duration_since, sat_sub. lia. }
    assert (Hw : history_waits r.1)
      by (subst r; eapply settled_waits; [apply settled_expire|apply Hok]).
    assert (Hn : pending_request r.1 = None).
    { pose proof (settled_expire s (provider_generation (pt_owner p)) now) as Hs. fold r in Hs.
      rewrite Hr in Hs. apply settled_pending in Hs as [_ Ht]. unfold pending_request.
      by rewrite Ht. }
    assert (Hall : forall h, h ∈ pending_history (observations r.1) ->
              exists k, ph_kind h = Confirmed k).
    { intros h Hh. destruct (ph_kind h) as [k|id rejected] eqn:Ek; [by exists k|].
      pose proof (waiting_is_flying _ _ _ _ Hw Hh Ek). congruence. }
    split_ands; [done|done|]. intros Hne. unfold current_history_transition,
      acknowledge_transition, on_tracker, acknowledge_history_transition.
    destruct (pending_history (observations r.1)) as [|h rest]; [done|].
    destruct (Hall h ltac:(by left)) as [k ->]. eexists. split; [done|]. simpl.
    by rewrite bool_decide_eq_true_2.
Qed.

(** ** Skips and the commands behind them *)

(** The tracker calls that a step may make. *)
Definition emits (c : LifecycleCall) (r : LifecycleReply) (tc : TrackerCall) : Prop :=
  match tc with
  | IssueSkip id t => exists owner command e,
      c = BeginTransport owner command t /\ is_skip command = true /\ r = REffect (Some e) /\
      eff_id e = id
  | FinishSkip id SkipAccepted =>
      exists g, c = FinishTransport g id OutAccepted /\ r = RCompletion (Finished id OutAccepted)
  | Observe snapshot timing => c = ObserveMusic snapshot timing
  | _ => True
  end.

Definition tracked (s s' : MusicProviderLifecycle) (P : TrackerCall -> Prop) : Prop :=
  exists tcs, observations s' = run_state tracker_step (observations s) tcs /\ Forall P tcs.

Lemma tracked_same s s' P : observations s' = observations s -> tracked s s' P.
Proof. intros E. exists []. split; [by rewrite E|constructor]. Qed.
Lemma tracked_one s s' P tc :
  observations s' = (tracker_step (observations s) tc).1 -> P tc -> tracked s s' P.
Proof. intros E HP. exists [tc]. split; [by rewrite run_state_one|by constructor]. Qed.
Lemma tracked_app s s1 s' P : tracked s s1 P -> tracked s1 s' P -> tracked s s' P.
Proof.
  intros (l & E & Hl) (l' & E' & Hl'). exists (l ++ l').
  split; [by rewrite run_state_app, <- E|by apply Forall_app].
Qed.

Lemma settled_tracked s s' c P :
  settled s s' c ->
  (forall id o, o <> SkipAccepted -> P (FinishSkip id o)) ->
  (forall id, c = Finished id OutAccepted -> P (FinishSkip id SkipAccepted)) ->
  tracked s s' P.
Proof.
  intros [c' _|p o Hp] Hrej Hacc; [by apply tracked_same|]. cbv zeta.
  destruct (is_skip _); [|by apply tracked_same; destruct s].
  apply (tracked_one _ _ _ (FinishSkip (pt_request_id p)
    (if bool_decide (o = OutAccepted) then SkipAccepted else SkipRejected))); [by destruct s|].
  case_bool_decide as Ho; [|by apply Hrej].
  apply Hacc. by rewrite Ho.
Qed.

Lemma finish_unchecked_outcome s g id o :
  (finish_transport_unchecked s g id o).2 = CompletionStale \/
  (finish_transport_unchecked s g id o).2 = Finished id o.
Proof.
  unfold finish_transport_unchecked. destruct (transport_finish _ _ _) as [st [p|]]; simpl; auto.
Qed.

(** Nothing but the provider's own answer reports acceptance. *)
Definition unaccepted (c : MusicTransportCompletion) : Prop := forall id, c <> Finished id OutAccepted.
Lemma unchecked_unaccepted s g id o :
  o <> OutAccepted -> unaccepted (finish_transport_unchecked s g id o).2.
Proof.
  intros Ho x E. destruct (finish_unchecked_outcome s g id o) as [E'|E']; congruence.
Qed.
Lemma cancel_current_unaccepted s : unaccepted (cancel_current_transport s).2.
Proof.
  unfold cancel_current_transport. destruct (transport_pending _); [|done].
  by apply unchecked_unaccepted.
Qed.
Lemma cancel_for_connection_unaccepted s id :
  unaccepted (cancel_transport_for_connection_current s id).2.
Proof.
  unfold cancel_transport_for_connection_current. destruct (transport_pending _); [|done].
  destruct (match pt_owner _ with OwnedByProvider _ => _ | _ => _ end); [|done].
  by apply unchecked_unaccepted.
Qed.

Section Tracked.
Context (P : TrackerCall -> Prop).
Context (Hclear : P ClearSkips) (Hreject : forall id o, o <> SkipAccepted -> P (FinishSkip id o)).

Lemma unaccepted_tracked s s' c : settled s s' c -> unaccepted c -> tracked s s' P.
Proof.
  intros Hs Hu. eapply settled_tracked; [exact Hs|exact Hreject|]. intros id E. by destruct (Hu id).
Qed.

Lemma invalidate_tracked s : tracked s (invalidate_provider_work s) P.
Proof.
  eapply (tracked_one _ _ _ ClearSkips); [|done].
  exact (proj1 (proj2 (invalidate_provider_work_fields s))).
Qed.

Lemma cancel_current_tracked s :
  tracked s (invalidate_provider_work (cancel_current_transport s).1) P.
Proof.
  eapply tracked_app; [|apply invalidate_tracked].
  eapply unaccepted_tracked; [apply cancel_current_settled|apply cancel_current_unaccepted].
Qed.

(** Only the tracker matters where a call starts and where it ends. *)
Lemma tracked_ext s s0 s1 s1' :
  observations s = observations s0 -> observations s1' = observations s1 ->
  tracked s s1 P -> tracked s0 s1' P.
Proof. intros E1 E2 (tcs & E & H). exists tcs. by rewrite E2, <- E1. Qed.

Lemma retire_all_tracked s s0 :
  observations s = observations s0 -> tracked s0 (retire_all_provider_work s).1 P.
Proof.
  intros E. eapply tracked_ext; [exact E|reflexivity|].
  pose proof (cancel_current_tracked s) as H. unfold retire_all_provider_work.
  by destruct (cancel_current_transport s).
Qed.

Lemma finish_connection_tracked s conn id cb :
  tracked s (finish_connection (s <| connection := conn |>) id cb).1 P.
Proof.
  unfold finish_connection. case_bool_decide; [apply tracked_same; by destruct s|].
  set (s1 := s <| connection := conn |> <| command_feedback := _ |> <| player_state := _ |>).
  pose proof (unaccepted_tracked _ _ _ (cancel_for_connection_settled s1 id)
    (cancel_for_connection_unaccepted s1 id)) as Ht.
  destruct (cancel_transport_for_connection_current s1 id).
  eapply tracked_ext; [|reflexivity|exact Ht]. by destruct s.
Qed.

Lemma begin_connection_tracked s now : tracked s (begin_connection_attempt s now).1 P.
Proof.
  unfold begin_connection_attempt. destruct (begin_attempt _ _) as [conn []];
    try by (apply tracked_same; destruct s).
  destruct (callback_id _) as [prev|]; [|by apply tracked_same; destruct s].
  set (s1 := s <| connection := conn |>).
  pose proof (unaccepted_tracked _ _ _ (cancel_for_connection_settled s1 prev)
    (cancel_for_connection_unaccepted s1 prev)) as H.
  destruct (cancel_transport_for_connection_current s1 prev).
  eapply tracked_ext; [|reflexivity|exact H]. by destruct s.
Qed.

Lemma suspend_tracked s : tracked s (suspend s).1 P.
Proof.
  unfold suspend. set (s1 := s <| monitor := _ |> <| monitor_generation := _ |>).
  pose proof (cancel_current_tracked s1) as H. destruct (cancel_current_transport s1).
  eapply tracked_ext; [|reflexivity|exact H]. by destruct s.
Qed.

Lemma begin_session_tracked s : tracked s (begin_provider_session s).1 P.
Proof.
  unfold begin_provider_session. pose proof (retire_all_tracked s s eq_refl) as H.
  destruct (retire_all_provider_work s) as [s1 c1].
  eapply tracked_ext; [reflexivity| |exact H].
  destruct (epoch_begin _) as [ep [g|]]; by destruct s1.
Qed.

Lemma retire_session_tracked s id : tracked s (retire_provider_session s id).1 P.
Proof.
  unfold retire_provider_session. destruct (epoch_finish _ _) as [ep []].
  - apply retire_all_tracked. by destruct s.
  - by apply tracked_same.
Qed.
End Tracked.

Lemma begin_transport_tracked s owner command now :
  let c := BeginTransport owner command now in
  tracked s (lifecycle_step s c).1 (emits c (lifecycle_step s c).2).
Proof.
  simpl. unfold begin_transport_effect, transport_begin.
  destruct (negb _); [by apply tracked_same|]. destruct (transport s); [|by apply tracked_same].
  destruct (id_next _) as [id|]; [|by apply tracked_same].
  destruct (is_skip command) eqn:Es; [|by apply tracked_same; destruct s].
  apply (tracked_one _ _ _ (IssueSkip id now)); [by destruct s|].
  do 3 eexists. split_ands; [done|exact Es|reflexivity|reflexivity].
Qed.

Lemma finish_transport_tracked s g id o :
  let c := FinishTransport g id o in
  tracked s (lifecycle_step s c).1 (emits c (lifecycle_step s c).2).
Proof.
  simpl. eapply settled_tracked; [apply settled_finish|by intros ? []|].
  intros x E. rewrite E. simpl. exists g. split; [|done].
  revert E. unfold finish_transport. destruct (transport_pending _) as [p|]; [|done].
  destruct (_ || _); [done|].
  destruct (match pt_owner p with OwnedByProvider _ => _ | _ => _ end); intros E;
    match type of E with (finish_transport_unchecked s g id ?o').2 = _ =>
      destruct (finish_unchecked_outcome s g id o') as [E'|E'] end;
    rewrite E' in E; by simplify_eq.
Qed.

Lemma step_tracked s c : tracked s (lifecycle_step s c).1 (emits c (lifecycle_step s c).2).
Proof.
  destruct (touches_core c) eqn:Hc.
  2:{ destruct (untouched_core s c Hc) as (E & _). apply tracked_same. by injection E. }
  assert (Hrej : forall id o, o <> SkipAccepted ->
            emits c (lifecycle_step s c).2 (FinishSkip id o)) by by intros ? [].
  destruct c; try discriminate Hc.
  - eapply (tracked_one _ _ _ (Observe _ _)); [by destruct s|done].
  - eapply (tracked_one _ _ _ RetireAssociation); [by destruct s|done].
  - eapply (tracked_one _ _ _ (Acknowledge _)); [by destruct s|done].
  - eapply (tracked_one _ _ _ TrackerReset); [by destruct s|done].
  - eapply (tracked_one _ _ _ ResetObservations); [by destruct s|done].
  - eapply (tracked_one _ _ _ ClearSkips); [by destruct s|done].
  - apply retire_all_tracked; [done|exact Hrej|by destruct s].
  - apply suspend_tracked; [done|exact Hrej].
  - apply begin_session_tracked; [done|exact Hrej].
  - apply retire_session_tracked; [done|exact Hrej].
  - apply begin_connection_tracked. exact Hrej.
  - simpl. unfold connection_established. destruct (established_for_at _ _ _).
    apply tracked_same. by destruct s.
  - set (P := emits _ _) in *. simpl. unfold connection_failed_effect, end_connection.
    destruct (failed_for _ _ _). by apply finish_connection_tracked.
  - set (P := emits _ _) in *. simpl. unfold connection_expired_effect.
    destruct (expired_for _ _ _). by apply finish_connection_tracked.
  - set (P := emits _ _) in *. simpl. unfold connection_disconnected_effect, end_connection.
    destruct (failed_for _ _ _). by apply finish_connection_tracked.
  - apply begin_transport_tracked.
  - apply finish_transport_tracked.
  - eapply (unaccepted_tracked _ Hrej); [apply settled_expire|]. unfold expire_transport.
    destruct (transport_pending _); [|done]. destruct (negb _); [done|].
    case_bool_decide; [done|]. by apply unchecked_unaccepted.
  - eapply (unaccepted_tracked _ Hrej); [apply finish_unchecked_settled|].
    by apply unchecked_unaccepted.
Qed.

(** What happened: the calls with their replies. *)
Definition trace (calls : list LifecycleCall) : list (LifecycleCall * LifecycleReply) :=
  zip calls (run_outputs lifecycle_step default_lifecycle calls).

Definition skip_asked (tr : list (LifecycleCall * LifecycleReply)) (id : LifecycleId) (t : Z) : Prop :=
  exists owner command e, (BeginTransport owner command t, REffect (Some e)) ∈ tr /\
    is_skip command = true /\ eff_id e = id.
Definition skip_accepted (tr : list (LifecycleCall * LifecycleReply)) (id : LifecycleId) : Prop :=
  exists g, (FinishTransport g id OutAccepted, RCompletion (Finished id OutAccepted)) ∈ tr.

Lemma trace_snoc calls c :
  trace (calls ++ [c]) =
    trace calls ++ [(c, (lifecycle_step (run_state lifecycle_step default_lifecycle calls) c).2)].
Proof.
  unfold trace. rewrite run_outputs_app, run_outputs_one.
  rewrite zip_with_app; [done|]. by rewrite run_outputs_length.
Qed.

Lemma tracker_run_justified (i : LifecycleId -> Z -> Prop) (a : LifecycleId -> Prop)
    (adm : MusicSnapshot -> Prop) (P : TrackerCall -> Prop) tcs s :
  (forall tc, P tc -> match tc with
     | IssueSkip id t => i id t | FinishSkip id SkipAccepted => a id
     | Observe snapshot _ => adm snapshot | _ => True end) ->
  Forall P tcs -> tracker_justified i a adm s ->
  tracker_justified i a adm (run_state tracker_step s tcs).
Proof.
  intros HP. revert s. induction tcs as [|tc tcs IH]; intros s Hf Hj; [done|].
  apply Forall_cons in Hf as [Htc Hf]. rewrite run_state_cons. apply IH; [done|].
  apply tracker_step_justified; [by apply HP|done].
Qed.

Lemma run_justified calls :
  tracker_justified (skip_asked (trace calls)) (skip_accepted (trace calls)) (fun _ => True)
    (observations (run_state lifecycle_step default_lifecycle calls)).
Proof.
  induction calls as [|c calls IH] using rev_ind.
  - split; [constructor|constructor|by intros []].
  - rewrite run_state_snoc, trace_snoc.
    set (s := run_state lifecycle_step default_lifecycle calls) in *.
    destruct (step_tracked s c) as (tcs & -> & Htcs).
    eapply tracker_run_justified; [|exact Htcs|].
    + intros [id t|id []|snap tm|id| | | |]; try done.
      * intros (owner & command & e & -> & Hskip & Hr & Hid). exists owner, command, e.
        rewrite Hr. set_solver.
      * intros (g & -> & Hr). exists g. rewrite Hr. set_solver.
    + eapply tracker_justified_mono; [| |exact IH].
      * intros id t (owner & command & e & Hin & ?). exists owner, command, e. set_solver.
      * intros id (g & Hin). exists g. set_solver.
Qed.

(** A skip is recorded only if the rider asked for one.  When the history
    is handed a transition of kind Skip, a previous or next command was sent
    at or before the time of that observation, and the provider itself
    answered that command with acceptance: not a timeout, not a cancellation,
    not the command of another request. *)
Theorem skip_needs_accepted_command calls t :
  let s := run_state lifecycle_step default_lifecycle calls in
  current_history_transition (observations s) = Some t -> ht_kind t = KSkip ->
  exists id asked_at,
    skip_asked (trace calls) id asked_at /\ asked_at <= s_observed_at (ht_snapshot t) /\
    skip_accepted (trace calls) id.
Proof.
  intros s Ht Hk. destruct (run_justified calls) as [_ Hh _]. fold s in Hh.
  unfold current_history_transition in Ht. destruct (pending_history _) as [|p h]; [done|].
  apply Forall_cons in Hh as [[_ Hj] _]. destruct (ph_kind p) as [k|]; [|done].
  simplify_eq. simpl in Hk. destruct Hj as [_ Hj].
  destruct (Hj Hk) as (id & (asked_at & ? & ?) & ?). by exists id, asked_at.
Qed.

(** ** Authorization launches *)

Lemma settled_monitor s s' c : settled s s' c -> monitor s' = monitor s.
Proof. intros [c' Hc|p o Hp]; [done|]. destruct s. simpl. by case_match_goal. Qed.

Lemma finish_connection_monitor s conn id cb :
  monitor (finish_connection (s <| connection := conn |>) id cb).1 = monitor s.
Proof.
  unfold finish_connection. case_bool_decide; [by destruct s|].
  set (s1 := s <| connection := conn |> <| command_feedback := _ |> <| player_state := _ |>).
  pose proof (settled_monitor _ _ _ (cancel_for_connection_settled s1 id)) as Hm.
  destruct (cancel_transport_for_connection_current s1 id). simpl in Hm |- *. rewrite Hm.
  by destruct s.
Qed.

Lemma begin_connection_monitor s now : monitor (begin_connection_attempt s now).1 = monitor s.
Proof.
  unfold begin_connection_attempt. destruct (begin_attempt _ _) as [conn []]; try by destruct s.
  destruct (callback_id _) as [prev|]; [|by destruct s]. set (s1 := s <| connection := conn |>).
  pose proof (settled_monitor _ _ _ (cancel_for_connection_settled s1 prev)) as Hm.
  destruct (cancel_transport_for_connection_current s1 prev). simpl in Hm |- *. rewrite Hm.
  by destruct s.
Qed.

Lemma cancel_current_monitor s :
  monitor (invalidate_provider_work (cancel_current_transport s).1) = monitor s.
Proof.
  pose proof (settled_monitor _ _ _ (cancel_current_settled s)) as <-.
  by destruct (cancel_current_transport s).1.
Qed.
Lemma retire_all_monitor s : monitor (retire_all_provider_work s).1 = monitor s.
Proof.
  pose proof (cancel_current_monitor s) as H. unfold retire_all_provider_work.
  by destruct (cancel_current_transport s).
Qed.

Definition touches_monitor (c : LifecycleCall) : bool :=
  match c with
  | RequestMonitor _ | CancelMonitor | BeginMonitor | Suspend | Resume => true
  | _ => false
  end.

Lemma untouched_monitor s c :
  touches_monitor c = false -> monitor (lifecycle_step s c).1 = monitor s.
Proof.
  intros Hc. destruct c; try discriminate Hc; simpl;
    unfold connection_failed_effect, connection_expired_effect, connection_disconnected_effect,
      end_connection, begin_play_handoff, observe_play_handoff, expire_play_handoff,
      settle_play_handoff, finish_play_handoff, begin_command_feedback, dismiss_command_feedback,
      finish_monitor, begin_authorization_effect, begin_authorization, finish_authorization,
      connection_established, begin_artwork_effect, complete_artwork_request,
      begin_artwork_retry_effect, complete_artwork_retry;
    try (destruct (failed_for _ _ _); apply finish_connection_monitor);
    try (destruct (expired_for _ _ _); apply finish_connection_monitor);
    try apply begin_connection_monitor;
    try (eapply settled_monitor; first [apply settled_finish | apply settled_expire
                                       | apply finish_unchecked_settled]);
    try (by destruct s);
    try (by destruct s; simpl; repeat (case_match_goal; simpl); simplify_eq).
  - unfold begin_provider_session. pose proof (retire_all_monitor s) as H.
    destruct (retire_all_provider_work s) as [s1 c1]. simpl in H. rewrite <- H.
    destruct (epoch_begin _) as [ep [g|]]; by destruct s1.
  - unfold retire_provider_session. destruct (epoch_finish _ _) as [ep []]; [|done].
    rewrite retire_all_monitor. by destruct s.
  - unfold begin_transport_effect, transport_begin. destruct (negb _); [done|].
    destruct (transport s); [|done]. destruct (id_next _); [|done].
    destruct (is_skip _); by destruct s.
Qed.

(** The launches a run admits, and the rider's requests for one. *)
Definition launches (r : LifecycleReply) : bool :=
  match r with RMonitor (Some e) => match me_start e with StartAuthorize => true | _ => false end
  | _ => false end.
Definition asks (c : LifecycleCall) : bool :=
  match c with RequestMonitor RequestAuthorize => true | _ => false end.
Definition count {A} (P : A -> bool) (l : list A) : nat := length (filter P l).

Lemma count_cons {A} (P : A -> bool) x l : count P (x :: l) = (Nat.b2n (P x) + count P l)%nat.
Proof. unfold count. rewrite filter_cons. by destruct (P x). Qed.

Lemma step_grant s c :
  (Nat.b2n (launches (lifecycle_step s c).2) + grant (monitor (lifecycle_step s c).1)
     <= Nat.b2n (asks c) + grant (monitor s))%nat.
Proof.
  destruct (touches_monitor c) eqn:Hc.
  2:{ rewrite untouched_monitor by done.
      assert (launches (lifecycle_step s c).2 = false) as ->; [|simpl; lia].
      by destruct c; try discriminate Hc. }
  destruct c; try discriminate Hc; simpl.
  - destruct s as [[sc []]]; destruct r; simpl; unfold grant; simpl; lia.
  - unfold cancel_monitor. rewrite retire_all_monitor. destruct s as [[sc []]]; simpl;
      unfold grant; simpl; lia.
  - unfold begin_monitor, take_start, pending_start. destruct s as [[[] []] ep]; simpl;
      destruct (epoch_begin ep) as [ep' [g|]]; simpl; unfold grant; simpl; lia.
  - unfold suspend. set (s1 := s <| monitor := _ |> <| monitor_generation := _ |>).
    pose proof (cancel_current_monitor s1) as Hm. destruct (cancel_current_transport s1).
    cbn [fst snd]. cbn [fst] in Hm. rewrite Hm. subst s1.
    destruct s as [[sc []]]; simpl; unfold grant; simpl; lia.
  - unfold resume. destruct s as [[[] []]]; simpl; unfold grant; simpl; lia.
Qed.

Lemma launches_granted s calls :
  (count launches (run_outputs lifecycle_step s calls) <= count asks calls + grant (monitor s))%nat.
Proof.
  revert s. induction calls as [|c calls IH]; intros s; [apply Nat.le_0_l|].
  rewrite run_outputs_cons, !count_cons. pose proof (step_grant s c).
  specialize (IH (lifecycle_step s c).1). lia.
Qed.

(** The authorization screen opens only on request, once each.  Over any
    run the monitor starts that may launch authorization are at most the
    explicit requests for it; a suspension or a cancellation withdraws the
    request, so that afterwards only new requests count. *)
Theorem authorization_launched_on_request calls :
  (count launches (run_outputs lifecycle_step default_lifecycle calls) <= count asks calls)%nat /\
  (forall s c, c = Suspend \/ c = CancelMonitor ->
     (count launches (run_outputs lifecycle_step s (c :: calls)) <= count asks calls)%nat).
Proof.
  split.
  - pose proof (launches_granted default_lifecycle calls) as H.
    change (grant (monitor default_lifecycle)) with 0%nat in H. lia.
  - intros s c Hc. rewrite run_outputs_cons, count_cons.
    pose proof (launches_granted (lifecycle_step s c).1 calls) as H.
    assert (Hg : grant (monitor (lifecycle_step s c).1) = 0%nat).
    { destruct Hc as [->| ->]; simpl.
      - unfold suspend. set (s1 := s <| monitor := _ |> <| monitor_generation := _ |>).
        pose proof (cancel_current_monitor s1) as Hm. destruct (cancel_current_transport s1).
        cbn [fst snd]. cbn [fst] in Hm. rewrite Hm. subst s1. by destruct s as [[sc []]].
      - unfold cancel_monitor. rewrite retire_all_monitor. by destruct s as [[sc []]]. }
    assert (launches (lifecycle_step s c).2 = false) as -> by by destruct Hc as [->| ->].
    simpl. lia.
Qed.

(** ** Witnesses *)

Definition track_snapshot (name : string) (at_ : Z) : MusicSnapshot :=
  {| s_provider := Spotify; s_session_id := chars "session"; s_state := Playing;
     s_item := Some {| i_identifier := chars name; i_title := None; i_artist := None |};
     s_position := None; s_duration := None; s_observed_at := at_; s_capabilities := 0 |}.
Definition timing : MusicObservationTiming :=
  {| wall_clock_at := 1000; clock_uncertainty_milliseconds := 1 |}.

(** A rider skips a track over an established connection. *)
Definition skipping : list LifecycleCall :=
  [BeginProviderSession; BeginConnectionAttempt 0; ConnectionEstablished 1 10;
   ObserveMusic (track_snapshot "a" 20) timing; AcknowledgeHistoryTransition 1;
   BeginTransport (OwnedByConnection 1 1) Next 30;
   ObserveMusic (track_snapshot "b" 40) timing].
Definition skipping_transport : PendingTransport :=
  {| pt_owner := OwnedByConnection 1 1; pt_request_id := 1; pt_started_at := 30;
     pt_command := Next |}.

Lemma pending_request_has_live_owner_witness :
  let s := run_state lifecycle_step default_lifecycle skipping in
  owner_is_current s (OwnedByConnection 1 1) = true /\
  (finish_transport s 1 1 OutFailed).2 = Finished 1 OutFailed.
Proof. apply (pending_request_has_live_owner skipping skipping_transport). reflexivity. Defined.

Lemma transport_reported_exactly_once_witness :
  let calls := skipping ++ [Suspend; Resume; BeginProviderSession;
                            BeginTransport (OwnedByProvider 2) Play 50] in
  all_reported default_lifecycle calls ++
    option_list (pending_request (run_state lifecycle_step default_lifecycle calls))
  = all_started default_lifecycle calls /\ all_started default_lifecycle calls = [1; 2].
Proof.
  set (calls := skipping ++ _).
  destruct (transport_reported_exactly_once calls) as (_ & _ & H).
  split; [apply H; vm_compute; tauto|reflexivity].
Defined.

(** A new session silently takes the pending request of the old one with it. *)
Example new_session_drops_request :
  let calls := skipping ++ [BeginProviderSession] in
  all_started default_lifecycle calls = [1] /\ all_reported default_lifecycle calls = [] /\
  pending_request (run_state lifecycle_step default_lifecycle calls) = None.
Proof. vm_compute. done. Qed.

Lemma history_waits_only_for_flight_witness :
  let s := run_state lifecycle_step default_lifecycle skipping in
  let r := expire_transport s 1 10030 in
  current_history_transition (observations s) = None /\
  r.2 = Finished 1 OutTimedOut /\
  (exists t, current_history_transition (observations r.1) = Some t /\
     (acknowledge_transition r.1 (ht_id t)).2 = Acknowledged).
Proof.
  cbv zeta. split; [reflexivity|].
  destruct (proj2 (history_waits_only_for_flight skipping) skipping_transport 10030)
    as (H1 & _ & H2); [reflexivity|vm_compute; discriminate|].
  split; [exact H1|]. apply H2. vm_compute. discriminate.
Defined.

Lemma skip_needs_accepted_command_witness :
  let calls := skipping ++ [FinishTransport 1 1 OutAccepted] in
  exists t id asked_at,
    current_history_transition
      (observations (run_state lifecycle_step default_lifecycle calls)) = Some t /\
    skip_asked (trace calls) id asked_at /\ asked_at <= s_observed_at (ht_snapshot t) /\
    skip_accepted (trace calls) id.
Proof.
  set (calls := skipping ++ _).
  set (t := {| ht_id := 2; ht_snapshot := track_snapshot "b" 40; ht_kind := KSkip;
               ht_timing := timing |}).
  destruct (skip_needs_accepted_command calls t) as (id & asked_at & H); [reflexivity|reflexivity|].
  exists t, id, asked_at. split; [reflexivity|exact H].
Defined.

Lemma authorization_launched_on_request_witness :
  let calls := [RequestMonitor RequestAuthorize; BeginMonitor; BeginMonitor] in
  count launches (run_outputs lifecycle_step default_lifecycle calls) = 1%nat /\
  (count launches (run_outputs lifecycle_step default_lifecycle calls) <= 1)%nat /\
  (count launches (run_outputs lifecycle_step default_lifecycle (Suspend :: [Resume; BeginMonitor]))
     <= 0)%nat.
Proof.
  cbv zeta. split; [reflexivity|]. split.
  - apply (proj1 (authorization_launched_on_request
             [RequestMonitor RequestAuthorize; BeginMonitor; BeginMonitor])).
  - apply (proj2 (authorization_launched_on_request [Resume; BeginMonitor])
             default_lifecycle Suspend). by left.
Defined.
