(* ===== verification/MusicSources.v ===== *)
(** * SoundCloud and Spotify

    [cutout-music/src/soundcloud.rs], [soundcloud_auth.rs],
    [soundcloud_player.rs], [spotify.rs] and [spotify/playback.rs]: what is
    admitted from the answers of the two services, the native SoundCloud
    player, and the requests made to the Spotify Web API.  JSON (serde) and
    URLs (the [url] package) are parameters: a decoder of each answer into the
    fields the code reads, and a parser with its accessors. *)

From S2P Require Import Prelude.
From S2P Require Import Quantities Text.
From S2P Require Import MusicRequests MusicHistory.

(** [u64::try_from] of an [i64]. *)
Definition u64_try_from (v : Z) : option Z := if bool_decide (0 <= v) then Some v else None.

(** ** SoundCloud *)

Definition MAX_RESPONSE_BYTES : Z := 512 * 1024.
Definition MAX_TRACKS : nat := 30.

Inductive PlayerError := TooLarge | InvalidQuery | InvalidResponse | UnknownTrack.
#[global] Instance player_error_eq_dec : EqDecision PlayerError.
Proof. solve_decision. Defined.

Inductive SoundCloudCommandAdmission := Handoff (url : text) | Refused.
Definition admit_command (command : MusicCommand) : SoundCloudCommandAdmission :=
  match command with
  | OpenProvider => Handoff (chars "soundcloud://")
  | Play | Pause | Previous | Next => Refused
  end.

(** [TrackUrn] is a newtype of [String]. *)
Definition track_urn_parse (value : text) : result text PlayerError :=
  match strip_prefix (chars "soundcloud:tracks:") value with
  | None => Err InvalidResponse
  | Some id =>
      if bool_decide (id = []) || bool_decide (20 < str_len id) || negb (forallb is_ascii_digit id)
      then Err InvalidResponse else Ok value
  end.
Definition track_stream_endpoint (urn : text) : text :=
  chars "https://api.soundcloud.com/tracks/" ++ urn ++ chars "/streams".

Record PlayableTrack := {
  tr_urn : text;
  tr_title : text;
  tr_uploader : text;
  tr_permalink : text;
  tr_duration_ms : Z;
}.

Inductive TrackAccess := AccessPlayable | AccessPreview | AccessBlocked | AccessUnknown.
#[global] Instance track_access_eq_dec : EqDecision TrackAccess.
Proof. solve_decision. Defined.
Record WireTrack := {
  w_access : option TrackAccess;
  w_streamable : option bool;
  w_urn : option text;
  w_title : option text;
  w_duration : option Z;
  w_permalink_url : option text;
  w_user : option text;
}.

(** The module's [display_text]: trimmed, at most 256 characters. *)
Definition track_display_text (value : text) : text := take 256 (trim value).

(** [ApiAuthorization] and the fields of the token answer. *)
Record TokenResponse := { access_token : text; token_type : text; expires_in : Z }.
Record ApiAuthorization := { token : text; admitted_at_ms : Z; valid_until_ms : Z }.

Definition token_byte (c : Z) : bool :=
  is_ascii_alphanumeric c || bool_decide (c ∈ chars "-._~+/=").

Definition authorization_parse (length_ : Z) (response : option TokenResponse) (now : Z)
  : result ApiAuthorization PlayerError :=
  if bool_decide (16 * 1024 < length_) then Err TooLarge else
  match response with
  | None => Err InvalidResponse
  | Some response =>
      if negb (eq_ignore_ascii_case (token_type response) (chars "bearer"))
         || negb (bool_decide (16 <= expires_in response <= 3600))
         || bool_decide (access_token response = [])
         || bool_decide (8192 < str_len (access_token response))
         || negb (forallb token_byte (access_token response))
      then Err InvalidResponse
      else match checked_add u64_max now ((expires_in response - 15) * 1000) with
           | None => Err InvalidResponse
           | Some valid_until =>
               Ok {| token := access_token response; admitted_at_ms := now;
                     valid_until_ms := valid_until |}
           end
  end.

Definition authorization_header (self : ApiAuthorization) (now : Z) : option text :=
  if bool_decide (now < admitted_at_ms self) || bool_decide (valid_until_ms self <= now)
  then None else Some (chars "OAuth " ++ token self).

(** The accessors of a parsed [Url]. *)
Record Url := {
  url_scheme : text;
  url_username : text;
  url_password : option text;
  url_port : option Z;
  url_fragment : option text;
  url_host : option text;
  url_text : text;
}.

Section Player.
Context (parse_url : text -> option Url).

Definition https_url (value : text) (hosts : list text) : result Url PlayerError :=
  url <-? ok_or (parse_url value) InvalidResponse;
  if negb (bool_decide (url_scheme url = chars "https"))
     || negb (bool_decide (url_username url = []))
     || bool_decide (is_Some (url_password url))
     || bool_decide (is_Some (url_port url))
     || bool_decide (is_Some (url_fragment url))
     || negb (existsb (fun host => bool_decide (Some host = url_host url)) hosts)
  then Err InvalidResponse else Ok url.

Definition catalogue_hosts : list text := [chars "soundcloud.com"; chars "www.soundcloud.com"].
Definition media_hosts : list text :=
  [chars "playback.media-streaming.soundcloud.cloud"; chars "cf-hls-media.sndcdn.com"].

(** One row of the loop of [parse_tracks]: [None] is its [continue]. *)
Definition playable_track (tracks : list PlayableTrack) (row : WireTrack) : option PlayableTrack :=
  if negb (bool_decide (w_access row = Some AccessPlayable))
     || negb (bool_decide (w_streamable row = Some true))
  then None else
  match w_urn row, w_title row, w_duration row, w_permalink_url row, w_user row with
  | Some urn, Some title, Some duration_ms, Some permalink, Some user =>
      match track_urn_parse urn, https_url permalink catalogue_hosts with
      | Ok urn, Ok permalink =>
          let title := track_display_text title in
          let uploader := track_display_text user in
          if bool_decide (title = []) || bool_decide (uploader = [])
             || bool_decide (duration_ms = 0)
             || existsb (fun track => bool_decide (tr_urn track = urn)) tracks
          then None
          else Some {| tr_urn := urn; tr_title := title; tr_uploader := uploader;
                       tr_permalink := url_text permalink; tr_duration_ms := duration_ms |}
      | _, _ => None
      end
  | _, _, _, _, _ => None
  end.

Fixpoint collect_tracks (tracks : list PlayableTrack) (rows : list WireTrack)
  : list PlayableTrack :=
  match rows with
  | [] => tracks
  | row :: rows =>
      match playable_track tracks row with
      | None => collect_tracks tracks rows
      | Some track =>
          let tracks := tracks ++ [track] in
          if bool_decide (length tracks = MAX_TRACKS) then tracks else collect_tracks tracks rows
      end
  end.

(** [catalogue] is what serde made of [length_] bytes. *)
Definition parse_tracks (length_ : Z) (catalogue : option (list WireTrack))
  : result (list PlayableTrack) PlayerError :=
  if bool_decide (MAX_RESPONSE_BYTES < length_) then Err TooLarge else
  rows <-? ok_or catalogue InvalidResponse;
  Ok (collect_tracks [] rows).

Definition stream_endpoint (length_ : Z) (streams : option (option text * option text))
  : result text PlayerError :=
  if bool_decide (MAX_RESPONSE_BYTES < length_) then Err TooLarge else
  streams <-? ok_or streams InvalidResponse;
  endpoint <-? ok_or (match streams.1 with Some aac => Some aac | None => streams.2 end)
                 InvalidResponse;
  url <-? https_url endpoint [chars "api.soundcloud.com"];
  Ok (url_text url).

Definition admit_media_url (value : text) : result text PlayerError :=
  url <-? https_url value media_hosts; Ok (url_text url).

(** ** The native player *)

Inductive PlayerCommand := CmdPlay | CmdPause | CmdPrevious | CmdNext.
Inductive PlayerEffect :=
| EffNone
| EffFetch (id : Z) (endpoint : text)
| EffPrepare (id : Z) (url : text)
| EffPlay
| EffPause.
Inductive PlayerState := StIdle | StLoading | StPlaying | StPaused | StFailed.
Inductive Phase :=
| PhIdle
| PhFetching (autoplay : bool)
| PhPreparing (autoplay : bool)
| PhReady (playing : bool)
| PhFailed.
#[global] Instance player_command_eq_dec : EqDecision PlayerCommand.
Proof. solve_decision. Defined.

Record SoundCloudPlayer := { queue : list PlayableTrack; index : nat; pid : Z; phase : Phase }.
#[global] Instance eta_soundcloud : Eta SoundCloudPlayer := fun r =>
  Build_SoundCloudPlayer (queue r) (index r) (pid r) (phase r).
Definition default_player : SoundCloudPlayer :=
  {| queue := []; index := 0; pid := 0; phase := PhIdle |}.

Definition fetch (self : SoundCloudPlayer) (i : nat)
  : SoundCloudPlayer * result PlayerEffect PlayerError :=
  match queue self !! i with
  | None => (self, Err UnknownTrack)
  | Some track =>
      match checked_add u64_max (pid self) 1 with
      | None => (self, Err InvalidResponse)
      | Some next =>
          (self <| pid := next |> <| index := i |> <| phase := PhFetching true |>,
           Ok (EffFetch next (track_stream_endpoint (tr_urn track))))
      end
  end.

Definition find_urn (urn : text) (tracks : list PlayableTrack) : option nat :=
  fst <$> list_find (fun track => tr_urn track = urn) tracks.

Definition select (self : SoundCloudPlayer) (tracks : list PlayableTrack) (urn : text)
  : SoundCloudPlayer * result PlayerEffect PlayerError :=
  match find_urn urn (take MAX_TRACKS tracks) with
  | None => (self, Err UnknownTrack)
  | Some i => fetch (self <| queue := take MAX_TRACKS tracks |>) i
  end.

Definition stream_resolved (self : SoundCloudPlayer) (id : Z) (url : text)
  : SoundCloudPlayer * result PlayerEffect PlayerError :=
  if negb (bool_decide (id = pid self)) then (self, Ok EffNone) else
  match phase self with
  | PhFetching autoplay =>
      match admit_media_url url with
      | Err e => (self, Err e)
      | Ok url => (self <| phase := PhPreparing autoplay |>, Ok (EffPrepare (pid self) url))
      end
  | _ => (self, Ok EffNone)
  end.

Definition player_ready (self : SoundCloudPlayer) (id : Z) : SoundCloudPlayer * PlayerEffect :=
  if negb (bool_decide (id = pid self)) then (self, EffNone) else
  match phase self with
  | PhPreparing autoplay =>
      (self <| phase := PhReady autoplay |>, if autoplay then EffPlay else EffPause)
  | _ => (self, EffNone)
  end.

Definition player_failed (self : SoundCloudPlayer) (id : Z) : SoundCloudPlayer * PlayerEffect :=
  if negb (bool_decide (id = pid self)) then (self, EffNone) else
  match phase self with
  | PhIdle => (self, EffNone)
  | _ => (self <| phase := PhFailed |>, EffPause)
  end.

Definition player_stop (self : SoundCloudPlayer) : SoundCloudPlayer * PlayerEffect :=
  (self <| queue := [] |> <| phase := PhIdle |> <| pid := sat_add u64_max (pid self) 1 |>, EffPause).

Definition player_command (self : SoundCloudPlayer) (command : PlayerCommand)
  : SoundCloudPlayer * result PlayerEffect PlayerError :=
  match command with
  | CmdNext =>
      if bool_decide (index self + 1 < length (queue self))%nat
      then fetch self (index self + 1) else (self, Ok EffNone)
  | CmdPrevious =>
      if bool_decide (0 < index self)%nat then fetch self (index self - 1) else (self, Ok EffNone)
  | CmdPlay | CmdPause =>
      let playing := bool_decide (command = CmdPlay) in
      match phase self with
      | PhFetching _ => (self <| phase := PhFetching playing |>, Ok EffNone)
      | PhPreparing _ => (self <| phase := PhPreparing playing |>, Ok EffNone)
      | PhReady _ =>
          (self <| phase := PhReady playing |>, Ok (if playing then EffPlay else EffPause))
      | PhFailed => if playing then fetch self (index self) else (self, Ok EffNone)
      | PhIdle => (self, Ok EffNone)
      end
  end.

Definition player_ended (self : SoundCloudPlayer) (id : Z)
  : SoundCloudPlayer * result PlayerEffect PlayerError :=
  if negb (bool_decide (id = pid self)) then (self, Ok EffNone) else
  match phase self with
  | PhReady _ =>
      if bool_decide (index self + 1 < length (queue self))%nat
      then fetch self (index self + 1) else player_command self CmdPause
  | _ => (self, Ok EffNone)
  end.

Record PlayerSnapshot := {
  ps_playback_id : Z;
  ps_state : PlayerState;
  ps_track : option PlayableTrack;
  ps_has_previous : bool;
  ps_has_next : bool;
}.
Definition player_snapshot (self : SoundCloudPlayer) : PlayerSnapshot := {|
  ps_playback_id := pid self;
  ps_state :=
    match phase self with
    | PhIdle => StIdle
    | PhFetching true | PhPreparing true => StLoading
    | PhFetching false | PhPreparing false => StPaused
    | PhReady true => StPlaying
    | PhReady false => StPaused
    | PhFailed => StFailed
    end;
  ps_track := queue self !! index self;
  ps_has_previous := bool_decide (0 < index self)%nat && negb (bool_decide (queue self = []));
  ps_has_next := bool_decide (index self + 1 < length (queue self))%nat |}.

Inductive SoundCloudCall :=
| CallSelect (tracks : list PlayableTrack) (urn : text)
| CallStreamResolved (id : Z) (url : text)
| CallReady (id : Z)
| CallEnded (id : Z)
| CallFailed (id : Z)
| CallStop
| CallCommand (c : PlayerCommand).
Definition soundcloud_step (self : SoundCloudPlayer) (call : SoundCloudCall)
  : SoundCloudPlayer * result PlayerEffect PlayerError :=
  match call with
  | CallSelect tracks urn => select self tracks urn
  | CallStreamResolved id url => stream_resolved self id url
  | CallReady id => Ok <$$> player_ready self id
  | CallEnded id => player_ended self id
  | CallFailed id => Ok <$$> player_failed self id
  | CallStop => Ok <$$> player_stop self
  | CallCommand c => player_command self c
  end.

(** ** The player follows the rider *)

(** What the rider wants after a call: a fetch was asked for, directly or by
    a queue that plays on; a pause or a stop withdraws it. *)
Definition wants_after (w : bool) (call : SoundCloudCall) (r : result PlayerEffect PlayerError)
  : bool :=
  match r with
  | Ok (EffFetch _ _) => true
  | _ =>
      match call with
      | CallCommand CmdPlay => true
      | CallCommand CmdPause | CallStop => false
      | _ => w
      end
  end.
Definition fetched_after (f : option Z) (r : result PlayerEffect PlayerError) : option Z :=
  match r with Ok (EffFetch id _) => Some id | _ => f end.

(** The wish and the last fetch after a run. *)
Definition wants (calls : list SoundCloudCall) : bool :=
  foldl (fun w p => wants_after w p.1 p.2) false
    (zip calls (run_outputs soundcloud_step default_player calls)).
Definition last_fetched (calls : list SoundCloudCall) : option Z :=
  foldl fetched_after None (run_outputs soundcloud_step default_player calls).

Definition autoplay_of (p : Phase) : bool :=
  match p with PhFetching b | PhPreparing b | PhReady b => b | PhIdle | PhFailed => false end.
Definition in_use (p : Phase) : bool :=
  match p with PhFetching _ | PhPreparing _ | PhReady _ => true | PhIdle | PhFailed => false end.

Definition player_follows (w : bool) (f : option Z) (s : SoundCloudPlayer) : Prop :=
  (autoplay_of (phase s) = true -> w = true) /\ (in_use (phase s) = true -> f = Some (pid s)).

Lemma fetch_follows w f s i call :
  player_follows w f s ->
  player_follows (wants_after w call (fetch s i).2) (fetched_after f (fetch s i).2) (fetch s i).1
  \/ (fetch s i).1 = s /\ is_ok (fetch s i).2 = false.
Proof.
  intros Hf. unfold fetch. destruct (queue s !! i); [|by right].
  destruct (checked_add _ _ _) as [next|]; [|by right]. left. by destruct s.
Qed.

(** A refused fetch leaves the wish at least as strong, unless it was a pause. *)
Lemma fetch_step w f s i call :
  call <> CallCommand CmdPause -> call <> CallStop -> player_follows w f s ->
  player_follows (wants_after w call (fetch s i).2) (fetched_after f (fetch s i).2) (fetch s i).1.
Proof.
  intros H1 H2 Hf. destruct (fetch_follows w f s i call Hf) as [H|[E Er]]; [done|].
  rewrite E. destruct (fetch s i).2 as [|e]; [done|]. simpl. destruct Hf as [Hw Hf].
  split; [|done]. intros Ha. specialize (Hw Ha). by destruct call as [| | | | | |[]].
Qed.

Lemma soundcloud_step_follows w f s call :
  player_follows w f s ->
  player_follows (wants_after w call (soundcloud_step s call).2)
    (fetched_after f (soundcloud_step s call).2) (soundcloud_step s call).1.
Proof.
  intros Hf. assert (Hf' := Hf). destruct Hf' as [Hw Hp].
  destruct call as [tracks urn|id url|id|id|id| |c]; simpl.
  - unfold select. destruct (find_urn _ _) as [i|]; [|done].
    apply fetch_step; [done|done|]. by destruct s.
  - unfold stream_resolved. case_bool_decide; simpl; [|done].
    destruct (phase s) eqn:Ep; try exact Hf.
    destruct (admit_media_url url); simpl; destruct s; simpl in *; subst; done.
  - unfold player_ready. case_bool_decide; simpl; [|done].
    destruct (phase s) eqn:Ep; try exact Hf.
    destruct s; simpl in *; subst. by destruct autoplay.
  - unfold player_ended. case_bool_decide; simpl; [|done].
    destruct (phase s) as [| | |b|] eqn:Ep; try exact Hf.
    case_bool_decide; [by apply fetch_step|]. destruct s; simpl in *; subst.
    split; simpl; [done|auto].
  - unfold player_failed. case_bool_decide; simpl; [|done].
    destruct (phase s) eqn:Ep; try exact Hf; destruct s; simpl in *; done.
  - by destruct s.
  - destruct c; simpl.
    + destruct (phase s) as [|b|b|b|] eqn:Ep; simpl; [| | | |by apply fetch_step];
        destruct s; simpl in *; subst; (split; simpl; auto).
    + destruct (phase s) as [|b|b|b|] eqn:Ep; simpl; destruct s; simpl in *; subst;
        (split; simpl; auto; discriminate).
    + case_bool_decide; [by apply fetch_step|done].
    + case_bool_decide; [by apply fetch_step|done].
Qed.

Lemma run_follows calls :
  player_follows (wants calls) (last_fetched calls) (run_state soundcloud_step default_player calls).
Proof.
  induction calls as [|c calls IH] using rev_ind; [by split|].
  unfold wants, last_fetched. rewrite run_outputs_app, run_outputs_one, run_state_snoc.
  rewrite zip_with_app, !foldl_app by by rewrite run_outputs_length.
  by apply soundcloud_step_follows.
Qed.

(** Where the two effects come from. *)
Lemma step_plays s call :
  (soundcloud_step s call).2 = Ok EffPlay ->
  call = CallCommand CmdPlay \/
  exists id, call = CallReady id /\ id = pid s /\ phase s = PhPreparing true.
Proof.
  destruct call as [tracks urn|id url|id|id|id| |[]]; simpl; intros H; try done; [..|by left| | |].
  - unfold select, fetch in H. by step_cases_in H.
  - unfold stream_resolved in H. by step_cases_in H.
  - unfold player_ready in H. case_bool_decide; simpl in H; [|done].
    right. exists id. by destruct (phase s) as [| |[]| |].
  - unfold player_ended, player_command, fetch in H. simpl in H. by step_cases_in H.
  - unfold player_failed in H. by step_cases_in H.
  - by destruct (phase s).
  - unfold fetch in H. by step_cases_in H.
  - unfold fetch in H. by step_cases_in H.
Qed.

Lemma step_prepares s call id url :
  (soundcloud_step s call).2 = Ok (EffPrepare id url) ->
  id = pid s /\ in_use (phase s) = true /\
  exists raw u, call = CallStreamResolved id raw /\ https_url raw media_hosts = Ok u /\
    url = url_text u.
Proof.
  destruct call as [tracks urn|cid raw|cid|cid|cid| |[]]; simpl; intros H; try discriminate H.
  - unfold select, fetch in H. by step_cases_in H.
  - unfold stream_resolved, admit_media_url in H. case_bool_decide as Hid; [|done]. simpl in H.
    destruct (phase s) as [|b|b|b|]; try done.
    destruct (https_url raw media_hosts) as [u|e] eqn:Eu; simpl in H; [|done]. simplify_eq.
    split_ands; [done|done|]. by exists raw, u.
  - unfold player_ready in H. by step_cases_in H.
  - unfold player_ended, player_command, fetch in H. simpl in H. by step_cases_in H.
  - unfold player_failed in H. by step_cases_in H.
  - unfold fetch in H. by step_cases_in H.
  - by step_cases_in H.
  - unfold fetch in H. by step_cases_in H.
  - unfold fetch in H. by step_cases_in H.
Qed.

(** The player plays what the rider asked for and nothing else.  After any
    calls, playback starts only while the rider wants it: since the last fetch
    or play no pause and no stop has been asked for, also if the pause came
    while the stream was still loading.  A stream is prepared or started from
    its callback only if that callback carries the identity of the latest
    fetch, and its address was admitted as HTTPS on a media host. *)
Theorem player_follows_rider calls call :
  let r := (soundcloud_step (run_state soundcloud_step default_player calls) call).2 in
  (r = Ok EffPlay ->
     wants (calls ++ [call]) = true /\
     forall id, call = CallReady id -> last_fetched calls = Some id) /\
  (forall id url, r = Ok (EffPrepare id url) ->
     last_fetched calls = Some id /\
     exists raw u, call = CallStreamResolved id raw /\ https_url raw media_hosts = Ok u /\
       url = url_text u).
Proof.
  intros r. set (s := run_state soundcloud_step default_player calls) in *.
  pose proof (run_follows calls) as [Hw Hf]. fold s in Hw, Hf. split.
  - intros Hr. unfold wants. rewrite run_outputs_app, run_outputs_one.
    rewrite zip_with_app, foldl_app by by rewrite run_outputs_length. simpl. fold s r. rewrite Hr.
    destruct (step_plays s call Hr) as [->|(id & -> & -> & Ep)]; [done|].
    rewrite Ep in Hw, Hf. split; [by apply Hw|]. intros id [= <-]. by apply Hf.
  - intros id url Hr. destruct (step_prepares s call id url Hr) as (-> & Hu & H).
    split; [by apply Hf|done].
Qed.
End Player.

(** ** Spotify content links ([spotify.rs]) *)

Definition content_url (identifier : text) : option text :=
  match split 58 identifier with
  | [provider; kind; id] =>
      if negb (bool_decide (provider = chars "spotify"))
         || (negb (bool_decide (kind = chars "track")) && negb (bool_decide (kind = chars "episode")))
         || negb (bool_decide (str_len id = 22)) || negb (forallb is_ascii_alphanumeric id)
      then None
      else Some (chars "https://open.spotify.com/" ++ kind ++ chars "/" ++ id)
  | _ => None
  end.

(** ** The Spotify Web API ([spotify/playback.rs]) *)

Definition SPOTIFY_MAX_RESPONSE_BYTES : Z := 1048576.

Inductive SpotifyPlaybackError :=
| InvalidPayload
| SpotifyUnauthorized
| Forbidden
| RateLimited (retry_after_milliseconds : Z)
| SpotifyUnavailable.

Record WireImage := { wi_url : text; wi_width : option Z }.
Record WireItem := {
  it_uri : option text;
  it_name : option text;
  it_kind : option text;
  it_artists : option (list text);
  it_show : option text;
  it_album_images : option (option (list WireImage));
  it_images : option (list WireImage);
  it_duration_ms : option Z;
}.
Record WireDevice := { dev_id : option text; dev_restricted : option bool }.
Record WirePlayback := {
  wp_device : option WireDevice;
  wp_is_playing : bool;
  wp_progress_ms : option Z;
  wp_item : option WireItem;
  wp_disallows : option (gmap text bool);
}.

Record SpotifyPlayback := {
  sp_base : MusicSnapshot;
  sp_device_id : option text;
  sp_restricted : bool;
  sp_is_playing : bool;
  sp_allowed : MusicCapabilities;
  sp_artwork_url : option text;
}.
#[global] Instance eta_spotify : Eta SpotifyPlayback := fun r =>
  Build_SpotifyPlayback (sp_base r) (sp_device_id r) (sp_restricted r) (sp_is_playing r)
    (sp_allowed r) (sp_artwork_url r).

(** [.collect::<Vec<_>>().join(", ")]. *)
Fixpoint join (sep : text) (parts : list text) : text :=
  match parts with
  | [] => []
  | [part] => part
  | part :: rest => part ++ sep ++ join sep rest
  end.

Definition known_item (self : WireItem) : option (result MusicItem MusicValidationError) :=
  if bool_decide (it_kind self = Some (chars "track"))
     || bool_decide (it_kind self = Some (chars "episode"))
  then (fun uri => item_new uri (it_name self)
                     (match it_artists self with
                      | Some artists => Some (join (chars ", ") artists)
                      | None => it_show self
                      end)) <$> it_uri self
  else None.

Definition image_width (image : WireImage) : Z := default 0 (wi_width image).
(** [min_by_key]: the first of the least. *)
Fixpoint min_by_width (images : list WireImage) : option WireImage :=
  match images with
  | [] => None
  | image :: rest =>
      match min_by_width rest with
      | Some other => Some (if bool_decide (image_width image <= image_width other)
                            then image else other)
      | None => Some image
      end
  end.

Section Playback.
Context (parse_url : text -> option Url).

Definition artwork_url (self : WirePlayback) : option text :=
  item ← wp_item self;
  images ← match it_images item with
           | Some images => Some images
           | None => it_album_images item ≫= id
           end;
  image ← match min_by_width (filter (fun image => 256 <= image_width image) images) with
          | Some image => Some image
          | None => head images
          end;
  url ← parse_url (wi_url image);
  if bool_decide (url_scheme url = chars "https") && bool_decide (url_username url = [])
     && bool_decide (url_password url = None)
  then Some (url_text url) else None.

(** [.map_err(|_| InvalidPayload)?]. *)
Definition valid {A} (r : result A MusicValidationError) : result A SpotifyPlaybackError :=
  match r with Ok a => Ok a | Err _ => Err InvalidPayload end.
(** [Option::transpose] of a validation. *)
Definition transpose {A} (o : option (result A MusicValidationError))
  : result (option A) MusicValidationError :=
  match o with Some (Ok a) => Ok (Some a) | Some (Err e) => Err e | None => Ok None end.

Definition action_commands : list (text * MusicCommand) :=
  [(chars "skipping_prev", Previous); (chars "resuming", Play); (chars "pausing", Pause);
   (chars "skipping_next", Next)].

(** [wire] is what serde made of [length_] bytes. *)
Definition spotify_parse (length_ : Z) (wire : option WirePlayback)
  : result SpotifyPlayback SpotifyPlaybackError :=
  if bool_decide (SPOTIFY_MAX_RESPONSE_BYTES < length_) then Err InvalidPayload else
  wire <-? ok_or wire InvalidPayload;
  let artwork := artwork_url wire in
  position <-? valid (position_new (wp_progress_ms wire ≫= u64_try_from)
                        ((wp_item wire ≫= it_duration_ms) ≫= u64_try_from));
  item <-? valid (transpose (wp_item wire ≫= known_item));
  let state := if wp_is_playing wire then Playing else Paused in
  base <-? valid (snapshot_new Spotify (chars "spotify-web-api") state item position 0
                    capabilities_new);
  let allowed :=
    foldl (fun allowed p =>
             if bool_decide ((wp_disallows wire ≫= fun m => m !! p.1) = Some true)
             then allowed else capabilities_with allowed p.2)
      (capabilities_with capabilities_new OpenProvider) action_commands in
  device_id <-? valid (transpose (
    match wp_device wire ≫= dev_id with
    | Some id => if bool_decide (trim id = []) then None else Some (identifier_new id)
    | None => None
    end));
  Ok {| sp_base := base; sp_device_id := device_id;
        sp_restricted := default false (wp_device wire ≫= dev_restricted);
        sp_is_playing := wp_is_playing wire; sp_allowed := allowed; sp_artwork_url := artwork |}.
End Playback.

Definition without_active_device (self : SpotifyPlayback) : SpotifyPlayback :=
  self <| sp_device_id := None |> <| sp_is_playing := false |>.

Definition state_allows (state : MusicPlaybackState) (command : MusicCommand) : bool :=
  match command with
  | Play => bool_decide (state = Paused)
  | Pause => bool_decide (state = Playing)
  | Previous | Next => true
  | OpenProvider => false
  end.

Definition controls_shown (self : SpotifyPlayback) (state : MusicPlaybackState) : bool :=
  match state with
  | Playing | Paused => bool_decide (is_Some (sp_device_id self)) && negb (sp_restricted self)
  | Stopped | Buffering | Interrupted | Unauthorized | Unavailable | Disconnected | StaleState =>
      false
  end.

Definition playback_snapshot (self : SpotifyPlayback) (state : MusicPlaybackState)
    (observed_at : Z) : MusicSnapshot :=
  let capabilities := capabilities_with capabilities_new OpenProvider in
  let capabilities :=
    if controls_shown self state
    then foldl (fun capabilities command =>
                  if state_allows state command && supports (sp_allowed self) command
                  then capabilities_with capabilities command else capabilities)
           capabilities [Previous; Next; Play; Pause]
    else capabilities in
  with_playback_observation (sp_base self) state observed_at capabilities.

Record SpotifyHttpRequest := { req_url : text; req_method : text }.
(** [SpotifyHttpSession]: the monotonic deadline of the rate limit. *)
Definition SpotifyHttpSession : Type := option Z.

Definition session_admit (self : SpotifyHttpSession) (now : Z) : result unit SpotifyPlaybackError :=
  match self with
  | Some deadline => if bool_decide (now < deadline) then Err (RateLimited (deadline - now)) else Ok tt
  | None => Ok tt
  end.

Section Http.
(** [build_url path key value]: the endpoint of the player with one encoded
    query pair.  [retry_delay]: the milliseconds of a [Retry-After] header, a
    clamped floating-point number in the source. *)
Context (build_url : text -> text -> text -> option text).
Context (retry_delay : option text -> Z).

Definition request (path method key value : text) : result SpotifyHttpRequest SpotifyPlaybackError :=
  url <-? ok_or (build_url path key value) SpotifyUnavailable;
  Ok {| req_url := url; req_method := method |}.

Definition playback_request (self : SpotifyHttpSession) (now : Z)
  : result SpotifyHttpRequest SpotifyPlaybackError :=
  _ <-? session_admit self now;
  request [] (chars "GET") (chars "additional_types") (chars "track,episode").

Definition command_request (self : SpotifyHttpSession) (command : MusicCommand) (device_id : text)
    (now : Z) : result SpotifyHttpRequest SpotifyPlaybackError :=
  _ <-? session_admit self now;
  _ <-? match identifier_new device_id with Ok i => Ok i | Err _ => Err SpotifyUnavailable end;
  match command with
  | Play => request (chars "/play") (chars "PUT") (chars "device_id") device_id
  | Pause => request (chars "/pause") (chars "PUT") (chars "device_id") device_id
  | Previous => request (chars "/previous") (chars "POST") (chars "device_id") device_id
  | Next => request (chars "/next") (chars "POST") (chars "device_id") device_id
  | OpenProvider => Err SpotifyUnavailable
  end.

Definition receive_response (self : SpotifyHttpSession) (status : Z) (retry_after : option text)
    (body_length now : Z) : SpotifyHttpSession * result bool SpotifyPlaybackError :=
  if bool_decide (200 <= status <= 299) && bool_decide (body_length <= SPOTIFY_MAX_RESPONSE_BYTES)
  then (self, Ok (negb (bool_decide (status = 204))))
  else if bool_decide (status = 401) then (self, Err SpotifyUnauthorized)
  else if bool_decide (status = 403) then (self, Err Forbidden)
  else if bool_decide (status = 429) then
    let next_deadline := sat_add u64_max now (retry_delay retry_after) in
    let deadline := match self with
                    | Some current => Z.max current next_deadline
                    | None => next_deadline
                    end in
    (Some deadline, Err (RateLimited (sat_sub deadline now)))
  else (self, Err SpotifyUnavailable).

Inductive HttpCall :=
| HttpPlayback (now : Z)
| HttpCommand (command : MusicCommand) (device_id : text) (now : Z)
| HttpResponse (status : Z) (retry_after : option text) (body_length now : Z).
Inductive HttpReply :=
| HttpRequested (r : result SpotifyHttpRequest SpotifyPlaybackError)
| HttpReceived (r : result bool SpotifyPlaybackError).
Definition http_step (self : SpotifyHttpSession) (call : HttpCall)
  : SpotifyHttpSession * HttpReply :=
  match call with
  | HttpPlayback now => (self, HttpRequested (playback_request self now))
  | HttpCommand command device_id now =>
      (self, HttpRequested (command_request self command device_id now))
  | HttpResponse status retry_after body_length now =>
      HttpReceived <$$> receive_response self status retry_after body_length now
  end.

#[export] Instance deadline_invariant d :
  Invariant http_step (fun s => exists deadline, s = Some deadline /\ d <= deadline).
Proof.
  intros s call (deadline & -> & Hd). destruct call; simpl; [by eauto..|].
  unfold receive_response. repeat (case_bool_decide; simpl); eauto.
  all: eexists; split; [done|lia].
Qed.

(** A rate limit is honoured.  Once the service has answered 429, no
    request leaves before the delay it asked for has passed, whatever was
    requested and answered meanwhile: each is refused with at least the time
    that is left. *)
Theorem rate_limit_honoured s retry_after body_length answered_at calls call now :
  let s1 := (receive_response s 429 retry_after body_length answered_at).1 in
  let s2 := run_state http_step s1 calls in
  let deadline := sat_add u64_max answered_at (retry_delay retry_after) in
  now < deadline ->
  call = HttpPlayback now \/ (exists command device_id, call = HttpCommand command device_id now) ->
  exists left, (http_step s2 call).2 = HttpRequested (Err (RateLimited left)) /\
    deadline - now <= left.
Proof.
  intros s1 s2 deadline Hnow Hcall.
  assert (H : exists d, s2 = Some d /\ deadline <= d).
  { apply (run_invariant http_step (fun s => exists d, s = Some d /\ deadline <= d)).
    unfold s1, receive_response. simpl. eexists. split; [done|].
    destruct s; unfold deadline; lia. }
  destruct H as (d & -> & Hd).
  assert (Ha : session_admit (Some d) now = Err (RateLimited (d - now)))
    by (unfold session_admit; by rewrite bool_decide_eq_true_2 by lia).
  exists (d - now). split; [|lia].
  destruct Hcall as [->|(command & device_id & ->)]; simpl;
    unfold playback_request, command_request; by rewrite Ha.
Qed.
End Http.

(** ** Offered controls *)

Definition command_index (c : MusicCommand) : Z :=
  match c with Previous => 0 | Play => 1 | Pause => 2 | Next => 3 | OpenProvider => 4 end.
Lemma command_bit_testbit c n :
  0 <= n -> Z.testbit (command_bit c) n = bool_decide (n = command_index c).
Proof.
  intros Hn. unfold command_bit. destruct c; rewrite Z.shiftl_1_l, Z.pow2_bits_eqb by lia;
    cbn [command_index]; (case_bool_decide; [by subst|apply Z.eqb_neq; lia]).
Qed.
Lemma supports_testbit caps c : supports caps c = Z.testbit caps (command_index c).
Proof.
  unfold supports. assert (Hi : 0 <= command_index c) by (by destruct c).
  assert (Hb : Z.testbit (Z.land caps (command_bit c)) (command_index c)
               = Z.testbit caps (command_index c)).
  { rewrite Z.land_spec, command_bit_testbit, bool_decide_eq_true_2 by done.
    by rewrite andb_true_r. }
  case_bool_decide as H0; simpl; [rewrite H0, Z.bits_0 in Hb; done|].
  destruct (Z.testbit caps (command_index c)) eqn:E; [done|]. exfalso. apply H0.
  apply Z.bits_inj'. intros n Hn. rewrite Z.bits_0, Z.land_spec, command_bit_testbit by done.
  case_bool_decide as Hn'; [subst n; by rewrite E|by rewrite andb_false_r].
Qed.
Lemma supports_with caps c d :
  supports (capabilities_with caps c) d = supports caps d || bool_decide (d = c).
Proof.
  rewrite !supports_testbit. unfold capabilities_with. rewrite Z.lor_spec. f_equal.
  rewrite command_bit_testbit by (by destruct d). by destruct c, d.
Qed.

(** The rider is offered exactly what can be done.  A Spotify observation
    offers a transport command if and only if playback is playing or paused,
    there is a device that accepts commands, the provider did not disallow it,
    and play is offered only while paused, pause only while playing; opening
    the provider is always offered. *)
Theorem offered_controls_exact self state observed_at command :
  supports (s_capabilities (playback_snapshot self state observed_at)) command =
    match command with
    | OpenProvider => true
    | _ => controls_shown self state && state_allows state command
           && supports (sp_allowed self) command
    end.
Proof.
  unfold playback_snapshot.
  assert (Hcaps : forall base caps,
    s_capabilities (with_playback_observation base state observed_at caps) = caps)
    by (by intros []).
  rewrite Hcaps. destruct (controls_shown self state).
  - cbn [foldl].
    assert (Hone : forall (b : bool) caps c d,
      supports (if b then capabilities_with caps c else caps) d
      = supports caps d || (b && bool_decide (d = c))).
    { intros b caps c d. destruct b; [by rewrite supports_with|by rewrite orb_false_r]. }
    rewrite !Hone, supports_with.
    destruct command; simpl; rewrite ?andb_false_r, ?andb_true_r, ?orb_false_r; reflexivity.
  - rewrite supports_with. by destruct command.
Qed.

(** ** The catalogue *)

Definition track_admitted (parse_url : text -> option Url) (track : PlayableTrack) : Prop :=
  (exists id, tr_urn track = chars "soundcloud:tracks:" ++ id /\ id <> [] /\ str_len id <= 20 /\
     forallb is_ascii_digit id = true) /\
  (exists page u, https_url parse_url page catalogue_hosts = Ok u /\ tr_permalink track = url_text u) /\
  tr_title track <> [] /\ tr_uploader track <> [] /\ tr_duration_ms track <> 0.

Lemma strip_prefix_Some p t rest : strip_prefix p t = Some rest -> t = p ++ rest.
Proof.
  revert t. induction p as [|c p IH]; intros [|d t]; simpl; try congruence.
  case_bool_decide; [|done]. subst. intros H%IH. by subst.
Qed.

Lemma playable_track_admitted parse_url tracks row track :
  playable_track parse_url tracks row = Some track ->
  track_admitted parse_url track /\ (forall t, t ∈ tracks -> tr_urn t <> tr_urn track).
Proof.
  unfold playable_track. intros H. case_match_in H; [done|].
  destruct (w_urn row) as [urn|], (w_title row) as [title|], (w_duration row) as [dur|],
    (w_permalink_url row) as [page|], (w_user row) as [user|]; try done.
  destruct (track_urn_parse urn) as [urn'|] eqn:Eu; [|done].
  destruct (https_url parse_url page catalogue_hosts) as [u|e] eqn:Ep; [|done].
  case_match_in H; [done|]. simplify_eq. prop_bools. simpl in *. split.
  - unfold track_urn_parse in Eu. destruct (strip_prefix _ urn) as [id|] eqn:Es; [|done].
    apply strip_prefix_Some in Es. case_match_in Eu; [done|]. simplify_eq. prop_bools.
    unfold track_admitted. split_ands; simpl; try done; [|by exists page, u].
    exists id. split_ands; try done; lia.
  - intros t Ht E.
    match goal with H : existsb _ _ = false |- _ => rewrite <- not_true_iff_false in H; apply H end.
    apply existsb_exists. exists t. split; [by apply list_elem_of_In|]. by apply bool_decide_eq_true_2.
Qed.

Lemma collect_tracks_ok parse_url tracks rows :
  (length tracks < MAX_TRACKS)%nat -> Forall (track_admitted parse_url) tracks ->
  NoDup (tr_urn <$> tracks) ->
  let found := collect_tracks parse_url tracks rows in
  (length found <= MAX_TRACKS)%nat /\ Forall (track_admitted parse_url) found /\
  NoDup (tr_urn <$> found).
Proof.
  revert tracks. induction rows as [|row rows IH]; intros tracks Hlen Hall Hnd; simpl.
  - split_ands; [lia|done|done].
  - destruct (playable_track parse_url tracks row) as [track|] eqn:E; [|by apply IH].
    destruct (playable_track_admitted _ _ _ _ E) as [Hadm Hnew].
    assert (Hall' : Forall (track_admitted parse_url) (tracks ++ [track]))
      by (apply Forall_app; split; [done|by constructor]).
    assert (Hnd' : NoDup (tr_urn <$> tracks ++ [track])).
    { rewrite fmap_app. apply NoDup_app. split_ands; [done| |apply NoDup_singleton].
      intros x (t & -> & Ht)%list_elem_of_fmap Hx%list_elem_of_singleton. by apply (Hnew t). }
    assert (Hl : length (tracks ++ [track]) = (length tracks + 1)%nat) by by rewrite length_app.
    case_bool_decide as H30.
    + split_ands; [lia|done|done].
    + apply IH; [lia|done|done].
Qed.

(** The catalogue admits only what may be played.  However many rows the
    service returns, at most thirty tracks are admitted, no identity twice,
    each with a numeric identity of at most twenty digits, a title and an
    uploader to show, a duration, and a page under the service's own hosts. *)
Theorem catalogue_is_admitted parse_url length_ rows tracks :
  parse_tracks parse_url length_ rows = Ok tracks ->
  (length tracks <= MAX_TRACKS)%nat /\ Forall (track_admitted parse_url) tracks /\
  NoDup (tr_urn <$> tracks).
Proof.
  unfold parse_tracks. case_bool_decide; [done|]. intros (r & _ & [= <-])%result_bind_Ok.
  apply collect_tracks_ok; [unfold MAX_TRACKS; simpl; lia|constructor|constructor].
Qed.

(** ** Witnesses *)

Definition media_url (t : text) : option Url :=
  Some {| url_scheme := chars "https"; url_username := []; url_password := None;
          url_port := None; url_fragment := None; url_host := Some (chars "cf-hls-media.sndcdn.com");
          url_text := t |}.
Definition some_track : PlayableTrack :=
  {| tr_urn := chars "soundcloud:tracks:1"; tr_title := chars "Song"; tr_uploader := chars "Artist";
     tr_permalink := chars "https://soundcloud.com/a"; tr_duration_ms := 1000 |}.

Lemma player_follows_rider_witness :
  let select_it := CallSelect [some_track] (chars "soundcloud:tracks:1") in
  let loading := [select_it; CallStreamResolved 1 (chars "https://x")] in
  last_fetched media_url loading = Some 1 /\
  (soundcloud_step media_url (run_state (soundcloud_step media_url) default_player
     (loading ++ [CallCommand CmdPause])) (CallReady 1)).2 = Ok EffPause.
Proof.
  intros select_it loading. split; [|reflexivity].
  apply (proj1 (player_follows_rider media_url loading (CallReady 1))); reflexivity.
Defined.

Lemma rate_limit_honoured_witness :
  let build := fun path key value : text => Some (path ++ key ++ value) in
  let delay := fun _ : option text => 30000 in
  exists left, (http_step build delay
      (receive_response delay None 429 None 0 1000).1 (HttpPlayback 5000)).2
    = HttpRequested (Err (RateLimited left)) /\ 26000 <= left.
Proof.
  intros build delay.
  apply (rate_limit_honoured build delay None None 0 1000 [] (HttpPlayback 5000) 5000).
  - reflexivity.
  - by left.
Defined.

Lemma catalogue_is_admitted_witness :
  let rows := [{| w_access := Some AccessPlayable; w_streamable := Some true;
                  w_urn := Some (chars "soundcloud:tracks:1"); w_title := Some (chars "Song");
                  w_duration := Some 1000; w_permalink_url := Some (chars "https://soundcloud.com/a");
                  w_user := Some (chars "Artist") |}] in
  let page_url := fun t : text => Some {| url_scheme := chars "https"; url_username := [];
    url_password := None; url_port := None; url_fragment := None;
    url_host := Some (chars "soundcloud.com"); url_text := t |} in
  (length [some_track] <= MAX_TRACKS)%nat /\ NoDup (tr_urn <$> [some_track]).
Proof.
  intros rows page_url.
  destruct (catalogue_is_admitted page_url 10 (Some rows) [some_track]) as (H1 & _ & H2);
    [reflexivity|]. split; [exact H1|exact H2].
Defined.
