(* ===== verification/RideRecording.v ===== *)
(** * The application owner of a ride recording

    [cutout-application/src/ride_recording.rs] and its [recovery.rs]: commands
    with leases and fences, the pair of recorders (the durable one and the one
    that already holds the points still being written), the queue of location
    writes and their settlement, telemetry, and restoration with its policy.

    The SQLite worker is not modelled: what it answers is an argument of the
    operation that waits for it ([StorageError] keeps the two variants the
    source distinguishes), [database] says whether there is one, and [ready]
    is the answer of [try_result] for the write of a request.  What runs under
    one lock is one definition: [finish_transition] and
    [finish_stop_after_music] take the lock twice, once to take the writes that
    are settled ([await_transition], [await_stop]) and again to publish the
    transition ([publish_transition], [publish_stop]), and other calls may come
    between.  A lease that is dropped after the last lock is released with it:
    by then the command is no longer pending, or nothing else can be begun. *)

From S2P Require Import Prelude.
From S2P Require Import Quantities MovingTime ElapsedTime Text RideLocation RideRecorder RideMotion.
From S2P Require Import RideRecovery MusicHistory.
Import Lifecycle.

Definition MAX_PENDING_LOCATION_WRITES : Z := 64.

(** ** What the database answers *)

(** The two failures after which it is not known what was committed, and all
    others. *)
Inductive StorageError := ResponseDropped | DeadlineExceeded | OtherStorageError.
(** Without the elapsed-time summary, which the recording only passes on. *)
Record MovingTimeCheckpoint := {
  cp_revision : Z;
  cp_continuation : MovingTimeStateParts;
}.
Record Committed := {
  cm_ride_id : RideId;
  cm_lifecycle : RideLifecycleState;
  cm_checkpoint : MovingTimeCheckpoint;
}.
Record LocationWriteResult := {
  lw_admission : LocationAdmission;
  lw_sequence : option Z;
  lw_checkpoint : MovingTimeCheckpoint;
}.
(** [AlreadyDurable] is the source's [AlreadyObserved], a name that
    [TelemetryObservation] has. *)
Inductive CheckpointOutcome := Applied | AlreadyDurable | PointChanged.

(** The fields of a stored ride that restoration reads. *)
Record RideRecord := {
  rr_id : RideId;
  rr_state : RideLifecycleState;
  rr_monotonic_created_at : option Z;
  rr_monotonic_last_event : option Z;
  rr_paused_at : option Z;
  rr_paused_duration : Z;
  rr_completed_duration : Z;
  rr_last_point_duration : option Z;
  rr_checkpoint : MovingTimeCheckpoint;
  rr_updated_at : Z;
  rr_duration : Z;
  rr_summary : RideSummary;
  rr_candidate_vehicle : option text;
  rr_associated_vehicle : option text;
  rr_associated_at : option Z;
  rr_last_telemetry_at : option Z;
  rr_last_location_observation : option (Z * Z);
  rr_motion : option RideMotionObservation;
  rr_stationary : option LocationSample;
}.
Record RideRestoreSnapshot := {
  rs_last_connected_device : option text;
  rs_ride : option RideRecord;
  rs_route_points : list RideMapPoint;
  rs_music_history_policy : option MusicHistoryPolicy;
  rs_music_history_available : bool;
}.

(** ** The state *)

Record VerifiedRideVehicle := { vv_platform : text; vv_connection_generation : Z }.
Record RideVehicleSpeedSample := { vs_speed : Z; vs_source_at : Z }.
Record RideTelemetryResult := { tr_observation : TelemetryObservation; tr_motion_changed : bool }.
Record LatestVehicleMovingTime := {
  lv_ride_id : RideId;
  lv_ride_generation : Z;
  lv_connection_generation : Z;
  lv_platform : text;
  lv_observation : MovingTimeObservation;
}.
Inductive RestorePhase := PhasePending | PhaseReady | PhaseRecoveryRequired.
#[global] Instance restore_phase_eq_dec : EqDecision RestorePhase.
Proof. solve_decision. Defined.

Record RideRecordingSnapshot := {
  sn_ride_id : option RideId;
  sn_revision : Z;
  sn_generation : Z;
  sn_last_event_at : Z;
  sn_lifecycle : option RideLifecycleState;
  sn_command_token : option RecordingToken;
  sn_checkpoint : option MovingTimeCheckpoint;
  sn_persisted_telemetry_receipt : option (RideId * Z);
  sn_recoverable_updated_at : option Z;
  sn_last_connected_vehicle : option VehicleIdentity;
  sn_monotonic_epoch_offset : Z;
  sn_last_monotonic : Z;
  sn_last_telemetry_at : option Z;
  sn_background_gap_count : Z;
  sn_transition_generation : option Z;
  sn_transition_ride_id : option RideId;
  sn_music_history_policy : option MusicHistoryPolicy;
  sn_music_history_available : bool;
  sn_route_point_count : Z;
  sn_first_point_sequence : Z;
  sn_distance : Z;
  sn_route_points : list RideMapPoint;
  sn_segment_count : Z;
  sn_duration : Z;
  sn_telemetry_state : RouteTelemetryState;
  sn_candidate_vehicle : option text;
  sn_associated_vehicle : option text;
  sn_associated_at : option Z;
  sn_speed : option RecordingSpeed;
  sn_motion : option RideMotionObservation;
}.

Record PendingLocation := {
  pl_request_id : Z;
  pl_ride_id : RideId;
  pl_admitted : AdmittedLocationSample;
  pl_point : RideMapPoint;
  pl_sequence : Z;
}.
Record RideLocationWriteOutcome := {
  wo_request_id : Z;
  wo_ride_id : RideId;
  wo_point : RideMapPoint;
  wo_sequence : Z;
  wo_result : result LocationWriteResult StorageError;
  wo_projection_applied : bool;
  wo_snapshot : RideRecordingSnapshot;
}.

Record RecordingState := {
  a_recorder : RideMapRecorder;
  a_admission_recorder : RideMapRecorder;
  a_ride_id : option RideId;
  a_revision : Z;
  a_generation : Z;
  a_speed_generation_started : Z;
  a_speed : RecordingSpeedState;
  a_latest_vehicle_moving_time : option LatestVehicleMovingTime;
  a_checkpoint : option MovingTimeCheckpoint;
  a_persisted_telemetry_receipt : option (RideId * Z);
  a_recoverable_updated_at : option Z;
  a_last_connected_vehicle : option VehicleIdentity;
  a_monotonic_epoch_offset : Z;
  a_transition_generation : option Z;
  a_transition_ride_id : option RideId;
  a_admission_generation : option Z;
  a_music_history_policy : option MusicHistoryPolicy;
  a_music_history_available : bool;
  a_music_cache_epoch : Z;
  a_published_music_cache_epoch : Z;
  a_pending_music_deletion_epoch : option Z;
  a_suppressed_music_policy : option (Z * MusicHistoryPolicy);
  a_policy_before_pending_deletion : option (Z * MusicHistoryPolicy);
  a_pending_locations : list PendingLocation;
  a_settled_locations : list RideLocationWriteOutcome;
  a_next_location_request_id : Z;
  a_next_command_id : Z;
  a_pending_command_id : option Z;
  a_restore_phase : RestorePhase;
}.
#[global] Instance eta_state : Eta RecordingState := fun r =>
  Build_RecordingState (a_recorder r) (a_admission_recorder r) (a_ride_id r) (a_revision r)
    (a_generation r) (a_speed_generation_started r) (a_speed r)
    (a_latest_vehicle_moving_time r) (a_checkpoint r) (a_persisted_telemetry_receipt r)
    (a_recoverable_updated_at r) (a_last_connected_vehicle r) (a_monotonic_epoch_offset r)
    (a_transition_generation r) (a_transition_ride_id r) (a_admission_generation r)
    (a_music_history_policy r) (a_music_history_available r) (a_music_cache_epoch r)
    (a_published_music_cache_epoch r) (a_pending_music_deletion_epoch r)
    (a_suppressed_music_policy r) (a_policy_before_pending_deletion r) (a_pending_locations r)
    (a_settled_locations r) (a_next_location_request_id r) (a_next_command_id r)
    (a_pending_command_id r) (a_restore_phase r).

Definition default_state : RecordingState := {|
  a_recorder := recorder_new; a_admission_recorder := recorder_new; a_ride_id := None;
  a_revision := 0; a_generation := 0; a_speed_generation_started := 0;
  a_speed := default_speed_state; a_latest_vehicle_moving_time := None; a_checkpoint := None;
  a_persisted_telemetry_receipt := None; a_recoverable_updated_at := None;
  a_last_connected_vehicle := None; a_monotonic_epoch_offset := 0;
  a_transition_generation := None; a_transition_ride_id := None; a_admission_generation := None;
  a_music_history_policy := None; a_music_history_available := true;
  a_music_cache_epoch := 0; a_published_music_cache_epoch := 0;
  a_pending_music_deletion_epoch := None; a_suppressed_music_policy := None;
  a_policy_before_pending_deletion := None; a_pending_locations := []; a_settled_locations := []; a_next_location_request_id := 1;
  a_next_command_id := 1; a_pending_command_id := None; a_restore_phase := PhasePending |}.
(** [RideRecordingApplication::new] and [in_memory]. *)
Definition application_new (database : bool) : RecordingState :=
  if database then default_state else default_state <| a_restore_phase := PhaseReady |>.

Inductive RideRecordingError :=
| RestorationNotReady | RecoveryRequired | CommandPending | NoActiveRideError | StaleCommand
| InvalidTransitionError | CommandIdExhausted | StorageFailed (e : StorageError) | MusicAdmission.

(** ** Prepared operations: what a caller holds until it finishes *)

Record PreparedRideRestore := { po_lease : Z }.
Record PreparedRideStart := {
  ps_lease : Z;
  ps_at : Z;
  ps_candidate_vehicle : option VehicleIdentity;
  ps_music_history_policy : option MusicHistoryPolicy;
}.
Record PreparedRideTransition := {
  pt_lease : Z;
  pt_ride_id : RideId;
  pt_transition : ValidatedRideTransition;
  pt_at : Z;
  pt_epoch_offset : Z;
  pt_event : RideEvent;
  pt_last_telemetry_at : option Z;
}.
Record PreparedRideStop := {
  pp_lease : Z;
  pp_ride_id : RideId;
  pp_transition : ValidatedRideTransition;
  pp_at : Z;
  pp_epoch_offset : Z;
  pp_last_telemetry_at : option Z;
}.

Inductive RideLocationAdmission :=
| Queued (request_id : Z) (point : RideMapPoint) (sequence : Z)
| AcceptedInMemory (point : RideMapPoint) (sequence : Z)
| ClockOnly
| Parked
| MotionHistoryRetired
| QueueFull
| LocationRejected (reason : LocationAdmission).
Definition advances_phone_speed (self : RideLocationAdmission) : bool :=
  match self with
  | Queued _ _ _ | AcceptedInMemory _ _ | ClockOnly | Parked => true
  | _ => false
  end.
Inductive FailureDisposition := NotObserved | ClockOnlyObservation.
Record RideLocationAdmissionFailure := {
  laf_error : RideRecordingError;
  laf_disposition : FailureDisposition;
}.
Definition not_observed (error : RideRecordingError) : RideLocationAdmissionFailure :=
  {| laf_error := error; laf_disposition := NotObserved |}.
Definition clock_only (error : RideRecordingError) : RideLocationAdmissionFailure :=
  {| laf_error := error; laf_disposition := ClockOnlyObservation |}.

(** ** Shared steps *)

Definition reserve_command_id (self : RecordingState)
  : result (RecordingState * Z) RideRecordingError :=
  let id := a_next_command_id self in
  next_id <-? ok_or (checked_add u64_max id 1) CommandIdExhausted;
  Ok (self <| a_next_command_id := next_id |>, id).

Definition command_is_pending (self : RecordingState) (id : Z) : bool :=
  bool_decide (a_pending_command_id self = Some id).
(** [CommandLease::drop]. *)
Definition release (self : RecordingState) (id : Z) : RecordingState :=
  if command_is_pending self id then self <| a_pending_command_id := None |> else self.

Definition require_ready (self : RecordingState) : result unit RideRecordingError :=
  match a_restore_phase self with
  | PhaseReady => Ok tt
  | PhasePending => Err RestorationNotReady
  | PhaseRecoveryRequired => Err RecoveryRequired
  end.

(** What every rejected durable result leaves. *)
Definition require_recovery (self : RecordingState) : RecordingState :=
  self <| a_pending_command_id := None |> <| a_restore_phase := PhaseRecoveryRequired |>.

Definition unknown_outcome (e : StorageError) : bool :=
  match e with ResponseDropped | DeadlineExceeded => true | OtherStorageError => false end.
Definition command_storage_error (self : RecordingState) (id : Z) (e : StorageError)
  : RecordingState :=
  if command_is_pending self id then
    let self := self <| a_pending_command_id := None |> in
    if unknown_outcome e then self <| a_restore_phase := PhaseRecoveryRequired |> else self
  else self.

Definition bump_revision (self : RecordingState) : RecordingState :=
  self <| a_revision := sat_add u64_max (a_revision self) 1 |>.
Definition bump_generation (self : RecordingState) : RecordingState :=
  (bump_revision self) <| a_generation := sat_add u64_max (a_generation self) 1 |>.

Definition publish_checkpoint (self : RecordingState) (ride_id : RideId)
    (checkpoint : MovingTimeCheckpoint) : RecordingState :=
  if negb (bool_decide (a_ride_id self = Some ride_id))
     || match a_checkpoint self with
        | Some current => bool_decide (cp_revision checkpoint <= cp_revision current)
        | None => false
        end
  then self else self <| a_checkpoint := Some checkpoint |>.

Definition committed_vehicle_source (self : RecordingState) : option Z :=
  checkpoint ← a_checkpoint self; latest_vehicle_ms (cp_continuation checkpoint).

Definition verified_vehicle_observation_for_state (self : RecordingState) (receipt_at : Z)
  : option MovingTimeObservation :=
  latest ← a_latest_vehicle_moving_time self;
  ride_id ← a_ride_id self;
  if negb (bool_decide (lv_ride_id latest = ride_id))
     || negb (bool_decide (lv_ride_generation latest = a_generation self))
     || negb (bool_decide (a_transition_generation self = Some (lv_connection_generation latest)))
     || negb (bool_decide (a_transition_ride_id self = Some ride_id))
     || negb (bool_decide (a_last_connected_vehicle self = Some (lv_platform latest)))
     || negb (bool_decide (associated_vehicle (a_recorder self) = Some (lv_platform latest)))
  then None
  else
    let source_at := o_source_at (lv_observation latest) in
    if bool_decide (receipt_at < source_at)
       || bool_decide (RideLocation.TELEMETRY_FRESHNESS_MILLISECONDS
                       < sat_sub receipt_at source_at)
       || is_some_and (committed_vehicle_source self) (fun c => bool_decide (source_at <= c))
    then None
    else Some {| o_source := o_source (lv_observation latest);
                 o_speed := o_speed (lv_observation latest);
                 o_source_at := source_at; o_receipt_at := receipt_at |}.

Definition snapshot_from_at (self : RecordingState) (latest_at : Z) : RideRecordingSnapshot :=
  let recorder := a_recorder self in
  {| sn_ride_id := a_ride_id self;
     sn_revision := a_revision self;
     sn_generation := a_generation self;
     sn_last_event_at := last_monotonic recorder;
     sn_lifecycle := state recorder;
     sn_command_token :=
       (fun id => {| rt_ride_id := id; rt_generation := a_generation self |}) <$> a_ride_id self;
     sn_checkpoint := a_checkpoint self;
     sn_persisted_telemetry_receipt := a_persisted_telemetry_receipt self;
     sn_recoverable_updated_at := a_recoverable_updated_at self;
     sn_last_connected_vehicle := a_last_connected_vehicle self;
     sn_monotonic_epoch_offset := a_monotonic_epoch_offset self;
     sn_last_monotonic := last_monotonic recorder;
     sn_last_telemetry_at := last_telemetry_at recorder;
     sn_background_gap_count := background_gap_count recorder;
     sn_transition_generation := a_transition_generation self;
     sn_transition_ride_id := a_transition_ride_id self;
     sn_music_history_policy := a_music_history_policy self;
     sn_music_history_available := a_music_history_available self;
     sn_route_point_count := point_count (summary recorder);
     sn_first_point_sequence := first_point_sequence recorder;
     sn_distance := distance_millimetres (summary recorder);
     sn_route_points := points recorder;
     sn_segment_count := segment_count recorder;
     sn_duration := duration_milliseconds_at recorder latest_at;
     sn_telemetry_state := telemetry_state_at recorder latest_at;
     sn_candidate_vehicle := candidate_vehicle recorder;
     sn_associated_vehicle := associated_vehicle recorder;
     sn_associated_at := associated_at recorder;
     sn_speed := state recorder ≫= (fun lifecycle =>
                   selected_at (a_speed self) lifecycle (a_generation self) latest_at);
     sn_motion := latest_motion (a_speed self) |}.
Definition snapshot_from (self : RecordingState) : RideRecordingSnapshot :=
  snapshot_from_at self (last_monotonic (a_recorder self)).

Definition requires_restore (self : RecordingState) : bool :=
  bool_decide (a_restore_phase self = PhaseRecoveryRequired).
Definition pending_telemetry_receipt (self : RecordingState) : option Z :=
  ride_id ← a_ride_id self;
  at_ ← last_telemetry_at (a_recorder self);
  if bool_decide (a_persisted_telemetry_receipt self = Some (ride_id, at_)) then None
  else Some at_.
Definition has_pending_location_writes (self : RecordingState) : bool :=
  negb (bool_decide (length (a_pending_locations self) = 0%nat))
  || negb (bool_decide (length (a_settled_locations self) = 0%nat)).

(** A finish takes the lock to take the writes that are settled, and lets it go
    before it takes it again: it has returned, or it goes on with the answer of
    the database and the outcomes of those writes in hand. *)
Inductive Awaited (A R : Type) :=
| Returned (r : R)
| GoesOn (answer : A) (outcomes : list RideLocationWriteOutcome).
Arguments Returned {A R}.
Arguments GoesOn {A R}.

(** [state.settled_locations.extend]: outcomes for the next report. *)
Definition extend_settled (self : RecordingState) (outcomes : list RideLocationWriteOutcome)
  : RecordingState :=
  self <| a_settled_locations := a_settled_locations self ++ outcomes |>.

Section Application.
Context (database : bool) (great_circle : Coordinate -> Coordinate -> Z).

(** [storage.map(wait).transpose()]: without a database there is nothing to
    wait for. *)
Definition awaited {A} (answer : result A StorageError) : result (option A) StorageError :=
  if database then (a <-? answer; Ok (Some a)) else Ok None.

Definition record_admitted := record_admitted_sample great_circle.

(** What a write answered does to the durable recorder. *)
Definition settle_one (self : RecordingState) (pending : PendingLocation)
    (answer : result LocationWriteResult StorageError) : RecordingState * bool :=
  match answer with
  | Ok write =>
      if bool_decide (a_ride_id self = Some (pl_ride_id pending))
         && bool_decide (lw_admission write = Accepted)
      then
        let '(recorder, applied) := record_admitted (a_recorder self) (pl_admitted pending) in
        let self := self <| a_recorder := recorder |> in
        if applied
        then (bump_revision (publish_checkpoint self (pl_ride_id pending) (lw_checkpoint write)), true)
        else (self, false)
      else (self, false)
  | Err _ => (self, false)
  end.

(** The loop over the front of the queue: it stops at the first write that
    has no answer. *)
Fixpoint settle_front (self : RecordingState) (queue : list PendingLocation)
    (ready : Z -> option (result LocationWriteResult StorageError))
  : RecordingState * list RideLocationWriteOutcome :=
  match queue with
  | [] => (self <| a_pending_locations := [] |>, [])
  | pending :: rest =>
      match ready (pl_request_id pending) with
      | None => (self <| a_pending_locations := queue |>, [])
      | Some answer =>
          let '(self, applied) :=
            settle_one (self <| a_pending_locations := rest |>) pending answer in
          let outcome :=
            {| wo_request_id := pl_request_id pending; wo_ride_id := pl_ride_id pending;
               wo_point := pl_point pending; wo_sequence := pl_sequence pending;
               wo_result := answer; wo_projection_applied := applied;
               wo_snapshot := snapshot_from self |} in
          let '(self, outcomes) := settle_front self rest ready in
          (self, outcome :: outcomes)
      end
  end.

(** The durable recorder with the points that are still being written. *)
Definition rebuilt (recorder : RideMapRecorder) (queue : list PendingLocation)
  : RideMapRecorder :=
  foldl (fun r pending => (record_admitted r (pl_admitted pending)).1) recorder queue.

Definition settle_ready_location_writes (self : RecordingState)
    (ready : Z -> option (result LocationWriteResult StorageError))
  : RecordingState * list RideLocationWriteOutcome :=
  let settled := a_settled_locations self in
  let self := self <| a_settled_locations := [] |> in
  let '(self, outcomes) := settle_front self (a_pending_locations self) ready in
  (self <| a_admission_recorder := rebuilt (a_recorder self) (a_pending_locations self) |>,
   settled ++ outcomes).

(** [poll_location_writes], kept for the location callback. *)
Definition retain_settled (self : RecordingState)
    (ready : Z -> option (result LocationWriteResult StorageError)) : RecordingState :=
  let '(self, outcomes) := settle_ready_location_writes self ready in
  self <| a_settled_locations := a_settled_locations self ++ outcomes |>.

(** ** Restoration *)

Definition begin_restore (self : RecordingState) (queued : result unit StorageError)
  : RecordingState * result PreparedRideRestore RideRecordingError :=
  if bool_decide (is_Some (a_pending_command_id self)) then (self, Err CommandPending) else
  match reserve_command_id self with
  | Err e => (self, Err e)
  | Ok (self, id) =>
      match awaited queued with
      | Err e => (self, Err (StorageFailed e))
      | Ok _ =>
          (self <| a_pending_command_id := Some id |> <| a_restore_phase := PhasePending |>,
           Ok {| po_lease := id |})
      end
  end.

Definition restored_created_at (ride : RideRecord) (last_restored : option Z) : Z :=
  match rr_monotonic_created_at ride with
  | Some at_ => at_
  | None => match last_restored with
            | Some last => sat_sub last (rr_duration ride)
            | None => 0
            end
  end.
Definition restored_last_event (ride : RideRecord) (last_restored : option Z) (created_at : Z) : Z :=
  match rr_monotonic_last_event ride with
  | Some at_ => at_
  | None => default created_at last_restored
  end.

(** The recorder of a stored ride, before what was observed of its location. *)
Definition restored_recorder (counter : Z) (ride : RideRecord) (route : list RideMapPoint)
    (automatic : bool) : RideMapRecorder * Z :=
  let last_restored := point_at <$> last route in
  let created_at := restored_created_at ride last_restored in
  let lifecycle :=
    if bool_decide (rr_state ride = Interrupted) && automatic
       && bool_decide (is_Some (rr_paused_at ride))
    then Paused else rr_state ride in
  restored_with_summary_and_timing counter lifecycle created_at
    {| md_candidate_vehicle := rr_candidate_vehicle ride ≫= vehicle_identity_new;
       md_associated_vehicle := rr_associated_vehicle ride ≫= vehicle_identity_new;
       md_associated_at := rr_associated_at ride;
       md_last_telemetry_at := None;
       md_background_gap_count := 0 |}
    route (rr_summary ride)
    {| tm_last_event := restored_last_event ride last_restored created_at;
       tm_paused_at := rr_paused_at ride;
       tm_paused_duration := rr_paused_duration ride;
       tm_completed_duration := rr_completed_duration ride |}.

Definition restored_observations (recorder : RideMapRecorder) (ride : RideRecord)
  : RideMapRecorder :=
  let recorder :=
    match rr_motion ride ≫= mo_last_stationary with
    | Some at_ => mark_stationary_boundary recorder at_
    | None => recorder
    end in
  match rr_stationary ride, rr_last_location_observation ride with
  | Some sample, _ => (restore_stationary_observation recorder sample).1
  | None, Some (at_, wall) => (restore_location_observation recorder at_ wall).1
  | None, None => recorder
  end.

Definition restore_projection (self : RecordingState) (counter : Z)
    (restored : RideRestoreSnapshot) (automatic : bool) : RecordingState * Z :=
  let self :=
    self <| a_transition_generation := None |>
         <| a_transition_ride_id := None |>
         <| a_admission_generation := None |>
         <| a_last_connected_vehicle := rs_last_connected_device restored ≫= vehicle_identity_new |>
         <| a_music_history_policy := rs_music_history_policy restored |>
         <| a_music_history_available := rs_music_history_available restored |> in
  match rs_ride restored with
  | None =>
      (bump_generation
         (self <| a_recorder := recorder_new |>
               <| a_admission_recorder := recorder_new |>
               <| a_speed := default_speed_state |>
               <| a_ride_id := None |>
               <| a_checkpoint := None |>
               <| a_persisted_telemetry_receipt := None |>
               <| a_latest_vehicle_moving_time := None |>
               <| a_recoverable_updated_at := None |>), counter)
  | Some ride =>
      let route := rs_route_points restored in
      let last_restored := point_at <$> last route in
      let '(recorder, counter) := restored_recorder counter ride route automatic in
      let recorder := restored_observations recorder ride in
      let speed := match rr_motion ride with
                   | Some motion => restore_motion default_speed_state motion
                   | None => default_speed_state
                   end in
      (bump_generation
         (self <| a_recorder := recorder |>
               <| a_admission_recorder := recorder |>
               <| a_speed := speed |>
               <| a_speed_generation_started :=
                    default (restored_created_at ride last_restored) last_restored |>
               <| a_ride_id := Some (rr_id ride) |>
               <| a_checkpoint := Some (rr_checkpoint ride) |>
               <| a_persisted_telemetry_receipt :=
                    (fun at_ => (rr_id ride, at_)) <$> rr_last_telemetry_at ride |>
               <| a_recoverable_updated_at := Some (rr_updated_at ride) |>), counter)
  end.

(** Without a database there is no snapshot. *)
Definition finish_restore (self : RecordingState) (counter : Z) (operation : PreparedRideRestore)
    (answer : result RideRestoreSnapshot StorageError)
  : RecordingState * Z * result RideRecordingSnapshot RideRecordingError :=
  let id := po_lease operation in
  match awaited answer with
  | Err e => (release self id, counter, Err (StorageFailed e))
  | Ok snapshot =>
      if negb (command_is_pending self id) then (self, counter, Err StaleCommand)
      else if bool_decide (checked_add u64_max (a_generation self) 1 = None)
      then (require_recovery self, counter, Err CommandIdExhausted)
      else
        let '(self, counter) :=
          match snapshot with
          | Some snapshot => restore_projection self counter snapshot false
          | None =>
              (bump_generation
                 (self <| a_recorder := recorder_new |>
                       <| a_admission_recorder := recorder_new |>
                       <| a_ride_id := None |>
                       <| a_checkpoint := None |>), counter)
          end in
        let self := self <| a_restore_phase := PhaseReady |> <| a_pending_command_id := None |> in
        (self, counter, Ok (snapshot_from self))
  end.

(** ** Start *)

Definition can_start (lifecycle : option RideLifecycleState) : bool :=
  match lifecycle with
  | None | Some (Stopped | Interrupted | Saved | Discarded) => true
  | _ => false
  end.

Definition begin_start (self : RecordingState) (at_ : Z) (candidate : option VehicleIdentity)
    (policy : option MusicHistoryPolicy) (queued : result unit StorageError)
  : RecordingState * result PreparedRideStart RideRecordingError :=
  match require_ready self with
  | Err e => (self, Err e)
  | Ok _ =>
  if bool_decide (is_Some (a_pending_command_id self)) then (self, Err CommandPending)
  else if negb (can_start (state (a_recorder self))) then (self, Err InvalidTransitionError)
  else match reserve_command_id self with
  | Err e => (self, Err e)
  | Ok (self, id) =>
      match awaited queued with
      | Err e => (self, Err (StorageFailed e))
      | Ok _ => (self <| a_pending_command_id := Some id |>,
                 Ok {| ps_lease := id; ps_at := at_; ps_candidate_vehicle := candidate;
                       ps_music_history_policy := policy |})
      end
  end
  end.

(** [fresh_id] is the random identity of a ride without a database. *)
Definition finish_start (self : RecordingState) (counter : Z) (operation : PreparedRideStart)
    (answer : result Committed StorageError) (fresh_id : RideId)
  : RecordingState * Z * result RideRecordingSnapshot RideRecordingError :=
  let id := ps_lease operation in
  match awaited answer with
  | Err e => (release (command_storage_error self id e) id, counter, Err (StorageFailed e))
  | Ok committed =>
      if negb (command_is_pending self id) then (self, counter, Err StaleCommand)
      else if is_some_and committed (fun c => negb (bool_decide (cm_lifecycle c = Active)))
      then (require_recovery self, counter, Err InvalidTransitionError)
      else
        match start (a_recorder self) counter (ps_at operation) (ps_candidate_vehicle operation) with
        | (recorder, counter, Err _) =>
            (require_recovery (self <| a_recorder := recorder |>), counter,
             Err InvalidTransitionError)
        | (recorder, counter, Ok _) =>
            let self :=
              (bump_generation
                 (self <| a_recorder := recorder |>
                       <| a_admission_recorder := recorder |>
                       <| a_ride_id := Some (match committed with
                                             | Some c => cm_ride_id c
                                             | None => fresh_id
                                             end) |>
                       <| a_checkpoint := cm_checkpoint <$> committed |>
                       <| a_speed := default_speed_state |>
                       <| a_speed_generation_started := ps_at operation |>
                       <| a_latest_vehicle_moving_time := None |>
                       <| a_persisted_telemetry_receipt := None |>
                       <| a_music_history_policy := ps_music_history_policy operation |>))
                <| a_pending_command_id := None |> in
            (self, counter, Ok (snapshot_from self))
        end
  end.

(** ** Transitions *)

(** The checks every fenced command makes, and the transition it asks for. *)
Definition fenced_transition (self : RecordingState) (token : RecordingToken) (event : RideEvent)
  : result ValidatedRideTransition RideRecordingError :=
  _ <-? require_ready self;
  if bool_decide (is_Some (a_pending_command_id self)) then Err CommandPending
  else if negb (bool_decide (a_ride_id self = Some (rt_ride_id token)))
          || negb (bool_decide (a_generation self = rt_generation token))
  then Err StaleCommand
  else match validate_transition (a_recorder self) event with
  | Ok t => Ok t
  | Err _ => Err InvalidTransitionError
  end.

Definition resumes_saved_timeline (self : RecordingState) (event : RideEvent) : bool :=
  bool_decide (event = Resume)
  && match state (a_recorder self) with Some (Interrupted | Paused) => true | _ => false end.

Definition begin_transition (self : RecordingState) (token : RecordingToken) (event : RideEvent)
    (at_ : Z) (last_telemetry_at_ms : option Z) (queued : result unit StorageError)
  : RecordingState * result PreparedRideTransition RideRecordingError :=
  match fenced_transition self token event with
  | Err e => (self, Err e)
  | Ok t =>
      let epoch_offset :=
        if resumes_saved_timeline self event
        then sat_sub (last_monotonic (a_recorder self)) at_
        else a_monotonic_epoch_offset self in
      let logical_at := sat_add u64_max at_ epoch_offset in
      match reserve_command_id self with
      | Err e => (self, Err e)
      | Ok (self, id) =>
          match awaited queued with
          | Err e => (self, Err (StorageFailed e))
          | Ok _ =>
              (self <| a_pending_command_id := Some id |>,
               Ok {| pt_lease := id; pt_ride_id := rt_ride_id token; pt_transition := t;
                     pt_at := logical_at; pt_epoch_offset := epoch_offset; pt_event := event;
                     pt_last_telemetry_at := last_telemetry_at_ms |})
          end
      end
  end.

(** A durable answer that is not for this ride or this transition. *)
Definition contradicts (self : RecordingState) (ride_id : RideId) (t : ValidatedRideTransition)
    (committed : option Committed) : bool :=
  negb (bool_decide (a_ride_id self = Some ride_id))
  || is_some_and committed (fun c => negb (bool_decide (cm_ride_id c = ride_id))
                                     || negb (bool_decide (cm_lifecycle c = next t))).
Definition reject_contradiction (self : RecordingState) (committed : option Committed)
  : RecordingState :=
  match committed with
  | Some _ => require_recovery self
  | None => self <| a_pending_command_id := None |>
  end.
Definition note_receipt (self : RecordingState) (ride_id : RideId) (at_ : option Z)
  : RecordingState :=
  match at_ with
  | Some at_ => self <| a_persisted_telemetry_receipt := Some (ride_id, at_) |>
  | None => self
  end.

Definition discarded (self : RecordingState) : RecordingState :=
  self <| a_ride_id := None |>
       <| a_checkpoint := None |>
       <| a_persisted_telemetry_receipt := None |>
       <| a_recoverable_updated_at := None |>
       <| a_music_history_policy := None |>
       <| a_music_history_available := false |>
       <| a_pending_locations := [] |>.

(** [finish_transition] up to the end of [poll_location_writes]. *)
Definition await_transition (self : RecordingState) (operation : PreparedRideTransition)
    (answer : result Committed StorageError)
    (ready : Z -> option (result LocationWriteResult StorageError))
  : RecordingState
    * Awaited (option Committed) (result RideRecordingSnapshot RideRecordingError) :=
  let id := pt_lease operation in
  match awaited answer with
  | Err e => (release (command_storage_error self id e) id, Returned (Err (StorageFailed e)))
  | Ok committed =>
      let '(self, outcomes) := settle_ready_location_writes self ready in
      (self, GoesOn committed outcomes)
  end.
(** [finish_transition] from its second lock on. *)
Definition publish_transition (self : RecordingState) (operation : PreparedRideTransition)
    (committed : option Committed) (outcomes : list RideLocationWriteOutcome)
  : RecordingState * result RideRecordingSnapshot RideRecordingError :=
  let id := pt_lease operation in
  let t := pt_transition operation in
  if negb (command_is_pending self id) then (self, Err StaleCommand) else
  let self := extend_settled self outcomes in
  if contradicts self (pt_ride_id operation) t committed
  then (reject_contradiction self committed, Err StaleCommand)
  else
    let self := note_receipt self (pt_ride_id operation) (pt_last_telemetry_at operation) in
    match apply_transition_at (a_recorder self) t (pt_at operation),
          apply_transition_at (a_admission_recorder self) t (pt_at operation) with
    | (recorder, Ok _), (admission_recorder, Ok _) =>
        let self :=
          (bump_generation
             (self <| a_recorder := recorder |>
                   <| a_admission_recorder := admission_recorder |>
                   <| a_checkpoint := cm_checkpoint <$> committed |>
                   <| a_monotonic_epoch_offset := pt_epoch_offset operation |>))
            <| a_latest_vehicle_moving_time := None |> in
        let self :=
          if bool_decide (pt_event operation = Resume)
          then self <| a_recoverable_updated_at := None |>
                    <| a_speed_generation_started := pt_at operation |>
          else self in
        let snapshot := snapshot_from self in
        let self :=
          if bool_decide (pt_event operation = Discard) then discarded self else self in
        (self <| a_pending_command_id := None |>, Ok snapshot)
    | _, _ => (require_recovery self, Err InvalidTransitionError)
    end.

(** ** Stop behind the music fence *)

Definition begin_stop_after_music (self : RecordingState) (token : RecordingToken) (at_ : Z)
    (last_telemetry_at_ms : option Z)
  : RecordingState * result PreparedRideStop RideRecordingError :=
  match fenced_transition self token Stop with
  | Err e => (self, Err e)
  | Ok t =>
      match reserve_command_id self with
      | Err e => (self, Err e)
      | Ok (self, id) =>
          let epoch_offset := a_monotonic_epoch_offset self in
          (self <| a_pending_command_id := Some id |>,
           Ok {| pp_lease := id; pp_ride_id := rt_ride_id token; pp_transition := t;
                 pp_at := sat_add u64_max at_ epoch_offset; pp_epoch_offset := epoch_offset;
                 pp_last_telemetry_at := last_telemetry_at_ms |})
      end
  end.

(** [finish_stop_after_music] up to the end of [poll_location_writes]: [fence]
    is the answer of the music queue, [answer] that of the write it lets
    through. *)
Definition await_stop (self : RecordingState) (operation : PreparedRideStop)
    (fence : bool) (answer : result Committed StorageError)
    (ready : Z -> option (result LocationWriteResult StorageError))
  : RecordingState
    * Awaited (option Committed) (result RideRecordingSnapshot RideRecordingError) :=
  let id := pp_lease operation in
  if negb fence then (release self id, Returned (Err MusicAdmission)) else
  match awaited answer with
  | Err e => (release (command_storage_error self id e) id, Returned (Err (StorageFailed e)))
  | Ok committed =>
      let '(self, outcomes) := settle_ready_location_writes self ready in
      (self, GoesOn committed outcomes)
  end.
(** [finish_stop_after_music] from its second lock on. *)
Definition publish_stop (self : RecordingState) (operation : PreparedRideStop)
    (committed : option Committed) (outcomes : list RideLocationWriteOutcome)
  : RecordingState * result RideRecordingSnapshot RideRecordingError :=
  let id := pp_lease operation in
  let t := pp_transition operation in
  if negb (command_is_pending self id) then (self, Err StaleCommand) else
  let self := extend_settled self outcomes in
  if contradicts self (pp_ride_id operation) t committed
  then (reject_contradiction self committed, Err StaleCommand)
  else
    let self := note_receipt self (pp_ride_id operation) (pp_last_telemetry_at operation) in
    match apply_transition_at (a_recorder self) t (pp_at operation) with
    | (recorder, Err _) =>
        (require_recovery (self <| a_recorder := recorder |>), Err InvalidTransitionError)
    | (recorder, Ok _) =>
        let self := self <| a_recorder := recorder |> in
        match apply_transition_at (a_admission_recorder self) t (pp_at operation) with
        | (recorder, Err _) =>
            (require_recovery (self <| a_admission_recorder := recorder |>),
             Err InvalidTransitionError)
        | (recorder, Ok _) =>
            let self :=
              (bump_generation
                 (self <| a_admission_recorder := recorder |>
                       <| a_checkpoint := cm_checkpoint <$> committed |>
                       <| a_monotonic_epoch_offset := pp_epoch_offset operation |>
                       <| a_latest_vehicle_moving_time := None |>))
                <| a_pending_command_id := None |> in
            (self, Ok (snapshot_from self))
        end
    end.

(** ** Speed and telemetry *)

Section Phone.
Context {Float : Type} (phone_speed : Float -> option Z).
Definition observe_phone_gps_speed (self : RecordingState) (speed : option Float)
    (source_at generation : Z) : RecordingState * bool :=
  if negb (bool_decide (a_generation self = generation))
     || bool_decide (source_at < a_speed_generation_started self)
  then (self, false)
  else (self <| a_speed := observe_phone_gps phone_speed (a_speed self) speed source_at
                             generation |>, true).
End Phone.

Definition observe_verified_vehicle_speed (self : RecordingState) (speed : option Z)
    (source_at receipt_at generation : Z) : RecordingState * bool :=
  if negb (bool_decide (a_generation self = generation))
     || bool_decide (source_at < a_speed_generation_started self)
     || bool_decide (receipt_at < source_at)
     || bool_decide (RideLocation.TELEMETRY_FRESHNESS_MILLISECONDS < sat_sub receipt_at source_at)
  then (self, false)
  else match speed with
  | None => (self, false)
  | Some speed =>
      let state := observe_vehicle_speed (a_speed self) (Some speed) source_at generation in
      let '(state, changed) := observe_verified_motion state speed source_at receipt_at in
      (self <| a_speed := state |>, changed)
  end.

Definition app_motion_at (self : RecordingState) (source_at : Z) : option RideMotionObservation :=
  motion_at (a_speed self) source_at.
Definition app_restore_motion (self : RecordingState) (motion : RideMotionObservation)
  : RecordingState := self <| a_speed := restore_motion (a_speed self) motion |>.

(** The moving-time evidence a verified sample is, if it is new to the cache
    or to the checkpoint. *)
Definition moving_time_candidate (self : RecordingState) (staged : RideMapRecorder)
    (at_ : Z) (speed : RideVehicleSpeedSample) (vehicle : VerifiedRideVehicle)
  : option LatestVehicleMovingTime :=
  ride_id ← a_ride_id self;
  let source_at := vs_source_at speed in
  if bool_decide (RideRecorder.state staged = Some Active)
     && bool_decide (sat_sub at_ source_at <= RideLocation.TELEMETRY_FRESHNESS_MILLISECONDS)
     && bool_decide (associated_vehicle staged = Some (vv_platform vehicle))
     && bool_decide (a_transition_generation self = Some (vv_connection_generation vehicle))
     && bool_decide (a_transition_ride_id self = a_ride_id self)
     && (is_none_or (a_latest_vehicle_moving_time self)
           (fun latest => bool_decide (o_source_at (lv_observation latest) < source_at))
         || is_none_or (committed_vehicle_source self) (fun c => bool_decide (c < source_at)))
  then Some {| lv_ride_id := ride_id; lv_ride_generation := a_generation self;
               lv_connection_generation := vv_connection_generation vehicle;
               lv_platform := vv_platform vehicle;
               lv_observation := {| o_source := Vehicle; o_speed := Some (vs_speed speed);
                                    o_source_at := source_at; o_receipt_at := at_ |} |}
  else None.

(** What the speed of a frame does: the speed state, whether motion changed,
    and the moving-time evidence. *)
Definition stage_speed (self : RecordingState) (staged : RideMapRecorder) (accepted : bool)
    (at_ : Z) (speed : option RideVehicleSpeedSample) (vehicle : option VerifiedRideVehicle)
  : RecordingSpeedState * bool * option LatestVehicleMovingTime :=
  match speed with
  | Some speed =>
      if accepted && bool_decide (a_speed_generation_started self <= vs_source_at speed)
         && bool_decide (vs_source_at speed <= at_)
      then
        let state := observe_vehicle_speed (a_speed self) (Some (vs_speed speed))
                       (vs_source_at speed) (a_generation self) in
        match vehicle with
        | None => (state, false, None)
        | Some vehicle =>
            let '(state, changed) :=
              observe_verified_motion state (vs_speed speed) (vs_source_at speed) at_ in
            (state, changed, moving_time_candidate self staged at_ speed vehicle)
        end
      else (a_speed self, false, None)
  | None => (a_speed self, false, None)
  end.

Definition is_observed (o : TelemetryObservation) : bool :=
  match o with Observed => true | _ => false end.

(** [update] is the answer of the metadata write.  A failed write leaves the
    state as it was. *)
Definition app_observe_telemetry (self : RecordingState) (at_ : Z)
    (speed : option RideVehicleSpeedSample) (vehicle : option VerifiedRideVehicle)
    (update : result MovingTimeCheckpoint StorageError)
  : RecordingState * result RideTelemetryResult RideRecordingError :=
  match require_ready self with
  | Err e => (self, Err e)
  | Ok _ =>
      let '(staged, observation) := observe_telemetry (a_admission_recorder self) at_ in
      let accepted := match observation with Observed | AlreadyObserved => true | _ => false end in
      let '(staged_speed, motion_changed, latest) :=
        stage_speed self staged accepted at_ speed vehicle in
      let publishes := is_observed observation || motion_changed in
      let durable := if publishes then (observe_telemetry (a_recorder self) at_).1
                     else a_recorder self in
      let stored :=
        match a_ride_id self with
        | Some ride_id =>
            if database && publishes
               && (negb (bool_decide ((fst <$> a_persisted_telemetry_receipt self)
                                      = a_ride_id self)) || motion_changed)
            then match update with
                 | Err e => Err (StorageFailed e)
                 | Ok checkpoint =>
                     Ok ((publish_checkpoint self ride_id checkpoint)
                           <| a_persisted_telemetry_receipt := Some (ride_id, at_) |>)
                 end
            else Ok self
        | None => Ok self
        end in
      match stored with
      | Err e => (self, Err e)
      | Ok self =>
          let self := if publishes then bump_revision self else self in
          (self <| a_recorder := durable |>
                <| a_admission_recorder := staged |>
                <| a_speed := staged_speed |>
                <| a_latest_vehicle_moving_time :=
                     match latest with Some _ => latest | None => a_latest_vehicle_moving_time self end |>,
           Ok {| tr_observation := observation; tr_motion_changed := motion_changed |})
      end
  end.

(** [checkpoint_telemetry_receipt]. *)
Definition checkpoint_telemetry_receipt (self : RecordingState)
    (update : result MovingTimeCheckpoint StorageError)
  : RecordingState * result unit RideRecordingError :=
  match require_ready self with
  | Err e => (self, Err e)
  | Ok _ =>
      match a_ride_id self, last_telemetry_at (a_recorder self) with
      | Some ride_id, Some at_ =>
          if bool_decide (a_persisted_telemetry_receipt self = Some (ride_id, at_))
             || negb database
          then (self, Ok tt)
          else match update with
          | Err e => (self, Err (StorageFailed e))
          | Ok checkpoint =>
              ((publish_checkpoint self ride_id checkpoint)
                 <| a_persisted_telemetry_receipt := Some (ride_id, at_) |>, Ok tt)
          end
      | _, _ => (self, Ok tt)
      end
  end.

(** [checkpoint_location_writes]: [fence] is the answer of the worker. *)
Definition checkpoint_location_writes (self : RecordingState) (fence : result unit StorageError)
    (ready : Z -> option (result LocationWriteResult StorageError))
  : RecordingState * result (list RideLocationWriteOutcome) RideRecordingError :=
  match awaited fence with
  | Err e => (self, Err (StorageFailed e))
  | Ok _ =>
      let '(self, outcomes) := settle_ready_location_writes self ready in (self, Ok outcomes)
  end.
Definition app_checkpoint (self : RecordingState) (update : result MovingTimeCheckpoint StorageError)
    (fence : result unit StorageError)
    (ready : Z -> option (result LocationWriteResult StorageError))
  : RecordingState * result (list RideLocationWriteOutcome) RideRecordingError :=
  match checkpoint_telemetry_receipt self update with
  | (self, Err e) => (self, Err e)
  | (self, Ok _) => checkpoint_location_writes self fence ready
  end.

(** ** Locations *)

(** What the database answers while one location is admitted.  A fence that
    was passed means that every earlier write has its answer, which is
    [la_settled]. *)
Record LocationAnswers := {
  la_fence : result unit StorageError;
  la_settled : Z -> result LocationWriteResult StorageError;
  la_stationary : result CheckpointOutcome StorageError;
  la_clock : result CheckpointOutcome StorageError;
  la_queue : result unit StorageError;
}.

Definition has_vehicle (self : RecordingState) : bool :=
  bool_decide (is_Some (associated_vehicle (a_recorder self))).

(** The boundary of the last time the wheel was known to stand. *)
Definition mark_known_stop (self : RecordingState) (sample : LocationSample) : RecordingState :=
  match (if has_vehicle self
         then motion_at (a_speed self) (monotonic sample) ≫= mo_last_stationary else None) with
  | Some at_ =>
      self <| a_recorder := mark_stationary_boundary (a_recorder self) at_ |>
           <| a_admission_recorder := mark_stationary_boundary (a_admission_recorder self) at_ |>
  | None => self
  end.

(** A database accepts the observation if it still has the point. *)
Definition outcome_holds (answer : result CheckpointOutcome StorageError)
  : result unit RideRecordingError :=
  if negb database then Ok tt else
  match answer with
  | Err e => Err (StorageFailed e)
  | Ok PointChanged => Err StaleCommand
  | Ok (Applied | AlreadyDurable) => Ok tt
  end.

(** What follows an accepted clock observation. *)
Definition adopt_recorder (self : RecordingState) (recorder : RideMapRecorder) : RecordingState :=
  bump_revision (self <| a_recorder := recorder |> <| a_admission_recorder := recorder |>).

Definition admit_parked (self : RecordingState) (sample : LocationSample)
    (answers : LocationAnswers)
  : RecordingState * result RideLocationAdmission RideLocationAdmissionFailure :=
  let pending := database && negb (bool_decide (length (a_pending_locations self) = 0%nat)) in
  match (if pending then la_fence answers else Ok tt) with
  | Err e => (self, Err (not_observed (StorageFailed e)))
  | Ok _ =>
      let self := if pending then retain_settled self (fun id => Some (la_settled answers id)) else self in
      match admit_stationary_sample great_circle (a_recorder self) sample with
      | Err reason => (self, Ok (LocationRejected reason))
      | Ok observation =>
          match outcome_holds (la_stationary answers) with
          | Err e => (self, Err (not_observed e))
          | Ok _ =>
              match observe_stationary great_circle (a_recorder self) observation with
              | (recorder, false) =>
                  (self <| a_recorder := recorder |>, Err (not_observed StaleCommand))
              | (recorder, true) => (adopt_recorder self recorder, Ok Parked)
              end
          end
      end
  end.

Definition admit_clock_only (self : RecordingState) (observation : ObservationCapability)
    (answers : LocationAnswers)
  : RecordingState * result RideLocationAdmission RideLocationAdmissionFailure :=
  match checked_sub (point_count (summary (a_recorder self))) 1 with
  | None => (self, Err (clock_only InvalidTransitionError))
  | Some _ =>
      match outcome_holds (la_clock answers) with
      | Err e => (self, Err (clock_only e))
      | Ok _ =>
          match observe_clock_only great_circle (a_recorder self) observation with
          | (recorder, false) =>
              (self <| a_recorder := recorder |>, Err (clock_only StaleCommand))
          | (recorder, true) => (adopt_recorder self recorder, Ok ClockOnly)
          end
      end
  end.

(** While points are still being written, repeated values are not folded:
    the sample is admitted after the newest of them. *)
Definition location_decision (self : RecordingState) (sample : LocationSample)
  : LocationRecordingDecision :=
  if bool_decide (length (a_pending_locations self) = 0%nat)
  then classify_sample great_circle (a_recorder self) sample
  else match admit_sample great_circle (a_admission_recorder self) sample with
  | Ok admitted => Record_ admitted
  | Err reason => Rejected reason
  end.

Definition admit_point (self : RecordingState) (ride_id : RideId) (sample : LocationSample)
    (admitted : AdmittedLocationSample) (answers : LocationAnswers)
  : RecordingState * result RideLocationAdmission RideLocationAdmissionFailure :=
  let telemetry_state := telemetry_state_at (a_admission_recorder self) (monotonic sample) in
  let '(segment_id, _, start_reason) := next_sample_metadata (a_admission_recorder self) sample in
  let point := {| pt_sample := sample; pt_segment_id := segment_id;
                  pt_telemetry_state := telemetry_state;
                  pt_segment_start_reason := start_reason |} in
  let sequence := point_count (summary (a_admission_recorder self)) in
  let request_id := a_next_location_request_id self in
  match checked_add u64_max request_id 1 with
  | None => (self, Err (not_observed CommandIdExhausted))
  | Some next_request_id =>
      match record_admitted (a_admission_recorder self) admitted with
      | (_, false) => (self, Err (not_observed InvalidTransitionError))
      | (admission_recorder, true) =>
          if negb database then
            match record_admitted (a_recorder self) admitted with
            | (recorder, false) =>
                (self <| a_recorder := recorder |>, Err (not_observed InvalidTransitionError))
            | (recorder, true) => (adopt_recorder self recorder, Ok (AcceptedInMemory point sequence))
            end
          else if bool_decide
                    (MAX_PENDING_LOCATION_WRITES
                     <= Z.of_nat (length (a_pending_locations self)
                                  + length (a_settled_locations self)))
          then (self, Ok QueueFull)
          else match la_queue answers with
          | Err e => (self, Err (not_observed (StorageFailed e)))
          | Ok _ =>
              (self <| a_next_location_request_id := next_request_id |>
                    <| a_admission_recorder := admission_recorder |>
                    <| a_pending_locations := a_pending_locations self ++
                         [{| pl_request_id := request_id; pl_ride_id := ride_id;
                             pl_admitted := admitted; pl_point := point;
                             pl_sequence := sequence |}] |>,
               Ok (Queued request_id point sequence))
          end
      end
  end.

(** [admit_location_with_policy]; waiting for capacity and the moving-time
    evidence only change what is asked of the database. *)
Definition admit_location (self : RecordingState) (sample : LocationSample)
    (answers : LocationAnswers)
  : RecordingState * result RideLocationAdmission RideLocationAdmissionFailure :=
  match require_ready self, a_ride_id self with
  | Err e, _ => (self, Err (not_observed e))
  | Ok _, None => (self, Err (not_observed NoActiveRideError))
  | Ok _, Some ride_id =>
      if has_vehicle self && motion_history_retired_at (a_speed self) (monotonic sample)
      then (self, Ok MotionHistoryRetired)
      else
        let self := mark_known_stop self sample in
        if has_vehicle self && parked_at (a_speed self) (monotonic sample)
        then admit_parked self sample answers
        else match location_decision self sample with
        | Rejected reason => (self, Ok (LocationRejected reason))
        | ObserveClockOnly observation => admit_clock_only self observation answers
        | Record_ admitted => admit_point self ride_id sample admitted answers
        end
  end.

(** ** Recovery at startup *)

Record RideRecoveryPolicy := {
  po_monotonic_now : Z;
  po_wall_clock_now : Z;
  po_enabled : bool;
  po_autostart_enabled : bool;
  po_selected_vehicle : option text;
}.
Inductive RideRecoveryDisposition :=
| DispEmpty | DispActive | DispResumed | DispPauseRetained | DispUnchanged | DispSaved
| DispDiscarded | DispReplaced | DispAwaitingConnection.

Record RecoveryContext := {
  rc_ride_id : RideId;
  rc_lifecycle : RideLifecycleState;
  rc_updated_at : Z;
  rc_timing_last : Z;
  rc_explicit_pause : bool;
  rc_point_count : Z;
  rc_has_telemetry_receipt : bool;
  rc_recorded_duration : option Z;
  rc_last_connected_vehicle : option VehicleIdentity;
  rc_has_vehicle_identity : bool;
}.
Definition recovery_context (snapshot : RideRestoreSnapshot) : option RecoveryContext :=
  (fun ride => {|
     rc_ride_id := rr_id ride;
     rc_lifecycle := rr_state ride;
     rc_updated_at := rr_updated_at ride;
     rc_timing_last :=
       match rr_monotonic_last_event ride with
       | Some at_ => at_
       | None => default 0 (point_at <$> last (rs_route_points snapshot))
       end;
     rc_explicit_pause := bool_decide (is_Some (rr_paused_at ride));
     rc_point_count := point_count (rr_summary ride);
     rc_has_telemetry_receipt := bool_decide (is_Some (rr_last_telemetry_at ride));
     rc_recorded_duration := rr_last_point_duration ride;
     rc_last_connected_vehicle := rs_last_connected_device snapshot ≫= vehicle_identity_new;
     rc_has_vehicle_identity := bool_decide (is_Some (rr_candidate_vehicle ride))
                                || bool_decide (is_Some (rr_associated_vehicle ride)) |})
  <$> rs_ride snapshot.

Definition reset_after_recovery (self : RecordingState) : RecordingState :=
  bump_generation
    (self <| a_recorder := recorder_new |>
          <| a_admission_recorder := recorder_new |>
          <| a_ride_id := None |>
          <| a_checkpoint := None |>
          <| a_persisted_telemetry_receipt := None |>
          <| a_speed := default_speed_state |>
          <| a_pending_locations := [] |>
          <| a_music_history_policy := None |>
          <| a_music_history_available := true |>).
Definition clear_projection (self : RecordingState) : RecordingState :=
  (reset_after_recovery self) <| a_last_connected_vehicle := None |>.

(** [transition_answer] is what the resume of the stored ride was answered. *)
Definition resume_restored (self : RecordingState) (ride_id : RideId)
    (timing_last monotonic_now : Z) (transition_answer : result Committed StorageError)
  : RecordingState * result unit RideRecordingError :=
  let epoch_offset := sat_sub timing_last monotonic_now in
  let logical_at := sat_add u64_max monotonic_now epoch_offset in
  match validate_transition (a_recorder self) Resume with
  | Err _ => (self, Err InvalidTransitionError)
  | Ok t =>
      match awaited transition_answer with
      | Err e => (self, Err (StorageFailed e))
      | Ok committed =>
          if is_some_and committed (fun c => negb (bool_decide (cm_ride_id c = ride_id))
                                             || negb (bool_decide (cm_lifecycle c = Active)))
          then (self, Err StaleCommand)
          else match apply_transition_at (a_recorder self) t logical_at with
          | (recorder, Err _) => (self <| a_recorder := recorder |>, Err InvalidTransitionError)
          | (recorder, Ok _) =>
              let self := self <| a_recorder := recorder |> in
              match apply_transition_at (a_admission_recorder self) t logical_at with
              | (recorder, Err _) =>
                  (self <| a_admission_recorder := recorder |>, Err InvalidTransitionError)
              | (recorder, Ok _) =>
                  (bump_generation
                     (self <| a_admission_recorder := recorder |>
                           <| a_monotonic_epoch_offset := epoch_offset |>
                           <| a_checkpoint := cm_checkpoint <$> committed |>), Ok tt)
              end
          end
      end
  end.

(** [validate_transition] and [apply_transition] of one recorder. *)
Definition applied_event (recorder : RideMapRecorder) (event : RideEvent)
  : result RideMapRecorder RideRecordingError :=
  match validate_transition recorder event with
  | Err _ => Err InvalidTransitionError
  | Ok t => match apply_transition recorder t with
            | (recorder, Ok _) => Ok recorder
            | (_, Err _) => Err InvalidTransitionError
            end
  end.
Definition saved_recorder (recorder : RideMapRecorder) (explicit_pause : bool)
    (recorded_duration : option Z) : result RideMapRecorder RideRecordingError :=
  match (if explicit_pause then None else recorded_duration) with
  | Some recorded =>
      match save_interrupted_at_recorded_duration recorder recorded with
      | (recorder, Ok _) => Ok recorder
      | (_, Err _) => Err InvalidTransitionError
      end
  | None =>
      recorder <-? (if explicit_pause then applied_event recorder Stop else Ok recorder);
      applied_event recorder Save
  end.
Definition save_recovered_projection (self : RecordingState) (explicit_pause : bool)
    (recorded_duration : option Z) : RecordingState * result unit RideRecordingError :=
  match saved_recorder (a_recorder self) explicit_pause recorded_duration,
        saved_recorder (a_admission_recorder self) explicit_pause recorded_duration with
  | Ok recorder, Ok admission_recorder =>
      (bump_generation (self <| a_recorder := recorder |>
                             <| a_admission_recorder := admission_recorder |>), Ok tt)
  | _, _ => (self, Err InvalidTransitionError)
  end.

Definition start_replacement (self : RecordingState) (counter : Z) (committed : Committed)
    (monotonic_now : Z) (candidate : option VehicleIdentity)
  : RecordingState * Z * result unit RideRecordingError :=
  if negb (bool_decide (cm_lifecycle committed = Active))
  then (self, counter, Err InvalidTransitionError)
  else match start recorder_new counter monotonic_now candidate with
  | (_, counter, Err _) => (self, counter, Err InvalidTransitionError)
  | (recorder, counter, Ok _) =>
      (bump_generation
         (self <| a_recorder := recorder |>
               <| a_admission_recorder := recorder |>
               <| a_ride_id := Some (cm_ride_id committed) |>
               <| a_checkpoint := Some (cm_checkpoint committed) |>
               <| a_persisted_telemetry_receipt := None |>
               <| a_speed := default_speed_state |>
               <| a_speed_generation_started := monotonic_now |>
               <| a_monotonic_epoch_offset := 0 |>
               <| a_recoverable_updated_at := None |>
               <| a_pending_locations := [] |>), counter, Ok tt)
  end.

(** [settle_answer] is what the settlement of a stale ride was answered: the
    ride that is current afterwards, if there is one. *)
Definition settle_stale (self : RecordingState) (counter : Z) (context : RecoveryContext)
    (policy : RideRecoveryPolicy) (settle_answer : result (option Committed) StorageError)
  : RecordingState * Z * result RideRecoveryDisposition RideRecordingError :=
  let discard_empty :=
    bool_decide (rc_point_count context = 0) && negb (rc_has_telemetry_receipt context) in
  let candidate :=
    identity ← rc_last_connected_vehicle context;
    if po_autostart_enabled policy && bool_decide (po_selected_vehicle policy = Some identity)
    then Some identity else None in
  match awaited settle_answer with
  | Err e => (self, counter, Err (StorageFailed e))
  | Ok answer =>
      let committed := mjoin answer in
      let self := self <| a_recoverable_updated_at := None |> in
      match committed with
      | Some c =>
          if negb (bool_decide (cm_ride_id c = rc_ride_id context)) then
            match start_replacement (reset_after_recovery self) counter c
                    (po_monotonic_now policy) candidate with
            | (self, counter, Err e) => (self, counter, Err e)
            | (self, counter, Ok _) => (self, counter, Ok DispReplaced)
            end
          else if discard_empty then (reset_after_recovery self, counter, Ok DispDiscarded)
          else
            match save_recovered_projection (self <| a_checkpoint := Some (cm_checkpoint c) |>)
                    (rc_explicit_pause context) (rc_recorded_duration context) with
            | (self, Err e) => (self, counter, Err e)
            | (self, Ok _) => (self, counter, Ok DispSaved)
            end
      | None =>
          if discard_empty then (reset_after_recovery self, counter, Ok DispDiscarded)
          else match save_recovered_projection self (rc_explicit_pause context)
                       (rc_recorded_duration context) with
               | (self, Err e) => (self, counter, Err e)
               | (self, Ok _) => (self, counter, Ok DispSaved)
               end
      end
  end.

Definition align_active (self : RecordingState) (context : RecoveryContext)
    (policy : RideRecoveryPolicy) : RecordingState :=
  let receipt := match a_persisted_telemetry_receipt self with
                 | Some (ride_id, at_) =>
                     if bool_decide (ride_id = rc_ride_id context) then at_ else 0
                 | None => 0
                 end in
  let associated := default 0 (associated_at (a_recorder self)) in
  self <| a_monotonic_epoch_offset :=
            sat_sub (Z.max (Z.max (rc_timing_last context) associated) receipt)
              (po_monotonic_now policy) |>
       <| a_recoverable_updated_at := None |>.

Definition apply_recovery (self : RecordingState) (counter : Z) (context : RecoveryContext)
    (policy : RideRecoveryPolicy) (transition_answer : result Committed StorageError)
    (settle_answer : result (option Committed) StorageError)
  : RecordingState * Z * result RideRecoveryDisposition RideRecordingError :=
  if bool_decide (rc_lifecycle context = Active) then
    if negb (po_enabled policy) then (self, counter, Ok DispUnchanged)
    else (align_active self context policy, counter, Ok DispActive)
  else if negb (po_enabled policy) then (self, counter, Ok DispUnchanged)
  else
    let kind := if rc_explicit_pause context then ExplicitPause else InvoluntaryInterruption in
    match ride_recovery_decision kind (po_wall_clock_now policy) (rc_updated_at context) with
    | DecideResume =>
        if negb (rc_has_vehicle_identity context) then
          match resume_restored self (rc_ride_id context) (rc_timing_last context)
                  (po_monotonic_now policy) transition_answer with
          | (self, Err e) => (self, counter, Err e)
          | (self, Ok _) =>
              (self <| a_recoverable_updated_at := None |>, counter, Ok DispResumed)
          end
        else (self, counter, Ok DispAwaitingConnection)
    | KeepPaused => (self, counter, Ok DispPauseRetained)
    | Finalize => settle_stale self counter context policy settle_answer
    end.

Definition finish_restore_with_policy (self : RecordingState) (counter : Z)
    (operation : PreparedRideRestore) (policy : RideRecoveryPolicy)
    (answer : result RideRestoreSnapshot StorageError)
    (transition_answer : result Committed StorageError)
    (settle_answer : result (option Committed) StorageError)
  : RecordingState * Z
    * result (RideRecordingSnapshot * RideRecoveryDisposition) RideRecordingError :=
  let id := po_lease operation in
  match awaited answer with
  | Err e => (release self id, counter, Err (StorageFailed e))
  | Ok restored =>
      if negb (command_is_pending self id) then (self, counter, Err StaleCommand)
      else if bool_decide (checked_add u64_max (a_generation self) 1 = None)
      then (require_recovery self, counter, Err CommandIdExhausted)
      else
        let context := restored ≫= recovery_context in
        let '(self, counter) :=
          match restored with
          | Some snapshot => restore_projection self counter snapshot (po_enabled policy)
          | None => (clear_projection self, counter)
          end in
        let '(self, counter, disposition) :=
          match context with
          | Some context => apply_recovery self counter context policy transition_answer settle_answer
          | None => (self, counter, Ok DispEmpty)
          end in
        match disposition with
        | Err e => (release self id, counter, Err e)
        | Ok disposition =>
            let self := self <| a_restore_phase := PhaseReady |> <| a_pending_command_id := None |> in
            (self, counter, Ok (snapshot_from self, disposition))
        end
  end.
End Application.
