(* ===== verification/RideMusic.v ===== *)
(** * The music history of a recorded ride

    [cutout-application/src/ride_recording/music.rs]: which observations a
    recording admits as events, and the cached privacy policy of the selected
    ride with the tickets that order its writes.  The answers of the database
    worker are arguments.  [current_music_history_policy] takes the lock twice
    and reads the database in between: its two regions are two definitions.  A
    receipt that finds the lock taken is a poll that was not made. *)

From S2P Require Import Prelude.
From S2P Require Import Quantities ElapsedTime Text RideLocation RideRecorder RideMotion.
From S2P Require Import MusicHistory RideRecording.
Import Lifecycle.

(** ** Data *)

Inductive RideMusicError :=
| MusicRecording (e : RideRecordingError)
| MusicUnavailable
| MusicStorage (e : StorageError)
| MusicInvalidInput (e : MusicValidationError).
Inductive RideMusicContext := ContextRideNotOpen | ContextOutOfOrder | ContextReady (token : RecordingToken).
Record RideMusicTerminalContext := { tc_ride_id : option RideId; tc_closed : bool }.
Record RideMusicObservation := {
  mob_snapshot : MusicSnapshot;
  mob_kind : MusicRideEventKind;
  mob_monotonic_at : Z;
  mob_wall_clock_at : Z;
  mob_clock_uncertainty : Z;
}.
Inductive RideMusicEventOutcome := RideNotOpen | Timeline (o : MusicTimelineOutcome).
Record RideMusicEventResult := {
  er_outcome : RideMusicEventOutcome;
  er_sequence : option Z;
  er_effective_policy : option MusicHistoryPolicy;
}.
(** The durable answer to a recorded event. *)
Record MusicTimelineRecordResult := {
  mr_outcome : MusicTimelineOutcome;
  mr_sequence : option Z;
  mr_effective_policy : MusicHistoryPolicy;
}.
Definition event_result_from (r : MusicTimelineRecordResult) : RideMusicEventResult :=
  {| er_outcome := Timeline (mr_outcome r); er_sequence := mr_sequence r;
     er_effective_policy := Some (mr_effective_policy r) |}.
Definition immediate (outcome : RideMusicEventOutcome) : RideMusicEventResult :=
  {| er_outcome := outcome; er_sequence := None; er_effective_policy := None |}.
(** A queued event is what was given to the worker. *)
Inductive RideMusicEventAdmission :=
| Completed (r : RideMusicEventResult)
| EventPending (ride_id : RideId) (event : MusicRideEvent).
Inductive RideMusicHistoryRead := HistoryAbsent | HistoryUnavailable | HistoryPending (ride_id : RideId).

Record PendingRideMusicWrite := {
  pw_ride_id : RideId;
  pw_previous_policy : option MusicHistoryPolicy;
  pw_previous_policy_epoch : Z;
  pw_policy : option MusicHistoryPolicy;
  pw_cache_epoch : Z;
  pw_deletes_history : bool;
}.

(** ** Context *)

Definition validate_music_recording (self : RecordingState) (token : RecordingToken)
  : result unit RideRecordingError :=
  _ <-? require_ready self;
  if negb (bool_decide (a_ride_id self = Some (rt_ride_id token)))
     || negb (bool_decide (a_generation self = rt_generation token))
     || negb (bool_decide (state (a_recorder self) = Some Active))
  then Err StaleCommand else Ok tt.

Definition resolve_music_context (self : RecordingState) (expected : RideId) (observed_at : Z)
  : result RideMusicContext RideRecordingError :=
  _ <-? require_ready self;
  if negb (bool_decide (a_ride_id self = Some expected)) then Err StaleCommand
  else if negb (bool_decide (state (a_recorder self) = Some Active)) then Ok ContextRideNotOpen
  else if negb (accepts_recording_observation_at (a_recorder self)
                  (sat_add u64_max observed_at (a_monotonic_epoch_offset self)))
  then Ok ContextOutOfOrder
  else Ok (ContextReady {| rt_ride_id := expected; rt_generation := a_generation self |}).

Definition music_history_terminal_context (self : RecordingState) : RideMusicTerminalContext :=
  {| tc_ride_id := a_ride_id self;
     tc_closed := match state (a_recorder self) with
                  | Some (Stopped | Saved | Discarded) => true
                  | _ => false
                  end |}.

Definition recordable_ride (self : RecordingState) : result RideId RideRecordingError :=
  _ <-? require_ready self;
  ride_id <-? ok_or (a_ride_id self) NoActiveRideError;
  if negb (is_some_and (state (a_recorder self)) is_recording)
  then Err InvalidTransitionError else Ok ride_id.

(** ** The cached policy *)

Definition reserve_music_cache (self : RecordingState) : RecordingState * Z :=
  let epoch := sat_add u64_max (a_music_cache_epoch self) 1 in
  (self <| a_music_cache_epoch := epoch |>, epoch).

Definition clear_deletion_fence (self : RecordingState) : RecordingState :=
  self <| a_pending_music_deletion_epoch := None |>
       <| a_suppressed_music_policy := None |>
       <| a_policy_before_pending_deletion := None |>.

Definition publish_music_policy (self : RecordingState) (policy : MusicHistoryPolicy)
  : RecordingState :=
  let self := self <| a_music_history_policy := Some policy |>
                   <| a_music_history_available := true |> in
  let '(self, epoch) := reserve_music_cache self in
  clear_deletion_fence (self <| a_published_music_cache_epoch := epoch |>).

Definition queue_selected_music_deletion (self : RecordingState)
  : RecordingState * (Z * option MusicHistoryPolicy * Z) :=
  let captured := default (a_published_music_cache_epoch self,
                           default PolicyDisabled (a_music_history_policy self))
                    (a_policy_before_pending_deletion self) in
  let self := match a_policy_before_pending_deletion self with
              | None => self <| a_policy_before_pending_deletion := Some captured |>
              | Some _ => self
              end in
  let '(self, epoch) := reserve_music_cache self in
  (self <| a_pending_music_deletion_epoch := Some epoch |>
        <| a_music_history_policy := Some PolicyDisabled |>,
   (epoch, Some captured.2, captured.1)).

(** A policy that was stored at [epoch] becomes the cached one. *)
Definition publish_at (self : RecordingState) (epoch : Z) (policy : MusicHistoryPolicy)
  : RecordingState :=
  self <| a_music_history_policy := Some policy |>
       <| a_music_history_available := true |>
       <| a_published_music_cache_epoch := epoch |>.

Definition settle_policy_success (self : RecordingState) (epoch : Z) (policy : MusicHistoryPolicy)
  : RecordingState :=
  if is_some_and (a_pending_music_deletion_epoch self) (fun d => bool_decide (epoch < d)) then
    if match a_suppressed_music_policy self with
       | Some (ticket, _) => bool_decide (ticket < epoch)
       | None => true
       end
    then self <| a_suppressed_music_policy := Some (epoch, policy) |>
    else self
  else if bool_decide (a_published_music_cache_epoch self <= epoch) then
    let self := publish_at self epoch policy in
    match a_pending_music_deletion_epoch self with
    | Some _ => self <| a_policy_before_pending_deletion := Some (epoch, policy) |>
    | None => self
    end
  else self.

(** What a failed deletion gives back when nothing was stored meanwhile. *)
Definition restore_previous (self : RecordingState) (published : Z)
    (previous_policy : option MusicHistoryPolicy) (previous_policy_epoch : Z) : RecordingState :=
  match previous_policy with
  | Some policy =>
      if bool_decide (published <= previous_policy_epoch)
      then self <| a_music_history_policy := Some policy |> else self
  | None => self
  end.

Definition settle_deletion (self : RecordingState) (epoch : Z)
    (previous_policy : option MusicHistoryPolicy) (previous_policy_epoch : Z)
    (answer : result unit StorageError) : RecordingState :=
  let owns_fence := bool_decide (a_pending_music_deletion_epoch self = Some epoch) in
  match answer with
  | Ok _ =>
      let self := if bool_decide (a_published_music_cache_epoch self <= epoch)
                  then publish_at self epoch PolicyDisabled else self in
      if owns_fence then clear_deletion_fence self else self
  | Err _ =>
      if negb owns_fence then self else
      let suppressed := a_suppressed_music_policy self in
      let published := a_published_music_cache_epoch self in
      let restored :=
        self <| a_pending_music_deletion_epoch := None |>
             <| a_policy_before_pending_deletion := None |>
             <| a_suppressed_music_policy := None |> in
      match suppressed with
      | Some (ticket, policy) =>
          if bool_decide (published <= ticket) then publish_at restored ticket policy
          else restore_previous restored published previous_policy previous_policy_epoch
      | None => restore_previous restored published previous_policy previous_policy_epoch
      end
  end.

(** [PendingRideMusicWrite::try_result]; [answer] is that of the storage. *)
Definition try_result (self : RecordingState) (pending : PendingRideMusicWrite)
    (answer : option (result unit StorageError))
  : RecordingState * option (result unit StorageError) :=
  match answer with
  | None => (self, None)
  | Some answer =>
      (if negb (bool_decide (a_ride_id self = Some (pw_ride_id pending))) then self
       else if pw_deletes_history pending
       then settle_deletion self (pw_cache_epoch pending) (pw_previous_policy pending)
              (pw_previous_policy_epoch pending) answer
       else match answer, pw_policy pending with
            | Ok _, Some policy => settle_policy_success self (pw_cache_epoch pending) policy
            | _, _ => self
            end, Some answer)
  end.

Section Application.
Context (database : bool).

Definition music_database : result unit RideMusicError :=
  if database then Ok tt else Err MusicUnavailable.

(** *** Reading the policy *)

(** What the first locked region leaves: an answer, or what the second region
    compares after the read. *)
Inductive PolicyRead :=
| ReadAnswered (policy : MusicHistoryPolicy)
| ReadQueued (ride_id : RideId) (published reserved : Z) (cached : option MusicHistoryPolicy).

Definition begin_policy_read (self : RecordingState) : PolicyRead :=
  match a_ride_id self with
  | None => ReadAnswered PolicyDisabled
  | Some ride_id =>
      if bool_decide (is_Some (a_pending_music_deletion_epoch self)) || negb database
      then ReadAnswered (default PolicyDisabled (a_music_history_policy self))
      else ReadQueued ride_id (a_published_music_cache_epoch self) (a_music_cache_epoch self)
             (a_music_history_policy self)
  end.
Definition finish_policy_read (self : RecordingState) (read : PolicyRead)
    (answer : result MusicHistoryPolicy StorageError) : RecordingState * MusicHistoryPolicy :=
  match read with
  | ReadAnswered policy => (self, policy)
  | ReadQueued ride_id published reserved cached =>
      match answer with
      | Err _ => (self, default PolicyDisabled cached)
      | Ok policy =>
          if bool_decide (a_ride_id self = Some ride_id)
             && bool_decide (a_pending_music_deletion_epoch self = None)
             && bool_decide (a_published_music_cache_epoch self = published)
          then
            let self := self <| a_music_history_policy := Some policy |> in
            (if bool_decide (a_music_cache_epoch self = reserved)
             then self <| a_published_music_cache_epoch := Z.max reserved published |>
             else self, policy)
          else (self, default PolicyDisabled (a_music_history_policy self))
      end
  end.

(** *** Writing the policy *)

Definition storage_error {A} (answer : result A StorageError) : result A RideMusicError :=
  match answer with Ok a => Ok a | Err e => Err (MusicStorage e) end.
Definition recording_error {A} (answer : result A RideRecordingError) : result A RideMusicError :=
  match answer with Ok a => Ok a | Err e => Err (MusicRecording e) end.

Definition set_music_history_policy (self : RecordingState) (policy : MusicHistoryPolicy)
    (answer : result unit StorageError) : RecordingState * result unit RideMusicError :=
  match (_ <-? recording_error (recordable_ride self); _ <-? music_database;
         storage_error answer) with
  | Err e => (self, Err e)
  | Ok _ => (publish_music_policy self policy, Ok tt)
  end.

(** [queued] is the admission to the queue of the worker. *)
Definition begin_set_music_history_policy (self : RecordingState) (policy : MusicHistoryPolicy)
    (queued : result unit StorageError)
  : RecordingState * result PendingRideMusicWrite RideMusicError :=
  match (ride_id <-? recording_error (recordable_ride self); _ <-? music_database;
         _ <-? storage_error queued; Ok ride_id) with
  | Err e => (self, Err e)
  | Ok ride_id =>
      let '(self, epoch) := reserve_music_cache self in
      (self, Ok {| pw_ride_id := ride_id; pw_previous_policy := None;
                   pw_previous_policy_epoch := 0; pw_policy := Some policy;
                   pw_cache_epoch := epoch; pw_deletes_history := false |})
  end.

Definition begin_delete_music_history (self : RecordingState) (ride_id : RideId)
    (queued : result unit StorageError)
  : RecordingState * result PendingRideMusicWrite RideMusicError :=
  let selected := bool_decide (a_ride_id self = Some ride_id) in
  match (_ <-? music_database; storage_error queued) with
  | Err e => (self, Err e)
  | Ok _ =>
      let '(self, (epoch, previous_policy, previous_epoch)) :=
        if selected then queue_selected_music_deletion self
        else (self, (a_music_cache_epoch self, None, 0)) in
      (self, Ok {| pw_ride_id := ride_id; pw_previous_policy := previous_policy;
                   pw_previous_policy_epoch := previous_epoch; pw_policy := None;
                   pw_cache_epoch := epoch; pw_deletes_history := true |})
  end.

Definition delete_current_music_history (self : RecordingState) (answer : result unit StorageError)
  : RecordingState * result unit RideMusicError :=
  match (_ <-? recording_error (ok_or (a_ride_id self) NoActiveRideError); _ <-? music_database;
         storage_error answer) with
  | Err e => (self, Err e)
  | Ok _ => (publish_music_policy self PolicyDisabled, Ok tt)
  end.

(** *** Events *)

Inductive PreparedEvent :=
| EventCompleted (r : RideMusicEventResult)
| EventReady (ride_id : RideId) (snapshot : MusicSnapshot) (at_ : Z).

Definition input_error {A} (answer : result A MusicValidationError) : result A RideMusicError :=
  match answer with Ok a => Ok a | Err e => Err (MusicInvalidInput e) end.

Definition prepare_event (self : RecordingState) (observation : RideMusicObservation)
  : result PreparedEvent RideMusicError :=
  _ <-? recording_error (require_ready self);
  let offset := a_monotonic_epoch_offset self in
  let at_ := sat_add u64_max (mob_monotonic_at observation) offset in
  let original := mob_snapshot observation in
  position <-? input_error (position_new (s_position original) (s_duration original));
  snapshot <-? input_error
    (snapshot_new (s_provider original) (s_session_id original) (s_state original)
       (s_item original) position (sat_add u64_max (s_observed_at original) offset)
       (s_capabilities original));
  ride_id <-? recording_error (ok_or (a_ride_id self) NoActiveRideError);
  if negb (bool_decide (state (a_recorder self) = Some Active))
  then Ok (EventCompleted (immediate RideNotOpen))
  else if bool_decide (s_state snapshot = StaleState) || bool_decide (at_ < s_observed_at snapshot)
  then Ok (EventCompleted (immediate (Timeline TOutOfOrder)))
  else Ok (EventReady ride_id snapshot at_).

Definition event_from (observation : RideMusicObservation) (snapshot : MusicSnapshot) (at_ : Z)
    (policy : MusicHistoryPolicy) : result (option MusicRideEvent) RideMusicError :=
  input_error (try_from_snapshot snapshot (mob_kind observation) at_
                 (mob_wall_clock_at observation) (mob_clock_uncertainty observation) policy).

(** [policy] is the durable policy, [record] the answer to the event made
    under it. *)
Definition record_music_event (self : RecordingState) (observation : RideMusicObservation)
    (policy : result MusicHistoryPolicy StorageError)
    (record : MusicRideEvent -> result MusicTimelineRecordResult StorageError)
  : result RideMusicEventResult RideMusicError :=
  prepared <-? prepare_event self observation;
  match prepared with
  | EventCompleted r => Ok r
  | EventReady ride_id snapshot at_ =>
      _ <-? music_database;
      policy <-? storage_error policy;
      event <-? event_from observation snapshot at_ policy;
      match event with
      | None => Ok (immediate (Timeline TDisabled))
      | Some event => stored <-? storage_error (record event); Ok (event_result_from stored)
      end
  end.
Definition begin_record_music_event (self : RecordingState) (observation : RideMusicObservation)
    (queued : result unit StorageError) : result RideMusicEventAdmission RideMusicError :=
  prepared <-? prepare_event self observation;
  match prepared with
  | EventCompleted r => Ok (Completed r)
  | EventReady ride_id snapshot at_ =>
      _ <-? music_database;
      event <-? event_from observation snapshot at_ HumanReadable;
      match event with
      | None => Ok (Completed (immediate (Timeline TDisabled)))
      | Some event => _ <-? storage_error queued; Ok (EventPending ride_id event)
      end
  end.

(** *** History *)

Definition begin_current_music_history (self : RecordingState) (queued : result unit StorageError)
  : result RideMusicHistoryRead RideMusicError :=
  match a_ride_id self with
  | None => Ok HistoryAbsent
  | Some ride_id =>
      if bool_decide (state (a_recorder self) = Some Discarded) then Ok HistoryAbsent
      else if negb database then Ok HistoryUnavailable
      else _ <-? storage_error queued; Ok (HistoryPending ride_id)
  end.

(** [History] is what the worker reads. *)
Definition current_music_history {History} (self : RecordingState)
    (answer : result History StorageError)
  : RecordingState * option (result History RideMusicError) :=
  match a_ride_id self with
  | None => (self, None)
  | Some _ =>
      if bool_decide (state (a_recorder self) = Some Discarded) then (self, None)
      else
        let r := _ <-? music_database; storage_error answer in
        (self <| a_music_history_available := bool_decide (is_Some (result_ok r)) |>, Some r)
  end.

(** *** A stored ride of the caller's choice

    These go to the database alone, whether or not the ride is the selected
    one: the recording and its cache are neither read nor changed. *)
Definition begin_stored_music_history (ride_id : RideId) (queued : result unit StorageError)
  : result RideId RideMusicError :=
  _ <-? music_database; _ <-? storage_error queued; Ok ride_id.
Definition stored_music_history {History} (answer : result History StorageError)
  : result History RideMusicError := _ <-? music_database; storage_error answer.
Definition delete_stored_music_history (answer : result unit StorageError)
  : result unit RideMusicError := _ <-? music_database; storage_error answer.
Definition redact_stored_music_history (answer : result unit StorageError)
  : result unit RideMusicError := _ <-? music_database; storage_error answer.
End Application.

(** ** The cache and the database

    The worker stores in the order it was asked, and a request that is waited
    for is answered after all queued before it.  So what a queued write will be
    answered, and what the database holds once the queue is empty, are known
    when it is queued: [cw_stored] is the latter for the ride of the world. *)
Section Cache.
Context (database : bool) (ride : RideId).

Record CacheWorld := {
  cw_state : RecordingState;
  cw_stored : MusicHistoryPolicy;
  cw_writes : list (PendingRideMusicWrite * result unit StorageError);
  cw_reads : list (PolicyRead * option (result MusicHistoryPolicy StorageError));
}.
#[global] Instance eta_cache : Eta CacheWorld := fun r =>
  Build_CacheWorld (cw_state r) (cw_stored r) (cw_writes r) (cw_reads r).

Inductive CacheCall :=
| BeginSet (policy : MusicHistoryPolicy) (queued answer : result unit StorageError)
| BeginDelete (ride_id : RideId) (queued answer : result unit StorageError)
| PollWrite (index : nat)
| SetNow (policy : MusicHistoryPolicy) (answer : result unit StorageError)
| DeleteNow (answer : result unit StorageError)
| BeginRead
| AnswerRead (index : nat) (answer : result unit StorageError)
| FinishRead (index : nat)
| DeleteStored (ride_id : RideId) (answer : result unit StorageError)
| RedactStored (ride_id : RideId) (answer : result unit StorageError).

Definition stores (self : CacheWorld) (policy : MusicHistoryPolicy)
    (answer : result unit StorageError) : MusicHistoryPolicy :=
  match answer with Ok _ => policy | Err _ => cw_stored self end.

Definition cache_step (self : CacheWorld) (c : CacheCall) : CacheWorld :=
  let s := cw_state self in
  match c with
  | BeginSet policy queued answer =>
      match begin_set_music_history_policy database s policy queued with
      | (s, Ok write) =>
          self <| cw_state := s |> <| cw_stored := stores self policy answer |>
               <| cw_writes := cw_writes self ++ [(write, answer)] |>
      | (s, Err _) => self <| cw_state := s |>
      end
  | BeginDelete ride_id queued answer =>
      match begin_delete_music_history database s ride_id queued with
      | (s, Ok write) =>
          self <| cw_state := s |>
               <| cw_stored := if bool_decide (ride_id = ride)
                               then stores self PolicyDisabled answer else cw_stored self |>
               <| cw_writes := cw_writes self ++ [(write, answer)] |>
      | (s, Err _) => self <| cw_state := s |>
      end
  | PollWrite index =>
      match cw_writes self !! index with
      | Some (write, answer) =>
          self <| cw_state := (try_result s write (Some answer)).1 |>
               <| cw_writes := delete index (cw_writes self) |>
      | None => self
      end
  | SetNow policy answer =>
      match set_music_history_policy database s policy answer with
      | (s, Ok _) => self <| cw_state := s |> <| cw_stored := policy |>
      | (s, Err _) => self <| cw_state := s |>
      end
  | DeleteNow answer =>
      match delete_current_music_history database s answer with
      | (s, Ok _) => self <| cw_state := s |> <| cw_stored := PolicyDisabled |>
      | (s, Err _) => self <| cw_state := s |>
      end
  | BeginRead => self <| cw_reads := cw_reads self ++ [(begin_policy_read database s, None)] |>
  | AnswerRead index answer =>
      self <| cw_reads :=
        alter (fun r => (r.1, match r.2 with
                              | Some answer => Some answer
                              | None => Some (match answer with
                                              | Ok _ => Ok (cw_stored self)
                                              | Err e => Err e
                                              end)
                              end)) index (cw_reads self) |>
  | FinishRead index =>
      match cw_reads self !! index with
      | Some (read, Some answer) =>
          self <| cw_state := (finish_policy_read s read answer).1 |>
               <| cw_reads := delete index (cw_reads self) |>
      | _ => self
      end
  | DeleteStored ride_id answer =>
      match delete_stored_music_history database answer with
      | Ok _ => self <| cw_stored := if bool_decide (ride_id = ride) then PolicyDisabled
                                     else cw_stored self |>
      | Err _ => self
      end
  | RedactStored ride_id answer =>
      match redact_stored_music_history database answer with
      | Ok _ => self <| cw_stored := if bool_decide (ride_id = ride) then OpaqueItem
                                     else cw_stored self |>
      | Err _ => self
      end
  end.
(** A call that does not go past the cache. *)
Definition through_cache (c : CacheCall) : Prop :=
  match c with
  | DeleteStored ride_id _ | RedactStored ride_id _ => ride_id <> ride
  | _ => True
  end.

(** The policy the cache shows. *)
Definition shown (s : RecordingState) : MusicHistoryPolicy :=
  default PolicyDisabled (a_music_history_policy s).
(** No write waits and the cache agrees with the database. *)
Definition cache_idle (self : CacheWorld) : Prop :=
  a_ride_id (cw_state self) = Some ride /\ cw_writes self = [] /\ cw_reads self = []
  /\ shown (cw_state self) = cw_stored self
  /\ a_pending_music_deletion_epoch (cw_state self) = None
  /\ a_suppressed_music_policy (cw_state self) = None
  /\ a_policy_before_pending_deletion (cw_state self) = None
  /\ 0 <= a_published_music_cache_epoch (cw_state self)
     <= a_music_cache_epoch (cw_state self).

(** *** What was stored up to a ticket *)

(** A write of the ride that is still to be settled and was stored. *)
Definition owed (writes : list (PendingRideMusicWrite * result unit StorageError)) (e : Z) : Prop :=
  exists w a, (w, Ok a) ∈ writes /\ pw_ride_id w = ride /\ pw_cache_epoch w = e.

(** [value e] is what was stored up to the ticket [e].  [v] is right as of the
    ticket [e], and whatever changed after it is owed. *)
Record resolves (value : Z -> MusicHistoryPolicy) (last : Z)
    (writes : list (PendingRideMusicWrite * result unit StorageError))
    (e : Z) (v : MusicHistoryPolicy) : Prop := {
  rv_value : exists k, e <= k <= last /\ v = value k;
  rv_owed : forall e', e < e' <= last -> value e' <> value (e' - 1) -> owed writes e';
}.

Lemma value_constant (value : Z -> MusicHistoryPolicy) e last :
  (forall e', e < e' <= last -> value e' = value (e' - 1)) ->
  forall k, e <= k <= last -> value k = value last.
Proof.
  intros H k Hk. assert (Hn : exists n : nat, last = k + Z.of_nat n)
    by (exists (Z.to_nat (last - k)); lia).
  destruct Hn as [n ->]. induction n as [|n IH]; [f_equal; lia|].
  rewrite (H (k + Z.of_nat (S n))) by lia.
  replace (k + Z.of_nat (S n) - 1) with (k + Z.of_nat n) by lia.
  apply IH; [lia|]. intros e' He. apply H. lia.
Qed.
Lemma resolves_end value last e v : resolves value last [] e v -> v = value last.
Proof.
  intros [(k & Hk & ->) Ho]. apply (value_constant value e last); [|done].
  intros e' He. destruct (decide (value e' = value (e' - 1))) as [|Hne]; [done|].
  destruct (Ho e' He Hne) as (w & a & Hw & _). by apply elem_of_nil in Hw.
Qed.
Lemma resolves_now value last writes v : v = value last -> resolves value last writes last v.
Proof. intros ->. split; [exists last; split; [lia|done]|intros e' He']; lia. Qed.

Lemma elem_of_delete_or {A} (l : list A) i x y : l !! i = Some x -> y ∈ l -> y = x \/ y ∈ delete i l.
Proof. intros Hi Hy. rewrite (delete_Permutation l i x Hi) in Hy. by apply elem_of_cons in Hy. Qed.

(** A settled write: one that failed, or one whose ticket is not after [e]. *)
Lemma resolves_settled value last writes index w answer e v :
  resolves value last writes e v -> writes !! index = Some (w, answer) ->
  (answer <> Ok tt \/ pw_ride_id w <> ride \/ pw_cache_epoch w <= e) ->
  resolves value last (delete index writes) e v.
Proof.
  intros [Hv Ho] Hi Hw. split; [done|]. intros e' He Hne.
  destruct (Ho e' He Hne) as (w' & a & Hin & Hr & Hep). exists w', a. split; [|done].
  destruct (elem_of_delete_or _ _ _ _ Hi Hin) as [[= -> <-]|]; [|done].
  destruct a, Hw as [?|[?|?]]; [done|done|lia].
Qed.
(** A stored write that is settled at its ticket. *)
Lemma resolves_raise value last writes index w answer e v :
  resolves value last writes e v -> writes !! index = Some (w, answer) ->
  e <= pw_cache_epoch w <= last ->
  resolves value last (delete index writes) (pw_cache_epoch w) (value (pw_cache_epoch w)).
Proof.
  intros [Hv Ho] Hi He. apply (resolves_settled _ _ writes _ w answer); [|done|right; right; lia].
  split; [by exists (pw_cache_epoch w); split; [lia|]|]. intros e' He'. apply Ho. lia.
Qed.
(** A write is queued. *)
Definition value_after (value : Z -> MusicHistoryPolicy) (last : Z) (stored : MusicHistoryPolicy)
    (k : Z) : MusicHistoryPolicy := if bool_decide (last < k) then stored else value k.
Lemma value_after_old value last stored k : k <= last -> value_after value last stored k = value k.
Proof. intros H. unfold value_after. by rewrite bool_decide_eq_false_2 by lia. Qed.
Lemma value_after_new value last stored k : last < k -> value_after value last stored k = stored.
Proof. intros H. unfold value_after. by rewrite bool_decide_eq_true_2 by lia. Qed.
Lemma resolves_queued value last writes e v w answer stored :
  resolves value last writes e v -> pw_ride_id w = ride -> pw_cache_epoch w = last + 1 ->
  (answer <> Ok tt -> stored = value last) ->
  resolves (value_after value last stored) (last + 1) (writes ++ [(w, answer)]) e v.
Proof.
  intros [(k & Hk & ->) Ho] Hr He Hs. split.
  - exists k. split; [lia|]. by rewrite value_after_old by lia.
  - intros e' He'. destruct (decide (e' = last + 1)) as [->|Hne'].
    + rewrite value_after_new, value_after_old by lia. replace (last + 1 - 1) with last by lia.
      intros Hne. destruct answer as [[]|]; [|by destruct Hne; apply Hs].
      exists w, tt. split_ands; try done. apply elem_of_app. right. by left.
    + rewrite !value_after_old by lia. intros Hne.
      destruct (Ho e' ltac:(lia) Hne) as (w' & a & Hin & H). exists w', a.
      split; [|done]. apply elem_of_app. by left.
Qed.

(** *** What the fields of the cache say *)

Notation Writes := (list (PendingRideMusicWrite * result unit StorageError)).

(** What a deletion that fails gives back. *)
Definition fallback (pub : Z) (suppressed : option (Z * MusicHistoryPolicy))
    (before : Z * MusicHistoryPolicy) : Z * MusicHistoryPolicy :=
  let previous := (pub, if bool_decide (pub <= before.1) then before.2 else PolicyDisabled) in
  match suppressed with
  | Some (ticket, policy) => if bool_decide (pub <= ticket) then (ticket, policy) else previous
  | None => previous
  end.

Definition deletes (d : Z) (w : PendingRideMusicWrite) : Prop :=
  pw_ride_id w = ride /\ pw_deletes_history w = true /\ pw_cache_epoch w = d.
(** [d] is the ticket of the newest deletion, which is not settled. *)
Record fence (value : Z -> MusicHistoryPolicy) (writes : Writes) (d : Z)
    (suppressed : option (Z * MusicHistoryPolicy)) : Prop := {
  fn_owner : exists w a, (w, a) ∈ writes /\ deletes d w;
  fn_newest : forall w a, (w, a) ∈ writes -> pw_ride_id w = ride ->
    pw_deletes_history w = true -> pw_cache_epoch w <= d;
  fn_others : forall w a, (w, a) ∈ writes -> pw_ride_id w = ride ->
    pw_deletes_history w = false -> pw_cache_epoch w <> d;
  fn_suppressed : forall t p, suppressed = Some (t, p) -> t < d /\ p = value t;
}.

Inductive view (value : Z -> MusicHistoryPolicy) (last : Z) (writes : Writes)
  : MusicHistoryPolicy -> Z -> option Z -> option (Z * MusicHistoryPolicy)
    -> option (Z * MusicHistoryPolicy) -> Prop :=
| ViewFree policy pub :
    resolves value last writes pub policy ->
    view value last writes policy pub None None None
| ViewPassed policy pub d suppressed :
    d < pub -> fence value writes d suppressed ->
    resolves value last writes pub policy ->
    (forall w a, (w, a) ∈ writes -> deletes d w -> pw_previous_policy_epoch w < pub) ->
    view value last writes policy pub (Some d) suppressed (Some (pub, policy))
| ViewWaiting pub d suppressed before :
    pub < d <= last -> before.1 <= pub -> fence value writes d suppressed ->
    resolves value last writes (fallback pub suppressed before).1
      (fallback pub suppressed before).2 ->
    (forall w a, (w, a) ∈ writes -> deletes d w ->
      pw_previous_policy_epoch w = before.1 /\ pw_previous_policy w = Some before.2) ->
    view value last writes PolicyDisabled pub (Some d) suppressed (Some before).

(** The policy a write stores. *)
Definition effect (w : PendingRideMusicWrite) : MusicHistoryPolicy :=
  if pw_deletes_history w then PolicyDisabled else default PolicyDisabled (pw_policy w).
Definition write_ok (value : Z -> MusicHistoryPolicy) (last : Z)
    (write : PendingRideMusicWrite * result unit StorageError) : Prop :=
  pw_ride_id write.1 = ride ->
  pw_cache_epoch write.1 <= last
  /\ (pw_deletes_history write.1 = false -> is_Some (pw_policy write.1))
  /\ (write.2 = Ok tt -> value (pw_cache_epoch write.1) = effect write.1).
Definition read_ok (value : Z -> MusicHistoryPolicy) (last : Z)
    (read : PolicyRead * option (result MusicHistoryPolicy StorageError)) : Prop :=
  match read.1 with
  | ReadAnswered _ => True
  | ReadQueued _ published reserved _ =>
      published <= reserved <= last
      /\ forall v, read.2 = Some (Ok v) -> exists k, reserved <= k <= last /\ v = value k
  end.

Record cache_ok (value : Z -> MusicHistoryPolicy) (w : CacheWorld) : Prop := {
  ca_ride : a_ride_id (cw_state w) = Some ride;
  ca_range : 0 <= a_published_music_cache_epoch (cw_state w) <= a_music_cache_epoch (cw_state w);
  ca_stored : cw_stored w = value (a_music_cache_epoch (cw_state w));
  ca_writes : Forall (write_ok value (a_music_cache_epoch (cw_state w))) (cw_writes w);
  ca_reads : Forall (read_ok value (a_music_cache_epoch (cw_state w))) (cw_reads w);
  ca_view : view value (a_music_cache_epoch (cw_state w)) (cw_writes w) (shown (cw_state w))
    (a_published_music_cache_epoch (cw_state w)) (a_pending_music_deletion_epoch (cw_state w))
    (a_suppressed_music_policy (cw_state w)) (a_policy_before_pending_deletion (cw_state w));
}.

Lemma fence_queued value last writes d suppressed w a stored :
  fence value writes d suppressed -> d <= last ->
  pw_cache_epoch w = last + 1 -> pw_deletes_history w = false ->
  fence (value_after value last stored) (writes ++ [(w, a)]) d suppressed.
Proof.
  intros [(w0 & a0 & Hin & Hd) Hn Ho Hs] Hd' He Hw. split.
  - exists w0, a0. split; [apply elem_of_app; by left|done].
  - intros w' a' [Hin'|Hin']%elem_of_app Hr Hdel; [by eapply Hn|].
    apply list_elem_of_singleton in Hin' as [= -> ->]. congruence.
  - intros w' a' [Hin'|Hin']%elem_of_app Hr Hdel; [by eapply Ho|].
    apply list_elem_of_singleton in Hin' as [= -> ->]. lia.
  - intros t p E. destruct (Hs t p E) as [Ht ->]. split; [done|]. by rewrite value_after_old by lia.
Qed.
(** A new deletion takes the fence. *)
Lemma fence_taken value last writes suppressed w a stored :
  deletes (last + 1) w ->
  (forall t p, suppressed = Some (t, p) -> t <= last /\ p = value t) ->
  Forall (write_ok value last) writes ->
  fence (value_after value last stored) (writes ++ [(w, a)]) (last + 1) suppressed.
Proof.
  intros (Hr & Hd & He) Hs Hall. rewrite Forall_forall in Hall. split.
  - exists w, a. split; [apply elem_of_app; right; by left|by split_ands].
  - intros w' a' [Hin'|Hin']%elem_of_app Hr' Hdel.
    + destruct (Hall _ Hin' Hr') as [H _]. simpl in H. lia.
    + apply list_elem_of_singleton in Hin' as [= -> ->]. lia.
  - intros w' a' [Hin'|Hin']%elem_of_app Hr' Hdel.
    + destruct (Hall _ Hin' Hr') as [H _]. simpl in H. lia.
    + apply list_elem_of_singleton in Hin' as [= -> ->]. congruence.
  - intros t p E. destruct (Hs t p E) as [Ht ->]. split; [lia|]. by rewrite value_after_old by lia.
Qed.
(** A write that does not own the fence is settled. *)
Lemma fence_settled value writes d suppressed index w a :
  fence value writes d suppressed -> writes !! index = Some (w, a) -> ~ deletes d w ->
  fence value (delete index writes) d suppressed.
Proof.
  intros [(w0 & a0 & Hin & Hd) Hn Ho Hs] Hi Hw. split; [|..|done].
  - exists w0, a0. split; [|done].
    destruct (elem_of_delete_or _ _ _ _ Hi Hin) as [[= -> ->]|]; done.
  - intros w' a' Hin'. apply (Hn w' a'). by eapply list_elem_of_delete_inv.
  - intros w' a' Hin'. apply (Ho w' a'). by eapply list_elem_of_delete_inv.
Qed.

(** *** A write is queued *)

Lemma view_foreign value last writes policy pub pend suppressed before w a :
  view value last writes policy pub pend suppressed before -> pw_ride_id w <> ride ->
  view value last (writes ++ [(w, a)]) policy pub pend suppressed before.
Proof.
  intros V Hw.
  assert (Hin : forall w' a', (w', a') ∈ writes ++ [(w, a)] -> pw_ride_id w' = ride -> (w', a') ∈ writes).
  { intros w' a' [Hin|Hin]%elem_of_app Hr; [done|].
    by apply list_elem_of_singleton in Hin as [= -> ->]. }
  assert (Hq : forall e v, resolves value last writes e v -> resolves value last (writes ++ [(w, a)]) e v).
  { intros e v [H1 H2]. split; [done|]. intros e' He Hne. destruct (H2 e' He Hne) as (x & b & Hx & H).
    exists x, b. split; [apply elem_of_app; by left|done]. }
  assert (Hf : forall d sup, fence value writes d sup -> fence value (writes ++ [(w, a)]) d sup).
  { intros d sup [(x & b & Hx & H) H1 H2 H3]. split; [|..|done].
    - exists x, b. split; [apply elem_of_app; by left|done].
    - intros w' a' Hin' Hr. apply (H1 w' a'); auto.
    - intros w' a' Hin' Hr. apply (H2 w' a'); auto. }
  destruct V as [policy pub R|policy pub d suppressed Hp F R Ho|pub d suppressed before Hp Hb F R Ho].
  - constructor. by apply Hq.
  - constructor; [done|by apply Hf|by apply Hq|].
    intros w' a' Hin' Hd. apply (Ho w' a'); [by apply Hin; [|apply Hd]|done].
  - constructor; [done|done|by apply Hf|by apply Hq|].
    intros w' a' Hin' Hd. apply (Ho w' a'); [by apply Hin; [|apply Hd]|done].
Qed.

Lemma view_queued_set value last writes policy pub pend suppressed before w a stored :
  view value last writes policy pub pend suppressed before -> pub <= last ->
  pw_ride_id w = ride -> pw_cache_epoch w = last + 1 -> pw_deletes_history w = false ->
  (forall d, pend = Some d -> d <= last) ->
  (a <> Ok tt -> stored = value last) ->
  view (value_after value last stored) (last + 1) (writes ++ [(w, a)]) policy pub pend suppressed
    before.
Proof.
  intros V Hpub Hr He Hd Hlast Hs.
  assert (Hin : forall w' a' d, (w', a') ∈ writes ++ [(w, a)] -> deletes d w' -> (w', a') ∈ writes).
  { intros w' a' d [Hin|Hin]%elem_of_app (_ & Hdel & _); [done|].
    apply list_elem_of_singleton in Hin as [= -> ->]. congruence. }
  destruct V as [policy pub R|policy pub d suppressed Hp F R Ho|pub d suppressed before Hp Hb F R Ho].
  - constructor. by apply resolves_queued.
  - constructor; [done|apply fence_queued; auto|by apply resolves_queued|].
    intros w' a' Hin' Hdel. by apply (Ho w' a'); [eapply Hin|].
  - constructor; [lia|done|apply fence_queued; auto|by apply resolves_queued|].
    intros w' a' Hin' Hdel. by apply (Ho w' a'); [eapply Hin|].
Qed.

Lemma fallback_passed pub d suppressed policy :
  (forall t p, suppressed = Some (t, p) -> t < d) -> d < pub ->
  fallback pub suppressed (pub, policy) = (pub, policy).
Proof.
  intros Hs Hd. unfold fallback. simpl. rewrite (bool_decide_eq_true_2 (pub <= pub)) by lia.
  destruct suppressed as [[t p]|]; [|done]. specialize (Hs t p eq_refl).
  by rewrite bool_decide_eq_false_2 by lia.
Qed.

Lemma view_queued_delete value last writes policy pub pend suppressed before w a stored :
  view value last writes policy pub pend suppressed before -> pub <= last ->
  Forall (write_ok value last) writes -> deletes (last + 1) w ->
  (forall d, pend = Some d -> d <= last) ->
  let captured := default (pub, policy) before in
  pw_previous_policy_epoch w = captured.1 -> pw_previous_policy w = Some captured.2 ->
  (a <> Ok tt -> stored = value last) ->
  view (value_after value last stored) (last + 1) (writes ++ [(w, a)]) PolicyDisabled pub
    (Some (last + 1)) suppressed (Some captured).
Proof.
  intros V Hpub Hall Hdel Hlast captured He1 He2 Hs.
  assert (Ho : forall w' a', (w', a') ∈ writes ++ [(w, a)] -> deletes (last + 1) w' ->
                pw_previous_policy_epoch w' = captured.1 /\ pw_previous_policy w' = Some captured.2).
  { intros w' a' [Hin|Hin]%elem_of_app (Hr & _ & E).
    - rewrite Forall_forall in Hall. destruct (Hall _ Hin Hr) as [H _]. simpl in H. lia.
    - by apply list_elem_of_singleton in Hin as [= -> ->]. }
  destruct Hdel as (Hr & Hd & He).
  assert (Hq : forall e v, resolves value last writes e v ->
     resolves (value_after value last stored) (last + 1) (writes ++ [(w, a)]) e v)
    by (intros; by apply resolves_queued).
  assert (Hf : (forall t p, suppressed = Some (t, p) -> t <= last /\ p = value t) ->
     fence (value_after value last stored) (writes ++ [(w, a)]) (last + 1) suppressed)
    by (intros; by apply fence_taken).
  destruct V as [policy pub R|policy pub d suppressed Hp F R _|pub d suppressed before Hp Hb F R _].
  - constructor; [lia|simpl; lia|by apply Hf|apply Hq|done].
    unfold captured, fallback. simpl. by rewrite bool_decide_eq_true_2 by lia.
  - constructor; [lia|simpl; lia|apply Hf|apply Hq|done].
    + intros t p E. destruct (fn_suppressed _ _ _ _ F t p E). split; [lia|done].
    + unfold captured. simpl. rewrite (fallback_passed _ d); [done| |done].
      intros t p E. by apply (fn_suppressed _ _ _ _ F t p E).
  - constructor; [lia|done|apply Hf|by apply Hq|done].
    intros t p E. destruct (fn_suppressed _ _ _ _ F t p E). split; [lia|done].
Qed.

(** *** A write is settled *)

(** Nothing was stored, and it is not the deletion that holds the fence. *)
Lemma view_refused value last writes policy pub pend suppressed before index w a :
  view value last writes policy pub pend suppressed before -> writes !! index = Some (w, a) ->
  (a <> Ok tt \/ pw_ride_id w <> ride) -> (forall d, pend = Some d -> ~ deletes d w) ->
  view value last (delete index writes) policy pub pend suppressed before.
Proof.
  intros V Hi Hw Hown.
  assert (Hq : forall e v, resolves value last writes e v ->
     resolves value last (delete index writes) e v).
  { intros e v R. eapply resolves_settled; [done|done|]. destruct Hw; auto. }
  destruct V as [policy pub R|policy pub d suppressed Hp F R Ho|pub d suppressed before Hp Hb F R Ho].
  - constructor. by apply Hq.
  - constructor; [done|by eapply fence_settled; auto|by apply Hq|].
    intros w' a' Hin. apply (Ho w' a'). by eapply list_elem_of_delete_inv.
  - constructor; [done|done|by eapply fence_settled; auto|by apply Hq|].
    intros w' a' Hin. apply (Ho w' a'). by eapply list_elem_of_delete_inv.
Qed.

Lemma fallback_range pub suppressed before :
  pub <= (fallback pub suppressed before).1
  /\ forall e, pub <= e -> (forall t p, suppressed = Some (t, p) -> t <= e) ->
     (fallback pub suppressed before).1 <= e.
Proof.
  unfold fallback. destruct suppressed as [[t p]|]; simpl; [|split; [lia|done]].
  case_bool_decide; simpl; split; try lia; try done. intros e _ H1. by apply (H1 t p).
Qed.

Section Settled.
Context (value : Z -> MusicHistoryPolicy) (last : Z) (writes : Writes) (index : nat)
  (w : PendingRideMusicWrite) (a : result unit StorageError).
Context (Hi : writes !! index = Some (w, a)) (Hr : pw_ride_id w = ride)
  (Hlast : pw_cache_epoch w <= last).
Local Notation e := (pw_cache_epoch w).
Local Notation rest := (delete index writes).

Lemma settled_elem : (w, a) ∈ writes.
Proof. by eapply list_elem_of_lookup_2. Qed.
Lemma raised e0 v : resolves value last writes e0 v -> e0 <= e -> resolves value last rest e (value e).
Proof. intros R He. eapply resolves_raise; [done|done|lia]. Qed.
Lemma passed_over e0 v : resolves value last writes e0 v -> e <= e0 -> resolves value last rest e0 v.
Proof. intros R He. eapply resolves_settled; [done|done|]. auto. Qed.
Lemma owners_rest (P : PendingRideMusicWrite -> Prop) d :
  (forall w' a', (w', a') ∈ writes -> deletes d w' -> P w') ->
  forall w' a', (w', a') ∈ rest -> deletes d w' -> P w'.
Proof. intros H w' a' Hin. apply (H w' a'). by eapply list_elem_of_delete_inv. Qed.

(** A stored policy below the fence waits for the deletion. *)
Lemma view_suppressed policy pub d suppressed before :
  view value last writes policy pub (Some d) suppressed before ->
  pw_deletes_history w = false -> e < d ->
  view value last rest policy pub (Some d)
    (if match suppressed with Some (ticket, _) => bool_decide (ticket < e) | None => true end
     then Some (e, value e) else suppressed) before.
Proof.
  intros V Hset He.
  match goal with |- view _ _ _ _ _ _ ?s _ => set (sup' := s) end.
  assert (Hsup : fence value writes d suppressed -> fence value rest d sup').
  { intros F. destruct (fence_settled _ _ _ _ _ _ _ F Hi) as [H1 H2 H3 _];
      [intros (_ & Hd & _); congruence|].
    split; try done. intros t p. unfold sup'. pose proof (fn_suppressed _ _ _ _ F) as Hs.
    destruct (match suppressed with Some _ => _ | None => _ end); [by intros [= <- <-]|apply Hs]. }
  inversion V as [|policy0 pub0 d0 sup0 Hp F R Ho|pub0 d0 sup0 before0 Hp Hb F R Ho]; subst.
  - constructor; [done|by apply Hsup|apply (passed_over _ _ R); lia|]. by apply owners_rest.
  - constructor; [done|done|by apply Hsup| |by apply owners_rest].
    unfold sup', fallback in *.
    destruct suppressed as [[t p]|]; simpl in *; repeat case_bool_decide; simpl in *;
      solve [apply (raised _ _ R); lia|apply (passed_over _ _ R); lia|lia].
Qed.
(** Any other stored policy that is not older than the published one. *)
Lemma view_published policy pub pend suppressed before :
  view value last writes policy pub pend suppressed before ->
  pw_deletes_history w = false -> (forall d, pend = Some d -> d <= e) -> pub <= e ->
  view value last rest (value e) e pend suppressed
    (match pend with Some _ => Some (e, value e) | None => before end).
Proof.
  intros V Hset Hd He.
  destruct V as [policy pub R|policy pub d suppressed Hp F R Ho|pub d suppressed before Hp Hb F R Ho];
    [constructor; by apply (raised _ _ R)|..];
    pose proof (fn_others _ _ _ _ F w a settled_elem Hr Hset) as Hne; specialize (Hd d eq_refl);
    (constructor; [lia|eapply fence_settled; [done|done|intros (_ & ? & _); congruence]|..]).
  - by apply (raised _ _ R).
  - intros w' a' Hin Hdel. apply list_elem_of_delete_inv in Hin.
    specialize (Ho w' a' Hin Hdel). simpl in Ho. lia.
  - apply (raised _ _ R). apply fallback_range; [lia|]. intros t p E.
    destruct (fn_suppressed _ _ _ _ F t p E). lia.
  - intros w' a' Hin Hdel. apply list_elem_of_delete_inv in Hin.
    destruct (Ho w' a' Hin Hdel) as [-> _]. lia.
Qed.
Lemma view_outdated policy pub pend suppressed before :
  view value last writes policy pub pend suppressed before ->
  (forall d, pend = Some d -> ~ deletes d w) -> e < pub ->
  view value last rest policy pub pend suppressed before.
Proof.
  intros V Hd He.
  destruct V as [policy pub R|policy pub d suppressed Hp F R Ho|pub d suppressed before Hp Hb F R Ho].
  - constructor. apply (passed_over _ _ R). lia.
  - constructor; [done|by eapply fence_settled; eauto| |by apply owners_rest].
    apply (passed_over _ _ R). lia.
  - constructor; [done|done|by eapply fence_settled; eauto| |by apply owners_rest].
    apply (passed_over _ _ R). destruct (fallback_range pub suppressed before). lia.
Qed.

(** A deletion that does not hold the fence was stored. *)
Lemma view_deleted policy pub pend suppressed before :
  view value last writes policy pub pend suppressed before ->
  pw_deletes_history w = true -> (forall d, pend = Some d -> d <> e) ->
  value e = PolicyDisabled -> pub <= e ->
  view value last rest PolicyDisabled e pend suppressed before.
Proof.
  intros V Hdel Hd Hv He.
  destruct V as [policy pub R|policy pub d suppressed Hp F R Ho|pub d suppressed before Hp Hb F R Ho].
  - constructor. rewrite <- Hv. by apply (raised _ _ R).
  - pose proof (fn_newest _ _ _ _ F w a settled_elem Hr Hdel). lia.
  - pose proof (fn_newest _ _ _ _ F w a settled_elem Hr Hdel). specialize (Hd d eq_refl).
    constructor; [lia|lia|eapply fence_settled; [done|done|intros (_ & _ & ?); congruence]| |
      by apply owners_rest].
    unfold fallback in *.
    destruct suppressed as [[t p]|]; simpl in *; repeat case_bool_decide; simpl in *; try lia;
      rewrite <- ?Hv;
      solve [apply (raised _ _ R); lia
            |replace e with pub by lia; apply (passed_over _ _ R); lia
            |apply (passed_over _ _ R); lia].
Qed.
(** The deletion that holds the fence was stored. *)
Lemma view_fence_stored policy pub d suppressed before :
  view value last writes policy pub (Some d) suppressed before ->
  deletes d w -> value e = PolicyDisabled ->
  view value last rest (if bool_decide (pub <= e) then PolicyDisabled else policy)
    (if bool_decide (pub <= e) then e else pub) None None None.
Proof.
  intros V (_ & _ & He) Hv. constructor.
  inversion V as [|policy0 pub0 d0 sup0 Hp F R Ho|pub0 d0 sup0 before0 Hp Hb F R Ho]; subst.
  - rewrite !bool_decide_eq_false_2 by lia. apply (passed_over _ _ R). lia.
  - rewrite !bool_decide_eq_true_2 by lia. rewrite <- Hv. apply (raised _ _ R).
    apply fallback_range; [lia|]. intros t p E. destruct (fn_suppressed _ _ _ _ F t p E). lia.
Qed.
(** It failed: [restored] is what [settle_deletion] leaves. *)
Lemma view_fence_failed policy pub d suppressed before :
  view value last writes policy pub (Some d) suppressed before ->
  deletes d w -> a <> Ok tt ->
  let previous := if bool_decide (pub <= pw_previous_policy_epoch w)
                  then default policy (pw_previous_policy w) else policy in
  let restored := match suppressed with
                  | Some (t, p) => if bool_decide (pub <= t) then (t, p) else (pub, previous)
                  | None => (pub, previous)
                  end in
  view value last rest restored.2 restored.1 None None None.
Proof.
  intros V Hw Ha previous restored. constructor.
  assert (Hq : forall e0 v, resolves value last writes e0 v -> resolves value last rest e0 v)
    by (intros e0 v R; eapply resolves_settled; [done|done|by left]).
  inversion V as [|policy0 pub0 d0 sup0 Hp F R Ho|pub0 d0 sup0 before0 Hp Hb F R Ho]; subst.
  - pose proof (Ho w a settled_elem Hw). unfold restored, previous.
    rewrite (bool_decide_eq_false_2 (pub <= pw_previous_policy_epoch w)) by lia.
    destruct suppressed as [[t p]|]; [|by apply Hq].
    destruct (fn_suppressed _ _ _ _ F t p eq_refl).
    rewrite bool_decide_eq_false_2 by lia. by apply Hq.
  - destruct (Ho w a settled_elem Hw) as [E1 E2]. unfold restored, previous. rewrite E1, E2.
    unfold fallback in R. simpl in R. apply Hq.
    destruct suppressed as [[t p]|]; simpl in *; by case_bool_decide; simpl in *.
Qed.
End Settled.

(** *** The state *)

Definition state_view (value : Z -> MusicHistoryPolicy) (writes : Writes) (s : RecordingState)
  : Prop :=
  view value (a_music_cache_epoch s) writes (shown s) (a_published_music_cache_epoch s)
    (a_pending_music_deletion_epoch s) (a_suppressed_music_policy s)
    (a_policy_before_pending_deletion s).
(** What no settlement changes. *)
Definition framed (s s' : RecordingState) : Prop :=
  a_ride_id s' = a_ride_id s /\ a_music_cache_epoch s' = a_music_cache_epoch s
  /\ (a_published_music_cache_epoch s <= a_music_cache_epoch s ->
      a_published_music_cache_epoch s <= a_published_music_cache_epoch s' <= a_music_cache_epoch s).

Section SettledState.
Context (value : Z -> MusicHistoryPolicy) (s : RecordingState) (writes : Writes) (index : nat)
  (w : PendingRideMusicWrite) (a : result unit StorageError).
Context (Hi : writes !! index = Some (w, a)) (Hr : pw_ride_id w = ride)
  (Hlast : pw_cache_epoch w <= a_music_cache_epoch s)
  (Hp0 : a_published_music_cache_epoch s <= a_music_cache_epoch s)
  (V : state_view value writes s).

Lemma settle_policy_view policy :
  pw_deletes_history w = false -> value (pw_cache_epoch w) = policy ->
  let s' := settle_policy_success s (pw_cache_epoch w) policy in
  state_view value (delete index writes) s' /\ framed s s'.
Proof.
  intros Hset <-. unfold settle_policy_success, state_view in *.
  assert (Hno : forall d, ~ deletes d w) by (intros d (_ & ? & _); congruence).
  destruct s as [? ? ? ? ? ? ? ? ? ? ? ? ? ? ? ? policy avail ce pub pend sup before ? ? ? ? ? ?].
  unfold framed, shown in *. simpl in *.
  destruct pend as [d|]; simpl; [case_bool_decide as Hd|].
  - pose proof (view_suppressed _ _ _ _ _ _ Hi Hlast _ _ _ _ _ V Hset Hd) as HS.
    destruct (match sup with Some _ => _ | None => _ end); simpl;
      split; try exact HS; split_ands; done || lia.
  - case_bool_decide as He; simpl; (split; [|split_ands; done || lia]).
    + apply (view_published _ _ _ _ _ _ Hi Hr Hlast _ _ _ _ _ V Hset); [|done].
      intros d' [= <-]. lia.
    + apply (view_outdated _ _ _ _ _ _ Hi _ _ _ _ _ V); [by auto|lia].
  - case_bool_decide as He; simpl; (split; [|split_ands; done || lia]).
    + by apply (view_published _ _ _ _ _ _ Hi Hr Hlast _ _ _ _ _ V Hset).
    + by apply (view_outdated _ _ _ _ _ _ Hi _ _ _ _ _ V); [|lia].
Qed.

Lemma settle_deletion_view :
  pw_deletes_history w = true -> (a = Ok tt -> value (pw_cache_epoch w) = PolicyDisabled) ->
  let s' := settle_deletion s (pw_cache_epoch w) (pw_previous_policy w)
              (pw_previous_policy_epoch w) a in
  state_view value (delete index writes) s' /\ framed s s'.
Proof.
  intros Hdel Hv. unfold settle_deletion, restore_previous, state_view in *.
  destruct s as [? ? ? ? ? ? ? ? ? ? ? ? ? ? ? ? policy avail ce pub pend sup before ? ? ? ? ? ?].
  unfold framed, shown in *. simpl in *.
  case_bool_decide as Hown; simpl.
  - subst pend. assert (Hd : deletes (pw_cache_epoch w) w) by done. destruct a as [[]|e].
    + pose proof (view_fence_stored _ _ _ _ _ _ Hi Hlast _ _ _ _ _ V Hd (Hv eq_refl)) as HS.
      case_bool_decide; simpl in *; (split; [exact HS|split_ands; done || lia]).
    + pose proof (view_fence_failed _ _ _ _ _ _ Hi _ _ _ _ _ V Hd ltac:(done)) as HF.
      assert (Ht : forall t p, sup = Some (t, p) -> t < pw_cache_epoch w)
        by (intros t p E; inversion V; subst;
            match goal with F : fence _ _ _ _ |- _ => by apply (fn_suppressed _ _ _ _ F t p) end).
      destruct sup as [[t p]|], (pw_previous_policy w) as [pp|]; simpl in *;
        try specialize (Ht t p eq_refl); repeat case_bool_decide; simpl in *;
        (split; [exact HF|split_ands; done || lia]).
  - assert (Hn : forall d, pend = Some d -> ~ deletes d w) by (intros d Hd (_ & _ & ?); congruence).
    destruct a as [[]|e]; [case_bool_decide as He; simpl; (split; [|split_ands; done || lia])|].
    + apply (view_deleted _ _ _ _ _ _ Hi Hr Hlast _ _ _ _ _ V Hdel); [congruence|by apply Hv|done].
    + apply (view_outdated _ _ _ _ _ _ Hi _ _ _ _ _ V); [done|lia].
    + split; [|split_ands; done || lia].
      by eapply (view_refused _ _ _ _ _ _ _ _ _ _ _ V Hi); [left|].
Qed.
End SettledState.

(** *** Every call *)

Lemma write_ok_after value last stored x :
  write_ok value last x -> write_ok (value_after value last stored) (last + 1) x.
Proof.
  intros H Hr. destruct (H Hr) as (H1 & H2 & H3). split_ands; [lia|done|].
  intros Ha. rewrite value_after_old by lia. by apply H3.
Qed.
Lemma read_ok_after value last stored x :
  read_ok value last x -> read_ok (value_after value last stored) (last + 1) x.
Proof.
  unfold read_ok. destruct x.1 as [|? published reserved ?]; [done|]. intros [H1 H2].
  split; [lia|]. intros v Hv. destruct (H2 v Hv) as (k & Hk & ->). exists k. split; [lia|].
  by rewrite value_after_old by lia.
Qed.
Lemma stores_failed value w policy a :
  cw_stored w = value (a_music_cache_epoch (cw_state w)) ->
  a <> Ok tt -> stores w policy a = value (a_music_cache_epoch (cw_state w)).
Proof. intros <- Ha. by destruct a as [[]|]. Qed.

(** What an accepted write makes of the state. *)
Lemma begin_set_cases s policy queued :
  a_ride_id s = Some ride -> a_music_cache_epoch s + 1 <= u64_max ->
  match begin_set_music_history_policy database s policy queued with
  | (s', Err _) => s' = s
  | (s', Ok x) => s' = s <| a_music_cache_epoch := a_music_cache_epoch s + 1 |>
      /\ pw_ride_id x = ride /\ pw_policy x = Some policy
      /\ pw_cache_epoch x = a_music_cache_epoch s + 1 /\ pw_deletes_history x = false
  end.
Proof.
  intros Hr Hroom. unfold begin_set_music_history_policy.
  destruct (recording_error (recordable_ride s)) as [ride_id|] eqn:Er; [|done].
  destruct (music_database database); [|done]. destruct (storage_error queued); [|done].
  assert (ride_id = ride) as ->.
  { unfold recording_error, recordable_ride in Er. destruct (require_ready _); [|done].
    rewrite Hr in Er. simpl in Er. destruct (negb _); [done|]. congruence. }
  unfold reserve_music_cache, sat_add. destruct s. simpl in *. by rewrite Z.min_r by lia.
Qed.
Lemma begin_delete_cases s ride_id queued :
  a_ride_id s = Some ride -> a_music_cache_epoch s + 1 <= u64_max ->
  match begin_delete_music_history database s ride_id queued with
  | (s', Err _) => s' = s
  | (s', Ok x) => pw_ride_id x = ride_id /\ pw_deletes_history x = true /\
      if bool_decide (ride_id = ride) then
        let captured := default (a_published_music_cache_epoch s, shown s)
                          (a_policy_before_pending_deletion s) in
        s' = s <| a_policy_before_pending_deletion := Some captured |>
               <| a_music_cache_epoch := a_music_cache_epoch s + 1 |>
               <| a_pending_music_deletion_epoch := Some (a_music_cache_epoch s + 1) |>
               <| a_music_history_policy := Some PolicyDisabled |>
        /\ pw_cache_epoch x = a_music_cache_epoch s + 1
        /\ pw_previous_policy_epoch x = captured.1 /\ pw_previous_policy x = Some captured.2
      else s' = s
  end.
Proof.
  intros Hr Hroom. unfold begin_delete_music_history. rewrite Hr.
  rewrite (bool_decide_ext (Some ride = Some ride_id) (ride_id = ride)) by naive_solver.
  destruct (music_database database); [|done]. destruct (storage_error queued); [|done].
  case_bool_decide; [|done].
  unfold queue_selected_music_deletion, reserve_music_cache, sat_add, shown. destruct s. simpl in *.
  destruct a_policy_before_pending_deletion; simpl; by rewrite Z.min_r by lia.
Qed.
Lemma publish_cases s policy :
  a_music_cache_epoch s + 1 <= u64_max ->
  let s' := publish_music_policy s policy in
  a_ride_id s' = a_ride_id s /\ a_music_cache_epoch s' = a_music_cache_epoch s + 1
  /\ a_published_music_cache_epoch s' = a_music_cache_epoch s + 1
  /\ shown s' = policy /\ a_pending_music_deletion_epoch s' = None
  /\ a_suppressed_music_policy s' = None /\ a_policy_before_pending_deletion s' = None.
Proof.
  intros H. unfold publish_music_policy, reserve_music_cache, sat_add, shown. destruct s.
  simpl in *. by rewrite Z.min_r by lia.
Qed.

Section Step.
Context (value : Z -> MusicHistoryPolicy) (w : CacheWorld) (C : cache_ok value w)
  (Hroom : a_music_cache_epoch (cw_state w) + 1 <= u64_max).

Definition keeps (w' : CacheWorld) : Prop :=
  (exists value', cache_ok value' w')
  /\ a_music_cache_epoch (cw_state w') <= a_music_cache_epoch (cw_state w) + 1.

Lemma keeps_same : keeps w.
Proof. split; [by exists value|lia]. Qed.
Lemma keeps_state s : s = cw_state w -> keeps (w <| cw_state := s |>).
Proof. intros ->. assert (w <| cw_state := cw_state w |> = w) as -> by by destruct w. apply keeps_same. Qed.

Lemma pending_below d :
  a_pending_music_deletion_epoch (cw_state w) = Some d -> d <= a_music_cache_epoch (cw_state w).
Proof.
  intros E. destruct C as [_ Hp _ _ _ V]. rewrite E in V. inversion V; subst; lia.
Qed.
(** The tickets of what was there before are kept. *)
Lemma old_kept stored :
  let value' := value_after value (a_music_cache_epoch (cw_state w)) stored in
  Forall (write_ok value' (a_music_cache_epoch (cw_state w) + 1)) (cw_writes w)
  /\ Forall (read_ok value' (a_music_cache_epoch (cw_state w) + 1)) (cw_reads w).
Proof.
  destruct C as [_ _ _ Hw Hd _].
  split; (eapply Forall_impl; [eassumption|]); intros;
    [by apply write_ok_after|by apply read_ok_after].
Qed.

Lemma begin_set_keeps policy queued answer : keeps (cache_step w (BeginSet policy queued answer)).
Proof.
  unfold cache_step.
  pose proof (begin_set_cases (cw_state w) policy queued (ca_ride _ _ C) Hroom) as HB.
  destruct (begin_set_music_history_policy _ _ _ _) as [s' [x|e]]; [|by apply keeps_state].
  destruct HB as (-> & Hx1 & Hx2 & Hx3 & Hx4).
  pose proof (stores_failed value w policy answer (ca_stored _ _ C)) as Hfail.
  assert (Hok : answer = Ok tt -> stores w policy answer = policy) by by intros ->.
  set (stored := stores w policy answer) in *. clearbody stored.
  destruct (old_kept stored) as [HW HR]. pose proof pending_below as Hlast.
  destruct C as [Hr Hp Hs _ _ V].
  pose proof (view_queued_set _ _ _ _ _ _ _ _ x answer stored V (proj2 Hp) Hx1 Hx3 Hx4 Hlast Hfail)
    as HV.
  clear C V Hlast. unfold keeps. destruct w as [s st ws rs]. simpl in *. destruct s. unfold shown in *. simpl in *.
  split; [|simpl; lia]. eexists. split; simpl; try done; try lia.
  - by rewrite value_after_new by lia.
  - apply Forall_app. split; [exact HW|]. apply Forall_singleton. intros _. cbn [fst snd]. rewrite Hx3.
    split_ands; [lia|by rewrite Hx2; eexists|]. intros Ha. rewrite value_after_new by lia.
    unfold effect. rewrite Hx4, Hx2. by apply Hok.
Qed.
Lemma begin_delete_keeps ride_id queued answer :
  keeps (cache_step w (BeginDelete ride_id queued answer)).
Proof.
  unfold cache_step.
  pose proof (begin_delete_cases (cw_state w) ride_id queued (ca_ride _ _ C) Hroom) as HB.
  destruct (begin_delete_music_history _ _ _ _) as [s' [x|e]]; [|by apply keeps_state].
  destruct HB as (Hx1 & Hx2 & HB). case_bool_decide as Hride.
  - destruct HB as (-> & Hx3 & Hx4 & Hx5). rewrite Hride in Hx1.
    pose proof (stores_failed value w PolicyDisabled answer (ca_stored _ _ C)) as Hfail.
    assert (Hok : answer = Ok tt -> stores w PolicyDisabled answer = PolicyDisabled) by by intros ->.
    set (stored := stores w PolicyDisabled answer) in *. clearbody stored.
    destruct (old_kept stored) as [HW HR]. pose proof pending_below as Hlast.
    destruct C as [Hr Hp Hs Hw _ V].
    pose proof (view_queued_delete _ _ _ _ _ _ _ _ x answer stored V (proj2 Hp) Hw
      (conj Hx1 (conj Hx2 Hx3)) Hlast Hx4 Hx5 Hfail) as HV.
    clear C V Hlast Hw. unfold keeps. destruct w as [s st ws rs]. simpl in *. destruct s.
    unfold shown in *. simpl in *.
    split; [|simpl; lia]. eexists. split; simpl; try done; try lia.
    + by rewrite value_after_new by lia.
    + apply Forall_app. split; [exact HW|]. apply Forall_singleton. intros _. cbn [fst snd]. rewrite Hx3.
      split_ands; [lia|congruence|]. intros Ha. rewrite value_after_new by lia.
      unfold effect. rewrite Hx2. by apply Hok.
  - subst s'. destruct C as [Hr Hp Hs Hw Hd V].
    pose proof (view_foreign _ _ _ _ _ _ _ _ x answer V ltac:(congruence)) as HV.
    assert (HW : Forall (write_ok value (a_music_cache_epoch (cw_state w)))
                   (cw_writes w ++ [(x, answer)])).
    { apply Forall_app. split; [done|]. apply Forall_singleton. intros ?. simpl in *. congruence. }
    clear C V Hw. unfold keeps. destruct w. simpl in *. split; [|lia]. exists value. by split.
Qed.

Lemma published_keeps policy :
  keeps (w <| cw_state := publish_music_policy (cw_state w) policy |> <| cw_stored := policy |>).
Proof.
  destruct (publish_cases (cw_state w) policy Hroom) as (H1 & H2 & H3 & H4 & H5 & H6 & H7).
  destruct (old_kept policy) as [HW HR]. destruct C as [Hr Hp _ _ _ _]. clear C.
  set (s' := publish_music_policy (cw_state w) policy) in *. clearbody s'.
  unfold keeps. destruct w as [s st ws rs]. simpl in *. split; [|lia].
  exists (value_after value (a_music_cache_epoch s) policy).
  assert (Hnow : value_after value (a_music_cache_epoch s) policy (a_music_cache_epoch s + 1) = policy)
    by (apply value_after_new; lia).
  split; simpl; rewrite ?H1, ?H2, ?H3, ?H4, ?H5, ?H6, ?H7, ?Hnow; try done; [lia|].
  constructor. by apply resolves_now.
Qed.
Lemma set_now_keeps policy answer : keeps (cache_step w (SetNow policy answer)).
Proof.
  unfold cache_step, set_music_history_policy.
  destruct (_ <-? recording_error _; _) as [r|e]; [apply published_keeps|by apply keeps_state].
Qed.
Lemma delete_now_keeps answer : keeps (cache_step w (DeleteNow answer)).
Proof.
  unfold cache_step, delete_current_music_history.
  destruct (_ <-? recording_error _; _) as [r|e]; [apply published_keeps|by apply keeps_state].
Qed.

(** The state after a settlement, with the write gone. *)
Lemma settled_keeps index s' :
  state_view value (delete index (cw_writes w)) s' -> framed (cw_state w) s' ->
  keeps (w <| cw_state := s' |> <| cw_writes := delete index (cw_writes w) |>).
Proof.
  intros V' (F1 & F2 & F3). destruct C as [Hr Hp Hs Hw Hd _]. specialize (F3 (proj2 Hp)).
  unfold keeps, state_view in *. clear C. destruct w as [s st ws rs]. simpl in *.
  split; [|lia]. exists value. rewrite <- F2 in Hw, Hd, Hs.
  split; simpl; try done; [congruence|lia|by apply Forall_delete].
Qed.
Lemma poll_keeps index : keeps (cache_step w (PollWrite index)).
Proof.
  unfold cache_step. destruct (cw_writes w !! index) as [[x a]|] eqn:Hi; [|apply keeps_same].
  unfold try_result. rewrite (ca_ride _ _ C). cbn [fst].
  assert (Hsame : forall s, s = cw_state w -> (a <> Ok tt \/ pw_ride_id x <> ride) ->
            (forall d, ~ deletes d x) ->
            keeps (w <| cw_state := s |> <| cw_writes := delete index (cw_writes w) |>)).
  { intros s -> Hn Hd. apply settled_keeps; [|by split_ands].
    by apply (view_refused _ _ _ _ _ _ _ _ _ _ _ (ca_view _ _ C) Hi). }
  case_bool_decide as Hr; simpl negb; cbv iota.
  2:{ apply Hsame; [done|right; congruence|]. intros d (Hr' & _). congruence. }
  injection Hr as Hr. symmetry in Hr.
  pose proof (ca_writes _ _ C) as Hall. rewrite Forall_lookup in Hall.
  destruct (Hall _ _ Hi Hr) as (Hlast & Hpol & Hval). cbn [fst snd] in Hlast, Hpol, Hval.
  destruct (pw_deletes_history x) eqn:Hdel.
  - destruct (settle_deletion_view value (cw_state w) _ _ _ _ Hi Hr Hlast (proj2 (ca_range _ _ C))
      (ca_view _ _ C) Hdel) as [V' F]; [|by apply settled_keeps].
    intros Ha. rewrite (Hval Ha). unfold effect. by rewrite Hdel.
  - destruct (Hpol eq_refl) as [policy Epol]. rewrite Epol. destruct a as [[]|e].
    + destruct (settle_policy_view value (cw_state w) _ _ _ _ Hi Hr Hlast (proj2 (ca_range _ _ C))
        (ca_view _ _ C) policy Hdel) as [V' F]; [|by apply settled_keeps].
      rewrite (Hval eq_refl). unfold effect. by rewrite Hdel, Epol.
    + apply Hsame; [done|by left|]. intros d (_ & ? & _). congruence.
Qed.

Lemma begin_read_keeps : keeps (cache_step w BeginRead).
Proof.
  destruct C as [Hr Hp Hs Hw Hd V]. unfold keeps, cache_step. destruct w as [s st ws rs].
  simpl in *. split; [|lia]. exists value. split; try done. simpl.
  apply Forall_app. split; [done|]. apply Forall_singleton. unfold read_ok, begin_policy_read. simpl.
  destruct (a_ride_id s); [|done]. destruct (_ || _); [done|]. split; [lia|done].
Qed.
Lemma answer_read_keeps index answer : keeps (cache_step w (AnswerRead index answer)).
Proof.
  destruct C as [Hr Hp Hs Hw Hd V]. unfold keeps, cache_step. destruct w as [s st ws rs].
  simpl in *. split; [|lia]. exists value. split; try done. simpl.
  apply Forall_alter; [done|]. intros [read before] _ H. unfold read_ok in *. simpl in *.
  destruct read as [|ride_id published reserved cached]; [done|]. destruct H as [H1 H2].
  split; [done|]. intros v Hv. destruct before as [b|]; [by apply H2|].
  destruct answer; [|done]. injection Hv as <-. exists (a_music_cache_epoch s).
  split; [lia|done].
Qed.
(** A read that is installed is right as of its ticket. *)
Lemma finish_read_view read answer :
  read_ok value (a_music_cache_epoch (cw_state w)) (read, Some answer) ->
  let s' := (finish_policy_read (cw_state w) read answer).1 in
  state_view value (cw_writes w) s' /\ framed (cw_state w) s'.
Proof.
  pose proof (ca_view _ _ C) as V. pose proof (ca_range _ _ C) as Hp. clear C Hroom. intros Hok.
  assert (Hsame : state_view value (cw_writes w) (cw_state w) /\ framed (cw_state w) (cw_state w))
    by (split; [done|split_ands; done || lia]).
  unfold finish_policy_read. destruct read as [|ride_id published reserved cached]; [done|].
  destruct answer as [v|]; [|done]. destruct Hok as [H1 H2].
  destruct (H2 v eq_refl) as (k & Hk & Ev). clear H2.
  destruct (_ && _ && _) eqn:E; [|done]. prop_bools. clear Hsame.
  unfold state_view, framed, shown in *. destruct w as [s st ws rs]. simpl in *. destruct s.
  simpl in *. subst. inversion V as [policy pub R| |]; subst.
  case_bool_decide as Hres; simpl; (split; [constructor|split_ands; done || lia]).
  - rewrite Z.max_l by lia. subst. apply resolves_now. f_equal. lia.
  - destruct R as [_ Ho]. split; [by exists k; split; [lia|]|done].
Qed.
Lemma finish_read_keeps index : keeps (cache_step w (FinishRead index)).
Proof.
  unfold cache_step. destruct (cw_reads w !! index) as [[read [answer|]]|] eqn:Hi; try apply keeps_same.
  pose proof (ca_reads _ _ C) as Hall. rewrite Forall_lookup in Hall.
  destruct (finish_read_view read answer (Hall _ _ Hi)) as (V' & F1 & F2 & F3). clear Hall.
  destruct C as [Hr Hp Hs Hw Hd _]. specialize (F3 (proj2 Hp)).
  set (s' := (finish_policy_read (cw_state w) read answer).1) in *. clearbody s'.
  unfold keeps, state_view in *. clear C. destruct w as [s st ws rs]. simpl in *.
  split; [|lia]. exists value. rewrite <- F2 in Hw, Hd, Hs.
  split; simpl; try done; [congruence|lia|by apply Forall_delete].
Qed.
Lemma stored_keeps ride_id (answer : result unit RideMusicError) policy :
  ride_id <> ride ->
  keeps match answer with
        | Ok _ => w <| cw_stored := if bool_decide (ride_id = ride) then policy else cw_stored w |>
        | Err _ => w
        end.
Proof.
  intros Hr. rewrite bool_decide_eq_false_2 by done. destruct answer; [|apply keeps_same].
  assert (w <| cw_stored := cw_stored w |> = w) as -> by by destruct w. apply keeps_same.
Qed.
Lemma cache_step_keeps c : through_cache c -> keeps (cache_step w c).
Proof.
  destruct c; intros Hc; try (by apply stored_keeps);
    auto using begin_set_keeps, begin_delete_keeps, poll_keeps, set_now_keeps,
    delete_now_keeps, begin_read_keeps, answer_read_keeps, finish_read_keeps.
Qed.
End Step.

Lemma cache_run_ok w calls :
  (exists value, cache_ok value w) -> Forall through_cache calls ->
  a_music_cache_epoch (cw_state w) + Z.of_nat (length calls) <= u64_max ->
  exists value, cache_ok value (foldl cache_step w calls).
Proof.
  intros H Hc. revert w H. induction Hc as [|c calls Hc _ IH]; intros w [value C] Hroom; [by exists value|].
  cbn [foldl length] in *. destruct (cache_step_keeps value w C ltac:(lia) c Hc) as [H Hle].
  apply IH; [done|]. lia.
Qed.
Lemma cache_idle_ok w : cache_idle w -> exists value, cache_ok value w.
Proof.
  intros (H1 & H2 & H3 & H4 & H5 & H6 & H7 & H8). exists (fun _ => cw_stored w).
  split; try done; rewrite ?H2, ?H3, ?H5, ?H6, ?H7; try constructor.
  split; [|done]. rewrite H4. by exists (a_music_cache_epoch (cw_state w)); split; [lia|].
Qed.

End Cache.

(** ** A ride with a history *)

Definition music_ride : RideId := 7.
Definition music_state : RecordingState :=
  let recorder := (start recorder_new 1 0 None).1.1 in
  default_state <| a_recorder := recorder |> <| a_admission_recorder := recorder |>
    <| a_ride_id := Some music_ride |> <| a_restore_phase := PhaseReady |>
    <| a_music_history_policy := Some OpaqueItem |>.
Definition music_world : CacheWorld :=
  {| cw_state := music_state; cw_stored := OpaqueItem; cw_writes := []; cw_reads := [] |}.
(** A deletion that fails is polled before the change made in the meantime. *)
Definition crossed_calls : list CacheCall :=
  [BeginSet HumanReadable (Ok tt) (Ok tt); BeginDelete music_ride (Ok tt) (Err OtherStorageError);
   BeginRead; AnswerRead 0 (Ok tt); DeleteStored 3 (Ok tt); PollWrite 1; FinishRead 0; PollWrite 0].


(** The redaction of a stored ride that is the selected one changes the
    policy in the database and not in the cache. *)
Example redact_stored_leaves_cache :
  let w := foldl (cache_step true music_ride) music_world
             [SetNow HumanReadable (Ok tt); RedactStored music_ride (Ok tt)] in
  shown (cw_state w) = HumanReadable /\ cw_stored w = OpaqueItem /\ cw_writes w = [].
Proof. vm_compute. by split_ands. Qed.

Definition stored_ride (ride_id : RideId) (lifecycle : RideLifecycleState) : Committed :=
  {| cm_ride_id := ride_id; cm_lifecycle := lifecycle;
     cm_checkpoint := {| cp_revision := 1; cp_continuation := MovingTime.new_live 0 |} |}.
(** The ride is stopped and another one, without history, is started. *)
Definition next_ride (s : RecordingState) : option RecordingState :=
  let token := {| rt_ride_id := music_ride; rt_generation := a_generation s |} in
  match begin_transition true s token Stop 1000 None (Ok tt) with
  | (s, Ok stop) =>
      let s := (publish_transition s stop (Some (stored_ride music_ride Stopped)) []).1 in
      match begin_start true s 2000 None (Some PolicyDisabled) (Ok tt) with
      | (s, Ok start) => Some (finish_start true s 2 start (Ok (stored_ride 8 Active)) 0).1.1
      | _ => None
      end
  | _ => None
  end.

(** The fence of one ride reaches into the next.  The deletion of a ride's
    history is queued and its receipt not polled before the next ride, which
    asked for no history, has started; a deletion that fails there shows the
    policy of the first ride. *)
Example fence_outlives_its_ride :
  let s := next_ride (begin_delete_music_history true music_state music_ride (Ok tt)).1 in
  (a_ride_id <$> s) = Some (Some 8) /\ (shown <$> s) = Some PolicyDisabled
  /\ match (fun s => begin_delete_music_history true s 8 (Ok tt)) <$> s with
     | Some (s, Ok write) =>
         shown (try_result s write (Some (Err OtherStorageError))).1 = OpaqueItem
     | _ => False
     end.
Proof. vm_compute. by split_ands. Qed.
