(* ===== verification/RideConnection.v ===== *)
(** * Verified connections and the recording

    [cutout-application/src/ride_recording/verified_connection.rs]: when a
    vehicle is identified, the recording may be stopped and saved, resumed or
    started for it.  [begin_verified_connection_admission] plans the mutations
    on a copy of the recorders and queues them; once they are committed,
    [finish_verified_connection_admission] makes them on the recording itself.

    As in [RideRecording], the answers of the database are arguments, what runs
    under one lock is one definition, so that the finish is [await_admission]
    and then [publish_admission], and the counter of recording generations is
    passed.  [wall_clock] is the clock read while planning, [None] when it
    cannot be read; [autostart] and [selected_device] are the two settings the
    plan asks the database for.  The override of the policy, compiled for
    integration tests only, is left out. *)

From S2P Require Import Prelude.
From S2P Require Import Quantities MovingTime ElapsedTime Text RideLocation RideRecorder RideMotion.
From S2P Require Import RideRecovery MusicHistory RideRoute RideRecording.
Import Lifecycle.

(** ** Data *)

Inductive VerifiedConnectionAdmissionError :=
| InvalidVehicleIdentity
| WallClock
| RideError (e : RideRecordingError)
| AdmissionStorage (e : StorageError).

Inductive VerifiedConnectionLifecycleMutation :=
| MutationTransition (ride_id : RideId) (event : RideEvent) (occurred_at : Z)
    (monotonic_at : option Z)
| MutationStartLive (created_at monotonic_created_at : Z) (candidate_vehicle : option text)
    (music_history_policy : MusicHistoryPolicy).
Inductive VerifiedConnectionRideTarget := TargetExisting (ride_id : RideId) | TargetCreated.
Record VerifiedConnectionRideMetadata := {
  vm_target : VerifiedConnectionRideTarget;
  vm_candidate_vehicle : option text;
  vm_associated_vehicle : option text;
  vm_associated_at : option Z;
  vm_last_telemetry_at : option Z;
  vm_moving_time_source_boundary_at : option Z;
}.
Record VerifiedConnectionAdmissionOutcome := {
  vo_selected_device_matches : bool;
  vo_created_ride_id : option RideId;
  vo_committed_ride_checkpoint : option Committed;
}.

Record AdmissionPreview := {
  pr_recorder : RideMapRecorder;
  pr_admission_recorder : RideMapRecorder;
  pr_ride_id : option RideId;
  pr_monotonic_epoch_offset : Z;
  pr_recoverable_updated_at : option Z;
  pr_created_ride : bool;
  pr_metadata : option VerifiedConnectionRideMetadata;
}.
#[global] Instance eta_preview : Eta AdmissionPreview := fun r =>
  Build_AdmissionPreview (pr_recorder r) (pr_admission_recorder r) (pr_ride_id r)
    (pr_monotonic_epoch_offset r) (pr_recoverable_updated_at r) (pr_created_ride r)
    (pr_metadata r).

(** Without the handle of the queued write, whose answer is an argument of the
    finish. *)
Record PreparedVerifiedConnectionAdmission := {
  pv_lease : option Z;
  pv_immediate_snapshot : option RideRecordingSnapshot;
  pv_immediate_noop : bool;
  pv_selected_mutations : list VerifiedConnectionLifecycleMutation;
  pv_selected_preview : AdmissionPreview;
  pv_platform_identifier : text;
  pv_connection_generation : Z;
  pv_logical_at : Z;
  pv_selected_logical_at : Z;
}.
(** What goes to the database with a prepared admission. *)
Record QueuedAdmission := {
  qa_updated_at : Z;
  qa_selected_metadata : option VerifiedConnectionRideMetadata;
  qa_unselected_metadata : option VerifiedConnectionRideMetadata;
}.

#[global] Instance association_eq_dec : EqDecision VehicleAssociation.
Proof. solve_decision. Defined.

Definition recording_now (r : RideMapRecorder) : bool := is_some_and (state r) is_recording.

(** ** The preview *)

Definition preview_from_state (self : RecordingState) : AdmissionPreview := {|
  pr_recorder := a_recorder self;
  pr_admission_recorder := a_admission_recorder self;
  pr_ride_id := a_ride_id self;
  pr_monotonic_epoch_offset := a_monotonic_epoch_offset self;
  pr_recoverable_updated_at := a_recoverable_updated_at self;
  pr_created_ride := false;
  pr_metadata := None;
|}.

(** What a step of the plan leaves: the preview and the mutations so far. *)
Definition Plan : Type := AdmissionPreview * list VerifiedConnectionLifecycleMutation.

Definition preview_epoch_offset (self : AdmissionPreview) (current : RideLifecycleState)
    (event : RideEvent) (at_ : Z) : Z :=
  if bool_decide (event = Resume)
     && match current with Interrupted | Paused => true | _ => false end
  then sat_sub (tm_last_event (recording_timing (pr_recorder self))) at_
  else pr_monotonic_epoch_offset self.
Definition preview_transition (plan : Plan) (event : RideEvent) (at_ occurred_at : Z)
  : result Plan RideRecordingError :=
  let '(self, mutations) := plan in
  ride_id <-? ok_or (pr_ride_id self) NoActiveRideError;
  current <-? ok_or (state (pr_recorder self)) NoActiveRideError;
  match transition current event with
  | Err _ => Err InvalidTransitionError
  | Ok t =>
      let epoch_offset := preview_epoch_offset self current event at_ in
      let logical_at := sat_add u64_max at_ epoch_offset in
      match apply_transition_at (pr_recorder self) t logical_at,
            apply_transition_at (pr_admission_recorder self) t logical_at with
      | (recorder, Ok _), (admission_recorder, Ok _) =>
          let self :=
            self <| pr_recorder := recorder |>
                 <| pr_admission_recorder := admission_recorder |>
                 <| pr_monotonic_epoch_offset := epoch_offset |> in
          let self :=
            if bool_decide (event = Resume)
            then self <| pr_recoverable_updated_at := None |> else self in
          Ok (self, mutations ++ [MutationTransition ride_id event occurred_at (Some logical_at)])
      | _, _ => Err InvalidTransitionError
      end
  end.

Definition preview_start_live (plan : Plan) (counter at_ created_at : Z) (candidate_vehicle : text)
    (music_history_policy : MusicHistoryPolicy) : Z * result Plan RideRecordingError :=
  let '(self, mutations) := plan in
  match start (pr_recorder self) counter at_ (vehicle_identity_new candidate_vehicle) with
  | (_, counter, Err _) => (counter, Err InvalidTransitionError)
  | (recorder, counter, Ok _) =>
      (counter,
       Ok (self <| pr_recorder := recorder |>
                <| pr_admission_recorder := recorder |>
                <| pr_ride_id := None |>
                <| pr_created_ride := true |>
                <| pr_monotonic_epoch_offset := 0 |>
                <| pr_recoverable_updated_at := None |>,
           mutations ++ [MutationStartLive created_at at_ (Some candidate_vehicle)
                           music_history_policy]))
  end.

Definition associates (association : VehicleAssociation) : bool :=
  match association with Associated | AlreadyAssociated => true | _ => false end.
Definition preview_target (self : AdmissionPreview) : option VerifiedConnectionRideTarget :=
  if pr_created_ride self then Some TargetCreated else TargetExisting <$> pr_ride_id self.
Definition preview_associate_vehicle (self : AdmissionPreview) (identity : VehicleIdentity)
    (at_ : Z) : AdmissionPreview :=
  if negb (recording_now (pr_recorder self)) then self else
  let '(admission, association) := observe_vehicle (pr_admission_recorder self) identity at_ in
  let self := self <| pr_admission_recorder := admission |> in
  let self :=
    if bool_decide (association = Associated)
    then self <| pr_recorder := (observe_vehicle (pr_recorder self) identity at_).1 |>
    else self in
  match preview_target self with
  | None => self
  | Some target =>
      self <| pr_metadata := Some {|
        vm_target := target;
        vm_candidate_vehicle := candidate_vehicle admission;
        vm_associated_vehicle := associated_vehicle admission;
        vm_associated_at := associated_at admission;
        vm_last_telemetry_at := last_telemetry_at admission;
        vm_moving_time_source_boundary_at :=
          if associates association then Some at_ else None;
      |} |>
  end.

(** ** The automatic plan *)

(** The longest pause after which an interrupted ride is resumed. *)
Definition AUTO_RESUME_RIDE_WINDOW_MILLISECONDS : Z := 3 * 60 * 60 * 1000.

Definition current_vehicle (r : RideMapRecorder) : option text :=
  match associated_vehicle r with Some v => Some v | None => candidate_vehicle r end.
Definition recording_another_vehicle (r : RideMapRecorder) (identity : text) : bool :=
  recording_now r && is_some_and (current_vehicle r) (fun v => negb (bool_decide (v = identity))).
Definition matches_vehicle (r : RideMapRecorder) (identity : text) : bool :=
  bool_decide (associated_vehicle r = Some identity)
  || bool_decide (associated_vehicle r = None) && bool_decide (candidate_vehicle r = Some identity).

(** The three parts of [plan_auto_recording], in its order. *)
Definition plan_stop_other (plan : Plan) (identity : text) (at_ occurred_at : Z)
  : result Plan RideRecordingError :=
  if recording_another_vehicle (pr_recorder plan.1) identity then
    plan <-? preview_transition plan Stop at_ occurred_at;
    preview_transition plan Save at_ occurred_at
  else Ok plan.
Definition plan_resume (plan : Plan) (identity : text) (at_ occurred_at : Z)
  : result Plan RideRecordingError :=
  if bool_decide (state (pr_recorder plan.1) = Some Interrupted) then
    let recovery_decision :=
      ride_recovery_decision InvoluntaryInterruption occurred_at
        <$> pr_recoverable_updated_at plan.1 in
    if matches_vehicle (pr_recorder plan.1) identity
       && bool_decide (recovery_decision = Some DecideResume)
    then preview_transition plan Resume at_ occurred_at
    else Ok plan
  else Ok plan.
Definition allows_replacement (r : RideMapRecorder) : bool :=
  match state r with
  | None => true
  | Some lifecycle => allows_auto_recording_replacement lifecycle
  end.
Definition plan_auto_recording (plan : Plan) (counter : Z) (identity : text)
    (at_ occurred_at : Z) (music_history_policy : MusicHistoryPolicy)
  : Z * result Plan RideRecordingError :=
  match (plan <-? plan_stop_other plan identity at_ occurred_at;
         plan_resume plan identity at_ occurred_at) with
  | Err e => (counter, Err e)
  | Ok plan =>
      if allows_replacement (pr_recorder plan.1)
      then preview_start_live plan counter at_ occurred_at identity music_history_policy
      else (counter, Ok plan)
  end.

(** ** Admission *)

Section Application.
Context (database : bool) (great_circle : Coordinate -> Coordinate -> Z).

(** The selected device is asked for only when recording starts by itself. *)
Definition should_start_recording (connection_generation_consumed : bool) (identity : text)
    (autostart : result bool StorageError) (selected_device : result (option text) StorageError)
  : result bool VerifiedConnectionAdmissionError :=
  if negb database then Ok false
  else if connection_generation_consumed then Ok false
  else match autostart with
  | Err e => Err (AdmissionStorage e)
  | Ok false => Ok false
  | Ok true =>
      match selected_device with
      | Err e => Err (AdmissionStorage e)
      | Ok selected => Ok (bool_decide (selected = Some identity))
      end
  end.

Definition settled_repeat (self : RecordingState) (identity : VehicleIdentity)
    (connection_generation logical_at : Z) : PreparedVerifiedConnectionAdmission :=
  let snapshot := snapshot_from self in {|
    pv_lease := None;
    pv_immediate_snapshot := (fun _ => snapshot) <$> sn_lifecycle snapshot;
    pv_immediate_noop := true;
    pv_selected_mutations := [];
    pv_selected_preview := preview_from_state self;
    pv_platform_identifier := identity;
    pv_connection_generation := connection_generation;
    pv_logical_at := logical_at;
    pv_selected_logical_at := logical_at;
  |}.

(** What the lock reads and plans; nothing of it is kept when it fails. *)
Definition plan_admission (self : RecordingState) (counter : Z) (identity : VehicleIdentity)
    (at_ connection_generation : Z) (music_history_policy : MusicHistoryPolicy)
    (updated_at : Z) (autostart : result bool StorageError)
    (selected_device : result (option text) StorageError)
  : Z * result Plan VerifiedConnectionAdmissionError :=
  let connection_generation_consumed :=
    bool_decide (a_admission_generation self = Some connection_generation) in
  let plan := (preview_from_state self, []) in
  match should_start_recording connection_generation_consumed identity autostart selected_device with
  | Err e => (counter, Err e)
  | Ok false => (counter, Ok plan)
  | Ok true =>
      match plan_auto_recording plan counter identity at_ updated_at music_history_policy with
      | (counter, Err e) => (counter, Err (RideError e))
      | (counter, Ok plan) => (counter, Ok plan)
      end
  end.

Definition begin_verified_connection_admission (self : RecordingState) (counter : Z)
    (platform_identifier : text) (at_ connection_generation : Z)
    (music_history_policy : MusicHistoryPolicy) (wall_clock : option Z)
    (autostart : result bool StorageError) (selected_device : result (option text) StorageError)
    (queued : QueuedAdmission -> list VerifiedConnectionLifecycleMutation -> result unit StorageError)
  : RecordingState * Z
    * result PreparedVerifiedConnectionAdmission VerifiedConnectionAdmissionError :=
  match vehicle_identity_new platform_identifier with
  | None => (self, counter, Err InvalidVehicleIdentity)
  | Some identity =>
  match require_ready self with
  | Err e => (self, counter, Err (RideError e))
  | Ok _ =>
  let logical_at := sat_add u64_max at_ (a_monotonic_epoch_offset self) in
  if bool_decide (a_transition_generation self = Some connection_generation)
     && bool_decide (a_transition_ride_id self = a_ride_id self)
  then (self, counter, Ok (settled_repeat self identity connection_generation logical_at))
  else if bool_decide (is_Some (a_pending_command_id self))
  then (self, counter, Err (RideError CommandPending))
  else
  let next_command_id := a_next_command_id self in
  match checked_add u64_max next_command_id 1 with
  | None => (self, counter, Err (RideError CommandIdExhausted))
  | Some following_command_id =>
  match (if database then wall_clock else Some 0) with
  | None => (self, counter, Err WallClock)
  | Some updated_at =>
  match plan_admission self counter identity at_ connection_generation music_history_policy
          updated_at autostart selected_device with
  | (counter, Err e) => (self, counter, Err e)
  | (counter, Ok (selected_preview, selected_mutations)) =>
      let selected_logical_at := sat_add u64_max at_ (pr_monotonic_epoch_offset selected_preview) in
      let selected_preview :=
        preview_associate_vehicle selected_preview identity selected_logical_at in
      let unselected_preview :=
        preview_associate_vehicle (preview_from_state self) identity logical_at in
      let write := {| qa_updated_at := updated_at;
                      qa_selected_metadata := pr_metadata selected_preview;
                      qa_unselected_metadata := pr_metadata unselected_preview |} in
      match awaited database (queued write selected_mutations) with
      | Err e => (self, counter, Err (AdmissionStorage e))
      | Ok _ =>
          (self <| a_next_command_id := following_command_id |>
                <| a_pending_command_id := Some next_command_id |>, counter,
           Ok {| pv_lease := Some next_command_id;
                 pv_immediate_snapshot := None;
                 pv_immediate_noop := false;
                 pv_selected_mutations := selected_mutations;
                 pv_selected_preview := selected_preview;
                 pv_platform_identifier := identity;
                 pv_connection_generation := connection_generation;
                 pv_logical_at := logical_at;
                 pv_selected_logical_at := selected_logical_at |})
      end
  end
  end
  end
  end
  end.

(** ** Settlement

    A failed step keeps what was done before it, so each returns the state
    beside its answer. *)

Definition apply_transition_mutation (self : RecordingState) (event : RideEvent)
    (monotonic_at : option Z) (fallback_at : Z) : RecordingState * result unit RideRecordingError :=
  match state (a_recorder self) with
  | None => (self, Err NoActiveRideError)
  | Some current =>
      match transition current event with
      | Err _ => (self, Err InvalidTransitionError)
      | Ok t =>
          let at_ := default fallback_at monotonic_at in
          match apply_transition_at (a_recorder self) t at_ with
          | (recorder, Err _) => (self <| a_recorder := recorder |>, Err InvalidTransitionError)
          | (recorder, Ok _) =>
              let self := self <| a_recorder := recorder |> in
              match apply_transition_at (a_admission_recorder self) t at_ with
              | (recorder, Err _) =>
                  (self <| a_admission_recorder := recorder |>, Err InvalidTransitionError)
              | (recorder, Ok _) =>
                  let self := self <| a_admission_recorder := recorder |> in
                  let self :=
                    if bool_decide (event = Resume)
                    then self <| a_recoverable_updated_at := None |> else self in
                  (bump_generation self, Ok tt)
              end
          end
      end
  end.

(** [fresh_id] is the random identity of a ride without a database. *)
Definition apply_start_mutation (self : RecordingState) (counter : Z)
    (created_ride_id : option RideId) (committed : option Committed) (in_memory_owner : bool)
    (monotonic_created_at : Z) (candidate_vehicle : option text)
    (music_history_policy : MusicHistoryPolicy) (fresh_id : RideId)
  : RecordingState * Z * result unit RideRecordingError :=
  match (match created_ride_id with
         | Some ride_id => Some ride_id
         | None => if in_memory_owner then Some fresh_id else None
         end) with
  | None => (self, counter, Err InvalidTransitionError)
  | Some ride_id =>
      let checkpoint :=
        match committed with
        | Some c => if bool_decide (cm_ride_id c = ride_id) then Some (cm_checkpoint c) else None
        | None => None
        end in
      if negb in_memory_owner && negb (bool_decide (is_Some checkpoint))
      then (self, counter, Err InvalidTransitionError)
      else match start (a_recorder self) counter monotonic_created_at
                       (candidate_vehicle ≫= vehicle_identity_new) with
      | (recorder, counter, Err _) =>
          (self <| a_recorder := recorder |>, counter, Err InvalidTransitionError)
      | (recorder, counter, Ok _) =>
          (bump_generation
             (self <| a_recorder := recorder |>
                   <| a_admission_recorder := recorder |>
                   <| a_ride_id := Some ride_id |>
                   <| a_checkpoint := checkpoint |>
                   <| a_speed := default_speed_state |>
                   <| a_speed_generation_started := monotonic_created_at |>
                   <| a_latest_vehicle_moving_time := None |>
                   <| a_persisted_telemetry_receipt := None |>
                   <| a_recoverable_updated_at := None |>
                   <| a_music_history_policy := Some music_history_policy |>), counter, Ok tt)
      end
  end.

(** The receipt of the transaction. *)
Record AdmissionReceipt := {
  rc_created_ride_id : option RideId;
  rc_committed : option Committed;
  rc_selected_device_matches : bool;
}.
Definition reconcile_admission_receipt (outcome : option VerifiedConnectionAdmissionOutcome)
  : AdmissionReceipt := {|
  rc_created_ride_id := outcome ≫= vo_created_ride_id;
  rc_committed := outcome ≫= vo_committed_ride_checkpoint;
  rc_selected_device_matches := is_some_and outcome vo_selected_device_matches;
|}.

Definition apply_mutation (self : RecordingState) (counter : Z)
    (operation : PreparedVerifiedConnectionAdmission) (receipt : AdmissionReceipt)
    (in_memory_owner : bool) (fresh_id : RideId) (mutation : VerifiedConnectionLifecycleMutation)
  : RecordingState * Z * result unit RideRecordingError :=
  match mutation with
  | MutationTransition _ event _ monotonic_at =>
      let '(self, r) :=
        apply_transition_mutation self event monotonic_at (pv_logical_at operation) in
      (self, counter, r)
  | MutationStartLive _ monotonic_created_at candidate_vehicle music_history_policy =>
      apply_start_mutation self counter (rc_created_ride_id receipt) (rc_committed receipt)
        in_memory_owner monotonic_created_at candidate_vehicle music_history_policy fresh_id
  end.
Fixpoint apply_mutations (self : RecordingState) (counter : Z)
    (operation : PreparedVerifiedConnectionAdmission) (receipt : AdmissionReceipt)
    (in_memory_owner : bool) (fresh_id : RideId)
    (mutations : list VerifiedConnectionLifecycleMutation)
  : RecordingState * Z * result unit RideRecordingError :=
  match mutations with
  | [] => (self, counter, Ok tt)
  | mutation :: rest =>
      match apply_mutation self counter operation receipt in_memory_owner fresh_id mutation with
      | (self, counter, Err e) => (self, counter, Err e)
      | (self, counter, Ok _) =>
          apply_mutations self counter operation receipt in_memory_owner fresh_id rest
      end
  end.

(** The connection whose transition the recording shows. *)
Definition note_transition_generation (self : RecordingState) (connection_generation : Z)
  : RecordingState :=
  self <| a_transition_generation := Some connection_generation |>
       <| a_transition_ride_id := a_ride_id self |>.
Definition apply_selected_mutations (self : RecordingState) (counter : Z)
    (operation : PreparedVerifiedConnectionAdmission) (receipt : AdmissionReceipt)
    (in_memory_owner : bool) (fresh_id : RideId)
  : RecordingState * Z * result unit RideRecordingError :=
  match apply_mutations self counter operation receipt in_memory_owner fresh_id
          (pv_selected_mutations operation) with
  | (self, counter, Err e) => (self, counter, Err e)
  | (self, counter, Ok _) =>
      let self :=
        self <| a_monotonic_epoch_offset :=
                  pr_monotonic_epoch_offset (pv_selected_preview operation) |> in
      let self :=
        match pv_selected_mutations operation with
        | [] => self
        | _ => note_transition_generation self (pv_connection_generation operation)
        end in
      (self, counter, Ok tt)
  end.

(** The checkpoint of the transaction, if it is for the current ride. *)
Definition adopt_admission_checkpoint (self : RecordingState) (committed : option Committed)
  : RecordingState * result unit RideRecordingError :=
  match committed with
  | None => (self, Ok tt)
  | Some c =>
      if negb (bool_decide (a_ride_id self = Some (cm_ride_id c))) then (self, Ok tt)
      else if negb (bool_decide (state (a_recorder self) = Some (cm_lifecycle c)))
      then (require_recovery self, Err InvalidTransitionError)
      else if match a_checkpoint self with
              | None => true
              | Some current => bool_decide (cp_revision current < cp_revision (cm_checkpoint c))
              end
      then (self <| a_checkpoint := Some (cm_checkpoint c) |>, Ok tt)
      else (self, Ok tt)
  end.

Definition apply_verified_admission_receipt (self : RecordingState) (counter : Z)
    (operation : PreparedVerifiedConnectionAdmission) (receipt : AdmissionReceipt)
    (in_memory_owner : bool) (fresh_id : RideId)
  : RecordingState * Z * result unit RideRecordingError :=
  let selected_device_matches := rc_selected_device_matches receipt || in_memory_owner in
  let self :=
    self <| a_last_connected_vehicle := vehicle_identity_new (pv_platform_identifier operation) |> in
  if negb selected_device_matches then (self, counter, Ok tt) else
  match apply_selected_mutations self counter operation receipt in_memory_owner fresh_id with
  | (self, counter, Err e) =>
      ((if in_memory_owner then self else require_recovery self), counter, Err e)
  | (self, counter, Ok _) =>
      let '(self, r) := adopt_admission_checkpoint self (rc_committed receipt) in (self, counter, r)
  end.

(** The vehicle is associated with the recording that now runs. *)
Definition associate_admitted (self : RecordingState)
    (operation : PreparedVerifiedConnectionAdmission) (identity : VehicleIdentity) (association_at : Z)
  : RecordingState :=
  let '(staged, association) := observe_vehicle (a_admission_recorder self) identity association_at in
  let '(durable_staged, self) :=
    match association with
    | Associated =>
        ((observe_vehicle (a_recorder self) identity association_at).1, bump_revision self)
    | _ => (a_recorder self, self)
    end in
  let self := self <| a_recorder := durable_staged |> <| a_admission_recorder := staged |> in
  if associates association
  then note_transition_generation self (pv_connection_generation operation) else self.

(** What is left to do once the receipt is applied. *)
Definition settle_admission (self : RecordingState)
    (operation : PreparedVerifiedConnectionAdmission) (receipt : AdmissionReceipt)
  : RecordingState * result (option RideRecordingSnapshot) VerifiedConnectionAdmissionError :=
  let self := self <| a_admission_generation := Some (pv_connection_generation operation) |> in
  match state (a_recorder self) with
  | None => (self <| a_pending_command_id := None |>, Ok None)
  | Some lifecycle =>
      if negb (is_recording lifecycle)
      then (self <| a_pending_command_id := None |>, Ok (Some (snapshot_from self)))
      else match vehicle_identity_new (pv_platform_identifier operation) with
      | None => (self, Err InvalidVehicleIdentity)
      | Some identity =>
          let association_at :=
            if rc_selected_device_matches receipt || negb database
            then pv_selected_logical_at operation else pv_logical_at operation in
          let self :=
            (associate_admitted self operation identity association_at)
              <| a_pending_command_id := None |> in
          (self, Ok (Some (snapshot_from self)))
      end
  end.

(** What is returned drops the operation, and so its lease. *)
Definition released {A} (r : RecordingState * Z * result A VerifiedConnectionAdmissionError)
    (id : Z) : RecordingState * Z * result A VerifiedConnectionAdmissionError :=
  let '(self, counter, r) := r in (release self id, counter, r).

Definition finish_admitted (self : RecordingState) (counter : Z)
    (operation : PreparedVerifiedConnectionAdmission) (receipt : AdmissionReceipt)
    (fresh_id : RideId)
  : RecordingState * Z * result (option RideRecordingSnapshot) VerifiedConnectionAdmissionError :=
  match apply_verified_admission_receipt self counter operation receipt (negb database) fresh_id with
  | (self, counter, Err e) => (self, counter, Err (RideError e))
  | (self, counter, Ok _) =>
      let '(self, r) := settle_admission self operation receipt in (self, counter, r)
  end.

(** [finish_verified_connection_admission] up to the end of
    [poll_location_writes]. *)
Definition await_admission (self : RecordingState)
    (operation : PreparedVerifiedConnectionAdmission)
    (answer : result VerifiedConnectionAdmissionOutcome StorageError)
    (ready : Z -> option (result LocationWriteResult StorageError))
  : RecordingState
    * Awaited (option VerifiedConnectionAdmissionOutcome)
        (result (option RideRecordingSnapshot) VerifiedConnectionAdmissionError) :=
  if pv_immediate_noop operation
  then (self, Returned (Ok (pv_immediate_snapshot operation))) else
  match awaited database answer with
  | Err e =>
      match pv_lease operation with
      | Some id => (release (command_storage_error self id e) id,
                    Returned (Err (RideError (StorageFailed e))))
      | None => (self, Returned (Err (AdmissionStorage e)))
      end
  | Ok outcome =>
      let '(self, outcomes) := settle_ready_location_writes great_circle self ready in
      (self, GoesOn outcome outcomes)
  end.
(** [finish_verified_connection_admission] from its second lock on. *)
Definition publish_admission (self : RecordingState) (counter : Z)
    (operation : PreparedVerifiedConnectionAdmission)
    (outcome : option VerifiedConnectionAdmissionOutcome)
    (outcomes : list RideLocationWriteOutcome) (fresh_id : RideId)
  : RecordingState * Z * result (option RideRecordingSnapshot) VerifiedConnectionAdmissionError :=
  let self := extend_settled self outcomes in
  match pv_lease operation with
  | None => (self, counter, Err (RideError StaleCommand))
  | Some id =>
      if negb (command_is_pending self id) then (self, counter, Err (RideError StaleCommand))
      else released
             (finish_admitted self counter operation (reconcile_admission_receipt outcome)
                fresh_id) id
  end.
End Application.

(** ** What is planned

    The events of the mutations, a start for a new ride. *)
Definition mutation_event (m : VerifiedConnectionLifecycleMutation) : RideEvent :=
  match m with
  | MutationTransition _ event _ _ => event
  | MutationStartLive _ _ _ _ => Start
  end.

(** A ride of another vehicle is stopped and saved before a new one starts; an
    interrupted ride of this vehicle is resumed within its window, and any
    other interrupted ride replaced; a ride of this vehicle goes on. *)
Definition resumable (r : RideMapRecorder) (updated_at : option Z) (identity : text) (now : Z)
  : bool :=
  matches_vehicle r identity
  && match updated_at with
     | Some updated_at =>
         bool_decide (0 <= now - updated_at <= AUTO_RESUME_RIDE_WINDOW_MILLISECONDS)
     | None => false
     end.
Definition planned_events (r : RideMapRecorder) (updated_at : option Z) (identity : text) (now : Z)
  : list RideEvent :=
  match state r with
  | None | Some (Saved | Discarded) => [Start]
  | Some (Active | Paused) =>
      if is_some_and (current_vehicle r) (fun v => negb (bool_decide (v = identity)))
      then [Stop; Save; Start] else []
  | Some Interrupted => if resumable r updated_at identity now then [Resume] else [Start]
  | Some (Draft | Stopped | Imported) => []
  end.
(** The lifecycle after the plan. *)
Definition planned_lifecycle (lifecycle : option RideLifecycleState) (events : list RideEvent)
  : option RideLifecycleState :=
  if bool_decide (events = []) then lifecycle else Some Active.

(** The lifecycle and the interval of a recorder decide which transitions it
    makes. *)
Definition position (r : RideMapRecorder) : option RideLifecycleState * Z :=
  (state r, active_interval_generation r).
Lemma apply_position r r' t at_ at' r1 :
  position r' = position r -> apply_transition_at r t at_ = (r1, Ok tt) ->
  exists r2, apply_transition_at r' t at' = (r2, Ok tt) /\ position r2 = position r1.
Proof.
  intros [= Hs Hi] H. destruct (transition_applies _ _ _ _ at' _ Hs Hi H) as [r2 H2].
  exists r2. split; [done|]. unfold position.
  destruct (transition_result _ _ _ _ H) as (_ & -> & _).
  destruct (transition_result _ _ _ _ H2) as (_ & -> & _).
  apply apply_interval in H, H2. rewrite Hi in H2. congruence.
Qed.

Lemma transition_vehicle r t at_ r' :
  apply_transition_at r t at_ = (r', Ok tt) ->
  candidate_vehicle r' = candidate_vehicle r /\ associated_vehicle r' = associated_vehicle r.
Proof.
  unfold apply_transition_at. destruct (negb _); [done|].
  destruct (if resumes t then _ else _); [|done]. intros [= <-]. by destruct r.
Qed.

(** A transition that both recorders make. *)
Definition both_moved (s : RecordingState) (event : RideEvent) (r r' : RideMapRecorder)
  : RecordingState :=
  let s := s <| a_recorder := r |> <| a_admission_recorder := r' |> in
  bump_generation (if bool_decide (event = Resume)
                   then s <| a_recoverable_updated_at := None |> else s).
Lemma transition_mutation_Ok s event monotonic_at fallback_at current t r r' :
  state (a_recorder s) = Some current -> transition current event = Ok t ->
  apply_transition_at (a_recorder s) t (default fallback_at monotonic_at) = (r, Ok tt) ->
  apply_transition_at (a_admission_recorder s) t (default fallback_at monotonic_at) = (r', Ok tt) ->
  apply_transition_mutation s event monotonic_at fallback_at = (both_moved s event r r', Ok tt).
Proof.
  intros Hs Ht H1 H2. unfold apply_transition_mutation. rewrite Hs, Ht. cbv zeta. rewrite H1.
  assert (E : a_admission_recorder (s <| a_recorder := r |>) = a_admission_recorder s)
    by by destruct s.
  rewrite E, H2. done.
Qed.
Lemma both_moved_fields s event r r' :
  let s' := both_moved s event r r' in
  a_recorder s' = r /\ a_admission_recorder s' = r' /\ a_ride_id s' = a_ride_id s
  /\ a_pending_command_id s' = a_pending_command_id s
  /\ a_pending_locations s' = a_pending_locations s
  /\ a_settled_locations s' = a_settled_locations s
  /\ a_next_location_request_id s' = a_next_location_request_id s.
Proof. unfold both_moved. case_bool_decide; by destruct s. Qed.

(** The recording is where the preview is. *)
Record tracks (p : AdmissionPreview) (s : RecordingState) : Prop := {
  tr_recorder : position (a_recorder s) = position (pr_recorder p);
  tr_admission : is_Some (pr_ride_id p) ->
    position (a_admission_recorder s) = position (pr_admission_recorder p);
  tr_ride : pr_created_ride p = false -> a_ride_id s = pr_ride_id p;
}.

(** The receipt of a transaction that created a ride. *)
Definition created_by (receipt : AdmissionReceipt) : Prop :=
  exists c, rc_created_ride_id receipt = Some (cm_ride_id c) /\ rc_committed receipt = Some c.
Definition not_exhausted (counter : Z) : Prop := 0 < counter < u64_max.

(** Mutations that the plan leads through: made on a recording where the
    preview was, they succeed and leave it where the preview is. *)
Definition replays (p p' : AdmissionPreview) (ms : list VerifiedConnectionLifecycleMutation)
  : Prop :=
  forall s counter operation receipt in_memory_owner fresh_id,
    tracks p s ->
    (pr_created_ride p' = true -> not_exhausted counter /\ created_by receipt) ->
    exists s' counter',
      apply_mutations s counter operation receipt in_memory_owner fresh_id ms
        = (s', counter', Ok tt)
      /\ tracks p' s'
      /\ a_ride_id s' = (if pr_created_ride p' then rc_created_ride_id receipt else a_ride_id s)
      /\ a_pending_command_id s' = a_pending_command_id s
      /\ (pr_created_ride p' = false -> counter' = counter).
Lemma apply_mutations_app s counter operation receipt in_memory_owner fresh_id ms1 ms2 :
  apply_mutations s counter operation receipt in_memory_owner fresh_id (ms1 ++ ms2)
  = match apply_mutations s counter operation receipt in_memory_owner fresh_id ms1 with
    | (s, counter, Err e) => (s, counter, Err e)
    | (s, counter, Ok _) => apply_mutations s counter operation receipt in_memory_owner fresh_id ms2
    end.
Proof.
  revert s counter. induction ms1 as [|m ms1 IH]; intros s counter; [done|]. simpl.
  destruct (apply_mutation _ _ _ _ _ _ m) as [[s1 counter1] [|]]; [apply IH|done].
Qed.
Lemma replays_nil p : pr_created_ride p = false -> replays p p [].
Proof. intros Hp s counter op receipt im id T _. exists s, counter. by rewrite Hp. Qed.
Lemma replays_app p p1 p' ms1 ms2 :
  pr_created_ride p1 = false -> replays p p1 ms1 -> replays p1 p' ms2 -> replays p p' (ms1 ++ ms2).
Proof.
  intros Hp R1 R2 s counter op receipt im id T Hc.
  destruct (R1 s counter op receipt im id T) as (s1 & c1 & E1 & T1 & I1 & P1 & K1);
    [by rewrite Hp|]. specialize (K1 Hp) as ->. rewrite Hp in I1.
  destruct (R2 s1 counter op receipt im id T1 Hc) as (s2 & c2 & E2 & T2 & I2 & P2 & K2).
  exists s2, c2. rewrite apply_mutations_app, E1. split_ands; try done; [|congruence].
  by rewrite I2, I1.
Qed.

Lemma preview_transition_replays p ms event at_ occurred_at p' ms' :
  pr_created_ride p = false -> preview_transition (p, ms) event at_ occurred_at = Ok (p', ms') ->
  exists m current t,
    ms' = ms ++ [m] /\ mutation_event m = event /\ replays p p' [m]
    /\ pr_created_ride p' = false /\ pr_ride_id p' = pr_ride_id p /\ is_Some (pr_ride_id p)
    /\ state (pr_recorder p) = Some current /\ transition current event = Ok t
    /\ state (pr_recorder p') = Some (next t)
    /\ candidate_vehicle (pr_recorder p') = candidate_vehicle (pr_recorder p)
    /\ associated_vehicle (pr_recorder p') = associated_vehicle (pr_recorder p).
Proof.
  intros Hc H. unfold preview_transition in H.
  destruct (pr_ride_id p) as [ride_id|] eqn:Hr; [|done]. simpl in H.
  destruct (state (pr_recorder p)) as [current|] eqn:Hs; [|done]. simpl in H.
  destruct (transition current event) as [t|] eqn:Ht; [|done].
  set (offset := preview_epoch_offset p current event at_) in *. clearbody offset.
  destruct (apply_transition_at (pr_recorder p) t _) as [r1 [[]|]] eqn:E1; [|done].
  destruct (apply_transition_at (pr_admission_recorder p) t _) as [r2 [[]|]] eqn:E2; [|done].
  injection H as <- <-. set (m := MutationTransition ride_id event occurred_at _).
  exists m, current, t.
  assert (Hp : forall q, q = (if bool_decide (event = Resume)
      then p <| pr_recorder := r1 |> <| pr_admission_recorder := r2 |>
             <| pr_monotonic_epoch_offset := offset |> <| pr_recoverable_updated_at := None |>
      else p <| pr_recorder := r1 |> <| pr_admission_recorder := r2 |>
             <| pr_monotonic_epoch_offset := offset |>) ->
    pr_recorder q = r1 /\ pr_admission_recorder q = r2 /\ pr_created_ride q = pr_created_ride p
    /\ pr_ride_id q = pr_ride_id p).
  { intros q ->. case_bool_decide; by destruct p. }
  match goal with |- context [replays p ?q [m]] => specialize (Hp q eq_refl); set (p' := q) in * end.
  clearbody p'. destruct Hp as (P1 & P2 & P3 & P4). rewrite P1, P3, P4.
  destruct (transition_result _ _ _ _ E1) as (_ & S1 & _).
  split_ands; try done; try (rewrite Hr; by eexists).
  - intros s counter operation receipt in_memory fresh_id [T1 T2 T3] _.
    destruct (apply_position _ _ _ _ (sat_add u64_max at_ offset) _ T1 E1) as (q1 & F1 & Q1).
    specialize (T2 ltac:(rewrite Hr; by eexists)).
    destruct (apply_position _ _ _ _ (sat_add u64_max at_ offset) _ T2 E2) as (q2 & F2 & Q2).
    destruct (both_moved_fields s event q1 q2) as (B1 & B2 & B3 & B4 & _).
    exists (both_moved s event q1 q2), counter. split_ands; try done.
    + simpl. rewrite (transition_mutation_Ok _ _ _ _ current t q1 q2); try done.
      injection T1. congruence.
    + split; rewrite ?B1, ?B2, ?B3, ?P1, ?P2, ?P3, ?P4; done || auto.
    + by rewrite P3, Hc, B3.
  - by destruct (transition_vehicle _ _ _ _ E1).
  - by destruct (transition_vehicle _ _ _ _ E1).
Qed.
Lemma start_admits r k at_ candidate :
  can_start (state r) = true -> not_exhausted k ->
  exists r', start r k at_ candidate = (r', k + 1, Ok tt)
             /\ position r' = (Some Active, 0).
Proof.
  intros Hs [Hk Hm]. unfold start, next_recording_generation, can_start in *.
  assert (checked_add u64_max k 1 = Some (k + 1)) as -> by (apply checked_add_Some; lia).
  rewrite bool_decide_eq_false_2 by lia.
  destruct (state r) as [[]|]; simpl in *; try done; by eexists.
Qed.
Lemma start_requires r k at_ candidate r' k' :
  start r k at_ candidate = (r', k', Ok tt) ->
  can_start (state r) = true /\ position r' = (Some Active, 0).
Proof.
  unfold start, can_start. destruct (negb _) eqn:E; [done|]. apply negb_false_iff in E.
  destruct (next_recording_generation k) as [[g|] k1]; [|done]. by intros [= <- <-].
Qed.
Lemma preview_start_live_replays p ms k at_ created_at candidate policy k' p' ms' :
  preview_start_live (p, ms) k at_ created_at candidate policy = (k', Ok (p', ms')) ->
  exists m, ms' = ms ++ [m] /\ mutation_event m = Start /\ replays p p' [m]
    /\ pr_created_ride p' = true /\ state (pr_recorder p') = Some Active
    /\ can_start (state (pr_recorder p)) = true.
Proof.
  unfold preview_start_live.
  destruct (start (pr_recorder p) k at_ _) as [[r k1] [[]|]] eqn:E; [|done]. intros [= <- <- <-].
  destruct (start_requires _ _ _ _ _ _ E) as [Hs Hr].
  eexists. split; [done|]. split_ands; try done; try (by injection Hr; destruct p).
  intros s counter op receipt im id [T1 T2 T3] Hc.
  destruct Hc as [Hk (c & C1 & C2)]; [by destruct p|].
  assert (Hs' : can_start (state (a_recorder s)) = true) by (injection T1; congruence).
  destruct (start_admits (a_recorder s) counter at_ (Some candidate ≫= vehicle_identity_new) Hs' Hk)
    as (r' & E' & Hr').
  unfold apply_mutations, apply_mutation, apply_start_mutation. rewrite C1, C2.
  rewrite (bool_decide_eq_true_2 (cm_ride_id c = cm_ride_id c)) by done.
  rewrite (bool_decide_eq_true_2 (is_Some (Some _))) by by eexists.
  simpl negb. rewrite andb_false_r, E'. eexists _, _. split; [reflexivity|].
  destruct s, p. simpl in *. split_ands; try done. split; simpl; try done; congruence.
Qed.

Lemma resume_decision now updated_at :
  ride_recovery_decision InvoluntaryInterruption now updated_at = DecideResume <->
  0 <= now - updated_at <= AUTO_RESUME_RIDE_WINDOW_MILLISECONDS.
Proof.
  unfold ride_recovery_decision. destruct (checked_sub now updated_at) as [age|] eqn:E.
  - apply checked_sub_Some in E as [H ->]. unfold AUTO_RESUME_RIDE_WINDOW_MILLISECONDS.
    unfold INTERRUPTED_RIDE_RESUME_WINDOW. case_bool_decide; split; done || lia.
  - apply checked_sub_None in E. split; [done|lia].
Qed.
Lemma resumable_decided r updated_at identity now :
  matches_vehicle r identity
  && bool_decide (ride_recovery_decision InvoluntaryInterruption now <$> updated_at = Some DecideResume)
  = resumable r updated_at identity now.
Proof.
  unfold resumable. f_equal. destruct updated_at as [t|]; simpl; [|done].
  apply bool_decide_ext. rewrite <- resume_decision. split; [by intros [= ?]|by intros ->].
Qed.

(** What a plan that succeeded holds. *)
Record planned (s : RecordingState) (p' : AdmissionPreview)
    (ms : list VerifiedConnectionLifecycleMutation) (events : list RideEvent) : Prop := {
  pl_events : mutation_event <$> ms = events;
  pl_lifecycle : state (pr_recorder p') = planned_lifecycle (state (a_recorder s)) events;
  pl_replays : replays (preview_from_state s) p' ms;
  pl_created : pr_created_ride p' = bool_decide (Start ∈ events);
}.
Lemma stopped_and_saved p identity at_ now p' ms :
  pr_created_ride p = false -> recording_another_vehicle (pr_recorder p) identity = true ->
  plan_stop_other (p, []) identity at_ now = Ok (p', ms) ->
  mutation_event <$> ms = [Stop; Save] /\ replays p p' ms /\ pr_created_ride p' = false
  /\ state (pr_recorder p') = Some Saved.
Proof.
  intros Hc Ho. unfold plan_stop_other. simpl fst. rewrite Ho.
  destruct (preview_transition (p, []) Stop at_ now) as [[p1 ms1]|] eqn:E1; [|done].
  simpl. intros E2.
  destruct (preview_transition_replays _ _ _ _ _ _ _ Hc E1)
    as (m1 & c1 & t1 & -> & M1 & R1 & C1 & _ & _ & S1 & T1 & N1 & _).
  destruct (preview_transition_replays _ _ _ _ _ _ _ C1 E2)
    as (m2 & c2 & t2 & -> & M2 & R2 & C2 & _ & _ & S2 & T2 & N2 & _).
  split_ands; [by rewrite fmap_app; simpl; rewrite M1, M2|by eapply (replays_app p p1 p' [_])|done|].
  rewrite N1 in S2. injection S2 as <-. unfold transition in T1, T2.
  destruct c1; simpl in T1; simplify_eq/=; done.
Qed.
Lemma resumed p ms identity at_ now p' ms' :
  pr_created_ride p = false -> plan_resume (p, ms) identity at_ now = Ok (p', ms') ->
  if bool_decide (state (pr_recorder p) = Some Interrupted)
     && resumable (pr_recorder p) (pr_recoverable_updated_at p) identity now
  then exists m, ms' = ms ++ [m] /\ mutation_event m = Resume /\ replays p p' [m]
       /\ pr_created_ride p' = false /\ state (pr_recorder p') = Some Active
  else p' = p /\ ms' = ms.
Proof.
  intros Hc. unfold plan_resume. simpl fst. rewrite resumable_decided.
  case_bool_decide as Hs; simpl; [|by intros [= <- <-]].
  destruct (resumable _ _ _ _); [|by intros [= <- <-]]. intros E.
  destruct (preview_transition_replays _ _ _ _ _ _ _ Hc E)
    as (m & c & t & -> & M & R & C & _ & _ & S & T & N & _).
  exists m. rewrite Hs in S. injection S as <-. simpl in T. injection T as <-.
  by split_ands.
Qed.
Lemma replaced p p0 ms k at_ now identity policy k' p' ms' :
  pr_created_ride p = false -> replays p0 p ms ->
  (if allows_replacement (pr_recorder p)
   then preview_start_live (p, ms) k at_ now identity policy else (k, Ok (p, ms)))
    = (k', Ok (p', ms')) ->
  replays p0 p' ms' /\
  if allows_replacement (pr_recorder p)
  then (mutation_event <$> ms') = (mutation_event <$> ms) ++ [Start]
       /\ pr_created_ride p' = true /\ state (pr_recorder p') = Some Active
  else p' = p /\ ms' = ms.
Proof.
  intros Hc Hr. destruct (allows_replacement (pr_recorder p)); [|by intros [= _ <- <-]].
  intros E. destruct (preview_start_live_replays _ _ _ _ _ _ _ _ _ _ E)
    as (m & -> & M & R & C & S & _).
  split; [by eapply replays_app|]. rewrite fmap_app. simpl. by rewrite M.
Qed.

Lemma plan_auto_recording_exact s k identity at_ now policy k' p' ms :
  plan_auto_recording (preview_from_state s, []) k identity at_ now policy = (k', Ok (p', ms)) ->
  planned s p' ms (planned_events (a_recorder s) (a_recoverable_updated_at s) identity now).
Proof.
  unfold plan_auto_recording. set (p := preview_from_state s). intros H.
  destruct (plan_stop_other (p, []) identity at_ now) as [[p1 ms1]|] eqn:E1; [|done]. simpl in H.
  destruct (plan_resume (p1, ms1) identity at_ now) as [[p2 ms2]|] eqn:E2; [|done]. simpl fst in H.
  destruct (recording_another_vehicle (a_recorder s) identity) eqn:Eo.
  - destruct (stopped_and_saved p identity at_ now p1 ms1 eq_refl Eo E1) as (M1 & R1 & C1 & S1).
    pose proof (resumed _ _ _ _ _ _ _ C1 E2) as H2. rewrite S1 in H2. simpl in H2.
    destruct H2 as [-> ->]. destruct (replaced _ _ _ _ _ _ _ _ _ _ _ C1 R1 H) as [R H3].
    unfold allows_replacement in H3. rewrite S1 in H3. destruct H3 as (M & C & S).
    assert (planned_events (a_recorder s) (a_recoverable_updated_at s) identity now
            = [Stop; Save; Start]) as ->.
    { unfold recording_another_vehicle, recording_now, planned_events in *.
      destruct (state (a_recorder s)) as [[]|]; simpl in Eo |- *; try done; by rewrite Eo. }
    split; try done. by rewrite M, M1.
  - unfold plan_stop_other in E1. simpl fst in E1. change (pr_recorder p) with (a_recorder s) in E1.
    rewrite Eo in E1. injection E1 as <- <-.
    pose proof (resumed p _ _ _ _ _ _ eq_refl E2) as H2.
    change (pr_recorder p) with (a_recorder s) in H2.
    change (pr_recoverable_updated_at p) with (a_recoverable_updated_at s) in H2.
    destruct (_ && _) eqn:Er in H2.
    + destruct H2 as (m & -> & M & R & C & S).
      destruct (replaced _ _ _ _ _ _ _ _ _ _ _ C R H) as [R' H3].
      unfold allows_replacement in H3. rewrite S in H3. destruct H3 as [-> ->]. prop_bools.
      unfold planned_events. rewrite H0, H1. by split; simpl; rewrite ?M.
    + destruct H2 as [-> ->].
      destruct (replaced p p [] _ _ _ _ _ _ _ _ eq_refl (replays_nil p eq_refl) H) as [R' H3].
      revert H3. unfold allows_replacement, planned_events, recording_another_vehicle, recording_now in *.
      change (pr_recorder p) with (a_recorder s).
      destruct (state (a_recorder s)) as [lifecycle|] eqn:Es; simpl in *.
      2:{ intros (M & C & S). by split. }
      destruct lifecycle; simpl in *; try (rewrite Eo); try (rewrite Er);
        try (intros (M & C & S); by split); intros [-> ->]; by split.
Qed.

(** ** Finishing as planned *)

Lemma observe_vehicle_position r identity at_ : position (observe_vehicle r identity at_).1 = position r.
Proof.
  unfold observe_vehicle. destruct (negb _); [done|]. case_bool_decide; [done|].
  destruct (associated_vehicle r); [done|].
  destruct (match candidate_vehicle r with Some _ => _ | None => _ end); [done|]. by destruct r.
Qed.
Lemma associate_admitted_fields s operation identity at_ :
  let s' := associate_admitted s operation identity at_ in
  position (a_recorder s') = position (a_recorder s) /\ a_ride_id s' = a_ride_id s
  /\ a_admission_generation s' = a_admission_generation s
  /\ a_restore_phase s' = a_restore_phase s.
Proof.
  unfold associate_admitted.
  destruct (observe_vehicle (a_admission_recorder s) identity at_) as [staged association].
  pose proof (observe_vehicle_position (a_recorder s) identity at_) as H.
  destruct association, s; simpl; try done.
Qed.

Lemma settle_admission_follows s operation receipt :
  is_Some (vehicle_identity_new (pv_platform_identifier operation)) ->
  exists s' r, settle_admission true s operation receipt = (s', Ok r)
    /\ state (a_recorder s') = state (a_recorder s) /\ a_ride_id s' = a_ride_id s
    /\ a_admission_generation s' = Some (pv_connection_generation operation)
    /\ a_restore_phase s' = a_restore_phase s
    /\ (r = None <-> state (a_recorder s) = None)
    /\ forall snapshot, r = Some snapshot -> sn_lifecycle snapshot = state (a_recorder s).
Proof.
  intros [identity Hid]. unfold settle_admission. rewrite Hid.
  set (s1 := s <| a_admission_generation := Some (pv_connection_generation operation) |>).
  assert (F : a_recorder s1 = a_recorder s /\ a_ride_id s1 = a_ride_id s
    /\ a_admission_generation s1 = Some (pv_connection_generation operation)
    /\ a_restore_phase s1 = a_restore_phase s) by (unfold s1; by destruct s).
  clearbody s1. destruct F as (F1 & F2 & F3 & F4). rewrite F1.
  assert (Hsn : forall x, sn_lifecycle (snapshot_from x) = state (a_recorder x)) by done.
  destruct (state (a_recorder s)) as [lifecycle|] eqn:Es.
  2:{ eexists _, _. split; [done|]. destruct s1. simpl in *. subst. by split_ands. }
  destruct (negb (is_recording lifecycle)).
  { eexists _, _. split; [done|]. split_ands; try (destruct s1; simpl in *; subst; done).
    intros sn [= <-]. rewrite Hsn, F1. done. }
  set (at_ := if rc_selected_device_matches receipt || negb true then _ else _).
  destruct (associate_admitted_fields s1 operation identity at_) as ([= A1 _] & A2 & A3 & A4).
  set (s2 := associate_admitted s1 operation identity at_) in *. clearbody s2.
  eexists _, _. split; [done|]. split_ands; try (destruct s2; simpl in *; congruence); try done.
  intros sn [= <-]. rewrite Hsn. destruct s2. simpl in *. congruence.
Qed.

(** The ride that is current after the plan. *)
Definition ride_after (p' : AdmissionPreview) (receipt : AdmissionReceipt) (s : RecordingState)
  : option RideId :=
  if pr_created_ride p' then rc_created_ride_id receipt else a_ride_id s.
(** What a transaction that made the mutations answers: it names the ride it
    created, and a commit for the current ride names its lifecycle. *)
Definition receipt_of (p' : AdmissionPreview) (receipt : AdmissionReceipt) (s : RecordingState)
  : Prop :=
  (pr_created_ride p' = true -> created_by receipt)
  /\ forall c, rc_committed receipt = Some c -> ride_after p' receipt s = Some (cm_ride_id c) ->
     state (pr_recorder p') = Some (cm_lifecycle c).

Lemma adopt_checkpoint_Ok s committed :
  (forall c, committed = Some c -> a_ride_id s = Some (cm_ride_id c) ->
     state (a_recorder s) = Some (cm_lifecycle c)) ->
  exists s', adopt_admission_checkpoint s committed = (s', Ok tt)
    /\ a_recorder s' = a_recorder s /\ a_ride_id s' = a_ride_id s.
Proof.
  intros H. unfold adopt_admission_checkpoint. destruct committed as [c|]; [|by exists s].
  case_bool_decide as Hr; [|by exists s]. specialize (H c eq_refl Hr).
  rewrite (bool_decide_eq_true_2 (state _ = _)) by done. simpl.
  destruct (match a_checkpoint s with Some _ => _ | None => _ end); [|by exists s].
  eexists. split; [done|]. by destruct s.
Qed.

Lemma selected_mutations_follow s k operation receipt fresh_id p p' :
  tracks p s -> replays p p' (pv_selected_mutations operation) ->
  (pr_created_ride p' = true -> not_exhausted k /\ created_by receipt) ->
  exists s' k', apply_selected_mutations s k operation receipt false fresh_id = (s', k', Ok tt)
    /\ state (a_recorder s') = state (pr_recorder p') /\ a_ride_id s' = ride_after p' receipt s.
Proof.
  intros T R Hc. destruct (R s k operation receipt false fresh_id T Hc)
    as (s1 & k1 & E & [T1 _ _] & I & _).
  unfold apply_selected_mutations. rewrite E. eexists _, _. split; [done|].
  unfold ride_after. rewrite <- I. injection T1 as <- _.
  destruct (pv_selected_mutations operation); by destruct s1.
Qed.

Lemma finish_admitted_follows s k operation receipt fresh_id p p' :
  is_Some (vehicle_identity_new (pv_platform_identifier operation)) ->
  tracks p s -> replays p p' (pv_selected_mutations operation) ->
  rc_selected_device_matches receipt = true -> receipt_of p' receipt s ->
  (pr_created_ride p' = true -> not_exhausted k) ->
  exists s' k' r, finish_admitted true s k operation receipt fresh_id = (s', k', Ok r)
    /\ state (a_recorder s') = state (pr_recorder p') /\ a_ride_id s' = ride_after p' receipt s
    /\ a_admission_generation s' = Some (pv_connection_generation operation)
    /\ (r = None <-> state (pr_recorder p') = None)
    /\ forall snapshot, r = Some snapshot -> sn_lifecycle snapshot = state (pr_recorder p').
Proof.
  intros Hid T R Hm [Hc Ha] Hk. unfold finish_admitted, apply_verified_admission_receipt. simpl negb.
  rewrite Hm. cbn [orb negb]. cbv zeta.
  set (s1 := s <| a_last_connected_vehicle := vehicle_identity_new (pv_platform_identifier operation) |>).
  assert (T1 : tracks p s1) by (destruct T; unfold s1; destruct s; by split).
  assert (I1 : ride_after p' receipt s1 = ride_after p' receipt s) by by destruct s.
  destruct (selected_mutations_follow s1 k operation receipt fresh_id p p' T1 R)
    as (s2 & k2 & E2 & S2 & I2); [by auto|]. rewrite E2.
  destruct (adopt_checkpoint_Ok s2 (rc_committed receipt)) as (s3 & E3 & S3 & I3).
  { intros c Hrc Hr. rewrite S2. apply (Ha c Hrc). congruence. }
  rewrite E3. destruct (settle_admission_follows s3 operation receipt Hid)
    as (s4 & r & E4 & S4 & I4 & G4 & _ & N4 & L4).
  rewrite E4. exists s4, k2, r. rewrite <- S2, <- S3. split_ands; try done; congruence.
Qed.

(** A connection that is not selected leaves the lifecycle as it is. *)
Lemma finish_unselected s k operation receipt fresh_id :
  is_Some (vehicle_identity_new (pv_platform_identifier operation)) ->
  rc_selected_device_matches receipt = false ->
  exists s' r, finish_admitted true s k operation receipt fresh_id = (s', k, Ok r)
    /\ state (a_recorder s') = state (a_recorder s) /\ a_ride_id s' = a_ride_id s
    /\ a_admission_generation s' = Some (pv_connection_generation operation)
    /\ (r = None <-> state (a_recorder s) = None)
    /\ forall snapshot, r = Some snapshot -> sn_lifecycle snapshot = state (a_recorder s).
Proof.
  intros Hid Hm. unfold finish_admitted, apply_verified_admission_receipt. simpl negb.
  rewrite Hm. cbn [orb negb]. cbv zeta.
  set (s1 := s <| a_last_connected_vehicle := vehicle_identity_new (pv_platform_identifier operation) |>).
  assert (F : a_recorder s1 = a_recorder s /\ a_ride_id s1 = a_ride_id s) by by destruct s.
  clearbody s1. destruct F as [F1 F2].
  destruct (settle_admission_follows s1 operation receipt Hid)
    as (s4 & r & E4 & S4 & I4 & G4 & _ & N4 & L4).
  rewrite E4. exists s4, r. rewrite <- F1. split_ands; try done; congruence.
Qed.

(** ** What is begun *)

Lemma identity_stable platform identity :
  vehicle_identity_new platform = Some identity -> vehicle_identity_new identity = Some identity.
Proof.
  unfold vehicle_identity_new. case_bool_decide as E; [done|]. intros [= <-].
  rewrite trim_idem. by case_bool_decide.
Qed.

Lemma start_counter r k at_ candidate :
  0 < k -> k <= (start r k at_ candidate).1.2.
Proof.
  intros Hk. unfold start, next_recording_generation. destruct (negb _); [simpl; lia|].
  destruct (checked_add u64_max k 1) as [b|] eqn:E; [|simpl; lia].
  apply checked_add_Some in E as [_ ->]. case_bool_decide; simpl; lia.
Qed.

Lemma planned_discards_nothing s p ms (auto : bool)  updated_at identity now :
  planned s p ms (if auto then planned_events (a_recorder s) updated_at identity now else []) ->
  Forall (fun m => mutation_event m <> Discard) ms.
Proof.
  intros [H _ _ _]. assert (Forall (fun e => e <> Discard) (mutation_event <$> ms)) as Hf.
  { rewrite H. destruct auto; [|done]. unfold planned_events.
    destruct (state (a_recorder s)) as [[]|]; repeat case_match; by repeat constructor. }
  rewrite Forall_fmap in Hf. exact Hf.
Qed.

(** A plan that does anything ends in a running ride. *)
Definition ends_running (ms : list VerifiedConnectionLifecycleMutation) : Prop :=
  match mutation_event <$> last ms with Some (Resume | Start) | None => True | _ => False end.
Lemma planned_ends_running s p ms (auto : bool) updated_at identity now :
  planned s p ms (if auto then planned_events (a_recorder s) updated_at identity now else []) ->
  ends_running ms.
Proof.
  intros [H _ _ _]. unfold ends_running. rewrite <- fmap_last, H. destruct auto; [|done].
  unfold planned_events. destruct (state (a_recorder s)) as [[]|]; simpl; repeat case_match; done.
Qed.
Lemma apply_mutation_running s k operation receipt in_memory fresh_id m s' k' :
  apply_mutation s k operation receipt in_memory fresh_id m = (s', k', Ok tt) ->
  mutation_event m = Resume \/ mutation_event m = Start -> state (a_recorder s') = Some Active.
Proof.
  intros H Hm. destruct m as [ride event occurred at_|created at_ candidate policy]; simpl in *.
  - unfold apply_transition_mutation in H.
    destruct (state (a_recorder s)) as [current|]; [|done].
    destruct (transition current event) as [t|] eqn:Et; [|done]. cbv zeta in H.
    destruct (apply_transition_at (a_recorder s) t _) as [r [[]|]] eqn:E1; [|done].
    destruct (apply_transition_at (a_admission_recorder _) t _) as [r' [[]|]]; [|done].
    destruct (transition_result _ _ _ _ E1) as (_ & S1 & _).
    assert (next t = Active) as Hn
      by (unfold transition in Et; destruct Hm as [->| ->], current; by simplify_eq/=).
    rewrite <- Hn. injection H as <- _. case_bool_decide; by destruct s.
  - unfold apply_start_mutation in H. destruct (match rc_created_ride_id receipt with Some _ => _ | None => _ end);
      [|done].
    destruct (_ && _); [done|]. destruct (start _ _ _ _) as [[rec k1] [[]|]] eqn:E; [|done].
    destruct (start_requires _ _ _ _ _ _ E) as [_ [= Hrec _]]. injection H as <- _. by destruct s.
Qed.
Lemma apply_mutations_running s k operation receipt in_memory fresh_id ms s' k' :
  apply_mutations s k operation receipt in_memory fresh_id ms = (s', k', Ok tt) ->
  ends_running ms -> ms <> [] -> state (a_recorder s') = Some Active.
Proof.
  destruct ms as [|m ms _] using rev_ind; [done|]. unfold ends_running. rewrite last_snoc, apply_mutations_app.
  intros H Hm _. destruct (apply_mutations s k _ _ _ _ ms) as [[s1 k1] [[]|]]; [|done]. simpl in H.
  destruct (apply_mutation _ _ _ _ _ _ m) as [[s2 k2] [[]|]] eqn:E; [|done]. injection H as <- <-.
  eapply apply_mutation_running; [exact E|]. simpl in Hm. destruct (mutation_event m); auto; done.
Qed.

Section Begun.
Context (database : bool).

Lemma plan_admission_counter s k identity at_ generation policy now autostart selected :
  0 < k -> k <= (plan_admission database s k identity at_ generation policy now autostart selected).1.
Proof.
  intros Hk. unfold plan_admission. destruct (should_start_recording _ _ _ _ _) as [[]|]; try (simpl; lia).
  unfold plan_auto_recording. destruct (_ <-? _; _) as [[p ms]|]; [|simpl; lia].
  destruct (allows_replacement _); [|simpl; lia]. unfold preview_start_live.
  pose proof (start_counter (pr_recorder p) k at_ (vehicle_identity_new identity) Hk) as H.
  by destruct (start _ _ _ _) as [[r k1] [|]].
Qed.
(** Whether this connection may start or resume a recording by itself. *)
Definition automatic (s : RecordingState) (generation : Z) (identity : VehicleIdentity)
    (autostart : result bool StorageError) (selected_device : result (option text) StorageError)
  : bool :=
  match should_start_recording database
          (bool_decide (a_admission_generation s = Some generation)) identity autostart
          selected_device with
  | Ok b => b
  | Err _ => false
  end.
Lemma plan_admission_exact s k identity at_ generation policy now autostart selected k' p ms :
  plan_admission database s k identity at_ generation policy now autostart selected
    = (k', Ok (p, ms)) ->
  planned s p ms
    (if automatic s generation identity autostart selected
     then planned_events (a_recorder s) (a_recoverable_updated_at s) identity now else []).
Proof.
  unfold plan_admission, automatic. destruct (should_start_recording _ _ _ _ _) as [[]|]; [..|done].
  - destruct (plan_auto_recording _ _ _ _ _ _) as [k1 [[p1 ms1]|]] eqn:E; [|done].
    intros [= <- <- <-]. by apply plan_auto_recording_exact in E.
  - intros [= <- <- <-]. split; try done. by apply replays_nil.
Qed.

Record begun (s : RecordingState) (k : Z) (platform : text) (at_ generation : Z)
    (policy : MusicHistoryPolicy) (wall_clock : option Z) (autostart : result bool StorageError)
    (selected_device : result (option text) StorageError)
    (s' : RecordingState) (k' : Z) (o : PreparedVerifiedConnectionAdmission) : Prop := {
  bg_free : a_pending_command_id s = None;
  bg_state : s' = s <| a_next_command_id := a_next_command_id s + 1 |>
                    <| a_pending_command_id := Some (a_next_command_id s) |>;
  bg_lease : pv_lease o = Some (a_next_command_id s);
  bg_generation : pv_connection_generation o = generation;
  bg_identity : vehicle_identity_new platform = Some (pv_platform_identifier o);
  bg_plan : exists now p,
    (if database then wall_clock else Some 0) = Some now
    /\ planned s p (pv_selected_mutations o)
         (if automatic s generation (pv_platform_identifier o) autostart selected_device
          then planned_events (a_recorder s) (a_recoverable_updated_at s)
                 (pv_platform_identifier o) now
          else []);
}.
Lemma begin_admission_begun s k platform at_ generation policy wall_clock autostart selected queued :
  0 < k ->
  let '(s', k', r) := begin_verified_connection_admission database s k platform at_ generation
                        policy wall_clock autostart selected queued in
  k <= k' /\
  match r with
  | Err _ => s' = s
  | Ok o => if pv_immediate_noop o then s' = s
            else begun s k platform at_ generation policy wall_clock autostart selected s' k' o
  end.
Proof.
  intros Hk. unfold begin_verified_connection_admission.
  destruct (vehicle_identity_new platform) as [identity|] eqn:Hi; [|done].
  destruct (require_ready s); [|done]. destruct (_ && _); [done|].
  case_bool_decide as Hp; [done|].
  destruct (checked_add u64_max (a_next_command_id s) 1) as [following|] eqn:Ef; [|done].
  apply checked_add_Some in Ef as [_ ->].
  destruct (if database then wall_clock else Some 0) as [now|] eqn:Ew; [|done].
  pose proof (plan_admission_counter s k identity at_ generation policy now autostart selected Hk) as Hc.
  destruct (plan_admission _ _ _ _ _ _ _ _ _ _) as [k1 [[p ms]|]] eqn:E; [|done].
  apply plan_admission_exact in E. cbn zeta.
  destruct (awaited _ _); [|done]. split; [done|]. simpl pv_immediate_noop. cbv iota.
  split; try done; [by destruct (a_pending_command_id s); [destruct Hp|]|].
  by exists now, p.
Qed.
End Begun.
