(* ===== verification/RideOwner.v ===== *)
(** * The recording owner as a machine

    The operations of [RideRecording] as calls of one machine whose state also
    holds the prepared operations that callers have not finished, and what the
    owner guarantees: leases are exclusive, location writes are reported once,
    and in order unless a call slips in between the two locks of a finish, the recorder that admits samples is the durable one plus the
    points still being written, a lifecycle is published after its commit, and
    a verified connection does what was planned for it. *)

From Stdlib Require Import Sorted.
From S2P Require Import Prelude.
From S2P Require Import Quantities MovingTime ElapsedTime Text RideLocation RideRecorder RideRoute.
From S2P Require Import RideMotion RideRecovery MusicHistory RideRecording RideConnection.
Import Lifecycle.

Section Owner.
Context (database : bool) (great_circle : Coordinate -> Coordinate -> Z).
Context {Float : Type} (phone_speed : Float -> option Z).

(** ** The machine *)

(** A finish that takes the lock twice, between its two locked regions: the
    answer of the database, and with it the settled writes, are in hand. *)
Inductive Settled :=
| SettledTransition (operation : PreparedRideTransition) (committed : option Committed)
| SettledStop (operation : PreparedRideStop) (committed : option Committed)
| SettledConnection (operation : PreparedVerifiedConnectionAdmission)
    (outcome : option VerifiedConnectionAdmissionOutcome).
Inductive Operation :=
| OpRestore (operation : PreparedRideRestore)
| OpStart (operation : PreparedRideStart)
| OpTransition (operation : PreparedRideTransition)
| OpStop (operation : PreparedRideStop)
| OpConnection (operation : PreparedVerifiedConnectionAdmission)
| OpSettled (settled : Settled) (outcomes : list RideLocationWriteOutcome).
(** The operation as it was begun. *)
Definition begun_as (o : Operation) : Operation :=
  match o with
  | OpSettled (SettledTransition o _) _ => OpTransition o
  | OpSettled (SettledStop o _) _ => OpStop o
  | OpSettled (SettledConnection o _) _ => OpConnection o
  | o => o
  end.
(** Every operation that is held has a lease: a connection settled before is
    answered at once and not held. *)
Definition lease (o : Operation) : Z :=
  match begun_as o with
  | OpRestore o => po_lease o
  | OpStart o => ps_lease o
  | OpTransition o => pt_lease o
  | OpStop o => pp_lease o
  | OpConnection o => default 0 (pv_lease o)
  | OpSettled _ _ => 0
  end.
(** The settled writes that a finish has in hand. *)
Definition in_hand_of (o : Operation) : list RideLocationWriteOutcome :=
  match o with OpSettled _ outcomes => outcomes | _ => [] end.

(** What a finished operation is answered. *)
Record Answers := {
  an_policy : option RideRecoveryPolicy;
  an_restore : result RideRestoreSnapshot StorageError;
  an_committed : result Committed StorageError;
  an_settled : result (option Committed) StorageError;
  an_fence : bool;
  an_admission : result VerifiedConnectionAdmissionOutcome StorageError;
  an_ready : Z -> option (result LocationWriteResult StorageError);
  an_fresh_id : RideId;
}.

Inductive OwnerCall :=
| BeginRestore (queued : result unit StorageError)
| BeginStart (at_ : Z) (candidate : option VehicleIdentity)
    (policy : option MusicHistoryPolicy) (queued : result unit StorageError)
| BeginTransition (token : RecordingToken) (event : RideEvent) (at_ : Z)
    (telemetry_at : option Z) (queued : result unit StorageError)
| BeginStop (token : RecordingToken) (at_ : Z) (telemetry_at : option Z)
| BeginConnection (platform_identifier : text) (at_ connection_generation : Z)
    (policy : MusicHistoryPolicy) (wall_clock : option Z) (autostart : result bool StorageError)
    (selected_device : result (option text) StorageError)
    (queued : QueuedAdmission -> list VerifiedConnectionLifecycleMutation -> result unit StorageError)
| Finish (index : nat) (answers : Answers)
| DropOperation (index : nat)
| VehicleSpeed (speed : option Z) (source_at receipt_at generation : Z)
| PhoneSpeed (speed : option Float) (source_at generation : Z)
| RestoreMotionOf (motion : RideMotionObservation)
| Telemetry (at_ : Z) (speed : option RideVehicleSpeedSample)
    (vehicle : option VerifiedRideVehicle) (update : result MovingTimeCheckpoint StorageError)
| Locate (sample : LocationSample) (answers : LocationAnswers)
| Poll (ready : Z -> option (result LocationWriteResult StorageError))
| CheckpointReceipt (update : result MovingTimeCheckpoint StorageError)
| CheckpointWrites (fence : result unit StorageError)
    (ready : Z -> option (result LocationWriteResult StorageError))
| CheckpointAll (update : result MovingTimeCheckpoint StorageError)
    (fence : result unit StorageError)
    (ready : Z -> option (result LocationWriteResult StorageError)).

(** [Unlocked]: a finish goes on, with its first lock released. *)
Inductive OwnerReply :=
| Unlocked
| RefusedWith (e : RideRecordingError)
| ConnectionRefused (e : VerifiedConnectionAdmissionError)
| Done
| Prepared (id : Z)
| Finished (snapshot : RideRecordingSnapshot)
| LocationReply (r : result RideLocationAdmission RideLocationAdmissionFailure)
| Outcomes (l : list RideLocationWriteOutcome).

Record Owner := {
  ow_state : RecordingState;
  ow_counter : Z;
  ow_held : list Operation;
}.
Definition owner_new : Owner :=
  {| ow_state := application_new database; ow_counter := 1; ow_held := [] |}.

Definition held_after {A} (wrap : A -> Operation) (r : RecordingState * result A RideRecordingError)
    (w : Owner) : Owner * OwnerReply :=
  match r with
  | (s, Ok o) => ({| ow_state := s; ow_counter := ow_counter w; ow_held := ow_held w ++ [wrap o] |},
                  Prepared (lease (wrap o)))
  | (s, Err e) => ({| ow_state := s; ow_counter := ow_counter w; ow_held := ow_held w |},
                   RefusedWith e)
  end.
Definition state_after (s : RecordingState) (w : Owner) : Owner :=
  {| ow_state := s; ow_counter := ow_counter w; ow_held := ow_held w |}.

Definition replied (r : result RideRecordingSnapshot RideRecordingError) : OwnerReply :=
  match r with Ok snapshot => Finished snapshot | Err e => RefusedWith e end.
Definition connection_replied
    (r : result (option RideRecordingSnapshot) VerifiedConnectionAdmissionError) : OwnerReply :=
  match r with
  | Ok (Some snapshot) => Finished snapshot
  | Ok None => Done
  | Err e => ConnectionRefused e
  end.

(** What is left of a finish after its first lock. *)
Definition goes_on {A R} (settled : A -> Settled) (reply : R -> OwnerReply) (r : Awaited A R)
  : OwnerReply + Operation :=
  match r with
  | Returned r => inl (reply r)
  | GoesOn answer outcomes => inr (OpSettled (settled answer) outcomes)
  end.
(** The next locked region of a finish: the state, the counter, and the answer
    or what is left to do. *)
Definition finish (s : RecordingState) (counter : Z) (o : Operation) (answers : Answers)
  : RecordingState * Z * (OwnerReply + Operation) :=
  match o with
  | OpRestore o =>
      match an_policy answers with
      | None =>
          let '(s, counter, r) := finish_restore database s counter o (an_restore answers) in
          (s, counter, inl (replied r))
      | Some policy =>
          match finish_restore_with_policy database s counter o policy (an_restore answers)
                  (an_committed answers) (an_settled answers) with
          | (s, counter, Ok (snapshot, _)) => (s, counter, inl (Finished snapshot))
          | (s, counter, Err e) => (s, counter, inl (RefusedWith e))
          end
      end
  | OpStart o =>
      let '(s, counter, r) :=
        finish_start database s counter o (an_committed answers) (an_fresh_id answers) in
      (s, counter, inl (replied r))
  | OpTransition o =>
      let '(s, r) := await_transition database great_circle s o (an_committed answers)
                       (an_ready answers) in
      (s, counter, goes_on (SettledTransition o) replied r)
  | OpStop o =>
      let '(s, r) := await_stop database great_circle s o (an_fence answers) (an_committed answers)
                       (an_ready answers) in
      (s, counter, goes_on (SettledStop o) replied r)
  | OpConnection o =>
      let '(s, r) := await_admission database great_circle s o (an_admission answers)
                       (an_ready answers) in
      (s, counter, goes_on (SettledConnection o) connection_replied r)
  | OpSettled (SettledTransition o committed) outcomes =>
      let '(s, r) := publish_transition s o committed outcomes in (s, counter, inl (replied r))
  | OpSettled (SettledStop o committed) outcomes =>
      let '(s, r) := publish_stop s o committed outcomes in (s, counter, inl (replied r))
  | OpSettled (SettledConnection o outcome) outcomes =>
      let '(s, counter, r) :=
        publish_admission database s counter o outcome outcomes (an_fresh_id answers) in
      (s, counter, inl (connection_replied r))
  end.

Definition owner_step (w : Owner) (c : OwnerCall) : Owner * OwnerReply :=
  let s := ow_state w in
  match c with
  | BeginRestore queued => held_after OpRestore (begin_restore database s queued) w
  | BeginStart at_ candidate policy queued =>
      held_after OpStart (begin_start database s at_ candidate policy queued) w
  | BeginTransition token event at_ telemetry_at queued =>
      held_after OpTransition (begin_transition database s token event at_ telemetry_at queued) w
  | BeginStop token at_ telemetry_at =>
      held_after OpStop (begin_stop_after_music s token at_ telemetry_at) w
  | BeginConnection platform_identifier at_ connection_generation policy wall_clock autostart
      selected_device queued =>
      let '(s, counter, r) :=
        begin_verified_connection_admission database s (ow_counter w) platform_identifier at_
          connection_generation policy wall_clock autostart selected_device queued in
      let w := {| ow_state := s; ow_counter := counter; ow_held := ow_held w |} in
      match r with
      | Err e => (w, ConnectionRefused e)
      | Ok o =>
          if pv_immediate_noop o then (w, connection_replied (Ok (pv_immediate_snapshot o)))
          else ({| ow_state := s; ow_counter := counter;
                   ow_held := ow_held w ++ [OpConnection o] |}, Prepared (lease (OpConnection o)))
      end
  | Finish index answers =>
      match ow_held w !! index with
      | None => (w, Done)
      | Some o =>
          match finish s (ow_counter w) o answers with
          | (s, counter, inl r) =>
              ({| ow_state := s; ow_counter := counter; ow_held := delete index (ow_held w) |}, r)
          | (s, counter, inr rest) =>
              ({| ow_state := s; ow_counter := counter; ow_held := <[index := rest]> (ow_held w) |},
               Unlocked)
          end
      end
  | DropOperation index =>
      match ow_held w !! index with
      | None | Some (OpSettled _ _) => (w, Done)
      | Some o => ({| ow_state := release s (lease o); ow_counter := ow_counter w;
                      ow_held := delete index (ow_held w) |}, Done)
      end
  | VehicleSpeed speed source_at receipt_at generation =>
      (state_after (observe_verified_vehicle_speed s speed source_at receipt_at generation).1 w, Done)
  | PhoneSpeed speed source_at generation =>
      (state_after (observe_phone_gps_speed phone_speed s speed source_at generation).1 w, Done)
  | RestoreMotionOf motion => (state_after (app_restore_motion s motion) w, Done)
  | Telemetry at_ speed vehicle update =>
      let '(s, r) := app_observe_telemetry database s at_ speed vehicle update in
      (state_after s w, match r with Ok _ => Done | Err e => RefusedWith e end)
  | Locate sample answers =>
      let '(s, r) := admit_location database great_circle s sample answers in
      (state_after s w, LocationReply r)
  | Poll ready =>
      let '(s, outcomes) := settle_ready_location_writes great_circle s ready in
      (state_after s w, Outcomes outcomes)
  | CheckpointReceipt update =>
      let '(s, r) := checkpoint_telemetry_receipt database s update in
      (state_after s w, match r with Ok _ => Done | Err e => RefusedWith e end)
  | CheckpointWrites fence ready =>
      let '(s, r) := checkpoint_location_writes database great_circle s fence ready in
      (state_after s w, match r with Ok l => Outcomes l | Err e => RefusedWith e end)
  | CheckpointAll update fence ready =>
      let '(s, r) := app_checkpoint database great_circle s update fence ready in
      (state_after s w, match r with Ok l => Outcomes l | Err e => RefusedWith e end)
  end.

(** ** Settlement *)

(** What tells one stretch of a recording from another. *)
Definition generations (r : RideMapRecorder) : option Z * Z :=
  (recording_generation r, active_interval_generation r).
Lemma same_generations r r' :
  generations r = generations r' -> recording_generation r = recording_generation r'.
Proof. unfold generations. congruence. Qed.

(** The fields no settlement touches. *)
Definition frame (s : RecordingState) :=
  (a_ride_id s, a_generation s, a_pending_command_id s, a_next_location_request_id s,
   a_restore_phase s).

Lemma settle_one_frame s p answer :
  let s' := (settle_one great_circle s p answer).1 in
  frame s' = frame s /\ a_pending_locations s' = a_pending_locations s
  /\ a_settled_locations s' = a_settled_locations s
  /\ a_admission_recorder s' = a_admission_recorder s
  /\ generations (a_recorder s') = generations (a_recorder s)
  /\ state (a_recorder s') = state (a_recorder s).
Proof.
  unfold settle_one. destruct answer as [write|]; [|done]. destruct (_ && _); [|done].
  destruct (record_admitted great_circle (a_recorder s) (pl_admitted p)) as [r b] eqn:E.
  assert (Hr : generations r = generations (a_recorder s)
               /\ state r = state (a_recorder s)).
  { destruct b; [|by apply record_admitted_false in E as ->].
    apply record_admitted_true in E. destruct (recorded_same _ _ _ _ E) as (? & ? & ? & _).
    unfold generations. split; [congruence|done]. }
  destruct b, s; simpl; [|done].
  unfold publish_checkpoint, bump_revision. simpl. by destruct (_ || _).
Qed.

Lemma settle_front_frame s queue ready :
  let '(s', outcomes) := settle_front great_circle s queue ready in
  frame s' = frame s /\ a_settled_locations s' = a_settled_locations s
  /\ a_admission_recorder s' = a_admission_recorder s
  /\ generations (a_recorder s') = generations (a_recorder s)
  /\ state (a_recorder s') = state (a_recorder s)
  /\ exists done_, queue = done_ ++ a_pending_locations s'
     /\ Forall2 (fun p o => wo_request_id o = pl_request_id p /\ wo_ride_id o = pl_ride_id p
                            /\ wo_point o = pl_point p /\ wo_sequence o = pl_sequence p
                            /\ ready (pl_request_id p) = Some (wo_result o)) done_ outcomes.
Proof.
  revert s. induction queue as [|p queue IH]; intros s; simpl.
  - destruct s; simpl. split_ands; try done. by exists [].
  - destruct (ready (pl_request_id p)) as [answer|] eqn:Er.
    2:{ destruct s; simpl. split_ands; try done. by exists []. }
    pose proof (settle_one_frame (s <| a_pending_locations := queue |>) p answer) as Hone.
    destruct (settle_one great_circle _ p answer) as [s1 b]. cbv zeta in Hone. cbn [fst] in Hone.
    specialize (IH s1). destruct (settle_front great_circle s1 queue ready) as [s2 outcomes].
    destruct Hone as (F1 & _ & S1 & A1 & G1 & T1), IH as (F2 & S2 & A2 & G2 & T2 & done_ & Hq & Hall).
    assert (E : frame (s <| a_pending_locations := queue |>) = frame s
                /\ a_settled_locations (s <| a_pending_locations := queue |>) = a_settled_locations s
                /\ a_admission_recorder (s <| a_pending_locations := queue |>) = a_admission_recorder s
                /\ a_recorder (s <| a_pending_locations := queue |>) = a_recorder s)
      by by destruct s.
    destruct E as (E1 & E2 & E3 & E4). rewrite E4 in G1, T1.
    split_ands; try congruence. exists (p :: done_). split; [by rewrite Hq|]. by constructor.
Qed.

(** The queue of a state: what was settled and not reported, then what is
    still being written. *)
Record Ticket := { tk_id : Z; tk_ride_id : RideId; tk_point : RideMapPoint; tk_sequence : Z }.
Definition pending_ticket (p : PendingLocation) : Ticket :=
  {| tk_id := pl_request_id p; tk_ride_id := pl_ride_id p; tk_point := pl_point p;
     tk_sequence := pl_sequence p |}.
Definition outcome_ticket (o : RideLocationWriteOutcome) : Ticket :=
  {| tk_id := wo_request_id o; tk_ride_id := wo_ride_id o; tk_point := wo_point o;
     tk_sequence := wo_sequence o |}.
Definition waiting (s : RecordingState) : list Ticket :=
  (outcome_ticket <$> a_settled_locations s) ++ (pending_ticket <$> a_pending_locations s).
(** Those of an owner: a finish may have some in hand. *)
Definition in_hand (w : Owner) : list Ticket :=
  outcome_ticket <$> (ow_held w ≫= in_hand_of).
Definition tickets (w : Owner) : list Ticket := in_hand w ++ waiting (ow_state w).

Lemma settle_ready_frame s ready :
  let '(s', outcomes) := settle_ready_location_writes great_circle s ready in
  frame s' = frame s /\ a_settled_locations s' = []
  /\ generations (a_recorder s') = generations (a_recorder s)
  /\ state (a_recorder s') = state (a_recorder s)
  /\ a_admission_recorder s' = rebuilt great_circle (a_recorder s') (a_pending_locations s')
  /\ (outcome_ticket <$> outcomes) ++ waiting s' = waiting s
  /\ (exists done_, a_pending_locations s = done_ ++ a_pending_locations s').
Proof.
  unfold settle_ready_location_writes.
  pose proof (settle_front_frame (s <| a_settled_locations := [] |>) (a_pending_locations s) ready) as H.
  assert (E : frame (s <| a_settled_locations := [] |>) = frame s
              /\ a_settled_locations (s <| a_settled_locations := [] |>) = []
              /\ a_pending_locations (s <| a_settled_locations := [] |>) = a_pending_locations s
              /\ a_recorder (s <| a_settled_locations := [] |>) = a_recorder s) by by destruct s.
  destruct E as (E1 & E2 & E3 & E4). rewrite E3.
  destruct (settle_front great_circle _ (a_pending_locations s) ready) as [s1 outcomes].
  rewrite E1, E2, E4 in H. destruct H as (F & S & _ & G & T & done_ & Hq & Hall).
  unfold waiting. rewrite Hq. clear Hq E1 E2 E3 E4. destruct s1. simpl in *. rewrite S.
  split_ands; try done; [|by exists done_].
  rewrite !fmap_app, <- app_assoc. f_equal. simpl. f_equal.
  induction Hall as [|p o ps os (H1 & H2 & H3 & H4 & _) _ IH]; [done|].
  rewrite !fmap_cons. f_equal; [|exact IH]. unfold outcome_ticket, pending_ticket.
  by rewrite H1, H2, H3, H4.
Qed.

(** ** Recorders that hold the same route

    Two recorders that differ only in clocks, telemetry and segments to come. *)
Definition same_route (r r' : RideMapRecorder) : Prop :=
  route_view r = route_view r' /\ state r = state r'
  /\ generations r = generations r'.
#[global] Instance same_route_equiv : Equivalence same_route.
Proof.
  unfold same_route. split.
  - by intros r.
  - by intros r r' (H1 & H2 & H3).
  - intros r1 r2 r3 (H1 & H2 & H3) (H4 & H5 & H6). split_ands; by etransitivity.
Qed.
(** What recording a point depends on. *)
Definition settles_alike (r r' : RideMapRecorder) : Prop :=
  route_view r = route_view r' /\ accepts_settlement r = accepts_settlement r'
  /\ recording_generation r = recording_generation r'.

Lemma same_route_alike r r' : same_route r r' -> settles_alike r r'.
Proof.
  intros (Hv & Hs & Hg%same_generations). split; [done|]. unfold accepts_settlement.
  by rewrite Hs.
Qed.

#[global] Instance record_admitted_alike :
  Proper (settles_alike ==> eq ==> fun x y => settles_alike x.1 y.1 /\ x.2 = y.2)
    (record_admitted great_circle).
Proof.
  intros r1 r2 Hr a ? <-. pose proof Hr as (Hv & Hs & Hg).
  unfold record_admitted, record_admitted_sample.
  injection Hv as Hp Hf Hsum Hgap. unfold last_point. rewrite Hp, Hs, Hg.
  destruct (_ || _ || _); [by split|]. simpl. split; [|done]. destruct r1, r2. simpl in *. subst.
  by split_ands.
Qed.
#[global] Instance rebuilt_alike :
  Proper (settles_alike ==> eq ==> settles_alike) (rebuilt great_circle).
Proof.
  intros r1 r2 Hr queue ? <-. revert r1 r2 Hr. induction queue as [|p queue IH]; intros r1 r2 Hr;
    [done|]. simpl. apply IH. by apply (record_admitted_alike r1 r2 Hr _ _ eq_refl).
Qed.
Lemma record_admitted_state r a :
  state (record_admitted great_circle r a).1 = state r
  /\ generations (record_admitted great_circle r a).1 = generations r.
Proof.
  unfold record_admitted, generations.
  destruct (record_admitted_sample great_circle r a) as [r' []] eqn:E.
  - apply record_admitted_true in E. destruct (recorded_same _ _ _ _ E) as (? & ? & ? & _).
    split; [done|]. simpl. congruence.
  - by apply record_admitted_false in E as ->.
Qed.
Lemma rebuilt_state r queue :
  state (rebuilt great_circle r queue) = state r
  /\ generations (rebuilt great_circle r queue) = generations r.
Proof.
  revert r. induction queue as [|p queue IH]; intros r; [done|]. simpl.
  destruct (IH (record_admitted great_circle r (pl_admitted p)).1) as [-> ->].
  apply record_admitted_state.
Qed.

#[global] Instance rebuilt_proper :
  Proper (same_route ==> eq ==> same_route) (rebuilt great_circle).
Proof.
  intros r1 r2 H queue ? <-. pose proof H as (_ & Hs & Hg).
  destruct (rebuilt_alike r1 r2 (same_route_alike _ _ H) queue queue eq_refl) as (H1 & _ & _).
  destruct (rebuilt_state r1 queue) as [S1 G1], (rebuilt_state r2 queue) as [S2 G2].
  unfold same_route. split_ands; congruence.
Qed.

Lemma apply_same_route r t at_ r' :
  apply_transition_at r t at_ = (r', Ok tt) ->
  state r = Some (previous t) /\ route_view r' = route_view r /\ state r' = Some (next t)
  /\ recording_generation r' = recording_generation r.
Proof. intros H. by destruct (transition_result _ _ _ _ H) as (? & ? & ? & ? & _). Qed.
(** A recorder that takes no points has no point of its own in the queue. *)
Definition closed (r : RideMapRecorder) (queue : list PendingLocation) : Prop :=
  accepts_settlement r = false ->
  Forall (fun p => recording_generation r <> Some (ad_recording_generation (pl_admitted p))) queue.

Lemma closed_nil r : closed r [].
Proof. by intros _. Qed.
Lemma record_foreign r a :
  recording_generation r <> Some (ad_recording_generation a) ->
  record_admitted great_circle r a = (r, false).
Proof.
  intros H. unfold record_admitted, record_admitted_sample.
  rewrite (bool_decide_eq_false_2 (Some _ = _)) by congruence. simpl. by rewrite orb_true_r.
Qed.
Lemma rebuilt_foreign r queue :
  Forall (fun p => recording_generation r <> Some (ad_recording_generation (pl_admitted p))) queue ->
  rebuilt great_circle r queue = r.
Proof.
  induction 1 as [|p queue Hp _ IH]; [done|]. simpl. by rewrite record_foreign.
Qed.

Lemma event_keeps_open lifecycle event t :
  transition lifecycle event = Ok t -> event <> Discard ->
  match lifecycle with Active | Paused | Interrupted | Stopped | Saved => true | _ => false end = true ->
  match next t with Active | Paused | Interrupted | Stopped | Saved => true | _ => false end = true.
Proof. unfold transition. intros H. by destruct lifecycle, event; simpl in H; simplify_eq/=. Qed.

Lemma apply_closed r t event at_ r' queue :
  apply_transition_at r t at_ = (r', Ok tt) -> transition (previous t) event = Ok t ->
  event <> Discard -> closed r queue -> closed r' queue.
Proof.
  intros H Ht He Hcl Ha. destruct (apply_same_route _ _ _ _ H) as (S0 & _ & S1 & G).
  destruct (accepts_settlement r) eqn:Ea.
  - unfold accepts_settlement in *. rewrite S1 in Ha. rewrite S0 in Ea.
    by rewrite (event_keeps_open _ _ _ Ht He Ea) in Ha.
  - rewrite G. by apply Hcl.
Qed.
(** Two recorders of the same route stay so, if the second already holds the
    points the first is still to write. *)
Lemma apply_rebuilt r t event at1 at2 r' s s' queue :
  apply_transition_at r t at1 = (r', Ok tt) -> apply_transition_at s t at2 = (s', Ok tt) ->
  transition (previous t) event = Ok t -> event <> Discard ->
  same_route s (rebuilt great_circle r queue) -> closed r queue ->
  same_route s' (rebuilt great_circle r' queue).
Proof.
  intros H1 H2 Ht He (Hv & _ & Hg) Hcl.
  destruct (apply_same_route _ _ _ _ H1) as (S0 & V1 & S1 & G1).
  destruct (apply_same_route _ _ _ _ H2) as (_ & V2 & S2 & G2).
  destruct (rebuilt_state r' queue) as [S3 G3].
  assert (Hg' : generations s' = generations r').
  { rewrite (proj2 (rebuilt_state r queue)) in Hg. injection Hg as Hg Hi.
    pose proof (apply_interval _ _ _ _ H1) as I1. pose proof (apply_interval _ _ _ _ H2) as I2.
    unfold generations. f_equal; [congruence|]. rewrite Hi in I2. congruence. }
  unfold same_route. rewrite S3, G3. split_ands; [|congruence|done]. rewrite V2, Hv.
  destruct (accepts_settlement r) eqn:Ea.
  - assert (Ha : settles_alike r' r).
    { unfold settles_alike, accepts_settlement in *. split_ands; [done|rewrite S1, Ea|done].
      rewrite S0 in Ea. by eapply event_keeps_open. }
    by destruct (rebuilt_alike r' r Ha queue queue eq_refl) as (-> & _).
  - specialize (Hcl Ea). rewrite !rebuilt_foreign by (by rewrite ?G1). done.
Qed.

(** ** What an operation leaves alone *)

Record undisturbed (s s' : RecordingState) : Prop := {
  und_pending : a_pending_locations s' = a_pending_locations s;
  und_settled : a_settled_locations s' = a_settled_locations s;
  und_request : a_next_location_request_id s' = a_next_location_request_id s;
  und_ride : a_ride_id s' = a_ride_id s;
  und_recorder : same_route (a_recorder s') (a_recorder s);
  und_admission : same_route (a_admission_recorder s') (a_admission_recorder s);
}.
#[global] Instance undisturbed_preorder : PreOrder undisturbed.
Proof.
  split; [by intros s|]. intros s1 s2 s3 [] []. split; try congruence; by etransitivity.
Qed.
(** The same ride in the same lifecycle and interval. *)
Definition still (s s' : RecordingState) : Prop :=
  position (a_recorder s') = position (a_recorder s) /\ a_ride_id s' = a_ride_id s.
#[global] Instance still_preorder : PreOrder still.
Proof. split; [by intros s|]. intros s1 s2 s3 [] []. split; congruence. Qed.
Lemma same_route_position r r' : same_route r r' -> position r = position r'.
Proof. intros (_ & Hs & [= _ Hi]). unfold position. congruence. Qed.
Lemma undisturbed_still s s' : undisturbed s s' -> still s s'.
Proof. intros [_ _ _ Hr H _]. split; [by apply same_route_position|done]. Qed.
Lemma settled_still s ready : still s (settle_ready_location_writes great_circle s ready).1.
Proof.
  pose proof (settle_ready_frame s ready) as H.
  destruct (settle_ready_location_writes great_circle s ready) as [s' outcomes].
  destruct H as (F & _ & [= _ G] & T & _). split; [unfold position; simpl; congruence|].
  by injection F.
Qed.
Lemma undisturbed_waiting s s' : undisturbed s s' -> waiting s' = waiting s.
Proof. intros [H1 H2 _ _ _ _]. unfold waiting. by rewrite H1, H2. Qed.

Lemma release_undisturbed s id : undisturbed s (release s id).
Proof. unfold release. destruct (command_is_pending s id); [by destruct s|done]. Qed.
Lemma require_recovery_undisturbed s : undisturbed s (require_recovery s).
Proof. by destruct s. Qed.
Lemma command_storage_error_undisturbed s id e : undisturbed s (command_storage_error s id e).
Proof.
  unfold command_storage_error. destruct (command_is_pending s id); [|done].
  destruct (unknown_outcome e); by destruct s.
Qed.
Lemma bump_revision_undisturbed s : undisturbed s (RideRecording.bump_revision s).
Proof. by destruct s. Qed.
Lemma publish_checkpoint_undisturbed s id c : undisturbed s (publish_checkpoint s id c).
Proof. unfold publish_checkpoint. destruct (_ || _); [done|by destruct s]. Qed.

Lemma reserve_undisturbed s s' id :
  reserve_command_id s = Ok (s', id) ->
  undisturbed s s' /\ a_pending_command_id s' = a_pending_command_id s /\ id = a_next_command_id s.
Proof.
  unfold reserve_command_id. destruct (checked_add _ _ _); [|done]. simpl. intros [= <- <-].
  by destruct s.
Qed.

(** A begun operation: refused, or the only one pending. *)
Definition prepares (s s' : RecordingState) (prepared : option Z) : Prop :=
  undisturbed s s' /\
  match prepared with
  | Some id => a_pending_command_id s = None /\ a_pending_command_id s' = Some id
  | None => a_pending_command_id s' = a_pending_command_id s
  end.
Lemma claims_undisturbed s id (phase : RestorePhase) :
  undisturbed s (s <| a_pending_command_id := Some id |>)
  /\ undisturbed s (s <| a_pending_command_id := Some id |> <| a_restore_phase := phase |>)
  /\ a_pending_command_id (s <| a_pending_command_id := Some id |>) = Some id
  /\ a_pending_command_id (s <| a_pending_command_id := Some id |> <| a_restore_phase := phase |>)
     = Some id.
Proof. by destruct s. Qed.

Lemma begin_restore_prepares s queued :
  let '(s', r) := begin_restore database s queued in prepares s s' (po_lease <$> result_ok r).
Proof.
  unfold begin_restore. case_bool_decide as Hp; [done|].
  assert (a_pending_command_id s = None) by (destruct (a_pending_command_id s); [by destruct Hp|done]).
  destruct (reserve_command_id s) as [[s1 id]|] eqn:E; [|done].
  destruct (reserve_undisturbed _ _ _ E) as (U & P & _).
  destruct (claims_undisturbed s1 id PhasePending) as (_ & U2 & _ & P2).
  destruct (awaited database queued); simpl; [|done]. split; [by etransitivity|done].
Qed.
Lemma begin_start_prepares s at_ candidate policy queued :
  let '(s', r) := begin_start database s at_ candidate policy queued in
  prepares s s' (ps_lease <$> result_ok r).
Proof.
  unfold begin_start. destruct (require_ready s); [|done]. case_bool_decide as Hp; [done|].
  assert (a_pending_command_id s = None) by (destruct (a_pending_command_id s); [by destruct Hp|done]).
  destruct (negb _); [done|].
  destruct (reserve_command_id s) as [[s1 id]|] eqn:E; [|done].
  destruct (reserve_undisturbed _ _ _ E) as (U & P & _).
  destruct (claims_undisturbed s1 id PhasePending) as (U2 & _ & P2 & _).
  destruct (awaited database queued); simpl; [|done]. split; [by etransitivity|done].
Qed.
Lemma fenced_free s token event t :
  fenced_transition s token event = Ok t -> a_pending_command_id s = None
  /\ a_ride_id s = Some (rt_ride_id token) /\ a_generation s = rt_generation token
  /\ a_restore_phase s = PhaseReady
  /\ validate_transition (a_recorder s) event = Ok t.
Proof.
  unfold fenced_transition. unfold require_ready. destruct (a_restore_phase s); simpl; try done.
  case_bool_decide as Hp; [done|]. destruct (_ || _) eqn:E; [done|]. prop_bools.
  destruct (validate_transition _ _); [|done]. intros [= <-].
  destruct (a_pending_command_id s); [by destruct Hp|]. done.
Qed.
Lemma begin_transition_prepares s token event at_ telemetry_at queued :
  let '(s', r) := begin_transition database s token event at_ telemetry_at queued in
  prepares s s' (pt_lease <$> result_ok r).
Proof.
  unfold begin_transition. destruct (fenced_transition s token event) as [t|] eqn:Ef; [|done].
  destruct (fenced_free _ _ _ _ Ef) as (Hp & _).
  destruct (reserve_command_id s) as [[s1 id]|] eqn:E; [|done].
  destruct (reserve_undisturbed _ _ _ E) as (U & P & _).
  destruct (claims_undisturbed s1 id PhasePending) as (U2 & _ & P2 & _).
  destruct (awaited database queued); simpl; [|done]. split; [by etransitivity|done].
Qed.
Lemma begin_stop_prepares s token at_ telemetry_at :
  let '(s', r) := begin_stop_after_music s token at_ telemetry_at in
  prepares s s' (pp_lease <$> result_ok r).
Proof.
  unfold begin_stop_after_music. destruct (fenced_transition s token Stop) as [t|] eqn:Ef; [|done].
  destruct (fenced_free _ _ _ _ Ef) as (Hp & _).
  destruct (reserve_command_id s) as [[s1 id]|] eqn:E; [|done].
  destruct (reserve_undisturbed _ _ _ E) as (U & P & _).
  destruct (claims_undisturbed s1 id PhasePending) as (U2 & _ & P2 & _).
  simpl. split; [by etransitivity|done].
Qed.

(** An operation that is not a command. *)
Definition calm (s s' : RecordingState) : Prop :=
  undisturbed s s' /\ a_pending_command_id s' = a_pending_command_id s.
#[global] Instance calm_preorder : PreOrder calm.
Proof.
  split; [by intros s|]. intros s1 s2 s3 [] []. split; [by etransitivity|congruence].
Qed.
Lemma publish_checkpoint_calm s id c : calm s (publish_checkpoint s id c).
Proof.
  split; [apply publish_checkpoint_undisturbed|]. unfold publish_checkpoint.
  destruct (_ || _); [done|by destruct s].
Qed.
Lemma receipt_calm s receipt : calm s (s <| a_persisted_telemetry_receipt := receipt |>).
Proof. by destruct s. Qed.
Lemma bump_calm s : calm s (RideRecording.bump_revision s).
Proof. by destruct s. Qed.

Lemma vehicle_speed_calm s speed source_at receipt_at generation :
  calm s (observe_verified_vehicle_speed s speed source_at receipt_at generation).1.
Proof.
  unfold observe_verified_vehicle_speed. destruct (_ || _ || _ || _); [done|].
  destruct speed; [|done]. destruct (observe_verified_motion _ _ _ _). by destruct s.
Qed.
Lemma phone_speed_calm s speed source_at generation :
  calm s (observe_phone_gps_speed phone_speed s speed source_at generation).1.
Proof. unfold observe_phone_gps_speed. destruct (_ || _); [done|]. by destruct s. Qed.
Lemma restore_motion_calm s motion : calm s (app_restore_motion s motion).
Proof. by destruct s. Qed.

Lemma observe_telemetry_same r at_ : same_route (observe_telemetry r at_).1 r.
Proof.
  unfold observe_telemetry. destruct (negb (is_open r)); [done|].
  destruct (associated_at r); [|done]. destruct (_ || _); [done|]. case_bool_decide; [done|].
  destruct (match last_telemetry_at r with Some _ => _ | None => _ end); [done|]. by destruct r.
Qed.
Lemma mark_stationary_same r at_ : same_route (mark_stationary_boundary r at_) r.
Proof.
  unfold mark_stationary_boundary.
  destruct (match last_point r with Some _ => _ | None => _ end); [done|].
  destruct (match stationary_boundary_at r with Some _ => _ | None => _ end); [|done]. by destruct r.
Qed.
Lemma advance_clock_same r sample : same_route (advance_clock r sample) r.
Proof. by destruct r. Qed.

Lemma telemetry_calm s at_ speed vehicle update :
  calm s (app_observe_telemetry database s at_ speed vehicle update).1.
Proof.
  unfold app_observe_telemetry. destruct (require_ready s); [|done].
  pose proof (observe_telemetry_same (a_admission_recorder s) at_) as Ha.
  destruct (observe_telemetry (a_admission_recorder s) at_) as [staged observation]. simpl in Ha.
  destruct (stage_speed _ _ _ _ _ _) as [[staged_speed changed] latest].
  set (publishes := is_observed observation || changed).
  assert (Hd : same_route (if publishes then (observe_telemetry (a_recorder s) at_).1
                           else a_recorder s) (a_recorder s))
    by (destruct publishes; [apply observe_telemetry_same|done]).
  revert Hd. generalize (if publishes then (observe_telemetry (a_recorder s) at_).1
                         else a_recorder s). intros durable Hd.
  match goal with |- context [match ?stored with Ok _ => _ | Err _ => _ end] =>
    assert (Hs : forall s1, stored = Ok s1 -> calm s s1); [|destruct stored as [s1|]; [|done]]
  end.
  { intros s1. destruct (a_ride_id s) as [ride_id|]; [|by intros [= <-]].
    destruct (_ && _ && _); [|by intros [= <-]]. destruct update; [|done]. intros [= <-].
    etransitivity; [apply publish_checkpoint_calm|apply receipt_calm]. }
  specialize (Hs s1 eq_refl). simpl.
  assert (H1 : calm s (if publishes then RideRecording.bump_revision s1 else s1))
    by (destruct publishes; [etransitivity; [exact Hs|apply bump_calm]|done]).
  destruct H1 as [[] Hc]. split; [|by destruct (if publishes then _ else _)].
  destruct (if publishes then _ else _). by split.
Qed.
Lemma checkpoint_receipt_calm s update :
  calm s (checkpoint_telemetry_receipt database s update).1.
Proof.
  unfold checkpoint_telemetry_receipt. destruct (require_ready s); [|done].
  destruct (a_ride_id s) as [ride_id|]; [|done]. destruct (last_telemetry_at _); [|done].
  destruct (_ || _); [done|]. destruct update; [|done].
  etransitivity; [apply publish_checkpoint_calm|apply receipt_calm].
Qed.

(** ** The queue of writes *)

(** What a step does to the queue: [fresh] entered it, [reported] left it with
    an answer, [lost] left it without one. *)
Record moved (s s' : RecordingState) (reported fresh lost : list Ticket) : Prop := {
  mv_waiting : waiting s ++ fresh = reported ++ waiting s' ++ lost;
  mv_request : a_next_location_request_id s'
               = a_next_location_request_id s + Z.of_nat (length fresh);
  mv_fresh : fresh = [] \/ exists t, fresh = [t] /\ tk_id t = a_next_location_request_id s;
  mv_room : Z.of_nat (length (waiting s')) <= Z.max (Z.of_nat (length (waiting s)))
                                                MAX_PENDING_LOCATION_WRITES;
}.
Lemma undisturbed_moved s s' : undisturbed s s' -> moved s s' [] [] [].
Proof.
  intros U. split; rewrite ?(undisturbed_waiting _ _ U); simpl; rewrite ?app_nil_r; try done.
  - rewrite (und_request _ _ U). lia.
  - by left.
  - lia.
Qed.
Lemma moved_undisturbed s1 s2 s3 reported fresh lost :
  undisturbed s1 s2 -> moved s2 s3 reported fresh lost -> moved s1 s3 reported fresh lost.
Proof.
  intros U [H1 H2 H3 H4]. rewrite (undisturbed_waiting _ _ U), (und_request _ _ U) in *.
  by split.
Qed.
Lemma undisturbed_after_moved s1 s2 s3 reported fresh lost :
  moved s1 s2 reported fresh lost -> undisturbed s2 s3 -> moved s1 s3 reported fresh lost.
Proof.
  intros [H1 H2 H3 H4] U. split; rewrite ?(undisturbed_waiting _ _ U), ?(und_request _ _ U); done.
Qed.

(** ** The two recorders *)

Definition shadows (s : RecordingState) : Prop :=
  is_Some (a_ride_id s) ->
  same_route (a_admission_recorder s)
    (rebuilt great_circle (a_recorder s) (a_pending_locations s)).
Definition below (r : RideMapRecorder) (counter : Z) : Prop :=
  forall g, recording_generation r = Some g -> g < counter.
Record sound (s : RecordingState) (counter : Z) : Prop := {
  snd_shadows : shadows s;
  snd_counter : 0 < counter;
  snd_recorder : below (a_recorder s) counter;
  snd_admission : below (a_admission_recorder s) counter;
  snd_pending : Forall (fun p => ad_recording_generation (pl_admitted p) < counter)
                  (a_pending_locations s);
  snd_memory : database = false -> a_pending_locations s = [];
  snd_open : closed (a_recorder s) (a_pending_locations s);
}.

Lemma below_same r r' counter : same_route r r' -> below r' counter -> below r counter.
Proof. intros (_ & _ & Hg%same_generations) H g Hr. apply H. congruence. Qed.
Lemma below_rebuilt r counter queue : below r counter -> below (rebuilt great_circle r queue) counter.
Proof. intros H g Hg. apply H. by rewrite <- (same_generations _ _ (proj2 (rebuilt_state r queue))). Qed.
Lemma undisturbed_sound s s' counter : undisturbed s s' -> sound s counter -> sound s' counter.
Proof.
  intros [Hp _ _ Hr H1 H2] [Hs Hc Hb1 Hb2 Hq Hm Ho]. split; rewrite ?Hp; try done.
  - intros Hride. rewrite Hr in Hride. rewrite H2, H1, Hp. by apply Hs.
  - by eapply below_same.
  - by eapply below_same.
  - destruct H1 as (_ & E & G%same_generations). unfold closed, accepts_settlement in *. by rewrite E, G.
Qed.

Lemma settle_ready_sound s counter ready :
  sound s counter -> sound (settle_ready_location_writes great_circle s ready).1 counter.
Proof.
  intros [Hs Hc Hb1 Hb2 Hq Hm Ho]. pose proof (settle_ready_frame s ready) as H.
  destruct (settle_ready_location_writes great_circle s ready) as [s' outcomes].
  destruct H as (_ & _ & G & T & A & _ & done_ & Hd). simpl.
  pose proof (same_generations _ _ G) as G'.
  assert (Hb : below (a_recorder s') counter) by (intros g; rewrite G'; apply Hb1).
  split; try done.
  - intros _. by rewrite A.
  - rewrite A. by apply below_rebuilt.
  - rewrite Hd in Hq. by apply Forall_app in Hq as [_ ?].
  - intros Hdb. rewrite (Hm Hdb) in Hd. by destruct done_, (a_pending_locations s').
  - unfold closed, accepts_settlement in *. rewrite T, G'. intros E. specialize (Ho E).
    rewrite Hd in Ho. by apply Forall_app in Ho as [_ ?].
Qed.
Lemma settle_ready_moved s ready :
  let '(s', outcomes) := settle_ready_location_writes great_circle s ready in
  moved s s' (outcome_ticket <$> outcomes) [] []
  /\ a_pending_command_id s' = a_pending_command_id s.
Proof.
  pose proof (settle_ready_frame s ready) as H.
  destruct (settle_ready_location_writes great_circle s ready) as [s' outcomes].
  destruct H as (F & _ & _ & _ & _ & W & _). injection F as _ _ Hp Hn _. split; [|done].
  split; rewrite ?app_nil_r; try done; [simpl; lia|by left|].
  rewrite <- W, length_app. lia.
Qed.

(** Settled outcomes that wait for the next report. *)
Lemma retained s ready :
  let '(settled, outcomes) := settle_ready_location_writes great_circle s ready in
  let s' := settled <| a_settled_locations := a_settled_locations settled ++ outcomes |> in
  moved s s' [] [] [] /\ a_pending_command_id s' = a_pending_command_id s
  /\ a_pending_locations s' = a_pending_locations settled
  /\ a_recorder s' = a_recorder settled /\ a_admission_recorder s' = a_admission_recorder settled
  /\ still s s'
  /\ (forall counter, sound s counter -> sound s' counter).
Proof.
  pose proof (settle_ready_frame s ready) as H. pose proof (settle_ready_sound s) as Hsnd.
  specialize (fun c => Hsnd c ready). pose proof (settled_still s ready) as [Hst1 Hst2].
  destruct (settle_ready_location_writes great_circle s ready) as [s1 outcomes].
  destruct H as (F & S & _ & T & _ & W & _). injection F as Hr _ Hp Hn _. simpl in Hsnd.
  destruct s1. simpl in *. subst. unfold waiting in W. simpl in W.
  split_ands; try by unfold still.
  - split; unfold waiting; simpl; rewrite ?app_nil_r; try done; [lia|by left|].
    rewrite W. lia.
  - intros counter Hc. destruct (Hsnd counter Hc). by split.
Qed.
Lemma settle_front_all s queue answer :
  a_pending_locations (settle_front great_circle s queue (fun id => Some (answer id))).1 = [].
Proof.
  revert s. induction queue as [|p queue IH]; intros s; simpl; [by destruct s|].
  destruct (settle_one great_circle _ p (answer (pl_request_id p))) as [s1 b].
  specialize (IH s1). by destruct (settle_front great_circle s1 queue _).
Qed.
Lemma retain_settled_all s answer :
  a_pending_locations (retain_settled great_circle s (fun id => Some (answer id))) = [].
Proof.
  unfold retain_settled, settle_ready_location_writes.
  pose proof (settle_front_all (s <| a_settled_locations := [] |>)
    (a_pending_locations (s <| a_settled_locations := [] |>)) answer) as H.
  destruct (settle_front great_circle _ _ _) as [s1 outcomes]. simpl in H. by destruct s1.
Qed.

(** ** Admitting a location *)

(** The ticket a location was given. *)
Definition fresh_tickets (s : RecordingState)
    (r : result RideLocationAdmission RideLocationAdmissionFailure) : list Ticket :=
  match r, a_ride_id s with
  | Ok (Queued id point sequence), Some ride_id =>
      [{| tk_id := id; tk_ride_id := ride_id; tk_point := point; tk_sequence := sequence |}]
  | _, _ => []
  end.

(** What the parts of [admit_location] promise. *)
Definition located (s s' : RecordingState) (r : result RideLocationAdmission RideLocationAdmissionFailure)
  : Prop :=
  moved s s' [] (fresh_tickets s r) [] /\ a_pending_command_id s' = a_pending_command_id s
  /\ still s s' /\ forall counter, sound s counter -> sound s' counter.
Lemma calm_located s s' r : calm s s' -> fresh_tickets s r = [] -> located s s' r.
Proof.
  intros [U P] Hr. unfold located.
  split_ands; [rewrite Hr; by apply undisturbed_moved|done|by apply undisturbed_still|].
  intros counter. by apply undisturbed_sound.
Qed.

Lemma mark_known_stop_calm s sample : calm s (mark_known_stop s sample).
Proof.
  unfold mark_known_stop. destruct (if has_vehicle s then _ else _) as [at_|]; [|done].
  pose proof (mark_stationary_same (a_recorder s) at_).
  pose proof (mark_stationary_same (a_admission_recorder s) at_).
  destruct s. simpl in *. split; [by split|done].
Qed.

(** Both recorders become [recorder], with nothing left to write. *)
Lemma adopt_located s recorder r :
  a_pending_locations s = [] -> same_route recorder (a_recorder s) -> fresh_tickets s r = [] ->
  located s (adopt_recorder s recorder) r.
Proof.
  intros Hp Hsame Hr. unfold located, still. rewrite Hr.
  pose proof (same_route_position _ _ Hsame) as Hst.
  destruct s. simpl in *. subst. split_ands; try done.
  - split; simpl; rewrite ?app_nil_r; try done; [lia|by left|unfold waiting; simpl; lia].
  - intros counter [Hs Hc Hb1 Hb2 Hq Hm Ho]. simpl in *.
    split; simpl; try done; solve [apply closed_nil|by eapply below_same].
Qed.
Lemma recorder_located s recorder r :
  same_route recorder (a_recorder s) -> fresh_tickets s r = [] ->
  located s (s <| a_recorder := recorder |>) r.
Proof. intros Hsame Hr. apply calm_located; [|done]. destruct s. split; [by split|done]. Qed.

Lemma located_after s1 s2 s3 r :
  located s2 s3 r -> moved s1 s2 [] [] [] -> a_pending_command_id s2 = a_pending_command_id s1 ->
  still s1 s2 ->
  (forall counter, sound s1 counter -> sound s2 counter) -> located s1 s3 r.
Proof.
  intros (M & P & T & S) M1 P1 T1 S1. pose proof T1 as [_ R1].
  assert (Er : fresh_tickets s1 r = fresh_tickets s2 r) by (unfold fresh_tickets; by rewrite R1).
  unfold located. split_ands; [|congruence|by etransitivity|auto]. destruct M as [W N F R], M1 as [W1 N1 _ L1]. rewrite Er.
  simpl in *. rewrite ?app_nil_r in *. split; simpl; rewrite ?app_nil_r.
  - by rewrite W1.
  - lia.
  - destruct F as [F|(t & F & Ht)]; [by left|right]. exists t. split; [done|]. lia.
  - lia.
Qed.

Lemma observe_stationary_same r o : same_route (observe_stationary great_circle r o).1 r.
Proof.
  unfold observe_stationary. destruct (_ || _); [done|]. simpl.
  etransitivity; [apply mark_stationary_same|apply advance_clock_same].
Qed.
Lemma observe_clock_only_same r o : same_route (observe_clock_only great_circle r o).1 r.
Proof.
  unfold observe_clock_only. destruct (_ || _); [done|].
  destruct (classify_sample _ _ _); try done. apply advance_clock_same.
Qed.

Lemma admit_parked_located s sample answers :
  (database = false -> a_pending_locations s = []) ->
  let '(s', r) := admit_parked database great_circle s sample answers in located s s' r.
Proof.
  intros Hmem. unfold admit_parked.
  set (pending := database && _).
  destruct (if pending then la_fence answers else Ok tt); [|by apply calm_located].
  set (s1 := if pending then _ else s).
  assert (H1 : moved s s1 [] [] [] /\ a_pending_command_id s1 = a_pending_command_id s
               /\ still s s1
               /\ (forall counter, sound s counter -> sound s1 counter)
               /\ a_pending_locations s1 = []).
  { unfold s1. destruct pending eqn:Ep.
    - pose proof (retained s (fun id => Some (la_settled answers id))) as H.
      pose proof (retain_settled_all s (la_settled answers)) as Hall. unfold retain_settled in *.
      destruct (settle_ready_location_writes _ _ _) as [settled outcomes].
      destruct H as (H1 & H2 & _ & _ & _ & H3 & H4). by split_ands.
    - split_ands; try done; [by apply undisturbed_moved|]. unfold pending in Ep.
      destruct database; [|by apply Hmem]. simpl in Ep. prop_bools. by apply nil_length_inv. }
  destruct H1 as (M & P & T & S & E). clearbody s1.
  assert (Hdone : forall s' r, located s1 s' r -> located s s' r)
    by (intros; by eapply located_after).
  destruct (admit_stationary_sample great_circle (a_recorder s1) sample) as [observation|];
    [|by apply Hdone, calm_located].
  destruct (outcome_holds database (la_stationary answers)); [|by apply Hdone, calm_located].
  pose proof (observe_stationary_same (a_recorder s1) observation) as Hsame.
  destruct (observe_stationary great_circle (a_recorder s1) observation) as [recorder []];
    apply Hdone; [by apply adopt_located|by apply recorder_located].
Qed.

Lemma admit_clock_only_located s observation answers :
  a_pending_locations s = [] ->
  let '(s', r) := admit_clock_only database great_circle s observation answers in located s s' r.
Proof.
  intros Hp. unfold admit_clock_only. destruct (checked_sub _ _); [|by apply calm_located].
  destruct (outcome_holds database (la_clock answers)); [|by apply calm_located].
  pose proof (observe_clock_only_same (a_recorder s) observation) as Hsame.
  destruct (observe_clock_only great_circle (a_recorder s) observation) as [recorder []];
    [by apply adopt_located|by apply recorder_located].
Qed.

Lemma record_admitted_same r r' a :
  same_route r r' ->
  same_route (record_admitted great_circle r a).1 (record_admitted great_circle r' a).1.
Proof.
  intros H. pose proof H as (_ & Hs & Hg).
  destruct (record_admitted_alike r r' (same_route_alike _ _ H) a a eq_refl) as [(H1 & _ & _) _].
  destruct (record_admitted_state r a) as [S1 G1], (record_admitted_state r' a) as [S2 G2].
  unfold same_route. split_ands; congruence.
Qed.

Lemma location_decision_generation s counter sample admitted :
  sound s counter -> location_decision great_circle s sample = Record_ admitted ->
  ad_recording_generation admitted < counter.
Proof.
  intros [_ _ Hb1 Hb2 _ _ _]. unfold location_decision. case_bool_decide.
  - unfold classify_sample. destruct (admit_sample _ _ sample) as [a|] eqn:E; [|done].
    destruct (_ && _ && _); [done|]. intros [= <-].
    destruct (admit_sample_Ok _ _ _ _ E) as (_ & _ & Hg & _). by apply Hb1.
  - destruct (admit_sample _ _ sample) as [a|] eqn:E; [|done]. intros [= <-].
    destruct (admit_sample_Ok _ _ _ _ E) as (_ & _ & Hg & _). by apply Hb2.
Qed.

Lemma record_admitted_below r counter a :
  below r counter -> below (record_admitted great_circle r a).1 counter.
Proof.
  intros H g. rewrite (same_generations _ _ (proj2 (record_admitted_state r a))). by apply H.
Qed.

(** A point enters the queue and the admission recorder together. *)
Lemma queued_located s ride_id admitted point sequence request_id next recorder :
  a_ride_id s = Some ride_id -> request_id = a_next_location_request_id s ->
  next = request_id + 1 -> database = true ->
  record_admitted great_circle (a_admission_recorder s) admitted = (recorder, true) ->
  Z.of_nat (length (a_pending_locations s) + length (a_settled_locations s))
    < MAX_PENDING_LOCATION_WRITES ->
  (forall counter, sound s counter -> ad_recording_generation admitted < counter) ->
  located s
    (s <| a_next_location_request_id := next |>
       <| a_admission_recorder := recorder |>
       <| a_pending_locations := a_pending_locations s ++
            [{| pl_request_id := request_id; pl_ride_id := ride_id; pl_admitted := admitted;
                pl_point := point; pl_sequence := sequence |}] |>)
    (Ok (Queued request_id point sequence)).
Proof.
  intros Hr -> -> Hdb Ha Hroom Hg. unfold located, fresh_tickets. rewrite Hr.
  destruct s as [rec adm ride ? ? ? ? ? ? ? ? ? ? ? ? ? ? ? ? ? ? ? ? pend settled nreq ? ? ?]; simpl in *.
  split_ands; [|done|done|].
  - split; unfold waiting; simpl.
    + rewrite app_nil_r, fmap_app, <- app_assoc. done.
    + lia.
    + right. by eexists.
    + rewrite !length_app, !length_fmap, length_app. simpl. lia.
  - intros counter Hs. specialize (Hg counter Hs). destruct Hs as [Hs Hc Hb1 Hb2 Hq Hm Ho].
    simpl in *. split; simpl; try done.
    + intros Hride. specialize (Hs Hride). simpl in *. unfold rebuilt. rewrite foldl_app. simpl.
      pose proof (record_admitted_same _ _ admitted Hs) as H. by rewrite Ha in H.
    + pose proof (record_admitted_below _ _ admitted Hb2) as H. by rewrite Ha in H.
    + apply Forall_app. split; [done|]. by repeat constructor.
    + intros E. congruence.
    + intros E. exfalso. destruct (Hs (mk_is_Some _ _ Hr)) as (_ & Est & _). simpl in Est.
      rewrite (proj1 (rebuilt_state _ _)) in Est. unfold accepts_settlement in E.
      rewrite <- Est in E. unfold record_admitted in Ha. apply record_admitted_true in Ha.
      pose proof (recorded_open _ _ _ _ Ha) as Ho'. unfold accepts_settlement in Ho'. congruence.
Qed.

Lemma admit_point_located s ride_id sample admitted answers :
  a_ride_id s = Some ride_id ->
  (database = false -> a_pending_locations s = []) ->
  (forall counter, sound s counter -> ad_recording_generation admitted < counter) ->
  let '(s', r) := admit_point database great_circle s ride_id sample admitted answers in
  located s s' r.
Proof.
  intros Hr Hmem Hg. unfold admit_point. destruct (next_sample_metadata _ sample) as [[seg started] reason].
  destruct (checked_add u64_max (a_next_location_request_id s) 1) as [next|] eqn:En;
    [|by apply calm_located].
  apply checked_add_Some in En as [_ ->].
  destruct (record_admitted great_circle (a_admission_recorder s) admitted) as [adm []] eqn:Ea;
    [|by apply calm_located].
  destruct (negb database) eqn:Edb.
  - destruct database; [done|].
    destruct (record_admitted great_circle (a_recorder s) admitted) as [rec b] eqn:Er.
    destruct b.
    + unfold located, fresh_tickets. specialize (Hmem eq_refl).
      pose proof (record_admitted_state (a_recorder s) admitted) as [Hst [= _ Hi]].
      rewrite Er in Hst, Hi. destruct s. simpl in *. subst.
      split_ands; try (unfold still, position; simpl; split; congruence); try done.
      * split; simpl; rewrite ?app_nil_r; try done; [lia|by left|unfold waiting; simpl; lia].
      * intros counter [Hs Hc Hb1 Hb2 Hq Hm Ho]. simpl in *.
        pose proof (record_admitted_below _ _ admitted Hb1) as H. rewrite Er in H.
        split; simpl; solve [apply closed_nil|done].
    + unfold record_admitted in Er. apply record_admitted_false in Er as ->.
      by apply recorder_located.
  - case_bool_decide as Hfull; [by apply calm_located|].
    destruct (la_queue answers); [|by apply calm_located].
    apply queued_located; try done; [by destruct database|lia].
Qed.

Lemma admit_location_located s sample answers :
  (database = false -> a_pending_locations s = []) ->
  let '(s', r) := admit_location database great_circle s sample answers in located s s' r.
Proof.
  intros Hmem. unfold admit_location. destruct (require_ready s); [|by apply calm_located].
  destruct (a_ride_id s) as [ride_id|] eqn:Hr; [|by apply calm_located].
  destruct (_ && motion_history_retired_at _ _); [by apply calm_located|].
  pose proof (mark_known_stop_calm s sample) as [U P]. set (s1 := mark_known_stop s sample) in *.
  assert (Hdone : forall s' r, located s1 s' r -> located s s' r).
  { intros s' r H. eapply located_after; [exact H|by apply undisturbed_moved|done|by apply undisturbed_still|].
    intros counter. by apply undisturbed_sound. }
  assert (Hmem1 : database = false -> a_pending_locations s1 = [])
    by (rewrite (und_pending _ _ U); exact Hmem).
  assert (Hr1 : a_ride_id s1 = Some ride_id) by (rewrite (und_ride _ _ U); exact Hr).
  clearbody s1. destruct (_ && parked_at _ _).
  { pose proof (admit_parked_located s1 sample answers Hmem1) as H.
    destruct (admit_parked _ _ s1 sample answers). by apply Hdone. }
  destruct (location_decision great_circle s1 sample) as [admitted|observation|reason] eqn:Ed.
  - pose proof (admit_point_located s1 ride_id sample admitted answers Hr1 Hmem1) as H.
    destruct (admit_point _ _ s1 ride_id sample admitted answers). apply Hdone, H.
    intros counter Hs. by eapply location_decision_generation.
  - assert (Hp : a_pending_locations s1 = []).
    { unfold location_decision in Ed. case_bool_decide as Hl; [by apply nil_length_inv|].
      by destruct (admit_sample _ _ _). }
    pose proof (admit_clock_only_located s1 observation answers Hp) as H.
    destruct (admit_clock_only _ _ s1 observation answers). by apply Hdone.
  - apply Hdone. by apply calm_located.
Qed.

(** ** Finishing an operation *)

Definition finished (s : RecordingState) (counter : Z) (s' : RecordingState) (counter' : Z)
    (lost : list Ticket) : Prop :=
  a_pending_command_id s' = None /\ moved s s' [] [] lost
  /\ (sound s counter -> sound s' counter').

(** Both recorders were replaced by one of a new generation, or of none. *)
Record twinned (s : RecordingState) (counter : Z) (s' : RecordingState) (counter' : Z)
    (queue : list PendingLocation) : Prop := {
  tw_same : a_admission_recorder s' = a_recorder s';
  tw_fresh : forall g, recording_generation (a_recorder s') = Some g -> counter <= g < counter';
  tw_counter : counter <= counter';
  tw_settled : a_settled_locations s' = a_settled_locations s;
  tw_request : a_next_location_request_id s' = a_next_location_request_id s;
  tw_pending : a_pending_locations s' = queue;
  tw_command : a_pending_command_id s' = a_pending_command_id s;
}.

Lemma twinned_foreign s counter s' counter' queue :
  twinned s counter s' counter' queue ->
  Forall (fun p => ad_recording_generation (pl_admitted p) < counter) queue ->
  Forall (fun p => recording_generation (a_recorder s')
                   <> Some (ad_recording_generation (pl_admitted p))) queue.
Proof.
  intros T Hall. eapply Forall_impl; [exact Hall|]. simpl. intros p Hp E. apply (tw_fresh _ _ _ _ _ T) in E. lia.
Qed.
Lemma twinned_sound s counter s' counter' queue :
  twinned s counter s' counter' queue -> queue = a_pending_locations s \/ queue = [] ->
  sound s counter -> sound s' counter'.
Proof.
  intros T Hq [Hs Hc Hb1 Hb2 Hp Hm Ho]. pose proof T as [T1 T2 T3 T4 T5 T6 T7].
  assert (Hall : Forall (fun p => ad_recording_generation (pl_admitted p) < counter) queue)
    by (destruct Hq as [->| ->]; [done|constructor]).
  pose proof (twinned_foreign _ _ _ _ _ T Hall) as Hf.
  assert (Hb : below (a_recorder s') counter') by (intros g Hg; specialize (T2 g Hg); lia).
  split.
  - intros _. by rewrite T1, T6, rebuilt_foreign.
  - lia.
  - done.
  - by rewrite T1.
  - rewrite T6. eapply Forall_impl; [exact Hall|]. simpl. lia.
  - intros E. rewrite T6. destruct Hq as [->| ->]; [by apply Hm|done].
  - rewrite T6; by intros _.
Qed.
Lemma twinned_moved s counter s' counter' queue :
  twinned s counter s' counter' queue -> queue = a_pending_locations s \/ queue = [] ->
  exists lost, moved s s' [] [] lost /\ (queue = a_pending_locations s -> lost = []).
Proof.
  intros [T1 T2 T3 T4 T5 T6 T7] Hq.
  destruct (decide (length queue = length (a_pending_locations s))) as [El|El].
  - assert (queue = a_pending_locations s) as ->.
    { destruct Hq as [?| ->]; [done|]. by destruct (a_pending_locations s). }
    exists []. split; [|done]. split; unfold waiting; rewrite ?T4, ?T5, ?T6, ?app_nil_r; try done.
    + simpl. lia.
    + by left.
    + lia.
  - destruct Hq as [->| ->]; [done|]. exists (pending_ticket <$> a_pending_locations s).
    split; [|by intros <-; simpl in El].
    split; unfold waiting; rewrite ?T4, ?T5, ?T6; simpl; rewrite ?app_nil_r, ?length_app; try done.
    + lia.
    + by left.
    + lia.
Qed.

(** *** New recorders *)

Lemma next_generation_fresh counter g k :
  0 < counter -> next_recording_generation counter = (g, k) ->
  counter <= k /\ forall x, g = Some x -> counter <= x < k.
Proof.
  unfold next_recording_generation. intros Hc. destruct (checked_add u64_max counter 1) as [b|] eqn:E.
  - apply checked_add_Some in E as [_ ->]. rewrite bool_decide_eq_false_2 by lia.
    intros [= <- <-]. split; [lia|]. intros x [= <-]. lia.
  - intros [= <- <-]. split; [lia|done].
Qed.
Lemma restored_fresh counter ride route automatic r k :
  0 < counter -> restored_recorder counter ride route automatic = (r, k) ->
  counter <= k /\ forall g, recording_generation r = Some g -> counter <= g < k.
Proof.
  intros Hc. unfold restored_recorder, restored_with_summary_and_timing.
  destruct (next_recording_generation counter) as [g0 k0] eqn:E. intros [= <- <-]. simpl.
  by eapply next_generation_fresh.
Qed.
Lemma start_fresh r counter at_ candidate r' k :
  0 < counter -> start r counter at_ candidate = (r', k, Ok tt) ->
  counter <= k /\ forall g, recording_generation r' = Some g -> counter <= g < k.
Proof.
  intros Hc H. destruct (started_generation _ _ _ _ _ _ Hc H) as [-> ->].
  split; [lia|]. intros g [= <-]. lia.
Qed.
Lemma restored_observations_generation r ride :
  recording_generation (restored_observations r ride) = recording_generation r.
Proof.
  unfold restored_observations.
  set (r1 := match rr_motion ride ≫= mo_last_stationary with Some _ => _ | None => _ end).
  assert (E : recording_generation r1 = recording_generation r).
  { unfold r1. destruct (rr_motion ride ≫= mo_last_stationary) as [at_|]; [|done].
    apply same_generations, (mark_stationary_same r at_). }
  rewrite <- E. clearbody r1. destruct (rr_stationary ride) as [sample|].
  - unfold restore_stationary_observation. destruct (_ || _ || _ || _); [done|]. cbn [fst].
    destruct (mark_stationary_same (r1 <| latest_location_observation := Some sample |>)
                (monotonic sample)) as (_ & _ & ->%same_generations). by destruct r1.
  - destruct (rr_last_location_observation ride) as [[at_ wall]|]; [|done].
    unfold restore_location_observation. destruct (last_point r1); [|done].
    destruct (_ || _ || _); [done|]. by destruct r1.
Qed.

(** *** Restoration and start *)

Lemma restore_projection_twinned s counter snapshot automatic :
  0 < counter ->
  let '(s', counter') := restore_projection s counter snapshot automatic in
  twinned s counter s' counter' (a_pending_locations s).
Proof.
  intros Hc. unfold restore_projection. destruct (rs_ride snapshot) as [ride|].
  - destruct (restored_recorder counter ride (rs_route_points snapshot) automatic) as [r k] eqn:E.
    destruct (restored_fresh _ _ _ _ _ _ Hc E) as [Hk Hg].
    pose proof (restored_observations_generation r ride) as Ho.
    destruct s. split; simpl; try done. intros g. rewrite Ho. apply Hg.
  - destruct s. split; simpl; try done.
Qed.


(** An event applied to both recorders keeps them one. *)
Lemma resume_restored_twinned s k s1 k1 queue ride_id timing_last now answer :
  twinned s k s1 k1 queue ->
  twinned s k (resume_restored database s1 ride_id timing_last now answer).1 k1 queue.
Proof.
  intros T. unfold resume_restored. destruct (validate_transition (a_recorder s1) Resume) as [t|]; [|done].
  destruct (awaited database answer); [|done]. destruct (is_some_and _ _); [done|].
  pose proof T as [T1 T2 T3 T4 T5 T6 T7].
  destruct (apply_transition_at (a_recorder s1) t _) as [r' [[]|]] eqn:E.
  - destruct (apply_same_route _ _ _ _ E) as (_ & _ & _ & G).
    assert (E1 : a_admission_recorder (s1 <| a_recorder := r' |>) = a_recorder s1)
      by (destruct s1; exact T1). rewrite E1, E.
    destruct s1. simpl in *. split; simpl; try done. by rewrite G.
  - apply apply_transition_Err in E as ->. destruct s1. simpl in *. by split.
Qed.

Lemma applied_event_generation r event r' :
  applied_event r event = Ok r' -> recording_generation r' = recording_generation r.
Proof.
  unfold applied_event. destruct (validate_transition r event) as [t|]; [|done].
  unfold apply_transition. destruct (apply_transition_at r t _) as [r1 [[]|]] eqn:E; [|done].
  intros [= <-]. by destruct (apply_same_route _ _ _ _ E) as (_ & _ & _ & G).
Qed.
Lemma saved_recorder_generation r explicit recorded r' :
  saved_recorder r explicit recorded = Ok r' -> recording_generation r' = recording_generation r.
Proof.
  unfold saved_recorder. destruct (if explicit then None else recorded) as [d|].
  - unfold save_interrupted_at_recorded_duration. destruct (_ || _ || _); [done|].
    destruct (validate_transition r Save) as [t|]; [|done]. unfold apply_transition.
    destruct (apply_transition_at r t _) as [r1 [[]|]] eqn:E; [|done]. intros [= <-].
    destruct (apply_same_route _ _ _ _ E) as (_ & _ & _ & <-). by destruct r1.
  - destruct explicit; simpl.
    + destruct (applied_event r Stop) as [r1|] eqn:E1; [|done]. simpl. intros E2.
      apply applied_event_generation in E1, E2. congruence.
    + apply applied_event_generation.
Qed.
Lemma save_recovered_twinned s k s1 k1 queue explicit recorded :
  twinned s k s1 k1 queue ->
  twinned s k (save_recovered_projection s1 explicit recorded).1 k1 queue.
Proof.
  intros T. unfold save_recovered_projection. pose proof T as [T1 T2 T3 T4 T5 T6 T7]. rewrite T1.
  destruct (saved_recorder (a_recorder s1) explicit recorded) as [r'|] eqn:E; [|done].
  apply saved_recorder_generation in E. destruct s1. simpl in *. split; simpl; try done. by rewrite E.
Qed.

Lemma twinned_align s k s1 k1 queue context policy :
  twinned s k s1 k1 queue -> twinned s k (align_active s1 context policy) k1 queue.
Proof. intros []. destruct s1. simpl in *. by split. Qed.
Lemma twinned_forget s k s1 k1 queue recoverable :
  twinned s k s1 k1 queue ->
  twinned s k (s1 <| a_recoverable_updated_at := recoverable |>) k1 queue.
Proof. intros []. destruct s1. simpl in *. by split. Qed.
Lemma twinned_checkpoint s k s1 k1 queue checkpoint :
  twinned s k s1 k1 queue -> twinned s k (s1 <| a_checkpoint := checkpoint |>) k1 queue.
Proof. intros []. destruct s1. simpl in *. by split. Qed.
Lemma reset_twinned s k s1 k1 queue :
  twinned s k s1 k1 queue -> twinned s k (reset_after_recovery s1) k1 [].
Proof. intros []. destruct s1. simpl in *. by split. Qed.
Lemma start_replacement_twinned s k s1 k1 committed now candidate :
  0 < k -> twinned s k s1 k1 [] ->
  let '(s2, k2, _) := start_replacement s1 k1 committed now candidate in twinned s k s2 k2 [].
Proof.
  intros Hk T. unfold start_replacement. destruct (negb _); [done|].
  assert (Hk1 : 0 < k1) by (destruct T; lia).
  destruct (start recorder_new k1 now candidate) as [[r k2] [[]|]] eqn:E.
  - destruct (start_fresh _ _ _ _ _ _ Hk1 E) as [H1 H2]. destruct T, s1. simpl in *.
    split; simpl; try done; [|lia]. intros g Hg. specialize (H2 g Hg). lia.
  - assert (k1 <= k2).
    { unfold start, next_recording_generation in E. simpl in E.
      destruct (checked_add u64_max k1 1) as [b|] eqn:Ec; [|simplify_eq; lia].
      apply checked_add_Some in Ec as [_ ->]. destruct (bool_decide (k1 = 0)); simplify_eq; lia. }
    destruct T. split; try done; [|lia]. intros g Hg. specialize (tw_fresh0 g Hg). lia.
Qed.

Definition queue_kept (s : RecordingState) (queue : list PendingLocation) : Prop :=
  queue = a_pending_locations s \/ queue = [].

Lemma settle_stale_twinned s k s1 k1 queue context policy answer :
  0 < k -> twinned s k s1 k1 queue -> queue_kept s queue ->
  let '(s2, k2, _) := settle_stale database s1 k1 context policy answer in
  exists queue', twinned s k s2 k2 queue' /\ queue_kept s queue'.
Proof.
  intros Hk T Hq. unfold settle_stale. destruct (awaited database answer) as [a|]; [|by exists queue].
  set (s2 := s1 <| a_recoverable_updated_at := None |>).
  assert (T2 : twinned s k s2 k1 queue) by by apply twinned_forget.
  clearbody s2. destruct (mjoin a) as [c|].
  - destruct (negb _).
    { pose proof (start_replacement_twinned s k (reset_after_recovery s2) k1 c
        (po_monotonic_now policy)
        (identity ← rc_last_connected_vehicle context;
         if po_autostart_enabled policy && bool_decide (po_selected_vehicle policy = Some identity)
         then Some identity else None) Hk (reset_twinned _ _ _ _ _ T2)) as H.
      destruct (start_replacement _ _ _ _ _) as [[s3 k3] [[]|]]; exists []; split; try done; by right. }
    destruct (_ && _); [exists []; split; [by eapply reset_twinned|by right]|].
    pose proof (save_recovered_twinned _ _ _ _ _ (rc_explicit_pause context)
      (rc_recorded_duration context) (twinned_checkpoint _ _ _ _ _ (Some (cm_checkpoint c)) T2)) as H.
    destruct (save_recovered_projection _ _ _) as [s3 [[]|]]; by exists queue.
  - destruct (_ && _); [exists []; split; [by eapply reset_twinned|by right]|].
    pose proof (save_recovered_twinned _ _ _ _ _ (rc_explicit_pause context)
      (rc_recorded_duration context) T2) as H.
    destruct (save_recovered_projection _ _ _) as [s3 [[]|]]; by exists queue.
Qed.

Lemma apply_recovery_twinned s k s1 k1 queue context policy transition_answer settle_answer :
  0 < k -> twinned s k s1 k1 queue -> queue_kept s queue ->
  let '(s2, k2, _) := apply_recovery database s1 k1 context policy transition_answer settle_answer in
  exists queue', twinned s k s2 k2 queue' /\ queue_kept s queue'.
Proof.
  intros Hk T Hq. unfold apply_recovery. case_bool_decide.
  { destruct (negb _); exists queue; split; try done. by apply twinned_align. }
  destruct (negb _); [by exists queue|].
  destruct (ride_recovery_decision _ _ _); [|by exists queue|by apply settle_stale_twinned with queue].
  destruct (negb _); [|by exists queue].
  pose proof (resume_restored_twinned s k s1 k1 queue (rc_ride_id context) (rc_timing_last context)
    (po_monotonic_now policy) transition_answer T) as Hres.
  destruct (resume_restored _ _ _ _ _ _) as [s2 [[]|]]; exists queue; split; try done.
  by apply twinned_forget.
Qed.

(** The last step of a restoration. *)
Lemma twinned_finished s k s1 k1 queue (phase : RestorePhase) :
  twinned s k s1 k1 queue -> queue_kept s queue ->
  exists lost,
    finished s k (s1 <| a_restore_phase := phase |> <| a_pending_command_id := None |>) k1 lost
    /\ (queue = a_pending_locations s -> lost = []).
Proof.
  intros T Hq. destruct (twinned_moved _ _ _ _ _ T Hq) as (lost & M & Hl). exists lost.
  split; [|done]. assert (U : undisturbed s1
    (s1 <| a_restore_phase := phase |> <| a_pending_command_id := None |>)) by by destruct s1.
  unfold finished. split_ands; [by destruct s1|by eapply undisturbed_after_moved|].
  intros Hs. eapply undisturbed_sound; [exact U|]. by eapply twinned_sound.
Qed.
Lemma twinned_released s k s1 k1 queue id :
  a_pending_command_id s = Some id -> twinned s k s1 k1 queue -> queue_kept s queue ->
  exists lost, finished s k (release s1 id) k1 lost
    /\ (queue = a_pending_locations s -> lost = []).
Proof.
  intros Hid T Hq. destruct (twinned_moved _ _ _ _ _ T Hq) as (lost & M & Hl). exists lost.
  split; [|done]. pose proof (release_undisturbed s1 id) as U.
  assert (Hc : a_pending_command_id s1 = Some id) by (rewrite (tw_command _ _ _ _ _ T); done).
  unfold finished. split_ands; [|by eapply undisturbed_after_moved|].
  - unfold release, command_is_pending. rewrite bool_decide_eq_true_2 by done. by destruct s1.
  - intros Hs. eapply undisturbed_sound; [exact U|]. by eapply twinned_sound.
Qed.
(** An operation that changed nothing but its own lease. *)
Lemma undisturbed_finished s k s' :
  undisturbed s s' -> a_pending_command_id s' = None -> finished s k s' k [].
Proof.
  intros U P. unfold finished. split_ands; [done|by apply undisturbed_moved|]. by apply undisturbed_sound.
Qed.
Lemma release_command s id :
  a_pending_command_id s = Some id -> a_pending_command_id (release s id) = None.
Proof.
  intros H. unfold release, command_is_pending. rewrite bool_decide_eq_true_2 by done. by destruct s.
Qed.
Lemma storage_error_finished s k id e :
  a_pending_command_id s = Some id ->
  finished s k (release (command_storage_error s id e) id) k [].
Proof.
  intros H. apply undisturbed_finished.
  - etransitivity; [apply command_storage_error_undisturbed|apply release_undisturbed].
  - unfold release, command_storage_error, command_is_pending.
    rewrite (bool_decide_eq_true_2 (a_pending_command_id s = Some id)) by done.
    destruct (unknown_outcome e), s; simpl; try case_bool_decide; done.
Qed.
Lemma recovery_finished s k : finished s k (require_recovery s) k [].
Proof. apply undisturbed_finished; [apply require_recovery_undisturbed|by destruct s]. Qed.

Lemma finish_restore_finished s k o answer :
  0 < k -> a_pending_command_id s = Some (po_lease o) ->
  let '(s', k', _) := finish_restore database s k o answer in finished s k s' k' [].
Proof.
  intros Hk Hp. unfold finish_restore. destruct (awaited database answer) as [snapshot|e].
  2:{ apply undisturbed_finished; [apply release_undisturbed|by apply release_command]. }
  unfold command_is_pending. rewrite bool_decide_eq_true_2 by done. simpl.
  case_bool_decide; [apply recovery_finished|].
  set (restored := match snapshot with Some _ => _ | None => _ end).
  assert (T : twinned s k restored.1 restored.2 (a_pending_locations s)).
  { unfold restored. destruct snapshot as [snapshot|].
    - pose proof (restore_projection_twinned s k snapshot false Hk) as H0.
      by destruct (restore_projection s k snapshot false).
    - destruct s. by split. }
  destruct restored as [s1 k1]. simpl in T.
  destruct (twinned_finished _ _ _ _ _ PhaseReady T) as (lost & F & Hl); [by left|].
  by rewrite (Hl eq_refl) in F.
Qed.
Lemma finish_restore_policy_finished s k o policy answer transition_answer settle_answer :
  0 < k -> a_pending_command_id s = Some (po_lease o) ->
  let '(s', k', _) := finish_restore_with_policy database s k o policy answer transition_answer
                        settle_answer in
  exists lost, finished s k s' k' lost.
Proof.
  intros Hk Hp. unfold finish_restore_with_policy. destruct (awaited database answer) as [restored|e].
  2:{ exists []. apply undisturbed_finished; [apply release_undisturbed|by apply release_command]. }
  unfold command_is_pending. rewrite bool_decide_eq_true_2 by done. simpl.
  case_bool_decide; [exists []; apply recovery_finished|].
  set (projected := match restored with Some _ => _ | None => _ end).
  assert (T : exists queue, twinned s k projected.1 projected.2 queue /\ queue_kept s queue).
  { unfold projected. destruct restored as [snapshot|].
    - pose proof (restore_projection_twinned s k snapshot (po_enabled policy) Hk) as H0.
      destruct (restore_projection s k snapshot _). exists (a_pending_locations s). split; [done|by left].
    - exists []. split; [|by right]. destruct s. by split. }
  destruct T as (queue & T & Hq). destruct projected as [s1 k1]. simpl in T.
  set (recovered := match restored ≫= recovery_context with Some _ => _ | None => _ end).
  assert (T2 : exists queue', twinned s k recovered.1.1 recovered.1.2 queue' /\ queue_kept s queue').
  { unfold recovered. destruct (restored ≫= recovery_context) as [context|]; [|by exists queue].
    pose proof (apply_recovery_twinned s k s1 k1 queue context policy transition_answer settle_answer
      Hk T Hq) as H0. by destruct (apply_recovery _ _ _ _ _ _ _) as [[s2 k2] r]. }
  destruct T2 as (queue' & T2 & Hq'). destruct recovered as [[s2 k2] [disposition|e]]; simpl in T2.
  - destruct (twinned_finished _ _ _ _ _ PhaseReady T2 Hq') as (lost & F & _). by exists lost.
  - destruct (twinned_released _ _ _ _ _ _ Hp T2 Hq') as (lost & F & _). by exists lost.
Qed.

Lemma finish_start_finished s k o answer fresh_id :
  0 < k -> a_pending_command_id s = Some (ps_lease o) ->
  let '(s', k', _) := finish_start database s k o answer fresh_id in finished s k s' k' [].
Proof.
  intros Hk Hp. unfold finish_start. destruct (awaited database answer) as [committed|e];
    [|by apply storage_error_finished].
  unfold command_is_pending. rewrite bool_decide_eq_true_2 by done. simpl.
  destruct (is_some_and committed _); [apply recovery_finished|].
  destruct (start (a_recorder s) k (ps_at o) (ps_candidate_vehicle o)) as [[r k1] [[]|e]] eqn:E.
  - destruct (start_fresh _ _ _ _ _ _ Hk E) as [H1 H2].
    set (s1 := bump_generation _).
    assert (T : twinned s k s1 k1 (a_pending_locations s)) by (unfold s1; destruct s; by split).
    clearbody s1. destruct (twinned_finished _ _ _ _ _ (a_restore_phase s1) T) as (lost & F & Hl);
      [by left|].
    rewrite (Hl eq_refl) in F.
    assert (E1 : s1 <| a_restore_phase := a_restore_phase s1 |> <| a_pending_command_id := None |>
                 = s1 <| a_pending_command_id := None |>) by by destruct s1.
    by rewrite E1 in F.
  - assert (r = a_recorder s /\ (0 < k1 /\ k <= k1)) as [-> Hk1].
    { unfold start, next_recording_generation in E. destruct (negb _); [by simplify_eq|].
      destruct (checked_add u64_max k 1) as [b|] eqn:Ec; [|by simplify_eq].
      apply checked_add_Some in Ec as [_ ->]. destruct (bool_decide (k = 0)); simplify_eq.
      split_ands; done || lia. }
    assert (U : undisturbed s (require_recovery (s <| a_recorder := a_recorder s |>))) by by destruct s.
    unfold finished. split_ands; [by destruct s|by apply undisturbed_moved|].
    intros Hs. destruct (undisturbed_sound _ _ _ U Hs) as [Hs1 Hc Hb1 Hb2 Hq Hm Ho].
    split; try done; [lia| | |].
    + intros g Hg. specialize (Hb1 g Hg). lia.
    + intros g Hg. specialize (Hb2 g Hg). lia.
    + eapply Forall_impl; [exact Hq|]. simpl. lia.
Qed.

(** A step of a transition that touches neither the queue nor a recorder. *)
Lemma bookkeeping_undisturbed s ride_id receipt committed :
  undisturbed s (note_receipt s ride_id receipt)
  /\ undisturbed s (reject_contradiction s committed)
  /\ a_pending_command_id (reject_contradiction s committed) = None
  /\ a_recorder (note_receipt s ride_id receipt) = a_recorder s
  /\ a_admission_recorder (note_receipt s ride_id receipt) = a_admission_recorder s.
Proof. by destruct receipt, committed, s. Qed.

Lemma moved_finished s k s1 s' k' lost :
  moved s s1 [] [] [] -> (sound s k -> sound s1 k) ->
  finished s1 k s' k' lost -> finished s k s' k' lost.
Proof.
  intros M S (P & M' & S'). unfold finished. split_ands; [done| |auto].
  destruct M as [W N _ L], M' as [W' N' F' L']. simpl in *. rewrite ?app_nil_r in *.
  split; simpl; rewrite ?app_nil_r; try done; [by rewrite W|lia|by left|lia].
Qed.

(** Both recorders made the same step; without a ride only the durable one
    counts. *)
Lemma advanced_sound s s' k t event at_ r :
  apply_transition_at (a_recorder s) t at_ = (r, Ok tt) ->
  transition (previous t) event = Ok t -> event <> Discard ->
  (exists at_ r', apply_transition_at (a_admission_recorder s) t at_ = (r', Ok tt)
                  /\ a_admission_recorder s' = r')
  \/ a_ride_id s = None /\ a_admission_recorder s' = a_admission_recorder s ->
  a_recorder s' = r -> a_ride_id s' = a_ride_id s ->
  a_pending_locations s' = a_pending_locations s -> sound s k -> sound s' k.
Proof.
  intros H1 Ht He Hadm E1 Er E3 [Hs Hc Hb1 Hb2 Hq Hm Ho].
  destruct (apply_same_route _ _ _ _ H1) as (_ & _ & _ & G1).
  assert (Hb : below (a_recorder s') k) by (rewrite E1; intros g; rewrite G1; apply Hb1).
  split; rewrite ?E3; try done.
  - intros Hride. rewrite Er in Hride.
    destruct Hadm as [(at2 & r' & H2 & ->)|[E _]]; [|rewrite E in Hride; by destruct Hride].
    rewrite E1, E3. eapply apply_rebuilt; try done. by apply Hs.
  - destruct Hadm as [(at2 & r' & H2 & ->)|[_ ->]]; [|done].
    destruct (apply_same_route _ _ _ _ H2) as (_ & _ & _ & G2). intros g. rewrite G2. apply Hb2.
  - rewrite E1. by eapply apply_closed.
Qed.
Lemma advanced_finished s s' k t event at1 at2 r r' :
  apply_transition_at (a_recorder s) t at1 = (r, Ok tt) ->
  apply_transition_at (a_admission_recorder s) t at2 = (r', Ok tt) ->
  transition (previous t) event = Ok t -> event <> Discard ->
  a_recorder s' = r -> a_admission_recorder s' = r' -> a_ride_id s' = a_ride_id s ->
  a_pending_locations s' = a_pending_locations s -> a_settled_locations s' = a_settled_locations s ->
  a_next_location_request_id s' = a_next_location_request_id s ->
  a_pending_command_id s' = None -> finished s k s' k [].
Proof.
  intros H1 H2 Ht He E1 E2 Er E3 E4 E5 E6. unfold finished. split_ands; [done| |].
  - split; unfold waiting; rewrite ?E3, ?E4, ?E5; simpl; rewrite ?app_nil_r; try done;
      [lia|by left|lia].
  - eapply advanced_sound; try done. left. by exists at2, r'.
Qed.

(** A discard forgets the ride and what was still to be written for it. *)
Lemma discarded_finished s s' k r r' t at1 at2 :
  apply_transition_at (a_recorder s) t at1 = (r, Ok tt) ->
  apply_transition_at (a_admission_recorder s) t at2 = (r', Ok tt) ->
  a_recorder s' = r -> a_admission_recorder s' = r' -> a_ride_id s' = None ->
  a_pending_locations s' = [] -> a_settled_locations s' = a_settled_locations s ->
  a_next_location_request_id s' = a_next_location_request_id s ->
  a_pending_command_id s' = None ->
  finished s k s' k (pending_ticket <$> a_pending_locations s).
Proof.
  intros H1 H2 E1 E2 Er E3 E4 E5 E6. unfold finished. split_ands; [done| |].
  - split; unfold waiting; rewrite ?E3, ?E4, ?E5; simpl; rewrite ?app_nil_r, ?length_app; try done;
      [lia|by left|lia].
  - intros [Hs Hc Hb1 Hb2 Hq Hm Ho].
    destruct (apply_same_route _ _ _ _ H1) as (_ & _ & _ & G1).
    destruct (apply_same_route _ _ _ _ H2) as (_ & _ & _ & G2).
    split; rewrite ?E1, ?E2, ?E3; try done.
    + intros Hride. rewrite Er in Hride. by destruct Hride.
    + intros g. rewrite G1. apply Hb1.
    + intros g. rewrite G2. apply Hb2.
    + apply closed_nil.
Qed.

Definition valid_operation (o : Operation) : Prop :=
  match begun_as o with
  | OpTransition o => transition (previous (pt_transition o)) (pt_event o) = Ok (pt_transition o)
  | OpStop o => transition (previous (pp_transition o)) Stop = Ok (pp_transition o)
  | OpConnection o =>
      pv_immediate_noop o = false /\ is_Some (pv_lease o)
      /\ is_Some (vehicle_identity_new (pv_platform_identifier o))
      /\ Forall (fun m => mutation_event m <> Discard) (pv_selected_mutations o)
      /\ ends_running (pv_selected_mutations o)
  | _ => True
  end.

Lemma contradicts_false s ride_id t committed :
  contradicts s ride_id t committed = false ->
  a_ride_id s = Some ride_id
  /\ forall c, committed = Some c -> cm_ride_id c = ride_id /\ cm_lifecycle c = next t.
Proof.
  unfold contradicts. intros H. prop_bools. split; [done|]. intros c ->. simpl in *. by prop_bools.
Qed.

(** What a finish does with the writes it has in hand. *)
Lemma extend_settled_fields s outcomes :
  let s' := extend_settled s outcomes in
  a_recorder s' = a_recorder s /\ a_admission_recorder s' = a_admission_recorder s
  /\ a_ride_id s' = a_ride_id s /\ a_pending_command_id s' = a_pending_command_id s
  /\ a_pending_locations s' = a_pending_locations s
  /\ a_settled_locations s' = a_settled_locations s ++ outcomes
  /\ a_next_location_request_id s' = a_next_location_request_id s.
Proof. by destruct s. Qed.
Lemma extend_settled_sound s k outcomes : sound s k -> sound (extend_settled s outcomes) k.
Proof. destruct s. by intros []. Qed.
Lemma settled_waiting s ready :
  let '(s', outcomes) := settle_ready_location_writes great_circle s ready in
  a_settled_locations s' = [] /\ a_pending_command_id s' = a_pending_command_id s
  /\ a_next_location_request_id s' = a_next_location_request_id s
  /\ waiting s = (outcome_ticket <$> outcomes) ++ waiting s'.
Proof.
  pose proof (settle_ready_frame s ready) as H.
  destruct (settle_ready_location_writes great_circle s ready) as [s' outcomes].
  destruct H as (F & S & _ & _ & _ & W & _). by injection F.
Qed.

(** The first locked region of a finish. *)
Record unlocked (s s' : RecordingState) (outcomes : list RideLocationWriteOutcome) : Prop := {
  ul_settled : a_settled_locations s' = [];
  ul_command : a_pending_command_id s' = a_pending_command_id s;
  ul_request : a_next_location_request_id s' = a_next_location_request_id s;
  ul_waiting : waiting s = (outcome_ticket <$> outcomes) ++ waiting s';
  ul_sound : forall k, sound s k -> sound s' k;
  ul_still : still s s';
}.
Lemma settled_unlocked s ready :
  let '(s', outcomes) := settle_ready_location_writes great_circle s ready in
  unlocked s s' outcomes.
Proof.
  pose proof (settled_waiting s ready) as H. pose proof (fun k => settle_ready_sound s k ready) as HS.
  pose proof (settled_still s ready) as HT.
  destruct (settle_ready_location_writes great_circle s ready) as [s' outcomes].
  destruct H as (H1 & H2 & H3 & H4). by split.
Qed.
(** It returns with its lease gone, or goes on. *)
Definition awaits {A R} (s : RecordingState) (k : Z) (r : RecordingState * Awaited A R) : Prop :=
  match r with
  | (s', Returned _) => finished s k s' k []
  | (s', GoesOn _ outcomes) => unlocked s s' outcomes
  end.
Lemma await_transition_awaits s k o answer ready :
  a_pending_command_id s = Some (pt_lease o) ->
  awaits s k (await_transition database great_circle s o answer ready).
Proof.
  intros Hp. unfold await_transition.
  destruct (awaited database answer); [|by apply storage_error_finished].
  pose proof (settled_unlocked s ready) as H.
  by destruct (settle_ready_location_writes great_circle s ready).
Qed.
Lemma await_stop_awaits s k o fence answer ready :
  a_pending_command_id s = Some (pp_lease o) ->
  awaits s k (await_stop database great_circle s o fence answer ready).
Proof.
  intros Hp. unfold await_stop. destruct (negb fence).
  { apply undisturbed_finished; [apply release_undisturbed|by apply release_command]. }
  destruct (awaited database answer); [|by apply storage_error_finished].
  pose proof (settled_unlocked s ready) as H.
  by destruct (settle_ready_location_writes great_circle s ready).
Qed.
Lemma await_admission_awaits s k o answer ready :
  a_pending_command_id s = Some (lease (OpConnection o)) -> valid_operation (OpConnection o) ->
  awaits s k (await_admission database great_circle s o answer ready).
Proof.
  intros Hp (Hn & [id Hl] & _). unfold lease in Hp. simpl in Hp. rewrite Hl in Hp.
  unfold await_admission. rewrite Hn, Hl.
  destruct (awaited database answer); [|by apply storage_error_finished].
  pose proof (settled_unlocked s ready) as H.
  by destruct (settle_ready_location_writes great_circle s ready).
Qed.

Lemma publish_transition_finished s k o committed outcomes :
  a_pending_command_id s = Some (pt_lease o) -> valid_operation (OpTransition o) ->
  exists lost,
    finished (extend_settled s outcomes) k (publish_transition s o committed outcomes).1 k lost
    /\ (pt_event o <> Discard -> lost = []).
Proof.
  intros Hp Hv. unfold publish_transition, command_is_pending.
  rewrite bool_decide_eq_true_2 by done. cbn [negb].
  set (s1 := extend_settled s outcomes).
  destruct (contradicts s1 (pt_ride_id o) (pt_transition o) committed) eqn:Ec.
  { exists []. split; [|done].
    destruct (bookkeeping_undisturbed s1 (pt_ride_id o) None committed) as (_ & U & Pn & _).
    by apply undisturbed_finished. }
  destruct (contradicts_false _ _ _ _ Ec) as [Hride _].
  destruct (bookkeeping_undisturbed s1 (pt_ride_id o) (pt_last_telemetry_at o) committed)
    as (U & _ & _ & N1 & N2).
  set (s2 := note_receipt s1 _ _) in *.
  assert (Hfin2 : forall s' lost, finished s2 k s' k lost -> finished s1 k s' k lost).
  { intros s' lost H. eapply moved_finished; [by apply undisturbed_moved| |exact H].
    by apply undisturbed_sound. }
  clearbody s2.
  destruct (apply_transition_at (a_recorder s2) _ _) as [r [[]|e1]] eqn:E1;
    [|exists []; split; [apply Hfin2, recovery_finished|done]].
  destruct (apply_transition_at (a_admission_recorder s2) _ _) as [r' [[]|e2]] eqn:E2;
    [|exists []; split; [apply Hfin2, recovery_finished|done]].
  cbn [fst]. case_bool_decide as Hdiscard; [|exists []; split; [apply Hfin2|done]].
  - rewrite bool_decide_eq_false_2 by congruence.
    exists (pending_ticket <$> a_pending_locations s2). split; [|done]. apply Hfin2.
    eapply discarded_finished; try exact E1; try exact E2; by destruct s2.
  - eapply advanced_finished; try exact E1; try exact E2; try exact Hv; try done;
      by case_bool_decide; destruct s2.
Qed.

(** A transition of the durable recorder is one of the other too. *)
Lemma shadow_applies s t at_ at' r :
  same_route (a_admission_recorder s)
    (rebuilt great_circle (a_recorder s) (a_pending_locations s)) ->
  apply_transition_at (a_recorder s) t at_ = (r, Ok tt) ->
  exists r', apply_transition_at (a_admission_recorder s) t at' = (r', Ok tt).
Proof.
  intros (_ & Hs & Hg) H. rewrite (proj1 (rebuilt_state _ _)) in Hs.
  rewrite (proj2 (rebuilt_state _ _)) in Hg. injection Hg as _ Hi.
  by eapply transition_applies.
Qed.
Lemma publish_stop_finished s k o committed outcomes :
  sound s k -> a_pending_command_id s = Some (pp_lease o) -> valid_operation (OpStop o) ->
  finished (extend_settled s outcomes) k (publish_stop s o committed outcomes).1 k [].
Proof.
  intros S Hp Hv. apply (extend_settled_sound _ _ outcomes) in S.
  unfold publish_stop, command_is_pending.
  rewrite bool_decide_eq_true_2 by done. cbn [negb].
  set (s1 := extend_settled s outcomes) in *.
  destruct (contradicts s1 (pp_ride_id o) (pp_transition o) committed) eqn:Ec.
  { destruct (bookkeeping_undisturbed s1 (pp_ride_id o) None committed) as (_ & U & Pn & _).
    by apply undisturbed_finished. }
  destruct (contradicts_false _ _ _ _ Ec) as [Hride _].
  destruct (bookkeeping_undisturbed s1 (pp_ride_id o) (pp_last_telemetry_at o) committed)
    as (U & _ & _ & N1 & N2).
  set (s2 := note_receipt s1 _ _) in *.
  assert (Hfin2 : forall s' lost, finished s2 k s' k lost -> finished s1 k s' k lost).
  { intros s' lost H. eapply moved_finished; [by apply undisturbed_moved| |exact H].
    by apply undisturbed_sound. }
  assert (Hride2 : is_Some (a_ride_id s2)) by (rewrite (und_ride _ _ U), Hride; by eexists).
  apply (undisturbed_sound _ _ _ U) in S. clearbody s2. apply Hfin2.
  destruct (apply_transition_at (a_recorder s2) _ _) as [r [[]|e1]] eqn:E1.
  2:{ apply apply_transition_Err in E1 as ->. assert (s2 <| a_recorder := a_recorder s2 |> = s2) as ->
        by by destruct s2. apply recovery_finished. }
  assert (E3 : a_admission_recorder (s2 <| a_recorder := r |>) = a_admission_recorder s2)
    by by destruct s2. rewrite E3.
  destruct (shadow_applies _ _ _ (pp_at o) _ (snd_shadows _ _ S Hride2) E1) as [r' E2]. rewrite E2. cbn [fst].
  eapply advanced_finished; try exact E1; try exact E2; try exact Hv; try done; by destruct s2.
Qed.

(** *** Verified connections *)

(** What every step of a settlement keeps. *)
Record carried (s : RecordingState) (k : Z) (s' : RecordingState) (k' : Z) : Prop := {
  ca_moved : moved s s' [] [] [];
  ca_sound : sound s' k';
  ca_command : a_pending_command_id s' = a_pending_command_id s \/ a_pending_command_id s' = None;
}.
Definition carries (s : RecordingState) (k : Z) (s' : RecordingState) (k' : Z) : Prop :=
  sound s k -> carried s k s' k'.
Lemma carries_trans s1 k1 s2 k2 s3 k3 :
  carries s1 k1 s2 k2 -> carries s2 k2 s3 k3 -> carries s1 k1 s3 k3.
Proof.
  intros C1 C2 S. destruct (C1 S) as [[W N _ L] S1 P1], (C2 S1) as [[W' N' F' L'] S2 P2].
  split; [|done|destruct P1, P2; intuition congruence]. simpl in *. rewrite ?app_nil_r in *.
  split; simpl; rewrite ?app_nil_r; [congruence|lia|by left|lia].
Qed.
Lemma carries_refl s k : carries s k s k.
Proof. intros S. split; [by apply undisturbed_moved|done|by left]. Qed.
Lemma undisturbed_carries s k s' :
  undisturbed s s' ->
  a_pending_command_id s' = a_pending_command_id s \/ a_pending_command_id s' = None ->
  carries s k s' k.
Proof.
  intros U P S. split; [by apply undisturbed_moved|by eapply undisturbed_sound|done].
Qed.
Lemma carried_released s k s' k' id :
  a_pending_command_id s = Some id -> carries s k s' k' ->
  sound s k -> finished s k (release s' id) k' [].
Proof.
  intros Hp C S. destruct (C S) as [M S' P]. pose proof (release_undisturbed s' id) as U.
  unfold finished. split_ands; [|by eapply undisturbed_after_moved|intros _; by eapply undisturbed_sound].
  unfold release, command_is_pending. destruct P as [P|P]; rewrite P; [|done].
  rewrite Hp, bool_decide_eq_true_2 by done. by destruct s'.
Qed.
Lemma later_sound s k k' : sound s k -> k <= k' -> sound s k'.
Proof.
  intros [Hs Hc Hb1 Hb2 Hq Hm Ho] Hk. split; try done; [lia| | |].
  - intros g Hg. specialize (Hb1 g Hg). lia.
  - intros g Hg. specialize (Hb2 g Hg). lia.
  - eapply Forall_impl; [exact Hq|]. simpl. lia.
Qed.

Lemma queue_moved s s' :
  a_pending_locations s' = a_pending_locations s -> a_settled_locations s' = a_settled_locations s ->
  a_next_location_request_id s' = a_next_location_request_id s -> moved s s' [] [] [].
Proof.
  intros E1 E2 E3. split; unfold waiting; rewrite ?E1, ?E2, ?E3; simpl; rewrite ?app_nil_r;
    try done; [lia|by left|lia].
Qed.
Lemma transition_mutation_carries s k event monotonic_at fallback_at :
  event <> Discard -> carries s k (apply_transition_mutation s event monotonic_at fallback_at).1 k.
Proof.
  intros He S. unfold apply_transition_mutation.
  assert (Hsame : carried s k s k) by by apply carries_refl.
  destruct (state (a_recorder s)) as [current|] eqn:Es; [|done].
  destruct (transition current event) as [t|] eqn:Et; [|done]. cbv zeta.
  assert (Ht : transition (previous t) event = Ok t) by (by rewrite (transition_previous _ _ _ Et)).
  destruct (apply_transition_at (a_recorder s) t _) as [r [[]|]] eqn:E1.
  2:{ apply apply_transition_Err in E1 as ->. by destruct s. }
  assert (Ea : a_admission_recorder (s <| a_recorder := r |>) = a_admission_recorder s)
    by by destruct s.
  rewrite Ea. destruct (apply_transition_at (a_admission_recorder s) t _) as [r' [[]|]] eqn:E2.
  - change (carried s k (both_moved s event r r') k).
    destruct (both_moved_fields s event r r') as (B1 & B2 & B3 & B4 & B5 & B6 & B7).
    split; [by apply queue_moved| |by left; rewrite B4].
    eapply advanced_sound; try done. left. by eexists _, _.
  - pose proof E2 as E3. apply apply_transition_Err in E2 as ->. split; [by destruct s; apply queue_moved| |by left; destruct s].
    eapply advanced_sound; try done; try by destruct s. right.
    split; [|by destruct s]. destruct (a_ride_id s) as [ride|] eqn:Er; [exfalso|done].
    destruct (shadow_applies s t _ (default fallback_at monotonic_at) _
      (snd_shadows _ _ S ltac:(rewrite Er; by eexists)) E1) as [r2 F2].
    congruence.
Qed.
Lemma start_mutation_carries s k created committed in_memory at_ candidate policy fresh_id :
  let '(s', k', _) := apply_start_mutation s k created committed in_memory at_ candidate policy
                        fresh_id in carries s k s' k'.
Proof.
  unfold apply_start_mutation.
  pose proof (carries_refl s k) as Hsame. destruct (match created with Some _ => _ | None => _ end) as [ride_id|]; [|done].
  destruct (_ && _); [done|].
  pose proof (start_counter (a_recorder s) k at_ (candidate ≫= vehicle_identity_new)) as Hk.
  destruct (start _ _ _ _) as [[r k1] [[]|]] eqn:E.
  - intros S. destruct (start_fresh _ _ _ _ _ _ (snd_counter _ _ S) E) as [H1 H2].
    set (s1 := bump_generation _).
    assert (T : twinned s k s1 k1 (a_pending_locations s)) by (unfold s1; destruct s; by split).
    split; [|eapply twinned_sound; try done; by left|left; by apply T].
    apply queue_moved; apply T.
  - intros S. assert (r = a_recorder s) as ->.
    { unfold start in E. destruct (negb _); [by simplify_eq|].
      destruct (next_recording_generation k) as [[g|] k2]; by simplify_eq. }
    assert (s <| a_recorder := a_recorder s |> = s) as -> by by destruct s.
    destruct (Hsame S) as [M S' P]. split; [done| |done]. eapply later_sound; [done|].
    apply Hk, S.
Qed.
Lemma mutations_carry operation receipt in_memory fresh_id ms s k :
  Forall (fun m => mutation_event m <> Discard) ms ->
  let '(s', k', _) := apply_mutations s k operation receipt in_memory fresh_id ms in
  carries s k s' k'.
Proof.
  intros Hms. revert s k. induction Hms as [|m ms Hm _ IH]; intros s k; simpl.
  { apply carries_refl. }
  assert (H : let '(s', k', _) := apply_mutation s k operation receipt in_memory fresh_id m in
              carries s k s' k').
  { destruct m as [ride event occurred at_|created at_ candidate policy]; simpl.
    - pose proof (transition_mutation_carries s k event at_ (pv_logical_at operation) Hm) as H.
      by destruct (apply_transition_mutation _ _ _ _).
    - pose proof (start_mutation_carries s k (rc_created_ride_id receipt) (rc_committed receipt)
        in_memory at_ candidate policy fresh_id) as H.
      by destruct (apply_start_mutation _ _ _ _ _ _ _ _ _) as [[]]. }
  destruct (apply_mutation _ _ _ _ _ _ m) as [[s1 k1] [|]]; [|done]. specialize (IH s1 k1).
  destruct (apply_mutations _ _ _ _ _ _ _) as [[s2 k2] r]. by eapply carries_trans.
Qed.
Lemma calm_carries s k s' : calm s s' -> carries s k s' k.
Proof. intros [U P]. apply undisturbed_carries; [done|by left]. Qed.
Lemma recovery_carries s k : carries s k (require_recovery s) k.
Proof. apply undisturbed_carries; [apply require_recovery_undisturbed|by right; destruct s]. Qed.
Lemma receipt_carries s k operation receipt in_memory fresh_id :
  Forall (fun m => mutation_event m <> Discard) (pv_selected_mutations operation) ->
  let '(s', k', _) := apply_verified_admission_receipt s k operation receipt in_memory fresh_id in
  carries s k s' k'.
Proof.
  intros Hms. unfold apply_verified_admission_receipt.
  set (s1 := s <| a_last_connected_vehicle := _ |>).
  assert (C1 : carries s k s1 k) by (apply calm_carries; unfold s1; by destruct s).
  clearbody s1. destruct (negb _); [done|]. unfold apply_selected_mutations.
  pose proof (mutations_carry operation receipt in_memory fresh_id _ s1 k Hms) as C2.
  destruct (apply_mutations _ _ _ _ _ _ _) as [[s2 k2] [[]|]]; simpl in C2.
  2:{ eapply carries_trans; [exact C1|]. destruct in_memory; [done|].
      eapply carries_trans; [exact C2|apply recovery_carries]. }
  set (s3 := match pv_selected_mutations operation with [] => _ | _ => _ end).
  assert (C3 : carries s2 k2 s3 k2).
  { apply calm_carries. unfold s3. destruct (pv_selected_mutations operation); by destruct s2. }
  clearbody s3. assert (C4 : carries s3 k2 (adopt_admission_checkpoint s3 (rc_committed receipt)).1 k2).
  { unfold adopt_admission_checkpoint. destruct (rc_committed receipt) as [c|]; [|apply carries_refl].
    destruct (negb _); [apply carries_refl|]. destruct (negb _); [apply recovery_carries|].
    destruct (match a_checkpoint s3 with Some _ => _ | None => _ end); [|apply carries_refl].
    apply calm_carries. by destruct s3. }
  destruct (adopt_admission_checkpoint _ _) as [s4 r]. simpl in C4.
  do 3 (eapply carries_trans; [eassumption|]). exact C4.
Qed.

Lemma observe_vehicle_same r identity at_ : same_route (observe_vehicle r identity at_).1 r.
Proof.
  unfold observe_vehicle. destruct (negb _); [done|]. case_bool_decide; [done|].
  destruct (associated_vehicle r); [done|].
  destruct (match candidate_vehicle r with Some _ => _ | None => _ end); [done|]. by destruct r.
Qed.
Lemma associate_undisturbed s operation identity at_ :
  undisturbed s (associate_admitted s operation identity at_).
Proof.
  unfold associate_admitted.
  pose proof (observe_vehicle_same (a_admission_recorder s) identity at_) as Ha.
  destruct (observe_vehicle (a_admission_recorder s) identity at_) as [staged association].
  pose proof (observe_vehicle_same (a_recorder s) identity at_) as Hr.
  destruct association, s; by split.
Qed.
Lemma settle_admission_carries s k operation receipt :
  carries s k (settle_admission database s operation receipt).1 k.
Proof.
  unfold settle_admission. set (s1 := s <| a_admission_generation := _ |>).
  assert (C1 : carries s k s1 k) by (apply calm_carries; unfold s1; by destruct s).
  clearbody s1. eapply carries_trans; [exact C1|].
  assert (Hfree : carries s1 k (s1 <| a_pending_command_id := None |>) k)
    by (apply undisturbed_carries; [by destruct s1|by right; destruct s1]).
  destruct (state (a_recorder s1)) as [lifecycle|]; [|done]. destruct (negb _); [done|].
  destruct (vehicle_identity_new _) as [identity|]; [|apply carries_refl].
  match goal with |- context [associate_admitted s1 operation identity ?a] =>
    pose proof (associate_undisturbed s1 operation identity a) as U;
    set (s2 := associate_admitted s1 operation identity a) in * end.
  clearbody s2. apply undisturbed_carries; [|by right; destruct s2].
  etransitivity; [exact U|]. by destruct s2.
Qed.
Lemma publish_admission_finished s k o outcome outcomes fresh_id :
  sound s k -> a_pending_command_id s = Some (lease (OpConnection o)) ->
  valid_operation (OpConnection o) ->
  let '(s', k', _) := publish_admission database s k o outcome outcomes fresh_id in
  finished (extend_settled s outcomes) k s' k' [].
Proof.
  intros S Hp (_ & [id Hl] & _ & Hms & _). unfold lease in Hp. simpl in Hp.
  rewrite Hl in Hp. simpl in Hp. unfold publish_admission. rewrite Hl.
  apply (extend_settled_sound _ _ outcomes) in S.
  destruct (extend_settled_fields s outcomes) as (_ & _ & _ & Hp1 & _). rewrite Hp in Hp1.
  set (s1 := extend_settled s outcomes) in *. clearbody s1.
  unfold command_is_pending. rewrite bool_decide_eq_true_2 by done. cbn [negb].
  unfold released, finish_admitted.
  pose proof (receipt_carries s1 k o (reconcile_admission_receipt outcome) (negb database) fresh_id Hms)
    as C.
  destruct (apply_verified_admission_receipt _ _ _ _ _ _) as [[s2 k2] [[]|]].
  2:{ by apply carried_released. }
  pose proof (settle_admission_carries s2 k2 o (reconcile_admission_receipt outcome)) as C2.
  destruct (settle_admission _ _ _ _) as [s3 r]. apply carried_released; [done| |done].
  by eapply carries_trans.
Qed.

(** ** Every call *)

(** At most one operation is begun and not finished, and it holds the lease. *)
Definition leased (w : Owner) : Prop :=
  match ow_held w with
  | [] => a_pending_command_id (ow_state w) = None
  | [o] => a_pending_command_id (ow_state w) = Some (lease o) /\ valid_operation o
  | _ => False
  end.
Definition owner_ok (w : Owner) : Prop := leased w /\ sound (ow_state w) (ow_counter w).

Lemma owner_new_ok : owner_ok owner_new.
Proof.
  unfold owner_ok, leased, owner_new, application_new. simpl.
  split; [by destruct database|].
  split; destruct database; simpl; try done; try apply closed_nil; by intros [].
Qed.

Definition reported (r : OwnerReply) : list Ticket :=
  match r with Outcomes l => outcome_ticket <$> l | _ => [] end.
Definition queued (w : Owner) (r : OwnerReply) : list Ticket :=
  match r with LocationReply r => fresh_tickets (ow_state w) r | _ => [] end.
(** The calls that may forget writes: a discard forgets the ride they were
    for, and a restoration with a policy may replace it. *)
Definition forgets (w : Owner) (c : OwnerCall) : bool :=
  match c with
  | Finish index answers =>
      match ow_held w !! index with
      | Some (OpSettled (SettledTransition o _) _) => bool_decide (pt_event o = Discard)
      | Some (OpRestore _) => bool_decide (is_Some (an_policy answers))
      | _ => false
      end
  | _ => false
  end.

(** A call overtakes a finish that has settled writes in hand, if it reports
    writes or settles some for the next report; it crowds it, if it queues a
    write. *)
Definition nonempty {A} (l : list A) : bool := match l with [] => false | _ => true end.
Definition overtaking (w w' : Owner) (r : OwnerReply) : bool :=
  nonempty (in_hand w)
  && (nonempty (reported r)
      || nonempty (in_hand w') && nonempty (a_settled_locations (ow_state w'))).
Definition overtakes (w : Owner) (c : OwnerCall) : bool :=
  let '(w', r) := owner_step w c in overtaking w w' r.
Definition crowds (w : Owner) (r : OwnerReply) : bool :=
  nonempty (in_hand w) && nonempty (queued w r).
Definition in_order (w : Owner) : Prop :=
  in_hand w = [] \/ a_settled_locations (ow_state w) = [].

(** What a call does to the writes. *)
Record progressed (w w' : Owner) (r : OwnerReply) (lost : list Ticket) : Prop := {
  pg_tickets : tickets w ++ queued w r ≡ₚ reported r ++ tickets w' ++ lost;
  pg_request : a_next_location_request_id (ow_state w')
               = a_next_location_request_id (ow_state w) + Z.of_nat (length (queued w r));
  pg_fresh : queued w r = []
             \/ exists t, queued w r = [t] /\ tk_id t = a_next_location_request_id (ow_state w);
  pg_order : in_order w -> overtaking w w' r = false ->
             tickets w ++ queued w r = reported r ++ tickets w' ++ lost /\ in_order w';
  pg_room : crowds w r = false ->
            Z.of_nat (length (tickets w')) <= Z.max (Z.of_nat (length (tickets w)))
                                                MAX_PENDING_LOCATION_WRITES;
}.
Definition stepped (w : Owner) (c : OwnerCall) (w' : Owner) (r : OwnerReply) : Prop :=
  owner_ok w' /\ exists lost, progressed w w' r lost /\ (forgets w c = false -> lost = []).

Lemma nonempty_false {A} (l : list A) : nonempty l = false <-> l = [].
Proof. by destruct l. Qed.
Lemma empty_or_more {A} (l : list A) : l = [] \/ nonempty l = true.
Proof. destruct l; auto. Qed.
(** A call that leaves what is in hand alone. *)
Lemma moved_progressed w w' r lost :
  in_hand w' = in_hand w -> moved (ow_state w) (ow_state w') (reported r) (queued w r) lost ->
  progressed w w' r lost.
Proof.
  intros Hh [W N F R].
  assert (P : tickets w ++ queued w r ≡ₚ reported r ++ tickets w' ++ lost).
  { unfold tickets. rewrite Hh, <- !app_assoc, W. apply Permutation_app_swap_app. }
  split; [done..| |].
  - intros Ho Hn. unfold overtaking in Hn. unfold in_order, tickets in *. rewrite Hh in *.
    destruct (empty_or_more (in_hand w)) as [->|Hm]; [by split; [|left]|].
    rewrite Hm in Hn. simpl in Hn. apply orb_false_iff in Hn as [Hr Hs].
    apply nonempty_false in Hr, Hs. rewrite Hr in *. rewrite <- !app_assoc, W. by split; [|right].
  - intros Hc. unfold crowds in Hc. destruct (empty_or_more (in_hand w)) as [E|Hm].
    + unfold tickets. by rewrite Hh, E.
    + rewrite Hm in Hc. apply nonempty_false in Hc. rewrite Hc, app_nil_r in P.
      apply Permutation_length in P. rewrite !length_app in P. lia.
Qed.
Lemma undisturbed_progressed w w' r :
  in_hand w' = in_hand w -> undisturbed (ow_state w) (ow_state w') -> reported r = [] ->
  queued w r = [] -> progressed w w' r [].
Proof.
  intros Hh U Hr Hq. apply moved_progressed; [done|]. rewrite Hr, Hq. by apply undisturbed_moved.
Qed.
(** A finish that goes on takes settled writes out of the queue, and puts them
    back in the end. *)
Lemma unlocked_progressed w w' outcomes :
  in_hand w = [] -> in_hand w' = outcome_ticket <$> outcomes ->
  unlocked (ow_state w) (ow_state w') outcomes -> progressed w w' Unlocked [].
Proof.
  intros H1 H2 [U1 U2 U3 U4 _ _].
  assert (E : tickets w = tickets w') by (unfold tickets; by rewrite H1, H2, U4).
  split; simpl; rewrite ?app_nil_r, ?E; try done; [lia|by left| |lia].
  intros _ _. split; [done|by right].
Qed.
Lemma extended_waiting s outcomes :
  (outcome_ticket <$> outcomes) ++ waiting s ≡ₚ waiting (extend_settled s outcomes)
  /\ (outcomes = [] \/ a_settled_locations s = [] ->
      (outcome_ticket <$> outcomes) ++ waiting s = waiting (extend_settled s outcomes)).
Proof.
  unfold waiting. destruct (extend_settled_fields s outcomes) as (_ & _ & _ & _ & -> & -> & _).
  rewrite fmap_app, <- app_assoc. split; [apply Permutation_app_swap_app|].
  intros [->| ->]; simpl; by rewrite ?app_nil_r.
Qed.
Lemma published_progressed w w' r lost outcomes :
  in_hand w = outcome_ticket <$> outcomes -> in_hand w' = [] -> reported r = [] ->
  queued w r = [] -> moved (extend_settled (ow_state w) outcomes) (ow_state w') [] [] lost ->
  progressed w w' r lost.
Proof.
  intros H1 H2 Hr Hq [W N _ R]. destruct (extended_waiting (ow_state w) outcomes) as [P E].
  destruct (extend_settled_fields (ow_state w) outcomes) as (_ & _ & _ & _ & _ & _ & Hn).
  split; unfold tickets; rewrite ?Hr, ?Hq, ?H1, ?H2; simpl in *; rewrite ?app_nil_r in *.
  - by rewrite P, W.
  - lia.
  - by left.
  - intros Ho _. unfold in_order in Ho. split; [|by left]. rewrite E, W; [done|].
    rewrite H1 in Ho. destruct Ho as [Ho|Ho]; [left|by right]. by destruct outcomes.
  - intros _. apply Permutation_length in P. rewrite P. done.
Qed.

Lemma in_hand_held w : in_hand w = outcome_ticket <$> (ow_held w ≫= in_hand_of).
Proof. done. Qed.
Lemma in_hand_snoc s k held o s' k' :
  in_hand_of o = [] ->
  in_hand {| ow_state := s'; ow_counter := k'; ow_held := held ++ [o] |}
  = in_hand {| ow_state := s; ow_counter := k; ow_held := held |}.
Proof. intros H. unfold in_hand. simpl. rewrite bind_app. simpl. by rewrite H, !app_nil_r. Qed.

Lemma validated r event t :
  validate_transition r event = Ok t -> transition (previous t) event = Ok t.
Proof.
  unfold validate_transition. destruct (state r) as [lifecycle|]; [|done]. simpl. intros H.
  by rewrite (transition_previous _ _ _ H).
Qed.
Lemma calm_stepped w c s' r :
  owner_ok w -> calm (ow_state w) s' -> reported r = [] -> queued w r = [] ->
  stepped w c (state_after s' w) r.
Proof.
  intros [L S] [U P] Hr Hq. split; [split|].
  - unfold leased, state_after in *. simpl. by rewrite P.
  - by eapply undisturbed_sound.
  - exists []. split; [|done]. by apply undisturbed_progressed.
Qed.
Lemma held_stepped {A} (wrap : A -> Operation) (p : RecordingState * result A RideRecordingError) w c :
  owner_ok w -> prepares (ow_state w) p.1 ((fun o => lease (wrap o)) <$> result_ok p.2) ->
  (forall o, p.2 = Ok o -> valid_operation (wrap o)) -> (forall o, in_hand_of (wrap o) = []) ->
  stepped w c (held_after wrap p w).1 (held_after wrap p w).2.
Proof.
  intros [L S] [U P] Hv Hh. destruct p as [s' [o|e]]; simpl in *.
  - destruct P as [P1 P2]. split; [split|].
    + unfold leased in *. simpl. destruct (ow_held w) as [|o1 [|]]; simpl; [by split; [|apply Hv]| |done].
      destruct L. congruence.
    + by eapply undisturbed_sound.
    + exists []. split; [|done]. apply undisturbed_progressed; try done.
      destruct w as [ws wk wh]. by apply in_hand_snoc.
  - destruct w. by apply (calm_stepped _ c s').
Qed.
Lemma moved_stepped w c s' r :
  owner_ok w -> moved (ow_state w) s' (reported r) (queued w r) [] ->
  a_pending_command_id s' = a_pending_command_id (ow_state w) ->
  (sound (ow_state w) (ow_counter w) -> sound s' (ow_counter w)) ->
  stepped w c (state_after s' w) r.
Proof.
  intros [L S] M P HS. split; [split|].
  - unfold leased, state_after in *. simpl. by rewrite P.
  - by apply HS.
  - exists []. split; [|done]. by apply moved_progressed.
Qed.

(** The only operation that is held. *)
Lemma leased_held w index o :
  leased w -> ow_held w !! index = Some o ->
  index = 0%nat /\ ow_held w = [o] /\ a_pending_command_id (ow_state w) = Some (lease o)
  /\ valid_operation o.
Proof.
  unfold leased. intros L Ho. destruct (ow_held w) as [|o1 [|]]; [done| |done].
  destruct index; [|done]. injection Ho as <-. by destruct L.
Qed.
Lemma finished_stepped w index answers o s' k' r lost :
  owner_ok w -> ow_held w !! index = Some o ->
  finished (extend_settled (ow_state w) (in_hand_of o)) (ow_counter w) s' k' lost ->
  (forgets w (Finish index answers) = false -> lost = []) -> reported r = [] -> queued w r = [] ->
  stepped w (Finish index answers)
    {| ow_state := s'; ow_counter := k'; ow_held := delete index (ow_held w) |} r.
Proof.
  intros [L S] Ho (P & M & HS) Hl Hr Hq. destruct (leased_held _ _ _ L Ho) as (-> & Hh & _).
  rewrite Hh. split; [split|].
  - done.
  - simpl. by apply HS, extend_settled_sound.
  - exists lost. split; [|done]. eapply published_progressed; try done.
    unfold in_hand. rewrite Hh. simpl. by rewrite app_nil_r.
Qed.
Lemma unlocked_stepped w index answers o settled outcomes s' :
  owner_ok w -> ow_held w !! index = Some o -> in_hand_of o = [] ->
  begun_as (OpSettled settled outcomes) = begun_as o -> unlocked (ow_state w) s' outcomes ->
  stepped w (Finish index answers)
    {| ow_state := s'; ow_counter := ow_counter w;
       ow_held := <[index := OpSettled settled outcomes]> (ow_held w) |} Unlocked.
Proof.
  intros [L S] Ho Hn Hb U. destruct (leased_held _ _ _ L Ho) as (-> & Hh & P & V).
  rewrite Hh. split; [split|].
  - unfold leased. cbn [ow_held ow_state list_insert insert].
    unfold lease, valid_operation in *. rewrite Hb, (ul_command _ _ _ U). by split.
  - simpl. by apply (ul_sound _ _ _ U).
  - exists []. split; [|done]. eapply unlocked_progressed; [| |exact U].
    + unfold in_hand. rewrite Hh. simpl. by rewrite Hn.
    + unfold in_hand. simpl. by rewrite app_nil_r.
Qed.

Lemma begin_transition_valid s token event at_ telemetry_at queued_ o :
  (begin_transition database s token event at_ telemetry_at queued_).2 = Ok o ->
  valid_operation (OpTransition o).
Proof.
  unfold begin_transition. destruct (fenced_transition s token event) as [t|] eqn:Ef; [|done].
  destruct (fenced_free _ _ _ _ Ef) as (_ & _ & _ & _ & Hv).
  destruct (reserve_command_id s) as [[s1 id]|]; [|done].
  destruct (awaited database queued_); [|done]. intros [= <-]. by apply validated in Hv.
Qed.
Lemma begin_stop_valid s token at_ telemetry_at o :
  (begin_stop_after_music s token at_ telemetry_at).2 = Ok o -> valid_operation (OpStop o).
Proof.
  unfold begin_stop_after_music. destruct (fenced_transition s token Stop) as [t|] eqn:Ef; [|done].
  destruct (fenced_free _ _ _ _ Ef) as (_ & _ & _ & _ & Hv).
  destruct (reserve_command_id s) as [[s1 id]|]; [|done]. intros [= <-]. by apply validated in Hv.
Qed.

(** What a locked region of a finish did. *)
Definition finish_step (w : Owner) (index : nat) (answers : Answers) (o : Operation)
    (r : RecordingState * Z * (OwnerReply + Operation)) : Prop :=
  match r with
  | (s', k', inl reply) =>
      (exists lost, finished (extend_settled (ow_state w) (in_hand_of o)) (ow_counter w) s' k' lost
                    /\ (forgets w (Finish index answers) = false -> lost = []))
      /\ reported reply = [] /\ forall w, queued w reply = []
  | (s', k', inr rest) =>
      exists settled outcomes, rest = OpSettled settled outcomes /\ in_hand_of o = []
        /\ begun_as rest = begun_as o /\ k' = ow_counter w
        /\ unlocked (ow_state w) s' outcomes
  end.
Lemma replied_quiet r : reported (replied r) = [] /\ forall w, queued w (replied r) = [].
Proof. by destruct r. Qed.
Lemma connection_quiet r :
  reported (connection_replied r) = [] /\ forall w, queued w (connection_replied r) = [].
Proof. by destruct r as [[]|]. Qed.
Lemma extend_nothing s : extend_settled s [] = s.
Proof. destruct s. unfold extend_settled. simpl. by rewrite app_nil_r. Qed.
Lemma ended_step w index answers o s' k' reply lost :
  in_hand_of o = [] -> finished (ow_state w) (ow_counter w) s' k' lost ->
  (forgets w (Finish index answers) = false -> lost = []) ->
  (reported reply = [] /\ forall w, queued w reply = []) ->
  finish_step w index answers o (s', k', inl reply).
Proof.
  intros Hh F Hl Hq. split; [|done]. exists lost. by rewrite Hh, extend_nothing.
Qed.
Lemma awaited_step {A R} w index answers o (settled : A -> Settled) (reply : R -> OwnerReply)
    (p : RecordingState * Awaited A R) :
  in_hand_of o = [] -> (forall a l, begun_as (OpSettled (settled a) l) = begun_as o) ->
  (forall r, reported (reply r) = [] /\ forall w, queued w (reply r) = []) ->
  awaits (ow_state w) (ow_counter w) p ->
  finish_step w index answers o (p.1, ow_counter w, goes_on settled reply p.2).
Proof.
  intros Hh Hb Hq. destruct p as [s' [r|a l]]; simpl; intros H.
  - split; [|done]. exists []. by rewrite Hh, extend_nothing.
  - exists (settled a), l. split_ands; try done. exact (Hb a l).
Qed.
Lemma finish_finished w index o answers :
  owner_ok w -> ow_held w !! index = Some o ->
  finish_step w index answers o (finish (ow_state w) (ow_counter w) o answers).
Proof.
  intros [L S] Ho. pose proof (snd_counter _ _ S) as Hk.
  destruct (leased_held _ _ _ L Ho) as (-> & _ & Hp & Hv).
  destruct o as [o|o|o|o|o|[o c|o c|o c] l]; unfold finish.
  - destruct (an_policy answers) as [policy|] eqn:Epol; rewrite ?Epol.
    + pose proof (finish_restore_policy_finished _ _ o policy (an_restore answers)
        (an_committed answers) (an_settled answers) Hk Hp) as H.
      destruct (finish_restore_with_policy _ _ _ _ _ _ _ _) as [[s' k'] [[]|]];
        destruct H as [lost H]; eapply ended_step; try done; simpl; rewrite Ho, Epol;
        by rewrite (bool_decide_eq_true_2 _ (mk_is_Some _ _ eq_refl)).
    + pose proof (finish_restore_finished _ _ o (an_restore answers) Hk Hp) as H.
      destruct (finish_restore _ _ _ _ _) as [[s' k'] r]. by eapply ended_step, replied_quiet.
  - pose proof (finish_start_finished _ _ o (an_committed answers) (an_fresh_id answers) Hk Hp) as H.
    destruct (finish_start _ _ _ _ _ _) as [[s' k'] r]. by eapply ended_step, replied_quiet.
  - pose proof (await_transition_awaits _ (ow_counter w) o (an_committed answers)
      (an_ready answers) Hp) as H.
    apply (awaited_step w 0 answers (OpTransition o) (SettledTransition o) replied) in H;
      [by destruct (await_transition _ _ _ _ _ _)|done..|apply replied_quiet].
  - pose proof (await_stop_awaits _ (ow_counter w) o (an_fence answers) (an_committed answers)
      (an_ready answers) Hp) as H.
    apply (awaited_step w 0 answers (OpStop o) (SettledStop o) replied) in H;
      [by destruct (await_stop _ _ _ _ _ _ _)|done..|apply replied_quiet].
  - pose proof (await_admission_awaits _ (ow_counter w) o (an_admission answers)
      (an_ready answers) Hp Hv) as H.
    apply (awaited_step w 0 answers (OpConnection o) (SettledConnection o) connection_replied) in H;
      [by destruct (await_admission _ _ _ _ _ _)|done..|apply connection_quiet].
  - destruct (publish_transition_finished _ (ow_counter w) o c l Hp Hv) as (lost & H & Hl).
    destruct (publish_transition _ _ _ _) as [s' r]. split; [|apply replied_quiet].
    exists lost. split; [done|]. simpl. rewrite Ho. intros E. apply Hl. by prop_bools.
  - pose proof (publish_stop_finished _ _ o c l S Hp Hv) as H.
    destruct (publish_stop _ _ _ _) as [s' r]. split; [|apply replied_quiet]. by exists [].
  - pose proof (publish_admission_finished _ _ o c l (an_fresh_id answers) S Hp Hv) as H.
    destruct (publish_admission _ _ _ _ _ _ _) as [[s' k'] r].
    split; [|apply connection_quiet]. by exists [].
Qed.

Lemma poll_stepped w c ready :
  owner_ok w ->
  let '(s', outcomes) := settle_ready_location_writes great_circle (ow_state w) ready in
  stepped w c (state_after s' w) (Outcomes outcomes).
Proof.
  intros Hw. pose proof (settle_ready_moved (ow_state w) ready) as H.
  pose proof (settle_ready_sound (ow_state w) (ow_counter w) ready) as HS.
  destruct (settle_ready_location_writes great_circle (ow_state w) ready) as [s' outcomes].
  destruct H as [M P]. by apply moved_stepped.
Qed.
Lemma checkpoint_writes_stepped w c fence ready :
  owner_ok w ->
  let '(s', r) := checkpoint_location_writes database great_circle (ow_state w) fence ready in
  stepped w c (state_after s' w) match r with Ok l => Outcomes l | Err e => RefusedWith e end.
Proof.
  intros Hw. unfold checkpoint_location_writes.
  destruct (awaited database fence); [|by apply calm_stepped].
  pose proof (poll_stepped w c ready Hw) as H.
  by destruct (settle_ready_location_writes great_circle (ow_state w) ready).
Qed.
Lemma after_calm_stepped w s1 c w' r :
  calm (ow_state w) s1 -> stepped (state_after s1 w) c w' r -> queued w r = [] ->
  queued (state_after s1 w) r = [] -> forgets (state_after s1 w) c = forgets w c ->
  stepped w c w' r.
Proof.
  intros [U P] (Hw & lost & [P1 P2 P3 P4 P5] & Hl) Hq Hq' Hf. split; [done|]. exists lost.
  rewrite <- Hf. split; [|done].
  assert (Ht : tickets (state_after s1 w) = tickets w)
    by (unfold tickets; simpl; by rewrite (undisturbed_waiting _ _ U)).
  unfold crowds, in_order in *. simpl in *.
  rewrite Hq', Ht, ?(und_settled _ _ U), ?(und_request _ _ U) in *.
  split; rewrite ?Hq; try done. unfold crowds. by rewrite Hq.
Qed.

Lemma calm_ok w s' : owner_ok w -> calm (ow_state w) s' -> owner_ok (state_after s' w).
Proof.
  intros [L S] [U P]. split; [|by eapply undisturbed_sound].
  unfold leased, state_after in *. simpl. by rewrite P.
Qed.
Lemma idle_stepped w c : owner_ok w -> stepped w c w Done.
Proof. intros Hw. split; [done|]. exists []. split; [by apply undisturbed_progressed|done]. Qed.
Lemma begin_stepped w c :
  owner_ok w ->
  match c with
  | BeginRestore _ | BeginStart _ _ _ _ | BeginTransition _ _ _ _ _ | BeginStop _ _ _ => True
  | _ => False
  end -> stepped w c (owner_step w c).1 (owner_step w c).2.
Proof.
  intros Hw Hc. destruct c; try done; simpl; apply held_stepped; try done.
  - pose proof (begin_restore_prepares (ow_state w) queued0) as H.
    by destruct (begin_restore _ _ _).
  - pose proof (begin_start_prepares (ow_state w) at_ candidate policy queued0) as H.
    by destruct (begin_start _ _ _ _ _ _).
  - pose proof (begin_transition_prepares (ow_state w) token event at_ telemetry_at queued0) as H.
    by destruct (begin_transition _ _ _ _ _ _ _).
  - intros o. apply begin_transition_valid.
  - pose proof (begin_stop_prepares (ow_state w) token at_ telemetry_at) as H.
    by destruct (begin_stop_after_music _ _ _ _).
  - intros o. apply begin_stop_valid.
Qed.
Lemma connection_stepped w c platform at_ generation policy wall_clock autostart selected queued_ :
  c = BeginConnection platform at_ generation policy wall_clock autostart selected queued_ ->
  owner_ok w -> stepped w c (owner_step w c).1 (owner_step w c).2.
Proof.
  intros -> [L S]. simpl.
  pose proof (begin_admission_begun database (ow_state w) (ow_counter w) platform at_ generation
    policy wall_clock autostart selected queued_ (snd_counter _ _ S)) as H.
  destruct (begin_verified_connection_admission _ _ _ _ _ _ _ _ _ _ _) as [[s' k'] r].
  destruct H as [Hk H]. apply (later_sound _ _ _ S) in Hk. destruct r as [o|e].
  2:{ subst s'. by split; [|exists []; split; [apply undisturbed_progressed|]]. }
  destruct (pv_immediate_noop o) eqn:Hn.
  { subst s'. split; [done|]. exists [].
    destruct (pv_immediate_snapshot o); (split; [by apply undisturbed_progressed|done]). }
  destruct H as [Hfree Hs' Hlease Hgen Hid (now & p & _ & Hplan)].
  assert (U : undisturbed (ow_state w) s') by (subst s'; by destruct (ow_state w)).
  split; [split|].
  - unfold leased in *. simpl. destruct (ow_held w) as [|o1 [|]]; simpl; [|by destruct L; congruence|done].
    unfold lease, valid_operation. simpl. rewrite Hlease.
    split; [subst s'; by destruct (ow_state w)|].
    split_ands; [done|by eexists| |by eapply planned_discards_nothing|by eapply planned_ends_running].
    apply identity_stable in Hid. by eexists.
  - by eapply undisturbed_sound.
  - exists []. split; [|done]. apply undisturbed_progressed; try done.
    destruct w as [ws wk wh]. by apply in_hand_snoc.
Qed.
Lemma drop_stepped w index :
  owner_ok w ->
  stepped w (DropOperation index) (owner_step w (DropOperation index)).1
    (owner_step w (DropOperation index)).2.
Proof.
  intros Hw. simpl. destruct (ow_held w !! index) as [o|] eqn:Ho; [|by apply idle_stepped].
  destruct Hw as [L S]. destruct (leased_held _ _ _ L Ho) as (-> & Hh & Hp & Hv).
  assert (in_hand_of o = [] -> stepped w (DropOperation 0)
    {| ow_state := release (ow_state w) (lease o); ow_counter := ow_counter w;
       ow_held := delete 0%nat (ow_held w) |} Done) as H; [|by destruct o; [auto..|apply idle_stepped]].
  intros Hn. rewrite Hh. split; [split|].
  - by apply release_command.
  - eapply undisturbed_sound; [apply release_undisturbed|done].
  - exists []. split; [|done]. apply undisturbed_progressed; [|apply release_undisturbed|done..].
    unfold in_hand. rewrite Hh. simpl. by rewrite Hn.
Qed.
Lemma finish_stepped w index answers :
  owner_ok w ->
  stepped w (Finish index answers) (owner_step w (Finish index answers)).1
    (owner_step w (Finish index answers)).2.
Proof.
  intros Hw. simpl. destruct (ow_held w !! index) as [o|] eqn:Ho; [|by apply idle_stepped].
  pose proof (finish_finished w index o answers Hw Ho) as H.
  destruct (finish (ow_state w) (ow_counter w) o answers) as [[s' k'] [r|rest]].
  - destruct H as ((lost & F & Hl) & R & Q). by eapply finished_stepped.
  - destruct H as (settled & outcomes & -> & Hn & Hb & -> & U). by eapply unlocked_stepped.
Qed.
Lemma locate_stepped w sample answers :
  owner_ok w ->
  stepped w (Locate sample answers) (owner_step w (Locate sample answers)).1
    (owner_step w (Locate sample answers)).2.
Proof.
  intros Hw. simpl. pose proof Hw as [L S].
  pose proof (admit_location_located (ow_state w) sample answers (snd_memory _ _ S)) as H.
  destruct (admit_location _ _ _ _ _) as [s' r]. destruct H as (M & P & _ & HS). simpl.
  split; [split|].
  - unfold leased, state_after in *. simpl. by rewrite P.
  - by apply HS.
  - exists []. split; [by apply moved_progressed|done].
Qed.
Lemma owner_step_stepped w c : owner_ok w -> stepped w c (owner_step w c).1 (owner_step w c).2.
Proof.
  intros Hw.
  destruct c; try (by apply begin_stepped); try (by eapply connection_stepped);
    try (by apply finish_stepped); try (by apply drop_stepped);
    try (by apply locate_stepped); simpl.
  - apply calm_stepped; try done. apply vehicle_speed_calm.
  - apply calm_stepped; try done. apply phone_speed_calm.
  - apply calm_stepped; try done. apply restore_motion_calm.
  - pose proof (telemetry_calm (ow_state w) at_ speed vehicle update) as H.
    destruct (app_observe_telemetry _ _ _ _ _ _) as [s' []]; by apply calm_stepped.
  - pose proof (poll_stepped w (Poll ready) ready Hw) as H.
    by destruct (settle_ready_location_writes _ _ _).
  - pose proof (checkpoint_receipt_calm (ow_state w) update) as H.
    destruct (checkpoint_telemetry_receipt _ _ _) as [s' []]; by apply calm_stepped.
  - pose proof (checkpoint_writes_stepped w (CheckpointWrites fence ready) fence ready Hw) as H.
    by destruct (checkpoint_location_writes _ _ _ _ _).
  - unfold app_checkpoint. pose proof (checkpoint_receipt_calm (ow_state w) update) as H.
    destruct (checkpoint_telemetry_receipt _ _ _) as [s1 [[]|]]; [|by apply calm_stepped].
    pose proof (checkpoint_writes_stepped (state_after s1 w) (CheckpointAll update fence ready)
      fence ready (calm_ok _ _ Hw H)) as H2. simpl in H2.
    destruct (checkpoint_location_writes _ _ s1 _ _) as [s2 [l|e]]; by eapply after_calm_stepped.
Qed.

(** ** Runs *)

Fixpoint run (w : Owner) (calls : list OwnerCall) : Owner * list (Owner * OwnerCall * OwnerReply) :=
  match calls with
  | [] => (w, [])
  | c :: calls =>
      let '(w1, r) := owner_step w c in
      let '(w2, trace) := run w1 calls in (w2, (w, c, r) :: trace)
  end.
Definition queued_in (trace : list (Owner * OwnerCall * OwnerReply)) : list Ticket :=
  concat ((fun e => queued e.1.1 e.2) <$> trace).
Definition reported_in (trace : list (Owner * OwnerCall * OwnerReply)) : list Ticket :=
  concat ((fun e => reported e.2) <$> trace).
Definition forgotten_in (trace : list (Owner * OwnerCall * OwnerReply)) : bool :=
  existsb (fun e => forgets e.1.1 e.1.2) trace.
Definition overtaken_in (trace : list (Owner * OwnerCall * OwnerReply)) : bool :=
  existsb (fun e => overtakes e.1.1 e.1.2) trace.
Definition crowded_in (trace : list (Owner * OwnerCall * OwnerReply)) : bool :=
  existsb (fun e => crowds e.1.1 e.2) trace.

Lemma run_ok w calls : owner_ok w -> owner_ok (run w calls).1.
Proof.
  revert w. induction calls as [|c calls IH]; intros w Hw; [done|]. simpl.
  destruct (owner_step_stepped w c Hw) as [H _]. destruct (owner_step w c) as [w1 r]. simpl in H.
  specialize (IH w1 H). by destruct (run w1 calls).
Qed.
(** What a run does to the writes, in the end and on the way. *)
Record settles (w : Owner) (trace : list (Owner * OwnerCall * OwnerReply)) (w' : Owner)
    (lost : list Ticket) : Prop := {
  st_ids : tk_id <$> queued_in trace
           = seqZ (a_next_location_request_id (ow_state w)) (Z.of_nat (length (queued_in trace)));
  st_tickets : tickets w ++ queued_in trace ≡ₚ reported_in trace ++ tickets w' ++ lost;
  st_lost : forgotten_in trace = false -> lost = [];
  st_order : in_order w -> overtaken_in trace = false ->
             sublist (reported_in trace ++ tickets w') (tickets w ++ queued_in trace)
             /\ (forgotten_in trace = false ->
                 reported_in trace ++ tickets w' = tickets w ++ queued_in trace);
  st_room : crowded_in trace = false ->
            Z.of_nat (length (tickets w')) <= Z.max (Z.of_nat (length (tickets w)))
                                                MAX_PENDING_LOCATION_WRITES;
}.
Lemma settles_refl w : settles w [] w [].
Proof.
  split; simpl; rewrite ?app_nil_r; done || lia.
Qed.
Lemma settles_cons w c w1 r trace w2 lost1 lost2 :
  owner_step w c = (w1, r) -> progressed w w1 r lost1 -> (forgets w c = false -> lost1 = []) ->
  settles w1 trace w2 lost2 -> settles w ((w, c, r) :: trace) w2 (lost2 ++ lost1).
Proof.
  intros Es [P1 P2 P3 P4 P5] Hl [S1 S2 S3 S4 S5].
  split; unfold queued_in, reported_in, forgotten_in, overtaken_in, crowded_in in *;
    rewrite ?fmap_cons; simpl.
  all: set (q := concat ((fun e => queued e.1.1 e.2) <$> trace)) in *.
  all: set (o := concat ((fun e => reported e.2) <$> trace)) in *; clearbody q o.
  - rewrite fmap_app, length_app, Nat2Z.inj_add, seqZ_app, S1, P2 by lia.
    f_equal. destruct P3 as [->|(t & -> & Ht)]; [done|]. simpl. by rewrite Ht.
  - rewrite app_assoc, P1, <- !app_assoc. f_equiv.
    rewrite (Permutation_app_comm lost1), app_assoc, S2. by rewrite <- !app_assoc.
  - intros E. apply orb_false_iff in E as [E1 E2]. by rewrite S3, Hl.
  - unfold overtakes. rewrite Es. intros Ho [E1 E2]%orb_false_iff.
    destruct (P4 Ho E1) as [W Ho1]. destruct (S4 Ho1 E2) as [I2 I3]. split.
    + rewrite (app_assoc (tickets w)), W, <- !app_assoc. apply sublist_app; [done|].
      etransitivity; [exact I2|]. apply sublist_app; [done|]. by apply sublist_inserts_l.
    + intros [F1 F2]%orb_false_iff.
      by rewrite (app_assoc (tickets w)), W, Hl, app_nil_r, <- !app_assoc, I3.
  - intros [E1 E2]%orb_false_iff. specialize (P5 E1). specialize (S5 E2). lia.
Qed.
Lemma run_settles w calls :
  owner_ok w -> exists lost, settles w (run w calls).2 (run w calls).1 lost.
Proof.
  revert w. induction calls as [|c calls IH]; intros w Hw; simpl.
  { exists []. apply settles_refl. }
  destruct (owner_step_stepped w c Hw) as (H & lost & P & Hl).
  destruct (owner_step w c) as [w1 r] eqn:Es. simpl in *. destruct (IH w1 H) as [lost2 IHs].
  destruct (run w1 calls) as [w2 trace]. eexists. by eapply settles_cons.
Qed.

(** A finish that goes on was begun, and was given its answer, before. *)
Lemma run_snoc w calls c :
  (run w (calls ++ [c])).1 = (owner_step (run w calls).1 c).1.
Proof.
  revert w. induction calls as [|c' calls IH]; intros w; simpl.
  { by destruct (owner_step w c). }
  destruct (owner_step w c') as [w1 r]. specialize (IH w1).
  destruct (run w1 (calls ++ [c])), (run w1 calls). exact IH.
Qed.
Definition given (settled : Settled) (answers : Answers) : Prop :=
  match settled with
  | SettledTransition _ committed => awaited database (an_committed answers) = Ok committed
  | SettledStop _ committed =>
      an_fence answers = true /\ awaited database (an_committed answers) = Ok committed
  | SettledConnection _ outcome => awaited database (an_admission answers) = Ok outcome
  end.
Lemma finish_given s k o answers s' k' settled outcomes :
  finish s k o answers = (s', k', inr (OpSettled settled outcomes)) -> given settled answers
  /\ o = begun_as (OpSettled settled outcomes).
Proof.
  unfold finish. destruct o as [o|o|o|o|o|[o c|o c|o c] l].
  - destruct (an_policy answers).
    + by destruct (finish_restore_with_policy _ _ _ _ _ _ _ _) as [[? ?] [[]|]].
    + by destruct (finish_restore _ _ _ _ _) as [[]].
  - by destruct (finish_start _ _ _ _ _ _) as [[]].
  - unfold await_transition. destruct (awaited database (an_committed answers)) eqn:E; [|done].
    destruct (settle_ready_location_writes _ _ _). simpl. intros H. by simplify_eq/=.
  - unfold await_stop. destruct (an_fence answers) eqn:Ef; [|done]. simpl.
    destruct (awaited database (an_committed answers)) eqn:E; [|done].
    destruct (settle_ready_location_writes _ _ _). simpl. intros H. by simplify_eq/=.
  - unfold await_admission. destruct (pv_immediate_noop o); [done|].
    destruct (awaited database (an_admission answers)) eqn:E; [|by destruct (pv_lease o)].
    destruct (settle_ready_location_writes _ _ _). simpl. intros H. by simplify_eq/=.
  - by destruct (publish_transition _ _ _ _).
  - by destruct (publish_stop _ _ _ _).
  - by destruct (publish_admission _ _ _ _ _ _ _) as [[]].
Qed.

(** Calls that come while an operation is held. *)
Definition between (c : OwnerCall) : Prop :=
  match c with Finish _ _ | DropOperation _ => False | _ => True end.
Lemma between_held w c :
  between c -> ow_held (owner_step w c).1 = ow_held w
               \/ exists o, ow_held (owner_step w c).1 = ow_held w ++ [o] /\ begun_as o = o.
Proof.
  intros Hc. destruct c; try done; simpl;
    try (by repeat case_match; simplify_eq/=; eauto).
  all: try (unfold held_after; repeat case_match; simplify_eq/=; eauto).
Qed.
Lemma begun_not_settled settled outcomes : begun_as (OpSettled settled outcomes) <> OpSettled settled outcomes.
Proof. by destruct settled. Qed.
Lemma held_settled_step w c index settled outcomes :
  owner_ok w -> ow_held (owner_step w c).1 !! index = Some (OpSettled settled outcomes) ->
  ow_held w !! index = Some (OpSettled settled outcomes)
  \/ exists answers, c = Finish index answers /\ given settled answers
       /\ ow_held w !! index = Some (begun_as (OpSettled settled outcomes)).
Proof.
  intros [L S] H. assert (between c \/ exists i, (exists a, c = Finish i a) \/ c = DropOperation i) as Hc.
  { destruct c; eauto; by left. }
  destruct Hc as [Hc|(i & [[a ->]| ->])].
  - destruct (between_held w c Hc) as [E|(o & E & Ho)]; rewrite E in H; [by left|].
    apply lookup_app_Some in H as [H|[Hi H]]; [by left|].
    destruct (index - length (ow_held w))%nat; [|done]. injection H as ->.
    by apply begun_not_settled in Ho.
  - simpl in H. destruct (ow_held w !! i) as [o|] eqn:Ho; [|by left].
    destruct (leased_held _ _ _ L Ho) as (-> & Hh & _).
    destruct (finish (ow_state w) (ow_counter w) o a) as [[s' k'] [r|rest]] eqn:Ef;
      simpl in H; rewrite Hh in H; [done|].
    destruct index; [|done]. injection H as ->. destruct (finish_given _ _ _ _ _ _ _ _ Ef) as [Hg Hb].
    right. exists a. subst o. by rewrite Hh.
  - simpl in H. destruct (ow_held w !! i) as [o|] eqn:Ho; [|by left].
    destruct (leased_held _ _ _ L Ho) as (-> & Hh & _). rewrite Hh in *.
    destruct o; simpl in H; try (rewrite Hh in H); by left.
Qed.
Lemma settled_traced calls index settled outcomes :
  ow_held (run owner_new calls).1 !! index = Some (OpSettled settled outcomes) ->
  exists before answers after,
    calls = before ++ Finish index answers :: after /\ given settled answers
    /\ ow_held (run owner_new before).1 !! index = Some (begun_as (OpSettled settled outcomes)).
Proof.
  induction calls as [|c calls IH] using rev_ind; [done|].
  rewrite run_snoc. intros H.
  destruct (held_settled_step _ _ _ _ _ (run_ok owner_new calls owner_new_ok) H) as [H1|(a & -> & H1 & H2)].
  - destruct (IH H1) as (before & answers & after & -> & Hg & Hh).
    exists before, answers, (after ++ [c]). by rewrite <- app_assoc.
  - by exists calls, a, [].
Qed.

(** ** Lifecycles *)

Definition lifecycle_of (s : RecordingState) : option RideLifecycleState := state (a_recorder s).

(** A commit for the current ride has its lifecycle. *)
Definition agrees (outcome : VerifiedConnectionAdmissionOutcome) (s : RecordingState) : Prop :=
  forall c, vo_committed_ride_checkpoint outcome = Some c -> a_ride_id s = Some (cm_ride_id c) ->
    lifecycle_of s = Some (cm_lifecycle c).
(** The lifecycle of a stored ride; one that was paused by hand when the
    recording ended is shown so again by a policy that restores by itself. *)
Definition restored_lifecycle (snapshot : RideRestoreSnapshot) (automatic : bool)
  : option RideLifecycleState :=
  (fun ride =>
     if bool_decide (rr_state ride = Interrupted) && automatic
        && bool_decide (is_Some (rr_paused_at ride))
     then Paused else rr_state ride) <$> rs_ride snapshot.
(** A stale ride that was settled: forgotten or saved, or replaced by the
    running ride that the database answers. *)
Definition settled_as (ride : RideRecord) (current : option Committed) (s' : RecordingState)
  : Prop :=
  lifecycle_of s' = None /\ a_ride_id s' = None
  \/ match current with
     | Some c =>
         if bool_decide (cm_ride_id c = rr_id ride) then lifecycle_of s' = Some Saved
         else cm_lifecycle c = Active /\ lifecycle_of s' = Some Active
              /\ a_ride_id s' = Some (cm_ride_id c)
     | None => lifecycle_of s' = Some Saved
     end.
(** What a restoration with a policy shows: what it read, or, once the
    database committed that, the resumed or the settled ride. *)
Definition recovered (snapshot : RideRestoreSnapshot) (policy : RideRecoveryPolicy)
    (answers : Answers) (s' : RecordingState) : Prop :=
  lifecycle_of s' = restored_lifecycle snapshot (po_enabled policy)
  \/ exists ride, rs_ride snapshot = Some ride /\
     ((exists c, an_committed answers = Ok c /\ cm_ride_id c = rr_id ride
         /\ cm_lifecycle c = Active /\ lifecycle_of s' = Some Active)
      \/ exists current, an_settled answers = Ok current /\ settled_as ride current s').

(** What the database said before a lifecycle was published. *)
Definition confirmed (o : Operation) (answers : Answers) (s s' : RecordingState) : Prop :=
  match o with
  | OpRestore _ => exists snapshot, an_restore answers = Ok snapshot
      /\ match an_policy answers with
         | None => lifecycle_of s' = rr_state <$> rs_ride snapshot
         | Some policy => recovered snapshot policy answers s'
         end
  | OpStart _ => exists c, an_committed answers = Ok c /\ cm_lifecycle c = Active
      /\ lifecycle_of s' = Some Active /\ a_ride_id s' = Some (cm_ride_id c)
  | OpTransition _ => exists c, an_committed answers = Ok c
      /\ a_ride_id s = Some (cm_ride_id c) /\ lifecycle_of s' = Some (cm_lifecycle c)
  | OpStop _ => an_fence answers = true /\ exists c, an_committed answers = Ok c
      /\ a_ride_id s = Some (cm_ride_id c) /\ lifecycle_of s' = Some (cm_lifecycle c)
  | OpConnection o => exists outcome, an_admission answers = Ok outcome
      /\ vo_selected_device_matches outcome = true /\ pv_selected_mutations o <> []
      /\ (a_restore_phase s' = PhaseRecoveryRequired
          \/ lifecycle_of s' = Some Active /\ agrees outcome s')
  | OpSettled _ _ => False
  end.

Lemma undisturbed_lifecycle s s' : undisturbed s s' -> lifecycle_of s' = lifecycle_of s.
Proof. intros [_ _ _ _ (_ & H & _) _]. exact H. Qed.
Lemma release_lifecycle s id : lifecycle_of (release s id) = lifecycle_of s.
Proof. apply undisturbed_lifecycle, release_undisturbed. Qed.
Lemma settled_lifecycle s ready :
  lifecycle_of (settle_ready_location_writes great_circle s ready).1 = lifecycle_of s
  /\ a_ride_id (settle_ready_location_writes great_circle s ready).1 = a_ride_id s.
Proof.
  pose proof (settle_ready_frame s ready) as H.
  destruct (settle_ready_location_writes great_circle s ready) as [s' outcomes].
  destruct H as (F & _ & _ & T & _). by injection F.
Qed.
Lemma storage_error_lifecycle s id e :
  lifecycle_of (release (command_storage_error s id e) id) = lifecycle_of s.
Proof.
  rewrite release_lifecycle. apply undisturbed_lifecycle, command_storage_error_undisturbed.
Qed.

Lemma restored_observations_state r ride : state (restored_observations r ride) = state r.
Proof.
  unfold restored_observations.
  set (r1 := match rr_motion ride ≫= mo_last_stationary with Some _ => _ | None => _ end).
  assert (E : state r1 = state r).
  { unfold r1. destruct (rr_motion ride ≫= mo_last_stationary) as [at_|]; [|done].
    apply (mark_stationary_same r at_). }
  rewrite <- E. clearbody r1. destruct (rr_stationary ride) as [sample|].
  - unfold restore_stationary_observation. destruct (_ || _ || _ || _); [done|]. cbn [fst].
    destruct (mark_stationary_same (r1 <| latest_location_observation := Some sample |>)
                (monotonic sample)) as (_ & -> & _). by destruct r1.
  - destruct (rr_last_location_observation ride) as [[at_ wall]|]; [|done].
    unfold restore_location_observation. destruct (last_point r1); [|done].
    destruct (_ || _ || _); [done|]. by destruct r1.
Qed.
Lemma restore_projection_lifecycle s k snapshot automatic :
  lifecycle_of (restore_projection s k snapshot automatic).1 = restored_lifecycle snapshot automatic.
Proof.
  unfold lifecycle_of, restore_projection, restored_lifecycle.
  destruct (rs_ride snapshot) as [ride|]; [|by destruct s].
  unfold restored_recorder, restored_with_summary_and_timing.
  destruct (next_recording_generation k) as [g k']. simpl.
  match goal with |- context [restored_observations ?r ride] =>
    pose proof (restored_observations_state r ride) as H end.
  simpl in H. destruct s. exact H.
Qed.

Lemma finish_restore_lifecycle s k o answers :
  database = true -> an_policy answers = None ->
  let s' := (finish_restore database s k o (an_restore answers)).1.1 in
  lifecycle_of s' <> lifecycle_of s -> confirmed (OpRestore o) answers s s'.
Proof.
  intros Hdb Hpol. cbv zeta. unfold finish_restore, awaited. rewrite Hdb. simpl. rewrite Hpol.
  destruct (an_restore answers) as [snapshot|e] eqn:Er; simpl; [|by rewrite release_lifecycle].
  destruct (negb _); [done|]. case_bool_decide; [by destruct s|]. simpl.
  pose proof (restore_projection_lifecycle s k snapshot false) as Hr.
  destruct (restore_projection s k snapshot false) as [s1 k1]. simpl in *. intros _.
  exists snapshot. split; [done|]. transitivity (lifecycle_of s1); [by destruct s1|].
  rewrite Hr. unfold restored_lifecycle. destruct (rs_ride snapshot); [|done]. simpl.
  by rewrite andb_false_r.
Qed.

(** *** Restoration with a policy *)

Lemma resume_restored_lifecycle s ride_id timing_last now answer :
  database = true ->
  let s' := (resume_restored database s ride_id timing_last now answer).1 in
  lifecycle_of s' = lifecycle_of s
  \/ exists c, answer = Ok c /\ cm_ride_id c = ride_id /\ cm_lifecycle c = Active
       /\ lifecycle_of s' = Some Active.
Proof.
  intros Hdb. unfold resume_restored, awaited. rewrite Hdb.
  destruct (validate_transition (a_recorder s) Resume) as [t|] eqn:Et; [|by left].
  destruct answer as [c|]; simpl; [|by left].
  destruct (_ || _) eqn:Ec; [by left|]. prop_bools. simplify_eq.
  destruct (apply_transition_at (a_recorder s) t _) as [r [[]|]] eqn:E1.
  2:{ apply apply_transition_Err in E1 as ->. left. by destruct s. }
  destruct (apply_same_route _ _ _ _ E1) as (_ & _ & Hs & _).
  assert (next t = Active) as Hn.
  { unfold validate_transition in Et. destruct (state (a_recorder s)) as [current|]; [|done].
    unfold transition in Et. destruct current; by simplify_eq/=. }
  right. exists c. rewrite Hn in Hs.
  destruct (apply_transition_at (a_admission_recorder _) t _) as [r' [[]|]]; by destruct s.
Qed.
Lemma applied_save_state r r' : applied_event r Save = Ok r' -> state r' = Some Saved.
Proof.
  unfold applied_event. destruct (validate_transition r Save) as [t|] eqn:Et; [|done].
  unfold apply_transition. destruct (apply_transition_at r t _) as [r1 [[]|]] eqn:E; [|done].
  intros [= <-]. destruct (apply_same_route _ _ _ _ E) as (_ & _ & -> & _).
  unfold validate_transition in Et. destruct (state r) as [current|]; [|done].
  unfold transition in Et. destruct current; by simplify_eq/=.
Qed.
Lemma saved_recorder_state r explicit recorded r' :
  saved_recorder r explicit recorded = Ok r' -> state r' = Some Saved.
Proof.
  unfold saved_recorder. destruct (if explicit then None else recorded) as [d|].
  - unfold save_interrupted_at_recorded_duration. destruct (_ || _ || _); [done|].
    pose proof (applied_save_state r) as H. unfold applied_event in H.
    destruct (validate_transition r Save) as [t|]; [|done].
    destruct (apply_transition r t) as [r1 [[]|]]; [|done]. intros [= <-].
    rewrite <- (H r1 eq_refl). by destruct r1.
  - destruct explicit; simpl; [|apply applied_save_state].
    destruct (applied_event r Stop) as [r1|]; [|done]. apply applied_save_state.
Qed.
Lemma save_recovered_lifecycle s explicit recorded :
  let '(s', r) := save_recovered_projection s explicit recorded in
  match r with
  | Ok _ => lifecycle_of s' = Some Saved
  | Err _ => s' = s
  end.
Proof.
  unfold save_recovered_projection.
  destruct (saved_recorder (a_recorder s) explicit recorded) as [r|] eqn:E; [|done].
  destruct (saved_recorder (a_admission_recorder s) explicit recorded); [|done].
  apply saved_recorder_state in E. by destruct s.
Qed.
Lemma start_replacement_lifecycle s k c now candidate :
  let '(s', _, r) := start_replacement s k c now candidate in
  match r with
  | Ok _ => cm_lifecycle c = Active /\ lifecycle_of s' = Some Active
            /\ a_ride_id s' = Some (cm_ride_id c)
  | Err _ => s' = s
  end.
Proof.
  unfold start_replacement. case_bool_decide; simpl; [|done].
  destruct (start recorder_new k now candidate) as [[r k1] [[]|]] eqn:E; [|done].
  destruct (start_requires _ _ _ _ _ _ E) as [_ [= Hr _]]. by destruct s.
Qed.
Lemma settle_stale_lifecycle s k ride context policy answer :
  database = true -> rc_ride_id context = rr_id ride ->
  let s' := (settle_stale database s k context policy answer).1.1 in
  lifecycle_of s' = lifecycle_of s
  \/ exists current, answer = Ok current /\ settled_as ride current s'.
Proof.
  intros Hdb Hid. unfold settle_stale, awaited. rewrite Hdb, Hid.
  destruct answer as [current|]; cbn [result_bind]; [|by left]. cbv zeta.
  set (s1 := s <| a_recoverable_updated_at := None |>).
  assert (L1 : lifecycle_of s1 = lifecycle_of s) by by destruct s. rewrite <- L1. clearbody s1.
  assert (Hreset : lifecycle_of (reset_after_recovery s1) = None
                   /\ a_ride_id (reset_after_recovery s1) = None) by by destruct s1.
  change (mjoin (Some current)) with current. unfold settled_as.
  destruct current as [c|]; simpl.
  - case_bool_decide as Hc; simpl.
    + destruct (_ && _); [right; eexists; split; [done|left; exact Hreset]|].
      pose proof (save_recovered_lifecycle (s1 <| a_checkpoint := Some (cm_checkpoint c) |>)
        (rc_explicit_pause context) (rc_recorded_duration context)) as H.
      destruct (save_recovered_projection _ _ _) as [s2 [[]|]]; simpl.
      * right. eexists. split; [done|]. right. by rewrite bool_decide_eq_true_2.
      * subst s2. left. by destruct s1.
    + match goal with |- context [start_replacement ?a ?b ?c0 ?d ?e] =>
        pose proof (start_replacement_lifecycle a b c0 d e) as H;
        destruct (start_replacement a b c0 d e) as [[s2 k2] [[]|]] end; simpl; right; eexists;
        (split; [done|]); [right|subst s2; left; exact Hreset]. by rewrite bool_decide_eq_false_2.
  - destruct (_ && _); [right; eexists; split; [done|left; exact Hreset]|].
    pose proof (save_recovered_lifecycle s1 (rc_explicit_pause context)
      (rc_recorded_duration context)) as H.
    destruct (save_recovered_projection _ _ _) as [s2 [[]|]]; simpl; [|by subst s2; left].
    right. eexists. split; [done|by right].
Qed.
Lemma apply_recovery_lifecycle s k snapshot ride context policy transition_answer settle_answer :
  database = true -> recovery_context snapshot = Some context -> rs_ride snapshot = Some ride ->
  let s' := (apply_recovery database s k context policy transition_answer settle_answer).1.1 in
  lifecycle_of s' = lifecycle_of s
  \/ (exists c, transition_answer = Ok c /\ cm_ride_id c = rr_id ride
         /\ cm_lifecycle c = Active /\ lifecycle_of s' = Some Active)
  \/ exists current, settle_answer = Ok current /\ settled_as ride current s'.
Proof.
  intros Hdb Hcontext Hride. unfold recovery_context in Hcontext. rewrite Hride in Hcontext.
  assert (Hid : rc_ride_id context = rr_id ride) by by simplify_eq/=.
  clear Hcontext. unfold apply_recovery. case_bool_decide as Ha.
  { destruct (negb _); [by left|]. left. by destruct s. }
  destruct (negb _); [by left|]. destruct (ride_recovery_decision _ _ _); [|by left|].
  - destruct (negb _); [|by left].
    pose proof (resume_restored_lifecycle s (rc_ride_id context) (rc_timing_last context)
      (po_monotonic_now policy) transition_answer Hdb) as H. rewrite Hid in H.
    rewrite Hid. destruct (resume_restored _ _ _ _ _ _) as [s1 [[]|]]; cbn [fst] in *.
    + assert (E : lifecycle_of (s1 <| a_recoverable_updated_at := None |>) = lifecycle_of s1)
        by by destruct s1. rewrite E. destruct H; auto.
    + destruct H; auto.
  - destruct (settle_stale_lifecycle s k ride context policy settle_answer Hdb Hid); auto.
Qed.
Lemma recovered_alike snapshot policy answers s1 s2 :
  lifecycle_of s2 = lifecycle_of s1 -> a_ride_id s2 = a_ride_id s1 ->
  recovered snapshot policy answers s1 -> recovered snapshot policy answers s2.
Proof. unfold recovered, settled_as. by intros -> ->. Qed.
Lemma finish_restore_policy_lifecycle s k o answers policy :
  database = true -> an_policy answers = Some policy ->
  let s' := (finish_restore_with_policy database s k o policy (an_restore answers)
               (an_committed answers) (an_settled answers)).1.1 in
  lifecycle_of s' <> lifecycle_of s -> confirmed (OpRestore o) answers s s'.
Proof.
  intros Hdb Hpol. cbv zeta. unfold finish_restore_with_policy, awaited. rewrite Hdb. simpl.
  rewrite Hpol.
  destruct (an_restore answers) as [snapshot|e] eqn:Er; simpl; [|by rewrite release_lifecycle].
  destruct (negb _); [done|]. case_bool_decide as Hg; [by destruct s|].
  pose proof (restore_projection_lifecycle s k snapshot (po_enabled policy)) as Hr.
  destruct (restore_projection s k snapshot (po_enabled policy)) as [s1 k1]. simpl in Hr.
  intros _. exists snapshot. split; [done|].
  destruct (recovery_context snapshot) as [context|] eqn:Ec; cbn [mbind option_bind]; rewrite ?Ec.
  2:{ cbn [fst]. apply (recovered_alike _ _ _ s1); [by destruct s1..|by left]. }
  assert (exists ride, rs_ride snapshot = Some ride) as [ride Hride].
  { unfold recovery_context in Ec. destruct (rs_ride snapshot); [by eexists|done]. }
  pose proof (apply_recovery_lifecycle s1 k1 snapshot ride context policy (an_committed answers)
    (an_settled answers) Hdb Ec Hride) as H. rewrite Hr, Hdb in H.
  destruct (apply_recovery _ _ _ _ _ _ _) as [[s2 k2] d]. cbn [fst] in H.
  assert (R : recovered snapshot policy answers s2)
    by (destruct H as [H|[H|H]]; [by left|right; eauto..]).
  destruct d as [d|e]; cbn [fst]; (eapply recovered_alike; [..|exact R]).
  - by destruct s2.
  - by destruct s2.
  - apply release_lifecycle.
  - apply (und_ride _ _ (release_undisturbed s2 _)).
Qed.

Lemma finish_start_lifecycle s k o answers :
  database = true ->
  let s' := (finish_start database s k o (an_committed answers) (an_fresh_id answers)).1.1 in
  lifecycle_of s' <> lifecycle_of s -> confirmed (OpStart o) answers s s'.
Proof.
  intros Hdb. cbv zeta. unfold finish_start, awaited. rewrite Hdb. simpl.
  destruct (an_committed answers) as [c|e] eqn:Er; simpl; [|by rewrite storage_error_lifecycle].
  destruct (negb (command_is_pending _ _)); [done|].
  case_bool_decide as Ec; simpl; [|by destruct s].
  destruct (start _ _ _ _) as [[r k1] [[]|e]] eqn:Es; simpl.
  - intros _. exists c. split_ands; try done; [|by destruct s].
    assert (state r = Some Active) as Hst.
    { unfold start in Es. destruct (negb _); [by simplify_eq|].
      destruct (next_recording_generation k) as [[g|] k2]; by simplify_eq/=. }
    destruct s. exact Hst.
  - unfold start in Es. destruct (negb _); [simplify_eq; by destruct s|].
    destruct (next_recording_generation k) as [[g|] k2]; simplify_eq; by destruct s.
Qed.
(** The first locked region of a finish leaves the lifecycle as it is. *)
Lemma await_transition_still s o answer ready :
  still s (await_transition database great_circle s o answer ready).1.
Proof.
  unfold await_transition. destruct (awaited database answer).
  2:{ apply undisturbed_still. etransitivity; [apply command_storage_error_undisturbed|apply release_undisturbed]. }
  pose proof (settled_still s ready) as H. by destruct (settle_ready_location_writes _ _ _).
Qed.
Lemma await_stop_still s o fence answer ready :
  still s (await_stop database great_circle s o fence answer ready).1.
Proof.
  unfold await_stop. destruct (negb fence); [apply undisturbed_still, release_undisturbed|].
  destruct (awaited database answer).
  2:{ apply undisturbed_still. etransitivity; [apply command_storage_error_undisturbed|apply release_undisturbed]. }
  pose proof (settled_still s ready) as H. by destruct (settle_ready_location_writes _ _ _).
Qed.
Lemma await_admission_still s o answer ready :
  still s (await_admission database great_circle s o answer ready).1.
Proof.
  unfold await_admission. destruct (pv_immediate_noop o); [done|].
  destruct (awaited database answer).
  2:{ destruct (pv_lease o); [|done]. apply undisturbed_still.
      etransitivity; [apply command_storage_error_undisturbed|apply release_undisturbed]. }
  pose proof (settled_still s ready) as H. by destruct (settle_ready_location_writes _ _ _).
Qed.
Lemma given_answer {A} (answer : result A StorageError) committed :
  database = true -> awaited database answer = Ok committed ->
  exists c, answer = Ok c /\ committed = Some c.
Proof. intros ->. destruct answer as [c|]; [|done]. intros [= <-]. by exists c. Qed.

Lemma publish_transition_lifecycle s o committed outcomes answers :
  database = true -> given (SettledTransition o committed) answers ->
  let s' := (publish_transition s o committed outcomes).1 in
  lifecycle_of s' <> lifecycle_of s -> confirmed (OpTransition o) answers s s'.
Proof.
  intros Hdb Hg. destruct (given_answer _ _ Hdb Hg) as (c & Er & ->). cbv zeta.
  unfold publish_transition. destruct (negb _); [done|].
  set (s1 := extend_settled s outcomes).
  assert (lifecycle_of s1 = lifecycle_of s /\ a_ride_id s1 = a_ride_id s) as [<- Hride] by by destruct s.
  clearbody s1.
  destruct (contradicts _ _ _ _) eqn:Ec; [by destruct s1|].
  destruct (contradicts_false _ _ _ _ Ec) as [Hr Hc]. destruct (Hc c eq_refl) as [H1 H2].
  set (s2 := note_receipt _ _ _).
  assert (E2 : lifecycle_of s2 = lifecycle_of s1)
    by (unfold s2; destruct s1, (pt_last_telemetry_at o); done).
  clearbody s2. rewrite <- E2.
  destruct (apply_transition_at (a_recorder s2) _ _) as [r [[]|e1]] eqn:E1; [|by destruct s2].
  destruct (apply_transition_at (a_admission_recorder s2) _ _) as [r' [[]|e1]]; [|by destruct s2].
  destruct (apply_same_route _ _ _ _ E1) as (_ & _ & Hst & _). intros _. exists c.
  split_ands; [done|congruence|]. rewrite H2, <- Hst.
  case_bool_decide; case_bool_decide; by destruct s2.
Qed.
Lemma publish_stop_lifecycle s k o committed outcomes answers :
  database = true -> sound s k -> given (SettledStop o committed) answers ->
  let s' := (publish_stop s o committed outcomes).1 in
  lifecycle_of s' <> lifecycle_of s -> confirmed (OpStop o) answers s s'.
Proof.
  intros Hdb Hs [Hf Hg]. destruct (given_answer _ _ Hdb Hg) as (c & Er & ->). cbv zeta.
  unfold publish_stop. destruct (negb _); [done|].
  apply (extend_settled_sound _ _ outcomes) in Hs. set (s1 := extend_settled s outcomes) in *.
  assert (lifecycle_of s1 = lifecycle_of s /\ a_ride_id s1 = a_ride_id s) as [<- Hride] by by destruct s.
  clearbody s1.
  destruct (contradicts _ _ _ _) eqn:Ec; [by destruct s1|].
  destruct (contradicts_false _ _ _ _ Ec) as [Hr Hc]. destruct (Hc c eq_refl) as [H1 H2].
  set (s2 := note_receipt _ _ _).
  assert (a_recorder s2 = a_recorder s1 /\ a_admission_recorder s2 = a_admission_recorder s1)
    as [E2 E3] by (unfold s2; destruct s1, (pp_last_telemetry_at o); done).
  clearbody s2. unfold lifecycle_of. rewrite <- E2.
  destruct (apply_transition_at (a_recorder s2) _ _) as [r [[]|e1]] eqn:E1.
  2:{ apply apply_transition_Err in E1 as ->. by destruct s2. }
  rewrite E2 in E1.
  destruct (shadow_applies _ _ _ (pp_at o) _ (snd_shadows _ _ Hs (mk_is_Some _ _ Hr)) E1) as [r' E4].
  rewrite <- E2 in E1. rewrite <- E3 in E4.
  destruct (apply_same_route _ _ _ _ E1) as (_ & _ & Hst1 & _). intros _. split; [done|].
  exists c. split_ands; [done|congruence|]. rewrite H2, <- Hst1.
  destruct s2. simpl in *. by rewrite E4.
Qed.

Lemma adopt_lifecycle s outcome :
  let '(s', r) := adopt_admission_checkpoint s (vo_committed_ride_checkpoint outcome) in
  lifecycle_of s' = lifecycle_of s /\ a_ride_id s' = a_ride_id s
  /\ match r with Ok _ => agrees outcome s' | Err _ => a_restore_phase s' = PhaseRecoveryRequired end.
Proof.
  unfold adopt_admission_checkpoint, agrees.
  destruct (vo_committed_ride_checkpoint outcome) as [c|]; [|done].
  case_bool_decide as Hr; simpl; [|by split_ands; [..|intros c' [= <-]]].
  case_bool_decide as Hl; simpl; [|by destruct s].
  destruct (match a_checkpoint s with Some _ => _ | None => _ end); simpl;
    split_ands; try (by destruct s); intros c' [= <-] _; by destruct s.
Qed.
Lemma finish_admitted_lifecycle s k o outcome fresh_id :
  is_Some (vehicle_identity_new (pv_platform_identifier o)) ->
  ends_running (pv_selected_mutations o) ->
  let s' := (finish_admitted true s k o (reconcile_admission_receipt (Some outcome)) fresh_id).1.1 in
  lifecycle_of s' <> lifecycle_of s ->
  vo_selected_device_matches outcome = true /\ pv_selected_mutations o <> []
  /\ (a_restore_phase s' = PhaseRecoveryRequired
      \/ lifecycle_of s' = Some Active /\ agrees outcome s').
Proof.
  intros Hid Hrun. destruct (vo_selected_device_matches outcome) eqn:Hm.
  2:{ destruct (finish_unselected s k o (reconcile_admission_receipt (Some outcome)) fresh_id Hid Hm)
        as (s' & r & E & L & _). rewrite E. simpl. by unfold lifecycle_of. }
  unfold finish_admitted, apply_verified_admission_receipt. simpl rc_selected_device_matches.
  rewrite Hm. cbn [orb negb]. cbv zeta.
  set (s1 := s <| a_last_connected_vehicle := _ |>).
  assert (L1 : lifecycle_of s1 = lifecycle_of s) by by destruct s. rewrite <- L1. clearbody s1.
  unfold apply_selected_mutations.
  destruct (apply_mutations s1 k o _ false fresh_id _) as [[s2 k2] [[]|e]] eqn:E.
  2:{ simpl. intros H. split_ands; [done| |left; by destruct s2].
      intros En. rewrite En in E. simpl in E. by simplify_eq. }
  set (s3 := match pv_selected_mutations o with [] => _ | _ => _ end).
  assert (L3 : lifecycle_of s3 = lifecycle_of s2)
    by (unfold s3; destruct (pv_selected_mutations o), s2; done).
  clearbody s3. pose proof (adopt_lifecycle s3 outcome) as H.
  change (rc_committed (reconcile_admission_receipt (Some outcome)))
    with (vo_committed_ride_checkpoint outcome).
  destruct (adopt_admission_checkpoint s3 _) as [s4 r]. destruct H as (L4 & _ & H4).
  assert (Hn : lifecycle_of s4 <> lifecycle_of s1 -> pv_selected_mutations o <> []).
  { intros Hne En. rewrite En in E. simpl in E. injection E as -> _. congruence. }
  destruct r as [[]|e]; [|simpl; intros Hne; split_ands; auto].
  destruct (settle_admission_follows s4 o (reconcile_admission_receipt (Some outcome)) Hid)
    as (s5 & r & E5 & L5 & I5 & _). rewrite E5. simpl. unfold lifecycle_of at 1. rewrite L5.
  intros Hne. split_ands; auto. right. split.
  - transitivity (lifecycle_of s2); [transitivity (lifecycle_of s4); [exact L5|congruence]|].
    eapply apply_mutations_running; [exact E|done|auto].
  - intros c Hc Hr. unfold lifecycle_of. rewrite L5. apply (H4 c Hc). congruence.
Qed.
Lemma publish_admission_lifecycle s k o outcome outcomes answers fresh_id :
  database = true -> valid_operation (OpConnection o) ->
  given (SettledConnection o outcome) answers ->
  let s' := (publish_admission database s k o outcome outcomes fresh_id).1.1 in
  lifecycle_of s' <> lifecycle_of s -> confirmed (OpConnection o) answers s s'.
Proof.
  intros Hdb (Hn & [id Hl] & Hid & _ & Hrun) Hg.
  destruct (given_answer _ _ Hdb Hg) as (oc & Er & ->). cbv zeta.
  unfold publish_admission. rewrite Hl, Hdb. set (s1 := extend_settled s outcomes).
  assert (L1 : lifecycle_of s1 = lifecycle_of s) by by destruct s.
  rewrite <- L1. clearbody s1. destruct (negb _); [done|].
  pose proof (finish_admitted_lifecycle s1 k o oc fresh_id Hid Hrun) as H.
  destruct (finish_admitted _ _ _ _ _ _) as [[s2 k2] r]. simpl in *. rewrite release_lifecycle.
  intros Hne. destruct (H Hne) as (H1 & H2 & H3). exists oc. split_ands; try done.
  destruct (release_undisturbed s2 id) as [_ _ _ Hr _ _].
  destruct H3 as [H3|[H3 H4]]; [left|right; split; [done|]].
  - unfold release. destruct (command_is_pending s2 id); [|done]. by destruct s2.
  - intros c Hc Hi. rewrite release_lifecycle. apply (H4 c Hc). congruence.
Qed.

(** Who said that the lifecycle may change: the answers of this call, or those
    the finish was given before its first lock was released. *)
Definition allowed (calls : list OwnerCall) (index : nat) (o : Operation) (answers : Answers)
    (s s' : RecordingState) : Prop :=
  match o with
  | OpSettled settled _ =>
      exists before earlier after,
        calls = before ++ Finish index earlier :: after
        /\ ow_held (run owner_new before).1 !! index = Some (begun_as o)
        /\ confirmed (begun_as o) earlier s s'
  | o => confirmed o answers s s'
  end.
Lemma finish_lifecycle calls index o answers :
  database = true ->
  let w := (run owner_new calls).1 in
  ow_held w !! index = Some o ->
  let s' := (finish (ow_state w) (ow_counter w) o answers).1.1 in
  lifecycle_of s' <> lifecycle_of (ow_state w) -> allowed calls index o answers (ow_state w) s'.
Proof.
  intros Hdb w Ho. cbv zeta. destruct (run_ok owner_new calls owner_new_ok) as [L S]. fold w in L, S.
  destruct (leased_held _ _ _ L Ho) as (_ & _ & Hp & Hv).
  destruct o as [o|o|o|o|o|settled l]; unfold finish, allowed.
  - destruct (an_policy answers) as [policy|] eqn:Hpol.
    + pose proof (finish_restore_policy_lifecycle (ow_state w) (ow_counter w) o answers policy Hdb Hpol)
        as H.
      by destruct (finish_restore_with_policy _ _ _ _ _ _ _ _) as [[? ?] [[]|]].
    + pose proof (finish_restore_lifecycle (ow_state w) (ow_counter w) o answers Hdb Hpol) as H.
      by destruct (finish_restore _ _ _ _ _) as [[]].
  - pose proof (finish_start_lifecycle (ow_state w) (ow_counter w) o answers Hdb) as H.
    by destruct (finish_start _ _ _ _ _ _) as [[]].
  - destruct (await_transition_still (ow_state w) o (an_committed answers) (an_ready answers))
      as [[= H _] _]. by destruct (await_transition _ _ _ _ _ _).
  - destruct (await_stop_still (ow_state w) o (an_fence answers) (an_committed answers)
      (an_ready answers)) as [[= H _] _]. by destruct (await_stop _ _ _ _ _ _ _).
  - destruct (await_admission_still (ow_state w) o (an_admission answers) (an_ready answers))
      as [[= H _] _]. by destruct (await_admission _ _ _ _ _ _).
  - destruct (settled_traced calls index settled l Ho) as (before & earlier & after & E & Hg & Hh).
    intros Hne. exists before, earlier, after. split_ands; [done..|]. revert Hne.
    destruct settled as [o c|o c|o c]; simpl begun_as.
    + pose proof (publish_transition_lifecycle (ow_state w) o c l earlier Hdb Hg) as H.
      by destruct (publish_transition _ _ _ _).
    + pose proof (publish_stop_lifecycle (ow_state w) _ o c l earlier Hdb S Hg) as H.
      by destruct (publish_stop _ _ _ _).
    + pose proof (publish_admission_lifecycle (ow_state w) (ow_counter w) o c l earlier
        (an_fresh_id answers) Hdb Hv Hg) as H.
      by destruct (publish_admission _ _ _ _ _ _ _) as [[]].
Qed.

(** Only finishing an operation can touch the lifecycle. *)
Lemma begin_still w c :
  match c with
  | BeginRestore _ | BeginStart _ _ _ _ | BeginTransition _ _ _ _ _ | BeginStop _ _ _ => True
  | _ => False
  end -> still (ow_state w) (ow_state (owner_step w c).1).
Proof.
  intros Hc. destruct c; try done; simpl.
  - pose proof (begin_restore_prepares (ow_state w) queued0) as H.
    destruct (begin_restore _ _ _) as [s' []]; by apply undisturbed_still, H.
  - pose proof (begin_start_prepares (ow_state w) at_ candidate policy queued0) as H.
    destruct (begin_start _ _ _ _ _ _) as [s' []]; by apply undisturbed_still, H.
  - pose proof (begin_transition_prepares (ow_state w) token event at_ telemetry_at queued0) as H.
    destruct (begin_transition _ _ _ _ _ _ _) as [s' []]; by apply undisturbed_still, H.
  - pose proof (begin_stop_prepares (ow_state w) token at_ telemetry_at) as H.
    destruct (begin_stop_after_music _ _ _ _) as [s' []]; by apply undisturbed_still, H.
Qed.
Lemma begin_connection_still w platform at_ generation policy wall_clock autostart selected queued_ :
  owner_ok w ->
  still (ow_state w) (ow_state (owner_step w (BeginConnection platform at_ generation policy
                                                wall_clock autostart selected queued_)).1).
Proof.
  intros [_ S]. simpl.
  pose proof (begin_admission_begun database (ow_state w) (ow_counter w) platform at_ generation
    policy wall_clock autostart selected queued_ (snd_counter _ _ S)) as H.
  destruct (begin_verified_connection_admission _ _ _ _ _ _ _ _ _ _ _) as [[s' k'] [o|e]];
    destruct H as [_ H].
  - destruct (pv_immediate_noop o); [by subst s'|]. destruct H as [_ -> _ _ _ _]. by destruct (ow_state w).
  - by subst s'.
Qed.
Lemma checkpoint_still s update fence ready :
  still s (checkpoint_telemetry_receipt database s update).1
  /\ still s (checkpoint_location_writes database great_circle s fence ready).1.
Proof.
  split; [apply undisturbed_still, checkpoint_receipt_calm|].
  unfold checkpoint_location_writes. destruct (awaited database fence); [|done].
  pose proof (settled_still s ready) as H.
  by destruct (settle_ready_location_writes great_circle s ready).
Qed.
Lemma other_still w c :
  owner_ok w -> match c with Finish _ _ => False | _ => True end ->
  still (ow_state w) (ow_state (owner_step w c).1).
Proof.
  intros Hw Hc. pose proof Hw as [_ S].
  destruct c; try done; try (by apply begin_still); try (by apply begin_connection_still); simpl.
  - destruct (ow_held w !! index) as [[]|]; try done;
      apply undisturbed_still, release_undisturbed.
  - apply undisturbed_still, vehicle_speed_calm.
  - apply undisturbed_still, phone_speed_calm.
  - apply undisturbed_still, restore_motion_calm.
  - pose proof (undisturbed_still _ _ (proj1 (telemetry_calm (ow_state w) at_ speed vehicle update))) as H.
    by destruct (app_observe_telemetry _ _ _ _ _ _).
  - pose proof (admit_location_located (ow_state w) sample answers (snd_memory _ _ S)) as H.
    destruct (admit_location _ _ _ _ _). by destruct H as (_ & _ & H & _).
  - pose proof (settled_still (ow_state w) ready) as H.
    by destruct (settle_ready_location_writes _ _ _).
  - pose proof (undisturbed_still _ _ (proj1 (checkpoint_receipt_calm (ow_state w) update))) as H.
    by destruct (checkpoint_telemetry_receipt _ _ _).
  - destruct (checkpoint_still (ow_state w) (Err ResponseDropped) fence ready) as [_ H].
    by destruct (checkpoint_location_writes _ _ _ _ _).
  - unfold app_checkpoint.
    destruct (checkpoint_still (ow_state w) update fence ready) as [H _].
    destruct (checkpoint_telemetry_receipt _ _ _) as [s1 [[]|]]; [|done].
    destruct (checkpoint_still s1 update fence ready) as [_ H2]. simpl in H.
    destruct (checkpoint_location_writes _ _ s1 _ _). by etransitivity.
Qed.

Lemma other_lifecycle w c :
  owner_ok w -> match c with Finish _ _ => False | _ => True end ->
  lifecycle_of (ow_state (owner_step w c).1) = lifecycle_of (ow_state w).
Proof. intros Hw Hc. by destruct (other_still w c Hw Hc) as [[= H _] _]. Qed.

(** ** A connection does what was planned *)

Lemma shadow_position s k :
  sound s k -> is_Some (a_ride_id s) -> position (a_admission_recorder s) = position (a_recorder s).
Proof.
  intros S Hr. rewrite (same_route_position _ _ (snd_shadows _ _ S Hr)). unfold position.
  destruct (rebuilt_state (a_recorder s) (a_pending_locations s)) as [-> [= _ ->]]. done.
Qed.
Lemma still_tracks s k s' k' :
  sound s k -> sound s' k' -> still s s' -> tracks (preview_from_state s) s'.
Proof.
  intros S S' [Hp Hr]. split; [done| |by intros _]. simpl. intros Hs.
  rewrite (shadow_position _ _ S' ltac:(by rewrite Hr)), (shadow_position _ _ S Hs). done.
Qed.

(** What an admission that made [made] of its plan answers, if the ride was
    [ride] and the lifecycle is [lifecycle] afterwards: it names the ride it
    created and a commit for the current ride has that lifecycle. *)
Definition ride_made (outcome : VerifiedConnectionAdmissionOutcome) (made : list RideEvent)
    (ride : option RideId) : option RideId :=
  if bool_decide (Start ∈ made) then vo_created_ride_id outcome else ride.
Definition transaction_of (outcome : VerifiedConnectionAdmissionOutcome) (made : list RideEvent)
    (ride : option RideId) (lifecycle : option RideLifecycleState) : Prop :=
  (Start ∈ made -> created_by (reconcile_admission_receipt (Some outcome)))
  /\ forall c, vo_committed_ride_checkpoint outcome = Some c ->
     ride_made outcome made ride = Some (cm_ride_id c) -> lifecycle = Some (cm_lifecycle c).
(** What the caller is answered. *)
Definition answered (r : OwnerReply) (lifecycle : option RideLifecycleState) : Prop :=
  match r with
  | Finished snapshot => is_Some lifecycle /\ sn_lifecycle snapshot = lifecycle
  | Done => lifecycle = None
  | _ => False
  end.
Lemma connection_answered r lifecycle :
  (r = None <-> lifecycle = None) ->
  (forall snapshot, r = Some snapshot -> sn_lifecycle snapshot = lifecycle) ->
  answered (connection_replied (Ok r)) lifecycle.
Proof.
  intros Hn Hs. destruct r as [snapshot|]; simpl; [|exact (proj1 Hn eq_refl)].
  split; [|exact (Hs snapshot eq_refl)].
  destruct lifecycle; [by eexists|]. discriminate (proj2 Hn eq_refl).
Qed.

Lemma publish_admission_follows s k s2 k2 o p events id outcome outcomes fresh_id :
  database = true -> sound s k -> sound s2 k2 -> still s s2 ->
  valid_operation (OpConnection o) -> pv_lease o = Some id -> a_pending_command_id s2 = Some id ->
  planned s p (pv_selected_mutations o) events ->
  let made := if vo_selected_device_matches outcome then events else [] in
  let lifecycle := planned_lifecycle (lifecycle_of s) made in
  transaction_of outcome made (a_ride_id s) lifecycle -> (Start ∈ made -> k2 < u64_max) ->
  let '(s3, _, r) := publish_admission database s2 k2 o (Some outcome) outcomes fresh_id in
  answered (connection_replied r) lifecycle /\ lifecycle_of s3 = lifecycle
  /\ a_ride_id s3 = ride_made outcome made (a_ride_id s)
  /\ a_admission_generation s3 = Some (pv_connection_generation o).
Proof.
  intros Hdb S S2 Hst (Hn & _ & Hid & _) Hl Hp [_ HL HR HC]. cbv zeta.
  unfold publish_admission. rewrite Hl, Hdb.
  destruct (extend_settled_fields s2 outcomes) as (F1 & _ & F2 & P1 & _).
  apply (extend_settled_sound _ _ outcomes) in S2 as Hsnd.
  set (s1 := extend_settled s2 outcomes) in *.
  assert (Hst1 : still s2 s1) by (split; [by rewrite F1|done]). clearbody s1.
  assert (Hst' : still s s1) by (by etransitivity).
  unfold command_is_pending. rewrite (bool_decide_eq_true_2 (_ = Some id)) by congruence.
  cbn [negb]. unfold released.
  pose proof (still_tracks _ _ _ _ S Hsnd Hst') as T. destruct Hst' as [[= Hl1 _] Hr1].
  set (receipt := reconcile_admission_receipt (Some outcome)).
  assert (Hrel : forall x y, release x y = x \/ release x y = x <| a_pending_command_id := None |>).
  { intros x y. unfold release. destruct (command_is_pending x y); auto. }
  destruct (vo_selected_device_matches outcome) eqn:Hm.
  - intros [Hc Ha] Hk.
    destruct (finish_admitted_follows s1 k2 o receipt fresh_id (preview_from_state s) p Hid T HR Hm)
      as (s3 & k3 & r & E & L3 & I3 & G3 & N3 & A3).
    + split; [rewrite HC; intros Hin%bool_decide_eq_true_1; by apply Hc|].
      intros c Hcm Hrd. rewrite HL. apply (Ha c Hcm). revert Hrd. unfold ride_after, ride_made.
      by rewrite HC, Hr1.
    + rewrite HC. intros Hin%bool_decide_eq_true_1. split; [apply S2|by apply Hk].
    + rewrite E. unfold lifecycle_of. unfold ride_after in I3. rewrite HC, Hr1 in I3.
      rewrite HL in L3, N3, A3.
      destruct (Hrel s3 id) as [-> | ->]; split_ands; try (by apply connection_answered); by destruct s3.
  - intros _ _. unfold planned_lifecycle. cbn [bool_decide]. rewrite bool_decide_eq_true_2 by done.
    destruct (finish_unselected s1 k2 o receipt fresh_id Hid Hm) as (s3 & r & E & L3 & I3 & G3 & N3 & A3).
    rewrite E. unfold lifecycle_of, ride_made. rewrite bool_decide_eq_false_2 by (by intros ?%elem_of_nil).
    rewrite Hl1 in L3, N3, A3. rewrite Hr1 in I3.
    destruct (Hrel s3 id) as [-> | ->]; split_ands; try (by apply connection_answered); by destruct s3.
Qed.

(** What a connection that was not refused holds. *)
Lemma connection_prepared w platform at_ generation policy now autostart selected queued_ id :
  database = true -> owner_ok w ->
  let step := owner_step w (BeginConnection platform at_ generation policy (Some now) autostart
                              selected queued_) in
  step.2 = Prepared id ->
  exists o p, ow_held step.1 = [OpConnection o] /\ still (ow_state w) (ow_state step.1)
    /\ pv_lease o = Some id /\ pv_connection_generation o = generation
    /\ planned (ow_state w) p (pv_selected_mutations o)
         (if automatic database (ow_state w) generation (trim platform) autostart selected
          then planned_events (a_recorder (ow_state w)) (a_recoverable_updated_at (ow_state w))
                 (trim platform) now else [])
    /\ pv_platform_identifier o = trim platform.
Proof.
  intros Hdb Hw step. pose proof (other_still w (BeginConnection platform at_ generation policy
    (Some now) autostart selected queued_) Hw I) as Hst. revert Hst. unfold step. simpl.
  destruct Hw as [L S].
  pose proof (begin_admission_begun database (ow_state w) (ow_counter w) platform at_ generation
    policy (Some now) autostart selected queued_ (snd_counter _ _ S)) as H.
  destruct (begin_verified_connection_admission _ _ _ _ _ _ _ _ _ _ _) as [[s' k'] [o|e]];
    destruct H as [_ H]; [|done].
  destruct (pv_immediate_noop o); [by destruct (pv_immediate_snapshot o)|].
  destruct H as [Hfree _ Hlease Hgen Hid (now' & p & Hn & Hplan)]. simpl. intros Hst [= <-].
  rewrite Hdb in Hn. injection Hn as <-.
  assert (pv_platform_identifier o = trim platform) as Hi.
  { unfold vehicle_identity_new in Hid. case_bool_decide; congruence. }
  rewrite Hi in Hplan. exists o, p.
  assert (ow_held w = []) as ->.
  { unfold leased in L. destruct (ow_held w) as [|o1 [|]]; [done|destruct L; congruence|done]. }
  unfold lease. simpl. rewrite Hlease. by split_ands.
Qed.
Lemma between_kept w c o :
  owner_ok w -> ow_held w = [o] -> between c ->
  let w' := (owner_step w c).1 in
  owner_ok w' /\ ow_held w' = [o] /\ still (ow_state w) (ow_state w').
Proof.
  intros Hw Ho Hc. cbv zeta. destruct (owner_step_stepped w c Hw) as [Hw' _].
  split_ands; [done| |by apply other_still; [|destruct c]].
  destruct (between_held w c Hc) as [->|(o' & E & _)]; [done|].
  destruct Hw' as [L _]. unfold leased in L. by rewrite E, Ho in L.
Qed.
Lemma between_run w calls o :
  owner_ok w -> ow_held w = [o] -> Forall between calls ->
  let w' := (run w calls).1 in
  owner_ok w' /\ ow_held w' = [o] /\ still (ow_state w) (ow_state w').
Proof.
  intros Hw Ho Hc. cbv zeta. revert w Hw Ho. induction Hc as [|c calls Hc _ IH]; intros w Hw Ho; [done|].
  destruct (between_kept w c o Hw Ho Hc) as (H1 & H2 & H3). simpl.
  destruct (owner_step w c) as [w1 r]. simpl in *. destruct (IH w1 H1 H2) as (H4 & H5 & H6).
  destruct (run w1 calls) as [w2 trace]. simpl in *. split_ands; [done..|by etransitivity].
Qed.

(** The first locked region of the finish of a connection. *)
Lemma connection_unlocked w o answers outcome :
  database = true -> owner_ok w -> ow_held w = [OpConnection o] -> an_admission answers = Ok outcome ->
  let w' := (owner_step w (Finish 0 answers)).1 in
  exists outcomes, owner_ok w' /\ still (ow_state w) (ow_state w')
    /\ ow_held w' = [OpSettled (SettledConnection o (Some outcome)) outcomes].
Proof.
  intros Hdb Hw Hh Ha. destruct (owner_step_stepped w (Finish 0 answers) Hw) as [Hw' _].
  pose proof (await_admission_still (ow_state w) o (an_admission answers) (an_ready answers)) as Hst.
  destruct Hw as [L _].
  destruct (leased_held w 0 (OpConnection o) L) as (_ & _ & _ & Hn & _); [by rewrite Hh|].
  revert Hw' Hst. simpl. rewrite Hh. simpl. unfold await_admission, awaited. rewrite Hn, Hdb, Ha.
  cbn [result_bind]. destruct (settle_ready_location_writes _ _ _) as [s' outcomes]. simpl.
  intros Hw' Hst. by exists outcomes.
Qed.

(** ** What the owner guarantees *)

(** C16: Location writes are numbered consecutively from one as they are
    queued, and every queued write is reported at most once: what was reported,
    what a finish has in hand and what still waits are distinct queued writes,
    and all of them unless a ride was discarded or the recording was restored
    with a recovery policy.  They are reported in the order they were queued,
    whatever order the database answers in, if no call overtakes a finish: none
    reports writes, or settles some for the next report, while a transition,
    stop or connection that released its first lock still has settled writes in
    hand.  If no call queues a write in that time, at most
    [MAX_PENDING_LOCATION_WRITES] are waiting or in hand at a time. *)
Theorem writes_reported_once_in_order calls :
  let w := (run owner_new calls).1 in
  let trace := (run owner_new calls).2 in
  tk_id <$> queued_in trace = seqZ 1 (Z.of_nat (length (queued_in trace)))
  /\ reported_in trace ++ tickets w ⊆+ queued_in trace
  /\ (forgotten_in trace = false -> reported_in trace ++ tickets w ≡ₚ queued_in trace)
  /\ (overtaken_in trace = false ->
      sublist (reported_in trace ++ tickets w) (queued_in trace)
      /\ (forgotten_in trace = false -> reported_in trace ++ tickets w = queued_in trace))
  /\ (crowded_in trace = false ->
      Z.of_nat (length (tickets w)) <= MAX_PENDING_LOCATION_WRITES).
Proof.
  destruct (run_settles owner_new calls owner_new_ok) as [lost H]. cbv zeta.
  destruct (run owner_new calls) as [w trace].
  assert (tickets owner_new = [] /\ in_order owner_new
          /\ a_next_location_request_id (ow_state owner_new) = 1) as (E1 & E2 & E3)
    by by unfold owner_new, application_new, in_order; destruct database; split_ands; try left.
  destruct H as [H1 H2 H3 H4 H5]. simpl in *. rewrite E1, E3 in *. simpl in *. split_ands; auto.
  - rewrite H2, app_assoc. by apply submseteq_inserts_r.
  - intros Hf. by rewrite H2, H3, app_nil_r.
Qed.

(** C17: After any calls, at most one begun operation is unfinished, and it is
    the one the recording's lease names; and while a ride is recorded, the
    recorder that admits new samples holds the route, the lifecycle and the
    generation that the durable recorder will hold once the writes still
    pending are recorded in it, in order. *)
Theorem admission_is_durable_plus_pending calls :
  let w := (run owner_new calls).1 in
  let s := ow_state w in
  (length (ow_held w) <= 1)%nat
  /\ a_pending_command_id s = lease <$> head (ow_held w)
  /\ (is_Some (a_ride_id s) ->
      same_route (a_admission_recorder s)
        (rebuilt great_circle (a_recorder s) (a_pending_locations s))).
Proof.
  cbv zeta. destruct (run_ok owner_new calls owner_new_ok) as [L S]. unfold leased in L.
  split_ands; [..|apply (snd_shadows _ _ S)];
    destruct (ow_held _) as [|o [|]]; simpl; try done; try lia. by destruct L.
Qed.

(** C18: With a database, the lifecycle that the recording shows changes only
    when an operation is finished, as an answer of the database allows.  A
    restoration shows the lifecycle of the ride in the snapshot it read, an
    interrupted ride that was paused by hand as paused if a policy is enabled;
    with a policy also Active, once the resume of that ride was committed, or,
    once its settlement was answered, Saved, no ride, or the running ride
    answered in its place.  A start shows the active ride of its commit; a
    transition and a stop the lifecycle of a commit that names this ride, a stop
    only after the music queue let it through.  A connection that planned
    something shows a running ride, agreeing with the commit for it, or needs
    recovery, after an outcome for the selected vehicle.  A transition, a stop
    and a connection were given that answer by an earlier call, the first locked
    region of the same finish.  Nothing else changes it, refusals, failures and
    drops included. *)
Theorem lifecycle_published_after_commit calls c :
  database = true ->
  let w := (run owner_new calls).1 in
  let s' := ow_state (owner_step w c).1 in
  lifecycle_of s' <> lifecycle_of (ow_state w) ->
  exists index answers o,
    c = Finish index answers /\ ow_held w !! index = Some o
    /\ allowed calls index o answers (ow_state w) s'.
Proof.
  cbv zeta. intros Hdb Hne. pose proof (run_ok owner_new calls owner_new_ok) as Hw.
  pose proof (fun index o answers => finish_lifecycle calls index o answers Hdb) as H.
  cbv zeta in H. generalize dependent (run owner_new calls).1. intros w Hne Hw H.
  destruct c; try (by destruct Hne; apply other_lifecycle).
  exists index, answers. revert Hne. unfold owner_step.
  destruct (ow_held w !! index) as [o|] eqn:Ho; [|done]. specialize (H index o answers Ho).
  destruct (finish _ _ _ _) as [[s' k'] [r|rest]]; intros Hne; exists o; split_ands; auto.
Qed.

End Owner.

(** ** A short recording

    A database that answers every write, two fixes queued one after the other,
    the second answered before the first. *)
Definition stored_checkpoint : MovingTimeCheckpoint :=
  {| cp_revision := 1; cp_continuation := new_live 0 |}.
Definition stored_write : LocationWriteResult :=
  {| lw_admission := Accepted; lw_sequence := Some 1; lw_checkpoint := stored_checkpoint |}.
Definition first_ride : RideId := 7.
Definition answers_with (committed : result Committed StorageError) : Answers :=
  {| an_policy := None;
     an_restore := Ok {| rs_last_connected_device := None; rs_ride := None; rs_route_points := [];
                         rs_music_history_policy := None; rs_music_history_available := true |};
     an_committed := committed; an_settled := Err OtherStorageError; an_fence := true;
     an_admission := Err OtherStorageError;
     an_ready := fun _ => None; an_fresh_id := first_ride |}.
Definition commits (lifecycle : RideLifecycleState) : Answers :=
  answers_with (Ok {| cm_ride_id := first_ride; cm_lifecycle := lifecycle;
                      cm_checkpoint := stored_checkpoint |}).
Definition queues : LocationAnswers :=
  {| la_fence := Ok tt; la_settled := fun _ => Ok stored_write; la_stationary := Ok Applied;
     la_clock := Ok Applied; la_queue := Ok tt |}.
Definition short_recording : list (OwnerCall (Float := Z)) :=
  [BeginRestore (Ok tt); Finish 0 (commits Active);
   BeginStart 0 None None (Ok tt); Finish 0 (commits Active);
   Locate (fix_at 1000 1) queues; Locate (fix_at 6000 2) queues;
   Poll (fun id => if bool_decide (id = 2) then Some (Ok stored_write) else None)].
Definition token_of (w : Owner) : RecordingToken :=
  {| rt_ride_id := first_ride; rt_generation := a_generation (ow_state w) |}.
(** The answer to the second write waits for that to the first. *)
Example polled_in_order :
  let answers id := if bool_decide (id = 2) then Some (Ok stored_write) else None in
  let all id := Some (Ok stored_write) in
  let r := run true flat Some (owner_new true)
             (short_recording ++ [Poll answers; Poll all; Poll all]) in
  (fun e => tk_id <$> reported e.2) <$> drop 7 r.2 = [[]; [1; 2]; []].
Proof. vm_compute. reflexivity. Qed.
(** A write queued while a discard is being committed is forgotten. *)
Example discard_forgets_write :
  let all id := Some (Ok stored_write) in
  let r := run true flat Some (owner_new true)
             (short_recording ++
              [Poll all; BeginTransition {| rt_ride_id := first_ride; rt_generation := 2 |} Discard
                           7000 None (Ok tt);
               Locate (fix_at 8000 3) queues; Finish 0 (commits Discarded);
               Finish 0 (commits Discarded); Poll all]) in
  tk_id <$> queued_in r.2 = [1; 2; 3] /\ tk_id <$> reported_in r.2 = [1; 2]
  /\ waiting (ow_state r.1) = [].
Proof. vm_compute. repeat split. Qed.

(** The recording is paused; the first write is answered by then, and so in
    the hand of the finish while [meanwhile] happens. *)
Definition pauses : Answers :=
  {| an_policy := None; an_restore := Err OtherStorageError;
     an_committed := Ok {| cm_ride_id := first_ride; cm_lifecycle := Paused;
                           cm_checkpoint := stored_checkpoint |};
     an_settled := Err OtherStorageError; an_fence := true;
     an_admission := Err OtherStorageError;
     an_ready := fun id => if bool_decide (id = 1) then Some (Ok stored_write) else None;
     an_fresh_id := first_ride |}.
Definition paused_recording (meanwhile : list (OwnerCall (Float := Z)))
  : list (OwnerCall (Float := Z)) :=
  short_recording ++
  [BeginTransition {| rt_ride_id := first_ride; rt_generation := 2 |} Pause 7000 None (Ok tt);
   Finish 0 pauses] ++ meanwhile ++ [Finish 0 pauses; Poll (fun _ => Some (Ok stored_write))].
(** A poll between the two locks of the finish reports the second write before
    the first. *)
Example poll_overtakes_finish :
  let r := run true flat Some (owner_new true)
             (paused_recording [Poll (fun _ => Some (Ok stored_write))]) in
  tk_id <$> queued_in r.2 = [1; 2] /\ tk_id <$> reported_in r.2 = [2; 1]
  /\ lifecycle_of (ow_state r.1) = Some Paused.
Proof. vm_compute. repeat split. Qed.

Lemma writes_reported_once_in_order_witness :
  let calls := paused_recording [Locate (fix_at 8000 3) queues] in
  let w := (run true flat Some (owner_new true) calls).1 in
  let trace := (run true flat Some (owner_new true) calls).2 in
  tk_id <$> reported_in trace = [1; 2; 3] /\ reported_in trace ++ tickets w = queued_in trace.
Proof.
  cbv zeta. split; [vm_compute; reflexivity|].
  destruct (writes_reported_once_in_order true flat Some
    (paused_recording [Locate (fix_at 8000 3) queues])) as (_ & _ & _ & H & _).
  apply H; vm_compute; reflexivity.
Defined.
Lemma admission_is_durable_plus_pending_witness :
  let s := ow_state (run true flat Some (owner_new true) short_recording).1 in
  length (points (a_recorder s)) = 0%nat /\ length (points (a_admission_recorder s)) = 2%nat
  /\ same_route (a_admission_recorder s)
       (rebuilt flat (a_recorder s) (a_pending_locations s)).
Proof.
  split; [vm_compute; reflexivity|]. split; [vm_compute; reflexivity|].
  apply (admission_is_durable_plus_pending true flat Some short_recording).
  vm_compute. by eexists.
Defined.
Definition pausing : list (OwnerCall (Float := Z)) :=
  short_recording ++
  [BeginTransition {| rt_ride_id := first_ride; rt_generation := 2 |} Pause 7000 None (Ok tt);
   Finish 0 pauses].
Lemma lifecycle_published_after_commit_witness :
  let w := (run true flat Some (owner_new true) pausing).1 in
  let s' := ow_state (owner_step true flat Some w (Finish 0 pauses)).1 in
  lifecycle_of s' = Some Paused /\
  exists index answers o,
    Finish (Float := Z) 0 pauses = Finish index answers /\ ow_held w !! index = Some o
    /\ allowed true flat Some pausing index o answers (ow_state w) s'.
Proof.
  split; [vm_compute; reflexivity|].
  apply (lifecycle_published_after_commit true flat Some pausing (Finish 0 pauses) eq_refl).
  vm_compute. discriminate.
Defined.

(** A wheel takes over from the scooter whose ride was being recorded; a fix
    arrives while the admission is being committed. *)
Definition second_ride : RideId := 8.
Definition scooter : text := chars "scooter".
Definition taken_over : VerifiedConnectionAdmissionOutcome :=
  {| vo_selected_device_matches := true; vo_created_ride_id := Some second_ride;
     vo_committed_ride_checkpoint :=
       Some {| cm_ride_id := second_ride; cm_lifecycle := Active;
               cm_checkpoint := stored_checkpoint |} |}.
Definition admits (outcome : VerifiedConnectionAdmissionOutcome) : Answers :=
  {| an_policy := None;
     an_restore := Err OtherStorageError; an_committed := Err OtherStorageError;
     an_settled := Err OtherStorageError; an_fence := true; an_admission := Ok outcome;
     an_ready := fun _ => Some (Ok stored_write); an_fresh_id := first_ride |}.
Definition scooter_recording : list (OwnerCall (Float := Z)) :=
  [BeginRestore (Ok tt); Finish 0 (commits Active);
   BeginStart 0 (vehicle_identity_new scooter) None (Ok tt); Finish 0 (commits Active);
   Locate (fix_at 1000 1) queues].
Definition wheel_connects : OwnerCall (Float := Z) :=
  BeginConnection (chars " wheel ") 5000 3 PolicyDisabled (Some 900000) (Ok true)
    (Ok (Some (chars "wheel"))) (fun _ _ => Ok tt).
Example wheel_takes_over :
  let r := run true flat Some (owner_new true)
             (scooter_recording ++ [wheel_connects; Locate (fix_at 6000 2) queues;
                                    Finish 0 (admits taken_over);
                                    Finish 0 (admits taken_over); wheel_connects]) in
  let s := ow_state r.1 in
  (a_ride_id s, lifecycle_of s, associated_vehicle (a_recorder s), point_count (summary (a_recorder s)),
   ow_held r.1)
  = (Some second_ride, Some Active, Some (chars "wheel"), 0, []).
Proof. vm_compute. reflexivity. Qed.

(** A fix admitted while the admission is being committed is newer than the
    association, which is then refused: the database was given the vehicle, the
    recording has none. *)
Definition connected : VerifiedConnectionAdmissionOutcome :=
  {| vo_selected_device_matches := true; vo_created_ride_id := None;
     vo_committed_ride_checkpoint := None |}.
Definition given_vehicle (o : Operation) : option text :=
  match o with
  | OpConnection o => pr_metadata (pv_selected_preview o) ≫= vm_associated_vehicle
  | _ => None
  end.
Definition unnamed_recording : list (OwnerCall (Float := Z)) :=
  [BeginRestore (Ok tt); Finish 0 (commits Active);
   BeginStart 0 None None (Ok tt); Finish 0 (commits Active)].
Example association_lost :
  let w := (run true flat Some (owner_new true) (unnamed_recording ++ [wheel_connects])).1 in
  let after calls := (run true flat Some w
    (calls ++ [Finish 0 (admits connected); Finish 0 (admits connected)])).1 in
  let vehicle w := associated_vehicle (a_recorder (ow_state w)) in
  (given_vehicle <$> ow_held w, vehicle (after []),
   vehicle (after [Locate (fix_at 6000 2) queues]))
  = ([Some (chars "wheel")], Some (chars "wheel"), None).
Proof. vm_compute. reflexivity. Qed.

